(* ===== verification/_CoqProject ===== *)
-Q . S2P
Prelude.v
Capability.v
Block.v
NextfsLayout.v
NextfsAlloc.v
NextfsFile.v
NextfsDir.v
NextfsSpec.v
NextfsIO.v
NextfsProps.v
NextfsFree.v
NextfsDirSpec.v
VfsTable.v
Vfs.v
VfsPipes.v
VfsProps.v
Signal.v
Task.v
TaskSpec.v
TaskTree.v
TaskSteps.v
TaskRun.v
TaskWait.v
TaskProps.v
Ipc.v
IpcProps.v
Frames.v
Paging.v
PagingRef.v
Memory.v
MemorySpec.v
MemoryCopy.v
MemoryFork.v
MemoryProps.v
MemorySteps.v
MemoryRefine.v
Bytes.v
Elf.v
ElfStack.v
ElfLoad.v
ElfProps.v
ElfReloc.v
UserMem.v
Irq.v
ConsoleIn.v
Ps2.v
Mmio.v
MemFs.v
Services.v
Terminal.v
Canvas.v
Framebuffer.v
FramebufferProps.v
FramebufferText.v
VgaText.v
Pci.v
E1000.v
E1000Props.v
Ahci.v
AhciProps.v
Wm.v
Net.v
World.v
Utf8.v
Compositor.v
CompositorProps.v
Syscall.v
SyscallGate.v
SyscallTree.v
SyscallFiles.v
SyscallMem.v
SyscallDemo.v
UserLib.v
UserLibProps.v
UserGui.v
Widgets.v
WidgetsProps.v
TextEdit.v
TextEditProps.v
