(* ===== verification/Prelude.v ===== *)
(** * PickleOS: a verification library

    PickleOS is a small operating system in Rust: a kernel (kernel/src/), the library its
    programs are linked with (userspace/libpickleos/) and a few programs.  This library
    translates the code that carries its logic into executable functions and proves what the
    functions do.  This file is the root: the notions all others share are below.  Paths in
    comments such as [fs/vfs.rs:10-20, open] are relative to kernel/src/ and name the lines
    that a definition translates; [userspace/...] is relative to the repository.

    ** How code is modelled

    A function of the source is a Rocq function with the same guards and early returns in the
    same order.  A call returns an [outcome]: [Ok], [Err] (the source's [Result] or
    early return), [Panic] (an index out of range, [unwrap] of nothing, crossed bounds of
    [clamp]) or [Diverge] (a loop whose fuel ran out, or a task that is still asleep).  State
    - the statics behind locks, the fields behind [&mut self] - is passed explicitly by the
    monad [stm]; what a call has changed before it fails or panics stays changed.  Taking a lock
    is the passing of the state, except in [Ipc], where two locks are taken in the wrong order
    and are part of the model.  Integers are [Z] with the wrapping of a release build
    written out ([wrap], [signed]); bytes are lists of [Z].  Maps of the source are [gmap]s,
    vectors are lists.

    Code that is not in the repository is a class with the behaviour its documentation
    promises as laws; each class with laws has an instance that meets them, on which the theorems
    are run.  Interfaces between components are classes as well, and the component that
    implements one discharges it:
    - [SataHw] (the disk under the block layer), [BlockDev]/[BlockLaws] (the block layer
      under NextFS; instance in Block), [Codec] (on-disk structures);
    - [KernelEnv] (console and sockets under the VFS), [TaskEnv] (the rest of the kernel under the
      tasks), [IpcEnv] (under the messages): all three discharged in World by the components;
    - [ServiceEnv] (the heap under the boxed requests of services);
    - [Paging]/[PagingLaws] ([map_to] of the x86_64 crate; instance in PagingRef), [Addresses],
      [Processor], [Selectors], [Unmapper] (the same crate's address arithmetic, the processor's
      walk, the segment selectors, unmapping);
    - [Smoltcp]/[SmoltcpLaws] (the TCP/IP crate), [KeyDecoder] (pc-keyboard), [Font]/[FontLaws]
      (font8x8), [Ports] and [Ports32] (I/O ports), [Registers] and [KernelPages] (device memory and
      the kernel's window on it), [Hba] (the AHCI
      controller), [NicHw] (the 82540EM card), [Console] and [Printer] (what is typed and
      printed).

    ** The parts of the program

    Storage.  Block: driver/block.rs.  NextfsLayout, NextfsAlloc, NextfsFile, NextfsDir:
    fs/nextfs.rs, from the on-disk structures up to directories, format and mount; NextfsSpec,
    NextfsIO, NextfsProps, NextfsFree, NextfsDirSpec: files as functions from positions to
    bytes, directories as finite maps, and that reads, writes, truncation, creation and
    deletion implement these on a sound volume.  VfsTable, Vfs: fs/vfs.rs and fs/mod.rs,
    descriptors, pipes, paths and the calls; VfsPipes, VfsProps: the reference counts and byte
    streams of pipes over any interleaving, and the calls' behaviour.  MemFs: services/memfs.rs.

    Processes.  Signal: signal.rs.  Task: task.rs; TaskSpec, TaskTree, TaskSteps,
    TaskRun, TaskWait, TaskProps: the table as a map from ids to tasks, the process tree, fairness
    of the scheduler, fork, exit, wait, signals, and what the slot of a dead task does to the
    next one.  Ipc, IpcProps: ipc.rs.  Services:
    services/vfs.rs and services/registry.rs on top of it.  Capability: capability.rs.

    Memory.  Frames: the frame allocator of memory.rs, driver/dma.rs, and memory that devices
    share.  Paging, Memory: the rest of memory.rs and the page-fault handler of interrupts.rs; PagingRef, MemorySpec,
    MemoryCopy, MemoryFork, MemoryProps, MemorySteps, MemoryRefine: the separation invariant,
    and the refinement of isolated memories by page tables with copy-on-write.  Bytes,
    Elf: elf.rs; ElfStack, ElfLoad, ElfProps, ElfReloc: the first stack, the segments, relocations
    and symbols.  UserMem: the kernel's accesses through user pointers.

    Devices.  Irq: driver/irq.rs.  ConsoleIn: driver/console.rs.  Ps2: driver/portio.rs,
    driver/keyboard.rs, driver/mouse.rs.  Mmio: driver/mmio.rs.  Pci: driver/pci.rs.  Ahci,
    AhciProps: driver/ahci.rs.  E1000, E1000Props: driver/e1000.rs.  Net: net/stack.rs and
    net/demo.rs.

    The screen.  Canvas: pictures and the calls that paint them.  Framebuffer, FramebufferProps,
    FramebufferText: framebuffer.rs.  Terminal: terminal.rs.  VgaText: vga_buffer.rs and
    serial.rs.  Wm: wm.rs, the window server.  Compositor,
    CompositorProps: gui.rs, the desktop that frames its windows and hands them their input.

    System calls.  World puts the components together; Utf8 checks strings; Syscall is
    syscall.rs, the dispatcher and every call; SyscallGate, SyscallTree, SyscallFiles, SyscallMem:
    what is refused, that the process tree survives every call, files and memory
    through calls; SyscallDemo: a whole kernel on test devices.

    Programs.  UserLib, UserLibProps: the wrappers of userspace/libpickleos (syscall.rs,
    process.rs, ipc.rs, memory.rs, capability.rs, socket.rs) over the dispatcher.  UserGui, Widgets, WidgetsProps: gui.rs,
    font.rs, widgets.rs.  TextEdit, TextEditProps: userspace/texteditor.

    ** What the theorems show

    Refinement: NextFS files and directories, address spaces, the loader, the file system
    service, the framebuffer console, text boxes and the editor do what short specifications
    say.  Round trips: system calls on files, the first stack, signal handlers.  Invariants over
    any order of calls: the process tree, pipe counts, authority, the window registry, IPC queues,
    interrupts, sockets, the rings of the network card, the desktop.  Safety and bounds: refused
    system calls change nothing, a transfer touches only the sectors it names, drawing
    stays inside its memory, registers are reached only with a capability.  Liveness:
    every runnable task is scheduled, exit wakes the waiting parent.  Termination: receive
    returns.  Where a statement did not hold, an [Example] shows the state in which the code
    goes wrong; the manifest of the library lists these findings with the lines concerned.

    ** Bounds and fuel

    - Reads and writes of a file loop with the fuel [S len], one round per byte at least; a
      directory is searched in 66 blocks at most; offsets are below 2^41, where the code's
      block index wraps.
    - A call that sleeps takes the list of what the others do at each of its yields and needs
      [2 * length sched + 3] rounds; with a longer list it has not finished.
    - [receive] needs one unit of fuel per wake-up; the loader's fuel is [S (S len)] for a file of
      [len] bytes; [send_all] more than the length of its data; the drains of the PS/2
      controller and the loops of programs are bounded by the fuel given, and their theorems
      hold for every fuel that suffices.
    - The driver polls the AHCI controller 1000 or 2000 times and the EEPROM 1000 times, as in the
      source; transfers of one command are at most 8192 sectors, beyond which the source is
      wrong.
    - Identifiers that the source counts up in 64 bits are assumed not to have wrapped; the ids
      of sockets have 32 bits, and their theorem says so.
    - At most 2^29 kernel stacks are handed out where a theorem is about the addresses of stacks;
      no program loaded has a relocation table where it is about the bytes of a program, and
      ElfReloc says what a table does.

    ** What is not modelled, and why

    Assembly and processor tables: the context switch, the entry stubs, gdt.rs, the
    interrupt descriptor table of interrupts.rs.  Boot and glue: main.rs, init_user.rs, userprogs.rs,
    services/init.rs, services/mod.rs, driver/mod.rs, net/mod.rs, allocator.rs (the heap is the
    linked_list_allocator crate), driver/timer.rs (it only logs).  shell.rs is a command
    interpreter over calls that are modelled.  The programs filemanager, launcher and
    taskbar use calls that are modelled.  The C test programs, the build files and
    the scripts are outside of the kernel.  Log lines on the serial port are left out
    everywhere. *)

From stdpp Require Export prelude gmap list numbers strings.
From Stdlib Require Export ZArith Lia.

#[global] Open Scope Z_scope.
#[global] Set Default Goal Selector "!".

(** ** Outcomes

    A Rust call of the kernel ends in one of four ways: it returns [Ok], it
    returns [Err] (or an early [?] return), it panics (a slice index out of
    range, [expect] on [None], ...), or - for a loop given by fuel - it has
    not finished within the fuel. *)
Inductive outcome (E A : Type) : Type :=
| Ok (a : A)
| Err (e : E)
| Panic
| Diverge.
Arguments Ok {E A} a.
Arguments Err {E A} e.
Arguments Panic {E A}.
Arguments Diverge {E A}.

#[export] Instance outcome_eq_dec {E A} `{EqDecision E} `{EqDecision A} :
  EqDecision (outcome E A).
Proof. solve_decision. Defined.

Definition obind {E A B} (m : outcome E A) (f : A → outcome E B) : outcome E B :=
  match m with
  | Ok a => f a
  | Err e => Err e
  | Panic => Panic
  | Diverge => Diverge
  end.

(** [Result::map_err] / the [From] conversion done by [?]. *)
Definition map_err {E E' A} (f : E → E') (m : outcome E A) : outcome E' A :=
  match m with
  | Ok a => Ok a
  | Err e => Err (f e)
  | Panic => Panic
  | Diverge => Diverge
  end.

(** [Option::ok_or] *)
Definition ok_or {E A} (o : option A) (e : E) : outcome E A :=
  match o with Some a => Ok a | None => Err e end.

(** Indexing a slice: out of range panics. *)
Definition or_panic {E A} (o : option A) : outcome E A :=
  match o with Some a => Ok a | None => Panic end.

Definition is_ok {E A} (m : outcome E A) : bool :=
  match m with Ok _ => true | _ => false end.

(** The value of an outcome, or a default. *)
Definition outcome_or {E A} (d : A) (m : outcome E A) : A :=
  match m with Ok a => a | _ => d end.

(** ** Stateful calls

    A method with [&mut self] returns an outcome and the new state; the state
    changes made before an error return or a panic stay. *)
Definition stm (S E A : Type) : Type := S → outcome E A * S.

Definition sret {S E A} (a : A) : stm S E A := λ s, (Ok a, s).
Definition sthrow {S E A} (e : E) : stm S E A := λ s, (Err e, s).
Definition sbind {S E A B} (m : stm S E A) (f : A → stm S E B) : stm S E B := λ s,
  match m s with
  | (Ok a, s') => f a s'
  | (Err e, s') => (Err e, s')
  | (Panic, s') => (Panic, s')
  | (Diverge, s') => (Diverge, s')
  end.
Definition sget {S E A} (f : S → A) : stm S E A := λ s, (Ok (f s), s).
Definition smodify {S E} (f : S → S) : stm S E unit := λ s, (Ok tt, f s).
Definition slift {S E A} (m : outcome E A) : stm S E A := λ s, (m, s).
(** A method with [&self]. *)
Definition sread {S E A} (f : S → outcome E A) : stm S E A := λ s, (f s, s).

(** [for x in l { f(x)?; }] *)
Fixpoint sfor {S E A} (l : list A) (f : A → stm S E unit) : stm S E unit :=
  match l with
  | [] => sret tt
  | x :: l => sbind (f x) (λ _, sfor l f)
  end.

Declare Scope kernel_scope.
Delimit Scope kernel_scope with kernel.
Notation "'let?' x := e 'in' k" := (obind e (λ x, k))
  (at level 10, x binder, e at level 200, k at level 200) : kernel_scope.
Notation "'let!' x := e 'in' k" := (sbind e (λ x, k))
  (at level 10, x binder, e at level 200, k at level 200) : kernel_scope.
#[global] Open Scope kernel_scope.

Section outcome_laws.
Context {S E A B : Type}.

Lemma obind_Ok_inv (m : outcome E A) (f : A → outcome E B) b :
    obind m f = Ok b → ∃ a, m = Ok a ∧ f a = Ok b.
Proof. destruct m; naive_solver. Qed.

Lemma sbind_Ok_inv (m : stm S E A) (f : A → stm S E B) s b s' :
    sbind m f s = (Ok b, s') → ∃ a s1, m s = (Ok a, s1) ∧ f a s1 = (Ok b, s').
Proof. unfold sbind. destruct (m s) as [[]]; naive_solver. Qed.

Lemma sbind_Ok (m : stm S E A) (f : A → stm S E B) s a s1 :
    m s = (Ok a, s1) → sbind m f s = f a s1.
Proof. unfold sbind. by intros ->. Qed.

Lemma sbind_not_diverge (m : stm S E A) (f : A → stm S E B) s :
    (m s).1 ≠ Diverge → (∀ a s1, (f a s1).1 ≠ Diverge) → (sbind m f s).1 ≠ Diverge.
Proof. unfold sbind. destruct (m s) as [[]]; simpl; naive_solver. Qed.

Lemma map_err_Ok {E'} (g : E → E') (m : outcome E A) a :
    map_err g m = Ok a ↔ m = Ok a.
Proof. destruct m; naive_solver. Qed.

Lemma ok_or_Ok (o : option A) (e : E) a : ok_or o e = Ok a ↔ o = Some a.
Proof. destruct o; naive_solver. Qed.

Lemma or_panic_Ok (o : option A) a : or_panic (E:=E) o = Ok a ↔ o = Some a.
Proof. destruct o; naive_solver. Qed.
End outcome_laws.

(** A counting loop by its invariant. *)
Lemma sfor_seqZ {St E} (I : Z → St → Prop) (f : Z → stm St E unit) n a s s' :
  I a s →
  (∀ i s1 s2, a ≤ i < a + Z.of_nat n → I i s1 → f i s1 = (Ok tt, s2) → I (i + 1) s2) →
  sfor (seqZ a (Z.of_nat n)) f s = (Ok tt, s') → I (a + Z.of_nat n) s'.
Proof.
  revert a s. induction n as [|n IH]; intros a s Ha Hstep.
  - rewrite seqZ_nil by lia. intros [= <-]. by rewrite Z.add_0_r.
  - rewrite seqZ_cons by lia. intros Hrun. simpl in Hrun.
    apply sbind_Ok_inv in Hrun as ([]&s1&H1&H2).
    replace (Z.pred (Z.of_nat (S n))) with (Z.of_nat n) in H2 by lia.
    replace (a + Z.of_nat (S n)) with (Z.succ a + Z.of_nat n) by lia.
    apply (IH (Z.succ a) s1); [|intros; eapply Hstep; eauto; lia|done].
    replace (Z.succ a) with (a + 1) by lia. apply (Hstep a s); [lia|done|done].
Qed.

(** The same for every way the loop can end. *)
Lemma sfor_seqZ_result {St E} (I : Z → St → Prop) (J : Z → outcome E unit → St → Prop) (f : Z → stm St E unit) n a s r s' :
  I a s →
  (∀ i s1 r1 s2, a ≤ i < a + Z.of_nat n → I i s1 → f i s1 = (r1, s2) →
     match r1 with Ok _ => I (i + 1) s2 | _ => J i r1 s2 end) →
  sfor (seqZ a (Z.of_nat n)) f s = (r, s') →
  match r with
  | Ok _ => I (a + Z.of_nat n) s'
  | _ => ∃ i, a ≤ i < a + Z.of_nat n ∧ J i r s'
  end.
Proof.
  revert a s. induction n as [|n IH]; intros a s Ha Hstep.
  - rewrite seqZ_nil by lia. intros [= <- <-]. by rewrite Z.add_0_r.
  - rewrite seqZ_cons by lia. intros Hrun. simpl in Hrun. unfold sbind in Hrun.
    destruct (f a s) as [r1 s1] eqn:Hf.
    pose proof (Hstep a s r1 s1 ltac:(lia) Ha Hf) as H1.
    destruct r1 as [u|e| |]; [|injection Hrun as <- <-; exists a; split; [lia|done]..].
    replace (Z.pred (Z.of_nat (S n))) with (Z.of_nat n) in Hrun by lia.
    replace (a + Z.of_nat (S n)) with (Z.succ a + Z.of_nat n) by lia.
    assert (match r with Ok _ => I (Z.succ a + Z.of_nat n) s' |
      _ => ∃ i, Z.succ a ≤ i < Z.succ a + Z.of_nat n ∧ J i r s' end) as Hr.
    { apply (IH (Z.succ a) s1); [by replace (Z.succ a) with (a + 1) by lia| |done].
      intros i t1 r2 t2 Hi. apply Hstep. lia. }
    destruct r; [done|destruct Hr as (i&?&?); exists i; split; [lia|done]..].
Qed.

(** A run by its two components. *)
Lemma run_eq {A B} (p : A * B) a b : p.1 = a → p.2 = b → p = (a, b).
Proof. destruct p. simpl. congruence. Qed.

(** Prove a run [p = (r, s')] on literals, where [s'] is the named state after it. *)
Ltac compute_run s := apply run_eq; [vm_compute; reflexivity|unfold s; reflexivity].

(** Invert a successful run of a monadic program, one bind at a time. *)
Ltac run_inv H :=
  first
    [ apply obind_Ok_inv in H as (?&?&H)
    | apply sbind_Ok_inv in H as (?&?&?&H)
    | progress (unfold sret, sget, smodify, slift, sread in H; simplify_eq/=) ].

(** ** Machine integers *)
Definition wrap (w x : Z) : Z := x mod 2 ^ w.
Abbreviation wrap8 := (wrap 8).
Abbreviation wrap16 := (wrap 16).
Abbreviation wrap32 := (wrap 32).
Abbreviation wrap64 := (wrap 64).

(** Two's complement reading of a [w]-bit word ([x as i64]). *)
Definition signed (w x : Z) : Z :=
  if decide (x mod 2 ^ w < 2 ^ (w - 1)) then x mod 2 ^ w else x mod 2 ^ w - 2 ^ w.

Definition u64_max : Z := 2 ^ 64 - 1.
(** [u32::saturating_sub] *)
Definition sat_sub (x y : Z) : Z := Z.max 0 (x - y).

Lemma wrap_bounds w x : 0 ≤ w → 0 ≤ wrap w x < 2 ^ w.
Proof. intros. unfold wrap. apply Z.mod_pos_bound. lia. Qed.

Lemma wrap_small w x : 0 ≤ x < 2 ^ w → wrap w x = x.
Proof. intros. unfold wrap. by apply Z.mod_small. Qed.

Lemma wrap_wrap w x : 0 ≤ w → wrap w (wrap w x) = wrap w x.
Proof. intros. apply wrap_small, wrap_bounds. done. Qed.

(** ** Bytes *)
Abbreviation bytes := (list Z).
Definition byte_ok (b : Z) : Prop := 0 ≤ b < 256.

(** String literals of the source, as their bytes. *)
Definition str (s : string) : bytes :=
  (λ a, Z.of_nat (Ascii.nat_of_ascii a)) <$> String.list_ascii_of_string s.

(** [to_le_bytes] of an [n]-byte integer, and [from_le_bytes]. *)
Fixpoint le_enc (n : nat) (z : Z) : bytes :=
  match n with
  | O => []
  | S n => z mod 256 :: le_enc n (z / 256)
  end.

Fixpoint le_dec (l : bytes) : Z :=
  match l with
  | [] => 0
  | b :: l => b + 256 * le_dec l
  end.

Lemma length_le_enc n z : length (le_enc n z) = n.
Proof. revert z. induction n; intros; simpl; auto. Qed.

Lemma le_dec_enc n z : le_dec (le_enc n z) = z mod 256 ^ Z.of_nat n.
Proof.
  revert z. induction n as [|n IH]; intros z; simpl le_enc; simpl le_dec.
  { by rewrite Z.mod_1_r. }
  rewrite IH, Nat2Z.inj_succ, Z.pow_succ_r by lia.
  rewrite Z.rem_mul_r by lia. lia.
Qed.

Lemma le_dec_enc_small n z : 0 ≤ z < 256 ^ Z.of_nat n → le_dec (le_enc n z) = z.
Proof. intros. rewrite le_dec_enc. by apply Z.mod_small. Qed.

(** ** UTF-8

    [core::str::from_utf8] accepts the well-formed byte sequences of the
    Unicode standard (its table 3-7); a [&str] always satisfies it. *)
Definition utf8_cont (b : Z) : bool := (128 <=? b) && (b <=? 191).
Definition utf8_second (b0 b1 : Z) : bool :=
  if b0 =? 224 then (160 <=? b1) && (b1 <=? 191) else
  if b0 =? 237 then (128 <=? b1) && (b1 <=? 159) else
  if b0 =? 240 then (144 <=? b1) && (b1 <=? 191) else
  if b0 =? 244 then (128 <=? b1) && (b1 <=? 143) else utf8_cont b1.
Fixpoint utf8_valid (l : bytes) : bool :=
  match l with
  | [] => true
  | b0 :: l1 =>
      if (0 <=? b0) && (b0 <? 128) then utf8_valid l1 else
      match l1 with
      | [] => false
      | b1 :: l2 =>
          if (194 <=? b0) && (b0 <=? 223) then utf8_cont b1 && utf8_valid l2 else
          match l2 with
          | [] => false
          | b2 :: l3 =>
              if (224 <=? b0) && (b0 <=? 239)
              then utf8_second b0 b1 && utf8_cont b2 && utf8_valid l3 else
              match l3 with
              | [] => false
              | b3 :: l4 =>
                  (240 <=? b0) && (b0 <=? 244) && utf8_second b0 b1 && utf8_cont b2 &&
                  utf8_cont b3 && utf8_valid l4
              end
          end
      end
  end.

(** ** Packed structures

    A [#[repr(C, packed)]] structure is its fields one after the other:
    [split_sizes] cuts a buffer along the field sizes. *)
Fixpoint split_sizes (sizes : list nat) (b : bytes) : list bytes :=
  match sizes with
  | [] => []
  | n :: sizes => take n b :: split_sizes sizes (drop n b)
  end.

Lemma split_sizes_join ls rest :
  split_sizes (length <$> ls) (mjoin ls ++ rest) = ls.
Proof.
  induction ls as [|l ls IH]; simpl; [done|].
  rewrite <-(assoc_L (++)). f_equal; [apply take_app_length|].
  rewrite drop_app_length. apply IH.
Qed.

(** ** Windows of a buffer: [buf[off..off+n]] and [copy_from_slice] into it *)
Definition slice {A} (off n : nat) (l : list A) : list A := take n (drop off l).
Definition splice {A} (off : nat) (new l : list A) : list A :=
  take off l ++ new ++ drop (off + length new) l.

Section windows.
Context {A : Type}.
Implicit Types l new : list A.

Lemma length_slice off n l :
    (off + n ≤ length l)%nat → length (slice off n l) = n.
Proof. intros. unfold slice. rewrite length_take, length_drop. lia. Qed.

Lemma length_splice off new l :
    (off + length new ≤ length l)%nat → length (splice off new l) = length l.
Proof.
    intros. unfold splice. rewrite !length_app, length_take, length_drop. lia.
Qed.

Lemma lookup_slice off n l i :
    slice off n l !! i = if decide (i < n)%nat then l !! (off + i)%nat else None.
Proof.
    unfold slice. case_decide.
    - by rewrite lookup_take_lt, lookup_drop by done.
    - by rewrite lookup_take_ge by lia.
Qed.

Lemma lookup_splice off new l i :
    (off + length new ≤ length l)%nat →
    splice off new l !! i =
      if decide (off ≤ i < off + length new)%nat then new !! (i - off)%nat else l !! i.
Proof.
    intros Hl. unfold splice. case_decide as Hd.
    - rewrite lookup_app_r; rewrite length_take; [|lia].
      rewrite Nat.min_l, lookup_app_l by lia. done.
    - destruct (decide (i < off)%nat).
      + rewrite lookup_app_l by (rewrite length_take; lia).
        by apply lookup_take_lt.
      + rewrite lookup_app_r; rewrite length_take; [|lia].
        rewrite Nat.min_l, lookup_app_r by lia.
        rewrite lookup_drop. f_equal. lia.
Qed.

Lemma slice_splice_same off new l :
    (off + length new ≤ length l)%nat →
    slice off (length new) (splice off new l) = new.
Proof.
    intros. apply list_eq. intros i. rewrite lookup_slice.
    case_decide.
    - rewrite lookup_splice by done. rewrite decide_True by lia. f_equal. lia.
    - symmetry. apply lookup_ge_None. lia.
Qed.

Lemma slice_splice_other off n off' new l :
    (off' + length new ≤ length l)%nat →
    (off + n ≤ off' ∨ off' + length new ≤ off)%nat →
    slice off n (splice off' new l) = slice off n l.
Proof.
    intros Hl Hd. apply list_eq. intros i. rewrite !lookup_slice.
    case_decide; [|done]. rewrite lookup_splice by done.
    by rewrite decide_False by lia.
Qed.

Lemma lookup_total_slice `{Inhabited A} off n l i :
    (i < n)%nat → slice off n l !!! i = l !!! (off + i)%nat.
Proof.
    intros. rewrite !list_lookup_total_alt, lookup_slice.
    by rewrite decide_True by done.
Qed.
End windows.

(** Chunks of one size, joined. *)
Lemma length_mjoin_uniform {A} (n : nat) (ls : list (list A)) :
  Forall (λ l, length l = n) ls → length (mjoin ls) = (length ls * n)%nat.
Proof. induction 1; simpl; [done|]. rewrite length_app. lia. Qed.

Lemma slice_slice {A} a n b m (l : list A) :
  (b + m ≤ n)%nat → slice b m (slice a n l) = slice (a + b) m l.
Proof.
  intros. apply list_eq. intros i. rewrite !lookup_slice.
  repeat case_decide; try done; try lia. f_equal. lia.
Qed.

Lemma slice_all {A} n (l : list A) : length l = n → slice 0 n l = l.
Proof. intros <-. unfold slice. simpl. by rewrite firstn_all. Qed.

Lemma splice_all {A} (new l : list A) : length new = length l → splice 0 new l = new.
Proof. intros Hl. unfold splice. rewrite drop_ge by lia. by rewrite app_nil_r. Qed.

Lemma take_splice {A} off (new l : list A) :
  (off ≤ length l)%nat → take (off + length new) (splice off new l) = take off l ++ new.
Proof.
  intros. unfold splice. rewrite app_assoc, take_app_length'; [done|].
  rewrite length_app, length_take. lia.
Qed.

(** ** Prefixes *)
Lemma prefix_snoc_inv {X} (q p : list X) j :
  q ++ [j] `prefix_of` p → ∃ r, p = q ++ j :: r.
Proof. intros [r ->]. exists r. by rewrite <-app_assoc. Qed.

Lemma prefix_next {X} (q p : list X) (i : X) :
  q `prefix_of` p → ∃ j r, p ++ [i] = q ++ j :: r.
Proof. intros [[|j r] ->]; [exists i, []|exists j, (r ++ [i])]; by rewrite <-?app_assoc, ?app_nil_r. Qed.

(** ** Bits of a bitmap byte *)

(** [(byte & (1 << k)) != 0], [byte | (1 << k)], [byte & !(1 << k)] on [u8]. *)
Definition bit_test (b k : Z) : bool := negb (Z.land b (Z.shiftl 1 k) =? 0).
Definition bit_set (b k : Z) : Z := Z.lor b (wrap8 (Z.shiftl 1 k)).
Definition bit_clear (b k : Z) : Z := Z.land b (Z.lxor 255 (wrap8 (Z.shiftl 1 k))).

Lemma bit_test_spec b k : 0 ≤ k → bit_test b k = Z.testbit b k.
Proof.
  intros Hk. unfold bit_test. rewrite Z.shiftl_1_l.
  destruct (Z.testbit b k) eqn:Hb.
  - assert (Z.land b (2 ^ k) ≠ 0) as Hne; [|by apply Z.eqb_neq in Hne as ->].
    intros H0. assert (Z.testbit (Z.land b (2 ^ k)) k = true) as Ht.
    { rewrite Z.land_spec, Hb, Z.pow2_bits_true by done. done. }
    rewrite H0, Z.bits_0 in Ht. done.
  - assert (Z.land b (2 ^ k) = 0) as ->; [|done].
    apply Z.bits_inj'. intros j Hj. rewrite Z.land_spec, Z.bits_0.
    destruct (decide (j = k)) as [->|]; [by rewrite Hb|].
    rewrite Z.pow2_bits_false by done. apply andb_false_r.
Qed.

Lemma wrap8_shiftl_1 k : 0 ≤ k < 8 → wrap8 (Z.shiftl 1 k) = 2 ^ k.
Proof.
  intros. rewrite Z.shiftl_1_l. apply wrap_small.
  split; [lia|]. apply Z.pow_lt_mono_r; lia.
Qed.

Lemma bit_set_spec b k j : 0 ≤ k < 8 → 0 ≤ j →
  Z.testbit (bit_set b k) j = Z.testbit b j || bool_decide (j = k).
Proof.
  intros. unfold bit_set. rewrite wrap8_shiftl_1, Z.lor_spec by done.
  rewrite Z.pow2_bits_eqb by lia. f_equal.
  destruct (Z.eqb_spec k j); case_bool_decide; lia || done.
Qed.

Lemma testbit_255 j : 0 ≤ j → Z.testbit 255 j = bool_decide (j < 8).
Proof.
  intros. change 255 with (Z.ones 8). case_bool_decide.
  - apply Z.ones_spec_low. lia.
  - apply Z.ones_spec_high. lia.
Qed.

Lemma bit_clear_spec b k j : 0 ≤ k < 8 → 0 ≤ j → j < 8 →
  Z.testbit (bit_clear b k) j = Z.testbit b j && negb (bool_decide (j = k)).
Proof.
  intros. unfold bit_clear. rewrite wrap8_shiftl_1, Z.land_spec, Z.lxor_spec by done.
  rewrite testbit_255, bool_decide_eq_true_2, Z.pow2_bits_eqb by lia.
  f_equal. rewrite xorb_true_l. f_equal.
  destruct (Z.eqb_spec k j); case_bool_decide; lia || done.
Qed.

(** Fields that do not overlap are added. *)
Lemma lor_add_low a b k : 0 ≤ k → 0 ≤ b → b < 2 ^ k → a mod 2 ^ k = 0 → Z.lor a b = a + b.
Proof.
  intros Hk Hb0 Hb Ha. symmetry.
  apply Z.add_nocarry_lor, Z.bits_inj'. intros j Hj.
  rewrite Z.land_spec, Z.bits_0. destruct (decide (j < k)).
  - assert (Z.testbit a j = false) as ->; [|done].
    rewrite <-(Z.mod_pow2_bits_low a k) by lia. by rewrite Ha, Z.bits_0.
  - assert (Z.testbit b j = false) as ->; [|by rewrite andb_false_r].
    rewrite <-(Z.mod_small b (2 ^ k)) by lia. apply Z.mod_pow2_bits_high. lia.
Qed.

(** ** Subset test on right/permission masks, as the source writes it *)
Lemma land_subset x y : Z.land (Z.land x y) y = Z.land x y.
Proof. by rewrite <-Z.land_assoc, Z.land_diag. Qed.

(** ** First index of a list, [Iterator::position] *)
Fixpoint position {A} (f : A → bool) (l : list A) : option nat :=
  match l with
  | [] => None
  | x :: l => if f x then Some O else S <$> position f l
  end.

Lemma position_Some {A} (f : A → bool) l i :
  position f l = Some i ↔
    (∃ x, l !! i = Some x ∧ f x = true) ∧
    ∀ j x, (j < i)%nat → l !! j = Some x → f x = false.
Proof.
  revert i. induction l as [|y l IH]; intros i; simpl.
  { split; [done|]. intros [(?&?&?) _]. done. }
  destruct (f y) eqn:Hy.
  - split.
    + intros [= <-]. split; [eauto|]. intros ?? ?; lia.
    + intros [(x&Hx&Hf) Hlt]. destruct i as [|i]; [done|].
      specialize (Hlt O y). simpl in Hlt. rewrite Hlt in Hy; [done|lia|done].
  - destruct i as [|i].
    + split; [by destruct (position f l)|]. intros [(x&[= ->]&Hf) _]. congruence.
    + trans (position f l = Some i).
      { destruct (position f l); simpl; split; congruence. }
      rewrite (IH i). simpl. split.
      * intros [H1 H2]. split; [done|]. intros [|j] x Hj Hx; simplify_eq/=; [done|].
        eapply H2; [|done]. lia.
      * intros [H1 H2]. split; [done|]. intros j x Hj Hx. apply (H2 (S j) x); [lia|done].
Qed.

Lemma position_None {A} (f : A → bool) l :
  position f l = None ↔ ∀ x, x ∈ l → f x = false.
Proof.
  induction l as [|y l IH]; simpl; [set_solver|].
  destruct (f y) eqn:Hy.
  - split; [done|]. intros H. rewrite H in Hy; [done|by left].
  - destruct (position f l) as [i|]; simpl.
    + split; [done|]. intros H. assert (Some i = None); [|done].
      apply IH. intros x Hx. apply H. by right.
    + split; [|done]. intros _ x [->|Hx]%elem_of_cons; [done|]. by apply IH.
Qed.

Lemma forallb_elem {A} (f : A → bool) l : forallb f l = true ↔ ∀ x, x ∈ l → f x = true.
Proof. rewrite forallb_forall. by setoid_rewrite <-list_elem_of_In. Qed.

(** ** Sums over a finite map *)
Definition msum {A} (f : A → Z) (m : gmap Z A) : Z := map_fold (λ _ x acc, f x + acc) 0 m.

Section msum.
Context {A : Type} (f : A → Z).
Implicit Types m : gmap Z A.

Lemma msum_empty : msum f ∅ = 0.
Proof. apply map_fold_empty. Qed.

Lemma msum_insert m k x : m !! k = None → msum f (<[k:=x]> m) = f x + msum f m.
Proof. intros Hk. unfold msum. rewrite map_fold_insert_L; [done|intros; simpl; lia|done]. Qed.

Lemma msum_delete m k x : m !! k = Some x → msum f m = f x + msum f (delete k m).
Proof.
  intros Hk. rewrite <-(insert_delete_id m k x Hk) at 1. apply msum_insert, lookup_delete_eq.
Qed.

Lemma msum_update m k x y : m !! k = Some x → msum f (<[k:=y]> m) = msum f m - f x + f y.
Proof.
  intros Hk. rewrite <-insert_delete_eq, msum_insert by apply lookup_delete_eq.
  rewrite (msum_delete m k x Hk). lia.
Qed.

Lemma msum_nonneg m : (∀ x, 0 ≤ f x) → 0 ≤ msum f m.
Proof.
  intros Hf. induction m as [|k x m Hk IH] using map_ind; [by rewrite msum_empty|].
  rewrite msum_insert by done. specialize (Hf x). lia.
Qed.

Lemma msum_elem m k x : (∀ x, 0 ≤ f x) → m !! k = Some x → f x ≤ msum f m.
Proof.
  intros Hf Hk. rewrite (msum_delete m k x Hk). pose proof (msum_nonneg (delete k m) Hf). lia.
Qed.

Lemma msum_zero m : (∀ x, 0 ≤ f x) → msum f m = 0 ↔ ∀ k x, m !! k = Some x → f x = 0.
Proof.
  intros Hf. split.
  - intros Hz k x Hk. pose proof (msum_elem m k x Hf Hk). specialize (Hf x). lia.
  - induction m as [|k x m Hk IH] using map_ind; intros Hz; [by rewrite msum_empty|].
    rewrite msum_insert by done. rewrite (Hz k x), IH; [done| |by rewrite lookup_insert_eq].
    intros j y Hj. apply (Hz j). rewrite lookup_insert_ne; [done|]. intros ->. congruence.
Qed.

(** The same sum over the list of the values. *)
Lemma msum_list m : msum f m = foldr (λ x acc, f x + acc) 0 (snd <$> map_to_list m).
Proof.
  unfold msum. rewrite map_fold_foldr. induction (map_to_list m) as [|[k x] l IH]; [done|].
  simpl. by rewrite IH.
Qed.
End msum.

(** ** Hints

    [words]: ranges of machine words and of bytes; [sizes]: lengths of lists and
    buffers, for the tactic of the same name. *)
Create HintDb words discriminated.
#[export] Hint Resolve wrap_bounds wrap_small : words.
#[export] Hint Extern 3 (_ ≤ _) => lia : words.
#[export] Hint Extern 3 (_ < _) => lia : words.
#[export] Hint Extern 3 (_ ≤ _ < _) => lia : words.

Create HintDb sizes.
#[export] Hint Rewrite @length_app @length_take @length_drop @length_replicate @length_insert @length_fmap
  @length_seq @length_seqZ @length_reverse length_le_enc : sizes.
Ltac sizes := autorewrite with sizes in *; cbn [length] in *; lia.
