(* ===== verification/Capability.v ===== *)
(** * Capabilities (kernel/src/capability.rs)

    Rights are a bit set in a [u32]; an object is what a capability names; a
    table is the [Vec<Option<Capability>>] of one task and [tables] the global
    [BTreeMap] of task id to table.  [with_tables] (lock, then [expect] that
    [init] ran) is the passing of [tables]: every operation below is the
    closure it runs.  The theorems: lookups after each operation, and the
    core invariant of the module - authority only shrinks along derivation -
    over every sequence of derivations. *)

From S2P Require Import Prelude.

(** ** Objects and rights *)

(** [capability.rs:27-52, Object] *)
Inductive object : Type :=
| Endpoint (ep : Z)
| Memory (base len : Z)
| Irq (line : Z)
| Port (base count : Z)
| Mmio (phys_base len : Z)
| Role (role : Z).

#[export] Instance object_eq_dec : EqDecision object.
Proof. solve_decision. Defined.

Module Rights.
(** [capability.rs:59-59, Rights::NONE] *)
Definition NONE : Z := 0.
(** [capability.rs:60-60, Rights::SEND] *)
Definition SEND : Z := Z.shiftl 1 0.
(** [capability.rs:61-61, Rights::RECV] *)
Definition RECV : Z := Z.shiftl 1 1.
(** [capability.rs:62-62, Rights::READ] *)
Definition READ : Z := Z.shiftl 1 2.
(** [capability.rs:63-63, Rights::WRITE] *)
Definition WRITE : Z := Z.shiftl 1 3.
(** [capability.rs:64-64, Rights::GRANT] *)
Definition GRANT : Z := Z.shiftl 1 4.
(** [capability.rs:66-66, Rights::ALL] *)
Definition ALL : Z := 31.

(** [capability.rs:69-71, Rights::union] *)
Definition union (r other : Z) : Z := Z.lor r other.
(** [capability.rs:73-75, Rights::intersect] *)
Definition intersect (r other : Z) : Z := Z.land r other.
(** [capability.rs:77-79, Rights::contains] *)
Definition contains (r needed : Z) : bool := Z.land r needed =? needed.
End Rights.

(** [capability.rs:83-83, ROLE_SPAWN] *)
Definition ROLE_SPAWN : Z := 1.
(** [capability.rs:84-84, ROLE_FILE_SYSTEM] *)
Definition ROLE_FILE_SYSTEM : Z := 2.
(** [capability.rs:85-85, ROLE_KILL] *)
Definition ROLE_KILL : Z := 3.
(** [capability.rs:86-86, ROLE_NETWORK] *)
Definition ROLE_NETWORK : Z := 4.
(** [capability.rs:87-87, ROLE_WINDOW_SERVER] *)
Definition ROLE_WINDOW_SERVER : Z := 5.

(** [capability.rs:91-94, Capability] *)
Record capability := Cap { cap_object : object; cap_rights : Z }.

(** [capability.rs:97-105, CapTable]: the slots of one task. *)
Abbreviation cap_table := (list (option capability)).
(** [capability.rs:120-125, TABLES / init]: the global map of tables. *)
Abbreviation tables := (gmap Z (list (option capability))).

(** [capability.rs:123-125, init] *)
Definition init : gmap Z (list (option capability)) := ∅.

(** ** Operations *)

(** [capability.rs:108-116, CapTable::insert]: the first free slot, or a push. *)
Definition table_insert (slots : cap_table) (cap : capability) : cap_table * nat :=
  match position (λ s, bool_decide (s = None)) slots with
  | Some i => (<[i := Some cap]> slots, i)
  | None => (slots ++ [Some cap], length slots)
  end.

(** [capability.rs:137-141, create_table] *)
Definition create_table (task : Z) (t : tables) : tables :=
  <[task := default [] (t !! task)]> t.

(** [capability.rs:146-151, mint] *)
Definition mint (task : Z) (obj : object) (rights : Z) (t : tables) : tables * nat :=
  let '(slots, i) := table_insert (default [] (t !! task)) (Cap obj rights) in
  (<[task := slots]> t, i).

(** [capability.rs:157-172, find_object]: the slots in order, empty ones
    skipped ([flatten]), the first match. *)
Definition find_object (task needed : Z) (pred : object → bool) (t : tables)
  : option capability :=
  slots ← t !! task;
  snd <$> list_find
    (λ cap, Rights.contains (cap_rights cap) needed && pred (cap_object cap) = true)
    (omap id slots).

(** [capability.rs:175-180, lookup] *)
Definition lookup_cap (task : Z) (slot : nat) (t : tables) : option capability :=
  slots ← t !! task; mjoin (slots !! slot).

(** [capability.rs:185-190, check] *)
Definition check (task : Z) (slot : nat) (needed : Z) (t : tables) : bool :=
  match lookup_cap task slot t with
  | Some cap => Rights.contains (cap_rights cap) needed
  | None => false
  end.

(** [capability.rs:195-197, check_role] *)
Definition check_role (task role needed : Z) (t : tables) : bool :=
  bool_decide (is_Some (find_object task needed
    (λ obj, match obj with Role r => r =? role | _ => false end) t)).

(** [capability.rs:207-226, grant] *)
Definition grant (from_task : Z) (from_slot : nat) (to_task new_rights : Z) (t : tables)
  : tables * option nat :=
  match lookup_cap from_task from_slot t with
  | None => (t, None)
  | Some source =>
      if Rights.contains (cap_rights source) Rights.GRANT then
        let clamped := Rights.intersect (cap_rights source) new_rights in
        let '(slots, i) :=
          table_insert (default [] (t !! to_task)) (Cap (cap_object source) clamped) in
        (<[to_task := slots]> t, Some i)
      else (t, None)
  end.

(** [capability.rs:230-236, revoke] *)
Definition revoke (task : Z) (slot : nat) (t : tables) : tables * option capability :=
  match t !! task with
  | None => (t, None)
  | Some slots => (<[task := <[slot := None]> slots]> t, mjoin (slots !! slot))
  end.

(** ** Derivation steps

    What tasks can do to the tables once the kernel has minted the root
    capabilities: create a table, grant, revoke. *)
Inductive derive_step : tables → tables → Prop :=
| derive_create task t : derive_step t (create_table task t)
| derive_grant from slot to rights t :
    derive_step t (grant from slot to rights t).1
| derive_revoke task slot t : derive_step t (revoke task slot t).1.

Abbreviation derives := (rtc derive_step).

(** [r] gives no right that [r'] does not give. *)
Definition rights_le (r r' : Z) : Prop := Z.land r' r = r.

#[export] Instance rights_le_refl : Reflexive rights_le.
Proof. intros r. apply Z.land_diag. Qed.
#[export] Instance rights_le_trans : Transitive rights_le.
Proof.
  unfold rights_le. intros x y z Hxy Hyz.
  by rewrite <-Hxy, Z.land_assoc, Hyz.
Qed.

(** ** Lemmas *)

Lemma contains_le r needed : Rights.contains r needed = true ↔ rights_le needed r.
Proof. unfold Rights.contains, rights_le. apply Z.eqb_eq. Qed.

Lemma intersect_le r r' : rights_le (Rights.intersect r r') r.
Proof. unfold rights_le, Rights.intersect. by rewrite Z.land_assoc, Z.land_diag. Qed.

(** The insertion takes a slot that held nothing and changes no other. *)
Lemma table_insert_spec slots cap slots' i :
  table_insert slots cap = (slots', i) →
  mjoin (slots !! i) = None ∧
  mjoin (slots' !! i) = Some cap ∧
  ∀ j, j ≠ i → mjoin (slots' !! j) = mjoin (slots !! j).
Proof.
  unfold table_insert. destruct (position _ slots) as [k|] eqn:Hp; intros [= <- <-].
  - apply position_Some in Hp as [(x&Hx&->%bool_decide_eq_true) _].
    rewrite Hx, list_lookup_insert_eq by by eapply lookup_lt_Some.
    split_and!; [done..|]. intros j Hj. by rewrite list_lookup_insert_ne.
  - split_and!.
    + by rewrite lookup_ge_None_2 by lia.
    + by rewrite lookup_app_r, Nat.sub_diag by lia.
    + intros j Hj. destruct (decide (j < length slots)%nat).
      * by rewrite lookup_app_l.
      * rewrite !lookup_ge_None_2; [done| lia | rewrite length_app; simpl; lia].
Qed.

(** The slot chosen is the lowest one free. *)
Lemma table_insert_first_fit slots cap slots' i j :
  table_insert slots cap = (slots', i) → (j < i)%nat → is_Some (mjoin (slots !! j)).
Proof.
  unfold table_insert. destruct (position _ slots) as [k|] eqn:Hp; intros [= <- <-] Hj.
  - pose proof Hp as [(x&Hx&_) Hlt]%position_Some.
    destruct (slots !! j) as [[c|]|] eqn:Hs; simpl; [eauto| |].
    + specialize (Hlt _ _ Hj Hs). by rewrite bool_decide_eq_false in Hlt.
    + apply lookup_ge_None in Hs. apply lookup_lt_Some in Hx. lia.
  - rewrite position_None in Hp. destruct (slots !! j) as [[c|]|] eqn:Hs; simpl; [eauto| |].
    + specialize (Hp None). rewrite bool_decide_eq_false in Hp. exfalso. apply Hp; [|done].
      by eapply list_elem_of_lookup_2.
    + apply lookup_ge_None in Hs. lia.
Qed.

Lemma lookup_cap_insert task task' slots slot t :
  lookup_cap task slot (<[task' := slots]> t) =
    if decide (task = task') then mjoin (slots !! slot) else lookup_cap task slot t.
Proof.
  unfold lookup_cap. case_decide; subst; [by rewrite lookup_insert_eq|].
  by rewrite lookup_insert_ne.
Qed.

Lemma lookup_cap_default task slot t :
  lookup_cap task slot t = mjoin (default [] (t !! task) !! slot).
Proof. unfold lookup_cap. by destruct (t !! task). Qed.

Lemma lookup_create_table task slot t task' :
  lookup_cap task slot (create_table task' t) = lookup_cap task slot t.
Proof.
  unfold create_table. rewrite lookup_cap_insert. case_decide; subst; [|done].
  by rewrite lookup_cap_default.
Qed.

(** [mint] and [grant] both put a capability in a fresh slot of a table. *)
Lemma lookup_table_insert task cap slots i t task' slot' :
  table_insert (default [] (t !! task)) cap = (slots, i) →
  lookup_cap task i t = None ∧
  lookup_cap task' slot' (<[task := slots]> t) =
    if decide (task' = task ∧ slot' = i) then Some cap else lookup_cap task' slot' t.
Proof.
  intros (Hfree&Hnew&Hold)%table_insert_spec.
  rewrite lookup_cap_insert, !lookup_cap_default. split; [done|].
  repeat case_decide; destruct_and?; simplify_eq; auto.
Qed.

Lemma lookup_revoke task slot t task' slot' :
  lookup_cap task' slot' (revoke task slot t).1 =
    if decide (task' = task ∧ slot' = slot) then None else lookup_cap task' slot' t.
Proof.
  unfold revoke. destruct (t !! task) as [slots|] eqn:Ht; simpl.
  - rewrite lookup_cap_insert. unfold lookup_cap at 1.
    repeat case_decide; destruct_and?; simplify_eq/=.
    + destruct (decide (slot < length slots)%nat).
      * by rewrite list_lookup_insert_eq.
      * by rewrite lookup_ge_None_2 by (rewrite length_insert; lia).
    + rewrite list_lookup_insert_ne by naive_solver.
      unfold lookup_cap. by rewrite Ht.
    + done.
  - case_decide; destruct_and?; simplify_eq; [|done]. unfold lookup_cap. by rewrite Ht.
Qed.

(** One step: whatever is held after it was held before, or is a copy with no
    more rights of something grantable held before. *)
Lemma derive_step_source t t' task slot cap :
  derive_step t t' → lookup_cap task slot t' = Some cap →
  lookup_cap task slot t = Some cap ∨
  ∃ task0 slot0 cap0, lookup_cap task0 slot0 t = Some cap0 ∧
    cap_object cap = cap_object cap0 ∧ rights_le (cap_rights cap) (cap_rights cap0) ∧
    rights_le Rights.GRANT (cap_rights cap0).
Proof.
  destruct 1 as [task' t|from fslot to rights t|task' slot' t]; intros Hl.
  - rewrite lookup_create_table in Hl. eauto.
  - unfold grant in Hl. destruct (lookup_cap from fslot t) as [src|] eqn:Hsrc; [|eauto].
    destruct (Rights.contains _ _) eqn:Hg; [|eauto].
    destruct (table_insert _ _) as [slots i] eqn:Hi. simpl in Hl.
    apply (lookup_table_insert _ _ _ _ _ task slot) in Hi as [_ Hi].
    rewrite Hi in Hl. case_decide; [|eauto]. simplify_eq/=. right.
    exists from, fslot, src. rewrite contains_le in Hg. auto using intersect_le.
  - rewrite lookup_revoke in Hl. case_decide; [done|eauto].
Qed.

(** ** Properties *)

(** C29: the core invariant of the capability module.  Along any sequence of
    derivations (creating tables, grants, revocations), every capability held
    at the end descends from one held at the start, for the same object and
    with at least its rights: no sequence of grants amplifies authority. *)
Theorem rights_monotone t t' task slot cap :
  derives t t' → lookup_cap task slot t' = Some cap →
  ∃ task0 slot0 cap0, lookup_cap task0 slot0 t = Some cap0 ∧
    cap_object cap = cap_object cap0 ∧ rights_le (cap_rights cap) (cap_rights cap0).
Proof.
  intros Hd. revert task slot cap.
  induction Hd as [t|t t1 t' Hstep _ IH]; intros task slot cap Hl.
  { exists task, slot, cap. auto using rights_le_refl. }
  apply IH in Hl as (task1&slot1&cap1&Hl1&Hobj&Hle).
  destruct (derive_step_source _ _ _ _ _ Hstep Hl1) as [?|(task0&slot0&cap0&?&?&?&_)].
  - eauto 6.
  - exists task0, slot0, cap0. split_and!; [done|congruence|by etrans].
Qed.

Definition boot_tables : tables := (mint 1 (Irq 1) 23 (create_table 2 init)).1.

Example rights_monotone_witness :
  ∃ task0 slot0 cap0, lookup_cap task0 slot0 boot_tables = Some cap0 ∧
    Irq 1 = cap_object cap0 ∧ rights_le 5 (cap_rights cap0).
Proof.
  apply (rights_monotone boot_tables (grant 1 0 2 13 boot_tables).1 2 0 (Cap (Irq 1) 5)).
  - apply rtc_once, derive_grant.
  - vm_compute. reflexivity.
Defined.

(** confinement.  If no task holds the grant right over an object, then
    along any sequence of derivations every holder of a capability to that
    object already held that same capability in that same slot. *)
Theorem ungrantable_confined t t' obj task slot cap :
  (∀ task0 slot0 cap0, lookup_cap task0 slot0 t = Some cap0 → cap_object cap0 = obj →
     ¬ rights_le Rights.GRANT (cap_rights cap0)) →
  derives t t' → lookup_cap task slot t' = Some cap → cap_object cap = obj →
  lookup_cap task slot t = Some cap.
Proof.
  intros Hno Hd. revert task slot cap.
  induction Hd as [t|t t1 t' Hstep _ IH]; intros task slot cap Hl Hobj; [done|].
  assert (∀ task0 slot0 cap0, lookup_cap task0 slot0 t1 = Some cap0 →
    cap_object cap0 = obj → lookup_cap task0 slot0 t = Some cap0) as Hback.
  { intros task0 slot0 cap0 Hl0 Ho.
    destruct (derive_step_source _ _ _ _ _ Hstep Hl0) as [?|(?&?&?&Hl1&?&_&Hg)]; [done|].
    exfalso. apply (Hno _ _ _ Hl1); [congruence|done]. }
  apply Hback; [|done]. apply IH; [|done..]. eauto.
Qed.

Example ungrantable_confined_witness :
  lookup_cap 1 0 (mint 1 (Irq 1) 7 init).1 = Some (Cap (Irq 1) 7).
Proof.
  set (t0 := (mint 1 (Irq 1) 7 init).1).
  apply (ungrantable_confined t0 (grant 1 0 2 31 t0).1 (Irq 1)).
  - intros task0 slot0 cap0 Hl _. change t0 with (<[1 := [Some (Cap (Irq 1) 7)]]> init) in Hl.
    rewrite lookup_cap_insert in Hl. case_decide; [|done].
    destruct slot0 as [|slot0]; [|done]. simplify_eq/=. done.
  - apply rtc_once, derive_grant.
  - vm_compute. reflexivity.
  - reflexivity.
Defined.

(** [grant] on every branch.  It is refused exactly when the source slot
    holds no capability with the grant right, and then nothing changes;
    otherwise the clamped copy lands in the lowest free slot of the
    destination table and every other slot of every table is unchanged. *)
Theorem grant_spec from slot to rights t :
  match lookup_cap from slot t with
  | Some src =>
      if Rights.contains (cap_rights src) Rights.GRANT then
        ∃ i t', grant from slot to rights t = (t', Some i) ∧
          lookup_cap to i t = None ∧
          (∀ j, (j < i)%nat → is_Some (lookup_cap to j t)) ∧
          ∀ task' slot', lookup_cap task' slot' t' =
            if decide (task' = to ∧ slot' = i)
            then Some (Cap (cap_object src) (Z.land (cap_rights src) rights))
            else lookup_cap task' slot' t
      else grant from slot to rights t = (t, None)
  | None => grant from slot to rights t = (t, None)
  end.
Proof.
  unfold grant. destruct (lookup_cap from slot t) as [src|]; [|done].
  destruct (Rights.contains _ _); [|done].
  destruct (table_insert _ _) as [slots i] eqn:Hi. exists i, (<[to:=slots]> t).
  split_and!; [done| | |].
  - by destruct (lookup_table_insert _ _ _ _ _ to i Hi).
  - intros j Hj. rewrite lookup_cap_default. by eapply table_insert_first_fit.
  - intros task' slot'. by destruct (lookup_table_insert _ _ _ _ _ task' slot' Hi).
Qed.
