(* ===== verification/Block.v ===== *)
(** * Block devices (kernel/src/driver/block.rs, transfers of driver/ahci.rs)

    The registry of block devices, the AHCI backend with its range check and
    its transfers in chunks of at most 65535 sectors, and the round-trip self
    test.  The disk itself is not code: [SataHw] is what the driver asks of
    it (DMA one run of 512-byte sectors), [SataLaws] its documented behaviour.
    [BlockDev]/[BlockLaws] is the interface the file system is written
    against; this file discharges it for the registry of AHCI devices. *)

From S2P Require Import Prelude.

(** ** Errors and device records *)

(** [driver/block.rs:34-44, BlockError] *)
Inductive block_error : Type :=
| OutOfRange
| BadBuffer
| DeviceError (msg : string)
| Unsupported.

#[export] Instance block_error_eq_dec : EqDecision block_error.
Proof. solve_decision. Defined.

(** [driver/block.rs:75-80, AhciBlockDevice] *)
Record ahci_dev := AhciDev {
  ad_name : bytes; ad_port : Z; ad_block_size : Z; ad_block_count : Z }.

(** [driver/block.rs:172-177, BlockDeviceInfo] *)
Record dev_info := DevInfo {
  di_index : nat; di_name : bytes; di_block_size : Z; di_block_count : Z }.

(** ** The interface of the layer *)

(** What clients call ([block::list], [block::read], [block::write]), and the
    contents of a device's blocks, which no call returns in one piece. *)
Class BlockDev (D : Type) := {
  blk_list : D → list dev_info;
  blk_read : D → nat → Z → Z → outcome block_error bytes;
  blk_write : D → nat → Z → bytes → outcome block_error unit * D;
  blk_content : D → nat → Z → bytes;
}.

(** Device [idx] of the registry has [n] blocks of 512 bytes. *)
Definition has_device `{BlockDev D} (d : D) (idx : nat) (n : Z) : Prop :=
  ∃ i, blk_list d !! idx = Some i ∧ di_block_size i = 512 ∧ di_block_count i = n.

Class BlockLaws (D : Type) `{BlockDev D} := {
  blk_read_ok d idx n lba buf :
    has_device d idx n → blk_read d idx lba 1 = Ok buf →
    buf = blk_content d idx lba ∧ length buf = 512%nat ∧ lba < n;
  blk_write_ok d idx n lba buf d' :
    has_device d idx n → 0 ≤ lba → length buf = 512%nat →
    blk_write d idx lba buf = (Ok tt, d') →
    lba < n ∧ blk_list d' = blk_list d ∧
    ∀ l, blk_content d' idx l = if decide (l = lba) then buf else blk_content d idx l;
  blk_write_frame d idx lba buf :
    blk_list (blk_write d idx lba buf).2 = blk_list d;
  blk_read_ends d idx lba : blk_read d idx lba 1 ≠ Diverge;
  blk_write_ends d idx lba buf : (blk_write d idx lba buf).1 ≠ Diverge;
}.

(** ** The disk behind an AHCI port *)

Class SataHw (H : Type) := {
  hw_read : H → Z → Z → Z → outcome string bytes;
  hw_write : H → Z → Z → Z → bytes → outcome string unit * H;
  hw_sector : H → Z → Z → bytes;
}.

(** A transfer that completes moves exactly the sectors it names. *)
Class SataLaws (H : Type) `{SataHw H} := {
  hw_sector_length h p l : length (hw_sector h p l) = 512%nat;
  hw_read_ok h p lba n b :
    0 < n → hw_read h p lba n = Ok b → b = mjoin (hw_sector h p <$> seqZ lba n);
  hw_read_total h p lba n : hw_read h p lba n ≠ Panic ∧ hw_read h p lba n ≠ Diverge;
  hw_write_total h p lba n b :
    (hw_write h p lba n b).1 ≠ Panic ∧ (hw_write h p lba n b).1 ≠ Diverge;
  hw_write_ok h p lba n b h' :
    0 < n → length b = Z.to_nat (512 * n) → hw_write h p lba n b = (Ok tt, h') →
    ∀ p' l, hw_sector h' p' l =
      if decide (p' = p ∧ lba ≤ l < lba + n)
      then slice (Z.to_nat (512 * (l - lba))) 512 b else hw_sector h p' l;
}.

Section block.
Context {H : Type} `{SataHw H}.

(** [driver/ahci.rs:657-694, read_sectors]: [hw_read] stands for the port lookup,
    the DMA buffer and the command; the sectors land at the start of [buf]. *)
Definition read_sectors (port lba count : Z) (buf : bytes) (h : H)
  : outcome string bytes :=
  if decide (count = 0) then Ok buf else
  if decide (Z.of_nat (length buf) < count * 512)
  then Err "buffer too small for requested sector count"%string else
  let? data := hw_read h port lba count in Ok (splice 0 data buf).

(** [driver/ahci.rs:701-751, write_sectors] *)
Definition write_sectors (port lba count : Z) (buf : bytes) (h : H)
  : outcome string unit * H :=
  if decide (count = 0) then (Ok tt, h) else
  if decide (Z.of_nat (length buf) < count * 512)
  then (Err "buffer too small for requested sector count"%string, h) else
  hw_write h port lba count (take (Z.to_nat (count * 512)) buf).

(** The registry and the disks its devices sit on. *)
Record registry := Registry { reg_devs : list ahci_dev; reg_hw : H }.

(** [driver/block.rs:83-96, AhciBlockDevice::validate] *)
Definition validate (dev : ahci_dev) (lba count buf_len : Z) : outcome block_error unit :=
  if decide (count = 0) then Err BadBuffer else
  if decide (buf_len ≠ count * ad_block_size dev) then Err BadBuffer else
  if decide (u64_max < lba + count) then Err OutOfRange else
  if decide (ad_block_count dev < lba + count) then Err OutOfRange else Ok tt.

(** The loop of [read_blocks]: [buf[off..off+len]] is handed to the driver. *)
Fixpoint read_chunks (fuel : nat) (dev : ahci_dev) (lba count done : Z) (buf : bytes) (h : H)
  : outcome block_error bytes :=
  match fuel with
  | O => Diverge
  | S fuel =>
      if decide (done < count) then
        let chunk := Z.min (count - done) 65535 in
        let off := Z.to_nat (done * ad_block_size dev) in
        let len := Z.to_nat (chunk * ad_block_size dev) in
        if decide (length buf < off + len)%nat then Err BadBuffer else
        let? piece := map_err DeviceError
          (read_sectors (ad_port dev) (lba + done) chunk (slice off len buf) h) in
        read_chunks fuel dev lba count (done + chunk) (splice off piece buf) h
      else Ok buf
  end.

(** [driver/block.rs:112-128, AhciBlockDevice::read_blocks] *)
Definition read_blocks (dev : ahci_dev) (lba count : Z) (buf : bytes) (h : H)
  : outcome block_error bytes :=
  let? _ := validate dev lba count (Z.of_nat (length buf)) in
  read_chunks (S (Z.to_nat count)) dev lba count 0 buf h.

Fixpoint write_chunks (fuel : nat) (dev : ahci_dev) (lba count done : Z) (buf : bytes)
  : stm H block_error unit := λ h,
  match fuel with
  | O => (Diverge, h)
  | S fuel =>
      if decide (done < count) then
        let chunk := Z.min (count - done) 65535 in
        let off := Z.to_nat (done * ad_block_size dev) in
        let len := Z.to_nat (chunk * ad_block_size dev) in
        if decide (length buf < off + len)%nat then (Err BadBuffer, h) else
        let '(r, h') := write_sectors (ad_port dev) (lba + done) chunk (slice off len buf) h in
        (let! _ := slift (map_err DeviceError r) in
         write_chunks fuel dev lba count (done + chunk) buf) h'
      else (Ok tt, h)
  end.

(** [driver/block.rs:130-145, AhciBlockDevice::write_blocks] *)
Definition write_blocks (dev : ahci_dev) (lba count : Z) (buf : bytes)
  : stm H block_error unit :=
  let! _ := slift (validate dev lba count (Z.of_nat (length buf))) in
  write_chunks (S (Z.to_nat count)) dev lba count 0 buf.

(** ** The registry *)

(** [driver/block.rs:152-163, register] *)
Definition register (dev : ahci_dev) (r : registry) : registry * nat :=
  (Registry (reg_devs r ++ [dev]) (reg_hw r), length (reg_devs r)).

(** [driver/block.rs:166-168, device_count] *)
Definition device_count (r : registry) : nat := length (reg_devs r).

(** [driver/block.rs:180-192, list] *)
Definition list_devices (r : registry) : list dev_info :=
  imap (λ i d, DevInfo i (ad_name d) (ad_block_size d) (ad_block_count d)) (reg_devs r).

(** [driver/block.rs:196-202, read] *)
Definition read (r : registry) (idx : nat) (lba count : Z) : outcome block_error bytes :=
  let? dev := ok_or (reg_devs r !! idx) OutOfRange in
  read_blocks dev lba count (replicate (Z.to_nat (count * ad_block_size dev)) 0) (reg_hw r).

(** [driver/block.rs:205-214, write] *)
Definition write (r : registry) (idx : nat) (lba : Z) (buf : bytes)
  : outcome block_error unit * registry :=
  match reg_devs r !! idx with
  | None => (Err OutOfRange, r)
  | Some dev =>
      let bs := ad_block_size dev in
      let len := Z.of_nat (length buf) in
      if decide (len = 0) then (Err BadBuffer, r) else
      if decide (bs = 0) then (Panic, r) else
      if decide (len mod bs ≠ 0) then (Err BadBuffer, r) else
      let '(o, h) := write_blocks dev lba (wrap32 (len / bs)) buf (reg_hw r) in
      (o, Registry (reg_devs r) h)
  end.

(** [driver/block.rs:217-219, find_by_name] *)
Definition find_by_name (name : bytes) (r : registry) : option nat :=
  position (λ d, bool_decide (ad_name d = name)) (reg_devs r).

(** The pattern written by the self test. *)
Definition selftest_pattern (bs lba : Z) : bytes :=
  (λ i, Z.land (wrap64 (i + lba)) 255) <$> seqZ 0 bs.

(** [driver/block.rs:226-259, selftest] *)
Definition selftest (idx : nat) (lba : Z) : stm registry block_error unit :=
  let! bs := sread (λ r, let? d := ok_or (reg_devs r !! idx) OutOfRange in Ok (ad_block_size d)) in
  let! original := sread (λ r, read r idx lba 1) in
  let pattern := selftest_pattern bs lba in
  let! _ := λ r, write r idx lba pattern in
  let! readback := sread (λ r, read r idx lba 1) in
  λ r,
  let '(restore, r') := write r idx lba original in
  if decide (readback ≠ pattern)
  then (Err (DeviceError "selftest readback mismatch"), r')
  else (restore, r').

#[export] Instance registry_block_dev : BlockDev registry := {
  blk_list := list_devices;
  blk_read := read;
  blk_write := write;
  blk_content r idx lba :=
    match reg_devs r !! idx with
    | Some dev => hw_sector (reg_hw r) (ad_port dev) lba
    | None => []
    end;
}.
End block.
Arguments registry : clear implicits.

(** ** Lemmas *)
Section block_laws.
Context {H : Type} `{SataLaws H}.
Implicit Types (h : H) (r : registry H) (dev : ahci_dev).

(** The sectors [lba .. lba+n) of a port as one buffer. *)
Definition sectors h p lba n : bytes := mjoin (hw_sector h p <$> seqZ lba n).

Lemma length_sectors h p lba n : length (sectors h p lba n) = Z.to_nat (512 * n).
Proof.
  unfold sectors. rewrite (length_mjoin_uniform 512).
  - rewrite length_fmap, length_seqZ. lia.
  - apply Forall_fmap, Forall_true. intros l. apply hw_sector_length.
Qed.

Lemma sectors_app h p lba n m :
  0 ≤ n → 0 ≤ m → sectors h p lba (n + m) = sectors h p lba n ++ sectors h p (lba + n) m.
Proof. intros. unfold sectors. by rewrite seqZ_app, fmap_app, join_app by lia. Qed.

Lemma sectors_one h p lba : sectors h p lba 1 = hw_sector h p lba.
Proof. unfold sectors. rewrite seqZ_cons by lia. apply app_nil_r. Qed.

(** A transfer of the driver that fills its buffer. *)
Lemma read_sectors_ok p lba n buf h b :
  0 < n → length buf = Z.to_nat (512 * n) →
  read_sectors p lba n buf h = Ok b → b = sectors h p lba n.
Proof.
  intros Hn Hlen. unfold read_sectors.
  rewrite decide_False, decide_False by lia. intros (d&Hd&Hb)%obind_Ok_inv.
  apply hw_read_ok in Hd; [|done]. simplify_eq.
  apply splice_all. fold (sectors h p lba n). by rewrite length_sectors.
Qed.

Lemma read_sectors_total p lba n buf h :
  read_sectors p lba n buf h ≠ Panic ∧ read_sectors p lba n buf h ≠ Diverge.
Proof.
  unfold read_sectors. repeat case_decide; [done..|].
  destruct (hw_read_total h p lba n). destruct (hw_read h p lba n); done.
Qed.

(** The chunked loop: from a buffer whose first [done] sectors are in place. *)
Lemma read_chunks_ok fuel dev lba count done buf h b :
  ad_block_size dev = 512 → 0 ≤ done ≤ count → length buf = Z.to_nat (512 * count) →
  take (Z.to_nat (512 * done)) buf = sectors h (ad_port dev) lba done →
  read_chunks fuel dev lba count done buf h = Ok b →
  b = sectors h (ad_port dev) lba count.
Proof.
  intros Hbs. revert done buf. induction fuel as [|fuel IH]; [done|].
  intros done buf Hdone Hlen Htake. simpl. rewrite Hbs. case_decide as Hlt.
  - rewrite decide_False by lia. intros (piece&Hpiece&Hrest)%obind_Ok_inv.
    rewrite map_err_Ok in Hpiece. set (chunk := Z.min (count - done) 65535) in *.
    apply read_sectors_ok in Hpiece as ->; [|lia|rewrite length_slice; lia].
    apply IH in Hrest; [done|lia|rewrite length_splice; rewrite ?length_sectors; lia|].
    rewrite sectors_app, <-Htake by lia.
    rewrite <-(take_splice _ (sectors h (ad_port dev) (lba + done) chunk)) by lia.
    rewrite length_sectors. f_equal; [lia|]. f_equal. lia.
  - intros [= <-]. rewrite <-(take_ge buf (Z.to_nat (512 * done))) by lia.
    rewrite Htake. f_equal. lia.
Qed.

Lemma read_chunks_total fuel dev lba count done buf h :
  (Z.to_nat (count - done) < fuel)%nat →
  read_chunks fuel dev lba count done buf h ≠ Diverge.
Proof.
  revert done buf. induction fuel as [|fuel IH]; intros done buf Hf; [lia|].
  simpl. case_decide as Hlt; [|done]. case_decide; [done|].
  set (r := read_sectors _ _ _ _ _). destruct (read_sectors_total (ad_port dev) (lba + done)
    (Z.min (count - done) 65535) (slice (Z.to_nat (done * ad_block_size dev))
    (Z.to_nat (Z.min (count - done) 65535 * ad_block_size dev)) buf) h) as [Hp Hd].
  fold r in Hp, Hd. destruct r; simpl; try done. apply IH. lia.
Qed.

Lemma validate_ok dev lba count len :
  validate dev lba count len = Ok tt →
  count ≠ 0 ∧ len = count * ad_block_size dev ∧ lba + count ≤ ad_block_count dev.
Proof. unfold validate. repeat case_decide; naive_solver lia. Qed.

(** a multi-block read of a 512-byte-sector device.  Splitting the transfer
    into chunks of at most 65535 sectors is transparent: a read that succeeds
    lies inside the device and returns exactly the sectors [lba .. lba+count)
    in order, and the loop always ends. *)
Theorem read_returns_sectors r idx lba count dev :
  reg_devs r !! idx = Some dev → ad_block_size dev = 512 → 0 ≤ lba → 0 ≤ count →
  read r idx lba count ≠ Diverge ∧
  ∀ buf, read r idx lba count = Ok buf →
    lba + count ≤ ad_block_count dev ∧
    buf = sectors (reg_hw r) (ad_port dev) lba count.
Proof.
  intros Hdev Hbs Hlba Hc. unfold read, read_blocks. rewrite Hdev. cbn [ok_or obind]. split.
  - destruct (validate _ _ _ _) eqn:Hv; cbn [obind]; try done; [apply read_chunks_total; lia|].
    revert Hv. unfold validate. repeat case_decide; done.
  - intros buf ([]&(Hne&_&Hle)%validate_ok&Hr)%obind_Ok_inv. split; [done|].
    eapply read_chunks_ok, Hr; [done|lia|rewrite length_replicate, Hbs; lia|].
    by rewrite Z.mul_0_r, take_0.
Qed.

(** The sectors of [buf], written at [lba ..], seen over [h]. *)
Definition written h h' p lba n buf : Prop := ∀ p' l,
  hw_sector h' p' l =
    if decide (p' = p ∧ lba ≤ l < lba + n)
    then slice (Z.to_nat (512 * (l - lba))) 512 buf else hw_sector h p' l.

Lemma write_sectors_ok p lba n buf h h' :
  0 < n → length buf = Z.to_nat (512 * n) →
  write_sectors p lba n buf h = (Ok tt, h') → written h h' p lba n buf.
Proof.
  intros Hn Hlen. unfold write_sectors. rewrite decide_False, decide_False by lia.
  rewrite take_ge by lia. intros Hw p' l. by eapply hw_write_ok.
Qed.

Lemma write_chunks_ok fuel dev lba count done buf h h' :
  ad_block_size dev = 512 → 0 ≤ done ≤ count → length buf = Z.to_nat (512 * count) →
  write_chunks fuel dev lba count done buf h = (Ok tt, h') →
  ∀ p' l, hw_sector h' p' l =
    if decide (p' = ad_port dev ∧ lba + done ≤ l < lba + count)
    then slice (Z.to_nat (512 * (l - lba))) 512 buf else hw_sector h p' l.
Proof.
  intros Hbs. revert done h. induction fuel as [|fuel IH]; [done|].
  intros done h Hdone Hlen. simpl. rewrite Hbs. case_decide as Hlt.
  - rewrite decide_False by lia. set (chunk := Z.min (count - done) 65535) in *.
    destruct (write_sectors _ _ _ _ _) as [o h1] eqn:Hw.
    intros (?&h1'&Ho&Hrest)%sbind_Ok_inv p' l.
    injection Ho as Ho <-. apply map_err_Ok in Ho as ->. destruct x.
    apply write_sectors_ok in Hw; [|lia|rewrite length_slice; lia].
    eapply IH with (p' := p') (l := l) in Hrest; [|lia|done]. rewrite Hrest, (Hw p' l).
    repeat case_decide; destruct_and?; try done; try lia.
    rewrite slice_slice by lia. f_equal. lia.
  - intros [= <-] p' l. rewrite decide_False by lia. done.
Qed.

Lemma write_blocks_ok dev lba count buf h h' :
  ad_block_size dev = 512 → 0 ≤ count →
  write_blocks dev lba count buf h = (Ok tt, h') →
  lba + count ≤ ad_block_count dev ∧ written h h' (ad_port dev) lba count buf.
Proof.
  intros Hbs Hc. unfold write_blocks. intros ([]&h1&Hv&Hw)%sbind_Ok_inv.
  injection Hv as Hv <-. apply validate_ok in Hv as (Hne&Hlen&Hle).
  split; [done|]. intros p' l.
  eapply (write_chunks_ok _ _ _ _ 0) with (p' := p') (l := l) in Hw; [|done|lia|].
  - by rewrite Hw, Z.add_0_r.
  - rewrite Hbs in Hlen. lia.
Qed.

Lemma write_one_ok r idx dev lba buf r' :
  reg_devs r !! idx = Some dev → ad_block_size dev = 512 → length buf = 512%nat →
  write r idx lba buf = (Ok tt, r') →
  lba < ad_block_count dev ∧ reg_devs r' = reg_devs r ∧
  ∀ p l, hw_sector (reg_hw r') p l =
    if decide (p = ad_port dev ∧ l = lba) then buf else hw_sector (reg_hw r) p l.
Proof.
  intros Hdev Hbs Hlen. unfold write. rewrite Hdev, Hbs, Hlen.
  destruct (decide (Z.of_nat 512 = 0)); [done|]. simpl.
  change (wrap32 (Z.of_nat 512 / 512)) with 1.
  destruct (write_blocks _ _ _ _ _) as [o h'] eqn:Hw. intros [= -> <-].
  apply write_blocks_ok in Hw as [Hle Hw]; [|done|lia]. split_and!; [lia|done|].
  intros p l. simpl. rewrite (Hw p l).
  repeat case_decide; destruct_and?; try done; try lia.
  subst. rewrite Z.sub_diag. by apply slice_all.
Qed.

Lemma read_one_ok r idx dev lba buf :
  reg_devs r !! idx = Some dev → ad_block_size dev = 512 →
  read r idx lba 1 = Ok buf →
  lba < ad_block_count dev ∧ buf = hw_sector (reg_hw r) (ad_port dev) lba.
Proof.
  intros Hdev Hbs Hr. unfold read, read_blocks in Hr. rewrite Hdev in Hr. cbn [ok_or obind] in Hr.
  apply obind_Ok_inv in Hr as ([]&(_&_&Hle)%validate_ok&Hr). split; [lia|].
  rewrite <-sectors_one. eapply read_chunks_ok, Hr; [done|lia|rewrite length_replicate, Hbs; lia|].
  by rewrite Z.mul_0_r, take_0.
Qed.

Lemma validate_ends dev lba count len :
  validate dev lba count len ≠ Diverge.
Proof. unfold validate. by repeat case_decide. Qed.

Lemma read_ends r idx lba count : 0 ≤ count → read r idx lba count ≠ Diverge.
Proof.
  intros Hc. unfold read, read_blocks. destruct (reg_devs r !! idx) as [dev|]; [|done].
  cbn [ok_or obind]. pose proof (validate_ends dev lba count) as Hv.
  set (len := Z.of_nat _). specialize (Hv len).
  destruct (validate _ _ _ _); cbn [obind]; try done. apply read_chunks_total. lia.
Qed.

Lemma write_sectors_ends p lba n buf h : (write_sectors p lba n buf h).1 ≠ Diverge.
Proof. unfold write_sectors. repeat case_decide; [done..|]. apply hw_write_total. Qed.

Lemma write_chunks_ends fuel dev lba count done buf h :
  (Z.to_nat (count - done) < fuel)%nat →
  (write_chunks fuel dev lba count done buf h).1 ≠ Diverge.
Proof.
  revert done h. induction fuel as [|fuel IH]; intros done h Hf; [lia|].
  simpl. case_decide; [|done]. case_decide; [done|].
  destruct (write_sectors _ _ _ _ _) as [o h1] eqn:Hw.
  pose proof (write_sectors_ends (ad_port dev) (lba + done) (Z.min (count - done) 65535)
    (slice (Z.to_nat (done * ad_block_size dev))
      (Z.to_nat (Z.min (count - done) 65535 * ad_block_size dev)) buf) h) as Hends.
  rewrite Hw in Hends. apply sbind_not_diverge; [by destruct o|].
  intros [] h2. apply IH. lia.
Qed.

Lemma write_ends r idx lba buf : (write r idx lba buf).1 ≠ Diverge.
Proof.
  unfold write. destruct (reg_devs r !! idx) as [dev|]; [|done].
  repeat (case_decide; [done|]). destruct (write_blocks _ _ _ _ _) as [o h] eqn:Hw. simpl.
  change o with ((o, h).1). rewrite <-Hw. apply sbind_not_diverge; [apply validate_ends|].
  intros [] h1. apply write_chunks_ends. lia.
Qed.

Lemma write_devs r idx lba buf : reg_devs (write r idx lba buf).2 = reg_devs r.
Proof.
  unfold write. destruct (reg_devs r !! idx); [|done].
  repeat (case_decide; [done|]). by destruct (write_blocks _ _ _ _ _).
Qed.

(** The AHCI registry keeps the promises of the interface. *)
#[export] Instance registry_block_laws : BlockLaws (registry H).
Proof.
  assert (∀ (r : registry H) idx n, has_device r idx n → ∃ dev, reg_devs r !! idx = Some dev ∧
    ad_block_size dev = 512 ∧ ad_block_count dev = n) as Hhas.
  { intros r idx n (i&Hi&Hbs&Hn). simpl in Hi. unfold list_devices in Hi.
    rewrite list_lookup_imap in Hi. destruct (reg_devs r !! idx) as [dev|]; [|done].
    simplify_eq/=. eauto. }
  split.
  - intros r idx n lba buf (dev&Hdev&Hbs&<-)%Hhas Hr. simpl in *. rewrite Hdev.
    destruct (read_one_ok _ _ _ _ _ Hdev Hbs Hr) as [Hlt ->].
    auto using hw_sector_length.
  - intros r idx n lba buf r' (dev&Hdev&Hbs&<-)%Hhas Hlba Hlen Hw.
    destruct (write_one_ok _ _ _ _ _ _ Hdev Hbs Hlen Hw) as (Hlt&Hdevs&Hs).
    split_and!; [done|simpl; unfold list_devices; by rewrite Hdevs|].
    intros l. simpl. rewrite Hdevs, Hdev, Hs. repeat case_decide; naive_solver.
  - intros r idx lba buf. simpl. unfold list_devices. f_equal. apply write_devs.
  - intros r idx lba. apply read_ends. lia.
  - intros r idx lba buf. apply write_ends.
Qed.

Lemma length_selftest_pattern lba : length (selftest_pattern 512 lba) = 512%nat.
Proof. unfold selftest_pattern. by rewrite length_fmap, length_seqZ. Qed.

(** the self test is non-destructive.  When it reports success on a
    512-byte-sector device, every sector of every port holds what it held
    before the test, and the block it tested is inside the device. *)
Theorem selftest_restores r idx lba dev r' :
  reg_devs r !! idx = Some dev → ad_block_size dev = 512 →
  selftest idx lba r = (Ok tt, r') →
  lba < ad_block_count dev ∧ reg_devs r' = reg_devs r ∧
  ∀ p l, hw_sector (reg_hw r') p l = hw_sector (reg_hw r) p l.
Proof.
  intros Hdev Hbs. unfold selftest. rewrite (sbind_Ok _ _ _ (ad_block_size dev) r).
  2: { unfold sread. by rewrite Hdev. }
  intros (orig&?&Horig&Hrest)%sbind_Ok_inv. injection Horig as Horig <-.
  destruct (read_one_ok _ _ _ _ _ Hdev Hbs Horig) as [Hlt ->].
  rewrite Hbs in Hrest. apply sbind_Ok_inv in Hrest as ([]&r1&Hw1&Hrest).
  destruct (write_one_ok _ _ _ _ _ _ Hdev Hbs (length_selftest_pattern lba) Hw1)
    as (_&Hdevs1&Hs1).
  apply sbind_Ok_inv in Hrest as (back&?&Hback&Hrest). injection Hback as Hback <-.
  destruct (write r1 _ _ _) as [o r2] eqn:Hw2. case_decide; [done|]. injection Hrest as -> <-.
  rewrite <-Hdevs1 in Hdev.
  destruct (write_one_ok _ _ _ _ _ _ Hdev Hbs (hw_sector_length _ _ _) Hw2)
    as (_&Hdevs2&Hs2).
  split_and!; [done|congruence|]. intros p l. rewrite Hs2, Hs1.
  repeat case_decide; naive_solver.
Qed.
End block_laws.

(** ** A RAM disk: the hypotheses on the hardware can be met *)

Abbreviation ram := (gmap (Z * Z) (list Z)).

Definition ram_sector (m : ram) (p l : Z) : bytes :=
  match m !! (p, l) with
  | Some b => if decide (length b = 512%nat) then b else replicate 512 0
  | None => replicate 512 0
  end.

Definition ram_write (m : ram) (p lba n : Z) (b : bytes) : ram :=
  foldr (λ l m, <[(p, l) := slice (Z.to_nat (512 * (l - lba))) 512 b]> m) m (seqZ lba n).

#[export] Instance ram_hw : SataHw (gmap (Z * Z) (list Z)) := {
  hw_read m p lba n := Ok (mjoin (ram_sector m p <$> seqZ lba n));
  hw_write m p lba n b := (Ok tt, ram_write m p lba n b);
  hw_sector := ram_sector;
}.

Lemma ram_write_lookup (m : ram) p b base ls p' l :
  foldr (λ l m, <[(p, l) := slice (Z.to_nat (512 * (l - base))) 512 b]> m) m ls !! (p', l) =
    if decide (p' = p ∧ l ∈ ls)
    then Some (slice (Z.to_nat (512 * (l - base))) 512 b) else m !! (p', l).
Proof.
  induction ls as [|x ls IH]; simpl.
  { rewrite decide_False; [done|]. set_solver. }
  destruct (decide ((p, x) = (p', l))) as [[= -> ->]|Hne].
  - rewrite lookup_insert_eq, decide_True; [done|]. set_solver.
  - rewrite lookup_insert_ne, IH by done. apply decide_ext. set_solver.
Qed.

#[export] Instance ram_laws : SataLaws (gmap (Z * Z) (list Z)).
Proof.
  split; simpl.
  - intros m p l. unfold ram_sector. repeat case_match; try done; by rewrite length_replicate.
  - naive_solver.
  - done.
  - done.
  - intros m p lba n b m' Hn Hlen [= <-] p' l. unfold ram_sector, ram_write.
    rewrite ram_write_lookup.
    rewrite (decide_ext _ (p' = p ∧ lba ≤ l < lba + n)) by (rewrite elem_of_seqZ; done).
    case_decide as Hin; [|done]. rewrite decide_True; [done|].
    apply length_slice. lia.
Qed.

(** A 40-block RAM disk behind port 3, as [sata0]. *)
Definition ram_registry : registry ram := Registry [AhciDev (str "sata0") 3 512 40] ∅.

Example read_returns_sectors_witness :
  read ram_registry 0 2 3 ≠ Diverge ∧
  ∀ buf, read ram_registry 0 2 3 = Ok buf →
    2 + 3 ≤ 40 ∧ buf = sectors (reg_hw ram_registry) 3 2 3.
Proof.
  apply (read_returns_sectors ram_registry 0 2 3 (AhciDev (str "sata0") 3 512 40));
    [reflexivity|reflexivity|lia|lia].
Defined.

Example selftest_restores_witness :
  7 < 40 ∧ reg_devs (selftest 0 7 ram_registry).2 = reg_devs ram_registry ∧
  ∀ p l, hw_sector (reg_hw (selftest 0 7 ram_registry).2) p l = hw_sector (reg_hw ram_registry) p l.
Proof.
  apply (selftest_restores ram_registry 0 7 (AhciDev (str "sata0") 3 512 40));
    [reflexivity|reflexivity|]. vm_compute. reflexivity.
Defined.
