(* ===== verification/NextfsLayout.v ===== *)
(** * NextFS on-disk structures (kernel/src/fs/nextfs.rs)

    The superblock, the inode and the directory entry as they lie on disk
    (packed, little endian), the metadata of [stat], and the permission test.
    [Codec] is the interface of a serialised structure; its law is the round
    trip.  Names are byte strings; a [&str] is one that is valid UTF-8. *)

From S2P Require Import Prelude.

Class Codec (A : Type) := {
  to_bytes : A → bytes;
  from_bytes : bytes → A;
  in_range : A → Prop;
  codec_roundtrip a rest : in_range a → from_bytes (to_bytes a ++ rest) = a;
}.

(** ** Constants *)

(** [fs/nextfs.rs:12-12, MAGIC] *)
Definition MAGIC : Z := 1397119054.
(** [fs/nextfs.rs:16-16, BLOCK_SIZE] *)
Definition BLOCK_SIZE : Z := 512.
(** [fs/nextfs.rs:23-23, DIRECT_PTRS] *)
Definition DIRECT_PTRS : Z := 9.
(** [fs/nextfs.rs:26-26, DEFAULT_FILE_MODE] 0o644 *)
Definition DEFAULT_FILE_MODE : Z := 420.
(** [fs/nextfs.rs:28-28, DEFAULT_DIR_MODE] 0o755 *)
Definition DEFAULT_DIR_MODE : Z := 493.
(** [fs/nextfs.rs:42-42, MAY_READ] *)
Definition MAY_READ : Z := 4.
(** [fs/nextfs.rs:43-43, MAY_WRITE] *)
Definition MAY_WRITE : Z := 2.
(** [fs/nextfs.rs:44-44, MAY_EXEC] *)
Definition MAY_EXEC : Z := 1.
(** [fs/nextfs.rs:56-56, ROOT_INODE] *)
Definition ROOT_INODE : Z := 1.
(** [fs/nextfs.rs:59-59, MAX_NAME_LEN] *)
Definition MAX_NAME_LEN : nat := 60.
(** Entries, pointers and inodes per block: [BLOCK_SIZE / SIZE]. *)
Definition INODE_SIZE : Z := 64.
Definition DIRENT_SIZE : Z := 64.
Definition INODES_PER_BLOCK : Z := BLOCK_SIZE / INODE_SIZE.
Definition ENTRIES_PER_BLOCK : Z := BLOCK_SIZE / DIRENT_SIZE.
Definition PTRS_PER_BLOCK : Z := BLOCK_SIZE / 4.

Definition zero_block : bytes := replicate 512 0.

(** ** Superblock *)

(** [fs/nextfs.rs:68-79, Superblock] *)
Record superblock := Superblock {
  sb_magic : Z; sb_block_size : Z; sb_total_blocks : Z; sb_inode_count : Z;
  sb_free_blocks : Z; sb_free_inodes : Z; sb_bitmap_start : Z;
  sb_inode_table_start : Z; sb_data_start : Z; sb_reserved : bytes }.

Definition sb_layout : list nat := [4; 4; 4; 4; 4; 4; 4; 4; 4; 472]%nat.

(** [fs/nextfs.rs:86-96, Superblock::to_bytes]: [size_of::<Superblock>()] is
    508, so the last four bytes of the block stay zero. *)
Definition sb_to_bytes (sb : superblock) : bytes :=
  mjoin ((le_enc 4 <$> [sb_magic sb; sb_block_size sb; sb_total_blocks sb; sb_inode_count sb;
    sb_free_blocks sb; sb_free_inodes sb; sb_bitmap_start sb; sb_inode_table_start sb;
    sb_data_start sb]) ++ [sb_reserved sb]) ++ replicate 4 0.

(** [fs/nextfs.rs:99-120, Superblock::from_bytes] *)
Definition sb_from_bytes (buf : bytes) : superblock :=
  match split_sizes sb_layout buf with
  | [a; b; c; d; e; f; g; h; i; r] =>
      Superblock (le_dec a) (le_dec b) (le_dec c) (le_dec d) (le_dec e) (le_dec f)
        (le_dec g) (le_dec h) (le_dec i) r
  | _ => Superblock 0 0 0 0 0 0 0 0 0 []
  end.

(** [fs/nextfs.rs:123-125, Superblock::is_valid] *)
Definition sb_is_valid (sb : superblock) : bool :=
  bool_decide (sb_magic sb = MAGIC ∧ sb_block_size sb = BLOCK_SIZE).

Definition u32_ok (z : Z) : Prop := 0 ≤ z < 256 ^ 4.

Definition sb_in_range (sb : superblock) : Prop :=
  Forall u32_ok [sb_magic sb; sb_block_size sb; sb_total_blocks sb; sb_inode_count sb;
    sb_free_blocks sb; sb_free_inodes sb; sb_bitmap_start sb; sb_inode_table_start sb;
    sb_data_start sb] ∧ length (sb_reserved sb) = 472%nat.

(** ** Inode *)

(** [fs/nextfs.rs:131-142, Inode] *)
Record inode := Inode {
  i_type : Z; i_pad : Z; i_mode : Z; i_size : Z; i_uid : Z; i_gid : Z; i_mtime : Z;
  i_direct : list Z; i_indirect : Z; i_reserved : bytes }.

Definition inode_layout : list nat := [1; 1; 2; 8; 2; 2; 4; 36; 4; 4]%nat.

(** [fs/nextfs.rs:147-160, Inode::new_file] *)
Definition new_file : inode :=
  Inode 1 0 DEFAULT_FILE_MODE 0 0 0 0 (replicate 9 0) 0 (replicate 4 0).
(** [fs/nextfs.rs:162-175, Inode::new_dir] *)
Definition new_dir : inode :=
  Inode 2 0 DEFAULT_DIR_MODE 0 0 0 0 (replicate 9 0) 0 (replicate 4 0).
(** [fs/nextfs.rs:401-412, empty_inode] *)
Definition empty_inode : inode :=
  Inode 0 0 0 0 0 0 0 (replicate 9 0) 0 (replicate 4 0).

(** [fs/nextfs.rs:177-179, Inode::is_free] *)
Definition is_free (i : inode) : bool := i_type i =? 0.
(** [fs/nextfs.rs:181-183, Inode::is_file] *)
Definition is_file (i : inode) : bool := i_type i =? 1.
(** [fs/nextfs.rs:185-187, Inode::is_dir] *)
Definition is_dir (i : inode) : bool := i_type i =? 2.

(** [fs/nextfs.rs:191-204, Inode::permits] *)
Definition permits (i : inode) (uid gid want : Z) : bool :=
  if uid =? 0 then true else
  let granted :=
    if i_uid i =? uid then Z.land (Z.shiftr (i_mode i) 6) 7 else
    if i_gid i =? gid then Z.land (Z.shiftr (i_mode i) 3) 7 else
    Z.land (i_mode i) 7 in
  Z.land granted want =? want.

(** [fs/nextfs.rs:206-216, Inode::to_bytes] *)
Definition inode_to_bytes (i : inode) : bytes :=
  mjoin [le_enc 1 (i_type i); le_enc 1 (i_pad i); le_enc 2 (i_mode i); le_enc 8 (i_size i);
    le_enc 2 (i_uid i); le_enc 2 (i_gid i); le_enc 4 (i_mtime i);
    mjoin (le_enc 4 <$> i_direct i); le_enc 4 (i_indirect i); i_reserved i].

(** [fs/nextfs.rs:218-239, Inode::from_bytes] *)
Definition inode_from_bytes (buf : bytes) : inode :=
  match split_sizes inode_layout buf with
  | [t; p; m; s; u; g; mt; d; ind; r] =>
      Inode (le_dec t) (le_dec p) (le_dec m) (le_dec s) (le_dec u) (le_dec g) (le_dec mt)
        (le_dec <$> split_sizes (replicate 9 4%nat) d) (le_dec ind) r
  | _ => empty_inode
  end.

Definition inode_in_range (i : inode) : Prop :=
  0 ≤ i_type i < 256 ∧ 0 ≤ i_pad i < 256 ∧ 0 ≤ i_mode i < 256 ^ 2 ∧ 0 ≤ i_size i < 256 ^ 8 ∧
  0 ≤ i_uid i < 256 ^ 2 ∧ 0 ≤ i_gid i < 256 ^ 2 ∧ 0 ≤ i_mtime i < 256 ^ 4 ∧
  length (i_direct i) = 9%nat ∧ Forall u32_ok (i_direct i) ∧ u32_ok (i_indirect i) ∧
  length (i_reserved i) = 4%nat.

(** ** Directory entry *)

(** [fs/nextfs.rs:245-248, DirEntry] *)
Record dir_entry := DirEntry { de_inode : Z; de_name : bytes }.

(** [fs/nextfs.rs:253-262, DirEntry::new] *)
Definition dirent_new (ino : Z) (name : bytes) : dir_entry :=
  let n := Nat.min (length name) (MAX_NAME_LEN - 1) in
  DirEntry ino (take n name ++ replicate (MAX_NAME_LEN - n) 0).

(** [fs/nextfs.rs:264-266, DirEntry::is_used] *)
Definition is_used (e : dir_entry) : bool := negb (de_inode e =? 0).

(** [fs/nextfs.rs:268-271, DirEntry::name_str] *)
Definition name_str (e : dir_entry) : bytes :=
  let len := default MAX_NAME_LEN (position (λ b, b =? 0) (de_name e)) in
  let s := take len (de_name e) in
  if utf8_valid s then s else [].

(** [fs/nextfs.rs:273-275, DirEntry::name_matches] *)
Definition name_matches (e : dir_entry) (name : bytes) : bool :=
  bool_decide (name_str e = name).

(** [fs/nextfs.rs:277-287, DirEntry::to_bytes] *)
Definition dirent_to_bytes (e : dir_entry) : bytes :=
  mjoin [le_enc 4 (de_inode e); de_name e].

(** [fs/nextfs.rs:289-302, DirEntry::from_bytes] *)
Definition dirent_from_bytes (buf : bytes) : dir_entry :=
  match split_sizes [4; 60]%nat buf with
  | [i; n] => DirEntry (le_dec i) n
  | _ => DirEntry 0 []
  end.

Definition dirent_in_range (e : dir_entry) : Prop :=
  u32_ok (de_inode e) ∧ length (de_name e) = MAX_NAME_LEN.

(** ** Metadata *)

(** [fs/nextfs.rs:676-684, FileStat] *)
Record file_stat := FileStat {
  st_inode : Z; st_type : Z; st_mode : Z; st_uid : Z; st_gid : Z; st_size : Z; st_mtime : Z }.

(** [fs/nextfs.rs:688-690, FileStat::is_dir] *)
Definition st_is_dir (s : file_stat) : bool := st_type s =? 2.

(** [fs/nextfs.rs:693-713, FileStat::mode_string] *)
Definition mode_string (s : file_stat) : bytes :=
  let bits := zip [256; 128; 64; 32; 16; 8; 4; 2; 1] (str "rwxrwxrwx") in
  (if st_is_dir s then str "d" else str "-") ++
  ((λ '(mask, ch), if Z.land (st_mode s) mask =? 0 then 45 else ch) <$> bits).

(** ** Round trips *)

Lemma le_dec_enc_u32 z : u32_ok z → le_dec (le_enc 4 z) = z.
Proof. apply (le_dec_enc_small 4). Qed.

Lemma le_dec_enc_u32s l : Forall u32_ok l → (le_dec <$> (le_enc 4 <$> l)) = l.
Proof. induction 1; simpl fmap; [done|]. f_equal; [by apply le_dec_enc_u32|done]. Qed.

Lemma split_sizes_fields sizes ls rest :
  length <$> ls = sizes → split_sizes sizes (mjoin ls ++ rest) = ls.
Proof. intros <-. apply split_sizes_join. Qed.

Lemma length_u32s l : length (mjoin (le_enc 4 <$> l)) = (4 * length l)%nat.
Proof.
  rewrite (length_mjoin_uniform 4); [rewrite length_fmap; lia|].
  apply Forall_fmap, Forall_true. intros. apply length_le_enc.
Qed.

Lemma inode_codec_law i rest :
  inode_in_range i → inode_from_bytes (inode_to_bytes i ++ rest) = i.
Proof.
  intros (?&?&?&?&?&?&?&Hd&Hdi&?&?). unfold inode_from_bytes, inode_to_bytes.
  rewrite (split_sizes_fields inode_layout).
  2: { cbn -[le_enc mjoin]. by rewrite !length_le_enc, length_u32s, Hd; do 10 f_equal. }
  rewrite !le_dec_enc_small by done.
  rewrite <-(app_nil_r (mjoin (le_enc 4 <$> i_direct i))).
  rewrite (split_sizes_fields (replicate 9 4%nat)).
  2: { rewrite <-Hd. clear. induction (i_direct i); [done|]. by f_equal/=. }
  rewrite le_dec_enc_u32s by done. by destruct i.
Qed.

#[export] Instance inode_codec : Codec inode := {
  codec_roundtrip := inode_codec_law;
}.

Lemma sb_codec_law sb rest :
  sb_in_range sb → sb_from_bytes (sb_to_bytes sb ++ rest) = sb.
Proof.
  intros [Hall Hr]. unfold sb_from_bytes, sb_to_bytes.
  rewrite <-(assoc_L (++)), (split_sizes_fields sb_layout).
  2: { cbn -[le_enc]. by rewrite !length_le_enc, Hr. }
  pose proof (le_dec_enc_u32s _ Hall) as Hd. cbn -[le_enc le_dec] in Hd |- *.
  destruct sb; simplify_eq/=. cbn -[le_enc le_dec] in *. congruence.
Qed.

#[export] Instance sb_codec : Codec superblock := {
  codec_roundtrip := sb_codec_law;
}.

Lemma dirent_codec_law e rest :
  dirent_in_range e → dirent_from_bytes (dirent_to_bytes e ++ rest) = e.
Proof.
  intros [Hi Hn]. unfold dirent_from_bytes, dirent_to_bytes.
  rewrite (split_sizes_fields [4; 60]%nat).
  2: { cbn -[le_enc]. by rewrite length_le_enc, Hn. }
  rewrite le_dec_enc_u32 by done. by destruct e.
Qed.

#[export] Instance dirent_codec : Codec dir_entry := {
  codec_roundtrip := dirent_codec_law;
}.

Lemma length_inode_to_bytes i : inode_in_range i → length (inode_to_bytes i) = 64%nat.
Proof.
  intros (?&?&?&?&?&?&?&Hd&_&_&Hr). unfold inode_to_bytes. cbn -[le_enc mjoin].
  unfold mjoin. cbn -[le_enc]. fold (@mjoin list _ Z).
  rewrite !length_app, !length_le_enc, length_u32s, Hd, Hr. done.
Qed.

Lemma length_dirent_to_bytes e : length (de_name e) = MAX_NAME_LEN →
  length (dirent_to_bytes e) = 64%nat.
Proof. intros Hn. unfold dirent_to_bytes. simpl. by rewrite app_nil_r, Hn. Qed.

Lemma length_sb_to_bytes sb : length (sb_reserved sb) = 472%nat →
  length (sb_to_bytes sb) = 512%nat.
Proof.
  intros Hr. unfold sb_to_bytes. simpl. by rewrite length_app, app_nil_r, Hr.
Qed.

(** ** Names *)

Lemma take_position_zero (name pad : bytes) :
  Forall (λ b, b ≠ 0) name →
  position (λ b, b =? 0) (name ++ 0 :: pad) = Some (length name).
Proof.
  intros Hnz. apply position_Some. split.
  - exists 0. split; [|done]. by rewrite lookup_app_r, Nat.sub_diag by lia.
  - intros j x Hj Hx. rewrite lookup_app_l in Hx by done.
    apply Z.eqb_neq. by eapply (Forall_lookup_1 _ _ _ _ Hnz).
Qed.

(** A name that [dir_add_entry] accepts is read back as it is. *)
Lemma name_str_new ino name :
  utf8_valid name = true → (length name < MAX_NAME_LEN)%nat → Forall (λ b, b ≠ 0) name →
  name_str (dirent_new ino name) = name.
Proof.
  unfold MAX_NAME_LEN. intros Hu Hlen Hnz.
  assert (dirent_new ino name = DirEntry ino (name ++ 0 :: replicate (59 - length name) 0)) as ->.
  { unfold dirent_new, MAX_NAME_LEN. rewrite Nat.min_l, take_ge by lia.
    by replace (60 - length name)%nat with (S (59 - length name)) by lia. }
  unfold name_str. cbn [de_name]. rewrite take_position_zero by done.
  cbn [default]. unfold default, from_option. simpl. rewrite take_app_length. by rewrite Hu.
Qed.

Lemma length_dirent_new ino name : length (de_name (dirent_new ino name)) = MAX_NAME_LEN.
Proof.
  unfold dirent_new. simpl. rewrite length_app, length_take, length_replicate.
  unfold MAX_NAME_LEN. lia.
Qed.

(** ** Properties *)

(** an inode survives the disk.  Its image is 64 bytes and, whatever
    follows it in the block, reading the image back gives the same inode. *)
Theorem inode_roundtrip (i : inode) rest :
  inode_in_range i →
  length (to_bytes i) = 64%nat ∧ from_bytes (to_bytes i ++ rest) = i.
Proof. intros Hi. split; [by apply length_inode_to_bytes|by apply codec_roundtrip]. Qed.

Definition sample_inode : inode :=
  Inode 1 0 420 70000 1000 100 77 [40; 41; 42; 43; 44; 45; 46; 47; 48] 49 (replicate 4 0).

Example inode_roundtrip_witness :
  length (to_bytes sample_inode) = 64%nat ∧
  from_bytes (to_bytes sample_inode ++ [1; 2; 3]) = sample_inode.
Proof.
  apply inode_roundtrip. unfold inode_in_range, u32_ok. simpl.
  split_and!; try lia; repeat constructor; lia.
Defined.

(** a directory entry survives the disk.  For a name accepted by
    [dir_add_entry] (fewer than 60 bytes) without a NUL byte, the entry written
    to a block and read back names the same inode, is used when that inode is
    not 0, and its [name_str] is the name. *)
Theorem dirent_roundtrip ino name rest :
  u32_ok ino → utf8_valid name = true → (length name < MAX_NAME_LEN)%nat →
  Forall (λ b, b ≠ 0) name →
  let e := from_bytes (to_bytes (dirent_new ino name) ++ rest) in
  length (to_bytes (dirent_new ino name)) = 64%nat ∧
  de_inode e = ino ∧ is_used e = negb (ino =? 0) ∧ name_str e = name.
Proof.
  intros Hi Hu Hlen Hnz. cbn zeta.
  rewrite codec_roundtrip by (split; [done|apply length_dirent_new]).
  split_and!; [|done|done|by apply name_str_new].
  apply length_dirent_to_bytes, length_dirent_new.
Qed.

Example dirent_roundtrip_witness :
  let e := from_bytes (to_bytes (dirent_new 7 (str "notes.txt")) ++ []) in
  length (to_bytes (dirent_new 7 (str "notes.txt"))) = 64%nat ∧
  de_inode e = 7 ∧ is_used e = true ∧ name_str e = str "notes.txt".
Proof.
  apply (dirent_roundtrip 7 (str "notes.txt")).
  - unfold u32_ok. lia.
  - reflexivity.
  - vm_compute. lia.
  - by repeat constructor.
Defined.

(** The permission bits that apply to a caller: owner, group or others. *)
Definition perm_class (i : inode) (uid gid : Z) : Z :=
  if i_uid i =? uid then 6 else if i_gid i =? gid then 3 else 0.

(** the access check.  Root passes; anybody else passes exactly when every
    requested bit is set in the one class of the mode that applies to him
    (owner if he owns the inode, else group if he is in its group, else
    others), so an owner is not helped by the bits of the other classes. *)
Theorem permits_spec i uid gid want :
  0 ≤ want < 8 →
  permits i uid gid want = true ↔
    uid = 0 ∨ ∀ k, 0 ≤ k < 3 → Z.testbit want k = true →
      Z.testbit (i_mode i) (perm_class i uid gid + k) = true.
Proof.
  intros Hw. unfold permits. destruct (Z.eqb_spec uid 0) as [->|Hne]; [naive_solver|].
  replace (if i_uid i =? uid then _ else _)
    with (Z.land (Z.shiftr (i_mode i) (perm_class i uid gid)) 7)
    by (unfold perm_class; repeat case_match; by rewrite ?Z.shiftr_0_r).
  assert (0 ≤ perm_class i uid gid) as Hc by (unfold perm_class; repeat case_match; lia).
  assert (∀ k, 0 ≤ k → Z.testbit want k = true → k < 3) as Hsmall.
  { intros k Hk Hb. destruct (decide (k < 3)); [done|].
    rewrite (Z.bits_above_log2 want) in Hb; [done|lia|].
    destruct (decide (want = 0)) as [->|]; [simpl; lia|].
    apply (Z.log2_lt_pow2 want k); [lia|].
    eapply Z.lt_le_trans; [apply Hw|]. change 8 with (2 ^ 3). apply Z.pow_le_mono_r; lia. }
  rewrite Z.eqb_eq. split.
  - intros He. right. intros k Hk Hb. rewrite <-He, Z.land_spec, Z.land_spec in Hb.
    rewrite Z.shiftr_spec in Hb by lia. rewrite Z.add_comm.
    by apply andb_true_iff in Hb as [[Hb _]%andb_true_iff _].
  - intros [->|Hall]; [done|]. apply Z.bits_inj'. intros k Hk.
    rewrite !Z.land_spec, Z.shiftr_spec by done.
    destruct (Z.testbit want k) eqn:Hb; [|by rewrite andb_false_r].
    pose proof (Hsmall k Hk Hb). rewrite (Z.add_comm k), Hall by (lia || done).
    change 7 with (Z.ones 3). by rewrite Z.ones_spec_low by lia.
Qed.

Example permits_spec_witness :
  permits sample_inode 1000 100 6 = true ↔
    1000 = 0 ∨ ∀ k, 0 ≤ k < 3 → Z.testbit 6 k = true →
      Z.testbit (i_mode sample_inode) (perm_class sample_inode 1000 100 + k) = true.
Proof. apply permits_spec. lia. Defined.
