(* ===== verification/NextfsAlloc.v ===== *)
(** * NextFS state, allocation bitmaps and inode table (kernel/src/fs/nextfs.rs)

    The mounted file system with the block layer under it, first-fit
    allocation of blocks and inodes, and reading and writing inodes in the
    inode table.  The block layer is known only through [BlockDev]. *)

From S2P Require Import Prelude Block NextfsLayout.

(** [fs/nextfs.rs:626-643, FsError] *)
Inductive fs_error : Type :=
| DeviceNotFound | DeviceTooSmall | UnsupportedBlockSize | InvalidMagic | InvalidInode
| NoSpace | NotFound | NotDirectory | NotFile | AlreadyExists | NameTooLong | NotMounted
| InvalidOperation | DirectoryNotEmpty | PermissionDenied | BlockErr (e : block_error).

#[export] Instance fs_error_eq_dec : EqDecision fs_error.
Proof. solve_decision. Defined.

(** [fs/nextfs.rs:310-315, NextFS]; [fs_disk] is the block layer it calls. *)
Record nextfs (D : Type) := NextFS {
  fs_dev : nat; fs_sb : superblock; fs_bbm : list Z; fs_ibm : list Z; fs_disk : D }.
Arguments NextFS {D}.
Arguments fs_dev {D}.
Arguments fs_sb {D}.
Arguments fs_bbm {D}.
Arguments fs_ibm {D}.
Arguments fs_disk {D}.

Section updates.
Context {D : Type}.
Implicit Types fs : nextfs D.

Definition with_disk (d : D) fs : nextfs D :=
  NextFS (fs_dev fs) (fs_sb fs) (fs_bbm fs) (fs_ibm fs) d.
Definition with_bbm (m : list Z) fs : nextfs D :=
  NextFS (fs_dev fs) (fs_sb fs) m (fs_ibm fs) (fs_disk fs).
Definition with_ibm (m : list Z) fs : nextfs D :=
  NextFS (fs_dev fs) (fs_sb fs) (fs_bbm fs) m (fs_disk fs).
Definition with_free (blocks inodes : Z) fs : nextfs D :=
  let sb := fs_sb fs in
  NextFS (fs_dev fs)
    (Superblock (sb_magic sb) (sb_block_size sb) (sb_total_blocks sb) (sb_inode_count sb)
       blocks inodes (sb_bitmap_start sb) (sb_inode_table_start sb) (sb_data_start sb)
       (sb_reserved sb))
    (fs_bbm fs) (fs_ibm fs) (fs_disk fs).
End updates.

Section alloc.
Context {D : Type} `{BlockDev D}.

Abbreviation fs_op A := (stm (nextfs D) fs_error A).

(** [block::read(self.dev_idx, lba, 1)?] and [block::write(self.dev_idx, lba, &buf)?]. *)
Definition fs_read (lba : Z) (fs : nextfs D) : outcome fs_error bytes :=
  map_err BlockErr (blk_read (fs_disk fs) (fs_dev fs) lba 1).
Definition fs_write (lba : Z) (buf : bytes) : fs_op unit := λ fs,
  let '(r, d) := blk_write (fs_disk fs) (fs_dev fs) lba buf in
  (map_err BlockErr r, with_disk d fs).

(** [bitmap[byte] & (1 << bit)] with the index check of the slice. *)
Definition bitmap_get (m : list Z) (n : Z) : option bool :=
  (λ b, bit_test b (n mod 8)) <$> m !! Z.to_nat (n / 8).
Definition bitmap_update (f : Z → Z → Z) (m : list Z) (n : Z) : option (list Z) :=
  (λ b, <[Z.to_nat (n / 8) := f b (n mod 8)]> m) <$> m !! Z.to_nat (n / 8).

(** The scan of [alloc_block]: the first bit of the range that says free. *)
Fixpoint scan_free (want : bool) (m : list Z) (bits : list Z) : outcome fs_error Z :=
  match bits with
  | [] => Err NoSpace
  | bit :: bits =>
      match bitmap_get m bit with
      | None => Panic
      | Some b => if Bool.eqb b want then Ok bit else scan_free want m bits
      end
  end.

(** [fs/nextfs.rs:534-552, NextFS::alloc_block] *)
Definition alloc_block : fs_op Z := λ fs,
  let sb := fs_sb fs in
  if decide (sb_free_blocks sb = 0) then (Err NoSpace, fs) else
  (let! bit := slift (scan_free true (fs_bbm fs)
      (seqZ (sb_data_start sb) (sb_total_blocks sb - sb_data_start sb))) in
   let! m := slift (or_panic (bitmap_update bit_clear (fs_bbm fs) bit)) in
   let! _ := smodify (with_bbm m) in
   let! _ := smodify (λ fs, with_free (sb_free_blocks sb - 1) (sb_free_inodes sb) fs) in
   sret bit) fs.

(** [fs/nextfs.rs:555-561, NextFS::free_block] *)
Definition free_block (block_num : Z) : fs_op unit := λ fs,
  (let! m := slift (or_panic (bitmap_update bit_set (fs_bbm fs) block_num)) in
   let! _ := smodify (with_bbm m) in
   smodify (λ fs, with_free (wrap32 (sb_free_blocks (fs_sb fs) + 1))
     (sb_free_inodes (fs_sb fs)) fs)) fs.

(** [fs/nextfs.rs:564-580, NextFS::alloc_inode] *)
Definition alloc_inode : fs_op Z := λ fs,
  let sb := fs_sb fs in
  if decide (sb_free_inodes sb = 0) then (Err NoSpace, fs) else
  (let! i := slift (scan_free false (fs_ibm fs) (seqZ 1 (sb_inode_count sb - 1))) in
   let! m := slift (or_panic (bitmap_update bit_set (fs_ibm fs) i)) in
   let! _ := smodify (with_ibm m) in
   let! _ := smodify (λ fs, with_free (sb_free_blocks sb) (sb_free_inodes sb - 1) fs) in
   sret i) fs.

(** [fs/nextfs.rs:583-588, NextFS::free_inode] *)
Definition free_inode (inode_num : Z) : fs_op unit := λ fs,
  (let! m := slift (or_panic (bitmap_update bit_clear (fs_ibm fs) inode_num)) in
   let! _ := smodify (with_ibm m) in
   smodify (λ fs, with_free (sb_free_blocks (fs_sb fs))
     (wrap32 (sb_free_inodes (fs_sb fs) + 1)) fs)) fs.

(** Where inode [n] lies: its block of the table and its offset there. *)
Definition inode_block (table_start n : Z) : Z := table_start + n / INODES_PER_BLOCK.
Definition inode_off (n : Z) : nat := Z.to_nat (n mod INODES_PER_BLOCK * INODE_SIZE).

(** [fs/nextfs.rs:514-531, NextFS::write_inode_raw] *)
Definition write_inode_raw (table_start n : Z) (i : inode) : fs_op unit :=
  let! buf := sread (fs_read (inode_block table_start n)) in
  fs_write (inode_block table_start n) (splice (inode_off n) (to_bytes i) buf).

(** [fs/nextfs.rs:591-603, NextFS::read_inode] *)
Definition read_inode (n : Z) (fs : nextfs D) : outcome fs_error inode :=
  let sb := fs_sb fs in
  if decide (n = 0 ∨ sb_inode_count sb ≤ n) then Err InvalidInode else
  let? buf := fs_read (inode_block (sb_inode_table_start sb) n) fs in
  Ok (from_bytes (slice (inode_off n) 64 buf)).

(** [fs/nextfs.rs:606-618, NextFS::write_inode] *)
Definition write_inode (n : Z) (i : inode) : fs_op unit := λ fs,
  let sb := fs_sb fs in
  if decide (n = 0 ∨ sb_inode_count sb ≤ n) then (Err InvalidInode, fs) else
  write_inode_raw (sb_inode_table_start sb) n i fs.

(** ** Invariants *)

(** The geometry of a mounted volume: metadata blocks, inode table, data. *)
Record geom_ok (fs : nextfs D) : Prop := {
  geom_device : ∃ n, has_device (fs_disk fs) (fs_dev fs) n ∧ sb_total_blocks (fs_sb fs) ≤ n;
  geom_table : 0 < sb_inode_table_start (fs_sb fs);
  geom_inodes : 0 ≤ sb_inode_count (fs_sb fs);
  geom_data : sb_inode_table_start (fs_sb fs) + (sb_inode_count (fs_sb fs) + 7) / 8
              ≤ sb_data_start (fs_sb fs);
  geom_total : sb_data_start (fs_sb fs) ≤ sb_total_blocks (fs_sb fs) < 2 ^ 32;
  geom_bbm : sb_total_blocks (fs_sb fs) ≤ 8 * Z.of_nat (length (fs_bbm fs));
  geom_ibm : sb_inode_count (fs_sb fs) ≤ 8 * Z.of_nat (length (fs_ibm fs));
}.

(** Bit set = free (blocks); bit clear = free (inodes). *)
Definition block_free (fs : nextfs D) (b : Z) : bool :=
  default false (bitmap_get (fs_bbm fs) b).
Definition inode_free (fs : nextfs D) (i : Z) : bool :=
  negb (default true (bitmap_get (fs_ibm fs) i)).

Definition count_if (f : Z → bool) (l : list Z) : Z :=
  Z.of_nat (length (filter (λ x, f x = true) l)).

(** The free counter of the superblock counts the free data blocks. *)
Definition counted (fs : nextfs D) : Prop :=
  let sb := fs_sb fs in
  sb_free_blocks sb =
    count_if (block_free fs) (seqZ (sb_data_start sb) (sb_total_blocks sb - sb_data_start sb)).

Definition is_data_block (fs : nextfs D) (b : Z) : Prop :=
  sb_data_start (fs_sb fs) ≤ b < sb_total_blocks (fs_sb fs).

(** ** Bitmap lemmas *)

Lemma bitmap_get_total m n : 0 ≤ n < 8 * Z.of_nat (length m) → is_Some (bitmap_get m n).
Proof.
  intros Hn. unfold bitmap_get. apply fmap_is_Some, lookup_lt_is_Some.
  assert (n / 8 < Z.of_nat (length m)) by (apply Z.div_lt_upper_bound; lia). lia.
Qed.

(** Both updates, through the bit they write. *)
Lemma bitmap_update_get (f : Z → Z → Z) (v : bool) m n m' j :
  (∀ b k k', 0 ≤ k < 8 → 0 ≤ k' < 8 →
     Z.testbit (f b k) k' = if decide (k' = k) then v else Z.testbit b k') →
  0 ≤ n → 0 ≤ j → bitmap_update f m n = Some m' →
  length m' = length m ∧
  bitmap_get m' j = if decide (j = n) then Some v else bitmap_get m j.
Proof.
  intros Hf Hn Hj. unfold bitmap_update, bitmap_get.
  destruct (m !! Z.to_nat (n / 8)) as [b|] eqn:Hb; simpl; intros [= <-].
  rewrite length_insert. split; [done|].
  pose proof (Z.mod_pos_bound n 8 ltac:(lia)). pose proof (Z.mod_pos_bound j 8 ltac:(lia)).
  pose proof (Z.div_mod n 8 ltac:(lia)). pose proof (Z.div_mod j 8 ltac:(lia)).
  destruct (decide (j / 8 = n / 8)) as [He|Hne].
  - rewrite He, list_lookup_insert_eq by by eapply lookup_lt_Some.
    simpl. rewrite bit_test_spec, Hf by lia.
    rewrite (decide_ext (j mod 8 = n mod 8) (j = n)) by lia.
    case_decide; [done|]. by rewrite Hb; simpl; rewrite bit_test_spec by lia.
  - rewrite list_lookup_insert_ne by lia. rewrite decide_False by congruence. done.
Qed.

Lemma bit_clear_updates b k k' : 0 ≤ k < 8 → 0 ≤ k' < 8 →
  Z.testbit (bit_clear b k) k' = if decide (k' = k) then false else Z.testbit b k'.
Proof.
  intros. rewrite bit_clear_spec by lia. case_decide as Hk.
  - by rewrite bool_decide_eq_true_2, andb_false_r.
  - by rewrite bool_decide_eq_false_2, andb_true_r.
Qed.

Lemma bit_set_updates b k k' : 0 ≤ k < 8 → 0 ≤ k' < 8 →
  Z.testbit (bit_set b k) k' = if decide (k' = k) then true else Z.testbit b k'.
Proof.
  intros. rewrite bit_set_spec by lia. case_decide as Hk.
  - by rewrite bool_decide_eq_true_2, orb_true_r.
  - by rewrite bool_decide_eq_false_2, orb_false_r.
Qed.

Lemma scan_free_spec want m bits :
  (∀ x, x ∈ bits → is_Some (bitmap_get m x)) →
  match scan_free want m bits with
  | Ok n => ∃ pre post, bits = pre ++ n :: post ∧ bitmap_get m n = Some want ∧
              ∀ x, x ∈ pre → bitmap_get m x = Some (negb want)
  | Err e => e = NoSpace ∧ ∀ x, x ∈ bits → bitmap_get m x = Some (negb want)
  | _ => False
  end.
Proof.
  induction bits as [|x bits IH]; intros Hin; simpl; [split; [done|set_solver]|].
  destruct (Hin x) as [b Hb]; [by left|]. rewrite Hb.
  destruct (Bool.eqb_spec b want) as [->|Hne].
  - exists [], bits. split_and!; [done|done|set_solver].
  - assert (b = negb want) as -> by (destruct b, want; done).
    specialize (IH (λ y Hy, Hin y (list_elem_of_further y x bits Hy))).
    destruct (scan_free want m bits) as [n|e| |]; [|naive_solver set_solver|done|done].
    destruct IH as (pre&post&->&Hn&Hpre). exists (x :: pre), post.
    split_and!; [done|done|]. intros y [->|Hy]%elem_of_cons; eauto.
Qed.

(** ** Counting *)

Lemma count_if_app f l1 l2 : count_if f (l1 ++ l2) = count_if f l1 + count_if f l2.
Proof. unfold count_if. rewrite filter_app, length_app. lia. Qed.

Lemma count_if_cons f x l : count_if f (x :: l) = Z.b2z (f x) + count_if f l.
Proof.
  unfold count_if. destruct (f x) eqn:Hx.
  - rewrite filter_cons_True by done. simpl length. unfold Z.b2z. lia.
  - rewrite filter_cons_False by congruence. done.
Qed.

Lemma count_if_ext f g l : (∀ x, x ∈ l → f x = g x) → count_if f l = count_if g l.
Proof.
  induction l as [|x l IH]; intros Heq; [done|]. rewrite !count_if_cons, Heq by by left.
  f_equal. apply IH. intros y Hy. apply Heq. by right.
Qed.

Lemma count_if_nonneg f l : 0 ≤ count_if f l.
Proof. unfold count_if. lia. Qed.

Lemma count_if_zero f l : count_if f l = 0 ↔ ∀ x, x ∈ l → f x = false.
Proof.
  induction l as [|x l IH]; [set_solver|]. rewrite count_if_cons.
  pose proof (count_if_nonneg f l). split.
  - intros Hz y [->|Hy]%elem_of_cons; [destruct (f x); simpl in *; lia|].
    apply IH; [destruct (f x); simpl in *; lia|done].
  - intros Hf. rewrite (Hf x) by by left. simpl.
    apply IH. intros y Hy. apply Hf. by right.
Qed.

(** Changing one member of a list without repetition. *)
Lemma count_if_update f g x l : NoDup l → x ∈ l →
  (∀ y, y ∈ l → y ≠ x → f y = g y) →
  count_if g l = count_if f l - Z.b2z (f x) + Z.b2z (g x).
Proof.
  intros Hnd [l1 [l2 ->]]%list_elem_of_split Heq.
  apply NoDup_app in Hnd as (_&Hd&[Hx _]%NoDup_cons).
  rewrite !count_if_app, !count_if_cons.
  rewrite (count_if_ext f g l1), (count_if_ext f g l2); [lia| |].
  - intros y Hy. apply Heq; set_solver.
  - intros y Hy. apply Heq; set_solver.
Qed.

(** ** Geometry is kept by every operation *)

Definition same_geom (fs fs' : nextfs D) : Prop :=
  let sb := fs_sb fs in let sb' := fs_sb fs' in
  fs_dev fs' = fs_dev fs ∧ blk_list (fs_disk fs') = blk_list (fs_disk fs) ∧
  length (fs_bbm fs') = length (fs_bbm fs) ∧ length (fs_ibm fs') = length (fs_ibm fs) ∧
  sb_total_blocks sb' = sb_total_blocks sb ∧ sb_inode_count sb' = sb_inode_count sb ∧
  sb_bitmap_start sb' = sb_bitmap_start sb ∧
  sb_inode_table_start sb' = sb_inode_table_start sb ∧ sb_data_start sb' = sb_data_start sb.

#[export] Instance same_geom_refl : Reflexive same_geom.
Proof. intros fs. repeat split. Qed.
#[export] Instance same_geom_trans : Transitive same_geom.
Proof. intros x y z. unfold same_geom. intros ??. destruct_and!. split_and!; congruence. Qed.

Lemma geom_ok_same fs fs' : same_geom fs fs' → geom_ok fs → geom_ok fs'.
Proof.
  unfold same_geom. intros Hs [(n&(i&Hi&?)&?) ??????]. destruct_and!.
  split; try congruence; try lia.
  exists n. split; [|lia]. exists i. split; [|done]. congruence.
Qed.

Lemma is_data_block_same fs fs' b : same_geom fs fs' → is_data_block fs' b ↔ is_data_block fs b.
Proof. unfold same_geom, is_data_block. intros. destruct_and!. split; lia. Qed.

Lemma geom_data_pos fs : geom_ok fs → 0 < sb_data_start (fs_sb fs).
Proof. intros [? Ht Hi Hd ???]. pose proof (Z.div_pos (sb_inode_count (fs_sb fs) + 7) 8). lia. Qed.

Lemma data_block_bit fs b : geom_ok fs → is_data_block fs b →
  bitmap_get (fs_bbm fs) b = Some (block_free fs b).
Proof.
  intros Hg [Hb1 Hb2]. pose proof (geom_data_pos _ Hg). unfold block_free.
  destruct (bitmap_get_total (fs_bbm fs) b) as [v ->]; [|done].
  pose proof (geom_bbm _ Hg). lia.
Qed.

Lemma elem_of_data_blocks fs b :
  b ∈ seqZ (sb_data_start (fs_sb fs)) (sb_total_blocks (fs_sb fs) - sb_data_start (fs_sb fs)) ↔
    is_data_block fs b.
Proof. rewrite elem_of_seqZ. unfold is_data_block. split; lia. Qed.

(** [seqZ] in order: what precedes an element is what is smaller. *)
Lemma seqZ_prefix m n pre x post : seqZ m n = pre ++ x :: post →
  ∀ y, m ≤ y < x → y ∈ pre.
Proof.
  intros Heq y Hy.
  assert (Hx : seqZ m n !! length pre = Some x).
  { by rewrite Heq, lookup_app_r, Nat.sub_diag by lia. }
  apply lookup_seqZ in Hx as [-> Hlt].
  assert (Hl : seqZ m n !! Z.to_nat (y - m) = Some y) by (apply lookup_seqZ; lia).
  rewrite Heq, lookup_app_l in Hl by lia. by eapply list_elem_of_lookup_2.
Qed.

Lemma same_geom_update fs m ib b i :
  length m = length (fs_bbm fs) → length ib = length (fs_ibm fs) →
  same_geom fs (with_free b i (with_bbm m (with_ibm ib fs))).
Proof. intros. by repeat split. Qed.

Lemma counted_update fs m b k :
  geom_ok fs → counted fs → is_data_block fs b →
  (∀ x, 0 ≤ x → bitmap_get m x = if decide (x = b) then Some k else bitmap_get (fs_bbm fs) x) →
  counted (with_free (sb_free_blocks (fs_sb fs) - Z.b2z (block_free fs b) + Z.b2z k)
             (sb_free_inodes (fs_sb fs)) (with_bbm m fs)).
Proof.
  intros Hg Hc Hb Hm. pose proof (geom_data_pos _ Hg). unfold counted. simpl. rewrite Hc.
  assert (∀ x, 0 ≤ x → block_free (with_bbm m fs) x = if decide (x = b) then k else block_free fs x)
    as Hf.
  { intros x Hx. unfold block_free. simpl. rewrite Hm by done. by case_decide. }
  rewrite (count_if_update (block_free fs) (block_free (with_bbm m fs)) b).
  - rewrite Hf by (destruct Hb; lia). rewrite decide_True by done. done.
  - apply NoDup_seqZ.
  - by apply elem_of_data_blocks.
  - intros y [Hy _]%elem_of_data_blocks Hne. rewrite Hf by lia. by rewrite decide_False.
Qed.

(** What a block allocation and a block release do, for the other files. *)
Lemma alloc_block_Ok fs b fs' :
  geom_ok fs → alloc_block fs = (Ok b, fs') →
  is_data_block fs b ∧ block_free fs b = true ∧
  (∀ x, sb_data_start (fs_sb fs) ≤ x < b → block_free fs x = false) ∧
  (∀ x, 0 ≤ x → block_free fs' x = if decide (x = b) then false else block_free fs x) ∧
  fs_disk fs' = fs_disk fs ∧ fs_ibm fs' = fs_ibm fs ∧ same_geom fs fs' ∧
  (counted fs → counted fs').
Proof.
  intros Hg. unfold alloc_block. case_decide as Hz; [done|].
  intros (bit&?&Hscan&Hrest)%sbind_Ok_inv. injection Hscan as Hscan <-.
  apply sbind_Ok_inv in Hrest as (m&?&Hm&Hrest). injection Hm as Hm <-.
  rewrite or_panic_Ok in Hm. cbn in Hrest. injection Hrest as <- <-.
  pose proof (geom_data_pos _ Hg) as Hpos.
  pose proof (scan_free_spec true (fs_bbm fs) (seqZ (sb_data_start (fs_sb fs))
    (sb_total_blocks (fs_sb fs) - sb_data_start (fs_sb fs)))) as Hspec.
  rewrite Hscan in Hspec. destruct Hspec as (pre&post&Heq&Hget&Hpre).
  { intros x Hx%elem_of_data_blocks. rewrite data_block_bit by done. eauto. }
  assert (is_data_block fs bit) as Hb.
  { apply elem_of_data_blocks. rewrite Heq. set_solver. }
  assert (block_free fs bit = true) as Hfree by (unfold block_free; by rewrite Hget).
  assert (∀ x, 0 ≤ x → length m = length (fs_bbm fs) ∧
    bitmap_get m x = if decide (x = bit) then Some false else bitmap_get (fs_bbm fs) x) as Hupd.
  { intros x Hx. eapply bitmap_update_get; [apply bit_clear_updates|destruct Hb; lia|done|done]. }
  split_and!; try done.
  - intros x Hx. unfold block_free. rewrite Hpre; [done|].
    eapply seqZ_prefix; [done|lia].
  - intros x Hx. unfold block_free. simpl. destruct (Hupd x Hx) as [_ ->]. by case_decide.
  - simpl. by destruct (Hupd 0 ltac:(lia)).
  - intros Hc. eapply (counted_update fs m bit false) in Hc; [|done|done|naive_solver].
    rewrite Hfree in Hc. simpl in Hc. by rewrite Z.add_0_r in Hc.
Qed.

Lemma free_block_Ok fs b :
  geom_ok fs → is_data_block fs b →
  ∃ fs', free_block b fs = (Ok tt, fs') ∧
  (∀ x, 0 ≤ x → block_free fs' x = if decide (x = b) then true else block_free fs x) ∧
  fs_disk fs' = fs_disk fs ∧ fs_ibm fs' = fs_ibm fs ∧ same_geom fs fs' ∧
  (counted fs → block_free fs b = false → counted fs').
Proof.
  intros Hg Hb. pose proof (geom_data_pos _ Hg) as Hpos. destruct Hb as [Hb1 Hb2].
  destruct (bitmap_get_total (fs_bbm fs) b) as [v Hv]; [pose proof (geom_bbm _ Hg); lia|].
  destruct (bitmap_update bit_set (fs_bbm fs) b) as [m|] eqn:Hm.
  2: { unfold bitmap_get, bitmap_update in *. by destruct (fs_bbm fs !! Z.to_nat (b / 8)). }
  assert (∀ x, 0 ≤ x → length m = length (fs_bbm fs) ∧
    bitmap_get m x = if decide (x = b) then Some true else bitmap_get (fs_bbm fs) x) as Hupd.
  { intros x Hx. eapply bitmap_update_get; [apply bit_set_updates|lia|done|done]. }
  eexists. split.
  { unfold free_block. cbn. rewrite Hm. reflexivity. }
  split_and!; try done.
  - intros x Hx. unfold block_free. simpl. destruct (Hupd x Hx) as [_ ->]. by case_decide.
  - simpl. by destruct (Hupd 0 ltac:(lia)).
  - intros Hc Hused. pose proof Hc as Hc'.
    eapply (counted_update fs m b true) in Hc; [|done|split; lia|naive_solver].
    rewrite Hused in Hc. simpl in Hc. rewrite Z.sub_0_r in Hc.
    change (counted (with_free (wrap32 (sb_free_blocks (fs_sb fs) + 1))
      (sb_free_inodes (fs_sb fs)) (with_bbm m fs))).
    rewrite wrap_small; [done|]. unfold counted in Hc. cbn [fs_sb sb_free_blocks with_free] in Hc.
    rewrite Hc.
    pose proof (geom_total _ Hg). split; [apply count_if_nonneg|].
    unfold count_if. eapply Z.le_lt_trans; [apply Nat2Z.inj_le, length_filter|].
    rewrite length_seqZ. cbn [fs_sb with_free with_bbm sb_data_start sb_total_blocks]. lia.
Qed.

Lemma alloc_inode_Ok fs n fs' :
  geom_ok fs → alloc_inode fs = (Ok n, fs') →
  1 ≤ n < sb_inode_count (fs_sb fs) ∧ inode_free fs n = true ∧
  (∀ x, 1 ≤ x < n → inode_free fs x = false) ∧
  (∀ x, 0 ≤ x → inode_free fs' x = if decide (x = n) then false else inode_free fs x) ∧
  fs_disk fs' = fs_disk fs ∧ fs_bbm fs' = fs_bbm fs ∧ same_geom fs fs' ∧
  sb_free_blocks (fs_sb fs') = sb_free_blocks (fs_sb fs) ∧
  sb_free_inodes (fs_sb fs') = sb_free_inodes (fs_sb fs) - 1.
Proof.
  intros Hg. unfold alloc_inode. case_decide as Hz; [done|].
  intros (i&?&Hscan&Hrest)%sbind_Ok_inv. injection Hscan as Hscan <-.
  apply sbind_Ok_inv in Hrest as (m&?&Hm&Hrest). injection Hm as Hm <-.
  rewrite or_panic_Ok in Hm. cbn in Hrest. injection Hrest as <- <-.
  pose proof (scan_free_spec false (fs_ibm fs) (seqZ 1 (sb_inode_count (fs_sb fs) - 1)))
    as Hspec.
  rewrite Hscan in Hspec. destruct Hspec as (pre&post&Heq&Hget&Hpre).
  { intros x Hx%elem_of_seqZ. apply bitmap_get_total. pose proof (geom_ibm _ Hg). lia. }
  assert (1 ≤ i < sb_inode_count (fs_sb fs)) as Hi.
  { assert (i ∈ seqZ 1 (sb_inode_count (fs_sb fs) - 1)) as Hin%elem_of_seqZ
      by (rewrite Heq; set_solver). lia. }
  assert (∀ x, 0 ≤ x → length m = length (fs_ibm fs) ∧
    bitmap_get m x = if decide (x = i) then Some true else bitmap_get (fs_ibm fs) x) as Hupd.
  { intros x Hx. eapply bitmap_update_get; [apply bit_set_updates|lia|done|done]. }
  split_and!; try done; try lia.
  - unfold inode_free. by rewrite Hget.
  - intros x Hx. unfold inode_free. rewrite Hpre; [done|]. eapply seqZ_prefix; [done|lia].
  - intros x Hx. unfold inode_free. simpl. destruct (Hupd x Hx) as [_ ->]. by case_decide.
  - simpl. by destruct (Hupd 0 ltac:(lia)).
Qed.

(** ** Block contents *)

Definition content (fs : nextfs D) (b : Z) : bytes := blk_content (fs_disk fs) (fs_dev fs) b.

Context `{!BlockLaws D}.

Lemma fs_read_Ok fs b buf :
  geom_ok fs → fs_read b fs = Ok buf → buf = content fs b ∧ length buf = 512%nat.
Proof.
  intros [(n&Hdev&_) ??????] Hr. unfold fs_read in Hr. apply map_err_Ok in Hr.
  by destruct (blk_read_ok _ _ _ _ _ Hdev Hr) as (?&?&?).
Qed.

(** [fs'] is [fs] with block [b] overwritten. *)
Definition block_written (fs fs' : nextfs D) (b : Z) (buf : bytes) : Prop :=
  (∀ l, content fs' l = if decide (l = b) then buf else content fs l) ∧
  fs_bbm fs' = fs_bbm fs ∧ fs_ibm fs' = fs_ibm fs ∧ fs_sb fs' = fs_sb fs ∧ same_geom fs fs'.

Lemma fs_write_Ok fs b buf fs' :
  geom_ok fs → 0 ≤ b → length buf = 512%nat →
  fs_write b buf fs = (Ok tt, fs') → block_written fs fs' b buf.
Proof.
  intros [(n&Hdev&_) ??????] Hb Hlen. unfold fs_write.
  destruct (blk_write _ _ _ _) as [r d] eqn:Hw. intros [= Hr <-]. apply map_err_Ok in Hr as ->.
  destruct (blk_write_ok _ _ _ _ _ _ Hdev Hb Hlen Hw) as (_&Hlist&Hc).
  repeat split; done.
Qed.

(** ** The inode table *)

(** The inode number [n] as it lies on disk. *)
Definition disk_inode (fs : nextfs D) (n : Z) : inode :=
  from_bytes (slice (inode_off n) 64
    (content fs (inode_block (sb_inode_table_start (fs_sb fs)) n))).

Lemma inode_off_fits n : (inode_off n + 64 ≤ 512)%nat.
Proof.
  unfold inode_off. change INODES_PER_BLOCK with 8. change INODE_SIZE with 64.
  pose proof (Z.mod_pos_bound n 8). lia.
Qed.

(** Two inodes of one block of the table do not overlap. *)
Lemma inode_slots_disjoint n m t :
  n ≠ m → inode_block t n = inode_block t m →
  (inode_off n + 64 ≤ inode_off m ∨ inode_off m + 64 ≤ inode_off n)%nat.
Proof.
  unfold inode_off, inode_block. change INODES_PER_BLOCK with 8. change INODE_SIZE with 64.
  intros Hne Heq. pose proof (Z.div_mod n 8 ltac:(lia)). pose proof (Z.div_mod m 8 ltac:(lia)).
  pose proof (Z.mod_pos_bound n 8 ltac:(lia)). pose proof (Z.mod_pos_bound m 8 ltac:(lia)).
  assert (n mod 8 ≠ m mod 8) by lia. lia.
Qed.

(** The inode table lies below the data blocks. *)
Lemma inode_block_bounds fs n :
  geom_ok fs → 0 ≤ n < sb_inode_count (fs_sb fs) →
  0 < inode_block (sb_inode_table_start (fs_sb fs)) n < sb_data_start (fs_sb fs).
Proof.
  intros [? Ht Hi Hd ???] Hn. unfold inode_block. change INODES_PER_BLOCK with 8.
  pose proof (Z.div_pos n 8). split; [lia|].
  assert (n / 8 < (sb_inode_count (fs_sb fs) + 7) / 8); [|lia].
  apply Z.div_lt_upper_bound; [lia|].
  pose proof (Z.div_mod (sb_inode_count (fs_sb fs) + 7) 8 ltac:(lia)).
  pose proof (Z.mod_pos_bound (sb_inode_count (fs_sb fs) + 7) 8 ltac:(lia)). lia.
Qed.

Lemma read_inode_Ok fs n i :
  geom_ok fs → 0 ≤ n → read_inode n fs = Ok i →
  i = disk_inode fs n ∧ 0 < n < sb_inode_count (fs_sb fs).
Proof.
  intros Hg Hn. unfold read_inode. case_decide as Hd; [done|].
  intros (buf&Hr&[= <-])%obind_Ok_inv. apply fs_read_Ok in Hr as [-> _]; [|done].
  split; [done|]. lia.
Qed.

Lemma write_inode_Ok fs n i fs' :
  geom_ok fs → 0 ≤ n → inode_in_range i → write_inode n i fs = (Ok tt, fs') →
  0 < n < sb_inode_count (fs_sb fs) ∧
  (∀ b, sb_data_start (fs_sb fs) ≤ b → content fs' b = content fs b) ∧
  (∀ m, 0 ≤ m < sb_inode_count (fs_sb fs) →
     disk_inode fs' m = if decide (m = n) then i else disk_inode fs m) ∧
  fs_bbm fs' = fs_bbm fs ∧ fs_ibm fs' = fs_ibm fs ∧ fs_sb fs' = fs_sb fs ∧ same_geom fs fs'.
Proof.
  intros Hg Hn Hi. unfold write_inode. case_decide as Hd; [done|].
  unfold write_inode_raw. intros (buf&?&Hr&Hw)%sbind_Ok_inv. injection Hr as Hr <-.
  apply fs_read_Ok in Hr as [-> Hlen]; [|done].
  pose proof (inode_off_fits n) as Hfit. assert (length (to_bytes i) = 64%nat) as Hlib by exact (length_inode_to_bytes i Hi).
  pose proof (inode_block_bounds fs n Hg ltac:(lia)) as Hblk.
  apply fs_write_Ok in Hw as (Hc&Hbbm&Hibm&Hsb&Hsame); [|done|lia|].
  2: { rewrite length_splice; [done|]. lia. }
  split_and!; [lia|lia| | |done..].
  - intros b Hb. rewrite Hc, decide_False by lia. done.
  - intros m Hm. unfold disk_inode at 1. rewrite Hsb, Hc.
    destruct (decide (inode_block (sb_inode_table_start (fs_sb fs)) m =
                      inode_block (sb_inode_table_start (fs_sb fs)) n)) as [He|He].
    + case_decide as Hmn.
      * subst m. rewrite <-Hlib, slice_splice_same by lia.
        rewrite <-(app_nil_r (to_bytes i)). by apply codec_roundtrip.
      * rewrite slice_splice_other; [by unfold disk_inode; rewrite He|lia|].
        rewrite Hlib. eapply inode_slots_disjoint; [done|done].
    + rewrite decide_False; [done|]. by intros ->.
Qed.
End alloc.
