(* ===== verification/NextfsFile.v ===== *)
(** * NextFS file contents (kernel/src/fs/nextfs.rs)

    The block map of an inode (nine direct pointers, one indirect block),
    allocation into it, reading, writing and truncating.  The specification is
    [file_byte]: a file is a function from positions to bytes, 0 where no
    block is mapped.  [inode_wf] says which block maps are sound; [evolves]
    what an operation on one inode may do to the rest of the volume.  An
    [&mut Inode] argument is passed in and returned; every caller drops it
    when the call fails. *)

From S2P Require Import Prelude Block NextfsLayout NextfsAlloc.

(** ** Updates of an inode's fields *)
Definition with_direct (d : list Z) (i : inode) : inode :=
  Inode (i_type i) (i_pad i) (i_mode i) (i_size i) (i_uid i) (i_gid i) (i_mtime i)
    d (i_indirect i) (i_reserved i).
Definition with_indirect (b : Z) (i : inode) : inode :=
  Inode (i_type i) (i_pad i) (i_mode i) (i_size i) (i_uid i) (i_gid i) (i_mtime i)
    (i_direct i) b (i_reserved i).
Definition with_size (s : Z) (i : inode) : inode :=
  Inode (i_type i) (i_pad i) (i_mode i) s (i_uid i) (i_gid i) (i_mtime i)
    (i_direct i) (i_indirect i) (i_reserved i).
Definition with_mtime (t : Z) (i : inode) : inode :=
  Inode (i_type i) (i_pad i) (i_mode i) (i_size i) (i_uid i) (i_gid i) t
    (i_direct i) (i_indirect i) (i_reserved i).
Definition with_type (t : Z) (i : inode) : inode :=
  Inode t (i_pad i) (i_mode i) (i_size i) (i_uid i) (i_gid i) (i_mtime i)
    (i_direct i) (i_indirect i) (i_reserved i).
Definition with_mode (m : Z) (i : inode) : inode :=
  Inode (i_type i) (i_pad i) m (i_size i) (i_uid i) (i_gid i) (i_mtime i)
    (i_direct i) (i_indirect i) (i_reserved i).
Definition with_owner (u g : Z) (i : inode) : inode :=
  Inode (i_type i) (i_pad i) (i_mode i) (i_size i) u g (i_mtime i)
    (i_direct i) (i_indirect i) (i_reserved i).

(** [fs/nextfs.rs:48-50, now_ticks]: [ticks] is the scheduler's counter. *)
Definition now_ticks (ticks : Z) : Z := wrap32 ticks.

(** The [k]-th pointer of an indirect block ([u32::from_le_bytes] of 4 bytes). *)
Definition ptr_at (buf : bytes) (k : Z) : Z := le_dec (slice (Z.to_nat (4 * k)) 4 buf).

Section file.
Context {D : Type} `{BlockDev D}.

Abbreviation fs_op A := (stm (nextfs D) fs_error A).

(** [fs/nextfs.rs:889-907, NextFS::get_inode_block] *)
Definition get_inode_block (i : inode) (idx : Z) (fs : nextfs D) : outcome fs_error Z :=
  if decide (idx < DIRECT_PTRS) then or_panic (i_direct i !! Z.to_nat idx) else
  let k := idx - DIRECT_PTRS in
  if decide (i_indirect i = 0) then Ok 0 else
  let? buf := fs_read (i_indirect i) fs in
  if decide (PTRS_PER_BLOCK ≤ k) then Err NoSpace else Ok (ptr_at buf k).

(** [fs/nextfs.rs:910-938, NextFS::alloc_inode_block] *)
Definition alloc_inode_block (i : inode) (idx : Z) : fs_op (inode * Z) :=
  if decide (idx < DIRECT_PTRS) then
    let! b := alloc_block in
    sret (with_direct (<[Z.to_nat idx := b]> (i_direct i)) i, b)
  else
  let k := idx - DIRECT_PTRS in
  if decide (PTRS_PER_BLOCK ≤ k) then sthrow NoSpace else
  let! i :=
    (if decide (i_indirect i = 0) then
       let! ind := alloc_block in
       let! _ := fs_write ind zero_block in
       sret (with_indirect ind i)
     else sret i) in
  let! b := alloc_block in
  let! buf := sread (fs_read (i_indirect i)) in
  let! _ := fs_write (i_indirect i) (splice (Z.to_nat (4 * k)) (le_enc 4 b) buf) in
  sret (i, b).

(** One round of the loop of [read_inode_data] at file position [pos]. *)
Fixpoint read_loop (fuel : nat) (i : inode) (offset to_read so_far : Z) (buf : bytes)
  (fs : nextfs D) : outcome fs_error bytes :=
  match fuel with
  | O => Diverge
  | S fuel =>
      if decide (so_far < to_read) then
        let file_pos := wrap64 (offset + so_far) in
        let block_idx := wrap32 (file_pos / BLOCK_SIZE) in
        let block_off := file_pos mod BLOCK_SIZE in
        let? block_num := get_inode_block i block_idx fs in
        let chunk := Z.min (to_read - so_far) (BLOCK_SIZE - block_off) in
        let? piece :=
          (if decide (block_num = 0) then Ok (replicate (Z.to_nat chunk) 0) else
           let? block_buf := fs_read block_num fs in
           Ok (slice (Z.to_nat block_off) (Z.to_nat chunk) block_buf)) in
        read_loop fuel i offset to_read (so_far + chunk)
          (splice (Z.to_nat so_far) piece buf) fs
      else Ok buf
  end.

(** [fs/nextfs.rs:941-971, NextFS::read_inode_data]: the count and the buffer. *)
Definition read_inode_data (n offset : Z) (buf : bytes) (fs : nextfs D)
  : outcome fs_error (Z * bytes) :=
  let? i := read_inode n fs in
  if negb (is_file i) then Err NotFile else
  if decide (i_size i ≤ offset) then Ok (0, buf) else
  let to_read := Z.min (Z.of_nat (length buf)) (i_size i - offset) in
  let? buf := read_loop (S (length buf)) i offset to_read 0 buf fs in
  Ok (to_read, buf).

Fixpoint write_loop (fuel : nat) (i : inode) (offset written : Z) (data : bytes)
  : fs_op inode :=
  match fuel with
  | O => slift Diverge
  | S fuel =>
      if decide (written < Z.of_nat (length data)) then
        let file_pos := wrap64 (offset + written) in
        let block_idx := wrap32 (file_pos / BLOCK_SIZE) in
        let block_off := file_pos mod BLOCK_SIZE in
        let! block_num := sread (get_inode_block i block_idx) in
        let! p :=
          (if decide (block_num = 0) then
             let! p := alloc_inode_block i block_idx in
             let! _ := fs_write p.2 zero_block in
             sret p
           else sret (i, block_num)) in
        let! block_buf := sread (fs_read p.2) in
        let chunk := Z.min (Z.of_nat (length data) - written) (BLOCK_SIZE - block_off) in
        let! _ := fs_write p.2 (splice (Z.to_nat block_off)
          (slice (Z.to_nat written) (Z.to_nat chunk) data) block_buf) in
        write_loop fuel p.1 offset (written + chunk) data
      else sret i
  end.

(** [fs/nextfs.rs:974-1009, NextFS::write_inode_data] *)
Definition write_inode_data (ticks : Z) (i : inode) (offset : Z) (data : bytes)
  : fs_op (inode * Z) :=
  if negb (is_file i) && negb (is_dir i) then sthrow NotFile else
  let! i := write_loop (S (length data)) i offset 0 data in
  let written := Z.of_nat (length data) in
  let i := if decide (i_size i < wrap64 (offset + written))
           then with_size (wrap64 (offset + written)) i else i in
  let i := if decide (0 < written) then with_mtime (now_ticks ticks) i else i in
  sret (i, written).

(** [fs/nextfs.rs:1012-1020, NextFS::read_file] *)
Definition read_file (n : Z) (fs : nextfs D) : outcome fs_error bytes :=
  let? i := read_inode n fs in
  if negb (is_file i) then Err NotFile else
  let? r := read_inode_data n 0 (replicate (Z.to_nat (i_size i)) 0) fs in
  Ok r.2.

(** [for i in lo..hi]: free the block named by pointer [i] of a buffer, if any;
    [buf[off..]] past the end of the buffer panics. *)
Fixpoint free_ptrs (buf : bytes) (idxs : list Z) : fs_op unit :=
  match idxs with
  | [] => sret tt
  | k :: idxs =>
      if decide (Z.of_nat (length buf) < 4 * k + 4) then slift Panic else
      let! _ := (if decide (ptr_at buf k ≠ 0) then free_block (ptr_at buf k) else sret tt) in
      free_ptrs buf idxs
  end.

(** [for i in lo..hi]: free direct block [i], if any, and zero the pointer. *)
Fixpoint free_direct (i : inode) (idxs : list Z) : fs_op inode :=
  match idxs with
  | [] => sret i
  | k :: idxs =>
      let! b := slift (or_panic (i_direct i !! Z.to_nat k)) in
      if decide (b ≠ 0) then
        let! _ := free_block b in
        free_direct (with_direct (<[Z.to_nat k := 0]> (i_direct i)) i) idxs
      else free_direct i idxs
  end.

(** [fs/nextfs.rs:1036-1063, NextFS::free_inode_blocks] *)
Definition free_inode_blocks (i : inode) : fs_op inode :=
  let! i := free_direct i (seqZ 0 DIRECT_PTRS) in
  if decide (i_indirect i ≠ 0) then
    let! buf := sread (fs_read (i_indirect i)) in
    let! _ := free_ptrs buf (seqZ 0 PTRS_PER_BLOCK) in
    let! _ := free_block (i_indirect i) in
    sret (with_indirect 0 i)
  else sret i.

(** Index of the block that holds the last byte of a file of this size. *)
Definition last_block (size : Z) : Z :=
  if decide (size = 0) then 0 else wrap32 ((size - 1) / BLOCK_SIZE).

(** [fs/nextfs.rs:1077-1158, NextFS::truncate_inode] *)
Definition truncate_inode (i : inode) (new_size : Z) : fs_op inode :=
  if decide (i_size i ≤ new_size) then sret (with_size new_size i) else
  let old_last_block := last_block (i_size i) in
  let new_last_block := last_block new_size in
  let hi := Z.min DIRECT_PTRS (wrap32 (old_last_block + 1)) in
  let! i := free_direct i (seqZ (new_last_block + 1) (hi - (new_last_block + 1))) in
  let end_indirect := wrap32 (old_last_block - DIRECT_PTRS + 1) in
  let! i :=
    (if decide (new_last_block < DIRECT_PTRS ∧ i_indirect i ≠ 0) then
       let! buf := sread (fs_read (i_indirect i)) in
       let! _ := free_ptrs buf (seqZ 0 (Z.min PTRS_PER_BLOCK end_indirect)) in
       let! _ := free_block (i_indirect i) in
       sret (with_indirect 0 i)
     else if decide (DIRECT_PTRS ≤ old_last_block ∧ i_indirect i ≠ 0) then
       let! buf := sread (fs_read (i_indirect i)) in
       let start_indirect := new_last_block - DIRECT_PTRS + 1 in
       let! _ := free_ptrs buf (seqZ start_indirect (end_indirect - start_indirect)) in
       sret i
     else sret i) in
  sret (with_size new_size i).

(** [fs/nextfs.rs:1066-1074, NextFS::truncate] *)
Definition truncate (n new_size : Z) : fs_op unit :=
  let! i := sread (read_inode n) in
  if negb (is_file i) then sthrow NotFile else
  let! i := truncate_inode i new_size in
  write_inode n i.

(** [fs/nextfs.rs:1023-1033, NextFS::write_file] *)
Definition write_file (ticks n : Z) (data : bytes) : fs_op unit :=
  let! i := sread (read_inode n) in
  if negb (is_file i) then sthrow NotFile else
  let! i := truncate_inode i 0 in
  let! p := write_inode_data ticks i 0 data in
  write_inode n p.1.

(** [fs/vfs.rs:679-685, !the with_fs_mut closure of write]: read the inode, write at
    [pos], store the inode. *)
Definition write_at (ticks n pos : Z) (data : bytes) : fs_op Z :=
  let! i := sread (read_inode n) in
  let! p := write_inode_data ticks i pos data in
  let! _ := write_inode n p.1 in
  sret p.2.
End file.
