(* ===== verification/NextfsDir.v ===== *)
(** * NextFS directories, metadata, format and mount (kernel/src/fs/nextfs.rs)

    A directory is a file of 64-byte entries; an entry of inode 0 is unused.
    Every loop over a directory stops at the first block that is not mapped. *)

From S2P Require Import Prelude Block NextfsLayout NextfsAlloc NextfsFile.

Section dir.
Context {D : Type} `{BlockDev D}.

Abbreviation fs_op A := (stm (nextfs D) fs_error A).

(** Where a loop over a directory stopped: block number, byte offset of the
    entry in it, the block, the entry. *)
Record dir_slot := DirSlot { ds_block : Z; ds_off : nat; ds_buf : bytes; ds_entry : dir_entry }.

(** One step of every such loop: the slot of entry [k], [None] on [break]. *)
Definition dir_slot_at (i : inode) (k : Z) (fs : nextfs D) : outcome fs_error (option dir_slot) :=
  let? block_num := get_inode_block i (wrap32 (k / ENTRIES_PER_BLOCK)) fs in
  if decide (block_num = 0) then Ok None else
  let? buf := fs_read block_num fs in
  let off := Z.to_nat (k mod ENTRIES_PER_BLOCK * DIRENT_SIZE) in
  Ok (Some (DirSlot block_num off buf (from_bytes (slice off 64 buf)))).

(** The first entry that satisfies [p]. *)
Fixpoint dir_find (p : dir_entry → bool) (i : inode) (ks : list Z) (fs : nextfs D)
  : outcome fs_error (option dir_slot) :=
  match ks with
  | [] => Ok None
  | k :: ks =>
      let? s := dir_slot_at i k fs in
      match s with
      | None => Ok None
      | Some s => if p (ds_entry s) then Ok (Some s) else dir_find p i ks fs
      end
  end.

Fixpoint dir_collect (i : inode) (ks : list Z) (fs : nextfs D)
  : outcome fs_error (list (bytes * Z)) :=
  match ks with
  | [] => Ok []
  | k :: ks =>
      let? s := dir_slot_at i k fs in
      match s with
      | None => Ok []
      | Some s =>
          let? rest := dir_collect i ks fs in
          Ok (if is_used (ds_entry s)
              then (name_str (ds_entry s), de_inode (ds_entry s)) :: rest else rest)
      end
  end.

(** [0..inode.size as usize / DirEntry::SIZE] *)
Definition dir_indices (i : inode) : list Z := seqZ 0 (i_size i / DIRENT_SIZE).

(** [fs/nextfs.rs:731-758, NextFS::dir_lookup] *)
Definition dir_lookup (dir : Z) (name : bytes) (fs : nextfs D) : outcome fs_error Z :=
  let? i := read_inode dir fs in
  if negb (is_dir i) then Err NotDirectory else
  let? s := dir_find (λ e, is_used e && name_matches e name) i (dir_indices i) fs in
  match s with Some s => Ok (de_inode (ds_entry s)) | None => Err NotFound end.

(** [fs/nextfs.rs:761-786, NextFS::dir_list] *)
Definition dir_list (dir : Z) (fs : nextfs D) : outcome fs_error (list (bytes * Z)) :=
  let? i := read_inode dir fs in
  if negb (is_dir i) then Err NotDirectory else dir_collect i (dir_indices i) fs.

(** [copy_from_slice] of an entry into its block, and the block to disk. *)
Definition put_entry (s : dir_slot) (e : dir_entry) : fs_op unit :=
  fs_write (ds_block s) (splice (ds_off s) (to_bytes e) (ds_buf s)).

(** [fs/nextfs.rs:789-833, NextFS::dir_add_entry] *)
Definition dir_add_entry (ticks dir : Z) (name : bytes) (target : Z) : fs_op unit := λ fs,
  if decide (MAX_NAME_LEN ≤ length name)%nat then (Err NameTooLong, fs) else
  match dir_lookup dir name fs with
  | Ok _ => (Err AlreadyExists, fs)
  | Panic => (Panic, fs)
  | Diverge => (Diverge, fs)
  | Err _ =>
      (let! i := sread (read_inode dir) in
       if negb (is_dir i) then sthrow NotDirectory else
       let! s := sread (dir_find (λ e, negb (is_used e)) i (dir_indices i)) in
       match s with
       | Some s => put_entry s (dirent_new target name)
       | None =>
           let! p := write_inode_data ticks i (i_size i) (to_bytes (dirent_new target name)) in
           write_inode dir (with_size (wrap64 (i_size p.1 + DIRENT_SIZE)) p.1)
       end) fs
  end.

(** Run [m]; when it fails with an error, run [undo] and pass the error on. *)
Definition or_rollback {A} (m : fs_op A) (undo : fs_op unit) : fs_op A := λ fs,
  match m fs with
  | (Err e, fs') => (let! _ := undo in sthrow e) fs'
  | r => r
  end.

(** [fs/nextfs.rs:836-849, NextFS::create_file] *)
Definition create_file (ticks dir : Z) (name : bytes) : fs_op Z :=
  let! n := alloc_inode in
  let! _ := write_inode n (with_mtime (now_ticks ticks) new_file) in
  or_rollback
    (let! _ := dir_add_entry ticks dir name n in sret n)
    (free_inode n).

(** The first block of a directory: ["."] and [".."]. *)
Definition dot_block (self parent : Z) : bytes :=
  splice 64 (to_bytes (dirent_new parent (str "..")))
    (splice 0 (to_bytes (dirent_new self (str "."))) zero_block).

(** [fs/nextfs.rs:852-879, NextFS::create_dir] *)
Definition create_dir (ticks parent : Z) (name : bytes) : fs_op Z :=
  let! n := alloc_inode in
  let i := with_mtime (now_ticks ticks) new_dir in
  let! b := alloc_block in
  let i := with_size (2 * DIRENT_SIZE) (with_direct (<[0%nat := b]> (i_direct i)) i) in
  let! _ := fs_write b (dot_block n parent) in
  let! _ := write_inode n i in
  or_rollback
    (let! _ := dir_add_entry ticks parent name n in sret n)
    (let! _ := free_block b in free_inode n).

(** [fs/nextfs.rs:1161-1192, NextFS::dir_remove_entry] *)
Definition dir_remove_entry (dir : Z) (name : bytes) : fs_op Z :=
  let! i := sread (read_inode dir) in
  if negb (is_dir i) then sthrow NotDirectory else
  let! s := sread (dir_find (λ e, is_used e && name_matches e name) i (dir_indices i)) in
  match s with
  | Some s =>
      let! _ := put_entry s (dirent_new 0 []) in
      sret (de_inode (ds_entry s))
  | None => sthrow NotFound
  end.

(** The end of [unlink] and [rmdir]: free the blocks, then the inode. *)
Definition release_inode (n : Z) (i : inode) : fs_op unit :=
  let! i := free_inode_blocks i in
  let! _ := write_inode n (with_size 0 (with_type 0 i)) in
  free_inode n.

(** [fs/nextfs.rs:1195-1222, NextFS::unlink] *)
Definition unlink (ticks dir : Z) (name : bytes) : fs_op unit :=
  if bool_decide (name = str ".") || bool_decide (name = str "..") then sthrow InvalidOperation else
  let! target := dir_remove_entry dir name in
  let! i := sread (read_inode target) in
  if negb (is_file i) then
    λ fs, match dir_add_entry ticks dir name target fs with
          | (Panic, fs') => (Panic, fs')
          | (Diverge, fs') => (Diverge, fs')
          | (_, fs') => (Err NotFile, fs')
          end
  else release_inode target i.

(** [fs/nextfs.rs:1225-1258, NextFS::rmdir] *)
Definition rmdir (parent : Z) (name : bytes) : fs_op unit :=
  if bool_decide (name = str ".") || bool_decide (name = str "..") then sthrow InvalidOperation else
  let! target := sread (dir_lookup parent name) in
  let! i := sread (read_inode target) in
  if negb (is_dir i) then sthrow NotDirectory else
  let! entries := sread (dir_list target) in
  if decide (2 < length entries)%nat then sthrow DirectoryNotEmpty else
  let! _ := dir_remove_entry parent name in
  release_inode target i.

(** ** Metadata *)

(** [self.read_inode(n)?], then [NotFound] for a free one. *)
Definition read_used (n : Z) (fs : nextfs D) : outcome fs_error inode :=
  let? i := read_inode n fs in
  if is_free i then Err NotFound else Ok i.

(** [fs/nextfs.rs:1265-1279, NextFS::stat] *)
Definition stat (n : Z) (fs : nextfs D) : outcome fs_error file_stat :=
  let? i := read_used n fs in
  Ok (FileStat n (i_type i) (i_mode i) (i_uid i) (i_gid i) (i_size i) (i_mtime i)).

(** [fs/nextfs.rs:1282-1290, NextFS::chmod] *)
Definition chmod (ticks n mode : Z) : fs_op unit :=
  let! i := sread (read_used n) in
  write_inode n (with_mtime (now_ticks ticks) (with_mode (Z.land mode 511) i)).

(** [fs/nextfs.rs:1293-1302, NextFS::chown] *)
Definition chown (ticks n uid gid : Z) : fs_op unit :=
  let! i := sread (read_used n) in
  write_inode n (with_mtime (now_ticks ticks) (with_owner uid gid i)).

(** [fs/nextfs.rs:1305-1320, NextFS::set_owner_mode] *)
Definition set_owner_mode (n uid gid mode : Z) : fs_op unit :=
  let! i := sread (read_used n) in
  write_inode n (with_mode (Z.land mode 511) (with_owner uid gid i)).

(** [fs/nextfs.rs:1324-1340, NextFS::check_permission] *)
Definition check_permission (n uid gid want : Z) (fs : nextfs D) : outcome fs_error unit :=
  let? i := read_used n fs in
  if permits i uid gid want then Ok tt else Err PermissionDenied.

(** [fs/nextfs.rs:1343-1356, NextFS::sync] *)
Definition sync : fs_op unit := λ fs,
  let sb := fs_sb fs in
  let bm := fs_bbm fs in
  (let! _ := fs_write 0 (to_bytes sb) in
   sfor (seqZ 0 (((sb_total_blocks sb + 7) / 8 + BLOCK_SIZE - 1) / BLOCK_SIZE)) (λ i,
     let off := Z.to_nat (i * BLOCK_SIZE) in
     if decide (length bm < off)%nat then slift Panic else
     let piece := slice off 512 bm in
     fs_write (sb_bitmap_start sb + i) (splice 0 piece zero_block))) fs.

(** ** Format and mount *)

(** A function without [self]: only the device and the block layer matter. *)
Definition static {A} (dev : nat) (m : fs_op A) : stm D fs_error A := λ d,
  let '(r, fs) := m (NextFS dev (Superblock 0 0 0 0 0 0 0 0 0 []) [] [] d) in (r, fs_disk fs).

(** The geometry [format] chooses: inode count, start of the inode table, start
    of the data blocks. *)
Definition format_geometry (total_blocks : Z) : Z * Z * Z :=
  let inode_count := Z.max 64 (total_blocks / 100) in
  let inode_table_blocks := (inode_count + INODES_PER_BLOCK - 1) / INODES_PER_BLOCK in
  let bitmap_blocks := ((total_blocks + 7) / 8 + BLOCK_SIZE - 1) / BLOCK_SIZE in
  let inode_table_start := 1 + bitmap_blocks in
  (inode_count, inode_table_start, inode_table_start + inode_table_blocks).

(** The block of empty inodes. *)
Definition empty_inode_block : bytes := mjoin (replicate 8 (to_bytes empty_inode)).

(** [fs/nextfs.rs:323-445, NextFS::format] *)
Definition format (dev : nat) : stm D fs_error unit := λ d,
  match blk_list d !! dev with
  | None => (Err DeviceNotFound, d)
  | Some dev_info =>
      let total_blocks := wrap32 (di_block_count dev_info) in
      if decide (di_block_size dev_info ≠ BLOCK_SIZE) then (Err UnsupportedBlockSize, d) else
      if decide (total_blocks < 10) then (Err DeviceTooSmall, d) else
      let '(inode_count, inode_table_start, data_start) := format_geometry total_blocks in
      let bitmap_blocks := inode_table_start - 1 in
      if decide (total_blocks ≤ data_start) then (Err DeviceTooSmall, d) else
      let sb := Superblock MAGIC BLOCK_SIZE total_blocks inode_count
        (total_blocks - data_start - 1) (inode_count - 1) 1 inode_table_start data_start
        (replicate 472 0) in
      static dev
        (let! _ := fs_write 0 (to_bytes sb) in
         let! bitmap := slift (or_panic (bitmap_update bit_clear
           (replicate (Z.to_nat (bitmap_blocks * BLOCK_SIZE)) 255) data_start)) in
         let! _ := sfor (seqZ 0 bitmap_blocks) (λ i,
           fs_write (1 + i) (slice (Z.to_nat (i * BLOCK_SIZE)) 512 bitmap)) in
         let! _ := sfor (seqZ 0 (data_start - inode_table_start)) (λ i,
           fs_write (inode_table_start + i) empty_inode_block) in
         let root := with_size (2 * DIRENT_SIZE)
           (with_direct (<[0%nat := data_start]> (i_direct new_dir)) new_dir) in
         let! _ := write_inode_raw inode_table_start 1 root in
         fs_write data_start (dot_block ROOT_INODE ROOT_INODE)) d
  end.

(** The loop of [mount] that loads the block bitmap. *)
Fixpoint load_bitmap (dev : nat) (start : Z) (idxs : list Z) (acc : bytes) (d : D)
  : outcome fs_error bytes :=
  match idxs with
  | [] => Ok acc
  | i :: idxs =>
      let? buf := map_err BlockErr (blk_read d dev (start + i) 1) in
      load_bitmap dev start idxs (acc ++ buf) d
  end.

(** The slots of one block of the inode table: used inodes set their bit. *)
Fixpoint mark_inodes (buf : bytes) (block_i count : Z) (slots : list Z) (m : list Z)
  : outcome fs_error (list Z) :=
  match slots with
  | [] => Ok m
  | slot :: slots =>
      let n := block_i * INODES_PER_BLOCK + slot in
      if decide (count ≤ n) then Ok m else
      let i : inode := from_bytes (slice (Z.to_nat (slot * INODE_SIZE)) 64 buf) in
      if is_free i then mark_inodes buf block_i count slots m else
      let? m := or_panic (bitmap_update bit_set m n) in
      mark_inodes buf block_i count slots m
  end.

Fixpoint scan_inodes (dev : nat) (start count : Z) (blocks : list Z) (m : list Z) (d : D)
  : outcome fs_error (list Z) :=
  match blocks with
  | [] => Ok m
  | b :: blocks =>
      let? buf := map_err BlockErr (blk_read d dev (start + b) 1) in
      let? m := mark_inodes buf b count (seqZ 0 INODES_PER_BLOCK) m in
      scan_inodes dev start count blocks m d
  end.

(** [fs/nextfs.rs:448-511, NextFS::mount] *)
Definition mount (dev : nat) (d : D) : outcome fs_error (nextfs D) :=
  let? buf := map_err BlockErr (blk_read d dev 0 1) in
  if decide (length buf ≠ 512%nat) then Panic else
  let sb : superblock := from_bytes buf in
  if negb (sb_is_valid sb) then Err InvalidMagic else
  let bitmap_blocks := ((sb_total_blocks sb + 7) / 8 + BLOCK_SIZE - 1) / BLOCK_SIZE in
  let? bbm := load_bitmap dev (sb_bitmap_start sb) (seqZ 0 bitmap_blocks) [] d in
  let bbm := take (Z.to_nat ((sb_total_blocks sb + 7) / 8)) bbm in
  let inode_table_blocks := wrap32 (sb_inode_count sb + INODES_PER_BLOCK - 1) / INODES_PER_BLOCK in
  let? ibm := scan_inodes dev (sb_inode_table_start sb) (sb_inode_count sb)
    (seqZ 0 inode_table_blocks) (replicate (Z.to_nat ((sb_inode_count sb + 7) / 8)) 0) d in
  Ok (NextFS dev sb bbm ibm d).
End dir.
