(* ===== verification/NextfsSpec.v ===== *)
(** * NextFS files as byte functions: specification and refinement

    [imap] is the block map of an inode, [file_byte] the file it denotes.
    The lemmas below say what allocation, writing and reading do to these;
    the properties are at the end. *)

From S2P Require Import Prelude Block NextfsLayout NextfsAlloc NextfsFile.

(** Nine direct blocks and the 128 of the indirect block. *)
Definition MAX_FILE_BLOCKS : Z := DIRECT_PTRS + PTRS_PER_BLOCK.

(** ** Pointers of an indirect block *)

Lemma ptr_at_zero k : ptr_at zero_block k = 0.
Proof.
  unfold ptr_at, zero_block, slice. rewrite drop_replicate, take_replicate.
  by induction (_ `min` _)%nat as [|n IH]; simpl; [|rewrite IH].
Qed.

Lemma ptr_at_splice buf k j b :
  length buf = 512%nat → u32_ok b → 0 ≤ k < 128 → 0 ≤ j < 128 →
  ptr_at (splice (Z.to_nat (4 * k)) (le_enc 4 b) buf) j = if decide (j = k) then b else ptr_at buf j.
Proof.
  intros Hlen Hb Hk Hj. unfold ptr_at. pose proof (length_le_enc 4 b) as H4.
  case_decide as Hjk.
  - subst. pose proof (slice_splice_same (Z.to_nat (4 * k)) (le_enc 4 b) buf) as Hs.
    rewrite H4 in Hs. rewrite Hs by lia. by apply le_dec_enc_u32.
  - by rewrite slice_splice_other by lia.
Qed.

Section spec.
Context {D : Type} `{BlockLaws D}.
Implicit Types (fs : nextfs D) (i : inode).

Definition imap fs i (k : Z) : Z :=
  if decide (k < DIRECT_PTRS) then i_direct i !!! Z.to_nat k else
  if decide (i_indirect i = 0) then 0 else ptr_at (content fs (i_indirect i)) (k - DIRECT_PTRS).

(** The byte at position [pos] of the file: 0 where no block is mapped. *)
Definition file_byte fs i (pos : Z) : Z :=
  let b := imap fs i (pos / BLOCK_SIZE) in
  if decide (b = 0) then 0 else content fs b !!! Z.to_nat (pos mod BLOCK_SIZE).

(** A sound block map: its blocks are data blocks marked used, no two indices
    share one, and none is the indirect block. *)
Record inode_wf fs i : Prop := {
  wf_len : length (i_direct i) = 9%nat;
  wf_block k : 0 ≤ k < MAX_FILE_BLOCKS → imap fs i k ≠ 0 →
    is_data_block fs (imap fs i k) ∧ block_free fs (imap fs i k) = false;
  wf_inj j k : 0 ≤ j < MAX_FILE_BLOCKS → 0 ≤ k < MAX_FILE_BLOCKS →
    imap fs i j ≠ 0 → imap fs i j = imap fs i k → j = k;
  wf_indirect : i_indirect i ≠ 0 →
    is_data_block fs (i_indirect i) ∧ block_free fs (i_indirect i) = false ∧
    ∀ k, 0 ≤ k < MAX_FILE_BLOCKS → imap fs i k ≠ i_indirect i;
}.

(** The blocks that belong to an inode. *)
Definition owned fs i (b : Z) : Prop :=
  b ≠ 0 ∧ (b = i_indirect i ∨ ∃ k, 0 ≤ k < MAX_FILE_BLOCKS ∧ imap fs i k = b).

(** [i'] is [i] up to its pointers. *)
Definition same_meta i i' : Prop :=
  i_type i' = i_type i ∧ i_pad i' = i_pad i ∧ i_mode i' = i_mode i ∧ i_size i' = i_size i ∧
  i_uid i' = i_uid i ∧ i_gid i' = i_gid i ∧ i_mtime i' = i_mtime i ∧
  i_reserved i' = i_reserved i.

(** What growing one inode may do to the volume: take free blocks, and write
    only to blocks it owns.  Metadata and blocks used by others stay. *)
Record evolves fs i fs' i' : Prop := {
  ev_geom : same_geom fs fs';
  ev_ibm : fs_ibm fs' = fs_ibm fs;
  ev_meta : same_meta i i';
  ev_owned b : owned fs' i' b → owned fs i b ∨ (is_data_block fs b ∧ block_free fs b = true);
  ev_used b : 0 ≤ b → block_free fs b = false → block_free fs' b = false;
  ev_frame b : ¬ owned fs i b → (0 ≤ b < sb_data_start (fs_sb fs) ∨
      is_data_block fs b ∧ block_free fs b = false) → content fs' b = content fs b;
  ev_counted : counted fs → counted fs';
}.

Lemma same_meta_refl i : same_meta i i.
Proof. by repeat split. Qed.
Lemma same_meta_trans i1 i2 i3 : same_meta i1 i2 → same_meta i2 i3 → same_meta i1 i3.
Proof. unfold same_meta. intros. destruct_and!. split_and!; congruence. Qed.

Lemma evolves_refl fs i : evolves fs i fs i.
Proof. split; eauto using same_meta_refl. done. Qed.

Lemma evolves_trans fs1 i1 fs2 i2 fs3 i3 :
  geom_ok fs1 → evolves fs1 i1 fs2 i2 → evolves fs2 i2 fs3 i3 → evolves fs1 i1 fs3 i3.
Proof.
  intros Hg [G1 I1 M1 O1 U1 F1 C1] [G2 I2 M2 O2 U2 F2 C2].
  pose proof (geom_data_pos _ Hg) as Hpos.
  assert (∀ b, is_data_block fs2 b → block_free fs2 b = true →
    is_data_block fs1 b ∧ block_free fs1 b = true) as Hback.
  { intros b Hb%(is_data_block_same _ _ _ G1) Hf. split; [done|].
    destruct (block_free fs1 b) eqn:Hfb; [done|].
    apply U1 in Hfb; [congruence|]. destruct Hb; lia. }
  split.
  - by etrans.
  - congruence.
  - by eapply same_meta_trans.
  - intros b Hb. destruct (O2 _ Hb) as [?|[??]]; [eauto|]. right. eauto.
  - eauto.
  - intros b Hno Hb. rewrite F2, F1; [done|done|done| |].
    + intros Hb2. destruct (O1 _ Hb2) as [?|[Hd Hf]]; [done|].
      destruct Hb as [Hb|[_ Hb]]; [destruct Hd; lia|congruence].
    + destruct Hb as [Hb|[Hd Hb]]; [left|right].
      * unfold same_geom in G1. destruct_and!. lia.
      * split; [by apply (is_data_block_same _ _ _ G1)|]. apply U1; [|done]. destruct Hd; lia.
  - eauto.
Qed.

(** ** The block map *)

Lemma get_inode_block_Ok fs i k b :
  geom_ok fs → length (i_direct i) = 9%nat → 0 ≤ k →
  get_inode_block i k fs = Ok b → b = imap fs i k ∧ (k < MAX_FILE_BLOCKS ∨ b = 0).
Proof.
  intros Hg Hlen Hk. unfold get_inode_block, imap, MAX_FILE_BLOCKS.
  change DIRECT_PTRS with 9. change PTRS_PER_BLOCK with 128. case_decide.
  - intros Hb%or_panic_Ok. apply list_lookup_total_correct in Hb as ->. split; [done|lia].
  - case_decide; [intros [= <-]; auto|].
    intros (buf&Hr&Hb)%obind_Ok_inv. apply fs_read_Ok in Hr as [-> _]; [|done].
    case_decide; [done|]. injection Hb as <-. split; [done|]. lia.
Qed.

Lemma get_inode_block_terminates fs i k :
  (∀ b, fs_read b fs ≠ Diverge) → get_inode_block i k fs ≠ Diverge.
Proof.
  intros Hr. unfold get_inode_block. case_decide; [by destruct (i_direct i !! _)|].
  case_decide; [done|]. specialize (Hr (i_indirect i)).
  destruct (fs_read _ _); simpl; try done. by case_decide.
Qed.

(** Facts about a freshly allocated block. *)
Lemma alloc_block_evolves fs i b fs' :
  geom_ok fs → inode_wf fs i → alloc_block fs = (Ok b, fs') →
  is_data_block fs b ∧ block_free fs b = true ∧ block_free fs' b = false ∧ b ≠ 0 ∧ u32_ok b ∧
  ¬ owned fs i b ∧ (∀ l, content fs' l = content fs l) ∧ (∀ k, imap fs' i k = imap fs i k) ∧
  evolves fs i fs' i ∧ inode_wf fs' i.
Proof.
  intros Hg Hwf Ha. pose proof (geom_data_pos _ Hg) as Hpos.
  apply alloc_block_Ok in Ha as (Hb&Hfree&_&Hbits&Hdisk&Hibm&Hsame&Hcount); [|done].
  assert (0 < b) as Hb0 by (destruct Hb; lia).
  assert (∀ l, content fs' l = content fs l) as Hc.
  { intros l. unfold content. rewrite Hdisk. by destruct Hsame as [-> _]. }
  assert (∀ k, imap fs' i k = imap fs i k) as Hm by (intros k; unfold imap; by rewrite Hc).
  assert (∀ l, 0 ≤ l → block_free fs l = false → block_free fs' l = false) as Hused.
  { intros l Hl Hf. rewrite Hbits by done. by case_decide. }
  assert (∀ l, owned fs' i l → owned fs i l) as Hown.
  { intros l [Hl [->|(k&Hk&Hkm)]]; split; auto. right. exists k. by rewrite <-Hm. }
  split_and!; try done.
  - rewrite Hbits by lia. by rewrite decide_True.
  - lia.
  - pose proof (geom_total _ Hg). destruct Hb. split; [lia|]. change (256 ^ 4) with (2 ^ 32). lia.
  - intros [_ [->|(k&Hk&Hkm)]].
    + destruct (wf_indirect _ _ Hwf) as (_&?&_); [lia|congruence].
    + destruct (wf_block _ _ Hwf k Hk); [lia|congruence].
  - split; eauto using same_meta_refl.
  - destruct Hwf as [W1 W2 W3 W4]. split.
    + done.
    + intros k Hk. rewrite Hm. intros Hne. destruct (W2 k Hk Hne) as [Hd Hf].
      split; [by apply (is_data_block_same _ _ _ Hsame)|]. apply Hused; [destruct Hd; lia|done].
    + intros j k. rewrite !Hm. auto.
    + intros Hne. destruct (W4 Hne) as (Hd&Hf&Hk). split_and!.
      * by apply (is_data_block_same _ _ _ Hsame).
      * apply Hused; [destruct Hd; lia|done].
      * intros k. rewrite Hm. auto.
Qed.

(** A block map with one more block. *)
Lemma wf_extend fs i fs' i' k b :
  inode_wf fs i → same_geom fs fs' → 0 ≤ k < MAX_FILE_BLOCKS →
  length (i_direct i') = 9%nat → i_indirect i' = i_indirect i →
  (∀ j, 0 ≤ j < MAX_FILE_BLOCKS →
     imap fs' i' j = if decide (j = k) then b else imap fs i j) →
  is_data_block fs b → block_free fs' b = false → ¬ owned fs i b → b ≠ 0 →
  (∀ l, is_data_block fs l → block_free fs l = false → block_free fs' l = false) →
  inode_wf fs' i'.
Proof.
  intros [W1 W2 W3 W4] Hs Hk Hl Hi Hm Hb Hbu Hno Hb0 Hu.
  assert (∀ j, 0 ≤ j < MAX_FILE_BLOCKS → imap fs i j ≠ b) as Hnb.
  { intros j Hj <-. apply Hno. split; [done|]. right. eauto. }
  split; [done| | |].
  - intros j Hj. rewrite Hm by done. rewrite (is_data_block_same _ _ _ Hs). case_decide; [done|].
    intros Hne. destruct (W2 j Hj Hne). auto.
  - intros j1 j2 Hj1 Hj2. rewrite !Hm by done.
    destruct (decide (j1 = k)) as [->|], (decide (j2 = k)) as [->|]; [done|..|by auto].
    + intros _ Heq. by destruct (Hnb j2 Hj2).
    + intros _ Heq. by destruct (Hnb j1 Hj1).
  - rewrite Hi. intros Hne. destruct (W4 Hne) as (Hd&Hf&Hdis).
    rewrite (is_data_block_same _ _ _ Hs). split_and!; [done|auto|].
    intros j Hj. rewrite Hm by done. case_decide; [|auto].
    intros ->. apply Hno. split; auto.
Qed.

Lemma owned_extend fs i fs' i' k b l :
  i_indirect i' = i_indirect i →
  (∀ j, 0 ≤ j < MAX_FILE_BLOCKS →
     imap fs' i' j = if decide (j = k) then b else imap fs i j) →
  owned fs' i' l → l = b ∨ owned fs i l.
Proof.
  intros Hi Hm [Hl [->|(j&Hj&Hjl)]]; [right; split; auto|].
  rewrite Hm in Hjl by done. case_decide; [auto|]. right. split; [done|]. right. eauto.
Qed.

Lemma block_written_evolves fs i b buf fs' :
  geom_ok fs → block_written fs fs' b buf → owned fs i b →
  (∀ l, owned fs' i l → owned fs i l) → evolves fs i fs' i.
Proof.
  intros Hg (Hc&Hbbm&Hibm&Hsb&Hs) Ho Hown.
  assert (∀ l, block_free fs' l = block_free fs l) as Hf
    by (intros; unfold block_free; by rewrite Hbbm).
  split; auto using same_meta_refl.
  - intros l _. by rewrite Hf.
  - intros l Hno _. rewrite Hc. case_decide; [by subst|done].
  - unfold counted. rewrite Hsb. intros ->. apply count_if_ext. auto.
Qed.

(** The indirect block of an inode, allocated on first use. *)
Lemma ensure_indirect_Ok fs i i1 fs1 :
  geom_ok fs → inode_wf fs i →
  (if decide (i_indirect i = 0) then
     let! ind := alloc_block in
     let! _ := fs_write ind zero_block in
     sret (with_indirect ind i)
   else sret i) fs = (Ok i1, fs1) →
  i_indirect i1 ≠ 0 ∧ i_direct i1 = i_direct i ∧ inode_wf fs1 i1 ∧ evolves fs i fs1 i1 ∧
  (∀ j, 0 ≤ j < MAX_FILE_BLOCKS → imap fs1 i1 j = imap fs i j) ∧
  (∀ l, l ≠ i_indirect i1 → content fs1 l = content fs l).
Proof.
  intros Hg Hwf. case_decide as Hz.
  2: { intros [= <- <-]. split_and!; auto using evolves_refl. }
  intros (ind&fsa&Ha&Hrest)%sbind_Ok_inv. apply sbind_Ok_inv in Hrest as ([]&fsb&Hw&Hrest).
  injection Hrest as <- <-.
  destruct (alloc_block_evolves _ _ _ _ Hg Hwf Ha)
    as (Hd&Hfree&Hused&Hne&_&Hno&Hca&Hma&Hev&Hwfa).
  pose proof (geom_ok_same _ _ (ev_geom _ _ _ _ Hev) Hg) as Hga.
  apply fs_write_Ok in Hw as (Hcb&Hbbm&Hibm&Hsb&Hs); [|done|destruct Hd; pose proof
    (geom_data_pos _ Hg); lia|done].
  assert (∀ l, block_free fsb l = block_free fsa l) as Hf
    by (intros; unfold block_free; by rewrite Hbbm).
  assert (∀ j, 0 ≤ j < MAX_FILE_BLOCKS → imap fsb (with_indirect ind i) j = imap fs i j) as Hm.
  { intros j Hj. unfold imap. simpl. case_decide; [done|]. rewrite !decide_False by done.
    rewrite Hcb, decide_True, ptr_at_zero by done. by rewrite decide_True. }
  assert (same_geom fs fsb) as Hgb by (etrans; [apply Hev|done]).
  destruct Hwf as [W1 W2 W3 W4]. split_and!; [done|done| | |done|].
  - split; [done| | |].
    + intros k Hk. rewrite Hm, Hf, (is_data_block_same _ _ _ Hgb) by done. intros Hk0.
      destruct (W2 k Hk Hk0) as [Hdk Hfk]. split; [done|].
      apply (ev_used _ _ _ _ Hev); [destruct Hdk; pose proof (geom_data_pos _ Hg); lia|done].
    + intros j k Hj Hk. rewrite !Hm by done. auto.
    + simpl. intros _. rewrite Hf, (is_data_block_same _ _ _ Hgb). split_and!; [done|done|].
      intros k Hk. rewrite Hm by done. intros <-. apply Hno. split; [done|]. right. eauto.
  - split; auto.
    + rewrite Hibm. apply Hev.
    + by repeat split.
    + intros l [Hl [->|(j&Hj&Hjl)]]; [right; auto|]. left. split; [done|].
      right. exists j. by rewrite <-Hm.
    + intros l Hl Hlf. rewrite Hf. by apply Hev.
    + intros l Hnol Hl. rewrite Hcb, decide_False by (intros ->; destruct Hl as
        [Hl|[_ Hl]]; [destruct Hd; lia|congruence]). apply Hca.
    + intros Hcnt%Hev. revert Hcnt. unfold counted. rewrite Hsb. intros ->.
      by apply count_if_ext.
  - intros l Hl. simpl in Hl. by rewrite Hcb, decide_False, Hca.
Qed.

(** Mapping one more block: the new map is the old one with the block added,
    and no mapped block changes its contents. *)
Lemma alloc_inode_block_Ok fs i k i' b fs' :
  geom_ok fs → inode_wf fs i → 0 ≤ k → imap fs i k = 0 →
  alloc_inode_block i k fs = (Ok (i', b), fs') →
  k < MAX_FILE_BLOCKS ∧ inode_wf fs' i' ∧ evolves fs i fs' i' ∧
  is_data_block fs b ∧ ¬ owned fs i b ∧ b ≠ 0 ∧
  (∀ j, 0 ≤ j < MAX_FILE_BLOCKS →
     imap fs' i' j = if decide (j = k) then b else imap fs i j) ∧
  (∀ j, 0 ≤ j < MAX_FILE_BLOCKS → imap fs i j ≠ 0 →
     content fs' (imap fs i j) = content fs (imap fs i j)).
Proof.
  intros Hg Hwf Hk Hk0. unfold alloc_inode_block.
  change DIRECT_PTRS with 9. change PTRS_PER_BLOCK with 128. case_decide as Hk9.
  - intros (b'&fs1&Ha&Hrest)%sbind_Ok_inv. injection Hrest as <- <- <-.
    destruct (alloc_block_evolves _ _ _ _ Hg Hwf Ha)
      as (Hd&Hfree&Hused&Hne&_&Hno&Hca&Hma&Hev&Hwfa).
    assert (∀ j, 0 ≤ j < MAX_FILE_BLOCKS →
      imap fs1 (with_direct (<[Z.to_nat k := b']> (i_direct i)) i) j =
        if decide (j = k) then b' else imap fs i j) as Hm.
    { intros j Hj. rewrite <-Hma. unfold imap. simpl. change DIRECT_PTRS with 9.
      case_decide; [|by rewrite (decide_False (P:=j = k)) by lia].
      pose proof (wf_len _ _ Hwf). case_decide as Hjk.
      - subst. apply list_lookup_total_insert_eq. lia.
      - apply list_lookup_total_insert_ne. lia. }
    assert (0 ≤ k < MAX_FILE_BLOCKS) as Hkm
      by (unfold MAX_FILE_BLOCKS; change DIRECT_PTRS with 9; change PTRS_PER_BLOCK with 128; lia).
    split_and!; try done; try lia.
    + apply (wf_extend fs i fs1 _ k b'); try done; [apply Hev|simpl; rewrite length_insert; apply Hwf|].
      intros l Hl Hlf. apply (ev_used _ _ _ _ Hev); [|done].
      pose proof (geom_data_pos _ Hg). destruct Hl. lia.
    + destruct Hev as [G I M O U F C]. split; [done|done|by repeat split| |done..].
      intros l Hl. destruct (owned_extend fs i fs1 (with_direct (<[Z.to_nat k:=b']> (i_direct i)) i) k b' l
        eq_refl Hm Hl) as [->|?]; auto.
  - case_decide as Hk128; [done|].
    intros (i1&fs1&He&Hrest)%sbind_Ok_inv.
    destruct (ensure_indirect_Ok _ _ _ _ Hg Hwf He) as (Hind&Hdir&Hwf1&Hev1&Hm1&Hc1).
    apply sbind_Ok_inv in Hrest as (b'&fs2&Ha&Hrest).
    pose proof (geom_ok_same _ _ (ev_geom _ _ _ _ Hev1) Hg) as Hg1.
    destruct (alloc_block_evolves _ _ _ _ Hg1 Hwf1 Ha)
      as (Hd&Hfree&Hused&Hne&Hu32&Hno&Hc2&Hm2&Hev2&Hwf2).
    pose proof (geom_ok_same _ _ (ev_geom _ _ _ _ Hev2) Hg1) as Hg2.
    apply sbind_Ok_inv in Hrest as (buf&?&Hr&Hrest). injection Hr as Hr <-.
    apply fs_read_Ok in Hr as [-> Hlen]; [|done].
    apply sbind_Ok_inv in Hrest as ([]&fs3&Hw&Hrest). injection Hrest as <- <- <-.
    destruct (wf_indirect _ _ Hwf1 Hind) as (Hid&Hiu&Hidis).
    pose proof (geom_data_pos _ Hg1) as Hpos1.
    apply fs_write_Ok in Hw as Hw'; [|done|destruct Hid; lia|].
    2: { rewrite length_splice; [done|]. rewrite length_le_enc. lia. }
    destruct Hw' as (Hc3&Hbbm&Hibm&Hsb&Hs3).
    assert (∀ l, block_free fs3 l = block_free fs2 l) as Hf
      by (intros; unfold block_free; by rewrite Hbbm).
    assert (∀ j, 0 ≤ j < MAX_FILE_BLOCKS →
      imap fs3 i1 j = if decide (j = k) then b' else imap fs1 i1 j) as Hm.
    { intros j Hj. rewrite <-Hm2. unfold imap. change DIRECT_PTRS with 9.
      unfold MAX_FILE_BLOCKS in Hj. change DIRECT_PTRS with 9 in Hj.
      change PTRS_PER_BLOCK with 128 in Hj.
      destruct (decide (j < 9)); [by rewrite (decide_False (P:=j = k)) by lia|].
      rewrite !(decide_False (P:=i_indirect i1 = 0)) by done.
      rewrite Hc3, decide_True, ptr_at_splice by (done || lia).
      rewrite (decide_ext (j - 9 = k - 9) (j = k)) by lia. done. }
    assert (0 ≤ k < MAX_FILE_BLOCKS) as Hkm
      by (unfold MAX_FILE_BLOCKS; change DIRECT_PTRS with 9; change PTRS_PER_BLOCK with 128; lia).
    assert (evolves fs1 i1 fs3 i1) as Hev3.
    { destruct Hev2 as [G I M O U F C]. split.
      - by etrans.
      - congruence.
      - done.
      - intros l Hl. destruct (owned_extend fs1 i1 fs3 i1 k b' l eq_refl Hm Hl) as [->|?]; auto.
      - intros l Hl Hlf. rewrite Hf. auto.
      - intros l Hl Hlf. rewrite Hc3, decide_False; [auto|].
        intros ->. apply Hl. split; auto.
      - intros Hcnt%C. revert Hcnt. unfold counted. rewrite Hsb. intros ->.
        by apply count_if_ext. }
    pose proof (evolves_trans _ _ _ _ _ _ Hg Hev1 Hev3) as Hev.
    split_and!; [lia| |done| | |done| |].
    + eapply (wf_extend fs1 i1); try done.
      * apply Hev3.
      * apply Hwf1.
      * by rewrite Hf.
      * intros l Hl Hlf. rewrite Hf. apply (ev_used _ _ _ _ Hev2); [destruct Hl; lia|done].
    + by apply (is_data_block_same _ _ _ (ev_geom _ _ _ _ Hev1)).
    + intros [_ [Hbi|(j&Hj&Hjb)]].
      * revert He. case_decide as Hz; [congruence|]. intros [= <- <-].
        apply Hno. split; auto.
      * apply Hno. split; [done|]. right. exists j. by rewrite Hm1.
    + intros j Hj. rewrite Hm, Hm1 by done. done.
    + intros j Hj Hj0. rewrite Hc3, decide_False; [|by rewrite <-Hm1; auto].
      rewrite Hc2, Hc1; [done|]. rewrite <-Hm1; auto.
Qed.

(** ** Writing *)

Lemma block_written_imap fs fs' b buf i k :
  block_written fs fs' b buf → b ≠ i_indirect i → imap fs' i k = imap fs i k.
Proof.
  intros (Hc&_) Hb. unfold imap. case_decide; [done|]. case_decide; [done|].
  by rewrite Hc, decide_False by congruence.
Qed.

Lemma block_written_wf fs fs' b buf i :
  inode_wf fs i → block_written fs fs' b buf → b ≠ i_indirect i → inode_wf fs' i.
Proof.
  intros [W1 W2 W3 W4] Hw Hb. pose proof (λ k, block_written_imap _ _ _ _ _ k Hw Hb) as Hm.
  pose proof Hw as (_&Hbbm&_&_&Hs).
  assert (∀ l, block_free fs' l = block_free fs l) as Hf
    by (intros; unfold block_free; by rewrite Hbbm).
  split; [done| | |].
  - intros k. rewrite Hm, Hf, (is_data_block_same _ _ _ Hs). auto.
  - intros j k. rewrite !Hm. auto.
  - rewrite Hf, (is_data_block_same _ _ _ Hs). intros Hne.
    destruct (W4 Hne) as (?&?&?). split_and!; [done..|]. intros k. rewrite Hm. auto.
Qed.

(** No block index loses its block. *)
Definition grows fs i fs' i' : Prop :=
  ∀ k, 0 ≤ k < MAX_FILE_BLOCKS → imap fs i k ≠ 0 → imap fs' i' k ≠ 0.

(** Block [k] of the file is mapped to [b], and the file reads as before. *)
Definition mapped fs i fs' i' (k b : Z) : Prop :=
  inode_wf fs' i' ∧ evolves fs i fs' i' ∧ imap fs' i' k = b ∧ b ≠ 0 ∧ 0 ≤ k < MAX_FILE_BLOCKS ∧
  grows fs i fs' i' ∧
  ∀ pos, 0 ≤ pos / BLOCK_SIZE < MAX_FILE_BLOCKS → file_byte fs' i' pos = file_byte fs i pos.

Lemma map_block_Ok fs i k b0 p fs' :
  geom_ok fs → inode_wf fs i → 0 ≤ k → get_inode_block i k fs = Ok b0 →
  (if decide (b0 = 0) then
     let! p := alloc_inode_block i k in
     let! _ := fs_write p.2 zero_block in
     sret p
   else sret (i, b0)) fs = (Ok p, fs') →
  mapped fs i fs' p.1 k p.2.
Proof.
  intros Hg Hwf Hk Hget Hrun.
  apply get_inode_block_Ok in Hget as [-> Hkm]; [|done|apply Hwf|done].
  case_decide as Hz.
  2: { injection Hrun as <- <-. simpl. destruct Hkm; [|done].
       split_and!; auto using evolves_refl; by intros ?. }
  apply sbind_Ok_inv in Hrun as ([i1 b]&fs1&Ha&Hrun).
  apply sbind_Ok_inv in Hrun as ([]&fs2&Hw&Hrun). injection Hrun as <- <-. simpl in *.
  destruct (alloc_inode_block_Ok _ _ _ _ _ _ Hg Hwf Hk Hz Ha)
    as (Hk137&Hwf1&Hev1&Hd&Hno&Hb0&Hm1&Hc1).
  pose proof (geom_ok_same _ _ (ev_geom _ _ _ _ Hev1) Hg) as Hg1.
  assert (imap fs1 i1 k = b) as Hmb by (rewrite Hm1 by done; by rewrite decide_True).
  assert (b ≠ i_indirect i1) as Hbi.
  { destruct (decide (i_indirect i1 = 0)) as [->|Hi]; [done|].
    rewrite <-Hmb. by apply (wf_indirect _ _ Hwf1). }
  apply fs_write_Ok in Hw; [|done|pose proof (geom_data_pos _ Hg); destruct Hd; lia|done].
  pose proof (λ j, block_written_imap _ _ _ _ i1 j Hw Hbi) as Hm2.
  assert (owned fs1 i1 b) as Ho by (split; [done|]; right; eauto).
  split_and!; [by eapply block_written_wf| |by rewrite Hm2|done|done|done| |].
  - eapply evolves_trans; [done|done|]. eapply block_written_evolves; [done..|].
    intros l [Hl [->|(j&Hj&Hjl)]]; split; auto. right. exists j. by rewrite <-Hm2.
  - intros j Hj Hj0. rewrite Hm2, Hm1 by done. by case_decide.
  - intros pos Hpos. unfold file_byte. rewrite Hm2, Hm1 by done.
    destruct Hw as (Hc2&_). rewrite Hc2. destruct (decide (pos / BLOCK_SIZE = k)) as [->|Hne].
    + rewrite decide_False, decide_True, Hz, decide_True by done.
      apply list_lookup_total_correct, lookup_replicate. split; [done|].
      change BLOCK_SIZE with 512. pose proof (Z.mod_pos_bound pos 512). lia.
    + case_decide as Hp; [done|]. rewrite Hc1 by done. rewrite decide_False; [done|].
      intros <-. apply Hno. split; [done|]. right. eauto.
Qed.

(** Overwriting bytes [o .. o+|new|) of the block mapped at [k]. *)
Lemma overwrite_block_Ok fs i k b o new fs' :
  geom_ok fs → inode_wf fs i → 0 ≤ k < MAX_FILE_BLOCKS → imap fs i k = b → b ≠ 0 →
  length (content fs b) = 512%nat → (o + length new ≤ 512)%nat →
  fs_write b (splice o new (content fs b)) fs = (Ok tt, fs') →
  inode_wf fs' i ∧ evolves fs i fs' i ∧ (∀ j, imap fs' i j = imap fs i j) ∧
  ∀ pos, 0 ≤ pos / BLOCK_SIZE < MAX_FILE_BLOCKS →
    file_byte fs' i pos =
      if decide (k * 512 + Z.of_nat o ≤ pos < k * 512 + Z.of_nat (o + length new))
      then new !!! Z.to_nat (pos - (k * 512 + Z.of_nat o)) else file_byte fs i pos.
Proof.
  intros Hg Hwf Hk Hmb Hb0 Hlen Hfit Hw.
  destruct (wf_block _ _ Hwf k Hk) as [Hd Hu]; [by rewrite Hmb|]. rewrite Hmb in Hd, Hu.
  apply fs_write_Ok in Hw; [|done|pose proof (geom_data_pos _ Hg); destruct Hd; lia|].
  2: { by rewrite length_splice by lia. }
  assert (b ≠ i_indirect i) as Hbi.
  { destruct (decide (i_indirect i = 0)) as [->|Hi]; [done|].
    rewrite <-Hmb. by apply (wf_indirect _ _ Hwf). }
  pose proof (λ j, block_written_imap _ _ _ _ i j Hw Hbi) as Hm.
  split_and!; [by eapply block_written_wf| |done|].
  - eapply block_written_evolves; [done|done|split; [done|]; right; eauto|].
    intros l [Hl [->|(j&Hj&Hjl)]]; split; auto. right. exists j. by rewrite <-Hm.
  - intros pos Hpos. unfold file_byte. rewrite Hm. destruct Hw as (Hc&_). rewrite Hc.
    change BLOCK_SIZE with 512 in *. pose proof (Z.div_mod pos 512 ltac:(lia)).
    pose proof (Z.mod_pos_bound pos 512 ltac:(lia)).
    destruct (decide (pos / 512 = k)) as [Hpk|Hne].
    + rewrite Hpk, Hmb, decide_False, decide_True by done.
      rewrite !list_lookup_total_alt, lookup_splice by lia.
      destruct (decide (o ≤ Z.to_nat (pos mod 512) < o + length new)%nat).
      * rewrite decide_True by lia. do 2 f_equal. lia.
      * by rewrite !decide_False by (done || lia).
    + rewrite (decide_False (P:=k * 512 + Z.of_nat o ≤ pos < _)) by lia.
      case_decide as Hp; [done|]. rewrite decide_False; [done|].
      intros He. apply Hne. eapply (wf_inj _ _ Hwf); [lia|done|done|congruence].
Qed.

(** ** The loops *)

(** Below this offset the block index of a position fits in a [u32]. *)
Definition MAX_OFFSET : Z := 2 ^ 32 * BLOCK_SIZE.
Definition MAX_FILE_SIZE : Z := MAX_FILE_BLOCKS * BLOCK_SIZE.

Lemma pos_no_wrap pos : 0 ≤ pos < MAX_OFFSET →
  wrap64 pos = pos ∧ wrap32 (pos / BLOCK_SIZE) = pos / BLOCK_SIZE.
Proof.
  unfold MAX_OFFSET. change BLOCK_SIZE with 512. intros Hp. split; apply wrap_small; [lia|].
  split; [apply Z.div_pos; lia|apply Z.div_lt_upper_bound; lia].
Qed.

Lemma pos_block_range pos : 0 ≤ pos < MAX_FILE_SIZE ↔ 0 ≤ pos / BLOCK_SIZE < MAX_FILE_BLOCKS.
Proof.
  unfold MAX_FILE_SIZE, MAX_FILE_BLOCKS. change BLOCK_SIZE with 512.
  change DIRECT_PTRS with 9. change PTRS_PER_BLOCK with 128.
  pose proof (Z.div_mod pos 512 ltac:(lia)). pose proof (Z.mod_pos_bound pos 512 ltac:(lia)).
  lia.
Qed.

Lemma write_loop_Ok fuel i offset written data fs i' fs' :
  geom_ok fs → inode_wf fs i → 0 ≤ offset → 0 ≤ written →
  offset + Z.of_nat (length data) ≤ MAX_OFFSET →
  write_loop fuel i offset written data fs = (Ok i', fs') →
  inode_wf fs' i' ∧ evolves fs i fs' i' ∧ grows fs i fs' i' ∧
  (∀ pos, offset + written ≤ pos < offset + Z.of_nat (length data) →
     imap fs' i' (pos / BLOCK_SIZE) ≠ 0) ∧
  (written < Z.of_nat (length data) → offset + Z.of_nat (length data) ≤ MAX_FILE_SIZE) ∧
  ∀ pos, 0 ≤ pos < MAX_FILE_SIZE →
    file_byte fs' i' pos =
      if decide (offset + written ≤ pos < offset + Z.of_nat (length data))
      then data !!! Z.to_nat (pos - offset) else file_byte fs i pos.
Proof.
  revert i written fs. induction fuel as [|fuel IH]; [done|].
  intros i written fs Hg Hwf Ho Hw Hmax. cbn [write_loop]. case_decide as Hlt.
  2: { intros [= <- <-]. split_and!; [done|apply evolves_refl|by intros ?|lia|lia|].
       intros pos _. by rewrite decide_False by lia. }
  destruct (pos_no_wrap (offset + written)) as [-> ->]; [lia|].
  set (pos := offset + written) in *. set (k := pos / BLOCK_SIZE).
  set (o := pos mod BLOCK_SIZE). set (c := Z.min _ _).
  assert (0 ≤ k) as Hk by (apply Z.div_pos; [lia|done]).
  assert (pos = 512 * k + o) as Hpos by (apply (Z.div_mod pos 512); lia).
  assert (0 ≤ o < 512) as Ho512 by (apply (Z.mod_pos_bound pos 512); lia).
  intros (b0&?&Hget&Hrest)%sbind_Ok_inv. injection Hget as Hget <-.
  apply sbind_Ok_inv in Hrest as ([i1 b]&fs1&Hmap&Hrest).
  destruct (map_block_Ok _ _ _ _ _ _ Hg Hwf Hk Hget Hmap) as (Hwf1&Hev1&Hmb&Hb0&Hk137&Hgr1&Hfb1).
  cbn [fst snd] in *.
  pose proof (geom_ok_same _ _ (ev_geom _ _ _ _ Hev1) Hg) as Hg1.
  apply sbind_Ok_inv in Hrest as (buf&?&Hr&Hrest). injection Hr as Hr <-.
  apply fs_read_Ok in Hr as [-> Hlen]; [|done].
  apply sbind_Ok_inv in Hrest as ([]&fs2&Hwr&Hrest).
  change BLOCK_SIZE with 512 in c.
  assert (0 < c ∧ c ≤ Z.of_nat (length data) - written ∧ c ≤ 512 - o ∧
    (c = Z.of_nat (length data) - written ∨ c = 512 - o)) as Hc by (unfold c; lia).
  clearbody c.
  assert (length (slice (Z.to_nat written) (Z.to_nat c) data) = Z.to_nat c) as Hsl
    by (apply length_slice; lia).
  assert (Z.to_nat o + length (slice (Z.to_nat written) (Z.to_nat c) data) ≤ 512)%nat as Hfit
    by lia.
  destruct (overwrite_block_Ok _ _ _ _ _ _ _ Hg1 Hwf1 Hk137 Hmb Hb0 Hlen Hfit Hwr)
    as (Hwf2&Hev2&Him2&Hfb2).
  pose proof (geom_ok_same _ _ (ev_geom _ _ _ _ Hev2) Hg1) as Hg2.
  assert (0 ≤ written + c) as Hwc by lia.
  destruct (IH _ _ _ Hg2 Hwf2 Ho Hwc Hmax Hrest) as (Hwf3&Hev3&Hgr3&Hmap3&Hsz&Hfb3).
  split_and!; [done|by eauto using evolves_trans| | | |].
  - intros j Hj Hj0. apply Hgr3; [done|]. rewrite Him2. by apply Hgr1.
  - intros p Hp. destruct (decide (offset + (written + c) ≤ p)); [apply Hmap3; lia|].
    assert (p / BLOCK_SIZE = k) as ->.
    { symmetry. apply (Z.div_unique_pos _ 512 k (p - 512 * k)); lia. }
    apply Hgr3; [done|]. by rewrite Him2, Hmb.
  - intros _. destruct (decide (written + c < Z.of_nat (length data))); [auto|].
    assert ((offset + Z.of_nat (length data) - 1) / BLOCK_SIZE = k) as He.
    { symmetry. apply (Z.div_unique_pos _ 512 k (o + c - 1)); lia. }
    pose proof (proj2 (pos_block_range (offset + Z.of_nat (length data) - 1))) as Hend.
    rewrite He in Hend. specialize (Hend Hk137). lia.
  - intros p Hp. rewrite Hfb3, Hfb2, Hfb1, Hsl by (done || by apply pos_block_range).
    rewrite Nat2Z.inj_add, !Z2Nat.id by lia.
    destruct (decide (offset + (written + c) ≤ p < _)).
    { by rewrite (decide_True (P:=pos ≤ p < _)) by lia. }
    destruct (decide (k * 512 + o ≤ p < _)).
    + rewrite decide_True by lia.
      rewrite lookup_total_slice by lia. f_equal. lia.
    + by rewrite decide_False by lia.
Qed.

Lemma read_loop_Ok fuel i offset to_read so_far buf fs buf' :
  geom_ok fs → length (i_direct i) = 9%nat → 0 ≤ offset → 0 ≤ so_far ≤ to_read →
  to_read ≤ Z.of_nat (length buf) → offset + to_read ≤ MAX_OFFSET →
  read_loop fuel i offset to_read so_far buf fs = Ok buf' →
  length buf' = length buf ∧
  ∀ j, buf' !! j =
    if decide (so_far ≤ Z.of_nat j < to_read)
    then Some (file_byte fs i (offset + Z.of_nat j)) else buf !! j.
Proof.
  intros Hg Hwf Ho. revert so_far buf. induction fuel as [|fuel IH]; [done|].
  intros so_far buf Hs Hl Hmax. cbn [read_loop]. case_decide as Hlt.
  2: { intros [= <-]. split; [done|]. intros j. by rewrite decide_False by lia. }
  destruct (pos_no_wrap (offset + so_far)) as [-> ->]; [lia|].
  set (pos := offset + so_far) in *. set (k := pos / BLOCK_SIZE).
  set (o := pos mod BLOCK_SIZE). set (c := Z.min _ _).
  assert (0 ≤ k) as Hk by (apply Z.div_pos; [lia|done]).
  assert (pos = 512 * k + o) as Hpos by (apply (Z.div_mod pos 512); lia).
  assert (0 ≤ o < 512) as Ho512 by (apply (Z.mod_pos_bound pos 512); lia).
  change BLOCK_SIZE with 512 in c.
  assert (0 < c ∧ c ≤ to_read - so_far ∧ c ≤ 512 - o) as Hc by (unfold c; lia).
  clearbody c.
  intros (b&Hget&Hrest)%obind_Ok_inv. apply get_inode_block_Ok in Hget as [-> _]; [|done..].
  apply obind_Ok_inv in Hrest as (piece&Hp&Hrest).
  assert (length piece = Z.to_nat c ∧ ∀ j, (j < Z.to_nat c)%nat →
    piece !! j = Some (file_byte fs i (pos + Z.of_nat j))) as [Hpl Hpj].
  { assert (∀ j, (j < Z.to_nat c)%nat → (pos + Z.of_nat j) / BLOCK_SIZE = k ∧
      (pos + Z.of_nat j) mod BLOCK_SIZE = o + Z.of_nat j) as Hin.
    { intros j Hj. change BLOCK_SIZE with 512. split.
      - symmetry. apply (Z.div_unique_pos _ 512 k (o + Z.of_nat j)); lia.
      - symmetry. apply (Z.mod_unique_pos _ 512 k (o + Z.of_nat j)); lia. }
    case_decide as Hz.
    - injection Hp as <-. rewrite length_replicate. split; [done|]. intros j Hj.
      unfold file_byte. destruct (Hin j Hj) as [-> _]. rewrite Hz, decide_True by done.
      by apply lookup_replicate.
    - apply obind_Ok_inv in Hp as (bb&Hr&[= <-]). apply fs_read_Ok in Hr as [-> Hlen]; [|done].
      rewrite length_slice by lia. split; [done|]. intros j Hj.
      unfold file_byte. destruct (Hin j Hj) as [-> ->]. rewrite decide_False by done.
      rewrite lookup_slice, decide_True by done.
      rewrite list_lookup_lookup_total_lt by lia. do 2 f_equal. lia. }
  apply IH in Hrest as [Hlen Hj]; [|lia|rewrite length_splice by lia; lia|lia].
  rewrite length_splice in Hlen by lia. split; [done|].
  intros j. rewrite Hj, lookup_splice by lia.
  destruct (decide (so_far + c ≤ Z.of_nat j < to_read)).
  { by rewrite (decide_True (P:=so_far ≤ Z.of_nat j < to_read)) by lia. }
  destruct (decide (Z.to_nat so_far ≤ j < _)%nat).
  - rewrite decide_True, Hpj by lia. do 2 f_equal. lia.
  - by rewrite decide_False by lia.
Qed.
End spec.
