(* ===== verification/NextfsIO.v ===== *)
(** * NextFS reads and writes: the properties

    A write changes the bytes it covers and nothing else - neither the other
    bytes of the file nor any other file - and reads return the bytes of
    [file_byte].  Then a sound volume is defined, the test of its bitmaps, and a
    small formatted volume on a RAM disk, the concrete state of the witnesses. *)

From S2P Require Import Prelude Block NextfsLayout NextfsAlloc NextfsFile NextfsSpec.

Section io.
Context {D : Type} `{BlockLaws D}.
Implicit Types (fs : nextfs D) (i j : inode).

(** Two inodes that share no block. *)
Definition disjoint_files fs i j : Prop := ∀ b, owned fs i b → ¬ owned fs j b.

(** ** What an operation on one inode leaves alone *)

Lemma evolves_content fs i fs' i' j b :
  evolves fs i fs' i' → inode_wf fs j → disjoint_files fs i j → owned fs j b →
  content fs' b = content fs b.
Proof.
  intros Hev Hj Hdis Ho. apply (ev_frame _ _ _ _ Hev).
  - intros Hi. by apply (Hdis b).
  - right. destruct Ho as [Hb [->|(k&Hk&<-)]].
    + by destruct (wf_indirect _ _ Hj Hb) as (?&?&_).
    + by apply (wf_block _ _ Hj).
Qed.

Lemma evolves_imap fs i fs' i' j k :
  evolves fs i fs' i' → inode_wf fs j → disjoint_files fs i j → imap fs' j k = imap fs j k.
Proof.
  intros Hev Hj Hdis. unfold imap. case_decide; [done|]. case_decide as Hi; [done|].
  f_equal. eapply evolves_content; [done..|]. split; auto.
Qed.

Lemma evolves_owned_other fs i fs' i' j b :
  evolves fs i fs' i' → inode_wf fs j → disjoint_files fs i j →
  owned fs' j b ↔ owned fs j b.
Proof.
  intros Hev Hj Hdis. unfold owned. by setoid_rewrite (evolves_imap _ _ _ _ _ _ Hev Hj Hdis).
Qed.

Lemma evolves_wf_other fs i fs' i' j :
  geom_ok fs → evolves fs i fs' i' → inode_wf fs j → disjoint_files fs i j → inode_wf fs' j.
Proof.
  intros Hg Hev Hj Hdis. pose proof (λ k, evolves_imap _ _ _ _ _ k Hev Hj Hdis) as Hm.
  pose proof (geom_data_pos _ Hg) as Hpos.
  assert (∀ b, is_data_block fs b → block_free fs b = false → block_free fs' b = false) as Hu.
  { intros b [Hb _]. apply (ev_used _ _ _ _ Hev). lia. }
  pose proof (is_data_block_same fs fs') as Hd. pose proof (ev_geom _ _ _ _ Hev) as Hs.
  destruct Hj as [W1 W2 W3 W4]. split; [done| | |].
  - intros k Hk. rewrite Hm, Hd by done. intros Hk0. destruct (W2 k Hk Hk0). auto.
  - intros k1 k2. rewrite !Hm. auto.
  - intros Hi. destruct (W4 Hi) as (?&?&?). rewrite Hd by done. split_and!; [done|auto|].
    intros k. rewrite Hm. auto.
Qed.

Lemma evolves_file_byte_other fs i fs' i' j pos :
  evolves fs i fs' i' → inode_wf fs j → disjoint_files fs i j →
  0 ≤ pos < MAX_FILE_SIZE → file_byte fs' j pos = file_byte fs j pos.
Proof.
  intros Hev Hj Hdis Hp. unfold file_byte.
  rewrite (evolves_imap _ _ _ _ _ _ Hev Hj Hdis). case_decide as Hb; [done|].
  f_equal. eapply evolves_content; [done..|]. split; [done|]. right.
  exists (pos / BLOCK_SIZE). by split; [apply pos_block_range|].
Qed.

Lemma evolves_disjoint fs i fs' i' j :
  geom_ok fs → evolves fs i fs' i' → inode_wf fs j → disjoint_files fs i j →
  disjoint_files fs' i' j.
Proof.
  intros Hg Hev Hj Hdis b Hb Hjb. apply (evolves_owned_other _ _ _ _ _ _ Hev Hj Hdis) in Hjb.
  destruct (ev_owned _ _ _ _ Hev _ Hb) as [?|[_ Hf]]; [by apply (Hdis b)|].
  destruct Hjb as [Hb0 [->|(k&Hk&<-)]].
  - destruct (wf_indirect _ _ Hj Hb0) as (_&?&_). congruence.
  - destruct (wf_block _ _ Hj k Hk Hb0). congruence.
Qed.

(** ** Termination *)

Lemma fs_read_ends fs b : fs_read b fs ≠ Diverge.
Proof.
  unfold fs_read. pose proof (blk_read_ends (fs_disk fs) (fs_dev fs) b).
  by destruct (blk_read _ _ _ _).
Qed.

Lemma fs_write_ends fs b buf : (fs_write b buf fs).1 ≠ Diverge.
Proof.
  unfold fs_write. pose proof (blk_write_ends (fs_disk fs) (fs_dev fs) b buf) as He.
  destruct (blk_write _ _ _ _) as [o d]. by destruct o.
Qed.

Lemma scan_free_ends want m bits : scan_free want m bits ≠ Diverge.
Proof. induction bits as [|x bits IH]; simpl; [done|]. by repeat case_match. Qed.

Lemma alloc_block_ends fs : (alloc_block fs).1 ≠ Diverge.
Proof.
  unfold alloc_block. case_decide; [done|]. apply sbind_not_diverge; [apply scan_free_ends|].
  intros b fs1. apply sbind_not_diverge; [|done]. by destruct (bitmap_update _ _ _).
Qed.

Lemma alloc_inode_block_ends i k fs : (alloc_inode_block i k fs).1 ≠ Diverge.
Proof.
  unfold alloc_inode_block. case_decide.
  { apply sbind_not_diverge; [apply alloc_block_ends|done]. }
  case_decide; [done|]. apply sbind_not_diverge.
  - case_decide; [|done]. apply sbind_not_diverge; [apply alloc_block_ends|].
    intros b fs1. apply sbind_not_diverge; [apply fs_write_ends|done].
  - intros i1 fs1. apply sbind_not_diverge; [apply alloc_block_ends|]. intros b fs2.
    apply sbind_not_diverge; [apply fs_read_ends|]. intros buf fs3.
    apply sbind_not_diverge; [apply fs_write_ends|done].
Qed.

Lemma chunk_progress len off pos : 0 ≤ off < len →
  0 < Z.min (len - off) (BLOCK_SIZE - pos mod BLOCK_SIZE) ≤ len - off.
Proof.
  intros. change BLOCK_SIZE with 512. pose proof (Z.mod_pos_bound pos 512 ltac:(lia)). lia.
Qed.

Lemma write_loop_ends fuel i offset written data fs :
  0 ≤ written → (Z.to_nat (Z.of_nat (length data) - written) < fuel)%nat →
  (write_loop fuel i offset written data fs).1 ≠ Diverge.
Proof.
  revert i written fs. induction fuel as [|fuel IH]; intros i written fs Hw Hf; [lia|].
  cbn [write_loop]. case_decide as Hlt; [|done].
  apply sbind_not_diverge; [apply get_inode_block_terminates; intros; apply fs_read_ends|].
  intros b0 fs1. apply sbind_not_diverge.
  { case_decide; [|done]. apply sbind_not_diverge; [apply alloc_inode_block_ends|].
    intros p fs2. apply sbind_not_diverge; [apply fs_write_ends|done]. }
  intros p fs2. apply sbind_not_diverge; [apply fs_read_ends|]. intros buf fs3.
  apply sbind_not_diverge; [apply fs_write_ends|]. intros [] fs4.
  pose proof (chunk_progress (Z.of_nat (length data)) written (wrap64 (offset + written))
    ltac:(lia)).
  apply IH; lia.
Qed.

Lemma read_loop_ends fuel i offset to_read so_far buf fs :
  0 ≤ so_far → (Z.to_nat (to_read - so_far) < fuel)%nat →
  read_loop fuel i offset to_read so_far buf fs ≠ Diverge.
Proof.
  revert so_far buf. induction fuel as [|fuel IH]; intros so_far buf Hs Hf; [lia|].
  cbn [read_loop]. case_decide as Hlt; [|done].
  pose proof (get_inode_block_terminates fs i
    (wrap32 (wrap64 (offset + so_far) / BLOCK_SIZE)) (λ b, fs_read_ends fs b)) as He.
  destruct (get_inode_block _ _ _) as [b| | |]; try done. cbn [obind].
  pose proof (chunk_progress to_read so_far (wrap64 (offset + so_far)) ltac:(lia)).
  case_decide; [apply IH; lia|]. pose proof (fs_read_ends fs b) as Hr.
  destruct (fs_read _ _); try done. apply IH; lia.
Qed.

Lemma write_inode_data_ends ticks i offset data fs :
  (write_inode_data ticks i offset data fs).1 ≠ Diverge.
Proof.
  unfold write_inode_data. case_match; [done|].
  apply sbind_not_diverge; [apply write_loop_ends; lia|done].
Qed.

Lemma read_inode_data_ends n offset buf fs : read_inode_data n offset buf fs ≠ Diverge.
Proof.
  unfold read_inode_data, read_inode. case_decide; [done|].
  pose proof (fs_read_ends fs (inode_block (sb_inode_table_start (fs_sb fs)) n)) as Hr.
  destruct (fs_read _ _) as [b| | |]; try done. cbn [obind].
  case_match; [done|]. case_decide; [done|].
  match goal with |- obind ?m _ ≠ _ => assert (m ≠ Diverge) as He end.
  { apply read_loop_ends; lia. }
  destruct (read_loop _ _ _ _ _ _ _); done.
Qed.

(** ** Functional behaviour *)

(** The bytes of a file after [data] has been written at [off]. *)
Definition overlay (f : Z → Z) (off : Z) (data : bytes) (pos : Z) : Z :=
  if decide (off ≤ pos < off + Z.of_nat (length data))
  then data !!! Z.to_nat (pos - off) else f pos.

(** [i'] is [i] up to pointers, size and modification time. *)
Definition same_attrs i i' : Prop :=
  i_type i' = i_type i ∧ i_pad i' = i_pad i ∧ i_mode i' = i_mode i ∧ i_uid i' = i_uid i ∧
  i_gid i' = i_gid i ∧ i_reserved i' = i_reserved i.

Lemma write_inode_data_Ok ticks i off data fs i' n fs' :
  geom_ok fs → inode_wf fs i → 0 ≤ off → 0 ≤ i_size i → off + Z.of_nat (length data) ≤ MAX_OFFSET →
  write_inode_data ticks i off data fs = (Ok (i', n), fs') →
  (is_file i ∨ is_dir i) ∧ n = Z.of_nat (length data) ∧ same_attrs i i' ∧
  i_size i' = Z.max (i_size i) (off + n) ∧
  i_mtime i' = (if decide (0 < n) then wrap32 ticks else i_mtime i) ∧
  inode_wf fs' i' ∧
  (∃ i1, evolves fs i fs' i1 ∧ i_direct i' = i_direct i1 ∧ i_indirect i' = i_indirect i1) ∧
  grows fs i fs' i' ∧
  (∀ pos, off ≤ pos < off + n → imap fs' i' (pos / BLOCK_SIZE) ≠ 0) ∧
  (0 < n → off + n ≤ MAX_FILE_SIZE) ∧
  ∀ pos, 0 ≤ pos < MAX_FILE_SIZE →
    file_byte fs' i' pos = overlay (file_byte fs i) off data pos.
Proof.
  intros Hg Hwf Ho Hs Hmax. unfold write_inode_data. case_match eqn:Ht; [done|].
  intros (i1&fs1&Hl&Hrest)%sbind_Ok_inv. injection Hrest as <- <- <-.
  destruct (write_loop_Ok _ _ _ _ _ _ _ _ Hg Hwf Ho (Z.le_refl 0) Hmax Hl)
    as (Hwf1&Hev&Hgr&Hmapd&Hfit&Hb).
  rewrite wrap_small by (unfold MAX_OFFSET in Hmax; change BLOCK_SIZE with 512 in Hmax; lia).
  destruct (ev_meta _ _ _ _ Hev) as (M1&M2&M3&M4&M5&M6&M7&M8).
  set (i2 := if decide (i_size i1 < _) then _ else _).
  assert (i_direct i2 = i_direct i1 ∧ i_indirect i2 = i_indirect i1) as [Hd Hi]
    by (unfold i2; by case_decide).
  assert (i_size i2 = Z.max (i_size i) (off + Z.of_nat (length data))) as Hsz
    by (unfold i2; case_decide; simpl; lia).
  set (i3 := if decide (0 < _) then _ else _).
  assert (i_direct i3 = i_direct i1 ∧ i_indirect i3 = i_indirect i1) as [Hd3 Hi3]
    by (unfold i3; case_decide; simpl; by rewrite ?Hd, ?Hi).
  assert (∀ k, imap fs1 i3 k = imap fs1 i1 k) as Hm.
  { intros k. unfold imap. by rewrite Hd3, Hi3. }
  split_and!.
  - destruct (is_file i), (is_dir i); simpl in Ht; auto. done.
  - done.
  - unfold i3, i2. repeat case_decide; by repeat split.
  - unfold i3. case_decide; simpl; exact Hsz.
  - unfold i3, i2, now_ticks. repeat case_decide; simpl; done.
  - destruct Hwf1 as [W1 W2 W3 W4]. split; [by rewrite Hd3|..].
    + intros k Hk. rewrite Hm. auto.
    + intros k1 k2. rewrite !Hm. auto.
    + rewrite Hi3. intros Hi0. destruct (W4 Hi0) as (?&?&?). split_and!; [done..|].
      intros k. rewrite Hm. auto.
  - eauto.
  - intros k Hk Hk0. rewrite Hm. by apply Hgr.
  - intros pos Hpos. rewrite Hm. apply Hmapd. lia.
  - lia.
  - intros pos Hpos. unfold overlay. unfold file_byte at 1. rewrite Hm.
    fold (file_byte fs1 i1 pos). rewrite Hb by done. by rewrite Z.add_0_r.
Qed.

(** ** The whole volume

    [live]: the inode slots in use on disk.  [vol_ok]: every live inode is
    well formed and no two share a block. *)
Definition live fs n : Prop :=
  0 < n < sb_inode_count (fs_sb fs) ∧ i_type (disk_inode fs n) ≠ 0.

Record vol_ok fs : Prop := {
  vol_geom : geom_ok fs;
  vol_range n : live fs n → inode_in_range (disk_inode fs n);
  vol_wf n : live fs n → inode_wf fs (disk_inode fs n);
  vol_disjoint n m : live fs n → live fs m → n ≠ m →
    disjoint_files fs (disk_inode fs n) (disk_inode fs m);
  vol_counted : counted fs;
}.

(** What a user sees of file [n]: kind, size, bytes. *)
Definition file_type fs n : Z := i_type (disk_inode fs n).
Definition file_size fs n : Z := i_size (disk_inode fs n).
Definition file_data fs n : Z → Z := file_byte fs (disk_inode fs n).

(** File [m] is untouched: inode, block map and bytes. *)
Definition kept fs fs' m : Prop :=
  disk_inode fs' m = disk_inode fs m ∧
  (∀ k, imap fs' (disk_inode fs m) k = imap fs (disk_inode fs m) k) ∧
  ∀ pos, 0 ≤ pos < MAX_FILE_SIZE → file_data fs' m pos = file_data fs m pos.

(** What an operation on inode [n] leaves alone. *)
Definition others_kept fs fs' n : Prop :=
  same_geom fs fs' ∧
  (∀ m, 0 ≤ m < sb_inode_count (fs_sb fs) → m ≠ n → disk_inode fs' m = disk_inode fs m) ∧
  ∀ m, live fs m → m ≠ n → kept fs fs' m.

Lemma kept_trans fs1 fs2 fs3 m : kept fs1 fs2 m → kept fs2 fs3 m → kept fs1 fs3 m.
Proof.
  intros (Hd1&Hi1&Hf1) (Hd2&Hi2&Hf2). split_and!.
  - congruence.
  - intros k. rewrite <-Hi1, <-Hd1. apply Hi2.
  - intros pos Hpos. by rewrite Hf2, Hf1.
Qed.

Lemma same_geom_count fs fs' : same_geom fs fs' →
  sb_inode_count (fs_sb fs') = sb_inode_count (fs_sb fs).
Proof. intros Hs. unfold same_geom in Hs. destruct_and!. lia. Qed.

(** A volume in which only inode [n] has changed, as [write_inode] leaves it:
    [fs1] is the state in which the new inode [i'] was still in memory. *)
Lemma owned_data_block fs i b : inode_wf fs i → owned fs i b → is_data_block fs b.
Proof.
  intros Hwf [Hb [->|(k&Hk&<-)]].
  - by destruct (wf_indirect _ _ Hwf Hb).
  - by destruct (wf_block _ _ Hwf k Hk Hb).
Qed.

Lemma evolves_disk_inode fs i fs' i' m :
  geom_ok fs → inode_wf fs i → evolves fs i fs' i' → 0 ≤ m < sb_inode_count (fs_sb fs) →
  disk_inode fs' m = disk_inode fs m.
Proof.
  intros Hg Hwf Hev Hm. unfold disk_inode.
  pose proof (ev_geom _ _ _ _ Hev) as (_&_&_&_&_&_&_&->&_).
  pose proof (inode_block_bounds fs m Hg Hm) as Hb.
  rewrite (ev_frame _ _ _ _ Hev); [done| |left; lia].
  intros Ho%owned_data_block; [|done]. destruct Ho. lia.
Qed.

(** The block map only depends on the pointers and the data blocks. *)
Definition same_data fs fs' : Prop :=
  (∀ b, sb_data_start (fs_sb fs) ≤ b → content fs' b = content fs b) ∧
  fs_bbm fs' = fs_bbm fs ∧ same_geom fs fs'.

Lemma same_data_imap fs fs' i i' k :
  inode_wf fs i → same_data fs fs' → i_direct i' = i_direct i → i_indirect i' = i_indirect i →
  imap fs' i' k = imap fs i k.
Proof.
  intros Hwf (Hc&_) Hd Hi. unfold imap. rewrite Hd, Hi. case_decide; [done|].
  case_decide as Hi0; [done|]. f_equal. apply Hc.
  by destruct (wf_indirect _ _ Hwf Hi0) as ([??]&_).
Qed.

Lemma same_data_owned fs fs' i i' b :
  inode_wf fs i → same_data fs fs' → i_direct i' = i_direct i → i_indirect i' = i_indirect i →
  owned fs' i' b ↔ owned fs i b.
Proof.
  intros Hwf Hs Hd Hi. unfold owned. rewrite Hi.
  by setoid_rewrite (same_data_imap _ _ _ _ _ Hwf Hs Hd Hi).
Qed.

Lemma same_data_wf fs fs' i i' :
  inode_wf fs i → same_data fs fs' → i_direct i' = i_direct i → i_indirect i' = i_indirect i →
  inode_wf fs' i'.
Proof.
  intros Hwf Hs Hd Hi. pose proof (λ k, same_data_imap _ _ _ _ k Hwf Hs Hd Hi) as Hm.
  destruct Hs as (_&Hbbm&Hs).
  assert (∀ l, block_free fs' l = block_free fs l) as Hf
    by (intros; unfold block_free; by rewrite Hbbm).
  destruct Hwf as [W1 W2 W3 W4]. split; [by rewrite Hd|..].
  - intros k. rewrite Hm, Hf, (is_data_block_same _ _ _ Hs). auto.
  - intros k1 k2. rewrite !Hm. auto.
  - rewrite Hi, Hf, (is_data_block_same _ _ _ Hs). intros Hi0.
    destruct (W4 Hi0) as (?&?&?). split_and!; [done..|]. intros k. rewrite Hm. auto.
Qed.

Lemma same_data_file_byte fs fs' i i' pos :
  inode_wf fs i → same_data fs fs' → i_direct i' = i_direct i → i_indirect i' = i_indirect i →
  0 ≤ pos < MAX_FILE_SIZE → file_byte fs' i' pos = file_byte fs i pos.
Proof.
  intros Hwf Hs Hd Hi Hp. unfold file_byte. rewrite (same_data_imap _ _ _ _ _ Hwf Hs Hd Hi).
  case_decide as Hb; [done|]. f_equal. apply Hs.
  apply pos_block_range in Hp. by destruct (wf_block _ _ Hwf _ Hp Hb) as [[? _] _].
Qed.

(** The pointers of a well-formed block map fit in the disk format. *)
Lemma wf_pointers_u32 fs i :
  geom_ok fs → inode_wf fs i → Forall u32_ok (i_direct i) ∧ u32_ok (i_indirect i).
Proof.
  intros Hg Hwf. pose proof (geom_total _ Hg) as Ht. pose proof (geom_data_pos _ Hg) as Hpos.
  assert (∀ b, is_data_block fs b → u32_ok b) as Hu.
  { intros b [??]. unfold u32_ok. change (256 ^ 4) with (2 ^ 32). lia. }
  assert (u32_ok 0) as Hz by (unfold u32_ok; lia). split.
  - apply Forall_lookup. intros k b Hk. pose proof (lookup_lt_Some _ _ _ Hk) as Hlt.
    rewrite (wf_len _ _ Hwf) in Hlt.
    assert (imap fs i (Z.of_nat k) = b) as Hm.
    { unfold imap. change DIRECT_PTRS with 9. rewrite decide_True by lia.
      rewrite Nat2Z.id. by apply list_lookup_total_correct. }
    destruct (decide (b = 0)) as [->|Hb]; [done|]. apply Hu. rewrite <-Hm.
    apply (wf_block _ _ Hwf); [|congruence]. unfold MAX_FILE_BLOCKS.
    change DIRECT_PTRS with 9. change PTRS_PER_BLOCK with 128. lia.
  - destruct (decide (i_indirect i = 0)) as [->|Hi]; [done|]. apply Hu.
    by destruct (wf_indirect _ _ Hwf Hi).
Qed.

(** Storing the inode an operation has worked on.  [i0] is the inode it started
    from (that of slot [n], or a new one without blocks). *)
Lemma store_inode_vol fs n i0 fs1 i1 i' fs' :
  vol_ok fs → 0 ≤ n → inode_wf fs i0 →
  (∀ m, live fs m → m ≠ n → disjoint_files fs i0 (disk_inode fs m)) →
  evolves fs i0 fs1 i1 → inode_wf fs1 i1 → inode_in_range i' →
  i_direct i' = i_direct i1 → i_indirect i' = i_indirect i1 →
  write_inode n i' fs1 = (Ok tt, fs') →
  vol_ok fs' ∧ 0 < n < sb_inode_count (fs_sb fs) ∧
  fs_ibm fs' = fs_ibm fs ∧ same_geom fs fs' ∧
  (∀ m, 0 ≤ m < sb_inode_count (fs_sb fs) →
     disk_inode fs' m = if decide (m = n) then i' else disk_inode fs m) ∧
  (∀ pos, 0 ≤ pos < MAX_FILE_SIZE → file_byte fs' i' pos = file_byte fs1 i1 pos) ∧
  (∀ m, live fs m → m ≠ n → kept fs fs' m).
Proof.
  intros [Hg Hrange Hwfs Hdis Hcnt] Hn Hwf0 Hdis0 Hev Hwf1 Hr' Hd Hi Hw.
  pose proof (ev_geom _ _ _ _ Hev) as Hs1. pose proof (geom_ok_same _ _ Hs1 Hg) as Hg1.
  apply write_inode_Ok in Hw as (Hn1&Hc&Hdisk&Hbbm&Hibm&Hsb&Hs2); [|done..].
  assert (same_geom fs fs') as Hs by (by etrans).
  assert (sb_inode_count (fs_sb fs1) = sb_inode_count (fs_sb fs)) as Hcount
    by (unfold same_geom in Hs1; destruct_and!; lia).
  rewrite Hcount in Hn1, Hdisk.
  assert (same_data fs1 fs') as Hsd by done.
  assert (∀ m, 0 ≤ m < sb_inode_count (fs_sb fs) →
    disk_inode fs' m = if decide (m = n) then i' else disk_inode fs m) as Hdisk'.
  { intros m Hm. rewrite Hdisk by done. case_decide; [done|].
    by eapply evolves_disk_inode. }
  assert (∀ m, live fs' m → m ≠ n → live fs m) as Hlive.
  { intros m [Hm Ht] Hne. assert (sb_inode_count (fs_sb fs') = sb_inode_count (fs_sb fs)) as Hc'
      by (unfold same_geom in Hs; destruct_and!; lia). rewrite Hc' in Hm. split; [done|].
    rewrite Hdisk', decide_False in Ht by (done || lia). done. }
  assert (∀ m, live fs m → m ≠ n → disk_inode fs' m = disk_inode fs m) as Hother.
  { intros m [Hm _] Hne. by rewrite Hdisk', decide_False by (done || lia). }
  assert (∀ m, live fs m → m ≠ n → inode_wf fs1 (disk_inode fs m)) as Hwfm by
    (intros m Hm Hne; eapply (evolves_wf_other fs i0); eauto).
  assert (inode_wf fs' i') as Hwf' by (by eapply same_data_wf).
  split_and!; try done; try lia.
  - split.
    + by eapply geom_ok_same.
    + intros m Hm. destruct (decide (m = n)) as [->|Hne].
      * by rewrite Hdisk', decide_True by (done || lia).
      * rewrite Hother by auto. auto.
    + intros m Hm. destruct (decide (m = n)) as [->|Hne].
      * by rewrite Hdisk', decide_True by (done || lia).
      * rewrite Hother by auto. apply (same_data_wf fs1 fs' (disk_inode fs m)); auto.
    + assert (∀ m, live fs' m → m ≠ n → disjoint_files fs' i' (disk_inode fs m)) as Hnm.
      { intros m Hm Hne b Hb1 Hb2.
        apply (same_data_owned fs1 fs' i1) in Hb1; [|done..].
        apply (same_data_owned fs1 fs' (disk_inode fs m)) in Hb2; [|auto..].
        eapply (evolves_disjoint fs i0 fs1 i1 (disk_inode fs m)); eauto. }
      intros m1 m2 Hm1 Hm2 Hne.
      destruct (decide (m1 = n)) as [->|H1]; [|destruct (decide (m2 = n)) as [->|H2]].
      * rewrite Hdisk', decide_True by (done || lia). rewrite Hother by auto. auto.
      * rewrite (Hdisk' n), decide_True by (done || lia). rewrite Hother by auto.
        intros b Hb1 Hb2. by eapply (Hnm m1).
      * rewrite !Hother by auto. intros b Hb1 Hb2.
        apply (same_data_owned fs1 fs' (disk_inode fs m1)) in Hb1; [|auto..].
        apply (same_data_owned fs1 fs' (disk_inode fs m2)) in Hb2; [|auto..].
        apply (evolves_owned_other fs i0 fs1 i1) in Hb1; [|auto..].
        apply (evolves_owned_other fs i0 fs1 i1) in Hb2; [|auto..].
        by eapply (Hdis m1 m2); auto.
    + apply (ev_counted _ _ _ _ Hev) in Hcnt. revert Hcnt. unfold counted. rewrite Hsb.
      intros ->. apply count_if_ext. intros b _. unfold block_free. by rewrite Hbbm.
  - rewrite Hibm. apply Hev.
  - intros pos Hpos. by apply same_data_file_byte.
  - intros m Hm Hne. split_and!; [by apply Hother| |].
    + intros k. rewrite (same_data_imap fs1 fs' (disk_inode fs m)) by auto.
      apply (evolves_imap fs i0 fs1 i1); auto.
    + intros pos Hpos. unfold file_data. rewrite Hother by done.
      rewrite (same_data_file_byte fs1 fs' (disk_inode fs m)) by auto.
      apply (evolves_file_byte_other fs i0 fs1 i1); auto.
Qed.
End io.

(** ** A decision procedure for the volume invariant

    [fsck] evaluates [vol_ok] on a concrete volume; [fsck_sound] says it can be
    trusted.  The witnesses of the NextFS files use it on the RAM disk volume
    [small_fs], a 40-block device with a root directory and two files. *)

From S2P Require Import NextfsDir.

Section fsck.
Context {D : Type} `{BlockDev D}.
Implicit Types (fs : nextfs D) (i : inode).

(** The blocks of an inode, in the order of the block map. *)
Definition blocks_of fs i : list Z :=
  filter (λ b, b ≠ 0) (imap fs i <$> seqZ 0 MAX_FILE_BLOCKS) ++
  (if decide (i_indirect i = 0) then [] else [i_indirect i]).

Definition live_inodes fs : list Z :=
  filter (λ n, i_type (disk_inode fs n) ≠ 0) (seqZ 1 (sb_inode_count (fs_sb fs) - 1)).

Definition geom_check fs : bool :=
  let sb := fs_sb fs in
  match blk_list (fs_disk fs) !! fs_dev fs with
  | Some d => bool_decide (di_block_size d = 512 ∧ sb_total_blocks sb ≤ di_block_count d)
  | None => false
  end &&
  bool_decide (0 < sb_inode_table_start sb) && bool_decide (0 ≤ sb_inode_count sb) &&
  bool_decide (sb_inode_table_start sb + (sb_inode_count sb + 7) / 8 ≤ sb_data_start sb) &&
  bool_decide (sb_data_start sb ≤ sb_total_blocks sb < 2 ^ 32) &&
  bool_decide (sb_total_blocks sb ≤ 8 * Z.of_nat (length (fs_bbm fs))) &&
  bool_decide (sb_inode_count sb ≤ 8 * Z.of_nat (length (fs_ibm fs))).

Definition inode_range_check (i : inode) : bool :=
  bool_decide (0 ≤ i_type i < 256) && bool_decide (0 ≤ i_pad i < 256) &&
  bool_decide (0 ≤ i_mode i < 256 ^ 2) && bool_decide (0 ≤ i_size i < 256 ^ 8) &&
  bool_decide (0 ≤ i_uid i < 256 ^ 2) && bool_decide (0 ≤ i_gid i < 256 ^ 2) &&
  bool_decide (0 ≤ i_mtime i < 256 ^ 4) && bool_decide (length (i_direct i) = 9%nat) &&
  forallb (λ p, bool_decide (0 ≤ p < 256 ^ 4)) (i_direct i) &&
  bool_decide (0 ≤ i_indirect i < 256 ^ 4) && bool_decide (length (i_reserved i) = 4%nat).

Definition block_check fs (b : Z) : bool :=
  bool_decide (sb_data_start (fs_sb fs) ≤ b < sb_total_blocks (fs_sb fs)) &&
  negb (block_free fs b).

Definition fsck fs : bool :=
  let live := live_inodes fs in
  let blocks := mjoin ((λ n, blocks_of fs (disk_inode fs n)) <$> live) in
  geom_check fs &&
  forallb (λ n, inode_range_check (disk_inode fs n)) live &&
  forallb (block_check fs) blocks && bool_decide (NoDup blocks) &&
  bool_decide (sb_free_blocks (fs_sb fs) = count_if (block_free fs)
    (seqZ (sb_data_start (fs_sb fs)) (sb_total_blocks (fs_sb fs) - sb_data_start (fs_sb fs)))).

Lemma geom_check_sound fs : geom_check fs = true → geom_ok fs.
Proof.
  unfold geom_check. rewrite !andb_true_iff. intros [[[[[[H1 H2] H3] H4] H5] H6] H7].
  rewrite bool_decide_eq_true in H2, H3, H4, H5, H6, H7.
  destruct (blk_list _ !! _) as [d|] eqn:Hd; [|done]. rewrite bool_decide_eq_true in H1.
  split; try done. exists (di_block_count d). unfold has_device. naive_solver.
Qed.

Lemma inode_range_check_sound i : inode_range_check i = true → inode_in_range i.
Proof.
  unfold inode_range_check. rewrite !andb_true_iff, !bool_decide_eq_true, forallb_elem.
  unfold inode_in_range, u32_ok. intros. destruct_and!. split_and!; try done; try lia.
  apply Forall_forall. intros p Hp. eapply bool_decide_eq_true; eauto.
Qed.

Lemma elem_of_blocks_of fs i b : owned fs i b ↔ b ∈ blocks_of fs i.
Proof.
  unfold owned, blocks_of. rewrite elem_of_app, list_elem_of_filter, list_elem_of_fmap.
  setoid_rewrite elem_of_seqZ. split.
  - intros [Hb [->|(k&Hk&<-)]]; [|eauto 6].
    right. rewrite decide_False by done. by left.
  - intros [[Hb (k&->&Hk)]|Hi]; [eauto 6|]. case_decide; [set_solver|].
    apply list_elem_of_singleton in Hi as ->. auto.
Qed.

Lemma NoDup_filter_inj (l : list Z) (P : Z → Prop) `{∀ x, Decision (P x)} j k x :
  NoDup (filter P l) → P x → l !! j = Some x → l !! k = Some x → j = k.
Proof.
  revert j k. induction l as [|y l IH]; intros j k Hnd Hx Hj Hk; [done|].
  assert (NoDup (filter P l) ∧ (P y → y ∉ l)) as [Hnd' Hy].
  { destruct (decide (P y)) as [Hp|Hp].
    - rewrite filter_cons_True in Hnd by done. apply NoDup_cons in Hnd as [Hn Hnd].
      split; [done|]. intros _ Hin. by apply Hn, list_elem_of_filter.
    - rewrite filter_cons_False in Hnd by done. by split. }
  destruct j as [|j], k as [|k]; simplify_eq/=.
  - done.
  - destruct (Hy Hx). by eapply list_elem_of_lookup_2.
  - destruct (Hy Hx). by eapply list_elem_of_lookup_2.
  - f_equal. eauto.
Qed.

Lemma blocks_of_wf fs i :
  length (i_direct i) = 9%nat → Forall (λ b, block_check fs b = true) (blocks_of fs i) →
  NoDup (blocks_of fs i) → inode_wf fs i.
Proof.
  intros Hlen Hall Hnd. rewrite Forall_forall in Hall.
  assert (∀ b, owned fs i b → is_data_block fs b ∧ block_free fs b = false) as Hb.
  { intros b Ho%elem_of_blocks_of. apply Hall, andb_true_iff in Ho as [H1 H2].
    rewrite bool_decide_eq_true in H1. by rewrite negb_true_iff in H2. }
  apply NoDup_app in Hnd as (Hnd&Hind&_). split; [done| | |].
  - intros k Hk Hk0. apply Hb. split; eauto.
  - intros j k Hj Hk Hj0 Heq.
    assert (∀ l, 0 ≤ l < MAX_FILE_BLOCKS →
      (imap fs i <$> seqZ 0 MAX_FILE_BLOCKS) !! Z.to_nat l = Some (imap fs i l)) as Hl.
    { intros l Hl. rewrite list_lookup_fmap.
      assert (seqZ 0 MAX_FILE_BLOCKS !! Z.to_nat l = Some l) as -> by (apply lookup_seqZ; lia).
      done. }
    assert (Z.to_nat j = Z.to_nat k); [|lia].
    eapply (NoDup_filter_inj _ (λ b, b ≠ 0) _ _ (imap fs i j)); [done|done|by apply Hl|].
    rewrite Heq. by apply Hl.
  - intros Hi. destruct (Hb (i_indirect i)); [split; auto|]. split_and!; [done..|].
    intros k Hk He. apply (Hind (imap fs i k)).
    + apply list_elem_of_filter. split; [congruence|]. apply list_elem_of_fmap.
      exists k. split; [done|]. by apply elem_of_seqZ.
    + rewrite decide_False by done. rewrite He. by left.
Qed.

Lemma NoDup_mjoin_elem {A} (f : Z → list A) ls n :
  NoDup (mjoin (f <$> ls)) → n ∈ ls → NoDup (f n).
Proof.
  induction ls as [|x ls IH]; simpl; [set_solver|].
  intros (?&?&?)%NoDup_app [->|?]%elem_of_cons; auto.
Qed.

Lemma NoDup_mjoin_disjoint {A} (f : Z → list A) ls n m x :
  NoDup (mjoin (f <$> ls)) → n ∈ ls → m ∈ ls → n ≠ m → x ∈ f n → x ∈ f m → False.
Proof.
  induction ls as [|y ls IH]; simpl; [set_solver|].
  intros (_&Hd&Hnd)%NoDup_app Hn Hm Hne Hxn Hxm.
  assert (∀ k, k ∈ ls → x ∈ f k → x ∈ mjoin (f <$> ls)) as Hin.
  { intros k Hk Hx. apply list_elem_of_join. exists (f k). split; [done|].
    by apply list_elem_of_fmap_2. }
  apply elem_of_cons in Hn as [->|Hn]; apply elem_of_cons in Hm as [->|Hm].
  - done.
  - by apply (Hd x Hxn), (Hin m).
  - by apply (Hd x Hxm), (Hin n).
  - by apply IH.
Qed.

Lemma fsck_sound fs : fsck fs = true → vol_ok fs.
Proof.
  unfold fsck. set (ls := live_inodes fs). rewrite !andb_true_iff.
  intros [[[[Hg Hr] Hb] Hnd] Hc]. apply geom_check_sound in Hg.
  rewrite bool_decide_eq_true in Hnd, Hc.
  assert (∀ n, live fs n → n ∈ ls) as Hl.
  { intros n [Hn Ht]. apply list_elem_of_filter. split; [done|]. apply elem_of_seqZ. lia. }
  assert (∀ n, live fs n → inode_in_range (disk_inode fs n)) as Hrange.
  { intros n Hn. apply inode_range_check_sound.
    rewrite forallb_elem in Hr. auto. }
  split; [done|done| | |done].
  - intros n Hn. apply blocks_of_wf.
    + by destruct (Hrange n Hn) as (?&?&?&?&?&?&?&?&?).
    + apply Forall_forall. intros b Hin. rewrite forallb_elem in Hb.
      apply Hb, list_elem_of_join. eexists. split; [done|].
      apply list_elem_of_fmap. eauto.
    + eapply (NoDup_mjoin_elem (λ n, blocks_of fs (disk_inode fs n))); eauto.
  - intros n m Hn Hm Hne b Hbn%elem_of_blocks_of Hbm%elem_of_blocks_of.
    apply (NoDup_mjoin_disjoint (λ n, blocks_of fs (disk_inode fs n)) ls n m b); auto.
Qed.
End fsck.

(** ** A small volume *)

(** The 40-block RAM disk, formatted and mounted, with the file [a.txt] (inode
    2, "hello") and the directory [sub] (inode 3) in the root directory. *)
Definition formatted : registry ram := (format 0 ram_registry).2.
Definition small_volume : outcome fs_error (nextfs (registry ram)) :=
  let? fs := mount 0 formatted in
  let '(r, fs') :=
    (let! n := create_file 5 ROOT_INODE (str "a.txt") in
     let! _ := create_dir 6 ROOT_INODE (str "sub") in
     write_at 7 n 0 (str "hello")) fs in
  let? _ := r in Ok fs'.

Definition small_fs : nextfs (registry ram) :=
  outcome_or (NextFS 0 (Superblock 0 0 0 0 0 0 0 0 0 []) [] [] ram_registry) small_volume.

Lemma small_fs_made : small_volume = Ok small_fs.
Proof. vm_compute. reflexivity. Qed.

Lemma small_fs_ok : vol_ok small_fs.
Proof. apply fsck_sound. vm_compute. reflexivity. Qed.
