(* ===== verification/NextfsProps.v ===== *)
(** * NextFS: properties of allocation, writing, reading and truncating *)

From S2P Require Import Prelude Block NextfsLayout NextfsAlloc NextfsFile NextfsDir NextfsSpec NextfsIO.

Section props.
Context {D : Type} `{BlockLaws D}.
Implicit Types (fs : nextfs D) (i j : inode).

Lemma write_at_ends ticks n off data fs : (write_at ticks n off data fs).1 ≠ Diverge.
Proof.
  apply sbind_not_diverge.
  { cbn. unfold read_inode. case_decide; [done|].
    pose proof (fs_read_ends fs (inode_block (sb_inode_table_start (fs_sb fs)) n)).
    by destruct (fs_read _ _). }
  intros i fs1. apply sbind_not_diverge; [apply write_inode_data_ends|].
  intros p fs2. apply sbind_not_diverge; [|done].
  unfold write_inode. case_decide; [done|]. unfold write_inode_raw.
  apply sbind_not_diverge; [apply fs_read_ends|]. intros buf fs3. apply fs_write_ends.
Qed.

Lemma count_free_zero fs :
  count_if (block_free fs) (seqZ (sb_data_start (fs_sb fs))
    (sb_total_blocks (fs_sb fs) - sb_data_start (fs_sb fs))) = 0 ↔
  ∀ b, is_data_block fs b → block_free fs b = false.
Proof. rewrite count_if_zero. by setoid_rewrite elem_of_data_blocks. Qed.

(** The scan of [alloc_block] on a sound geometry: a free data block whose bit
    can be updated, or none is free. *)
Lemma scan_data_blocks fs :
  geom_ok fs →
  match scan_free true (fs_bbm fs) (seqZ (sb_data_start (fs_sb fs))
          (sb_total_blocks (fs_sb fs) - sb_data_start (fs_sb fs))) with
  | Ok b => is_data_block fs b ∧ block_free fs b = true ∧
            is_Some (bitmap_update bit_clear (fs_bbm fs) b)
  | Err e => e = NoSpace ∧ ∀ b, is_data_block fs b → block_free fs b = false
  | _ => False
  end.
Proof.
  intros Hg. set (bits := seqZ _ _).
  pose proof (scan_free_spec true (fs_bbm fs) bits) as Hspec.
  assert (∀ x, x ∈ bits → is_Some (bitmap_get (fs_bbm fs) x)) as Hall.
  { intros x Hx%elem_of_data_blocks. rewrite data_block_bit by done. eauto. }
  destruct (scan_free _ _ _) as [b|e| |]; [| |naive_solver..].
  - destruct (Hspec Hall) as (pre&post&Heq&Hget&_).
    assert (is_data_block fs b) as Hb.
    { apply elem_of_data_blocks. fold bits. rewrite Heq. set_solver. }
    split_and!; [done|unfold block_free; by rewrite Hget|].
    unfold bitmap_get in Hget. unfold bitmap_update.
    destruct (fs_bbm fs !! _); naive_solver.
  - destruct (Hspec Hall) as [-> Hused]. split; [done|]. intros b Hb. unfold block_free.
    rewrite Hused; [done|]. by apply elem_of_data_blocks.
Qed.

(** block allocation is first fit and exact.  On a volume whose free
    counter counts the free data blocks, [alloc_block] either takes the lowest
    free data block - which becomes used, every other bit staying, and the
    counter still counting - or reports [NoSpace] with nothing changed, exactly
    when no data block is free.  It never panics. *)
Theorem alloc_block_spec fs :
  geom_ok fs → counted fs →
  match alloc_block fs with
  | (Ok b, fs') =>
      is_data_block fs b ∧ block_free fs b = true ∧
      (∀ x, sb_data_start (fs_sb fs) ≤ x < b → block_free fs x = false) ∧
      (∀ x, 0 ≤ x → block_free fs' x = if decide (x = b) then false else block_free fs x) ∧
      counted fs' ∧ fs_disk fs' = fs_disk fs
  | (Err e, fs') =>
      e = NoSpace ∧ fs' = fs ∧ ∀ b, is_data_block fs b → block_free fs b = false
  | _ => False
  end.
Proof.
  intros Hg Hc. destruct (alloc_block fs) as [o fs'] eqn:Ha.
  destruct o as [b|e| |] eqn:Ho.
  - apply alloc_block_Ok in Ha as (?&?&?&?&?&?&?&?); [|done]. naive_solver.
  - revert Ha. unfold alloc_block. case_decide as Hz.
    { intros [= <- <-]. split_and!; [done..|]. apply count_free_zero. by rewrite <-Hc. }
    unfold sbind at 1, slift at 1. pose proof (scan_data_blocks fs Hg) as Hspec.
    destruct (scan_free _ _ _) as [b|e'| |]; [|intros [= <- <-]; naive_solver|done|done].
    destruct Hspec as (_&_&m&Hm). cbn in Hm. cbn. by rewrite Hm.
  - exfalso. revert Ha. unfold alloc_block. case_decide as Hz; [done|].
    unfold sbind at 1, slift at 1. pose proof (scan_data_blocks fs Hg) as Hspec.
    destruct (scan_free _ _ _) as [b|e'| |]; [|done..].
    destruct Hspec as (_&_&m&Hm). cbn in Hm. cbn. by rewrite Hm.
  - exfalso. pose proof (alloc_block_ends fs) as He. by rewrite Ha in He.
Qed.

Lemma live_type fs n : live fs n → file_type fs n ≠ 0.
Proof. by intros [_ ?]. Qed.

Lemma read_inode_live fs n i :
  geom_ok fs → 0 ≤ n → read_inode n fs = Ok i → is_file i || is_dir i →
  i = disk_inode fs n ∧ live fs n.
Proof.
  intros Hg Hn Hr Ht. apply read_inode_Ok in Hr as [-> Hn']; [|done..].
  split; [done|]. split; [done|]. unfold is_file, is_dir in Ht.
  intros H0'. rewrite H0' in Ht. done.
Qed.

Lemma same_attrs_range fs i i' :
  geom_ok fs → inode_wf fs i' → inode_in_range i → same_attrs i i' →
  0 ≤ i_size i' < 256 ^ 8 → 0 ≤ i_mtime i' < 256 ^ 4 → inode_in_range i'.
Proof.
  intros Hg Hwf (?&?&?&?&?&?&?&?&?&?&?) (Ht&Hp&Hm&Hu&Hgi&Hr) Hs Hmt.
  destruct (wf_pointers_u32 _ _ Hg Hwf). unfold inode_in_range.
  rewrite Ht, Hp, Hm, Hu, Hgi, Hr. split_and!; try done; try lia. apply Hwf.
Qed.

(** What a successful [write_at] does. *)
Lemma write_at_Ok ticks n off data fs k fs' :
  vol_ok fs → 0 ≤ n → 0 ≤ off → off + Z.of_nat (length data) ≤ MAX_OFFSET →
  write_at ticks n off data fs = (Ok k, fs') →
  vol_ok fs' ∧ live fs n ∧ k = Z.of_nat (length data) ∧ (0 < k → off + k ≤ MAX_FILE_SIZE) ∧
  file_type fs' n = file_type fs n ∧
  file_size fs' n = Z.max (file_size fs n) (off + k) ∧
  (∀ pos, 0 ≤ pos < MAX_FILE_SIZE →
     file_data fs' n pos = overlay (file_data fs n) off data pos) ∧
  ∀ m, live fs m → m ≠ n → kept fs fs' m.
Proof.
  intros Hv Hn Ho Hmax. pose proof (vol_geom _ Hv) as Hg. unfold write_at.
  intros (i&?&Hr&Hrest)%sbind_Ok_inv. injection Hr as Hr <-.
  apply sbind_Ok_inv in Hrest as ([i' k']&fs1&Hw&Hrest).
  apply sbind_Ok_inv in Hrest as ([]&fs2&Hst&Hrest). injection Hrest as <- <-. cbn [fst snd] in *.
  assert (is_file i || is_dir i) as Ht.
  { revert Hw. unfold write_inode_data. by destruct (is_file i), (is_dir i). }
  destruct (read_inode_live _ _ _ Hg Hn Hr Ht) as [-> Hl].
  pose proof (vol_wf _ Hv _ Hl) as Hwf. pose proof (vol_range _ Hv _ Hl) as Hrange.
  assert (0 ≤ i_size (disk_inode fs n) < 256 ^ 8) as Hsz by apply Hrange.
  destruct (write_inode_data_Ok _ _ _ _ _ _ _ _ Hg Hwf Ho (proj1 Hsz) Hmax Hw)
    as (_&->&Hattr&Hsz'&Hmt&Hwf'&(i1&Hev&Hd&Hi)&_&_&Hfit&Hb).
  set (len := Z.of_nat (length data)) in *.
  assert (inode_wf fs1 i1) as Hwf1.
  { apply (same_data_wf fs1 fs1 i'); done. }
  pose proof (geom_ok_same _ _ (ev_geom _ _ _ _ Hev) Hg) as Hg1.
  assert (inode_in_range i') as Hr'.
  { unfold MAX_OFFSET in Hmax. change BLOCK_SIZE with 512 in Hmax.
    eapply same_attrs_range; [done..| |].
    - rewrite Hsz'. lia.
    - rewrite Hmt. case_decide; [apply wrap_bounds; lia|apply Hrange]. }
  destruct (store_inode_vol fs n (disk_inode fs n) fs1 i1 i' fs2)
    as (Hv2&Hn2&_&_&Hdisk&Hbyte&Hother); auto.
  { intros m Hm Hne. by apply (vol_disjoint _ Hv). }
  assert (disk_inode fs2 n = i') as Hdn by (by rewrite Hdisk, decide_True by (done || lia)).
  split_and!; try done.
  - unfold file_type. rewrite Hdn. apply Hattr.
  - unfold file_size. by rewrite Hdn.
  - intros pos Hpos. unfold file_data. rewrite Hdn, Hbyte by done.
    unfold file_byte at 1. unfold imap. rewrite <-Hd, <-Hi.
    change (file_byte fs1 i' pos = overlay (file_byte fs (disk_inode fs n)) off data pos).
    by apply Hb.
Qed.

(** C1: writing implements the abstract file update.  [write_at] (the write
    path of the VFS) always terminates; when it succeeds on a sound volume, the
    whole buffer was written, the file's bytes are the old ones overlaid with
    the buffer at the offset (so a gap past the old end stays as it was), the
    size is the maximum of the old size and the end of the write, every other
    file keeps its inode and its bytes, and the volume is still sound. *)
Theorem write_at_refines ticks n off data fs :
  vol_ok fs → 0 ≤ n → 0 ≤ off → off + Z.of_nat (length data) ≤ MAX_OFFSET →
  (write_at ticks n off data fs).1 ≠ Diverge ∧
  ∀ k fs', write_at ticks n off data fs = (Ok k, fs') →
    vol_ok fs' ∧ k = Z.of_nat (length data) ∧
    file_type fs' n = file_type fs n ∧
    file_size fs' n = Z.max (file_size fs n) (off + k) ∧
    (∀ pos, 0 ≤ pos < MAX_FILE_SIZE →
       file_data fs' n pos = overlay (file_data fs n) off data pos) ∧
    ∀ m, live fs m → m ≠ n → kept fs fs' m.
Proof.
  intros Hv Hn Ho Hmax. split; [apply write_at_ends|]. intros k fs' Hw.
  destruct (write_at_Ok _ _ _ _ _ _ _ Hv Hn Ho Hmax Hw) as (?&_&?&_&?&?&?&?). done.
Qed.

Lemma read_inode_data_Ok n off buf fs k buf' :
  vol_ok fs → 0 ≤ n → 0 ≤ off → off + Z.of_nat (length buf) ≤ MAX_OFFSET →
  read_inode_data n off buf fs = Ok (k, buf') →
  live fs n ∧ file_type fs n = 1 ∧
  k = Z.max 0 (Z.min (Z.of_nat (length buf)) (file_size fs n - off)) ∧
  length buf' = length buf ∧
  ∀ x : nat, buf' !! x = if decide (Z.of_nat x < k)
                   then Some (file_data fs n (off + Z.of_nat x)) else buf !! x.
Proof.
  intros Hv Hn Ho Hmax. pose proof (vol_geom _ Hv) as Hg. unfold read_inode_data.
  intros (i&Hr&Hrest)%obind_Ok_inv. destruct (is_file i) eqn:Ht; [|done]. cbn [negb] in Hrest.
  destruct (read_inode_live _ _ _ Hg Hn Hr) as [-> Hl]; [by rewrite Ht|].
  unfold file_size, file_data, file_type. split; [done|].
  split; [by apply Z.eqb_eq in Ht|].
  remember (i_size (disk_inode fs n)) as sz eqn:Hsz. clear Hsz. case_decide as Heof.
  { injection Hrest as <- <-. split_and!; [lia|done|]. intros j. by rewrite decide_False by lia. }
  apply obind_Ok_inv in Hrest as (b&Hl2&Hrest). injection Hrest as <- <-.
  apply read_loop_Ok in Hl2 as [Hlen Hj]; [|done|apply (vol_wf _ Hv _ Hl)|done|lia..].
  split_and!; [lia|done|]. intros j. rewrite Hj. apply decide_ext. lia.
Qed.

(** C11: reading returns the file.  [read_inode_data] always terminates; when
    it succeeds on a sound volume the inode is a regular file, the count is
    what the buffer and the distance to the end of the file allow (0 at or
    past the end), that many bytes of the buffer are the file's bytes from the
    offset on - zeros where the file is sparse - and the rest of the buffer is
    untouched. *)
Theorem read_inode_data_refines n off buf fs :
  vol_ok fs → 0 ≤ n → 0 ≤ off → off + Z.of_nat (length buf) ≤ MAX_OFFSET →
  read_inode_data n off buf fs ≠ Diverge ∧
  ∀ k buf', read_inode_data n off buf fs = Ok (k, buf') →
    file_type fs n = 1 ∧
    k = Z.max 0 (Z.min (Z.of_nat (length buf)) (file_size fs n - off)) ∧
    length buf' = length buf ∧
    ∀ x : nat, buf' !! x = if decide (Z.of_nat x < k)
                     then Some (file_data fs n (off + Z.of_nat x)) else buf !! x.
Proof.
  intros Hv Hn Ho Hmax. split; [apply read_inode_data_ends|]. intros k buf' Hr.
  by destruct (read_inode_data_Ok _ _ _ _ _ _ Hv Hn Ho Hmax Hr) as [_ ?].
Qed.

(** what is written is read back.  After a successful write of a buffer
    to a regular file, reading the same range fills the reader's buffer with
    exactly those bytes. *)
Theorem write_then_read ticks n off data fs w fs' k buf buf' :
  vol_ok fs → 0 ≤ n → 0 ≤ off → off + Z.of_nat (length data) ≤ MAX_OFFSET →
  write_at ticks n off data fs = (Ok w, fs') → length buf = length data →
  read_inode_data n off buf fs' = Ok (k, buf') →
  k = Z.of_nat (length data) ∧ buf' = data.
Proof.
  intros Hv Hn Ho Hmax Hw Hlen Hr.
  destruct (write_at_Ok _ _ _ _ _ _ _ Hv Hn Ho Hmax Hw) as (Hv'&_&->&Hfit&_&Hsz&Hb&_).
  destruct (read_inode_data_Ok _ _ _ _ _ _ Hv' Hn Ho ltac:(by rewrite Hlen) Hr)
    as (_&_&->&Hl&Hj).
  rewrite Hsz, Hlen in *. split; [lia|]. apply list_eq. intros j. rewrite Hj.
  case_decide as Hd; [|rewrite !lookup_ge_None_2 by lia; done].
  rewrite Hb by lia. unfold overlay. rewrite decide_True by lia.
  rewrite list_lookup_lookup_total_lt by lia. do 2 f_equal. lia.
Qed.
End props.

(** ** Witnesses, on the small volume *)

Example alloc_block_spec_witness :
  match alloc_block small_fs with
  | (Ok b, fs') =>
      is_data_block small_fs b ∧ block_free small_fs b = true ∧
      (∀ x, sb_data_start (fs_sb small_fs) ≤ x < b → block_free small_fs x = false) ∧
      (∀ x, 0 ≤ x → block_free fs' x = if decide (x = b) then false else block_free small_fs x) ∧
      counted fs' ∧ fs_disk fs' = fs_disk small_fs
  | (Err e, fs') =>
      e = NoSpace ∧ fs' = small_fs ∧ ∀ b, is_data_block small_fs b → block_free small_fs b = false
  | _ => False
  end.
Proof. apply (alloc_block_spec small_fs); [apply vol_geom|apply vol_counted]; apply small_fs_ok. Defined.

(** Overwrite the end of "hello" and 700 bytes more: two blocks. *)
Definition long_data : bytes := str "p!" ++ replicate 700 65.

Example write_at_refines_witness :
  (write_at 9 2 3 long_data small_fs).1 = Ok 702 ∧
  (write_at 9 2 3 long_data small_fs).1 ≠ Diverge ∧
  ∀ k fs', write_at 9 2 3 long_data small_fs = (Ok k, fs') →
    vol_ok fs' ∧ k = Z.of_nat (length long_data) ∧
    file_type fs' 2 = file_type small_fs 2 ∧
    file_size fs' 2 = Z.max (file_size small_fs 2) (3 + k) ∧
    (∀ pos, 0 ≤ pos < MAX_FILE_SIZE →
       file_data fs' 2 pos = overlay (file_data small_fs 2) 3 long_data pos) ∧
    ∀ m, live small_fs m → m ≠ 2 → kept small_fs fs' m.
Proof.
  split; [vm_compute; reflexivity|].
  apply (write_at_refines 9 2 3 long_data small_fs); [apply small_fs_ok|lia|lia|].
  vm_compute. intros Hc; discriminate Hc.
Defined.

Example read_inode_data_refines_witness :
  read_inode_data 2 1 (replicate 10 7) small_fs =
    Ok (4, [101; 108; 108; 111; 7; 7; 7; 7; 7; 7]) ∧
  read_inode_data 2 1 (replicate 10 7) small_fs ≠ Diverge ∧
  ∀ k buf', read_inode_data 2 1 (replicate 10 7) small_fs = Ok (k, buf') →
    file_type small_fs 2 = 1 ∧
    k = Z.max 0 (Z.min (Z.of_nat (length (replicate 10 7))) (file_size small_fs 2 - 1)) ∧
    length buf' = length (replicate 10 7) ∧
    ∀ x : nat, buf' !! x = if decide (Z.of_nat x < k)
                     then Some (file_data small_fs 2 (1 + Z.of_nat x)) else replicate 10 7 !! x.
Proof.
  split; [vm_compute; reflexivity|].
  apply (read_inode_data_refines 2 1 (replicate 10 7) small_fs); [apply small_fs_ok|lia|lia|].
  vm_compute. intros Hc; discriminate Hc.
Defined.

(** The volume after that write. *)
Definition after_write : nextfs (registry ram) := (write_at 9 2 3 long_data small_fs).2.

Example write_then_read_witness :
  read_inode_data 2 3 (replicate 702 0) after_write = Ok (702, long_data) ∧
  702 = Z.of_nat (length long_data) ∧ long_data = long_data.
Proof.
  assert (read_inode_data 2 3 (replicate 702 0) after_write = Ok (702, long_data)) as Hr
    by (vm_compute; reflexivity).
  split; [exact Hr|].
  apply (write_then_read 9 2 3 long_data small_fs 702 after_write 702 (replicate 702 0) long_data).
  - apply small_fs_ok.
  - lia.
  - lia.
  - vm_compute. intros Hc; discriminate Hc.
  - unfold after_write. rewrite (surjective_pairing (write_at 9 2 3 long_data small_fs)) at 1.
    f_equal.
  - reflexivity.
  - exact Hr.
Defined.

(** ** Beyond the bounds of the theorems *)

(** The block index is a [u32]: a write at 2^41 lands in block 0. *)
Example offset_wraps :
  let '(r, fs') := write_at 9 2 (2 ^ 41) (str "J") small_fs in
  r = Ok 1 ∧ file_size fs' 2 = 2 ^ 41 + 1 ∧
  (λ p, file_data fs' 2 p) <$> seqZ 0 5 = str "Jello".
Proof. vm_compute. auto. Qed.

(** A write that runs out of space has taken every block it could, and no inode
    points to them. *)
Definition full_write := write_at 9 2 0 (replicate 20000 65) small_fs.
Example failed_write_leaks :
  full_write.1 = Err NoSpace ∧
  disk_inode full_write.2 2 = disk_inode small_fs 2 ∧
  sb_free_blocks (fs_sb small_fs) = 27 ∧ sb_free_blocks (fs_sb full_write.2) = 0.
Proof. vm_compute. auto. Qed.
