(* ===== verification/NextfsFree.v ===== *)
(** * NextFS: giving blocks back

    [frees fs fs' bs]: from [fs] to [fs'] exactly the blocks [bs] became free.
    Truncation and deletion are sums of such steps.  The concrete volumes at
    the end show where truncation is not. *)

From S2P Require Import Prelude Block NextfsLayout NextfsAlloc NextfsFile NextfsDir NextfsSpec NextfsIO.

Section frees.
Context {D : Type} `{BlockLaws D}.
Implicit Types (fs : nextfs D) (i : inode).

Record frees fs fs' (bs : list Z) : Prop := {
  fr_disk : fs_disk fs' = fs_disk fs;
  fr_ibm : fs_ibm fs' = fs_ibm fs;
  fr_geom : same_geom fs fs';
  fr_free b : 0 ≤ b → block_free fs' b = if decide (b ∈ bs) then true else block_free fs b;
  fr_counted : NoDup bs → (∀ b, b ∈ bs → block_free fs b = false) → counted fs → counted fs';
}.

Lemma frees_nil fs : frees fs fs [].
Proof. split; try done.  Qed.

Lemma frees_app fs1 fs2 fs3 bs1 bs2 :
  (∀ b, b ∈ bs2 → 0 ≤ b) → frees fs1 fs2 bs1 → frees fs2 fs3 bs2 → frees fs1 fs3 (bs1 ++ bs2).
Proof.
  intros Hpos [D1 I1 G1 F1 C1] [D2 I2 G2 F2 C2]. split; try congruence.
  - by etrans.
  - intros b Hb. rewrite F2, F1 by done. repeat case_decide; set_solver.
  - intros (Hn1&Hd&Hn2)%NoDup_app Hused Hc. apply C2; [done| |apply C1; set_solver].
    intros b Hb. rewrite F1 by auto. rewrite decide_False by (intros ?; by eapply Hd).
    apply Hused. set_solver.
Qed.

Lemma frees_content fs fs' bs b : frees fs fs' bs → content fs' b = content fs b.
Proof. intros [Hd _ (Hdev&_) _ _]. unfold content. by rewrite Hd, Hdev. Qed.

Lemma frees_imap fs fs' bs i k : frees fs fs' bs → imap fs' i k = imap fs i k.
Proof. intros Hf. unfold imap. by rewrite (frees_content _ _ _ _ Hf). Qed.

Lemma free_block_frees fs b :
  geom_ok fs → is_data_block fs b → ∃ fs', free_block b fs = (Ok tt, fs') ∧ frees fs fs' [b].
Proof.
  intros Hg Hb. destruct (free_block_Ok fs b Hg Hb) as (fs'&Hr&Hf&?&?&?&Hc).
  exists fs'. split; [done|]. split; try done.
  - intros x Hx. rewrite Hf by done. apply decide_ext. set_solver.
  - intros _ Hu Hcnt. apply Hc; [done|]. apply Hu. set_solver.
Qed.

Lemma geom_frees fs fs' bs : geom_ok fs → frees fs fs' bs → geom_ok fs'.
Proof. intros Hg Hf. by eapply geom_ok_same; [apply Hf|]. Qed.

Abbreviation nonzero := (filter (λ b : Z, b ≠ 0)).

Lemma data_blocks_pos fs (bs : list Z) : geom_ok fs →
  (∀ b, b ∈ bs → is_data_block fs b) → ∀ b, b ∈ bs → 0 ≤ b.
Proof. intros Hg Hb b Hin. destruct (Hb b Hin). pose proof (geom_data_pos _ Hg). lia. Qed.

Lemma free_ptrs_frees fs buf ks :
  geom_ok fs → length buf = 512%nat → (∀ k, k ∈ ks → 0 ≤ k < 128) →
  (∀ b, b ∈ nonzero (ptr_at buf <$> ks) → is_data_block fs b) →
  ∃ fs', free_ptrs buf ks fs = (Ok tt, fs') ∧ frees fs fs' (nonzero (ptr_at buf <$> ks)).
Proof.
  intros Hg Hlen. revert fs Hg. induction ks as [|k ks IH]; intros fs Hg Hk Hb.
  { exists fs. split; [done|apply frees_nil]. }
  cbn [free_ptrs fmap list_fmap] in *. pose proof (Hk k ltac:(by left)) as Hk0.
  rewrite decide_False by lia.
  destruct (decide (ptr_at buf k ≠ 0)) as [Hp|Hp].
  - rewrite filter_cons_True in * by done.
    destruct (free_block_frees fs (ptr_at buf k) Hg) as (fs1&Hr&Hf1); [apply Hb; by left|].
    rewrite (sbind_Ok _ _ _ _ _ Hr).
    destruct (IH fs1) as (fs2&Hr2&Hf2); [by eapply geom_frees|set_solver| |].
    { intros b Hin. apply (is_data_block_same _ _ _ (fr_geom _ _ _ Hf1)). apply Hb. by right. }
    exists fs2. split; [done|]. eapply (frees_app _ _ _ [_]); [|done|done].
    apply (data_blocks_pos fs); [done|]. intros b Hin. apply Hb. by right.
  - rewrite filter_cons_False in * by done.
    destruct (IH fs Hg) as (fs2&Hr2&Hf2); [set_solver|done|]. eauto.
Qed.

Lemma free_direct_frees fs i ks :
  geom_ok fs → length (i_direct i) = 9%nat → NoDup ks → (∀ k, k ∈ ks → 0 ≤ k < 9) →
  (∀ b, b ∈ nonzero ((λ k, i_direct i !!! Z.to_nat k) <$> ks) → is_data_block fs b) →
  ∃ d fs', free_direct i ks fs = (Ok (with_direct d i), fs') ∧
    frees fs fs' (nonzero ((λ k, i_direct i !!! Z.to_nat k) <$> ks)) ∧ length d = 9%nat ∧
    ∀ k, 0 ≤ k < 9 → d !!! Z.to_nat k = if decide (k ∈ ks) then 0 else i_direct i !!! Z.to_nat k.
Proof.
  intros Hg. revert i fs Hg. induction ks as [|k ks IH]; intros i fs Hg Hlen Hnd Hk Hb.
  { exists (i_direct i), fs. split_and!; [by destruct i|apply frees_nil|done|].
    intros k _. by rewrite decide_False by set_solver. }
  apply NoDup_cons in Hnd as [Hkn Hnd]. cbn [free_direct fmap list_fmap] in *.
  pose proof (Hk k ltac:(by left)) as Hk0.
  destruct (lookup_lt_is_Some_2 (i_direct i) (Z.to_nat k)) as [b Hd]; [lia|].
  pose proof (list_lookup_total_correct _ _ _ Hd) as Ht. rewrite Ht in Hb |- *.
  rewrite (sbind_Ok _ _ _ b fs) by (unfold slift; by rewrite Hd).
  destruct (decide (b ≠ 0)) as [Hp|Hp].
  - rewrite filter_cons_True in * by done.
    destruct (free_block_frees fs b Hg) as (fs1&Hr&Hf1); [apply Hb; by left|].
    rewrite (sbind_Ok _ _ _ _ _ Hr).
    set (i1 := with_direct (<[Z.to_nat k:=0]> (i_direct i)) i).
    assert (∀ l, l ∈ ks → i_direct i1 !!! Z.to_nat l = i_direct i !!! Z.to_nat l) as Hsame.
    { intros l Hl. simpl. apply list_lookup_total_insert_ne.
      pose proof (Hk l ltac:(by right)). intros He. apply Hkn.
      by replace k with l by lia. }
    assert ((λ k, i_direct i1 !!! Z.to_nat k) <$> ks = (λ k, i_direct i !!! Z.to_nat k) <$> ks) as Hm.
    { apply list_fmap_ext. intros ? l Hl. apply Hsame. by eapply list_elem_of_lookup_2. }
    destruct (IH i1 fs1) as (d&fs2&Hr2&Hf2&Hdl&Hdk).
    + by eapply geom_frees.
    + simpl. by rewrite length_insert.
    + done.
    + set_solver.
    + intros c. rewrite Hm. intros Hin.
      apply (is_data_block_same _ _ _ (fr_geom _ _ _ Hf1)). apply Hb. by right.
    + exists d, fs2. rewrite Hm in Hf2. split_and!; [by rewrite Hr2| |done|].
      * eapply (frees_app _ _ _ [_]); [|done|done].
        apply (data_blocks_pos fs); [done|]. intros c Hin. apply Hb. by right.
      * intros l Hl. rewrite Hdk by done. simpl.
        destruct (decide (l = k)) as [->|Hne].
        -- rewrite (decide_True (P := k ∈ k :: ks)) by (by left).
           rewrite list_lookup_total_insert_eq by lia. by case_decide.
        -- rewrite list_lookup_total_insert_ne by lia. apply decide_ext. set_solver.
  - rewrite filter_cons_False in * by done. apply dec_stable in Hp. rewrite Hp in Ht.
    destruct (IH i fs) as (d&fs2&Hr2&Hf2&Hdl&Hdk); [done|done|done|set_solver|done|].
    exists d, fs2. split_and!; [done|done|done|]. intros l Hl. rewrite Hdk by done.
    destruct (decide (l = k)) as [->|Hne].
    + rewrite (decide_True (P := k ∈ k :: ks)) by (by left). rewrite Ht. by case_decide.
    + apply decide_ext. set_solver.
Qed.

(** ** [free_inode_blocks]: every block of the inode, and only those *)

Lemma blocks_split fs i :
  blocks_of fs i =
    nonzero ((λ k, i_direct i !!! Z.to_nat k) <$> seqZ 0 DIRECT_PTRS) ++
    (if decide (i_indirect i = 0) then [] else
       nonzero (ptr_at (content fs (i_indirect i)) <$> seqZ 0 PTRS_PER_BLOCK) ++
       [i_indirect i]).
Proof.
  unfold blocks_of, MAX_FILE_BLOCKS.
  assert (seqZ 0 (DIRECT_PTRS + PTRS_PER_BLOCK) =
    seqZ 0 DIRECT_PTRS ++ (Z.add DIRECT_PTRS <$> seqZ 0 PTRS_PER_BLOCK)) as -> by reflexivity.
  rewrite fmap_app, filter_app, <-(assoc_L (++)). f_equal.
  rewrite <-list_fmap_compose.
  assert (imap fs i ∘ Z.add DIRECT_PTRS <$> seqZ 0 PTRS_PER_BLOCK =
    (λ k, if decide (i_indirect i = 0) then 0 else ptr_at (content fs (i_indirect i)) k)
      <$> seqZ 0 PTRS_PER_BLOCK) as ->.
  { apply list_fmap_ext. intros ? k Hk. apply lookup_seqZ in Hk. unfold imap. simpl.
    change DIRECT_PTRS with 9. rewrite decide_False by lia.
    case_decide; [done|]. f_equal. lia. }
  case_decide; [|done]. rewrite app_nil_r. reflexivity.
Qed.

Lemma blocks_of_spec fs i b :
  inode_wf fs i → b ∈ blocks_of fs i → is_data_block fs b ∧ block_free fs b = false.
Proof.
  intros Hwf Ho%elem_of_blocks_of. destruct Ho as [Hb [->|(k&Hk&<-)]].
  - by destruct (wf_indirect _ _ Hwf Hb) as (?&?&_).
  - by apply (wf_block _ _ Hwf).
Qed.

#[export] Instance owned_dec fs i b : Decision (owned fs i b).
Proof.
  refine (cast_if (decide (b ∈ blocks_of fs i))); by rewrite elem_of_blocks_of.
Defined.

Lemma NoDup_filter_fmap (f : Z → Z) (P : Z → Prop) `{∀ x, Decision (P x)} ks :
  NoDup ks → (∀ j k, j ∈ ks → k ∈ ks → P (f j) → f j = f k → j = k) → NoDup (filter P (f <$> ks)).
Proof.
  induction 1 as [|k ks Hk Hnd IH]; intros Hinj; [constructor|]. cbn [fmap list_fmap].
  destruct (decide (P (f k))) as [Hp|Hp].
  - rewrite filter_cons_True by done. constructor; [|apply IH; set_solver].
    intros [_ (j&Hj&Hin)%list_elem_of_fmap]%list_elem_of_filter.
    apply Hk. rewrite (Hinj k j); [done|by left|by right|done|done].
  - rewrite filter_cons_False by done. apply IH. set_solver.
Qed.

Lemma blocks_of_NoDup fs i : inode_wf fs i → NoDup (blocks_of fs i).
Proof.
  intros Hwf. apply NoDup_app. split_and!.
  - apply NoDup_filter_fmap; [apply NoDup_seqZ|].
    intros j k Hj%elem_of_seqZ Hk%elem_of_seqZ. apply (wf_inj _ _ Hwf); lia.
  - intros b [Hb (k&->&Hk%elem_of_seqZ)%list_elem_of_fmap]%list_elem_of_filter.
    case_decide as Hi; [set_solver|]. intros He%list_elem_of_singleton.
    destruct (wf_indirect _ _ Hwf Hi) as (_&_&Hd). by apply (Hd k); [lia|].
  - case_decide; [constructor|apply NoDup_singleton].
Qed.

Lemma free_inode_blocks_Ok fs i i' fs' :
  geom_ok fs → inode_wf fs i → free_inode_blocks i fs = (Ok i', fs') →
  frees fs fs' (blocks_of fs i) ∧ same_meta i i' ∧
  i_direct i' = replicate 9 0 ∧ i_indirect i' = 0.
Proof.
  intros Hg Hwf. unfold free_inode_blocks.
  pose proof (blocks_of_spec fs i) as Hall. rewrite blocks_split in *.
  destruct (free_direct_frees fs i (seqZ 0 DIRECT_PTRS)) as (d&fs1&Hr&Hf1&Hdl&Hdk).
  { done. } { apply Hwf. } { apply NoDup_seqZ. }
  { intros k Hk%elem_of_seqZ. change DIRECT_PTRS with 9 in Hk. lia. }
  { intros b Hb. by apply Hall, elem_of_app; [|left]. }
  rewrite (sbind_Ok _ _ _ _ _ Hr).
  assert (d = replicate 9 0) as Hd0.
  { apply list_eq. intros k. destruct (decide (k < 9)%nat).
    - rewrite lookup_replicate_2 by lia. rewrite list_lookup_lookup_total_lt by lia.
      rewrite <-(Nat2Z.id k), Hdk by lia. rewrite decide_True; [done|].
      apply elem_of_seqZ. change DIRECT_PTRS with 9. lia.
    - rewrite !lookup_ge_None_2; [done|simpl; lia|lia]. }
  change (i_indirect (with_direct d i)) with (i_indirect i).
  destruct (decide (i_indirect i ≠ 0)) as [Hi|Hi].
  2: { intros [= <- <-]. apply dec_stable in Hi.
       rewrite decide_True, app_nil_r by done. split_and!; done. }
  rewrite decide_False in * by done.
  intros (buf&?&Hrd&Hrest)%sbind_Ok_inv. injection Hrd as Hrd <-.
  pose proof (geom_frees _ _ _ Hg Hf1) as Hg1.
  apply fs_read_Ok in Hrd as [-> Hlen]; [|done].
  rewrite (frees_content _ _ _ _ Hf1) in *.
  pose proof (is_data_block_same fs fs1) as Hsame1.
  destruct (free_ptrs_frees fs1 (content fs (i_indirect i)) (seqZ 0 PTRS_PER_BLOCK))
    as (fs2&Hr2&Hf2); [done|done|..].
  { intros k Hk%elem_of_seqZ. change PTRS_PER_BLOCK with 128 in Hk. lia. }
  { intros b Hb. apply Hsame1; [apply Hf1|]. apply Hall; [done|].
    apply elem_of_app; right. by apply elem_of_app; left. }
  rewrite (sbind_Ok _ _ _ _ _ Hr2) in Hrest.
  pose proof (geom_frees _ _ _ Hg1 Hf2) as Hg2.
  destruct (free_block_frees fs2 (i_indirect i) Hg2) as (fs3&Hr3&Hf3).
  { apply (is_data_block_same fs1); [apply Hf2|]. apply Hsame1; [apply Hf1|].
    apply Hall; [done|]. apply elem_of_app; right. apply elem_of_app; right.
    by apply list_elem_of_singleton. }
  rewrite (sbind_Ok _ _ _ _ _ Hr3) in Hrest. injection Hrest as <- <-.
  assert (∀ b, b ∈ nonzero (ptr_at (content fs (i_indirect i)) <$> seqZ 0 PTRS_PER_BLOCK) ++
    [i_indirect i] → 0 ≤ b) as Hpos.
  { apply (data_blocks_pos fs); [done|]. intros b Hb. apply Hall; [done|]. by apply elem_of_app; right. }
  split_and!; [|by repeat split|done|done].
  eapply frees_app; [done|done|]. eapply frees_app; [|done|done].
  intros b Hb. apply Hpos. by apply elem_of_app; right.
Qed.

(** ** Deleting an inode *)

Lemma frees_wf_other fs fs' bs j :
  geom_ok fs → frees fs fs' bs → inode_wf fs j → (∀ b, b ∈ bs → ¬ owned fs j b) →
  inode_wf fs' j.
Proof.
  intros Hg Hf Hwf Hdis. pose proof (geom_data_pos _ Hg) as Hpos.
  pose proof (λ k, frees_imap _ _ _ j k Hf) as Hm.
  assert (∀ b, is_data_block fs' b ↔ is_data_block fs b) as Hd
    by (intros; apply is_data_block_same, Hf).
  assert (∀ b, owned fs j b → is_data_block fs b → block_free fs b = false →
    block_free fs' b = false) as Hu.
  { intros b Ho [Hb _] Hfr. rewrite (fr_free _ _ _ Hf) by lia.
    rewrite decide_False; [done|]. intros Hin. by eapply Hdis. }
  pose proof (fr_geom _ _ _ Hf) as Hs.
  destruct Hwf as [W1 W2 W3 W4]. split; [done| | |].
  - intros k Hk. rewrite Hm, Hd. intros Hk0. destruct (W2 k Hk Hk0).
    split; [done|]. apply Hu; [|done..]. split; eauto.
  - intros k1 k2. rewrite !Hm. auto.
  - intros Hi. destruct (W4 Hi) as (?&?&?). rewrite Hd. split_and!; [done| |].
    + apply Hu; [|done..]. split; auto.
    + intros k. rewrite Hm. auto.
Qed.

Lemma frees_disk_inode fs fs' bs n : frees fs fs' bs → disk_inode fs' n = disk_inode fs n.
Proof.
  intros Hf. unfold disk_inode. rewrite (frees_content _ _ _ _ Hf).
  by destruct (fr_geom _ _ _ Hf) as (_&_&_&_&_&_&_&->&_).
Qed.

(** Marking an inode number free touches the inode bitmap only. *)
Lemma free_inode_Ok fs n fs' :
  0 ≤ n → free_inode n fs = (Ok tt, fs') →
  fs_disk fs' = fs_disk fs ∧ fs_bbm fs' = fs_bbm fs ∧ same_geom fs fs' ∧
  sb_free_blocks (fs_sb fs') = sb_free_blocks (fs_sb fs) ∧
  ∀ x, 0 ≤ x → inode_free fs' x = if decide (x = n) then true else inode_free fs x.
Proof.
  intros Hn. unfold free_inode. intros (m&?&Hm&Hrest)%sbind_Ok_inv. injection Hm as Hm <-.
  rewrite or_panic_Ok in Hm. cbn in Hrest. injection Hrest as <-.
  assert (∀ x, 0 ≤ x → length m = length (fs_ibm fs) ∧
    bitmap_get m x = if decide (x = n) then Some false else bitmap_get (fs_ibm fs) x) as Hupd.
  { intros x Hx. eapply bitmap_update_get; [apply bit_clear_updates|done..]. }
  split_and!; try done.
  - repeat split. simpl. by destruct (Hupd 0 ltac:(lia)).
  - intros x Hx. unfold inode_free. simpl. destruct (Hupd x Hx) as [_ ->]. by case_decide.
Qed.

(** A volume that differs only in inode bookkeeping. *)
Lemma vol_ok_bookkeeping fs fs' :
  vol_ok fs → fs_disk fs' = fs_disk fs → fs_bbm fs' = fs_bbm fs → same_geom fs fs' →
  sb_free_blocks (fs_sb fs') = sb_free_blocks (fs_sb fs) →
  vol_ok fs' ∧ (∀ n, disk_inode fs' n = disk_inode fs n) ∧ (∀ n, live fs' n ↔ live fs n) ∧
  (∀ i k, imap fs' i k = imap fs i k) ∧ ∀ i pos, file_byte fs' i pos = file_byte fs i pos.
Proof.
  intros [Hg Hr Hw Hd Hc] Hdisk Hbbm Hs Hfree.
  assert (∀ b, content fs' b = content fs b) as Hcon.
  { intros b. unfold content. rewrite Hdisk. by destruct Hs as [-> _]. }
  assert (∀ n, disk_inode fs' n = disk_inode fs n) as Hdi.
  { intros n. unfold disk_inode. rewrite Hcon. by destruct Hs as (_&_&_&_&_&_&_&->&_). }
  assert (∀ n, live fs' n ↔ live fs n) as Hl.
  { intros n. unfold live. rewrite Hdi. by destruct Hs as (_&_&_&_&_&->&_). }
  assert (∀ i k, imap fs' i k = imap fs i k) as Hm by (intros; unfold imap; by rewrite Hcon).
  assert (same_data fs fs') as Hsd by (split_and!; [|done..]; intros; apply Hcon).
  split_and!; [split|done|done|done|].
  - by eapply geom_ok_same.
  - intros n ?%Hl. rewrite Hdi. auto.
  - intros n ?%Hl. rewrite Hdi. apply (same_data_wf fs _ (disk_inode fs n)); auto.
  - intros n m ?%Hl ?%Hl Hne b. rewrite !Hdi. unfold owned. setoid_rewrite Hm. by apply Hd.
  - unfold counted. rewrite Hfree, Hc.
    destruct Hs as (_&_&_&_&->&_&_&_&->). apply count_if_ext. intros b _.
    unfold block_free. by rewrite Hbbm.
  - intros i pos. unfold file_byte. rewrite Hm. by rewrite Hcon.
Qed.

(** Storing an inode that has given blocks back. *)
Lemma shrink_inode_vol fs n bs fs1 i' fs2 :
  vol_ok fs → live fs n → frees fs fs1 bs → NoDup bs →
  (∀ b, b ∈ bs → owned fs (disk_inode fs n) b) → inode_wf fs1 i' →
  (∀ b, owned fs1 i' b → owned fs (disk_inode fs n) b) → inode_in_range i' →
  write_inode n i' fs1 = (Ok tt, fs2) →
  vol_ok fs2 ∧ same_geom fs fs2 ∧ fs_bbm fs2 = fs_bbm fs1 ∧ fs_ibm fs2 = fs_ibm fs ∧
  (∀ m, 0 ≤ m < sb_inode_count (fs_sb fs) →
     disk_inode fs2 m = if decide (m = n) then i' else disk_inode fs m) ∧
  (∀ pos, 0 ≤ pos < MAX_FILE_SIZE → file_byte fs2 i' pos = file_byte fs1 i' pos) ∧
  ∀ m, live fs m → m ≠ n → kept fs fs2 m.
Proof.
  intros Hv Hl Hf Hnd Hbs Hwf' Hown' Hr' Hw. pose proof (vol_geom _ Hv) as Hg.
  pose proof (vol_wf _ Hv _ Hl) as Hwf. pose proof Hl as [Hn Ht].
  pose proof (geom_frees _ _ _ Hg Hf) as Hg1. pose proof (fr_geom _ _ _ Hf) as Hs1.
  apply write_inode_Ok in Hw as (_&Hc&Hdisk&Hbbm&Hibm&Hsb&Hs2); [|done|lia|done].
  assert (same_geom fs fs2) as Hs by (by etrans).
  assert (sb_inode_count (fs_sb fs1) = sb_inode_count (fs_sb fs) ∧
    sb_inode_count (fs_sb fs2) = sb_inode_count (fs_sb fs)) as [Hc1 Hc2]
    by (unfold same_geom in *; destruct_and!; lia).
  rewrite Hc1 in Hdisk.
  assert (∀ m, 0 ≤ m < sb_inode_count (fs_sb fs) →
    disk_inode fs2 m = if decide (m = n) then i' else disk_inode fs m) as Hdisk'.
  { intros m Hm. rewrite Hdisk by done. case_decide; [done|]. by eapply frees_disk_inode. }
  assert (same_data fs1 fs2) as Hsd by done.
  assert (∀ m, live fs2 m → m ≠ n → live fs m) as Hlive.
  { intros m [Hm Htm] Hne. rewrite Hc2 in Hm. rewrite Hdisk', decide_False in Htm by (done || lia).
    done. }
  assert (∀ m, live fs m → m ≠ n → disk_inode fs2 m = disk_inode fs m) as Hother.
  { intros m [Hm _] Hne. by rewrite Hdisk', decide_False by (done || lia). }
  assert (disk_inode fs2 n = i') as Hdn by (by rewrite Hdisk', decide_True by (done || lia)).
  assert (∀ m, live fs m → m ≠ n → inode_wf fs1 (disk_inode fs m)) as Hwfm.
  { intros m Hm Hne. apply (frees_wf_other fs fs1 bs); [done|done|by apply (vol_wf _ Hv)|].
    intros b Hb%Hbs. by apply (vol_disjoint _ Hv n m). }
  assert (∀ m b, live fs m → m ≠ n → owned fs2 (disk_inode fs m) b ↔ owned fs (disk_inode fs m) b)
    as Hown.
  { intros m b Hm Hne. rewrite (same_data_owned fs1 fs2 (disk_inode fs m)) by auto.
    unfold owned. by setoid_rewrite (frees_imap _ _ _ _ _ Hf). }
  assert (∀ b, owned fs2 i' b → owned fs (disk_inode fs n) b) as Hown2.
  { intros b Hb. apply Hown'. by apply (same_data_owned fs1 fs2 i') in Hb. }
  split_and!; try done.
  - split.
    + by eapply geom_ok_same.
    + intros m Hm. destruct (decide (m = n)) as [->|Hne]; [by rewrite Hdn|].
      rewrite Hother by auto. apply (vol_range _ Hv). auto.
    + intros m Hm. destruct (decide (m = n)) as [->|Hne].
      { rewrite Hdn. by apply (same_data_wf fs1 _ i'). }
      rewrite Hother by auto. apply (same_data_wf fs1 _ (disk_inode fs m)); auto.
    + intros m1 m2 Hm1 Hm2 Hne b.
      destruct (decide (m1 = n)) as [->|H1], (decide (m2 = n)) as [->|H2]; [done|..];
        rewrite ?Hdn, ?Hother, ?Hown by auto.
      * intros Hb%Hown2. apply (vol_disjoint _ Hv n m2); auto.
      * intros Hb1 Hb%Hown2. apply (vol_disjoint _ Hv m1 n) with b; auto.
      * apply (vol_disjoint _ Hv); auto.
    + assert (counted fs1) as Hcnt.
      { apply (fr_counted _ _ _ Hf); [done| |apply (vol_counted _ Hv)].
        intros b Hb%Hbs%elem_of_blocks_of. by apply (blocks_of_spec _ _ _ Hwf). }
      revert Hcnt. unfold counted. rewrite Hsb. intros ->. apply count_if_ext.
      intros b _. unfold block_free. by rewrite Hbbm.
  - rewrite Hibm. apply Hf.
  - intros pos Hpos. by apply same_data_file_byte.
  - intros m Hm Hne. split_and!; [by apply Hother| |].
    + intros k. rewrite (same_data_imap fs1 fs2 (disk_inode fs m)) by auto.
      apply (frees_imap _ _ _ _ _ Hf).
    + intros pos Hpos. unfold file_data. rewrite Hother by done.
      rewrite (same_data_file_byte fs1 fs2 (disk_inode fs m)) by auto.
      unfold file_byte. rewrite (frees_imap _ _ _ _ _ Hf). by rewrite (frees_content _ _ _ _ Hf).
Qed.

Lemma no_blocks_owned fs i b : i_direct i = replicate 9 0 → i_indirect i = 0 → ¬ owned fs i b.
Proof.
  intros Hd Hi [Hb [->|(k&Hk&Hm)]]; [done|]. unfold imap in Hm. rewrite Hd, Hi in Hm.
  change DIRECT_PTRS with 9 in Hm. case_decide; [|by subst].
  rewrite lookup_total_replicate_2 in Hm by lia. by subst.
Qed.

Lemma no_blocks_wf fs i : i_direct i = replicate 9 0 → i_indirect i = 0 → inode_wf fs i.
Proof.
  intros Hd Hi.
  assert (∀ k, 0 ≤ k < MAX_FILE_BLOCKS → imap fs i k = 0) as Hm.
  { intros k Hk. destruct (decide (imap fs i k = 0)) as [|Hne]; [done|].
    destruct (no_blocks_owned fs i (imap fs i k) Hd Hi). split; eauto. }
  split; [by rewrite Hd| | |].
  - intros k Hk. by rewrite Hm.
  - intros j k Hj Hk. by rewrite Hm.
  - by rewrite Hi.
Qed.

Lemma release_inode_Ok fs n fs' :
  vol_ok fs → live fs n → release_inode n (disk_inode fs n) fs = (Ok tt, fs') →
  vol_ok fs' ∧ others_kept fs fs' n ∧ ¬ live fs' n ∧
  (∀ x, 0 ≤ x → inode_free fs' x = if decide (x = n) then true else inode_free fs x) ∧
  ∀ b, 0 ≤ b → block_free fs' b =
    if decide (owned fs (disk_inode fs n) b) then true else block_free fs b.
Proof.
  intros Hv Hl. pose proof (vol_geom _ Hv) as Hg. pose proof (vol_wf _ Hv _ Hl) as Hwf.
  unfold release_inode.
  intros (i1&fs1&Hfree&Hrest)%sbind_Ok_inv. apply sbind_Ok_inv in Hrest as ([]&fs2&Hw&Hrest).
  destruct (free_inode_blocks_Ok _ _ _ _ Hg Hwf Hfree) as (Hf&Hmeta&Hd&Hi).
  destruct (shrink_inode_vol fs n (blocks_of fs (disk_inode fs n)) fs1
    (with_size 0 (with_type 0 i1)) fs2) as (Hv2&Hs2&Hbbm&Hibm&Hdisk&_&Hother); try done.
  { by apply blocks_of_NoDup. }
  { intros b. by rewrite elem_of_blocks_of. }
  { by apply no_blocks_wf. }
  { intros b Hb. destruct (no_blocks_owned fs1 i1 b Hd Hi Hb). }
  { destruct (vol_range _ Hv n) as (?&?&?&?&?&?&?&_&_&_&?); [done|].
    destruct Hmeta as (_&Hp&Hmo&_&Hu&Hgi&Hmt&Hre).
    unfold inode_in_range. simpl. rewrite Hp, Hmo, Hu, Hgi, Hmt, Hre, Hd, Hi.
    split_and!; try done; try lia. by repeat constructor. }
  pose proof Hl as [Hn _].
  apply free_inode_Ok in Hrest as (Hdk&Hb3&Hs3&Hfb3&Hif); [|lia].
  destruct (vol_ok_bookkeeping _ _ Hv2 Hdk Hb3 Hs3 Hfb3) as (Hv3&Hdi3&Hl3&Him3&Hfb).
  assert (∀ m, live fs m → m ≠ n → kept fs fs' m) as Hk.
  { intros m Hm Hne. eapply kept_trans; [by apply Hother|]. split_and!.
    - apply Hdi3.
    - intros k. apply Him3.
    - intros pos Hpos. unfold file_data. by rewrite Hfb, Hdi3. }
  split_and!; [done|split_and!; [by etrans| |done]| | |].
  - intros m Hm Hne. by rewrite Hdi3, Hdisk, decide_False by (done || lia).
  - intros [_ Ht]%Hl3. by rewrite Hdisk, decide_True in Ht by (done || lia).
  - intros x Hx. rewrite Hif by done. unfold inode_free. by rewrite Hibm.
  - intros b Hb. transitivity (block_free fs1 b).
    { unfold block_free. by rewrite Hb3, Hbbm. }
    rewrite (fr_free _ _ _ Hf) by done. apply decide_ext. symmetry. apply elem_of_blocks_of.
Qed.

(** ** Truncation of a file without an indirect block *)

(** A block map with some blocks dropped. *)
Lemma wf_drop fs i fs' i' bs :
  geom_ok fs → frees fs fs' bs → inode_wf fs i → length (i_direct i') = 9%nat →
  i_indirect i' = i_indirect i → i_indirect i ∉ bs →
  (∀ k, 0 ≤ k < MAX_FILE_BLOCKS →
     imap fs' i' k = 0 ∨ imap fs' i' k = imap fs i k ∧ imap fs i k ∉ bs) →
  inode_wf fs' i' ∧ ∀ b, owned fs' i' b → owned fs i b.
Proof.
  intros Hg Hf [W1 W2 W3 W4] Hl Hi Hib Hm. pose proof (geom_data_pos _ Hg) as Hpos.
  assert (∀ b, is_data_block fs' b ↔ is_data_block fs b) as Hd
    by (intros; apply is_data_block_same, Hf).
  assert (∀ b, b ∉ bs → is_data_block fs b → block_free fs b = false → block_free fs' b = false)
    as Hu.
  { intros b Hb [Hd1 _] Hfr. rewrite (fr_free _ _ _ Hf) by lia. by rewrite decide_False. }
  split; [split; [done| | |]|].
  - intros k Hk. rewrite Hd. destruct (Hm k Hk) as [->|[-> Hn]]; [done|].
    intros Hk0. destruct (W2 k Hk Hk0). auto.
  - intros j k Hj Hk. destruct (Hm j Hj) as [->|[-> _]]; [done|].
    intros Hj0 He. destruct (Hm k Hk) as [Hk0|[Hk0 _]]; rewrite Hk0 in He; [done|]. auto.
  - rewrite Hi, Hd. intros Hi0. destruct (W4 Hi0) as (?&?&Hdis). split_and!; [done|auto|].
    intros k Hk. destruct (Hm k Hk) as [->|[-> _]]; [done|auto].
  - intros b [Hb [->|(k&Hk&<-)]]; [rewrite Hi in *; split; auto|].
    destruct (Hm k Hk) as [He|[-> _]] in |- *; [by rewrite He in Hb|].
    split; [|eauto]. destruct (Hm k Hk) as [He|[He _]]; congruence.
Qed.

Lemma last_block_bounds size :
  0 ≤ size ≤ MAX_OFFSET - BLOCK_SIZE → 0 ≤ last_block size < 2 ^ 32 - 1 ∧
  (size = 0 → last_block size = 0) ∧ (0 < size → last_block size = (size - 1) / BLOCK_SIZE).
Proof.
  unfold last_block, MAX_OFFSET. change BLOCK_SIZE with 512. intros Hs.
  case_decide as Hz; [subst; lia|].
  assert (0 ≤ (size - 1) / 512 < 2 ^ 32 - 1) as Hb.
  { split; [apply Z.div_pos; lia|apply Z.div_lt_upper_bound; lia]. }
  rewrite wrap_small by lia. lia.
Qed.

Lemma last_block_mono s1 s2 :
  0 ≤ s1 ≤ s2 → s2 ≤ MAX_OFFSET - BLOCK_SIZE → last_block s1 ≤ last_block s2.
Proof.
  intros H1 H2. pose proof (last_block_bounds s1 ltac:(lia)) as (?&?&L1).
  pose proof (last_block_bounds s2 ltac:(lia)) as (?&?&L2).
  destruct (decide (s1 = 0)); [lia|]. rewrite L1, L2 by lia. apply Z.div_le_mono; [done|lia].
Qed.

(** The blocks a truncation from [old] to [new] bytes gives back. *)
Definition cut_block (old new k : Z) : Prop :=
  new < old ∧ last_block new < k ≤ last_block old ∧ k < DIRECT_PTRS.
#[export] Instance cut_block_dec old new k : Decision (cut_block old new k).
Proof. unfold cut_block. apply _. Defined.

Lemma truncate_inode_direct fs i new i' fs' :
  geom_ok fs → inode_wf fs i → i_indirect i = 0 → 0 ≤ new →
  0 ≤ i_size i ≤ MAX_OFFSET - BLOCK_SIZE → truncate_inode i new fs = (Ok i', fs') →
  ∃ bs, frees fs fs' bs ∧ NoDup bs ∧ (∀ b, b ∈ bs → owned fs i b) ∧
  inode_wf fs' i' ∧ (∀ b, owned fs' i' b → owned fs i b) ∧
  (∃ d, i' = with_size new (with_direct d i) ∧ length d = 9%nat) ∧
  (∀ k, 0 ≤ k < MAX_FILE_BLOCKS →
     imap fs' i' k = if decide (cut_block (i_size i) new k) then 0 else imap fs i k).
Proof.
  intros Hg Hwf Hi Hnew Hsz. unfold truncate_inode. case_decide as Hgrow.
  { intros [= <- <-]. exists []. split_and!; try done.
    - constructor.
    - set_solver.
    - by apply (same_data_wf fs fs i).
    - exists (i_direct i). split; [by destruct i|apply Hwf].
    - intros k Hk. rewrite decide_False; [done|]. intros [? _]. lia. }
  pose proof (last_block_bounds (i_size i) Hsz) as (Ho&_&_).
  pose proof (last_block_bounds new ltac:(lia)) as (Hn&_&_).
  rewrite (wrap_small 32 (last_block (i_size i) + 1)) by lia.
  set (ks := seqZ _ _).
  assert (∀ k, k ∈ ks ↔ cut_block (i_size i) new k) as Hks.
  { intros k. unfold ks, cut_block. rewrite elem_of_seqZ. lia. }
  assert (∀ k, k ∈ ks → 0 ≤ k < 9 ∧ 0 ≤ k < MAX_FILE_BLOCKS ∧
    imap fs i k = i_direct i !!! Z.to_nat k) as Hrange.
  { intros k (_&?&Hk9)%Hks. unfold imap, MAX_FILE_BLOCKS.
    change DIRECT_PTRS with 9 in *. change PTRS_PER_BLOCK with 128.
    rewrite decide_True by done. split_and!; lia || done. }
  set (bs := filter (λ b : Z, b ≠ 0) ((λ k, i_direct i !!! Z.to_nat k) <$> ks)).
  assert (∀ b, b ∈ bs → ∃ k, k ∈ ks ∧ imap fs i k = b ∧ b ≠ 0) as Hbs.
  { intros b [Hb (k&->&Hk)%list_elem_of_fmap]%list_elem_of_filter.
    exists k. by destruct (Hrange k Hk) as (_&_&->). }
  destruct (free_direct_frees fs i ks) as (d&fs1&Hr&Hf&Hdl&Hdk).
  { done. } { apply Hwf. } { apply NoDup_seqZ. } { intros k Hk. by apply Hrange. }
  { intros b (k&Hk&<-&Hb)%Hbs. apply (wf_block _ _ Hwf); [by apply Hrange|done]. }
  rewrite (sbind_Ok _ _ _ _ _ Hr). rewrite (sbind_Ok _ _ _ (with_direct d i) fs1).
  2: { cbn [i_indirect with_direct]. rewrite Hi.
       rewrite !decide_False by (intros [_ ?]; done). done. }
  intros [= <- <-]. exists bs.
  assert (∀ k, 0 ≤ k < MAX_FILE_BLOCKS → imap fs1 (with_size new (with_direct d i)) k =
    if decide (cut_block (i_size i) new k) then 0 else imap fs i k) as Hm.
  { intros k Hk. unfold imap. simpl. rewrite Hi. change DIRECT_PTRS with 9.
    destruct (decide (k < 9)) as [H9|H9].
    - rewrite Hdk by lia. apply decide_ext, Hks.
    - by destruct (decide (cut_block _ _ _)). }
  assert (∀ k, k ∈ ks → 0 ≤ k < MAX_FILE_BLOCKS) as Hkm by (intros; by apply Hrange).
  destruct (wf_drop fs i fs1 (with_size new (with_direct d i)) bs) as [Hwf' Hown]; try done.
  { rewrite Hi. intros (k&_&_&?)%Hbs. done. }
  { intros k Hk. rewrite Hm by done. case_decide as Hc; [auto|].
    destruct (decide (imap fs i k = 0)) as [|Hne]; [auto|]. right. split; [done|].
    intros (j&Hj&He&_)%Hbs. apply Hc, Hks.
    rewrite (wf_inj _ _ Hwf k j) by auto. done. }
  split_and!; try done.
  - apply NoDup_filter_fmap; [apply NoDup_seqZ|]. intros j k Hj Hk.
    destruct (Hrange j Hj) as (_&?&<-), (Hrange k Hk) as (_&?&<-). by apply (wf_inj _ _ Hwf).
  - intros b (k&Hk&<-&Hb)%Hbs. split; eauto.
  - eauto.
Qed.

(** truncating a file that fits in its nine direct blocks.  When
    [truncate] succeeds the size is the new size, the blocks that lie wholly
    behind the block of the last remaining byte are given back and read as
    zeros, every other byte of the block map - the tail of the last block
    included - is unchanged, no other file changes, and the volume is still
    sound. *)
Theorem truncate_refines fs n new fs' :
  vol_ok fs → live fs n → i_indirect (disk_inode fs n) = 0 →
  file_size fs n ≤ MAX_OFFSET - BLOCK_SIZE → 0 ≤ new < 2 ^ 64 →
  truncate n new fs = (Ok tt, fs') →
  vol_ok fs' ∧ file_type fs' n = file_type fs n ∧ file_size fs' n = new ∧
  (∀ pos, 0 ≤ pos < MAX_FILE_SIZE →
     file_data fs' n pos =
       if decide (cut_block (file_size fs n) new (pos / BLOCK_SIZE)) then 0
       else file_data fs n pos) ∧
  ∀ m, live fs m → m ≠ n → kept fs fs' m.
Proof.
  intros Hv Hl Hi Hsz Hnew. pose proof (vol_geom _ Hv) as Hg. pose proof (vol_wf _ Hv _ Hl) as Hwf.
  pose proof (vol_range _ Hv _ Hl) as Hr. pose proof Hl as [Hn _].
  unfold truncate. intros (i&?&Hrd&Hrest)%sbind_Ok_inv. injection Hrd as Hrd <-.
  apply read_inode_Ok in Hrd as [-> _]; [|done|lia]. case_match; [done|].
  apply sbind_Ok_inv in Hrest as (i'&fs1&Ht&Hw).
  apply truncate_inode_direct in Ht
    as (bs&Hf&Hnd&Hbs&Hwf'&Hown&(d&->&Hdl)&Hm); [|done|done|done|lia|].
  2: { split; [apply Hr|done]. }
  destruct (shrink_inode_vol fs n bs fs1 (with_size new (with_direct d (disk_inode fs n))) fs')
    as (Hv'&_&_&_&Hdisk&Hbyte&Hother); try done.
  { pose proof (wf_pointers_u32 _ _ (geom_frees _ _ _ Hg Hf) Hwf') as [Hd Hi'].
    destruct Hr as (?&?&?&?&?&?&?&?&?&?&?). unfold inode_in_range. simpl in *.
    split_and!; try done; lia. }
  assert (disk_inode fs' n = with_size new (with_direct d (disk_inode fs n))) as Hdn
    by (by rewrite Hdisk, decide_True by (done || lia)).
  unfold file_type, file_size, file_data. rewrite Hdn. split_and!; try done.
  intros pos Hpos. rewrite Hbyte by done. unfold file_byte.
  rewrite Hm by by apply pos_block_range.
  destruct (decide (cut_block _ _ _)); [done|]. by rewrite (frees_content _ _ _ _ Hf).
Qed.
End frees.

(** ** Witnesses and concrete runs *)

Example truncate_refines_witness :
  let fs' := (truncate 2 2 small_fs).2 in
  vol_ok fs' ∧ file_type fs' 2 = file_type small_fs 2 ∧ file_size fs' 2 = 2 ∧
  (∀ pos, 0 ≤ pos < MAX_FILE_SIZE →
     file_data fs' 2 pos =
       if decide (cut_block (file_size small_fs 2) 2 (pos / BLOCK_SIZE)) then 0
       else file_data small_fs 2 pos) ∧
  ∀ m, live small_fs m → m ≠ 2 → kept small_fs fs' m.
Proof.
  apply (truncate_refines small_fs 2 2).
  - apply small_fs_ok.
  - split; vm_compute; [split; reflexivity|intros Hc; discriminate Hc].
  - vm_compute. reflexivity.
  - vm_compute. intros Hc; discriminate Hc.
  - lia.
  - rewrite (surjective_pairing (truncate 2 2 small_fs)) at 1. f_equal.
Defined.

(** Truncating to nothing and growing again brings the old contents back. *)
Example truncate_zero_keeps_data :
  let '(r, fs') := (let! _ := truncate 2 0 in truncate 2 5) small_fs in
  r = Ok tt ∧ (λ p, file_data fs' 2 p) <$> seqZ 0 5 = str "hello".
Proof. vm_compute. auto. Qed.

(** Twelve blocks (three of them through the indirect block), cut back to ten,
    then a write to another file: the cut blocks are still in the indirect
    block, so the new data appears in the first file when it grows again. *)
Definition grown_fs := (let! m := create_file 9 ROOT_INODE (str "b") in
  let! _ := write_at 9 2 0 (replicate 6144 65) in sret m) small_fs.
Definition cut_fs := (let! _ := truncate 2 5120 in write_at 9 4 0 (str "secret")) grown_fs.2.

Example truncate_indirect_shares_blocks :
  grown_fs.1 = Ok 4 ∧ fsck grown_fs.2 = true ∧ cut_fs.1 = Ok 6 ∧ fsck cut_fs.2 = false ∧
  imap cut_fs.2 (disk_inode cut_fs.2 2) 10 = imap cut_fs.2 (disk_inode cut_fs.2 4) 0 ∧
  let '(r, fs') := truncate 2 6144 cut_fs.2 in
  r = Ok tt ∧ (λ p, file_data fs' 2 p) <$> seqZ 5120 6 = str "secret".
Proof. vm_compute. auto 10. Qed.

(** A sparse file grown to 1 MiB and cut back within the indirect range indexes
    the pointer buffer past its end. *)
Example truncate_sparse_panics :
  ((let! _ := truncate 2 1048576 in truncate 2 5632) grown_fs.2).1 = Panic.
Proof. vm_compute. reflexivity. Qed.
