(* ===== verification/NextfsDirSpec.v ===== *)
(** * NextFS directories as finite maps from names to inodes

    [names fs n] is the map a directory denotes; lookup, insertion and removal
    of entries, file creation and deletion are shown to implement lookup,
    insertion and removal in it, on a sound volume, without touching any other
    file. *)

From S2P Require Import Prelude Block NextfsLayout NextfsAlloc NextfsFile NextfsDir NextfsSpec NextfsIO NextfsFree NextfsProps.

(** ** Lists of entries *)

Definition named (name : bytes) (e : dir_entry) : Prop := is_used e = true ∧ name_str e = name.
#[export] Instance named_dec name e : Decision (named name e).
Proof. unfold named. apply _. Defined.

Definition lookup_name (name : bytes) (es : list dir_entry) : option Z :=
  de_inode <$> head (filter (named name) es).

(** No two used entries have the same name. *)
Definition unique_names (es : list dir_entry) : Prop :=
  NoDup (name_str <$> filter (λ e, is_used e = true) es).

Lemma named_match name e : is_used e && name_matches e name = true ↔ named name e.
Proof. unfold named, name_matches. by rewrite andb_true_iff, bool_decide_eq_true. Qed.

Lemma filter_named_none name es :
  (∀ e, e ∈ es → ¬ named name e) → filter (named name) es = [].
Proof.
  induction es as [|e es IH]; intros Hno; [done|].
  rewrite filter_cons_False by (apply Hno; by left). apply IH. intros x Hx. apply Hno. by right.
Qed.

Lemma lookup_name_None name es : lookup_name name es = None ↔ ∀ e, e ∈ es → ¬ named name e.
Proof.
  unfold lookup_name. split.
  - intros Hn e He Hm. assert (e ∈ filter (named name) es) as Hin by by apply list_elem_of_filter.
    destruct (filter _ _); [set_solver|done].
  - intros Hno. by rewrite filter_named_none.
Qed.

Lemma lookup_name_found name pre e post :
  (∀ x, x ∈ pre → ¬ named name x) → named name e →
  lookup_name name (pre ++ e :: post) = Some (de_inode e).
Proof.
  intros Hpre He. unfold lookup_name. rewrite filter_app, filter_named_none by done.
  by rewrite filter_cons_True.
Qed.

(** Replacing an entry that does not have this name by one that does not. *)
Lemma lookup_name_skip name pre e0 e post :
  ¬ named name e0 → ¬ named name e →
  lookup_name name (pre ++ e :: post) = lookup_name name (pre ++ e0 :: post).
Proof. intros. unfold lookup_name. by rewrite !filter_app, !filter_cons_False. Qed.

(** An unused entry becomes a used one. *)
Lemma lookup_name_put nm pre e0 e post :
  is_used e0 = false → is_used e = true → lookup_name (name_str e) (pre ++ e0 :: post) = None →
  lookup_name nm (pre ++ e :: post) =
    if decide (nm = name_str e) then Some (de_inode e) else lookup_name nm (pre ++ e0 :: post).
Proof.
  intros H0 He Hno. case_decide as Hd.
  - subst. apply lookup_name_found; [|done]. rewrite lookup_name_None in Hno.
    intros x Hx. apply Hno. set_solver.
  - apply lookup_name_skip; unfold named; naive_solver congruence.
Qed.

(** A used entry becomes an unused one. *)
Lemma lookup_name_cut nm pre e0 e post :
  unique_names (pre ++ e0 :: post) → is_used e0 = true → is_used e = false →
  lookup_name nm (pre ++ e :: post) =
    if decide (nm = name_str e0) then None else lookup_name nm (pre ++ e0 :: post).
Proof.
  intros Hu H0 He. case_decide as Hd.
  - subst. apply lookup_name_None. unfold unique_names in Hu.
    rewrite filter_app, filter_cons_True, fmap_app, fmap_cons in Hu by done.
    intros x [Hx|[->|Hx]%elem_of_cons]%elem_of_app [Hux Hn].
    + apply NoDup_app in Hu as (_&Hd&_). apply (Hd (name_str e0)); [|by left].
      rewrite <-Hn. by apply list_elem_of_fmap_2, list_elem_of_filter.
    + congruence.
    + apply NoDup_app in Hu as (_&_&[Hn0 _]%NoDup_cons). apply Hn0.
      rewrite <-Hn. by apply list_elem_of_fmap_2, list_elem_of_filter.
  - apply lookup_name_skip; unfold named; naive_solver congruence.
Qed.

Lemma unique_names_put pre e0 e post :
  is_used e0 = false → lookup_name (name_str e) (pre ++ e0 :: post) = None →
  unique_names (pre ++ e0 :: post) → unique_names (pre ++ e :: post).
Proof.
  intros H0 Hno. rewrite lookup_name_None in Hno. unfold unique_names.
  rewrite !filter_app, (filter_cons_False _ e0) by congruence.
  destruct (is_used e) eqn:He; [|by rewrite filter_cons_False by congruence].
  rewrite filter_cons_True by done. rewrite !fmap_app, fmap_cons. intros Hu.
  rewrite <-Permutation_middle. constructor; [|done].
  rewrite <-fmap_app, <-filter_app. intros (x&Hx&Hin)%list_elem_of_fmap.
  apply list_elem_of_filter in Hin as [Hux Hin]. apply (Hno x); [set_solver|done].
Qed.

Lemma unique_names_cut pre e0 e post :
  is_used e = false → unique_names (pre ++ e0 :: post) → unique_names (pre ++ e :: post).
Proof.
  intros He. unfold unique_names. rewrite !filter_app, (filter_cons_False _ e) by congruence.
  destruct (is_used e0) eqn:H0; [|by rewrite filter_cons_False by congruence].
  rewrite filter_cons_True by done. rewrite !fmap_app, fmap_cons.
  rewrite <-Permutation_middle. by intros [_ ?]%NoDup_cons.
Qed.

Lemma dirent_zero : is_used (from_bytes (replicate 64 0)) = false.
Proof. reflexivity. Qed.

Section dirspec.
Context {D : Type} `{BlockLaws D}.
Implicit Types (fs : nextfs D) (i : inode).

(** ** The map of a directory *)

Definition entry_bytes fs i (k : Z) : bytes :=
  (λ j, file_byte fs i (DIRENT_SIZE * k + j)) <$> seqZ 0 DIRENT_SIZE.
Definition entry_at fs i (k : Z) : dir_entry := from_bytes (entry_bytes fs i k).
Definition dir_entries fs i : list dir_entry := entry_at fs i <$> dir_indices i.
Definition names fs n (name : bytes) : option Z :=
  lookup_name name (dir_entries fs (disk_inode fs n)).

(** A sound directory: whole pairs of entries, every one in a mapped block,
    zeros behind the end, names unique. *)
Record dir_wf fs i : Prop := {
  dw_dir : is_dir i = true;
  dw_size : 0 ≤ i_size i ≤ MAX_FILE_SIZE ∧ i_size i mod 128 = 0;
  dw_mapped pos : 0 ≤ pos < i_size i → imap fs i (pos / BLOCK_SIZE) ≠ 0;
  dw_tail pos : i_size i ≤ pos < MAX_FILE_SIZE → file_byte fs i pos = 0;
  dw_unique : unique_names (dir_entries fs i);
  dw_inodes : Forall (λ e, 0 ≤ de_inode e) (dir_entries fs i);
}.

Lemma dir_index_range i k :
  k ∈ dir_indices i → 0 ≤ i_size i → 0 ≤ k ∧ DIRENT_SIZE * k + DIRENT_SIZE ≤ i_size i.
Proof.
  unfold dir_indices. rewrite elem_of_seqZ. change DIRENT_SIZE with 64. intros Hk Hs.
  pose proof (Z.div_mod (i_size i) 64 ltac:(lia)). pose proof (Z.mod_pos_bound (i_size i) 64 ltac:(lia)).
  lia.
Qed.

Lemma entry_block k : 0 ≤ k →
  (DIRENT_SIZE * k) / BLOCK_SIZE = k / ENTRIES_PER_BLOCK ∧
  Z.to_nat ((DIRENT_SIZE * k) mod BLOCK_SIZE) = Z.to_nat (k mod ENTRIES_PER_BLOCK * DIRENT_SIZE) ∧
  0 ≤ k mod 8 < 8 ∧ k = 8 * (k / 8) + k mod 8.
Proof.
  intros Hk. change DIRENT_SIZE with 64. change BLOCK_SIZE with 512. change ENTRIES_PER_BLOCK with 8.
  pose proof (Z.div_mod k 8 ltac:(lia)). pose proof (Z.mod_pos_bound k 8 ltac:(lia)).
  assert ((64 * k) / 512 = k / 8) as ->.
  { symmetry. apply (Z.div_unique_pos _ 512 _ (64 * (k mod 8))); lia. }
  assert ((64 * k) mod 512 = 64 * (k mod 8)) as ->.
  { symmetry. apply (Z.mod_unique_pos _ 512 (k / 8)); lia. }
  split_and!; lia.
Qed.

Lemma slice_entry fs i k :
  0 ≤ k → imap fs i (k / ENTRIES_PER_BLOCK) ≠ 0 →
  length (content fs (imap fs i (k / ENTRIES_PER_BLOCK))) = 512%nat →
  slice (Z.to_nat (k mod ENTRIES_PER_BLOCK * DIRENT_SIZE)) 64
    (content fs (imap fs i (k / ENTRIES_PER_BLOCK))) = entry_bytes fs i k.
Proof.
  intros Hk Hm Hlen. change ENTRIES_PER_BLOCK with 8 in *. unfold entry_bytes.
  change DIRENT_SIZE with 64. pose proof (Z.mod_pos_bound k 8 ltac:(lia)).
  pose proof (Z.div_mod k 8 ltac:(lia)).
  apply list_eq. intros j. rewrite lookup_slice, list_lookup_fmap. case_decide as Hj.
  - rewrite (proj2 (lookup_seqZ 0 64 j (Z.of_nat j))) by lia. simpl.
    unfold file_byte. change BLOCK_SIZE with 512.
    assert ((64 * k + Z.of_nat j) / 512 = k / 8) as ->.
    { symmetry. apply (Z.div_unique_pos _ 512 _ (64 * (k mod 8) + Z.of_nat j)); lia. }
    assert ((64 * k + Z.of_nat j) mod 512 = 64 * (k mod 8) + Z.of_nat j) as ->.
    { symmetry. apply (Z.mod_unique_pos _ 512 (k / 8)); lia. }
    rewrite decide_False by done. rewrite list_lookup_lookup_total_lt by lia.
    do 2 f_equal. lia.
  - rewrite (lookup_ge_None_2 (seqZ 0 64)) by (rewrite length_seqZ; lia). done.
Qed.

(** The slot a loop over the directory finds at index [k]. *)
Definition slot_at fs i (k : Z) : dir_slot :=
  DirSlot (imap fs i (k / ENTRIES_PER_BLOCK))
    (Z.to_nat (k mod ENTRIES_PER_BLOCK * DIRENT_SIZE))
    (content fs (imap fs i (k / ENTRIES_PER_BLOCK))) (entry_at fs i k).

Lemma dir_slot_at_Ok fs i k r :
  geom_ok fs → inode_wf fs i → dir_wf fs i → k ∈ dir_indices i →
  dir_slot_at i k fs = Ok r →
  r = Some (slot_at fs i k) ∧ length (content fs (imap fs i (k / ENTRIES_PER_BLOCK))) = 512%nat.
Proof.
  intros Hg Hwf Hd Hk. destruct (dw_size _ _ Hd) as [Hs _].
  apply dir_index_range in Hk as [Hk0 Hk]; [|lia].
  destruct (entry_block k Hk0) as (Hb&Ho&Hm8&Hdm).
  assert (0 ≤ DIRENT_SIZE * k < i_size i) as Hp by (change DIRENT_SIZE with 64 in *; lia).
  pose proof (dw_mapped _ _ Hd _ Hp) as Hmap. rewrite Hb in Hmap.
  assert (0 ≤ k / ENTRIES_PER_BLOCK < MAX_FILE_BLOCKS) as Hr.
  { rewrite <-Hb. apply pos_block_range. lia. }
  unfold dir_slot_at. rewrite wrap_small.
  2: { unfold MAX_FILE_BLOCKS in Hr. change DIRECT_PTRS with 9 in Hr.
       change PTRS_PER_BLOCK with 128 in Hr. lia. }
  intros (b&Hget&Hrest)%obind_Ok_inv.
  apply get_inode_block_Ok in Hget as [-> _]; [|done|apply Hwf|lia].
  rewrite decide_False in Hrest by done.
  apply obind_Ok_inv in Hrest as (buf&Hrd&[= <-]).
  apply fs_read_Ok in Hrd as [-> Hlen]; [|done]. split; [|done].
  unfold slot_at, entry_at. by rewrite <-slice_entry.
Qed.

Lemma dir_find_Ok fs i p ks r :
  geom_ok fs → inode_wf fs i → dir_wf fs i → (∀ k, k ∈ ks → k ∈ dir_indices i) →
  dir_find p i ks fs = Ok r →
  match r with
  | Some s => ∃ pre k post, ks = pre ++ k :: post ∧ s = slot_at fs i k ∧
      length (content fs (imap fs i (k / ENTRIES_PER_BLOCK))) = 512%nat ∧
      p (entry_at fs i k) = true ∧ ∀ x, x ∈ pre → p (entry_at fs i x) = false
  | None => ∀ x, x ∈ ks → p (entry_at fs i x) = false
  end.
Proof.
  intros Hg Hwf Hd. induction ks as [|k ks IH]; intros Hks; cbn [dir_find].
  { intros [= <-]. set_solver. }
  intros (s&Hs&Hrest)%obind_Ok_inv.
  apply dir_slot_at_Ok in Hs as [-> Hlen]; [|done|done|done|apply Hks; by left].
  change (ds_entry (slot_at fs i k)) with (entry_at fs i k) in Hrest.
  destruct (p (entry_at fs i k)) eqn:Hp.
  - injection Hrest as <-. exists [], k, ks. split_and!; try done. set_solver.
  - apply IH in Hrest; [|set_solver]. destruct r as [s|].
    + destruct Hrest as (pre&k'&post&->&->&Hl'&Hp'&Hpre). exists (k :: pre), k', post.
      split_and!; try done. intros x [->|Hx]%elem_of_cons; auto.
    + intros x [->|Hx]%elem_of_cons; auto.
Qed.

Lemma dir_find_ends fs p i ks : dir_find p i ks fs ≠ Diverge.
Proof.
  induction ks as [|k ks IH]; cbn [dir_find]; [done|]. unfold dir_slot_at.
  pose proof (get_inode_block_terminates fs i (wrap32 (k / ENTRIES_PER_BLOCK))
    (λ b, fs_read_ends fs b)) as He.
  destruct (get_inode_block _ _ _) as [b| | |]; try done. cbn [obind].
  case_decide; [done|]. pose proof (fs_read_ends fs b). destruct (fs_read _ _); try done.
  cbn [obind]. by case_match.
Qed.

Lemma dir_entries_split fs i pre k post :
  dir_indices i = pre ++ k :: post →
  dir_entries fs i = (entry_at fs i <$> pre) ++ entry_at fs i k :: (entry_at fs i <$> post).
Proof. intros He. unfold dir_entries. by rewrite He, fmap_app. Qed.

(** ** Lookup *)

Lemma read_dir_Ok fs n i :
  vol_ok fs → 0 ≤ n → read_inode n fs = Ok i → is_dir i = true →
  i = disk_inode fs n ∧ live fs n ∧ inode_wf fs i.
Proof.
  intros Hv Hn Hr Hd. pose proof (vol_geom _ Hv) as Hg.
  destruct (read_inode_live _ _ _ Hg Hn Hr) as [-> Hl]; [by rewrite Hd, orb_true_r|].
  split_and!; [done|done|]. by apply (vol_wf _ Hv).
Qed.

Lemma dir_lookup_Ok fs n name m :
  vol_ok fs → 0 ≤ n → dir_wf fs (disk_inode fs n) →
  (dir_lookup n name fs = Ok m → names fs n name = Some m) ∧
  (dir_lookup n name fs = Err NotFound → names fs n name = None).
Proof.
  intros Hv Hn Hd. pose proof (vol_geom _ Hv) as Hg. unfold dir_lookup.
  destruct (read_inode n fs) as [i|e| |] eqn:Hr; cbn [obind]; try done.
  2: { split; [done|]. intros [= ->]. revert Hr. unfold read_inode. case_decide; [done|].
       unfold fs_read. by destruct (blk_read _ _ _ _). }
  destruct (is_dir i) eqn:Hdi; [|done]. cbn [negb].
  destruct (read_dir_Ok _ _ _ Hv Hn Hr Hdi) as (->&Hl&Hwf). unfold names.
  destruct (dir_find _ _ _ _) as [r|e| |] eqn:Hf; cbn [obind]; try done.
  - apply dir_find_Ok in Hf; [|done..]. destruct r as [s|].
    + destruct Hf as (pre&k&post&Hi&->&_&Hp&Hpre). split; [|done]. intros [= <-].
      rewrite (dir_entries_split _ _ _ _ _ Hi). apply lookup_name_found; [|by apply named_match].
      intros x (j&->&Hj)%list_elem_of_fmap Hx%named_match. rewrite Hpre in Hx; done.
    + split; [done|]. intros _. apply lookup_name_None.
      intros x (j&->&Hj)%list_elem_of_fmap Hx%named_match. rewrite Hf in Hx; done.
  - split; [done|]. intros [= ->]. exfalso. revert Hf. generalize (dir_indices (disk_inode fs n)).
    intros ks. induction ks as [|k ks IH]; cbn [dir_find]; [done|]. unfold dir_slot_at.
    destruct (get_inode_block _ _ _) as [b|e| |] eqn:Hgb; cbn [obind]; try done.
    + case_decide; [done|]. unfold fs_read. destruct (blk_read _ _ _ _); cbn; try done.
      by case_match.
    + intros [= ->]. revert Hgb. unfold get_inode_block. case_decide.
      { by destruct (_ !! _). }
      case_decide; [done|]. unfold fs_read. destruct (blk_read _ _ _ _); cbn; try done.
      by case_decide.
Qed.

(** ** Updates of one entry in place *)

(** Changing the contents of an inode without storing it. *)
Lemma evolves_vol fs n fs' :
  vol_ok fs → live fs n → evolves fs (disk_inode fs n) fs' (disk_inode fs n) →
  inode_wf fs' (disk_inode fs n) →
  vol_ok fs' ∧ others_kept fs fs' n ∧
  (∀ m, 0 ≤ m < sb_inode_count (fs_sb fs) → disk_inode fs' m = disk_inode fs m).
Proof.
  intros Hv Hl Hev Hwf'. pose proof Hv as [Hg Hr Hw Hdis Hc].
  pose proof (Hw _ Hl) as Hwf. pose proof (ev_geom _ _ _ _ Hev) as Hs.
  assert (∀ m, 0 ≤ m < sb_inode_count (fs_sb fs) → disk_inode fs' m = disk_inode fs m) as Hd.
  { intros m Hm. by eapply evolves_disk_inode. }
  assert (∀ m, live fs' m → live fs m ∧ disk_inode fs' m = disk_inode fs m) as Hlive.
  { intros m [Hm Ht]. assert (sb_inode_count (fs_sb fs') = sb_inode_count (fs_sb fs)) as He
      by (unfold same_geom in Hs; destruct_and!; lia).
    rewrite He in Hm. rewrite Hd in * by lia. done. }
  assert (∀ m b, live fs m → m ≠ n → owned fs' (disk_inode fs m) b ↔ owned fs (disk_inode fs m) b)
    as Hown.
  { intros m b Hm Hne. apply (evolves_owned_other fs (disk_inode fs n) fs' (disk_inode fs n)); auto. }
  split_and!; [|split; [done|split; [auto|]]|done].
  - split.
    + by eapply geom_ok_same.
    + intros m [Hm ->]%Hlive. auto.
    + intros m [Hm ->]%Hlive. destruct (decide (m = n)) as [->|Hne]; [done|].
      apply (evolves_wf_other fs (disk_inode fs n) fs' (disk_inode fs n)); auto.
    + intros m1 m2 [Hm1 ->]%Hlive [Hm2 ->]%Hlive Hne.
      destruct (decide (m1 = n)) as [->|H1], (decide (m2 = n)) as [->|H2]; [done|..].
      * apply (evolves_disjoint fs (disk_inode fs n) fs' (disk_inode fs n)); auto.
      * intros b Hb1 Hb2.
        apply (evolves_disjoint fs (disk_inode fs n) fs' (disk_inode fs n) (disk_inode fs m1)) with b; auto.
      * intros b. rewrite !Hown by done. by apply Hdis.
    + by apply (ev_counted _ _ _ _ Hev).
  - intros m Hm Hne. destruct Hm as [Hm0 ?]. split_and!; [by rewrite Hd by lia| |].
    { intros k. apply (evolves_imap fs (disk_inode fs n) fs' (disk_inode fs n));
        [done|apply Hw|apply Hdis]; done. }
    intros pos Hpos. unfold file_data. rewrite Hd by lia.
    apply (evolves_file_byte_other fs (disk_inode fs n) fs' (disk_inode fs n)); [done|apply Hw|apply Hdis|]; done.
Qed.

(** Entries whose bytes did not change. *)
Lemma entry_at_ext fs i fs' i' k :
  (∀ pos, DIRENT_SIZE * k ≤ pos < DIRENT_SIZE * k + DIRENT_SIZE →
     file_byte fs' i' pos = file_byte fs i pos) →
  entry_at fs' i' k = entry_at fs i k.
Proof.
  intros Hb. unfold entry_at, entry_bytes. f_equal. apply list_fmap_ext.
  intros ? j Hj. apply lookup_seqZ in Hj. change DIRENT_SIZE with 64 in *. apply Hb. lia.
Qed.

Lemma entry_at_new fs i k e :
  u32_ok (de_inode e) → length (de_name e) = MAX_NAME_LEN →
  (∀ pos, DIRENT_SIZE * k ≤ pos < DIRENT_SIZE * k + DIRENT_SIZE →
     file_byte fs i pos = to_bytes e !!! Z.to_nat (pos - DIRENT_SIZE * k)) →
  entry_at fs i k = e.
Proof.
  intros Hi Hn Hb. unfold entry_at.
  assert (entry_bytes fs i k = to_bytes e) as ->.
  2: { rewrite <-(app_nil_r (to_bytes e)). by apply codec_roundtrip. }
  assert (length (to_bytes e) = 64%nat) as Hl by by apply length_dirent_to_bytes.
  apply list_eq. intros j. unfold entry_bytes. rewrite list_lookup_fmap.
  change DIRENT_SIZE with 64 in *. destruct (decide (j < 64)%nat).
  - rewrite (proj2 (lookup_seqZ 0 64 j (Z.of_nat j))) by lia. cbn [fmap option_fmap option_map].
    rewrite Hb by lia. rewrite list_lookup_lookup_total_lt by lia. do 2 f_equal. lia.
  - rewrite !lookup_ge_None_2; [done|rewrite ?length_seqZ; lia..].
Qed.

Lemma dir_entries_update fs i fs' pre k post e :
  dir_indices i = pre ++ k :: post → entry_at fs' i k = e →
  (∀ x, x ∈ dir_indices i → x ≠ k → entry_at fs' i x = entry_at fs i x) →
  dir_entries fs' i = (entry_at fs i <$> pre) ++ e :: (entry_at fs i <$> post).
Proof.
  intros Hi Hk Hx. rewrite (dir_entries_split _ _ _ _ _ Hi), Hk.
  assert (NoDup (pre ++ k :: post)) as Hnd by (rewrite <-Hi; apply NoDup_seqZ).
  apply NoDup_app in Hnd as (_&Hd&[Hkn _]%NoDup_cons). rewrite Hi in Hx.
  assert (∀ l : list Z, (∀ x, x ∈ l → x ∈ pre ++ k :: post ∧ x ≠ k) →
    entry_at fs' i <$> l = entry_at fs i <$> l) as He.
  { intros l Hl. apply list_fmap_ext. intros ? x Hin%list_elem_of_lookup_2.
    apply Hx; by apply Hl. }
  rewrite (He pre), (He post); [done|..].
  - intros x Hin. split; [set_solver|]. by intros ->.
  - intros x Hin. split; [set_solver|]. intros ->. apply (Hd k); set_solver.
Qed.

Lemma put_entry_Ok fs n pre k post e fs' :
  vol_ok fs → live fs n → dir_wf fs (disk_inode fs n) →
  dir_indices (disk_inode fs n) = pre ++ k :: post →
  length (content fs (imap fs (disk_inode fs n) (k / ENTRIES_PER_BLOCK))) = 512%nat →
  u32_ok (de_inode e) → length (de_name e) = MAX_NAME_LEN →
  unique_names ((entry_at fs (disk_inode fs n) <$> pre) ++ e ::
                (entry_at fs (disk_inode fs n) <$> post)) →
  put_entry (slot_at fs (disk_inode fs n) k) e fs = (Ok tt, fs') →
  vol_ok fs' ∧ others_kept fs fs' n ∧ fs_ibm fs' = fs_ibm fs ∧
  disk_inode fs' n = disk_inode fs n ∧ dir_wf fs' (disk_inode fs n) ∧
  (∀ m, 0 ≤ m < sb_inode_count (fs_sb fs) → disk_inode fs' m = disk_inode fs m) ∧
  dir_entries fs' (disk_inode fs n) =
    (entry_at fs (disk_inode fs n) <$> pre) ++ e :: (entry_at fs (disk_inode fs n) <$> post).
Proof.
  intros Hv Hl Hd Hidx Hlen Hu Hn Huniq Hput. set (i := disk_inode fs n) in *.
  pose proof (vol_geom _ Hv) as Hg. pose proof (vol_wf _ Hv _ Hl) as Hwf. fold i in Hwf.
  destruct (dw_size _ _ Hd) as [Hs Hs128].
  assert (∀ x, x ∈ dir_indices i → 0 ≤ x ∧ 64 * x + 64 ≤ i_size i) as Hrange.
  { intros x Hx. apply dir_index_range; [done|lia]. }
  destruct (Hrange k) as [Hk0 Hk]; [rewrite Hidx; set_solver|].
  destruct (entry_block k Hk0) as (Hb&_&Hm8&Hdm).
  change DIRENT_SIZE with 64 in *. change ENTRIES_PER_BLOCK with 8 in *.
  pose proof (dw_mapped _ _ Hd (64 * k) ltac:(lia)) as Hmap. rewrite Hb in Hmap.
  assert (0 ≤ k / 8 < MAX_FILE_BLOCKS) as Hkr by (rewrite <-Hb; apply pos_block_range; lia).
  assert (length (to_bytes e) = 64%nat) as Hle by by apply length_dirent_to_bytes.
  unfold put_entry in Hput. cbn [ds_block ds_off ds_buf slot_at] in Hput.
  change DIRENT_SIZE with 64 in Hput. change ENTRIES_PER_BLOCK with 8 in Hput.
  destruct (overwrite_block_Ok fs i (k / 8) (imap fs i (k / 8)) (Z.to_nat (k mod 8 * 64))
    (to_bytes e) fs') as (Hwf'&Hev&Him&Hfb); [done|done|done|done|done|done|lia|done|].
  destruct (evolves_vol fs n fs' Hv Hl Hev Hwf') as (Hv'&Ho&Hdisk).
  assert (∀ pos, 0 ≤ pos < MAX_FILE_SIZE → file_byte fs' i pos =
    if decide (64 * k ≤ pos < 64 * k + 64) then to_bytes e !!! Z.to_nat (pos - 64 * k)
    else file_byte fs i pos) as Hfb'.
  { intros pos Hpos. rewrite Hfb by by apply pos_block_range. rewrite Hle.
    replace (k / 8 * 512 + Z.of_nat (Z.to_nat (k mod 8 * 64))) with (64 * k) by lia.
    replace (k / 8 * 512 + Z.of_nat (Z.to_nat (k mod 8 * 64) + 64)) with (64 * k + 64) by lia.
    done. }
  assert (dir_entries fs' i = (entry_at fs i <$> pre) ++ e :: (entry_at fs i <$> post)) as Hent.
  { apply dir_entries_update with k; [done| |].
    - apply entry_at_new; [done|done|]. change DIRENT_SIZE with 64. intros pos Hpos.
      rewrite Hfb' by lia. by rewrite decide_True.
    - intros x Hx Hne. destruct (Hrange x Hx). apply entry_at_ext. change DIRENT_SIZE with 64.
      intros pos Hpos. rewrite Hfb' by lia. by rewrite decide_False by lia. }
  split_and!; try done.
  - apply Hev.
  - apply Hdisk. destruct Hl. lia.
  - split; [apply Hd|done|..].
    + intros pos Hpos. rewrite Him. by apply (dw_mapped _ _ Hd).
    + intros pos Hpos. rewrite Hfb' by lia. rewrite decide_False by lia. by apply (dw_tail _ _ Hd).
    + by rewrite Hent.
    + rewrite Hent. pose proof (dw_inodes _ _ Hd) as Hall.
      rewrite (dir_entries_split _ _ _ _ _ Hidx) in Hall.
      apply Forall_app in Hall as [? [_ ?]%Forall_cons].
      apply Forall_app. split; [done|]. constructor; [apply Hu|done].
Qed.

(** ** Errors of a lookup *)

Definition device_failure {A} (r : outcome fs_error A) : Prop := ∃ e, r = Err (BlockErr e).

Lemma fs_read_err fs b e : fs_read b fs = Err e → ∃ be, e = BlockErr be.
Proof. unfold fs_read. destruct (blk_read _ _ _ _); naive_solver. Qed.

Lemma get_inode_block_err fs i k e :
  k < MAX_FILE_BLOCKS → get_inode_block i k fs = Err e → ∃ be, e = BlockErr be.
Proof.
  unfold get_inode_block, MAX_FILE_BLOCKS. intros Hk. case_decide; [by destruct (_ !! _)|].
  case_decide; [done|]. destruct (fs_read _ _) as [b|e'| |] eqn:Hr; cbn; try done.
  - rewrite decide_False by lia. done.
  - intros [= <-]. by eapply fs_read_err.
Qed.

Lemma dir_find_err fs i p ks e :
  dir_wf fs i → (∀ k, k ∈ ks → k ∈ dir_indices i) →
  dir_find p i ks fs = Err e → ∃ be, e = BlockErr be.
Proof.
  intros Hd. destruct (dw_size _ _ Hd) as [Hs _]. induction ks as [|k ks IH]; intros Hks; [done|].
  cbn [dir_find]. unfold dir_slot_at. destruct (dir_index_range i k) as [Hk0 Hk];
    [apply Hks; by left|lia|]. destruct (entry_block k Hk0) as (Hb&_).
  change DIRENT_SIZE with 64 in *.
  assert (0 ≤ k / ENTRIES_PER_BLOCK < MAX_FILE_BLOCKS) as Hr
    by (rewrite <-Hb; apply pos_block_range; lia).
  rewrite wrap_small by (unfold MAX_FILE_BLOCKS in Hr; change DIRECT_PTRS with 9 in Hr;
    change PTRS_PER_BLOCK with 128 in Hr; lia).
  destruct (get_inode_block _ _ _) as [b|e'| |] eqn:Hg; cbn [obind]; try done.
  - case_decide; [done|]. destruct (fs_read _ _) as [buf|e'| |] eqn:Hrd; cbn [obind]; try done.
    + case_match; [done|]. apply IH. set_solver.
    + intros [= <-]. by eapply fs_read_err.
  - intros [= <-]. eapply get_inode_block_err; [|done]. lia.
Qed.

Lemma dir_lookup_NotFound fs n name e :
  vol_ok fs → live fs n → dir_wf fs (disk_inode fs n) →
  dir_lookup n name fs = Err e → ¬ device_failure (dir_lookup n name fs) →
  names fs n name = None.
Proof.
  intros Hv Hl Hd He Hno. pose proof Hl as [Hn _].
  apply (dir_lookup_Ok fs n name 0); [done|lia|done|]. rewrite He. f_equal. revert He Hno.
  unfold dir_lookup, device_failure. destruct (read_inode n fs) as [i|e'| |] eqn:Hr; cbn [obind]; try done.
  - apply read_inode_Ok in Hr as [-> _]; [|apply (vol_geom _ Hv)|lia].
    rewrite (dw_dir _ _ Hd). cbn [negb].
    destruct (dir_find _ _ _ _) as [[s|]|e'| |] eqn:Hf; cbn [obind]; try done; [naive_solver|].
    apply dir_find_err in Hf as [be ->]; [|done|done]. naive_solver.
  - revert Hr. unfold read_inode. rewrite decide_False by lia.
    destruct (fs_read _ _) as [b|e''| |] eqn:Hrd; cbn [obind]; try done.
    apply fs_read_err in Hrd as [be ->]. naive_solver.
Qed.

(** ** Insertion *)

Definition name_ok (name : bytes) : Prop :=
  utf8_valid name = true ∧ Forall (λ b, b ≠ 0) name.

Lemma append_indices i s :
  i_size i mod 128 = 0 → 0 ≤ i_size i → s = i_size i + 128 →
  dir_indices (with_size s i) = dir_indices i ++ [i_size i / 64; i_size i / 64 + 1].
Proof.
  intros Hm Hs ->. unfold dir_indices. simpl. change DIRENT_SIZE with 64.
  pose proof (Z.div_mod (i_size i) 128 ltac:(lia)).
  assert (i_size i / 64 = 2 * (i_size i / 128)) as He.
  { symmetry. apply (Z.div_unique_pos _ 64 _ 0); lia. }
  assert ((i_size i + 128) / 64 = i_size i / 64 + 2) as ->.
  { symmetry. apply (Z.div_unique_pos _ 64 _ 0); lia. }
  rewrite seqZ_app by lia. apply (f_equal2 app); [done|].
  rewrite Z.add_0_l. unfold seqZ. simpl. f_equal. f_equal. lia.
Qed.

Lemma unused_NoDup_append es e e' :
  is_used e' = false → lookup_name (name_str e) es = None → unique_names es →
  unique_names (es ++ [e; e']).
Proof.
  intros He' Hno Hu. replace (es ++ [e; e']) with ((es ++ [e]) ++ e' :: []) by by rewrite <-app_assoc.
  assert (unique_names (es ++ [e'])) as Hu'.
  { unfold unique_names in *. by rewrite filter_app, filter_cons_False, app_nil_r by congruence. }
  apply unique_names_cut with e'; [done|]. rewrite <-app_assoc. simpl.
  apply unique_names_put with e'; [done|..].
  - apply lookup_name_None. rewrite lookup_name_None in Hno. intros x Hx [Hux Hnx].
    apply elem_of_app in Hx as [Hx|Hx]; [by apply (Hno x)|].
    assert (x = e') as -> by set_solver. congruence.
  - unfold unique_names in *. by rewrite filter_app, !filter_cons_False, app_nil_r by congruence.
Qed.

Lemma dirent_new_ok target name :
  name_ok name → (length name < MAX_NAME_LEN)%nat → 0 < target < 2 ^ 32 →
  let e := dirent_new target name in
  is_used e = true ∧ name_str e = name ∧ de_inode e = target ∧ u32_ok (de_inode e) ∧
  length (de_name e) = MAX_NAME_LEN.
Proof.
  intros [Hu Hz] Hlen Ht. cbn zeta. split_and!.
  - unfold is_used. simpl. destruct (Z.eqb_spec target 0); [lia|done].
  - by apply name_str_new.
  - done.
  - unfold u32_ok. change (256 ^ 4) with (2 ^ 32). simpl. lia.
  - apply length_dirent_new.
Qed.

(** A blank entry is unused. *)
Lemma entry_at_zero fs i k :
  (∀ pos, DIRENT_SIZE * k ≤ pos < DIRENT_SIZE * k + DIRENT_SIZE → file_byte fs i pos = 0) →
  is_used (entry_at fs i k) = false.
Proof.
  intros Hz. rewrite <-dirent_zero. f_equal. unfold entry_at. f_equal.
  assert (entry_bytes fs i k = (λ _, 0) <$> seqZ 0 64) as ->; [|reflexivity].
  unfold entry_bytes. change DIRENT_SIZE with 64 in *. apply list_fmap_ext.
  intros ? j Hj. apply lookup_seqZ in Hj. apply Hz. lia.
Qed.

(** Appending an entry: the directory grows by a pair, the second one blank. *)
Lemma dir_append_Ok ticks fs n e p fs1 fs' :
  vol_ok fs → live fs n → dir_wf fs (disk_inode fs n) →
  u32_ok (de_inode e) → length (de_name e) = MAX_NAME_LEN →
  lookup_name (name_str e) (dir_entries fs (disk_inode fs n)) = None →
  write_inode_data ticks (disk_inode fs n) (i_size (disk_inode fs n)) (to_bytes e) fs = (Ok p, fs1) →
  write_inode n (with_size (wrap64 (i_size p.1 + DIRENT_SIZE)) p.1) fs1 = (Ok tt, fs') →
  vol_ok fs' ∧ others_kept fs fs' n ∧ fs_ibm fs' = fs_ibm fs ∧ dir_wf fs' (disk_inode fs' n) ∧
  ∃ e', is_used e' = false ∧
    dir_entries fs' (disk_inode fs' n) = dir_entries fs (disk_inode fs n) ++ [e; e'].
Proof.
  intros Hv Hl Hd Hu Hn Hno Hw Hst. pose proof Hl as [Hnr _]. destruct p as [i' k]. cbn [fst] in *.
  pose proof (vol_geom _ Hv) as Hg. pose proof (vol_wf _ Hv _ Hl) as Hwf.
  pose proof (vol_range _ Hv _ Hl) as Hr.
  set (i := disk_inode fs n) in *.
  destruct (dw_size _ _ Hd) as [Hs Hs128].
  assert (length (to_bytes e) = 64%nat) as Hle by by apply length_dirent_to_bytes.
  assert (i_size i + Z.of_nat (length (to_bytes e)) ≤ MAX_OFFSET) as Hmax.
  { rewrite Hle. destruct Hs as [_ Hs]. change MAX_FILE_SIZE with 70144 in Hs.
    change MAX_OFFSET with (2 ^ 41). lia. }
  destruct (write_inode_data_Ok _ _ _ _ _ _ _ _ Hg Hwf (proj1 Hs) (proj1 Hs) Hmax Hw)
    as (_&->&Hattr&Hsz'&Hmt&Hwf'&(i1&Hev&Hd1&Hi1)&Hgr&Hnew&Hfit&Hb).
  rewrite Hle in *. specialize (Hfit ltac:(lia)).
  change MAX_FILE_SIZE with 70144 in *. change DIRENT_SIZE with 64 in *.
  pose proof (Z.div_mod (i_size i) 128 ltac:(lia)) as Hdm.
  rewrite wrap_small in Hst by lia.
  set (s' := i_size i' + 64) in *. assert (s' = i_size i + 128) as Hs' by lia.
  assert (inode_wf fs1 i1) as Hwf1 by (apply (same_data_wf fs1 fs1 i'); done).
  pose proof (geom_ok_same _ _ (ev_geom _ _ _ _ Hev) Hg) as Hg1.
  assert (inode_in_range (with_size s' i')) as Hr'.
  { destruct (same_attrs_range fs1 i i') as (?&?&?&?&?&?&?&?&?&?&?); [done..| | |].
    - lia.
    - rewrite Hmt. case_decide; [apply wrap_bounds; lia|apply Hr].
    - unfold inode_in_range. simpl. split_and!; done || lia. }
  destruct (store_inode_vol fs n i fs1 i1 (with_size s' i') fs')
    as (Hv'&_&Hibm&Hgm&Hdisk&Hbyte&Hoth); try done; [lia|..].
  { intros m Hm Hne. by apply (vol_disjoint _ Hv). }
  assert (disk_inode fs' n = with_size s' i') as Hdn by (by rewrite Hdisk, decide_True by (done || lia)).
  assert (∀ pos, 0 ≤ pos < 70144 → file_byte fs' (with_size s' i') pos =
    overlay (file_byte fs i) (i_size i) (to_bytes e) pos) as Hfb.
  { intros pos Hpos. rewrite Hbyte by done. rewrite <-Hb by done. unfold file_byte, imap.
    by rewrite Hd1, Hi1. }
  assert (∀ k, imap fs' (with_size s' i') k = imap fs1 i' k) as Him.
  { intros k. transitivity (imap fs1 i1 k).
    - apply write_inode_Ok in Hst as (_&Hc&_&Hbbm&_&_&Hs2); [|done|lia|done].
      by apply same_data_imap.
    - unfold imap. by rewrite Hd1, Hi1. }
  set (e' := entry_at fs' (with_size s' i') (i_size i / 64 + 1)).
  assert (64 * (i_size i / 64) = i_size i) as H64.
  { rewrite Hdm, Hs128, Z.add_0_r. replace (128 * (i_size i / 128)) with (64 * (2 * (i_size i / 128))) by lia.
    rewrite (Z.mul_comm 64 (2 * _)), Z.div_mul by lia. lia. }
  assert (is_used e' = false) as He'.
  { apply entry_at_zero. change DIRENT_SIZE with 64. intros pos Hpos.
    rewrite Hfb by lia. unfold overlay. rewrite Hle, decide_False by lia.
    apply (dw_tail _ _ Hd). change MAX_FILE_SIZE with 70144. lia. }
  assert (dir_entries fs' (with_size s' i') = dir_entries fs i ++ [e; e']) as Hent.
  { assert (dir_indices (with_size s' i') = dir_indices i ++ [i_size i / 64; i_size i / 64 + 1])
      as Hidx by (rewrite <-(append_indices i s') by (done || lia); done).
    unfold dir_entries at 1. rewrite Hidx, fmap_app. f_equal.
    - apply list_fmap_ext. intros ? x Hx%list_elem_of_lookup_2.
      apply dir_index_range in Hx as [Hx0 Hx]; [|lia]. apply entry_at_ext.
      change DIRENT_SIZE with 64 in *. intros pos Hpos. rewrite Hfb by lia.
      unfold overlay. by rewrite Hle, decide_False by lia.
    - cbn [fmap list_fmap]. fold e'.
      assert (entry_at fs' (with_size s' i') (i_size i / 64) = e) as ->; [|done].
      apply entry_at_new; [done|done|].
      change DIRENT_SIZE with 64. intros pos Hpos. rewrite Hfb by lia. unfold overlay.
      rewrite Hle, decide_True by lia. by rewrite H64. }
  assert (others_kept fs fs' n) as Hok.
  { split_and!; [done| |done]. intros m Hm Hne. by rewrite Hdisk, decide_False by (done || lia). }
  rewrite Hdn. split_and!; try done; [|eauto].
  split; cbn [i_size with_size].
  - unfold is_dir. simpl. destruct Hattr as [-> _]. apply (dw_dir _ _ Hd).
  - change MAX_FILE_SIZE with 70144. split; [lia|]. rewrite Hs'.
    rewrite <-(Z.mul_1_l 128) at 1. by rewrite Z.mod_add by lia.
  - intros pos Hpos. rewrite Him. destruct (decide (pos < i_size i)) as [Hlt|Hge].
    + apply Hgr; [apply pos_block_range; change MAX_FILE_SIZE with 70144; lia|].
      apply (dw_mapped _ _ Hd). lia.
    + assert (pos / BLOCK_SIZE = i_size i / BLOCK_SIZE) as ->; [|apply Hnew; lia].
      change BLOCK_SIZE with 512. pose proof (Z.div_mod (i_size i) 512 ltac:(lia)).
      pose proof (Z.mod_pos_bound (i_size i) 512 ltac:(lia)).
      symmetry. apply (Z.div_unique_pos _ 512 _ (pos - 512 * (i_size i / 512))); [|lia].
      lia.
  - change MAX_FILE_SIZE with 70144. intros pos Hpos. rewrite Hfb by lia. unfold overlay.
    rewrite Hle, decide_False by lia. apply (dw_tail _ _ Hd). change MAX_FILE_SIZE with 70144. lia.
  - rewrite Hent. apply unused_NoDup_append; [done|done|apply Hd].
  - rewrite Hent. apply Forall_app. split; [apply Hd|]. repeat constructor; [apply Hu|].
    unfold is_used in He'. apply negb_false_iff, Z.eqb_eq in He'. lia.
Qed.

Lemma dir_add_entry_Ok ticks fs n name target fs' :
  vol_ok fs → live fs n → dir_wf fs (disk_inode fs n) → name_ok name → 0 < target < 2 ^ 32 →
  names fs n name = None →
  dir_add_entry ticks n name target fs = (Ok tt, fs') →
  vol_ok fs' ∧ others_kept fs fs' n ∧ fs_ibm fs' = fs_ibm fs ∧ dir_wf fs' (disk_inode fs' n) ∧
  ∀ nm, names fs' n nm = if decide (nm = name) then Some target else names fs n nm.
Proof.
  intros Hv Hl Hd Hname Ht Hnone. pose proof Hl as [Hn _]. unfold dir_add_entry.
  case_decide as Hlen; [done|].
  destruct (dir_lookup n name fs) as [|e| |] eqn:Hlk; try done.
  destruct (dirent_new_ok target name Hname ltac:(lia) Ht) as (He1&He2&He3&He4&He5).
  set (en := dirent_new target name) in *.
  intros (i&?&Hr&Hrest)%sbind_Ok_inv. injection Hr as Hr <-.
  apply read_inode_Ok in Hr as [-> _]; [|apply (vol_geom _ Hv)|lia].
  rewrite (dw_dir _ _ Hd) in Hrest. cbn [negb] in Hrest.
  apply sbind_Ok_inv in Hrest as (s&?&Hf&Hrest). injection Hf as Hf <-.
  apply dir_find_Ok in Hf; [|apply (vol_geom _ Hv)|by apply (vol_wf _ Hv)|done|done].
  unfold names in Hnone. rewrite <-He2 in Hnone.
  destruct s as [s|].
  - destruct Hf as (pre&k&post&Hidx&->&Hl512&Hp&_).
    apply negb_true_iff in Hp. rewrite (dir_entries_split _ _ _ _ _ Hidx) in Hnone.
    destruct (put_entry_Ok fs n pre k post en fs') as (Hv'&Ho&Hib&Hdn&Hdw&_&Hent); try done.
    { apply unique_names_put with (entry_at fs (disk_inode fs n) k); [done|done|].
      rewrite <-dir_entries_split by done. apply Hd. }
    rewrite Hdn. split_and!; try done.
    intros nm. unfold names. rewrite Hdn, Hent, (dir_entries_split _ _ _ _ _ Hidx).
    rewrite (lookup_name_put nm _ _ en _ Hp He1 Hnone). by rewrite He2, He3.
  - apply sbind_Ok_inv in Hrest as (p&fs1&Hw&Hst).
    destruct (dir_append_Ok ticks fs n en p fs1 fs') as (Hv'&Ho&Hib&Hdw&e'&He'&Hent); try done.
    split_and!; try done. intros nm. unfold names. rewrite Hent.
    set (es := dir_entries fs (disk_inode fs n)) in *.
    change (es ++ [en; e']) with (es ++ en :: [e']).
    assert (∀ x, lookup_name x (es ++ e' :: [e']) = lookup_name x es) as Hblank.
    { intros x. unfold lookup_name. rewrite filter_app, !filter_cons_False, filter_nil, app_nil_r.
      - done.
      - intros [? _]; congruence.
      - intros [? _]; congruence. }
    rewrite (lookup_name_put nm es e' en [e'] He' He1) by by rewrite Hblank.
    by rewrite Hblank, He2, He3.
Qed.

Lemma dir_remove_entry_Ok fs n name m fs' :
  vol_ok fs → live fs n → dir_wf fs (disk_inode fs n) →
  dir_remove_entry n name fs = (Ok m, fs') →
  vol_ok fs' ∧ others_kept fs fs' n ∧ fs_ibm fs' = fs_ibm fs ∧ fs_bbm fs' = fs_bbm fs ∧
  (∀ x, 0 ≤ x < sb_inode_count (fs_sb fs) → disk_inode fs' x = disk_inode fs x) ∧
  dir_wf fs' (disk_inode fs' n) ∧ names fs n name = Some m ∧
  ∀ nm, names fs' n nm = if decide (nm = name) then None else names fs n nm.
Proof.
  intros Hv Hl Hd. pose proof Hl as [Hn _]. unfold dir_remove_entry.
  intros (i&?&Hr&Hrest)%sbind_Ok_inv. injection Hr as Hr <-.
  apply read_inode_Ok in Hr as [-> _]; [|apply (vol_geom _ Hv)|lia].
  rewrite (dw_dir _ _ Hd) in Hrest. cbn [negb] in Hrest.
  apply sbind_Ok_inv in Hrest as (s&?&Hf&Hrest). injection Hf as Hf <-.
  apply dir_find_Ok in Hf; [|apply (vol_geom _ Hv)|by apply (vol_wf _ Hv)|done|done].
  destruct s as [s|]; [|done].
  destruct Hf as (pre&k&post&Hidx&->&Hl512&Hp%named_match&Hpre). destruct Hp as [Hu Hnm].
  apply sbind_Ok_inv in Hrest as ([]&fs1&Hput&[= <- <-]).
  pose proof (dw_unique _ _ Hd) as Huniq. rewrite (dir_entries_split _ _ _ _ _ Hidx) in Huniq.
  destruct (put_entry_Ok fs n pre k post (dirent_new 0 []) fs1)
    as (Hv'&Ho&Hib&Hdn&Hdw&Hdisk&Hent); try done.
  { by apply unique_names_cut with (entry_at fs (disk_inode fs n) k). }
  rewrite Hdn. split_and!; try done.
  - unfold put_entry, fs_write in Hput. destruct (blk_write _ _ _ _). by injection Hput as _ <-.
  - unfold names. rewrite (dir_entries_split _ _ _ _ _ Hidx). apply lookup_name_found; [|done].
    intros x (j&->&Hj)%list_elem_of_fmap Hx%named_match. rewrite Hpre in Hx; done.
  - intros x. unfold names. rewrite Hdn, Hent, (dir_entries_split _ _ _ _ _ Hidx).
    rewrite (lookup_name_cut x _ (entry_at fs (disk_inode fs n) k)) by done. by rewrite Hnm.
Qed.

Lemma device_failure_dec {A} (r : outcome fs_error A) : device_failure r ∨ ¬ device_failure r.
Proof. unfold device_failure. destruct r as [|[]| |]; naive_solver. Qed.

(** a directory lookup is a lookup in the directory's map.  On a sound
    volume and a sound directory, [dir_lookup] answers with the inode the map
    gives to the name, answers [NotFound] exactly when the map has no such name,
    and otherwise only fails because the device does; it always terminates. *)
Theorem dir_lookup_refines fs n name :
  vol_ok fs → live fs n → dir_wf fs (disk_inode fs n) →
  match dir_lookup n name fs with
  | Ok m => names fs n name = Some m
  | Err e => e = NotFound ∧ names fs n name = None ∨ ∃ be, e = BlockErr be
  | Panic => True
  | Diverge => False
  end.
Proof.
  intros Hv Hl Hd. pose proof Hl as [Hn _].
  destruct (dir_lookup n name fs) as [m|e| |] eqn:Hlk; [| |done|].
  - by apply (dir_lookup_Ok fs n name m); [done|lia|..].
  - destruct (device_failure_dec (dir_lookup n name fs)) as [[be Hb]|Hno].
    { right. exists be. congruence. }
    left. pose proof (dir_lookup_NotFound _ _ _ _ Hv Hl Hd Hlk Hno). split; [|done].
    rewrite Hlk in Hno. clear -Hno Hlk Hv Hl Hd H0. revert Hlk. unfold dir_lookup.
    destruct Hl as [Hn _]. unfold read_inode. rewrite decide_False by lia.
    destruct (fs_read _ _) as [b|e'| |] eqn:Hr; cbn [obind]; try done.
    + apply fs_read_Ok in Hr as [-> _]; [|apply (vol_geom _ Hv)].
      fold (disk_inode fs n). rewrite (dw_dir _ _ Hd). cbn [negb].
      destruct (dir_find _ _ _ _) as [[s|]|e'| |] eqn:Hf; cbn [obind]; try done; [naive_solver|].
      apply dir_find_err in Hf as [be ->]; [|done|done]. unfold device_failure in Hno. naive_solver.
    + apply fs_read_err in Hr as [be ->]. unfold device_failure in Hno. naive_solver.
  - revert Hlk. unfold dir_lookup, read_inode. rewrite decide_False by lia.
    pose proof (fs_read_ends fs (inode_block (sb_inode_table_start (fs_sb fs)) n)).
    destruct (fs_read _ _); cbn [obind]; try done. case_match; [done|].
    pose proof (dir_find_ends fs (λ e, is_used e && name_matches e name)
      (from_bytes (slice (inode_off n) 64 a)) (dir_indices (from_bytes (slice (inode_off n) 64 a)))).
    destruct (dir_find _ _ _ _) as [[]| | |]; done.
Qed.

(** ** Creation and deletion *)

(** The inode bitmap never calls a live inode free. *)
Definition ibm_ok fs : Prop := ∀ x, live fs x → inode_free fs x = false.

(** A directory that was kept is the same directory. *)
Lemma kept_dir fs fs' n :
  kept fs fs' n → dir_wf fs (disk_inode fs n) →
  dir_wf fs' (disk_inode fs' n) ∧ ∀ nm, names fs' n nm = names fs n nm.
Proof.
  intros (Hdn&Him&Hfb) Hd. destruct (dw_size _ _ Hd) as [Hs Hm].
  assert (dir_entries fs' (disk_inode fs n) = dir_entries fs (disk_inode fs n)) as Hent.
  { apply list_fmap_ext. intros ? k Hk%list_elem_of_lookup_2.
    apply dir_index_range in Hk as [Hk0 Hk]; [|lia]. apply entry_at_ext. intros pos Hpos.
    change DIRENT_SIZE with 64 in *. unfold file_data in Hfb. rewrite Hdn in Hfb. apply Hfb. lia. }
  unfold names. rewrite Hdn. split; [|by rewrite Hent]. destruct Hd. split; [done|done| | | |].
  - intros pos. rewrite Him. auto.
  - intros pos Hpos. unfold file_data in Hfb. rewrite Hdn in Hfb. rewrite Hfb by lia. auto.
  - by rewrite Hent.
  - by rewrite Hent.
Qed.

Lemma names_nonneg fs n name m :
  dir_wf fs (disk_inode fs n) → names fs n name = Some m → 0 ≤ m.
Proof.
  intros Hd. unfold names, lookup_name. pose proof (dw_inodes _ _ Hd) as Hall.
  destruct (filter _ _) as [|e es] eqn:Hf; [done|]. intros [= <-].
  assert (e ∈ filter (named name) (dir_entries fs (disk_inode fs n))) as Hin
    by (rewrite Hf; by left).
  apply list_elem_of_filter in Hin as [_ Hin]. by eapply Forall_forall in Hall.
Qed.

Lemma live_same fs fs' x : same_geom fs fs' → disk_inode fs' x = disk_inode fs x →
  live fs' x ↔ live fs x.
Proof.
  unfold live. intros Hs ->. assert (sb_inode_count (fs_sb fs') = sb_inode_count (fs_sb fs)) as ->
    by (unfold same_geom in Hs; destruct_and!; lia). done.
Qed.

Lemma others_kept_trans fs1 fs2 fs3 n :
  others_kept fs1 fs2 n → others_kept fs2 fs3 n → others_kept fs1 fs3 n.
Proof.
  intros (Hs1&Hd1&H1) (Hs2&Hd2&H2). split_and!; [by etrans| |].
  { pose proof (same_geom_count _ _ Hs1). intros m Hm Hne. by rewrite Hd2, Hd1 by (done || lia). }
  intros m Hm Hne. eapply kept_trans; [by apply H1|]. apply H2; [|done].
  apply (live_same fs1); [done| |done]. by apply H1.
Qed.

(** Taking a free inode number and storing a fresh inode without blocks. *)
Lemma fresh_inode_Ok fs m fs0 i fs1 :
  vol_ok fs → ibm_ok fs → alloc_inode fs = (Ok m, fs0) →
  inode_in_range i → i_direct i = replicate 9 0 → i_indirect i = 0 →
  write_inode m i fs0 = (Ok tt, fs1) →
  vol_ok fs1 ∧ same_geom fs fs1 ∧ 0 < m < sb_inode_count (fs_sb fs) ∧ ¬ live fs m ∧
  disk_inode fs1 m = i ∧ others_kept fs fs1 m ∧
  (∀ x, 0 ≤ x → inode_free fs1 x = if decide (x = m) then false else inode_free fs x).
Proof.
  intros Hv Hib Ha Hr Hd Hi Hw. pose proof (vol_geom _ Hv) as Hg.
  apply alloc_inode_Ok in Ha as (Hm&Hfree&_&Hbits&Hdk&Hbbm&Hs0&Hfb&_); [|done].
  destruct (vol_ok_bookkeeping _ _ Hv Hdk Hbbm Hs0 Hfb) as (Hv0&Hdi0&Hl0&Him0&Hby0).
  assert (¬ live fs m) as Hnl by (intros Hl; apply Hib in Hl; congruence).
  assert (∀ x, live fs x → x ≠ m) as Hne by (intros x Hx ->; done).
  destruct (store_inode_vol fs0 m i fs0 i i fs1) as (Hv1&Hm1&Hibm1&Hs1&Hdisk&_&Hk); try done.
  { lia. }
  { by apply no_blocks_wf. }
  { intros x _ _ b Hb. by apply (no_blocks_owned fs0 i b) in Hb. }
  { apply evolves_refl. }
  { by apply no_blocks_wf. }
  split_and!; try done; try lia.
  - by etrans.
  - rewrite Hdisk, decide_True by (done || lia). done.
  - assert (same_geom fs fs1) by (by etrans). split_and!; [done| |].
    { pose proof (same_geom_count _ _ Hs0). intros x Hx Hxm.
      by rewrite Hdisk, decide_False, Hdi0 by (done || lia). }
    intros x Hx _. destruct (Hk x) as (K1&K2&K3); [by apply Hl0|by apply Hne|].
    rewrite Hdi0 in *. split_and!; [done|intros k; by rewrite K2, Him0|].
    intros pos Hpos. rewrite K3 by done. unfold file_data. by rewrite Hby0, Hdi0.
  - intros x Hx. unfold inode_free. rewrite Hibm1. by apply Hbits.
Qed.

(** C26: creating a file adds one name.  When [create_file] succeeds in a
    sound directory that does not have the name, the number it returns was not
    in use, that inode is now an empty regular file, the directory maps the
    name to it and every other name as before, no other inode has changed, and
    volume, directory and inode bitmap are still sound. *)
Theorem create_file_refines ticks fs n name m fs' :
  vol_ok fs → ibm_ok fs → live fs n → dir_wf fs (disk_inode fs n) → name_ok name →
  sb_inode_count (fs_sb fs) < 2 ^ 32 → names fs n name = None →
  create_file ticks n name fs = (Ok m, fs') →
  vol_ok fs' ∧ ibm_ok fs' ∧ dir_wf fs' (disk_inode fs' n) ∧
  ¬ live fs m ∧ live fs' m ∧ file_type fs' m = 1 ∧ file_size fs' m = 0 ∧
  (∀ nm, names fs' n nm = if decide (nm = name) then Some m else names fs n nm) ∧
  ∀ x, live fs x → x ≠ n → kept fs fs' x.
Proof.
  intros Hv Hib Hl Hd Hname Hcnt Hnone. unfold create_file.
  intros (m'&fs0&Ha&Hrest)%sbind_Ok_inv. apply sbind_Ok_inv in Hrest as ([]&fs1&Hw&Hrest).
  set (i := with_mtime (now_ticks ticks) new_file) in *.
  assert (inode_in_range i) as Hr.
  { unfold inode_in_range, i, now_ticks. simpl. split_and!; try lia; try done.
    - apply wrap_bounds. lia.
    - apply wrap_bounds. lia.
    - by repeat constructor. }
  destruct (fresh_inode_Ok fs m' fs0 i fs1) as (Hv1&Hs1&Hm&Hnl&Hdm&Ho1&Hfree1); try done.
  assert (∀ x, live fs x → kept fs fs1 x) as Hk1 by (intros x Hx; apply Ho1; [done|by intros ->]).
  unfold or_rollback in Hrest.
  destruct (sbind _ _ fs1) as [o fs2] eqn:Hadd. destruct o; simplify_eq.
  2: { by apply sbind_Ok_inv in Hrest as (?&?&_&?). }
  apply sbind_Ok_inv in Hadd as ([]&fs3&Hadd&Hret). injection Hret as -> ->.
  destruct (kept_dir _ _ _ (Hk1 n Hl) Hd) as [Hd1 Hn1].
  assert (live fs1 n) as Hl1 by (apply (live_same fs); [done|by apply Hk1|done]).
  destruct (dir_add_entry_Ok ticks fs1 n name m fs') as (Hv'&Ho&Hibm&Hd'&Hn'); try done.
  { lia. }
  { by rewrite Hn1. }
  assert (m ≠ n) as Hmn by (by intros ->).
  assert (live fs1 m) as Hlm.
  { split; [|by rewrite Hdm]. destruct Hs1 as (_&_&_&_&_&->&_). done. }
  destruct Ho as (Hs2&Hd2&Hk2). destruct (Hk2 m Hlm Hmn) as (Hdm'&_&_).
  split_and!; try done.
  - intros x Hx. pose proof Hx as [Hxr _].
    pose proof (same_geom_count _ _ Hs1). pose proof (same_geom_count _ _ Hs2).
    unfold inode_free. rewrite Hibm. fold (inode_free fs1 x). rewrite Hfree1 by lia.
    case_decide as Hxm; [done|]. apply Hib. destruct (decide (x = n)) as [->|Hxn]; [done|].
    apply (live_same fs fs1); [done|apply (proj1 (proj2 Ho1)); [lia|done]|].
    apply (live_same fs1 fs'); [done|apply Hd2; [lia|done]|done].
  - by apply (live_same fs1).
  - unfold file_type. by rewrite Hdm', Hdm.
  - unfold file_size. by rewrite Hdm', Hdm.
  - intros nm. by rewrite Hn', Hn1.
  - intros x Hx Hne. assert (live fs1 x) as Hx1 by (apply (live_same fs); [done|by apply Hk1|done]).
    eapply kept_trans; [by apply Hk1|by apply Hk2].
Qed.

(** C27: deleting a file removes one name and gives its blocks back.  When
    [unlink] succeeds in a sound directory, the name was there and named a
    regular file; now the directory maps that name to nothing and every other
    name as before, the inode is no longer in use, exactly the blocks of the
    file have become free, no other inode has changed, and volume, directory
    and inode bitmap are still sound. *)
Theorem unlink_refines ticks fs n name fs' :
  vol_ok fs → ibm_ok fs → live fs n → dir_wf fs (disk_inode fs n) →
  unlink ticks n name fs = (Ok tt, fs') →
  ∃ m, names fs n name = Some m ∧ file_type fs m = 1 ∧
  vol_ok fs' ∧ ibm_ok fs' ∧ dir_wf fs' (disk_inode fs' n) ∧ ¬ live fs' m ∧
  (∀ nm, names fs' n nm = if decide (nm = name) then None else names fs n nm) ∧
  (∀ b, 0 ≤ b → block_free fs' b =
     if decide (owned fs (disk_inode fs m) b) then true else block_free fs b) ∧
  ∀ x, live fs x → x ≠ n → x ≠ m → kept fs fs' x.
Proof.
  intros Hv Hib Hl Hd. unfold unlink. case_match; [done|].
  intros (m&fs1&Hrm&Hrest)%sbind_Ok_inv.
  destruct (dir_remove_entry_Ok _ _ _ _ _ Hv Hl Hd Hrm)
    as (Hv1&(Hs1&_&Hk1)&Hib1&Hbb1&Hdisk1&Hd1&Hnm&Hn1).
  pose proof (names_nonneg _ _ _ _ Hd Hnm) as Hm0. pose proof (same_geom_count _ _ Hs1) as Hc1.
  apply sbind_Ok_inv in Hrest as (i&?&Hr&Hrest). injection Hr as Hr <-.
  destruct (is_file i) eqn:Hf; cbn [negb] in Hrest; [|by destruct (dir_add_entry _ _ _ _ _) as [[]]].
  destruct (read_inode_live fs1 m i) as [-> Hlm]; [apply (vol_geom _ Hv1)|done|done|by rewrite Hf|].
  assert (∀ x, live fs x ↔ live fs1 x) as Hlive.
  { intros x. split; intros Hx; pose proof Hx as [? _]; apply (live_same fs fs1);
      try done; apply Hdisk1; lia. }
  assert (0 ≤ m < sb_inode_count (fs_sb fs)) as Hmr by (destruct Hlm; lia).
  assert (m ≠ n) as Hmn.
  { intros ->. unfold is_file in Hf. rewrite Hdisk1 in Hf by done.
    pose proof (dw_dir _ _ Hd) as Ht. unfold is_dir in Ht. lia. }
  destruct (release_inode_Ok _ _ _ Hv1 Hlm Hrest) as (Hv'&(Hs'&Hdisk'&Hk')&Hnl&Hfree&Hblk).
  destruct (kept_dir fs1 fs' n) as [Hd' Hn']; [apply Hk'; [by apply Hlive|done]|done|].
  assert (kept fs fs1 m) as Hkm by (apply Hk1; [by apply Hlive|done]).
  exists m. split_and!; try done.
  - unfold file_type. rewrite <-Hdisk1 by done. by apply Z.eqb_eq in Hf.
  - intros x Hx. destruct (decide (x = m)) as [->|Hxm]; [done|]. pose proof Hx as [Hxr _].
    rewrite (same_geom_count _ _ Hs') in Hxr.
    rewrite Hfree, decide_False by (done || lia). unfold inode_free. rewrite Hib1.
    apply Hib, Hlive. apply (live_same fs1 fs'); [done|apply Hdisk'; [lia|done]|done].
  - intros nm. by rewrite Hn', Hn1.
  - intros b Hb. rewrite Hblk by done. rewrite Hdisk1 by done.
    assert (block_free fs1 b = block_free fs b) as -> by (unfold block_free; by rewrite Hbb1).
    apply decide_ext. unfold owned. by setoid_rewrite (proj1 (proj2 Hkm)).
  - intros x Hx Hxn Hxm. eapply kept_trans; [by apply Hk1|].
    apply Hk'; [by apply Hlive|done].
Qed.
End dirspec.

(** ** Deciding the directory invariants, and witnesses *)

Section dircheck.
Context {D : Type} `{BlockDev D}.
Implicit Types (fs : nextfs D) (i : inode).

Definition tail_check fs i (k : Z) : bool :=
  if decide (imap fs i k = 0) then true else
  forallb (λ o, bool_decide (BLOCK_SIZE * k + o < i_size i) ||
                bool_decide (file_byte fs i (BLOCK_SIZE * k + o) = 0)) (seqZ 0 BLOCK_SIZE).

Definition dir_check fs i : bool :=
  is_dir i && bool_decide (0 ≤ i_size i ≤ MAX_FILE_SIZE) && bool_decide (i_size i mod 128 = 0) &&
  forallb (λ k, bool_decide (imap fs i k ≠ 0)) (seqZ 0 ((i_size i + BLOCK_SIZE - 1) / BLOCK_SIZE)) &&
  forallb (tail_check fs i) (seqZ 0 MAX_FILE_BLOCKS) &&
  bool_decide (NoDup (name_str <$> filter (λ e, is_used e = true) (dir_entries fs i))) &&
  forallb (λ e, bool_decide (0 ≤ de_inode e)) (dir_entries fs i).

Lemma dir_check_sound fs i : dir_check fs i = true → dir_wf fs i.
Proof.
  unfold dir_check. rewrite !andb_true_iff, !forallb_elem, !bool_decide_eq_true.
  intros [[[[[[H1 H2] H3] H4] H5] H6] H7]. split; try done.
  - intros pos Hpos. assert (pos / BLOCK_SIZE ∈ seqZ 0 ((i_size i + BLOCK_SIZE - 1) / BLOCK_SIZE))
      as Hin%H4; [|by apply bool_decide_eq_true in Hin].
    change BLOCK_SIZE with 512. apply elem_of_seqZ.
    pose proof (Z.div_mod pos 512 ltac:(lia)). pose proof (Z.mod_pos_bound pos 512 ltac:(lia)).
    pose proof (Z.div_mod (i_size i + 512 - 1) 512 ltac:(lia)).
    pose proof (Z.mod_pos_bound (i_size i + 512 - 1) 512 ltac:(lia)). lia.
  - intros pos Hpos. assert (0 ≤ pos < MAX_FILE_SIZE) as Hr%pos_block_range by lia.
    assert (pos / BLOCK_SIZE ∈ seqZ 0 MAX_FILE_BLOCKS) as Hin%H5 by by apply elem_of_seqZ.
    unfold tail_check in Hin. case_decide as Hz; [unfold file_byte; by rewrite Hz, decide_True|].
    rewrite forallb_elem in Hin. specialize (Hin (pos mod BLOCK_SIZE)).
    replace (BLOCK_SIZE * (pos / BLOCK_SIZE) + pos mod BLOCK_SIZE) with pos in Hin
      by (apply Z.div_mod; done).
    rewrite orb_true_iff, !bool_decide_eq_true in Hin.
    destruct Hin; [|lia|done]. apply elem_of_seqZ. change BLOCK_SIZE with 512.
    pose proof (Z.mod_pos_bound pos 512). lia.
  - apply Forall_forall. intros e He%H7. by apply bool_decide_eq_true in He.
Qed.

Definition ibm_check fs : bool := forallb (λ x, negb (inode_free fs x)) (live_inodes fs).

Lemma ibm_check_sound fs : ibm_check fs = true → ibm_ok fs.
Proof.
  unfold ibm_check. rewrite forallb_elem. intros Hall x [Hx Ht]. apply negb_true_iff, Hall.
  apply list_elem_of_filter. split; [done|]. apply elem_of_seqZ. lia.
Qed.
End dircheck.

Lemma small_root_ok :
  live small_fs 1 ∧ dir_wf small_fs (disk_inode small_fs 1) ∧ ibm_ok small_fs.
Proof.
  split_and!.
  - split; vm_compute; [split; reflexivity|intros Hc; discriminate Hc].
  - apply dir_check_sound. vm_compute. reflexivity.
  - apply ibm_check_sound. vm_compute. reflexivity.
Qed.

Example dir_lookup_refines_witness :
  dir_lookup 1 (str "sub") small_fs = Ok 3 ∧ dir_lookup 1 (str "nope") small_fs = Err NotFound ∧
  match dir_lookup 1 (str "sub") small_fs with
  | Ok m => names small_fs 1 (str "sub") = Some m
  | Err e => e = NotFound ∧ names small_fs 1 (str "sub") = None ∨ ∃ be, e = BlockErr be
  | Panic => True
  | Diverge => False
  end.
Proof.
  split; [vm_compute; reflexivity|]. split; [vm_compute; reflexivity|].
  apply (dir_lookup_refines small_fs 1 (str "sub")); [apply small_fs_ok|apply small_root_ok..].
Defined.

Definition created : nextfs (registry ram) := (create_file 8 1 (str "new") small_fs).2.

Example create_file_refines_witness :
  vol_ok created ∧ ibm_ok created ∧ dir_wf created (disk_inode created 1) ∧
  ¬ live small_fs 4 ∧ live created 4 ∧ file_type created 4 = 1 ∧ file_size created 4 = 0 ∧
  (∀ nm, names created 1 nm = if decide (nm = str "new") then Some 4 else names small_fs 1 nm) ∧
  ∀ x, live small_fs x → x ≠ 1 → kept small_fs created x.
Proof.
  apply (create_file_refines 8 small_fs 1 (str "new") 4 created).
  - apply small_fs_ok.
  - apply small_root_ok.
  - apply small_root_ok.
  - apply small_root_ok.
  - split; [reflexivity|]. by repeat constructor.
  - vm_compute. reflexivity.
  - vm_compute. reflexivity.
  - unfold created. rewrite (surjective_pairing (create_file 8 1 (str "new") small_fs)) at 1.
    f_equal.
Defined.

Definition unlinked : nextfs (registry ram) := (unlink 8 1 (str "a.txt") small_fs).2.

Example unlink_refines_witness :
  ∃ m, names small_fs 1 (str "a.txt") = Some m ∧ file_type small_fs m = 1 ∧
  vol_ok unlinked ∧ ibm_ok unlinked ∧ dir_wf unlinked (disk_inode unlinked 1) ∧
  ¬ live unlinked m ∧
  (∀ nm, names unlinked 1 nm = if decide (nm = str "a.txt") then None else names small_fs 1 nm) ∧
  (∀ b, 0 ≤ b → block_free unlinked b =
     if decide (owned small_fs (disk_inode small_fs m) b) then true else block_free small_fs b) ∧
  ∀ x, live small_fs x → x ≠ 1 → x ≠ m → kept small_fs unlinked x.
Proof.
  apply (unlink_refines 8 small_fs 1 (str "a.txt") unlinked).
  - apply small_fs_ok.
  - apply small_root_ok.
  - apply small_root_ok.
  - apply small_root_ok.
  - unfold unlinked. rewrite (surjective_pairing (unlink 8 1 (str "a.txt") small_fs)) at 1.
    f_equal.
Defined.

(** ** Concrete runs *)

(** Adding one entry makes the directory grow by two. *)
Example add_entry_grows_by_two :
  let fs0 := outcome_or small_fs (mount 0 formatted) in
  let '(r, fs1) := dir_add_entry 0 1 (str "x") 9 fs0 in
  r = Ok tt ∧ file_size fs0 1 = 128 ∧ file_size fs1 1 = 256.
Proof. vm_compute. auto. Qed.

(** A failed [create_file] clears the bitmap but not the inode on disk: after a
    remount the inode is lost. *)
Example rollback_leaves_inode_on_disk :
  let '(r, fs1) := create_file 8 1 (str "a.txt") small_fs in
  r = Err AlreadyExists ∧ inode_free fs1 4 = true ∧ file_type fs1 4 = 1 ∧
  (let? fs2 := mount 0 (fs_disk (sync fs1).2) in Ok (inode_free fs2 4)) = Ok false.
Proof. vm_compute. auto. Qed.

(** The root directory is one more inode than the superblock of a fresh volume
    allows for: inode 0 is never handed out. *)
Example format_overcounts_inodes :
  let fs0 := outcome_or small_fs (mount 0 formatted) in
  sb_free_inodes (fs_sb fs0) = 63 ∧
  count_if (inode_free fs0) (seqZ 1 (sb_inode_count (fs_sb fs0) - 1)) = 62.
Proof. vm_compute. auto. Qed.
