(* ===== verification/VfsTable.v ===== *)
(** * Open files, descriptor tables, pipes and credentials (kernel/src/fs/vfs.rs)

    The state behind the file system calls: one descriptor table per task, the
    pipes with their reference counts, the credentials, the mounted volume.
    The mutexes around the four tables are the passing of the state. *)

From S2P Require Import Prelude Block NextfsLayout NextfsAlloc.

(** [fs/vfs.rs:15-15, !MAX_FDS_PER_TASK] *)
Definition MAX_FDS_PER_TASK : Z := 64.
(** [fs/vfs.rs:171-171, !PIPE_CAPACITY] *)
Definition PIPE_CAPACITY : Z := 4096.
(** [fs/vfs.rs:21-21, !STDIN] *)
Definition STDIN : Z := 0.
(** [fs/vfs.rs:22-22, !STDOUT] *)
Definition STDOUT : Z := 1.
(** [fs/vfs.rs:23-23, !STDERR] *)
Definition STDERR : Z := 2.

(** [fs/vfs.rs:27-33, OpenFlags] *)
Record open_flags := OpenFlags {
  of_read : bool; of_write : bool; of_create : bool; of_truncate : bool; of_append : bool }.
(** [fs/vfs.rs:36-44, OpenFlags::rdonly] *)
Definition rdonly := OpenFlags true false false false false.
(** [fs/vfs.rs:46-54, OpenFlags::wronly] *)
Definition wronly := OpenFlags false true false false false.
(** [fs/vfs.rs:56-64, OpenFlags::rdwr] *)
Definition rdwr := OpenFlags true true false false false.
(** [fs/vfs.rs:66-74, OpenFlags::create] *)
Definition flags_create := OpenFlags false true true false false.
(** [fs/vfs.rs:76-79, OpenFlags::with_truncate] *)
Definition with_truncate (f : open_flags) : open_flags :=
  OpenFlags (of_read f) (of_write f) (of_create f) true (of_append f).
(** [fs/vfs.rs:81-84, OpenFlags::with_append] *)
Definition with_append (f : open_flags) : open_flags :=
  OpenFlags (of_read f) (of_write f) (of_create f) (of_truncate f) true.

(** [fs/vfs.rs:97-109, FileType] *)
Inductive ofile_type : Type :=
| Regular (inode : Z) | Console | Keyboard | PipeEnd (id : Z) (is_write : bool) | Socket (id : Z).

#[export] Instance ofile_type_eq_dec : EqDecision ofile_type.
Proof. solve_decision. Defined.

(** [fs/vfs.rs:113-117, OpenFile] *)
Record open_file := OpenFile { f_type : ofile_type; f_flags : open_flags; f_pos : Z }.

(** [fs/vfs.rs:120-126, OpenFile::new] *)
Definition file_new (inode : Z) (flags : open_flags) : open_file := OpenFile (Regular inode) flags 0.
(** [fs/vfs.rs:128-138, OpenFile::console] *)
Definition file_console (writable : bool) : open_file :=
  OpenFile Console (if writable then wronly else rdonly) 0.
(** [fs/vfs.rs:140-146, OpenFile::keyboard] *)
Definition file_keyboard : open_file := OpenFile Keyboard rdonly 0.
(** [fs/vfs.rs:150-160, OpenFile::pipe] *)
Definition file_pipe (id : Z) (is_write : bool) : open_file :=
  OpenFile (PipeEnd id is_write) (if is_write then wronly else rdonly) 0.

(** [fs/vfs.rs:182-189, Pipe] *)
Record pipe_state := Pipe { p_buf : bytes; p_read_ends : Z; p_write_ends : Z }.

(** [fs/vfs.rs:225-228, FdTable] *)
Record fd_table := FdTable { t_files : gmap Z open_file; t_next_fd : Z }.

(** [fs/vfs.rs:280-283, Credentials] *)
Record credentials := Credentials { c_uid : Z; c_gid : Z }.
(** [fs/vfs.rs:287-289, Credentials::root] *)
Definition cred_root : credentials := Credentials 0 0.

(** [fs/vfs.rs:311-325, VfsError] *)
Inductive vfs_error : Type :=
| VNotFound | VNotFile | VNotDirectory | VAlreadyExists | VNoSpace | VBadFileDescriptor
| VInvalidOperation | VReadOnlyFile | VWriteOnlyFile | VTooManyFiles | VNotMounted
| VPermissionDenied | VFsError (e : fs_error).

#[export] Instance vfs_error_eq_dec : EqDecision vfs_error.
Proof. solve_decision. Defined.

(** [fs/vfs.rs:324-336, !From<FsError> for VfsError] *)
Definition from_fs_error (e : fs_error) : vfs_error :=
  match e with
  | NotFound => VNotFound
  | NotDirectory => VNotDirectory
  | NotFile => VNotFile
  | AlreadyExists => VAlreadyExists
  | NoSpace => VNoSpace
  | PermissionDenied => VPermissionDenied
  | other => VFsError other
  end.

(** What the VFS uses of the console driver and of the network stack. *)
Class KernelEnv (W : Type) := {
  con_read_char : W → option Z * W;
  con_write : Z → W → W;
  net_recv : Z → bytes → W → option (Z * bytes) * W;
  net_send : Z → bytes → W → option Z * W;
  net_destroy : Z → W → W;
}.

(** The statics of [fs/vfs.rs] and [fs/mod.rs], and the drivers below. *)
Record vfs (W D : Type) := Vfs {
  v_fs : option (nextfs D); v_tables : gmap Z fd_table; v_pipes : gmap Z pipe_state;
  v_next_pipe : Z; v_creds : gmap Z credentials; v_env : W }.
Arguments Vfs {W D}.
Arguments v_fs {W D}.
Arguments v_tables {W D}.
Arguments v_pipes {W D}.
Arguments v_next_pipe {W D}.
Arguments v_creds {W D}.
Arguments v_env {W D}.

Section table.
Context {W D : Type} `{KernelEnv W}.
Abbreviation vfs_op A := (stm (vfs W D) vfs_error A).

Definition set_fs (f : option (nextfs D)) (s : vfs W D) : vfs W D :=
  Vfs f (v_tables s) (v_pipes s) (v_next_pipe s) (v_creds s) (v_env s).
Definition set_tables (t : gmap Z fd_table) (s : vfs W D) : vfs W D :=
  Vfs (v_fs s) t (v_pipes s) (v_next_pipe s) (v_creds s) (v_env s).
Definition set_pipes (p : gmap Z pipe_state) (s : vfs W D) : vfs W D :=
  Vfs (v_fs s) (v_tables s) p (v_next_pipe s) (v_creds s) (v_env s).
Definition set_next_pipe (n : Z) (s : vfs W D) : vfs W D :=
  Vfs (v_fs s) (v_tables s) (v_pipes s) n (v_creds s) (v_env s).
Definition set_creds (c : gmap Z credentials) (s : vfs W D) : vfs W D :=
  Vfs (v_fs s) (v_tables s) (v_pipes s) (v_next_pipe s) c (v_env s).
Definition set_env (e : W) (s : vfs W D) : vfs W D :=
  Vfs (v_fs s) (v_tables s) (v_pipes s) (v_next_pipe s) (v_creds s) e.

(** ** Pipe reference counts *)

(** [fs/vfs.rs:195-204, pipe_dup_end] *)
Definition pipe_dup_end (id : Z) (is_write : bool) (ps : gmap Z pipe_state) : gmap Z pipe_state :=
  match ps !! id with
  | Some p =>
      <[id := if is_write then Pipe (p_buf p) (p_read_ends p) (wrap32 (p_write_ends p + 1))
              else Pipe (p_buf p) (wrap32 (p_read_ends p + 1)) (p_write_ends p)]> ps
  | None => ps
  end.

(** [fs/vfs.rs:209-221, pipe_close_end] *)
Definition pipe_close_end (id : Z) (is_write : bool) (ps : gmap Z pipe_state) : gmap Z pipe_state :=
  match ps !! id with
  | Some p =>
      let p' := if is_write then Pipe (p_buf p) (p_read_ends p) (sat_sub (p_write_ends p) 1)
                else Pipe (p_buf p) (sat_sub (p_read_ends p) 1) (p_write_ends p) in
      if decide (p_read_ends p' = 0 ∧ p_write_ends p' = 0)
      then delete id ps else <[id := p']> ps
  | None => ps
  end.

(** ** Descriptor tables *)

(** [fs/vfs.rs:231-236, FdTable::new] *)
Definition table_new : fd_table := FdTable ∅ 3.

(** The search of [alloc_fd]. *)
Fixpoint next_free (fuel : nat) (files : gmap Z open_file) (next : Z) : outcome vfs_error Z :=
  match fuel with
  | O => Diverge
  | S fuel =>
      match files !! next with
      | Some _ =>
          let n := wrap32 (next + 1) in
          next_free fuel files (if decide (MAX_FDS_PER_TASK ≤ n) then 3 else n)
      | None => Ok next
      end
  end.

(** Rounds after which the search has seen every descriptor it can reach. *)
Definition search_rounds : nat := 66.

(** [fs/vfs.rs:238-255, FdTable::alloc_fd] *)
Definition alloc_fd (file : open_file) (t : fd_table) : outcome vfs_error (Z * fd_table) :=
  if decide (MAX_FDS_PER_TASK ≤ Z.of_nat (size (t_files t))) then Err VTooManyFiles else
  let? fd := next_free search_rounds (t_files t) (t_next_fd t) in
  Ok (fd, FdTable (<[fd := file]> (t_files t)) (wrap32 (fd + 1))).

(** [tables.get_mut(&task_id).ok_or(InvalidOperation)?], then an update. *)
Definition with_table {A} (task : Z) (f : fd_table → outcome vfs_error (A * fd_table)) : vfs_op A := λ s,
  match v_tables s !! task with
  | None => (Err VInvalidOperation, s)
  | Some t =>
      match f t with
      | Ok (a, t') => (Ok a, set_tables (<[task := t']> (v_tables s)) s)
      | Err e => (Err e, s)
      | Panic => (Panic, s)
      | Diverge => (Diverge, s)
      end
  end.

(** [fs/vfs.rs:257-259, FdTable::get] *)
Definition table_get (fd : Z) (t : fd_table) : outcome vfs_error open_file :=
  ok_or (t_files t !! fd) VBadFileDescriptor.

(** The open file behind a descriptor of a task. *)
Definition get_file (task fd : Z) (s : vfs W D) : outcome vfs_error open_file :=
  let? t := ok_or (v_tables s !! task) VInvalidOperation in table_get fd t.

(** [fs/vfs.rs:261-263, FdTable::get_mut], and the assignment of the position. *)
Definition set_pos (task fd pos : Z) : vfs_op unit :=
  with_table task (λ t,
    let? f := table_get fd t in
    Ok (tt, FdTable (<[fd := OpenFile (f_type f) (f_flags f) pos]> (t_files t)) (t_next_fd t))).

(** [fs/vfs.rs:265-268, FdTable::close] *)
Definition table_close (fd : Z) (t : fd_table) : outcome vfs_error (unit * fd_table) :=
  let? _ := table_get fd t in
  Ok (tt, FdTable (delete fd (t_files t)) (t_next_fd t)).

(** The standard streams: keyboard, console, console. *)
Definition std_table : fd_table :=
  FdTable (<[STDERR := file_console true]> (<[STDOUT := file_console true]>
            (<[STDIN := file_keyboard]> (t_files table_new)))) (t_next_fd table_new).

(** [fs/vfs.rs:342-355, init_task_fds] *)
Definition init_task_fds (task : Z) (s : vfs W D) : vfs W D :=
  set_tables (<[task := std_table]> (v_tables s)) s.

(** ** Credentials *)

(** [fs/vfs.rs:296-302, credentials] *)
Definition creds_of (task : Z) (s : vfs W D) : credentials :=
  default cred_root (v_creds s !! task).

(** [fs/vfs.rs:305-307, set_credentials] *)
Definition set_credentials (task uid gid : Z) (s : vfs W D) : vfs W D :=
  set_creds (<[task := Credentials uid gid]> (v_creds s)) s.

(** ** Release and duplication of a whole table *)

(** What closing a file releases: a pipe end or a socket. *)
Definition release_file (f : open_file) (s : vfs W D) : vfs W D :=
  match f_type f with
  | PipeEnd id w => set_pipes (pipe_close_end id w (v_pipes s)) s
  | Socket id => set_env (net_destroy id (v_env s)) s
  | _ => s
  end.

(** [fs/vfs.rs:358-380, cleanup_task_fds] *)
Definition cleanup_task_fds (task : Z) (s : vfs W D) : vfs W D :=
  let s1 :=
    match v_tables s !! task with
    | None => s
    | Some t =>
        foldl (λ s f, release_file f s) (set_tables (delete task (v_tables s)) s)
          (snd <$> map_to_list (t_files t))
    end in
  set_creds (delete task (v_creds s1)) s1.

Definition dup_file (f : open_file) (ps : gmap Z pipe_state) : gmap Z pipe_state :=
  match f_type f with PipeEnd id w => pipe_dup_end id w ps | _ => ps end.

(** [fs/vfs.rs:389-426, clone_task_fds] *)
Definition clone_task_fds (parent child : Z) (s : vfs W D) : vfs W D :=
  let s1 :=
    match v_tables s !! parent with
    | Some t =>
        set_tables (<[child := t]> (v_tables s))
          (set_pipes (foldl (λ ps f, dup_file f ps) (v_pipes s)
             (snd <$> map_to_list (t_files t))) s)
    | None => set_tables (<[child := std_table]> (v_tables s)) s
    end in
  set_creds (<[child := creds_of parent s]> (v_creds s1)) s1.

(** ** Closing, pipes, sockets *)

(** [fs/vfs.rs:815-850, close] *)
Definition close (task fd : Z) : vfs_op unit :=
  let! f := sread (get_file task fd) in
  let! _ := with_table task (table_close fd) in
  smodify (release_file f).

(** [fs/vfs.rs:853-879, pipe]: the second [alloc_fd] runs on the table that
    already holds the read end. *)
Definition pipe (task : Z) : vfs_op (Z * Z) := λ s,
  match v_tables s !! task with
  | None => (Err VInvalidOperation, s)
  | Some _ =>
      let id := v_next_pipe s in
      (let! _ := smodify (set_next_pipe (wrap64 (id + 1))) in
       let! r := with_table task (alloc_fd (file_pipe id false)) in
       let! w := with_table task (alloc_fd (file_pipe id true)) in
       let! _ := smodify (λ s, set_pipes (<[id := Pipe [] 1 1]> (v_pipes s)) s) in
       sret (r, w)) s
  end.

(** [fs/vfs.rs:882-898, socket] *)
Definition socket (task socket_id : Z) : vfs_op Z :=
  with_table task (alloc_fd (OpenFile (Socket socket_id) rdwr 0)).
End table.
