(* ===== verification/Vfs.v ===== *)
(** * The file system calls (kernel/src/fs/vfs.rs, kernel/src/fs/mod.rs)

    Paths, [open], [read], [write], [seek] and the calls on paths, over the
    tables of [VfsTable] and the NextFS operations.  A call that blocks yields
    to the other tasks: it takes the list [sched] of what those do to the state
    at each yield; a call that would yield once more is still blocked
    ([Diverge]). *)

From S2P Require Import Prelude Block NextfsLayout NextfsAlloc NextfsFile NextfsDir VfsTable.

(** ** Paths *)

Definition SLASH : Z := 47.

(** [str::rfind('/')] *)
Fixpoint rfind_slash (p : bytes) : option nat :=
  match p with
  | [] => None
  | b :: p =>
      match rfind_slash p with
      | Some i => Some (S i)
      | None => if b =? SLASH then Some O else None
      end
  end.

(** [fs/vfs.rs:429-437, split_path] *)
Definition split_path (path : bytes) : bytes * bytes :=
  match rfind_slash path with
  | Some pos => (if decide (pos = O) then [SLASH] else take pos path, drop (S pos) path)
  | None => ([SLASH], path)
  end.

(** [str::trim_start_matches('/')] *)
Fixpoint trim_slashes (p : bytes) : bytes :=
  match p with
  | b :: q => if b =? SLASH then trim_slashes q else p
  | [] => []
  end.

(** [str::split('/')] *)
Fixpoint split_slash (p : bytes) : list bytes :=
  match p with
  | [] => [[]]
  | b :: p =>
      if b =? SLASH then [] :: split_slash p else
      match split_slash p with
      | part :: parts => (b :: part) :: parts
      | [] => [[b]]
      end
  end.

Definition path_parts (p : bytes) : list bytes :=
  filter (λ s, s ≠ []) (split_slash (trim_slashes p)).

(** [char::encode_utf8] *)
Definition encode_utf8 (c : Z) : bytes :=
  if decide (c < 128) then [c] else
  if decide (c < 2048) then [192 + c / 64; 128 + c mod 64] else
  if decide (c < 65536) then [224 + c / 4096; 128 + c / 64 mod 64; 128 + c mod 64] else
  [240 + c / 262144; 128 + c / 4096 mod 64; 128 + c / 64 mod 64; 128 + c mod 64].

(** [fs/vfs.rs:89-93, SeekWhence] *)
Inductive seek_whence : Type := SeekSet | SeekCurrent | SeekEnd.

Section vfs.
Context {W D : Type} `{KernelEnv W} `{BlockDev D}.
Abbreviation vfs_op A := (stm (vfs W D) vfs_error A).

(** [fs/mod.rs:107-113, with_fs]: the closure gets the mounted volume. *)
Definition with_fs {A} (f : nextfs D → outcome fs_error A) (s : vfs W D) : outcome vfs_error A :=
  match v_fs s with
  | None => Err VNotMounted
  | Some fs => map_err from_fs_error (f fs)
  end.

(** [fs/mod.rs:117-123, with_fs_mut] *)
Definition with_fs_mut {A} (m : stm (nextfs D) fs_error A) : vfs_op A := λ s,
  match v_fs s with
  | None => (Err VNotMounted, s)
  | Some fs => let '(r, fs') := m fs in (map_err from_fs_error r, set_fs (Some fs') s)
  end.

(** [fs/mod.rs:77-81, mount]: [d] is the block layer as it is. *)
Definition mount_fs (dev : nat) (d : D) (s : vfs W D) : outcome fs_error unit * vfs W D :=
  match mount dev d with
  | Ok fs => (Ok tt, set_fs (Some fs) s)
  | Err e => (Err e, s)
  | Panic => (Panic, s)
  | Diverge => (Diverge, s)
  end.

(** [fs/mod.rs:84-86, unmount] *)
Definition unmount_fs (s : vfs W D) : vfs W D := set_fs None s.

Fixpoint walk (parts : list bytes) (inode : Z) (fs : nextfs D) : outcome fs_error Z :=
  match parts with
  | [] => Ok inode
  | part :: parts => let? next := dir_lookup inode part fs in walk parts next fs
  end.

(** [fs/vfs.rs:440-462, resolve_path] *)
Definition resolve_path (path : bytes) (s : vfs W D) : outcome vfs_error Z :=
  if decide (path = []) then Err VNotFound else
  with_fs (λ fs, if decide (path = [SLASH]) then Ok ROOT_INODE
                 else walk (path_parts path) ROOT_INODE fs) s.

(** [fs/vfs.rs:912-919, require_dir_write] *)
Definition require_dir_write (task dir : Z) (s : vfs W D) : outcome vfs_error unit :=
  let c := creds_of task s in
  with_fs (check_permission dir (c_uid c) (c_gid c) MAY_WRITE) s.

(** Run an operation and drop its error ([let _ = ...]). *)
Definition ignore_err {S E A} (m : stm S E A) : stm S E unit := λ s,
  match m s with
  | (Panic, s') => (Panic, s')
  | (Diverge, s') => (Diverge, s')
  | (_, s') => (Ok tt, s')
  end.

(** The inode [open] works on: resolved, truncated or created. *)
Definition open_inode (ticks task : Z) (path : bytes) (flags : open_flags) : vfs_op Z := λ s,
  if of_create flags then
    match resolve_path path s with
    | Ok inode =>
        (if of_truncate flags
         then let! _ := with_fs_mut (truncate inode 0) in sret inode
         else sret inode) s
    | Err VNotFound | Err (VFsError NotFound) =>
        (let '(parent_path, name) := split_path path in
         let! parent := sread (resolve_path parent_path) in
         let! _ := sread (require_dir_write task parent) in
         let! c := sget (creds_of task) in
         with_fs_mut
           (let! n := create_file ticks parent name in
            let! _ := ignore_err (chown ticks n (c_uid c) (c_gid c)) in
            sret n)) s
    | r => (r, s)
    end
  else (resolve_path path s, s).

(** [fs/vfs.rs:465-537, open] *)
Definition open (ticks task : Z) (path : bytes) (flags : open_flags) : vfs_op Z :=
  let! inode := open_inode ticks task path flags in
  let! c := sget (creds_of task) in
  let want := Z.lor (if of_read flags then MAY_READ else 0) (if of_write flags then MAY_WRITE else 0) in
  let! _ :=
    (if decide (want ≠ 0)
     then sread (with_fs (check_permission inode (c_uid c) (c_gid c) want))
     else sret tt) in
  let! pos :=
    (if of_append flags
     then sread (with_fs (λ fs, let? i := read_inode inode fs in Ok (i_size i)))
     else sret 0) in
  with_table task (alloc_fd (OpenFile (Regular inode) flags pos)).

(** ** Reading *)

(** The inner loop of a pipe read: as many bytes as there are, or fit. *)
Definition pipe_take (n : nat) (p : pipe_state) : bytes * pipe_state :=
  (take n (p_buf p), Pipe (drop n (p_buf p)) (p_read_ends p) (p_write_ends p)).

(** One round under the lock of [PIPES]; [None]: yield and try again. *)
Definition pipe_read_round (id : Z) (len : nat) (s : vfs W D) : option bytes * vfs W D :=
  match v_pipes s !! id with
  | Some p =>
      if decide (p_buf p ≠ []) then
        let '(data, p') := pipe_take len p in
        (Some data, set_pipes (<[id := p']> (v_pipes s)) s)
      else if decide (p_write_ends p = 0) then (Some [], s) else (None, s)
  | None => (Some [], s)
  end.

Fixpoint pipe_read_loop (sched : list (vfs W D → vfs W D)) (id : Z) (len : nat) : vfs_op bytes := λ s,
  match pipe_read_round id len s with
  | (Some data, s') => (Ok data, s')
  | (None, s') =>
      match sched with
      | [] => (Diverge, s')
      | others :: sched => pipe_read_loop sched id len (others s')
      end
  end.

(** [read_char_blocking] *)
Fixpoint read_char_blocking (sched : list (vfs W D → vfs W D)) : vfs_op Z := λ s,
  match con_read_char (v_env s) with
  | (Some c, e) => (Ok c, set_env e s)
  | (None, e) =>
      match sched with
      | [] => (Diverge, set_env e s)
      | others :: sched => read_char_blocking sched (others (set_env e s))
      end
  end.

(** The characters already buffered: a character that does not fit ends the
    loop after it was taken from the buffer. *)
Fixpoint read_chars (fuel : nat) (len : nat) (acc : bytes) (e : W) : bytes * W :=
  match fuel with
  | O => (acc, e)
  | S fuel =>
      if decide (length acc < len)%nat then
        match con_read_char e with
        | (Some c, e') =>
            if decide (len < length acc + length (encode_utf8 c))%nat then (acc, e')
            else read_chars fuel len (acc ++ encode_utf8 c) e'
        | (None, e') => (acc, e')
        end
      else (acc, e)
  end.

Definition keyboard_read (sched : list (vfs W D → vfs W D)) (len : nat) : vfs_op bytes :=
  let! acc :=
    (if decide (0 < len)%nat then
       let! c := read_char_blocking sched in
       sret (if decide (length (encode_utf8 c) ≤ len)%nat then encode_utf8 c else [])
     else sret []) in
  λ s, let '(data, e) := read_chars (S len) len acc (v_env s) in (Ok data, set_env e s).

(** [buf[..data.len()].copy_from_slice(data)] *)
Definition fill (buf data : bytes) : Z * bytes := (Z.of_nat (length data), splice 0 data buf).

(** [fs/vfs.rs:540-658, read]: the count and the buffer. *)
Definition read (sched : list (vfs W D → vfs W D)) (task fd : Z) (buf : bytes) : vfs_op (Z * bytes) :=
  let! f := sread (get_file task fd) in
  if negb (of_read (f_flags f)) then sthrow VWriteOnlyFile else
  match f_type f with
  | Regular inode =>
      let! r := sread (with_fs (read_inode_data inode (f_pos f) buf)) in
      let! f' := sread (get_file task fd) in
      let! _ := set_pos task fd (wrap64 (f_pos f' + r.1)) in
      sret r
  | Keyboard => let! data := keyboard_read sched (length buf) in sret (fill buf data)
  | Console => sthrow VWriteOnlyFile
  | PipeEnd id is_write =>
      if is_write then sthrow VWriteOnlyFile else
      let! data := pipe_read_loop sched id (length buf) in sret (fill buf data)
  | Socket id => λ s,
      match net_recv id buf (v_env s) with
      | (Some r, e) => (Ok r, set_env e s)
      | (None, e) => (Err VInvalidOperation, set_env e s)
      end
  end.

(** ** Writing *)

(** One round of a pipe write under the lock: how far it got, and whether it
    must yield; [None]: the pipe is gone or has no reader. *)
Definition pipe_write_round (id : Z) (data : bytes) (written : nat) (s : vfs W D)
  : option (nat * bool) * vfs W D :=
  match v_pipes s !! id with
  | None => (None, s)
  | Some p =>
      if decide (p_read_ends p = 0) then (None, s) else
      let space := Z.to_nat (PIPE_CAPACITY - Z.of_nat (length (p_buf p))) in
      if decide (space = O) then (Some (written, true), s) else
      let n := Nat.min space (length data - written) in
      (Some (written + n, false)%nat,
       set_pipes (<[id := Pipe (p_buf p ++ slice written n data) (p_read_ends p) (p_write_ends p)]>
         (v_pipes s)) s)
  end.

Fixpoint pipe_write_loop (fuel : nat) (sched : list (vfs W D → vfs W D)) (id : Z) (data : bytes)
  (written : nat) : vfs_op nat := λ s,
  match fuel with
  | O => (Diverge, s)
  | S fuel =>
      match pipe_write_round id data written s with
      | (None, s') => (Ok written, s')
      | (Some (written', full), s') =>
          if decide (length data ≤ written')%nat then (Ok written', s') else
          if full then
            match sched with
            | [] => (Diverge, s')
            | others :: sched => pipe_write_loop fuel sched id data written' (others s')
            end
          else pipe_write_loop fuel sched id data written' s'
      end
  end.

(** Between two yields there are at most two rounds: one that fills the pipe,
    one that finds it full. *)
Definition write_rounds (sched : list (vfs W D → vfs W D)) : nat := 2 * length sched + 3.

(** [fs/vfs.rs:661-764, write] *)
Definition write (sched : list (vfs W D → vfs W D)) (ticks task fd : Z) (buf : bytes) : vfs_op Z :=
  let! f := sread (get_file task fd) in
  if negb (of_write (f_flags f)) then sthrow VReadOnlyFile else
  match f_type f with
  | Regular inode =>
      let! n := with_fs_mut (write_at ticks inode (f_pos f) buf) in
      let! f' := sread (get_file task fd) in
      let! _ := set_pos task fd (wrap64 (f_pos f' + n)) in
      sret n
  | Console =>
      let! _ := smodify (λ s, set_env (foldl (λ e b, con_write b e) (v_env s) buf) s) in
      sret (Z.of_nat (length buf))
  | Keyboard => sthrow VReadOnlyFile
  | PipeEnd id is_write =>
      if negb is_write then sthrow VReadOnlyFile else
      let! written := pipe_write_loop (write_rounds sched) sched id buf 0 in
      if decide (written = O ∧ buf ≠ []) then sthrow VInvalidOperation
      else sret (Z.of_nat written)
  | Socket id => λ s,
      match net_send id buf (v_env s) with
      | (Some n, e) => (Ok n, set_env e s)
      | (None, e) => (Err VInvalidOperation, set_env e s)
      end
  end.

(** ** Seeking *)

(** [fs/vfs.rs:767-812, seek]: [offset] is an [i64]. *)
Definition seek (task fd offset : Z) (whence : seek_whence) : vfs_op Z :=
  let! f := sread (get_file task fd) in
  match f_type f with
  | Regular inode =>
      let! file_size := sread (with_fs (λ fs, let? i := read_inode inode fs in Ok (i_size i))) in
      let base := match whence with
                  | SeekSet => 0 | SeekCurrent => f_pos f | SeekEnd => file_size end in
      let result := signed 64 (signed 64 base + offset) in
      if decide (result < 0) then sthrow VInvalidOperation else
      let! _ := set_pos task fd result in
      sret result
  | _ => sthrow VInvalidOperation
  end.

(** ** Calls on paths *)

(** [fs/vfs.rs:901-909, readdir] *)
Definition readdir (path : bytes) (s : vfs W D) : outcome vfs_error (list (bytes * Z)) :=
  let? inode := resolve_path path s in with_fs (dir_list inode) s.

(** The directory of a path, if the task may write to it, and the last name. *)
Definition writable_parent (task : Z) (path : bytes) (s : vfs W D) : outcome vfs_error (Z * bytes) :=
  let '(parent_path, name) := split_path path in
  let? parent := resolve_path parent_path s in
  let? _ := require_dir_write task parent s in
  Ok (parent, name).

(** [fs/vfs.rs:922-932, unlink] *)
Definition unlink_path (ticks task : Z) (path : bytes) : vfs_op unit :=
  let! p := sread (writable_parent task path) in
  with_fs_mut (unlink ticks p.1 p.2).

(** [fs/vfs.rs:935-945, rmdir] *)
Definition rmdir_path (task : Z) (path : bytes) : vfs_op unit :=
  let! p := sread (writable_parent task path) in
  with_fs_mut (rmdir p.1 p.2).

(** [fs/vfs.rs:949-962, mkdir] *)
Definition mkdir (ticks task : Z) (path : bytes) : vfs_op unit :=
  let! p := sread (writable_parent task path) in
  let! c := sget (creds_of task) in
  with_fs_mut
    (let! n := create_dir ticks p.1 p.2 in
     ignore_err (chown ticks n (c_uid c) (c_gid c))).

(** [fs/vfs.rs:965-975, truncate] *)
Definition truncate_path (task : Z) (path : bytes) (size : Z) : vfs_op unit :=
  let! inode := sread (resolve_path path) in
  let! c := sget (creds_of task) in
  with_fs_mut
    (let! _ := sread (check_permission inode (c_uid c) (c_gid c) MAY_WRITE) in
     truncate inode size).

(** [fs/vfs.rs:978-985, stat] *)
Definition stat_path (path : bytes) (s : vfs W D) : outcome vfs_error file_stat :=
  let? inode := resolve_path path s in with_fs (stat inode) s.

(** [fs/vfs.rs:988-1001, chmod] *)
Definition chmod_path (ticks task : Z) (path : bytes) (mode : Z) : vfs_op unit :=
  let! inode := sread (resolve_path path) in
  let! c := sget (creds_of task) in
  let! st := sread (with_fs (stat inode)) in
  if decide (c_uid c ≠ 0 ∧ c_uid c ≠ st_uid st) then sthrow VPermissionDenied else
  with_fs_mut (chmod ticks inode mode).

(** [fs/vfs.rs:1004-1017, chown] *)
Definition chown_path (ticks task : Z) (path : bytes) (uid gid : Z) : vfs_op unit :=
  let! inode := sread (resolve_path path) in
  let! c := sget (creds_of task) in
  if decide (c_uid c ≠ 0) then sthrow VPermissionDenied else
  with_fs_mut (chown ticks inode uid gid).
End vfs.
