(* ===== verification/VfsPipes.v ===== *)
(** * Pipes: reference counts and byte streams

    The counters of a pipe count the descriptors, over all tasks, that are open
    on its ends; so end of file and broken pipe are reported exactly when the
    other side is gone, and a pipe delivers the bytes written to it, once and
    in order.  Steps are the atomic sections of the system calls, in any
    interleaving. *)

From S2P Require Import Prelude Block NextfsLayout NextfsAlloc NextfsFile NextfsDir VfsTable Vfs.

(** ** Counting open ends *)

Definition end_of (id : Z) (w : bool) (f : open_file) : Z :=
  if decide (f_type f = PipeEnd id w) then 1 else 0.
Definition ends_in (id : Z) (w : bool) (t : fd_table) : Z := msum (end_of id w) (t_files t).
Definition open_ends (ts : gmap Z fd_table) (id : Z) (w : bool) : Z := msum (ends_in id w) ts.

Lemma end_of_nonneg id w f : 0 ≤ end_of id w f.
Proof. unfold end_of. case_decide; lia. Qed.
Lemma ends_in_nonneg id w t : 0 ≤ ends_in id w t.
Proof. apply msum_nonneg, end_of_nonneg. Qed.
Lemma open_ends_nonneg ts id w : 0 ≤ open_ends ts id w.
Proof. apply msum_nonneg, ends_in_nonneg. Qed.
#[export] Hint Resolve end_of_nonneg ends_in_nonneg open_ends_nonneg : core.

(** The counters of the live pipes are the counts [n]. *)
Definition counts_ok (ps : gmap Z pipe_state) (n : Z → bool → Z) : Prop :=
  ∀ id p, ps !! id = Some p →
    p_read_ends p = n id false ∧ p_write_ends p = n id true ∧ 0 < n id false + n id true.

(** No operation on counters invents or changes buffered bytes. *)
Definition bufs_kept (ps ps' : gmap Z pipe_state) : Prop :=
  ∀ id p', ps' !! id = Some p' → ∃ p, ps !! id = Some p ∧ p_buf p' = p_buf p.

Lemma counts_ok_ext ps n n' : (∀ id w, n id w = n' id w) → counts_ok ps n → counts_ok ps n'.
Proof. intros He Hc id p Hp. rewrite <-!He. by apply Hc. Qed.

Lemma bufs_kept_refl ps : bufs_kept ps ps.
Proof. intros id p. eauto. Qed.
Lemma bufs_kept_trans ps1 ps2 ps3 : bufs_kept ps1 ps2 → bufs_kept ps2 ps3 → bufs_kept ps1 ps3.
Proof.
  intros H1 H2 id p (p2&Hp2&He2)%H2. apply H1 in Hp2 as (p1&Hp1&He1). exists p1. split; congruence.
Qed.

(** Releasing the end a file stands for. *)
Definition close_file (f : open_file) (ps : gmap Z pipe_state) : gmap Z pipe_state :=
  match f_type f with PipeEnd id w => pipe_close_end id w ps | _ => ps end.

Lemma close_file_counts f ps n :
  counts_ok ps n → (∀ id w, end_of id w f ≤ n id w) →
  counts_ok (close_file f ps) (λ id w, n id w - end_of id w f) ∧ bufs_kept ps (close_file f ps).
Proof.
  intros Hc Hn. unfold close_file. destruct (f_type f) as [i| | |id w|i] eqn:Hf;
    try (split; [|apply bufs_kept_refl]; eapply counts_ok_ext; [|done];
         intros id w; unfold end_of; rewrite Hf, decide_False by done; lia).
  unfold pipe_close_end. destruct (ps !! id) as [p|] eqn:Hp.
  2: { split; [|apply bufs_kept_refl]. intros id' p Hp'. destruct (Hc id' p Hp') as (?&?&?).
       unfold end_of. rewrite Hf, !decide_False by congruence. rewrite !Z.sub_0_r. done. }
  destruct (Hc id p Hp) as (Hr&Hw&Hpos).
  assert (1 ≤ n id w) as H1.
  { specialize (Hn id w). unfold end_of in Hn. rewrite Hf, decide_True in Hn by done. lia. }
  assert (∀ id' w', end_of id' w' f = if decide (id' = id ∧ w' = w) then 1 else 0) as He.
  { intros. unfold end_of. rewrite Hf. apply decide_ext. naive_solver. }
  set (p' := if w then _ else _).
  assert (p_read_ends p' = n id false - end_of id false f ∧
    p_write_ends p' = n id true - end_of id true f ∧ p_buf p' = p_buf p) as (Hr'&Hw'&Hb').
  { unfold p', sat_sub. rewrite !He. destruct w; simpl; split_and!;
      repeat case_decide; destruct_and?; try done; lia. }
  case_decide as Hz.
  - split.
    + intros id' q [Hne Hq]%lookup_delete_Some. destruct (Hc id' q Hq) as (?&?&?).
      rewrite !He, !decide_False by naive_solver. rewrite !Z.sub_0_r. done.
    + intros id' q [Hne Hq]%lookup_delete_Some. eauto.
  - split.
    + intros id' q. destruct (decide (id' = id)) as [->|Hne].
      * rewrite lookup_insert_eq. intros [= <-]. split_and!; [done|done|].
        rewrite <-Hr', <-Hw'. pose proof (Hn id false). pose proof (Hn id true). lia.
      * rewrite lookup_insert_ne by done. intros Hq. destruct (Hc id' q Hq) as (?&?&?).
        rewrite !He, !decide_False by naive_solver. rewrite !Z.sub_0_r. done.
    + intros id' q. destruct (decide (id' = id)) as [->|Hne].
      * rewrite lookup_insert_eq. intros [= <-]. eauto.
      * rewrite lookup_insert_ne by done. eauto.
Qed.

Lemma dup_file_counts f ps n :
  counts_ok ps n → (∀ id w, 0 ≤ n id w) → (∀ id w, n id w + end_of id w f < 2 ^ 32) →
  counts_ok (dup_file f ps) (λ id w, n id w + end_of id w f) ∧ bufs_kept ps (dup_file f ps).
Proof.
  intros Hc H0 Hn. unfold dup_file. destruct (f_type f) as [i| | |id w|i] eqn:Hf;
    try (split; [|apply bufs_kept_refl]; eapply counts_ok_ext; [|done];
         intros id w; unfold end_of; rewrite Hf, decide_False by done; lia).
  assert (∀ id' w', end_of id' w' f = if decide (id' = id ∧ w' = w) then 1 else 0) as He.
  { intros. unfold end_of. rewrite Hf. apply decide_ext. naive_solver. }
  unfold pipe_dup_end. destruct (ps !! id) as [p|] eqn:Hp.
  2: { split; [|apply bufs_kept_refl]. intros id' p Hp'. destruct (Hc id' p Hp') as (?&?&?).
       rewrite !He, !decide_False by naive_solver. rewrite !Z.add_0_r. done. }
  destruct (Hc id p Hp) as (Hr&Hw&Hpos).
  set (p' := if w then _ else _).
  assert (p_read_ends p' = n id false + end_of id false f ∧
    p_write_ends p' = n id true + end_of id true f ∧ p_buf p' = p_buf p) as (Hr'&Hw'&Hb').
  { pose proof (Hn id w) as Hb. pose proof (H0 id w). unfold p'. rewrite !He in *.
    rewrite decide_True in Hb by done. destruct w; simpl; rewrite wrap_small by lia; split_and!;
      repeat case_decide; destruct_and?; try done; lia. }
  split.
  - intros id' q. destruct (decide (id' = id)) as [->|Hne].
    + rewrite lookup_insert_eq. intros [= <-]. split_and!; [done|done|].
      pose proof (end_of_nonneg id false f). pose proof (end_of_nonneg id true f). lia.
    + rewrite lookup_insert_ne by done. intros Hq. destruct (Hc id' q Hq) as (?&?&?).
      rewrite !He, !decide_False by naive_solver. rewrite !Z.add_0_r. done.
  - intros id' q. destruct (decide (id' = id)) as [->|Hne].
    + rewrite lookup_insert_eq. intros [= <-]. eauto.
    + rewrite lookup_insert_ne by done. eauto.
Qed.

(** The files of a whole table. *)
Definition ends_list (id : Z) (w : bool) (fl : list open_file) : Z :=
  foldr (λ f acc, end_of id w f + acc) 0 fl.

Lemma ends_list_nonneg id w fl : 0 ≤ ends_list id w fl.
Proof. induction fl as [|f fl IH]; simpl; [done|]. pose proof (end_of_nonneg id w f). lia. Qed.

Lemma close_files_counts fl ps n :
  counts_ok ps (λ id w, n id w + ends_list id w fl) → (∀ id w, 0 ≤ n id w) →
  counts_ok (foldl (λ ps f, close_file f ps) ps fl) n ∧
  bufs_kept ps (foldl (λ ps f, close_file f ps) ps fl).
Proof.
  revert ps. induction fl as [|f fl IH]; intros ps Hc H0; simpl in *.
  { split; [|apply bufs_kept_refl]. eapply counts_ok_ext; [|done]. intros. simpl. lia. }
  destruct (close_file_counts f ps _ Hc) as [Hc1 Hb1].
  { intros id w. simpl. pose proof (H0 id w). pose proof (ends_list_nonneg id w fl). lia. }
  destruct (IH (close_file f ps)) as [Hc2 Hb2]; [|done|].
  { eapply counts_ok_ext; [|done]. intros. simpl. lia. }
  split; [done|]. by eapply bufs_kept_trans.
Qed.

Lemma dup_files_counts fl ps n :
  counts_ok ps n → (∀ id w, 0 ≤ n id w) → (∀ id w, n id w + ends_list id w fl < 2 ^ 32) →
  counts_ok (foldl (λ ps f, dup_file f ps) ps fl) (λ id w, n id w + ends_list id w fl) ∧
  bufs_kept ps (foldl (λ ps f, dup_file f ps) ps fl).
Proof.
  revert ps n. induction fl as [|f fl IH]; intros ps n Hc H0 Hn; simpl in *.
  { split; [|apply bufs_kept_refl]. eapply counts_ok_ext; [|done]. intros. simpl. lia. }
  destruct (dup_file_counts f ps n Hc H0) as [Hc1 Hb1].
  { intros id w. specialize (Hn id w). pose proof (ends_list_nonneg id w fl). lia. }
  destruct (IH (dup_file f ps) _ Hc1) as [Hc2 Hb2].
  { intros id w. pose proof (H0 id w). pose proof (end_of_nonneg id w f). lia. }
  { intros id w. specialize (Hn id w). lia. }
  split; [|by eapply bufs_kept_trans]. eapply counts_ok_ext; [|done]. intros. simpl. lia.
Qed.

(** What a step does with pipe data. *)
Inductive pipe_io : Type :=
| Wrote (id : Z) (data : bytes) | Got (id : Z) (data : bytes) | Silent.

Definition wrote (id : Z) (tr : list pipe_io) : bytes :=
  mjoin ((λ io, match io with Wrote i d => if decide (i = id) then d else [] | _ => [] end) <$> tr).
Definition got (id : Z) (tr : list pipe_io) : bytes :=
  mjoin ((λ io, match io with Got i d => if decide (i = id) then d else [] | _ => [] end) <$> tr).

Section pipes.
Context {W D : Type} `{KernelEnv W} `{BlockDev D}.
Implicit Types s : vfs W D.

(** ** The invariant *)

Record pipes_ok s : Prop := {
  po_counts : counts_ok (v_pipes s) (open_ends (v_tables s));
  po_known id p : v_pipes s !! id = Some p →
    0 ≤ id < v_next_pipe s ∧ Z.of_nat (length (p_buf p)) ≤ PIPE_CAPACITY;
  po_fresh id w : v_next_pipe s ≤ id → open_ends (v_tables s) id w = 0;
}.

(** Two states with the same pipes and the same open ends. *)
Definition pipes_same s s' : Prop :=
  v_pipes s' = v_pipes s ∧ v_next_pipe s' = v_next_pipe s ∧
  ∀ id w, open_ends (v_tables s') id w = open_ends (v_tables s) id w.

Lemma pipes_same_refl s : pipes_same s s.
Proof. done. Qed.
Lemma pipes_same_trans s1 s2 s3 : pipes_same s1 s2 → pipes_same s2 s3 → pipes_same s1 s3.
Proof. intros (?&?&He1) (?&?&He2). split_and!; [congruence..|]. intros. by rewrite He2, He1. Qed.

Lemma pipes_same_ok s s' : pipes_same s s' → pipes_ok s → pipes_ok s'.
Proof.
  intros (Hp&Hn&He) [P1 P2 P3]. split.
  - rewrite Hp. eapply counts_ok_ext; [|done]. done.
  - rewrite Hp, Hn. done.
  - intros id w. rewrite Hn, He. apply P3.
Qed.

(** ** Descriptor tables *)

Lemma next_free_None fuel files n fd : next_free fuel files n = Ok fd → files !! fd = None.
Proof.
  revert n. induction fuel as [|fuel IH]; intros n; simpl; [done|].
  destruct (files !! n) eqn:Hn; [apply IH|]. by intros [= <-].
Qed.

Lemma alloc_fd_Ok f t fd t' :
  alloc_fd f t = Ok (fd, t') →
  t_files t !! fd = None ∧ t_files t' = <[fd := f]> (t_files t) ∧
  Z.of_nat (size (t_files t')) ≤ MAX_FDS_PER_TASK.
Proof.
  unfold alloc_fd. case_decide as Hs; [done|]. intros (n&Hn&[= <- <-])%obind_Ok_inv.
  apply next_free_None in Hn. split_and!; [done|done|]. simpl. rewrite map_size_insert_None by done. lia.
Qed.

Lemma alloc_fd_ends f t fd t' id w :
  alloc_fd f t = Ok (fd, t') → ends_in id w t' = end_of id w f + ends_in id w t.
Proof. intros (Hn&He&_)%alloc_fd_Ok. unfold ends_in. rewrite He. by apply msum_insert. Qed.

Lemma with_table_inv {A} task (g : fd_table → outcome vfs_error (A * fd_table)) s r s' :
  with_table task g s = (r, s') →
  (∃ t t' a, v_tables s !! task = Some t ∧ g t = Ok (a, t') ∧ r = Ok a ∧
     s' = set_tables (<[task := t']> (v_tables s)) s) ∨ (s' = s ∧ ¬ ∃ a, r = Ok a).
Proof.
  unfold with_table. destruct (v_tables s !! task) as [t|]; [|right; naive_solver].
  destruct (g t) as [[a t']|e| |] eqn:Hg; [|right; naive_solver..]. intros [= <- <-]. left.
  by exists t, t', a.
Qed.

Lemma with_table_same {A} task (g : fd_table → outcome vfs_error (A * fd_table)) s r s' :
  (∀ t a t' id w, g t = Ok (a, t') → ends_in id w t' = ends_in id w t) →
  with_table task g s = (r, s') → pipes_same s s'.
Proof.
  intros Hg [(t&t'&a&Ht&He&_&->)|[-> _]]%with_table_inv; [|apply pipes_same_refl].
  split_and!; [done|done|]. intros id w. simpl. unfold open_ends.
  rewrite (msum_update _ _ _ _ _ Ht), (Hg _ _ _ id w He). lia.
Qed.

Lemma alloc_regular_same task f s r s' :
  (∀ id w, f_type f ≠ PipeEnd id w) →
  with_table task (alloc_fd f) s = (r, s') → pipes_same s s'.
Proof.
  intros Hf. apply with_table_same. intros t a t' id w Ha.
  rewrite (alloc_fd_ends _ _ _ _ _ _ Ha). unfold end_of. by rewrite decide_False.
Qed.

Lemma set_pos_same task fd pos s r s' : set_pos task fd pos s = (r, s') → pipes_same s s'.
Proof.
  apply with_table_same. intros t a t' id w (f&Hf&[= <- <-])%obind_Ok_inv.
  apply ok_or_Ok in Hf. unfold ends_in. simpl. rewrite (msum_update _ _ _ _ _ Hf).
  unfold end_of. simpl. lia.
Qed.

Lemma with_fs_mut_same {A} (m : stm (nextfs D) fs_error A) s r s' :
  with_fs_mut m s = (r, s') → pipes_same s s'.
Proof.
  unfold with_fs_mut. destruct (v_fs s) as [fs|]; [|by intros [= <- <-]].
  destruct (m fs). by intros [= <- <-].
Qed.

(** Combinators: a sequence of steps that leave the pipes alone. *)
Definition quiet {A} (m : stm (vfs W D) vfs_error A) : Prop :=
  ∀ s r s', m s = (r, s') → pipes_same s s'.

Lemma quiet_bind {A B} (m : stm (vfs W D) vfs_error A) (k : A → stm (vfs W D) vfs_error B) :
  quiet m → (∀ a, quiet (k a)) → quiet (sbind m k).
Proof.
  intros Hm Hk s r s'. unfold sbind. destruct (m s) as [o s1] eqn:Hs.
  pose proof (Hm _ _ _ Hs) as Hq. destruct o; [|by intros [= <- <-]..].
  intros Hr. eapply pipes_same_trans; [done|]. by eapply Hk.
Qed.

Lemma quiet_read {A} (f : vfs W D → outcome vfs_error A) : quiet (sread f).
Proof. by intros s r s' [= <- <-]. Qed.
Lemma quiet_ret {A} (a : A) : quiet (sret a).
Proof. by intros s r s' [= <- <-]. Qed.
Lemma quiet_throw {A} e : quiet (sthrow (A := A) e).
Proof. by intros s r s' [= <- <-]. Qed.
Lemma quiet_get {A} (f : vfs W D → A) : quiet (sget f).
Proof. by intros s r s' [= <- <-]. Qed.
Lemma quiet_fs {A} (m : stm (nextfs D) fs_error A) : quiet (with_fs_mut m).
Proof. intros s r s'. apply with_fs_mut_same. Qed.
Lemma quiet_pos task fd pos : quiet (set_pos task fd pos).
Proof. intros s r s'. apply set_pos_same. Qed.
Hint Resolve quiet_read quiet_ret quiet_throw quiet_get quiet_fs quiet_pos : quiet.

Lemma quiet_open_inode ticks task path flags : quiet (open_inode ticks task path flags).
Proof.
  intros s r s'. unfold open_inode. destruct (of_create flags); [|by intros [= <- <-]].
  destruct (resolve_path path s) as [i|[| | | | | | | | | | | |e]| |]; try (by intros [= <- <-]).
  - assert (quiet (if of_truncate flags then let! _ := with_fs_mut (truncate i 0) in sret i
      else sret i)) as Hq.
    { case_match; [|auto with quiet]. apply quiet_bind; auto with quiet. }
    apply Hq.
  - destruct (split_path path) as [pp name]. revert s r s'.
    change (quiet (let! parent := sread (resolve_path pp) in
         let! _ := sread (require_dir_write task parent) in
         let! c := sget (creds_of task) in
         with_fs_mut
           (let! n := create_file ticks parent name in
            let! _ := ignore_err (chown ticks n (c_uid c) (c_gid c)) in
            sret n))).
    repeat (apply quiet_bind; [auto with quiet|intros]). auto with quiet.
  - destruct e; try (by intros [= <- <-]). destruct (split_path path) as [pp name]. revert s r s'.
    change (quiet (let! parent := sread (resolve_path pp) in
         let! _ := sread (require_dir_write task parent) in
         let! c := sget (creds_of task) in
         with_fs_mut
           (let! n := create_file ticks parent name in
            let! _ := ignore_err (chown ticks n (c_uid c) (c_gid c)) in
            sret n))).
    repeat (apply quiet_bind; [auto with quiet|intros]). auto with quiet.
Qed.

Lemma quiet_open ticks task path flags : quiet (open ticks task path flags).
Proof.
  unfold open. apply quiet_bind; [apply quiet_open_inode|intros i].
  apply quiet_bind; [auto with quiet|intros c].
  apply quiet_bind; [case_decide; auto with quiet|intros []].
  apply quiet_bind; [case_match; auto with quiet|intros pos].
  intros s r s'. by apply alloc_regular_same.
Qed.

Lemma quiet_seek task fd off wh : quiet (seek task fd off wh).
Proof.
  unfold seek. apply quiet_bind; [auto with quiet|intros f].
  destruct (f_type f); auto with quiet. apply quiet_bind; [auto with quiet|intros sz].
  cbn zeta. case_decide; [auto with quiet|]. apply quiet_bind; [auto with quiet|]. auto with quiet.
Qed.

Lemma quiet_socket task id : quiet (socket task id).
Proof. intros s r s'. by apply alloc_regular_same. Qed.

(** ** Steps: the atomic sections of the calls, in any order *)

Inductive vfs_step : vfs W D → pipe_io → vfs W D → Prop :=
| step_init s task :
    v_tables s !! task = None → vfs_step s Silent (init_task_fds task s)
| step_clone s parent child :
    v_tables s !! child = None →
    (∀ id w, open_ends (v_tables s) id w +
       default 0 (ends_in id w <$> v_tables s !! parent) < 2 ^ 32) →
    vfs_step s Silent (clone_task_fds parent child s)
| step_cleanup s task : vfs_step s Silent (cleanup_task_fds task s)
| step_creds s task uid gid : vfs_step s Silent (set_credentials task uid gid s)
| step_open s ticks task path flags r s' :
    open ticks task path flags s = (r, s') → vfs_step s Silent s'
| step_close s task fd r s' : close task fd s = (r, s') → vfs_step s Silent s'
| step_pipe s task r s' :
    0 ≤ v_next_pipe s < 2 ^ 64 - 1 → pipe task s = (r, s') → vfs_step s Silent s'
| step_socket s task id r s' : socket task id s = (r, s') → vfs_step s Silent s'
| step_seek s task fd off wh r s' : seek task fd off wh s = (r, s') → vfs_step s Silent s'
| step_read s task fd f i buf r s' :
    get_file task fd s = Ok f → f_type f = Regular i →
    read [] task fd buf s = (r, s') → vfs_step s Silent s'
| step_write s ticks task fd f i buf r s' :
    get_file task fd s = Ok f → f_type f = Regular i →
    write [] ticks task fd buf s = (r, s') → vfs_step s Silent s'
| step_volume s A (m : stm (nextfs D) fs_error A) r s' :
    with_fs_mut m s = (r, s') → vfs_step s Silent s'
| step_pipe_read s task fd f id len data s' :
    get_file task fd s = Ok f → f_type f = PipeEnd id false →
    pipe_read_round id len s = (Some data, s') → vfs_step s (Got id data) s'
| step_pipe_write s task fd f id data written written' full s' :
    get_file task fd s = Ok f → f_type f = PipeEnd id true →
    pipe_write_round id data written s = (Some (written', full), s') →
    vfs_step s (Wrote id (slice written (written' - written) data)) s'.

Inductive vfs_run : vfs W D → list pipe_io → vfs W D → Prop :=
| run_nil s : vfs_run s [] s
| run_cons s io s1 tr s2 : vfs_step s io s1 → vfs_run s1 tr s2 → vfs_run s (io :: tr) s2.

(** ** Every step keeps the invariant and the buffers *)

(** What one step does to the buffer of a pipe that is there after it; only
    ids from [next] on can be new. *)
Definition buf_effect (next : Z) (io : pipe_io) (ps ps' : gmap Z pipe_state) : Prop :=
  ∀ id p', ps' !! id = Some p' →
    (∃ p, ps !! id = Some p ∧ p_buf p ++ wrote id [io] = got id [io] ++ p_buf p') ∨ next ≤ id.

Lemma bufs_kept_effect next ps ps' : bufs_kept ps ps' → buf_effect next Silent ps ps'.
Proof.
  intros Hb id p' (p&Hp&He)%Hb. left. exists p. split; [done|]. simpl. by rewrite app_nil_r.
Qed.

Definition step_ok s io s' : Prop :=
  pipes_ok s' ∧ buf_effect (v_next_pipe s) io (v_pipes s) (v_pipes s') ∧
  v_next_pipe s ≤ v_next_pipe s'.

Lemma step_ok_same s s' : pipes_same s s' → pipes_ok s → step_ok s Silent s'.
Proof.
  intros Hs Hok. split_and!; [by eapply pipes_same_ok| |destruct Hs as (_&->&_); lia].
  apply bufs_kept_effect. destruct Hs as (->&_). apply bufs_kept_refl.
Qed.

Lemma step_ok_counts s s' :
  pipes_ok s → counts_ok (v_pipes s') (open_ends (v_tables s')) →
  bufs_kept (v_pipes s) (v_pipes s') → v_next_pipe s' = v_next_pipe s →
  (∀ id w, v_next_pipe s ≤ id → open_ends (v_tables s') id w = 0) →
  step_ok s Silent s'.
Proof.
  intros [P1 P2 P3] Hc Hb Hn Hf. split_and!; [|by apply bufs_kept_effect|lia].
  split; [done| |by rewrite Hn]. rewrite Hn. intros id p (q&Hq&->)%Hb. by apply P2.
Qed.

Lemma release_files_pipes fl s :
  let s' := foldl (λ s f, release_file f s) s fl in
  v_pipes s' = foldl (λ ps f, close_file f ps) (v_pipes s) fl ∧
  v_tables s' = v_tables s ∧ v_next_pipe s' = v_next_pipe s ∧ v_creds s' = v_creds s.
Proof.
  revert s. induction fl as [|f fl IH]; intros s; simpl; [done|].
  destruct (IH (release_file f s)) as (->&->&->&->). unfold release_file, close_file.
  by destruct (f_type f).
Qed.

Lemma std_table_ends id w : ends_in id w std_table = 0.
Proof. reflexivity. Qed.

Lemma init_step_ok s task : v_tables s !! task = None → pipes_ok s →
  step_ok s Silent (init_task_fds task s).
Proof.
  intros Ht. apply step_ok_same. split_and!; [done|done|]. intros id w. simpl. unfold open_ends.
  by rewrite msum_insert, std_table_ends by done.
Qed.

Lemma clone_step_ok s parent child :
  v_tables s !! child = None →
  (∀ id w, open_ends (v_tables s) id w +
     default 0 (ends_in id w <$> v_tables s !! parent) < 2 ^ 32) →
  pipes_ok s → step_ok s Silent (clone_task_fds parent child s).
Proof.
  intros Hc Hb Hok. unfold clone_task_fds. destruct (v_tables s !! parent) as [t|] eqn:Hp.
  2: { apply step_ok_same; [|done]. split_and!; [done|done|]. intros id w. simpl. unfold open_ends.
       by rewrite msum_insert, std_table_ends by done. }
  simpl in Hb.
  assert (∀ id w, ends_list id w (snd <$> map_to_list (t_files t)) = ends_in id w t) as Hl
    by (intros; symmetry; apply msum_list).
  destruct (dup_files_counts (snd <$> map_to_list (t_files t)) (v_pipes s) (open_ends (v_tables s)))
    as [Hcnt Hbuf]; [apply Hok|auto|intros; rewrite Hl; apply Hb|].
  assert (∀ id w, open_ends (<[child:=t]> (v_tables s)) id w =
    open_ends (v_tables s) id w + ends_in id w t) as Ho.
  { intros id w. unfold open_ends. rewrite msum_insert by done. lia. }
  apply step_ok_counts; try done.
  - simpl. eapply counts_ok_ext; [|done]. intros id w. simpl. by rewrite Hl, Ho.
  - intros id w Hid. simpl. rewrite Ho. pose proof (po_fresh _ Hok id w Hid) as Hz. rewrite Hz.
    unfold open_ends in Hz. eapply msum_zero in Hz; [|apply ends_in_nonneg|done]. lia.
Qed.

Lemma cleanup_step_ok s task : pipes_ok s → step_ok s Silent (cleanup_task_fds task s).
Proof.
  intros Hok. unfold cleanup_task_fds. destruct (v_tables s !! task) as [t|] eqn:Ht.
  2: { apply step_ok_same; [|done]. done. }
  set (s1 := set_tables (delete task (v_tables s)) s).
  destruct (release_files_pipes (snd <$> map_to_list (t_files t)) s1) as (Hp&Hts&Hn&_).
  destruct (close_files_counts (snd <$> map_to_list (t_files t)) (v_pipes s)
    (open_ends (delete task (v_tables s)))) as [Hcnt Hbuf]; [|auto|].
  { eapply counts_ok_ext; [|apply Hok]. intros id w. simpl. unfold open_ends.
    rewrite (msum_delete _ _ _ _ Ht). unfold ends_list. rewrite <-msum_list. unfold ends_in. lia. }
  apply step_ok_counts; try done; simpl.
  - by rewrite Hp, Hts.
  - by rewrite Hp.
  - intros id w Hid. rewrite Hts. simpl. pose proof (po_fresh _ Hok id w Hid) as Hz.
    unfold open_ends in *. rewrite (msum_delete _ _ _ _ Ht) in Hz.
    pose proof (ends_in_nonneg id w t).
    pose proof (open_ends_nonneg (delete task (v_tables s)) id w). unfold open_ends in *. lia.
Qed.

Lemma close_step_ok s task fd r s' : close task fd s = (r, s') → pipes_ok s → step_ok s Silent s'.
Proof.
  intros Hc Hok. unfold close in Hc.
  destruct (get_file task fd s) as [f|e| |] eqn:Hf;
    [|unfold sbind, sread in Hc; rewrite Hf in Hc; injection Hc as <- <-;
      by apply step_ok_same; [apply pipes_same_refl|]..].
  rewrite (sbind_Ok _ _ _ f s) in Hc by (unfold sread; by rewrite Hf).
  apply obind_Ok_inv in Hf as (t&Ht%ok_or_Ok&Hf).
  pose proof Hf as Hf'. apply ok_or_Ok in Hf'.
  rewrite (sbind_Ok _ _ _ tt (set_tables (<[task := FdTable (delete fd (t_files t)) (t_next_fd t)]>
    (v_tables s)) s)) in Hc.
  2: { unfold with_table. rewrite Ht. unfold table_close. by rewrite Hf. }
  injection Hc as <- <-. set (t' := FdTable _ _).
  assert (∀ id w, ends_in id w t = end_of id w f + ends_in id w t') as Het.
  { intros id w. unfold ends_in. apply msum_delete, Hf'. }
  assert (∀ id w, open_ends (<[task:=t']> (v_tables s)) id w =
    open_ends (v_tables s) id w - end_of id w f) as Ho.
  { intros id w. unfold open_ends. rewrite (msum_update _ _ _ _ _ Ht), Het. lia. }
  destruct (close_file_counts f (v_pipes s) (open_ends (v_tables s))) as [Hcnt Hbuf]; [apply Hok|..].
  { intros id w. pose proof (open_ends_nonneg (<[task:=t']> (v_tables s)) id w) as Hge.
    rewrite Ho in Hge. lia. }
  destruct (release_files_pipes [f] (set_tables (<[task:=t']> (v_tables s)) s)) as (Hp&Hts&Hn&_).
  simpl in Hp, Hts, Hn. apply step_ok_counts; try done.
  - rewrite Hp, Hts. eapply counts_ok_ext; [|done]. intros. simpl. by rewrite Ho.
  - by rewrite Hp.
  - intros id w Hid. rewrite Hts. simpl. rewrite Ho. pose proof (po_fresh _ Hok id w Hid) as Hz.
    pose proof (open_ends_nonneg (<[task:=t']> (v_tables s)) id w) as Hge. rewrite Ho in Hge.
    pose proof (end_of_nonneg id w f). lia.
Qed.

(** Adding an end of a pipe that is not registered (yet). *)
Lemma alloc_end_ok task id w s fd s' :
  with_table task (alloc_fd (file_pipe id w)) s = (Ok fd, s') →
  v_pipes s' = v_pipes s ∧ v_next_pipe s' = v_next_pipe s ∧
  ∀ id' w', open_ends (v_tables s') id' w' =
    open_ends (v_tables s) id' w' + end_of id' w' (file_pipe id w).
Proof.
  intros [(t&t'&a&Ht&Ha&_&->)|[_ Hno]]%with_table_inv; [|naive_solver].
  split_and!; [done|done|]. intros id' w'. simpl. unfold open_ends.
  rewrite (msum_update _ _ _ _ _ Ht), (alloc_fd_ends _ _ _ _ _ _ Ha). lia.
Qed.

Lemma alloc_end_err task id w s r s' :
  with_table task (alloc_fd (file_pipe id w)) s = (r, s') → (¬ ∃ fd, r = Ok fd) → s' = s.
Proof. intros [(t&t'&a&_&_&->&_)|[-> _]]%with_table_inv Hno; [naive_solver|done]. Qed.

Lemma pipe_step_ok s task r s' :
  0 ≤ v_next_pipe s < 2 ^ 64 - 1 → pipe task s = (r, s') → pipes_ok s → step_ok s Silent s'.
Proof.
  intros Hnext Hp Hok. unfold pipe in Hp.
  destruct (v_tables s !! task); [|injection Hp as <- <-; by apply step_ok_same].
  set (id := v_next_pipe s) in *. rewrite wrap_small in Hp by lia. pose proof Hok as [P1 P2 P3].
  set (s1 := set_next_pipe (id + 1) s) in *.
  (* a state that only has more ends of [id] open *)
  assert (∀ s2, v_pipes s2 = v_pipes s → v_next_pipe s2 = id + 1 →
    (∀ id' w', id' ≠ id → open_ends (v_tables s2) id' w' = open_ends (v_tables s) id' w') →
    step_ok s Silent s2) as Hmid.
  { intros s2 Hps Hn Ho. split_and!; [split| |fold id; lia].
    - rewrite Hps. intros id' p Hp'. destruct (P2 id' p Hp') as [Hid _]. fold id in Hid.
      rewrite !Ho by lia. by apply P1.
    - rewrite Hps, Hn. intros id' p Hp'. destruct (P2 id' p Hp'). unfold id in *. split; [lia|done].
    - intros id' w Hid. rewrite Ho by lia. apply P3. fold id. lia.
    - apply bufs_kept_effect. rewrite Hps. apply bufs_kept_refl. }
  assert (∀ id' w' w, id' ≠ id → end_of id' w' (file_pipe id w) = 0) as He0.
  { intros. unfold end_of. simpl. by rewrite decide_False by congruence. }
  assert (∀ w' w, end_of id w' (file_pipe id w) = if decide (w' = w) then 1 else 0) as He1.
  { intros. unfold end_of. apply decide_ext. simpl. naive_solver. }
  unfold sbind at 1 in Hp. cbn [smodify] in Hp. fold s1 in Hp. unfold sbind at 1 in Hp.
  destruct (with_table task (alloc_fd (file_pipe id false)) s1) as [o2 s2] eqn:H2.
  destruct o2 as [rfd|e| |];
    [|apply alloc_end_err in H2 as ->; [|naive_solver]; injection Hp as <- <-; by apply Hmid..].
  apply alloc_end_ok in H2 as (Hp2&Hn2&Ho2). unfold sbind at 1 in Hp.
  destruct (with_table task (alloc_fd (file_pipe id true)) s2) as [o3 s3] eqn:H3.
  destruct o3 as [wfd|e| |];
    [|apply alloc_end_err in H3 as ->; [|naive_solver]; injection Hp as <- <-; apply Hmid;
      [done|done|]; intros id' w' Hne; rewrite Ho2, He0 by done; simpl; lia..].
  apply alloc_end_ok in H3 as (Hp3&Hn3&Ho3). cbn in Hp. injection Hp as <- <-.
  assert (∀ id' w', open_ends (v_tables s3) id' w' = open_ends (v_tables s) id' w' +
    end_of id' w' (file_pipe id false) + end_of id' w' (file_pipe id true)) as Ho.
  { intros. rewrite Ho3, Ho2. done. }
  assert (v_pipes s !! id = None) as Hnone.
  { destruct (v_pipes s !! id) as [p|] eqn:Hp; [|done]. destruct (P2 id p Hp). unfold id in *. lia. }
  split_and!; [split| |simpl; rewrite Hn3, Hn2; simpl; fold id; lia]; simpl; rewrite ?Hp3, ?Hp2; simpl.
  - intros id' p. destruct (decide (id' = id)) as [->|Hne].
    + rewrite lookup_insert_eq. intros [= <-]. simpl. rewrite !Ho, !P3 by (fold id; lia).
      rewrite !He1. simpl. lia.
    + rewrite lookup_insert_ne by done. rewrite !Ho, !He0, !Z.add_0_r by done. apply P1.
  - intros id' p. rewrite Hn3, Hn2. simpl. destruct (decide (id' = id)) as [->|Hne].
    + rewrite lookup_insert_eq. intros [= <-]. simpl. unfold PIPE_CAPACITY. lia.
    + rewrite lookup_insert_ne by done. intros Hq. destruct (P2 id' p Hq). unfold id in *. split; [lia|done].
  - intros id' w Hid. rewrite Hn3, Hn2 in Hid. simpl in Hid.
    rewrite Ho, !He0, !Z.add_0_r by lia. apply P3. fold id. lia.
  - intros id' p. destruct (decide (id' = id)) as [->|Hne].
    + right. unfold id. lia.
    + rewrite lookup_insert_ne by done. intros Hq. left. exists p. split; [done|].
      simpl. by rewrite app_nil_r.
Qed.

(** Changing the buffer of one live pipe. *)
Lemma buffer_step_ok s id p p' io :
  pipes_ok s → v_pipes s !! id = Some p →
  p_read_ends p' = p_read_ends p → p_write_ends p' = p_write_ends p →
  Z.of_nat (length (p_buf p')) ≤ PIPE_CAPACITY →
  p_buf p ++ wrote id [io] = got id [io] ++ p_buf p' →
  (∀ id', id' ≠ id → wrote id' [io] = [] ∧ got id' [io] = []) →
  step_ok s io (set_pipes (<[id := p']> (v_pipes s)) s).
Proof.
  intros [P1 P2 P3] Hp Hr Hw Hlen Hio Hoth. split_and!; [split| |simpl; lia]; simpl.
  - intros id' q. destruct (decide (id' = id)) as [->|Hne].
    + rewrite lookup_insert_eq. intros [= <-]. rewrite Hr, Hw. by apply P1.
    + rewrite lookup_insert_ne by done. apply P1.
  - intros id' q. destruct (decide (id' = id)) as [->|Hne].
    + rewrite lookup_insert_eq. intros [= <-]. split; [by apply (P2 id p)|done].
    + rewrite lookup_insert_ne by done. apply P2.
  - done.
  - intros id' q Hq. left. destruct (decide (id' = id)) as [->|Hne].
    + rewrite lookup_insert_eq in Hq. injection Hq as <-. eauto.
    + rewrite lookup_insert_ne in Hq by done. exists q. destruct (Hoth id' Hne) as [-> ->].
      by rewrite app_nil_r.
Qed.

Lemma pipe_read_step_ok s id len data s' :
  pipe_read_round id len s = (Some data, s') → pipes_ok s → step_ok s (Got id data) s'.
Proof.
  unfold pipe_read_round. intros Hr Hok.
  assert (∀ id' p', v_pipes s !! id' = Some p' → (id' = id → data = []) →
    ∃ p, v_pipes s !! id' = Some p ∧
      p_buf p ++ wrote id' [Got id data] = got id' [Got id data] ++ p_buf p') as Hsame.
  { intros id' p' Hp' Hd. exists p'. split; [done|]. unfold wrote, got. simpl. rewrite !app_nil_r.
    case_decide; [|done]. by rewrite Hd. }
  destruct (v_pipes s !! id) as [p|] eqn:Hp.
  - case_decide as Hb.
    + injection Hr as <- <-. apply (buffer_step_ok _ _ p); try done.
      * simpl. rewrite length_drop. pose proof (po_known _ Hok id p Hp). lia.
      * unfold wrote, got. simpl. rewrite decide_True by done. rewrite !app_nil_r. by rewrite take_drop.
      * intros id' Hne. unfold wrote, got. simpl. by rewrite decide_False.
    + case_decide; [|done]. injection Hr as <- <-. split_and!; [done| |lia].
      intros id' p' Hp'. left. by apply Hsame.
  - injection Hr as <- <-. split_and!; [done| |lia]. intros id' p' Hp'. left. by apply Hsame.
Qed.

Lemma pipe_write_step_ok s id data written written' full s' :
  pipe_write_round id data written s = (Some (written', full), s') → pipes_ok s →
  step_ok s (Wrote id (slice written (written' - written) data)) s'.
Proof.
  unfold pipe_write_round. intros Hr Hok. destruct (v_pipes s !! id) as [p|] eqn:Hp; [|done].
  case_decide; [done|]. case_decide as Hsp.
  - injection Hr as <- <- <-. rewrite Nat.sub_diag. split_and!; [done| |lia].
    intros id' p' Hp'. left. exists p'. split; [done|]. unfold wrote, got. simpl.
    case_decide; by rewrite ?app_nil_r.
  - injection Hr as <- <- <-. set (n := Nat.min _ _).
    replace (written + n - written)%nat with n by lia. apply (buffer_step_ok _ _ p); try done.
    + simpl. rewrite length_app. pose proof (po_known _ Hok id p Hp) as [_ Hcap].
      assert (length (slice written n data) ≤ n)%nat by (unfold slice; rewrite length_take; lia).
      lia.
    + unfold wrote, got. simpl. rewrite decide_True by done. by rewrite !app_nil_r.
    + intros id' Hne. unfold wrote, got. simpl. by rewrite decide_False.
Qed.

Lemma vfs_step_ok s io s' : vfs_step s io s' → pipes_ok s → step_ok s io s'.
Proof.
  intros Hst Hok. destruct Hst as
    [s task Ht|s p c Hc Hb|s task|s task u g|s ticks task path flags r s' Ho|s task fd r s' Hcl
    |s task r s' Hn Hp|s task id r s' Hso|s task fd off wh r s' Hse|s task fd f i buf r s' Hf Hi Hr
    |s ticks task fd f i buf r s' Hf Hi Hw|s A m r s' Hm|s task fd f id len data s' Hf Hi Hr
    |s task fd f id data w w' full s' Hf Hi Hw].
  - by apply init_step_ok.
  - by apply clone_step_ok.
  - by apply cleanup_step_ok.
  - by apply step_ok_same.
  - apply step_ok_same; [|done]. by eapply quiet_open.
  - by eapply close_step_ok.
  - by eapply pipe_step_ok.
  - apply step_ok_same; [|done]. by eapply quiet_socket.
  - apply step_ok_same; [|done]. by eapply quiet_seek.
  - apply step_ok_same; [|done]. unfold read in Hr.
    rewrite (sbind_Ok _ _ _ f s) in Hr by (unfold sread; by rewrite Hf). rewrite Hi in Hr.
    case_match; [by injection Hr as <- <-|]. revert s r s' Hr Hok Hf.
    assert (quiet (let! r := sread (with_fs (read_inode_data i (f_pos f) buf)) in
      let! f' := sread (get_file task fd) in
      let! _ := set_pos task fd (wrap64 (f_pos f' + r.1)) in sret r)) as Hq.
    { repeat (apply quiet_bind; [auto with quiet|intros]). auto with quiet. }
    intros. by eapply Hq.
  - apply step_ok_same; [|done]. unfold write in Hw.
    rewrite (sbind_Ok _ _ _ f s) in Hw by (unfold sread; by rewrite Hf). rewrite Hi in Hw.
    case_match; [by injection Hw as <- <-|]. revert s r s' Hw Hok Hf.
    assert (quiet (let! n := with_fs_mut (write_at ticks i (f_pos f) buf) in
      let! f' := sread (get_file task fd) in
      let! _ := set_pos task fd (wrap64 (f_pos f' + n)) in sret n)) as Hq.
    { repeat (apply quiet_bind; [auto with quiet|intros]). auto with quiet. }
    intros. by eapply Hq.
  - apply step_ok_same; [|done]. by eapply with_fs_mut_same.
  - by eapply pipe_read_step_ok.
  - by eapply pipe_write_step_ok.
Qed.

Lemma vfs_run_ok s tr s' : vfs_run s tr s' → pipes_ok s → pipes_ok s'.
Proof.
  induction 1 as [|s io s1 tr s2 Hst _ IH]; [done|]. intros Hok. apply IH.
  by apply (vfs_step_ok _ _ _ Hst).
Qed.

(** C28: pipe reference counts are exact.  Whatever the tasks do - open,
    close, pipe, fork, exit, read, write, in any interleaving of their atomic
    sections - the two counters of every live pipe are the numbers of
    descriptors open on its ends over all tasks; a live pipe has at least one
    end open, so no pipe outlives its descriptors; and no buffer exceeds the
    capacity. *)
Theorem pipe_counts_invariant s tr s' :
  vfs_run s tr s' → pipes_ok s →
  ∀ id p, v_pipes s' !! id = Some p →
    p_read_ends p = open_ends (v_tables s') id false ∧
    p_write_ends p = open_ends (v_tables s') id true ∧
    0 < p_read_ends p + p_write_ends p ∧ Z.of_nat (length (p_buf p)) ≤ PIPE_CAPACITY.
Proof.
  intros Hrun Hok id p Hp. pose proof (vfs_run_ok _ _ _ Hrun Hok) as [Hc Hk _].
  destruct (Hc id p Hp) as (->&->&?), (Hk id p Hp). done.
Qed.

Lemma wrote_cons id io tr : wrote id (io :: tr) = wrote id [io] ++ wrote id tr.
Proof. unfold wrote. simpl. by rewrite app_nil_r. Qed.
Lemma got_cons id io tr : got id (io :: tr) = got id [io] ++ got id tr.
Proof. unfold got. simpl. by rewrite app_nil_r. Qed.

(** A pipe that is gone never comes back. *)
Lemma pipe_stays s tr s' id p' :
  vfs_run s tr s' → pipes_ok s → id < v_next_pipe s → v_pipes s' !! id = Some p' →
  is_Some (v_pipes s !! id).
Proof.
  intros Hrun. revert p'. induction Hrun as [|s io s1 tr s2 Hst _ IH]; intros p' Hok Hid Hp; [eauto|].
  pose proof (vfs_step_ok _ _ _ Hst Hok) as (Hok1&Heff&Hn).
  destruct (IH p' Hok1 ltac:(lia) Hp) as [p1 Hp1].
  destruct (Heff id p1 Hp1) as [(p&Hp0&_)|?]; [eauto|lia].
Qed.

(** a pipe is a first-in first-out byte stream.  Between two moments at
    which the pipe is alive, in any interleaving of everybody's calls, what was
    buffered first followed by everything written in between is exactly what
    was read in between followed by what is buffered now: no byte is lost,
    repeated or reordered, whoever the readers and writers are. *)
Theorem pipe_fifo s tr s' id p p' :
  vfs_run s tr s' → pipes_ok s → v_pipes s !! id = Some p → v_pipes s' !! id = Some p' →
  p_buf p ++ wrote id tr = got id tr ++ p_buf p'.
Proof.
  intros Hrun. revert p. induction Hrun as [s|s io s1 tr s2 Hst Hrun IH]; intros p Hok Hp Hp'.
  { rewrite Hp in Hp'. injection Hp' as ->. simpl. by rewrite app_nil_r. }
  pose proof (vfs_step_ok _ _ _ Hst Hok) as (Hok1&Heff&Hn).
  destruct (po_known _ Hok id p Hp) as [Hid _].
  destruct (pipe_stays s1 tr s2 id p' Hrun Hok1 ltac:(lia) Hp') as [p1 Hp1].
  destruct (Heff id p1 Hp1) as [(q&Hq&Hio)|?]; [|lia].
  rewrite Hp in Hq. injection Hq as <-.
  rewrite wrote_cons, got_cons, (assoc_L (++)), Hio, <-(assoc_L (++)), <-(assoc_L (++)).
  f_equal. by apply IH.
Qed.

(** end of file and broken pipe are exact.  Reading an empty pipe with
    room in the buffer reports end of file exactly when no task has a write
    end open, and otherwise waits; writing finds the pipe broken exactly when
    no task has a read end open, and waits exactly when there are readers and
    the pipe is full. *)
Theorem pipe_ends_observed s id p len data :
  pipes_ok s → v_pipes s !! id = Some p → (0 < len)%nat →
  ((pipe_read_round id len s).1 = Some [] ↔ p_buf p = [] ∧ open_ends (v_tables s) id true = 0) ∧
  ((pipe_read_round id len s).1 = None ↔ p_buf p = [] ∧ open_ends (v_tables s) id true ≠ 0) ∧
  ((pipe_write_round id data 0 s).1 = None ↔ open_ends (v_tables s) id false = 0) ∧
  ((pipe_write_round id data 0 s).1 = Some (0%nat, true) ↔
     open_ends (v_tables s) id false ≠ 0 ∧ Z.of_nat (length (p_buf p)) = PIPE_CAPACITY).
Proof.
  intros Hok Hp Hlen. destruct (po_counts _ Hok id p Hp) as (<-&<-&_).
  destruct (po_known _ Hok id p Hp) as [_ Hcap].
  unfold pipe_read_round, pipe_write_round. rewrite Hp. split_and!.
  - case_decide as Hb; simpl.
    + split; [|naive_solver]. destruct (p_buf p), len; naive_solver lia.
    + case_decide; simpl; naive_solver.
  - case_decide as Hb; simpl; [naive_solver|]. case_decide; simpl; naive_solver.
  - case_decide; simpl; [naive_solver|]. case_decide; naive_solver.
  - case_decide; simpl; [naive_solver|]. case_decide; simpl; [split; [|done]; lia|].
    split; [naive_solver|]. intros [_ Hfull]. lia.
Qed.
End pipes.

(** ** Witnesses: a keyboard buffer for a console, nothing mounted *)

#[export] Instance test_env : KernelEnv (list Z) := {
  con_read_char w := match w with c :: w => (Some c, w) | [] => (None, []) end;
  con_write _ w := w;
  net_recv _ _ w := (None, w);
  net_send _ _ w := (None, w);
  net_destroy _ w := w;
}.

Abbreviation test_vfs := (vfs (list Z) (registry ram)).
Definition vfs0 : test_vfs := Vfs None ∅ ∅ 1 ∅ [].
Definition vfs1 : test_vfs := init_task_fds 1 vfs0.
Definition vfs2 : test_vfs := (pipe 1 vfs1).2.
Definition vfs3 : test_vfs := (pipe_write_round 1 (str "hello") 0 vfs2).2.
Definition vfs4 : test_vfs := (pipe_read_round 1 3 vfs3).2.

Lemma vfs0_ok : pipes_ok vfs0.
Proof. split; done. Qed.

Lemma vfs2_run : vfs_run vfs0 [Silent; Silent] vfs2.
Proof.
  eapply run_cons; [by apply step_init|]. eapply run_cons; [|apply run_nil].
  apply (step_pipe vfs1 1 (Ok (3, 4))); [vm_compute; split; [intros Hc; discriminate Hc|reflexivity]|].
  apply run_eq; [vm_compute; reflexivity|reflexivity].
Qed.

Lemma vfs4_run :
  vfs_run vfs2 [Wrote 1 (slice 0 (5 - 0) (str "hello")); Got 1 (str "hel")] vfs4.
Proof.
  apply run_cons with vfs3.
  { apply (step_pipe_write vfs2 1 4 (file_pipe 1 true) 1 (str "hello") 0 5 false vfs3);
      [vm_compute; reflexivity|reflexivity|].
    apply run_eq; [vm_compute; reflexivity|reflexivity]. }
  apply run_cons with vfs4; [|apply run_nil].
  apply (step_pipe_read vfs3 1 3 (file_pipe 1 false) 1 3 (str "hel") vfs4);
    [vm_compute; reflexivity|reflexivity|].
  apply run_eq; [vm_compute; reflexivity|reflexivity].
Qed.

Example pipe_counts_invariant_witness :
  v_pipes vfs2 !! 1 = Some (Pipe [] 1 1) ∧
  1 = open_ends (v_tables vfs2) 1 false ∧ 1 = open_ends (v_tables vfs2) 1 true ∧
  0 < 1 + 1 ∧ Z.of_nat (length (@nil Z)) ≤ PIPE_CAPACITY.
Proof.
  assert (v_pipes vfs2 !! 1 = Some (Pipe [] 1 1)) as Hp by (vm_compute; reflexivity).
  split; [exact Hp|].
  apply (pipe_counts_invariant vfs0 [Silent; Silent] vfs2 vfs2_run vfs0_ok 1 (Pipe [] 1 1) Hp).
Defined.

Example pipe_fifo_witness :
  [] ++ wrote 1 [Wrote 1 (slice 0 (5 - 0) (str "hello")); Got 1 (str "hel")] =
  got 1 [Wrote 1 (slice 0 (5 - 0) (str "hello")); Got 1 (str "hel")] ++ str "lo".
Proof.
  apply (pipe_fifo vfs2 _ vfs4 1 (Pipe [] 1 1) (Pipe (str "lo") 1 1)).
  - apply vfs4_run.
  - apply (vfs_run_ok _ _ _ vfs2_run vfs0_ok).
  - vm_compute. reflexivity.
  - vm_compute. reflexivity.
Defined.

Example pipe_ends_observed_witness :
  let p := Pipe [] 1 1 in
  ((pipe_read_round 1 8 vfs2).1 = Some [] ↔ p_buf p = [] ∧ open_ends (v_tables vfs2) 1 true = 0) ∧
  ((pipe_read_round 1 8 vfs2).1 = None ↔ p_buf p = [] ∧ open_ends (v_tables vfs2) 1 true ≠ 0) ∧
  ((pipe_write_round 1 (str "x") 0 vfs2).1 = None ↔ open_ends (v_tables vfs2) 1 false = 0) ∧
  ((pipe_write_round 1 (str "x") 0 vfs2).1 = Some (0%nat, true) ↔
     open_ends (v_tables vfs2) 1 false ≠ 0 ∧ Z.of_nat (length (p_buf p)) = PIPE_CAPACITY).
Proof.
  apply (pipe_ends_observed vfs2 1 (Pipe [] 1 1) 8 (str "x")).
  - apply (vfs_run_ok _ _ _ vfs2_run vfs0_ok).
  - vm_compute. reflexivity.
  - lia.
Defined.

(** When the second descriptor cannot be allocated, the read end stays in the
    table and its pipe is never registered. *)
Definition nearly_full : test_vfs :=
  foldl (λ s k, (socket 1 k s).2) vfs1 (seqZ 0 60).
Example pipe_failure_leaks_descriptor :
  (pipe 1 nearly_full).1 = Err VTooManyFiles ∧
  get_file 1 63 nearly_full = Err VBadFileDescriptor ∧
  get_file 1 63 (pipe 1 nearly_full).2 = Ok (file_pipe 1 false) ∧
  v_pipes (pipe 1 nearly_full).2 !! 1 = None.
Proof. vm_compute. auto. Qed.
