(* ===== verification/VfsProps.v ===== *)
(** * Properties of the file system calls *)

From S2P Require Import Prelude Block NextfsLayout NextfsAlloc NextfsFile NextfsDir NextfsSpec NextfsIO NextfsProps VfsTable Vfs VfsPipes.

(** ** Descriptor numbers *)

(** Every descriptor of a table is below the next one to be tried. *)
Definition table_ok (t : fd_table) : Prop :=
  3 ≤ t_next_fd t ∧ ∀ fd f, t_files t !! fd = Some f → fd < t_next_fd t.

Lemma std_table_ok : table_ok std_table.
Proof.
  split; [done|]. intros fd f. unfold std_table. simpl.
  rewrite !lookup_insert_Some. unfold STDERR, STDOUT, STDIN.
  intros [[<- _]|[_ [[<- _]|[_ [[<- _]|[_ Hf]]]]]]; try lia. by rewrite lookup_empty in Hf.
Qed.

Lemma next_free_hit fuel files n : files !! n = None → next_free (S fuel) files n = Ok n.
Proof. intros Hn. simpl. by rewrite Hn. Qed.

(** how descriptor numbers are handed out.  In a table made by the
    kernel's own operations the search never has to step over a descriptor in
    use: the number given out is always [next_fd], the next one is one higher
    - so a closed number is not given out again - and the call fails exactly
    when 64 files are open.  The table keeps this shape. *)
Theorem alloc_fd_spec f t :
  table_ok t → t_next_fd t < 2 ^ 32 - 1 →
  match alloc_fd f t with
  | Ok (fd, t') =>
      Z.of_nat (size (t_files t)) < MAX_FDS_PER_TASK ∧ fd = t_next_fd t ∧ table_ok t' ∧
      t_next_fd t' = fd + 1 ∧ t_files t !! fd = None ∧ t_files t' = <[fd := f]> (t_files t)
  | Err e => e = VTooManyFiles ∧ MAX_FDS_PER_TASK ≤ Z.of_nat (size (t_files t))
  | _ => False
  end.
Proof.
  intros [H3 Hlt] Hmax. unfold alloc_fd. case_decide as Hs; [done|].
  assert (t_files t !! t_next_fd t = None) as Hnone.
  { destruct (t_files t !! t_next_fd t) eqn:Hf; [|done]. apply Hlt in Hf. lia. }
  rewrite (next_free_hit 65) by done. cbn [obind].
  rewrite wrap_small by lia. split_and!; try done; [lia|]. split; [simpl; lia|].
  intros fd g. simpl. rewrite lookup_insert_Some. intros [[<- _]|[_ Hg%Hlt]]; lia.
Qed.

Example alloc_fd_spec_witness :
  match alloc_fd file_keyboard std_table with
  | Ok (fd, t') =>
      Z.of_nat (size (t_files std_table)) < MAX_FDS_PER_TASK ∧ fd = t_next_fd std_table ∧
      table_ok t' ∧ t_next_fd t' = fd + 1 ∧ t_files std_table !! fd = None ∧
      t_files t' = <[fd := file_keyboard]> (t_files std_table)
  | Err e => e = VTooManyFiles ∧ MAX_FDS_PER_TASK ≤ Z.of_nat (size (t_files std_table))
  | _ => False
  end.
Proof. apply (alloc_fd_spec file_keyboard std_table); [apply std_table_ok|done]. Defined.

(** ** Paths *)

Definition no_slash (p : bytes) : Prop := Forall (λ b, b ≠ SLASH) p.

Lemma split_slash_no_slash p : no_slash p → split_slash p = [p].
Proof.
  induction 1 as [|b p Hb _ IH]; [done|]. simpl. rewrite IH.
  destruct (Z.eqb_spec b SLASH); [done|done].
Qed.

Lemma split_slash_cons p : ∃ part parts, split_slash p = part :: parts.
Proof.
  induction p as [|b p (part&parts&IH)]; [by eexists _, _|]. simpl. rewrite IH.
  destruct (b =? SLASH); by eexists _, _.
Qed.

Lemma split_slash_app p q : split_slash (p ++ SLASH :: q) = split_slash p ++ split_slash q.
Proof.
  induction p as [|b p IH]; [done|]. simpl. rewrite IH.
  destruct (split_slash_cons p) as (part&parts&->). by destruct (b =? SLASH).
Qed.

Abbreviation nonempty := (filter (λ s : bytes, s ≠ [])).

Lemma path_parts_eq p : path_parts p = nonempty (split_slash p).
Proof.
  unfold path_parts. induction p as [|b p IH]; [done|]. simpl.
  destruct (b =? SLASH) eqn:Hb; [|simpl; by rewrite Hb].
  rewrite IH. by rewrite filter_cons_False by naive_solver.
Qed.

Lemma rfind_slash_spec p :
  match rfind_slash p with
  | Some i => ∃ q, p = take i p ++ SLASH :: q ∧ no_slash q ∧ q = drop (S i) p
  | None => no_slash p
  end.
Proof.
  induction p as [|b p IH]; simpl; [constructor|].
  destruct (rfind_slash p) as [i|].
  - destruct IH as (q&Hp&Hq&Hd). exists q. simpl. split_and!; [by f_equal|done|done].
  - destruct (Z.eqb_spec b SLASH) as [->|Hb]; [exists p; done|by constructor].
Qed.

Lemma split_path_parts path :
  let '(parent, name) := split_path path in
  name ≠ [] → path_parts path = path_parts parent ++ [name] ∧ no_slash name.
Proof.
  unfold split_path. pose proof (rfind_slash_spec path) as Hs.
  destruct (rfind_slash path) as [i|].
  - destruct Hs as (q&Hp&Hq&<-). intros Hne. split; [|done].
    rewrite Hp at 1. rewrite !path_parts_eq, split_slash_app, filter_app.
    rewrite (split_slash_no_slash q) by done. rewrite (filter_cons_True _ q), filter_nil by done.
    case_decide; [|done]. subst. done.
  - intros Hne. split; [|done]. rewrite path_parts_eq, split_slash_no_slash by done.
    by rewrite filter_cons_True.
Qed.

Section vprops.
Context {W D : Type} `{KernelEnv W} `{BlockLaws D}.
Implicit Types s : vfs W D.

Lemma walk_app p q i (fs : nextfs D) : walk (p ++ q) i fs = obind (walk p i fs) (λ j, walk q j fs).
Proof.
  revert i. induction p as [|x p IH]; intros i; [done|]. simpl.
  destruct (dir_lookup i x fs); simpl; [apply IH|done..].
Qed.

Lemma resolve_path_walk path s :
  path ≠ [] → resolve_path path s = with_fs (walk (path_parts path) ROOT_INODE) s.
Proof.
  intros Hne. unfold resolve_path. rewrite decide_False by done. unfold with_fs.
  destruct (v_fs s); [|done]. by case_decide as Hs; [subst|].
Qed.

(** resolving a path is resolving its directory and looking the last name
    up in it.  This is what makes the calls that split a path - create, unlink,
    rmdir, mkdir - act in the directory in which the path is found. *)
Theorem resolve_path_split path s :
  (split_path path).2 ≠ [] →
  resolve_path path s =
    obind (resolve_path (split_path path).1 s)
          (λ dir, with_fs (dir_lookup dir (split_path path).2) s).
Proof.
  intros Hne. pose proof (split_path_parts path) as Hp.
  destruct (split_path path) as [parent name] eqn:Hs. simpl in *.
  destruct (Hp Hne) as [Hparts _].
  assert (path ≠ []) as Hpath by (intros ->; by injection Hs as <- <-).
  assert (parent ≠ []) as Hpar.
  { unfold split_path in Hs. destruct (rfind_slash path) as [i|] eqn:Hf; [|by injection Hs as <- _].
    injection Hs as <- _. case_decide; [done|].
    destruct path as [|b path]; [done|]. by destruct i. }
  rewrite !resolve_path_walk, Hparts by done. unfold with_fs. destruct (v_fs s) as [fs|]; [|done].
  rewrite walk_app. simpl. destruct (walk (path_parts parent) ROOT_INODE fs) as [j| | |]; try done.
  simpl. by destruct (dir_lookup j name fs).
Qed.

(** ** Permissions *)

Lemma with_table_frame {A} task (g : fd_table → outcome vfs_error (A * fd_table)) s r s' :
  with_table task g s = (r, s') →
  v_fs s' = v_fs s ∧ v_creds s' = v_creds s ∧ v_pipes s' = v_pipes s ∧ v_env s' = v_env s.
Proof. intros [(t&t'&a&_&_&_&->)|[-> _]]%with_table_inv; done. Qed.

(** The access a set of flags asks for. *)
Definition wanted (flags : open_flags) : Z :=
  Z.lor (if of_read flags then MAY_READ else 0) (if of_write flags then MAY_WRITE else 0).

(** no descriptor without permission.  When [open] succeeds, the task has
    a descriptor that was free before, on a regular inode, with the flags it
    asked for; and if those ask for any access, the inode's mode grants all of
    it to the task's user and group at that moment. *)
Theorem open_checks_permission ticks task path flags s fd s' :
  open ticks task path flags s = (Ok fd, s') →
  ∃ inode pos, get_file task fd s' = Ok (OpenFile (Regular inode) flags pos) ∧
    (wanted flags ≠ 0 →
     with_fs (check_permission inode (c_uid (creds_of task s')) (c_gid (creds_of task s'))
       (wanted flags)) s' = Ok tt).
Proof.
  unfold open. intros (inode&s1&_&Hrest)%sbind_Ok_inv.
  apply sbind_Ok_inv in Hrest as (c&?&Hc&Hrest). injection Hc as <- <-.
  apply sbind_Ok_inv in Hrest as ([]&s2&Hperm&Hrest).
  apply sbind_Ok_inv in Hrest as (pos&s3&Hpos&Hrest).
  assert (s2 = s1 ∧ s3 = s2) as [-> ->].
  { unfold sread, sret in *. split.
    - revert Hperm. case_decide; congruence.
    - revert Hpos. destruct (of_append flags); congruence. }
  pose proof (with_table_frame _ _ _ _ _ Hrest) as (Hfs&Hcr&_).
  exists inode, pos. split.
  - apply with_table_inv in Hrest as [(t&t'&a&Ht&Ha&[= <-]&->)|[_ Hno]]; [|naive_solver].
    unfold get_file. simpl. rewrite lookup_insert_eq. simpl. unfold table_get.
    apply alloc_fd_Ok in Ha as (_&->&_). by rewrite lookup_insert_eq.
  - intros Hw. fold (wanted flags) in Hperm. rewrite decide_True in Hperm by done.
    injection Hperm as Hperm. unfold creds_of, with_fs in *. by rewrite Hcr, Hfs.
Qed.

(** ** Reading back through a descriptor *)

Lemma set_pos_Ok task fd pos s s' f :
  get_file task fd s = Ok f → set_pos task fd pos s = (Ok tt, s') →
  get_file task fd s' = Ok (OpenFile (f_type f) (f_flags f) pos) ∧ v_fs s' = v_fs s.
Proof.
  intros Hf Hs. pose proof (with_table_frame _ _ _ _ _ Hs) as (Hfs&_).
  apply with_table_inv in Hs as [(t&t'&a&Ht&Ha&_&->)|[_ Hno]]; [|naive_solver].
  split; [|done]. unfold get_file in *. rewrite Ht in Hf. simpl in Hf.
  apply obind_Ok_inv in Ha as (f'&Hf'&[= _ <-]).
  simpl. rewrite lookup_insert_eq. simpl. unfold table_get. simpl. rewrite lookup_insert_eq.
  simpl. congruence.
Qed.

Lemma write_regular vo ticks task fd data s f inode n s' :
  get_file task fd s = Ok f → f_type f = Regular inode →
  write vo ticks task fd data s = (Ok n, s') →
  ∃ fs fs', v_fs s = Some fs ∧ v_fs s' = Some fs' ∧ of_write (f_flags f) = true ∧
    write_at ticks inode (f_pos f) data fs = (Ok n, fs') ∧
    get_file task fd s' = Ok (OpenFile (Regular inode) (f_flags f) (wrap64 (f_pos f + n))).
Proof.
  intros Hf Ht. unfold write. rewrite (sbind_Ok _ _ _ f s) by (unfold sread; by rewrite Hf).
  destruct (of_write (f_flags f)); [|done]. cbn [negb]. rewrite Ht.
  intros (m&s1&Hw&Hrest)%sbind_Ok_inv. unfold with_fs_mut in Hw.
  destruct (v_fs s) as [fs|] eqn:Hfs; [|done].
  destruct (write_at _ _ _ _ _) as [o fs'] eqn:Hwa. injection Hw as Ho <-.
  apply map_err_Ok in Ho as ->.
  assert (get_file task fd (set_fs (Some fs') s) = Ok f) as Hf1 by done.
  rewrite (sbind_Ok _ _ _ f (set_fs (Some fs') s)) in Hrest by (unfold sread; by rewrite Hf1).
  apply sbind_Ok_inv in Hrest as ([]&s2&Hp&[= <- <-]).
  destruct (set_pos_Ok _ _ _ _ _ _ Hf1 Hp) as [Hg Hv]. exists fs, fs'.
  rewrite Ht in Hg. split_and!; done.
Qed.

Lemma seek_set_regular task fd off s f inode p s' :
  get_file task fd s = Ok f → f_type f = Regular inode → 0 ≤ off < 2 ^ 63 →
  seek task fd off SeekSet s = (Ok p, s') →
  p = off ∧ v_fs s' = v_fs s ∧ get_file task fd s' = Ok (OpenFile (Regular inode) (f_flags f) off).
Proof.
  intros Hf Ht Ho. unfold seek. rewrite (sbind_Ok _ _ _ f s) by (unfold sread; by rewrite Hf).
  rewrite Ht. intros (sz&?&Hsz&Hrest)%sbind_Ok_inv. injection Hsz as _ <-.
  assert (signed 64 (signed 64 0 + off) = off) as He.
  { unfold signed. change (0 mod 2 ^ 64) with 0. rewrite (decide_True (P := 0 < _)) by done.
    rewrite Z.add_0_l, Z.mod_small by lia. rewrite decide_True by (change (64 - 1) with 63; lia).
    done. }
  rewrite He in Hrest. rewrite decide_False in Hrest by lia.
  apply sbind_Ok_inv in Hrest as ([]&s2&Hp&[= <- <-]).
  destruct (set_pos_Ok _ _ _ _ _ _ Hf Hp) as [Hg Hv]. rewrite Ht in Hg. done.
Qed.

Lemma read_regular vo task fd buf s f inode k buf' s' :
  get_file task fd s = Ok f → f_type f = Regular inode →
  read vo task fd buf s = (Ok (k, buf'), s') →
  ∃ fs, v_fs s = Some fs ∧ v_fs s' = Some fs ∧ of_read (f_flags f) = true ∧
    read_inode_data inode (f_pos f) buf fs = Ok (k, buf') ∧
    get_file task fd s' = Ok (OpenFile (Regular inode) (f_flags f) (wrap64 (f_pos f + k))).
Proof.
  intros Hf Ht. unfold read. rewrite (sbind_Ok _ _ _ f s) by (unfold sread; by rewrite Hf).
  destruct (of_read (f_flags f)); [|done]. cbn [negb]. rewrite Ht.
  intros (r&?&Hr&Hrest)%sbind_Ok_inv. injection Hr as Hr <-.
  unfold with_fs in Hr. destruct (v_fs s) as [fs|] eqn:Hfs; [|done].
  apply map_err_Ok in Hr.
  rewrite (sbind_Ok _ _ _ f s) in Hrest by (unfold sread; by rewrite Hf).
  apply sbind_Ok_inv in Hrest as ([]&s2&Hp&[= -> <-]).
  destruct (set_pos_Ok _ _ _ _ _ _ Hf Hp) as [Hg Hv]. exists fs.
  rewrite Ht in Hg. split_and!; try done. by rewrite Hv.
Qed.

(** the calls of a program compose.  A program that writes a buffer
    through a descriptor of a regular file, seeks back to where it started and
    reads as many bytes, gets its buffer back, from the system call down to
    the blocks of the device; and the descriptor stands behind the data after
    either transfer. *)
Theorem write_seek_read vo vo2 ticks task fd data s f inode n s1 p s2 buf k buf' s3 fs :
  v_fs s = Some fs → vol_ok fs → get_file task fd s = Ok f → f_type f = Regular inode → 0 ≤ inode →
  0 ≤ f_pos f → f_pos f + Z.of_nat (length data) ≤ MAX_OFFSET → length buf = length data →
  write vo ticks task fd data s = (Ok n, s1) →
  seek task fd (f_pos f) SeekSet s1 = (Ok p, s2) →
  read vo2 task fd buf s2 = (Ok (k, buf'), s3) →
  buf' = data ∧ k = Z.of_nat (length data) ∧ n = k ∧
  get_file task fd s3 = Ok (OpenFile (Regular inode) (f_flags f) (f_pos f + k)).
Proof.
  intros Hfs Hv Hf Ht Hi Hp0 Hmax Hlen Hw Hsk Hr.
  destruct (write_regular _ _ _ _ _ _ _ _ _ _ Hf Ht Hw) as (fs0&fs1&Hfs0&Hfs1&_&Hwa&Hf1).
  rewrite Hfs in Hfs0. injection Hfs0 as <-.
  assert (f_pos f < 2 ^ 63) as Hlt.
  { unfold MAX_OFFSET in Hmax. change BLOCK_SIZE with 512 in Hmax. lia. }
  destruct (seek_set_regular _ _ _ _ _ inode _ _ Hf1 eq_refl (conj Hp0 Hlt) Hsk) as (->&Hfs2&Hf2).
  destruct (read_regular _ _ _ _ _ _ inode _ _ _ Hf2 eq_refl Hr) as (fs2&Hfs2'&_&_&Hrd&Hf3).
  rewrite Hfs2, Hfs1 in Hfs2'. injection Hfs2' as <-. cbn [f_pos f_flags] in *.
  assert (n = Z.of_nat (length data)) as ->.
  { by destruct (write_at_Ok _ _ _ _ _ _ _ Hv Hi Hp0 Hmax Hwa) as (_&_&?&_). }
  destruct (write_at_Ok _ _ _ _ _ _ _ Hv Hi Hp0 Hmax Hwa) as (Hv1&_&_&Hfit&_&Hsz&Hb&_).
  destruct (read_inode_data_Ok _ _ _ _ _ _ Hv1 Hi Hp0 ltac:(by rewrite Hlen) Hrd)
    as (_&_&Hk&Hl&Hj).
  assert (k = Z.of_nat (length data)) as -> by lia.
  split_and!; [|done|done|].
  - apply list_eq. intros j. rewrite Hj. case_decide as Hd; [|rewrite !lookup_ge_None_2 by lia; done].
    rewrite Hb by lia. unfold overlay. rewrite decide_True by lia.
    rewrite list_lookup_lookup_total_lt by lia. do 2 f_equal. lia.
  - rewrite Hf3. do 2 f_equal. apply wrap_small. unfold MAX_OFFSET in Hmax.
    change BLOCK_SIZE with 512 in Hmax. lia.
Qed.
End vprops.

(** ** Witnesses: the small volume mounted; task 1 is root, task 2 an ordinary user *)

Definition mounted : test_vfs :=
  set_credentials 2 1000 100 (init_task_fds 2 (init_task_fds 1 (Vfs (Some small_fs) ∅ ∅ 1 ∅ []))).

Example resolve_path_split_witness :
  (split_path (str "/a.txt")).2 ≠ [] ∧
  resolve_path (str "/a.txt") mounted =
    obind (resolve_path (split_path (str "/a.txt")).1 mounted)
      (λ dir, with_fs (dir_lookup dir (split_path (str "/a.txt")).2) mounted).
Proof.
  assert ((split_path (str "/a.txt")).2 ≠ []) as Hne by (intros Hc; vm_compute in Hc; discriminate Hc).
  exact (conj Hne (resolve_path_split (str "/a.txt") mounted Hne)).
Defined.

Definition opened : test_vfs := (open 9 1 (str "/a.txt") rdwr mounted).2.

Lemma opened_run : open 9 1 (str "/a.txt") rdwr mounted = (Ok 3, opened).
Proof. compute_run opened. Qed.

Example open_checks_permission_witness :
  ∃ inode pos, get_file 1 3 opened = Ok (OpenFile (Regular inode) rdwr pos) ∧
    (wanted rdwr ≠ 0 →
     with_fs (check_permission inode (c_uid (creds_of 1 opened)) (c_gid (creds_of 1 opened))
       (wanted rdwr)) opened = Ok tt).
Proof. apply (open_checks_permission 9 1 (str "/a.txt") rdwr mounted 3 opened), opened_run. Defined.

Definition written : test_vfs := (write [] 9 1 3 (str "bye") opened).2.
Definition rewound : test_vfs := (seek 1 3 0 SeekSet written).2.
Definition reread : test_vfs := (read [] 1 3 [0; 0; 0] rewound).2.

Example write_seek_read_witness :
  str "bye" = str "bye" ∧ 3 = Z.of_nat (length (str "bye")) ∧ 3 = 3 ∧
  get_file 1 3 reread = Ok (OpenFile (Regular 2) rdwr (0 + 3)).
Proof.
  apply (write_seek_read [] [] 9 1 3 (str "bye") opened (OpenFile (Regular 2) rdwr 0) 2 3 written 0
    rewound [0; 0; 0] 3 (str "bye") reread small_fs).
  - reflexivity.
  - apply small_fs_ok.
  - vm_compute. reflexivity.
  - reflexivity.
  - lia.
  - simpl. lia.
  - vm_compute. intros Hc; discriminate Hc.
  - reflexivity.
  - compute_run written.
  - compute_run rewound.
  - compute_run reread.
Defined.

(** ** Concrete runs *)

Definition size_of (s : test_vfs) (path : bytes) : outcome vfs_error Z :=
  let? st := stat_path path s in Ok (st_size st).

(** [open] with create and truncate empties an existing file before it
    looks at the permissions: an ordinary user who may not write to the file is
    refused the descriptor, and the file is empty. *)
Example open_truncates_before_check :
  let flags := with_truncate flags_create in
  size_of mounted (str "/a.txt") = Ok 5 ∧
  (open 9 2 (str "/a.txt") flags mounted).1 = Err VPermissionDenied ∧
  size_of (open 9 2 (str "/a.txt") flags mounted).2 (str "/a.txt") = Ok 0.
Proof. vm_compute. auto. Qed.

(** A path that ends in a slash creates an entry with an empty name, which no
    path can name again. *)
Example mkdir_empty_name :
  (mkdir 9 1 (str "/sub/") mounted).1 = Ok tt ∧
  readdir (str "/sub") (mkdir 9 1 (str "/sub/") mounted).2 =
    Ok [(str ".", 3); (str "..", 1); ([], 4)].
Proof. vm_compute. auto. Qed.

(** A character that does not fit into the rest of the buffer is taken from the
    keyboard and dropped: here the two-byte character 233. *)
Example keyboard_read_drops_char :
  let s := set_env [97; 233; 98] mounted in
  (read [] 1 0 [0; 0] s).1 = Ok (1, [97; 0]) ∧ v_env (read [] 1 0 [0; 0] s).2 = [98].
Proof. vm_compute. auto. Qed.
