(* ===== verification/Signal.v ===== *)
(** * Signals (signal.rs): dispositions, the pending set and the saved context

    The per-task signal state as the source has it: the pending set is a 32-bit
    mask, the dispositions are an array of 32 handler addresses with the two
    special values [SIG_DFL] and [SIG_IGN]. *)
From S2P Require Import Prelude.

(** [signal.rs:22-22, !NSIG] *)
Definition NSIG : Z := 32.
(** [signal.rs:42-42, !SIGKILL] *)
Definition SIGKILL : Z := 9.
(** [signal.rs:58-58, !SIGCHLD] *)
Definition SIGCHLD : Z := 17.
(** [signal.rs:60-60, !SIGCONT] *)
Definition SIGCONT : Z := 18.
(** [signal.rs:62-62, !SIGSTOP] *)
Definition SIGSTOP : Z := 19.
(** [signal.rs:64-68, !SIGTSTP SIGTTIN SIGTTOU] *)
Definition SIGTSTP : Z := 20.
Definition SIGTTIN : Z := 21.
Definition SIGTTOU : Z := 22.
(** [signal.rs:70-70, !SIGURG] *)
Definition SIGURG : Z := 23.
(** [signal.rs:80-80, !SIGWINCH] *)
Definition SIGWINCH : Z := 28.
(** [signal.rs:82-82, !SIGIO] *)
Definition SIGIO : Z := 29.
(** [signal.rs:90-90, !SIG_DFL] *)
Definition SIG_DFL : Z := 0.
(** [signal.rs:92-92, !SIG_IGN] *)
Definition SIG_IGN : Z := 1.

(** [signal.rs:96-101, default_terminates] *)
Definition default_terminates (sig : Z) : bool :=
  negb (bool_decide
    (sig ∈ [SIGCHLD; SIGCONT; SIGURG; SIGWINCH; SIGIO; SIGSTOP; SIGTSTP; SIGTTIN; SIGTTOU])).

(** [signal.rs:106-115, SavedSigContext] *)
Record saved_ctx := SavedSigContext { c_rip : Z; c_rflags : Z; c_rsp : Z; c_rax : Z }.

(** [signal.rs:119-130, SignalState] *)
Record signal_state := SignalState {
  pending : Z; handlers : list Z; restorer : Z; saved : option saved_ctx }.

(** [signal.rs:134-141, SignalState::new] *)
Definition signals_new : signal_state := SignalState 0 (replicate 32 SIG_DFL) 0 None.

Definition set_pending_mask (m : Z) (s : signal_state) : signal_state :=
  SignalState m (handlers s) (restorer s) (saved s).
Definition set_saved (c : option saved_ctx) (s : signal_state) : signal_state :=
  SignalState (pending s) (handlers s) (restorer s) c.

(** [signal.rs:145-155, SignalState::reset_for_exec] *)
Definition reset_for_exec (s : signal_state) : signal_state :=
  SignalState 0 ((λ h, if h =? SIG_IGN then h else SIG_DFL) <$> handlers s) 0 None.

(** [signal.rs:158-162, SignalState::set_pending] *)
Definition set_pending (sig : Z) (s : signal_state) : signal_state :=
  if sig <? NSIG then set_pending_mask (Z.lor (pending s) (Z.shiftl 1 sig)) s else s.

(** [signal.rs:165-169, SignalState::clear_pending]: [!x] on [u32] flips 32 bits. *)
Definition clear_pending (sig : Z) (s : signal_state) : signal_state :=
  if sig <? NSIG
  then set_pending_mask (Z.land (pending s) (Z.lxor (Z.ones 32) (Z.shiftl 1 sig))) s
  else s.

(** The disposition of a signal, [handlers[sig]]; the index is below 32 wherever
    the source uses it. *)
Definition handler_of (sig : Z) (s : signal_state) : Z := nth (Z.to_nat sig) (handlers s) SIG_DFL.

Definition deliverable (s : signal_state) (sig : Z) : bool :=
  negb (Z.land (pending s) (Z.shiftl 1 sig) =? 0) &&
  negb (handler_of sig s =? SIG_DFL) && negb (handler_of sig s =? SIG_IGN).

(** [signal.rs:173-183, SignalState::next_deliverable] *)
Definition next_deliverable (s : signal_state) : option (Z * Z) :=
  (λ sig, (sig, handler_of sig s)) <$> find (deliverable s) (seqZ 1 31).

(** ** The pending mask *)

Definition is_pending (sig : Z) (s : signal_state) : bool := Z.testbit (pending s) sig.

(** The array has its 32 entries, the mask its 32 bits, and [SIGKILL] its
    default disposition. *)
Record signals_ok (s : signal_state) : Prop := {
  so_len : length (handlers s) = 32%nat;
  so_mask : 0 ≤ pending s < 2 ^ 32;
  so_kill : handler_of SIGKILL s = SIG_DFL }.

Lemma mask_bound m : 0 ≤ m → (∀ j, 32 ≤ j → Z.testbit m j = false) → m < 2 ^ 32.
Proof.
  intros Hm Hj. destruct (decide (m = 0)) as [->|]; [done|].
  apply Z.log2_lt_pow2; [lia|]. destruct (decide (32 ≤ Z.log2 m)) as [Hl|]; [|lia].
  specialize (Hj _ Hl). rewrite Z.bit_log2 in Hj by lia. done.
Qed.

Lemma mask_high m j : 0 ≤ m < 2 ^ 32 → 32 ≤ j → Z.testbit m j = false.
Proof.
  intros Hm Hj. destruct (decide (m = 0)) as [->|]; [apply Z.bits_0|].
  apply Z.bits_above_log2; [lia|]. enough (Z.log2 m < 32) by lia.
  apply Z.log2_lt_pow2; lia.
Qed.

Lemma is_pending_set sig j s : 0 ≤ sig < NSIG →
  is_pending j (set_pending sig s) = is_pending j s || (sig =? j).
Proof.
  intros Hs. unfold set_pending, is_pending. replace (sig <? NSIG) with true by lia.
  simpl. rewrite Z.lor_spec, Z.shiftl_1_l, Z.pow2_bits_eqb by lia. done.
Qed.

Lemma is_pending_clear sig j s : 0 ≤ sig < NSIG → 0 ≤ pending s < 2 ^ 32 →
  is_pending j (clear_pending sig s) = is_pending j s && negb (sig =? j).
Proof.
  intros Hs Hm. unfold clear_pending, is_pending. replace (sig <? NSIG) with true by lia.
  simpl. rewrite Z.land_spec, Z.lxor_spec, Z.shiftl_1_l, Z.pow2_bits_eqb by lia.
  destruct (decide (j < 0)); [by rewrite !Z.testbit_neg_r by lia|].
  destruct (decide (j < 32)).
  - by rewrite Z.ones_spec_low, xorb_true_l by lia.
  - by rewrite (mask_high (pending s) j) by lia.
Qed.

Lemma set_pending_ok sig s : 0 ≤ sig → signals_ok s → signals_ok (set_pending sig s).
Proof.
  intros Hs [Hl Hm Hk]. unfold set_pending. case_match eqn:Hlt; [|done].
  apply Z.ltb_lt in Hlt. unfold NSIG in Hlt.
  assert (0 ≤ Z.lor (pending s) (Z.shiftl 1 sig)).
  { apply Z.lor_nonneg. split; [lia|]. by apply Z.shiftl_nonneg. }
  split; [done| |done]. split; [done|]. apply mask_bound; [done|]. intros j Hj. simpl.
  rewrite Z.lor_spec, (mask_high (pending s)), Z.shiftl_1_l, Z.pow2_bits_eqb by lia. lia.
Qed.

Lemma clear_pending_ok sig s : signals_ok s → signals_ok (clear_pending sig s).
Proof.
  intros [Hl Hm Hk]. unfold clear_pending. case_match; [|done].
  assert (0 ≤ Z.land (pending s) (Z.lxor (Z.ones 32) (Z.shiftl 1 sig))).
  { apply Z.land_nonneg. lia. }
  split; [done| |done]. split; [done|]. apply mask_bound; [done|]. intros j Hj. simpl.
  by rewrite Z.land_spec, (mask_high (pending s)) by lia.
Qed.

Lemma set_saved_ok c s : signals_ok s → signals_ok (set_saved c s).
Proof. intros []. by split. Qed.

Lemma signals_new_ok : signals_ok signals_new.
Proof. by split. Qed.

Lemma handler_of_reset sig s :
  handler_of sig (reset_for_exec s) =
    if handler_of sig s =? SIG_IGN then SIG_IGN else SIG_DFL.
Proof.
  unfold handler_of, reset_for_exec. cbn [handlers].
  generalize (Z.to_nat sig) as n. induction (handlers s) as [|h l IH]; intros [|n]; try done.
  - cbn. by destruct (Z.eqb_spec h SIG_IGN) as [->|].
  - apply IH.
Qed.

Lemma reset_for_exec_ok s : signals_ok s → signals_ok (reset_for_exec s).
Proof.
  intros [Hl Hm Hk]. split; [simpl; by rewrite length_fmap|done|].
  by rewrite handler_of_reset, Hk.
Qed.

Lemma land_bit m k : 0 ≤ k → negb (Z.land m (Z.shiftl 1 k) =? 0) = Z.testbit m k.
Proof. intros. apply bit_test_spec. done. Qed.

Lemma deliverable_spec s sig : 0 ≤ sig →
  deliverable s sig = true ↔
    is_pending sig s = true ∧ handler_of sig s ≠ SIG_DFL ∧ handler_of sig s ≠ SIG_IGN.
Proof.
  intros. unfold deliverable. rewrite land_bit, !andb_true_iff, !negb_true_iff, !Z.eqb_neq by done.
  unfold is_pending. tauto.
Qed.

(** The signal to deliver is the lowest pending one with a handler. *)
Lemma next_deliverable_Some s sig h :
  next_deliverable s = Some (sig, h) →
  1 ≤ sig < NSIG ∧ h = handler_of sig s ∧ is_pending sig s = true ∧
  h ≠ SIG_DFL ∧ h ≠ SIG_IGN ∧
  ∀ j, 1 ≤ j < sig → deliverable s j = false.
Proof.
  unfold next_deliverable. intros (x&Hf&Hx)%fmap_Some. injection Hx as -> ->.
  apply find_some in Hf as Hf'. destruct Hf' as [Hin Hd].
  apply list_elem_of_In, elem_of_seqZ in Hin.
  apply deliverable_spec in Hd as (?&?&?); [|lia].
  split_and!; try done; unfold NSIG; try lia.
  intros j Hj. destruct (deliverable s j) eqn:Hdj; [|done].
  exfalso. assert (∀ m a, a ≤ j < x → find (deliverable s) (seqZ a (Z.of_nat m)) ≠ Some x) as Hm.
  { induction m as [|m IH]; intros a Ha; [done|]. rewrite seqZ_cons by lia. simpl.
    destruct (deliverable s a) eqn:Hda; [intros [= ->]; lia|].
    rewrite Nat2Z.inj_succ, Z.pred_succ. apply IH. split; [|lia].
    destruct (decide (a = j)) as [->|]; [congruence|lia]. }
  apply (Hm 31%nat 1); [lia|done].
Qed.
