(* ===== verification/Task.v ===== *)
(** * Tasks and the scheduler (task.rs)

    The task table, process creation and termination, waiting, signals and the
    round-robin scheduler.  Every function of the file that changes the table is
    a function on [kernel] states.  The parts of the kernel a task's life
    touches - descriptor tables, IPC reply slots, windows, page tables, the ELF
    loader - are the class [TaskEnv].

    A task that is switched away in the middle of a kernel function resumes
    there later; the only such functions of this file are [do_wait], cut here
    into [wait_round] and [wait_resume], and [yield_now]/[block], which end with
    the switch.  [t_stack] is the kernel stack crafted for a task that has not
    run yet; what is on the stack of a task that has run is not modelled. *)
From S2P Require Import Prelude Signal.

(** [task.rs:81-95, State] *)
Inductive tstate : Type := Runnable | Running | Blocked | Zombie | Dead.
#[export] Instance tstate_eq_dec : EqDecision tstate.
Proof. solve_decision. Defined.

(** [task.rs:99-104, Ring] *)
Inductive ring : Type := RKernel | RUser.
#[export] Instance ring_eq_dec : EqDecision ring.
Proof. solve_decision. Defined.

(** [task.rs:108-146, Task]: [t_base] is the base of the guarded stack [_stack];
    [t_stack] are the words from [t_rsp] up to the top of a fresh stack. *)
Record task := Task {
  t_id : Z; t_name : bytes; t_rsp : Z; t_kstack_top : Z; t_state : tstate; t_base : Z;
  t_stack : list Z; t_ring : ring; t_user_cr3 : option Z; t_user_rsp : Z; t_parent : option Z;
  t_children : list Z; t_exit_status : Z; t_wait_blocked : bool; t_signals : signal_state;
  t_mmap_next : Z }.

Definition with_state (x : tstate) (t : task) : task :=
  let '(Task id nm rsp top _ b stk r cr3 ursp p ch ex w sg mm) := t in
  Task id nm rsp top x b stk r cr3 ursp p ch ex w sg mm.
Definition with_image (cr3' ursp' : Z) (t : task) : task :=
  let '(Task id nm rsp top st b stk r _ _ p ch ex w sg mm) := t in
  Task id nm rsp top st b stk r (Some cr3') ursp' p ch ex w sg mm.
Definition with_parent (x : option Z) (t : task) : task :=
  let '(Task id nm rsp top st b stk r cr3 ursp _ ch ex w sg mm) := t in
  Task id nm rsp top st b stk r cr3 ursp x ch ex w sg mm.
Definition with_children (f : list Z → list Z) (t : task) : task :=
  let '(Task id nm rsp top st b stk r cr3 ursp p ch ex w sg mm) := t in
  Task id nm rsp top st b stk r cr3 ursp p (f ch) ex w sg mm.
Definition with_exit_status (x : Z) (t : task) : task :=
  let '(Task id nm rsp top st b stk r cr3 ursp p ch _ w sg mm) := t in
  Task id nm rsp top st b stk r cr3 ursp p ch x w sg mm.
Definition with_wait_blocked (x : bool) (t : task) : task :=
  let '(Task id nm rsp top st b stk r cr3 ursp p ch ex _ sg mm) := t in
  Task id nm rsp top st b stk r cr3 ursp p ch ex x sg mm.
Definition with_signals (f : signal_state → signal_state) (t : task) : task :=
  let '(Task id nm rsp top st b stk r cr3 ursp p ch ex w sg mm) := t in
  Task id nm rsp top st b stk r cr3 ursp p ch ex w (f sg) mm.
Definition with_mmap_next (x : Z) (t : task) : task :=
  let '(Task id nm rsp top st b stk r cr3 ursp p ch ex w sg _) := t in
  Task id nm rsp top st b stk r cr3 ursp p ch ex w sg x.

(** What a task's life needs of the rest of the kernel and of the CPU. *)
(** What the rest of the kernel reads of the CPU and of the clock: CR3, the
    kernel's own page table and the ticks. *)
Record cpu := Cpu { cpu_cr3 : Z; cpu_kernel_cr3 : option Z; cpu_ticks : Z }.

Class TaskEnv (W : Type) := {
  init_fds : Z → W → W;                   (* fs::init_task_fds *)
  clone_fds : Z → Z → W → W;              (* fs::clone_task_fds *)
  cleanup_fds : Z → W → W;                (* fs::cleanup_task_fds *)
  drop_reply_slot : Z → W → W;            (* ipc::cleanup_reply_slot *)
  drop_windows : Z → W → W;               (* wm::destroy_windows_owned_by *)
  cow_fork : cpu → Z → W → outcome bytes Z * W;
                                          (* memory: cow_fork_address_space *)
  last_page_table : W → option Z;         (* memory: user_page_tables.last() *)
  load_program : cpu → bytes → list bytes → list bytes → W → outcome bytes (Z * Z) * W;
                                          (* elf::load_from_file *)
  load_image : cpu → bytes → list bytes → list bytes → W → outcome bytes (Z * Z) * W;
                                          (* ElfBinary::parse and load *)
  take_frames : nat → W → option W;       (* frame_allocator.allocate_frame, n times *)
  poke64 : cpu → Z → Z → W → option W;    (* a store to a virtual address; a fault *)
  poke32 : cpu → Z → Z → W → option W;    (* of the kernel is a panic: [None] *)
  user_cs : Z; user_ss : Z;               (* gdt selectors, with RPL 3 *)
  task_trampoline : Z; fork_child_trampoline : Z; user_task_trampoline : Z;
}.

(** [task.rs:43-54, !GUARDED_STACK_VIRT_BASE] *)
Definition GUARDED_STACK_STRIDE : Z := 33 * 4096.
Definition GUARDED_STACK_VIRT_BASE : Z := 0xFFFF900000000000.
(** [memory.rs:30-30, !USER_HEAP_START] *)
Definition USER_HEAP_START : Z := 0x100000000.
Definition USER_SPACE_MAX : Z := 0x800000000000.

(** [task.rs:1333-1336, !Scheduler]: with the statics of the file, the CPU's
    CR3 and TSS stack, and the kernel pages mapped in the stack region. *)
Record kernel (W : Type) := Kernel {
  k_tasks : list task; k_current : nat; k_next_id : Z; k_next_stack : Z; k_init : Z;
  k_ticks : Z; k_cpu_id : Z; k_kernel_cr3 : option Z; k_cr3 : Z; k_tss : Z;
  k_mapped : gset Z; k_env : W }.
Arguments Kernel {W}.
Arguments k_tasks {W}.
Arguments k_current {W}.
Arguments k_next_id {W}.
Arguments k_next_stack {W}.
Arguments k_init {W}.
Arguments k_ticks {W}.
Arguments k_cpu_id {W}.
Arguments k_kernel_cr3 {W}.
Arguments k_cr3 {W}.
Arguments k_tss {W}.
Arguments k_mapped {W}.
Arguments k_env {W}.

(** The trap frame: the 15 registers of [SyscallFrame] from the lowest address
    up, then the five words the CPU pushes, by their index. *)
Abbreviation frame := (list Z).
Definition R_R10 : nat := 10.
Definition R_RDX : nat := 11.
Definition R_RSI : nat := 12.
Definition R_RDI : nat := 13.
Definition R_RAX : nat := 14.
Definition R_RIP : nat := 15.
Definition R_CS : nat := 16.
Definition R_RFLAGS : nat := 17.
Definition R_RSP : nat := 18.
Definition R_SS : nat := 19.
(** [syscall.rs:86-102, SyscallFrame] *)
Definition reg (i : nat) (f : frame) : Z := nth i f 0.

Section task.
Context {W : Type} `{TaskEnv W}.
Implicit Types k : kernel W.
Abbreviation kop A := (stm (kernel W) bytes A).

Definition set_tasks (ts : list task) k : kernel W :=
  Kernel ts (k_current k) (k_next_id k) (k_next_stack k) (k_init k) (k_ticks k) (k_cpu_id k)
    (k_kernel_cr3 k) (k_cr3 k) (k_tss k) (k_mapped k) (k_env k).
Definition set_env (e : W) k : kernel W :=
  Kernel (k_tasks k) (k_current k) (k_next_id k) (k_next_stack k) (k_init k) (k_ticks k)
    (k_cpu_id k) (k_kernel_cr3 k) (k_cr3 k) (k_tss k) (k_mapped k) e.
Definition map_env (f : W → W) k : kernel W := set_env (f (k_env k)) k.
Definition set_cr3 (c : Z) k : kernel W :=
  Kernel (k_tasks k) (k_current k) (k_next_id k) (k_next_stack k) (k_init k) (k_ticks k)
    (k_cpu_id k) (k_kernel_cr3 k) c (k_tss k) (k_mapped k) (k_env k).
Definition set_current (i : nat) (cpu tss : Z) k : kernel W :=
  Kernel (k_tasks k) i (k_next_id k) (k_next_stack k) (k_init k) (k_ticks k) cpu
    (k_kernel_cr3 k) (k_cr3 k) tss (k_mapped k) (k_env k).
Definition set_next_id (n : Z) k : kernel W :=
  Kernel (k_tasks k) (k_current k) n (k_next_stack k) (k_init k) (k_ticks k) (k_cpu_id k)
    (k_kernel_cr3 k) (k_cr3 k) (k_tss k) (k_mapped k) (k_env k).
Definition set_stacks (next : Z) (m : gset Z) k : kernel W :=
  Kernel (k_tasks k) (k_current k) (k_next_id k) next (k_init k) (k_ticks k) (k_cpu_id k)
    (k_kernel_cr3 k) (k_cr3 k) (k_tss k) m (k_env k).

(** ** Access to the table: [tasks.iter().find(|t| t.id == id)], [tasks[current]] *)

Definition index_of (id : Z) k : option nat := position (λ t, t_id t =? id) (k_tasks k).
Definition find_task (id : Z) k : option task := index_of id k ≫= λ i, k_tasks k !! i.
Definition upd (i : nat) (f : task → task) k : kernel W := set_tasks (alter f i (k_tasks k)) k.
Definition upd_id (id : Z) (f : task → task) k : kernel W :=
  match index_of id k with Some i => upd i f k | None => k end.
Definition upd_cur (f : task → task) k : kernel W := upd (k_current k) f k.

(** A closure on the current task; [tasks[current]] panics out of range. *)
Definition with_cur {A} (f : task → kop A) : kop A := λ k,
  match k_tasks k !! k_current k with Some t => f t k | None => (Panic, k) end.

(** [task.rs:65-67, set_init_task] *)
Definition set_init_task (id : Z) k : kernel W :=
  Kernel (k_tasks k) (k_current k) (k_next_id k) (k_next_stack k) id (k_ticks k) (k_cpu_id k)
    (k_kernel_cr3 k) (k_cr3 k) (k_tss k) (k_mapped k) (k_env k).
(** [task.rs:70-77, init_task_id] *)
Definition init_task_id k : option Z := if k_init k =? u64_max then None else Some (k_init k).

(** ** Guarded kernel stacks *)

(** [memory.rs:206-237, GuardedStack::new]: 33 frames, 32 pages mapped above an
    unmapped guard page; every failure is an [expect]. *)
Definition guarded_stack_new (base : Z) : kop unit := λ k,
  let pages := (λ i, base + 4096 + i * 4096) <$> seqZ 0 32 in
  match take_frames 33 (k_env k) with
  | None => (Panic, k)
  | Some e =>
      if bool_decide (Forall (λ p, p ∉ k_mapped k) pages)
      then (Ok tt, set_env e (set_stacks (k_next_stack k) (k_mapped k ∪ list_to_set pages) k))
      else (Panic, set_env e k)
  end.

(** [memory.rs:252-272, !GuardedStack::drop]: unmaps the 33 pages from the base
    on; unmapping a page that is not mapped is an error, and [expect] panics. *)
Definition guarded_stack_drop (base : Z) : kop unit :=
  sfor (seqZ 0 33) (λ i k,
    let page := base + i * 4096 in
    if bool_decide (page ∈ k_mapped k)
    then (Ok tt, set_stacks (k_next_stack k) (k_mapped k ∖ {[page]}) k)
    else (Panic, k)).

(** [task.rs:231-236, Task::alloc_stack]: the base and the aligned top. *)
Definition alloc_stack : kop (Z * Z) := λ k,
  let virt := k_next_stack k in
  let k1 := set_stacks (wrap64 (virt + GUARDED_STACK_STRIDE)) (k_mapped k) k in
  (let! _ := guarded_stack_new virt in
   sret (virt, Z.land (wrap64 (virt + 4096 + 32 * 4096)) (Z.lnot 15))) k1.

(** [NEXT_ID.fetch_add(1)] *)
Definition fresh_id : kop Z := λ k, (Ok (k_next_id k), set_next_id (wrap64 (k_next_id k + 1)) k).

(** ** Creating tasks *)

(** [task.rs:243-289, Task::new]: the crafted stack is what [context_switch]
    pops (r15, r14, r13, r12, rbx, rbp) and returns to. *)
Definition task_new (name : bytes) (entry : Z) : kop task :=
  let! id := fresh_id in
  let! stk := alloc_stack in
  let top := stk.2 in
  sret (Task id name (top - 7 * 8) top Runnable stk.1
    [0; 0; 0; entry; 0; 0; task_trampoline]
    RKernel None 0 None [] 0 false signals_new USER_HEAP_START).

(** [task.rs:295-306, add_task]: the first [Dead] slot is overwritten, which
    drops the old task's stack; without one the table grows. *)
Definition add_task (t : task) : kop nat := λ k,
  match position (λ u, bool_decide (t_state u = Dead)) (k_tasks k) with
  | Some idx =>
      match k_tasks k !! idx with
      | Some old =>
          (let! _ := guarded_stack_drop (t_base old) in
           let! _ := smodify (upd idx (λ _, t)) in
           sret idx) k
      | None => (Panic, k)
      end
  | None => (Ok (length (k_tasks k)), set_tasks (k_tasks k ++ [t]) k)
  end.

(** [task.rs:309-316, spawn_kernel_task] *)
Definition spawn_kernel_task (name : bytes) (entry : Z) : kop Z :=
  let! t := task_new name entry in
  let! _ := smodify (map_env (init_fds (wrap32 (t_id t)))) in
  let! _ := add_task t in
  sret (t_id t).

(** [task.rs:361-452, spawn_user_from_entry] *)
Definition spawn_user_from_entry (name : bytes) (entry user_stack_top : Z) : kop Z :=
  let! id := fresh_id in
  let! stk := alloc_stack in
  let top := stk.2 in
  let! cr3 := sread (λ k, ok_or (last_page_table (k_env k)) (str "no user page table created")) in
  let t := Task id name (top - 12 * 8) top Runnable stk.1
    [0; 0; 0; cr3; 0; top - 5 * 8; user_task_trampoline;
     entry; user_cs; 514; user_stack_top; user_ss]
    RUser (Some cr3) user_stack_top None [] 0 false signals_new USER_HEAP_START in
  let! _ := smodify (map_env (init_fds (wrap32 id))) in
  let! _ := add_task t in
  sret id.

Definition cpu_of k : cpu := Cpu (k_cr3 k) (k_kernel_cr3 k) (k_ticks k).
(** A call of the loader, which changes the rest of the kernel. *)
Definition run_env {A} (f : cpu → W → outcome bytes A * W) : kop A := λ k,
  let p := f (cpu_of k) (k_env k) in (p.1, set_env p.2 k).
(** A store through a user pointer. *)
Definition poked (f : cpu → W → option W) : kop unit := λ k,
  match f (cpu_of k) (k_env k) with Some e => (Ok tt, set_env e k) | None => (Panic, k) end.

(** [task.rs:322-333, spawn_user_task] *)
Definition spawn_user_task (name elf_data : bytes) : kop Z :=
  let! p := run_env (λ c, load_image c elf_data [name] []) in
  spawn_user_from_entry name p.1 p.2.
(** [task.rs:340-344, spawn_user_task_from_file] *)
Definition spawn_user_task_from_file (name path : bytes) : kop Z :=
  let! p := run_env (λ c, load_program c path [path] []) in
  spawn_user_from_entry name p.1 p.2.
(** [task.rs:348-356, spawn_user_task_from_file_args] *)
Definition spawn_user_task_from_file_args (name path : bytes) (args envs : list bytes) : kop Z :=
  let! p := run_env (λ c, load_program c path args envs) in
  spawn_user_from_entry name p.1 p.2.

(** ** The scheduler *)

(** The search [for _ in 0..n] for the next runnable task after [idx]. *)
Fixpoint next_runnable (fuel n idx : nat) (ts : list task) : option nat :=
  match fuel with
  | O => None
  | S fuel =>
      let idx := ((idx + 1) mod n)%nat in
      match ts !! idx with
      | Some t => if bool_decide (t_state t = Runnable) then Some idx
                  else next_runnable fuel n idx ts
      | None => next_runnable fuel n idx ts
      end
  end.

(** The address space the incoming task runs in. *)
Definition switch_cr3 (t : task) k : kernel W :=
  match (if bool_decide (t_ring t = RUser) then t_user_cr3 t else k_kernel_cr3 k) with
  | Some c => set_cr3 c k
  | None => k
  end.

(** The incoming task is marked running and gets the CPU: its stack goes into
    the TSS, its address space into CR3. *)
Definition switch_to (next : nat) k : kernel W :=
  match k_tasks k !! next with
  | None => k
  | Some t =>
      switch_cr3 t (set_current next (t_id t) (t_kstack_top t) (upd next (with_state Running) k))
  end.

(** [task.rs:1397-1500, schedule] *)
Definition schedule k : kernel W :=
  let n := length (k_tasks k) in
  let cur := k_current k in
  match k_tasks k !! cur with
  | None => k
  | Some c =>
      match next_runnable n n cur (k_tasks k) with
      | None =>
          if bool_decide (t_state c = Running ∨ t_state c = Runnable)
          then upd cur (with_state Running) k else k
      | Some next =>
          if decide (next = cur) then
            if bool_decide (t_state c = Dead) then k else upd cur (with_state Running) k
          else
            switch_to next
              (if bool_decide (t_state c = Running) then upd cur (with_state Runnable) k else k)
      end
  end.

(** [task.rs:1386-1390, on_timer_tick] *)
Definition on_timer_tick k : kernel W :=
  schedule (Kernel (k_tasks k) (k_current k) (k_next_id k) (k_next_stack k) (k_init k)
    (wrap64 (k_ticks k + 1)) (k_cpu_id k) (k_kernel_cr3 k) (k_cr3 k) (k_tss k) (k_mapped k)
    (k_env k)).

(** [task.rs:1505-1530, run]: the first task of the boot context; CR3 is left as
    it is. *)
Definition run : kop unit := λ k,
  match position (λ t, bool_decide (t_state t = Runnable)) (k_tasks k) with
  | None => (Panic, k)
  | Some i =>
      match k_tasks k !! i with
      | None => (Panic, k)
      | Some t => (Ok tt, set_current i (t_id t) (t_kstack_top t) (upd i (with_state Running) k))
      end
  end.

(** [task.rs:1241-1243, yield_now] *)
Definition yield_now k : kernel W := schedule k.

(** The loop of [sleep_ticks]; [others] is what happens between two looks at the
    clock, and the loop is not finished when the list runs out. *)
Fixpoint sleep_loop (others : list (kernel W → kernel W)) (deadline : Z) : kop unit := λ k,
  if deadline <=? k_ticks k then (Ok tt, k) else
  match others with
  | [] => (Diverge, yield_now k)
  | o :: others => sleep_loop others deadline (o (yield_now k))
  end.

(** [task.rs:1253-1261, sleep_ticks]: [start + ticks] wraps. *)
Definition sleep_ticks (others : list (kernel W → kernel W)) (ticks : Z) : kop unit := λ k,
  if ticks =? 0 then (Ok tt, k) else sleep_loop others (wrap64 (k_ticks k + ticks)) k.

(** [task.rs:1278-1286, block_current_and_schedule] *)
Definition block_current_and_schedule k : kernel W := schedule (upd_cur (with_state Blocked) k).

Definition woken (t : task) : task :=
  if bool_decide (t_state t = Blocked) then with_state Runnable t else t.

(** [task.rs:1289-1297, unblock] *)
Definition unblock (id : Z) : kernel W → kernel W :=
  upd_id id woken.

(** [task.rs:217-226, task_exit_current] *)
Definition task_exit_current k : kernel W := schedule (upd_cur (with_state Dead) k).

(** [task.rs:1375-1382, list] *)
Definition list_tasks k : list (Z * bytes * tstate) :=
  (λ t, (t_id t, t_name t, t_state t)) <$> k_tasks k.

(** ** Termination *)

(** The surviving children go to the reaper. *)
Definition reparent (children : list Z) k : kernel W :=
  match children with
  | [] => k
  | _ =>
      let reaper := init_task_id k in
      let k1 := foldl (λ k c, upd_id c (with_parent reaper) k) k children in
      match reaper with
      | Some rid => upd_id rid (with_children (λ l, l ++ children)) k1
      | None => k1
      end
  end.

(** [SIGCHLD] to the parent, which is woken when it sleeps in [wait]. *)
Definition notified (t : task) : task :=
  let t := with_signals (set_pending SIGCHLD) t in
  if bool_decide (t_state t = Blocked ∧ t_wait_blocked t = true) then with_state Runnable t else t.
Definition notify_parent (parent : option Z) k : kernel W :=
  match parent with None => k | Some pid => upd_id pid notified k end.

(** The task at [i] becomes a zombie and gives up its children. *)
Definition zombified (status : Z) (t : task) : task :=
  with_children (λ _, []) (with_state Zombie (with_exit_status status t)).
Definition make_zombie (i : nat) (status : Z) : kernel W → kernel W := upd i (zombified status).

(** [task.rs:484-545, do_exit] *)
Definition do_exit (status : Z) k : kernel W :=
  match k_tasks k !! k_current k with
  | None => k
  | Some t =>
      let k := make_zombie (k_current k) status k in
      let k := map_env (cleanup_fds (wrap32 (t_id t))) k in
      let k := map_env (drop_reply_slot (t_id t)) k in
      let k := map_env (drop_windows (t_id t)) k in
      let k := reparent (t_children t) k in
      let k := notify_parent (t_parent t) k in
      schedule k
  end.

(** [task.rs:894-951, terminate_task]: [None] when the call does not return
    because the task ended itself. *)
Definition terminate_task (id status : Z) k : option bool * kernel W :=
  if bool_decide ((t_id <$> k_tasks k !! k_current k) = Some id) then (None, do_exit status k) else
  match index_of id k with
  | None => (Some false, k)
  | Some i =>
      match k_tasks k !! i with
      | None => (Some false, k)
      | Some t =>
          if bool_decide (t_state t = Zombie ∨ t_state t = Dead) then (Some false, k) else
          let k := make_zombie i status k in
          let k := map_env (cleanup_fds (wrap32 id)) k in
          let k := reparent (t_children t) k in
          (Some true, notify_parent (t_parent t) k)
      end
  end.

(** ** Waiting *)

(** [task.rs:548-555, WaitScan] *)
Inductive wait_scan : Type := NoChildren | Reaped (id status : Z) | WaitMore.

Definition is_zombie (c : Z) k : option task :=
  match find_task c k with
  | Some t => if bool_decide (t_state t = Zombie) then Some t else None
  | None => None
  end.

(** The first terminated child, in the order of the list. *)
Fixpoint first_zombie (children : list Z) k : wait_scan :=
  match children with
  | [] => WaitMore
  | c :: l =>
      match is_zombie c k with
      | Some t => Reaped c (t_exit_status t)
      | None => first_zombie l k
      end
  end.

Definition scan_children k : wait_scan :=
  match t_children <$> k_tasks k !! k_current k with
  | None | Some [] => NoChildren
  | Some children => first_zombie children k
  end.

Definition forget_child (c : Z) : task → task := with_children (filter (λ x, x ≠ c)).

(** The store of the exit status through the caller's pointer. *)
Definition store_status (status_ptr status : Z) (c : cpu) : W → option W :=
  if bool_decide (status_ptr ≠ 0 ∧ status_ptr < USER_SPACE_MAX ∧ status_ptr + 4 ≤ USER_SPACE_MAX)
  then poke32 c status_ptr status else Some.

(** [task.rs:564-627, do_wait]: one round of the loop.  [None]: the task sleeps,
    and goes on with [wait_resume] when it runs again. *)
Definition wait_round (status_ptr : Z) : kop (option Z) := λ k,
  match scan_children k with
  | NoChildren => (Ok (Some u64_max), k)
  | Reaped cid status =>
      let k := upd_cur (forget_child cid) k in
      let k := upd_id cid (with_state Dead) k in
      let k := map_env (cleanup_fds (wrap32 cid)) k in
      (let! _ := poked (store_status status_ptr status) in sret (Some cid)) k
  | WaitMore =>
      (Ok None, schedule (upd_cur (λ t, with_state Blocked (with_wait_blocked true t)) k))
  end.
(** [task.rs:620-626, !do_wait, the end of the loop body] *)
Definition wait_resume (status_ptr : Z) : kop (option Z) := λ k,
  wait_round status_ptr (upd_cur (with_wait_blocked false) k).

(** The children of the reaper that wait to be reaped. *)
Definition orphans (reaper : Z) k : list Z :=
  filter (λ c, existsb (λ t, (t_id t =? c) && bool_decide (t_state t = Zombie)) (k_tasks k) = true)
    (default [] (t_children <$> find_task reaper k)).
Definition reap_one (reaper cid : Z) k : kernel W :=
  map_env (cleanup_fds (wrap32 cid))
    (upd_id cid (with_state Dead) (upd_id reaper (forget_child cid) k)).

(** [task.rs:1189-1227, reap_orphans] *)
Definition reap_orphans k : kernel W :=
  match init_task_id k with
  | None => k
  | Some reaper => foldl (λ k c, reap_one reaper c k) k (orphans reaper k)
  end.

(** ** [exec] and [fork] *)

(** [task.rs:637-745, do_exec]: the result, the rewritten trap frame. *)
Definition do_exec (f : frame) (path : bytes) (args envs : list bytes) : kop (Z * frame) := λ k,
  let args := match args with [] => [path] | _ => args end in
  let p := run_env (λ c, load_program c path args envs) k in
  let k := p.2 in
  match p.1 with
  | Ok (entry, user_stack_top) =>
      match last_page_table (k_env k) with
      | None => (Ok (u64_max, f), k)
      | Some cr3 =>
          let k := upd_cur (λ t, with_signals reset_for_exec (with_image cr3 user_stack_top t)) k in
          (Ok (0, replicate 15 0 ++ [entry; user_cs; 514; user_stack_top; user_ss]), set_cr3 cr3 k)
      end
  | Err _ => (Ok (u64_max, f), k)
  | Panic => (Panic, k)
  | Diverge => (Diverge, k)
  end.

(** The child: the parent's trap frame with [rax] 0 above six registers and the
    trampoline, its dispositions without what is pending or in flight. *)
(** [task.rs:779-855, !do_fork, the crafted stack and the child task] *)
Definition child_task (parent : task) (child_id child_cr3 : Z) (stk : Z * Z) (f : frame) : task :=
  Task child_id (t_name parent ++ str "-child") (stk.2 - 27 * 8) stk.2 Runnable stk.1
    [0; 0; 0; 0; 0; 0; fork_child_trampoline;
     reg 0 f; reg 1 f; reg 2 f; reg 3 f; reg 4 f; reg 5 f; reg 6 f; reg 7 f; reg 8 f;
     reg 9 f; reg 10 f; reg 11 f; reg 12 f; reg 13 f; 0;
     reg R_RIP f; reg R_CS f; reg R_RFLAGS f; reg R_RSP f; reg R_SS f]
    RUser (Some child_cr3) (reg R_RSP f) (Some (t_id parent)) [] 0 false
    (set_saved None (set_pending_mask 0 (t_signals parent))) USER_HEAP_START.

(** [task.rs:754-877, do_fork] *)
Definition do_fork (f : frame) : kop Z :=
  with_cur (λ parent,
    match t_user_cr3 parent with
    | None => sret u64_max
    | Some parent_cr3 =>
        let! child_cr3 := run_env (λ c, cow_fork c parent_cr3) in
        let! child_id := fresh_id in
        let! stk := alloc_stack in
        let! _ := smodify (map_env (clone_fds (wrap32 (t_id parent)) (wrap32 child_id))) in
        let! _ := add_task (child_task parent child_id child_cr3 stk f) in
        let! _ := smodify (upd_id (t_id parent) (with_children (λ l, l ++ [child_id]))) in
        sret child_id
    end).

(** ** Signals *)

(** [task.rs:885-887, current_ppid] *)
Definition current_ppid k : Z := default 0 ((k_tasks k !! k_current k) ≫= t_parent).

(** [task.rs:1264-1266, current_id] *)
Definition current_id k : option Z := t_id <$> k_tasks k !! k_current k.

(** Who may be signalled by the current task. *)
Definition may_kill (t : task) (pid : Z) k : bool :=
  bool_decide (t_ring t = RKernel) || (t_id t =? pid) ||
  bool_decide (pid ∈ t_children t) ||
  existsb (λ u, (t_id u =? pid) && bool_decide (t_parent u = Some (t_id t))) (k_tasks k) ||
  (t_id t =? default u64_max (init_task_id k)).

(** A caught signal is marked pending and wakes its target. *)
Definition signalled (sig : Z) (t : task) : task :=
  woken (with_signals (set_pending sig) t).

(** [task.rs:965-1057, do_kill]: [None] when the call does not return. *)
Definition do_kill (pid sig : Z) k : option Z * kernel W :=
  if NSIG <=? sig then (Some u64_max, k) else
  match k_tasks k !! k_current k with
  | None => (None, k)
  | Some cur =>
      if negb (may_kill cur pid k) then (Some u64_max, k) else
      match find_task pid k with
      | None => (Some u64_max, k)
      | Some t =>
          let handler := handler_of sig (t_signals t) in
          let kill := let p := terminate_task pid (128 + sig) k in ((λ _, 0) <$> p.1, p.2) in
          if bool_decide (t_state t = Zombie ∨ t_state t = Dead) then (Some 0, k) else
          if sig =? 0 then (Some 0, k) else
          if sig =? SIGKILL then kill else
          if handler =? SIG_IGN then (Some 0, k) else
          if handler =? SIG_DFL then (if default_terminates sig then kill else (Some 0, k)) else
          (Some 0, upd_id pid (signalled sig) k)
      end
  end.

(** [handlers[sig] = handler], and the restorer unless it is 0. *)
Definition install (sig handler rest : Z) (s : signal_state) : signal_state :=
  SignalState (pending s) (<[Z.to_nat sig := handler]> (handlers s))
    (if rest =? 0 then restorer s else rest) (saved s).

(** [task.rs:1066-1082, do_signal] *)
Definition do_signal (sig handler rest : Z) k : Z * kernel W :=
  if (sig =? 0) || (NSIG <=? sig) then (u64_max, k) else
  if sig =? SIGKILL then (u64_max, k) else
  (default 0 (handler_of sig ∘ t_signals <$> k_tasks k !! k_current k),
   upd_cur (with_signals (install sig handler rest)) k).

(** [task.rs:1091-1153, deliver_pending_signals]: the new trap frame. *)
Definition deliver_pending_signals (f : frame) (syscall_ret : Z) : kop frame := λ k,
  match k_tasks k !! k_current k with
  | None => (Ok f, k)
  | Some t =>
      if bool_decide (t_ring t ≠ RUser ∨ is_Some (saved (t_signals t))) then (Ok f, k) else
      match next_deliverable (t_signals t) with
      | None => (Ok f, k)
      | Some (sig, handler) =>
          if restorer (t_signals t) =? 0 then (Ok f, k) else
          let new_rsp := wrap64 (Z.land (reg R_RSP f) (Z.lnot 15) - 8) in
          let ctx := SavedSigContext (reg R_RIP f) (reg R_RFLAGS f) (reg R_RSP f) syscall_ret in
          (let! _ := poked (λ c, poke64 c new_rsp (restorer (t_signals t))) in
           let! _ := smodify (upd_cur (with_signals (λ s, clear_pending sig (set_saved (Some ctx) s)))) in
           sret (<[R_RDI := sig]> (<[R_RSP := new_rsp]> (<[R_RIP := handler]> f)))) k
      end
  end.

(** [task.rs:1162-1182, do_sigreturn] *)
Definition do_sigreturn (f : frame) k : Z * frame * kernel W :=
  match k_tasks k !! k_current k ≫= λ t, saved (t_signals t) with
  | None => (u64_max, f, k)
  | Some c =>
      (c_rax c,
       <[R_RSP := c_rsp c]> (<[R_RFLAGS := c_rflags c]> (<[R_RIP := c_rip c]> f)),
       upd_cur (with_signals (set_saved None)) k)
  end.

End task.

(** ** The first switch into a task

    What the CPU does with a crafted stack: [context_switch] pops six registers
    and returns to the trampoline. *)
Inductive first_run : Type :=
| CallEntry (entry : Z)
| EnterUser (cr3 : option Z) (regs : option frame) (iret : list Z).

(** [task.rs:151-205, !context_switch, fork_child_trampoline, user_task_trampoline] *)
Definition start {W} `{TaskEnv W} (stk : list Z) : option first_run :=
  match stk with
  | r15 :: r14 :: r13 :: r12 :: rbx :: rbp :: ret :: rest =>
      if ret =? task_trampoline then Some (CallEntry r12) else
      if ret =? fork_child_trampoline then Some (EnterUser None (Some (take 15 rest)) (drop 15 rest))
      else if ret =? user_task_trampoline then Some (EnterUser (Some r12) None rest)
      else None
  | _ => None
  end.
