(* ===== verification/TaskSpec.v ===== *)
(** * The process table by task id

    The functions of [Task] find tasks by position; with unique ids the table is
    a map from ids to tasks, and every operation is a pointwise change of that
    map.  The invariant [tree_ok] of the process tree is stated on the map. *)
From S2P Require Import Prelude Signal Task.

(** Unfold what a setter of [task] changes. *)
Ltac task_fields t := destruct t; cbn in *.

Section table.
Context {W : Type} `{TaskEnv W}.
Implicit Types k : kernel W.
Implicit Types t u : task.

(** [f] leaves the id of a task alone. *)
Definition keeps_id (f : task → task) : Prop := ∀ t, t_id (f t) = t_id t.

Lemma keeps_with_state x : keeps_id (with_state x).
Proof. by intros []. Qed.
Lemma keeps_with_children g : keeps_id (with_children g).
Proof. by intros []. Qed.
Lemma keeps_with_parent p : keeps_id (with_parent p).
Proof. by intros []. Qed.
Lemma keeps_with_signals g : keeps_id (with_signals g).
Proof. by intros []. Qed.
Lemma keeps_with_wait_blocked b : keeps_id (with_wait_blocked b).
Proof. by intros []. Qed.
Lemma keeps_with_exit_status x : keeps_id (with_exit_status x).
Proof. by intros []. Qed.
Lemma keeps_with_image c r : keeps_id (with_image c r).
Proof. by intros []. Qed.

Definition ids k : list Z := t_id <$> k_tasks k.

Lemma index_of_lookup k i t :
  NoDup (ids k) → k_tasks k !! i = Some t → index_of (t_id t) k = Some i.
Proof.
  intros Hnd Hi. apply position_Some. split; [exists t; split; [done|lia]|].
  intros j u Hj Hu. apply Z.eqb_neq. intros He.
  assert (j = i) as ->; [|lia]. apply (NoDup_lookup (ids k) j i (t_id t) Hnd);
    unfold ids; rewrite list_lookup_fmap, ?Hu, ?Hi; simpl; congruence.
Qed.

Lemma index_of_Some k id i :
  index_of id k = Some i → ∃ t, k_tasks k !! i = Some t ∧ t_id t = id.
Proof. intros [(t&Ht&He) _]%position_Some. exists t. split; [done|lia]. Qed.

Lemma find_task_lookup k i t :
  NoDup (ids k) → k_tasks k !! i = Some t → find_task (t_id t) k = Some t.
Proof. intros Hnd Hi. unfold find_task. by rewrite (index_of_lookup k i t). Qed.

Lemma find_task_Some k id t :
  find_task id k = Some t → ∃ i, index_of id k = Some i ∧ k_tasks k !! i = Some t ∧ t_id t = id.
Proof.
  unfold find_task. intros (i&Hi&Ht)%bind_Some. exists i. split_and!; try done.
  apply index_of_Some in Hi as (u&Hu&He). congruence.
Qed.

Lemma find_task_None k id t : find_task id k = None → t ∈ k_tasks k → t_id t ≠ id.
Proof.
  unfold find_task. intros Hf Hin He. destruct (index_of id k) as [i|] eqn:Hi.
  - apply index_of_Some in Hi as (u&Hu&_). simpl in Hf. congruence.
  - pose proof (proj1 (position_None _ _) Hi t Hin). simpl in *. lia.
Qed.

Lemma ids_upd i f k : keeps_id f → ids (upd i f k) = ids k.
Proof.
  intros Hf. unfold ids, upd. simpl. apply list_eq. intros j.
  rewrite !list_lookup_fmap. destruct (decide (j = i)) as [->|].
  - rewrite list_lookup_alter_eq. destruct (k_tasks k !! i); simpl; [by rewrite Hf|done].
  - by rewrite list_lookup_alter_ne.
Qed.

Lemma ids_upd_id id f k : keeps_id f → ids (upd_id id f k) = ids k.
Proof. intros. unfold upd_id. case_match; [by apply ids_upd|done]. Qed.

Lemma find_task_upd i f k t x :
  NoDup (ids k) → keeps_id f → k_tasks k !! i = Some t →
  find_task x (upd i f k) = if decide (x = t_id t) then f <$> find_task x k else find_task x k.
Proof.
  intros Hnd Hf Hi.
  assert (index_of x (upd i f k) = index_of x k) as Hix.
  { unfold index_of, upd. simpl. clear -Hf. revert i.
    induction (k_tasks k) as [|u l IH]; intros [|i]; simpl; try done; [by rewrite Hf|].
    case_match; [done|]. f_equal. apply IH. }
  unfold find_task. rewrite Hix. destruct (index_of x k) as [j|] eqn:Hj; simpl; [|by case_decide].
  apply index_of_Some in Hj as (u&Hu&Hx).
  destruct (decide (j = i)) as [->|Hne].
  - rewrite list_lookup_alter_eq, decide_True by congruence. done.
  - rewrite list_lookup_alter_ne by done. rewrite decide_False; [done|].
    intros ->. apply Hne. apply (NoDup_lookup (ids k) j i (t_id t) Hnd);
      unfold ids; rewrite list_lookup_fmap, ?Hu, ?Hi; simpl; congruence.
Qed.

Lemma find_task_upd_id id f k x :
  NoDup (ids k) → keeps_id f →
  find_task x (upd_id id f k) = if decide (x = id) then f <$> find_task x k else find_task x k.
Proof.
  intros Hnd Hf. unfold upd_id. destruct (index_of id k) as [i|] eqn:Hi.
  - apply index_of_Some in Hi as (t&Ht&<-). by apply find_task_upd.
  - case_decide; [subst|done]. unfold find_task. by rewrite Hi.
Qed.

(** The fields that only [upd] leaves alone. *)
Lemma current_upd_id id f k : k_current (upd_id id f k) = k_current k.
Proof. unfold upd_id. by case_match. Qed.
Lemma init_upd_id id f k : init_task_id (upd_id id f k) = init_task_id k.
Proof. unfold upd_id. by case_match. Qed.
Lemma next_id_upd_id id f k : k_next_id (upd_id id f k) = k_next_id k.
Proof. unfold upd_id. by case_match. Qed.
Lemma length_upd_id id f k : length (k_tasks (upd_id id f k)) = length (k_tasks k).
Proof. unfold upd_id. case_match; [|done]. simpl. apply length_alter. Qed.

Lemma upd_cur_id k t f :
  NoDup (ids k) → k_tasks k !! k_current k = Some t → upd_cur f k = upd_id (t_id t) f k.
Proof.
  intros Hnd Ht. unfold upd_cur, upd_id. by rewrite (index_of_lookup k (k_current k) t).
Qed.

(** ** The process tree *)

Definition table := Z → option task.

Record tree_ok (F : table) (init : option Z) : Prop := {
  (* a child listed by a live task is there and names it as its parent *)
  tr_child : ∀ p t c, F p = Some t → t_state t ≠ Dead → c ∈ t_children t →
    ∃ u, F c = Some u ∧ t_state u ≠ Dead ∧ t_parent u = Some p;
  (* and a live task's parent lists it *)
  tr_parent : ∀ p t c u, F p = Some t → F c = Some u → t_state t ≠ Dead →
    t_state u ≠ Dead → t_parent u = Some p → c ∈ t_children t;
  (* nobody sleeps in [wait] while a child waits to be reaped, the reaper apart *)
  tr_wait : ∀ p t c u, F p = Some t → F c = Some u → t_state t = Blocked →
    t_wait_blocked t = true → init ≠ Some p → t_state u = Zombie → t_parent u ≠ Some p;
  tr_signals : ∀ p t, F p = Some t → signals_ok (t_signals t) }.

Definition awake (x : tstate) : Prop := x = Running ∨ x = Runnable.

(** A change that can only make a task more runnable. *)
Definition eased (t t' : task) : Prop :=
  t_parent t' = t_parent t ∧ t_children t' = t_children t ∧
  (t_state t' = t_state t ∧ t_wait_blocked t' = t_wait_blocked t ∨
   (awake (t_state t) ∨ t_state t = Blocked) ∧
     (awake (t_state t') ∨ t_state t' = Blocked ∧ t_wait_blocked t' = false)) ∧
  signals_ok (t_signals t').

Lemma eased_dead t t' : eased t t' → t_state t = Dead ↔ t_state t' = Dead.
Proof. unfold eased, awake. intuition congruence. Qed.

Lemma eased_zombie t t' : eased t t' → t_state t = Zombie ↔ t_state t' = Zombie.
Proof. unfold eased, awake. intuition congruence. Qed.

Lemma eased_asleep t t' :
  eased t t' → t_state t' = Blocked → t_wait_blocked t' = true →
  t_state t = Blocked ∧ t_wait_blocked t = true.
Proof. unfold eased, awake. intuition congruence. Qed.

Lemma eased_refl t : signals_ok (t_signals t) → eased t t.
Proof. intros. split_and!; auto. Qed.

Lemma tree_ok_eased F F' init :
  (∀ x, option_Forall2 eased (F x) (F' x)) → tree_ok F init → tree_ok F' init.
Proof.
  intros HF [C P Wt Sg].
  assert (∀ x t', F' x = Some t' → ∃ t, F x = Some t ∧ eased t t') as Hback.
  { intros x t' Hx. specialize (HF x). rewrite Hx in HF. inversion HF; eauto. }
  assert (∀ x t, F x = Some t → ∃ t', F' x = Some t' ∧ eased t t') as Hforth.
  { intros x t Hx. specialize (HF x). rewrite Hx in HF. inversion HF; eauto. }
  split.
  - intros p t' c (t&Ht&He)%Hback Hd Hc. pose proof He as (_&Hch&_).
    rewrite Hch in Hc. destruct (C p t c Ht) as (u&Hu&Hud&Hup); [by rewrite (eased_dead t t')|done|].
    apply Hforth in Hu as (u'&Hu'&He'). exists u'. split_and!; [done| |].
    + by rewrite <-(eased_dead u u').
    + destruct He' as (->&_). done.
  - intros p t' c u' (t&Ht&He)%Hback (u&Hu&He')%Hback Hd Hd' Hp.
    pose proof He as (_&->&_). apply (P p t c u Ht Hu); [by rewrite (eased_dead t t')|by rewrite (eased_dead u u')|].
    by destruct He' as (<-&_).
  - intros p t' c u' (t&Ht&He)%Hback (u&Hu&He')%Hback Hb Hw Hi Hz.
    destruct (eased_asleep t t' He Hb Hw). rewrite <-(eased_zombie u u') in Hz by done.
    destruct He' as (->&_). by apply (Wt p t c u).
  - intros p t' (t&Ht&_&_&_&Hs)%Hback. done.
Qed.

(** Changing one task of the table. *)
Lemma tree_ok_eased_at F F' init x f :
  (∀ y, F' y = if decide (y = x) then f <$> F y else F y) →
  (∀ t, F x = Some t → signals_ok (t_signals t) → eased t (f t)) →
  tree_ok F init → tree_ok F' init.
Proof.
  intros HF Hf Hok. apply (tree_ok_eased F F'); [|done]. intros y. rewrite HF.
  assert (∀ z t, F z = Some t → signals_ok (t_signals t)) as Hs by apply (tr_signals _ _ Hok).
  case_decide as Hd; [subst y|].
  - destruct (F x) as [t|] eqn:Hy; [|constructor]. apply Some_Forall2, Hf; [done|by eapply Hs].
  - destruct (F y) as [t|] eqn:Hy; constructor. by eapply eased_refl, Hs.
Qed.

End table.

(** ** The scheduler: what a switch changes, and who runs next

    [cpu_ok] is the part of the kernel invariant the scheduler needs: unique
    ids, a current task, and no other task marked [Running].  A switch changes
    nothing but the marks [Running] and [Runnable]; it picks the first runnable
    task behind the current one, so a runnable task waits for at most as many
    switches as there are tasks. *)

Section sched.
Context {W : Type} `{TaskEnv W}.
Implicit Types k : kernel W.
Implicit Types t u : task.

Record cpu_ok k : Prop := {
  cp_ids : NoDup (ids k);
  cp_fresh : Forall (λ x, 0 ≤ x < k_next_id k) (ids k);
  cp_cur : (k_current k < length (k_tasks k))%nat;
  cp_running : ∀ i t, k_tasks k !! i = Some t → t_state t = Running → i = k_current k }.

Lemma cpu_ok_cur k : cpu_ok k → ∃ t, k_tasks k !! k_current k = Some t.
Proof. intros [_ _ Hc _]. by apply lookup_lt_is_Some. Qed.

(** The two tables, entry by entry. *)
Lemma find_task_Forall2 (R : task → task → Prop) k k' x :
  (∀ t t', R t t' → t_id t' = t_id t) → Forall2 R (k_tasks k) (k_tasks k') →
  option_Forall2 R (find_task x k) (find_task x k').
Proof.
  intros HR HF. unfold find_task, index_of. induction HF as [|t t' l l' Hr HF IH]; simpl; [constructor|].
  rewrite (HR _ _ Hr). case_match; simpl; [by constructor|].
  destruct (position _ l) as [i|], (position _ l') as [j|]; simpl in *; try done.
Qed.

Lemma ids_Forall2 (R : task → task → Prop) k k' :
  (∀ t t', R t t' → t_id t' = t_id t) → Forall2 R (k_tasks k) (k_tasks k') → ids k' = ids k.
Proof. intros HR HF. unfold ids. induction HF; simpl; [done|]. f_equal; [by apply HR|done]. Qed.

Lemma Forall2_alter (R : task → task → Prop) i f (l : list task) :
  (∀ t, R t t) → (∀ t, l !! i = Some t → R t (f t)) → Forall2 R l (alter f i l).
Proof.
  intros Hr Hf. apply Forall2_same_length_lookup. rewrite length_alter. split; [done|].
  intros j t t' Ht Ht'. destruct (decide (j = i)) as [->|].
  - rewrite list_lookup_alter_eq, Ht in Ht'. simplify_eq/=. by apply Hf.
  - rewrite list_lookup_alter_ne in Ht' by done. by simplify_eq.
Qed.

(** Only the mark of a task that can run changes. *)
Definition remarked t t' : Prop :=
  t' = t ∨ awake (t_state t) ∧ ∃ x, awake x ∧ t' = with_state x t.

Lemma remarked_id t t' : remarked t t' → t_id t' = t_id t.
Proof. intros [->|[_ (x&_&->)]]; [done|]. apply keeps_with_state. Qed.

Lemma remarked_eased t t' : signals_ok (t_signals t) → remarked t t' → eased t t'.
Proof.
  intros Hs [->|[Ha (x&Hx&->)]]; [by apply eased_refl|]. destruct t; simpl in *.
  split_and!; simpl; auto.
Qed.

Lemma remarked_trans t1 t2 t3 : remarked t1 t2 → remarked t2 t3 → remarked t1 t3.
Proof.
  intros [->|[Ha (x&Hx&->)]]; [done|]. intros [->|[_ (y&Hy&->)]]; right.
  - split; [done|]. by exists x.
  - split; [done|]. exists y. split; [done|]. by destruct t1.
Qed.

Record same_but_marks k k' : Prop := {
  sm_tasks : Forall2 remarked (k_tasks k) (k_tasks k');
  sm_next : k_next_id k' = k_next_id k;
  sm_init : init_task_id k' = init_task_id k;
  sm_env : k_env k' = k_env k }.

Lemma same_but_marks_find k k' x :
  same_but_marks k k' → option_Forall2 remarked (find_task x k) (find_task x k').
Proof. intros [Hf _ _ _]. eapply find_task_Forall2; [apply remarked_id|done]. Qed.

Lemma remarked_refl t : remarked t t.
Proof. by left. Qed.

Lemma next_runnable_Some fuel n idx ts j :
  next_runnable fuel n idx ts = Some j → ∃ t, ts !! j = Some t ∧ t_state t = Runnable.
Proof.
  revert idx. induction fuel as [|fuel IH]; intros idx; simpl; [done|].
  case_match eqn:Hl; [|apply IH]. case_bool_decide; [|apply IH]. intros [= <-]. eauto.
Qed.

(** [schedule], branch by branch. *)
Lemma schedule_marks k : cpu_ok k → same_but_marks k (schedule k).
Proof.
  intros Hok. destruct (cpu_ok_cur k Hok) as [c Hc]. unfold schedule. rewrite Hc.
  assert (∀ i f, (∀ t, k_tasks k !! i = Some t → remarked t (f t)) →
    same_but_marks k (upd i f k)) as Hupd.
  { intros i f Hf. split; try done. apply Forall2_alter; [apply remarked_refl|done]. }
  assert (same_but_marks k k) as Hrefl.
  { split; try done. apply Forall2_same_length_lookup. split; [done|].
    intros i t t' ??. simplify_eq. apply remarked_refl. }
  case_match eqn:Hn.
  - apply next_runnable_Some in Hn as (t&Ht&Hr). case_decide as Hd.
    + subst. simplify_eq. case_bool_decide; [done|]. apply Hupd. intros u Hu. simplify_eq.
      right. split; [by right|]. exists Running. split; [by left|done].
    + set (k1 := if bool_decide _ then _ else k).
      assert (same_but_marks k k1 ∧ k_tasks k1 !! n = Some t) as [[F1 N1 I1 E1] Hn1].
      { unfold k1. case_bool_decide as Hb; [|done]. split.
        - apply Hupd. intros u Hu. simplify_eq. right. split; [by left|].
          exists Runnable. split; [by right|done].
        - simpl. by rewrite list_lookup_alter_ne by done. }
      unfold switch_to. rewrite Hn1. unfold switch_cr3.
      assert (Forall2 remarked (k_tasks k) (alter (with_state Running) n (k_tasks k1))) as HF.
      { eapply Forall2_trans; [|exact F1|apply Forall2_alter; [apply remarked_refl|]].
        - intros ???. apply remarked_trans.
        - intros u Hu. simplify_eq. right. split; [by right|].
          exists Running. split; [by left|done]. }
      case_match; split; simpl; done.
  - case_bool_decide as Hb; [|done]. apply Hupd. intros u Hu. simplify_eq.
    right. split; [done|]. exists Running. split; [by left|done].
Qed.

Lemma same_but_marks_fresh k k' :
  same_but_marks k k' → NoDup (ids k) → Forall (λ x, 0 ≤ x < k_next_id k) (ids k) →
  NoDup (ids k') ∧ Forall (λ x, 0 ≤ x < k_next_id k') (ids k').
Proof.
  intros [Hf Hn _ _] Hnd Hfr. rewrite (ids_Forall2 remarked k k'), Hn; [done|apply remarked_id|done].
Qed.

Lemma switch_cr3_fields t k :
  k_tasks (switch_cr3 t k) = k_tasks k ∧ k_current (switch_cr3 t k) = k_current k.
Proof. unfold switch_cr3. by case_match. Qed.

Lemma switch_to_fields next k t :
  k_tasks k !! next = Some t →
  k_tasks (switch_to next k) = alter (with_state Running) next (k_tasks k) ∧
  k_current (switch_to next k) = next.
Proof. intros Ht. unfold switch_to. rewrite Ht. apply switch_cr3_fields. Qed.

Lemma with_state_state x t : t_state (with_state x t) = x.
Proof. by destruct t. Qed.

Lemma schedule_cpu k : cpu_ok k → cpu_ok (schedule k).
Proof.
  intros Hok. pose proof (schedule_marks k Hok) as Hm. pose proof Hok as [Hnd Hfr Hcur Hrun].
  destruct (same_but_marks_fresh _ _ Hm Hnd Hfr) as [Hnd' Hfr'].
  pose proof (Forall2_length _ _ _ (sm_tasks _ _ Hm)) as Hlen.
  assert (k_tasks (schedule k) = k_tasks k ∧ k_current (schedule k) = k_current k ∨
          k_tasks (schedule k) = alter (with_state Running) (k_current k) (k_tasks k) ∧
            k_current (schedule k) = k_current k ∨
          ∃ next l, next ≠ k_current k ∧ (next < length l)%nat ∧
            k_tasks (schedule k) = alter (with_state Running) next l ∧
            k_current (schedule k) = next ∧ (length l = length (k_tasks k))%nat ∧
            ∀ i t, l !! i = Some t → t_state t ≠ Running) as Hcases.
  { clear Hm Hnd' Hfr' Hlen. destruct (cpu_ok_cur k Hok) as [c Hc]. unfold schedule. rewrite Hc.
    case_match eqn:Hn; [|case_bool_decide; auto].
    apply next_runnable_Some in Hn as (t&Ht&Hr). case_decide; [case_bool_decide; auto|].
    right. right. set (k1 := if bool_decide _ then _ else k).
    assert (k_tasks k1 !! n = Some t) as Hn1.
    { unfold k1. case_bool_decide; [simpl; by rewrite list_lookup_alter_ne by done|done]. }
    destruct (switch_to_fields n k1 t Hn1) as [-> ->].
    exists n, (k_tasks k1). split_and!; try done.
    - by eapply lookup_lt_Some.
    - unfold k1. case_bool_decide; [simpl; by rewrite length_alter|done].
    - intros i u Hi Hu. unfold k1 in Hi. case_bool_decide as Hb.
      + simpl in Hi. destruct (decide (i = k_current k)) as [->|Hne].
        * rewrite list_lookup_alter_eq, Hc in Hi. simplify_eq/=.
          rewrite with_state_state in Hu. done.
        * rewrite list_lookup_alter_ne in Hi by done. apply Hne. by eapply Hrun.
      + rewrite (Hrun i u Hi Hu), Hc in Hi. by simplify_eq. }
  split; [done|done| |]; destruct Hcases as [[Ht Hc]|[[Ht Hc]|(next&l&Hne&Hl&Ht&Hc&Hll&Hnr)]].
  1-3: lia.
  - rewrite Ht, Hc. apply Hrun.
  - rewrite Ht, Hc. intros i t Hi Hs. destruct (decide (i = k_current k)); [done|].
    rewrite list_lookup_alter_ne in Hi by done. by eapply Hrun.
  - rewrite Ht, Hc. intros i t Hi Hs. destruct (decide (i = next)); [done|].
    rewrite list_lookup_alter_ne in Hi by done. by apply Hnr in Hi.
Qed.

(** An update of one task that makes nobody [Running]. *)
Lemma cpu_ok_upd_id id f k :
  keeps_id f → (∀ t, find_task id k = Some t → t_state (f t) = Running → t_state t = Running) →
  cpu_ok k → cpu_ok (upd_id id f k).
Proof.
  intros Hk Hf [Hnd Hfr Hcur Hrun]. split.
  - by rewrite ids_upd_id.
  - by rewrite ids_upd_id, next_id_upd_id.
  - by rewrite current_upd_id, length_upd_id.
  - rewrite current_upd_id. unfold upd_id. case_match eqn:Hi; [|done].
    intros i t Ht Hr. simpl in Ht. destruct (decide (i = n)) as [->|].
    + rewrite list_lookup_alter_eq in Ht. destruct (k_tasks k !! n) as [u|] eqn:Hu; [|done].
      simplify_eq/=. apply (Hrun n u Hu), Hf; [|done]. unfold find_task. by rewrite Hi.
    + rewrite list_lookup_alter_ne in Ht by done. by eapply Hrun.
Qed.

Lemma cpu_ok_map_env f k : cpu_ok k → cpu_ok (map_env f k).
Proof. by intros []. Qed.

(** ** Fairness *)

(** How many steps of the circular search lead from [cur] to [i]. *)
Definition distance (n cur i : nat) : nat := (if decide (cur < i) then i - cur else i + n - cur)%nat.

Lemma distance_step n cur i :
  (cur < n)%nat → (i < n)%nat → ((cur + 1) mod n ≠ i)%nat →
  (S (distance n ((cur + 1) mod n) i) = distance n cur i)%nat ∧ ((cur + 1) mod n < n)%nat.
Proof.
  intros Hc Hi Hne. unfold distance. destruct (decide (cur + 1 = n)%nat) as [He|].
  - rewrite He, Nat.Div0.mod_same in *. repeat case_decide; lia.
  - rewrite (Nat.mod_small (cur + 1) n) in * by lia. repeat case_decide; lia.
Qed.

Lemma next_runnable_near fuel n cur ts i t :
  (cur < n)%nat → (i < n)%nat → ts !! i = Some t → t_state t = Runnable →
  (distance n cur i ≤ fuel)%nat →
  ∃ j, next_runnable fuel n cur ts = Some j ∧ (j < n)%nat ∧
       (j = i ∨ (distance n j i < distance n cur i)%nat).
Proof.
  revert cur. induction fuel as [|fuel IH]; intros cur Hc Hi Ht Hr Hd.
  { unfold distance in Hd. case_decide; lia. }
  simpl. destruct (decide ((cur + 1) mod n = i)%nat) as [He|Hne].
  { exists i. rewrite He, Ht, bool_decide_eq_true_2 by done. auto. }
  destruct (distance_step n cur i Hc Hi Hne) as [Hs Hlt].
  destruct (IH ((cur + 1) mod n)%nat) as (j&Hj&Hjn&Hjd); [done..|lia|].
  destruct (ts !! ((cur + 1) mod n)%nat) as [u|]; [case_bool_decide|];
    eexists; (split; [done|]); split; try done; [right|destruct Hjd..]; auto; lia.
Qed.

Lemma schedule_current k c next :
  k_tasks k !! k_current k = Some c →
  next_runnable (length (k_tasks k)) (length (k_tasks k)) (k_current k) (k_tasks k) = Some next →
  next ≠ k_current k → k_current (schedule k) = next.
Proof.
  intros Hc Hn Hne. destruct (next_runnable_Some _ _ _ _ _ Hn) as (t&Ht&_).
  unfold schedule. rewrite Hc, Hn, decide_False by done. case_bool_decide.
  - apply (switch_to_fields next _ t). simpl. by rewrite list_lookup_alter_ne by done.
  - by apply (switch_to_fields next _ t).
Qed.

(** One switch either runs the waiting task or brings it nearer. *)
Lemma schedule_nearer k i t :
  cpu_ok k → k_tasks k !! i = Some t → t_state t = Runnable → i ≠ k_current k →
  let n := length (k_tasks k) in
  k_current (schedule k) = i ∨ (distance n (k_current (schedule k)) i < distance n (k_current k) i)%nat.
Proof.
  intros Hok Ht Hr Hne n. destruct (cpu_ok_cur k Hok) as [c Hc].
  pose proof (lookup_lt_Some _ _ _ Ht) as Hi. pose proof (cp_cur k Hok) as Hcur.
  destruct (next_runnable_near n n (k_current k) (k_tasks k) i t) as (j&Hj&Hjn&Hd); try done.
  { unfold distance. case_decide; unfold n; lia. }
  destruct (decide (j = k_current k)) as [->|Hjc].
  { destruct Hd; [congruence|lia]. }
  by rewrite (schedule_current k c j Hc Hj Hjc).
Qed.

(** [passed_over i m k k']: [m] switches that all ran some other task, while the
    task at [i] stayed runnable; between two switches the running task may do
    anything else, which may create tasks - the table never gets shorter. *)
Inductive passed_over (i : nat) : nat → kernel W → kernel W → Prop :=
| po_none k : passed_over i 0 k k
| po_switch m k k1 k2 :
    cpu_ok k → (∃ t, k_tasks k !! i = Some t ∧ t_state t = Runnable) → i ≠ k_current k →
    k_current (schedule k) ≠ i → k_current k1 = k_current (schedule k) →
    (length (k_tasks k) ≤ length (k_tasks k1))%nat →
    passed_over i m k1 k2 → passed_over i (S m) k k2.

Lemma passed_over_grows i m k k' : passed_over i m k k' → (length (k_tasks k) ≤ length (k_tasks k'))%nat.
Proof. induction 1; lia. Qed.

(** A search that is nearer in a table is nearer in a longer one. *)
Lemma distance_longer n N c j i :
  (n ≤ N)%nat → (c < n)%nat → (j < n)%nat → (i < n)%nat →
  (distance n j i < distance n c i)%nat → (distance N j i < distance N c i)%nat.
Proof. unfold distance. repeat case_decide; lia. Qed.

Lemma passed_over_bound i m k k' N :
  passed_over i m k k' → (length (k_tasks k') ≤ N)%nat →
  m = 0%nat ∨ (m < distance N (k_current k) i)%nat.
Proof.
  induction 1 as [|m k k1 k2 Hok (t&Ht&Hr) Hne Hs Hc Hl Hp IH]; intros HN; [by left|right].
  specialize (IH HN). pose proof (passed_over_grows _ _ _ _ Hp) as Hg.
  pose proof (cp_cur k Hok) as Hcur. pose proof (lookup_lt_Some _ _ _ Ht) as Hi.
  pose proof (cp_cur _ (schedule_cpu k Hok)) as Hcur'.
  rewrite <-(Forall2_length _ _ _ (sm_tasks _ _ (schedule_marks k Hok))) in Hcur'.
  destruct (schedule_nearer k i t Hok Ht Hr Hne) as [?|Hd]; [done|].
  apply (distance_longer _ N) in Hd; [|lia|done..]. rewrite Hc in IH.
  assert (0 < distance N (k_current (schedule k)) i)%nat; [|lia]. unfold distance. case_decide; lia.
Qed.

(** C20: the round-robin scheduler does not starve anybody.  A task that stays
    runnable is passed over by fewer switches than the table has tasks at the end,
    whatever the tasks that run in between do; they may also create new ones.  *)
Theorem schedule_fair i m k k' :
  passed_over i m k k' → k_tasks k ≠ [] → (m < length (k_tasks k'))%nat.
Proof.
  intros Hp Hne. assert (0 < length (k_tasks k))%nat by (destruct (k_tasks k); simpl; [done|lia]).
  pose proof (passed_over_grows _ _ _ _ Hp) as Hg.
  destruct (passed_over_bound i m k k' _ Hp (le_n _)) as [->|Hm]; [lia|].
  inversion Hp as [|m' ? ? ? Hok (t&Ht&_) Hneq]; subst; [lia|].
  pose proof (cp_cur k Hok). pose proof (lookup_lt_Some _ _ _ Ht).
  unfold distance in Hm. case_decide; lia.
Qed.
End sched.
