(* ===== verification/TaskTree.v ===== *)
(** * The process tree: exit, wait and fork keep it consistent

    [kernel_ok] is the invariant of the whole task table.  Termination is one
    pointwise change of the table ([exit_view]): the task becomes a zombie, its
    children go to the reaper, its parent gets [SIGCHLD] and wakes up. *)
From S2P Require Import Prelude Signal Task TaskSpec.

Section tree.
Context {W : Type} `{TaskEnv W}.
Implicit Types k : kernel W.
Implicit Types t u : task.

Definition table_of k : table := λ x, find_task x k.

(** Parents and the reaper have ids that were handed out. *)
Definition parents_below (F : table) (init : option Z) (n : Z) : Prop :=
  (∀ x t p, F x = Some t → t_parent t = Some p → p < n) ∧ (∀ r, init = Some r → r < n).

Record kernel_ok k : Prop := {
  ko_cpu : cpu_ok k;
  ko_tree : tree_ok (table_of k) (init_task_id k);
  ko_below : parents_below (table_of k) (init_task_id k) (k_next_id k) }.

Lemma kernel_ok_ids k : kernel_ok k → NoDup (ids k).
Proof. intros [[] _ _]. done. Qed.

Lemma parents_below_eased F F' init n :
  (∀ x, option_Forall2 eased (F x) (F' x)) → parents_below F init n → parents_below F' init n.
Proof.
  intros HF [Hp Hi]. split; [|done]. intros x t' p Hx Ht. specialize (HF x).
  rewrite Hx in HF. inversion HF as [t ? He Hf|]; subst. destruct He as (He&_).
  apply (Hp x t p); congruence.
Qed.

Lemma kernel_ok_eased k k' :
  cpu_ok k' → (∀ x, option_Forall2 eased (find_task x k) (find_task x k')) →
  init_task_id k' = init_task_id k → k_next_id k' = k_next_id k → kernel_ok k → kernel_ok k'.
Proof.
  intros Hc HF Hi Hn [_ Ht Hb]. split; [done| |]; rewrite Hi, ?Hn.
  - by apply (tree_ok_eased (table_of k)).
  - by apply (parents_below_eased (table_of k)).
Qed.

Lemma kernel_ok_schedule k : kernel_ok k → kernel_ok (schedule k).
Proof.
  intros Hok. pose proof Hok as [Hc Ht _]. pose proof (schedule_marks k Hc) as Hm.
  apply (kernel_ok_eased k); [by apply schedule_cpu| |apply Hm|apply Hm|done]. intros x.
  pose proof (same_but_marks_find k (schedule k) x Hm) as Hf.
  inversion Hf as [t t' Hr Hx Hx'|]; constructor. apply remarked_eased; [|done].
  by apply (tr_signals _ _ Ht x).
Qed.

Lemma kernel_ok_map_env f k : kernel_ok k → kernel_ok (map_env f k).
Proof. by intros [[] ? ?]. Qed.

(** One task made more runnable, its relatives left alone. *)
Lemma kernel_ok_upd_id id f k :
  keeps_id f →
  (∀ t, find_task id k = Some t → signals_ok (t_signals t) →
     eased t (f t) ∧ (t_state (f t) = Running → t_state t = Running)) →
  kernel_ok k → kernel_ok (upd_id id f k).
Proof.
  intros Hk Hf Hok. pose proof Hok as [Hc Ht _].
  assert (∀ x t, find_task x k = Some t → signals_ok (t_signals t)) as Hs
    by apply (tr_signals _ _ Ht).
  apply (kernel_ok_eased k); [| |apply init_upd_id|apply next_id_upd_id|done].
  - apply cpu_ok_upd_id; [done| |done]. intros t Hid. apply (Hf t Hid). by eapply Hs.
  - intros x. rewrite find_task_upd_id by (done || apply Hc). case_decide as Hx; [subst|].
    + destruct (find_task id k) as [t|] eqn:Hid; [|constructor].
      apply Some_Forall2. apply Hf; [done|]. by eapply Hs.
    + destruct (find_task x k) as [t|] eqn:Hid; constructor. apply eased_refl. by eapply Hs.
Qed.

(** ** Termination *)

Lemma find_reparented L r k x :
  NoDup (ids k) →
  find_task x (foldl (λ k c, upd_id c (with_parent r) k) k L) =
    if decide (x ∈ L) then with_parent r <$> find_task x k else find_task x k.
Proof.
  revert k. induction L as [|c L IH]; intros k Hnd;
    [by rewrite decide_False by (by intros ?%elem_of_nil)|].
  cbn [foldl]. rewrite IH by (by rewrite ids_upd_id by apply keeps_with_parent).
  rewrite find_task_upd_id by (done || apply keeps_with_parent).
  assert (x ∈ c :: L ↔ x = c ∨ x ∈ L) as Hin by apply elem_of_cons.
  repeat case_decide; try tauto. by destruct (find_task x k) as [[]|].
Qed.

Lemma ids_reparented L r k : ids (foldl (λ k c, upd_id c (with_parent r) k) k L) = ids k.
Proof.
  revert k. induction L as [|c L IH]; intros k; simpl; [done|].
  by rewrite IH, ids_upd_id by apply keeps_with_parent.
Qed.

Lemma reparented_fields L r k :
  let k' := foldl (λ k c, upd_id c (with_parent r) k) k L in
  k_current k' = k_current k ∧ k_next_id k' = k_next_id k ∧ init_task_id k' = init_task_id k.
Proof.
  revert k. induction L as [|c L IH]; intros k; simpl; [done|].
  destruct (IH (upd_id c (with_parent r) k)) as (->&->&->).
  by rewrite current_upd_id, next_id_upd_id, init_upd_id.
Qed.

(** What a task becomes when the task [id] with children [L] and parent [p]
    ends. *)
Definition adopted (x : Z) (reaper : option Z) (L : list Z) t : task :=
  let t := if decide (x ∈ L) then with_parent reaper t else t in
  if decide (reaper = Some x) then with_children (λ l, l ++ L) t else t.
Definition exit_view (id status : Z) (reaper p : option Z) (L : list Z) (x : Z) t : task :=
  let t := if decide (x = id) then zombified status t else t in
  let t := adopted x reaper L t in
  if decide (p = Some x) then notified t else t.

Lemma keeps_zombified st : keeps_id (zombified st).
Proof. by intros []. Qed.
Lemma keeps_notified : keeps_id notified.
Proof. intros []. unfold notified. by case_bool_decide. Qed.

Lemma with_children_nil t : with_children (λ l, l ++ []) t = t.
Proof. destruct t. simpl. by rewrite app_nil_r. Qed.

Lemma find_reparent L k x :
  NoDup (ids k) →
  find_task x (reparent L k) = adopted x (init_task_id k) L <$> find_task x k.
Proof.
  intros Hnd. unfold reparent, adopted. destruct L as [|c L].
  { destruct (find_task x k) as [t|]; simpl; [|done]. f_equal. case_decide; [|done].
    by rewrite with_children_nil. }
  assert (∀ r k', k' = foldl (λ k c, upd_id c (with_parent r) k) k (c :: L) → NoDup (ids k')) as Hnd'.
  { intros r k' ->. by rewrite ids_reparented. }
  destruct (init_task_id k) as [rid|]; cbn zeta.
  - rewrite find_task_upd_id by (apply keeps_with_children || by eapply Hnd').
    rewrite find_reparented by done. destruct (find_task x k) as [t|]; [|by repeat case_decide].
    repeat case_decide; simpl; congruence || done.
  - rewrite find_reparented by done. destruct (find_task x k) as [t|]; [|by repeat case_decide].
    repeat case_decide; simpl; congruence || done.
Qed.

(** The core of [do_exit] and [terminate_task]. *)
Definition end_task (i : nat) (status : Z) (f : W → W) t k : kernel W :=
  notify_parent (t_parent t) (reparent (t_children t) (map_env f (make_zombie i status k))).

Lemma do_exit_end status k t :
  k_tasks k !! k_current k = Some t →
  do_exit status k = schedule (end_task (k_current k) status
    (λ e, drop_windows (t_id t) (drop_reply_slot (t_id t) (cleanup_fds (wrap32 (t_id t)) e))) t k).
Proof. intros Ht. unfold do_exit. by rewrite Ht. Qed.

Lemma ids_reparent L k : ids (reparent L k) = ids k.
Proof.
  unfold reparent. destruct L as [|c L]; [done|]. cbn zeta. case_match.
  - by rewrite ids_upd_id, ids_reparented by apply keeps_with_children.
  - by rewrite ids_reparented.
Qed.

Lemma reparent_fields L k :
  k_current (reparent L k) = k_current k ∧ k_next_id (reparent L k) = k_next_id k ∧
  init_task_id (reparent L k) = init_task_id k.
Proof.
  unfold reparent. destruct L as [|c L]; [done|]. cbn zeta.
  pose proof (reparented_fields (c :: L) (init_task_id k) k) as (?&?&?).
  case_match; [|done]. by rewrite current_upd_id, next_id_upd_id, init_upd_id.
Qed.

Lemma end_task_init i status f t k : init_task_id (end_task i status f t k) = init_task_id k.
Proof.
  unfold end_task, notify_parent. pose proof (reparent_fields (t_children t)
    (map_env f (make_zombie i status k))) as (_&_&Hi).
  case_match; rewrite ?init_upd_id; exact Hi.
Qed.

Lemma end_task_view i status f t k x :
  NoDup (ids k) → k_tasks k !! i = Some t →
  find_task x (end_task i status f t k) =
    exit_view (t_id t) status (init_task_id k) (t_parent t) (t_children t) x <$> find_task x k.
Proof.
  intros Hnd Hi. set (k1 := map_env f (make_zombie i status k)).
  assert (ids k1 = ids k) as Hids by (apply ids_upd, keeps_zombified).
  assert (find_task x k1 =
    if decide (x = t_id t) then zombified status <$> find_task x k else find_task x k) as Hz
    by (by apply find_task_upd; [|apply keeps_zombified|]).
  assert (find_task x (reparent (t_children t) k1) =
    adopted x (init_task_id k) (t_children t) <$> find_task x k1) as Hr
    by (apply (find_reparent _ k1); by rewrite Hids).
  unfold end_task. fold k1. unfold notify_parent, exit_view.
  destruct (t_parent t) as [p|].
  - rewrite find_task_upd_id, Hr, Hz by (apply keeps_notified || by rewrite ids_reparent, Hids).
    destruct (find_task x k); [|by repeat case_decide].
    repeat case_decide; simpl; congruence || done.
  - rewrite Hr, Hz. destruct (find_task x k); [|by repeat case_decide].
    repeat case_decide; simpl; congruence || done.
Qed.

(** The fields of [exit_view]. *)
Lemma exit_view_parent id st r p L x t :
  t_parent (exit_view id st r p L x t) = if decide (x ∈ L) then r else t_parent t.
Proof.
  unfold exit_view, adopted, notified, zombified. destruct t.
  repeat (case_decide || case_bool_decide); done.
Qed.

Lemma exit_view_children id st r p L x t :
  t_children (exit_view id st r p L x t) =
    (if decide (x = id) then [] else t_children t) ++ (if decide (r = Some x) then L else []).
Proof.
  unfold exit_view, adopted, notified, zombified. destruct t.
  repeat (case_decide || case_bool_decide); simpl; by rewrite ?app_nil_r.
Qed.

Lemma exit_view_state id st r p L x t :
  x ≠ id →
  (t_state (exit_view id st r p L x t) = t_state t ∧
     (p = Some x → ¬ (t_state t = Blocked ∧ t_wait_blocked t = true))) ∨
  (p = Some x ∧ t_state t = Blocked ∧ t_wait_blocked t = true ∧
     t_state (exit_view id st r p L x t) = Runnable).
Proof.
  intros Hx. unfold exit_view, adopted, notified. rewrite (decide_False (P:=x = id)) by done.
  destruct t. repeat (case_decide || case_bool_decide); simpl in *; tauto.
Qed.

Lemma exit_view_self id st r p L t : t_state (exit_view id st r p L id t) = Zombie.
Proof.
  unfold exit_view, adopted, notified, zombified. rewrite (decide_True (P:=id = id)) by done.
  destruct t. repeat (case_decide || case_bool_decide); simpl in *; naive_solver.
Qed.

Lemma exit_view_wait id st r p L x t :
  t_wait_blocked (exit_view id st r p L x t) = t_wait_blocked t.
Proof.
  unfold exit_view, adopted, notified, zombified. destruct t.
  repeat (case_decide || case_bool_decide); done.
Qed.

Lemma exit_view_signals id st r p L x t :
  signals_ok (t_signals t) → signals_ok (t_signals (exit_view id st r p L x t)).
Proof.
  intros Hs. unfold exit_view, adopted, notified, zombified. destruct t.
  repeat (case_decide || case_bool_decide); simpl in *; try done;
    by apply set_pending_ok.
Qed.

Lemma exit_view_status id st r p L t : t_exit_status (exit_view id st r p L id t) = st.
Proof.
  unfold exit_view, adopted, notified, zombified. rewrite (decide_True (P:=id = id)) by done.
  destruct t. repeat (case_decide || case_bool_decide); done.
Qed.

Lemma exit_view_alive id st r p L x t :
  t_state t ≠ Dead → t_state (exit_view id st r p L x t) ≠ Dead.
Proof.
  intros Ht. destruct (decide (x = id)) as [->|Hx]; [by rewrite exit_view_self|].
  destruct (exit_view_state id st r p L x t Hx) as [[-> _]|(_&_&_&->)]; done.
Qed.

Lemma exit_view_dead id st r p L x t :
  x ≠ id → t_state (exit_view id st r p L x t) ≠ Dead → t_state t ≠ Dead.
Proof.
  intros Hx. destruct (exit_view_state id st r p L x t Hx) as [[-> _]|(_&->&_)]; done.
Qed.

(** Ending a task that is alive keeps the tree. *)
Lemma tree_ok_exit F F' init id status t0 :
  F id = Some t0 → t_state t0 ≠ Dead →
  (∀ x, F' x = exit_view id status init (t_parent t0) (t_children t0) x <$> F x) →
  tree_ok F init → tree_ok F' init.
Proof.
  intros H0 Hd0 HF [C P Wt Sg].
  assert (∀ x t', F' x = Some t' → ∃ t, F x = Some t ∧
    t' = exit_view id status init (t_parent t0) (t_children t0) x t) as Hback.
  { intros x t'. rewrite HF. intros (t&?&->)%fmap_Some. eauto. }
  assert (∀ x t, F x = Some t → t_state (exit_view id status init (t_parent t0) (t_children t0) x t) ≠ Dead →
    t_state t ≠ Dead) as Hdead.
  { intros x t Hx Hd. destruct (decide (x = id)) as [->|]; [by simplify_eq|].
    by eapply exit_view_dead. }
  split.
  - intros p t' c (t&Ht&->)%Hback Hd Hc. apply Hdead in Hd as Hd'; [|done].
    rewrite exit_view_children in Hc.
    apply elem_of_app in Hc as [Hc|Hc]; case_decide as He; try (by apply elem_of_nil in Hc).
    + destruct (C p t c Ht Hd' Hc) as (u&Hu&Hud&Hup). eexists. rewrite HF, Hu.
      split; [done|]. split; [by apply exit_view_alive|]. rewrite exit_view_parent.
      case_decide as Hin; [|done]. destruct (C id t0 c H0 Hd0 Hin) as (?&?&_&?). congruence.
    + destruct (C id t0 c H0 Hd0 Hc) as (u&Hu&Hud&Hup). eexists. rewrite HF, Hu.
      split; [done|]. split; [by apply exit_view_alive|]. rewrite exit_view_parent.
      by rewrite decide_True by done.
  - intros p t' c u' (t&Ht&->)%Hback (u&Hu&->)%Hback Hd Hdu Hp.
    apply Hdead in Hd; [|done]. apply Hdead in Hdu; [|done].
    rewrite exit_view_parent in Hp. rewrite exit_view_children. apply elem_of_app.
    case_decide as Hin; [right; by rewrite decide_True by done|left].
    assert (c ∈ t_children t) as Hc by (by eapply P). case_decide; [subst; by simplify_eq|done].
  - intros p t' c u' (t&Ht&->)%Hback (u&Hu&->)%Hback Hb Hw Hi Hz.
    rewrite exit_view_wait in Hw. rewrite exit_view_parent.
    destruct (decide (p = id)) as [->|Hpid]; [by rewrite exit_view_self in Hb|].
    destruct (exit_view_state id status init (t_parent t0) (t_children t0) p t Hpid)
      as [[Hs Hn]|(_&_&_&Hs)]; [|congruence].
    rewrite Hs in Hb. case_decide as Hin; [done|]. intros Hup.
    destruct (decide (c = id)) as [->|Hc].
    + simplify_eq. by destruct (Hn Hup).
    + destruct (exit_view_state id status init (t_parent t0) (t_children t0) c u Hc)
        as [[Hs' _]|(_&_&_&Hs')]; [|congruence].
      rewrite Hs' in Hz. by apply (Wt p t c u Ht Hu Hb Hw Hi Hz).
  - intros p t' (t&Ht&->)%Hback. apply exit_view_signals. by eapply Sg.
Qed.

Lemma cpu_ok_end_task i status f t k :
  cpu_ok k → k_tasks k !! i = Some t → cpu_ok (end_task i status f t k).
Proof.
  intros Hok Hi. pose proof (cp_ids k Hok) as Hnd.
  assert (make_zombie i status k = upd_id (t_id t) (zombified status) k) as Hz.
  { unfold upd_id. by rewrite (index_of_lookup k i t). }
  unfold end_task. set (k1 := map_env _ _).
  assert (cpu_ok k1) as H1.
  { unfold k1. apply cpu_ok_map_env. rewrite Hz.
    apply cpu_ok_upd_id; [apply keeps_zombified| |done]. by intros []. }
  assert (∀ id g k', keeps_id g → (∀ u, t_state (g u) = Running → t_state u = Running) →
    cpu_ok k' → cpu_ok (upd_id id g k')) as Hu.
  { intros id g k' Hg Hst ?. apply cpu_ok_upd_id; auto. }
  assert (cpu_ok (reparent (t_children t) k1)) as H2.
  { unfold reparent. destruct (t_children t) as [|c L]; [done|]. cbn zeta.
    assert (∀ l r k', cpu_ok k' → cpu_ok (foldl (λ k c, upd_id c (with_parent r) k) k' l)) as Hl.
    { induction l as [|c' l IH]; intros r k' ?; [done|]. apply IH, Hu;
        [apply keeps_with_parent|by intros []|done]. }
    case_match; [|by apply Hl]. apply Hu; [apply keeps_with_children|by intros []|by apply Hl]. }
  unfold notify_parent. case_match; [|done]. apply Hu; [apply keeps_notified| |done].
  intros []. unfold notified. case_bool_decide; simpl; done.
Qed.

Lemma end_task_next i status f t k : k_next_id (end_task i status f t k) = k_next_id k.
Proof.
  unfold end_task, notify_parent. pose proof (reparent_fields (t_children t)
    (map_env f (make_zombie i status k))) as (_&Hi&_).
  case_match; rewrite ?next_id_upd_id; exact Hi.
Qed.

Lemma kernel_ok_end_task i status f t k :
  kernel_ok k → k_tasks k !! i = Some t → t_state t ≠ Dead → kernel_ok (end_task i status f t k).
Proof.
  intros [Hc Ht [Hb Hbi]] Hi Hd. pose proof (cp_ids k Hc) as Hnd.
  pose proof (λ x, end_task_view i status f t k x Hnd Hi) as Hv.
  split; [by apply cpu_ok_end_task| |]; rewrite end_task_init.
  - apply (tree_ok_exit (table_of k) _ _ (t_id t) status t); try done.
    by eapply find_task_lookup.
  - rewrite end_task_next. split; [|done]. intros x u p Hx Hp. unfold table_of in Hx.
    rewrite Hv in Hx. apply fmap_Some in Hx as (u0&Hu0&->).
    rewrite exit_view_parent in Hp. case_decide; [by apply Hbi|by apply (Hb x u0)].
Qed.
End tree.
