(* ===== verification/TaskSteps.v ===== *)
(** * Every operation of task.rs keeps the kernel invariant

    [kstep] is one call of the current task (or a timer tick), with the state
    the call leaves; [kreach] is any number of them. *)
From S2P Require Import Prelude Signal Task TaskSpec TaskTree.

Section steps.
Context {W : Type} `{TaskEnv W}.
Implicit Types k : kernel W.
Implicit Types t u : task.

(** The CPU executes the current task. *)
Definition runs k t : Prop := k_tasks k !! k_current k = Some t ∧ t_state t = Running.

Lemma runs_find k t : kernel_ok k → runs k t → find_task (t_id t) k = Some t.
Proof. intros Hok [Ht _]. eapply find_task_lookup; [by apply kernel_ok_ids|done]. Qed.

Lemma kernel_ok_upd_cur f k t :
  kernel_ok k → runs k t → keeps_id f →
  (signals_ok (t_signals t) → eased t (f t)) → kernel_ok (upd_cur f k).
Proof.
  intros Hok Hr Hf He. rewrite (upd_cur_id k t) by (by apply kernel_ok_ids || apply Hr).
  apply kernel_ok_upd_id; [done| |done]. intros u Hu Hs.
  rewrite (runs_find k t Hok Hr) in Hu. simplify_eq. split; [by apply He|]. intros _. apply Hr.
Qed.

(** ** Reaping a child *)

Lemma tree_ok_reap F F' init par cid t u :
  F par = Some t → F cid = Some u → t_state t ≠ Dead → t_parent u = Some par → par ≠ cid →
  (∀ x, F' x = if decide (x = cid) then with_state Dead <$> F x
               else if decide (x = par) then forget_child cid <$> F x else F x) →
  tree_ok F init → tree_ok F' init.
Proof.
  intros Hp Hc Hd Hpar Hne HF [C P Wt Sg].
  assert (∀ x t', F' x = Some t' → t_state t' ≠ Dead → x ≠ cid ∧ ∃ t, F x = Some t ∧
    t_state t = t_state t' ∧ t_parent t = t_parent t' ∧ t_wait_blocked t = t_wait_blocked t' ∧
    t_children t' = if decide (x = par) then filter (λ y, y ≠ cid) (t_children t) else t_children t)
    as Hback.
  { intros x t'. rewrite HF. repeat case_decide; subst; try congruence.
    - intros (v&_&->)%fmap_Some. by rewrite with_state_state.
    - intros (v&Hv&->)%fmap_Some _. split; [done|]. exists v. split; [done|]. by destruct v.
    - intros Hx _. split; [done|]. by exists t'. }
  split.
  - intros p t' c Ht Hd' Hc'. destruct (Hback p t' Ht Hd') as (Hpc&v&Hv&Hs&_&_&Hch).
    assert (c ∈ t_children v ∧ (p = par → c ≠ cid)) as [Hin Hcc].
    { rewrite Hch in Hc'. case_decide; [|done]. apply list_elem_of_filter in Hc'. tauto. }
    destruct (C p v c Hv) as (w&Hw&Hwd&Hwp); [congruence|done|].
    assert (c ≠ cid) as Hcne by (intros ->; apply Hcc; congruence).
    rewrite HF, (decide_False (P:=c = cid)), Hw by done.
    destruct (decide (c = par)); (eexists; split; [done|]); [|done]. by destruct w.
  - intros p t' c u' Ht Hu Hd1 Hd2 Hpp.
    destruct (Hback p t' Ht Hd1) as (Hpc&v&Hv&Hs&_&_&Hch).
    destruct (Hback c u' Hu Hd2) as (Hcc&w&Hw&Hsw&Hpw&_&_).
    assert (c ∈ t_children v) by (apply (P p v c w Hv Hw); congruence).
    rewrite Hch. case_decide; [|done]. by apply list_elem_of_filter.
  - intros p t' c u' Ht Hu Hb Hw Hi Hz.
    destruct (Hback p t' Ht) as (Hpc&v&Hv&Hs&_&Hwb&_); [congruence|].
    destruct (Hback c u' Hu) as (Hcc&w&Hw'&Hsw&Hpw&_&_); [congruence|].
    rewrite <-Hpw. apply (Wt p v c w Hv Hw'); congruence.
  - intros p t'. rewrite HF. repeat case_decide; [| |apply Sg];
      intros (v&Hv&->)%fmap_Some; apply Sg in Hv; by destruct v.
Qed.

Lemma find_map_env f k x : find_task x (map_env f k) = find_task x k.
Proof. done. Qed.

(** The table after the task [par] reaped [cid]. *)
Definition reap_child (par cid : Z) k : kernel W :=
  upd_id cid (with_state Dead) (upd_id par (forget_child cid) k).

Lemma find_reaped par cid k x :
  NoDup (ids k) →
  find_task x (reap_child par cid k) =
    if decide (x = cid) then with_state Dead <$> find_task x (upd_id par (forget_child cid) k)
    else if decide (x = par) then forget_child cid <$> find_task x k else find_task x k.
Proof.
  intros Hnd. assert (keeps_id (forget_child cid)) by apply keeps_with_children.
  unfold reap_child. rewrite find_task_upd_id by (by rewrite ?ids_upd_id || apply keeps_with_state).
  rewrite (find_task_upd_id par) by done. repeat case_decide; congruence || done.
Qed.

Lemma find_reaped_ne par cid k x :
  NoDup (ids k) → par ≠ cid →
  find_task x (reap_child par cid k) =
    if decide (x = cid) then with_state Dead <$> find_task x k
    else if decide (x = par) then forget_child cid <$> find_task x k else find_task x k.
Proof.
  intros Hnd Hne. rewrite find_reaped by done. case_decide; [|done].
  rewrite find_task_upd_id, decide_False by (done || apply keeps_with_children || congruence). done.
Qed.

Lemma env_reaped par cid k : k_env (reap_child par cid k) = k_env k.
Proof. unfold reap_child, upd_id. by repeat case_match. Qed.
Lemma cpu_reaped par cid k : cpu_of (reap_child par cid k) = cpu_of k.
Proof. unfold reap_child, upd_id. by repeat case_match. Qed.

Lemma kernel_ok_reap k par cid t u :
  kernel_ok k → find_task par k = Some t → find_task cid k = Some u → t_state t ≠ Dead →
  t_parent u = Some par → par ≠ cid →
  kernel_ok (reap_child par cid k).
Proof.
  intros [Hc Ht [Hb Hbi]] Hp Hu Hd Hpar Hne. pose proof (cp_ids k Hc) as Hnd.
  pose proof (λ x, find_reaped_ne par cid k x Hnd Hne) as HF. unfold reap_child in *.
  split.
  - apply cpu_ok_upd_id; [apply keeps_with_state|by intros []|].
    apply cpu_ok_upd_id; [apply keeps_with_children|by intros []|done].
  - rewrite !init_upd_id. by apply (tree_ok_reap (table_of k) _ _ par cid t u).
  - rewrite !init_upd_id, !next_id_upd_id. split; [|done]. intros x v p Hx Hpx. unfold table_of in Hx.
    rewrite HF in Hx. repeat case_decide; [| |by apply (Hb x v)];
      apply fmap_Some in Hx as (w&Hw&->); apply (Hb x w); by destruct w.
Qed.

(** ** Waiting *)

Lemma is_zombie_Some c k t :
  is_zombie c k = Some t ↔ find_task c k = Some t ∧ t_state t = Zombie.
Proof. unfold is_zombie. repeat case_match; case_bool_decide || idtac; naive_solver. Qed.

Lemma first_zombie_spec l k :
  match first_zombie l k with
  | NoChildren => False
  | Reaped c st => ∃ t, c ∈ l ∧ find_task c k = Some t ∧ t_state t = Zombie ∧ t_exit_status t = st
  | WaitMore => ∀ c t, c ∈ l → find_task c k = Some t → t_state t ≠ Zombie
  end.
Proof.
  induction l as [|c l IH]; simpl; [by intros c t Hc%not_elem_of_nil|].
  destruct (is_zombie c k) as [t|] eqn:Hz.
  - apply is_zombie_Some in Hz as [Hf Hs]. exists t. split_and!; try done. by left.
  - destruct (first_zombie l k) as [|c' st|]; [done| |].
    + destruct IH as (t&?&?). exists t. split; [by right|done].
    + intros c' t [->|Hc]%elem_of_cons Hf; [|by apply (IH c' t)]. intros Hs.
      assert (is_zombie c k = Some t) by by apply is_zombie_Some. congruence.
Qed.

Lemma scan_children_spec k t :
  runs k t →
  match scan_children k with
  | NoChildren => t_children t = []
  | Reaped c st =>
      ∃ u, c ∈ t_children t ∧ find_task c k = Some u ∧ t_state u = Zombie ∧ t_exit_status u = st
  | WaitMore =>
      t_children t ≠ [] ∧ ∀ c u, c ∈ t_children t → find_task c k = Some u → t_state u ≠ Zombie
  end.
Proof.
  intros [Ht _]. unfold scan_children. rewrite Ht. simpl.
  destruct (t_children t) as [|c l] eqn:Hc; [done|].
  pose proof (first_zombie_spec (c :: l) k) as Hs. by destruct (first_zombie (c :: l) k).
Qed.

Definition asleep t : task := with_state Blocked (with_wait_blocked true t).
Lemma keeps_asleep : keeps_id asleep.
Proof. by intros []. Qed.

(** Falling asleep is safe when no child has ended. *)
Lemma kernel_ok_asleep k t :
  kernel_ok k → runs k t →
  (∀ c u, c ∈ t_children t → find_task c k = Some u → t_state u ≠ Zombie) →
  kernel_ok (upd_cur asleep k).
Proof.
  intros Hok Hr Hz. pose proof Hok as [Hc [C P Wt Sg] [Hb Hbi]].
  pose proof (cp_ids k Hc) as Hnd. pose proof (runs_find k t Hok Hr) as Hf.
  rewrite (upd_cur_id k t) by (done || apply Hr).
  assert (∀ x, find_task x (upd_id (t_id t) asleep k) =
    if decide (x = t_id t) then asleep <$> find_task x k else find_task x k) as HF
    by (intros x; by apply find_task_upd_id; [|apply keeps_asleep]).
  assert (∀ x u, find_task x (upd_id (t_id t) asleep k) = Some u → ∃ v, find_task x k = Some v ∧
    (u = v ∨ x = t_id t ∧ v = t ∧ u = asleep t)) as Hback.
  { intros x u. rewrite HF. case_decide; [|by exists u; auto]. intros (v&Hv&->)%fmap_Some.
    subst. simplify_eq. exists t. auto. }
  assert (t_parent (asleep t) = t_parent t ∧ t_children (asleep t) = t_children t ∧
          t_state (asleep t) = Blocked) as (Hap&Hac&Has) by (by destruct t).
  destruct Hr as [_ Hrun].
  split; [apply cpu_ok_upd_id; [apply keeps_asleep|by intros []|done]| |];
    rewrite !init_upd_id, ?next_id_upd_id.
  - split; unfold table_of.
    + intros p t' c (v&Hv&Hor)%Hback Hd Hin.
      assert (t_state v ≠ Dead ∧ c ∈ t_children v) as [Hvd Hvc].
      { destruct Hor as [->|(_&->&->)]; [done|]. rewrite Hac in Hin. by rewrite Hrun. }
      destruct (C p v c Hv Hvd Hvc) as (w&Hw&Hwd&Hwp). unfold table_of in Hw.
      rewrite HF, Hw. case_decide; eexists; (split; [done|]); [|done]. by destruct w.
    + intros p t' c u' (v&Hv&Hor)%Hback (w&Hw&Hor')%Hback Hd Hdu Hp.
      assert (c ∈ t_children v) as Hin.
      { apply (P p v c w Hv Hw).
        - destruct Hor as [->|(_&->&->)]; [done|by rewrite Hrun].
        - destruct Hor' as [->|(_&->&->)]; [done|by rewrite Hrun].
        - destruct Hor' as [->|(_&->&->)]; [done|congruence]. }
      destruct Hor as [->|(_&->&->)]; [done|by rewrite Hac].
    + intros p t' c u' (v&Hv&Hor)%Hback (w&Hw&Hor')%Hback Hbl Hwb Hi Hzo.
      assert (w = u') as -> by (destruct Hor' as [->|(_&->&->)]; [done|congruence]).
      destruct Hor as [->|(->&->&->)]; [by apply (Wt p v c u')|]. intros Hp.
      apply (Hz c u'); [|done|done]. apply (P (t_id t) t c u' Hf Hw); congruence.
    + intros p t' (v&Hv&Hor)%Hback. apply Sg in Hv. destruct Hor as [->|(_&->&->)]; [done|].
      by destruct t.
  - split; [|done]. intros x t' p (v&Hv&Hor)%Hback Hp. apply (Hb x v); [done|].
    destruct Hor as [->|(_&->&->)]; congruence.
Qed.

(** A store of the kernel changes the rest of the kernel at most. *)
Lemma kernel_ok_poked (f : cpu → W → option W) k : kernel_ok k → kernel_ok (poked f k).2.
Proof. intros Hok. unfold poked. destruct (f _ _) as [e|]; [|done]. by apply (kernel_ok_map_env (λ _, e) k). Qed.

(** Preservation by one round of [do_wait]. *)
Lemma kernel_ok_wait_round ptr k t r k' :
  kernel_ok k → runs k t → wait_round ptr k = (r, k') → kernel_ok k'.
Proof.
  intros Hok Hr. unfold wait_round. pose proof (scan_children_spec k t Hr) as Hs.
  pose proof (runs_find k t Hok Hr) as Hf. pose proof Hok as [Hc [C _ _ _] _].
  destruct (scan_children k) as [|c st|]; [by intros [= <- <-]| |intros [= <- <-]].
  - destruct Hs as (u&Hin&Hu&Hz&_). unfold sbind.
    match goal with |- context [poked ?f ?k0] => pose proof (kernel_ok_poked f k0) as Hpk;
      destruct (poked f k0) as [[[]|e| |] k1] end;
      (intros [= <- <-]; apply Hpk, kernel_ok_map_env; clear Hpk).
    all: destruct Hr as [Ht Hrun]; rewrite (upd_cur_id k t) by (by apply kernel_ok_ids || done).
    all: destruct (C (t_id t) t c Hf) as (v&Hv&_&Hvp); [congruence|done|].
    all: assert (v = u) as -> by (unfold table_of in Hv; congruence).
    all: apply (kernel_ok_reap k (t_id t) c t u); try done; [congruence|].
    all: intros He; rewrite <-He, Hf in Hu; congruence.
  - apply kernel_ok_schedule, (kernel_ok_asleep k t); [done..|apply Hs].
Qed.

(** ** New tasks *)

Lemma find_task_iff k x t :
  NoDup (ids k) → find_task x k = Some t ↔ ∃ i, k_tasks k !! i = Some t ∧ t_id t = x.
Proof.
  intros Hnd. split.
  - intros (i&_&Hi&Hx)%find_task_Some. eauto.
  - intros (i&Hi&<-). by eapply find_task_lookup.
Qed.

Lemma same_id k i j u v :
  NoDup (ids k) → k_tasks k !! i = Some u → k_tasks k !! j = Some v → t_id u = t_id v → i = j.
Proof.
  intros Hnd Hu Hv He. apply (NoDup_lookup (ids k) i j (t_id u) Hnd); unfold ids;
    rewrite list_lookup_fmap, ?Hu, ?Hv; simpl; congruence.
Qed.

(** What [k'] is when the task [c] was put into the slot [n] of [k]: a dead
    one or a new one. *)
Record placed (n : nat) (c : task) k k' : Prop := {
  pl_tasks : ∀ i, k_tasks k' !! i = if decide (i = n) then Some c else k_tasks k !! i;
  pl_free : ∀ t, k_tasks k !! n = Some t → t_state t = Dead;
  pl_current : k_current k' = k_current k;
  pl_next : k_next_id k' = k_next_id k;
  pl_init : k_init k' = k_init k }.

Lemma placed_view n c k k' t :
  placed n c k k' → cpu_ok k → runs k t → t_id c ∉ ids k → t_state c ≠ Running →
  0 ≤ t_id c < k_next_id k →
  cpu_ok k' ∧ init_task_id k' = init_task_id k ∧ runs k' t ∧
  find_task (t_id c) k' = Some c ∧
  ∀ x, x ≠ t_id c → find_task x k' = find_task x k ∨
    (find_task x k' = None ∧ ∃ t, find_task x k = Some t ∧ t_state t = Dead).
Proof.
  intros [Ht Hfree Hcur Hn Hi] [Hnd Hfr Hlt Hrun] [Hct Hcr] Hnew Hst Hid.
  assert (k_current k ≠ n) as Hne by (intros <-; apply Hfree in Hct; congruence).
  assert (∀ i j u v, k_tasks k' !! i = Some u → k_tasks k' !! j = Some v → t_id u = t_id v → i = j)
    as Hinj.
  { assert (∀ i u, k_tasks k !! i = Some u → t_id u ≠ t_id c) as Hc.
    { intros i u Hu He. apply Hnew. rewrite <-He. apply list_elem_of_fmap. exists u.
      split; [done|]. by eapply list_elem_of_lookup_2. }
    intros i j u v. rewrite !Ht.
    destruct (decide (i = n)), (decide (j = n)); intros Hu Hv He; try congruence.
    - exfalso. apply (Hc j v Hv). congruence.
    - exfalso. apply (Hc i u Hu). congruence.
    - by apply (same_id k i j u v). }
  assert (NoDup (ids k')) as Hnd'.
  { apply NoDup_alt. intros i j x. unfold ids. rewrite !list_lookup_fmap.
    intros (u&Hu&->)%fmap_Some (v&Hv&He)%fmap_Some. symmetry in He. by eapply Hinj. }
  assert (k_tasks k' !! k_current k' = Some t) as Hct'.
  { by rewrite Hcur, Ht, decide_False. }
  split_and!.
  - split; [done| | |].
    + apply Forall_forall. intros x Hx. apply list_elem_of_fmap in Hx as (u&->&Hu).
      rewrite Hn. apply list_elem_of_lookup_1 in Hu as [i Hu]. rewrite Ht in Hu.
      case_decide; simplify_eq; [done|]. rewrite Forall_forall in Hfr. apply Hfr.
      apply list_elem_of_fmap. exists u. split; [done|]. by eapply list_elem_of_lookup_2.
    + by eapply lookup_lt_Some.
    + intros i u. rewrite Ht, Hcur. case_decide; intros Hu Hs; [congruence|by eapply Hrun].
  - unfold init_task_id. by rewrite Hi.
  - by split.
  - apply find_task_iff; [done|]. exists n. by rewrite Ht, decide_True.
  - intros x Hx. destruct (find_task x k) as [u|] eqn:Hu.
    + apply find_task_iff in Hu as (i&Hi'&<-); [|done]. destruct (decide (i = n)) as [->|Hin].
      * right. split; [|exists u; split; [done|by eapply Hfree]].
        destruct (find_task (t_id u) k') as [v|] eqn:Hv; [|done].
        apply find_task_iff in Hv as (j&Hj&He); [|done]. rewrite Ht in Hj.
        case_decide as Hjn; [simplify_eq; done|]. exfalso. apply Hjn.
        by apply (same_id k j n v u).
      * left. apply find_task_iff; [done|]. exists i. by rewrite Ht, decide_False.
    + left. destruct (find_task x k') as [v|] eqn:Hv; [|done].
      apply find_task_iff in Hv as (j&Hj&He); [|done]. rewrite Ht in Hj.
      case_decide; [congruence|]. rewrite <-He, (find_task_lookup k j v Hnd Hj) in Hu. done.
Qed.

Lemma guarded_stack_drop_same base k r k' :
  guarded_stack_drop base k = (r, k') →
  k_tasks k' = k_tasks k ∧ k_current k' = k_current k ∧ k_next_id k' = k_next_id k ∧
  k_init k' = k_init k.
Proof.
  unfold guarded_stack_drop. revert k. induction (seqZ 0 33) as [|z l IH]; intros k; simpl.
  { intros [= _ <-]. done. }
  unfold sbind. case_bool_decide.
  - intros (->&->&->&->)%IH. done.
  - intros [= _ <-]. done.
Qed.

Lemma add_task_placed c k i k' :
  add_task c k = (Ok i, k') → placed i c k k'.
Proof.
  unfold add_task. case_match eqn:Hpos.
  - destruct (k_tasks k !! n) as [old|] eqn:Hold; [|done].
    apply position_Some in Hpos as [(x&Hx&Hb%bool_decide_eq_true_1) _].
    assert (x = old) as -> by congruence.
    intros (?&k1&Hd&Hrest)%sbind_Ok_inv.
    apply guarded_stack_drop_same in Hd as (Ht&Hc&Hn&Hi).
    injection Hrest as <- <-. split; simpl; try done; [|congruence].
    intros j. rewrite Ht. case_decide; [subst; by rewrite list_lookup_alter_eq, Hold|].
    by rewrite list_lookup_alter_ne.
  - intros [= <- <-]. split; simpl; try done.
    + intros j. case_decide; [subst; by rewrite list_lookup_middle|].
      destruct (decide (j < length (k_tasks k))%nat); [by rewrite lookup_app_l|].
      rewrite !lookup_ge_None_2; [done|lia|rewrite length_app; simpl; lia].
    + intros t Ht. rewrite lookup_ge_None_2 in Ht; done.
Qed.

(** The table after [fork] or [spawn]: the task [c] is new, and its parent, if it
    has one, lists it. *)
Lemma tree_ok_new F F' init n c t :
  (∀ p, t_parent c = Some p → F p = Some t ∧ t_state t ≠ Dead ∧ p ≠ t_id c) →
  F (t_id c) = None → t_children c = [] → signals_ok (t_signals c) →
  t_state c = Runnable → (∀ r, init = Some r → r < n) → n ≤ t_id c →
  parents_below F init n →
  F' (t_id c) = Some c →
  (∀ x, x ≠ t_id c → t_parent c = Some x →
     F' x = with_children (λ l, l ++ [t_id c]) <$> F x) →
  (∀ x, x ≠ t_id c → t_parent c ≠ Some x →
     F' x = F x ∨ F' x = None ∧ ∃ u, F x = Some u ∧ t_state u = Dead) →
  tree_ok F init → tree_ok F' init.
Proof.
  intros Hpar Hnew Hch Hsg Hst Hinit Hn [Hb _] Hc Hp Ho [C P Wt Sg].
  set (add := with_children (λ l, l ++ [t_id c])).
  assert (∀ x u, F' x = Some u → x ≠ t_id c → ∃ v, F x = Some v ∧
    (t_parent c = Some x ∧ u = add v ∨ t_parent c ≠ Some x ∧ u = v)) as Hback.
  { intros x u Hx Hxc. destruct (decide (t_parent c = Some x)) as [He|He].
    - rewrite Hp in Hx by done. apply fmap_Some in Hx as (v&Hv&->). exists v. auto.
    - destruct (Ho x Hxc He) as [Hs|[Hs _]]; [|congruence]. exists u. split; [congruence|auto]. }
  assert (∀ v, t_parent (add v) = t_parent v ∧ t_state (add v) = t_state v ∧
    t_wait_blocked (add v) = t_wait_blocked v ∧ t_children (add v) = t_children v ++ [t_id c] ∧
    t_signals (add v) = t_signals v) as Hadd by (by intros []).
  assert (∀ x v, F x = Some v → t_state v ≠ Dead → ∃ u, F' x = Some u ∧ t_state u ≠ Dead ∧
    t_parent u = t_parent v) as Hforth.
  { intros x v Hv Hd. assert (x ≠ t_id c) as Hx by (intros ->; congruence).
    destruct (decide (t_parent c = Some x)) as [He|He].
    - exists (add v). rewrite Hp, Hv by done. destruct (Hadd v) as (->&->&_). done.
    - destruct (Ho x Hx He) as [->|[_ (w&?&?)]]; [|congruence]. by exists v. }
  split.
  - intros p u d Hu Hd Hin. destruct (decide (p = t_id c)) as [->|Hne].
    { rewrite Hc in Hu. simplify_eq. rewrite Hch in Hin. by apply not_elem_of_nil in Hin. }
    destruct (Hback p u Hu Hne) as (v&Hv&Hor).
    assert (t_state v ≠ Dead) as Hvd.
    { destruct Hor as [[_ ->]|[_ ->]]; [|done]. destruct (Hadd v) as (_&He&_). congruence. }
    destruct (decide (d = t_id c)) as [->|Hdc].
    + exists c. split_and!; [done|congruence|]. destruct Hor as [[He _]|[_ ->]]; [done|].
      destruct (C p v (t_id c) Hv Hvd Hin) as (w&Hw&_). congruence.
    + assert (d ∈ t_children v) as Hdv.
      { destruct Hor as [[_ ->]|[_ ->]]; [|done]. destruct (Hadd v) as (_&_&_&He&_).
        rewrite He in Hin. apply elem_of_app in Hin as [?|Hin]; [done|].
        by apply list_elem_of_singleton in Hin. }
      destruct (C p v d Hv Hvd Hdv) as (w&Hw&Hwd&Hwp).
      destruct (Hforth d w Hw Hwd) as (u'&?&?&?). exists u'. split_and!; congruence.
  - intros p u d w Hu Hw Hd Hdw Hwp.
    assert (p ≠ t_id c) as Hpc.
    { intros ->. destruct (decide (d = t_id c)) as [->|Hdc].
      - assert (w = c) as -> by congruence. by destruct (Hpar _ Hwp) as (_&_&?).
      - destruct (Hback d w Hw Hdc) as (v&Hv&Hor). assert (t_parent v = Some (t_id c)) as Hvp.
        { destruct Hor as [[_ ->]|[_ ->]]; [|done]. by destruct (Hadd v) as (<-&_). }
        specialize (Hb d v _ Hv Hvp). lia. }
    destruct (Hback p u Hu Hpc) as (v&Hv&Hor).
    destruct (decide (d = t_id c)) as [->|Hdc].
    { assert (w = c) as -> by congruence. destruct Hor as [[_ ->]|[? _]]; [|done].
      destruct (Hadd v) as (_&_&_&->&_). apply elem_of_app. right. by left. }
    destruct (Hback d w Hw Hdc) as (w'&Hw'&Hor').
    assert (d ∈ t_children v) as Hdv.
    { apply (P p v d w' Hv Hw').
      - destruct Hor as [[_ ->]|[_ ->]]; [|done]. destruct (Hadd v) as (_&He&_). congruence.
      - destruct Hor' as [[_ ->]|[_ ->]]; [|done]. destruct (Hadd w') as (_&He&_). congruence.
      - destruct Hor' as [[_ ->]|[_ ->]]; [|done]. destruct (Hadd w') as (He&_). congruence. }
    destruct Hor as [[_ ->]|[_ ->]]; [|done]. destruct (Hadd v) as (_&_&_&->&_).
    apply elem_of_app. by left.
  - intros p u d w Hu Hw Hbl Hwb Hi Hz Hwp.
    assert (p ≠ t_id c) as Hpc by (intros ->; rewrite Hc in Hu; congruence).
    assert (d ≠ t_id c) as Hdc by (intros ->; rewrite Hc in Hw; congruence).
    destruct (Hback p u Hu Hpc) as (v&Hv&Hor). destruct (Hback d w Hw Hdc) as (w'&Hw'&Hor').
    destruct (Hadd v) as (_&Hs1&Hs2&_). destruct (Hadd w') as (Hs3&Hs4&_).
    apply (Wt p v d w' Hv Hw'); try done;
      destruct Hor as [[_ ->]|[_ ->]], Hor' as [[_ ->]|[_ ->]]; congruence.
  - intros p u Hu. destruct (decide (p = t_id c)) as [->|Hne]; [rewrite Hc in Hu; by simplify_eq|].
    destruct (Hback p u Hu Hne) as (v&Hv&Hor). apply Sg in Hv.
    destruct Hor as [[_ ->]|[_ ->]]; [|done]. by destruct (Hadd v) as (_&_&_&_&->).
Qed.
End steps.
