(* ===== verification/TaskRun.v ===== *)
(** * Runs of the task table

    [kstep] is one call of the current task, a timer tick, or a change in the
    rest of the kernel; every step keeps [kernel_ok].  The theorems about
    processes and signals follow. *)
From S2P Require Import Prelude Signal Task TaskSpec TaskTree TaskSteps.

Section runs.
Context {W : Type} `{TaskEnv W}.
Implicit Types k : kernel W.
Implicit Types t u c : task.

(** The table is untouched. *)
Record same_table k k' : Prop := {
  st_tasks : k_tasks k' = k_tasks k;
  st_current : k_current k' = k_current k;
  st_init : k_init k' = k_init k;
  st_next : k_next_id k' = k_next_id k }.

Lemma same_table_refl k : same_table k k.
Proof. by split. Qed.
Lemma same_table_trans k1 k2 k3 : same_table k1 k2 → same_table k2 k3 → same_table k1 k3.
Proof. intros [] []. split; congruence. Qed.

Lemma same_table_find k k' x : same_table k k' → find_task x k' = find_task x k.
Proof. intros [Ht _ _ _]. unfold find_task, index_of. by rewrite Ht. Qed.

Lemma same_table_runs k k' t : same_table k k' → runs k' t ↔ runs k t.
Proof. intros [Ht Hc _ _]. unfold runs. by rewrite Ht, Hc. Qed.

Lemma same_table_ok k k' : same_table k k' → kernel_ok k → kernel_ok k'.
Proof.
  intros Hs [Hc Ht Hb]. pose proof Hs as [Hts Hcu Hi Hn].
  apply (kernel_ok_eased k); [| |unfold init_task_id; by rewrite Hi|done|done].
  - destruct Hc as [C1 C2 C3 C4]. split; unfold ids in *; rewrite ?Hts, ?Hcu, ?Hn; done.
  - intros x. rewrite (same_table_find k k' x Hs). destruct (find_task x k) eqn:Hx; constructor.
    by eapply eased_refl, (tr_signals _ _ Ht).
Qed.

Lemma guarded_stack_new_same base k r k' : guarded_stack_new base k = (r, k') → same_table k k'.
Proof.
  unfold guarded_stack_new. destruct (take_frames 33 (k_env k)); [case_bool_decide|];
    intros [= _ <-]; by split.
Qed.

Lemma alloc_stack_same k r k' : alloc_stack k = (r, k') → same_table k k'.
Proof.
  unfold alloc_stack, sbind. cbv zeta. set (k0 := set_stacks _ _ k).
  assert (same_table k k0) as H0 by by split.
  destruct (guarded_stack_new (k_next_stack k) k0) as [o k1] eqn:Hn.
  apply guarded_stack_new_same in Hn. pose proof (same_table_trans _ _ _ H0 Hn).
  destruct o; intros [= _ <-]; done.
Qed.

Lemma run_env_same {A} (f : cpu → W → outcome bytes A * W) k r k' :
  run_env f k = (r, k') → same_table k k'.
Proof. intros [= _ <-]. by split. Qed.

(** A fresh id. *)
Lemma kernel_ok_fresh k :
  kernel_ok k → 0 ≤ k_next_id k < 2 ^ 64 - 1 →
  kernel_ok (set_next_id (wrap64 (k_next_id k + 1)) k).
Proof.
  intros [[C1 C2 C3 C4] Ht [Hb Hbi]] Hn. rewrite wrap_small by lia. split; [split| |].
  - done.
  - eapply Forall_impl; [exact C2|]. simpl. lia.
  - done.
  - done.
  - done.
  - split; simpl.
    + intros x t p Hx Hp. specialize (Hb x t p Hx Hp). lia.
    + intros r Hr. specialize (Hbi r Hr). lia.
Qed.

(** ** [fork] and [spawn] *)

Definition linked (c : task) k : kernel W :=
  match t_parent c with
  | Some p => upd_id p (with_children (λ l, l ++ [t_id c])) k
  | None => k
  end.

Lemma linked_find c k x :
  NoDup (ids k) → find_task x (linked c k) =
    if decide (t_parent c = Some x) then with_children (λ l, l ++ [t_id c]) <$> find_task x k
    else find_task x k.
Proof.
  intros Hnd. unfold linked. destruct (t_parent c) as [p|]; [|by rewrite decide_False].
  rewrite find_task_upd_id by (done || apply keeps_with_children).
  repeat case_decide; congruence || done.
Qed.

Lemma linked_fields c k :
  init_task_id (linked c k) = init_task_id k ∧ k_next_id (linked c k) = k_next_id k.
Proof. unfold linked. case_match; [|done]. by rewrite init_upd_id, next_id_upd_id. Qed.

Lemma cpu_ok_linked c k : cpu_ok k → cpu_ok (linked c k).
Proof.
  intros. unfold linked. case_match; [|done].
  apply cpu_ok_upd_id; [apply keeps_with_children|by intros []|done].
Qed.

(** The new task [c], with the id handed out last, is added to [k] and linked to
    its parent. *)
Lemma kernel_ok_new k c i k1 t :
  kernel_ok k → runs k t → placed i c k k1 → t_id c ∉ ids k → 0 ≤ t_id c < k_next_id k →
  parents_below (table_of k) (init_task_id k) (t_id c) →
  t_state c = Runnable → t_children c = [] → signals_ok (t_signals c) →
  (∀ p, t_parent c = Some p → p = t_id t) →
  kernel_ok (linked c k1).
Proof.
  intros Hok Hr Hpl Hnew Hid Hbelow Hs Hch Hsg Hp. pose proof Hok as [Hc Ht [Hb Hbi]].
  destruct (placed_view i c k k1 t Hpl Hc Hr Hnew) as (Hc1&Hi1&Hr1&Hf1&Hv); [congruence|done|].
  assert (find_task (t_id c) k = None) as Hnone.
  { destruct (find_task (t_id c) k) as [u|] eqn:Hu; [|done]. exfalso. apply Hnew.
    apply find_task_Some in Hu as (j&_&Hj&<-). apply list_elem_of_fmap. exists u.
    split; [done|]. by eapply list_elem_of_lookup_2. }
  pose proof (runs_find k t Hok Hr) as Hft.
  assert (t_id t ≠ t_id c) as Htc by (intros He; congruence).
  assert (∀ x, x ≠ t_id c → t_parent c = Some x → find_task x k1 = find_task x k) as Hpar.
  { intros x Hx ->%Hp. destruct (Hv (t_id t) Hx) as [->|[_ (u&Hu&Hd)]]; [done|].
    destruct Hr as [_ Hr]. congruence. }
  pose proof (linked_fields c k1) as [Hi2 Hn2].
  pose proof (λ x, linked_find c k1 x (cp_ids k1 Hc1)) as HF.
  split; [by apply cpu_ok_linked| |]; rewrite Hi2, Hi1.
  - apply (tree_ok_new (table_of k) _ _ (t_id c) c t); try done; unfold table_of.
    + intros p ->%Hp. split_and!; [done| |done]. destruct Hr. congruence.
    + apply Hbelow.
    + rewrite HF, decide_False; [done|]. intros He%Hp. congruence.
    + intros x Hx He. rewrite HF, decide_True, Hpar by done. done.
    + intros x Hx He. rewrite HF, decide_False by done. by apply Hv.
  - rewrite Hn2, (pl_next _ _ _ _ Hpl). split; [|done]. intros x u p Hu Hup. unfold table_of in Hu.
    rewrite HF in Hu. assert (∃ v, find_task x k1 = Some v ∧ t_parent v = Some p) as (v&Hv'&Hvp).
    { case_decide; [|by exists u]. apply fmap_Some in Hu as (v&Hv'&->). exists v. split; [done|].
      by destruct v. }
    destruct (decide (x = t_id c)) as [->|Hne].
    { assert (v = c) as -> by congruence. rewrite (Hp _ Hvp).
      destruct Hc as [_ Hf _ _]. rewrite Forall_forall in Hf. apply Hf, list_elem_of_fmap.
      exists t. split; [done|]. eapply list_elem_of_lookup_2, Hr. }
    destruct (Hv x Hne) as [He|[He _]]; [|congruence]. apply (Hb x v); [|done].
    unfold table_of. congruence.
Qed.

Lemma fresh_not_in k : kernel_ok k → k_next_id k ∉ ids k.
Proof.
  intros [[_ Hf _ _] _ _] Hin. rewrite Forall_forall in Hf. specialize (Hf _ Hin). lia.
Qed.

(** The operations that create tasks, run to their end, are [kernel_ok_new]
    behind a fresh id and changes outside the table. *)
Lemma kernel_ok_created k k1 k2 i c k' t :
  kernel_ok k → runs k t → 0 ≤ k_next_id k < 2 ^ 64 - 1 →
  same_table (set_next_id (wrap64 (k_next_id k + 1)) k) k1 →
  placed i c k1 k2 → t_id c = k_next_id k → t_state c = Runnable → t_children c = [] →
  signals_ok (t_signals c) → (∀ p, t_parent c = Some p → p = t_id t) →
  same_table (linked c k2) k' → kernel_ok k'.
Proof.
  intros Hok Hr Hn Hs1 Hpl Hid Hst Hch Hsg Hp Hs2. pose proof Hok as [_ _ Hb].
  pose proof (same_table_ok _ _ Hs1 (kernel_ok_fresh k Hok Hn)) as Hok1.
  apply (same_table_ok _ _ Hs2). apply (kernel_ok_new k1 c i k2 t); try done.
  - by apply (same_table_runs _ _ _ Hs1).
  - rewrite Hid. destruct Hs1 as [Ht _ _ _]. unfold ids. rewrite Ht. by apply fresh_not_in.
  - destruct Hs1 as [_ _ _ ->]. simpl. rewrite wrap_small by lia. lia.
  - rewrite Hid. destruct Hb as [Hb Hbi]. split.
    + intros x u p. unfold table_of. rewrite (same_table_find _ _ x Hs1). apply (Hb x u).
    + destruct Hs1 as [_ _ Hi _]. unfold init_task_id. rewrite Hi. apply Hbi.
Qed.

Lemma add_task_run {A} c k (f : nat → stm (kernel W) bytes A) r k' :
  sbind (add_task c) f k = (Ok r, k') → ∃ i k1, placed i c k k1 ∧ f i k1 = (Ok r, k').
Proof. intros (i&k1&Ha%add_task_placed&Hf)%sbind_Ok_inv. eauto. Qed.

Lemma kernel_ok_spawn_kernel name entry k t r k' :
  kernel_ok k → runs k t → 0 ≤ k_next_id k < 2 ^ 64 - 1 →
  spawn_kernel_task name entry k = (Ok r, k') → kernel_ok k'.
Proof.
  intros Hok Hr Hn. unfold spawn_kernel_task, task_new.
  intros (c&k1&Hc&(?&k2&H2&(i&k3&Hpl&H3)%add_task_run)%sbind_Ok_inv)%sbind_Ok_inv.
  apply sbind_Ok_inv in Hc as (id&k4&[= <- <-]&(stk&k5&Hst&[= <- <-])%sbind_Ok_inv).
  injection H2 as _ <-. injection H3 as _ <-.
  apply alloc_stack_same in Hst as [].
  refine (kernel_ok_created k _ k3 i _ _ t Hok Hr Hn _ Hpl _ _ _ _ _ _); try by split.
  by intros p [=].
Qed.

Lemma kernel_ok_spawn_user name entry stop k t r k' :
  kernel_ok k → runs k t → 0 ≤ k_next_id k < 2 ^ 64 - 1 →
  spawn_user_from_entry name entry stop k = (Ok r, k') → kernel_ok k'.
Proof.
  intros Hok Hr Hn. unfold spawn_user_from_entry.
  intros (id&k4&[= <- <-]&(stk&k5&Hst&(cr3&k6&H6&(?&k2&H2&
    (i&k3&Hpl&H3)%add_task_run)%sbind_Ok_inv)%sbind_Ok_inv)%sbind_Ok_inv)%sbind_Ok_inv.
  injection H6 as _ <-. injection H2 as _ <-. injection H3 as _ <-.
  apply alloc_stack_same in Hst as [].
  refine (kernel_ok_created k _ k3 i _ _ t Hok Hr Hn _ Hpl _ _ _ _ _ _); try by split.
  by intros p [=].
Qed.

(** A successful [fork]: a child task made from the caller, placed and linked. *)
Lemma fork_run f k t r k' :
  runs k t → t_user_cr3 t ≠ None → do_fork f k = (Ok r, k') →
  r = k_next_id k ∧ ∃ cr3 stk i k1 k2,
    same_table (set_next_id (wrap64 (k_next_id k + 1)) k) k1 ∧
    placed i (child_task t r cr3 stk f) k1 k2 ∧ k' = linked (child_task t r cr3 stk f) k2.
Proof.
  intros [Ht Hrun] Hc. unfold do_fork, with_cur. rewrite Ht.
  destruct (t_user_cr3 t) as [cr3|]; [|done].
  intros (ccr3&k0&H0&(id&k4&H4&(stk&k5&Hst&(?&k2&H2&
    (i&k3&Hpl&(?&k6&H6&H3)%sbind_Ok_inv)%add_task_run)%sbind_Ok_inv)%sbind_Ok_inv)%sbind_Ok_inv)%sbind_Ok_inv.
  destruct (run_env_same _ _ _ _ H0) as [T0 C0 I0 N0]. injection H4 as <- <-. injection H2 as _ <-.
  injection H6 as _ <-. injection H3 as <- <-. apply alloc_stack_same in Hst as [T1 C1 I1 N1].
  split; [done|]. exists ccr3, stk, i, (map_env (clone_fds (wrap32 (t_id t)) (wrap32 (k_next_id k0))) k5), k3.
  rewrite N0 in Hpl |- *. split_and!; [|done|done].
  split; simpl in *; congruence.
Qed.

Lemma kernel_ok_fork f k t r k' :
  kernel_ok k → runs k t → 0 ≤ k_next_id k < 2 ^ 64 - 1 →
  do_fork f k = (Ok r, k') → kernel_ok k'.
Proof.
  intros Hok Hr Hn Hf. destruct (t_user_cr3 t) eqn:Hc.
  - destruct (fork_run f k t r k' Hr) as (->&cr3&stk&i&k1&k2&Hs&Hpl&->); [congruence|done|].
    refine (kernel_ok_created k k1 k2 i _ _ t Hok Hr Hn Hs Hpl _ _ _ _ _ (same_table_refl _));
      try done; [|by intros p [= <-]].
    destruct (tr_signals _ _ (ko_tree k Hok) (t_id t) t) as []; [by apply runs_find|by split].
  - destruct Hr as [Ht _]. unfold do_fork, with_cur in Hf. rewrite Ht, Hc in Hf.
    by injection Hf as _ <-.
Qed.

(** ** Termination, signals, [exec], the reaper *)

Lemma kernel_ok_exit status k t : kernel_ok k → runs k t → kernel_ok (do_exit status k).
Proof.
  intros Hok [Ht Hs]. rewrite (do_exit_end status k t Ht).
  apply kernel_ok_schedule, kernel_ok_end_task; [done..|congruence].
Qed.

(** [terminate_task] on another task is [end_task]. *)
Lemma terminate_other id status k t :
  runs k t → id ≠ t_id t →
  terminate_task id status k =
    match index_of id k with
    | Some i =>
        match k_tasks k !! i with
        | Some u =>
            if bool_decide (t_state u = Zombie ∨ t_state u = Dead) then (Some false, k)
            else (Some true, end_task i status (cleanup_fds (wrap32 id)) u k)
        | None => (Some false, k)
        end
    | None => (Some false, k)
    end.
Proof.
  intros [Ht _] Hne. unfold terminate_task. rewrite Ht, bool_decide_eq_false_2; [done|].
  intros [= He]. congruence.
Qed.

Lemma kernel_ok_terminate id status k t r k' :
  kernel_ok k → runs k t → terminate_task id status k = (r, k') → kernel_ok k'.
Proof.
  intros Hok Hr. destruct (decide (id = t_id t)) as [->|Hne].
  - unfold terminate_task. destruct Hr as [Ht Hs]. rewrite Ht, bool_decide_eq_true_2 by done.
    intros [= _ <-]. by apply (kernel_ok_exit status k t).
  - rewrite (terminate_other id status k t) by done. repeat case_match; try by intros [= _ <-].
    intros [= _ <-]. case_bool_decide as Hb; [done|]. apply kernel_ok_end_task; [done..|tauto].
Qed.

Lemma eased_signals g t :
  signals_ok (t_signals t) → (signals_ok (t_signals t) → signals_ok (g (t_signals t))) →
  eased t (with_signals g t).
Proof. intros Hs Hg. destruct t. split_and!; simpl in *; auto. Qed.

Lemma eased_woken t : signals_ok (t_signals t) → eased t (woken t).
Proof.
  intros Hs. unfold woken. case_bool_decide; [|by apply eased_refl]. destruct t; simpl in *.
  split_and!; simpl; auto. right. split; [by right|]. left. by right.
Qed.

Lemma woken_not_running t : t_state (woken t) = Running → t_state t = Running.
Proof. unfold woken. case_bool_decide; [by rewrite with_state_state|done]. Qed.

Lemma eased_trans t1 t2 t3 : eased t1 t2 → eased t2 t3 → eased t1 t3.
Proof. unfold eased, awake. intuition congruence. Qed.

Lemma keeps_woken : keeps_id woken.
Proof. intros t. unfold woken. case_bool_decide; [apply keeps_with_state|done]. Qed.

Lemma keeps_signalled sig : keeps_id (signalled sig).
Proof. intros t. unfold signalled. rewrite keeps_woken. apply keeps_with_signals. Qed.

Lemma kernel_ok_unblock id k : kernel_ok k → kernel_ok (unblock id k).
Proof.
  apply kernel_ok_upd_id; [apply keeps_woken|]. intros t _ Hs.
  split; [by apply eased_woken|apply woken_not_running].
Qed.

Lemma kernel_ok_kill pid sig k t r k' :
  0 ≤ sig → kernel_ok k → runs k t → do_kill pid sig k = (r, k') → kernel_ok k'.
Proof.
  intros Hsig Hok Hr. unfold do_kill. cbv zeta. repeat case_match; try by intros [= _ <-].
  1,2: destruct (terminate_task pid (128 + sig) k) as [o k1] eqn:Ht; intros [= _ <-];
    by eapply kernel_ok_terminate.
  intros [= _ <-]. apply kernel_ok_upd_id; [apply keeps_signalled| |done]. intros u _ Hs.
  assert (eased u (with_signals (set_pending sig) u)) as He
    by (apply eased_signals; [done|by apply set_pending_ok]).
  split; [|intros Hw%woken_not_running; by destruct u].
  eapply eased_trans; [exact He|]. apply eased_woken. apply He.
Qed.

Lemma install_ok sig handler rest s :
  1 ≤ sig < NSIG → sig ≠ SIGKILL → signals_ok s → signals_ok (install sig handler rest s).
Proof.
  unfold NSIG, SIGKILL. intros Hs Hk [Hl Hm Hh]. split; simpl; [by rewrite length_insert|done|].
  unfold handler_of in *. simpl in *.
  assert (Z.to_nat sig ≠ 9%nat) as Hne by lia. revert Hh.
  generalize dependent (Z.to_nat sig). intros n Hne. unfold SIGKILL.
  change (Z.to_nat 9) with 9%nat. rewrite !nth_lookup. by rewrite list_lookup_insert_ne.
Qed.

Lemma kernel_ok_signal sig handler rest k t r k' :
  0 ≤ sig → kernel_ok k → runs k t → do_signal sig handler rest k = (r, k') → kernel_ok k'.
Proof.
  intros Hsig Hok Hr. unfold do_signal. repeat case_match; try by intros [= _ <-].
  intros [= _ <-]. apply (kernel_ok_upd_cur _ k t); [done..|apply keeps_with_signals|].
  intros Hs. apply eased_signals; [done|]. apply install_ok; lia.
Qed.

Lemma kernel_ok_deliver f ret k t r k' :
  kernel_ok k → runs k t → deliver_pending_signals f ret k = (r, k') → kernel_ok k'.
Proof.
  intros Hok Hr. unfold deliver_pending_signals. cbv zeta. unfold sbind, poked, smodify, sret.
  destruct Hr as [Ht Hr]. rewrite Ht.
  destruct (bool_decide _); [by intros [= _ <-]|].
  destruct (next_deliverable _) as [[sig h]|]; [|by intros [= _ <-]].
  destruct (_ =? 0); [by intros [= _ <-]|]. destruct (poke64 _ _ _ _) as [w|]; [|by intros [= _ <-]].
  intros [= _ <-].
  eapply (kernel_ok_upd_cur _ (set_env w k) t);
    [by apply (kernel_ok_map_env (λ _, w) k)|by split|apply keeps_with_signals|].
  intros Hs. apply eased_signals; [done|]. intros. by apply clear_pending_ok, set_saved_ok.
Qed.

Lemma kernel_ok_sigreturn f k t r k' :
  kernel_ok k → runs k t → do_sigreturn f k = (r, k') → kernel_ok k'.
Proof.
  intros Hok Hr. unfold do_sigreturn. repeat case_match; try by intros [= _ <-].
  intros [= _ <-]. apply (kernel_ok_upd_cur _ k t); [done..|apply keeps_with_signals|].
  intros Hs. apply eased_signals; [done|]. apply set_saved_ok.
Qed.

Lemma kernel_ok_exec f path args envs k t r k' :
  kernel_ok k → runs k t → do_exec f path args envs k = (r, k') → kernel_ok k'.
Proof.
  intros Hok Hr. unfold do_exec. cbv zeta.
  generalize (match args with [] => [path] | _ => args end). clear args. intros args.
  destruct (run_env _ k) as [r0 k1] eqn:Hrun. pose proof (run_env_same _ _ _ _ Hrun) as H1. cbn [fst snd].
  pose proof (same_table_ok _ _ H1 Hok) as Hok1.
  repeat case_match; intros [= _ <-]; try done.
  set (k2 := upd_cur _ k1). apply (same_table_ok k2); [by split|].
  apply (kernel_ok_upd_cur _ k1 t); [done|by apply (same_table_runs k)|by intros []|].
  intros Hs. destruct t. split_and!; simpl in *; auto. by apply reset_for_exec_ok.
Qed.

(** The children a reaper finds are its own. *)
Lemma orphans_children k t (c : Z) :
  kernel_ok k → runs k t → c ∈ orphans (t_id t) k →
  c ≠ t_id t ∧ ∃ u, find_task c k = Some u ∧ t_parent u = Some (t_id t).
Proof.
  intros Hok Hr. pose proof (runs_find k t Hok Hr) as Hf. destruct Hr as [_ Hrun].
  unfold orphans. rewrite Hf. simpl. intros [Hz Hin]%list_elem_of_filter.
  destruct (tr_child _ _ (ko_tree k Hok) (t_id t) t c Hf) as (u&Hu&_&Hp); [congruence|done|].
  unfold table_of in Hu. split; [|by exists u]. intros ->.
  apply existsb_exists in Hz as (v&Hv&Hb). apply andb_true_iff in Hb as [He Hz%bool_decide_eq_true_1].
  apply list_elem_of_In, list_elem_of_lookup_1 in Hv as [j Hj].
  pose proof (find_task_lookup k j v (kernel_ok_ids k Hok) Hj) as Hfv.
  replace (t_id v) with (t_id t) in Hfv by lia. congruence.
Qed.

Lemma kernel_ok_reap_all (l : list Z) par k :
  kernel_ok k → (∃ t, find_task par k = Some t ∧ t_state t = Running) →
  (∀ c : Z, c ∈ l → c ≠ par ∧ ∃ u, find_task c k = Some u ∧ t_parent u = Some par) →
  kernel_ok (foldl (λ k (c : Z), reap_one par c k) k l).
Proof.
  revert k. induction l as [|c l IH]; intros k Hok (t&Ht&Hrun) Hl; [done|].
  destruct (Hl c) as (Hcp&u&Hu&Hup); [by left|].
  assert (∀ x, find_task x (reap_one par c k) =
    if decide (x = c) then with_state Dead <$> find_task x k
    else if decide (x = par) then forget_child c <$> find_task x k else find_task x k) as HF.
  { intros x. apply (find_reaped_ne par c k x); [by apply kernel_ok_ids|done]. }
  apply IH.
  - apply kernel_ok_map_env, (kernel_ok_reap k par c t u); try done; congruence.
  - exists (forget_child c t). rewrite HF, decide_False, decide_True, Ht by done.
    split; [done|by destruct t].
  - intros d Hd. destruct (Hl d) as (Hdp&v&Hv&Hvp); [by right|]. split; [done|].
    rewrite HF, (decide_False (P:=d = par)), Hv by done.
    case_decide; (eexists; split; [done|]); [by destruct v|done].
Qed.

Lemma kernel_ok_reap_orphans k t :
  kernel_ok k → runs k t → init_task_id k = Some (t_id t) → kernel_ok (reap_orphans k).
Proof.
  intros Hok Hr Hi. unfold reap_orphans. rewrite Hi. apply kernel_ok_reap_all; [done| |].
  - exists t. split; [by apply runs_find|apply Hr].
  - intros c. by apply orphans_children.
Qed.

Lemma kernel_ok_block k t :
  kernel_ok k → runs k t → t_wait_blocked t = false → kernel_ok (block_current_and_schedule k).
Proof.
  intros Hok Hr Hw. apply kernel_ok_schedule.
  apply (kernel_ok_upd_cur _ k t); [done..|apply keeps_with_state|].
  intros Hs. destruct Hr as [_ Hr], t. split_and!; simpl in *; subst; auto.
  right. split; [left; by left|]. by right.
Qed.

Lemma kernel_ok_wait_resume ptr k t r k' :
  kernel_ok k → runs k t → wait_resume ptr k = (r, k') → kernel_ok k'.
Proof.
  intros Hok Hr. apply (kernel_ok_wait_round ptr _ (with_wait_blocked false t)).
  - apply (kernel_ok_upd_cur _ k t); [done..|apply keeps_with_wait_blocked|].
    intros Hs. destruct Hr as [_ Hr], t. split_and!; simpl in *; subst; auto.
    right. split; [left; by left|]. left. by left.
  - destruct Hr as [Ht Hr]. split; [|by destruct t]. unfold upd_cur, upd. simpl.
    by rewrite list_lookup_alter_eq, Ht.
Qed.

Lemma kernel_ok_set_init k id :
  kernel_ok k → init_task_id k = None → id < k_next_id k → id ≠ u64_max →
  kernel_ok (set_init_task id k).
Proof.
  intros [Hc [C P Wt Sg] [Hb _]] Hi Hn Hm.
  assert (init_task_id (set_init_task id k) = Some id) as Hs.
  { unfold init_task_id. simpl. case_match; [lia|done]. }
  split; [by destruct Hc| |]; rewrite Hs; split; try done.
  - intros p t c u Ht Hu Hbl Hw _. apply (Wt p t c u); try done. by rewrite Hi.
  - by intros r [= <-].
Qed.

(** ** Steps *)

(** One call of the current task - which is not in the middle of [wait] unless
    it resumes it -, a timer tick, or a change elsewhere in the kernel. *)
Inductive kstep : kernel W → kernel W → Prop :=
| ks_tick k t : runs k t → t_wait_blocked t = false → kstep k (on_timer_tick k)
| ks_yield k t : runs k t → t_wait_blocked t = false → kstep k (yield_now k)
| ks_block k t :
    runs k t → t_wait_blocked t = false → kstep k (block_current_and_schedule k)
| ks_unblock k id : kstep k (unblock id k)
| ks_spawn_kernel k t name entry id k' :
    runs k t → 0 ≤ k_next_id k < 2 ^ 64 - 1 →
    spawn_kernel_task name entry k = (Ok id, k') → kstep k k'
| ks_spawn_user k t name entry top id k' :
    runs k t → 0 ≤ k_next_id k < 2 ^ 64 - 1 →
    spawn_user_from_entry name entry top k = (Ok id, k') → kstep k k'
| ks_fork k t f id k' :
    runs k t → t_wait_blocked t = false → 0 ≤ k_next_id k < 2 ^ 64 - 1 →
    do_fork f k = (Ok id, k') → kstep k k'
| ks_exit k t status : runs k t → t_wait_blocked t = false → kstep k (do_exit status k)
| ks_wait k t ptr r k' :
    runs k t → t_wait_blocked t = false → wait_round ptr k = (r, k') → kstep k k'
| ks_wait_resume k t ptr r k' :
    runs k t → t_wait_blocked t = true → wait_resume ptr k = (r, k') → kstep k k'
| ks_exec k t f path args envs r k' :
    runs k t → t_wait_blocked t = false → do_exec f path args envs k = (r, k') → kstep k k'
| ks_kill k t pid sig r k' :
    runs k t → t_wait_blocked t = false → 0 ≤ sig → do_kill pid sig k = (r, k') → kstep k k'
| ks_signal k t sig handler rest r k' :
    runs k t → t_wait_blocked t = false → 0 ≤ sig →
    do_signal sig handler rest k = (r, k') → kstep k k'
| ks_deliver k t f ret f' k' :
    runs k t → t_wait_blocked t = false →
    deliver_pending_signals f ret k = (f', k') → kstep k k'
| ks_sigreturn k t f r k' :
    runs k t → t_wait_blocked t = false → do_sigreturn f k = (r, k') → kstep k k'
| ks_reap k t : runs k t → init_task_id k = Some (t_id t) → kstep k (reap_orphans k)
| ks_init k id :
    init_task_id k = None → id < k_next_id k → id ≠ u64_max → kstep k (set_init_task id k)
| ks_env k f : kstep k (map_env f k).

Definition kreach : kernel W → kernel W → Prop := rtc kstep.

Lemma kernel_ok_step k k' : kernel_ok k → kstep k k' → kernel_ok k'.
Proof.
  intros Hok Hs. destruct Hs as
    [k t _ _|k t _ _|k t Hr Hw|k id|k t nm e id k' Hr Hn Hc|k t nm e top id k' Hr Hn Hc
    |k t f id k' Hr _ Hn Hc|k t st Hr _|k t ptr r k' Hr _ Hc|k t ptr r k' Hr _ Hc
    |k t f path args envs r k' Hr _ Hc|k t pid sig r k' Hr _ Hs Hc|k t sig h rest r k' Hr _ Hs Hc
    |k t f ret f' k' Hr _ Hc|k t f r k' Hr _ Hc|k t Hr Hi|k id Hi Hn Hm|k f].
  - apply kernel_ok_schedule. eapply same_table_ok; [|exact Hok]. by split.
  - by apply kernel_ok_schedule.
  - exact (kernel_ok_block k t Hok Hr Hw).
  - exact (kernel_ok_unblock id k Hok).
  - exact (kernel_ok_spawn_kernel nm e k t id k' Hok Hr Hn Hc).
  - exact (kernel_ok_spawn_user nm e top k t id k' Hok Hr Hn Hc).
  - exact (kernel_ok_fork f k t id k' Hok Hr Hn Hc).
  - exact (kernel_ok_exit st k t Hok Hr).
  - exact (kernel_ok_wait_round ptr k t r k' Hok Hr Hc).
  - exact (kernel_ok_wait_resume ptr k t r k' Hok Hr Hc).
  - exact (kernel_ok_exec f path args envs k t r k' Hok Hr Hc).
  - exact (kernel_ok_kill pid sig k t r k' Hs Hok Hr Hc).
  - exact (kernel_ok_signal sig h rest k t r k' Hs Hok Hr Hc).
  - exact (kernel_ok_deliver f ret k t f' k' Hok Hr Hc).
  - exact (kernel_ok_sigreturn f k t r k' Hok Hr Hc).
  - exact (kernel_ok_reap_orphans k t Hok Hr Hi).
  - exact (kernel_ok_set_init k id Hok Hi Hn Hm).
  - by apply kernel_ok_map_env.
Qed.

Lemma kernel_ok_reach k k' : kernel_ok k → kreach k k' → kernel_ok k'.
Proof.
  intros Hok Hr. induction Hr as [|k1 k2 k3 Hs Hr IH]; [done|].
  apply IH, (kernel_ok_step k1 k2 Hok Hs).
Qed.
End runs.
