(* ===== verification/TaskWait.v ===== *)
(** * What the other tasks cannot change

    Whatever they call, a parent that is to collect an ended child stays awake and
    the child stays in its list with its status, until the parent runs; and the
    guard page of a kernel stack stays unmapped, so that the stack of a dead task
    can never be dropped. *)
From S2P Require Import Prelude Signal Task TaskSpec TaskTree TaskSteps TaskRun.

Section wait.
Context {W : Type} `{TaskEnv W}.
Implicit Types k : kernel W.
Implicit Types t u : task.

(** ** What a step leaves alone *)

(** The parent [p], awake, or a child of it that has ended. *)
Definition concerns (p x : Z) t : Prop :=
  x = p ∧ awake (t_state t) ∨ t_state t = Zombie ∧ t_parent t = Some p.
(** The parent stays awake and keeps its children, an ended child stays one. *)
Definition spared t t' : Prop :=
  (awake (t_state t) → awake (t_state t') ∧ t_children t ⊆ t_children t') ∧
  (t_state t = Zombie → t_state t' = Zombie ∧ t_parent t' = t_parent t ∧ t_exit_status t' = t_exit_status t).
Definition spares (p : Z) k k' : Prop :=
  ∀ x t, find_task x k = Some t → concerns p x t → ∃ t', find_task x k' = Some t' ∧ spared t t'.

Lemma spared_refl t : spared t t.
Proof. by split. Qed.

Lemma spared_concerns p x t t' : spared t t' → concerns p x t → concerns p x t'.
Proof.
  intros [Ha Hz] [[-> Hx]|[Hx Hp]]; [left; split; [done|]; by apply Ha|right].
  destruct (Hz Hx) as (?&?&?). split; congruence.
Qed.

Lemma spares_trans p k1 k2 k3 : spares p k1 k2 → spares p k2 k3 → spares p k1 k3.
Proof.
  intros H1 H2 x t Hx Hc. destruct (H1 x t Hx Hc) as (t2&Hx2&S2).
  destruct (H2 x t2 Hx2) as (t3&Hx3&S3); [by eapply spared_concerns|]. exists t3. split; [done|].
  destruct S2 as [A2 Z2], S3 as [A3 Z3]. split.
  - intros Ha. destruct (A2 Ha) as [Ha2 Hs2]. destruct (A3 Ha2) as [Ha3 Hs3]. split; [done|by trans (t_children t2)].
  - intros Hz. destruct (Z2 Hz) as (Hz2&?&?). destruct (Z3 Hz2) as (?&?&?). split_and!; congruence.
Qed.

Lemma spares_find p k k' : (∀ x, find_task x k' = find_task x k) → spares p k k'.
Proof. intros Hf x t Hx _. exists t. rewrite Hf. split; [done|apply spared_refl]. Qed.

Lemma spares_same p k k' : same_table k k' → spares p k k'.
Proof. intros Hs. apply spares_find. intros x. by apply same_table_find. Qed.

(** A change of one task. *)
Lemma spares_upd_id p id f k :
  NoDup (ids k) → keeps_id f →
  (∀ t, find_task id k = Some t → concerns p id t → spared t (f t)) → spares p k (upd_id id f k).
Proof.
  intros Hnd Hk Hf x t Hx Hc. rewrite find_task_upd_id, Hx by done. case_decide as Hd; [subst x|].
  - exists (f t). split; [done|by apply Hf].
  - exists t. split; [done|apply spared_refl].
Qed.

(** The current task is neither the parent nor one of its ended children. *)
Lemma not_concerned p k t : runs k t → t_id t ≠ p → ¬ concerns p (t_id t) t.
Proof. intros [_ Hr] Hne [[? _]|[Hz _]]; congruence. Qed.

Lemma spares_upd_cur p f k t :
  kernel_ok k → runs k t → t_id t ≠ p → keeps_id f → spares p k (upd_cur f k).
Proof.
  intros Hok Hr Hne Hf. pose proof (runs_find k t Hok Hr) as Hft. pose proof (kernel_ok_ids k Hok) as Hnd.
  rewrite (upd_cur_id k t) by (done || apply Hr). apply spares_upd_id; [done..|]. intros u Hu Hc.
  replace u with t in * by congruence. by apply not_concerned with (k := k) in Hc.
Qed.

Lemma spares_marks p k k' : same_but_marks k k' → spares p k k'.
Proof.
  intros Hm x t Hx _. pose proof (same_but_marks_find k k' x Hm) as Hf. rewrite Hx in Hf.
  inversion Hf as [? t' [->|[Ha (s&Hs&->)]] E1 E2|]; subst; eexists; (split; [done|]); [apply spared_refl|].
  destruct t; split; simpl in *; [done|]. intros ->. by destruct Ha.
Qed.

Lemma spares_schedule p k : kernel_ok k → spares p k (schedule k).
Proof. intros Hok. apply spares_marks, schedule_marks, Hok. Qed.

Lemma spared_signalled g t : spared t (woken (with_signals g t)).
Proof.
  destruct t as [? ? ? ? s]. unfold woken. case_bool_decide as Hb; simpl in *; [subst|by split].
  split; simpl; [by intros [|]|done].
Qed.
Lemma spared_woken t : spared t (woken t).
Proof.
  destruct t as [? ? ? ? s]. unfold woken. case_bool_decide as Hb; simpl in *; [subst|by split].
  split; simpl; [by intros [|]|done].
Qed.

(** A new task takes the place of a dead one at most. *)
Lemma spares_placed p i c k k' t :
  placed i c k k' → cpu_ok k → runs k t → t_id c ∉ ids k → t_state c ≠ Running → 0 ≤ t_id c < k_next_id k →
  spares p k k'.
Proof.
  intros Hpl Hok Hr Hnew Hst Hid x u Hx Hc.
  destruct (placed_view i c k k' t Hpl Hok Hr Hnew Hst Hid) as (_&_&_&_&Hv).
  destruct (Hv x) as [Heq|(_&v&Hv'&Hd)].
  - intros ->. apply Hnew. apply find_task_Some in Hx as (j&_&Hj&<-). apply list_elem_of_fmap.
    exists u. split; [done|]. by eapply list_elem_of_lookup_2.
  - exists u. rewrite Heq. split; [done|apply spared_refl].
  - exfalso. destruct Hc as [[_ [?|?]]|[? _]]; congruence.
Qed.

(** A created task: behind a fresh id, placed and linked to the current task. *)
Lemma spares_created p k k1 k2 i c k' t :
  kernel_ok k → runs k t → t_id t ≠ p → 0 ≤ k_next_id k < 2 ^ 64 - 1 →
  same_table (set_next_id (wrap64 (k_next_id k + 1)) k) k1 →
  placed i c k1 k2 → t_id c = k_next_id k → t_state c = Runnable →
  (∀ q, t_parent c = Some q → q = t_id t) → same_table (linked c k2) k' → spares p k k'.
Proof.
  intros Hok Hr Hne Hn Hs1 Hpl Hid Hst Hq Hs2.
  pose proof (same_table_ok _ _ Hs1 (kernel_ok_fresh k Hok Hn)) as Hok1.
  assert (runs k1 t) as Hr1 by by apply (same_table_runs _ _ _ Hs1).
  assert (t_id c ∉ ids k1) as Hnew.
  { rewrite Hid. destruct Hs1 as [Ht _ _ _]. unfold ids. rewrite Ht. exact (fresh_not_in k Hok). }
  assert (0 ≤ t_id c < k_next_id k1) as Hlt.
  { destruct Hs1 as [_ _ _ ->]. simpl. rewrite wrap_small by lia. lia. }
  destruct (placed_view i c k1 k2 t Hpl) as (Hc2&_&Hr2&_&_); [apply Hok1|done|done|congruence|done|].
  apply (spares_trans p k k1); [apply spares_find; intros x; by rewrite (same_table_find _ _ x Hs1)|].
  apply (spares_trans p k1 k2); [apply (spares_placed p i c k1 k2 t); try done; [apply Hok1|congruence]|].
  apply (spares_trans p k2 (linked c k2)); [|by apply spares_same].
  unfold linked. destruct (t_parent c) as [q|] eqn:Hpc; [|by apply spares_find].
  apply spares_upd_id; [apply Hc2|apply keeps_with_children|]. intros u Hu Hcon.
  destruct Hr2 as [Ht2 Hrun2]. rewrite (Hq q eq_refl), (find_task_lookup k2 _ t (cp_ids _ Hc2) Ht2) in Hu.
  injection Hu as <-. rewrite (Hq q eq_refl) in Hcon. by apply not_concerned with (k := k2) in Hcon.
Qed.

(** ** The end of another task, and a child collected by its own parent *)

Lemma exit_view_status_other id st r q L x t : x ≠ id → t_exit_status (exit_view id st r q L x t) = t_exit_status t.
Proof.
  intros Hx. unfold exit_view, adopted, notified. rewrite (decide_False (P:=x = id)) by done. destruct t.
  repeat (case_decide || case_bool_decide); done.
Qed.

Lemma spares_end_task p i status f e k :
  kernel_ok k → k_tasks k !! i = Some e → t_state e ≠ Zombie → t_state e ≠ Dead → t_id e ≠ p →
  spares p k (end_task i status f e k).
Proof.
  intros Hok Hi Hz Hd Hne x t Hx Hc. pose proof (kernel_ok_ids k Hok) as Hnd.
  pose proof (find_task_lookup k i e Hnd Hi) as He.
  rewrite (end_task_view i status f e k x Hnd Hi), Hx. eexists. split; [done|].
  assert (x ≠ t_id e) as Hxe.
  { intros ->. replace t with e in Hc by congruence. destruct Hc as [[? _]|[? _]]; congruence. }
  pose proof (exit_view_state (t_id e) status (init_task_id k) (t_parent e) (t_children e) x t Hxe) as Hst.
  split.
  - intros Ha. rewrite exit_view_children, decide_False by done. split; [|set_solver].
    destruct Hst as [[-> _]|(_&Hb&_)]; [done|]. rewrite Hb in Ha. by destruct Ha.
  - intros Hzt. rewrite exit_view_parent, exit_view_status_other by done. split_and!; [| |done].
    2:{ rewrite decide_False; [done|]. intros Hin.
        destruct (tr_child _ _ (ko_tree k Hok) (t_id e) e x He Hd Hin) as (u&Hu&_&Hp).
        replace u with t in Hp by (unfold table_of in Hu; congruence).
        destruct Hc as [[_ [?|?]]|[_ ?]]; congruence. }
    by destruct Hst as [[-> _]|(_&Hb&_)]; [|congruence].
Qed.
Lemma spares_reap p par cid k t u :
  kernel_ok k → find_task par k = Some t → t_state t = Running → par ≠ p →
  find_task cid k = Some u → ¬ awake (t_state u) → t_parent u = Some par → spares p k (reap_child par cid k).
Proof.
  intros Hok Ht Hrun Hne Hu Hz Hpar x v Hx Hc. pose proof (kernel_ok_ids k Hok) as Hnd.
  assert (par ≠ cid) as Hpc by (intros ->; apply Hz; left; congruence).
  rewrite (find_reaped_ne par cid k x Hnd Hpc). rewrite (decide_False (P:=x = cid)), (decide_False (P:=x = par)).
  - exists v. split; [done|apply spared_refl].
  - intros ->. destruct Hc as [[? _]|[? _]]; congruence.
  - intros ->. replace v with u in Hc by congruence. destruct Hc as [[_ ?]|[_ ?]]; [done|congruence].
Qed.

Lemma spares_wait_round p ptr k t r k' :
  kernel_ok k → runs k t → t_id t ≠ p → wait_round ptr k = (r, k') → spares p k k'.
Proof.
  intros Hok Hr Hne. pose proof (scan_children_spec k t Hr) as Hs. pose proof (runs_find k t Hok Hr) as Hf.
  unfold wait_round. destruct (scan_children k) as [|c st|]; [by intros [= _ <-]; apply spares_find| |intros [= _ <-]].
  - destruct Hs as (u&Hin&Hu&Hz&_). pose proof Hr as [Ht Hrun].
    destruct (tr_child _ _ (ko_tree k Hok) (t_id t) t c Hf) as (v&Hv&_&Hvp); [congruence|done|].
    assert (v = u) as -> by (unfold table_of in Hv; congruence). unfold sbind.
    rewrite (upd_cur_id k t) by (by apply kernel_ok_ids || done). fold (reap_child (t_id t) c k).
    set (k1 := map_env _ _). assert (spares p k k1) as H1.
    { apply (spares_trans p k (reap_child (t_id t) c k)); [|by apply spares_find].
      apply (spares_reap p (t_id t) c k t u); try done. rewrite Hz. by intros [|]. }
    unfold poked. destruct (store_status _ _ _ _) as [e|]; intros [= _ <-]; [|done].
    by apply (spares_trans p k k1); [|apply spares_find].
  - apply (spares_trans p k (upd_cur asleep k)); [by apply (spares_upd_cur p _ k t); [..|apply keeps_asleep]|].
    apply spares_schedule, (kernel_ok_asleep k t); [done..|apply Hs].
Qed.

Lemma spares_reap_all p (l : list Z) par k :
  kernel_ok k → par ≠ p → (∃ t, find_task par k = Some t ∧ t_state t = Running) →
  (∀ c : Z, c ∈ l → ∃ u, find_task c k = Some u ∧ ¬ awake (t_state u) ∧ t_parent u = Some par) →
  spares p k (foldl (λ k (c : Z), reap_one par c k) k l).
Proof.
  revert k. induction l as [|c l IH]; intros k Hok Hne (t&Ht&Hrun) Hl; [by apply spares_find|].
  destruct (Hl c) as (u&Hu&Hz&Hup); [by left|]. pose proof (kernel_ok_ids k Hok) as Hnd.
  assert (c ≠ par) as Hcp by (intros ->; apply Hz; left; congruence).
  assert (∀ x, find_task x (reap_one par c k) =
    if decide (x = c) then with_state Dead <$> find_task x k
    else if decide (x = par) then forget_child c <$> find_task x k else find_task x k) as HF.
  { intros x. by apply (find_reaped_ne par c k x). }
  apply (spares_trans p k (reap_one par c k)).
  { apply (spares_trans p k (reap_child par c k)); [by apply (spares_reap p par c k t u)|by apply spares_find]. }
  apply IH; [|done| |].
  - apply kernel_ok_map_env, (kernel_ok_reap k par c t u); try done; congruence.
  - exists (forget_child c t). rewrite HF, decide_False, decide_True, Ht by done. split; [done|by destruct t].
  - intros d Hd. destruct (Hl d) as (v&Hv&Hvz&Hvp); [by right|].
    assert (d ≠ par) as Hdp by (intros ->; apply Hvz; left; congruence).
    rewrite HF, (decide_False (P:=d = par)), Hv by done. case_decide; (eexists; split; [done|]); [|done].
    split; [rewrite with_state_state; by intros [|]|by destruct v].
Qed.

Lemma spares_reap_orphans p k t :
  kernel_ok k → runs k t → t_id t ≠ p → init_task_id k = Some (t_id t) → spares p k (reap_orphans k).
Proof.
  intros Hok Hr Hne Hi. unfold reap_orphans. rewrite Hi. pose proof (kernel_ok_ids k Hok) as Hnd.
  apply spares_reap_all; [done..|by exists t; split; [apply runs_find|apply Hr]|].
  intros c Hc. destruct (orphans_children k t c Hok Hr Hc) as (_&u&Hu&Hp). exists u. split_and!; try done.
  unfold orphans in Hc. apply list_elem_of_filter in Hc as [Hz _].
  apply existsb_exists in Hz as (v&Hv&Hb). apply andb_true_iff in Hb as [He Hz%bool_decide_eq_true_1].
  apply list_elem_of_In, list_elem_of_lookup_1 in Hv as [j Hj].
  pose proof (find_task_lookup k j v Hnd Hj) as Hfv. replace (t_id v) with c in Hfv by lia.
  replace u with v by congruence. rewrite Hz. by intros [|].
Qed.

Lemma spares_terminate p id status k t r k' :
  kernel_ok k → runs k t → t_id t ≠ p → (∀ u, find_task p k' = Some u → t_state u ≠ Zombie) →
  terminate_task id status k = (r, k') → spares p k k'.
Proof.
  intros Hok Hr Hne Halive. pose proof (kernel_ok_ids k Hok) as Hnd. destruct (decide (id = t_id t)) as [->|Hid].
  - unfold terminate_task. rewrite (proj1 Hr), bool_decide_eq_true_2 by done. intros [= _ <-].
    destruct Hr as [Ht Hrun]. rewrite (do_exit_end status k t Ht) in *.
    apply (spares_trans p k (end_task (k_current k) status
      (λ e, drop_windows (t_id t) (drop_reply_slot (t_id t) (cleanup_fds (wrap32 (t_id t)) e))) t k)).
    + apply spares_end_task; [done..|congruence|congruence|done].
    + apply spares_schedule, kernel_ok_end_task; [done..|congruence].
  - rewrite (terminate_other id status k t) by done. destruct (index_of id k) as [i|] eqn:Hi; [|(intros [= _ <-]; by apply spares_find)].
    apply index_of_Some in Hi as (e&He&<-). rewrite He. case_bool_decide as Hb; intros [= _ <-]; [by apply spares_find|].
    apply spares_end_task; [done..|tauto|tauto|]. intros Hp.
    pose proof (find_task_lookup k i e Hnd He) as Hfe. rewrite Hp in Hfe.
    eapply Halive; [rewrite (end_task_view i _ _ e k p Hnd He), Hfe; done|]. rewrite Hp. apply exit_view_self.
Qed.

Lemma spares_kill p pid sig k t r k' :
  kernel_ok k → runs k t → t_id t ≠ p → (∀ u, find_task p k' = Some u → t_state u ≠ Zombie) →
  do_kill pid sig k = (r, k') → spares p k k'.
Proof.
  intros Hok Hr Hne Halive. unfold do_kill. cbv zeta. repeat case_match; try (intros [= _ <-]; by apply spares_find).
  1,2: destruct (terminate_task pid (128 + sig) k) as [o k1] eqn:Ht; intros [= _ <-];
    by apply (spares_terminate p pid (128 + sig) k t o).
  intros [= _ <-]. apply spares_upd_id; [by apply kernel_ok_ids|apply keeps_signalled|]. intros u _ _. apply spared_signalled.
Qed.

(** ** Any step of another task *)

(** Something happens while [p] does not run, and nobody ends [p]. *)
Definition elsewhere (p : Z) k k' : Prop :=
  kstep k k' ∧ (∀ t, runs k t → t_id t ≠ p) ∧ ∀ t, find_task p k' = Some t → t_state t ≠ Zombie.

Lemma elsewhere_spares p k k' : kernel_ok k → elsewhere p k k' → spares p k k'.
Proof.
  intros Hok (Hs&Hcur&Halive). destruct Hs as
    [k t _ _|k t _ _|k t Hr Hw|k id|k t nm e id k' Hr Hn Hc|k t nm e top id k' Hr Hn Hc
    |k t f id k' Hr _ Hn Hc|k t st Hr _|k t ptr r k' Hr _ Hc|k t ptr r k' Hr _ Hc
    |k t f path args envs r k' Hr _ Hc|k t pid sig r k' Hr _ Hs Hc|k t sig h rest r k' Hr _ Hs Hc
    |k t f ret f' k' Hr _ Hc|k t f r k' Hr _ Hc|k t Hr Hi|k id Hi Hn Hm|k f];
    try pose proof (Hcur _ Hr) as Hne.
  - unfold on_timer_tick. set (k1 := Kernel _ _ _ _ _ _ _ _ _ _ _ _). apply (spares_trans p k k1); [by apply spares_find|].
    apply spares_schedule. eapply same_table_ok; [|exact Hok]. by split.
  - by apply spares_schedule.
  - apply (spares_trans p k (upd_cur (with_state Blocked) k)); [by apply (spares_upd_cur p _ k t); [..|apply keeps_with_state]|].
    apply spares_schedule, (kernel_ok_upd_cur _ k t); [done..|apply keeps_with_state|].
    intros Hs. destruct Hr as [_ Hr], t. split_and!; simpl in *; subst; auto. right. split; [left; by left|]. by right.
  - apply spares_upd_id; [by apply kernel_ok_ids|apply keeps_woken|]. intros t _ _. apply spared_woken.
  - unfold spawn_kernel_task, task_new in Hc.
    apply sbind_Ok_inv in Hc as (c&k1&Hc&(?&k2&H2&(i&k3&Hpl&H3)%add_task_run)%sbind_Ok_inv).
    apply sbind_Ok_inv in Hc as (id0&k4&[= <- <-]&(stk&k5&Hst&[= <- <-])%sbind_Ok_inv).
    injection H2 as _ <-. injection H3 as _ <-. apply alloc_stack_same in Hst as [].
    refine (spares_created p k _ k3 i _ _ t Hok Hr Hne Hn _ Hpl _ _ _ _); try by split. by intros q [=].
  - revert Hc. unfold spawn_user_from_entry.
    intros (id0&k4&[= <- <-]&(stk&k5&Hst&(cr3&k6&H6&(?&k2&H2&
      (i&k3&Hpl&H3)%add_task_run)%sbind_Ok_inv)%sbind_Ok_inv)%sbind_Ok_inv)%sbind_Ok_inv.
    injection H6 as _ <-. injection H2 as _ <-. injection H3 as _ <-. apply alloc_stack_same in Hst as [].
    refine (spares_created p k _ k3 i _ _ t Hok Hr Hne Hn _ Hpl _ _ _ _); try by split. by intros q [=].
  - destruct (t_user_cr3 t) eqn:Hcr.
    + destruct (fork_run f k t id k' Hr) as (->&cr3&stk&i&k1&k2&Hs&Hpl&->); [congruence|done|].
      refine (spares_created p k k1 k2 i _ _ t Hok Hr Hne Hn Hs Hpl _ _ _ (same_table_refl _)); try done. by intros q [= <-].
    + destruct Hr as [Ht _]. unfold do_fork, with_cur in Hc. rewrite Ht, Hcr in Hc. injection Hc as _ <-. by apply spares_find.
  - by apply (spares_terminate p (t_id t) st k t None); [..|unfold terminate_task; rewrite (proj1 Hr), bool_decide_eq_true_2].
  - by apply (spares_wait_round p ptr k t r).
  - unfold wait_resume in Hc. apply (spares_trans p k (upd_cur (with_wait_blocked false) k));
      [by apply (spares_upd_cur p _ k t); [..|apply keeps_with_wait_blocked]|].
    apply (spares_wait_round p ptr _ (with_wait_blocked false t) r); [| |by destruct t|done].
    + apply (kernel_ok_upd_cur _ k t); [done..|apply keeps_with_wait_blocked|].
      intros Hs. destruct Hr as [_ Hr], t. split_and!; simpl in *; subst; auto. right. split; [left; by left|]. left. by left.
    + destruct Hr as [Ht Hr]. split; [|by destruct t]. unfold upd_cur, upd. simpl. by rewrite list_lookup_alter_eq, Ht.
  - revert Hc. unfold do_exec. cbv zeta. generalize (match args with [] => [path] | _ => args end). clear args. intros args.
    destruct (run_env _ k) as [r0 k1] eqn:Hrun. pose proof (run_env_same _ _ _ _ Hrun) as H1. cbn [fst snd].
    pose proof (spares_same p _ _ H1) as Hsp. pose proof (same_table_ok _ _ H1 Hok) as Hok1.
    repeat case_match; intros [= _ <-]; try done. apply (spares_trans p k k1); [done|].
    set (k2 := upd_cur _ k1). apply (spares_trans p k1 k2); [|by apply spares_find].
    apply (spares_upd_cur p _ k1 t); [done|by apply (same_table_runs k)|done|by intros []].
  - by apply (spares_kill p pid sig k t r).
  - revert Hc. unfold do_signal. repeat case_match; try (intros [= _ <-]; by apply spares_find).
    intros [= _ <-]. by apply (spares_upd_cur p _ k t); [..|apply keeps_with_signals].
  - revert Hc. unfold deliver_pending_signals. cbv zeta. unfold sbind, poked, smodify, sret. rewrite (proj1 Hr).
    destruct (bool_decide _); [intros [= _ <-]; by apply spares_find|].
    destruct (next_deliverable _) as [[sig h]|]; [|(intros [= _ <-]; by apply spares_find)].
    destruct (_ =? 0); [intros [= _ <-]; by apply spares_find|].
    destruct (poke64 _ _ _ _) as [w|]; [|(intros [= _ <-]; by apply spares_find)]. intros [= _ <-].
    apply (spares_trans p k (set_env w k)); [by apply spares_find|].
    apply (spares_upd_cur p _ (set_env w k) t); [by apply (kernel_ok_map_env (λ _, w) k)|done|done|apply keeps_with_signals].
  - revert Hc. unfold do_sigreturn. repeat case_match; try (intros [= _ <-]; by apply spares_find).
    intros [= _ <-]. by apply (spares_upd_cur p _ k t); [..|apply keeps_with_signals].
  - by apply (spares_reap_orphans p k t).
  - by apply spares_find.
  - by apply spares_find.
Qed.

(** ** An uncollected child *)

(** The child [c] of [p], ended with [status], waits for [p] to collect it, and
    [p] is awake. *)
Definition owed (p c status : Z) k : Prop :=
  ∃ t u, find_task p k = Some t ∧ awake (t_state t) ∧ c ∈ t_children t ∧
    find_task c k = Some u ∧ t_state u = Zombie ∧ t_exit_status u = status.

Lemma owed_spares p c status k k' : kernel_ok k → spares p k k' → owed p c status k → owed p c status k'.
Proof.
  intros Hok Hs (t&u&Ht&Ha&Hc&Hu&Hz&Hst).
  destruct (tr_child _ _ (ko_tree k Hok) p t c Ht) as (v&Hv&_&Hp); [by destruct Ha; congruence|done|].
  replace v with u in Hp by (unfold table_of in Hv; congruence).
  destruct (Hs p t Ht) as (t'&Ht'&[Hs1 _]); [by left|]. destruct (Hs1 Ha) as [Ha' Hch].
  destruct (Hs c u Hu) as (u'&Hu'&[_ Hs2]); [by right|]. destruct (Hs2 Hz) as (Hz'&_&Hst').
  exists t', u'. split_and!; try done; [by apply Hch|congruence].
Qed.

Lemma owed_elsewhere p c status k k' :
  kernel_ok k → owed p c status k → rtc (elsewhere p) k k' → kernel_ok k' ∧ owed p c status k'.
Proof.
  intros Hok Ho Hr. induction Hr as [|k1 k2 k3 Hs Hr IH]; [done|]. apply IH.
  - by apply (kernel_ok_step k1), Hs.
  - apply (owed_spares p c status k1 k2); [done|by apply elsewhere_spares|done].
Qed.
End wait.

(** ** Kernel stacks

    Stacks are handed out one behind the other, each with an unmapped guard page
    at its base; only bases, the two counters and the mapped pages matter. *)
Create HintDb base.

Section stacks.
Context {W : Type} `{TaskEnv W}.
Implicit Types k : kernel W.
Implicit Types t u c : task.

Definition stack_view k : list Z * Z * Z * gset Z := (t_base <$> k_tasks k, k_next_stack k, k_next_id k, k_mapped k).
Definition keeps_base (f : task → task) : Prop := ∀ t, t_base (f t) = t_base t.

(** The [m]-th stack of the region. *)
Definition stack_at (m : Z) : Z := GUARDED_STACK_VIRT_BASE + m * GUARDED_STACK_STRIDE.
(** Since the id [d] each new task took the next stack; tasks from before have
    their stacks below the region. *)
Record stacks_ok (d : Z) k : Prop := {
  so_first : d ≤ k_next_id k;
  so_next : k_next_stack k = stack_at (k_next_id k - d);
  so_base t : t ∈ k_tasks k → t_base t < GUARDED_STACK_VIRT_BASE ∨ ∃ m, 0 ≤ m < k_next_id k - d ∧ t_base t = stack_at m;
  so_mapped p : p ∈ k_mapped k → ∃ m j, 0 ≤ m < k_next_id k - d ∧ 1 ≤ j ≤ 32 ∧ p = stack_at m + j * 4096;
}.

Lemma stacks_ok_view d k k' : stack_view k' = stack_view k → stacks_ok d k → stacks_ok d k'.
Proof.
  intros [= Hb Hs Hi Hm] [S1 S2 S3 S4]. split; rewrite ?Hs, ?Hi, ?Hm; try done.
  intros t Ht. assert (t_base t ∈ t_base <$> k_tasks k) as Hin.
  { rewrite <-Hb. apply list_elem_of_fmap. by exists t. }
  apply list_elem_of_fmap in Hin as (u&->&Hu). by apply S3.
Qed.

(** No guard page is mapped. *)
Lemma guard_unmapped d k t : stacks_ok d k → t ∈ k_tasks k → t_base t ∉ k_mapped k.
Proof.
  intros [_ _ Hb Hm] Ht Hin. destruct (Hm _ Hin) as (m&j&?&?&Hp).
  unfold stack_at, GUARDED_STACK_VIRT_BASE, GUARDED_STACK_STRIDE in *.
  destruct (Hb t Ht) as [|(n&?&Hn)]; lia.
Qed.

Lemma guarded_stack_drop_panics base k : base ∉ k_mapped k → guarded_stack_drop base k = (Panic, k).
Proof.
  intros Hb. unfold guarded_stack_drop. change (seqZ 0 33) with (0 :: seqZ 1 32). cbn [sfor]. unfold sbind.
  rewrite Z.mul_0_l, Z.add_0_r, bool_decide_eq_false_2 by done. done.
Qed.

Lemma add_task_dead d c k : stacks_ok d k → (∃ t, t ∈ k_tasks k ∧ t_state t = Dead) → add_task c k = (Panic, k).
Proof.
  intros Hok (t&Ht&Hd). unfold add_task.
  destruct (position _ (k_tasks k)) as [i|] eqn:Hp.
  - destruct (k_tasks k !! i) as [old|] eqn:Ho; [|done]. unfold sbind.
    rewrite guarded_stack_drop_panics; [done|]. apply (guard_unmapped d); [done|]. by eapply list_elem_of_lookup_2.
  - pose proof (proj1 (position_None _ _) Hp t Ht) as Hf. simpl in Hf. by rewrite bool_decide_eq_true_2 in Hf.
Qed.

Lemma add_task_Ok d c k i k' :
  stacks_ok d k → add_task c k = (Ok i, k') → k' = set_tasks (k_tasks k ++ [c]) k.
Proof.
  intros Hok Ha. destruct (decide (Exists (λ t, t_state t = Dead) (k_tasks k))) as [Hd|Hn].
  - rewrite (add_task_dead d) in Ha; [done|done|]. apply Exists_exists in Hd as (t&?&?). by exists t.
  - unfold add_task in Ha. destruct (position _ (k_tasks k)) as [j|] eqn:Hp; [|by injection Ha].
    exfalso. apply Hn, Exists_exists. apply position_Some in Hp as [(x&Hx&Hb%bool_decide_eq_true_1) _].
    exists x. split; [by eapply list_elem_of_lookup_2|done].
Qed.

Definition stack_pages (base : Z) : gset Z := list_to_set ((λ i, base + 4096 + i * 4096) <$> seqZ 0 32).
Lemma elem_of_stack_pages p base : p ∈ stack_pages base → ∃ j, 1 ≤ j ≤ 32 ∧ p = base + j * 4096.
Proof.
  unfold stack_pages. rewrite elem_of_list_to_set. intros (i&->&Hi%elem_of_seqZ)%list_elem_of_fmap.
  exists (i + 1). lia.
Qed.

(** What a new task leaves. *)
Definition created_view k : list Z * Z * Z * gset Z :=
  ((t_base <$> k_tasks k) ++ [k_next_stack k], wrap64 (k_next_stack k + GUARDED_STACK_STRIDE),
   wrap64 (k_next_id k + 1), k_mapped k ∪ stack_pages (k_next_stack k)).

Lemma stacks_ok_created d k k' :
  stack_view k' = created_view k → 0 ≤ k_next_id k < 2 ^ 64 - 1 → k_next_id k + 1 - d ≤ 2 ^ 29 →
  stacks_ok d k → stacks_ok d k' ∧ k_next_id k' = k_next_id k + 1.
Proof.
  intros [= Hb Hs Hi Hm] Hn Hlim [S1 S2 S3 S4].
  assert (k_next_id k' = k_next_id k + 1) as Hid by (rewrite Hi; apply wrap_small; lia). split; [|done].
  split; rewrite ?Hs, ?Hid, ?Hm.
  - lia.
  - rewrite S2. unfold stack_at, GUARDED_STACK_VIRT_BASE, GUARDED_STACK_STRIDE in *. rewrite wrap_small by lia. lia.
  - intros t Ht. assert (t_base t ∈ (t_base <$> k_tasks k) ++ [k_next_stack k]) as Hin.
    { rewrite <-Hb. apply list_elem_of_fmap. by exists t. }
    apply elem_of_app in Hin as [(u&->&Hu)%list_elem_of_fmap|Hin%list_elem_of_singleton].
    + destruct (S3 u Hu) as [|(m&?&?)]; [by left|right]. exists m. split; [lia|done].
    + right. exists (k_next_id k - d). split; [lia|by rewrite Hin].
  - intros p [Hp|(j&Hj&->)%elem_of_stack_pages]%elem_of_union.
    + destruct (S4 p Hp) as (m&j&?&?&?). exists m, j. split_and!; lia || done.
    + exists (k_next_id k - d), j. rewrite S2. split_and!; lia || done.
Qed.

Lemma alloc_stack_view k stk k' :
  alloc_stack k = (Ok stk, k') →
  stk.1 = k_next_stack k ∧ k_tasks k' = k_tasks k ∧ k_next_id k' = k_next_id k ∧
  k_next_stack k' = wrap64 (k_next_stack k + GUARDED_STACK_STRIDE) ∧ k_mapped k' = k_mapped k ∪ stack_pages (k_next_stack k).
Proof.
  unfold alloc_stack, sbind, guarded_stack_new. cbn [k_env set_stacks k_mapped].
  destruct (take_frames _ _) as [e|]; [|done]. case_bool_decide; [|done]. by intros [= <- <-].
Qed.

(** ** Every step *)

Lemma alter_fmap_base i (f : task → task) (l : list task) : keeps_base f → t_base <$> alter f i l = t_base <$> l.
Proof.
  intros Hf. apply list_eq. intros j. rewrite !list_lookup_fmap. destruct (decide (j = i)) as [->|].
  - rewrite list_lookup_alter_eq. destruct (l !! i); simpl; [by rewrite Hf|done].
  - by rewrite list_lookup_alter_ne.
Qed.
Lemma view_upd i f k : keeps_base f → stack_view (upd i f k) = stack_view k.
Proof. intros Hf. unfold stack_view, upd. simpl. by rewrite alter_fmap_base. Qed.
Lemma view_upd_id id f k : keeps_base f → stack_view (upd_id id f k) = stack_view k.
Proof. intros. unfold upd_id. case_match; [by apply view_upd|done]. Qed.
Lemma view_env e k : stack_view (set_env e k) = stack_view k.
Proof. done. Qed.

Lemma base_with_state x : keeps_base (with_state x). Proof. by intros []. Qed.
Lemma base_with_children g : keeps_base (with_children g). Proof. by intros []. Qed.
Lemma base_with_parent p : keeps_base (with_parent p). Proof. by intros []. Qed.
Lemma base_with_signals g : keeps_base (with_signals g). Proof. by intros []. Qed.
Lemma base_with_wait b : keeps_base (with_wait_blocked b). Proof. by intros []. Qed.
Lemma base_zombified st : keeps_base (zombified st). Proof. by intros []. Qed.
Lemma base_notified : keeps_base notified.
Proof. intros []. unfold notified. by case_bool_decide. Qed.
Lemma base_woken : keeps_base woken.
Proof. intros t. unfold woken. case_bool_decide; [by destruct t|done]. Qed.
Lemma base_signalled sig : keeps_base (signalled sig).
Proof. intros t. unfold signalled. rewrite base_woken. by destruct t. Qed.
#[local] Hint Resolve base_with_state base_with_children base_with_parent base_with_signals base_with_wait
  base_zombified base_notified base_woken base_signalled : base.

Lemma view_schedule k : stack_view (schedule k) = stack_view k.
Proof.
  unfold schedule. destruct (k_tasks k !! k_current k) as [c|]; [|done].
  destruct (next_runnable _ _ _ _) as [n|]; [|case_bool_decide; [apply view_upd; auto with base|done]].
  case_decide; [case_bool_decide; [done|apply view_upd; auto with base]|].
  set (k1 := if bool_decide _ then _ else k).
  assert (stack_view k1 = stack_view k) as <- by (unfold k1; case_bool_decide; [apply view_upd; auto with base|done]).
  unfold switch_to. destruct (k_tasks k1 !! n) as [u|]; [|done]. unfold switch_cr3.
  transitivity (stack_view (upd n (with_state Running) k1)); [by case_match|apply view_upd; auto with base].
Qed.

Lemma view_foldl {A} (f : A → kernel W → kernel W) (l : list A) k :
  (∀ a k, stack_view (f a k) = stack_view k) → stack_view (foldl (λ k a, f a k) k l) = stack_view k.
Proof. intros Hf. revert k. induction l as [|a l IH]; intros k; simpl; [done|]. by rewrite IH. Qed.

Lemma view_end_task i status f t k : stack_view (end_task i status f t k) = stack_view k.
Proof.
  unfold end_task, notify_parent, reparent. set (k1 := map_env f (make_zombie i status k)).
  assert (stack_view k1 = stack_view k) as <- by (unfold k1, make_zombie, map_env; rewrite view_env; apply view_upd; auto with base).
  set (k2 := match t_children t with [] => _ | _ => _ end).
  assert (stack_view k2 = stack_view k1) as <-.
  { unfold k2. destruct (t_children t) as [|c l]; [done|]. cbv zeta.
    set (k3 := foldl _ _ _). assert (stack_view k3 = stack_view k1) as <-.
    { unfold k3. apply (view_foldl (λ x : Z, upd_id x (with_parent (init_task_id k1)))). intros. apply view_upd_id; auto with base. }
    case_match; [apply view_upd_id; auto with base|done]. }
  case_match; [apply view_upd_id; auto with base|done].
Qed.

Lemma view_terminate id status k : stack_view (terminate_task id status k).2 = stack_view k.
Proof.
  unfold terminate_task. case_bool_decide as Hb.
  - cbn [snd]. unfold do_exit. destruct (k_tasks k !! k_current k) as [t|]; [|done]. rewrite view_schedule.
    exact (view_end_task (k_current k) status (λ e, drop_windows (t_id t) (drop_reply_slot (t_id t) (cleanup_fds (wrap32 (t_id t)) e))) t k).
  - destruct (index_of id k) as [i|]; [|done]. destruct (k_tasks k !! i) as [t|]; [|done]. case_bool_decide; [done|].
    exact (view_end_task i status (cleanup_fds (wrap32 id)) t k).
Qed.

Lemma view_reap par cid k : stack_view (reap_child par cid k) = stack_view k.
Proof. unfold reap_child. rewrite view_upd_id by auto with base. apply view_upd_id. unfold forget_child. auto with base. Qed.

Lemma view_poked (f : cpu → W → option W) k : stack_view (poked f k).2 = stack_view k.
Proof. unfold poked. by destruct (f _ _). Qed.

Lemma view_wait_round ptr k : stack_view (wait_round ptr k).2 = stack_view k.
Proof.
  unfold wait_round. destruct (scan_children k) as [|c st|]; [done| |].
  - set (k1 := map_env _ _). assert (stack_view k1 = stack_view k) as <-.
    { unfold k1, map_env. rewrite view_env, view_upd_id by auto with base. unfold upd_cur, forget_child. apply view_upd. auto with base. }
    unfold sbind. pose proof (view_poked (store_status ptr st) k1) as Hp. by destruct (poked _ k1) as [[[]|e| |] k2].
  - cbn [snd]. rewrite view_schedule. apply view_upd. intros []. done.
Qed.

Lemma view_kill pid sig k : stack_view (do_kill pid sig k).2 = stack_view k.
Proof.
  unfold do_kill. cbv zeta. repeat case_match; try done; cbn [snd]; try apply view_terminate. apply view_upd_id. auto with base.
Qed.

Lemma view_run_env {A} (f : cpu → W → outcome bytes A * W) k : stack_view (run_env f k).2 = stack_view k.
Proof. done. Qed.

Lemma view_cr3 (a : Z) k : stack_view (set_cr3 a k) = stack_view k.
Proof. done. Qed.
Lemma view_exec f path args envs k : stack_view (do_exec f path args envs k).2 = stack_view k.
Proof.
  unfold do_exec. cbv zeta. generalize (match args with [] => [path] | _ => args end). clear args. intros args.
  set (p := run_env _ k). assert (stack_view p.2 = stack_view k) as <- by apply view_run_env. destruct p as [r k1]. cbn [fst snd].
  repeat case_match; try done. cbn [snd]. rewrite view_cr3. apply view_upd. by intros [].
Qed.

Lemma view_deliver f ret k : stack_view (deliver_pending_signals f ret k).2 = stack_view k.
Proof.
  unfold deliver_pending_signals. cbv zeta. unfold sbind, poked, smodify, sret.
  destruct (k_tasks k !! k_current k) as [t|]; [|done]. destruct (bool_decide _); [done|].
  destruct (next_deliverable _) as [[sig h]|]; [|done]. destruct (_ =? 0); [done|].
  destruct (poke64 _ _ _ _) as [w|]; [|done]. cbn [snd]. unfold upd_cur. rewrite view_upd; [done|auto with base].
Qed.

Lemma view_reap_orphans k : stack_view (reap_orphans k) = stack_view k.
Proof.
  unfold reap_orphans. destruct (init_task_id k) as [r|]; [|done].
  apply (view_foldl (λ x : Z, reap_one r x)). intros x k1. exact (view_reap r x k1).
Qed.

(** The calls that create tasks. *)
Lemma add_task_view d c k i k' :
  stacks_ok d k → add_task c k = (Ok i, k') →
  stack_view k' = ((t_base <$> k_tasks k) ++ [t_base c], k_next_stack k, k_next_id k, k_mapped k).
Proof. intros Hok ->%(add_task_Ok d); [|done]. unfold stack_view. simpl. by rewrite fmap_app. Qed.

(** Up to [add_task], a fresh id and a new stack. *)
Lemma taken_ok d k k1 :
  t_base <$> k_tasks k1 = t_base <$> k_tasks k → k_next_id k1 = wrap64 (k_next_id k + 1) →
  k_next_stack k1 = wrap64 (k_next_stack k + GUARDED_STACK_STRIDE) →
  k_mapped k1 = k_mapped k ∪ stack_pages (k_next_stack k) →
  0 ≤ k_next_id k < 2 ^ 64 - 1 → k_next_id k + 1 - d ≤ 2 ^ 29 → stacks_ok d k → stacks_ok d k1.
Proof.
  intros Hb Hi Hs Hm Hn Hlim Hok.
  destruct (stacks_ok_created d k (set_tasks (k_tasks k1 ++ [Task 0 [] 0 0 Dead (k_next_stack k) [] RKernel None 0 None [] 0 false signals_new 0]) k1))
    as [[S1 S2 S3 S4] _]; [|done..|].
  - unfold stack_view, created_view. simpl. by rewrite fmap_app, Hb, Hi, Hs, Hm.
  - split; try done. intros t Ht. apply S3. simpl. apply elem_of_app. by left.
Qed.

Definition creates d k k' : Prop :=
  k_next_id k' = wrap64 (k_next_id k + 1) ∧ (stacks_ok d k → k_next_id k + 1 - d ≤ 2 ^ 29 → stack_view k' = created_view k).

Lemma creates_spawn_kernel d name entry k id k' :
  0 ≤ k_next_id k < 2 ^ 64 - 1 → spawn_kernel_task name entry k = (Ok id, k') → creates d k k'.
Proof.
  intros Hn Hc. unfold spawn_kernel_task, task_new in Hc.
  apply sbind_Ok_inv in Hc as (c&k1&Hc&(?&k2&H2&(i&k3&Hadd&H3)%sbind_Ok_inv)%sbind_Ok_inv).
  apply sbind_Ok_inv in Hc as (id0&k4&[= <- <-]&(stk&k5&Hst&[= <- <-])%sbind_Ok_inv).
  injection H2 as _ <-. injection H3 as _ <-. apply alloc_stack_view in Hst as (E1&E2&E3&E4&E5). cbn in E1, E2, E3, E4, E5.
  pose proof (pl_next _ _ _ _ (add_task_placed _ _ _ _ Hadd)) as Hnx. cbn in Hnx.
  split; [congruence|]. intros Hok Hlim.
  apply (add_task_view d) in Hadd; [|apply (taken_ok d k); try done; cbn; congruence].
  rewrite Hadd. unfold created_view. cbn. congruence.
Qed.

Lemma creates_spawn_user d name entry top k id k' :
  0 ≤ k_next_id k < 2 ^ 64 - 1 → spawn_user_from_entry name entry top k = (Ok id, k') → creates d k k'.
Proof.
  intros Hn Hc. revert Hc. unfold spawn_user_from_entry.
  intros (id0&k4&[= <- <-]&(stk&k5&Hst&(cr3&k6&H6&(?&k2&H2&
    (i&k3&Hadd&H3)%sbind_Ok_inv)%sbind_Ok_inv)%sbind_Ok_inv)%sbind_Ok_inv)%sbind_Ok_inv.
  injection H6 as _ <-. injection H2 as _ <-. injection H3 as _ <-.
  apply alloc_stack_view in Hst as (E1&E2&E3&E4&E5). cbn in E1, E2, E3, E4, E5.
  pose proof (pl_next _ _ _ _ (add_task_placed _ _ _ _ Hadd)) as Hnx. cbn in Hnx.
  split; [congruence|]. intros Hok Hlim.
  apply (add_task_view d) in Hadd; [|apply (taken_ok d k); try done; cbn; congruence].
  rewrite Hadd. unfold created_view. cbn. congruence.
Qed.

Lemma creates_fork d f k t id k' :
  runs k t → t_user_cr3 t ≠ None → 0 ≤ k_next_id k < 2 ^ 64 - 1 → do_fork f k = (Ok id, k') → creates d k k'.
Proof.
  intros [Ht _] Hcr Hn Hc. revert Hc. unfold do_fork, with_cur. rewrite Ht.
  destruct (t_user_cr3 t) as [cr3|]; [|done].
  intros (ccr3&k0&H0&(id0&k4&H4&(stk&k5&Hst&(?&k2&H2&
    (i&k3&Hadd&(?&k6&H6&H3)%sbind_Ok_inv)%sbind_Ok_inv)%sbind_Ok_inv)%sbind_Ok_inv)%sbind_Ok_inv)%sbind_Ok_inv.
  pose proof (view_run_env (λ x : cpu, cow_fork x cr3) k) as V0. rewrite H0 in V0. cbn [snd] in V0. injection V0 as Vb Vs Vi Vm.
  injection H4 as <- <-. injection H2 as _ <-. injection H6 as _ <-. injection H3 as _ <-.
  apply alloc_stack_view in Hst as (E1&E2&E3&E4&E5). cbn in E1, E2, E3, E4, E5.
  pose proof (pl_next _ _ _ _ (add_task_placed _ _ _ _ Hadd)) as Hnx. cbn in Hnx.
  split; [rewrite next_id_upd_id; congruence|]. intros Hok Hlim.
  apply (add_task_view d) in Hadd; [|apply (taken_ok d k); try done; cbn; congruence].
  rewrite view_upd_id by auto with base. rewrite Hadd. unfold created_view. cbn. congruence.
Qed.

Lemma step_view d k k' :
  kernel_ok k → kstep k k' → stack_view k' = stack_view k ∨
    creates d k k' ∧ 0 ≤ k_next_id k < 2 ^ 64 - 1 ∧ k_next_id k' = k_next_id k + 1.
Proof.
  intros Hok Hs. destruct Hs as
    [k t _ _|k t _ _|k t Hr Hw|k id|k t nm e id k' Hr Hn Hc|k t nm e top id k' Hr Hn Hc
    |k t f id k' Hr _ Hn Hc|k t st Hr _|k t ptr r k' Hr _ Hc|k t ptr r k' Hr _ Hc
    |k t f path args envs r k' Hr _ Hc|k t pid sig r k' Hr _ Hs Hc|k t sig h rest r k' Hr _ Hs Hc
    |k t f ret f' k' Hr _ Hc|k t f r k' Hr _ Hc|k t Hr Hi|k id Hi Hn Hm|k f].
  - left. unfold on_timer_tick. by rewrite view_schedule.
  - left. apply view_schedule.
  - left. unfold block_current_and_schedule. rewrite view_schedule. apply view_upd. auto with base.
  - left. apply view_upd_id. auto with base.
  - right. destruct (creates_spawn_kernel d nm e k id k' Hn Hc) as [Hi Hv]. split; [by split|]. split; [done|]. rewrite Hi. apply wrap_small. lia.
  - right. destruct (creates_spawn_user d nm e top k id k' Hn Hc) as [Hi Hv]. split; [by split|]. split; [done|]. rewrite Hi. apply wrap_small. lia.
  - destruct (t_user_cr3 t) as [cr3|] eqn:Hcr; [right|left].
    + destruct (creates_fork d f k t id k' Hr) as [Hi Hv]; [congruence|done|done|].
      split; [by split|]. split; [done|]. rewrite Hi. apply wrap_small. lia.
    + destruct Hr as [Ht _]. unfold do_fork, with_cur in Hc. rewrite Ht, Hcr in Hc. by injection Hc as _ <-.
  - left. pose proof (view_terminate (t_id t) st k) as Hv. unfold terminate_task in Hv.
    by rewrite (proj1 Hr), bool_decide_eq_true_2 in Hv.
  - left. rewrite <-(view_wait_round ptr k), Hc. done.
  - left. unfold wait_resume in Hc. transitivity (stack_view (upd_cur (with_wait_blocked false) k)); [|apply view_upd; auto with base].
    rewrite <-(view_wait_round ptr (upd_cur _ k)), Hc. done.
  - left. rewrite <-(view_exec f path args envs k), Hc. done.
  - left. rewrite <-(view_kill pid sig k), Hc. done.
  - left. revert Hc. unfold do_signal. repeat case_match; intros [= _ <-]; try done. apply view_upd. auto with base.
  - left. rewrite <-(view_deliver f ret k), Hc. done.
  - left. revert Hc. unfold do_sigreturn. repeat case_match; intros [= _ <-]; try done. apply view_upd. auto with base.
  - left. apply view_reap_orphans.
  - by left.
  - by left.
Qed.

Lemma stacks_ok_reach d k k' :
  kernel_ok k → kreach k k' → stacks_ok d k → k_next_id k' - d ≤ 2 ^ 29 → stacks_ok d k'.
Proof.
  intros Hok Hr Hst. revert k' Hr. refine (rtc_ind_r (λ z, k_next_id z - d ≤ 2 ^ 29 → stacks_ok d z) k _ _); [done|].
  intros k1 k2 Hr Hs IH Hlim. destruct (step_view d k1 k2 (kernel_ok_reach _ _ Hok Hr) Hs) as [Hv|([_ Hc]&Hn&Hi)].
  - apply (stacks_ok_view d k1); [done|]. apply IH. injection Hv as _ _ Hi _. lia.
  - apply (stacks_ok_created d k1 k2); [apply Hc; [apply IH|]; lia|done|lia|apply IH; lia].
Qed.

(** ** No task after a dead one *)

Record full (d : Z) k : Prop := {
  fu_stacks : stacks_ok d k;
  fu_id : 0 ≤ k_next_id k < 2 ^ 64 - 1;
  fu_limit : k_next_id k + 1 - d ≤ 2 ^ 29;
  fu_dead : ∃ t, t ∈ k_tasks k ∧ t_state t = Dead }.

Lemma full_env d e k : full d k → full d (set_env e k).
Proof. intros [F1 F2 F3 F4]. split; try done. by apply (stacks_ok_view d k). Qed.

(** A fresh id, a new stack, whatever happens to the rest of the kernel, and then
    the table. *)
Lemma full_panics d c k stk k1 e :
  full d k → alloc_stack (set_next_id (wrap64 (k_next_id k + 1)) k) = (Ok stk, k1) →
  add_task c (set_env e k1) = (Panic, set_env e k1).
Proof.
  intros [F1 F2 F3 F4] (E1&E2&E3&E4&E5)%alloc_stack_view. cbn in E1, E2, E3, E4, E5.
  apply (add_task_dead d); [|by cbn; rewrite E2]. apply (taken_ok d k); try done; cbn; congruence.
Qed.

Lemma alloc_stack_cases k : (alloc_stack k).1 = Panic ∨ ∃ stk k', alloc_stack k = (Ok stk, k').
Proof.
  unfold alloc_stack, sbind, guarded_stack_new. destruct (take_frames _ _); [|by left].
  case_bool_decide; [right|by left]. eauto.
Qed.

Lemma full_spawn_kernel d name entry k : full d k → (spawn_kernel_task name entry k).1 = Panic.
Proof.
  intros Hf. unfold spawn_kernel_task, task_new. unfold sbind at 1. unfold sbind at 1. unfold fresh_id. unfold sbind at 1.
  destruct (alloc_stack_cases (set_next_id (wrap64 (k_next_id k + 1)) k)) as [Hp|(stk&k1&Ha)].
  - destruct (alloc_stack _) as [r k1]. cbn in Hp. by subst r.
  - rewrite Ha. unfold sret at 1. unfold sbind at 1, smodify at 1. unfold sbind at 1. unfold map_env.
    by rewrite (full_panics d _ k stk k1 _ Hf Ha).
Qed.

Lemma full_spawn_user d name entry top k : full d k →
  match (spawn_user_from_entry name entry top k).1 with
  | Panic => True | Err e => e = str "no user page table created" | _ => False
  end.
Proof.
  intros Hf. unfold spawn_user_from_entry. unfold sbind at 1. unfold fresh_id. unfold sbind at 1.
  destruct (alloc_stack_cases (set_next_id (wrap64 (k_next_id k + 1)) k)) as [Hp|(stk&k1&Ha)].
  - destruct (alloc_stack _) as [r k1]. cbn in Hp. by subst r.
  - rewrite Ha. unfold sbind at 1. unfold sread, ok_or. destruct (last_page_table (k_env k1)); [|done].
    unfold sbind, smodify, map_env. by rewrite (full_panics d _ k stk k1 _ Hf Ha).
Qed.

Lemma full_fork d f k t cr3 : full d k → runs k t → t_user_cr3 t = Some cr3 →
  (do_fork f k).1 = match (cow_fork (cpu_of k) cr3 (k_env k)).1 with
                    | Ok _ | Panic => Panic | Err e => Err e | Diverge => Diverge end.
Proof.
  intros Hf [Ht _] Hcr. unfold do_fork, with_cur. rewrite Ht, Hcr. unfold sbind at 1, run_env.
  destruct (cow_fork _ _ _) as [[a|e| |] w]; cbn [fst snd]; try done.
  pose proof (full_env d w k Hf) as Hf'. unfold sbind at 1, fresh_id. unfold sbind at 1.
  destruct (alloc_stack_cases (set_next_id (wrap64 (k_next_id (set_env w k) + 1)) (set_env w k))) as [Hp|(stk&k1&Ha)].
  - destruct (alloc_stack _) as [r k1]. cbn in Hp. by subst r.
  - rewrite Ha. unfold sbind, smodify, map_env. by rewrite (full_panics d _ _ stk k1 _ Hf' Ha).
Qed.
End stacks.
