(* ===== verification/TaskProps.v ===== *)
(** * Theorems about processes and signals, with their witnesses *)
From S2P Require Import Prelude Signal Task TaskSpec TaskTree TaskSteps TaskRun TaskWait.

Section props.
Context {W : Type} `{TaskEnv W}.
Implicit Types k : kernel W.
Implicit Types t u : task.

(** The table after [do_exit], up to the marks of the scheduler. *)
Lemma exit_marks status k c :
  kernel_ok k → k_tasks k !! k_current k = Some c → t_state c = Running →
  ∃ k1, same_but_marks k1 (do_exit status k) ∧
    ∀ x, find_task x k1 =
      exit_view (t_id c) status (init_task_id k) (t_parent c) (t_children c) x <$> find_task x k.
Proof.
  intros Hok Hcur Hrun. rewrite (do_exit_end status k c Hcur). eexists. split.
  - apply schedule_marks, cpu_ok_end_task; [apply Hok|done].
  - intros x. apply end_task_view; [by apply kernel_ok_ids|done].
Qed.

(** A store of the kernel succeeds or panics. *)
Lemma poked_cases (f : cpu → W → option W) k :
  poked f k = (Panic, k) ∨ ∃ e, f (cpu_of k) (k_env k) = Some e ∧ poked f k = (Ok tt, set_env e k).
Proof. unfold poked. destruct (f _ _) as [e|]; eauto. Qed.

(** A [wait] that goes on and finds a zombie among its children collects one. *)
Lemma wait_resume_zombie ptr k t c u :
  kernel_ok k → runs k t → c ∈ t_children t → find_task c k = Some u → t_state u = Zombie →
  ∃ r v, r ∈ t_children t ∧ find_task r k = Some v ∧ t_state v = Zombie ∧
    (wait_resume ptr k).1 =
      match store_status ptr (t_exit_status v) (cpu_of k) (cleanup_fds (wrap32 r) (k_env k)) with
      | Some _ => Ok (Some r) | None => Panic
      end.
Proof.
  intros Hok Hr Hin Hu Hz. unfold wait_resume.
  set (k1 := upd_cur _ k). set (t1 := with_wait_blocked false t).
  assert (runs k1 t1) as Hr1.
  { destruct Hr as [Ht Hr]. split; [|by destruct t]. unfold k1, upd_cur, upd. simpl.
    by rewrite list_lookup_alter_eq, Ht. }
  assert (∀ x, x ≠ t_id t → find_task x k1 = find_task x k) as Hfind.
  { intros x Hx. unfold k1. rewrite (upd_cur_id k t) by (by apply kernel_ok_ids || apply Hr).
    rewrite find_task_upd_id by (by apply kernel_ok_ids || apply keeps_with_wait_blocked). by rewrite decide_False. }
  assert (∀ x v, find_task x k1 = Some v → t_state v = Zombie → find_task x k = Some v) as Hback.
  { intros x v Hv Hvz. rewrite <-Hfind; [done|]. intros ->. pose proof (runs_find k t Hok Hr) as Hft.
    unfold k1 in Hv. rewrite (upd_cur_id k t) in Hv by (by apply kernel_ok_ids || apply Hr).
    rewrite find_task_upd_id, decide_True, Hft in Hv by (by apply kernel_ok_ids || apply keeps_with_wait_blocked || done).
    injection Hv as <-. destruct Hr as [_ Hr], t. simpl in *. congruence. }
  pose proof (scan_children_spec k1 t1 Hr1) as Hs. assert (t_children t1 = t_children t) as Hch by by destruct t.
  rewrite Hch in Hs. unfold wait_round. destruct (scan_children k1) as [|d st|].
  - rewrite Hs in Hin. by apply elem_of_nil in Hin.
  - destruct Hs as (v&Hd&Hv&Hvz&<-). exists d, v. split_and!; [done|by apply Hback|done|].
    assert (NoDup (ids k1)) as Hnd1 by (unfold k1, upd_cur; rewrite ids_upd; [by apply kernel_ok_ids|apply keeps_with_wait_blocked]).
    unfold sbind, poked. rewrite (upd_cur_id k1 t1) by (done || apply Hr1).
    fold (reap_child (t_id t1) d k1). set (k2 := map_env _ _).
    assert (k_env k2 = cleanup_fds (wrap32 d) (k_env k)) as -> by exact (f_equal (cleanup_fds (wrap32 d)) (env_reaped (t_id t1) d k1)).
    assert (cpu_of k2 = cpu_of k) as -> by exact (cpu_reaped (t_id t1) d k1). by destruct (store_status _ _ _ _).
  - destruct Hs as [_ Hs]. exfalso. apply (Hs c u); [done| |done]. rewrite Hfind; [done|].
    intros ->. rewrite (runs_find k t Hok Hr) in Hu. destruct Hr. congruence.
Qed.

(** C16: the process tree stays consistent.  Whatever calls the tasks make, ids
    stay unique, at most the current task is marked running, a live task's
    children are exactly the live tasks that name it as their parent, nobody but
    the reaper sleeps in [wait] with a child waiting to be reaped, and no task
    ever catches [SIGKILL]. *)
Theorem process_tree_invariant k k' : kernel_ok k → kreach k k' → kernel_ok k'.
Proof. apply kernel_ok_reach. Qed.

(** [wait] collects a child exactly once.  It fails when the task has no
    children; when a child has ended it returns that child's id, stores its exit
    status, frees its descriptors, retires it and forgets it - the kernel panics
    if the status cannot be stored -; otherwise it sleeps, and then no child had
    ended. *)
Theorem wait_collects ptr k t :
  kernel_ok k → runs k t →
  match wait_round ptr k with
  | (Ok (Some r), k') =>
      (t_children t = [] ∧ r = u64_max ∧ k' = k) ∨
      ∃ u, r ∈ t_children t ∧ find_task r k = Some u ∧ t_state u = Zombie ∧
        find_task r k' = Some (with_state Dead u) ∧
        find_task (t_id t) k' = Some (forget_child r t) ∧
        store_status ptr (t_exit_status u) (cpu_of k) (cleanup_fds (wrap32 r) (k_env k)) = Some (k_env k')
  | (Panic, _) =>
      ∃ r u, r ∈ t_children t ∧ find_task r k = Some u ∧ t_state u = Zombie ∧
        store_status ptr (t_exit_status u) (cpu_of k) (cleanup_fds (wrap32 r) (k_env k)) = None
  | (Ok None, k') =>
      t_children t ≠ [] ∧
      (∀ c u, c ∈ t_children t → find_task c k = Some u → t_state u ≠ Zombie) ∧
      k' = schedule (upd_cur asleep k)
  | _ => False
  end.
Proof.
  intros Hok Hr. pose proof (scan_children_spec k t Hr) as Hs.
  pose proof (runs_find k t Hok Hr) as Hf. pose proof (kernel_ok_ids k Hok) as Hnd.
  unfold wait_round. destruct (scan_children k) as [|c st|].
  - left. done.
  - destruct Hs as (u&Hin&Hu&Hz&<-). unfold sbind, poked.
    assert (c ≠ t_id t) as Hne by (intros ->; destruct Hr; congruence).
    destruct Hr as [Ht Hrun]. rewrite (upd_cur_id k t) by done.
    set (k1 := map_env (cleanup_fds (wrap32 c)) _).
    assert (k_env k1 = cleanup_fds (wrap32 c) (k_env k)) as He by (unfold k1; exact (f_equal (cleanup_fds (wrap32 c)) (env_reaped (t_id t) c k))).
    assert (cpu_of k1 = cpu_of k) as -> by exact (cpu_reaped (t_id t) c k). rewrite He.
    destruct (store_status _ _ _ _) as [e|] eqn:Hst; [|by exists c, u]. right. exists u. split_and!; try done.
    + etrans; [apply (find_reaped_ne (t_id t) c k c Hnd); congruence|].
      by rewrite decide_True, Hu by done.
    + etrans; [apply (find_reaped_ne (t_id t) c k (t_id t) Hnd); congruence|].
      by rewrite decide_False, decide_True, Hf by done.
  - by destruct Hs.
Qed.

(** The end of the child wakes the parent and leaves the child to it. *)
Lemma exit_owes status k c p t :
  kernel_ok k → runs k c → t_parent c = Some p → find_task p k = Some t →
  t_state t = Blocked → t_wait_blocked t = true → owed p (t_id c) status (do_exit status k).
Proof.
  intros Hok Hr Hp Ht Hb Hw. set (k' := do_exit status k).
  pose proof (kernel_ok_ids k Hok) as Hnd. pose proof (runs_find k c Hok Hr) as Hfc.
  assert (p ≠ t_id c) as Hne by (intros ->; destruct Hr; congruence).
  destruct Hr as [Hcur Hrun].
  destruct (exit_marks status k c Hok Hcur Hrun) as [k1 [Hm Hv]]. fold k' in Hm.
  pose proof (same_but_marks_find k1 k' p Hm) as Hp1. rewrite Hv, Ht in Hp1.
  pose proof (same_but_marks_find k1 k' (t_id c) Hm) as Hc1. rewrite Hv, Hfc in Hc1.
  inversion Hp1 as [? t' Ht' E1 Hft|]; subst. inversion Hc1 as [? c' Hc' E2 Hfc'|]; subst.
  set (ev := exit_view _ _ _ _ _) in *.
  assert (t_state (ev p t) = Runnable) as Hsp.
  { destruct (exit_view_state (t_id c) status (init_task_id k) (t_parent c) (t_children c) p t Hne)
      as [[_ Hx]|(_&_&_&Hx)]; [by destruct (Hx Hp)|done]. }
  assert (t_id c ∈ t_children t) as Hin.
  { apply (tr_parent _ _ (ko_tree k Hok) p t (t_id c) c); try done; congruence. }
  assert (t_children t' = t_children (ev p t) ∧ awake (t_state t')) as [Hch' Haw].
  { destruct Ht' as [->|[_ (x&Hx&->)]]; [by rewrite Hsp; split; [|right]|].
    rewrite with_state_state. by destruct (ev p t). }
  assert (c' = ev (t_id c) c) as ->.
  { destruct Hc' as [->|[[Hx|Hx] _]]; [done| |]; unfold ev in Hx; by rewrite exit_view_self in Hx. }
  exists t', (ev (t_id c) c). split_and!; try done.
  - rewrite Hch'. unfold ev. rewrite exit_view_children, decide_False by done. apply elem_of_app. by left.
  - apply exit_view_self.
  - apply exit_view_status.
Qed.

(** C19: no lost wake-up, and no lost exit status.  A task ends while its parent
    sleeps in [wait].  From then on the parent is awake and the ended task is a
    zombie with the status it gave, in the parent's list, whatever the other tasks
    do ([elsewhere]) - unless one of them ends the parent.  And when the parent
    runs again, now or after any number of such steps, its [wait] does not sleep
    another time: it returns with a child that has ended, or the kernel panics as
    it cannot store that child's status at the address the parent gave. *)
Theorem exit_wakes_waiter status k c p t k' :
  kernel_ok k → runs k c → t_parent c = Some p → find_task p k = Some t →
  t_state t = Blocked → t_wait_blocked t = true →
  rtc (elsewhere p) (do_exit status k) k' →
  ∃ t' c', find_task p k' = Some t' ∧ awake (t_state t') ∧ t_id c ∈ t_children t' ∧
    find_task (t_id c) k' = Some c' ∧ t_state c' = Zombie ∧ t_exit_status c' = status ∧
    ∀ ptr, runs k' t' → ∃ r u, r ∈ t_children t' ∧ find_task r k' = Some u ∧ t_state u = Zombie ∧
      (wait_resume ptr k').1 =
        match store_status ptr (t_exit_status u) (cpu_of k') (cleanup_fds (wrap32 r) (k_env k')) with
        | Some _ => Ok (Some r) | None => Panic
        end.
Proof.
  intros Hok Hr Hp Ht Hb Hw Hs.
  destruct (owed_elsewhere p (t_id c) status _ k' (kernel_ok_exit status k c Hok Hr)
    (exit_owes status k c p t Hok Hr Hp Ht Hb Hw) Hs) as (Hok'&t'&c'&H1&H2&H3&H4&H5&H6).
  exists t', c'. split_and!; try done. intros ptr Hr'. by apply (wait_resume_zombie ptr k' t' (t_id c) c').
Qed.

(** C21: [fork] returns twice.  The child is a new task in the parent's list
    whose first switch enters user mode with the parent's registers, [rax] being
    0, at the parent's instruction and stack, in an address space of its own; it
    inherits the dispositions and has nothing pending.  The parent gets the
    child's id. *)
Theorem fork_child_resumes f k t id k' :
  kernel_ok k → runs k t → t_user_cr3 t ≠ None → 0 ≤ k_next_id k < 2 ^ 64 - 1 →
  length f = 20%nat → fork_child_trampoline ≠ task_trampoline → do_fork f k = (Ok id, k') →
  find_task id k = None ∧
  ∃ c, find_task id k' = Some c ∧ t_state c = Runnable ∧ t_parent c = Some (t_id t) ∧
    start (t_stack c) = Some (EnterUser None (Some (take 15 (<[R_RAX := 0]> f))) (drop 15 f)) ∧
    t_signals c = set_saved None (set_pending_mask 0 (t_signals t)) ∧
    find_task (t_id t) k' = Some (with_children (λ l, l ++ [id]) t).
Proof.
  intros Hok Hr Hcr3 Hn Hlen Htr Hf.
  destruct (fork_run f k t id k' Hr Hcr3 Hf) as (->&cr3&stk&i&k1&k2&Hs&Hpl&->).
  set (c := child_task t (k_next_id k) cr3 stk f) in *.
  pose proof (same_table_ok _ _ Hs (kernel_ok_fresh k Hok Hn)) as Hok1.
  assert (t_id c ∉ ids k1) as Hnew.
  { destruct Hs as [Ht _ _ _]. unfold ids. rewrite Ht. exact (fresh_not_in k Hok). }
  destruct (placed_view i c k1 k2 t Hpl) as (Hc2&_&Hr2&Hfc&Hv); try done.
  { apply Hok1. }
  { by apply (same_table_runs _ _ _ Hs). }
  { destruct Hs as [_ _ _ ->]. simpl. rewrite wrap_small by lia. lia. }
  assert (find_task (k_next_id k) k = None) as Hnone.
  { destruct (find_task (k_next_id k) k) as [u|] eqn:Hu; [|done]. exfalso.
    apply (fresh_not_in k Hok). apply find_task_Some in Hu as (j&_&Hj&<-).
    apply list_elem_of_fmap. exists u. split; [done|]. by eapply list_elem_of_lookup_2. }
  pose proof (runs_find k t Hok Hr) as Hft.
  assert (t_id t ≠ k_next_id k) as Hne by (intros He; congruence).
  split; [done|]. exists c. pose proof (cp_ids k2 Hc2) as Hnd2.
  split_and!; try done.
  - etrans; [apply (linked_find c k2 (t_id c) Hnd2)|].
    rewrite decide_False; [done|]. by intros [= He].
  - clear Hf Hv Hfc. do 20 (destruct f as [|? f]; [done|]). destruct f; [|done].
    simpl. destruct (Z.eqb_spec fork_child_trampoline task_trampoline); [done|].
    by rewrite Z.eqb_refl.
  - etrans; [apply (linked_find c k2 (t_id t) Hnd2)|]. rewrite decide_True by done.
    destruct Hr2 as [Ht2 _]. by rewrite (find_task_lookup k2 (k_current k2) t Hnd2 Ht2).
Qed.

(** ** Signals *)

Lemma reg_insert i j x f :
  (i < length f)%nat → reg j (<[i := x]> f) = if decide (j = i) then x else reg j f.
Proof.
  intros Hi. unfold reg. rewrite !nth_lookup. case_decide as Hj; [subst|].
  - by rewrite list_lookup_insert_eq.
  - by rewrite list_lookup_insert_ne.
Qed.

Lemma align16 x : wrap64 (Z.land x (Z.lnot 15) - 8) mod 16 = 8.
Proof.
  unfold wrap. change 15 with (Z.ones 4). rewrite <-Z.ldiff_land, Z.ldiff_ones_r by lia.
  rewrite Z.shiftl_mul_pow2 by lia. change (2 ^ 4) with 16. change (2 ^ 64) with (16 * 2 ^ 60).
  generalize (Z.shiftr x 4). intros y. rewrite Z.rem_mul_r by (lia || done).
  generalize (((y * 16 - 8) / 16) mod 2 ^ 60). intros z.
  replace ((y * 16 - 8) mod 16) with 8 by (Z.div_mod_to_equations; lia).
  rewrite Z.mul_comm, Z.mod_add by lia. done.
Qed.

Lemma upd_cur_runs f k t : runs k t → t_state (f t) = t_state t → runs (upd_cur f k) (f t).
Proof.
  intros [Ht Hr] Hs. split; [|congruence]. unfold upd_cur, upd. simpl.
  by rewrite list_lookup_alter_eq, Ht.
Qed.

(** C24: a caught signal interrupts and resumes.  Delivery enters the handler of
    the lowest caught pending signal with the signal number in [rdi], on a
    stack aligned for a call whose return address is the restorer, and takes
    that signal out of the pending set.  When the handler's task later calls
    [sigreturn], from whatever registers, it goes on at the interrupted
    instruction with the interrupted stack and flags and gets the result of the
    interrupted call. *)
Theorem signal_roundtrip f ret k t sig h f1 k1 :
  kernel_ok k → runs k t → t_ring t = RUser → saved (t_signals t) = None →
  next_deliverable (t_signals t) = Some (sig, h) → restorer (t_signals t) ≠ 0 →
  length f = 20%nat → deliver_pending_signals f ret k = (Ok f1, k1) →
  reg R_RIP f1 = h ∧ reg R_RDI f1 = sig ∧ reg R_RSP f1 mod 16 = 8 ∧
  poke64 (cpu_of k) (reg R_RSP f1) (restorer (t_signals t)) (k_env k) = Some (k_env k1) ∧
  ∃ t1, runs k1 t1 ∧
    (∀ j, is_pending j (t_signals t1) = is_pending j (t_signals t) && negb (sig =? j)) ∧
    ∀ g k2 t2, length g = 20%nat → runs k2 t2 → saved (t_signals t2) = saved (t_signals t1) →
      let p := do_sigreturn g k2 in
      p.1.1 = ret ∧
      (∀ j, reg j p.1.2 = if decide (j = R_RIP ∨ j = R_RFLAGS ∨ j = R_RSP) then reg j f else reg j g) ∧
      ∃ t3, runs p.2 t3 ∧ saved (t_signals t3) = None.
Proof.
  intros Hok Hr Hring Hsv Hnd Hrest Hlen. unfold deliver_pending_signals.
  pose proof (tr_signals _ _ (ko_tree k Hok) (t_id t) t (runs_find k t Hok Hr)) as [_ Hm _].
  pose proof (next_deliverable_Some _ _ _ Hnd) as (Hsig&_).
  destruct Hr as [Ht Hrun]. rewrite Ht, bool_decide_eq_false_2, Hnd by (rewrite Hsv; intros [?|[]]; done).
  destruct (Z.eqb_spec (restorer (t_signals t)) 0); [done|]. cbv zeta. unfold sbind, poked, smodify, sret.
  destruct (poke64 _ _ _ _) as [w|] eqn:Hpk; [|done]. intros [= <- <-].
  unfold R_RIP, R_RDI, R_RSP, R_RFLAGS in *.
  rewrite !reg_insert by (rewrite ?length_insert; lia). simpl.
  split_and!; [done|done|apply align16|done|].
  eexists. split; [apply upd_cur_runs; [by split|by destruct t]|]. split.
  - intros j. unfold NSIG in *. destruct t as [? ? ? ? ? ? ? ? ? ? ? ? ? ? sg ?]. cbn [t_signals with_signals] in *.
    rewrite is_pending_clear; [done|unfold NSIG; lia|exact Hm].
  - intros g k2 t2 Hg [Ht2 Hr2] Hs2. unfold do_sigreturn. rewrite Ht2. simpl.
    assert (saved (t_signals t2) = Some (SavedSigContext (reg 15 f) (reg 17 f) (reg 18 f) ret)) as ->.
    { rewrite Hs2. destruct t. simpl. unfold clear_pending. by case_match. }
    simpl. split; [done|]. split.
    + intros j. unfold R_RIP, R_RSP, R_RFLAGS. rewrite !reg_insert by (rewrite ?length_insert; lia).
      repeat case_decide; subst; tauto || done.
    + eexists. split; [apply upd_cur_runs; [by split|by destruct t2]|]. by destruct t2.
Qed.

(** signals stay in the family.  A user task that is not the reaper can
    change nothing by signalling a task that is neither itself nor one of its
    children: the call fails, or the target is already dead. *)
Theorem kill_confined pid sig k t r k' :
  kernel_ok k → runs k t → k_next_id k < 2 ^ 64 → t_ring t = RUser → pid ≠ t_id t →
  pid ∉ t_children t → init_task_id k ≠ Some (t_id t) → do_kill pid sig k = (r, k') →
  k' = k ∧ (r = Some u64_max ∨ ∃ u, find_task pid k = Some u ∧ t_state u = Dead).
Proof.
  intros Hok Hr Hn Hring Hne Hch Hinit. pose proof (runs_find k t Hok Hr) as Hft.
  unfold do_kill. destruct (NSIG <=? sig); [by intros [= <- <-]; auto|].
  destruct Hr as [Ht Hrun]. rewrite Ht. destruct (may_kill t pid k) eqn:Hmk; simpl;
    [|by intros [= <- <-]; auto].
  unfold may_kill in Hmk. rewrite Hring, (bool_decide_eq_false_2 (pid ∈ t_children t)) in Hmk by done.
  rewrite (bool_decide_eq_false_2 (RUser = RKernel)) in Hmk by done.
  assert (t_id t =? pid = false) as Hf1 by lia.
  assert (t_id t =? default u64_max (init_task_id k) = false) as Hf2.
  { apply Z.eqb_neq. destruct (init_task_id k) as [i|]; simpl; [congruence|].
    destruct (ko_cpu k Hok) as [_ Hfr _ _]. rewrite Forall_forall in Hfr.
    assert (t_id t ∈ ids k) as Hin.
    { apply list_elem_of_fmap. exists t. split; [done|]. by eapply list_elem_of_lookup_2. }
    specialize (Hfr _ Hin). unfold u64_max. lia. }
  rewrite Hf1, Hf2, orb_false_r in Hmk. simpl in Hmk.
  apply existsb_exists in Hmk as (u&Hu&Hb). apply andb_true_iff in Hb as [Hid Hp%bool_decide_eq_true_1].
  apply list_elem_of_In, list_elem_of_lookup_1 in Hu as [j Hj].
  pose proof (find_task_lookup k j u (kernel_ok_ids k Hok) Hj) as Hfu.
  replace (t_id u) with pid in Hfu by lia.
  assert (t_state u = Dead) as Hd.
  { destruct (decide (t_state u = Dead)); [done|]. exfalso. apply Hch.
    apply (tr_parent _ _ (ko_tree k Hok) (t_id t) t pid u); try done. congruence. }
  rewrite Hfu. cbv zeta. rewrite bool_decide_eq_true_2 by auto. intros [= <- <-]. eauto.
Qed.

(** [SIGKILL] cannot be stopped.  Whoever may signal another live task ends
    it with [SIGKILL], whatever handlers it installed: it becomes a zombie with
    status 137, and its children go to the reaper. *)
Theorem sigkill_unstoppable pid k t u :
  kernel_ok k → runs k t → may_kill t pid k = true → pid ≠ t_id t →
  find_task pid k = Some u → t_state u ≠ Zombie → t_state u ≠ Dead →
  let p := do_kill pid SIGKILL k in
  p.1 = Some 0 ∧
  (∃ u', find_task pid p.2 = Some u' ∧ t_state u' = Zombie ∧ t_exit_status u' = 137) ∧
  ∀ c v, c ∈ t_children u → find_task c k = Some v →
    ∃ v', find_task c p.2 = Some v' ∧ t_parent v' = init_task_id k.
Proof.
  intros Hok Hr Hmk Hne Hu Hz Hd p. pose proof (kernel_ok_ids k Hok) as Hnd.
  pose proof Hu as (i&Hidx&Hi&Hid)%find_task_Some.
  assert (p = (Some 0, end_task i 137 (cleanup_fds (wrap32 pid)) u k)) as ->.
  { unfold p, do_kill. change (NSIG <=? SIGKILL) with false. cbv iota.
    rewrite (proj1 Hr), Hmk, Hu. simpl. rewrite bool_decide_eq_false_2 by naive_solver.
    change (128 + SIGKILL) with 137. change (SIGKILL =? 0) with false.
    rewrite (terminate_other pid 137 k t Hr Hne), Hidx, Hi, bool_decide_eq_false_2 by naive_solver.
    done. }
  simpl. split; [done|].
  pose proof (λ x, end_task_view i 137 (cleanup_fds (wrap32 pid)) u k x Hnd Hi) as Hv.
  rewrite Hid in Hv. split.
  - eexists. rewrite Hv, Hu. split; [done|]. split; [apply exit_view_self|apply exit_view_status].
  - intros c v Hc Hcv. eexists. rewrite Hv, Hcv. split; [done|].
    by rewrite exit_view_parent, decide_True.
Qed.
(** C25: after a process was reaped the next one cannot be created.  Stacks of the
    kernel are handed out one behind the other (at most [2 ^ 29] of them, so that
    their addresses do not wrap around) since the id [d], when no guard page was
    mapped.  In any state reached from there, if the table holds a dead task - one
    that [wait] has collected -, creating a task picks its slot and drops its
    stack; the drop unmaps the stack's guard page first, which is not mapped, and
    the [expect] on that panics the kernel: spawning a kernel task panics, spawning
    a process panics unless it has failed before as there is no page table, and
    [fork] panics unless the copy of the address space has failed before. *)
Theorem slot_reuse_panics d k0 k :
  kernel_ok k0 → stacks_ok d k0 → kreach k0 k → 0 ≤ k_next_id k < 2 ^ 64 - 1 → k_next_id k - d < 2 ^ 29 →
  (∃ t, t ∈ k_tasks k ∧ t_state t = Dead) →
  (∀ name entry, (spawn_kernel_task name entry k).1 = Panic) ∧
  (∀ name entry top, match (spawn_user_from_entry name entry top k).1 with
                     | Panic => True | Err e => e = str "no user page table created" | _ => False
                     end) ∧
  (∀ f t cr3, runs k t → t_user_cr3 t = Some cr3 →
     (do_fork f k).1 = match (cow_fork (cpu_of k) cr3 (k_env k)).1 with
                       | Ok _ | Panic => Panic | Err e => Err e | Diverge => Diverge
                       end).
Proof.
  intros Hok Hst Hr Hn Hlim Hd.
  assert (full d k) as Hf by (split; [apply (stacks_ok_reach d k0); [done..|lia]|done|lia|done]).
  split_and!; [intros; by apply (full_spawn_kernel d)|intros; by apply (full_spawn_user d)|intros; by apply (full_fork d _ _ t)].
Qed.

End props.

(** ** Witnesses: a memory for the rest of the kernel; an idle task, a reaper,
    and a user process *)

Record world := World { w_mem : gmap Z Z; w_spaces : Z; w_closed : list Z }.

#[export] Instance test_task_env : TaskEnv world := {
  init_fds _ w := w;
  clone_fds _ _ w := w;
  cleanup_fds id w := World (w_mem w) (w_spaces w) (id :: w_closed w);
  drop_reply_slot _ w := w;
  drop_windows _ w := w;
  cow_fork _ _ w := (Ok (w_spaces w + 1), World (w_mem w) (w_spaces w + 1) (w_closed w));
  last_page_table w := Some (w_spaces w);
  load_program _ _ _ _ w := (Ok (4096, 8192), World (w_mem w) (w_spaces w + 1) (w_closed w));
  load_image _ _ _ _ w := (Ok (4096, 8192), World (w_mem w) (w_spaces w + 1) (w_closed w));
  take_frames _ w := Some w;
  poke64 _ a x w := Some (World (<[a := x]> (w_mem w)) (w_spaces w) (w_closed w));
  poke32 _ a x w := Some (World (<[a := x]> (w_mem w)) (w_spaces w) (w_closed w));
  user_cs := 35; user_ss := 27;
  task_trampoline := 1; fork_child_trampoline := 2; user_task_trampoline := 3;
}.

Abbreviation test_kernel := (kernel world).

Definition idle : task :=
  Task 0 (str "idle") 0 0 Running 0 [] RKernel None 0 None [] 0 false signals_new 0.

(** The idle task runs; the reaper and a user process are spawned, the reaper is
    registered, and two switches bring the user process to the CPU. *)
Definition k_idle : test_kernel :=
  Kernel [idle] 0 1 GUARDED_STACK_VIRT_BASE u64_max 0 0 (Some 100) 100 0 ∅ (World ∅ 200 []).
Definition k_reaper : test_kernel := (spawn_kernel_task (str "init") 77 k_idle).2.
Definition k_user : test_kernel :=
  (spawn_user_from_entry (str "sh") 4096 8192 (set_init_task 1 k_reaper)).2.
Definition k_sh : test_kernel := yield_now (yield_now k_user).

(** The process forks, the child is task 3; then the process waits, and the
    child runs. *)
Definition trap : frame := (λ i, 1000 + i) <$> seqZ 0 20.
Definition k_forked : test_kernel := (do_fork trap k_sh).2.
Definition k_waiting : test_kernel := (wait_round 0 k_forked).2.

Lemma k_idle_ok : kernel_ok k_idle.
Proof.
  assert (∀ x t, table_of k_idle x = Some t → x = 0 ∧ t = idle) as Ht.
  { intros x t. unfold table_of, find_task, index_of. simpl.
    destruct x; simpl; [by intros [= <-]|done|done]. }
  split; [split| |].
  - by apply NoDup_singleton.
  - by repeat constructor.
  - simpl. lia.
  - intros [|[|]] t; done.
  - split.
    + intros p t c [-> ->]%Ht _ Hc. by apply not_elem_of_nil in Hc.
    + intros p t c u [-> ->]%Ht [-> ->]%Ht; done.
    + intros p t c u [-> ->]%Ht [-> ->]%Ht; done.
    + intros p t [-> ->]%Ht. by split.
  - split; [|done]. intros x t p [-> ->]%Ht. done.
Qed.

(** A step is computed on the marks the CPU looks at. *)
Ltac running := split; [vm_compute; reflexivity|reflexivity].

(** A comparison of literals. *)
Ltac small := vm_compute; repeat split; intros Hc; discriminate Hc.

Definition cur_of (k : test_kernel) : task := default idle (k_tasks k !! k_current k).

Lemma k_user_reach : kreach k_idle k_user.
Proof.
  apply (rtc_l _ _ k_reaper).
  { apply (ks_spawn_kernel k_idle idle (str "init") 77 1); [running|small|].
    compute_run k_reaper. }
  apply (rtc_l _ _ (set_init_task 1 k_reaper)); [apply ks_init; [reflexivity|reflexivity|discriminate]|].
  apply (rtc_l _ _ k_user); [|apply rtc_refl].
  apply (ks_spawn_user _ idle (str "sh") 4096 8192 2); [running|small|]. compute_run k_user.
Qed.

Lemma k_sh_reach : kreach k_idle k_sh.
Proof.
  trans k_user; [apply k_user_reach|].
  apply (rtc_l _ _ (yield_now k_user)); [apply (ks_yield _ idle); [running|done]|].
  apply (rtc_l _ _ k_sh); [|apply rtc_refl].
  apply (ks_yield _ (cur_of (yield_now k_user))); [running|reflexivity].
Qed.

(** The process waits behind the reaper for its first turn; the reaper, when it
    runs, creates another task. *)
Definition k_grown : test_kernel := (spawn_kernel_task (str "late") 78 (yield_now k_user)).2.
Example schedule_fair_witness : (1 < length (k_tasks k_grown))%nat ∧ length (k_tasks k_grown) = S (length (k_tasks k_user)).
Proof.
  split; [|vm_compute; reflexivity].
  apply (schedule_fair 2 1 k_user k_grown); [|vm_compute; discriminate].
  apply (po_switch 2 0 k_user k_grown); [|..|apply po_none].
  - apply (kernel_ok_reach k_idle k_user k_idle_ok k_user_reach).
  - eexists. split; vm_compute; reflexivity.
  - vm_compute. discriminate.
  - vm_compute. discriminate.
  - vm_compute. reflexivity.
  - vm_compute. lia.
Defined.

Example process_tree_invariant_witness : kernel_ok k_sh.
Proof. exact (process_tree_invariant k_idle k_sh k_idle_ok k_sh_reach). Defined.

Lemma sh_runs : runs k_sh (cur_of k_sh).
Proof. running. Qed.
Lemma sh_ok : kernel_ok k_sh.
Proof. exact (kernel_ok_reach k_idle k_sh k_idle_ok k_sh_reach). Qed.
Lemma forked_run : do_fork trap k_sh = (Ok 3, k_forked).
Proof. compute_run k_forked. Qed.
Lemma forked_ok : kernel_ok k_forked.
Proof. apply (kernel_ok_fork trap k_sh (cur_of k_sh) 3 _ sh_ok sh_runs); [small|apply forked_run]. Qed.
Lemma forked_runs : runs k_forked (cur_of k_forked).
Proof. running. Qed.
Lemma waiting_ok : kernel_ok k_waiting.
Proof.
  apply (kernel_ok_wait_round 0 k_forked (cur_of k_forked) (Ok None)); [apply forked_ok|apply forked_runs|].
  compute_run k_waiting.
Qed.
Lemma child_runs : runs k_waiting (cur_of k_waiting).
Proof. running. Qed.

Definition parent_of : task := default idle (find_task 2 k_waiting).

Example fork_child_resumes_witness :
  find_task 3 k_sh = None ∧
  ∃ c, find_task 3 k_forked = Some c ∧ t_state c = Runnable ∧
    t_parent c = Some (t_id (cur_of k_sh)) ∧
    start (t_stack c) = Some (EnterUser None (Some (take 15 (<[R_RAX := 0]> trap))) (drop 15 trap)) ∧
    t_signals c = set_saved None (set_pending_mask 0 (t_signals (cur_of k_sh))) ∧
    find_task (t_id (cur_of k_sh)) k_forked =
      Some (with_children (λ l, l ++ [3]) (cur_of k_sh)).
Proof.
  apply (fork_child_resumes trap k_sh (cur_of k_sh) 3 k_forked sh_ok sh_runs).
  - vm_compute. intros Hc; discriminate Hc.
  - small.
  - reflexivity.
  - discriminate.
  - apply forked_run.
Defined.

Example wait_collects_witness :
  match wait_round 0 k_forked with
  | (Ok None, k') => t_children (cur_of k_forked) ≠ [] ∧ k' = schedule (upd_cur asleep k_forked)
  | _ => False
  end.
Proof.
  pose proof (wait_collects 0 k_forked (cur_of k_forked) forked_ok forked_runs) as Hw.
  assert ((wait_round 0 k_forked).1 = Ok None) as Hn by (vm_compute; reflexivity).
  destruct (wait_round 0 k_forked) as [[[r|]|e| |] k']; [discriminate Hn| |discriminate Hn..].
  destruct Hw as (Hc&_&Hk). exact (conj Hc Hk).
Defined.

(** The child 3 exits, the idle task and the reaper have a turn, then the parent
    2 runs and collects the child. *)
Definition k_back : test_kernel := yield_now (yield_now (do_exit 7 k_waiting)).
Lemma other_turn (k : test_kernel) : t_state (cur_of k) = Running → t_wait_blocked (cur_of k) = false →
  k_tasks k !! k_current k = Some (cur_of k) → t_id (cur_of k) ≠ 2 →
  (∀ t, find_task 2 (yield_now k) = Some t → t_state t ≠ Zombie) → elsewhere 2 k (yield_now k).
Proof.
  intros Hs Hw Hc Hne Hz. split; [by apply (ks_yield k (cur_of k))|]. split; [|done].
  intros t [Ht _]. congruence.
Qed.
Lemma parent_alive (k : test_kernel) : (t_state <$> find_task 2 k) ≠ Some Zombie →
  ∀ t, find_task 2 k = Some t → t_state t ≠ Zombie.
Proof. intros Hf t Ht Hz. apply Hf. by rewrite Ht, <-Hz. Qed.
Lemma turns_elsewhere : rtc (elsewhere 2) (do_exit 7 k_waiting) k_back.
Proof.
  unfold k_back. apply (rtc_l _ _ (yield_now (do_exit 7 k_waiting))); [|apply (rtc_l _ _ (yield_now (yield_now (do_exit 7 k_waiting))));
    [|apply rtc_refl]].
  - apply (other_turn (do_exit 7 k_waiting)); [vm_compute; reflexivity|vm_compute; reflexivity|vm_compute; reflexivity
    |vm_compute; intros Hc; discriminate Hc|apply parent_alive; vm_compute; intros Hc; discriminate Hc].
  - apply (other_turn (yield_now (do_exit 7 k_waiting))); [vm_compute; reflexivity|vm_compute; reflexivity|vm_compute; reflexivity
    |vm_compute; intros Hc; discriminate Hc|apply parent_alive; vm_compute; intros Hc; discriminate Hc].
Qed.

Example exit_wakes_waiter_witness :
  runs k_back (cur_of k_back) ∧ t_id (cur_of k_back) = 2 ∧
  ∃ r u, r ∈ t_children (cur_of k_back) ∧ find_task r k_back = Some u ∧ t_state u = Zombie ∧
    (wait_resume 0 k_back).1 = Ok (Some r).
Proof.
  assert (runs k_back (cur_of k_back)) as Hr by running.
  assert (find_task 2 k_back = Some (cur_of k_back)) as Hf by (vm_compute; reflexivity).
  split; [exact Hr|]. split; [vm_compute; reflexivity|].
  destruct (exit_wakes_waiter 7 k_waiting (cur_of k_waiting) 2 parent_of k_back waiting_ok child_runs) as (t'&c'&Ht&_&_&_&_&_&Hw).
  1-4: vm_compute; reflexivity.
  - exact turns_elsewhere.
  - rewrite Hf in Ht. apply (inj Some) in Ht. subst t'. destruct (Hw 0 Hr) as (r&u&H1&H2&H3&H4).
    exists r, u. split; [exact H1|]. split; [exact H2|]. split; [exact H3|]. exact H4.
Defined.

(** The parent collects its child; then it forks again. *)
Definition k_reaped : test_kernel := (wait_resume 0 k_back).2.
Lemma idle_stacks : stacks_ok 1 k_idle.
Proof.
  split; [done|reflexivity| |].
  - intros t ->%list_elem_of_singleton. by left.
  - intros p Hp. by apply elem_of_empty in Hp.
Qed.
Lemma reaped_reach : kreach k_idle k_reaped.
Proof.
  trans k_sh; [exact k_sh_reach|].
  apply (rtc_l _ _ k_forked); [apply (ks_fork k_sh (cur_of k_sh) trap 3); [running|reflexivity|small|exact forked_run]|].
  apply (rtc_l _ _ k_waiting); [apply (ks_wait k_forked (cur_of k_forked) 0 (Ok None)); [running|reflexivity|compute_run k_waiting]|].
  apply (rtc_l _ _ (do_exit 7 k_waiting)); [apply (ks_exit k_waiting (cur_of k_waiting) 7); [running|reflexivity]|].
  trans k_back.
  - eapply (rtc_subrel (elsewhere 2)); [intros k k' Hs; exact (proj1 Hs)|exact turns_elsewhere].
  - apply (rtc_l _ _ k_reaped); [|apply rtc_refl].
    apply (ks_wait_resume k_back (cur_of k_back) 0 (Ok (Some 3))); [running|vm_compute; reflexivity|compute_run k_reaped].
Qed.

Example slot_reuse_panics_witness :
  (spawn_kernel_task (str "late") 78 k_reaped).1 = Panic ∧ (do_fork trap k_reaped).1 = Panic.
Proof.
  destruct (slot_reuse_panics 1 k_idle k_reaped k_idle_ok idle_stacks reaped_reach) as (H1&_&H3).
  - small.
  - vm_compute. reflexivity.
  - exists (default idle (k_tasks k_reaped !! 3%nat)). split; [|vm_compute; reflexivity].
    apply (list_elem_of_lookup_2 _ 3). vm_compute. reflexivity.
  - split; [apply H1|].
    assert (runs k_reaped (cur_of k_reaped)) as Hr by running.
    rewrite (H3 trap (cur_of k_reaped) 200 Hr ltac:(vm_compute; reflexivity)). vm_compute. reflexivity.
Defined.

(** Task 2 has a handler at 5000 for [SIGINT], which is pending. *)
Definition k_caught : test_kernel :=
  (do_kill 2 2 (do_signal 2 5000 6000 k_sh).2).2.
Lemma caught_ok : kernel_ok k_caught.
Proof.
  assert (kernel_ok (do_signal 2 5000 6000 k_sh).2) as H1.
  { eapply (kernel_ok_signal 2 5000 6000 k_sh (cur_of k_sh)); [done|apply sh_ok|apply sh_runs|].
    apply surjective_pairing. }
  eapply (kernel_ok_kill 2 2 _ (cur_of (do_signal 2 5000 6000 k_sh).2)); [done|exact H1|running|].
  apply surjective_pairing.
Qed.
Lemma caught_runs : runs k_caught (cur_of k_caught).
Proof. running. Qed.

Example signal_roundtrip_witness :
  let f1 := outcome_or [] (deliver_pending_signals trap 42 k_caught).1 in
  let k1 := (deliver_pending_signals trap 42 k_caught).2 in
  reg R_RIP f1 = 5000 ∧ reg R_RDI f1 = 2 ∧ reg R_RSP f1 mod 16 = 8 ∧
  poke64 (cpu_of k_caught) (reg R_RSP f1) 6000 (k_env k_caught) = Some (k_env k1).
Proof.
  intros f1 k1. assert (deliver_pending_signals trap 42 k_caught = (Ok f1, k1)) as Hrun by (vm_compute; reflexivity).
  assert (next_deliverable (t_signals (cur_of k_caught)) = Some (2, 5000)) as Hn by (vm_compute; reflexivity).
  assert (restorer (t_signals (cur_of k_caught)) = 6000) as Hr by (vm_compute; reflexivity).
  pose proof (signal_roundtrip trap 42 k_caught (cur_of k_caught) 2 5000 f1 k1 caught_ok caught_runs
    ltac:(vm_compute; reflexivity) ltac:(vm_compute; reflexivity) Hn
    ltac:(rewrite Hr; discriminate) ltac:(reflexivity) Hrun) as (H1&H2&H3&H4&_).
  rewrite Hr in H4. exact (conj H1 (conj H2 (conj H3 H4))).
Defined.

(** The user process 2 against the reaper. *)
Example kill_confined_witness :
  (do_kill 1 9 k_sh).2 = k_sh ∧
  ((do_kill 1 9 k_sh).1 = Some u64_max ∨ ∃ u, find_task 1 k_sh = Some u ∧ t_state u = Dead).
Proof.
  apply (kill_confined 1 9 k_sh (cur_of k_sh) (do_kill 1 9 k_sh).1 (do_kill 1 9 k_sh).2 sh_ok sh_runs).
  - vm_compute. reflexivity.
  - vm_compute. reflexivity.
  - vm_compute. intros Hc; discriminate Hc.
  - assert (t_children (cur_of k_sh) = []) as Hc by (vm_compute; reflexivity).
    rewrite Hc. apply not_elem_of_nil.
  - vm_compute. intros Hc; discriminate Hc.
  - apply surjective_pairing.
Defined.

(** The parent 2 kills its child 3. *)
Definition child_of : task := default idle (find_task 3 k_forked).
Example sigkill_unstoppable_witness :
  (do_kill 3 SIGKILL k_forked).1 = Some 0 ∧
  ∃ u', find_task 3 (do_kill 3 SIGKILL k_forked).2 = Some u' ∧ t_state u' = Zombie ∧
    t_exit_status u' = 137.
Proof.
  destruct (sigkill_unstoppable 3 k_forked (cur_of k_forked) child_of forked_ok forked_runs)
    as (H1&H2&_); [vm_compute; reflexivity|vm_compute; intros Hc; discriminate Hc
    |vm_compute; reflexivity|vm_compute; intros Hc; discriminate Hc
    |vm_compute; intros Hc; discriminate Hc|].
  exact (conj H1 H2).
Defined.

(** ** Concrete runs *)

(** The child of a [fork] starts its [mmap] addresses afresh, although it shares
    the mappings its parent made there. *)
Example fork_forgets_mmap_pointer (t : task) id cr3 stk f :
  t_mmap_next (child_task t id cr3 stk f) = USER_HEAP_START.
Proof. reflexivity. Qed.

(** [SIGSTOP] can be caught, and by default it does nothing. *)
Example sigstop_is_catchable :
  (do_signal SIGSTOP 5000 6000 k_sh).1 = SIG_DFL ∧
  handler_of SIGSTOP (t_signals (cur_of (do_signal SIGSTOP 5000 6000 k_sh).2)) = 5000 ∧
  default_terminates SIGSTOP = false.
Proof. vm_compute. auto. Qed.

(** [sigreturn] does not restore [rdi], which delivery overwrote with the signal
    number. *)
Example sigreturn_loses_rdi :
  let p := deliver_pending_signals trap 42 k_caught in
  reg R_RDI trap = 1013 ∧ reg R_RDI (do_sigreturn (outcome_or [] p.1) p.2).1.2 = 2.
Proof. vm_compute. auto. Qed.

(** Delivery writes the restorer through the user's stack pointer, wherever it
    points: here into kernel memory. *)
Example delivery_writes_kernel_memory :
  let f := <[R_RSP := GUARDED_STACK_VIRT_BASE + 4096]> trap in
  w_mem (k_env (deliver_pending_signals f 42 k_caught).2) !! (GUARDED_STACK_VIRT_BASE + 4088) =
    Some 6000.
Proof. vm_compute. reflexivity. Qed.
