(* ===== verification/Ipc.v ===== *)
(** * Message passing (ipc.rs)

    Endpoints with their queues and waiters, well-known names and reply slots.
    The two spin locks involved, the scheduler's and the IPC state's, are part
    of the model: [scheduler_with] and [with_state] spin for ever when their lock
    is already held, as a [spin::Mutex] does on the one CPU with interrupts off.
    [receive] is the loop of the source with fuel. *)
From S2P Require Import Prelude Signal Task TaskSpec TaskTree TaskSteps TaskRun.

(** [ipc.rs:31-38, Message] *)
Record message := Message { m_tag : Z; m_words : list Z; m_sender : Z }.
#[export] Instance message_eq_dec : EqDecision message.
Proof. solve_decision. Defined.

(** [ipc.rs:42-48, !Message::new] *)
Definition msg_new (tag : Z) : message := Message tag (replicate 6 0) 0.
(** [ipc.rs:60-66, !Message::with_words] *)
Definition msg_with_words (tag : Z) (words : list Z) : message := Message tag words 0.
Definition from_sender (id : Z) (m : message) : message := Message (m_tag m) (m_words m) id.

(** [ipc.rs:70-73, Endpoint] *)
Record endpoint := Endpoint { e_queue : list message; e_waiters : list Z }.
(** [ipc.rs:76-81, !Endpoint::new] *)
Definition endpoint_new : endpoint := Endpoint [] [].

(** [ipc.rs:85-90, IpcState]: with [NEXT_EP]. *)
Record ipc := Ipc {
  i_eps : gmap Z endpoint; i_names : gmap bytes Z; i_replies : gmap Z (option message);
  i_next : Z }.

(** [ipc.rs:96-102, !init] *)
Definition ipc_init : ipc := Ipc ∅ ∅ ∅ 1.

Definition set_eps (e : gmap Z endpoint) (s : ipc) : ipc :=
  Ipc e (i_names s) (i_replies s) (i_next s).
Definition set_replies (r : gmap Z (option message)) (s : ipc) : ipc :=
  Ipc (i_eps s) (i_names s) r (i_next s).

(** [ipc.rs:116-122, create_endpoint] *)
Definition create_endpoint (s : ipc) : Z * ipc :=
  (i_next s, Ipc (<[i_next s := endpoint_new]> (i_eps s)) (i_names s) (i_replies s)
    (wrap64 (i_next s + 1))).

(** [ipc.rs:126-136, create_named_endpoint] *)
Definition create_named_endpoint (name : bytes) (s : ipc) : Z * ipc :=
  match i_names s !! name with
  | Some id => (id, s)
  | None =>
      (i_next s, Ipc (<[i_next s := endpoint_new]> (i_eps s)) (<[name := i_next s]> (i_names s))
        (i_replies s) (wrap64 (i_next s + 1)))
  end.

(** [ipc.rs:139-141, lookup] *)
Definition lookup_name (name : bytes) (s : ipc) : option Z := i_names s !! name.

(** [ipc.rs:290-294, cleanup_reply_slot] *)
Definition cleanup_reply_slot (id : Z) (s : ipc) : ipc := set_replies (delete id (i_replies s)) s.

(** A message goes to the end of the queue, and the first waiter comes out. *)
Definition enqueue (ep : Z) (m : message) (s : ipc) : option Z * ipc :=
  match i_eps s !! ep with
  | Some e => (head (e_waiters e),
      set_eps (<[ep := Endpoint (e_queue e ++ [m]) (tail (e_waiters e))]> (i_eps s)) s)
  | None => (None, s)
  end.

(** [endpoint.queue.pop_front()] *)
Definition dequeue (ep : Z) (s : ipc) : option message * ipc :=
  match i_eps s !! ep with
  | Some e =>
      match e_queue e with
      | m :: q => (Some m, set_eps (<[ep := Endpoint q (e_waiters e)]> (i_eps s)) s)
      | [] => (None, s)
      end
  | None => (None, s)
  end.

(** The slow path of [receive]: look again, or register behind the other
    waiters. *)
Definition register (ep me : Z) (s : ipc) : ipc :=
  match i_eps s !! ep with
  | Some e =>
      match e_queue e with
      | m :: q =>
          set_replies (<[me := Some m]> (i_replies s))
            (set_eps (<[ep := Endpoint q (e_waiters e)]> (i_eps s)) s)
      | [] => set_eps (<[ep := Endpoint [] (filter (λ w, w ≠ me) (e_waiters e) ++ [me])]> (i_eps s)) s
      end
  | None => s
  end.

(** The rest of the kernel holds the IPC state. *)
Class IpcEnv (W : Type) := {
  ipc_of : W → ipc;
  put_ipc : ipc → W → W;
  ipc_of_put : ∀ s w, ipc_of (put_ipc s w) = s }.

(** The locks a call holds when it reaches a function. *)
Record locks := Locks { l_sched : bool; l_ipc : bool }.
Definition no_locks : locks := Locks false false.

Section ipc.
Context {W : Type} `{TaskEnv W} `{!IpcEnv W}.
Implicit Types k : kernel W.

(** A function of the kernel that takes locks; it has no error results. *)
Abbreviation lop A := (locks → stm (kernel W) Empty_set A).

(** [task.rs:1361-1367, scheduler::with] *)
Definition scheduler_with {A} (f : lop A) : lop A := λ l k,
  if l_sched l then (Diverge, k) else f (Locks true (l_ipc l)) k.

(** [ipc.rs:104-113, with_state] *)
Definition with_state {A} (f : lop (ipc → A * ipc)) : lop A := λ l k,
  if l_ipc l then (Diverge, k) else
  (let! g := f (Locks (l_sched l) true) in
   λ k, let p := g (ipc_of (k_env k)) in (Ok p.1, map_env (put_ipc p.2) k)) k.

(** A section that calls nothing that locks. *)
Definition section {A} (g : ipc → A * ipc) : lop A := with_state (λ _, sret g).

Definition lcurrent_id : lop Z :=
  scheduler_with (λ _ k, (or_panic (current_id k), k)).
Definition lunblock (id : Z) : lop unit := scheduler_with (λ _, smodify (unblock id)).
Definition wake (woke : option Z) : lop unit := λ l,
  match woke with Some w => lunblock w l | None => sret tt end.
Definition lschedule : lop unit := scheduler_with (λ _, smodify schedule).

(** [ipc.rs:145-164, send] *)
Definition send (ep : Z) (m : message) : lop unit := λ l,
  let! id := lcurrent_id l in
  let! woke := section (enqueue ep (from_sender id m)) l in
  wake woke l.

(** [ipc.rs:206-216, !receive, blocking]: inside the closure of [scheduler::with]
    the id of the current task is asked for again, under the IPC lock. *)
Definition recv_block : lop bool :=
  scheduler_with (λ l,
    let! has_reply := with_state (λ l,
      let! id := lcurrent_id l in
      sret (λ s, (match i_replies s !! id with Some (Some _) => true | _ => false end,
                  set_replies (delete id (i_replies s)) s))) l in
    if has_reply : bool then sret false
    else λ k, (Ok true, upd_cur (Task.with_state Blocked) k)).

(** [ipc.rs:167-222, receive] *)
Fixpoint receive (fuel : nat) (ep : Z) : lop message := λ l,
  match fuel with
  | O => λ k, (Diverge, k)
  | S fuel =>
      let! popped := section (dequeue ep) l in
      match popped with
      | Some m => sret m
      | None =>
          let! id := lcurrent_id l in
          let! _ := section (λ s, (tt, register ep id s)) l in
          let! should_loop := recv_block l in
          let! _ := if should_loop : bool then lschedule l else sret tt in
          receive fuel ep l
      end
  end.

(** [ipc.rs:227-244, !call, the request] *)
Definition call_post (ep : Z) (m : message) : lop Z := λ l,
  let! id := lcurrent_id l in
  let! woke := section (λ s,
    enqueue ep (from_sender id m) (set_replies (<[id := None]> (i_replies s)) s)) l in
  let! _ := wake woke l in
  sret id.
(** [ipc.rs:251-266, !call, the look for the reply and the deadline]: [None]: go
    on waiting. *)
Definition call_poll (id deadline : Z) : lop (option (option message)) := λ l,
  let! reply := section (λ s,
    match i_replies s !! id with
    | Some (Some r) => (Some r, set_replies (delete id (i_replies s)) s)
    | _ => (None, s)
    end) l in
  match reply with
  | Some r => sret (Some (Some r))
  | None => λ k,
      if deadline <=? k_ticks k
      then (let! _ := section (λ s, (tt, cleanup_reply_slot id s)) l in sret (Some None)) k
      else (Ok None, k)
  end.
(** [ipc.rs:247-247, !call, the deadline] *)
Definition call_deadline k : Z := wrap64 (k_ticks k + 500).
(** [ipc.rs:271-277, !call, blocking]: interrupts are on before and during it, so
    other tasks can run between [call_poll] and [call_block]. *)
Definition call_block : lop unit := λ l,
  let! _ := scheduler_with (λ _, smodify (upd_cur (Task.with_state Blocked))) l in
  lschedule l.

(** [ipc.rs:298-314, reply] *)
Definition reply (original r : message) : lop unit := λ l,
  let! id := lcurrent_id l in
  let! should_wake := section (λ s,
    match i_replies s !! m_sender original with
    | Some _ => (true, set_replies (<[m_sender original := Some (from_sender id r)]> (i_replies s)) s)
    | None => (false, s)
    end) l in
  if should_wake : bool then lunblock (m_sender original) l else sret tt.

(** ** The queues *)

Definition eps_of k : gmap Z endpoint := i_eps (ipc_of (k_env k)).
Definition queue_of (ep : Z) k : list message := default [] (e_queue <$> eps_of k !! ep).
End ipc.
