(* ===== verification/IpcProps.v ===== *)
(** * Theorems about message passing *)
From S2P Require Import Prelude Signal Task TaskSpec TaskTree TaskSteps TaskRun TaskProps Ipc.

Section props.
Context {W : Type} `{TaskEnv W} `{!IpcEnv W}.
Implicit Types k : kernel W.
Implicit Types t : task.

Lemma section_run {A} (g : ipc → A * ipc) k :
  section g no_locks k =
    (Ok (g (ipc_of (k_env k))).1, map_env (put_ipc (g (ipc_of (k_env k))).2) k).
Proof. done. Qed.

Lemma lcurrent_id_run k t :
  k_tasks k !! k_current k = Some t → lcurrent_id no_locks k = (Ok (t_id t), k).
Proof. intros Ht. unfold lcurrent_id, scheduler_with, current_id. simpl. by rewrite Ht. Qed.

Lemma eps_put s k : eps_of (map_env (put_ipc s) k) = i_eps s.
Proof. unfold eps_of. simpl. by rewrite ipc_of_put. Qed.

(** The closure that decides whether to sleep asks for the current task's id
    while it holds the scheduler's lock. *)
Lemma recv_block_hangs k : (recv_block no_locks k).1 = Diverge.
Proof. done. Qed.

Lemma receive_some fuel ep k m q :
  queue_of ep k = m :: q →
  ∃ e, eps_of k !! ep = Some e ∧
    receive (S fuel) ep no_locks k = (Ok m, map_env (put_ipc
      (set_eps (<[ep := Endpoint q (e_waiters e)]> (eps_of k)) (ipc_of (k_env k)))) k).
Proof.
  unfold queue_of. destruct (eps_of k !! ep) as [e|] eqn:He; [|done]. simpl. intros Hq.
  exists e. split; [done|]. cbn [receive]. rewrite (sbind_Ok _ _ _ _ _ (section_run _ k)).
  unfold eps_of in He. unfold dequeue. rewrite He, Hq. done.
Qed.

Lemma receive_empty fuel ep k t :
  k_tasks k !! k_current k = Some t → queue_of ep k = [] →
  (receive (S fuel) ep no_locks k).1 = Diverge.
Proof.
  intros Ht Hq. cbn [receive]. rewrite (sbind_Ok _ _ _ _ _ (section_run _ k)).
  assert ((dequeue ep (ipc_of (k_env k))).1 = None) as ->.
  { unfold dequeue, queue_of, eps_of in *. destruct (i_eps _ !! ep) as [e|]; [|done].
    simpl in Hq. by rewrite Hq. }
  set (k1 := map_env _ k). assert (k_tasks k1 !! k_current k1 = Some t) as Ht1 by done.
  by rewrite (sbind_Ok _ _ _ _ _ (lcurrent_id_run k1 t Ht1)).
Qed.

(** C22: what [receive] does.  With a message queued it takes the oldest one, in
    bounded time and touching nothing else.  With none it never returns: it
    takes the scheduler's lock, and under it calls [current_id], which takes the
    same lock; on one CPU with interrupts off the kernel hangs there. *)
Theorem receive_spec fuel ep k t :
  (0 < fuel)%nat → k_tasks k !! k_current k = Some t →
  match queue_of ep k with
  | m :: q =>
      ∃ k', receive fuel ep no_locks k = (Ok m, k') ∧ queue_of ep k' = q ∧
        (∀ ep', ep' ≠ ep → queue_of ep' k' = queue_of ep' k) ∧ k_tasks k' = k_tasks k
  | [] => (receive fuel ep no_locks k).1 = Diverge
  end.
Proof.
  intros Hfuel Ht. destruct fuel as [|fuel]; [lia|]. destruct (queue_of ep k) as [|m q] eqn:Hq.
  - by apply (receive_empty fuel ep k t).
  - destruct (receive_some fuel ep k m q Hq) as (e&He&->). eexists. split; [done|].
    unfold queue_of at 1 2. rewrite eps_put. simpl. rewrite lookup_insert_eq.
    split; [done|]. split; [|done]. intros ep' Hne. by rewrite lookup_insert_ne.
Qed.

(** ** Runs *)

Inductive ipc_io : Type := Quiet | Sent (ep : Z) (m : message) | Got (ep : Z) (m : message).
Definition sent_to (ep : Z) (tr : list ipc_io) : list message :=
  tr ≫= λ io, match io with Sent e m => if decide (e = ep) then [m] else [] | _ => [] end.
Definition got_from (ep : Z) (tr : list ipc_io) : list message :=
  tr ≫= λ io, match io with Got e m => if decide (e = ep) then [m] else [] | _ => [] end.

(** The calls of the running task, in any interleaving; [is_quiet] is everything
    that leaves the endpoints alone, task switches included. *)
Inductive ipc_step : kernel W → ipc_io → kernel W → Prop :=
| is_send k t ep m k' :
    runs k t → is_Some (eps_of k !! ep) → send ep m no_locks k = (Ok tt, k') →
    ipc_step k (Sent ep (from_sender (t_id t) m)) k'
| is_call k t ep m id k' :
    runs k t → is_Some (eps_of k !! ep) → call_post ep m no_locks k = (Ok id, k') →
    ipc_step k (Sent ep (from_sender (t_id t) m)) k'
| is_receive k t fuel ep m k' :
    runs k t → (0 < fuel)%nat → receive fuel ep no_locks k = (Ok m, k') → ipc_step k (Got ep m) k'
| is_poll k id deadline r k' : call_poll id deadline no_locks k = (r, k') → ipc_step k Quiet k'
| is_reply k original r o k' : reply original r no_locks k = (o, k') → ipc_step k Quiet k'
| is_create k : 
    eps_of k !! i_next (ipc_of (k_env k)) = None →
    ipc_step k Quiet (map_env (λ w, put_ipc (create_endpoint (ipc_of w)).2 w) k)
| is_create_named k name :
    eps_of k !! i_next (ipc_of (k_env k)) = None →
    ipc_step k Quiet (map_env (λ w, put_ipc (create_named_endpoint name (ipc_of w)).2 w) k)
| is_quiet k k' : eps_of k' = eps_of k → ipc_step k Quiet k'.

Inductive ipc_run : kernel W → list ipc_io → kernel W → Prop :=
| ir_nil k : ipc_run k [] k
| ir_cons k io k1 tr k2 : ipc_step k io k1 → ipc_run k1 tr k2 → ipc_run k (io :: tr) k2.

Lemma eps_unblock w k : eps_of (unblock w k) = eps_of k.
Proof. unfold unblock, upd_id. by case_match. Qed.

Lemma wake_eps w k r k' : wake w no_locks k = (r, k') → eps_of k' = eps_of k.
Proof.
  unfold wake. destruct w as [w|]; [|by intros [= _ <-]].
  unfold lunblock, scheduler_with. simpl. intros [= _ <-]. apply eps_unblock.
Qed.

Lemma enqueue_eps ep m s :
  is_Some (i_eps s !! ep) →
  ∃ e, i_eps s !! ep = Some e ∧
    i_eps (enqueue ep m s).2 = <[ep := Endpoint (e_queue e ++ [m]) (tail (e_waiters e))]> (i_eps s).
Proof. intros [e He]. exists e. unfold enqueue. by rewrite He. Qed.

Lemma queue_enqueued ep ep' m s k k' :
  eps_of k = i_eps s → is_Some (i_eps s !! ep) → eps_of k' = i_eps (enqueue ep m s).2 →
  queue_of ep' k' = queue_of ep' k ++ (if decide (ep = ep') then [m] else []).
Proof.
  intros Hs Hep He. destruct (enqueue_eps ep m s Hep) as (e&Hee&Hen).
  unfold queue_of. rewrite He, Hen, Hs. case_decide; [subst ep'|].
  - by rewrite lookup_insert_eq, Hee.
  - by rewrite lookup_insert_ne, app_nil_r.
Qed.

Lemma queue_created s ep k k' id :
  ipc_of (k_env k) = s → i_eps s !! id = None → eps_of k' = <[id := endpoint_new]> (i_eps s) →
  queue_of ep k' = queue_of ep k.
Proof.
  intros Hs Hn He. unfold queue_of. rewrite He. unfold eps_of. rewrite Hs.
  destruct (decide (ep = id)) as [->|].
  - by rewrite lookup_insert_eq, Hn.
  - by rewrite lookup_insert_ne.
Qed.

Lemma reply_eps o r x k k' : reply o r no_locks k = (x, k') → eps_of k' = eps_of k.
Proof.
  unfold reply, sbind, lcurrent_id, scheduler_with. simpl.
  destruct (current_id k); simpl; [|by intros [= _ <-]].
  destruct (i_replies _ !! m_sender o); simpl.
  - unfold lunblock, scheduler_with. simpl. intros [= _ <-]. rewrite eps_unblock. apply eps_put.
  - intros [= _ <-]. apply eps_put.
Qed.

Lemma poll_eps id dl r k k' : call_poll id dl no_locks k = (r, k') → eps_of k' = eps_of k.
Proof.
  unfold call_poll. rewrite (sbind_Ok _ _ _ _ _ (section_run _ k)).
  destruct (i_replies _ !! id) as [[m|]|]; simpl; [intros [= _ <-]; apply eps_put|..];
    (case_match; intros [= _ <-]; [rewrite eps_put; simpl; rewrite ipc_of_put|rewrite eps_put]; done).
Qed.

Lemma queue_same k k' ep : eps_of k' = eps_of k → queue_of ep k = queue_of ep k'.
Proof. intros He. unfold queue_of. by rewrite He. Qed.

(** What one step does to a queue. *)
Lemma ipc_step_queue k io k' ep :
  ipc_step k io k' → queue_of ep k ++ sent_to ep [io] = got_from ep [io] ++ queue_of ep k'.
Proof.
  intros Hs. destruct Hs as [k t e m k' Hr He Hc|k t e m id k' Hr He Hc|k t fuel e m k' Hr Hf Hc
    |k id dl r k' Hc|k o r x k' Hc|k Hn|k nm Hn|k k' He];
    unfold sent_to, got_from; simpl; rewrite ?app_nil_r.
  - destruct Hr as [Ht _]. unfold send in Hc. rewrite (sbind_Ok _ _ _ _ _ (lcurrent_id_run k t Ht)) in Hc.
    rewrite (sbind_Ok _ _ _ _ _ (section_run _ k)) in Hc. apply wake_eps in Hc. rewrite eps_put in Hc.
    symmetry. by apply (queue_enqueued e ep _ (ipc_of (k_env k))).
  - destruct Hr as [Ht _]. unfold call_post in Hc.
    rewrite (sbind_Ok _ _ _ _ _ (lcurrent_id_run k t Ht)) in Hc.
    rewrite (sbind_Ok _ _ _ _ _ (section_run _ k)) in Hc.
    apply sbind_Ok_inv in Hc as ([]&k1&Hw&[= _ <-]). apply wake_eps in Hw. rewrite eps_put in Hw.
    symmetry. by apply (queue_enqueued e ep _
      (set_replies (<[t_id t := None]> (i_replies (ipc_of (k_env k)))) (ipc_of (k_env k)))).
  - destruct fuel as [|fuel]; [lia|]. destruct (queue_of e k) as [|m' q] eqn:Hq.
    { pose proof (receive_empty fuel e k t (proj1 Hr) Hq) as Hd. by rewrite Hc in Hd. }
    destruct (receive_some fuel e k m' q Hq) as (en&He&Hrun). rewrite Hrun in Hc.
    injection Hc as -> <-. case_decide as Hd; [subst ep|].
    + rewrite Hq. unfold queue_of. rewrite eps_put. simpl. by rewrite lookup_insert_eq.
    + unfold queue_of. rewrite eps_put. simpl. by rewrite lookup_insert_ne.
  - apply queue_same. by apply poll_eps in Hc.
  - apply queue_same. by apply reply_eps in Hc.
  - symmetry. eapply queue_created; [done|exact Hn|]. apply (eps_put (create_endpoint _).2 k).
  - set (s := ipc_of (k_env k)) in *.
    change (map_env _ k) with (map_env (put_ipc (create_named_endpoint nm s).2) k).
    unfold create_named_endpoint. destruct (i_names s !! nm).
    + apply queue_same, eps_put.
    + symmetry. eapply queue_created; [done|exact Hn|]. apply eps_put.
  - by apply queue_same.
Qed.

Lemma sent_to_app ep tr tr' : sent_to ep (tr ++ tr') = sent_to ep tr ++ sent_to ep tr'.
Proof. apply bind_app. Qed.
Lemma got_from_app ep tr tr' : got_from ep (tr ++ tr') = got_from ep tr ++ got_from ep tr'.
Proof. apply bind_app. Qed.

(** C23: no message is lost, invented, reordered or misattributed.  Whatever
    the tasks do, the messages received from an endpoint followed by those still
    queued are those that were queued followed by those sent to it, in order, and
    each carries the id of the task that sent it. *)
Theorem ipc_fifo k tr k' ep :
  ipc_run k tr k' → queue_of ep k ++ sent_to ep tr = got_from ep tr ++ queue_of ep k'.
Proof.
  induction 1 as [k|k io k1 tr k2 Hs Hr IH]; [by rewrite app_nil_r|].
  change (io :: tr) with ([io] ++ tr). rewrite sent_to_app, got_from_app.
  rewrite (assoc_L (++)), (ipc_step_queue k io k1 ep Hs), <-!(assoc_L (++)). by rewrite IH.
Qed.

(** ** Calls *)

Definition replies_of k : gmap Z (option message) := i_replies (ipc_of (k_env k)).

Lemma ipc_unblock w k : ipc_of (k_env (unblock w k)) = ipc_of (k_env k).
Proof. unfold unblock, upd_id. by case_match. Qed.

Lemma wake_ipc w k r k' : wake w no_locks k = (r, k') → ipc_of (k_env k') = ipc_of (k_env k).
Proof.
  unfold wake. destruct w as [w|]; [|by intros [= _ <-]].
  unfold lunblock, scheduler_with. simpl. intros [= _ <-]. apply ipc_unblock.
Qed.

(** [call] leaves an open reply slot and the request in the queue. *)
Lemma call_post_run ep m k t id k' :
  runs k t → is_Some (eps_of k !! ep) → call_post ep m no_locks k = (Ok id, k') →
  id = t_id t ∧ replies_of k' = <[id := None]> (replies_of k) ∧
  queue_of ep k' = queue_of ep k ++ [from_sender id m].
Proof.
  intros [Ht _] He. unfold call_post. rewrite (sbind_Ok _ _ _ _ _ (lcurrent_id_run k t Ht)).
  rewrite (sbind_Ok _ _ _ _ _ (section_run _ k)).
  intros (?&k1&Hw&[= <- <-])%sbind_Ok_inv. split; [done|].
  pose proof (wake_eps _ _ _ _ Hw) as Hwe. apply wake_ipc in Hw.
  set (s := set_replies (<[t_id t := None]> (i_replies (ipc_of (k_env k)))) (ipc_of (k_env k))) in *.
  split.
  - unfold replies_of. rewrite Hw. simpl. rewrite ipc_of_put. unfold enqueue. by case_match.
  - rewrite eps_put in Hwe. rewrite (queue_enqueued ep ep _ s k k1 eq_refl He Hwe).
    by rewrite decide_True.
Qed.

(** [reply] fills an open slot and wakes the caller. *)
Lemma reply_run original r k t o k' :
  runs k t → is_Some (replies_of k !! m_sender original) → reply original r no_locks k = (o, k') →
  o = Ok tt ∧ k_tasks k' = k_tasks (unblock (m_sender original) k) ∧
  replies_of k' = <[m_sender original := Some (from_sender (t_id t) r)]> (replies_of k).
Proof.
  intros [Ht _] [x Hx]. unfold reply. rewrite (sbind_Ok _ _ _ _ _ (lcurrent_id_run k t Ht)).
  rewrite (sbind_Ok _ _ _ _ _ (section_run _ k)). unfold replies_of in Hx. rewrite Hx.
  unfold lunblock, scheduler_with, smodify. simpl. intros [= <- <-].
  split; [done|]. split.
  - unfold unblock, upd_id. change (index_of ?i (map_env ?f k)) with (index_of i k). by case_match.
  - unfold replies_of. rewrite ipc_unblock. simpl. by rewrite ipc_of_put.
Qed.

(** a remote call round-trips.  A caller posts a request to an endpoint
    whose queue is empty; a server then receives exactly that request, marked
    with the caller's id, and replies; the reply wakes the caller if it sleeps,
    and the caller's next look at its slot yields the server's reply, marked with
    the server's id - also when the deadline has passed - and closes the slot.
    Between the four moments other tasks may run, as long as they leave the
    endpoints and the slots alone. *)
Theorem rpc_roundtrip ep m id k k1 c k2 s r k3 deadline k4 :
  runs k c → is_Some (eps_of k !! ep) → queue_of ep k = [] →
  call_post ep m no_locks k = (Ok id, k1) →
  ipc_of (k_env k2) = ipc_of (k_env k1) → runs k2 s →
  let request := from_sender (t_id c) m in
  ∃ k2', receive 1 ep no_locks k2 = (Ok request, k2') ∧ queue_of ep k2' = [] ∧
    (runs k2' s → reply request r no_locks k2' = (Ok tt, k3) →
     (∀ u, NoDup (ids k2') → find_task (t_id c) k2' = Some u →
       find_task (t_id c) k3 = Some (woken u)) ∧
     (ipc_of (k_env k4) = ipc_of (k_env k3) →
      (call_poll id deadline no_locks k4).1 = Ok (Some (Some (from_sender (t_id s) r))) ∧
      replies_of (call_poll id deadline no_locks k4).2 !! id = None)).
Proof.
  intros Hc He Hq Hp Hs Hrs request.
  destruct (call_post_run ep m k c id k1 Hc He Hp) as (->&Hrep&Hqk1). rewrite Hq in Hqk1.
  assert (queue_of ep k2 = [request]) as Hq2 by (unfold queue_of, eps_of in *; by rewrite Hs).
  destruct (receive_some 0 ep k2 request [] Hq2) as (e&He2&->). eexists. split; [done|].
  split; [unfold queue_of; rewrite eps_put; simpl; by rewrite lookup_insert_eq|].
  set (k2' := map_env _ k2). intros Hrs' Hr.
  assert (replies_of k2' !! t_id c = Some None) as Hslot.
  { unfold replies_of, k2'. simpl. rewrite ipc_of_put. simpl. rewrite Hs.
    unfold replies_of in Hrep. rewrite Hrep. apply lookup_insert_eq. }
  destruct (reply_run request r k2' s (Ok tt) k3 Hrs') as (_&Ht3&Hr3); [by eexists|done|].
  split.
  - intros u Hnd Hu. assert (∀ x, find_task x k3 = find_task x (unblock (t_id c) k2')) as ->.
    { intros x. unfold find_task, index_of. by rewrite Ht3. }
    unfold unblock. rewrite find_task_upd_id by (done || apply keeps_woken).
    by rewrite decide_True, Hu.
  - intros H4. unfold call_poll. rewrite (sbind_Ok _ _ _ _ _ (section_run _ k4)).
    unfold replies_of in Hr3. rewrite H4, Hr3. simpl. rewrite lookup_insert_eq. simpl.
    split; [done|]. unfold replies_of. simpl. rewrite ipc_of_put. simpl. apply lookup_delete_eq.
Qed.
End props.

(** ** The task table over the IPC state: what [exit] does to a reply slot *)

#[export] Instance ipc_task_env {W} `{TaskEnv W} : TaskEnv (W * ipc) := {
  init_fds id w := (init_fds id w.1, w.2);
  clone_fds p c w := (clone_fds p c w.1, w.2);
  cleanup_fds id w := (cleanup_fds id w.1, w.2);
  drop_reply_slot id w := (drop_reply_slot id w.1, cleanup_reply_slot id w.2);
  drop_windows id w := (drop_windows id w.1, w.2);
  cow_fork c t w := let p := cow_fork c t w.1 in (p.1, (p.2, w.2));
  last_page_table w := last_page_table w.1;
  load_program c p a e w := let r := load_program c p a e w.1 in (r.1, (r.2, w.2));
  load_image c d a e w := let r := load_image c d a e w.1 in (r.1, (r.2, w.2));
  take_frames n w := (λ w1, (w1, w.2)) <$> take_frames n w.1;
  poke64 c a x w := (λ w1, (w1, w.2)) <$> poke64 c a x w.1;
  poke32 c a x w := (λ w1, (w1, w.2)) <$> poke32 c a x w.1;
  user_cs := user_cs; user_ss := user_ss;
  task_trampoline := task_trampoline; fork_child_trampoline := fork_child_trampoline;
  user_task_trampoline := user_task_trampoline;
}.

#[export] Instance ipc_env_pair {W} : IpcEnv (W * ipc) := {
  ipc_of w := w.2; put_ipc s w := (w.1, s); ipc_of_put _ _ := eq_refl }.

(** ** Witnesses *)

Abbreviation ipc_kernel := (kernel (world * ipc)).

(** A caller (task 0, running) and a server (task 1), an endpoint named "e". *)
Definition server : task :=
  Task 1 (str "srv") 0 0 Runnable 0 [] RKernel None 0 None [] 0 false signals_new 0.
Definition ik0 : ipc_kernel :=
  Kernel [idle; server] 0 2 GUARDED_STACK_VIRT_BASE u64_max 0 0 (Some 100) 100 0 ∅
    (World ∅ 200 [], (create_named_endpoint (str "e") ipc_init).2).
Definition ask (tag : Z) : ipc_kernel → ipc_kernel := λ k, (call_post 1 (msg_new tag) no_locks k).2.
Definition ik1 : ipc_kernel := ask 5 ik0.
Definition ik2 : ipc_kernel := yield_now ik1.
Definition answered (tag : Z) (request : message) (k : ipc_kernel) : ipc_kernel :=
  (reply request (msg_new tag) no_locks (receive 1 1 no_locks k).2).2.
Definition ik3 : ipc_kernel := answered 6 (from_sender 0 (msg_new 5)) ik2.

Definition ik_cur (k : ipc_kernel) : task := default idle (k_tasks k !! k_current k).

Example receive_spec_witness :
  (receive 1 1 no_locks ik0).1 = Diverge ∧ ∃ k', receive 1 1 no_locks ik2 = (Ok (from_sender 0 (msg_new 5)), k').
Proof.
  split.
  - exact (receive_spec 1 1 ik0 idle (le_n 1) eq_refl).
  - assert (k_tasks ik2 !! k_current ik2 = Some (ik_cur ik2)) as Hc by (vm_compute; reflexivity).
    assert (queue_of 1 ik2 = [from_sender 0 (msg_new 5)]) as Hq by (vm_compute; reflexivity).
    pose proof (receive_spec 1 1 ik2 (ik_cur ik2) (le_n 1) Hc) as Hr. rewrite Hq in Hr.
    destruct Hr as (k'&Hk&_). exact (ex_intro _ k' Hk).
Defined.

Lemma ik1_step : ipc_step ik0 (Sent 1 (from_sender 0 (msg_new 5))) ik1.
Proof.
  apply (is_call ik0 idle 1 (msg_new 5) 0); [split; reflexivity|eexists; vm_compute; reflexivity|].
  unfold ik1, ask. compute_run ik1.
Qed.

Example ipc_fifo_witness :
  queue_of 1 ik0 ++ [from_sender 0 (msg_new 5)] = [] ++ queue_of 1 ik1.
Proof.
  apply (ipc_fifo ik0 [Sent 1 (from_sender 0 (msg_new 5))] ik1 1).
  apply ir_cons with ik1; [apply ik1_step|apply ir_nil].
Defined.

Example rpc_roundtrip_witness :
  ∃ k2', receive 1 1 no_locks ik2 = (Ok (from_sender 0 (msg_new 5)), k2') ∧ queue_of 1 k2' = [].
Proof.
  destruct (rpc_roundtrip 1 (msg_new 5) 0 ik0 ik1 idle ik2 (ik_cur ik2) (msg_new 6) ik3 500 ik3)
    as (k2'&Hr&Hq&_).
  - split; reflexivity.
  - eexists; vm_compute; reflexivity.
  - vm_compute. reflexivity.
  - unfold ik1, ask. compute_run ik1.
  - vm_compute. reflexivity.
  - split; vm_compute; reflexivity.
  - exact (ex_intro _ k2' (conj Hr Hq)).
Defined.

(** ** Concrete runs *)

(** A reply goes to whatever call its addressee has in flight.  The caller gives
    up the request 5 (its slot is closed by the deadline) and posts the request
    7; the server, still answering 5, fills the slot of 7. *)
Example reply_to_another_call :
  let given_up := (call_poll 0 0 no_locks ik1).2 in
  let again := ask 7 given_up in
  let k := answered 6 (from_sender 0 (msg_new 5)) (yield_now again) in
  (call_poll 0 0 no_locks ik1).1 = Ok (Some None) ∧
  (call_poll 0 500 no_locks k).1 = Ok (Some (Some (from_sender 1 (msg_new 6)))).
Proof. vm_compute. auto. Qed.

(** Between the look for the reply and going to sleep the caller can be
    preempted.  When the reply comes in between, nobody wakes the caller. *)
Example call_lost_wakeup :
  let waiting := (call_poll 0 500 no_locks ik1) in
  let replied := answered 6 (from_sender 0 (msg_new 5)) (on_timer_tick waiting.2) in
  let asleep := (call_block no_locks (on_timer_tick replied)).2 in
  waiting.1 = Ok None ∧ (t_state <$> find_task 0 asleep) = Some Blocked ∧
  replies_of asleep !! 0 = Some (Some (from_sender 1 (msg_new 6))).
Proof. vm_compute. auto. Qed.
