(* ===== verification/Frames.v ===== *)
(** * Physical memory allocators (kernel/src/memory.rs, kernel/src/driver/dma.rs)

    The frame allocator, which walks the bootloader's memory map and skips the
    DMA pool, and the bump allocator of that pool.  Both are executable; the
    lemmas say that neither hands out memory twice and that no frame overlaps
    the pool. *)

From S2P Require Import Prelude.
#[local] Ltac Zify.zify_post_hook ::= Z.to_euclidean_division_equations.

(** [driver/dma.rs:46-46, !DMA_POOL_PHYS_BASE] *)
Definition DMA_POOL_PHYS_BASE : Z := 64 * 1024 * 1024.
(** [driver/dma.rs:51-51, !DMA_POOL_SIZE] *)
Definition DMA_POOL_SIZE : Z := 8 * 1024 * 1024.
(** [driver/dma.rs:55-55, !DMA_POOL_VIRT_BASE] *)
Definition DMA_POOL_VIRT_BASE : Z := 0xFFFFFF0000000000.

(** ** The frame allocator *)

(** The kinds of memory region of the boot protocol. *)
Inductive MemoryRegionKind : Type :=
| Usable
| Bootloader
| UnknownUefi (code : Z)
| UnknownBios (code : Z).

#[export] Instance MemoryRegionKind_eq_dec : EqDecision MemoryRegionKind.
Proof. solve_decision. Defined.

Record MemoryRegion := Region { r_start : Z; r_end : Z; r_kind : MemoryRegionKind }.

(** [memory.rs:65-71, BootInfoFrameAllocator] *)
Record frame_allocator := FrameAllocator {
  memory_map : list MemoryRegion; next : nat }.

(** [PhysFrame::containing_address]: a frame is named by its first address. *)
Definition frame_containing (addr : Z) : Z := addr / 4096 * 4096.

(** [(start..end).step_by(4096)] *)
Definition step_by_4096 (lo hi : Z) : list Z :=
  (λ k, lo + 4096 * k) <$> seqZ 0 (Z.max 0 ((hi - lo + 4095) / 4096)).

(** [memory.rs:94-106, usable_frames] *)
Definition usable_frames (regions : list MemoryRegion) : list Z :=
  let usable_regions := filter (λ r, r_kind r = Usable) regions in
  let frame_addresses := usable_regions ≫= (λ r, step_by_4096 (r_start r) (r_end r)) in
  frame_containing <$>
    filter (λ addr, addr < DMA_POOL_PHYS_BASE ∨ DMA_POOL_PHYS_BASE + DMA_POOL_SIZE ≤ addr)
      frame_addresses.

(** [memory.rs:110-116, allocate_frame]: [next] is bumped on failure too. *)
Definition allocate_frame (fa : frame_allocator) : option Z * frame_allocator :=
  (usable_frames (memory_map fa) !! next fa, FrameAllocator (memory_map fa) (S (next fa))).

(** ** The DMA pool *)

(** [driver/dma.rs:59-66, DmaAllocator] *)
Record dma_allocator := DmaAllocator { next_offset : Z; dma_size : Z; in_mark : bool }.

(** [driver/dma.rs:69-75, DmaAllocator::new] *)
Definition dma_new (size : Z) : dma_allocator := DmaAllocator 0 size false.

(** [driver/dma.rs:79-94, DmaAllocator::allocate]: the release build wraps. *)
Definition dma_allocate (size align : Z) (a : dma_allocator) : option (Z * Z) * dma_allocator :=
  let offset := Z.land (wrap64 (wrap64 (next_offset a + align) - 1)) (2 ^ 64 - 1 - (align - 1)) in
  if decide (dma_size a < wrap64 (offset + size)) then (None, a) else
  (Some (wrap64 (DMA_POOL_VIRT_BASE + offset), wrap64 (DMA_POOL_PHYS_BASE + offset)),
   DmaAllocator (wrap64 (offset + size)) (dma_size a) (in_mark a)).

(** The allocator behind its lock ([None] before [init]) and the bytes of
    memory by virtual address. *)
Record dma_state := DmaState { dma_pool : option dma_allocator; dma_mem : Z → Z }.

(** [core::ptr::write_bytes(ptr, 0, n)] *)
Definition zero_bytes (virt n : Z) (mem : Z → Z) : Z → Z :=
  λ a, if decide (virt ≤ a < virt + n) then 0 else mem a.

(** [driver/dma.rs:134-154, alloc_dma]: virtual base, physical base, rounded size. *)
Definition alloc_dma (size : Z) (s : dma_state) : outcome unit (option (Z * Z * Z)) * dma_state :=
  let rounded := wrap64 (wrap64 (size + 4096) - 1) / 4096 * 4096 in
  match dma_pool s with
  | None => (Panic, s)
  | Some a =>
      match dma_allocate rounded 4096 a with
      | (None, a') => (Ok None, DmaState (Some a') (dma_mem s))
      | (Some (virt, phys), a') =>
          (Ok (Some (virt, phys, rounded)),
           DmaState (Some a') (zero_bytes virt rounded (dma_mem s)))
      end
  end.

(** [driver/dma.rs:162-168, phys_to_virt] *)
Definition dma_phys_to_virt (phys : Z) : Z :=
  wrap64 (DMA_POOL_VIRT_BASE + wrap64 (phys - DMA_POOL_PHYS_BASE)).

(** [driver/dma.rs:177-187, mark] *)
Definition dma_mark (s : dma_state) : Z * dma_state :=
  match dma_pool s with
  | Some a =>
      (next_offset a,
       DmaState (Some (DmaAllocator (next_offset a) (dma_size a) true)) (dma_mem s))
  | None => (0, s)
  end.

(** [driver/dma.rs:192-200, reset_to] *)
Definition dma_reset_to (m : Z) (s : dma_state) : dma_state :=
  match dma_pool s with
  | Some a =>
      DmaState
        (Some (DmaAllocator (if decide (m ≤ next_offset a) then m else next_offset a)
                 (dma_size a) false)) (dma_mem s)
  | None => s
  end.

(** [driver/dma.rs:203-209, stats] *)
Definition dma_stats (s : dma_state) : Z * Z :=
  match dma_pool s with Some a => (next_offset a, dma_size a) | None => (0, 0) end.

(** ** Frames are fresh *)

(** Regions of the boot protocol: whole frames, below the physical limit, apart. *)
Record regions_wf (regions : list MemoryRegion) : Prop := {
  rw_aligned r : r ∈ regions →
    r_start r mod 4096 = 0 ∧ r_end r mod 4096 = 0 ∧ 0 ≤ r_start r ∧ r_end r ≤ 2 ^ 52;
  rw_disjoint i j r r' : regions !! i = Some r → regions !! j = Some r' → i ≠ j →
    r_end r ≤ r_start r' ∨ r_end r' ≤ r_start r;
}.

Lemma elem_of_step_by lo hi a :
  a ∈ step_by_4096 lo hi ↔ ∃ k, 0 ≤ k ∧ a = lo + 4096 * k ∧ a < hi.
Proof.
  unfold step_by_4096. rewrite list_elem_of_fmap. setoid_rewrite elem_of_seqZ. split.
  - intros (k&->&?&Hk). exists k. split_and!; [lia..|].
    destruct (Z.max_spec 0 ((hi - lo + 4095) / 4096)) as [[? Hm]|[? Hm]]; rewrite Hm in Hk; [|lia].
    assert (4096 * ((hi - lo + 4095) / 4096) ≤ hi - lo + 4095) by (apply Z.mul_div_le; lia). lia.
  - intros (k&?&->&?). exists k. split_and!; [done|done|].
    assert (k + 1 ≤ (hi - lo + 4095) / 4096); [|lia]. apply Z.div_le_lower_bound; lia.
Qed.

Lemma NoDup_step_by lo hi : NoDup (step_by_4096 lo hi).
Proof.
  unfold step_by_4096. apply NoDup_fmap_2; [|apply NoDup_seqZ]. intros ???. lia.
Qed.

Lemma fmap_bind {A B C} (g : B → C) (f : A → list B) l :
  g <$> (l ≫= f) = l ≫= λ x, g <$> f x.
Proof. induction l as [|x l IH]; [done|]. cbn. rewrite fmap_app. by f_equal. Qed.

Lemma NoDup_bind {A B} (f : A → list B) l :
  (∀ x, x ∈ l → NoDup (f x)) →
  (∀ i j x y b, l !! i = Some x → l !! j = Some y → b ∈ f x → b ∈ f y → i = j) →
  NoDup (l ≫= f).
Proof.
  induction l as [|x l IH]; intros Hn Hd; [constructor|]. simpl.
  apply NoDup_app. split_and!.
  - apply Hn. by left.
  - intros b Hb (y&Hby&Hy)%list_elem_of_bind. apply list_elem_of_lookup in Hy as [j Hj].
    by specialize (Hd O (S j) x y b eq_refl Hj Hb Hby).
  - apply IH; [intros; apply Hn; by right|]. intros i j y z b Hi Hj Hy Hz.
    by specialize (Hd (S i) (S j) y z b Hi Hj Hy Hz) as [= ->].
Qed.

(** What holds of any two entries of a list holds of any two it keeps. *)
Lemma pairwise_filter {A} (P : A → Prop) `{∀ x, Decision (P x)} (R : A → A → Prop) (l : list A) :
  (∀ (i j : nat) x y, l !! i = Some x → l !! j = Some y → i ≠ j → R x y) →
  ∀ (i j : nat) x y, filter P l !! i = Some x → filter P l !! j = Some y → i ≠ j → R x y.
Proof.
  induction l as [|z l IH]; intros Hl i j x y; [done|].
  assert (∀ (i j : nat) x y, l !! i = Some x → l !! j = Some y → i ≠ j → R x y) as Hl'.
  { intros i' j' ?????. apply (Hl (S i') (S j')); auto. }
  assert (∀ (k : nat) y, filter P l !! k = Some y → R z y ∧ R y z) as Hz.
  { intros k w Hk%list_elem_of_lookup_2. apply list_elem_of_filter in Hk as [_ Hk].
    apply list_elem_of_lookup in Hk as [k' Hk].
    split; [by apply (Hl O (S k') z w)|by apply (Hl (S k') O w z)]. }
  rewrite filter_cons. destruct (decide _); [|by apply IH].
  destruct i as [|i], j as [|j]; simpl; intros H1 H2 Hij; simplify_eq.
  - by eapply Hz.
  - by eapply Hz.
  - eapply (IH Hl' i j); eauto.
Qed.

Section frames.
Context (regions : list MemoryRegion) (Hwf : regions_wf regions).

Lemma elem_of_usable_frames f :
  f ∈ usable_frames regions ↔
    (∃ r, r ∈ regions ∧ r_kind r = Usable ∧ r_start r ≤ f < r_end r) ∧ f mod 4096 = 0 ∧
    (f < DMA_POOL_PHYS_BASE ∨ DMA_POOL_PHYS_BASE + DMA_POOL_SIZE ≤ f).
Proof.
  unfold usable_frames. rewrite list_elem_of_fmap. setoid_rewrite list_elem_of_filter.
  setoid_rewrite list_elem_of_bind. setoid_rewrite list_elem_of_filter.
  setoid_rewrite elem_of_step_by. unfold frame_containing. split.
  - intros (a&->&Hd&r&(k&?&->&?)&Hk&Hr).
    destruct (rw_aligned _ Hwf r Hr) as (Ha&?&?&?).
    assert ((r_start r + 4096 * k) / 4096 * 4096 = r_start r + 4096 * k) as ->.
    { apply Z.div_exact in Ha; [|lia]. rewrite Ha.
      replace (4096 * (r_start r / 4096) + 4096 * k) with ((r_start r / 4096 + k) * 4096) by lia.
      by rewrite Z.div_mul. }
    split_and!; [exists r; split_and!; auto; lia| |done].
    rewrite Z.mul_comm, Z.mod_add; [done|lia].
  - intros ((r&Hr&Hk&?)&Hf&Hd). destruct (rw_aligned _ Hwf r Hr) as (Ha&?&?&?).
    apply Z.div_exact in Ha, Hf; [|lia..].
    exists f. split_and!; [lia|done|]. exists r. split_and!; [|done|done].
    exists (f / 4096 - r_start r / 4096). split_and!; lia.
Qed.

Lemma NoDup_usable_frames : NoDup (usable_frames regions).
Proof.
  unfold usable_frames. apply NoDup_fmap_2_strong.
  - intros x y Hx Hy. rewrite list_elem_of_filter, list_elem_of_bind in Hx, Hy.
    destruct Hx as (_&r&(k&?&->&?)%elem_of_step_by&[_ Hr]%list_elem_of_filter).
    destruct Hy as (_&r'&(k'&?&->&?)%elem_of_step_by&[_ Hr']%list_elem_of_filter).
    destruct (rw_aligned _ Hwf r Hr) as (Ha&_). destruct (rw_aligned _ Hwf r' Hr') as (Ha'&_).
    apply Z.div_exact in Ha, Ha'; [|lia..]. unfold frame_containing.
    rewrite Ha, Ha', <-!Z.mul_add_distr_l, !(Z.mul_comm 4096), !Z.div_mul by lia. lia.
  - apply NoDup_filter, NoDup_bind; [intros; apply NoDup_step_by|].
    intros i j r r' b Hi Hj Hb Hb'.
    destruct (decide (i = j)) as [|Hne]; [done|exfalso].
    apply elem_of_step_by in Hb as (k&?&->&?), Hb' as (k'&?&?&?).
    destruct (pairwise_filter (λ r, r_kind r = Usable) (λ r r', r_end r ≤ r_start r' ∨ r_end r' ≤ r_start r)
      regions (rw_disjoint _ Hwf) i j r r' Hi Hj Hne); lia.
Qed.
End frames.

(** ** What the allocators promise *)

(** The [n]-th frame handed out from now on. *)
Definition allocation (fa : frame_allocator) (n : nat) : option Z :=
  (allocate_frame (Nat.iter n (λ a, (allocate_frame a).2) fa)).1.

Lemma allocation_usable fa n : allocation fa n = usable_frames (memory_map fa) !! (next fa + n)%nat.
Proof.
  unfold allocation.
  assert (∀ n, Nat.iter n (λ a, (allocate_frame a).2) fa
               = FrameAllocator (memory_map fa) (next fa + n)) as ->.
  { intros k. induction k as [|k IH]; [simpl; rewrite Nat.add_0_r; by destruct fa|].
    rewrite Nat.iter_succ, IH. simpl. by rewrite Nat.add_succ_r. }
  done.
Qed.

(** Frames handed out at different times do not overlap, lie in one
    usable region of the memory map and keep clear of the DMA pool. *)
Theorem frames_never_shared fa n m f g :
  regions_wf (memory_map fa) → n ≠ m →
  allocation fa n = Some f → allocation fa m = Some g →
  (f + 4096 ≤ g ∨ g + 4096 ≤ f) ∧
  (∃ r, r ∈ memory_map fa ∧ r_kind r = Usable ∧ r_start r ≤ f ∧ f + 4096 ≤ r_end r) ∧
  (f + 4096 ≤ DMA_POOL_PHYS_BASE ∨ DMA_POOL_PHYS_BASE + DMA_POOL_SIZE ≤ f).
Proof.
  rewrite !allocation_usable. intros Hwf Hnm Hf Hg.
  assert (f ≠ g) as Hne.
  { intros ->. pose proof (NoDup_lookup _ _ _ _ (NoDup_usable_frames _ Hwf) Hf Hg). lia. }
  apply list_elem_of_lookup_2, elem_of_usable_frames in Hf as ((r&Hr&Hk&?&?)&Hfa&Hd); [|done].
  apply list_elem_of_lookup_2, elem_of_usable_frames in Hg as (_&Hga&_); [|done].
  destruct (rw_aligned _ Hwf r Hr) as (_&Hea&_).
  apply Z.div_exact in Hfa, Hga, Hea; [|lia..].
  unfold DMA_POOL_PHYS_BASE, DMA_POOL_SIZE in *.
  split_and!; [lia|exists r; split_and!; auto; lia|lia].
Qed.

(** An initialised pool between calls. *)
Record dma_ok (a : dma_allocator) : Prop := {
  dk_size : dma_size a = DMA_POOL_SIZE;
  dk_next : 0 ≤ next_offset a ≤ DMA_POOL_SIZE;
  dk_aligned : next_offset a mod 4096 = 0;
}.

(** [size.div_ceil(4096) * 4096] *)
Definition page_round (size : Z) : Z := (size + 4095) / 4096 * 4096.

Lemma land_align_mask x : 0 ≤ x < 2 ^ 64 → Z.land x (2 ^ 64 - 1 - 4095) = x / 4096 * 4096.
Proof.
  intros. replace (2 ^ 64 - 1 - 4095) with (Z.ldiff (Z.ones 64) (Z.ones 12)) by reflexivity.
  rewrite Z.ldiff_land, Z.land_assoc, Z.land_ones by lia.
  rewrite Z.mod_small by lia. rewrite <-Z.ldiff_land, Z.ldiff_ones_r by lia.
  rewrite Z.shiftr_div_pow2, Z.shiftl_mul_pow2 by lia. done.
Qed.

(** A buffer the pool hands out for a request below 2^63 bytes is the
    request rounded up to pages, lies behind everything handed out before and
    inside the pool, reads as zero and changes no other byte; the request is
    refused exactly when it does not fit, and then changes nothing. *)
Theorem alloc_dma_spec size a mem :
  dma_ok a → 0 ≤ size < 2 ^ 63 →
  let r := page_round size in
  let s := DmaState (Some a) mem in
  if decide (next_offset a + r ≤ DMA_POOL_SIZE) then
    ∃ virt phys a' mem',
      alloc_dma size s = (Ok (Some (virt, phys, r)), DmaState (Some a') mem') ∧ size ≤ r ∧
      phys = DMA_POOL_PHYS_BASE + next_offset a ∧ phys mod 4096 = 0 ∧
      dma_phys_to_virt phys = virt ∧ next_offset a' = next_offset a + r ∧ dma_ok a' ∧
      (∀ x, virt ≤ x < virt + r → mem' x = 0) ∧
      (∀ x, ¬ virt ≤ x < virt + r → mem' x = mem x)
  else alloc_dma size s = (Ok None, s).
Proof.
  intros [Hs Hn Ha] Hsize r s. apply Z.div_exact in Ha; [|lia].
  assert (DMA_POOL_SIZE = 8388608) as Hp by done.
  assert (wrap64 (wrap64 (size + 4096) - 1) / 4096 * 4096 = r) as Hr.
  { unfold wrap64, wrap. rewrite (Z.mod_small (size + 4096)), Z.mod_small by lia.
    unfold r, page_round. f_equal. f_equal. lia. }
  assert (size ≤ r ∧ r ≤ size + 4095 ∧ ∃ k, r = 4096 * k) as (Hr1&Hr2&k&Hk).
  { unfold r, page_round. split_and!; [lia|lia|]. eexists. apply Z.mul_comm. }
  assert (dma_allocate r 4096 a =
    (if decide (next_offset a + r ≤ DMA_POOL_SIZE) then
      (Some (DMA_POOL_VIRT_BASE + next_offset a, DMA_POOL_PHYS_BASE + next_offset a),
       DmaAllocator (next_offset a + r) (dma_size a) (in_mark a)) else (None, a))) as Hd.
  { unfold dma_allocate. rewrite (wrap_small 64 (next_offset a + 4096)) by lia.
    rewrite (wrap_small 64 (next_offset a + 4096 - 1)) by lia.
    change (2 ^ 64 - 1 - (4096 - 1)) with (2 ^ 64 - 1 - 4095).
    rewrite land_align_mask by lia.
    assert ((next_offset a + 4096 - 1) / 4096 * 4096 = next_offset a) as -> by lia.
    rewrite (wrap_small 64 (next_offset a + r)) by lia. rewrite Hs.
    destruct (decide (next_offset a + r ≤ DMA_POOL_SIZE)); [rewrite decide_False by lia|by rewrite decide_True by lia].
    unfold DMA_POOL_VIRT_BASE, DMA_POOL_PHYS_BASE. by rewrite !wrap_small by lia. }
  unfold alloc_dma. rewrite Hr. simpl. rewrite Hd.
  destruct (decide (next_offset a + r ≤ DMA_POOL_SIZE)) as [Hfit|]; [|done].
  do 4 eexists. split; [done|]. split_and!; simpl.
  - done.
  - done.
  - unfold DMA_POOL_PHYS_BASE. lia.
  - unfold dma_phys_to_virt, DMA_POOL_PHYS_BASE, DMA_POOL_VIRT_BASE.
    by rewrite (wrap_small 64 (_ - _)), wrap_small by lia;
    replace (64 * 1024 * 1024 + next_offset a - 64 * 1024 * 1024) with (next_offset a) by lia.
  - done.
  - split; simpl; lia.
  - intros x Hx. unfold zero_bytes. by rewrite decide_True.
  - intros x Hx. unfold zero_bytes. by rewrite decide_False.
Qed.

(** A request within 4095 bytes of 2^64 wraps to an empty buffer, which is
    reported as a success. *)
Example alloc_dma_huge_request :
  let s := DmaState (Some (dma_new DMA_POOL_SIZE)) (λ _, 7) in
  (alloc_dma (2 ^ 64 - 1) s).1 = Ok (Some (DMA_POOL_VIRT_BASE, DMA_POOL_PHYS_BASE, 0)).
Proof. reflexivity. Qed.

(** ** Witnesses *)

(** Two usable regions around the pool, with one in firmware hands between. *)
Definition test_regions : list MemoryRegion :=
  [Region 0x0 0x2000 Bootloader; Region 0x3fff000 0x4003000 Usable;
   Region 0x4803000 0x4805000 Usable].

Lemma test_regions_wf : regions_wf test_regions.
Proof.
  split.
  - unfold test_regions. intros r Hr.
    repeat (apply elem_of_cons in Hr as [->|Hr]; [split_and!; by vm_compute|]).
    by apply elem_of_nil in Hr.
  - intros [|[|[|i]]] [|[|[|j]]] r r' Hi Hj Hne; simplify_eq/=; lia.
Qed.

Lemma frames_never_shared_witness :
  let fa := FrameAllocator test_regions 0 in
  allocation fa 0 = Some 0x3fff000 ∧ allocation fa 1 = Some 0x4803000 ∧
  (0x3fff000 + 4096 ≤ 0x4803000 ∨ 0x4803000 + 4096 ≤ 0x3fff000).
Proof.
  intros fa. split_and!; [by vm_compute|by vm_compute|].
  apply (frames_never_shared fa 0 1); [apply test_regions_wf|done|by vm_compute|by vm_compute].
Defined.

Lemma alloc_dma_spec_witness :
  let s := DmaState (Some (dma_new DMA_POOL_SIZE)) (λ _, 7) in
  ∃ virt phys a' mem',
    alloc_dma 5000 s = (Ok (Some (virt, phys, 8192)), DmaState (Some a') mem') ∧
    (∀ x, virt ≤ x < virt + 8192 → mem' x = 0).
Proof.
  assert (dma_ok (dma_new DMA_POOL_SIZE)) as Hok by (split; by vm_compute).
  destruct (alloc_dma_spec 5000 (dma_new DMA_POOL_SIZE) (λ _, 7) Hok ltac:(lia))
    as (virt&phys&a'&mem'&H&_&_&_&_&_&_&Hz&_).
  by exists virt, phys, a', mem'.
Defined.

(** ** DMA memory as the drivers use it

    Loads and stores of little-endian fields in memory by virtual address, with
    the lemmas that tell them apart, and what an allocation from the DMA pool of
    [Frames] gives a driver: the next pages of the pool. *)

#[local] Ltac Zify.zify_post_hook ::= Z.to_euclidean_division_equations.

(** ** Loads and stores *)

(** Bytes by virtual address, as in [Frames]. *)
Abbreviation mem := (Z → Z).
Definition load_bytes (n : nat) (a : Z) (m : mem) : bytes := (λ i, m (a + i)) <$> seqZ 0 (Z.of_nat n).
Definition store_bytes (a : Z) (b : bytes) (m : mem) : mem :=
  λ x, if decide (a ≤ x < a + Z.of_nat (length b)) then nth (Z.to_nat (x - a)) b 0 else m x.
Definition load (n : nat) (a : Z) (m : mem) : Z := le_dec (load_bytes n a m).
Definition store (n : nat) (a v : Z) (m : mem) : mem := store_bytes a (le_enc n v) m.

Lemma length_load_bytes n a m : length (load_bytes n a m) = n.
Proof. unfold load_bytes. rewrite length_fmap, length_seqZ. lia. Qed.
Lemma lookup_load_bytes n a m i : (i < n)%nat → load_bytes n a m !! i = Some (m (a + Z.of_nat i)).
Proof.
  intros Hi. unfold load_bytes. rewrite list_lookup_fmap, lookup_seqZ_lt by lia. done.
Qed.
Lemma load_bytes_ext n a m m' : (∀ x, a ≤ x < a + Z.of_nat n → m' x = m x) → load_bytes n a m' = load_bytes n a m.
Proof.
  intros Hx. apply list_eq. intros i. destruct (decide (i < n)%nat).
  - rewrite !lookup_load_bytes by done. f_equal. apply Hx. lia.
  - rewrite !lookup_ge_None_2; [done|rewrite length_load_bytes; lia..].
Qed.
Lemma load_store_bytes a b m : load_bytes (length b) a (store_bytes a b m) = b.
Proof.
  apply list_eq. intros i. destruct (decide (i < length b)%nat) as [Hi|].
  - rewrite lookup_load_bytes by done. unfold store_bytes. rewrite decide_True by lia.
    replace (Z.to_nat (a + Z.of_nat i - a)) with i by lia. destruct (lookup_lt_is_Some_2 b i Hi) as [x Hx].
    by rewrite nth_lookup, Hx.
  - rewrite !lookup_ge_None_2; [done|lia|rewrite length_load_bytes; lia].
Qed.
Lemma store_bytes_ne a b m x : ¬ a ≤ x < a + Z.of_nat (length b) → store_bytes a b m x = m x.
Proof. intros. unfold store_bytes. by rewrite decide_False. Qed.
Lemma load_store_eq n a v m : 0 ≤ v < 256 ^ Z.of_nat n → load n a (store n a v m) = v.
Proof.
  intros Hv. unfold load, store. replace n with (length (le_enc n v)) at 1 by apply length_le_enc.
  rewrite load_store_bytes. by apply le_dec_enc_small.
Qed.
Lemma load_store_ne n a n' a' v m :
  a + Z.of_nat n ≤ a' ∨ a' + Z.of_nat n' ≤ a → load n a (store n' a' v m) = load n a m.
Proof.
  intros Hd. unfold load. f_equal. apply load_bytes_ext. intros x Hx. apply store_bytes_ne. rewrite length_le_enc. lia.
Qed.
Lemma load_zero_ne n a b k m : a + Z.of_nat n ≤ b ∨ b + k ≤ a → load n a (zero_bytes b k m) = load n a m.
Proof.
  intros Hd. unfold load. f_equal. apply load_bytes_ext. intros x Hx. unfold zero_bytes. rewrite decide_False; [done|lia].
Qed.
Ltac loads := repeat first [rewrite load_store_eq by lia | rewrite load_store_ne by lia | rewrite load_zero_ne by lia].

(** ** The pool *)

(** Everything below [o] is in use. *)
Definition pool_top (o : Z) (d : dma_state) : Prop := ∃ a, dma_pool d = Some a ∧ dma_ok a ∧ next_offset a = o.

Lemma pool_virt o : 0 ≤ o ≤ DMA_POOL_SIZE → dma_phys_to_virt (DMA_POOL_PHYS_BASE + o) = DMA_POOL_VIRT_BASE + o.
Proof.
  unfold dma_phys_to_virt, DMA_POOL_SIZE, DMA_POOL_PHYS_BASE, DMA_POOL_VIRT_BASE. intros.
  rewrite (wrap_small 64 (_ - _)), wrap_small by lia. lia.
Qed.

Lemma page_round_pos n : 0 ≤ n → 0 ≤ page_round n.
Proof. intros. unfold page_round. apply Z.mul_nonneg_nonneg; [apply Z.div_pos|]; lia. Qed.

(** An allocation takes the next pages, or is refused and changes nothing. *)
Lemma alloc_top o size d :
  pool_top o d → 0 ≤ size < 2 ^ 63 →
  if decide (o + page_round size ≤ DMA_POOL_SIZE) then
    ∃ d', alloc_dma size d = (Ok (Some (DMA_POOL_VIRT_BASE + o, DMA_POOL_PHYS_BASE + o, page_round size)), d') ∧
      pool_top (o + page_round size) d' ∧ size ≤ page_round size ∧ 0 ≤ o ∧
      (∀ x, ¬ DMA_POOL_VIRT_BASE + o ≤ x < DMA_POOL_VIRT_BASE + o + page_round size → dma_mem d' x = dma_mem d x)
  else alloc_dma size d = (Ok None, d).
Proof.
  intros (a&Ha&Hok&<-) Hsize. pose proof (alloc_dma_spec size a (dma_mem d) Hok Hsize) as H. cbn zeta in H.
  replace (DmaState (Some a) (dma_mem d)) with d in H by (by destruct d; cbn in *; rewrite Ha).
  case_decide as Hd; [|done]. destruct H as (virt&phys&a'&m'&->&Hr&Hphys&_&Hv&Hn&Hok'&_&Hm). pose proof (dk_next _ Hok).
  rewrite Hphys, pool_virt in Hv by done. subst. eexists. split; [done|]. split_and!; try done; try lia. by exists a'.
Qed.
