(* ===== verification/Paging.v ===== *)
(** * Page tables in physical memory (kernel/src/memory.rs)

    Physical memory as the kernel sees it through the bootloader's window: a
    page of 512 words per frame.  Page-table entries are the words of the
    x86-64 format.  [map_to] belongs to the [x86_64] crate and not to this
    repository: it is the class [Paging] with its documented behaviour
    [PagingLaws]; every walk of the tables that the kernel does by hand is
    executable here. *)

From S2P Require Import Prelude Frames.

(** ** Memory *)

Abbreviation page := (gmap Z Z).
Abbreviation pmem := (gmap Z page).

Definition page_at (m : pmem) (f : Z) : page := default ∅ (m !! f).
(** Word [i] of frame [f]; a word never written is 0. *)
Definition entry (m : pmem) (f i : Z) : Z := default 0 (page_at m f !! i).
Definition set_entry (m : pmem) (f i e : Z) : pmem := <[f := <[i := e]> (page_at m f)]> m.
(** [write_bytes(ptr, 0, 4096)] and [copy_nonoverlapping(src, dst, 4096)] *)
Definition zero_page (m : pmem) (f : Z) : pmem := <[f := ∅]> m.
Definition copy_page (m : pmem) (src dst : Z) : pmem := <[dst := page_at m src]> m.

Lemma page_at_insert m f p g : page_at (<[f := p]> m) g = if decide (f = g) then p else page_at m g.
Proof.
  unfold page_at. destruct (decide (f = g)) as [->|].
  - by rewrite lookup_insert_eq.
  - by rewrite lookup_insert_ne.
Qed.

Lemma page_at_set_entry m f i e g : g ≠ f → page_at (set_entry m f i e) g = page_at m g.
Proof. intros. unfold set_entry. rewrite page_at_insert. by rewrite decide_False. Qed.

Lemma entry_set_entry m f i e g j :
  entry (set_entry m f i e) g j = if decide (f = g ∧ i = j) then e else entry m g j.
Proof.
  unfold entry, set_entry. rewrite page_at_insert.
  destruct (decide (f = g)) as [->|].
  - destruct (decide (i = j)) as [->|].
    + rewrite lookup_insert_eq, decide_True by done. done.
    + rewrite lookup_insert_ne by done. by rewrite decide_False by naive_solver.
  - by rewrite decide_False by naive_solver.
Qed.

Lemma entry_zero_page m f g j : entry (zero_page m f) g j = if decide (f = g) then 0 else entry m g j.
Proof.
  unfold entry, zero_page. rewrite page_at_insert. by destruct (decide (f = g)).
Qed.

Lemma entry_page_at m m' f : page_at m f = page_at m' f → ∀ i, entry m f i = entry m' f i.
Proof. unfold entry. by intros ->. Qed.

(** ** Entries *)

Definition PRESENT : Z := 1.
Definition WRITABLE : Z := 2.
Definition USER_ACCESSIBLE : Z := 4.
Definition HUGE_PAGE : Z := 128.
(** [memory.rs:35-35, !COW_FLAG] *)
Definition COW_FLAG : Z := 512.
Definition NO_EXECUTE : Z := 2 ^ 63.

(** Bits 12 to 51 of an entry are its frame, the others its flags. *)
Definition ADDR_MASK : Z := 0x000ffffffffff000.
Definition FLAG_MASK : Z := 0xfff0000000000fff.
Definition pte_addr (e : Z) : Z := Z.land e ADDR_MASK.
Definition pte_flags (e : Z) : Z := Z.land e FLAG_MASK.
(** [set_addr(addr, flags)] *)
Definition pte (addr flags : Z) : Z := Z.lor addr flags.
Definition is_unused (e : Z) : bool := e =? 0.
(** [flags.contains(F)] *)
Definition contains (flags F : Z) : bool := Z.land flags F =? F.
Definition fl_remove (flags F : Z) : Z := Z.ldiff flags F.
Definition fl_insert (flags F : Z) : Z := Z.lor flags F.

(** Addresses that an entry can hold, and flags. *)
Definition frame_ok (f : Z) : Prop := Z.land f ADDR_MASK = f.
Definition flags_ok (fl : Z) : Prop := Z.land fl FLAG_MASK = fl.

Lemma masks_disjoint : Z.land ADDR_MASK FLAG_MASK = 0.
Proof. done. Qed.

Lemma pte_addr_pte f fl : frame_ok f → flags_ok fl → pte_addr (pte f fl) = f.
Proof.
  unfold pte_addr, pte, frame_ok, flags_ok. intros Hf Hfl.
  rewrite Z.land_lor_distr_l, Hf, <-Hfl, <-Z.land_assoc, (Z.land_comm FLAG_MASK).
  by rewrite masks_disjoint, Z.land_0_r, Z.lor_0_r.
Qed.

Lemma pte_flags_pte f fl : frame_ok f → flags_ok fl → pte_flags (pte f fl) = fl.
Proof.
  unfold pte_flags, pte, frame_ok, flags_ok. intros Hf Hfl.
  rewrite Z.land_lor_distr_l, Hfl, <-Hf, <-Z.land_assoc, masks_disjoint, Z.land_0_r.
  by rewrite Z.lor_0_l.
Qed.

Lemma pte_addr_ok e : frame_ok (pte_addr e).
Proof. unfold frame_ok, pte_addr. by rewrite <-Z.land_assoc, Z.land_diag. Qed.
Lemma pte_flags_ok e : flags_ok (pte_flags e).
Proof. unfold flags_ok, pte_flags. by rewrite <-Z.land_assoc, Z.land_diag. Qed.

Lemma flags_ok_insert fl F : flags_ok fl → flags_ok F → flags_ok (fl_insert fl F).
Proof. unfold flags_ok, fl_insert. intros H1 H2. by rewrite Z.land_lor_distr_l, H1, H2. Qed.
Lemma flags_ok_remove fl F : flags_ok fl → flags_ok (fl_remove fl F).
Proof.
  unfold flags_ok, fl_remove. intros H1. rewrite !Z.ldiff_land, <-Z.land_assoc.
  by rewrite (Z.land_comm (Z.lnot F)), Z.land_assoc, H1.
Qed.

(** Single flags are bits. *)
Lemma contains_testbit fl k : 0 ≤ k → contains fl (2 ^ k) = Z.testbit fl k.
Proof.
  intros. unfold contains. rewrite Z.land_comm.
  destruct (Z.testbit fl k) eqn:Hb.
  - apply Z.eqb_eq, Z.bits_inj'. intros j Hj. rewrite Z.land_spec, Z.pow2_bits_eqb by lia.
    destruct (Z.eqb_spec k j) as [->|]; by rewrite ?Hb.
  - apply Z.eqb_neq. intros Heq. apply (f_equal (λ x, Z.testbit x k)) in Heq.
    rewrite Z.land_spec, Hb, andb_false_r, Z.pow2_bits_true in Heq; done.
Qed.

Definition user (e : Z) : bool :=
  negb (is_unused e) && contains (pte_flags e) USER_ACCESSIBLE.
Definition writable (e : Z) : bool := contains (pte_flags e) WRITABLE.
Definition cow (e : Z) : bool := contains (pte_flags e) COW_FLAG.

(** ** Walks *)

(** The child table behind entry [i], where the kernel descends. *)
Definition next_table (m : pmem) (t i : Z) : option Z :=
  let e := entry m t i in
  if is_unused e || contains (pte_flags e) HUGE_PAGE then None else Some (pte_addr e).

Fixpoint node (m : pmem) (t : Z) (p : list Z) : option Z :=
  match p with
  | [] => Some t
  | i :: p => next_table m t i ≫= λ c, node m c p
  end.

(** Indices of an address: [(va >> (12 + 9 * k)) & 0x1FF], the last level first. *)
Definition va_index (k va : Z) : Z := Z.land (Z.shiftr va (12 + 9 * k)) 0x1FF.
Definition va_path (va : Z) : list Z := [va_index 3 va; va_index 2 va; va_index 1 va].

(** The entry behind a path of three tables, and the user mappings. *)
Definition leaf (m : pmem) (t : Z) (p : list Z) (i : Z) : option Z :=
  (λ l1, entry m l1 i) <$> node m t p.
Definition user_leaf (m : pmem) (t : Z) (p : list Z) (i e : Z) : Prop :=
  length p = 3%nat ∧ leaf m t p i = Some e ∧ user e = true.

Lemma node_app m t p q : node m t (p ++ q) = node m t p ≫= λ c, node m c q.
Proof.
  revert t. induction p as [|i p IH]; intros t; [done|]. simpl.
  destruct (next_table m t i); simpl; auto.
Qed.

Lemma node_snoc m t p i : node m t (p ++ [i]) = node m t p ≫= λ c, next_table m c i.
Proof.
  rewrite node_app. destruct (node m t p) as [c|]; [|done]. simpl.
  by destruct (next_table m c i).
Qed.

(** A walk reads the tables on its way only. *)
Lemma node_same m m' t p :
  (∀ q i r c, p = q ++ i :: r → node m t q = Some c → entry m' c i = entry m c i) →
  node m' t p = node m t p.
Proof.
  revert t. induction p as [|i p IH]; intros t Hs; [done|]. simpl.
  assert (next_table m' t i = next_table m t i) as ->.
  { unfold next_table. by rewrite (Hs [] i p t). }
  destruct (next_table m t i) as [c|] eqn:Hc; [|done]. simpl. apply IH.
  intros q j r d -> Hd. apply (Hs (i :: q) j r d); [done|]. simpl. by rewrite Hc.
Qed.

(** A huge page in the way of a path. *)
Definition blocked (m : pmem) (t : Z) (p : list Z) : Prop :=
  ∃ q j r c, p = q ++ j :: r ∧ node m t q = Some c ∧ entry m c j ≠ 0 ∧ next_table m c j = None.

(** ** Frames still to come *)

Record phys := Phys { ph_mem : pmem; ph_fa : frame_allocator }.

(** The frames the allocator has not handed out yet. *)
Definition future (s : phys) (f : Z) : Prop :=
  f ∈ drop (next (ph_fa s)) (usable_frames (memory_map (ph_fa s))).
Definition extends (s s' : phys) : Prop :=
  memory_map (ph_fa s') = memory_map (ph_fa s) ∧ (next (ph_fa s) ≤ next (ph_fa s'))%nat.
Definition taken (s s' : phys) (f : Z) : Prop := future s f ∧ ¬ future s' f.
(** What [regions_wf] gives of the memory map, with frame 0 never usable. *)
Record fa_ok (s : phys) : Prop := {
  fo_NoDup : NoDup (usable_frames (memory_map (ph_fa s)));
  fo_frames f : f ∈ usable_frames (memory_map (ph_fa s)) → frame_ok f ∧ f ≠ 0;
}.

(** [memory.rs:688-690, MemoryManager::allocate_frame] *)
Definition alloc_frame (s : phys) : option Z * phys :=
  let '(f, fa) := allocate_frame (ph_fa s) in (f, Phys (ph_mem s) fa).
(** [fa.allocate_frame().expect(...)] *)
Definition alloc_expect {E} : stm phys E Z := λ s,
  match alloc_frame s with
  | (Some f, s') => (Ok f, s')
  | (None, s') => (Panic, s')
  end.
Definition on_mem {E} (f : pmem → pmem) : stm phys E unit :=
  smodify (λ s, Phys (f (ph_mem s)) (ph_fa s)).

#[export] Instance extends_preorder : PreOrder extends.
Proof.
  split; [by intros s|]. intros s1 s2 s3 [H1 ?] [H2 ?]. split; [congruence|lia].
Qed.

Lemma extends_future s s' f : extends s s' → future s' f → future s f.
Proof.
  unfold future. intros [-> Hn] Hf.
  replace (next (ph_fa s')) with (next (ph_fa s) + (next (ph_fa s') - next (ph_fa s)))%nat in Hf by lia.
  rewrite <-drop_drop in Hf. by eapply subseteq_drop.
Qed.

Lemma extends_fa_ok s s' : extends s s' → fa_ok s → fa_ok s'.
Proof. intros [Hm _] [??]. by split; rewrite Hm. Qed.

Lemma taken_trans_l s1 s2 s3 f : extends s2 s3 → taken s1 s2 f → taken s1 s3 f.
Proof. intros Hx [??]. split; [done|]. intros ?. by eapply extends_future in Hx. Qed.
Lemma taken_trans_r s1 s2 s3 f : extends s1 s2 → taken s2 s3 f → taken s1 s3 f.
Proof. intros Hx [??]. split; [|done]. by eapply extends_future. Qed.

Lemma future_frame_ok s f : fa_ok s → future s f → frame_ok f ∧ f ≠ 0.
Proof. intros [_ Hf] H. apply Hf. unfold future in H. by eapply subseteq_drop. Qed.

Lemma future_mem s m f : future (Phys m (ph_fa s)) f ↔ future s f.
Proof. done. Qed.

Lemma alloc_frame_Some s f s' :
  fa_ok s → alloc_frame s = (Some f, s') →
  extends s s' ∧ ph_mem s' = ph_mem s ∧ taken s s' f ∧
  (∀ g, future s g ↔ g = f ∨ future s' g).
Proof.
  intros [Hn _]. unfold alloc_frame. simpl. intros [= Hf <-].
  assert (∀ g, future s g ↔ g = f ∨ future (Phys (ph_mem s)
    (FrameAllocator (memory_map (ph_fa s)) (S (next (ph_fa s))))) g) as Hfut.
  { intros g. unfold future. simpl. rewrite (drop_S _ _ _ Hf). apply elem_of_cons. }
  split_and!; [split; simpl; [done|lia]|done| |done].
  split; [apply Hfut; by left|]. unfold future. simpl.
  intros Hin. apply list_elem_of_lookup in Hin as [k Hk]. rewrite lookup_drop in Hk.
  pose proof (NoDup_lookup _ _ _ _ Hn Hf Hk). lia.
Qed.

Lemma alloc_expect_Ok {E} s f s' :
  alloc_expect (E:=E) s = (Ok f, s') → alloc_frame s = (Some f, s').
Proof. unfold alloc_expect. destruct (alloc_frame s) as [[]]; naive_solver. Qed.

Lemma alloc_frame_None s s' : alloc_frame s = (None, s') → extends s s' ∧ ph_mem s' = ph_mem s.
Proof. unfold alloc_frame. simpl. intros [= _ <-]. split; [split; simpl; [done|lia]|done]. Qed.

(** ** The mapper of the [x86_64] crate *)

Inductive map_to_error : Type :=
| FrameAllocationFailed
| ParentEntryHugePage
| PageAlreadyMapped (frame : Z).

#[export] Instance map_to_error_eq_dec : EqDecision map_to_error.
Proof. solve_decision. Defined.

(** [mapper.map_to(page, frame, flags, frame_allocator)] on the table at [l4]. *)
Class Paging := map_to : Z → Z → Z → Z → stm phys map_to_error unit.

(** The tables on the way to an address form a chain of distinct frames in use. *)
Record path_ok (s : phys) (l4 : Z) (p : list Z) : Prop := {
  pk_distinct q q' c : q `prefix_of` p → q' `prefix_of` p →
    node (ph_mem s) l4 q = Some c → node (ph_mem s) l4 q' = Some c → q = q';
  pk_used q c : q `prefix_of` p → node (ph_mem s) l4 q = Some c → ¬ future s c;
}.

(** What [map_to] documents: missing tables are taken from the allocator and
    zeroed, present ones stay where they are (their entries may gain flags),
    the leaf is written when it was unused, and nothing else changes. *)
Record map_to_post (r : outcome map_to_error unit) (s s' : phys)
    (l4 : Z) (p : list Z) (i f fl : Z) : Prop := {
  mp_extends : extends s s';
  mp_other g : (∀ q, q `prefix_of` p → node (ph_mem s) l4 q ≠ Some g) → ¬ taken s s' g →
    page_at (ph_mem s') g = page_at (ph_mem s) g;
  mp_siblings q j rest c k : p ++ [i] = q ++ j :: rest →
    node (ph_mem s) l4 q = Some c → k ≠ j → entry (ph_mem s') c k = entry (ph_mem s) c k;
  mp_links q j rest c d : p = q ++ j :: rest → node (ph_mem s) l4 q = Some c →
    next_table (ph_mem s) c j = Some d → next_table (ph_mem s') c j = Some d;
  mp_new q j rest c : p ++ [i] = q ++ j :: rest → node (ph_mem s') l4 q = Some c →
    node (ph_mem s) l4 q = Some c ∨
    node (ph_mem s) l4 q = None ∧ taken s s' c ∧ ∀ k, k ≠ j → entry (ph_mem s') c k = 0;
  mp_distinct q q' c : q `prefix_of` p → q' `prefix_of` p →
    node (ph_mem s') l4 q = Some c → node (ph_mem s') l4 q' = Some c → q = q';
  mp_ok : r = Ok tt → leaf (ph_mem s') l4 p i = Some (pte f fl) ∧
    ∀ e, leaf (ph_mem s) l4 p i = Some e → e = 0;
  mp_huge q j rest c : p = q ++ j :: rest → node (ph_mem s') l4 q = Some c →
    entry (ph_mem s') c j ≠ 0 → next_table (ph_mem s') c j = None →
    node (ph_mem s) l4 q = Some c ∧ entry (ph_mem s) c j ≠ 0 ∧ next_table (ph_mem s) c j = None;
  mp_fail err : r = Err err →
    match err with
    | FrameAllocationFailed => (alloc_frame s').1 = None
    | ParentEntryHugePage => blocked (ph_mem s) l4 p
    | PageAlreadyMapped _ => ∃ e, leaf (ph_mem s) l4 p i = Some e ∧ e ≠ 0
    end;
  mp_err : r ≠ Ok tt → ∀ e, e ≠ 0 →
    leaf (ph_mem s') l4 p i = Some e ↔ leaf (ph_mem s) l4 p i = Some e;
  mp_total : r ≠ Panic ∧ r ≠ Diverge;
}.

Class PagingLaws `{Paging} := map_to_spec l4 va f fl s r s' :
  fa_ok s → path_ok s l4 (va_path va) → frame_ok f → flags_ok fl →
  map_to l4 va f fl s = (r, s') →
  map_to_post r s s' l4 (va_path va) (va_index 0 va) f fl.
