(* ===== verification/PagingRef.v ===== *)
(** * A mapper that satisfies [PagingLaws]

    The kernel's use of [map_to] relies on its documented behaviour only; this
    file exhibits an executable function with that behaviour, so that the
    theorems about address spaces can be run on concrete memories. *)

From S2P Require Import Prelude Frames Paging.

(** The table behind an entry, created when there is none; the flags are added
    to an entry that is there. *)
Definition create_next_table (t i fl : Z) : stm phys map_to_error Z := λ s,
  let e := entry (ph_mem s) t i in
  if is_unused e then
    match alloc_frame s with
    | (None, s') => (Err FrameAllocationFailed, s')
    | (Some f, s') =>
        (Ok f, Phys (zero_page (set_entry (ph_mem s') t i (pte f fl)) f) (ph_fa s'))
    end
  else
    let s' := Phys (set_entry (ph_mem s) t i (Z.lor e fl)) (ph_fa s) in
    if contains (pte_flags e) HUGE_PAGE then (Err ParentEntryHugePage, s') else (Ok (pte_addr e), s').

Fixpoint map_path (t : Z) (p : list Z) (i f fl parent_fl : Z) : stm phys map_to_error unit :=
  match p with
  | [] => λ s,
      let e := entry (ph_mem s) t i in
      if is_unused e then (Ok tt, Phys (set_entry (ph_mem s) t i (pte f fl)) (ph_fa s))
      else (Err (PageAlreadyMapped (pte_addr e)), s)
  | j :: p =>
      let! c := create_next_table t j parent_fl in
      map_path c p i f fl parent_fl
  end.

Definition PARENT_FLAGS : Z := Z.lor (Z.lor PRESENT WRITABLE) USER_ACCESSIBLE.

#[export] Instance ref_paging : Paging := λ l4 va f fl,
  map_path l4 (va_path va) (va_index 0 va) f fl (Z.land fl PARENT_FLAGS).

(** ** One level *)

Lemma next_table_Some m t i c :
  next_table m t i = Some c → pte_addr (entry m t i) = c ∧ entry m t i ≠ 0 ∧
    contains (pte_flags (entry m t i)) HUGE_PAGE = false.
Proof.
  unfold next_table, is_unused. destruct (Z.eqb_spec (entry m t i) 0); [done|]. simpl.
  destruct (contains _ _); [done|]. by intros [= <-].
Qed.

(** The state after a level is entered: table [c] behind entry [j] of [t]. *)
Record entered s s1 (t j c : Z) : Prop := {
  en_extends : extends s s1;
  en_other g : g ≠ t → ¬ taken s s1 g → page_at (ph_mem s1) g = page_at (ph_mem s) g;
  en_siblings k : k ≠ j → entry (ph_mem s1) t k = entry (ph_mem s) t k;
  en_link : next_table (ph_mem s1) t j = Some c;
  en_old : next_table (ph_mem s) t j = Some c ∧ (∀ g, ¬ taken s s1 g) ∨
    next_table (ph_mem s) t j = None ∧ entry (ph_mem s) t j = 0 ∧ taken s s1 c ∧
      (∀ g, taken s s1 g → g = c) ∧ ∀ k, entry (ph_mem s1) c k = 0;
}.

Lemma flags_lor_huge fl pf :
  contains fl HUGE_PAGE = false → Z.testbit pf 7 = false → contains (Z.lor fl pf) HUGE_PAGE = false.
Proof. rewrite !(contains_testbit _ 7), Z.lor_spec by lia. by intros -> ->. Qed.

Lemma pte_nonzero f fl : frame_ok f → flags_ok fl → f ≠ 0 → pte f fl ≠ 0.
Proof. intros Hf Hfl H0 Hz. apply H0. rewrite <-(pte_addr_pte f fl) by done. by rewrite Hz. Qed.

Lemma flags_ok_lor fl fl' : flags_ok fl → flags_ok fl' → flags_ok (Z.lor fl fl').
Proof. apply flags_ok_insert. Qed.

(** Adding flags to a word. *)
Lemma lor_flags e fl :
  flags_ok fl → pte_addr (Z.lor e fl) = pte_addr e ∧ pte_flags (Z.lor e fl) = Z.lor (pte_flags e) fl.
Proof.
  intros Hfl. unfold pte_addr, pte_flags. rewrite !Z.land_lor_distr_l. split.
  - rewrite <-Hfl, <-Z.land_assoc, (Z.land_comm FLAG_MASK), masks_disjoint, Z.land_0_r.
    apply Z.lor_0_r.
  - by rewrite Hfl.
Qed.

Section level.
Context (t j pf : Z) (Hpf : flags_ok pf) (Hp7 : Z.testbit pf 7 = false).
Context (s : phys) (Hfa : fa_ok s) (Ht : ¬ future s t).

Lemma enter_ok c s1 : create_next_table t j pf s = (Ok c, s1) → entered s s1 t j c.
Proof.
    unfold create_next_table. destruct (is_unused (entry (ph_mem s) t j)) eqn:Hu.
    - apply Z.eqb_eq in Hu as He0. destruct (alloc_frame s) as [[f|] s'] eqn:Hal; [|done].
      intros [= -> <-]. apply alloc_frame_Some in Hal as (Hx&Hm&Htk&Hfut); [|done].
      destruct (future_frame_ok s c Hfa (proj1 Htk)) as [Hfo Hf0].
      assert (t ≠ c) as Htc by (intros ->; by destruct Htk).
      assert (∀ g, taken s (Phys (zero_page (set_entry (ph_mem s') t j (pte c pf)) c) (ph_fa s')) g → g = c)
        as Honly.
      { intros g [Hg1 Hg2]. apply Hfut in Hg1 as [|Hg1]; [done|]. by destruct Hg2. }
      split; simpl.
      + done.
      + intros g Hg Hnt. unfold zero_page. rewrite page_at_insert, decide_False by (intros <-; by apply Hnt).
        by rewrite page_at_set_entry, Hm.
      + intros k Hk. rewrite entry_zero_page, decide_False by done.
        rewrite entry_set_entry, decide_False, Hm by (intros [_ ->]; done). done.
      + unfold next_table. rewrite entry_zero_page, decide_False, entry_set_entry, decide_True by done.
        rewrite pte_flags_pte, pte_addr_pte, (contains_testbit _ 7), Hp7, orb_false_r by (done || lia).
        unfold is_unused. by rewrite (proj2 (Z.eqb_neq _ _)) by (by apply pte_nonzero).
      + right. split_and!; [|done|done|done|].
        * unfold next_table. by rewrite Hu.
        * intros k. by rewrite entry_zero_page, decide_True.
    - apply Z.eqb_neq in Hu as He0. destruct (contains _ HUGE_PAGE) eqn:Hh; [done|].
      intros [= <- <-]. set (e := entry (ph_mem s) t j) in *.
      split; simpl.
      + by split.
      + intros g Hg _. by apply page_at_set_entry.
      + intros k Hk. rewrite entry_set_entry, decide_False; [done|]. by intros [_ ->].
      + unfold next_table. rewrite entry_set_entry, decide_True by done.
        destruct (lor_flags e pf Hpf) as [-> ->]. rewrite flags_lor_huge, orb_false_r by done.
        unfold is_unused. rewrite (proj2 (Z.eqb_neq _ _)); [done|].
        intros Hz. by apply Z.lor_eq_0_iff in Hz as [Hz1 _].
      + left. split; [unfold next_table; fold e; by rewrite Hu, Hh|]. by intros g [??].
Qed.

(** The level cannot be entered: no frame, or a huge page. *)
Lemma enter_err err s1 :
    create_next_table t j pf s = (Err err, s1) →
    extends s s1 ∧ (∀ g, g ≠ t → page_at (ph_mem s1) g = page_at (ph_mem s) g) ∧
    (∀ k, k ≠ j → entry (ph_mem s1) t k = entry (ph_mem s) t k) ∧
    next_table (ph_mem s) t j = None ∧ next_table (ph_mem s1) t j = None ∧
    (entry (ph_mem s1) t j ≠ 0 → entry (ph_mem s) t j ≠ 0) ∧
    (err = FrameAllocationFailed ∧ (alloc_frame s1).1 = None ∨
     err = ParentEntryHugePage ∧ entry (ph_mem s) t j ≠ 0).
Proof.
    unfold create_next_table. destruct (is_unused (entry (ph_mem s) t j)) eqn:Hu.
    - destruct (alloc_frame s) as [[f|] s'] eqn:Hal; [done|]. intros [= <- <-].
      pose proof (alloc_frame_None _ _ Hal) as [Hx Hm]. rewrite Hm.
      assert (next_table (ph_mem s) t j = None) as Hn by (unfold next_table; by rewrite Hu).
      split_and!; try done. left. split; [done|].
      unfold alloc_frame in *. simpl in *. injection Hal as Hf <-. simpl.
      apply lookup_ge_None in Hf. apply lookup_ge_None. lia.
    - apply Z.eqb_neq in Hu as He0. destruct (contains _ HUGE_PAGE) eqn:Hh; [|done].
      intros [= <- <-]. simpl. split_and!.
      + by split.
      + intros g Hg. by apply page_at_set_entry.
      + intros k Hk. rewrite entry_set_entry, decide_False; [done|]. by intros [_ ->].
      + unfold next_table. by rewrite Hu, Hh.
      + unfold next_table. rewrite entry_set_entry, decide_True by done.
        destruct (lor_flags (entry (ph_mem s) t j) pf Hpf) as [_ ->].
        rewrite (contains_testbit _ 7) in Hh by lia.
        by rewrite (contains_testbit _ 7), Z.lor_spec, Hh, orb_true_r by lia.
      + done.
      + by right.
Qed.

Lemma enter_total s1 r : create_next_table t j pf s = (r, s1) → r ≠ Panic ∧ r ≠ Diverge.
Proof.
    unfold create_next_table. destruct (is_unused _); [destruct (alloc_frame s) as [[]]|destruct (contains _ _)];
      by intros [= <- _].
Qed.
End level.

(** ** The whole path *)

Section path.
Context (i f fl pf : Z) (Hpf : flags_ok pf) (Hp7 : Z.testbit pf 7 = false).

Lemma prefix_cons_inv {X} (q p : list X) j : q `prefix_of` j :: p → q = [] ∨ ∃ q', q = j :: q' ∧ q' `prefix_of` p.
Proof.
  intros [r Hr]. destruct q as [|x q]; [by left|right]. injection Hr as <- ->.
  exists q. split; [done|by eexists].
Qed.

(** Below an entered level: the walk from [t] is the walk from [c]. *)
Section below.
Context (s s1 : phys) (t j c : Z) (p : list Z).
Context (Hen : entered s s1 t j c) (Hok : path_ok s t (j :: p)).

Lemma below_used : ¬ future s t.
Proof. apply (pk_used _ _ _ Hok [] t); [by eexists|done]. Qed.

(** The old tables below [c], unless [c] is new. *)
Lemma below_node q d :
    q `prefix_of` p → node (ph_mem s1) c q = Some d →
    (next_table (ph_mem s) t j = Some c ∧ node (ph_mem s) t (j :: q) = Some d ∧ d ≠ t) ∨
    (next_table (ph_mem s) t j = None ∧ q = [] ∧ d = c ∧ taken s s1 c).
Proof.
    intros Hq Hd. destruct (en_old _ _ _ _ _ Hen) as [[Hl Hno]|(Hl&_&Htk&_&Hz)].
    - left. assert (∀ q d, q `prefix_of` p → node (ph_mem s) t (j :: q) = Some d → d ≠ t) as Hne.
      { intros q' d' Hq' Hd' ->.
        assert (j :: q' = []); [|done]. apply (pk_distinct _ _ _ Hok _ _ t); try done.
        - by apply prefix_cons.
        - by eexists. }
      assert (node (ph_mem s1) c q = node (ph_mem s) c q) as Hn.
      { apply node_same. intros q1 k r e -> He. apply entry_page_at, (en_other _ _ _ _ _ Hen); [|done].
        apply (Hne q1); [|by simpl; rewrite Hl]. trans (q1 ++ k :: r); [by eexists|done]. }
      assert (node (ph_mem s) t (j :: q) = Some d) as Hd' by (simpl; rewrite Hl; simpl; by rewrite <-Hn).
      split_and!; [done|done|by eapply Hne].
    - right. destruct q as [|k q]; simpl in Hd; [by injection Hd as <-|].
      unfold next_table in Hd. by rewrite Hz in Hd.
Qed.

Lemma below_old q d :
    q `prefix_of` p → node (ph_mem s) t (j :: q) = Some d → node (ph_mem s1) c q = Some d.
Proof.
    intros Hq Hd. destruct (en_old _ _ _ _ _ Hen) as [[Hl Hno]|(Hl&_)].
    - simpl in Hd. rewrite Hl in Hd. simpl in Hd. rewrite <-Hd. apply node_same.
      intros q1 k r e -> He. apply entry_page_at, (en_other _ _ _ _ _ Hen); [|done]. intros ->.
      assert (j :: q1 = []); [|done]. apply (pk_distinct _ _ _ Hok _ _ t).
      + apply prefix_cons. trans (q1 ++ k :: r); [by eexists|done].
      + by eexists.
      + simpl. by rewrite Hl.
      + done.
    - simpl in Hd. by rewrite Hl in Hd.
Qed.

Lemma below_ok : path_ok s1 c p.
Proof.
    split.
    - intros q q' d Hq Hq' Hd Hd'.
      destruct (below_node q d Hq Hd) as [(Hl&Hn&_)|(Hl&Hq0&_)],
        (below_node q' d Hq' Hd') as [(Hl'&Hn'&_)|(Hl'&Hq0'&_)]; try congruence.
      assert (j :: q = j :: q') as [= ->]; [|done].
      apply (pk_distinct _ _ _ Hok _ _ d); try done; by apply prefix_cons.
    - intros q d Hq Hd Hf. destruct (below_node q d Hq Hd) as [(_&Hn&_)|(_&_&Hdc&[_ Ht])]; [|by rewrite Hdc in Hf].
      apply (pk_used _ _ _ Hok (j :: q) d); [by apply prefix_cons|done|].
      eapply extends_future; [apply Hen|done].
Qed.

Lemma below_page q d :
    q `prefix_of` p → node (ph_mem s) t (j :: q) = Some d →
    page_at (ph_mem s1) d = page_at (ph_mem s) d.
Proof.
    intros Hq Hd. apply (en_other _ _ _ _ _ Hen).
    - intros ->. assert (j :: q = []); [|done]. apply (pk_distinct _ _ _ Hok _ _ t); try done.
      + by apply prefix_cons.
      + by eexists.
    - intros [Hf _]. apply (pk_used _ _ _ Hok (j :: q) d); [by apply prefix_cons|done|done].
Qed.

Lemma below_new k : next_table (ph_mem s) t j = None → entry (ph_mem s1) c k = 0.
Proof. intros Hn. destruct (en_old _ _ _ _ _ Hen) as [[? _]|(_&_&_&_&Hz)]; [congruence|apply Hz]. Qed.

Context (s' : phys) (r : outcome map_to_error unit) (Hm : map_to_post r s1 s' c p i f fl).

Lemma below_not_t q : q `prefix_of` p → node (ph_mem s1) c q ≠ Some t.
Proof.
    intros Hq Hn. destruct (below_node q t Hq Hn) as [(_&_&?)|(_&_&Hc&[Hf _])]; [done|].
    apply below_used. by rewrite Hc.
Qed.

Lemma below_top k : entry (ph_mem s') t k = entry (ph_mem s1) t k.
Proof.
    apply entry_page_at, (mp_other _ _ _ _ _ _ _ _ Hm).
    - apply below_not_t.
    - intros [Hf _]. apply below_used. eapply extends_future; [apply Hen|done].
Qed.

Lemma below_link : next_table (ph_mem s') t j = Some c.
Proof. unfold next_table. rewrite below_top. apply (en_link _ _ _ _ _ Hen). Qed.

Lemma below_node' q : node (ph_mem s') t (j :: q) = node (ph_mem s') c q.
Proof. simpl. by rewrite below_link. Qed.

Lemma below_leaf' k : leaf (ph_mem s') t (j :: p) k = leaf (ph_mem s') c p k.
Proof. unfold leaf. by rewrite below_node'. Qed.

Lemma below_leaf e :
    leaf (ph_mem s1) c p i = Some e →
    leaf (ph_mem s) t (j :: p) i = Some e ∨ leaf (ph_mem s) t (j :: p) i = None ∧ e = 0.
Proof.
    intros (d&Hd&->)%fmap_Some. destruct (below_node p d) as [(_&Hn&_)|(Hl&Hp0&Hd0&_)]; try done.
    - left. unfold leaf. rewrite Hn. simpl. f_equal. symmetry. by apply entry_page_at, (below_page p).
    - right. rewrite Hd0, below_new by done. unfold leaf. simpl. by rewrite Hl.
Qed.

Lemma below_leaf_old e :
    leaf (ph_mem s) t (j :: p) i = Some e → leaf (ph_mem s1) c p i = Some e.
Proof.
    intros (d&Hd&->)%fmap_Some. unfold leaf. rewrite (below_old p d) by done. simpl. f_equal.
    by apply entry_page_at, (below_page p).
Qed.

Lemma snoc_prefix (q : list Z) k rest : p ++ [i] = q ++ k :: rest → q `prefix_of` p.
Proof.
    intros Hp. destruct rest as [|x rest _] using rev_ind.
    - apply app_inj_tail in Hp as [-> _]. done.
    - rewrite app_comm_cons, app_assoc in Hp. apply app_inj_tail in Hp as [-> _]. by eexists.
Qed.

Lemma post_cons : map_to_post r s s' t (j :: p) i f fl.
Proof.
    assert (extends s s1) as Hx1 by apply Hen. assert (extends s1 s') as Hx2 by apply Hm.
    split.
    - by trans s1.
    - intros g Hg Ht. rewrite (mp_other _ _ _ _ _ _ _ _ Hm).
      + apply (en_other _ _ _ _ _ Hen).
        * intros ->. apply (Hg []); [by eexists|done].
        * intros Ht1. apply Ht. by eapply (taken_trans_l s s1).
      + intros q Hq Hn. destruct (below_node q g Hq Hn) as [(_&Hn'&_)|(_&_&Hgc&Ht1)].
        * apply (Hg (j :: q)); [by apply prefix_cons|done].
        * apply Ht. rewrite Hgc. by eapply (taken_trans_l s s1).
      + intros Ht1. apply Ht. by eapply (taken_trans_r s s1).
    - intros q k rest d x Hp Hd Hx. destruct q as [|j' q].
      + injection Hp as <- _. injection Hd as <-. rewrite below_top. by apply (en_siblings _ _ _ _ _ Hen).
      + injection Hp as <- Hp. pose proof (snoc_prefix q k rest Hp) as Hq.
        rewrite (mp_siblings _ _ _ _ _ _ _ _ Hm q k rest d) by eauto using below_old.
        by apply entry_page_at, (below_page q).
    - intros q k rest d e Hp Hd He. destruct q as [|j' q].
      + injection Hp as <- _. injection Hd as <-. rewrite below_link.
        destruct (en_old _ _ _ _ _ Hen) as [[Hl _]|(Hl&_)]; congruence.
      + injection Hp as <- Hp. assert (q `prefix_of` p) as Hq by (rewrite Hp; by eexists).
        apply (mp_links _ _ _ _ _ _ _ _ Hm q k rest d); [done|by apply below_old|].
        unfold next_table in *. by rewrite (entry_page_at _ _ _ (below_page q d Hq Hd)).
    - intros q k rest d Hp Hd. destruct q as [|j' q]; [by left|].
      injection Hp as <- Hp. pose proof (snoc_prefix q k rest Hp) as Hq. rewrite below_node' in Hd.
      destruct (mp_new _ _ _ _ _ _ _ _ Hm q k rest d Hp Hd) as [Hd1|(Hn1&Ht&Hz)].
      + destruct (below_node q d Hq Hd1) as [(_&?&_)|(Hl&Hq0&Hdc&Ht)]; [by left|right].
        rewrite Hdc. split_and!; [simpl; by rewrite Hl|by eapply (taken_trans_l s s1)|].
        intros x Hx. rewrite (mp_siblings _ _ _ _ _ _ _ _ Hm q k rest c) by congruence.
        by apply below_new.
      + right. split_and!; [|by eapply (taken_trans_r s s1)|done].
        destruct (node (ph_mem s) t (j :: q)) as [d'|] eqn:Hd'; [|done].
        apply below_old in Hd'; [congruence|done].
    - intros q q' d Hq Hq' Hd Hd'.
      assert (∀ q, q `prefix_of` p → node (ph_mem s') c q ≠ Some t) as Hnt.
      { intros q0 Hq0 Hn. destruct (prefix_next q0 p i Hq0) as (k&rest&Hk).
        destruct (mp_new _ _ _ _ _ _ _ _ Hm q0 k rest t Hk Hn) as [Hn'|(_&[Hf _]&_)].
        - by apply (below_not_t q0).
        - apply below_used. eapply extends_future; done. }
      apply prefix_cons_inv in Hq as [->|(q0&->&Hq)], Hq' as [->|(q0'&->&Hq')];
        rewrite ?below_node' in *; [done|..].
      + destruct (Hnt q0' Hq'). by rewrite Hd'.
      + destruct (Hnt q0 Hq). by rewrite Hd.
      + f_equal. by apply (mp_distinct _ _ _ _ _ _ _ _ Hm q0 q0' d).
    - intros Hr. destruct (mp_ok _ _ _ _ _ _ _ _ Hm Hr) as [Hl Hu]. rewrite below_leaf'.
      split; [done|]. intros e He. by apply Hu, below_leaf_old.
    - intros q k rest d Hp Hd He Hn. destruct q as [|j' q].
      + injection Hp as <- _. injection Hd as <-. rewrite below_link in Hn. done.
      + injection Hp as <- Hp. assert (q `prefix_of` p) as Hq by (rewrite Hp; by eexists).
        rewrite below_node' in Hd.
        destruct (mp_huge _ _ _ _ _ _ _ _ Hm q k rest d Hp Hd He Hn) as (Hd1&He1&Hn1).
        destruct (below_node q d Hq Hd1) as [(_&Hd0&_)|(Hl&_&Hdc&_)]; [|by rewrite Hdc, below_new in He1].
        split; [done|]. unfold next_table in *.
        by rewrite <-(entry_page_at _ _ _ (below_page q d Hq Hd0)).
    - intros err Hr. pose proof (mp_fail _ _ _ _ _ _ _ _ Hm err Hr) as Hf. destruct err; [done| |].
      + destruct Hf as (q&k&rest&d&Hp&Hd1&He&Hn). assert (q `prefix_of` p) as Hq by (rewrite Hp; by eexists).
        destruct (below_node q d Hq Hd1) as [(_&Hd0&_)|(Hl&_&Hdc&_)]; [|by rewrite Hdc, below_new in He].
        exists (j :: q), k, rest, d. rewrite Hp. split_and!; [done|done|..];
          unfold next_table in *; by rewrite <-(entry_page_at _ _ _ (below_page q d Hq Hd0)).
      + destruct Hf as (e&He&Hne). exists e. split; [|done]. by destruct (below_leaf e He) as [|[_ ?]].
    - intros Hr e He0. rewrite below_leaf', (mp_err _ _ _ _ _ _ _ _ Hm Hr e He0). split.
      + intros He. by destruct (below_leaf e He) as [|[_ ?]].
      + apply below_leaf_old.
    - apply (mp_total _ _ _ _ _ _ _ _ Hm).
Qed.
End below.

(** The last table. *)
Lemma leaf_post t s r s' : map_path t [] i f fl pf s = (r, s') → map_to_post r s s' t [] i f fl.
Proof.
  assert (∀ q k rest, [i] = q ++ k :: rest → q = [] ∧ k = i) as Hone.
  { intros [|x q] k rest Hp; injection Hp as <- Hp; [done|]. by destruct q. }
  assert (∀ (q : list Z) k rest, [] ≠ q ++ k :: rest) as Hnil by (by intros []).

  assert (∀ q : list Z, q `prefix_of` [] → q = []) as Hpre by (intros q [r' Hr]; by destruct q).
  cbn [map_path]. unfold is_unused. destruct (Z.eqb_spec (entry (ph_mem s) t i) 0) as [He|He];
    intros [= <- <-]; split; simpl; try done;
    try (by intros q k rest d ? []%Hnil); try (by intros q k rest d []%Hnil);
    try (by intros q q' d ->%Hpre ->%Hpre); try (by intros q k rest d [-> ->]%Hone; left).
  - intros g Hg _. apply page_at_set_entry. intros ->. by apply (Hg []).
  - intros q k rest d x [-> ->]%Hone [= <-] Hx.
    rewrite entry_set_entry, decide_False; [done|]. by intros [_ ->].
  - intros _. unfold leaf. simpl. rewrite entry_set_entry, decide_True by done.
    split; [done|]. by intros e [= <-].
  - intros err [= <-]. by exists (entry (ph_mem s) t i).
Qed.

Lemma err_post t j p err s s1 :
  ¬ future s t → create_next_table t j pf s = (Err err, s1) →
  map_to_post (Err err) s s1 t (j :: p) i f fl.
Proof.
  intros Ht Hc. destruct (enter_err t j pf Hpf s err s1 Hc) as (Hx&Hpg&Hsib&Hn&Hn1&Hne&Herr).
  assert (∀ q d, node (ph_mem s) t (j :: q) ≠ Some d) as Hno by (intros q d; simpl; by rewrite Hn).
  assert (∀ q d, node (ph_mem s1) t (j :: q) ≠ Some d) as Hno1 by (intros q d; simpl; by rewrite Hn1).
  split; try done.
  - intros g Hg _. apply Hpg. intros ->. apply (Hg []); [by eexists|done].
  - intros q k rest d x Hp Hd Hk. destruct q as [|j' q]; injection Hp as <- _.
    + injection Hd as <-. by apply Hsib.
    + by destruct (Hno q d).
  - intros q k rest d e Hp Hd He. destruct q as [|j' q]; injection Hp as <- _.
    + injection Hd as <-. congruence.
    + by destruct (Hno q d).
  - intros q k rest d Hp Hd. destruct q as [|j' q]; injection Hp as <- _; [by left|].
    by destruct (Hno1 q d).
  - intros q q' d Hq Hq' Hd Hd'.
    apply prefix_cons_inv in Hq as [->|(q0&->&_)], Hq' as [->|(q0'&->&_)]; [done|..].
    + by destruct (Hno1 q0' d).
    + by destruct (Hno1 q0 d).
    + by destruct (Hno1 q0 d).
  - intros q k rest d Hp Hd He Hnd. destruct q as [|j' q]; injection Hp as <- _.
    + injection Hd as <-. by split_and!; [|apply Hne|].
    + by destruct (Hno1 q d).
  - intros err' [= <-]. destruct Herr as [[-> ?]|[-> ?]]; [done|]. by exists [], j, p, t.
  - intros _ e _. unfold leaf. simpl. by rewrite Hn1, Hn.
Qed.

Lemma map_path_post t p s r s' :
  fa_ok s → path_ok s t p → map_path t p i f fl pf s = (r, s') → map_to_post r s s' t p i f fl.
Proof.
  revert t s. induction p as [|j p IH]; intros t s Hfa Hok Hrun.
  - by apply leaf_post.
  - assert (¬ future s t) as Ht by (apply (pk_used _ _ _ Hok [] t); [by eexists|done]).
    cbn [map_path] in Hrun. unfold sbind in Hrun.
    destruct (create_next_table t j pf s) as [[c|err| |] s1] eqn:Hc.
    + apply (enter_ok t j pf) in Hc; [|done..].
      apply (post_cons s s1 t j c p); [done|done|].
      apply IH; [|by eapply below_ok|done]. eapply extends_fa_ok; [apply Hc|done].
    + injection Hrun as <- <-. by apply err_post.
    + by destruct (enter_total t j pf s s1 Panic Hc).
    + by destruct (enter_total t j pf s s1 Diverge Hc).
Qed.
End path.

#[export] Instance ref_paging_laws : PagingLaws.
Proof.
  intros l4 va f fl s r s' Hfa Hok Hf Hfl Hrun.
  apply (map_path_post _ _ _ (Z.land fl PARENT_FLAGS)); try done.
  - unfold flags_ok. by rewrite <-Z.land_assoc.
  - rewrite Z.land_spec. change (Z.testbit PARENT_FLAGS 7) with false. apply andb_false_r.
Qed.
