(* ===== verification/Memory.v ===== *)
(** * Address spaces (kernel/src/memory.rs, the page-fault handler of
    kernel/src/interrupts.rs)

    Creating, copying and extending user address spaces, the copy-on-write
    fork and the resolution of its faults, over the physical memory and the
    mapper of [Paging].  A function with an [expect] panics in the model where
    the source does; the frame allocator and the tables it has changed by then
    stay changed. *)

From S2P Require Import Prelude Frames Paging.

(** [memory.rs:121-127, MemoryManager] *)
Record MemoryManager := Mm { mm_phys : phys; user_page_tables : list Z }.

(** An operation on physical memory, inside the manager. *)
Definition on_phys {E A} (f : stm phys E A) : stm MemoryManager E A := λ mm,
  let p := f (mm_phys mm) in (p.1, Mm p.2 (user_page_tables mm)).
Lemma on_phys_Ok {E A} (f : stm phys E A) mm a mm' :
  on_phys f mm = (Ok a, mm') →
  f (mm_phys mm) = (Ok a, mm_phys mm') ∧ user_page_tables mm' = user_page_tables mm.
Proof. unfold on_phys. intros [= H1 <-]. simpl. split; [by rewrite <-H1, <-surjective_pairing|done]. Qed.

(** [.expect(...)] on a result, and [match] on one. *)
Definition expect_ok {S E E' A} (f : stm S E A) : stm S E' A := λ s,
  match f s with
  | (Ok a, s') => (Ok a, s')
  | (Diverge, s') => (Diverge, s')
  | (_, s') => (Panic, s')
  end.
Definition catch {S E E' A} (f : stm S E A) : stm S E' (option A) := λ s,
  match f s with
  | (Ok a, s') => (Ok (Some a), s')
  | (Err _, s') => (Ok None, s')
  | (Panic, s') => (Panic, s')
  | (Diverge, s') => (Diverge, s')
  end.

Section memory.
Context `{Paging}.

(** [memory.rs:156-173, map_region], on the kernel's own table. *)
Definition map_region (kernel_l4 start count flags : Z) : stm phys unit Z :=
  let! _ := sfor (seqZ 0 count) (λ i,
    let! f := alloc_expect in
    expect_ok (map_to kernel_l4 (frame_containing (start + i * 4096)) f flags)) in
  sret start.

(** [memory.rs:176-178, kernel_rw_flags] *)
Definition kernel_rw_flags : Z := Z.lor PRESENT WRITABLE.
(** [memory.rs:275-277, user_rw_flags] *)
Definition user_rw_flags : Z := Z.lor (Z.lor PRESENT WRITABLE) USER_ACCESSIBLE.

(** [memory.rs:293-321, deep_copy_table]: [n] is [level - 1]. *)
Fixpoint deep_copy_table (n : nat) (src : Z) : stm phys unit Z :=
  let! dst := alloc_expect in
  let! _ := on_mem (λ m, zero_page m dst) in
  let! _ := sfor (seqZ 0 512) (λ i,
    let! e := sget (λ s, entry (ph_mem s) src i) in
    if is_unused e then sret tt else
    match n with
    | O => on_mem (λ m, set_entry m dst i e)
    | S n' =>
        if contains (pte_flags e) HUGE_PAGE then on_mem (λ m, set_entry m dst i e) else
        let! child := deep_copy_table n' (pte_addr e) in
        on_mem (λ m, set_entry m dst i (pte child (pte_flags e)))
    end) in
  sret dst.

(** [memory.rs:330-379, create_user_mapper]: the result is the frame of the new
    level-4 table. *)
Definition create_user_mapper (kernel_cr3 : option Z) : stm phys unit Z :=
  let! l4 := alloc_expect in
  let! _ := on_mem (λ m, zero_page m l4) in
  let! kernel_l4 := slift (or_panic kernel_cr3) in
  let! _ := sfor (seqZ 0 512) (λ i,
    on_mem (λ m, set_entry m l4 i (entry m kernel_l4 i))) in
  let! k0 := sget (λ s, entry (ph_mem s) kernel_l4 0) in
  if is_unused k0 || contains (pte_flags k0) HUGE_PAGE then sret l4 else
  let! new_l3 := deep_copy_table 2 (pte_addr k0) in
  let! _ := on_mem (λ m, set_entry m l4 0 (pte new_l3 (pte_flags k0))) in
  sret l4.

(** The four nested loops over a table, its lower half at level 4: [body] runs
    on every user-accessible leaf, with its address, its table and its index.
    The memory is threaded through, as [body] may write it. *)
(** [memory.rs:414-466, !cow_fork_address_space, the loops of step 1]
    [duplicate_user_address_space] has the same loops. *)
Fixpoint walk_user {X} (body : Z → Z → Z → pmem * X → pmem * X) (n : nat) (t va : Z)
    (st : pmem * X) : pmem * X :=
  match n with
  | O =>
      foldl (λ st i,
        if user (entry st.1 t i) then body (Z.lor va (Z.shiftl i 12)) t i st else st)
        st (seqZ 0 512)
  | S n' =>
      foldl (λ st i,
        match next_table st.1 t i with
        | None => st
        | Some c => walk_user body n' c (Z.lor va (Z.shiftl i (12 + 9 * Z.of_nat n))) st
        end) st (seqZ 0 (if decide (n = 3%nat) then 256 else 512))
  end.

(** Write-protect a writable page and mark it; remember the entry. *)
Definition cow_entry (e : Z) : Z :=
  if contains (pte_flags e) WRITABLE
  then pte (pte_addr e) (fl_insert (fl_remove (pte_flags e) WRITABLE) COW_FLAG)
  else pte (pte_addr e) (pte_flags e).
Definition cow_mark (va l1 i1 : Z) (st : pmem * list (Z * Z)) : pmem * list (Z * Z) :=
  let e1 := entry st.1 l1 i1 in
  (if contains (pte_flags e1) WRITABLE then set_entry st.1 l1 i1 (cow_entry e1) else st.1,
   st.2 ++ [(va, cow_entry e1)]).

(** One page of step 3: the tables by [map_to], then the entry as it is. *)
Definition cow_share (child : Z) (leaf : Z * Z) : stm phys unit unit :=
  let '(vaddr, raw_entry) := leaf in
  let temp_flags := Z.lor PRESENT USER_ACCESSIBLE in
  let! r := catch (map_to child (frame_containing vaddr)
                     (frame_containing (Z.land raw_entry ADDR_MASK)) temp_flags) in
  match r with
  | None => sret tt
  | Some _ =>
      on_mem (λ m,
        let ce3 := pte_addr (entry m child (va_index 3 vaddr)) in
        let ce2 := pte_addr (entry m ce3 (va_index 2 vaddr)) in
        let ce1 := pte_addr (entry m ce2 (va_index 1 vaddr)) in
        set_entry m ce1 (va_index 0 vaddr)
          (pte (Z.land raw_entry ADDR_MASK) (Z.land raw_entry FLAG_MASK)))
  end.

(** [memory.rs:625-633, store_user_mapper] *)
Definition store_user_mapper (l4 : Z) : stm MemoryManager unit Z := λ mm,
  (Ok l4, Mm (mm_phys mm) (user_page_tables mm ++ [l4])).

(** [memory.rs:401-525, cow_fork_address_space] *)
Definition cow_fork_address_space (kernel_cr3 : option Z) (parent_cr3 : Z)
  : stm MemoryManager unit Z :=
  let! leaves := on_phys (λ s,
    let p := walk_user cow_mark 3 parent_cr3 0 (ph_mem s, []) in
    (Ok p.2, Phys p.1 (ph_fa s))) in
  let! child := on_phys (create_user_mapper kernel_cr3) in
  let! _ := on_phys (sfor leaves (cow_share child)) in
  store_user_mapper child.

(** One page of [duplicate_user_address_space]. *)
Definition copy_user_page (child : Z) (p : Z * Z * Z) : stm phys unit unit :=
  let '(vaddr, src, flags) := p in
  let! dst := alloc_expect in
  let! _ := on_mem (λ m, copy_page m src dst) in
  let! _ := catch (map_to child (frame_containing vaddr) dst flags) in
  sret tt.

(** [memory.rs:536-622, duplicate_user_address_space] *)
Definition duplicate_user_address_space (kernel_cr3 : option Z) (parent_cr3 : Z)
  : stm MemoryManager unit Z :=
  let! pages := on_phys (sget (λ s,
    (walk_user (λ va l1 i1 st,
       let e1 := entry st.1 l1 i1 in
       (st.1, st.2 ++ [(va, pte_addr e1, pte_flags e1)])) 3 parent_cr3 0 (ph_mem s, [])).2)) in
  let! child := on_phys (create_user_mapper kernel_cr3) in
  let! _ := on_phys (sfor pages (copy_user_page child)) in
  store_user_mapper child.

(** [memory.rs:643-680, map_user_region]: zeroed frames, mapped one by one; the
    pages mapped before a failure stay. *)
Definition map_user_region (user_cr3 start : Z) (page_count : nat) (is_writable : bool)
  : stm phys unit unit :=
  let flags := Z.lor (Z.lor PRESENT USER_ACCESSIBLE) (if is_writable then WRITABLE else 0) in
  sfor (seqZ 0 (Z.of_nat page_count)) (λ i,
    let! f := (λ s, match alloc_frame s with (Some f, s') => (Ok f, s') | (None, s') => (Err tt, s') end) in
    let! _ := on_mem (λ m, zero_page m f) in
    let! r := catch (map_to user_cr3 (frame_containing start + i * 4096) f flags) in
    match r with Some _ => sret tt | None => sthrow tt end).

End memory.

(** ** Page faults *)

(** The fault of a write to a present page: walk, check, copy, remap. *)
(** [interrupts.rs:175-250, !page_fault_handler, the closure that resolves a
    copy-on-write fault] *)
Definition resolve_cow (user_cr3 : option Z) (fault_vaddr : Z) (s : phys) : option unit * phys :=
  match user_cr3 ≫= λ cr3, node (ph_mem s) cr3 (va_path fault_vaddr) with
  | None => (None, s)
  | Some l1 =>
      let i1 := va_index 0 fault_vaddr in
      let e := entry (ph_mem s) l1 i1 in
      let flags := pte_flags e in
      if negb (contains flags PRESENT) || negb (contains flags USER_ACCESSIBLE) ||
         contains flags WRITABLE || negb (contains flags COW_FLAG) then (None, s) else
      if contains flags HUGE_PAGE then (None, s) else
      match alloc_frame s with
      | (None, s') => (None, s')
      | (Some new, s') =>
          let m := copy_page (ph_mem s') (pte_addr e) new in
          let new_flags := fl_remove (fl_insert flags WRITABLE) COW_FLAG in
          (Some tt, Phys (set_entry m l1 i1 (pte new new_flags)) (ph_fa s'))
      end
  end.

(** The bits of the error code the handler looks at. *)
Record fault_code := FaultCode { pf_user : bool; pf_write : bool; pf_protection : bool }.

(** How an exception ends: the instruction runs again, the task is terminated
    ([task::do_exit] with the status), or the kernel panics. *)
Inductive fault_result : Type :=
| Resume
| Terminate (status : Z)
| KernelPanic.

(** [interrupts.rs:109-111, faulted_in_user_mode] *)
Definition faulted_in_user_mode (code_segment : Z) : bool := Z.land code_segment 3 =? 3.

(** [interrupts.rs:113-125, invalid_opcode_handler] *)
Definition invalid_opcode_handler (code_segment : Z) : fault_result :=
  if faulted_in_user_mode code_segment then Terminate 132 else KernelPanic.
(** [interrupts.rs:127-146, general_protection_fault_handler] *)
Definition general_protection_fault_handler (code_segment : Z) : fault_result :=
  if faulted_in_user_mode code_segment then Terminate 139 else KernelPanic.

(** [interrupts.rs:148-274, page_fault_handler] *)
Definition page_fault_handler (code_segment : Z) (err : fault_code) (user_cr3 : option Z)
    (addr : Z) (s : phys) : fault_result * phys :=
  let try := if pf_user err && pf_write err && pf_protection err
             then resolve_cow user_cr3 addr s else (None, s) in
  match try with
  | (Some _, s') => (Resume, s')
  | (None, s') =>
      if pf_user err || faulted_in_user_mode code_segment
      then (Terminate 139, s') else (KernelPanic, s')
  end.
