(* ===== verification/MemorySpec.v ===== *)
(** * The separation invariant of address spaces

    [vm_ok]: the tables of different address spaces are apart, except for the
    sub-trees of the kernel that every space shares; user pages are never
    tables; and a page some space can write is mapped nowhere else.  The
    operations that touch one leaf ([map_to], a rewritten entry) are described
    by [remaps], and one lemma carries the invariant over all of them. *)

From S2P Require Import Prelude Frames Paging Memory.

Definition idx_ok (i : Z) : Prop := 0 ≤ i < 512.
Definition tpath (p : list Z) : Prop := (length p ≤ 3)%nat ∧ Forall idx_ok p.

Lemma tpath_app_l p q : tpath (p ++ q) → tpath p.
Proof. intros [Hl Hf]. rewrite length_app in Hl. apply Forall_app in Hf as [? _]. split; [lia|done]. Qed.

Lemma tpath_nil : tpath [].
Proof. split; simpl; [lia|constructor]. Qed.

Lemma tpath_prefix p q : p `prefix_of` q → tpath q → tpath p.
Proof. intros [r ->]. apply tpath_app_l. Qed.

Section spec.
Context (K : Z).   (* the kernel's level-4 table *)
Implicit Types (A : gset Z) (s : phys) (p q : list Z).

(** Level-4 slots whose sub-tree is the kernel's in every space. *)
Definition shared (m : pmem) (i : Z) : Prop := i ≠ 0 ∧ entry m K i ≠ 0.
Definition shared_path (m : pmem) (p : list Z) : Prop := ∃ i r, p = i :: r ∧ shared m i.
Definition space A (a : Z) : Prop := a ∈ A ∨ a = K.

(** A page of a process: in the lower half, outside the kernel's slots. *)
Definition own_path (m : pmem) (p : list Z) : Prop :=
  tpath p ∧ length p = 3%nat ∧ ¬ shared_path m p ∧ ∀ i, head p = Some i → i < 256.

(** The kernel's own mappings leave the page free. *)
Definition kfree (m : pmem) (p : list Z) (i : Z) : Prop :=
  ¬ blocked m K p ∧ ∀ e, leaf m K p i = Some e → e = 0.

Record vm_ok A s : Prop := {
  vo_fa : fa_ok s;
  vo_kernel : K ∉ A;
  vo_roots a : space A a → frame_ok a;
  vo_shared a i : a ∈ A → idx_ok i → shared (ph_mem s) i →
    entry (ph_mem s) a i = entry (ph_mem s) K i;
  vo_sep a b p q f : space A a → space A b → tpath p → tpath q →
    node (ph_mem s) a p = Some f → node (ph_mem s) b q = Some f →
    p = q ∧ (a = b ∨ shared_path (ph_mem s) p);
  vo_used a p f : space A a → tpath p → node (ph_mem s) a p = Some f → ¬ future s f;
  vo_user a p i e : space A a → tpath p → idx_ok i → user_leaf (ph_mem s) a p i e →
    a ∈ A ∧ own_path (ph_mem s) p ∧ kfree (ph_mem s) p i;
  vo_data a p i e b q : space A a → tpath p → idx_ok i → user_leaf (ph_mem s) a p i e →
    space A b → tpath q → node (ph_mem s) b q ≠ Some (pte_addr e);
  vo_live a p i e : space A a → tpath p → idx_ok i → user_leaf (ph_mem s) a p i e →
    ¬ future s (pte_addr e);
  vo_cow a p i e b q j e' : space A a → tpath p → idx_ok i → user_leaf (ph_mem s) a p i e →
    space A b → tpath q → idx_ok j → user_leaf (ph_mem s) b q j e' →
    pte_addr e = pte_addr e' → writable e = true → a = b ∧ p = q ∧ i = j;
}.

(** A frame that is no table of any space. *)
Definition not_table A (m : pmem) (f : Z) : Prop :=
  ∀ b q, space A b → tpath q → node m b q ≠ Some f.

(** At most the leaf [i] behind [p] of space [a] differs between the states;
    tables may have been added on the way to it. *)
Record remaps A s s' (a : Z) (p : list Z) (i : Z) : Prop := {
  rm_extends : extends s s';
  rm_nodes b q f : space A b → tpath q →
    node (ph_mem s) b q = Some f → node (ph_mem s') b q = Some f;
  rm_new b q f : space A b → tpath q → node (ph_mem s') b q = Some f →
    node (ph_mem s) b q = Some f ∨
    b = a ∧ q `prefix_of` p ∧ node (ph_mem s) a q = None ∧ taken s s' f;
  rm_distinct q q' f : q `prefix_of` p → q' `prefix_of` p →
    node (ph_mem s') a q = Some f → node (ph_mem s') a q' = Some f → q = q';
  rm_leaves b q j e : space A b → tpath q → length q = 3%nat → idx_ok j →
    (b, q, j) ≠ (a, p, i) → e ≠ 0 →
    leaf (ph_mem s') b q j = Some e ↔ leaf (ph_mem s) b q j = Some e;
  rm_top b j : space A b → idx_ok j → b = K ∨ shared (ph_mem s) j →
    entry (ph_mem s') b j = entry (ph_mem s) b j;
  rm_kernel q c : tpath q → node (ph_mem s) K q = Some c →
    page_at (ph_mem s') c = page_at (ph_mem s) c;
  rm_blocked q : tpath q → blocked (ph_mem s') a q → blocked (ph_mem s) a q;
  rm_data f : not_table A (ph_mem s) f → ¬ taken s s' f →
    page_at (ph_mem s') f = page_at (ph_mem s) f;
}.

Lemma user_nonzero e : user e = true → e ≠ 0.
Proof. by intros Hu ->. Qed.

Lemma rm_user A s s' a p i b q j e :
  remaps A s s' a p i → space A b → tpath q → idx_ok j → (b, q, j) ≠ (a, p, i) →
  user_leaf (ph_mem s') b q j e ↔ user_leaf (ph_mem s) b q j e.
Proof.
  intros Hr Hb Hq Hj Hne. unfold user_leaf. split; intros (Hl&Hlf&Hu); split_and!; try done;
    by apply (rm_leaves _ _ _ _ _ _ Hr b q j e); eauto using user_nonzero.
Qed.

Lemma shared_same A s s' a p i j :
  remaps A s s' a p i → idx_ok j → shared (ph_mem s') j ↔ shared (ph_mem s) j.
Proof. intros Hr Hj. unfold shared. by rewrite (rm_top _ _ _ _ _ _ Hr K j) by (unfold space; auto). Qed.

Lemma shared_path_same A s s' a p i q :
  remaps A s s' a p i → tpath q → shared_path (ph_mem s') q ↔ shared_path (ph_mem s) q.
Proof.
  intros Hr [_ Hq]. unfold shared_path. split; intros (j&r&->&Hs); exists j, r; split; try done;
    apply Forall_cons in Hq as [Hj _]; by apply (shared_same A s s' a p i j).
Qed.

Lemma own_path_same A s s' a p i q :
  remaps A s s' a p i → own_path (ph_mem s') q ↔ own_path (ph_mem s) q.
Proof.
  intros Hr. split; intros (Ht&Hl&Hs&Hh); split_and!; try done;
    by rewrite (shared_path_same A s s' a p i q) in * by done.
Qed.

(** The kernel's view depends on its tables only. *)
Lemma blocked_same m m' t p :
  (∀ q c, q `prefix_of` p → node m t q = Some c → page_at m' c = page_at m c) →
  blocked m' t p ↔ blocked m t p.
Proof.
  intros Hs.
  assert (∀ q, q `prefix_of` p → node m' t q = node m t q) as Hn.
  { intros q Hq. apply node_same. intros q1 i r c Hq1 Hc. apply entry_page_at, (Hs q1); [|done].
    trans q; [rewrite Hq1; by eexists|done]. }
  unfold blocked. split; intros (q&j&r&c&->&Hc&He&Hnt); exists q, j, r, c;
    assert (q `prefix_of` q ++ j :: r) as Hq by (by eexists).
  - rewrite (Hn q Hq) in Hc. pose proof (entry_page_at _ _ _ (Hs q c Hq Hc) j) as Hj.
    unfold next_table in *. by rewrite Hj in *.
  - rewrite (Hn q Hq). pose proof (entry_page_at _ _ _ (Hs q c Hq Hc) j) as Hj.
    unfold next_table in *. by rewrite Hj.
Qed.

Lemma kfree_pages m m' p i :
  (∀ q c, q `prefix_of` p → node m K q = Some c → page_at m' c = page_at m c) →
  kfree m' p i ↔ kfree m p i.
Proof.
  intros Hs. unfold kfree. rewrite (blocked_same m m') by done.
  assert (leaf m' K p i = leaf m K p i) as ->; [|done].
  unfold leaf. rewrite (node_same m m' K p).
  - destruct (node m K p) as [c|] eqn:Hc; [|done]. simpl. f_equal. apply entry_page_at, (Hs p c); done.
  - intros q j r c -> Hc. apply entry_page_at, (Hs q); [by eexists|done].
Qed.

Lemma kfree_same A s s' a p i q j :
  remaps A s s' a p i → tpath q → kfree (ph_mem s') q j ↔ kfree (ph_mem s) q j.
Proof.
  intros Hr Hq. apply kfree_pages. intros q' c Hq'.
  apply (rm_kernel _ _ _ _ _ _ Hr). by eapply tpath_prefix.
Qed.

Lemma shared_path_prefix m p q : p `prefix_of` q → shared_path m p → shared_path m q.
Proof. intros [r ->] (i&r'&->&Hs). exists i, (r' ++ r). done. Qed.

(** What the new leaf has to satisfy. *)
Definition leaf_fits A s (a : Z) (p : list Z) (i e : Z) : Prop :=
  not_table A (ph_mem s) (pte_addr e) ∧ ¬ future s (pte_addr e) ∧
  ∀ b q j e', space A b → tpath q → idx_ok j → user_leaf (ph_mem s) b q j e' →
    (b, q, j) ≠ (a, p, i) → pte_addr e' = pte_addr e → writable e' = false ∧ writable e = false.

Section remaps_ok.
Context A s s' a p i (Hok : vm_ok A s) (Hr : remaps A s s' a p i).
Context (Ha : a ∈ A) (Hp : own_path (ph_mem s) p) (Hi : idx_ok i) (Hkf : kfree (ph_mem s) p i).
Context (Hfit : ∀ e, user_leaf (ph_mem s') a p i e → leaf_fits A s a p i e).

Lemma remaps_sep b c q r f :
    space A b → space A c → tpath q → tpath r →
    node (ph_mem s') b q = Some f → node (ph_mem s') c r = Some f →
    q = r ∧ (b = c ∨ shared_path (ph_mem s) q).
Proof.
  intros Hb Hc Hq Hr' Hbq Hcr. pose proof Hp as (Hpt&_).
  pose proof Hbq as Hbq0. pose proof Hcr as Hcr0.
  apply (rm_new _ _ _ _ _ _ Hr) in Hbq, Hcr; [|done..].
  destruct Hbq as [Hbq|(->&Hq1&Hq2&Hq3&Hq4)], Hcr as [Hcr|(->&Hr1&Hr2&Hr3&Hr4)].
  - eapply (vo_sep _ _ Hok b c); eauto.
  - exfalso. by eapply (vo_used _ _ Hok b q f).
  - exfalso. by eapply (vo_used _ _ Hok c r f).
  - split; [|by left]. by eapply (rm_distinct _ _ _ _ _ _ Hr).
Qed.

Lemma remaps_ok : vm_ok A s'.
Proof.
  pose proof (shared_path_same A s s' a p i) as Hsp.
  pose proof (own_path_same A s s' a p i) as Hop.
  assert (space A a) as Has by (by left). pose proof Hp as (Hpt&_).
  assert (∀ b q j e, space A b → tpath q → idx_ok j → user_leaf (ph_mem s') b q j e →
    ((b, q, j) = (a, p, i) ∧ leaf_fits A s a p i e) ∨
    (b, q, j) ≠ (a, p, i) ∧ user_leaf (ph_mem s) b q j e) as Hcase.
  { intros b q j e Hb Hq Hj Hu. destruct (decide ((b, q, j) = (a, p, i))) as [[= -> -> ->]|Hne].
    - left. eauto.
    - right. split; [done|]. by apply (rm_user A s s' a p i). }
  split.
  - eapply extends_fa_ok; [apply (rm_extends _ _ _ _ _ _ Hr)|apply Hok].
  - apply Hok.
  - apply Hok.
  - intros b j Hb Hj Hs. rewrite (shared_same A s s' a p i) in Hs by done.
    rewrite (rm_top _ _ _ _ _ _ Hr b j), (rm_top _ _ _ _ _ _ Hr K j);
      [by apply Hok|unfold space; auto..].
  - intros b c q r f Hb Hc Hq Hr' Hbq Hcr. rewrite Hsp by done. by eapply remaps_sep.
  - intros b q f Hb Hq Hn Hfut. apply (rm_new _ _ _ _ _ _ Hr) in Hn; [|done..].
    destruct Hn as [Hn|(_&_&_&_&Hn)]; [|done].
    eapply (vo_used _ _ Hok); eauto. eapply extends_future; [apply (rm_extends _ _ _ _ _ _ Hr)|done].
  - intros b q j e Hb Hq Hj Hu. rewrite Hop, (kfree_same A s s' a p i) by done.
    destruct (Hcase b q j e Hb Hq Hj Hu) as [[[= -> -> ->] _]|[_ Hu']]; [done|].
    by eapply (vo_user _ _ Hok).
  - intros b q j e c r Hb Hq Hj Hu Hc Hr' Hn.
    assert (¬ future s (pte_addr e) ∧ not_table A (ph_mem s) (pte_addr e)) as [Hf Ht].
    { destruct (Hcase b q j e Hb Hq Hj Hu) as [[_ (?&?&_)]|[_ Hu']]; [done|].
      split; [by eapply (vo_live _ _ Hok b q j)|]. intros x y Hx Hy. exact (vo_data _ _ Hok b q j e x y Hb Hq Hj Hu' Hx Hy). }
    destruct (rm_new _ _ _ _ _ _ Hr _ _ _ Hc Hr' Hn) as [Hn'|(_&_&_&Hn'&_)]; [by eapply Ht|done].
  - intros b q j e Hb Hq Hj Hu Hf.
    apply (extends_future _ _ _ (rm_extends _ _ _ _ _ _ Hr)) in Hf.
    destruct (Hcase b q j e Hb Hq Hj Hu) as [[_ (_&Hfr&_)]|[_ Hu']]; [done|].
    by eapply (vo_live _ _ Hok).
  - intros b q j e c r k e' Hb Hq Hj Hu Hc Hr' Hk Hu' Heq Hw.
    destruct (Hcase b q j e Hb Hq Hj Hu) as [[[= -> -> ->] (_&_&Hx)]|[Hne Hv]];
    destruct (Hcase c r k e' Hc Hr' Hk Hu') as [[[= -> -> ->] (_&_&Hx')]|[Hne' Hv']]; try done.
    + destruct (Hx c r k e') as [_ ?]; [done..|congruence].
    + destruct (Hx' b q j e) as [? _]; [done..|congruence].
    + by eapply (vo_cow _ _ Hok b q j e).
Qed.
End remaps_ok.

(** ** A rewritten leaf *)

Lemma leaf_node m a p i e : leaf m a p i = Some e ↔ ∃ t, node m a p = Some t ∧ entry m t i = e.
Proof. unfold leaf. rewrite fmap_Some. naive_solver. Qed.

Lemma set_leaf_remaps A s a p i l1 e' :
  vm_ok A s → a ∈ A → own_path (ph_mem s) p → idx_ok i →
  node (ph_mem s) a p = Some l1 →
  remaps A s (Phys (set_entry (ph_mem s) l1 i e') (ph_fa s)) a p i ∧
  leaf (set_entry (ph_mem s) l1 i e') a p i = Some e'.
Proof.
  intros Hok Ha (Hpt&Hlen&Hs&Hh) Hi Hn. assert (space A a) as Has by (by left).
  assert (∀ b q, space A b → tpath q →
    node (set_entry (ph_mem s) l1 i e') b q = node (ph_mem s) b q) as Hnode.
  { intros b q Hb Hq. apply node_same. intros q1 j r c -> Hc.
    rewrite entry_set_entry. rewrite decide_False; [done|]. intros [<- <-].
    destruct (vo_sep _ _ Hok b a q1 p l1) as [-> _]; eauto using tpath_app_l.
    destruct Hq as [Hq _]. rewrite length_app in Hq. simpl in Hq. lia. }
  split.
  - split; simpl.
    + split; simpl; [done|lia].
    + intros b q f Hb Hq. by rewrite Hnode.
    + intros b q f Hb Hq. rewrite Hnode by done. by left.
    + intros q q' f Hq Hq'. rewrite !Hnode by (done || by eapply tpath_prefix).
      intros H1 H2. eapply (vo_sep _ _ Hok a a q q' f); eauto using tpath_prefix.
    + intros b q j e Hb Hq Hl Hj Hne _. rewrite !leaf_node, Hnode by done.
      assert (∀ t, node (ph_mem s) b q = Some t →
        entry (set_entry (ph_mem s) l1 i e') t j = entry (ph_mem s) t j) as He.
      { intros t Ht. rewrite entry_set_entry, decide_False; [done|]. intros [<- <-].
        destruct (vo_sep _ _ Hok b a q p l1) as [-> [->|?]]; eauto. }
      split; intros (t&Ht&<-); exists t; by rewrite ?He.
    + intros b j Hb Hj Hsh. rewrite entry_set_entry, decide_False; [done|]. intros [-> ->].
      destruct (vo_sep _ _ Hok b a [] p b) as [<- _]; try done. by split; simpl; [lia|].
    + intros q c Hq Hc. apply page_at_set_entry. intros ->.
      assert (space A K) as HK by (by right).
      destruct (vo_sep _ _ Hok K a q p l1 HK Has Hq Hpt Hc Hn) as [-> [HKa|Hsh]]; [|done].
      apply (vo_kernel _ _ Hok). by rewrite HKa.
    + intros q Hq (q1&j&r&c&->&Hc&He&Hnt). exists q1, j, r, c.
      assert (tpath q1) as Hq1 by (by eapply tpath_app_l).
      rewrite Hnode in Hc by done. split_and!; try done; unfold next_table in *;
        rewrite entry_set_entry, decide_False in *; try done; intros [<- <-].
      all: destruct (vo_sep _ _ Hok a a q1 p l1) as [-> _]; try done.
      all: destruct Hq as [Hq _]; rewrite length_app in Hq; simpl in Hq; lia.
    + intros f Hf _. unfold set_entry. rewrite page_at_insert, decide_False; [done|].
      intros ->. by eapply Hf.
  - apply leaf_node. exists l1. rewrite Hnode by done. split; [done|].
    by rewrite entry_set_entry, decide_True.
Qed.

(** Two changes of the same leaf. *)
Lemma remaps_trans A s s1 s2 a p i :
  remaps A s s1 a p i → remaps A s1 s2 a p i → remaps A s s2 a p i.
Proof.
  intros H1 H2. assert (extends s s1) as Hx1 by apply H1. assert (extends s1 s2) as Hx2 by apply H2.
  split.
  - by trans s1.
  - intros b q f Hb Hq Hf. by apply (rm_nodes _ _ _ _ _ _ H2), (rm_nodes _ _ _ _ _ _ H1).
  - intros b q f Hb Hq Hf. apply (rm_new _ _ _ _ _ _ H2) in Hf; [|done..].
    destruct Hf as [Hf|(->&Hpre&Hnone&Ht)].
    + apply (rm_new _ _ _ _ _ _ H1) in Hf; [|done..]. destruct Hf as [|(->&?&?&?)]; [by left|right].
      split_and!; try done. by eapply (taken_trans_l s s1).
    + right. split_and!; try done; [|by eapply (taken_trans_r s s1)].
      destruct (node (ph_mem s) a q) as [c|] eqn:Hc; [|done].
      apply (rm_nodes _ _ _ _ _ _ H1) in Hc; [congruence|done..].
  - apply (rm_distinct _ _ _ _ _ _ H2).
  - intros b q j e Hb Hq Hl Hj Hne He. rewrite (rm_leaves _ _ _ _ _ _ H2) by done.
    by apply (rm_leaves _ _ _ _ _ _ H1).
  - intros b j Hb Hj Hs. rewrite (rm_top _ _ _ _ _ _ H2); [by apply (rm_top _ _ _ _ _ _ H1)|done..|].
    destruct Hs as [|Hs]; [by left|right]. by apply (shared_same A s s1 a p i).
  - intros q c Hq Hc. rewrite (rm_kernel _ _ _ _ _ _ H2 q); [by apply (rm_kernel _ _ _ _ _ _ H1 q)|done|].
    apply (rm_nodes _ _ _ _ _ _ H1); [by right|done..].
  - intros q Hq Hb. by apply (rm_blocked _ _ _ _ _ _ H1), (rm_blocked _ _ _ _ _ _ H2).
  - intros f Hf Ht. rewrite (rm_data _ _ _ _ _ _ H2).
    + apply (rm_data _ _ _ _ _ _ H1); [done|]. intros Ht1. apply Ht. by eapply (taken_trans_l s s1).
    + intros b q Hb Hq Hn. apply (rm_new _ _ _ _ _ _ H1) in Hn; [|done..].
      destruct Hn as [Hn|(_&_&_&Hn)]; [by eapply Hf|]. apply Ht. by eapply (taken_trans_l s s1).
    + intros Ht2. apply Ht. by eapply (taken_trans_r s s1).
Qed.

(** ** A mapped page *)

Lemma own_path_ok A s a p : vm_ok A s → a ∈ A → own_path (ph_mem s) p → path_ok s a p.
Proof.
  intros Hok Ha (Hpt&_). assert (space A a) as Has by (by left). split.
  - intros q q' c Hq Hq' H1 H2. eapply (vo_sep _ _ Hok a a q q' c); eauto using tpath_prefix.
  - intros q c Hq Hn. by eapply (vo_used _ _ Hok a q c Has (tpath_prefix _ _ Hq Hpt)).
Qed.

Section map_to_ok.
Context A s s' a p (i f fl : Z) (r : outcome map_to_error unit) (Hok : vm_ok A s) (Ha : a ∈ A).
Context (Hp : own_path (ph_mem s) p) (Hi : idx_ok i).
Context (Hm : map_to_post r s s' a p i f fl).

(** A table that is not on the way keeps its page. *)
Lemma map_to_off_path b q c :
    space A b → tpath q → node (ph_mem s) b q = Some c →
    (b, q) ≠ (a, q) ∨ ¬ q `prefix_of` p →
    page_at (ph_mem s') c = page_at (ph_mem s) c.
Proof.
    intros Hb Hq Hc Hoff. destruct Hp as (Hpt&_&Hs&_). apply (mp_other _ _ _ _ _ _ _ _ Hm).
    - intros q0 Hq0 Hn. assert (tpath q0) by (by eapply tpath_prefix).
      destruct (vo_sep _ _ Hok b a q q0 c) as [-> [->|Hsh]]; try done; [by left|naive_solver|].
      by apply Hs, (shared_path_prefix _ q0).
    - intros [Hfut _]. by eapply (vo_used _ _ Hok b q c).
Qed.

(** What a walk sees behind entry [j] of an old table. *)
Lemma map_to_old_table b q c j :
    space A b → tpath q → node (ph_mem s) b q = Some c →
    entry (ph_mem s') c j = entry (ph_mem s) c j ∨
    b = a ∧ q ++ [j] `prefix_of` p ++ [i].
Proof.
    intros Hb Hq Hc.
    destruct (decide (b = a)) as [->|]; [destruct (decide (q `prefix_of` p)) as [Hpre|]|].
    - destruct (prefix_next q p i Hpre) as (k&rest&Hk).
      destruct (decide (j = k)) as [->|Hne].
      + right. split; [done|]. rewrite Hk. exists rest. by rewrite <-app_assoc.
      + left. by eapply (mp_siblings _ _ _ _ _ _ _ _ Hm).
    - left. apply entry_page_at. apply (map_to_off_path a q c); auto.
    - left. apply entry_page_at. apply (map_to_off_path b q c); auto. left. congruence.
Qed.

Lemma next_table_entry (m m' : pmem) c j :
    entry m' c j = entry m c j → next_table m' c j = next_table m c j.
Proof. unfold next_table. by intros ->. Qed.

Lemma map_to_keeps b q c :
    space A b → tpath q → node (ph_mem s) b q = Some c → node (ph_mem s') b q = Some c.
Proof.
    intros Hb. revert c. induction q as [|j q IH] using rev_ind; intros c Hq Hc; [done|].
    rewrite node_snoc in Hc. apply bind_Some in Hc as (d&Hd&Hj).
    assert (tpath q) as Hq' by (by eapply tpath_app_l).
    rewrite node_snoc, (IH d) by done. simpl.
    destruct (map_to_old_table b q d j) as [He|[-> Hpre]]; try done.
    - by rewrite (next_table_entry _ _ _ _ He).
    - destruct (decide (q ++ [j] `prefix_of` p)) as [Hpre'|Hnp].
      + destruct (prefix_snoc_inv _ _ _ Hpre') as [rest ->].
        by eapply (mp_links _ _ _ _ _ _ _ _ Hm).
      + exfalso. destruct Hp as (_&Hlen&_). destruct Hq as [Hq _].
        destruct Hpre as [[|k rest] Hpre].
        * rewrite app_nil_r in Hpre. apply (f_equal length) in Hpre.
          rewrite !length_app in Hpre. simpl in *. rewrite length_app in Hq. simpl in Hq. lia.
        * destruct rest as [|x rest _] using rev_ind.
          { apply app_inj_tail in Hpre as [-> _]. by apply Hnp. }
          apply Hnp. rewrite app_comm_cons, app_assoc in Hpre.
          apply app_inj_tail in Hpre as [-> _]. by eexists.
Qed.

Lemma map_to_new b q c :
    space A b → tpath q → node (ph_mem s') b q = Some c →
    node (ph_mem s) b q = Some c ∨
    b = a ∧ q `prefix_of` p ∧ node (ph_mem s) a q = None ∧ taken s s' c.
Proof.
    intros Hb. revert c. induction q as [|j q IH] using rev_ind; intros c Hq Hc; [by left|].
    pose proof Hc as Hc0.
    rewrite node_snoc in Hc. apply bind_Some in Hc as (d&Hd&Hj).
    assert (tpath q) as Hq' by (by eapply tpath_app_l).
    assert (b = a → q ++ [j] `prefix_of` p →
      node (ph_mem s) b (q ++ [j]) = Some c ∨
      b = a ∧ q ++ [j] `prefix_of` p ∧ node (ph_mem s) a (q ++ [j]) = None ∧ taken s s' c)
      as Hon.
    { intros -> Hpre. destruct (prefix_next _ _ i Hpre) as (k&rest&Hk).
      destruct (mp_new _ _ _ _ _ _ _ _ Hm _ _ _ _ Hk Hc0) as [?|(?&?&_)]; [by left|by right]. }
    assert (q ++ [j] `prefix_of` p ++ [i] → q ++ [j] `prefix_of` p) as Hcut.
    { intros [rest Hk]. destruct Hp as (_&Hlen&_). destruct Hq as [Hq _].
      destruct rest as [|x rest _] using rev_ind.
      - apply (f_equal length) in Hk. rewrite app_nil_r, !length_app in Hk.
        rewrite length_app in Hq. simpl in *. lia.
      - rewrite app_assoc in Hk. apply app_inj_tail in Hk as [-> _]. by eexists. }
    destruct (IH d Hq' Hd) as [Hd'|(->&Hpre&Hnone&Htk)].
    - destruct (map_to_old_table b q d j) as [He|[-> Hpre]]; try done; [|by auto].
      left. rewrite node_snoc, Hd'. simpl. by rewrite <-(next_table_entry _ _ _ _ He).
    - destruct (prefix_next q p i Hpre) as (k&rest&Hk).
      destruct (mp_new _ _ _ _ _ _ _ _ Hm _ _ _ _ Hk Hd) as [?|(_&_&Hz)]; [congruence|].
      destruct (decide (j = k)) as [->|Hne].
      + apply Hon; [done|]. apply Hcut. rewrite Hk. exists rest. by rewrite <-app_assoc.
      + exfalso. unfold next_table in Hj. rewrite Hz in Hj by done. done.
Qed.

Lemma map_to_remaps : remaps A s s' a p i.
Proof.
    assert (space A a) as Has by (by left). pose proof Hp as (Hpt&Hlen&Hs&_). split.
    - apply (mp_extends _ _ _ _ _ _ _ _ Hm).
    - exact map_to_keeps.
    - exact map_to_new.
    - apply (mp_distinct _ _ _ _ _ _ _ _ Hm).
    - intros b q j e Hb Hq Hl Hj Hne He0. rewrite !leaf_node.
      split; intros (t&Ht&He).
      + exists t. destruct (map_to_new b q t Hb Hq Ht) as [Ht'|(->&Hpre&Hnone&_)].
        * split; [done|]. destruct (map_to_old_table b q t j) as [<-|[-> [rest Hrest]]]; try done.
          exfalso. apply Hne. assert (q ++ [j] = p ++ [i]) as [-> ->]%app_inj_tail; [|done].
          rewrite Hrest. destruct rest; [by rewrite app_nil_r|].
          apply (f_equal length) in Hrest. rewrite !length_app in Hrest. simpl in Hrest. lia.
        * exfalso. assert (q = p) as ->.
          { destruct Hpre as [[|? ?] ->]; [by rewrite app_nil_r|]. rewrite length_app in Hlen. simpl in Hlen. lia. }
          destruct (mp_new _ _ _ _ _ _ _ _ Hm p i [] t eq_refl Ht) as [Ht'|(_&_&Hz)]; [congruence|].
          rewrite Hz in He by congruence. done.
      + exists t. split; [by apply map_to_keeps|].
        destruct (map_to_old_table b q t j) as [->|[-> [rest Hrest]]]; try done.
        exfalso. apply Hne. assert (q ++ [j] = p ++ [i]) as [-> ->]%app_inj_tail; [|done].
        rewrite Hrest. destruct rest; [by rewrite app_nil_r|].
        apply (f_equal length) in Hrest. rewrite !length_app in Hrest. simpl in Hrest. lia.
    - intros b j Hb Hj Hsh. destruct (map_to_old_table b [] b j Hb tpath_nil eq_refl) as [|[-> Hpre]]; [done|exfalso]. destruct Hsh as [->|Hsh]; [by apply (vo_kernel _ _ Hok)|].
      destruct p as [|k p']; [done|]. apply Hs. destruct Hpre as [? [= Hkj _]]. exists k, p'. by subst j.
    - intros q c Hq Hc. apply (map_to_off_path K q c); [by right|done..|]. left.
      intros [= HKa]. apply (vo_kernel _ _ Hok). by rewrite HKa.
    - intros q Hq (q1&j&rest&c&->&Hc&He&Hnt). exists q1, j, rest, c.
      assert (tpath q1) as Hq1 by (by eapply tpath_app_l).
      destruct (decide (q1 ++ [j] `prefix_of` p)) as [Hpre|Hnp].
      + destruct (prefix_snoc_inv _ _ _ Hpre) as [r' Hr'].
        destruct (mp_huge _ _ _ _ _ _ _ _ Hm q1 j r' c) as (?&?&?); done.
      + assert (¬ q1 ++ [j] `prefix_of` p ++ [i]) as Hnp'.
        { intros [x Hx]. destruct x as [|y x _] using rev_ind.
          - apply (f_equal length) in Hx. rewrite app_nil_r, !length_app in Hx. simpl in Hx.
            destruct Hq as [Hq _]. rewrite length_app in Hq. simpl in Hq. lia.
          - rewrite app_assoc in Hx. apply app_inj_tail in Hx as [-> _]. apply Hnp. by eexists. }
        destruct (map_to_new a q1 c Has Hq1 Hc) as [Hc'|(_&Hpre&Hnone&_)].
        * destruct (map_to_old_table a q1 c j Has Hq1 Hc') as [Hj|[_ ?]]; [|done].
          unfold next_table in *. by rewrite Hj in *.
        * exfalso. destruct (prefix_next q1 p i Hpre) as (k&r'&Hk).
          destruct (mp_new _ _ _ _ _ _ _ _ Hm q1 k r' c Hk Hc) as [Hc'|(_&_&Hz)]; [congruence|].
          rewrite Hz in He; [done|]. intros ->. apply Hnp'. rewrite Hk. exists r'.
          by rewrite <-app_assoc.
    - intros g Hg Hnt. apply (mp_other _ _ _ _ _ _ _ _ Hm); [|done].
      intros q Hq. apply Hg; [done|]. by eapply tpath_prefix.
Qed.
End map_to_ok.

(** ** Steps that leave every table alone *)

Definition quiet A s s' : Prop :=
  extends s s' ∧ ∀ b q c, space A b → tpath q → node (ph_mem s) b q = Some c →
    page_at (ph_mem s') c = page_at (ph_mem s) c.

Section quiet_ok.
Context A s s' (Hq : quiet A s s').

Lemma quiet_node b q : space A b → tpath q → node (ph_mem s') b q = node (ph_mem s) b q.
Proof.
    intros Hb Hp. apply node_same. intros q1 j r c -> Hc.
    symmetry. apply entry_page_at. symmetry. by eapply (proj2 Hq b q1); eauto using tpath_app_l.
Qed.

Lemma quiet_entry b q c i :
    space A b → tpath q → node (ph_mem s) b q = Some c →
    entry (ph_mem s') c i = entry (ph_mem s) c i.
Proof. intros. apply entry_page_at. by eapply (proj2 Hq b q). Qed.

Lemma quiet_leaf b q i : space A b → tpath q → leaf (ph_mem s') b q i = leaf (ph_mem s) b q i.
Proof.
    intros Hb Hp. unfold leaf. rewrite quiet_node by done.
    destruct (node (ph_mem s) b q) as [c|] eqn:Hc; [|done]. simpl. f_equal.
    by eapply (quiet_entry b q).
Qed.

Lemma quiet_user b q i e :
    space A b → tpath q → user_leaf (ph_mem s') b q i e ↔ user_leaf (ph_mem s) b q i e.
Proof. intros. unfold user_leaf. by rewrite quiet_leaf. Qed.

Lemma quiet_top b i : space A b → entry (ph_mem s') b i = entry (ph_mem s) b i.
Proof. intros. by eapply (quiet_entry b []); [|apply tpath_nil|]. Qed.

Lemma quiet_shared i : shared (ph_mem s') i ↔ shared (ph_mem s) i.
Proof. unfold shared. by rewrite quiet_top by (unfold space; auto). Qed.

Lemma quiet_shared_path q : shared_path (ph_mem s') q ↔ shared_path (ph_mem s) q.
Proof. unfold shared_path. by setoid_rewrite quiet_shared. Qed.

Lemma quiet_own q : own_path (ph_mem s') q ↔ own_path (ph_mem s) q.
Proof. unfold own_path. by rewrite quiet_shared_path. Qed.

Lemma quiet_kfree q i : tpath q → kfree (ph_mem s') q i ↔ kfree (ph_mem s) q i.
Proof.
    intros Hp. apply kfree_pages. intros q' c Hq'. apply (proj2 Hq); [by right|].
    by eapply tpath_prefix.
Qed.

Lemma quiet_not_table f : not_table A (ph_mem s') f ↔ not_table A (ph_mem s) f.
Proof. unfold not_table. split; intros Hf b q Hb Hp;
    [rewrite <-quiet_node by done|rewrite quiet_node by done]; auto. Qed.

Lemma quiet_ok : vm_ok A s → vm_ok A s'.
Proof.
    intros Hok. destruct Hq as [Hx _]. split.
    - eapply extends_fa_ok; [done|apply Hok].
    - apply Hok.
    - apply Hok.
    - intros a i Ha Hi. rewrite quiet_shared, (quiet_top a) by (by left).
      rewrite (quiet_top K) by (by right). by apply (vo_shared _ _ Hok).
    - intros a b p q f Ha Hb Hp Hp'. rewrite quiet_shared_path, !quiet_node by done.
      by apply (vo_sep _ _ Hok).
    - intros a p f Ha Hp. rewrite quiet_node by done. intros Hn Hf.
      eapply (vo_used _ _ Hok); eauto. by eapply extends_future.
    - intros a p i e Ha Hp. rewrite quiet_user, quiet_own, quiet_kfree by done.
      by apply (vo_user _ _ Hok).
    - intros a p i e b q Ha Hp Hi. rewrite quiet_user by done. intros Hu Hb Hp'.
      rewrite quiet_node by done. by apply (vo_data _ _ Hok a p i).
    - intros a p i e Ha Hp Hi. rewrite quiet_user by done. intros Hu Hf.
      eapply (vo_live _ _ Hok); eauto. by eapply extends_future.
    - intros a p i e b q j e' Ha Hp Hi. rewrite quiet_user by done. intros Hu Hb Hp'.
      rewrite quiet_user by done. by apply (vo_cow _ _ Hok).
Qed.
End quiet_ok.

(** Writing a page that is no table, and taking a frame. *)
Lemma quiet_write A s f pg :
  not_table A (ph_mem s) f → quiet A s (Phys (<[f := pg]> (ph_mem s)) (ph_fa s)).
Proof.
  intros Hf. split; [split; simpl; [done|lia]|]. simpl. intros b q c Hb Hp Hc.
  rewrite page_at_insert, decide_False; [done|]. intros ->. by eapply Hf.
Qed.

Lemma quiet_alloc A s s' r : alloc_frame s = (r, s') → quiet A s s'.
Proof.
  unfold alloc_frame. simpl. intros [= _ <-]. split; [split; simpl; [done|lia]|done].
Qed.

Lemma quiet_trans A s1 s2 s3 : quiet A s1 s2 → quiet A s2 s3 → quiet A s1 s3.
Proof.
  intros H1 H2. split; [trans s2; [apply H1|apply H2]|]. intros b q c Hb Hp Hc.
  rewrite (proj2 H2 b q c), (proj2 H1 b q c); try done. by rewrite (quiet_node A s1 s2).
Qed.

(** A frame still to come is no table; nor is one no user page. *)
Lemma future_not_table A s f : vm_ok A s → future s f → not_table A (ph_mem s) f.
Proof. intros Hok Hf b q Hb Hp Hn. by eapply (vo_used _ _ Hok b q f). Qed.
End spec.
