(* ===== verification/MemoryCopy.v ===== *)
(** * Copying a tree of page tables

    [deep_copy_table] makes a tree of fresh tables with the same leaves;
    [create_user_mapper] makes an address space without user pages out of it,
    apart from all others. *)

From S2P Require Import Prelude Frames Paging Memory MemorySpec.

(** The tables of depth at most [n] under [dst] in [m'] are new and distinct;
    the leaves below index [k] of the top table are those under [src] in [m]. *)
Record copied (new : Z → Prop) (n : nat) (k : Z) (m m' : pmem) (src dst : Z) : Prop := {
  cp_new p c : (length p ≤ n)%nat → Forall idx_ok p → node m' dst p = Some c → new c;
  cp_distinct p q c : (length p ≤ n)%nat → Forall idx_ok p → (length q ≤ n)%nat → Forall idx_ok q →
    node m' dst p = Some c → node m' dst q = Some c → p = q;
  cp_blocked p j r : (length p ≤ n)%nat → Forall idx_ok p → p = j :: r → j < k →
    blocked m' dst p → blocked m src p;
  cp_leaf p i j r : length p = n → Forall idx_ok (p ++ [i]) → p ++ [i] = j :: r → j < k →
    leaf m' dst p i = leaf m src p i;
}.

(** The source tree is in use: none of its tables is still to come. *)
Definition tree_used (s : phys) (n : nat) (src : Z) : Prop :=
  ∀ p c, (length p ≤ n)%nat → Forall idx_ok p → node (ph_mem s) src p = Some c → ¬ future s c.

Lemma copied_leaf new n m m' src dst p i :
  copied new n 512 m m' src dst → length p = n → Forall idx_ok (p ++ [i]) →
  leaf m' dst p i = leaf m src p i.
Proof.
  intros Hc Hl Hf. destruct (p ++ [i]) as [|j r] eqn:Hpi; [by destruct p|].
  eapply (cp_leaf _ _ _ _ _ _ _ Hc); [done|by rewrite Hpi|done|].
  apply Forall_cons in Hf as [Hj _]. unfold idx_ok in Hj. lia.
Qed.

Lemma copied_blocked new n m m' src dst p :
  copied new n 512 m m' src dst → (length p ≤ n)%nat → Forall idx_ok p →
  blocked m' dst p → blocked m src p.
Proof.
  intros Hc Hl Hf Hb. destruct p as [|j r]; [by destruct Hb as ([]&?&?&?&?&_)|].
  eapply (cp_blocked _ _ _ _ _ _ _ Hc); [done..| |done].
  apply Forall_cons in Hf as [Hj _]. unfold idx_ok in Hj. lia.
Qed.

Lemma blocked_cons m t j p :
  blocked m t (j :: p) ↔
    (entry m t j ≠ 0 ∧ next_table m t j = None) ∨ ∃ c, next_table m t j = Some c ∧ blocked m c p.
Proof.
  unfold blocked. split.
  - intros ([|j' q]&i&r&d&Hp&Hd&He&Hn).
    + injection Hp as -> ->. injection Hd as ->. by left.
    + injection Hp as -> ->. simpl in Hd. apply bind_Some in Hd as (c&Hc&Hd).
      right. exists c. split; [done|]. by exists q, i, r, d.
  - intros [[He Hn]|(c&Hc&q&i&r&d&->&Hd&He&Hn)].
    + by exists [], j, p, t.
    + exists (j :: q), i, r, d. split_and!; try done. simpl. by rewrite Hc.
Qed.

Lemma leaf_cons m t i p j :
  leaf m t (i :: p) j = next_table m t i ≫= λ c, leaf m c p j.
Proof. unfold leaf. simpl. by destruct (next_table m t i). Qed.

Lemma node_pages m m' t p :
  (∀ q c, q `prefix_of` p → node m t q = Some c → page_at m' c = page_at m c) →
  node m' t p = node m t p.
Proof.
  intros Hs. apply node_same. intros q i r c -> Hc. apply entry_page_at, (Hs q c); [by eexists|done].
Qed.

Lemma leaf_pages m m' t p i :
  (∀ q c, q `prefix_of` p → node m t q = Some c → page_at m' c = page_at m c) →
  leaf m' t p i = leaf m t p i.
Proof.
  intros Hs. unfold leaf. rewrite (node_pages m m') by done.
  destruct (node m t p) as [c|] eqn:Hc; [|done]. simpl. f_equal. apply entry_page_at, (Hs p c); done.
Qed.

Lemma prefix_length_le {X} (p q : list X) n : p `prefix_of` q → (length q ≤ n)%nat → (length p ≤ n)%nat.
Proof. intros [r ->]. rewrite length_app. lia. Qed.
Lemma prefix_Forall {X} (P : X → Prop) (p q : list X) : p `prefix_of` q → Forall P q → Forall P p.
Proof. intros [r ->]. by intros [? _]%Forall_app. Qed.

Lemma next_table_pte m t i c fl :
  frame_ok c → c ≠ 0 → flags_ok fl → contains fl HUGE_PAGE = false →
  entry m t i = pte c fl → next_table m t i = Some c.
Proof.
  intros Hc H0 Hfl Hh He. unfold next_table. rewrite He, pte_flags_pte, pte_addr_pte, Hh by done.
  assert (is_unused (pte c fl) = false) as ->; [|done].
  apply Z.eqb_neq. intros Hz. apply H0. rewrite <-(pte_addr_pte c fl) by done. by rewrite Hz.
Qed.

Section deep_copy.
Context `{Paging}.

(** The state of the loop before index [k]: [s] is where the call began. *)
Record copying (n : nat) (s s1 : phys) (src dst k : Z) : Prop := {
  cy_extends : extends s s1;
  cy_dst : taken s s1 dst;
  cy_pages g : ¬ taken s s1 g → page_at (ph_mem s1) g = page_at (ph_mem s) g;
  cy_rest i : k ≤ i → entry (ph_mem s1) dst i = 0;
  cy_copied : copied (taken s s1) n k (ph_mem s) (ph_mem s1) src dst;
}.

(** One more entry: the word [w] at index [k], with a copied child or none. *)
Section graft.
Context (n : nat) (s s1 s2 : phys) (src dst k w : Z) (Hc : copying n s s1 src dst k) (Hk : idx_ok k).
Context (Hx : extends s1 s2).
Context (Hpages : ∀ g, ¬ taken s1 s2 g → page_at (ph_mem s2) g = page_at (ph_mem s1) g).
Let m3 := set_entry (ph_mem s2) dst k w.
Context (Hword : n = 0%nat → w = entry (ph_mem s) src k).
Context (Hnone : n ≠ 0%nat → next_table m3 dst k = None →
  next_table (ph_mem s) src k = None ∧ (w ≠ 0 → entry (ph_mem s) src k ≠ 0)).
Context (Hsome : ∀ child, n ≠ 0%nat → next_table m3 dst k = Some child →
  ∃ c0, next_table (ph_mem s) src k = Some c0 ∧
  copied (taken s1 s2) (n - 1) 512 (ph_mem s) (ph_mem s2) c0 child).

Lemma graft_other i p :
    (length (i :: p) ≤ n)%nat → Forall idx_ok (i :: p) → i ≠ k →
    node m3 dst (i :: p) = node (ph_mem s1) dst (i :: p) ∧
    (∀ j, leaf m3 dst (i :: p) j = leaf (ph_mem s1) dst (i :: p) j) ∧
    (blocked m3 dst (i :: p) → blocked (ph_mem s1) dst (i :: p)).
Proof.
    intros Hl Hf Hik. pose proof (cy_copied _ _ _ _ _ _ Hc) as [Hn Hd _ _].
    assert (∀ q c j, q `prefix_of` i :: p → node (ph_mem s1) dst q = Some c →
      q = [] ∨ c ≠ dst → j ≠ k ∨ q ≠ [] → entry m3 c j = entry (ph_mem s1) c j) as He.
    { intros q c j Hq Hqc Hne Hj. unfold m3. rewrite entry_set_entry, decide_False.
      - apply entry_page_at, Hpages. intros [Hfut _].
        destruct (Hn q c) as [_ Hcn]; eauto using prefix_length_le, prefix_Forall.
      - intros [-> ->]. naive_solver. }
    assert (∀ q c, q `prefix_of` i :: p → node (ph_mem s1) dst q = Some c → q = [] ∨ c ≠ dst) as Hne.
    { intros q c Hq Hqc. destruct (decide (c = dst)) as [->|]; [left|by right].
      apply (Hd q [] dst); eauto using prefix_length_le, prefix_Forall; simpl; lia. }
    assert (node m3 dst (i :: p) = node (ph_mem s1) dst (i :: p)) as Hnode.
    { apply node_same. intros q j r c Hq Hqc.
      assert (q `prefix_of` i :: p) as Hpre by (by rewrite Hq; eexists).
      apply (He q); eauto. destruct q; [left|by right]. by injection Hq as -> ->. }
    split_and!; [done| |].
    - intros j. unfold leaf. rewrite Hnode.
      destruct (node (ph_mem s1) dst (i :: p)) as [c|] eqn:Hpc; [|done]. simpl. f_equal.
      apply (He (i :: p)); eauto.
    - intros (q&j&r&c&Hq&Hc3&He3&Hn3). exists q, j, r, c.
      assert (q `prefix_of` i :: p) as Hpre by (by rewrite Hq; eexists).
      assert (node (ph_mem s1) dst q = Some c) as Hc1.
      { rewrite <-Hc3. symmetry. apply node_same. intros q1 j1 r1 c1 Hq1 Hqc1.
        assert (q1 `prefix_of` i :: p) by (trans q; [rewrite Hq1; by eexists|done]).
        apply (He q1); eauto. destruct q1; [left|by right]. subst q. by injection Hq as ->. }
      assert (entry m3 c j = entry (ph_mem s1) c j) as Hj.
      { apply (He q); eauto. destruct q; [left|by right]. by injection Hq as ->. }
      unfold next_table in *. by rewrite Hj in *.
Qed.

Lemma graft_child child p :
    (length p ≤ n - 1)%nat → Forall idx_ok p → n ≠ 0%nat → next_table m3 dst k = Some child →
    node m3 dst (k :: p) = node (ph_mem s2) child p ∧
    (∀ j, leaf m3 dst (k :: p) j = leaf (ph_mem s2) child p j) ∧
    (blocked m3 child p → blocked (ph_mem s2) child p).
Proof.
    intros Hl Hf Hn Hch. destruct (Hsome child Hn Hch) as (c0&_&[Hnew _ _ _]).
    assert (∀ q c, q `prefix_of` p → node (ph_mem s2) child q = Some c →
      page_at m3 c = page_at (ph_mem s2) c) as Hpg.
    { intros q c Hq Hqc. unfold m3. apply page_at_set_entry. intros ->.
      destruct (Hnew q dst) as [Hfut _]; eauto using prefix_length_le, prefix_Forall.
      by apply (cy_dst _ _ _ _ _ _ Hc). }
    split_and!.
    - simpl. rewrite Hch. simpl. by apply node_pages.
    - intros j. rewrite leaf_cons, Hch. simpl. by apply leaf_pages.
    - by rewrite (blocked_same (ph_mem s2) m3).
Qed.

Lemma graft_copying : copying n s (Phys m3 (ph_fa s2)) src dst (k + 1).
Proof.
    pose proof Hc as [Hx1 Hdst Hpg Hrest [Hnew Hdis Hblk Hleaf]].
    assert (extends s s2) as Hx2 by (by trans s1).
    assert (¬ future s1 dst) as Hdf by apply Hdst.
    assert (taken s s2 dst) as Hdst2 by (by eapply (taken_trans_l s s1)).
    assert (∀ i p c, (length (i :: p) ≤ n)%nat → Forall idx_ok (i :: p) →
      node m3 dst (i :: p) = Some c →
      (i ≠ k ∧ node (ph_mem s1) dst (i :: p) = Some c ∧ taken s s1 c) ∨
      (i = k ∧ ∃ child, n ≠ 0%nat ∧ next_table m3 dst k = Some child ∧
         node (ph_mem s2) child p = Some c ∧ taken s1 s2 c)) as Hcase.
    { intros i p c Hl Hf Hn. simpl in Hl. destruct (decide (i = k)) as [->|Hik].
      - right. split; [done|]. pose proof Hn as Hn'. simpl in Hn'.
        apply bind_Some in Hn' as (child&Hch&_).
        assert (n ≠ 0%nat) as Hn0 by lia. apply Forall_cons in Hf as [_ Hf].
        destruct (graft_child child p) as [Hg _]; [lia|done..|].
        exists child. rewrite Hg in Hn. split_and!; try done.
        destruct (Hsome child Hn0 Hch) as (c0&_&[Hnew' _ _ _]). apply (Hnew' p); [lia|done..].
      - left. destruct (graft_other i p) as [Hg _]; try done. rewrite Hg in Hn.
        split_and!; try done. by apply (Hnew (i :: p)). }
    split; simpl; [done|done| | |split].
    - intros g Hg. unfold m3. rewrite page_at_set_entry by (intros ->; done).
      rewrite Hpages, Hpg; [done| |]; intros Ht; apply Hg.
      + by eapply (taken_trans_l s s1).
      + by eapply (taken_trans_r s s1).
    - intros i Hi. unfold m3. rewrite entry_set_entry, decide_False by lia.
      rewrite (entry_page_at (ph_mem s2) (ph_mem s1)) by (apply Hpages; by intros [? _]).
      apply Hrest. lia.
    - intros [|i p] c Hl Hf Hn; [by injection Hn as <-|].
      destruct (Hcase i p c Hl Hf Hn) as [(_&_&?)|(_&?&_&_&_&?)].
      + by eapply (taken_trans_l s s1).
      + by eapply (taken_trans_r s s1).
    - intros [|i p] [|j q] c Hlp Hfp Hlq Hfq Hp Hq; [done|..].
      + injection Hp as <-. destruct (Hcase j q dst Hlq Hfq Hq) as [(_&Hq'&_)|(_&?&_&_&_&[? _])]; [|done].
        by apply (Hdis [] (j :: q) dst).
      + injection Hq as <-. destruct (Hcase i p dst Hlp Hfp Hp) as [(_&Hp'&_)|(_&?&_&_&_&[? _])]; [|done].
        by apply (Hdis (i :: p) [] dst).
      + destruct (Hcase i p c Hlp Hfp Hp) as [(_&Hp'&Ht)|(->&ch&Hn0&Hch&Hp'&Ht)],
          (Hcase j q c Hlq Hfq Hq) as [(_&Hq'&Ht')|(->&ch'&_&Hch'&Hq'&Ht')].
        * by apply (Hdis (i :: p) (j :: q) c).
        * by destruct Ht, Ht'.
        * by destruct Ht, Ht'.
        * assert (ch' = ch) as -> by congruence. f_equal.
          destruct (Hsome ch Hn0 Hch) as (c0&_&[_ Hdis' _ _]). simpl in Hlp, Hlq.
          apply Forall_cons in Hfp as [_ Hfp], Hfq as [_ Hfq].
          apply (Hdis' p q c); [lia|done|lia|done..].
    - intros p j r Hl Hf -> Hj Hb. destruct (decide (j = k)) as [->|Hjk].
      + assert (n ≠ 0%nat) as Hn0 by (simpl in Hl; lia). apply Forall_cons in Hf as [_ Hf].
        apply blocked_cons in Hb as [[He Hb]|(child&Hch&Hb)]; apply blocked_cons.
        * left. destruct (Hnone Hn0 Hb) as [Hsn Hsw]. split; [|done]. apply Hsw.
          unfold m3 in He. by rewrite entry_set_entry, decide_True in He.
        * right. destruct (Hsome child Hn0 Hch) as (c0&Hc0&Hcp). exists c0. split; [done|].
          simpl in Hl. eapply copied_blocked; [done|lia|done|].
          apply (graft_child child r); [lia|done..].
      + apply (Hblk (j :: r) j r); [done..|lia|]. by apply graft_other.
    - intros p i j r Hl Hf Hpi Hj. destruct p as [|j' p].
      + injection Hpi as -> _. simpl in Hl. unfold leaf. simpl. f_equal.
        unfold m3. rewrite entry_set_entry. destruct (decide (dst = dst ∧ k = j)) as [[_ <-]|Hne].
        * by apply Hword.
        * rewrite (entry_page_at (ph_mem s2) (ph_mem s1)) by (apply Hpages; by intros [? _]).
          assert (leaf (ph_mem s1) dst [] j = leaf (ph_mem s) src [] j) as Hlf.
          { apply (Hleaf [] j j []); [done|done|done|]. naive_solver lia. }
          unfold leaf in Hlf. simpl in Hlf. congruence.
      + injection Hpi as -> Hr. pose proof Hf as Hf0. apply Forall_app in Hf as [Hf _].
        destruct (decide (j = k)) as [->|Hjk].
        * assert (n ≠ 0%nat) as Hn0 by (simpl in Hl; lia).
          pose proof (graft_child) as Hgc. pose proof Hnone as Hno. pose proof Hsome as Hso.
          destruct (next_table m3 dst k) as [child|] eqn:Hch.
          -- destruct (Hgc child p) as (_&->&_); [simpl in Hl; lia|by apply Forall_cons in Hf as [_ ?]|done..|].
             destruct (Hso child Hn0 eq_refl) as (c0&Hc0&Hcp).
             rewrite leaf_cons, Hc0. simpl. eapply copied_leaf; [done|simpl in Hl; lia|].
             by apply Forall_cons in Hf0 as [_ ?].
          -- rewrite !leaf_cons, Hch. by destruct (Hno Hn0 eq_refl) as [-> _].
        * destruct (graft_other j p) as (_&->&_); [lia|done..|].
          apply (Hleaf (j :: p) i j r); [done|done|by simpl; rewrite Hr|lia].
Qed.
End graft.

(** An unused entry is left out. *)
Lemma copying_skip n s s1 src dst k :
  copying n s s1 src dst k → is_unused (entry (ph_mem s) src k) = true →
  copying n s s1 src dst (k + 1).
Proof.
  intros [Hx Hdst Hpg Hrest [Hnew Hdis Hblk Hleaf]] Hu. apply Z.eqb_eq in Hu.
  assert (entry (ph_mem s1) dst k = 0) as Hk by (apply Hrest; lia).
  split; [done..|intros; apply Hrest; lia|split; [done..| |]].
  { intros p j r Hl Hf -> Hj Hb. destruct (decide (j = k)) as [->|]; [exfalso|by eapply Hblk; eauto; lia].
    apply blocked_cons in Hb as [[He _]|(c&Hn&_)]; [done|]. unfold next_table in Hn. by rewrite Hk in Hn. }
  intros p i j r Hl Hf Hpi Hj. destruct (decide (j = k)) as [->|]; [|by eapply Hleaf; eauto; lia].
  destruct p as [|j' p]; injection Hpi as -> Hr.
  - unfold leaf. simpl. congruence.
  - rewrite !leaf_cons. unfold next_table. by rewrite Hk, Hu.
Qed.

Lemma copying_start n s dst s1 src :
  fa_ok s → alloc_frame s = (Some dst, s1) →
  copying n s (Phys (zero_page (ph_mem s1) dst) (ph_fa s1)) src dst 0.
Proof.
  intros Hfa Hal. apply alloc_frame_Some in Hal as (Hx&Hm&Ht&_); [|done].
  split; simpl; [done|done| | |].
  - intros g Hg. unfold zero_page. rewrite page_at_insert, Hm, decide_False; [done|].
    intros ->. done.
  - intros i _. by rewrite entry_zero_page, decide_True.
  - assert (∀ p c, node (zero_page (ph_mem s1) dst) dst p = Some c → p = [] ∧ c = dst) as Hn.
    { intros [|i p] c; simpl; [by intros [= <-]|].
      unfold next_table. by rewrite entry_zero_page, decide_True. }
    split.
    + intros p c _ _ [-> ->]%Hn. done.
    + intros p q c _ _ _ _ [-> ->]%Hn [-> _]%Hn. done.
    + intros p j r _ Hf -> Hj. apply Forall_cons in Hf as [[? _] _]. lia.
    + intros p i j r _ Hf Hpi Hj. rewrite Hpi in Hf. apply Forall_cons in Hf as [[? _] _]. lia.
Qed.

Lemma tree_used_child s n src i c :
  tree_used s (S n) src → idx_ok i → next_table (ph_mem s) src i = Some c → tree_used s n c.
Proof.
  intros Hu Hi Hc p d Hl Hf Hp. apply (Hu (i :: p)); [simpl; lia|by constructor|].
  simpl. by rewrite Hc.
Qed.

Lemma tree_used_later s s1 n src :
  extends s s1 → (∀ g, ¬ taken s s1 g → page_at (ph_mem s1) g = page_at (ph_mem s) g) →
  tree_used s n src →
  tree_used s1 n src ∧ ∀ p, (length p ≤ n)%nat → Forall idx_ok p →
    node (ph_mem s1) src p = node (ph_mem s) src p ∧
    (∀ j, leaf (ph_mem s1) src p j = leaf (ph_mem s) src p j) ∧
    (blocked (ph_mem s1) src p → blocked (ph_mem s) src p).
Proof.
  intros Hx Hpg Hu.
  assert (∀ p q c, (length p ≤ n)%nat → Forall idx_ok p → q `prefix_of` p →
    node (ph_mem s) src q = Some c → page_at (ph_mem s1) c = page_at (ph_mem s) c) as Hsame.
  { intros p q c Hl Hf Hq Hqc. apply Hpg. intros [Hfut _].
    apply (Hu q c); eauto using prefix_length_le, prefix_Forall. }
  assert (∀ p, (length p ≤ n)%nat → Forall idx_ok p →
    node (ph_mem s1) src p = node (ph_mem s) src p) as Hnode.
  { intros p Hl Hf. apply node_pages. intros q c Hq. by apply (Hsame p). }
  split.
  - intros p c Hl Hf Hn Hfut. rewrite Hnode in Hn by done.
    apply (Hu p c); [done..|]. by eapply extends_future.
  - intros p Hl Hf. split_and!; [by apply Hnode| |].
    + intros j. apply leaf_pages. intros q c Hq. by apply (Hsame p).
    + rewrite (blocked_same (ph_mem s) (ph_mem s1)); [done|]. intros q c Hq. by apply (Hsame p).
Qed.

Lemma copied_source new n k (m1 m : pmem) m2 src dst :
  (∀ p j, length p = n → Forall idx_ok p → leaf m1 src p j = leaf m src p j) →
  (∀ p, (length p ≤ n)%nat → Forall idx_ok p → blocked m1 src p → blocked m src p) →
  copied new n k m1 m2 src dst → copied new n k m m2 src dst.
Proof.
  intros Hl Hbk [Hn Hd Hb Hf]. split; [done..| |].
  { intros p j r Hlp Hfp Hp Hj Hbp. apply Hbk; [done..|]. by apply (Hb p j r). }
  intros p i j r Hp Hfa Hpi Hj.
  rewrite (Hf p i j r) by done. apply Hl; [done|]. by apply Forall_app in Hfa as [? _].
Qed.

Lemma copying_loop n s src dst s' (body : Z → Z → stm phys unit unit) :
  fa_ok s →
  (∀ i t t', idx_ok i → copying n s t src dst i → body dst i t = (Ok tt, t') →
     copying n s t' src dst (i + 1)) →
  (let! d := alloc_expect in
   let! _ := on_mem (λ m, zero_page m d) in
   let! _ := sfor (seqZ 0 512) (body d) in sret d) s = (Ok dst, s') →
  copying n s s' src dst 512.
Proof.
  intros Hfa Hstep Hrun. apply sbind_Ok_inv in Hrun as (d&s1&Hal&Hrun).
  apply alloc_expect_Ok in Hal.
  apply sbind_Ok_inv in Hrun as ([]&s2&Hz&Hrun). injection Hz as <-.
  apply sbind_Ok_inv in Hrun as ([]&s3&Hloop&Hret). injection Hret as <- <-.
  apply (sfor_seqZ (λ i t, copying n s t src d i) (body d) 512 0 _ s3
    (copying_start n s d s1 src Hfa Hal)); [|done].
  intros i t t' Hi. apply Hstep. unfold idx_ok. lia.
Qed.

Lemma deep_copy_spec n src s dst s' :
  fa_ok s → tree_used s n src → deep_copy_table n src s = (Ok dst, s') →
  copying n s s' src dst 512.
Proof.
  revert src s dst s'. induction n as [|n IH]; intros src s dst s' Hfa Hu Hrun.
  all: cbn [deep_copy_table] in Hrun; eapply (copying_loop _ s src dst s'); [done| |exact Hrun].
  all: clear s' Hrun; intros i t t' Hi Hc Hrun; cbv beta in Hrun.
  all: apply sbind_Ok_inv in Hrun as (e&t1&Hget&Hrun); injection Hget as <- <-.
  all: assert (entry (ph_mem t) src i = entry (ph_mem s) src i) as He
    by (apply entry_page_at, (cy_pages _ _ _ _ _ _ Hc); intros [Hfut _];
        by apply (Hu [] src); [simpl; lia|..]).
  all: rewrite He in Hrun; destruct (is_unused (entry (ph_mem s) src i)) eqn:Hun;
    [injection Hrun as <-; by apply copying_skip|].
  - injection Hrun as <-. apply graft_copying with (s1 := t); try done.
  - destruct (contains (pte_flags (entry (ph_mem s) src i)) HUGE_PAGE) eqn:Hh.
    + injection Hrun as <-. apply graft_copying with (s1 := t); try done.
      * intros _ _. unfold next_table. by rewrite Hh, orb_true_r.
      * intros child _. unfold next_table. rewrite entry_set_entry, decide_True by done.
        by rewrite Hh, orb_true_r.
    + apply sbind_Ok_inv in Hrun as (child&t2&Hchild&Hset). injection Hset as <-.
      assert (next_table (ph_mem s) src i = Some (pte_addr (entry (ph_mem s) src i))) as Hnt
        by (unfold next_table; by rewrite Hun, Hh).
      set (c0 := pte_addr (entry (ph_mem s) src i)) in *.
      destruct (tree_used_later s t n c0) as [Hut Hsrc];
        [apply Hc|apply Hc|by eapply tree_used_child|].
      assert (fa_ok t) as Hfat by (eapply extends_fa_ok; [apply Hc|done]).
      apply IH in Hchild as Hcc; [|done..].
      assert (copied (taken t t2) n 512 (ph_mem s) (ph_mem t2) c0 child) as Hcp.
      { eapply copied_source; [| |apply Hcc].
        - intros p j Hl Hf. apply Hsrc; [lia|done].
        - intros p Hl Hf. by apply Hsrc. }
      destruct (future_frame_ok t child) as [Hfo Hf0]; [done|apply Hcc|].
      assert (next_table (set_entry (ph_mem t2) dst i (pte child (pte_flags (entry (ph_mem s) src i))))
        dst i = Some child) as Hlink.
      { eapply next_table_pte; [done..|apply pte_flags_ok|done|]. by rewrite entry_set_entry, decide_True. }
      apply graft_copying with (s1 := t); try done; try apply Hcc.
      * intros _. by rewrite Hlink.
      * intros child' _. rewrite Hlink. intros [= <-]. exists c0. split; [done|].
        by rewrite Nat.sub_succ, Nat.sub_0_r.
Qed.
End deep_copy.

(** ** A new address space *)

Section add_space.
Context (K : Z) (A : gset Z) (s0 s : phys) (n : Z) (Hok : vm_ok K A s0) (Hquiet : quiet K A s0 s).
Context (Hn : taken s0 s n).
(** A table of the new space is the space's own and new, or the kernel's. *)
Context (Hclass : ∀ p f, tpath p → node (ph_mem s) n p = Some f →
  taken s0 s f ∨ shared_path K (ph_mem s0) p ∧ node (ph_mem s0) K p = Some f).
Context (Hdist : ∀ p q f, tpath p → tpath q → taken s0 s f →
  node (ph_mem s) n p = Some f → node (ph_mem s) n q = Some f → p = q).
Context (Htop : ∀ i, idx_ok i → shared K (ph_mem s0) i →
  entry (ph_mem s) n i = entry (ph_mem s0) K i).
Context (Hleaf : ∀ p i e, tpath p → idx_ok i → ¬ user_leaf (ph_mem s) n p i e).

Lemma taken_not_table f : taken s0 s f → not_table K A (ph_mem s) f.
Proof.
    intros [Hf _]. rewrite (quiet_not_table K A s0 s Hquiet). by apply future_not_table.
Qed.

Lemma add_space_ok : vm_ok K (A ∪ {[n]}) s.
Proof.
    pose proof (quiet_ok K A s0 s Hquiet Hok) as Hok'.
    assert (n ≠ K) as HnK.
    { intros ->. apply (taken_not_table K Hn K []); [by right|apply tpath_nil|done]. }
    assert (∀ a, space K (A ∪ {[n]}) a → space K A a ∨ a = n) as Hsp by (unfold space; set_solver).
    assert (space K A K) as HK by (by right).
    assert (∀ p f b q, tpath p → tpath q → space K A b →
      node (ph_mem s) n p = Some f → node (ph_mem s) b q = Some f →
      p = q ∧ shared_path K (ph_mem s) p) as Hmix.
    { intros p f b q Hp Hq Hb Hnp Hbq. destruct (Hclass p f Hp Hnp) as [Ht|[Hs Hk]].
      - exfalso. by eapply taken_not_table.
      - rewrite <-(quiet_node K A s0 s Hquiet) in Hk by done.
        rewrite (quiet_shared_path K A s0 s Hquiet).
        by destruct (vo_sep _ _ _ Hok' K b p q f) as [-> _]. }
    split.
    - apply Hok'.
    - assert (K ∉ A) by apply Hok'. set_solver.
    - intros a [Ha| ->]%Hsp; [by apply (vo_roots _ _ _ Hok')|].
      eapply future_frame_ok; [apply Hok|apply Hn].
    - intros a i Ha Hi Hs. apply elem_of_union in Ha as [Ha| ->%elem_of_singleton]; [by apply (vo_shared _ _ _ Hok')|].
      rewrite (quiet_shared K A s0 s Hquiet) in Hs.
      rewrite (quiet_top K A s0 s Hquiet K) by done. by apply Htop.
    - intros a b p q f [Ha| ->]%Hsp [Hb| ->]%Hsp Hp Hq Hap Hbq.
      + by apply (vo_sep _ _ _ Hok' a b p q f).
      + destruct (Hmix q f a p) as [-> ?]; auto.
      + destruct (Hmix p f b q) as [-> ?]; auto.
      + split; [|by left]. destruct (Hclass p f Hp Hap) as [Ht|[Hs Hk]]; [by apply (Hdist p q f)|].
        destruct (Hclass q f Hq Hbq) as [Ht|[Hs' Hk']]; [by apply (Hdist p q f)|].
        by apply (vo_sep _ _ _ Hok K K p q f).
    - intros a p f [Ha| ->]%Hsp Hp Hf; [by apply (vo_used _ _ _ Hok' a p)|].
      destruct (Hclass p f Hp Hf) as [[_ Ht]|[_ Hk]]; [done|].
      rewrite <-(quiet_node K A s0 s Hquiet) in Hk by done. by apply (vo_used _ _ _ Hok' K p).
    - intros a p i e [Ha| ->]%Hsp Hp Hi Hu; [|by destruct (Hleaf p i e)].
      destruct (vo_user _ _ _ Hok' a p i e) as [??]; try done. split; [set_solver|done].
    - intros a p i e b q [Ha| ->]%Hsp Hp Hi Hu [Hb| ->]%Hsp Hq Hbq; try by destruct (Hleaf p i e).
      + by apply (vo_data _ _ _ Hok' a p i e b q).
      + destruct (Hclass q _ Hq Hbq) as [[Hf _]|[_ Hk]].
        * apply (vo_live _ _ _ Hok a p i e); try done. by apply (quiet_user K A s0 s Hquiet).
        * rewrite <-(quiet_node K A s0 s Hquiet) in Hk by done.
          by apply (vo_data _ _ _ Hok' a p i e K q).
    - intros a p i e [Ha| ->]%Hsp Hp Hi Hu; [|by destruct (Hleaf p i e)].
      by apply (vo_live _ _ _ Hok' a p i).
    - intros a p i e b q j e' [Ha| ->]%Hsp Hp Hi Hu [Hb| ->]%Hsp Hq Hj Hu';
        try (by destruct (Hleaf p i e)); try (by destruct (Hleaf q j e')).
      by apply (vo_cow _ _ _ Hok' a p i e).
Qed.
End add_space.

Section create.
Context `{Paging} (K : Z).
Implicit Types (A : gset Z) (s : phys).

(** What [create_user_mapper] yields: a new space without user pages, with the
    kernel's mappings, on top of an untouched state. *)
Record created A s s' (n : Z) : Prop := {
  cr_quiet : quiet K A s s';
  cr_taken : taken s s' n;
  cr_pages g : ¬ taken s s' g → page_at (ph_mem s') g = page_at (ph_mem s) g;
  cr_ok : vm_ok K (A ∪ {[n]}) s';
  cr_empty p i e : tpath p → idx_ok i → ¬ user_leaf (ph_mem s') n p i e;
  cr_kernel p i : tpath p → length p = 3%nat → idx_ok i →
    leaf (ph_mem s') n p i = leaf (ph_mem s) K p i;
  cr_blocked p : tpath p → length p = 3%nat →
    blocked (ph_mem s') n p → blocked (ph_mem s) K p;
}.

(** The top-level loop: every entry of the kernel's table. *)
Lemma copy_top_loop s l4 s1 s' :
  fa_ok s → ¬ future s K → alloc_frame s = (Some l4, s1) →
  sfor (seqZ 0 512) (λ i, on_mem (λ m, set_entry m l4 i (entry m K i)))
    (Phys (zero_page (ph_mem s1) l4) (ph_fa s1)) = (Ok (E:=unit) tt, s') →
  ph_fa s' = ph_fa s1 ∧ (∀ g, g ≠ l4 → page_at (ph_mem s') g = page_at (ph_mem s) g) ∧
  ∀ i, idx_ok i → entry (ph_mem s') l4 i = entry (ph_mem s) K i.
Proof.
  intros Hfa HK Hal. apply alloc_frame_Some in Hal as (_&Hm&[Hfut _]&_); [|done].
  assert (K ≠ l4) as HKl by (by intros ->). intros Hloop.
  apply (sfor_seqZ (λ k t, ph_fa t = ph_fa s1 ∧
    (∀ g, g ≠ l4 → page_at (ph_mem t) g = page_at (ph_mem s) g) ∧
    ∀ i, 0 ≤ i < k → entry (ph_mem t) l4 i = entry (ph_mem s) K i) _ 512 0) in Hloop
    as (H1&H2&H3).
  - split_and!; [done|done|]. intros i Hi. by apply H3.
  - split_and!; [done| |intros; lia]. intros g Hg. unfold zero_page; simpl.
    by rewrite page_at_insert, decide_False, Hm.
  - intros i t t' Hi (Ht1&Ht2&Ht3) [= <-]. simpl. split_and!; [done| |].
    + intros g Hg. rewrite page_at_set_entry by done. by apply Ht2.
    + intros j Hj. rewrite entry_set_entry. destruct (decide (l4 = l4 ∧ i = j)) as [[_ <-]|Hne].
      * apply entry_page_at. by apply Ht2.
      * apply Ht3. assert (i ≠ j) by (clear -Hne; intros ->; by apply Hne). clear Hne. lia.
Qed.

(** Pages outside the frames taken since: a walk of the old spaces is the same. *)
Lemma untaken_quiet A s s' :
  vm_ok K A s → extends s s' →
  (∀ g, ¬ taken s s' g → page_at (ph_mem s') g = page_at (ph_mem s) g) → quiet K A s s'.
Proof.
  intros Hok Hx Hpg. split; [done|]. intros b q c Hb Hq Hc. apply Hpg. intros [Hf _].
  by apply (vo_used _ _ _ Hok b q c).
Qed.

(** The new table [n] with its slot 0 re-pointed at a private copy, or not used. *)
Lemma created_intro A s s' n :
  vm_ok K A s → extends s s' → taken s s' n →
  (∀ g, ¬ taken s s' g → page_at (ph_mem s') g = page_at (ph_mem s) g) →
  (∀ i, idx_ok i → i ≠ 0 → entry (ph_mem s') n i = entry (ph_mem s) K i) →
  (next_table (ph_mem s) K 0 = None ∧ entry (ph_mem s') n 0 = entry (ph_mem s) K 0 ∨
   ∃ t0 t, next_table (ph_mem s') n 0 = Some t ∧ next_table (ph_mem s) K 0 = Some t0 ∧
     copied (λ f, taken s s' f ∧ f ≠ n) 2 512 (ph_mem s) (ph_mem s') t0 t) →
  created A s s' n.
Proof.
  intros Hok Hx Hn Hpg Htop Hzero'.
  assert (next_table (ph_mem s') n 0 = None ∧ next_table (ph_mem s) K 0 = None ∨
   ∃ t0 t, next_table (ph_mem s') n 0 = Some t ∧ next_table (ph_mem s) K 0 = Some t0 ∧
     copied (λ f, taken s s' f ∧ f ≠ n) 2 512 (ph_mem s) (ph_mem s') t0 t) as Hzero.
  { destruct Hzero' as [[H1 H2]|?]; [left|by right]. split; [|done].
    unfold next_table in *. by rewrite H2. }
  assert (quiet K A s s') as Hq by (by apply untaken_quiet).
  assert (space K A K) as HK by (by right).
  assert (∀ i p, idx_ok i → i ≠ 0 → tpath (i :: p) →
    node (ph_mem s') n (i :: p) = node (ph_mem s) K (i :: p) ∧
    (∀ j, leaf (ph_mem s') n (i :: p) j = leaf (ph_mem s) K (i :: p) j) ∧
    (blocked (ph_mem s') n (i :: p) → blocked (ph_mem s) K (i :: p))) as Hslot.
  { intros i p Hi Hi0 Hp.
    assert (next_table (ph_mem s') n i = next_table (ph_mem s') K i) as Hnt.
    { unfold next_table. by rewrite (quiet_top _ _ _ _ Hq K i), Htop. }
    split_and!.
    - rewrite <-(quiet_node _ _ _ _ Hq K (i :: p)) by done. simpl. by rewrite Hnt.
    - intros j. rewrite <-(quiet_leaf _ _ _ _ Hq K (i :: p)) by done.
      by rewrite !leaf_cons, Hnt.
    - rewrite <-(blocked_same (ph_mem s) (ph_mem s') K (i :: p)).
      + rewrite !blocked_cons, Hnt. rewrite (quiet_top _ _ _ _ Hq K i), Htop by done. done.
      + intros q c Hpre. apply (proj2 Hq); [done|]. by eapply tpath_prefix. }
  assert (∀ p, tpath (0 :: p) → (length p ≤ 2)%nat ∧ Forall idx_ok p) as H0.
  { intros p [Hl Hf]. apply Forall_cons in Hf as [_ Hf]. simpl in Hl. split; [lia|done]. }
  assert (∀ p f, tpath p → node (ph_mem s') n p = Some f →
    taken s s' f ∧ (p = [] ∨ ∃ r, p = 0 :: r) ∨
    shared_path K (ph_mem s) p ∧ node (ph_mem s) K p = Some f) as Hcl.
  { intros [|i p] f Hp Hf; [injection Hf as <-; auto|].
    destruct (decide (i = 0)) as [->|Hi0].
    - left. destruct (H0 p Hp). simpl in Hf. apply bind_Some in Hf as (t'&Ht'&Hf).
      destruct Hzero as [[Hz _]|(t0&t&Hz&_&Hcp)]; [congruence|].
      assert (t' = t) as -> by congruence.
      split; [|right; by eexists]. by apply (cp_new _ _ _ _ _ _ _ Hcp p).
    - right. assert (idx_ok i) by (destruct Hp as [_ Hp]; by apply Forall_cons in Hp as [? _]).
      destruct (Hslot i p) as (Hs&_); try done. rewrite Hs in Hf. split; [|done].
      exists i, p. split; [done|]. split; [done|]. intros He. simpl in Hf.
      unfold next_table in Hf. by rewrite He in Hf. }
  assert (∀ p i, tpath p → length p = 3%nat → idx_ok i →
    leaf (ph_mem s') n p i = leaf (ph_mem s) K p i) as Hlf.
  { intros [|i p] j Hp Hl Hj; [done|]. destruct (decide (i = 0)) as [->|Hi0].
    - rewrite !leaf_cons. destruct (H0 p Hp).
      destruct Hzero as [[-> ->]|(t0&t&->&->&Hcp)]; [done|]. simpl.
      eapply copied_leaf; [done|simpl in Hl; lia|].
      apply Forall_app. split; [done|by apply Forall_singleton].
    - apply Hslot; try done. destruct Hp as [_ Hp]. by apply Forall_cons in Hp as [? _]. }
  assert (∀ p i e, tpath p → idx_ok i → ¬ user_leaf (ph_mem s') n p i e) as Hno.
  { intros p i e Hp Hi (Hl&Hlf'&Hu). rewrite Hlf in Hlf' by done.
    destruct (vo_user _ _ _ Hok K p i e) as [? _]; try done. by apply (vo_kernel _ _ _ Hok). }
  assert (∀ p, tpath p → length p = 3%nat →
    blocked (ph_mem s') n p → blocked (ph_mem s) K p) as Hbl.
  { intros [|i p] Hp Hl; [done|]. destruct (decide (i = 0)) as [->|Hi0].
    - destruct (H0 p Hp). rewrite !blocked_cons.
      intros [[He Hnt]|(c&Hc&Hb)]; destruct Hzero' as [[Hk0 He0]|(t0&t&Ht&Ht0&Hcp)].
      + left. split; [congruence|done].
      + congruence.
      + unfold next_table in Hc, Hk0. rewrite He0 in Hc. congruence.
      + right. exists t0. split; [done|]. simpl in Hl. assert (c = t) as -> by congruence.
        eapply copied_blocked; [done|lia|done..].
    - apply Hslot; try done. destruct Hp as [_ Hp]. by apply Forall_cons in Hp as [? _]. }
  split; try done. apply (add_space_ok K A s); try done.
  - intros p f Hp Hf. destruct (Hcl p f Hp Hf) as [[? _]|?]; auto.
  - intros p q f Hp Hp' Ht Hf Hf'.
    assert (∀ p, tpath p → node (ph_mem s') n p = Some f → p = [] ∨ ∃ r, p = 0 :: r) as Hpos.
    { intros r Hr Hnr. destruct (Hcl r f Hr Hnr) as [[_ ?]|[_ Hk]]; [done|].
      exfalso. destruct Ht as [Ht _]. by apply (vo_used _ _ _ Hok K r f). }
    destruct (Hpos p Hp Hf) as [->|[r ->]], (Hpos q Hp' Hf') as [->|[r' ->]]; [done|..];
      destruct Hzero as [[Hz _]|(t0&t&Hz&_&Hcp)];
      simpl in Hf, Hf'; rewrite ?Hz in *; simpl in *; try done; simplify_eq.
    + destruct (H0 r' Hp'). by destruct (cp_new _ _ _ _ _ _ _ Hcp r' f) as [_ []].
    + destruct (H0 r Hp). by destruct (cp_new _ _ _ _ _ _ _ Hcp r f) as [_ []].
    + f_equal. destruct (H0 r Hp), (H0 r' Hp'). by apply (cp_distinct _ _ _ _ _ _ _ Hcp r r' f).
  - intros i Hi [Hi0 _]. by apply Htop.
Qed.

Lemma create_user_mapper_spec A s n s' :
  vm_ok K A s → create_user_mapper (Some K) s = (Ok n, s') → created A s s' n.
Proof.
  intros Hok Hrun. pose proof (vo_fa _ _ _ Hok) as Hfa.
  assert (¬ future s K) as HKf by (apply (vo_used _ _ _ Hok K []); [by right|apply tpath_nil|done]).
  apply sbind_Ok_inv in Hrun as (l4&s1&Hal&Hrun). apply alloc_expect_Ok in Hal as Ha.
  clear Hal. rename l4 into f, s1 into s1'.
  pose proof (alloc_frame_Some _ _ _ Hfa Ha) as (Hx&Hm&Ht&_).
  assert (K ≠ f) as HKf' by (clear Hrun; intros ->; by destruct Ht).
  apply sbind_Ok_inv in Hrun as ([]&s2&Hz&Hrun). injection Hz as <-.
  apply sbind_Ok_inv in Hrun as (k&s2'&Hk&Hrun). injection Hk as <- <-.
  apply sbind_Ok_inv in Hrun as ([]&s3&Hloop&Hrun).
  apply (copy_top_loop s f s1' s3) in Hloop as (Hfa3&Hpg3&Htop3); [|done..].
  assert (extends s1' s3) as Hx3 by (split; by rewrite Hfa3).
  assert (∀ g, future s3 g ↔ future s1' g) as Hf3 by (intros g; unfold future; by rewrite Hfa3).
  assert (taken s s3 f) as Ht3 by (split; [apply Ht|rewrite Hf3; apply Ht]).
  apply sbind_Ok_inv in Hrun as (k0&s3'&Hk0&Hrun). injection Hk0 as <- <-.
  assert (entry (ph_mem s3) K 0 = entry (ph_mem s) K 0) as HK0 by (by apply entry_page_at, Hpg3).
  rewrite HK0 in Hrun.
  destruct (is_unused (entry (ph_mem s) K 0) || _) eqn:Hlast.
  - injection Hrun as <- <-. apply created_intro; try done.
    + by trans s1'.
    + intros g Hg. apply Hpg3. by intros ->.
    + intros i Hi _. by apply Htop3.
    + left. split; [unfold next_table; by rewrite Hlast|]. apply Htop3. unfold idx_ok. lia.
  - apply sbind_Ok_inv in Hrun as (t&s4&Hcopy&Hrun).
    apply sbind_Ok_inv in Hrun as ([]&s5&Hset&Hret). injection Hset as <-. injection Hret as <- <-.
    set (t0 := pte_addr (entry (ph_mem s) K 0)) in *.
    assert (next_table (ph_mem s) K 0 = Some t0) as Hnt by (unfold next_table; by rewrite Hlast).
    assert (tree_used s 2 t0) as Hut.
    { intros p c Hl Hf Hp. apply (vo_used _ _ _ Hok K (0 :: p)).
      - by right.
      - split; [simpl; lia|constructor; [unfold idx_ok; lia|done]].
      - simpl. by rewrite Hnt. }
    assert (extends s s3) as Hxs3 by (by trans s1').
    assert (∀ g, ¬ taken s s3 g → page_at (ph_mem s3) g = page_at (ph_mem s) g) as Hpg3'.
    { intros g Hg. apply Hpg3. by intros ->. }
    destruct (tree_used_later s s3 2 t0 Hxs3 Hpg3' Hut) as [Hut3 Hsrc3].
    apply deep_copy_spec in Hcopy as Hc; [|by eapply extends_fa_ok|done].
    pose proof Hc as [Hx4 Ht4 Hpg4 _ Hcp].
    assert (∀ g, taken s3 s4 g → taken s s4 g ∧ g ≠ f) as Htk.
    { intros g Hg. split; [by eapply taken_trans_r|]. intros ->. by destruct Ht3, Hg. }
    assert (taken s s4 f) as Htf by (by eapply (taken_trans_l s s3)).
    set (m5 := set_entry (ph_mem s4) f 0 (pte t (pte_flags (entry (ph_mem s) K 0)))).
    destruct (future_frame_ok s3 t) as [Hto Ht0]; [by eapply extends_fa_ok|apply Ht4|].
    apply orb_false_iff in Hlast as [_ Hhuge].
    assert (next_table m5 f 0 = Some t) as Hlink.
    { eapply next_table_pte; [done..|apply pte_flags_ok|done|].
      unfold m5. by rewrite entry_set_entry, decide_True. }
    apply created_intro; simpl; try done.
    + by trans s3.
    + intros g Hg. unfold m5. rewrite page_at_set_entry by (intros ->; done).
      rewrite Hpg4, Hpg3'; [done| |]; intros Hg'; apply Hg.
      * by eapply (taken_trans_l s s3).
      * by apply Htk.
    + intros i Hi Hi0. unfold m5. rewrite entry_set_entry, decide_False by (intros [_ <-]; done).
      rewrite <-Htop3 by done. apply entry_page_at, Hpg4. intros [Hf _]. by apply Ht3.
    + right. exists t0, t. split_and!; [done|done|].
      assert (∀ p c, (length p ≤ 2)%nat → Forall idx_ok p → node (ph_mem s4) t p = Some c →
        page_at m5 c = page_at (ph_mem s4) c) as Hpg5.
      { intros p c Hl Hf Hp. unfold m5. apply page_at_set_entry.
        apply Htk. by apply (cp_new _ _ _ _ _ _ _ Hcp p c). }
      assert (∀ p, (length p ≤ 2)%nat → Forall idx_ok p → node m5 t p = node (ph_mem s4) t p) as Hn5.
      { intros p Hl Hf. apply node_pages. intros q c Hq. apply (Hpg5 q);
          eauto using prefix_length_le, prefix_Forall. }
      split.
      * intros p c Hl Hf. rewrite Hn5 by done. intros Hp. apply Htk.
        by apply (cp_new _ _ _ _ _ _ _ Hcp p c).
      * intros p q c Hl Hf Hl' Hf'. rewrite !Hn5 by done. by apply (cp_distinct _ _ _ _ _ _ _ Hcp).
      * intros p j r Hl Hf Hp Hj Hb. apply (Hsrc3 p Hl Hf).
        apply (cp_blocked _ _ _ _ _ _ _ Hcp p j r); try done.
        rewrite <-(blocked_same _ m5); [done|]. intros q c Hq. apply (Hpg5 q);
          eauto using prefix_length_le, prefix_Forall.
      * intros p i j r Hl Hf Hpi Hj. apply Forall_app in Hf as Hf'. destruct Hf' as [Hf' _].
        destruct (Hsrc3 p ltac:(lia) Hf') as (_&Hsl&_).
        rewrite <-Hsl, <-(cp_leaf _ _ _ _ _ _ _ Hcp p i j r) by done.
        apply leaf_pages. intros q c Hq. apply (Hpg5 q);
          [eapply prefix_length_le; [done|lia]|by eapply prefix_Forall].
Qed.
End create.
