(* ===== verification/MemoryFork.v ===== *)
(** * The copy-on-write fork

    The loops over a table visit exactly its user pages; marking them keeps
    the separation invariant; the child's tables map the same frames. *)

From S2P Require Import Prelude Frames Paging Memory MemorySpec MemoryCopy.
#[local] Ltac Zify.zify_post_hook ::= Z.to_euclidean_division_equations.

(** ** Addresses of paths *)

(** The address of index [i] behind a path that starts [length p] levels above
    the last, from a base. *)
Fixpoint va_from (base : Z) (p : list Z) (i : Z) : Z :=
  match p with
  | [] => base + i * 2 ^ 12
  | j :: p => va_from (base + j * 2 ^ (12 + 9 * Z.of_nat (S (length p)))) p i
  end.
Abbreviation va_of := (va_from 0).

Lemma lor_shift base i k :
  0 ≤ k → idx_ok i → base mod 2 ^ (k + 9) = 0 → Z.lor base (Z.shiftl i k) = base + i * 2 ^ k.
Proof.
  intros Hk [Hi0 Hi] Hb. rewrite Z.shiftl_mul_pow2 by done.
  apply (lor_add_low _ _ (k + 9)); [lia|apply Z.mul_nonneg_nonneg; lia| |done].
  rewrite Z.pow_add_r by lia. rewrite (Z.mul_comm (2 ^ k)). apply Z.mul_lt_mono_pos_r; lia.
Qed.

Lemma va_of_index a b c i :
  idx_ok a → idx_ok b → idx_ok c → idx_ok i →
  va_path (va_of [a; b; c] i) = [a; b; c] ∧ va_index 0 (va_of [a; b; c] i) = i ∧
  frame_containing (va_of [a; b; c] i) = va_of [a; b; c] i.
Proof.
  unfold idx_ok. intros Ha Hb Hc Hi. unfold va_path, va_index, frame_containing.
  change 0x1FF with (Z.ones 9). rewrite !Z.land_ones, !Z.shiftr_div_pow2 by lia. simpl va_from.
  split_and!; [|lia|lia]. f_equal; [lia|f_equal; [lia|f_equal; lia]].
Qed.

(** ** The loops, flattened *)

Definition width (n : nat) : Z := if decide (n = 3%nat) then 256 else 512.

(** The user pages under a table: address, last table, index. *)
Fixpoint user_leaves (m : pmem) (n : nat) (t va : Z) : list (Z * Z * Z) :=
  match n with
  | O => seqZ 0 512 ≫= λ i,
      if user (entry m t i) then [(Z.lor va (Z.shiftl i 12), t, i)] else []
  | S n' => seqZ 0 (width n) ≫= λ i,
      match next_table m t i with
      | None => []
      | Some c => user_leaves m n' c (Z.lor va (Z.shiftl i (12 + 9 * Z.of_nat n)))
      end
  end.

(** Tables of the tree under [t] are distinct. *)
Definition tree_distinct (m : pmem) (n : nat) (t : Z) : Prop :=
  ∀ p q c, (length p ≤ n)%nat → Forall idx_ok p → (length q ≤ n)%nat → Forall idx_ok q →
    node m t p = Some c → node m t q = Some c → p = q.

Lemma tree_distinct_child m n t i c :
  tree_distinct m (S n) t → idx_ok i → next_table m t i = Some c → tree_distinct m n c.
Proof.
  intros Hd Hi Hc p q d Hp Hfp Hq Hfq Hdp Hdq.
  assert (i :: p = i :: q) as [= ->]; [|done].
  apply (Hd (i :: p) (i :: q) d); simpl; try lia; try (by constructor); by rewrite Hc.
Qed.

Lemma seqZ_idx w i : w ≤ 512 → i ∈ seqZ 0 w → idx_ok i.
Proof. intros Hw [??]%elem_of_seqZ. unfold idx_ok. lia. Qed.
Lemma width_le n : width n ≤ 512.
Proof. unfold width. destruct (decide _); lia. Qed.

Lemma user_leaves_node m n t va va' l1 i :
  (va', l1, i) ∈ user_leaves m n t va →
  idx_ok i ∧ user (entry m l1 i) = true ∧
  ∃ p, length p = n ∧ Forall idx_ok p ∧ node m t p = Some l1.
Proof.
  revert t va. induction n as [|n IH]; intros t va.
  all: cbn [user_leaves]; intros (j&Hin&Hj)%list_elem_of_bind.
  - destruct (user (entry m t j)) eqn:Hu; [|by apply elem_of_nil in Hin].
    apply list_elem_of_singleton in Hin as [= -> -> ->].
    split_and!; [by eapply (seqZ_idx 512)|done|by exists []].
  - apply seqZ_idx in Hj; [|apply width_le].
    destruct (next_table m t j) as [c|] eqn:Hc; [|by apply elem_of_nil in Hin].
    destruct (IH _ _ Hin) as (?&?&p&<-&Hf&Hp). split_and!; [done|done|].
    exists (j :: p). split_and!; [done|by constructor|]. simpl. by rewrite Hc.
Qed.

Section flatten.
Context {X : Type} (body : Z → Z → Z → pmem * X → pmem * X).
Context (Hbody : ∀ va l1 i st g j, (g, j) ≠ (l1, i) → entry (body va l1 i st).1 g j = entry st.1 g j).
Let run (st : pmem * X) (x : Z * Z * Z) : pmem * X := body x.1.1 x.1.2 x.2 st.

Lemma run_other l st g j :
    (∀ va, (va, g, j) ∉ l) → entry (foldl run st l).1 g j = entry st.1 g j.
Proof.
    revert st. induction l as [|[[va l1] i] l IH]; intros st Hn; [done|]. simpl.
    rewrite IH by (intros va' Hin; apply (Hn va'); by right).
    apply Hbody. intros [= -> ->]. apply (Hn va). by left.
Qed.

(** The entries the walk of a tree reads are those of [m]. *)
Definition agrees (m m' : pmem) (n : nat) (t : Z) : Prop :=
  ∀ p c j, (length p ≤ n)%nat → Forall idx_ok p → node m t p = Some c → entry m' c j = entry m c j.

Lemma walk_flatten m n t va st :
    tree_distinct m n t → agrees m st.1 n t →
    walk_user body n t va st = foldl run st (user_leaves m n t va).
Proof.
    revert t va st. induction n as [|n IH]; intros t va st Hd Ha.
    - cbn [walk_user user_leaves].
      assert (∀ l, NoDup l → (∀ i, i ∈ l → entry st.1 t i = entry m t i) →
        foldl (λ st i, if user (entry st.1 t i) then body (Z.lor va (Z.shiftl i 12)) t i st else st) st l
        = foldl run st (l ≫= λ i, if user (entry m t i) then [(Z.lor va (Z.shiftl i 12), t, i)] else []))
        as Hl.
      { intros l Hnd Hent. clear Ha. revert st Hent.
        induction Hnd as [|i l Hi Hnd IHl]; intros st Hent; [done|]. simpl.
        rewrite (Hent i) by (by left). rewrite foldl_app.
        destruct (user (entry m t i)); simpl.
        - apply IHl. intros j Hj. unfold run; rewrite Hbody; [by apply Hent; right|]. intros [= ->]. done.
        - apply IHl. intros j Hj. by apply Hent; right. }
      apply Hl; [apply NoDup_seqZ|]. intros i _. by apply (Ha []).
    - cbn [walk_user user_leaves]. fold (width (S n)).
      assert (∀ l, NoDup l → Forall idx_ok l → (∀ i, i ∈ l → entry st.1 t i = entry m t i) →
        (∀ i c, i ∈ l → next_table m t i = Some c → agrees m st.1 n c) →
        foldl (λ st i, match next_table st.1 t i with
                       | None => st
                       | Some c => walk_user body n c (Z.lor va (Z.shiftl i (12 + 9 * Z.of_nat (S n)))) st
                       end) st l
        = foldl run st (l ≫= λ i, match next_table m t i with
                       | None => []
                       | Some c => user_leaves m n c (Z.lor va (Z.shiftl i (12 + 9 * Z.of_nat (S n))))
                       end)) as Hl.
      { intros l Hnd Hidx Hent Hag. clear Ha. revert st Hent Hag.
        induction Hnd as [|i l Hi Hnd IHl]; intros st Hent Hag; [done|].
        apply Forall_cons in Hidx as [Hii Hidx].
        cbn [foldl]. rewrite bind_cons, foldl_app.
        assert (next_table st.1 t i = next_table m t i) as ->.
        { unfold next_table. by rewrite (Hent i) by (by left). }
        destruct (next_table m t i) as [c|] eqn:Hc.
        - assert (agrees m st.1 n c) as Hagc by (by apply (Hag i); [left|]).
          rewrite (IH c _ st) by (done || by eapply tree_distinct_child).
          set (lv := user_leaves m n c _).
          assert (∀ va' g j, (va', g, j) ∈ lv → ∃ p, length p = n ∧ Forall idx_ok p ∧
            node m t (i :: p) = Some g) as Hlv.
          { intros va' g j (_&_&p&Hp&Hf&Hg)%user_leaves_node. exists p. split_and!; [done|done|].
            simpl. by rewrite Hc. }
          apply IHl; [done| |].
          + intros j Hj. rewrite run_other; [by apply Hent; right|]. intros va' Hin.
            destruct (Hlv va' t j Hin) as (p&Hp&Hf&Hg).
            assert (i :: p = []); [|done]. apply (Hd _ _ t); simpl; try lia; try done. by constructor.
          + intros k c' Hk Hc' p d j Hp Hf Hnd'. rewrite run_other.
            * by eapply (Hag k c'); [right|..].
            * intros va' Hin. destruct (Hlv va' d j Hin) as (q&Hq&Hfq&Hgq).
              assert (i :: q = k :: p) as [= -> _]; [|done].
              apply (Hd _ _ d); simpl; try lia; try done; try (by constructor).
              -- constructor; [|done]. rewrite Forall_forall in Hidx. apply Hidx.
                 done.
              -- by rewrite Hc'.
        - simpl. apply IHl; [done| |].
          + intros j Hj. by apply Hent; right.
          + intros k c' Hk. by apply Hag; right. }
      apply Hl; [apply NoDup_seqZ| | |].
      + apply Forall_forall. intros i Hi. apply (seqZ_idx (width (S n))); [apply width_le|].
        done.
      + intros i _. by apply (Ha []); [simpl; lia|..].
      + intros i c Hi Hc p d j Hp Hf Hn. apply (Ha (i :: p)); [simpl; lia| |simpl; by rewrite Hc].
        constructor; [|done]. apply (seqZ_idx (width (S n))); [apply width_le|done].
Qed.
End flatten.

Lemma va_base_mod base j n :
  base mod 2 ^ (12 + 9 * Z.of_nat (S (S n))) = 0 →
  (base + j * 2 ^ (12 + 9 * Z.of_nat (S n))) mod 2 ^ (12 + 9 * Z.of_nat (S n)) = 0.
Proof.
  intros Hb. rewrite Z.mod_add by (apply Z.pow_nonzero; lia).
  replace (12 + 9 * Z.of_nat (S (S n))) with ((12 + 9 * Z.of_nat (S n)) + 9) in Hb by lia.
  apply Z.mod_divide in Hb as [z ->]; [|apply Z.pow_nonzero; lia].
  rewrite Z.pow_add_r, (Z.mul_comm (2 ^ (12 + _))), Z.mul_assoc by lia.
  apply Z.mod_mul, Z.pow_nonzero; lia.
Qed.

Lemma elem_user_leaves m n t base va l1 i :
  (n ≤ 3)%nat → base mod 2 ^ (12 + 9 * Z.of_nat (S n)) = 0 →
  (va, l1, i) ∈ user_leaves m n t base ↔
    idx_ok i ∧ user (entry m l1 i) = true ∧
    ∃ p, length p = n ∧ Forall idx_ok p ∧ (∀ j, head p = Some j → j < width n) ∧
      node m t p = Some l1 ∧ va = va_from base p i.
Proof.
  revert t base. induction n as [|n IH]; intros t base Hn Hb; cbn [user_leaves];
    rewrite list_elem_of_bind; setoid_rewrite elem_of_seqZ.
  - split.
    + intros (j&Hin&Hj). destruct (user (entry m t j)) eqn:Hu; [|by apply elem_of_nil in Hin].
      apply list_elem_of_singleton in Hin as [= -> -> ->].
      split_and!; [unfold idx_ok; lia|done|]. exists []. split_and!; try done.
      simpl. apply lor_shift; [lia|unfold idx_ok; lia|done].
    + intros (Hi&Hu&p&Hl&_&_&Hp&->). destruct p; [|done]. injection Hp as ->. exists i. rewrite Hu.
      split; [|unfold idx_ok in Hi; lia]. apply list_elem_of_singleton. simpl.
      by rewrite lor_shift by (done || lia).
  - assert (∀ j, idx_ok j → Z.lor base (Z.shiftl j (12 + 9 * Z.of_nat (S n)))
      = base + j * 2 ^ (12 + 9 * Z.of_nat (S n))) as Hlor.
    { intros j Hj. apply lor_shift; [lia|done|].
      by replace (12 + 9 * Z.of_nat (S n) + 9) with (12 + 9 * Z.of_nat (S (S n))) by lia. }
    assert (∀ j, (base + j * 2 ^ (12 + 9 * Z.of_nat (S n))) mod 2 ^ (12 + 9 * Z.of_nat (S n)) = 0)
      as Hmod by (intros j; by apply va_base_mod).
    assert (∀ p j, Forall idx_ok p → head p = Some j → j < width n) as Hw.
    { intros [|k p] j Hf; [done|]. intros [= ->]. apply Forall_cons in Hf as [[? ?] _].
      unfold width. rewrite decide_False by lia. lia. }
    split.
    + intros (j&Hin&Hj). destruct (next_table m t j) as [c|] eqn:Hc; [|by apply elem_of_nil in Hin].
      assert (idx_ok j) as Hji by (pose proof (width_le (S n)); unfold idx_ok; lia).
      rewrite Hlor in Hin by done. apply IH in Hin as (Hi&Hu&p&Hl&Hf&_&Hp&->); [|lia|apply Hmod].
      split_and!; [done|done|]. exists (j :: p). split_and!.
      * simpl. lia.
      * by constructor.
      * intros ? [= <-]. lia.
      * simpl. by rewrite Hc.
      * simpl. by rewrite Hl.
    + intros (Hi&Hu&[|j p]&Hl&Hf&Hh&Hp&->); [done|]. apply Forall_cons in Hf as [Hj Hf].
      simpl in Hl. injection Hl as Hl. simpl in Hp. apply bind_Some in Hp as (c&Hc&Hp).
      exists j. rewrite Hc, Hlor by done. split.
      * apply IH; [lia|apply Hmod|]. split_and!; [done|done|]. exists p.
        split_and!; try done; [intros ? ?; by apply (Hw p)|]. simpl. by rewrite Hl.
      * specialize (Hh j eq_refl). unfold idx_ok in Hj. lia.
Qed.

Lemma va_from_bounds base p i :
  Forall idx_ok p → idx_ok i → base ≤ va_from base p i < base + 2 ^ (12 + 9 * Z.of_nat (S (length p))).
Proof.
  intros Hp [Hi0 Hi]. revert base. induction Hp as [|j p [Hj0 Hj] Hp IH]; intros base; [simpl; lia|].
  cbn [va_from length]. specialize (IH (base + j * 2 ^ (12 + 9 * Z.of_nat (S (length p))))).
  replace (12 + 9 * Z.of_nat (S (S (length p)))) with ((12 + 9 * Z.of_nat (S (length p))) + 9) by lia.
  rewrite (Z.pow_add_r 2 (12 + 9 * Z.of_nat (S (length p))) 9) by lia.
  set (w := 2 ^ (12 + 9 * Z.of_nat (S (length p)))) in *. assert (0 < w) by (apply Z.pow_pos_nonneg; lia).
  nia.
Qed.

(** No address is visited twice. *)
Lemma NoDup_user_leaves m n t base :
  (n ≤ 3)%nat → base mod 2 ^ (12 + 9 * Z.of_nat (S n)) = 0 →
  NoDup ((λ x, x.1.1) <$> user_leaves m n t base).
Proof.
  revert t base. induction n as [|n IH]; intros t base Hn Hb; cbn [user_leaves]; rewrite fmap_bind;
    (apply NoDup_bind; [|]).
  - intros j _. destruct (user _); simpl; [apply NoDup_singleton|constructor].
  - intros j k x y b Hj Hk Hb1 Hb2. apply lookup_seqZ in Hj as [-> Hj], Hk as [-> Hk].
    destruct (user (entry m t (0 + Z.of_nat j))), (user (entry m t (0 + Z.of_nat k)));
      simpl in Hb1, Hb2; try (by apply elem_of_nil in Hb1); try (by apply elem_of_nil in Hb2).
    apply list_elem_of_singleton in Hb1 as ->, Hb2 as Heq.
    rewrite !lor_shift in Heq by (done || (unfold idx_ok; lia)). lia.
  - intros j Hj. destruct (next_table m t j) as [c|]; [|constructor]. apply IH; [lia|].
    assert (idx_ok j) as Hji by (eapply seqZ_idx; [apply width_le|done]).
    rewrite lor_shift; [|lia|done|by replace (12 + 9 * Z.of_nat (S n) + 9)
      with (12 + 9 * Z.of_nat (S (S n))) by lia]. by apply va_base_mod.
  - intros j k x y b Hj Hk Hb1 Hb2. apply lookup_seqZ in Hj as [-> Hj], Hk as [-> Hk].
    pose proof (width_le (S n)).
    assert (∀ j c, 0 ≤ j < width (S n) → next_table m t j = Some c →
      b ∈ (λ x, x.1.1) <$> user_leaves m n c (Z.lor base (Z.shiftl j (12 + 9 * Z.of_nat (S n)))) →
      (b - base) / 2 ^ (12 + 9 * Z.of_nat (S n)) = j) as Hdiv.
    { clear -Hb Hn. intros j c Hj Hc Hin. pose proof (width_le (S n)).
      assert (idx_ok j) as Hji by (unfold idx_ok; lia).
      apply list_elem_of_fmap in Hin as ([[va l1] i]&->&Hin). simpl.
      rewrite lor_shift in Hin; [|lia|done|by replace (12 + 9 * Z.of_nat (S n) + 9)
        with (12 + 9 * Z.of_nat (S (S n))) by lia].
      apply elem_user_leaves in Hin as (Hi&_&p&Hl&Hf&_&_&->); [|lia|by apply va_base_mod].
      pose proof (va_from_bounds (base + j * 2 ^ (12 + 9 * Z.of_nat (S n))) p i Hf Hi) as Hbd.
      rewrite Hl in Hbd. set (w := 2 ^ (12 + 9 * Z.of_nat (S n))) in *.
      assert (0 < w) by (apply Z.pow_pos_nonneg; lia).
      symmetry. apply (Z.div_unique_pos _ w _ (va_from (base + j * w) p i - (base + j * w))); lia. }
    destruct (next_table m t (0 + Z.of_nat j)) as [c|] eqn:Hc; [|by apply elem_of_nil in Hb1].
    destruct (next_table m t (0 + Z.of_nat k)) as [c'|] eqn:Hc'; [|by apply elem_of_nil in Hb2].
    apply Hdiv in Hb1, Hb2; try done; lia.
Qed.

(** ** Marking the parent's pages *)

Definition marked (e : Z) : Z := if writable e then cow_entry e else e.

Lemma PRESENT_ok : flags_ok PRESENT. Proof. done. Qed.
Lemma WRITABLE_ok : flags_ok WRITABLE. Proof. done. Qed.
Lemma USER_ok : flags_ok USER_ACCESSIBLE. Proof. done. Qed.
Lemma COW_ok : flags_ok COW_FLAG. Proof. done. Qed.

Lemma writable_testbit e : writable e = Z.testbit (pte_flags e) 1.
Proof. apply (contains_testbit _ 1). lia. Qed.
Lemma cow_testbit e : cow e = Z.testbit (pte_flags e) 9.
Proof. apply (contains_testbit _ 9). lia. Qed.
Lemma user_testbit e : user e = Z.testbit (pte_flags e) 2.
Proof.
  unfold user. rewrite (contains_testbit _ 2) by lia. unfold is_unused.
  destruct (Z.eqb_spec e 0) as [->|]; [done|done].
Qed.

Lemma cow_entry_addr e : pte_addr (cow_entry e) = pte_addr e.
Proof.
  unfold cow_entry. destruct (contains _ _); apply pte_addr_pte;
    eauto using pte_addr_ok, pte_flags_ok, flags_ok_insert, flags_ok_remove, COW_ok.
Qed.

Lemma cow_entry_flags e :
  pte_flags (cow_entry e) =
    if writable e then fl_insert (fl_remove (pte_flags e) WRITABLE) COW_FLAG else pte_flags e.
Proof.
  unfold cow_entry, writable. destruct (contains _ _); apply pte_flags_pte;
    eauto using pte_addr_ok, pte_flags_ok, flags_ok_insert, flags_ok_remove, COW_ok.
Qed.

Lemma cow_entry_writable e : writable (cow_entry e) = false.
Proof.
  rewrite writable_testbit, cow_entry_flags. destruct (writable e) eqn:Hw.
  - unfold fl_insert, fl_remove. rewrite Z.lor_spec, Z.ldiff_spec. change (Z.testbit WRITABLE 1) with true.
    by rewrite andb_false_r.
  - by rewrite <-writable_testbit.
Qed.

Lemma cow_entry_user e : user (cow_entry e) = user e.
Proof.
  rewrite !user_testbit, cow_entry_flags. destruct (writable e); [|done].
  unfold fl_insert, fl_remove. rewrite Z.lor_spec, Z.ldiff_spec.
  change (Z.testbit WRITABLE 2) with false. change (Z.testbit COW_FLAG 2) with false.
  by rewrite andb_true_r, orb_false_r.
Qed.

Lemma marked_same e :
  pte_addr (marked e) = pte_addr e ∧ user (marked e) = user e ∧ writable (marked e) = false.
Proof.
  unfold marked. destruct (writable e) eqn:Hw; [|done].
  by rewrite cow_entry_addr, cow_entry_user, cow_entry_writable.
Qed.

Lemma cow_mark_fold l m acc :
  let st := foldl (λ st x, cow_mark x.1.1 x.1.2 x.2 st) (m, acc) l in
  (∀ g j, entry st.1 g j =
     if decide (Exists (λ x, x.1.2 = g ∧ x.2 = j) l) then marked (entry m g j) else entry m g j) ∧
  st.2 = acc ++ ((λ x, (x.1.1, cow_entry (entry m x.1.2 x.2))) <$> l).
Proof.
  revert m acc. induction l as [|[[va l1] i] l IH]; intros m acc.
  { split; [|by rewrite app_nil_r]. intros g j. rewrite decide_False; [done|]. by intros ?%Exists_nil. }
  cbn [foldl fst snd]. set (st1 := cow_mark va l1 i (m, acc)).
  assert (∀ g j, entry st1.1 g j = if decide (l1 = g ∧ i = j) then marked (entry m g j) else entry m g j)
    as H1.
  { intros g j. unfold st1, cow_mark. simpl. fold (writable (entry m l1 i)).
    destruct (writable (entry m l1 i)) eqn:Hw; [rewrite entry_set_entry|];
      destruct (decide (l1 = g ∧ i = j)) as [[-> ->]|]; try done; unfold marked; by rewrite Hw. }
  assert (∀ e, marked (marked e) = marked e) as Hmm.
  { intros e. destruct (marked_same e) as (_&_&Hw). unfold marked at 1. by rewrite Hw. }
  assert (∀ e, cow_entry (marked e) = cow_entry e) as Hcm.
  { intros e. unfold marked. destruct (writable e) eqn:Hw; [|done]. unfold cow_entry at 1.
    fold (writable (cow_entry e)). rewrite cow_entry_writable, cow_entry_addr, cow_entry_flags, Hw.
    unfold cow_entry. fold (writable e). by rewrite Hw. }
  specialize (IH st1.1 st1.2). rewrite <-surjective_pairing in IH. destruct IH as [IHe IHl].
  split.
  - intros g j. rewrite IHe, H1.
    destruct (decide (Exists _ (_ :: l))) as [Hex|Hex]; rewrite Exists_cons in Hex; simpl in Hex.
    + destruct (decide (l1 = g ∧ i = j)); destruct (decide (Exists _ l)); rewrite ?Hmm; try done.
      by destruct Hex.
    + rewrite !decide_False by (intros ?; apply Hex; auto). done.
  - rewrite IHl. unfold st1 at 1, cow_mark. simpl. rewrite <-(assoc_L (++)). f_equal. simpl. f_equal.
    apply list_fmap_ext. intros k [[v g] j] _. simpl. f_equal. rewrite H1.
    by destruct (decide (l1 = g ∧ i = j)); rewrite ?Hcm.
Qed.

#[local] Opaque user_leaves walk_user.

Section mark.
Context (K : Z) (A : gset Z) (s : phys) (a : Z) (Hok : vm_ok K A s) (Ha : a ∈ A).
Let m := ph_mem s.
Let lv := user_leaves m 3 a 0.
Let st := walk_user cow_mark 3 a 0 (m, []).
Let s' := Phys st.1 (ph_fa s).

Lemma mark_has_space : space K A a.
Proof. by left. Qed.

Lemma mark_leaf va l1 i :
    (va, l1, i) ∈ lv ↔ ∃ p e, tpath p ∧ idx_ok i ∧ user_leaf m a p i e ∧
      node m a p = Some l1 ∧ entry m l1 i = e ∧ va = va_of p i.
Proof.
    unfold lv. rewrite elem_user_leaves by done. split.
    - intros (Hi&Hu&p&Hl&Hf&Hh&Hp&->). exists p, (entry m l1 i).
      split_and!; try done; [split; [lia|done]|]. split_and!; [done|by apply leaf_node; eauto|done].
    - intros (p&e&[Hl Hf]&Hi&Hul&Hp&<-&->). pose proof Hul as (Hl3&_&Hu).
      split_and!; try done. exists p. split_and!; try done. intros j Hj.
      destruct (vo_user _ _ _ Hok a p i _ mark_has_space (conj Hl Hf) Hi Hul) as (_&(_&_&_&Hh)&_).
      by apply Hh.
Qed.

Lemma mark_st : st = foldl (λ st x, cow_mark x.1.1 x.1.2 x.2 st) (m, []) lv.
Proof.
    apply walk_flatten.
    - intros va l1 i st0 g j Hne. unfold cow_mark. simpl. destruct (contains _ _); [|done].
      rewrite entry_set_entry, decide_False; [done|]. intros [-> ->]. done.
    - intros p q c Hlp Hfp Hlq Hfq Hp Hq.
      by apply (vo_sep _ _ _ Hok a a p q c mark_has_space mark_has_space).
    - intros p c j _ _ _. done.
Qed.

Lemma mark_entry g j :
    entry st.1 g j =
      if decide (Exists (λ x, x.1.2 = g ∧ x.2 = j) lv) then marked (entry m g j) else entry m g j.
Proof. rewrite mark_st. apply cow_mark_fold. Qed.

Lemma mark_list va raw :
    (va, raw) ∈ st.2 ↔ ∃ p i e, tpath p ∧ idx_ok i ∧ user_leaf m a p i e ∧
      va = va_of p i ∧ raw = cow_entry e.
Proof.
    rewrite mark_st. destruct (cow_mark_fold lv m []) as [_ ->]. simpl.
    rewrite list_elem_of_fmap. split.
    - intros ([[va' l1] i]&[= -> ->]&Hin). simpl.
      apply mark_leaf in Hin as (p&e&Hp&Hi&Hu&Hn&He&->). exists p, i, e. by rewrite He.
    - intros (p&i&e&Hp&Hi&Hu&->&->). pose proof Hu as (_&(l1&Hl1&He)%leaf_node&_).
      exists (va_of p i, l1, i). simpl. rewrite He. split; [done|].
      apply mark_leaf. by exists p, e.
Qed.

Lemma mark_list_NoDup : NoDup st.2.*1.
Proof.
    rewrite mark_st. destruct (cow_mark_fold lv m []) as [_ ->]. simpl.
    rewrite <-list_fmap_compose. by apply NoDup_user_leaves.
Qed.

(** Only user pages of [a] are rewritten. *)
Lemma mark_where g j b q :
    Exists (λ x : Z * Z * Z, x.1.2 = g ∧ x.2 = j) lv →
    space K A b → tpath q → node m b q = Some g →
    b = a ∧ length q = 3%nat ∧ user (entry m g j) = true.
Proof.
    intros ([[va l1] i]&Hin&[<- <-])%Exists_exists Hb Hq Hbq.
    apply mark_leaf in Hin as (p&e&Hp&Hi&Hu&Hn&He&_). simpl in *.
    pose proof (vo_user _ _ _ Hok a p i e mark_has_space Hp Hi Hu) as (_&(_&Hl&Hs&_)&_).
    destruct (vo_sep _ _ _ Hok b a q p l1 Hb mark_has_space Hq Hp Hbq Hn) as [-> [->|?]]; [|done].
    split_and!; [done|done|]. destruct Hu as (_&_&Hu). congruence.
Qed.

Lemma mark_entry_inner b q g j :
    space K A b → tpath q → node m b q = Some g → length q ≠ 3%nat ∨ b ≠ a →
    entry st.1 g j = entry m g j.
Proof.
    intros Hb Hq Hn Hne. rewrite mark_entry. destruct (decide _) as [Hex|]; [|done].
    destruct (mark_where g j b q Hex Hb Hq Hn) as (->&?&_). by destruct Hne.
Qed.

Lemma mark_node b q : space K A b → tpath q → node st.1 b q = node m b q.
Proof.
    intros Hb Hq. apply node_same. intros q1 j r c -> Hc.
    apply (mark_entry_inner b q1); [done|by eapply tpath_app_l|done|].
    left. destruct Hq as [Hq _]. rewrite length_app in Hq. simpl in Hq. lia.
Qed.

Lemma mark_user_leaf b q j e' :
    space K A b → tpath q → idx_ok j →
    user_leaf st.1 b q j e' ↔
      ∃ e, user_leaf m b q j e ∧ e' = if decide (b = a) then marked e else e.
Proof.
    intros Hb Hq Hj. unfold user_leaf. setoid_rewrite leaf_node. rewrite mark_node by done. split.
    - intros (Hl&(t&Ht&He)&Hu). exists (entry m t j).
      destruct (decide (b = a)) as [->|Hba].
      + rewrite mark_entry in He. destruct (decide _) as [Hex|Hnex].
        * subst e'. destruct (marked_same (entry m t j)) as (_&Hmu&_). rewrite Hmu in Hu. eauto 6.
        * exfalso. apply Hnex, Exists_exists. exists (va_of q j, t, j). split; [|done].
          apply mark_leaf. exists q, e'. subst e'. split_and!; try done. split_and!; [done| |done].
          apply leaf_node. eauto.
      + rewrite (mark_entry_inner b q) in He by auto. subst e'. eauto 6.
    - intros (e&(Hl&(t&Ht&He)&Hu)&->). split; [done|]. split.
      + exists t. split; [done|]. destruct (decide (b = a)) as [->|Hba].
        * rewrite mark_entry, decide_True; [by rewrite He|]. apply Exists_exists.
          exists (va_of q j, t, j). split; [|done]. apply mark_leaf. exists q, e.
          split_and!; try done. split_and!; [done| |done]. apply leaf_node. eauto.
        * rewrite (mark_entry_inner b q) by auto. done.
      + destruct (decide (b = a)); [|done]. by destruct (marked_same e) as (_&->&_).
Qed.

Lemma mark_page f : not_table K A m f → page_at st.1 f = page_at m f.
Proof.
    intros Hf. rewrite mark_st.
    assert (∀ x, x ∈ lv → x.1.2 ≠ f) as Hl.
    { intros [[va l1] i] Hin. simpl. intros ->. apply mark_leaf in Hin as (p&e&Hp&_&_&Hn&_).
      by apply (Hf a p mark_has_space Hp). }
    clear -Hl. generalize m. induction lv as [|x l IH]; intros m0; [done|]. cbn [foldl].
    rewrite (surjective_pairing (cow_mark _ _ _ _)).
    assert (∀ acc m1, page_at (foldl (λ st x, cow_mark x.1.1 x.1.2 x.2 st) (m1, acc) l).1 f = page_at m1 f)
      as Hg.
    { clear IH. induction l as [|y l IH]; intros acc m1; [done|]. cbn [foldl].
      rewrite (surjective_pairing (cow_mark _ _ _ _)), IH.
      - unfold cow_mark. simpl. destruct (contains _ _); [|done]. apply page_at_set_entry.
        intros Hy. apply (Hl y); [|done]. by right; left.
      - intros z Hz. apply Hl. apply elem_of_cons in Hz as [->|Hz]; [by left|by right; right]. }
    rewrite Hg. unfold cow_mark. simpl. destruct (contains _ _); [|done]. apply page_at_set_entry.
    intros Hx. apply (Hl x); [by left|done].
Qed.

(** A walk of another space, or of the kernel, sees no difference. *)
Lemma mark_blocked b q : space K A b → tpath q → blocked st.1 b q ↔ blocked m b q.
Proof.
    intros Hb Hq. unfold blocked.
    assert (∀ q1 j r c, q = q1 ++ j :: r → node m b q1 = Some c → entry st.1 c j = entry m c j) as He.
    { intros q1 j r c -> Hc. apply (mark_entry_inner b q1); [done|by eapply tpath_app_l|done|].
      left. destruct Hq as [Hq _]. rewrite length_app in Hq. simpl in Hq. lia. }
    split; intros (q1&j&r&c&Hq1&Hc&Hce&Hn); exists q1, j, r, c.
    - rewrite mark_node in Hc; [|done|rewrite Hq1 in Hq; by eapply tpath_app_l].
      pose proof (He q1 j r c Hq1 Hc) as Hj. unfold next_table in *. by rewrite Hj in *.
    - rewrite mark_node by (done || (rewrite Hq1 in Hq; by eapply tpath_app_l)).
      pose proof (He q1 j r c Hq1 Hc) as Hj. unfold next_table in *. by rewrite Hj.
Qed.

Lemma mark_kfree q i : tpath q → kfree K st.1 q i ↔ kfree K m q i.
Proof.
    intros Hq. assert (space K A K) as HK by (by right). unfold kfree.
    rewrite mark_blocked by done.
    assert (leaf st.1 K q i = leaf m K q i) as ->; [|done].
    unfold leaf. rewrite mark_node by done. destruct (node m K q) as [c|] eqn:Hc; [|done]. simpl. f_equal.
    apply (mark_entry_inner K q); try done. right. intros ->. by apply (vo_kernel _ _ _ Hok).
Qed.

Lemma mark_top b j : space K A b → entry st.1 b j = entry m b j.
Proof.
    intros Hb. apply (mark_entry_inner b []); [done|apply tpath_nil|done|]. by left.
Qed.

Lemma mark_ok : vm_ok K A s'.
Proof.
    assert (∀ i, shared K st.1 i ↔ shared K m i) as Hsh.
    { intros i. unfold shared. by rewrite mark_top by (by right). }
    assert (∀ p, shared_path K st.1 p ↔ shared_path K m p) as Hsp.
    { intros p. unfold shared_path. by setoid_rewrite Hsh. }
    assert (∀ b q j e', space K A b → tpath q → idx_ok j → user_leaf st.1 b q j e' →
      ∃ e, user_leaf m b q j e ∧ pte_addr e' = pte_addr e ∧ (writable e' = true → e' = e)) as Hul.
    { intros b q j e' Hb Hq Hj (e&He&->)%mark_user_leaf; try done. exists e. split; [done|].
      destruct (decide (b = a)); [|done]. destruct (marked_same e) as (Hma&_&Hmw).
      split; [done|congruence]. }
    split; simpl.
    - apply (extends_fa_ok s); [by split|apply (vo_fa _ _ _ Hok)].
    - apply (vo_kernel _ _ _ Hok).
    - apply (vo_roots _ _ _ Hok).
    - intros b i Hb Hi. rewrite Hsh, (mark_top b), (mark_top K) by first [by left|by right].
      by apply (vo_shared _ _ _ Hok).
    - intros b c p q f Hb Hc Hp Hq. rewrite Hsp, !mark_node by done. by apply (vo_sep _ _ _ Hok).
    - intros b p f Hb Hp. rewrite mark_node by done. by apply (vo_used _ _ _ Hok).
    - intros b p i e' Hb Hp Hi Hu. unfold own_path. rewrite Hsp, mark_kfree by done.
      destruct (Hul _ _ _ _ Hb Hp Hi Hu) as (e&He&_). by apply (vo_user _ _ _ Hok b p i e).
    - intros b p i e' c q Hb Hp Hi Hu Hc Hq. rewrite mark_node by done.
      destruct (Hul _ _ _ _ Hb Hp Hi Hu) as (e&He&->&_). by apply (vo_data _ _ _ Hok b p i e).
    - intros b p i e' Hb Hp Hi Hu. destruct (Hul _ _ _ _ Hb Hp Hi Hu) as (e&He&->&_).
      by apply (vo_live _ _ _ Hok b p i e).
    - intros b p i e' c q j e2' Hb Hp Hi Hu Hc Hq Hj Hu2 Heq Hw.
      destruct (Hul _ _ _ _ Hb Hp Hi Hu) as (e&He&Ha1&Hwe).
      pose proof (Hwe Hw) as ->.
      destruct (Hul _ _ _ _ Hc Hq Hj Hu2) as (e2&He2&Ha2&_).
      apply (vo_cow _ _ _ Hok b p i e c q j e2); try done. congruence.
Qed.
End mark.

(** ** Sharing the parent's pages with the child

    The loop of [cow_fork_address_space] that maps the remembered entries, and
    the fork as a whole. *)


(** The allocator has nothing left; it stays so. *)
Definition exhausted (s : phys) : Prop := (alloc_frame s).1 = None.

Lemma exhausted_extends s s' : extends s s' → exhausted s → exhausted s'.
Proof.
  intros [Hm Hn]. unfold exhausted, alloc_frame. simpl. rewrite Hm, !lookup_ge_None. lia.
Qed.

Lemma frame_containing_ok f : frame_ok f → frame_containing f = f.
Proof.
  intros Hf. unfold frame_containing.
  assert (f mod 4096 = 0) as Hm.
  { change 4096 with (2 ^ 12). rewrite <-Z.land_ones by lia. rewrite <-Hf, <-Z.land_assoc.
    change (Z.land ADDR_MASK (Z.ones 12)) with 0. apply Z.land_0_r. }
  apply Z.div_exact in Hm; [|lia]. lia.
Qed.

(** Address and flags of a raw entry survive the trip through the list. *)
Definition raw_entry (raw : Z) : Z := pte (pte_addr raw) (pte_flags raw).

Lemma raw_entry_props raw :
  pte_addr (raw_entry raw) = pte_addr raw ∧ user (raw_entry raw) = user raw ∧
  writable (raw_entry raw) = writable raw ∧ pte_flags (raw_entry raw) = pte_flags raw.
Proof.
  unfold raw_entry. rewrite !user_testbit, !writable_testbit.
  rewrite pte_addr_pte, pte_flags_pte by (apply pte_addr_ok || apply pte_flags_ok). done.
Qed.

Section share.
Context `{Paging} `{!PagingLaws}.
Context (K : Z) (A : gset Z) (n : Z) (Hn : n ∈ A).

Lemma leaf_path3 m t a b c i e :
  leaf m t [a; b; c] i = Some e →
  entry m (pte_addr (entry m (pte_addr (entry m (pte_addr (entry m t a)) b)) c)) i = e.
Proof.
  intros (l1&Hl1&<-)%leaf_node. simpl in Hl1.
  apply bind_Some in Hl1 as (c3&H3&Hl1). apply bind_Some in Hl1 as (c2&H2&Hl1).
  apply bind_Some in Hl1 as (c1&H1&[= <-]). unfold next_table in *.
  destruct (is_unused (entry m t a) || _); [done|]. injection H3 as <-.
  destruct (is_unused (entry m (pte_addr (entry m t a)) b) || _); [done|]. injection H2 as <-.
  destruct (is_unused (entry m (pte_addr (entry m (pte_addr (entry m t a)) b)) c) || _); [done|].
  by injection H1 as <-.
Qed.

Lemma node_path3 m t a b c l1 :
  node m t [a; b; c] = Some l1 →
  l1 = pte_addr (entry m (pte_addr (entry m (pte_addr (entry m t a)) b)) c).
Proof.
  intros Hl1. simpl in Hl1. apply bind_Some in Hl1 as (c3&H3&Hl1).
  apply bind_Some in Hl1 as (c2&H2&Hl1). apply bind_Some in Hl1 as (c1&H1&[= <-]).
  unfold next_table in *.
  destruct (is_unused (entry m t a) || _); [done|]. injection H3 as <-.
  destruct (is_unused (entry m (pte_addr (entry m t a)) b) || _); [done|]. injection H2 as <-.
  destruct (is_unused (entry m (pte_addr (entry m (pte_addr (entry m t a)) b)) c) || _); [done|].
  by injection H1 as <-.
Qed.

(** A path with its address. *)
Definition page_of (p : list Z) (i va : Z) : Prop :=
  tpath p ∧ length p = 3%nat ∧ idx_ok i ∧ va = va_of p i.

Lemma page_of_va p i va :
  page_of p i va → va_path va = p ∧ va_index 0 va = i ∧ frame_containing va = va.
Proof.
  intros ([_ Hf]&Hl&Hi&->). destruct p as [|a [|b [|c [|]]]]; try done.
  rewrite !Forall_cons in Hf. destruct Hf as (?&?&?&_). by apply va_of_index.
Qed.

(** What sharing one page does to the child. *)
Record shared_page s s' (p : list Z) (i raw : Z) : Prop := {
  sp_remaps : remaps K A s s' n p i;
  sp_ok : vm_ok K A s';
  sp_leaf : leaf (ph_mem s') n p i = Some (raw_entry raw) ∧
      (∀ e, leaf (ph_mem s) n p i = Some e → e = 0) ∨
    (∀ e, e ≠ 0 → leaf (ph_mem s') n p i = Some e → leaf (ph_mem s) n p i = Some e) ∧
      (exhausted s' ∨ blocked (ph_mem s) n p ∨ ∃ e, leaf (ph_mem s) n p i = Some e ∧ e ≠ 0);
}.

Lemma cow_share_spec s s' p i va raw :
  vm_ok K A s → page_of p i va → own_path K (ph_mem s) p → kfree K (ph_mem s) p i →
  writable raw = false →
  not_table K A (ph_mem s) (pte_addr raw) → ¬ future s (pte_addr raw) →
  (∀ b q j e, space K A b → tpath q → idx_ok j → user_leaf (ph_mem s) b q j e →
     pte_addr e = pte_addr raw → writable e = false) →
  cow_share n (va, raw) s = (Ok tt, s') → shared_page s s' p i raw.
Proof.
  intros Hok Hpage Hown Hkf Hw Hnt Hnf Hro Hrun.
  destruct (page_of_va p i va Hpage) as (Hpath&Hidx&Hva). pose proof Hpage as (Hpt&Hl3&Hi&_).
  assert (∀ e, pte_addr e = pte_addr raw → writable e = false → leaf_fits K A s n p i e) as Hfits.
  { intros e He Hwe. split_and!; [by rewrite He|by rewrite He|].
    intros b q j e' Hb Hq Hj Hu _ Heq. split; [|done]. eapply Hro; eauto. congruence. }
  unfold cow_share in Hrun. apply sbind_Ok_inv in Hrun as (r&s1&Hcatch&Hrun).
  change (Z.land raw ADDR_MASK) with (pte_addr raw) in *.
  rewrite Hva, (frame_containing_ok (pte_addr raw)) in Hcatch by apply pte_addr_ok.
  unfold catch in Hcatch. destruct (map_to n va _ _ s) as [res s1'] eqn:Hmap.
  apply map_to_spec in Hmap as Hpost;
    [|apply Hok|rewrite Hpath; by eapply own_path_ok|apply pte_addr_ok|done].
  rewrite Hpath, Hidx in Hpost.
  pose proof (map_to_remaps K A s s1' n p i _ _ res Hok Hn Hown Hpost) as Hr1.
  assert (s1 = s1') as -> by (destruct res; naive_solver).
  assert (∀ e, user_leaf (ph_mem s1') n p i e → leaf_fits K A s n p i e) as Hf1.
  { intros e Hu. destruct (decide (res = Ok tt)) as [->|Hne].
    - destruct (mp_ok _ _ _ _ _ _ _ _ Hpost eq_refl) as [Hlf _]. destruct Hu as (_&Hlf'&_).
      assert (e = pte (pte_addr raw) (Z.lor PRESENT USER_ACCESSIBLE)) as -> by congruence.
      apply Hfits; [by rewrite pte_addr_pte by (done || apply pte_addr_ok)|].
      rewrite writable_testbit, pte_flags_pte by (done || apply pte_addr_ok). done.
    - destruct Hu as (Hul&Hlf&Huu).
      pose proof (proj1 (mp_err _ _ _ _ _ _ _ _ Hpost Hne e (user_nonzero e Huu)) Hlf) as Hlf'.
      assert (user_leaf (ph_mem s) n p i e) as Hu by done.
      assert (space K A n) as Hsn by (by left). split_and!.
      + intros b q Hb Hq. by apply (vo_data _ _ _ Hok n p i e).
      + by apply (vo_live _ _ _ Hok n p i e).
      + intros b q j e' Hb Hq Hj Hu' Hne' Heq. split.
        * apply not_true_iff_false. intros Hwe.
          destruct (vo_cow _ _ _ Hok b q j e' n p i e) as (->&->&->); try done.
        * apply not_true_iff_false. intros Hwe.
          destruct (vo_cow _ _ _ Hok n p i e b q j e') as (->&->&->); try done. }
  pose proof (remaps_ok K A s s1' n p i Hok Hr1 Hn Hown Hkf Hf1) as Hok1.
  destruct res as [[]|err| |]; injection Hcatch as <- || done.
  - destruct (mp_ok _ _ _ _ _ _ _ _ Hpost eq_refl) as [Hlf Hunused].
    injection Hrun as <-. pose proof Hlf as Hlf0. apply leaf_node in Hlf as (l1&Hl1&_).
    destruct p as [|a [|b [|c [|]]]]; try done.
    pose proof Hpath as [= Hp3 Hp2 Hp1]. rewrite Hp3, Hp2, Hp1, Hidx.
    rewrite <-(node_path3 _ _ _ _ _ _ Hl1). fold (raw_entry raw).
    change (Z.land raw FLAG_MASK) with (pte_flags raw).
    change (pte (pte_addr raw) (pte_flags raw)) with (raw_entry raw).
    assert (own_path K (ph_mem s1') [a; b; c]) as Hown1 by (by apply (own_path_same K A s s1' n [a; b; c] i)).
    destruct (set_leaf_remaps K A s1' n [a; b; c] i l1 (raw_entry raw)) as [Hr2 Hl2]; try done.
    pose proof (remaps_trans K A _ _ _ _ _ _ Hr1 Hr2) as Hr.
    split; [done| |by left].
    apply (remaps_ok K A s _ n [a; b; c] i); try done.
    intros e (_&Hle&_). simpl in Hle. assert (e = raw_entry raw) as -> by congruence.
    destruct (raw_entry_props raw) as (Hra&_&Hrw&_). apply Hfits; congruence.
  - injection Hrun as <-. split; [done|done|]. right. split.
    + intros e He. by apply (mp_err _ _ _ _ _ _ _ _ Hpost).
    + pose proof (mp_fail _ _ _ _ _ _ _ _ Hpost err eq_refl) as Hfail. destruct err; auto.
Qed.

(** What the list of entries has to satisfy in the state the loop starts from. *)
Record sharable s (va raw : Z) (p : list Z) (i : Z) : Prop := {
  sb_page : page_of p i va;
  sb_own : own_path K (ph_mem s) p;
  sb_kfree : kfree K (ph_mem s) p i;
  sb_ro : writable raw = false;
  sb_table : not_table K A (ph_mem s) (pte_addr raw);
  sb_live : ¬ future s (pte_addr raw);
  sb_excl b q j e : space K A b → tpath q → idx_ok j → user_leaf (ph_mem s) b q j e →
    pte_addr e = pte_addr raw → writable e = false;
  sb_unused e : leaf (ph_mem s) n p i = Some e → e = 0;
  sb_clear : ¬ blocked (ph_mem s) n p;
}.

(** The loop, after the entries [done]. *)
Record sharing s2 s (done : list (Z * Z)) : Prop := {
  sh_ok : vm_ok K A s;
  sh_extends : extends s2 s;
  sh_others b q j e : space K A b → tpath q → idx_ok j → b ≠ n →
    user_leaf (ph_mem s) b q j e ↔ user_leaf (ph_mem s2) b q j e;
  sh_child p i e : tpath p → length p = 3%nat → idx_ok i → e ≠ 0 →
    leaf (ph_mem s) n p i = Some e → leaf (ph_mem s2) n p i = Some e ∨
    ∃ raw, (va_of p i, raw) ∈ done ∧ e = raw_entry raw;
  sh_all : exhausted s ∨ ∀ p i va raw, page_of p i va → (va, raw) ∈ done →
    user raw = true → leaf (ph_mem s) n p i = Some (raw_entry raw);
  sh_blocked q : tpath q → blocked (ph_mem s) n q → blocked (ph_mem s2) n q;
  sh_own q : own_path K (ph_mem s) q ↔ own_path K (ph_mem s2) q;
  sh_kfree q i : tpath q → kfree K (ph_mem s) q i ↔ kfree K (ph_mem s2) q i;
  sh_tables b q f : space K A b → tpath q → node (ph_mem s) b q = Some f →
    node (ph_mem s2) b q = Some f ∨ taken s2 s f;
  sh_data f : not_table K A (ph_mem s2) f → ¬ taken s2 s f →
    page_at (ph_mem s) f = page_at (ph_mem s2) f;
}.

Lemma sharing_start s : vm_ok K A s → sharing s s [].
Proof.
  intros Hok. split; try done; try tauto.
  right. intros ????? Hin. by apply elem_of_nil in Hin.
Qed.

Lemma page_of_inj p i q j va : page_of p i va → page_of q j va → p = q ∧ i = j.
Proof. intros H1%page_of_va H2%page_of_va. split; [destruct H1, H2|]; naive_solver. Qed.

Section share_step.
Context (s2 : phys) (done : list (Z * Z)) (s s' : phys) (va raw : Z) (p : list Z) (i : Z).
Context (Hsh : sharing s2 s done) (Hsb : sharable s2 va raw p i).
Context (Hdone : ∀ va' raw', (va', raw') ∈ done → ∃ p' i', sharable s2 va' raw' p' i').
Context (Hempty : ∀ q j e, tpath q → idx_ok j → ¬ user_leaf (ph_mem s2) n q j e).
Context (Hnew : ∀ raw', (va, raw') ∉ done).

Lemma share_step_page :
  cow_share n (va, raw) s = (Ok tt, s') → shared_page s s' p i raw.
Proof.
  intros Hrun. pose proof Hsh as []. pose proof Hsb as []. pose proof sb_page0 as (Hpt&Hl&Hi&_).
  apply (cow_share_spec s s' p i va raw); try done.
  - by apply sh_own0.
  - by apply sh_kfree0.
  - intros b q Hb Hq Hbq. destruct (sh_tables0 b q _ Hb Hq Hbq) as [?|[? _]]; [|done].
    by eapply sb_table0.
  - intros Hf. apply sb_live0. by eapply extends_future.
  - intros b q j e Hb Hq Hj Hu Heq. destruct (decide (b = n)) as [->|Hbn].
    + destruct Hu as (Hql&Hlf&Hu).
      destruct (sh_child0 q j e Hq Hql Hj (user_nonzero _ Hu) Hlf) as [Hlf2|(raw'&Hin&->)].
      * by destruct (Hempty q j e Hq Hj).
      * destruct (Hdone _ _ Hin) as (p'&i'&[]). by destruct (raw_entry_props raw') as (_&_&->&_).
    + apply (sb_excl0 b q j e); try done. by apply sh_others0.
Qed.

Lemma share_step : cow_share n (va, raw) s = (Ok tt, s') → sharing s2 s' (done ++ [(va, raw)]).
Proof.
  intros Hrun. destruct (share_step_page Hrun) as [Hr Hok' Hleaf].
  pose proof Hsh as []. pose proof Hsb as []. pose proof sb_page0 as (Hpt&Hl&Hi&Hva).
  assert (extends s s') as Hx by apply Hr. assert (space K A n) as Hsn by (by left).
  assert (leaf (ph_mem s) n p i = None ∨ leaf (ph_mem s) n p i = Some 0) as Hun.
  { destruct (leaf (ph_mem s) n p i) as [e|] eqn:He; [right|by left]. f_equal.
    destruct (decide (e = 0)) as [|Hne]; [done|exfalso].
    destruct (sh_child0 p i e Hpt Hl Hi Hne He) as [H2|(raw'&Hin&_)].
    - by apply Hne, sb_unused0.
    - apply (Hnew raw'). by rewrite Hva. }
  split.
  - done.
  - by trans s.
  - intros b q j e Hb Hq Hj Hbn. rewrite (rm_user K A s s' n p i) by (done || congruence).
    by apply sh_others0.
  - intros q j e Hq Hql Hj He Hlf. destruct (decide ((q, j) = (p, i))) as [[= -> ->]|Hne].
    + destruct Hleaf as [[Hle _]|[Hle _]].
      * right. exists raw. rewrite Hle in Hlf. injection Hlf as <-. rewrite <-Hva.
        split; [|done]. apply elem_of_app. right. by apply list_elem_of_singleton.
      * exfalso. apply Hle in Hlf; [|done]. destruct Hun; congruence.
    + apply (rm_leaves _ _ _ _ _ _ _ Hr) in Hlf; [|done..|congruence|done].
      destruct (sh_child0 q j e Hq Hql Hj He Hlf) as [?|(raw'&?&?)]; [by left|right].
      exists raw'. split; [apply elem_of_app; by left|done].
  - destruct sh_all0 as [Hex|Hall]; [left; by eapply exhausted_extends|].
    destruct Hleaf as [[Hle _]|[_ [Hex|[Hbl|(e&He&Hne)]]]].
    + right. intros q j va' raw' Hp' Hin Hu. apply elem_of_app in Hin as [Hin|Hin].
      * pose proof (Hall q j va' raw' Hp' Hin Hu) as Hold. destruct Hp' as (Hq&Hql&Hj&Hv').
        apply (rm_leaves _ _ _ _ _ _ _ Hr); try done.
        -- intros [= -> ->]. apply (Hnew raw'). by rewrite Hva, <-Hv'.
        -- destruct (raw_entry_props raw') as (_&Hu'&_). apply user_nonzero. congruence.
      * apply list_elem_of_singleton in Hin as [= -> ->].
        by destruct (page_of_inj q j p i va Hp' sb_page0) as [-> ->].
    + by left.
    + exfalso. by apply sb_clear0, sh_blocked0.
    + exfalso. destruct Hun; congruence.
  - intros q Hq Hb. apply sh_blocked0; [done|]. by apply (rm_blocked _ _ _ _ _ _ _ Hr).
  - intros q. rewrite (own_path_same K A s s' n p i) by done. apply sh_own0.
  - intros q j Hq. rewrite (kfree_same K A s s' n p i) by done. by apply sh_kfree0.
  - intros b q f Hb Hq Hf. apply (rm_new _ _ _ _ _ _ _ Hr) in Hf; [|done..].
    destruct Hf as [Hf|(_&_&_&Ht)].
    + destruct (sh_tables0 b q f Hb Hq Hf) as [?|Ht]; [by left|right]. by eapply (taken_trans_l s2 s).
    + right. by eapply (taken_trans_r s2 s).
  - intros f Hf Ht. rewrite (rm_data _ _ _ _ _ _ _ Hr).
    + apply sh_data0; [done|]. intros Ht1. apply Ht. by eapply (taken_trans_l s2 s).
    + intros b q Hb Hq Hbq. destruct (sh_tables0 b q f Hb Hq Hbq) as [?|Ht1]; [by eapply Hf|].
      apply Ht. by eapply (taken_trans_l s2 s).
    + intros Ht1. apply Ht. by eapply (taken_trans_r s2 s).
Qed.
End share_step.

Lemma share_loop s2 s s' done todo :
  sharing s2 s done → NoDup (done ++ todo).*1 →
  (∀ va raw, (va, raw) ∈ done ++ todo → ∃ p i, sharable s2 va raw p i) →
  (∀ q j e, tpath q → idx_ok j → ¬ user_leaf (ph_mem s2) n q j e) →
  sfor todo (cow_share n) s = (Ok tt, s') → sharing s2 s' (done ++ todo).
Proof.
  revert s done. induction todo as [|[va raw] todo IH]; intros s done Hsh Hnd Hall He Hrun.
  { injection Hrun as <-. by rewrite app_nil_r. }
  cbn [sfor] in Hrun. apply sbind_Ok_inv in Hrun as ([]&s1&H1&Hrun).
  replace (done ++ (va, raw) :: todo) with ((done ++ [(va, raw)]) ++ todo) in *
    by (by rewrite <-(assoc_L (++))).
  apply (IH s1); try done.
  destruct (Hall va raw) as (p&i&Hsb).
  { apply elem_of_app. left. apply elem_of_app. right. by apply list_elem_of_singleton. }
  apply (share_step s2 done s s1 va raw p i); try done.
  - intros va' raw' Hin. apply Hall. apply elem_of_app. left. apply elem_of_app. by left.
  - intros raw' Hin. rewrite !fmap_app in Hnd. apply NoDup_app in Hnd as (Hnd&_&_).
    apply NoDup_app in Hnd as (_&Hnd&_). apply (Hnd va); [|by left].
    apply list_elem_of_fmap. by exists (va, raw').
Qed.
End share.
