(* ===== verification/MemoryProps.v ===== *)
(** * Address spaces: properties

    Fork by copy-on-write behaves as a copy, the resolution of a fault gives
    the faulting space a private page, and no write of one process shows in
    another. *)

From S2P Require Import Prelude Frames Paging Memory MemorySpec MemoryCopy MemoryFork.

(** What a process reads at a page: its contents, if it is a user page. *)
Definition user_page (m : pmem) (a : Z) (p : list Z) (i : Z) : option page :=
  match leaf m a p i with
  | Some e => if user e then Some (page_at m (pte_addr e)) else None
  | None => None
  end.
(** Whether a store of the process to the page goes through. *)
Definition can_write (m : pmem) (a : Z) (p : list Z) (i : Z) : bool :=
  match leaf m a p i with Some e => user e && writable e | None => false end.

(** A page of the address space: the indices of its address. *)
Definition pos (p : list Z) (i : Z) : Prop := tpath p ∧ length p = 3%nat ∧ idx_ok i.

Lemma user_page_leaf m a p i pg :
  length p = 3%nat →
  user_page m a p i = Some pg ↔ ∃ e, user_leaf m a p i e ∧ pg = page_at m (pte_addr e).
Proof.
  intros Hl. unfold user_page, user_leaf. destruct (leaf m a p i) as [e|].
  - destruct (user e) eqn:Hu.
    + split; [intros [= <-]; by exists e|]. by intros (e'&(_&[= <-]&_)&->).
    + split; [done|]. intros (e'&(_&[= <-]&?)&_). congruence.
  - split; [done|]. by intros (e'&(_&?&_)&_).
Qed.

Lemma user_page_eq m m' a b p i :
  length p = 3%nat →
  (∀ e, user_leaf m a p i e → ∃ e', user_leaf m' b p i e' ∧
    page_at m' (pte_addr e') = page_at m (pte_addr e)) →
  (∀ e', user_leaf m' b p i e' → ∃ e, user_leaf m a p i e) →
  user_page m' b p i = user_page m a p i.
Proof.
  intros Hl H1 H2. apply option_eq. intros pg. rewrite !user_page_leaf by done. split.
  - intros (e'&He'&->). destruct (H2 e' He') as (e&He). exists e. split; [done|].
    destruct (H1 e He) as (e2&(_&Hl2&_)&Hpg). destruct He' as (_&Hl'&_).
    assert (e2 = e') as -> by congruence. done.
  - intros (e&He&->). destruct (H1 e He) as (e'&He'&Hpg). exists e'. by rewrite Hpg.
Qed.

Lemma can_write_leaf m a p i :
  length p = 3%nat → can_write m a p i = true ↔ ∃ e, user_leaf m a p i e ∧ writable e = true.
Proof.
  intros Hl. unfold can_write, user_leaf. destruct (leaf m a p i) as [e|].
  - rewrite andb_true_iff. split; [intros []; by exists e|]. by intros (e'&(_&[= <-]&?)&?).
  - split; [done|]. by intros (e'&(_&?&_)&_).
Qed.

#[local] Opaque walk_user.

(** The result and the state of the first step, for any walk. *)
Lemma pair_Ok_inv {E X} (p : pmem * X) fa (l : X) s' :
  (Ok p.2, Phys p.1 fa) = (Ok l, s') :> outcome E X * phys → l = p.2 ∧ s' = Phys p.1 fa.
Proof. by intros [= <- <-]. Qed.

Section fork.
Context `{Paging} `{!PagingLaws}.
Context (K : Z).

Section fork_ok.
Context (A : gset Z) (s s2 s3 : phys) (a n : Z) (Hok : vm_ok K A s) (Ha : a ∈ A).
Let st := walk_user cow_mark 3 a 0 (ph_mem s, []).
Let s1 := Phys st.1 (ph_fa s).
Context (Hc : created K A s1 s2 n).

Lemma fork_ok1 : vm_ok K A s1.
Proof. by apply mark_ok. Qed.

Lemma fork_child_new : n ∉ A ∧ n ≠ K.
Proof.
    destruct (cr_taken _ _ _ _ _ Hc) as [Hf _].
    assert (∀ b, space K A b → n ≠ b) as Hne.
    { intros b Hb ->. by apply (vo_used _ _ _ fork_ok1 b [] b Hb tpath_nil). }
    split; [intros Hin; by apply (Hne n); [left|]|by apply Hne; right].
Qed.

(** User pages of the old spaces after the first two steps. *)
Lemma fork_user2 b q j e' :
    space K A b → tpath q → idx_ok j →
    user_leaf (ph_mem s2) b q j e' ↔
      ∃ e, user_leaf (ph_mem s) b q j e ∧ e' = if decide (b = a) then marked e else e.
Proof.
    intros Hb Hq Hj. rewrite (quiet_user K A s1 s2) by (apply Hc || done).
    by apply (mark_user_leaf K A s a Hok Ha).
Qed.

Lemma fork_contents2 b q j e :
    space K A b → tpath q → idx_ok j → user_leaf (ph_mem s) b q j e →
    page_at (ph_mem s2) (pte_addr e) = page_at (ph_mem s) (pte_addr e).
Proof.
    intros Hb Hq Hj Hu. rewrite (cr_pages _ _ _ _ _ Hc).
    - apply (mark_page K A s a Hok Ha). intros c r Hcs Hr. by apply (vo_data _ _ _ Hok b q j e).
    - intros [Hf _]. by apply (vo_live _ _ _ Hok b q j e).
Qed.

Lemma fork_sharable va raw :
    (va, raw) ∈ st.2 → ∃ p i, sharable K (A ∪ {[n]}) n s2 va raw p i.
Proof.
    intros Hin. apply (mark_list K A s a Hok Ha) in Hin as (p&i&e&Hp&Hi&Hu&->&->).
    assert (space K A a) as Has by (by left). pose proof Hu as (Hl&_&_).
    assert (user_leaf (ph_mem s2) a p i (marked e)) as Hu2.
    { apply fork_user2; [done..|]. exists e. by rewrite decide_True. }
    assert (space K (A ∪ {[n]}) a) as Has2 by (left; set_solver).
    pose proof (cr_ok _ _ _ _ _ Hc) as Hok2.
    assert (pte_addr (cow_entry e) = pte_addr (marked e)) as Haddr.
    { destruct (marked_same e) as (->&_&_). apply cow_entry_addr. }
    destruct (vo_user _ _ _ Hok2 a p i _ Has2 Hp Hi Hu2) as (_&Hown&Hkf).
    destruct (marked_same e) as (_&_&Hmw).
    exists p, i. split; rewrite ?Haddr.
    - done.
    - done.
    - done.
    - apply cow_entry_writable.
    - intros b q Hb Hq. by apply (vo_data _ _ _ Hok2 a p i (marked e)).
    - by apply (vo_live _ _ _ Hok2 a p i (marked e)).
    - intros b q j e' Hb Hq Hj Hu' Heq. apply not_true_iff_false. intros Hw.
      destruct (vo_cow _ _ _ Hok2 b q j e' a p i (marked e)) as (->&->&->); try done.
      destruct Hu2 as (_&H2&_), Hu' as (_&H2'&_). assert (e' = marked e) as -> by congruence. congruence.
    - intros e'. rewrite (cr_kernel _ _ _ _ _ Hc) by done.
      assert (kfree K (ph_mem s1) p i) as Hkf1 by (by apply (quiet_kfree K A s1 s2 (cr_quiet _ _ _ _ _ Hc))).
      apply Hkf1.
    - intros Hb. apply (cr_blocked _ _ _ _ _ Hc) in Hb; [|done..].
      assert (kfree K (ph_mem s1) p i) as Hkf1 by (by apply (quiet_kfree K A s1 s2 (cr_quiet _ _ _ _ _ Hc))).
      by apply Hkf1.
Qed.

Context (Hrun : sfor st.2 (cow_share n) s2 = (Ok tt, s3)).

Lemma fork_sharing : sharing K (A ∪ {[n]}) n s2 s3 st.2.
Proof.
    assert (n ∈ A ∪ {[n]}) as Hin by (clear; set_solver).
    refine (share_loop K (A ∪ {[n]}) n Hin s2 s2 s3 [] st.2 _ _ fork_sharable _ Hrun).
    - apply sharing_start. apply Hc.
    - exact (mark_list_NoDup K A s a Hok Ha).
    - apply Hc.
Qed.

Lemma fork_user3 b q j e' :
    b ∈ A → tpath q → idx_ok j →
    user_leaf (ph_mem s3) b q j e' ↔
      ∃ e, user_leaf (ph_mem s) b q j e ∧ e' = if decide (b = a) then marked e else e.
Proof.
    intros Hb Hq Hj. rewrite <-fork_user2 by first [by left|done].
    destruct fork_child_new as [HnA _].
    refine (sh_others _ _ _ _ _ _ fork_sharing b q j e' _ Hq Hj _).
    - left. clear -Hb. set_solver.
    - intros ->. exact (HnA Hb).
Qed.

Lemma fork_contents3 b q j e :
    b ∈ A → tpath q → idx_ok j → user_leaf (ph_mem s) b q j e →
    page_at (ph_mem s3) (pte_addr e) = page_at (ph_mem s) (pte_addr e).
Proof.
    intros Hb Hq Hj Hu. assert (space K A b) as Hbs by (by left).
    rewrite <-(fork_contents2 b q j e) by done.
    pose (e2 := if decide (b = a) then marked e else e).
    assert (pte_addr e2 = pte_addr e) as Haddr.
    { unfold e2. destruct (decide (b = a)); [apply marked_same|done]. }
    assert (user_leaf (ph_mem s2) b q j e2) as Hu2 by (apply fork_user2; eauto).
    pose proof (cr_ok _ _ _ _ _ Hc) as Hok2. assert (space K (A ∪ {[n]}) b) by (left; clear -Hb; set_solver).
    rewrite <-Haddr. apply (sh_data _ _ _ _ _ _ fork_sharing).
    - intros c r Hcs Hr. by apply (vo_data _ _ _ Hok2 b q j e2).
    - intros [Hf _]. by apply (vo_live _ _ _ Hok2 b q j e2).
Qed.

Lemma fork_child_leaf q j e' :
    pos q j → user_leaf (ph_mem s3) n q j e' →
    ∃ e, user_leaf (ph_mem s) a q j e ∧ e' = raw_entry (cow_entry e).
Proof.
    intros (Hq&Hl&Hj) (_&Hlf&Hu).
    destruct (sh_child _ _ _ _ _ _ fork_sharing q j e' Hq Hl Hj (user_nonzero _ Hu) Hlf)
      as [H2|(raw&Hin&->)].
    { by destruct (cr_empty _ _ _ _ _ Hc q j e' Hq Hj). }
    apply (mark_list K A s a Hok Ha) in Hin as (p&i&e&Hp&Hi&Hue&Hva&->).
    exists e. pose proof Hue as (Hlp&_&_).
    destruct (page_of_inj q j p i (va_of q j)) as [-> ->]; [by split_and!|by split_and!|done].
Qed.

Lemma fork_child_all q j e :
    ¬ exhausted s3 → pos q j → user_leaf (ph_mem s) a q j e →
    user_leaf (ph_mem s3) n q j (raw_entry (cow_entry e)).
Proof.
    intros Hex (Hq&Hl&Hj) Hu. split; [done|].
    destruct (raw_entry_props (cow_entry e)) as (_&Huser&_). rewrite cow_entry_user in Huser.
    assert (user e = true) as Hue by apply Hu.
    split; [|congruence].
    destruct (sh_all _ _ _ _ _ _ fork_sharing) as [|Hall]; [done|].
    apply (Hall q j (va_of q j)); [by split_and!| |by rewrite cow_entry_user].
    apply (mark_list K A s a Hok Ha). by exists q, j, e.
Qed.

Lemma fork_child_view q j :
    ¬ exhausted s3 → pos q j →
    user_page (ph_mem s3) n q j = user_page (ph_mem s) a q j.
Proof.
    intros Hex Hqj. pose proof Hqj as (Hq&Hl&Hj). apply user_page_eq; [done| |].
    - intros e Hu. eexists. split; [by apply fork_child_all|].
      destruct (raw_entry_props (cow_entry e)) as (->&_). rewrite cow_entry_addr.
      by apply (fork_contents3 a q j).
    - intros e' (e&He&_)%fork_child_leaf; eauto.
Qed.

Lemma fork_old_view b q j :
    b ∈ A → pos q j → user_page (ph_mem s3) b q j = user_page (ph_mem s) b q j.
Proof.
    intros Hb Hqj. pose proof Hqj as (Hq&Hl&Hj). apply user_page_eq; [done| |].
    - intros e Hu. eexists. split; [apply fork_user3; eauto|].
      assert (pte_addr (if decide (b = a) then marked e else e) = pte_addr e) as ->.
      { destruct (decide (b = a)); [apply marked_same|done]. }
      by apply (fork_contents3 b q j).
    - intros e' (e&He&_)%fork_user3; eauto.
Qed.
End fork_ok.

(** A copy-on-write fork behaves as a copy.  The new address space is new,
    every old one keeps its contents, the child reads at every address what
    the parent reads there (unless frames ran out, when pages may be missing),
    neither parent nor child can write a page without a fault, the child's
    page table is registered, and the separation invariant holds again. *)
Theorem cow_fork_copies A mm mm' parent child :
  vm_ok K A (mm_phys mm) → parent ∈ A →
  cow_fork_address_space (Some K) parent mm = (Ok child, mm') →
  let m := ph_mem (mm_phys mm) in let m' := ph_mem (mm_phys mm') in
  vm_ok K (A ∪ {[child]}) (mm_phys mm') ∧ child ∉ A ∧
  user_page_tables mm' = user_page_tables mm ++ [child] ∧
  (∀ b p i, b ∈ A → pos p i → user_page m' b p i = user_page m b p i) ∧
  (∀ p i, pos p i → user_page m' child p i ≠ None → user_page m parent p i ≠ None) ∧
  (¬ exhausted (mm_phys mm') → ∀ p i, pos p i →
     user_page m' child p i = user_page m parent p i) ∧
  (∀ p i, pos p i → can_write m' child p i = false ∧ can_write m' parent p i = false) ∧
  (∀ b p i, b ∈ A → b ≠ parent → pos p i → can_write m' b p i = can_write m b p i).
Proof.
  intros Hok Ha Hrun m m'. unfold cow_fork_address_space in Hrun.
  apply sbind_Ok_inv in Hrun as (leaves&mm1&H1&Hrun). apply on_phys_Ok in H1 as [H1 Ht1].
  apply pair_Ok_inv in H1 as [-> Hm1].
  apply sbind_Ok_inv in Hrun as (n'&mm2&H2&Hrun). apply on_phys_Ok in H2 as [Hcr Ht2].
  apply sbind_Ok_inv in Hrun as ([]&mm3&H3&Hrun). apply on_phys_Ok in H3 as [Hloop Ht3].
  injection Hrun as <- <-. cbn [mm_phys user_page_tables].
  rewrite Ht3, Ht2, Ht1, Hm1 in *. clear Ht1 Ht2 Ht3 Hm1.
  set (s := mm_phys mm) in *. set (s2 := mm_phys mm2) in *. set (s3 := mm_phys mm3) in *.
  apply (create_user_mapper_spec K A _ _ _ (mark_ok K A s parent Hok Ha)) in Hcr as Hc.
  clear Hcr.
  pose proof (fork_sharing A s s2 s3 parent n' Hok Ha Hc Hloop) as Hsh.
  destruct (fork_child_new A s s2 parent n' Hok Ha Hc) as [HnA _].
  split_and!.
  - apply Hsh.
  - done.
  - done.
  - intros b p i Hb Hp. by apply (fork_old_view A s s2 s3 parent n' Hok Ha Hc Hloop).
  - intros p i (Hp&Hl&Hi) Hne. destruct (user_page (ph_mem s3) n' p i) as [pg|] eqn:Hpg; [|done].
    apply user_page_leaf in Hpg as (e'&He'&_); [|done].
    apply (fork_child_leaf A s s2 s3 parent n' Hok Ha Hc Hloop) in He' as (e&He&_); [|done].
    intros Hnone. assert (user_page m parent p i = Some (page_at m (pte_addr e))) as Hs
      by (apply user_page_leaf; eauto). congruence.
  - intros Hex p i Hp. by apply (fork_child_view A s s2 s3 parent n' Hok Ha Hc Hloop).
  - intros p i Hpos. pose proof Hpos as (Hp&Hl&Hi).
    split; apply not_true_iff_false; rewrite can_write_leaf by done; intros (e'&He'&Hw).
    + apply (fork_child_leaf A s s2 s3 parent n' Hok Ha Hc Hloop) in He' as (e&He&->); [|done].
      destruct (raw_entry_props (cow_entry e)) as (_&_&Hrw&_). rewrite cow_entry_writable in Hrw. congruence.
    + apply (fork_user3 A s s2 s3 parent n' Hok Ha Hc Hloop) in He' as (e&He&->); [|done..]. rewrite decide_True in Hw by done.
      destruct (marked_same e) as (_&_&?). congruence.
  - intros b p i Hb Hbp (Hp&Hl&Hi). apply eq_true_iff_eq. rewrite !can_write_leaf by done.
    pose proof (λ e', fork_user3 A s s2 s3 parent n' Hok Ha Hc Hloop b p i e' Hb Hp Hi) as Hu3.
    split; intros (e'&He'&Hw).
    + apply Hu3 in He' as (e&He&->). rewrite decide_False in Hw by done. eauto.
    + exists e'. split; [apply Hu3; exists e'; by rewrite decide_False|done].
Qed.
End fork.
