(* ===== verification/MemorySteps.v ===== *)
(** * Runs of the memory manager, and the specification they refine

    Faults, new mappings and the stores of processes, and the abstract machine
    in which every process simply has its own pages and fork copies them. *)

From S2P Require Import Prelude Frames Paging Memory MemorySpec MemoryCopy MemoryFork MemoryProps.

#[local] Opaque walk_user.

(** The page at an address. *)
Definition va_pos (va : Z) (p : list Z) (i : Z) : Prop := va_path va = p ∧ va_index 0 va = i.

Lemma va_index_ok k va : 0 ≤ k → idx_ok (va_index k va).
Proof.
  intros. unfold va_index, idx_ok. change 0x1FF with (Z.ones 9). rewrite Z.land_ones by lia.
  apply Z.mod_pos_bound. lia.
Qed.

Lemma va_pos_pos va : pos (va_path va) (va_index 0 va).
Proof.
  split_and!; [split; [simpl; lia|]|done|by apply va_index_ok].
  unfold va_path. repeat constructor; apply va_index_ok; lia.
Qed.

Section steps.
Context (K : Z).
Implicit Types (A : gset Z) (s : phys).

(** Contents and permissions are unchanged in every old space. *)
Definition same_views A s s' : Prop := ∀ b q j, b ∈ A → pos q j →
  user_page (ph_mem s') b q j = user_page (ph_mem s) b q j ∧
  can_write (ph_mem s') b q j = can_write (ph_mem s) b q j.

Lemma quiet_views A s s' f :
  vm_ok K A s → extends s s' → not_table K A (ph_mem s) f →
  (∀ b q j e, b ∈ A → pos q j → user_leaf (ph_mem s) b q j e → pte_addr e ≠ f) →
  (∀ g, g ≠ f → page_at (ph_mem s') g = page_at (ph_mem s) g) →
  quiet K A s s' ∧ same_views A s s'.
Proof.
  intros Hok Hx Hnt Hnl Hm.
  assert (quiet K A s s') as Hq.
  { split; [done|]. intros b q c Hb Hp Hc. apply Hm. intros ->. by eapply Hnt. }
  split; [done|]. intros b q j Hb (Hp&Hl&Hj). assert (space K A b) as Hbs by (by left).
  unfold can_write, user_page. rewrite (quiet_leaf K A s s' Hq) by done. split; [|done].
  destruct (leaf (ph_mem s) b q j) as [e|] eqn:He; [|done]. destruct (user e) eqn:Hu; [|done].
  f_equal. apply Hm. by apply (Hnl b q j e).
Qed.

(** A page that is mapped in one place only may be written there. *)
Lemma private_write A s s' a p i e :
  vm_ok K A s → a ∈ A → pos p i → user_leaf (ph_mem s) a p i e →
  (∀ b q j e', b ∈ A → pos q j → user_leaf (ph_mem s) b q j e' → pte_addr e' = pte_addr e →
     (b, q, j) = (a, p, i)) →
  ph_fa s' = ph_fa s → (∀ g, g ≠ pte_addr e → page_at (ph_mem s') g = page_at (ph_mem s) g) →
  quiet K A s s' ∧ vm_ok K A s' ∧
  user_page (ph_mem s) a p i = Some (page_at (ph_mem s) (pte_addr e)) ∧
  user_page (ph_mem s') a p i = Some (page_at (ph_mem s') (pte_addr e)) ∧
  (∀ b q j, b ∈ A → pos q j → can_write (ph_mem s') b q j = can_write (ph_mem s) b q j) ∧
  (∀ b q j, b ∈ A → pos q j → (b, q, j) ≠ (a, p, i) →
     user_page (ph_mem s') b q j = user_page (ph_mem s) b q j).
Proof.
  intros Hok Ha (Hp&Hl&Hi) Hul Hpriv Hfa Hm. assert (space K A a) as Has by (by left).
  assert (quiet K A s s') as Hq.
  { split; [by split; rewrite Hfa|]. intros b q c Hb Hq Hc. apply Hm. intros ->.
    by apply (vo_data _ _ _ Hok a p i e b q). }
  split_and!; [done|by apply (quiet_ok K A s)|apply user_page_leaf; eauto| | |].
  - apply user_page_leaf; [done|]. exists e. split; [by apply (quiet_user K A s s')|done].
  - intros b q j Hb (Hpq&Hlq&Hj). unfold can_write. rewrite (quiet_leaf K A s s' Hq); [done|by left|done].
  - intros b q j Hb Hpos Hne. pose proof Hpos as (Hpq&Hlq&Hj). assert (space K A b) as Hbs by (by left).
    unfold user_page. rewrite (quiet_leaf K A s s' Hq) by done.
    destruct (leaf (ph_mem s) b q j) as [e'|] eqn:He'; [|done]. destruct (user e') eqn:Hu'; [|done].
    f_equal. apply Hm. intros Heq. apply Hne. by apply (Hpriv b q j e').
Qed.

Lemma quiet_views_refl A s s' : vm_ok K A s → extends s s' → ph_mem s' = ph_mem s →
  vm_ok K A s' ∧ same_views A s s'.
Proof.
  intros Hok Hx Hm. split.
  - apply (quiet_ok K A s); [|done]. split; [done|]. by rewrite Hm.
  - intros b q j _ _. by rewrite Hm.
Qed.

(** A frame nobody uses yet is no user page. *)
Lemma future_no_leaf A s f b q j e :
  vm_ok K A s → future s f → b ∈ A → pos q j → user_leaf (ph_mem s) b q j e → pte_addr e ≠ f.
Proof.
  intros Hok Hf Hb (Hp&_&Hj) Hu <-. by apply (vo_live _ _ _ Hok b q j e); [left|..].
Qed.

Lemma remaps_views A s s' a p i :
  vm_ok K A s → remaps K A s s' a p i → ∀ b q j, b ∈ A → pos q j → (b, q, j) ≠ (a, p, i) →
  user_page (ph_mem s') b q j = user_page (ph_mem s) b q j ∧
  can_write (ph_mem s') b q j = can_write (ph_mem s) b q j.
Proof.
  intros Hok Hr b q j Hb (Hp&Hl&Hj) Hne. assert (space K A b) as Hbs by (by left).
  pose proof (λ e, rm_user K A s s' a p i b q j e Hr Hbs Hp Hj Hne) as Hul. split.
  - apply user_page_eq; [done| |].
    + intros e He. exists e. split; [by apply Hul|]. apply (rm_data _ _ _ _ _ _ _ Hr).
      * intros c r Hc Hrt. by apply (vo_data _ _ _ Hok b q j e).
      * intros [Hf _]. by apply (vo_live _ _ _ Hok b q j e).
    + intros e He. exists e. by apply Hul.
  - apply eq_true_iff_eq. rewrite !can_write_leaf by done. by setoid_rewrite Hul.
Qed.

(** ** Faults *)

Lemma cow_new_entry fl new :
  frame_ok new → flags_ok fl →
  let e := pte new (fl_remove (fl_insert fl WRITABLE) COW_FLAG) in
  pte_addr e = new ∧ writable e = true ∧ cow e = false ∧
  (contains fl USER_ACCESSIBLE = true → user e = true).
Proof.
  intros Hn Hfl e.
  assert (flags_ok (fl_remove (fl_insert fl WRITABLE) COW_FLAG)) as Hf
    by eauto using flags_ok_insert, flags_ok_remove, WRITABLE_ok.
  rewrite writable_testbit, cow_testbit, user_testbit. unfold e.
  rewrite pte_addr_pte, pte_flags_pte by done. unfold fl_remove, fl_insert.
  rewrite !Z.ldiff_spec, !Z.lor_spec.
  change (Z.testbit WRITABLE 1) with true. change (Z.testbit COW_FLAG 1) with false.
  change (Z.testbit COW_FLAG 9) with true. change (Z.testbit COW_FLAG 2) with false.
  split_and!; [done|by rewrite orb_true_r|by rewrite andb_false_r|].
  rewrite (contains_testbit _ 2) by lia. by intros ->.
Qed.

(** A fault that is not resolved leaves everything as it is. *)
Lemma resolve_cow_None A s a va s' :
  vm_ok K A s → resolve_cow a va s = (None, s') →
  vm_ok K A s' ∧ extends s s' ∧ same_views A s s'.
Proof.
  intros Hok Hrun. assert (extends s s' ∧ ph_mem s' = ph_mem s) as [Hx Hm].
  { unfold resolve_cow in Hrun.
    destruct (a ≫= _) as [l1|]; [|by injection Hrun as <-].
    destruct (_ || _); [by injection Hrun as <-|].
    destruct (contains _ HUGE_PAGE); [by injection Hrun as <-|].
    destruct (alloc_frame s) as [[f|] s1] eqn:Hal; [done|]. injection Hrun as <-.
    by apply alloc_frame_None. }
  destruct (quiet_views_refl A s s' Hok Hx Hm). done.
Qed.

(** A resolved fault gives the page a private frame with the same contents. *)
Lemma resolve_cow_Some A s a va s' :
  vm_ok K A s → a ∈ A → resolve_cow (Some a) va s = (Some tt, s') →
  vm_ok K A s' ∧ extends s s' ∧
  (∀ b q j, b ∈ A → pos q j → user_page (ph_mem s') b q j = user_page (ph_mem s) b q j) ∧
  (∀ b q j, b ∈ A → pos q j → (b, q, j) ≠ (a, va_path va, va_index 0 va) →
     can_write (ph_mem s') b q j = can_write (ph_mem s) b q j) ∧
  can_write (ph_mem s') a (va_path va) (va_index 0 va) = true.
Proof.
  intros Hok Ha Hrun. unfold resolve_cow in Hrun.
  change (Some a ≫= _) with (node (ph_mem s) a (va_path va)) in Hrun.
  set (p := va_path va) in *. set (i := va_index 0 va) in *.
  pose proof (va_pos_pos va) as (Hp&Hl&Hi). fold p i in Hp, Hl, Hi.
  assert (space K A a) as Has by (by left).
  destruct (node (ph_mem s) a p) as [l1|] eqn:Hl1; [|done].
  set (e := entry (ph_mem s) l1 i) in *.
  destruct (_ || _) eqn:Hg; [done|]. apply orb_false_iff in Hg as [Hg Hcow].
  apply orb_false_iff in Hg as [Hg Hw]. apply orb_false_iff in Hg as [Hpr Hus].
  apply negb_false_iff in Hcow, Hus, Hpr.
  destruct (contains _ HUGE_PAGE); [done|].
  destruct (alloc_frame s) as [[new|] s1] eqn:Hal; [|done]. injection Hrun as <-.
  apply alloc_frame_Some in Hal as (Hx1&Hm1&[Hfut Hnf]&_); [|apply Hok].
  assert (user e = true) as Hu.
  { rewrite user_testbit, <-(contains_testbit _ 2) by lia. done. }
  assert (user_leaf (ph_mem s) a p i e) as Hul by (split_and!; [done|apply leaf_node; eauto|done]).
  destruct (vo_user _ _ _ Hok a p i e Has Hp Hi Hul) as (_&Hown&Hkf).
  set (m2 := copy_page (ph_mem s1) (pte_addr e) new). set (s2 := Phys m2 (ph_fa s1)).
  assert (not_table K A (ph_mem s) new) as Hnt by (by apply future_not_table).
  destruct (quiet_views A s s2 new) as [Hq2 Hv2]; try done.
  { intros b q j e' Hb Hpos Hu'. by eapply future_no_leaf. }
  { intros g Hg. simpl. unfold m2, copy_page. by rewrite page_at_insert, decide_False, Hm1. }
  pose proof (quiet_ok K A s s2 Hq2 Hok) as Hok2.
  assert (node m2 a p = Some l1) as Hl1' by (rewrite <-Hl1; by apply (quiet_node K A s s2)).
  assert (own_path K m2 p) as Hown2 by (by apply (quiet_own K A s s2)).
  assert (kfree K m2 p i) as Hkf2 by (by apply (quiet_kfree K A s s2)).
  destruct (future_frame_ok s new) as [Hfo _]; [apply Hok|done|].
  set (e2 := pte new (fl_remove (fl_insert (pte_flags e) WRITABLE) COW_FLAG)).
  destruct (cow_new_entry (pte_flags e) new Hfo (pte_flags_ok e)) as (Ha2&Hw2&_&Hu2).
  fold e2 in Ha2, Hw2, Hu2. specialize (Hu2 Hus).
  destruct (set_leaf_remaps K A s2 a p i l1 e2 Hok2 Ha Hown2 Hi Hl1') as [Hr Hlf].
  set (s3 := Phys (set_entry m2 l1 i e2) (ph_fa s1)).
  change (remaps K A s2 s3 a p i) in Hr.
  assert (user_leaf (ph_mem s3) a p i e2) as Hul3 by done.
  assert (∀ b q j e', space K A b → tpath q → idx_ok j → user_leaf m2 b q j e' → pte_addr e' ≠ new) as Hfree.
  { intros b q j e' Hb Hq Hj Hu' <-. apply (vo_live _ _ _ Hok b q j e'); try done.
    by apply (quiet_user K A s s2). }
  split_and!.
  - apply (remaps_ok K A s2 s3 a p i); try done. intros e' (_&Hle'&_).
    assert (e' = e2) as -> by (destruct Hul3 as (_&Hle3&_); congruence). split_and!; rewrite ?Ha2.
    + by apply (quiet_not_table K A s s2).
    + done.
    + intros b q j e' Hb Hq Hj Hu' _ Heq. by destruct (Hfree b q j e').
  - trans s2; [apply Hq2|apply Hr].
  - intros b q j Hb Hpos. destruct (Hv2 b q j Hb Hpos) as [Hv _]. simpl in Hv.
    destruct (decide ((b, q, j) = (a, p, i))) as [[= -> -> ->]|Hne].
    + assert (user_page (ph_mem s3) a p i = Some (page_at m2 new)) as Hup.
      { apply user_page_leaf; [done|]. exists e2. split; [done|]. rewrite Ha2. symmetry.
        apply (rm_data _ _ _ _ _ _ _ Hr new); [|intros [? _]; done].
        by apply (quiet_not_table K A s s2). }
      trans (Some (page_at m2 new)); [exact Hup|].
      symmetry. apply user_page_leaf; [done|]. exists e. split; [done|].
      unfold m2, copy_page. rewrite page_at_insert, decide_True by done. by rewrite Hm1.
    + rewrite <-Hv. by apply (remaps_views A s2 s3 a p i).
  - intros b q j Hb Hpos Hne. destruct (Hv2 b q j Hb Hpos) as [_ Hv]. simpl in Hv.
    rewrite <-Hv. by apply (remaps_views A s2 s3 a p i).
  - apply can_write_leaf; [done|]. by exists e2.
Qed.

(** ** Stores *)

(** Every level of the walk and the page admit the access. *)
Definition walk_allows (m : pmem) (a : Z) (p : list Z) : bool :=
  forallb (λ n, match node m a (take n p), p !! n with
                | Some t, Some j => contains (pte_flags (entry m t j)) (Z.lor USER_ACCESSIBLE WRITABLE)
                | _, _ => false
                end) (seq 0 3).
(** A store of the process in space [a]: the CPU's walk, then the word. *)
Definition cpu_store (a : Z) (p : list Z) (i w v : Z) (m : pmem) : option pmem :=
  match leaf m a p i with
  | Some e =>
      if walk_allows m a p && contains (pte_flags e) PRESENT && user e && writable e
      then Some (set_entry m (pte_addr e) w v) else None
  | None => None
  end.

Lemma cpu_store_spec A s a p i w v m' :
  vm_ok K A s → a ∈ A → pos p i → cpu_store a p i w v (ph_mem s) = Some m' →
  let s' := Phys m' (ph_fa s) in
  vm_ok K A s' ∧
  (∃ pg, user_page (ph_mem s) a p i = Some pg ∧ user_page m' a p i = Some (<[w := v]> pg)) ∧
  (∀ b q j, b ∈ A → pos q j → (b, q, j) ≠ (a, p, i) →
     user_page m' b q j = user_page (ph_mem s) b q j).
Proof.
  intros Hok Ha (Hp&Hl&Hi) Hst s'. unfold cpu_store in Hst.
  destruct (leaf (ph_mem s) a p i) as [e|] eqn:He; [|done].
  destruct (_ && _ && _ && _) eqn:Hc; [|done]. injection Hst as <-.
  apply andb_true_iff in Hc as [Hc Hw]. apply andb_true_iff in Hc as [_ Hu].
  assert (space K A a) as Has by (by left).
  assert (user_leaf (ph_mem s) a p i e) as Hul by done.
  destruct (private_write A s s' a p i e) as (_&Hok'&Hpg&Hpg'&_&Hoth); [done|done|done|done| |done| |].
  - intros b q j e' Hb (Hq&_&Hj) Hul' Heq.
    destruct (vo_cow _ _ _ Hok a p i e b q j e') as (->&->&->); try done. by left.
  - intros g Hg. by apply page_at_set_entry.
  - split_and!; [done| |done]. exists (page_at (ph_mem s) (pte_addr e)). split; [done|].
    trans (Some (page_at (ph_mem s') (pte_addr e))); [exact Hpg'|]. f_equal. unfold s', set_entry. cbn [ph_mem]. by rewrite page_at_insert, decide_True.
Qed.

(** ** New pages *)

Section map.
Context `{Paging} `{!PagingLaws}.

(** One page: a frame with contents [pg], mapped where the kernel maps nothing. *)
Record fresh_page A s s' (a : Z) (p : list Z) (i f fl : Z) (pg : page) (ok : bool) : Prop := {
  fp_ok : vm_ok K A s';
  fp_extends : extends s s';
  fp_own q : own_path K (ph_mem s') q ↔ own_path K (ph_mem s) q;
  fp_kfree q j : tpath q → kfree K (ph_mem s') q j ↔ kfree K (ph_mem s) q j;
  fp_others b q j : b ∈ A → pos q j → (b, q, j) ≠ (a, p, i) →
    user_page (ph_mem s') b q j = user_page (ph_mem s) b q j ∧
    can_write (ph_mem s') b q j = can_write (ph_mem s) b q j;
  fp_page : if ok
    then user_page (ph_mem s) a p i = None ∧ user_page (ph_mem s') a p i = Some pg ∧
         can_write (ph_mem s') a p i = contains fl WRITABLE
    else user_page (ph_mem s') a p i = user_page (ph_mem s) a p i ∧
         can_write (ph_mem s') a p i = can_write (ph_mem s) a p i;
  fp_private : ok = true →
    (∃ e, user_leaf (ph_mem s') a p i e ∧ pte_addr e = f) ∧
    ∀ b q j e, b ∈ A → pos q j → user_leaf (ph_mem s') b q j e → pte_addr e = f →
      (b, q, j) = (a, p, i);
}.

Lemma map_fresh_page A s s1 s2 s' a va f fl r :
  vm_ok K A s → a ∈ A → own_path K (ph_mem s) (va_path va) →
  kfree K (ph_mem s) (va_path va) (va_index 0 va) →
  flags_ok fl → contains fl USER_ACCESSIBLE = true →
  alloc_frame s = (Some f, s1) →
  ph_fa s2 = ph_fa s1 → (∀ g, g ≠ f → page_at (ph_mem s2) g = page_at (ph_mem s1) g) →
  map_to a va f fl s2 = (r, s') →
  fresh_page A s s' a (va_path va) (va_index 0 va) f fl (page_at (ph_mem s2) f) (bool_decide (r = Ok tt)) ∧
  r ≠ Panic ∧ r ≠ Diverge.
Proof.
  intros Hok Ha Hown Hkf Hfl Hus Hal Hfa2 Hm2 Hmap.
  set (p := va_path va) in *. set (i := va_index 0 va) in *.
  assert (pos p i) as Hpos by apply va_pos_pos. pose proof Hpos as (Hp&Hl&Hi).
  apply alloc_frame_Some in Hal as (Hx1&Hm1&[Hfut Hnf]&_); [|apply Hok].
  assert (not_table K A (ph_mem s) f) as Hnt by (by apply future_not_table).
  assert (¬ future s2 f) as Hnf2 by (unfold future in *; by rewrite Hfa2).
  assert (extends s s2) as Hx2 by (trans s1; [done|by split; rewrite Hfa2]).
  destruct (quiet_views A s s2 f) as [Hq2 Hv2]; try done.
  { intros b q j e' Hb Hps Hu'. by eapply future_no_leaf. }
  { intros g Hg. by rewrite Hm2, Hm1. }
  pose proof (quiet_ok K A s s2 Hq2 Hok) as Hok2.
  assert (own_path K (ph_mem s2) p) as Hown2 by (by apply (quiet_own K A s s2)).
  assert (kfree K (ph_mem s2) p i) as Hkf2 by (by apply (quiet_kfree K A s s2)).
  destruct (future_frame_ok s f) as [Hfo _]; [apply Hok|done|].
  assert (not_table K A (ph_mem s2) f) as Hnt2 by (by apply (quiet_not_table K A s s2)).
  apply map_to_spec in Hmap as Hm; [|apply Hok2|by eapply own_path_ok|done|done].
  fold p i in Hm.
  pose proof (map_to_remaps K A s2 s' a p i f fl r Hok2 Ha Hown2 Hm) as Hr.
  assert (∀ b q j e', space K A b → tpath q → idx_ok j → user_leaf (ph_mem s2) b q j e' →
    pte_addr e' ≠ f) as Hfree.
  { intros b q j e' Hb Hq Hj Hu' Heq. apply (vo_live _ _ _ Hok b q j e'); try done.
    - by apply (quiet_user K A s s2).
    - by rewrite Heq. }
  assert (space K A a) as Has by (by left).
  assert (vm_ok K A s') as Hok'.
  { apply (remaps_ok K A s2 s' a p i); try done. intros e Hu.
    destruct (decide (r = Ok tt)) as [Hrok|Hne].
    - destruct (mp_ok _ _ _ _ _ _ _ _ Hm Hrok) as [Hlf _]. destruct Hu as (_&Hlf'&_).
      assert (e = pte f fl) as -> by congruence. split_and!; rewrite ?pte_addr_pte by done; [done..|].
      intros b q j e' Hb Hq Hj Hu' _ Heq. by destruct (Hfree b q j e').
    - destruct Hu as (_&Hlf&Hu).
      pose proof (proj1 (mp_err _ _ _ _ _ _ _ _ Hm Hne e (user_nonzero e Hu)) Hlf) as Hlf'.
      assert (user_leaf (ph_mem s2) a p i e) as Hu2 by done. split_and!.
      + intros b q Hb Hq. by apply (vo_data _ _ _ Hok2 a p i e).
      + by apply (vo_live _ _ _ Hok2 a p i e).
      + intros b q j e' Hb Hq Hj Hu' Hne' Heq. split; apply not_true_iff_false; intros Hw.
        * destruct (vo_cow _ _ _ Hok2 b q j e' a p i e) as (->&->&->); try done.
        * destruct (vo_cow _ _ _ Hok2 a p i e b q j e') as (->&->&->); try done. }
  assert (∀ b q j, b ∈ A → pos q j → (b, q, j) ≠ (a, p, i) →
    user_page (ph_mem s') b q j = user_page (ph_mem s) b q j ∧
    can_write (ph_mem s') b q j = can_write (ph_mem s) b q j) as Hoth.
  { intros b q j Hb Hps Hne. destruct (Hv2 b q j Hb Hps) as [<- <-].
    by apply (remaps_views A s2 s' a p i). }
  assert (r = Ok tt → user_leaf (ph_mem s') a p i (pte f fl)) as Hleaf.
  { intros Hrok. destruct (mp_ok _ _ _ _ _ _ _ _ Hm Hrok) as [Hlf _]. split_and!; [done..|].
    rewrite user_testbit, pte_flags_pte, <-(contains_testbit _ 2) by (done || lia). done. }
  split; [|apply Hm]. split; try done.
  - trans s2; [apply Hq2|apply Hr].
  - intros q. rewrite (own_path_same K A s2 s' a p i) by done. by apply (quiet_own K A s s2).
  - intros q j Hq. rewrite (kfree_same K A s2 s' a p i) by done. by apply (quiet_kfree K A s s2).
  - destruct (Hv2 a p i Ha Hpos) as [<- <-]. case_bool_decide as Hrok.
    + destruct (mp_ok _ _ _ _ _ _ _ _ Hm Hrok) as [Hlf Hun]. split_and!.
      * unfold user_page. destruct (leaf (ph_mem s2) a p i) as [e|]; [|done].
        by rewrite (Hun e eq_refl).
      * apply user_page_leaf; [done|]. exists (pte f fl). split; [by apply Hleaf|].
        rewrite pte_addr_pte by done. symmetry.
        apply (rm_data _ _ _ _ _ _ _ Hr f); [done|]. by intros [? _].
      * destruct (Hleaf Hrok) as (_&_&Hupte). unfold can_write. rewrite Hlf, Hupte.
        unfold writable. by rewrite pte_flags_pte.
    + assert (∀ e, user_leaf (ph_mem s') a p i e ↔ user_leaf (ph_mem s2) a p i e) as Hul.
      { intros e. unfold user_leaf. split; intros (?&Hle&Hu); split_and!; try done;
          by apply (mp_err _ _ _ _ _ _ _ _ Hm Hrok e (user_nonzero e Hu)). }
      split.
      * apply user_page_eq; [done| |intros e He; exists e; by apply Hul].
        intros e He. exists e. split; [by apply Hul|]. apply (rm_data _ _ _ _ _ _ _ Hr).
        -- intros b q Hb Hq. by apply (vo_data _ _ _ Hok2 a p i e).
        -- intros [Hf2 _]. by apply (vo_live _ _ _ Hok2 a p i e).
      * apply eq_true_iff_eq. rewrite !can_write_leaf by done. by setoid_rewrite Hul.
  - intros Hrok%bool_decide_eq_true. split.
    + exists (pte f fl). split; [by apply Hleaf|]. by apply pte_addr_pte.
    + intros b q j e Hb (Hq&Hlq&Hj) Hu Heq. destruct (decide ((b, q, j) = (a, p, i))) as [|Hne]; [done|].
      exfalso. apply (Hfree b q j e); [by left|done|done| |done].
      apply (rm_user K A s2 s' a p i); try done. by left.
Qed.

(** The pages of [map_user_region]. *)
Definition region_va (start t : Z) : Z := frame_containing start + t * 4096.
Definition region_page (start n : Z) (q : list Z) (j : Z) : Prop :=
  ∃ t, 0 ≤ t < n ∧ va_path (region_va start t) = q ∧ va_index 0 (region_va start t) = j.
(** They are addresses of processes. *)
Definition region_free (m : pmem) (start n : Z) : Prop :=
  ∀ t, 0 ≤ t < n → own_path K m (va_path (region_va start t)) ∧
    kfree K m (va_path (region_va start t)) (va_index 0 (region_va start t)).

(** After [k] pages. *)
Record mapping A s (a start k : Z) (w : bool) (n : Z) s1 : Prop := {
  mg_ok : vm_ok K A s1;
  mg_extends : extends s s1;
  mg_free : region_free (ph_mem s1) start n;
  mg_others b q j : b ∈ A → pos q j → b ≠ a ∨ ¬ region_page start k q j →
    user_page (ph_mem s1) b q j = user_page (ph_mem s) b q j ∧
    can_write (ph_mem s1) b q j = can_write (ph_mem s) b q j;
  mg_pages q j : pos q j → region_page start k q j →
    user_page (ph_mem s) a q j = None ∧ user_page (ph_mem s1) a q j = Some ∅ ∧
    can_write (ph_mem s1) a q j = w;
}.

Lemma region_page_S start k q j :
  0 ≤ k → region_page start (k + 1) q j ↔
    region_page start k q j ∨
    va_path (region_va start k) = q ∧ va_index 0 (region_va start k) = j.
Proof.
  intros Hk. split.
  - intros (t&Ht&Hq). destruct (decide (t = k)) as [->|]; [by right|left]. exists t. split; [lia|done].
  - intros [(t&Ht&Hq)|Hq]; [exists t|exists k]; (split; [lia|done]).
Qed.

Definition user_flags (w : bool) : Z :=
  Z.lor (Z.lor PRESENT USER_ACCESSIBLE) (if w then WRITABLE else 0).
Lemma user_flags_props w :
  flags_ok (user_flags w) ∧ contains (user_flags w) USER_ACCESSIBLE = true ∧
  contains (user_flags w) WRITABLE = w.
Proof. by destruct w. Qed.

Lemma region_va_eq start k : frame_containing start + k * 4096 = region_va start k.
Proof. done. Qed.

(** One page of the loop. *)
Lemma map_page_step A s a start k w n s1 f s2 r s3 :
  a ∈ A → 0 ≤ k < n →
  mapping A s a start k w n s1 →
  alloc_frame s1 = (Some f, s2) →
  map_to a (region_va start k) f (user_flags w) (Phys (zero_page (ph_mem s2) f) (ph_fa s2)) = (r, s3) →
  r ≠ Panic ∧ r ≠ Diverge ∧
  mapping A s a start (if decide (r = Ok tt) then k + 1 else k) w n s3.
Proof.
  intros Ha Hk [Hok Hx Hfree Hoth Hpg] Hal Hmap.
  destruct (user_flags_props w) as (Hfl&Hus&Hwr). destruct (Hfree k Hk) as [Hown Hkf].
  destruct (map_fresh_page A s1 s2 (Phys (zero_page (ph_mem s2) f) (ph_fa s2)) s3 a (region_va start k)
    f (user_flags w) r) as ([F1 F2 F3 F4 F5 F6 _]&Hnp&Hnd); [done..| |done|].
  { intros g Hg. simpl. unfold zero_page. by rewrite page_at_insert, decide_False. }
  cbn [ph_mem] in F6. unfold zero_page in F6. rewrite page_at_insert, decide_True in F6 by done.
  split_and!; [done..|].
  assert (region_free (ph_mem s3) start n) as Hfree3.
  { intros t Ht. destruct (Hfree t Ht) as [H1 H2]. rewrite F3, F4; [done|apply H1]. }
  set (p := va_path (region_va start k)) in *. set (i := va_index 0 (region_va start k)) in *.
  assert (pos p i) as Hpos by apply va_pos_pos.
  destruct (decide (r = Ok tt)) as [Hr|Hr]; rewrite ?bool_decide_true, ?bool_decide_false in F6 by done.
  - destruct F6 as (G1&G2&G3). split; try done; [by trans s1|..].
    + intros b q j Hb Hps Hn.
      assert ((b, q, j) ≠ (a, p, i)) as Hne.
      { intros [= -> -> ->]. destruct Hn as [|Hn]; [done|]. apply Hn, region_page_S; [lia|]. by right. }
      destruct (F5 b q j Hb Hps Hne) as [-> ->]. apply Hoth; [done..|].
      destruct Hn as [|Hn]; [by left|right]. intros Hin. apply Hn, region_page_S; [lia|by left].
    + intros q j Hps Hin. apply region_page_S in Hin; [|lia].
      destruct (decide ((q, j) = (p, i))) as [[= -> ->]|Hne].
      * assert (¬ region_page start k p i) as Hnin.
        { intros Hin'. destruct (Hpg p i Hps Hin') as (_&Hc&_). congruence. }
        destruct (Hoth a p i Ha Hps (or_intror Hnin)) as [<- _]. by rewrite G3.
      * assert (region_page start k q j) as Hin' by (destruct Hin as [|[<- <-]]; done).
        destruct (F5 a q j Ha Hps) as [-> ->]; [congruence|]. by apply Hpg.
  - destruct F6 as [G1 G2].
    assert (∀ b q j, b ∈ A → pos q j →
      user_page (ph_mem s3) b q j = user_page (ph_mem s1) b q j ∧
      can_write (ph_mem s3) b q j = can_write (ph_mem s1) b q j) as Hall.
    { intros b q j Hb Hps. destruct (decide ((b, q, j) = (a, p, i))) as [[= -> -> ->]|]; auto. }
    split; try done; [by trans s1|..].
    + intros b q j Hb Hps Hn. destruct (Hall b q j Hb Hps) as [-> ->]. auto.
    + intros q j Hps Hin. destruct (Hall a q j Ha Hps) as [-> ->]. auto.
Qed.

Lemma map_user_region_spec A s a start n w r s' :
  vm_ok K A s → a ∈ A → region_free (ph_mem s) start (Z.of_nat n) →
  map_user_region a start n w s = (r, s') →
  match r with
  | Ok _ => mapping A s a start (Z.of_nat n) w (Z.of_nat n) s'
  | Err _ => ∃ k, 0 ≤ k < Z.of_nat n ∧ mapping A s a start k w (Z.of_nat n) s'
  | _ => False
  end.
Proof.
  intros Hok Ha Hfree Hrun. unfold map_user_region in Hrun. fold (user_flags w) in Hrun.
  apply (sfor_seqZ_result (λ k s1, mapping A s a start k w (Z.of_nat n) s1)
    (λ k r1 s1, r1 = Err tt ∧ mapping A s a start k w (Z.of_nat n) s1)) in Hrun.
  - destruct r as [[]|[]| |]; [done|by destruct Hrun as (k&Hk&_&?); exists k|..];
      by destruct Hrun as (k&_&? &_).
  - split; try done. intros q j _ (t&?&_). lia.
  - intros k s1 r1 s2 Hk Hm Hstep. unfold sbind in Hstep.
    destruct (alloc_frame s1) as [[f|] sa] eqn:Hal.
    + change (on_mem _ sa) with (Ok (E:=unit) tt, Phys (zero_page (ph_mem sa) f) (ph_fa sa)) in Hstep.
      rewrite region_va_eq in Hstep. unfold catch in Hstep.
      destruct (map_to a (region_va start k) f (user_flags w) _) as [rm s3] eqn:Hmt.
      destruct (map_page_step A s a start k w (Z.of_nat n) s1 f sa rm s3) as (Hnp&Hnd&Hm3); [done|lia|done..|].
      destruct rm as [[]|e| |]; try done; injection Hstep as <- <-.
      * by rewrite decide_True in Hm3.
      * split; [done|]. by rewrite decide_False in Hm3.
    + injection Hstep as <- <-. split; [done|]. destruct Hm as [Hok1 Hx1 Hf1 Ho1 Hp1].
      apply alloc_frame_None in Hal as [Hx Hmm].
      destruct (quiet_views_refl A s1 sa Hok1 Hx Hmm) as [Hoka _].
      split; [done|by trans s1|..]; by rewrite Hmm.
Qed.
End map.
End steps.
