(* ===== verification/MemoryRefine.v ===== *)
(** * Address spaces refine isolated memories

    The concrete machine runs forks, faults, new mappings and stores on page
    tables; the abstract one keeps a function from addresses to pages per
    process and copies it on fork.  Every run of the first is a run of the
    second. *)

From S2P Require Import Prelude Frames Paging PagingRef Memory MemorySpec MemoryCopy MemoryFork MemoryProps MemorySteps.

#[local] Opaque walk_user.

(** ** The abstract machine *)

(** What the processes do, with the names of the spaces involved. *)
Inductive vm_event : Type :=
| VCreate (child : Z)
| VFork (parent child : Z)
| VMap (a start k : Z)
| VFault (a va : Z) (res : fault_result)
| VStore (a : Z) (p : list Z) (i w v : Z).

(** Contents of every space: the page behind a path and an index. *)
Definition views : Type := Z → list Z → Z → option page.

#[export] Instance region_page_dec start k q j : Decision (region_page start k q j).
Proof.
  refine (cast_if (decide (Exists (λ t, va_path (region_va start t) = q ∧
    va_index 0 (region_va start t) = j) (seqZ 0 k)))).
  - abstract (unfold region_page; apply Exists_exists in e as (t&Ht&Hq); apply elem_of_seqZ in Ht;
      exists t; split; [lia|done]).
  - abstract (intros (t&Ht&Hq); apply n, Exists_exists; exists t; split; [apply elem_of_seqZ; lia|done]).
Defined.

Definition spec_step (ev : vm_event) (σ : views) : views :=
  match ev with
  | VCreate child => λ b q j, if decide (b = child) then None else σ b q j
  | VFork parent child => λ b q j, if decide (b = child) then σ parent q j else σ b q j
  | VMap a start k => λ b q j,
      if decide (b = a ∧ region_page start k q j) then Some ∅ else σ b q j
  | VFault _ _ _ => σ
  | VStore a p i w v => λ b q j,
      if decide ((b, q, j) = (a, p, i)) then (λ pg, <[w := v]> pg) <$> σ b q j else σ b q j
  end.
Definition spec_run (tr : list vm_event) (σ : views) : views :=
  foldl (λ σ ev, spec_step ev σ) σ tr.

(** ** The concrete machine *)

Section machine.
Context `{Paging}.
Context (K : Z).

Record machine := Machine { vm_mm : MemoryManager; vm_spaces : gset Z }.
Definition vm_phys (v : machine) : phys := mm_phys (vm_mm v).
Definition vm_views (v : machine) : views := user_page (ph_mem (vm_phys v)).

Inductive vm_step : machine → vm_event → machine → Prop :=
| vm_create mm A child s' :
    create_user_mapper (Some K) (mm_phys mm) = (Ok child, s') →
    vm_step (Machine mm A) (VCreate child)
      (Machine (Mm s' (user_page_tables mm ++ [child])) (A ∪ {[child]}))
| vm_fork mm A parent child mm' :
    parent ∈ A → cow_fork_address_space (Some K) parent mm = (Ok child, mm') →
    ¬ exhausted (mm_phys mm') →
    vm_step (Machine mm A) (VFork parent child) (Machine mm' (A ∪ {[child]}))
| vm_map mm A a start n w s' :
    a ∈ A → region_free K (ph_mem (mm_phys mm)) start (Z.of_nat n) →
    map_user_region a start n w (mm_phys mm) = (Ok tt, s') →
    vm_step (Machine mm A) (VMap a start (Z.of_nat n)) (Machine (Mm s' (user_page_tables mm)) A)
| vm_fault mm A a va cs err res s' :
    a ∈ A → page_fault_handler cs err (Some a) va (mm_phys mm) = (res, s') →
    vm_step (Machine mm A) (VFault a va res) (Machine (Mm s' (user_page_tables mm)) A)
| vm_store mm A a p i w v m' :
    a ∈ A → pos p i → cpu_store a p i w v (ph_mem (mm_phys mm)) = Some m' →
    vm_step (Machine mm A) (VStore a p i w v)
      (Machine (Mm (Phys m' (ph_fa (mm_phys mm))) (user_page_tables mm)) A).

Inductive vm_run : machine → list vm_event → machine → Prop :=
| vr_nil v : vm_run v [] v
| vr_cons v1 ev v2 tr v3 : vm_step v1 ev v2 → vm_run v2 tr v3 → vm_run v1 (ev :: tr) v3.

(** Equal contents in all spaces of [A]. *)
Definition views_eq (A : gset Z) (σ τ : views) : Prop :=
  ∀ b q j, b ∈ A → pos q j → σ b q j = τ b q j.

(** The spaces an event refers to exist. *)
Definition reads (ev : vm_event) (A : gset Z) : Prop :=
  match ev with VFork p _ => p ∈ A | _ => True end.

Definition spaces_after (ev : vm_event) (A : gset Z) : gset Z :=
  match ev with VCreate c | VFork _ c => A ∪ {[c]} | _ => A end.

Lemma spec_step_eq A ev σ τ :
  reads ev A → views_eq A σ τ →
  views_eq (spaces_after ev A) (spec_step ev σ) (spec_step ev τ).
Proof.
  intros Hrd Hv b q j Hb Hp.
  destruct ev as [c|p c|a st k|a va res|a p i w v]; simpl in *.
  - destruct (decide _); [done|]. apply Hv; set_solver.
  - destruct (decide _); apply Hv; set_solver.
  - destruct (decide _); [done|]. by apply Hv.
  - by apply Hv.
  - rewrite (Hv b q j) by done. done.
Qed.

Lemma vm_step_shape v ev v' :
  vm_step v ev v' → vm_spaces v' = spaces_after ev (vm_spaces v) ∧ reads ev (vm_spaces v).
Proof. by destruct 1. Qed.

Context `{!PagingLaws}.

Lemma page_fault_cases cs err a va s res s' :
  page_fault_handler cs err (Some a) va s = (res, s') →
  (res = Resume ∧ resolve_cow (Some a) va s = (Some tt, s')) ∨
  resolve_cow (Some a) va s = (None, s') ∨ s' = s.
Proof.
  unfold page_fault_handler. destruct (pf_user err && pf_write err && pf_protection err).
  - destruct (resolve_cow (Some a) va s) as [[[]|] s1]; [intros [= <- <-]; by left|].
    destruct (_ || _); intros [= <- <-]; by right; left.
  - destruct (_ || _); intros [= <- <-]; by right; right.
Qed.

Lemma vm_step_refines v ev v' :
  vm_ok K (vm_spaces v) (vm_phys v) → vm_step v ev v' →
  vm_ok K (vm_spaces v') (vm_phys v') ∧
  views_eq (vm_spaces v') (vm_views v') (spec_step ev (vm_views v)).
Proof.
  intros Hok Hst. destruct Hst as
    [mm A c s' Hcr|mm A a c mm' Ha Hf Hex|mm A a st n w s' Ha Hfree Hmap|mm A a va cs err res s' Ha Hpf|
     mm A a p i w v m' Ha Hp Hst]; unfold vm_phys, vm_views, views_eq, vm_phys in *; simpl in *.
  - apply (create_user_mapper_spec K A _ _ _ Hok) in Hcr as Hc.
    split; [apply Hc|]. intros b q j Hb (Hq&Hl&Hj). destruct (decide (b = c)) as [->|Hne].
    + unfold user_page. destruct (leaf (ph_mem s') c q j) as [e|] eqn:He; [|done].
      destruct (user e) eqn:Hu; [|done].
      by destruct (cr_empty _ _ _ _ _ Hc q j e Hq Hj).
    + assert (b ∈ A) as HbA by set_solver. assert (space K A b) as Hbs by (by left).
      assert (∀ e, user_leaf (ph_mem s') b q j e ↔ user_leaf (ph_mem (mm_phys mm)) b q j e) as Hul
        by (intros e; by apply (quiet_user K A _ _ (cr_quiet _ _ _ _ _ Hc))).
      apply user_page_eq; [done| |intros e He; exists e; by apply Hul].
      intros e He. exists e. split; [by apply Hul|]. apply (cr_pages _ _ _ _ _ Hc).
      intros [Hfut _]. by apply (vo_live _ _ _ Hok b q j e).
  - destruct (cow_fork_copies K A mm mm' a c Hok Ha Hf) as (Hok'&Hn&_&Hold&_&Hchild&_).
    split; [done|]. intros b q j Hb Hp. destruct (decide (b = c)) as [->|Hne]; [by apply Hchild|].
    apply Hold; set_solver.
  - apply (map_user_region_spec K A _ a st n w) in Hmap as [M1 M2 M3 M4 M5]; [|done..].
    split; [done|]. intros b q j Hb Hp. destruct (decide _) as [[-> Hin]|Hnin].
    + by destruct (M5 q j Hp Hin) as (_&?&_).
    + apply M4; [done..|]. destruct (decide (b = a)) as [->|]; [right|by left].
      intros Hin. by apply Hnin.
  - apply page_fault_cases in Hpf as [[-> Hr]|[Hr| ->]].
    + destruct (resolve_cow_Some K A _ a va s' Hok Ha Hr) as (Hok'&_&Hv&_). by split.
    + destruct (resolve_cow_None K A _ (Some a) va s' Hok Hr) as (Hok'&_&Hv).
      split; [done|]. intros b q j Hb Hp. by apply Hv.
    + done.
  - destruct (cpu_store_spec K A _ a p i w v m' Hok Ha Hp Hst) as (Hok'&(pg&Hpg&Hpg')&Hoth).
    split; [done|]. intros b q j Hb Hq. destruct (decide _) as [[= -> -> ->]|Hne].
    + by rewrite Hpg'; rewrite Hpg.
    + by apply Hoth.
Qed.

(** C5: Address spaces behave as isolated memories.  Whatever sequence of
    creations, copy-on-write forks (while frames last), new mappings, faults
    and stores the processes make, every process reads at every address what
    the abstract machine says, in which a fork copies the whole memory, a
    fault changes nothing and a store changes one page of one process; the
    separation of the page tables holds throughout. *)
Theorem address_spaces_refine v tr v' :
  vm_ok K (vm_spaces v) (vm_phys v) → vm_run v tr v' →
  vm_ok K (vm_spaces v') (vm_phys v') ∧
  ∀ b q j, b ∈ vm_spaces v' → pos q j →
    vm_views v' b q j = spec_run tr (vm_views v) b q j.
Proof.
  intros Hok Hrun. enough (∀ σ, views_eq (vm_spaces v) (vm_views v) σ →
    vm_ok K (vm_spaces v') (vm_phys v') ∧ views_eq (vm_spaces v') (vm_views v') (spec_run tr σ)) as Hgen
    by (destruct (Hgen (vm_views v)); done).
  induction Hrun as [v|v1 ev v2 tr v3 Hst Hrun IH]; intros σ Hσ; [done|].
  destruct (vm_step_refines v1 ev v2 Hok Hst) as [Hok2 Hv2].
  destruct (vm_step_shape v1 ev v2 Hst) as [Hsp Hrd].
  apply (IH Hok2). intros b q j Hb Hp. rewrite Hv2 by done.
  apply (spec_step_eq (vm_spaces v1)); [done..| |done]. by rewrite <-Hsp.
Qed.
End machine.

(** ** Address spaces on a concrete memory

    A small machine: the kernel's table with a shared huge page in the first
    slot and one in the upper half, and 64 free frames.  The theorems about
    address spaces are run on it with the reference mapper. *)


Definition demo_kernel : Z := 0x1000.
Definition huge_entry : Z := Z.lor (Z.lor PRESENT WRITABLE) HUGE_PAGE.
Definition demo_mem : pmem :=
  {[ 0x1000 := {[ 0 := pte 0x2000 3; 256 := pte 0x3000 3 ]};
     0x2000 := {[ 0 := huge_entry ]};
     0x3000 := {[ 5 := huge_entry ]} ]}.
Definition demo_regions : list MemoryRegion := [Region 0x100000 0x140000 Usable].
Definition demo_phys : phys := Phys demo_mem (FrameAllocator demo_regions 0).
Definition demo : machine := Machine (Mm demo_phys []) ∅.

Lemma demo_entry t i :
  entry demo_mem t i ≠ 0 →
  t = 0x1000 ∧ (i = 0 ∨ i = 256) ∨ t = 0x2000 ∧ i = 0 ∨ t = 0x3000 ∧ i = 5.
Proof.
  unfold entry, page_at. destruct (demo_mem !! t) as [pg|] eqn:Ht; [|done]. simpl.
  destruct (pg !! i) as [e|] eqn:Hi; [|done]. intros _. unfold demo_mem in Ht.
  rewrite !lookup_insert_Some, lookup_singleton_Some in Ht.
  destruct Ht as [[<- <-]|[_ [[<- <-]|[_ [<- <-]]]]];
    rewrite ?lookup_insert_Some, ?lookup_singleton_Some in Hi; naive_solver.
Qed.

Lemma demo_next t i c :
  next_table demo_mem t i = Some c →
  t = 0x1000 ∧ (i = 0 ∧ c = 0x2000 ∨ i = 256 ∧ c = 0x3000).
Proof.
  intros Hn. assert (entry demo_mem t i ≠ 0) as Hne.
  { intros Hz. unfold next_table in Hn. by rewrite Hz in Hn. }
  apply demo_entry in Hne as [[-> [-> | ->]]|[[-> ->]|[-> ->]]]; vm_compute in Hn;
    simplify_eq; naive_solver.
Qed.

(** The kernel's tables are its root and two more. *)
Lemma demo_nodes p f :
  node demo_mem 0x1000 p = Some f →
  p = [] ∧ f = 0x1000 ∨ p = [0] ∧ f = 0x2000 ∨ p = [256] ∧ f = 0x3000.
Proof.
  destruct p as [|i p]; [intros [= <-]; by left|]. simpl. intros Hn.
  apply bind_Some in Hn as (c&Hc&Hn). apply demo_next in Hc as [_ Hc].
  destruct p as [|j p]; [injection Hn as <-; naive_solver|].
  simpl in Hn. apply bind_Some in Hn as (d&Hd&_). apply demo_next in Hd as [-> _]. lia.
Qed.

Lemma demo_no_user b p i e : b = 0x1000 → user_leaf demo_mem b p i e → False.
Proof.
  intros -> (Hl&Hlf&_). apply leaf_node in Hlf as (t&Ht&_). apply demo_nodes in Ht.
  destruct Ht as [[-> _]|[[-> _]|[-> _]]]; done.
Qed.

Lemma demo_fa_ok : fa_ok demo_phys.
Proof.
  split; simpl.
  - apply (bool_decide_unpack _). vm_compute. done.
  - apply Forall_forall. unfold frame_ok. apply (bool_decide_unpack _). vm_compute. done.
Qed.

Lemma demo_not_future f : f < 0x100000 → ¬ future demo_phys f.
Proof.
  intros Hf Hin. unfold future in Hin. simpl in Hin.
  assert (Forall (λ g, 0x100000 ≤ g) (usable_frames demo_regions)) as Hall
    by (apply (bool_decide_unpack _); vm_compute; done).
  rewrite Forall_forall in Hall. apply Hall in Hin. lia.
Qed.

Lemma demo_ok : vm_ok demo_kernel (vm_spaces demo) (vm_phys demo).
Proof.
  assert (∀ a, space demo_kernel ∅ a → a = 0x1000) as Hsp by (intros a [Ha|Ha]; [set_solver|done]).
  split; simpl; try (by set_solver); try (by intros; exfalso; eapply demo_no_user; [apply Hsp|]).
  - exact demo_fa_ok.
  - intros a b p q f Ha Hb _ _. rewrite (Hsp a Ha), (Hsp b Hb). intros H1 H2.
    apply demo_nodes in H1, H2. split; [|by left].
    naive_solver lia.
  - intros a p f Ha _ Hn. rewrite (Hsp a Ha) in Hn. apply demo_not_future.
    apply demo_nodes in Hn. naive_solver lia.
  - intros a p i e b q Ha _ _ Hu. destruct (demo_no_user a p i e); auto.
Qed.

(** ** A run

    A process is created, gets a page, writes it and forks; the parent's next
    store faults and is repeated after the copy. *)

Definition demo_parent : Z := 0x100000.
Definition demo_child : Z := 0x105000.
Definition demo_va : Z := 0x40000000.
Definition user_write : fault_code := FaultCode true true true.

Definition demo1 : phys := (create_user_mapper (Some demo_kernel) demo_phys).2.
Definition demo2 : phys := (map_user_region demo_parent demo_va 1 true demo1).2.
Definition store_or_stay (a v : Z) (s : phys) : phys :=
  Phys (default (ph_mem s) (cpu_store a (va_path demo_va) (va_index 0 demo_va) 3 v (ph_mem s))) (ph_fa s).
Definition demo3 : phys := store_or_stay demo_parent 42 demo2.
Definition demo4 : MemoryManager :=
  (cow_fork_address_space (Some demo_kernel) demo_parent (Mm demo3 [demo_parent])).2.
Definition demo5 : phys :=
  (page_fault_handler 0x33 user_write (Some demo_parent) demo_va (mm_phys demo4)).2.
Definition demo6 : phys := store_or_stay demo_parent 43 demo5.

Lemma store_or_stay_run a v s :
  bool_decide (is_Some (cpu_store a (va_path demo_va) (va_index 0 demo_va) 3 v (ph_mem s))) = true →
  cpu_store a (va_path demo_va) (va_index 0 demo_va) 3 v (ph_mem s) = Some (ph_mem (store_or_stay a v s)).
Proof.
  intros H%bool_decide_eq_true. unfold store_or_stay. simpl. by destruct H as [m ->].
Qed.

Lemma demo_run1 : create_user_mapper (Some demo_kernel) demo_phys = (Ok demo_parent, demo1).
Proof. compute_run demo1. Qed.
Lemma demo_run2 : map_user_region demo_parent demo_va 1 true demo1 = (Ok tt, demo2).
Proof. compute_run demo2. Qed.
Lemma demo_run3 : cpu_store demo_parent (va_path demo_va) (va_index 0 demo_va) 3 42 (ph_mem demo2) =
  Some (ph_mem demo3).
Proof. apply store_or_stay_run. vm_compute. reflexivity. Qed.
Lemma demo_run4 :
  cow_fork_address_space (Some demo_kernel) demo_parent (Mm demo3 [demo_parent]) =
    (Ok demo_child, demo4).
Proof. compute_run demo4. Qed.
Lemma demo_run5 :
  page_fault_handler 0x33 user_write (Some demo_parent) demo_va (mm_phys demo4) = (Resume, demo5).
Proof. compute_run demo5. Qed.
Lemma demo_run6 : cpu_store demo_parent (va_path demo_va) (va_index 0 demo_va) 3 43 (ph_mem demo5) =
  Some (ph_mem demo6).
Proof. apply store_or_stay_run. vm_compute. reflexivity. Qed.

Lemma store_or_stay_eq a v s s' : s' = store_or_stay a v s → s' = Phys (ph_mem s') (ph_fa s).
Proof. by intros ->. Qed.
Lemma demo3_eq : demo3 = Phys (ph_mem demo3) (ph_fa demo2).
Proof. apply (store_or_stay_eq demo_parent 42 demo2). unfold demo3. reflexivity. Qed.
Lemma demo6_eq : demo6 = Phys (ph_mem demo6) (ph_fa demo5).
Proof. apply (store_or_stay_eq demo_parent 43 demo5). unfold demo6. reflexivity. Qed.

#[local] Opaque demo1 demo2 demo3 demo4 demo5 demo6.

(** [blocked] by evaluation. *)
Fixpoint blockedb (m : pmem) (t : Z) (p : list Z) : bool :=
  match p with
  | [] => false
  | j :: r => match next_table m t j with
              | Some c => blockedb m c r
              | None => negb (entry m t j =? 0)
              end
  end.
Lemma blocked_check m t p : blockedb m t p = false → ¬ blocked m t p.
Proof.
  revert t. induction p as [|j p IH]; intros t Hb (q&k&r&c&Hp&Hn&He&Hnt); [by destruct q|].
  cbn in Hb. destruct q as [|q0 q]; injection Hp as <- ->.
  - injection Hn as <-. rewrite Hnt in Hb. apply negb_false_iff, Z.eqb_eq in Hb. done.
  - cbn in Hn. destruct (next_table m t j) as [d|]; [|done]. cbn in Hn.
    apply (IH d Hb). by exists q, k, r, c.
Qed.

Lemma demo_free : region_free demo_kernel (ph_mem demo1) demo_va 1.
Proof.
  intros t Ht. assert (t = 0) as -> by lia.
  change (va_path (region_va demo_va 0)) with [0; 1; 0].
  change (va_index 0 (region_va demo_va 0)) with 0. split.
  - split_and!; [split; [simpl; lia|repeat constructor; by vm_compute]|done| |by intros i [= <-]].
    by intros (i&r&[= <- _]&[? _]).
  - split; [apply blocked_check; vm_compute; reflexivity|].
    intros e He. vm_compute in He. done.
Qed.

Lemma demo_pos : pos (va_path demo_va) (va_index 0 demo_va).
Proof. apply va_pos_pos. Qed.

Definition demo_machine1 : machine := Machine (Mm demo1 [demo_parent]) {[demo_parent]}.
Definition demo_machine3 : machine := Machine (Mm demo3 [demo_parent]) {[demo_parent]}.

Lemma vm_store_state K s ts A a p i w v s' :
  a ∈ A → pos p i → cpu_store a p i w v (ph_mem s) = Some (ph_mem s') →
  s' = Phys (ph_mem s') (ph_fa s) →
  vm_step K (Machine (Mm s ts) A) (VStore a p i w v) (Machine (Mm s' ts) A).
Proof. intros Ha Hp Hst ->. by apply (vm_store K (Mm s ts)). Qed.

Lemma demo_step1 : vm_step demo_kernel demo (VCreate demo_parent) demo_machine1.
Proof.
  replace {[demo_parent]} with ((∅ : gset Z) ∪ {[demo_parent]}) in |- * by set_solver.
  unfold demo_machine1. replace {[demo_parent]} with ((∅ : gset Z) ∪ {[demo_parent]}) by set_solver.
  apply (vm_create demo_kernel (Mm demo_phys []) ∅ demo_parent demo1), demo_run1.
Qed.
Lemma demo_step2 : vm_step demo_kernel demo_machine1 (VMap demo_parent demo_va 1)
  (Machine (Mm demo2 [demo_parent]) {[demo_parent]}).
Proof.
  apply (vm_map demo_kernel (Mm demo1 [demo_parent]) _ demo_parent demo_va 1 true demo2);
    [set_solver|apply demo_free|apply demo_run2].
Qed.
Lemma demo_step3 : vm_step demo_kernel (Machine (Mm demo2 [demo_parent]) {[demo_parent]})
  (VStore demo_parent (va_path demo_va) (va_index 0 demo_va) 3 42) demo_machine3.
Proof.
  apply (vm_store_state demo_kernel demo2 [demo_parent] _ demo_parent _ _ 3 42 demo3);
    [set_solver|apply demo_pos|apply demo_run3|apply demo3_eq].
Qed.

Lemma demo3_ok : vm_ok demo_kernel {[demo_parent]} demo3.
Proof.
  destruct (vm_step_refines demo_kernel _ _ _ demo_ok demo_step1) as [H1 _].
  destruct (vm_step_refines demo_kernel _ _ _ H1 demo_step2) as [H2 _].
  by destruct (vm_step_refines demo_kernel _ _ _ H2 demo_step3) as [H3 _].
Qed.

Lemma demo4_frames_left : ¬ exhausted (mm_phys demo4).
Proof. unfold exhausted. intros H. by vm_compute in H. Qed.

Lemma demo_run_all :
  vm_run demo_kernel demo
    [VCreate demo_parent; VMap demo_parent demo_va 1;
     VStore demo_parent (va_path demo_va) (va_index 0 demo_va) 3 42;
     VFork demo_parent demo_child; VFault demo_parent demo_va Resume;
     VStore demo_parent (va_path demo_va) (va_index 0 demo_va) 3 43]
    (Machine (Mm demo6 (user_page_tables demo4)) ({[demo_parent]} ∪ {[demo_child]})).
Proof.
  eapply vr_cons; [apply demo_step1|]. eapply vr_cons; [apply demo_step2|].
  eapply vr_cons; [apply demo_step3|].
  eapply vr_cons; [apply (vm_fork demo_kernel (Mm demo3 [demo_parent]) _ demo_parent demo_child demo4);
    [set_solver|apply demo_run4|apply demo4_frames_left]|].
  eapply vr_cons; [apply (vm_fault demo_kernel demo4 _ demo_parent demo_va 0x33 user_write Resume demo5);
    [set_solver|apply demo_run5]|].
  eapply vr_cons; [|apply vr_nil].
  apply (vm_store_state demo_kernel demo5 (user_page_tables demo4) _ demo_parent _ _ 3 43 demo6);
    [set_solver|apply demo_pos|apply demo_run6|apply demo6_eq].
Qed.

(** After the fork the parent's second store shows in the parent only. *)
Lemma address_spaces_refine_witness :
  (λ pg, pg !! 3) <$> vm_views (Machine (Mm demo6 (user_page_tables demo4)) ({[demo_parent]} ∪ {[demo_child]}))
    demo_child (va_path demo_va) (va_index 0 demo_va) = Some (Some 42).
Proof.
  destruct (address_spaces_refine demo_kernel demo _ _ demo_ok demo_run_all) as [_ Hv].
  rewrite Hv; [vm_compute; reflexivity|set_solver|apply demo_pos].
Defined.

Lemma cow_fork_copies_witness :
  user_page (ph_mem (mm_phys demo4)) demo_child (va_path demo_va) (va_index 0 demo_va) =
    user_page (ph_mem demo3) demo_parent (va_path demo_va) (va_index 0 demo_va).
Proof.
  destruct (cow_fork_copies demo_kernel {[demo_parent]} (Mm demo3 [demo_parent]) demo4
    demo_parent demo_child) as (_&_&_&_&_&Hc&_);
    [apply demo3_ok|set_solver|apply demo_run4|].
  apply Hc; [apply demo4_frames_left|apply demo_pos].
Defined.

(** A fault of the child is resolved, but the tables that the fork made for it
    lack WRITABLE: the store still does not go through, and the next fault at
    the same address terminates the child. *)
Definition demo_child5 : phys :=
  (page_fault_handler 0x33 user_write (Some demo_child) demo_va (mm_phys demo4)).2.
Example forked_child_cannot_write :
  (page_fault_handler 0x33 user_write (Some demo_child) demo_va (mm_phys demo4)).1 = Resume ∧
  can_write (ph_mem demo_child5) demo_child (va_path demo_va) (va_index 0 demo_va) = true ∧
  cpu_store demo_child (va_path demo_va) (va_index 0 demo_va) 3 43 (ph_mem demo_child5) = None ∧
  (page_fault_handler 0x33 user_write (Some demo_child) demo_va demo_child5).1 = Terminate 139.
Proof. split_and!; vm_compute; reflexivity. Qed.
