(* ===== verification/Bytes.v ===== *)
(** * Bytes of physical memory

    Frames hold words; the loader writes bytes.  Byte [k] of a page is bits
    [8 * (k mod 8)] and up of word [k / 8], as the little-endian CPU reads it. *)

From S2P Require Import Prelude Frames Paging.

#[local] Ltac Zify.zify_post_hook ::= Z.to_euclidean_division_equations.

Definition page_byte (pg : page) (k : Z) : Z :=
  Z.land (Z.shiftr (default 0 (pg !! (k / 8))) (8 * (k mod 8))) 255.
Definition set_page_byte (pg : page) (k b : Z) : page :=
  let w := default 0 (pg !! (k / 8)) in
  let sh := 8 * (k mod 8) in
  <[k / 8 := Z.lor (Z.ldiff w (Z.shiftl 255 sh)) (Z.shiftl b sh)]> pg.

(** The frame of a physical address and the byte at it. *)
Definition frame_of (a : Z) : Z := a / 4096 * 4096.
Definition pbyte (m : pmem) (a : Z) : Z := page_byte (page_at m (frame_of a)) (a mod 4096).
Definition set_pbyte (m : pmem) (a b : Z) : pmem :=
  <[frame_of a := set_page_byte (page_at m (frame_of a)) (a mod 4096) b]> m.

(** [ptr::copy_nonoverlapping(bytes, ptr, len)] and [ptr::write(ptr as *mut u64, v)] *)
Fixpoint write_bytes (m : pmem) (a : Z) (bs : bytes) : pmem :=
  match bs with
  | [] => m
  | b :: bs => write_bytes (set_pbyte m a b) (a + 1) bs
  end.
Definition write_u64 (m : pmem) (a v : Z) : pmem := write_bytes m a (le_enc 8 v).

Lemma testbit_255' j : 0 ≤ j → Z.testbit 255 j = (j <? 8).
Proof. intros. rewrite testbit_255 by done. by destruct (Z.ltb_spec j 8); case_bool_decide; try lia. Qed.

Lemma byte_testbit b j : byte_ok b → 8 ≤ j → Z.testbit b j = false.
Proof.
  intros [Hb1 Hb2] Hj. destruct (decide (b = 0)) as [->|]; [apply Z.testbit_0_l|].
  apply Z.bits_above_log2; [lia|]. assert (Z.log2 b < 8) by (apply Z.log2_lt_pow2; lia). lia.
Qed.

Lemma page_byte_set pg k b j :
  0 ≤ k → 0 ≤ j → byte_ok b →
  page_byte (set_page_byte pg k b) j = if decide (j = k) then b else page_byte pg j.
Proof.
  intros Hk Hj Hb. unfold page_byte, set_page_byte.
  destruct (decide (j / 8 = k / 8)) as [Hq|Hq].
  - rewrite Hq, lookup_insert_eq. simpl. set (w := default 0 (pg !! (k / 8))).
    apply Z.bits_inj'. intros n Hn.
    rewrite Z.land_spec, Z.shiftr_spec, Z.lor_spec, Z.ldiff_spec by lia.
    rewrite !Z.shiftl_spec by lia. rewrite (testbit_255' n) by lia.
    destruct (decide (j = k)) as [->|Hne].
    + replace (n + 8 * (k mod 8) - 8 * (k mod 8)) with n by lia.
      rewrite ?(testbit_255' n) by lia. destruct (Z.ltb_spec n 8).
      * by rewrite andb_false_r, andb_true_r.
      * rewrite andb_false_r. by rewrite byte_testbit.
    + rewrite Z.land_spec, Z.shiftr_spec, (testbit_255' n) by lia.
      destruct (Z.ltb_spec n 8); [|by rewrite !andb_false_r]. rewrite !andb_true_r.
      assert (j mod 8 ≠ k mod 8) as Hm.
      { intros Hm. apply Hne. rewrite (Z.div_mod j 8), (Z.div_mod k 8) by lia. congruence. }
      pose proof (Z.mod_pos_bound j 8 ltac:(lia)). pose proof (Z.mod_pos_bound k 8 ltac:(lia)).
      remember (j mod 8) as jm. remember (k mod 8) as km.
      assert (n + 8 * jm - 8 * km < 0 ∨ 8 ≤ n + 8 * jm - 8 * km) as Hd by lia.
      set (d := n + 8 * jm - 8 * km) in *. destruct Hd as [Hd|Hd].
      * rewrite (Z.testbit_neg_r 255 d), (Z.testbit_neg_r b d) by lia.
        by rewrite andb_true_r, orb_false_r.
      * rewrite (testbit_255' d) by lia. rewrite (byte_testbit b) by done.
        destruct (Z.ltb_spec d 8); [lia|]. by rewrite andb_true_r, orb_false_r.
  - rewrite lookup_insert_ne by done. rewrite decide_False; [done|]. by intros ->.
Qed.

Lemma page_byte_ok pg k : byte_ok (page_byte pg k).
Proof.
  unfold page_byte. change 255 with (Z.ones 8). rewrite Z.land_ones by lia.
  apply Z.mod_pos_bound. lia.
Qed.

Lemma page_byte_zero k : page_byte ∅ k = 0.
Proof. unfold page_byte. rewrite lookup_empty. simpl. by rewrite Z.shiftr_0_l. Qed.

Lemma pbyte_set_pbyte m a b x :
  byte_ok b → pbyte (set_pbyte m a b) x = if decide (x = a) then b else pbyte m x.
Proof.
  intros Hb. unfold pbyte, set_pbyte. rewrite page_at_insert.
  pose proof (Z.mod_pos_bound a 4096 ltac:(lia)). pose proof (Z.mod_pos_bound x 4096 ltac:(lia)).
  destruct (decide (frame_of a = frame_of x)) as [Hf|Hf].
  - rewrite <-Hf. rewrite page_byte_set by (done || lia).
    unfold frame_of in Hf.
    destruct (decide (x mod 4096 = a mod 4096)), (decide (x = a)) as [->|Hne]; try done.
    exfalso. apply Hne. rewrite (Z.div_mod x 4096), (Z.div_mod a 4096) by lia. lia.
  - destruct (decide (x = a)) as [->|]; [done|done].
Qed.

Lemma pbyte_write_bytes m a bs x :
  Forall byte_ok bs →
  pbyte (write_bytes m a bs) x =
    if decide (a ≤ x < a + Z.of_nat (length bs)) then bs !!! Z.to_nat (x - a) else pbyte m x.
Proof.
  intros Hbs. revert m a. induction Hbs as [|b bs Hb Hbs IH]; intros m a; simpl.
  - rewrite decide_False by lia. done.
  - rewrite IH. rewrite pbyte_set_pbyte by done.
    destruct (decide (x = a)) as [->|Hne].
    + rewrite decide_False by lia. rewrite decide_True by lia. by rewrite Z.sub_diag.
    + destruct (decide (a + 1 ≤ x < a + 1 + Z.of_nat (length bs))).
      * rewrite decide_True by lia.
        replace (Z.to_nat (x - a)) with (S (Z.to_nat (x - (a + 1)))) by lia. done.
      * rewrite decide_False by lia. done.
Qed.

(** Frames that the bytes do not touch. *)
Lemma page_at_write_bytes m a bs f :
  (∀ x, a ≤ x < a + Z.of_nat (length bs) → frame_of x ≠ f) →
  page_at (write_bytes m a bs) f = page_at m f.
Proof.
  revert m a. induction bs as [|b bs IH]; intros m a Hf; [done|]. simpl.
  rewrite IH; [|intros x Hx; apply Hf; simpl; lia].
  unfold set_pbyte. rewrite page_at_insert, decide_False; [done|]. apply Hf. simpl. lia.
Qed.

Lemma frame_of_add f k : f mod 4096 = 0 → 0 ≤ k < 4096 → frame_of (f + k) = f.
Proof.
  unfold frame_of. lia.
Qed.
Lemma mod_add f k : f mod 4096 = 0 → 0 ≤ k < 4096 → (f + k) mod 4096 = k.
Proof. intros. lia. Qed.
Lemma pbyte_frame m f k : f mod 4096 = 0 → 0 ≤ k < 4096 → pbyte m (f + k) = page_byte (page_at m f) k.
Proof. intros. unfold pbyte. by rewrite frame_of_add, mod_add. Qed.

(** [u64] values are their bytes. *)
Definition read_u64 (rd : Z → Z) (a : Z) : Z := le_dec ((λ i, rd (a + Z.of_nat i)) <$> seq 0 8).

Lemma le_enc_ok n v : Forall byte_ok (le_enc n v).
Proof.
  revert v. induction n as [|n IH]; intros v; [constructor|]. cbn [le_enc].
  constructor; [|done]. unfold byte_ok. apply Z.mod_pos_bound. lia.
Qed.

Lemma read_u64_bytes rd a v :
  0 ≤ v < 2 ^ 64 → (∀ i, (i < 8)%nat → rd (a + Z.of_nat i) = le_enc 8 v !!! i) → read_u64 rd a = v.
Proof.
  intros Hv Hrd. unfold read_u64.
  assert ((λ i, rd (a + Z.of_nat i)) <$> seq 0 8 = le_enc 8 v) as ->.
  { apply list_eq_same_length with 8%nat; [by rewrite length_le_enc|by rewrite length_fmap, length_seq|].
    intros i x y Hi Hx Hy. rewrite list_lookup_fmap, lookup_seq_lt in Hx by lia. injection Hx as <-.
    simpl. rewrite Hrd by lia. by apply list_lookup_total_correct. }
  by apply le_dec_enc_small.
Qed.
