(* ===== verification/Elf.v ===== *)
(** * The ELF loader (kernel/src/elf.rs)

    Parsing a 64-bit executable, mapping its segments into a new address space,
    applying the relocations of position-independent files and laying out the
    first stack.  Address arithmetic is on [u64] and wraps, as in the release
    build; an index out of a slice panics.  The operations of the [x86_64] crate
    on addresses are the class [Addresses]. *)

From S2P Require Import Prelude Frames Paging Memory Bytes VfsTable Vfs Block.

(** ** Constants *)

(** [elf.rs:24-24, !ELF_MAGIC] *)
Definition ELF_MAGIC : bytes := [127; 69; 76; 70].
(** [elf.rs:27-27, !ELFCLASS64] *)
Definition ELFCLASS64 : Z := 2.
(** [elf.rs:30-30, !ELFDATA2LSB] *)
Definition ELFDATA2LSB : Z := 1.
(** [elf.rs:33-33, !ET_EXEC] *)
Definition ET_EXEC : Z := 2.
(** [elf.rs:36-36, !ET_DYN] *)
Definition ET_DYN : Z := 3.
(** [elf.rs:39-39, !EM_X86_64] *)
Definition EM_X86_64 : Z := 62.
(** [elf.rs:42-42, !PT_LOAD] *)
Definition PT_LOAD : Z := 1.
(** [elf.rs:45-45, !PT_DYNAMIC] *)
Definition PT_DYNAMIC : Z := 2.
(** [elf.rs:48-48, !PF_X] *)
Definition PF_X : Z := 1.
(** [elf.rs:49-49, !PF_W] *)
Definition PF_W : Z := 2.
(** [elf.rs:53-53, !R_X86_64_NONE] *)
Definition R_X86_64_NONE : Z := 0.
(** [elf.rs:54-54, !R_X86_64_64] *)
Definition R_X86_64_64 : Z := 1.
(** [elf.rs:55-55, !R_X86_64_GLOB_DAT] *)
Definition R_X86_64_GLOB_DAT : Z := 6.
(** [elf.rs:56-56, !R_X86_64_JUMP_SLOT] *)
Definition R_X86_64_JUMP_SLOT : Z := 7.
(** [elf.rs:57-57, !R_X86_64_RELATIVE] *)
Definition R_X86_64_RELATIVE : Z := 8.
(** [elf.rs:60-60, !DT_NULL] *)
Definition DT_NULL : Z := 0.
(** [elf.rs:61-61, !DT_NEEDED] *)
Definition DT_NEEDED : Z := 1.
(** [elf.rs:63-63, !DT_STRTAB] *)
Definition DT_STRTAB : Z := 5.
(** [elf.rs:64-64, !DT_SYMTAB] *)
Definition DT_SYMTAB : Z := 6.
(** [elf.rs:65-65, !DT_RELA] *)
Definition DT_RELA : Z := 7.
(** [elf.rs:66-66, !DT_RELASZ] *)
Definition DT_RELASZ : Z := 8.
(** [elf.rs:68-68, !DT_STRSZ] *)
Definition DT_STRSZ : Z := 10.
(** [elf.rs:475-475, !DYNAMIC_LOAD_BASE] *)
Definition DYNAMIC_LOAD_BASE : Z := 0x40000000.
(** [elf.rs:582-582, !STACK_PAGES] *)
Definition STACK_PAGES : Z := 8.
(** [elf.rs:583-583, !USER_STACK_TOP] *)
Definition USER_STACK_TOP : Z := 0x7FFFFFFFF000.

(** ** Data *)

(** [elf.rs:73-77, ElfHeader] *)
Record ElfHeader := ElfHdr { h_entry : Z; h_phoff : Z; h_phnum : Z }.

(** [elf.rs:81-87, Segment] *)
Record Segment := Seg {
  seg_vaddr : Z; seg_memsz : Z; seg_filesz : Z; seg_offset : Z; seg_flags : Z }.

(** [elf.rs:100-107, DynamicInfo]: the names in [needed_libs] are [lib] and the
    string table offset in decimal; the offset is kept. *)
Record DynamicInfo := DynInfo {
  rela_addr : option Z; rela_size : Z; symtab_addr : option Z;
  strtab_addr : option Z; strtab_size : Z; needed_libs : list Z }.
Definition dyn_default : DynamicInfo := DynInfo None 0 None None 0 [].

(** [elf.rs:111-117, ElfBinary]; its list of relocations always stays empty. *)
Record ElfBinary := Elf {
  elf_entry : Z; elf_segments : list Segment; elf_dynamic : DynamicInfo; elf_is_dynamic : bool }.

(** ** Reading the file *)

(** [n] bytes at an offset, one index expression each, and [from_le_bytes]. *)
Definition le_at {E} (data : bytes) (off : Z) (n : nat) : outcome E Z :=
  if decide (0 ≤ off ∧ off + Z.of_nat n ≤ Z.of_nat (length data))
  then Ok (le_dec (slice (Z.to_nat off) n data)) else Panic.

Definition len (data : bytes) : Z := Z.of_nat (length data).

(** One program header; the segments and the dynamic section found so far. *)
Definition parse_phdr (data : bytes) (phoff : Z) (i : Z)
    (st : list Segment * option (Z * Z)) : outcome string (list Segment * option (Z * Z)) :=
  let off := wrap64 (phoff + i * 56) in
  if len data <? wrap64 (off + 56) then Err "Program header out of bounds"%string else
  let? p_type := le_at data off 4 in
  if p_type =? PT_DYNAMIC then
    let? p_offset := le_at data (off + 8) 8 in
    let? p_filesz := le_at data (off + 32) 8 in
    Ok (st.1, Some (p_offset, p_filesz))
  else if negb (p_type =? PT_LOAD) then Ok st else
  let? p_flags := le_at data (off + 4) 4 in
  let? p_offset := le_at data (off + 8) 8 in
  let? p_vaddr := le_at data (off + 16) 8 in
  let? p_filesz := le_at data (off + 32) 8 in
  let? p_memsz := le_at data (off + 40) 8 in
  Ok (st.1 ++ [Seg p_vaddr p_memsz p_filesz p_offset p_flags], st.2).

(** [n] headers from the [i]th on. *)
Fixpoint parse_phdrs (data : bytes) (phoff : Z) (n : nat) (i : Z)
    (st : list Segment * option (Z * Z)) : outcome string (list Segment * option (Z * Z)) :=
  match n with
  | O => Ok st
  | S n => let? st := parse_phdr data phoff i st in parse_phdrs data phoff n (i + 1) st
  end.

(** The loop over the dynamic section; [fuel] bounds its rounds. *)
Fixpoint parse_dynamic (fuel : nat) (data : bytes) (i dyn_end : Z) (info : DynamicInfo)
  : outcome string DynamicInfo :=
  match fuel with
  | O => Diverge
  | S fuel =>
      if dyn_end <? wrap64 (i + 16) then Ok info else
      let? tag := le_at data i 8 in
      let? val := le_at data (i + 8) 8 in
      if tag =? DT_NULL then Ok info else
      let info :=
        if tag =? DT_RELA then DynInfo (Some val) (rela_size info) (symtab_addr info) (strtab_addr info) (strtab_size info) (needed_libs info)
        else if tag =? DT_RELASZ then DynInfo (rela_addr info) val (symtab_addr info) (strtab_addr info) (strtab_size info) (needed_libs info)
        else if tag =? DT_SYMTAB then DynInfo (rela_addr info) (rela_size info) (Some val) (strtab_addr info) (strtab_size info) (needed_libs info)
        else if tag =? DT_STRTAB then DynInfo (rela_addr info) (rela_size info) (symtab_addr info) (Some val) (strtab_size info) (needed_libs info)
        else if tag =? DT_STRSZ then DynInfo (rela_addr info) (rela_size info) (symtab_addr info) (strtab_addr info) val (needed_libs info)
        else if tag =? DT_NEEDED then DynInfo (rela_addr info) (rela_size info) (symtab_addr info) (strtab_addr info) (strtab_size info) (needed_libs info ++ [val])
        else info in
      parse_dynamic fuel data (wrap64 (i + 16)) dyn_end info
  end.

(** [elf.rs:121-280, ElfBinary::parse] *)
Definition parse (data : bytes) : outcome string ElfBinary :=
  if len data <? 64 then Err "ELF file too small"%string else
  if negb (bool_decide (slice 0 4 data = ELF_MAGIC)) then Err "Invalid ELF magic"%string else
  let? class := le_at data 4 1 in
  if negb (class =? ELFCLASS64) then Err "Not a 64-bit ELF"%string else
  let? encoding := le_at data 5 1 in
  if negb (encoding =? ELFDATA2LSB) then Err "Not little-endian"%string else
  let? e_type := le_at data 16 2 in
  let? e_machine := le_at data 18 2 in
  if negb (e_type =? ET_EXEC) && negb (e_type =? ET_DYN)
  then Err "Not an executable or shared object ELF"%string else
  if negb (e_machine =? EM_X86_64) then Err "Not x86-64"%string else
  let? entry := le_at data 24 8 in
  let? phoff := le_at data 32 8 in
  let? phnum := le_at data 56 2 in
  let header := ElfHdr entry phoff phnum in
  let is_dynamic := e_type =? ET_DYN in
  let? st := parse_phdrs data (h_phoff header) (Z.to_nat (h_phnum header)) 0 ([], None) in
  let? info :=
    match st.2 with
    | None => Ok dyn_default
    | Some (dyn_start, dyn_size) =>
        let dyn_end := wrap64 (dyn_start + dyn_size) in
        if dyn_end <=? len data
        then parse_dynamic (S (length data)) data dyn_start dyn_end dyn_default
        else Ok dyn_default
    end in
  Ok (Elf (h_entry header) st.1 info is_dynamic).

(** ** Symbols and relocations *)

(** The segment whose file-backed part holds an address. *)
Definition holds (va : Z) (seg : Segment) : bool :=
  (seg_vaddr seg <=? va) && (va <? wrap64 (seg_vaddr seg + seg_filesz seg)).

(** [elf.rs:401-450, lookup_symbol] *)
Definition lookup_symbol {E} (b : ElfBinary) (data : bytes) (symbol_index base_addr : Z) : outcome E Z :=
  if symbol_index =? 0 then Ok 0 else
  match symtab_addr (elf_dynamic b) with
  | None => Ok 0
  | Some symtab =>
      match List.find (holds symtab) (elf_segments b) with
      | None => Ok 0
      | Some seg =>
          let file_offset := wrap64 (seg_offset seg + (symtab - seg_vaddr seg)) in
          let entry_offset := wrap64 (file_offset + symbol_index * 24) in
          if len data <? wrap64 (entry_offset + 24) then Ok 0 else
          let? st_value := le_at data (entry_offset + 8) 8 in
          if st_value =? 0 then Ok 0 else Ok (wrap64 (base_addr + st_value))
      end
  end.

(** What the loader uses of the address types of the [x86_64] crate: the checked
    constructor [VirtAddr::new] ([None]: it panics) and [Translate::translate]
    ([None]: not mapped, else the physical address). *)
Class Addresses := {
  virt_addr : Z → option Z;
  translate : pmem → Z → Z → option Z;
}.

(** Every table on the way to a page is present. *)
Definition walk_present (m : pmem) (l4 : Z) (p : list Z) : bool :=
  forallb (λ k, match node m l4 (take k p), p !! k with
                | Some t, Some j => contains (pte_flags (entry m t j)) PRESENT
                | _, _ => false
                end) (seq 0 3).

(** Their documented behaviour on addresses of the lower half and small pages. *)
Class AddressesLaws `{Addresses} := {
  virt_addr_low a : 0 ≤ a < 2 ^ 47 → virt_addr a = Some a;
  translate_page m l4 a e : 0 ≤ a < 2 ^ 47 → walk_present m l4 (va_path a) = true →
    leaf m l4 (va_path a) (va_index 0 a) = Some e → contains (pte_flags e) PRESENT = true →
    translate m l4 a = Some (pte_addr e + a mod 4096);
}.

Section loader.
Context `{Paging} `{Addresses}.

(** The value a relocation stores; [None]: nothing to do. *)
Definition reloc_value {E} (b : ElfBinary) (data : bytes) (base_addr r_type r_sym r_addend : Z)
  : outcome E (option Z) :=
  if r_type =? R_X86_64_RELATIVE then Ok (Some (wrap64 (base_addr + r_addend)))
  else if (r_type =? R_X86_64_GLOB_DAT) || (r_type =? R_X86_64_JUMP_SLOT) then
    let? v := lookup_symbol b data r_sym base_addr in Ok (Some v)
  else if r_type =? R_X86_64_64 then
    let? v := lookup_symbol b data r_sym base_addr in Ok (Some (wrap64 (v + r_addend)))
  else Ok None.

(** One entry of the relocation table: the fields, then the store through the
    kernel's window on physical memory. *)
Definition apply_reloc (b : ElfBinary) (data : bytes) (base_addr l4 entry_offset : Z)
  : stm phys string unit :=
  let! r_offset := slift (le_at data entry_offset 8) in
  let! r_info := slift (le_at data (entry_offset + 8) 8) in
  let! r_addend := slift (le_at data (entry_offset + 16) 8) in
  let r_type := Z.land r_info 0xffffffff in
  let r_sym := Z.shiftr r_info 32 in
  let! value := slift (reloc_value b data base_addr r_type r_sym r_addend) in
  match value with
  | None => sret tt
  | Some value =>
      let! target := slift (or_panic (virt_addr (wrap64 (base_addr + r_offset)))) in
      let! pa := sget (λ s, translate (ph_mem s) l4 target) in
      match pa with
      | Some pa => on_mem (λ m, write_u64 m pa value)
      | None => sthrow "relocation target not mapped"%string
      end
  end.

(** The loop over the table, which ends at the end of the file at the latest. *)
Fixpoint reloc_loop (fuel : nat) (b : ElfBinary) (data : bytes) (base_addr l4 rela_start i num : Z)
  : stm phys string unit :=
  match fuel with
  | O => λ s, (Diverge, s)
  | S fuel =>
      if num <=? i then sret tt else
      let entry_offset := wrap64 (rela_start + i * 24) in
      if len data <? wrap64 (entry_offset + 24) then sret tt else
      let! _ := apply_reloc b data base_addr l4 entry_offset in
      reloc_loop fuel b data base_addr l4 rela_start (i + 1) num
  end.

(** [elf.rs:287-394, apply_relocations] *)
Definition apply_relocations (b : ElfBinary) (data : bytes) (base_addr l4 : Z) : stm phys string unit :=
  if negb (elf_is_dynamic b) then sret tt else
  match rela_addr (elf_dynamic b) with
  | None => sret tt
  | Some rela_vaddr =>
      let num_relocations := rela_size (elf_dynamic b) / 24 in
      match List.find (holds rela_vaddr) (elf_segments b) with
      | None => sret tt
      | Some seg =>
          let rela_start := wrap64 (seg_offset seg + (rela_vaddr - seg_vaddr seg)) in
          reloc_loop (S (S (length data))) b data base_addr l4 rela_start 0 num_relocations
      end
  end.

(** ** Segments *)

(** [Page::range_inclusive(start, end)] *)
Definition range_inclusive (start end_ : Z) : list Z :=
  (λ t, start + t * 4096) <$> seqZ 0 ((end_ - start) / 4096 + 1).

Definition segment_flags (flags : Z) : Z :=
  Z.lor (Z.lor (Z.lor PRESENT USER_ACCESSIBLE) (if Z.land flags PF_W =? 0 then 0 else WRITABLE))
    (if Z.land flags PF_X =? 0 then NO_EXECUTE else 0).

(** The file bytes of the page at [page], copied to its frame. *)
Definition copy_segment_page (data : bytes) (seg : Segment) (load_vaddr page f : Z)
  : stm phys string unit :=
  if seg_filesz seg =? 0 then sret tt else
  let seg_file_end := wrap64 (load_vaddr + seg_filesz seg) in
  let copy_start := Z.max page load_vaddr in
  let copy_end := Z.min (page + 4096) seg_file_end in
  if copy_start <? copy_end then
    let dest_off := copy_start - page in
    let file_start := wrap64 (seg_offset seg + (copy_start - load_vaddr)) in
    let bytes_to_copy := copy_end - copy_start in
    let file_end := wrap64 (file_start + bytes_to_copy) in
    if len data <? file_end then sthrow "segment data out of bounds"%string else
    if file_end <? file_start then slift Panic else
    on_mem (λ m, write_bytes m (f + dest_off)
      (slice (Z.to_nat file_start) (Z.to_nat bytes_to_copy) data))
  else sret tt.

Definition frame_or_err (msg : string) : stm phys string Z := λ s,
  match alloc_frame s with (Some f, s') => (Ok f, s') | (None, s') => (Err msg, s') end.

(** A new zeroed page: its frame. *)
Definition map_new_page (l4 page flags : Z) (no_frame no_map : string) : stm phys string Z :=
  let! f := frame_or_err no_frame in
  let! r := catch (map_to l4 page f flags) in
  match r with
  | None => sthrow no_map
  | Some _ => let! _ := on_mem (λ m, zero_page m f) in sret f
  end.

Definition load_page (data : bytes) (l4 : Z) (seg : Segment) (load_vaddr page : Z) : stm phys string unit :=
  let! page := slift (or_panic (virt_addr page)) in
  let! f := map_new_page l4 page (segment_flags (seg_flags seg))
              "out of physical memory" "failed to map page" in
  copy_segment_page data seg load_vaddr page f.

(** [elf.rs:482-574, !load, the loop over the segments] *)
Definition load_segment (data : bytes) (l4 base_addr : Z) (seg : Segment) : stm phys string unit :=
  let load_vaddr := wrap64 (base_addr + seg_vaddr seg) in
  let! start := slift (or_panic (virt_addr load_vaddr)) in
  let end_addr := wrap64 (load_vaddr + seg_memsz seg) in
  let! last := slift (or_panic (virt_addr (wrap64 (end_addr - 1)))) in
  sfor (range_inclusive (frame_containing start) (frame_containing last))
    (load_page data l4 seg load_vaddr).

(** ** The first stack *)

Definition str_len (s : bytes) : Z := Z.of_nat (length s).

(** Step 1 of [setup_user_stack]: the strings from the top of the page down, and
    their user addresses. *)
Fixpoint place_strings (frame page_user_base : Z) (strs : list bytes) (off : Z) (addrs : list Z)
  : stm phys string (Z * list Z) :=
  match strs with
  | [] => sret (off, addrs)
  | s :: strs =>
      let need := str_len s + 1 in
      if off <? need + 256 then sthrow "argv/envp too large for initial stack page"%string else
      let off := off - need in
      let! _ := on_mem (λ m, write_bytes m (frame + off) s) in
      let! _ := on_mem (λ m, write_bytes m (frame + off + str_len s) [0]) in
      place_strings frame page_user_base strs off (addrs ++ [page_user_base + off])
  end.

(** The words of the table, one after another. *)
Fixpoint write_words (a : Z) (ws : list Z) : stm phys string unit :=
  match ws with
  | [] => sret tt
  | w :: ws => let! _ := on_mem (λ m, write_u64 m a w) in write_words (a + 8) ws
  end.

(** [elf.rs:682-757, setup_user_stack] *)
Definition setup_user_stack (frame : option Z) (page_user_base page_size : Z)
    (args envs : list bytes) : stm phys string Z :=
  match frame with
  | None => sthrow "no top stack page captured"%string
  | Some frame =>
      let! p := place_strings frame page_user_base (args ++ envs) page_size [] in
      let off := Z.ldiff p.1 0xF in
      let argc := Z.of_nat (length args) in
      let nenv := Z.of_nat (length envs) in
      let words := 1 + argc + 1 + nenv + 1 + 2 in
      let off := if words mod 2 =? 0 then off else off - 8 in
      let table_bytes := words * 8 in
      if off <? table_bytes then sthrow "argv/envp table too large for initial stack page"%string else
      let rsp_off := off - table_bytes in
      let! _ := write_words (frame + rsp_off)
        ([argc] ++ take (length args) p.2 ++ [0] ++ drop (length args) p.2 ++ [0] ++ [0; 0]) in
      sret (page_user_base + rsp_off)
  end.

(** The pages of the stack; the frame of the top one is kept. *)
Fixpoint map_stack (l4 : Z) (pages : list Z) (top : option Z) : stm phys string (option Z) :=
  match pages with
  | [] => sret top
  | page :: pages =>
      let! page := slift (or_panic (virt_addr page)) in
      let! f := map_new_page l4 page (Z.lor (Z.lor (Z.lor PRESENT WRITABLE) USER_ACCESSIBLE) NO_EXECUTE)
                  "out of memory for stack" "failed to map stack page" in
      map_stack l4 pages (if page =? USER_STACK_TOP - 4096 then Some f else top)
  end.

(** ** Loading *)

(** [elf.rs:460-659, load]: the entry point and the stack pointer. *)
Definition load (b : ElfBinary) (data : bytes) (args envs : list bytes) (kernel_cr3 : option Z)
  : stm MemoryManager string (Z * Z) :=
  let! l4 := on_phys (expect_ok (create_user_mapper kernel_cr3)) in
  let base_addr := if elf_is_dynamic b then DYNAMIC_LOAD_BASE else 0 in
  let! _ := on_phys (sfor (elf_segments b) (load_segment data l4 base_addr)) in
  let! _ := on_phys (if elf_is_dynamic b then apply_relocations b data base_addr l4 else sret tt) in
  let stack_bottom := USER_STACK_TOP - STACK_PAGES * 4096 in
  let! top := on_phys (map_stack l4 ((λ i, stack_bottom + i * 4096) <$> seqZ 0 STACK_PAGES) None) in
  let! user_sp := on_phys (setup_user_stack top (USER_STACK_TOP - 4096) 4096 args envs) in
  let! _ := expect_ok (store_user_mapper l4) in
  let final_entry := wrap64 (base_addr + elf_entry b) in
  let! entry := slift (or_panic (virt_addr final_entry)) in
  let! sp := slift (or_panic (virt_addr user_sp)) in
  sret (entry, sp).
End loader.

(** ** From a file *)

Section from_file.
Context {W D : Type} `{KernelEnv W} `{BlockDev D} `{Paging} `{Addresses}.

(** The file system and the memory manager, each behind its lock. *)
Record loader_state := LoaderState { ls_vfs : vfs W D; ls_mm : MemoryManager }.

Definition on_vfs {E A} (msg : E) (f : stm (vfs W D) vfs_error A) : stm loader_state E A := λ s,
  let p := f (ls_vfs s) in (map_err (λ _, msg) p.1, LoaderState p.2 (ls_mm s)).
Definition on_mm {E A} (f : stm MemoryManager E A) : stm loader_state E A := λ s,
  let p := f (ls_mm s) in (p.1, LoaderState (ls_vfs s) p.2).

(** [elf.rs:776-840, load_from_file] *)
Definition load_from_file (sched : list (vfs W D → vfs W D)) (ticks : Z) (path : bytes)
    (args envs : list bytes) (kernel_cr3 : option Z) : stm loader_state string (Z * Z) :=
  let kernel_task := 0 in
  let! fd := on_vfs "failed to open file"%string
    (Vfs.open ticks kernel_task path (OpenFlags true false false false false)) in
  let! file_size := on_vfs "failed to seek to end"%string (seek kernel_task fd 0 SeekEnd) in
  let! _ := on_vfs "failed to seek to start"%string (seek kernel_task fd 0 SeekSet) in
  let! r := on_vfs "failed to read file"%string
    (Vfs.read sched kernel_task fd (replicate (Z.to_nat file_size) 0)) in
  let! _ := on_vfs "failed to close file"%string (close kernel_task fd) in
  if negb (r.1 =? file_size) then sthrow "incomplete read"%string else
  let! elf := slift (parse r.2) in
  on_mm (load elf r.2 args envs kernel_cr3).
End from_file.
