(* ===== verification/ElfStack.v ===== *)
(** * The first stack of a program

    What [setup_user_stack] lays out is what a program that follows the System V
    start-up convention reads back: its arguments and its environment. *)

From S2P Require Import Prelude Frames Paging Memory Bytes Elf.

#[local] Ltac Zify.zify_post_hook ::= Z.to_euclidean_division_equations.

(** ** The reader of the convention *)

(** A NUL-terminated string, an array of pointers that ends with NULL. *)
Fixpoint cstr (fuel : nat) (rd : Z → Z) (a : Z) : option bytes :=
  match fuel with
  | O => None
  | S fuel => if rd a =? 0 then Some [] else cons (rd a) <$> cstr fuel rd (a + 1)
  end.
Fixpoint ptr_array (fuel : nat) (rd : Z → Z) (a : Z) : option (list Z) :=
  match fuel with
  | O => None
  | S fuel =>
      let p := read_u64 rd a in
      if p =? 0 then Some [] else cons p <$> ptr_array fuel rd (a + 8)
  end.

Record start_info := StartInfo { argc : Z; argv : list bytes; envp : list bytes; auxv : Z * Z }.

(** What [_start] finds at its stack pointer. *)
Definition read_start (rd : Z → Z) (sp : Z) : option start_info :=
  args_ptrs ← ptr_array 512 rd (sp + 8);
  args ← mapM (cstr 4096 rd) args_ptrs;
  let env_at := sp + 8 * (Z.of_nat (length args_ptrs) + 2) in
  env_ptrs ← ptr_array 512 rd env_at;
  envs ← mapM (cstr 4096 rd) env_ptrs;
  let aux_at := env_at + 8 * (Z.of_nat (length env_ptrs) + 1) in
  Some (StartInfo (read_u64 rd sp) args envs (read_u64 rd aux_at, read_u64 rd (aux_at + 8))).

Definition cstring (s : bytes) : Prop := Forall (λ b, 0 < b < 256) s.

Lemma cstr_read fuel rd a s :
  (length s < fuel)%nat → cstring s →
  (∀ i b, s !! i = Some b → rd (a + Z.of_nat i) = b) → rd (a + str_len s) = 0 →
  cstr fuel rd a = Some s.
Proof.
  unfold str_len. revert a s. induction fuel as [|fuel IH]; intros a s Hf Hs Hrd H0; [lia|].
  destruct s as [|b s]; simpl in *.
  - rewrite Z.add_0_r in H0. by rewrite H0.
  - apply Forall_cons in Hs as [Hb Hs].
    assert (rd a = b) as -> by (rewrite <-(Hrd 0%nat b eq_refl); f_equal; lia).
    destruct (Z.eqb_spec b 0); [lia|]. rewrite (IH (a + 1) s); [done|lia|done| |].
    + intros i b' Hi. rewrite <-(Hrd (S i) b' Hi). f_equal. lia.
    + rewrite <-H0. f_equal. lia.
Qed.

Lemma ptr_array_read fuel rd a ps :
  (length ps < fuel)%nat → Forall (λ p, p ≠ 0) ps →
  (∀ i p, ps !! i = Some p → read_u64 rd (a + 8 * Z.of_nat i) = p) →
  read_u64 rd (a + 8 * Z.of_nat (length ps)) = 0 →
  ptr_array fuel rd a = Some ps.
Proof.
  revert a ps. induction fuel as [|fuel IH]; intros a ps Hf Hs Hrd H0; [lia|].
  destruct ps as [|p ps]; cbn [ptr_array length] in *.
  - rewrite Z.add_0_r in H0. by rewrite H0.
  - apply Forall_cons in Hs as [Hb Hs].
    assert (read_u64 rd a = p) as -> by (rewrite <-(Hrd 0%nat p eq_refl); f_equal; lia).
    destruct (Z.eqb_spec p 0); [lia|]. rewrite (IH (a + 8) ps); [done|lia|done| |].
    + intros i b' Hi. rewrite <-(Hrd (S i) b' Hi). f_equal. lia.
    + rewrite <-H0. f_equal. lia.
Qed.

(** ** The writer *)

(** Bytes outside [lo, hi) are as before, and so is everything but memory. *)
Definition only_bytes (s s' : phys) (lo hi : Z) : Prop :=
  ph_fa s' = ph_fa s ∧ (∀ x, x < lo ∨ hi ≤ x → pbyte (ph_mem s') x = pbyte (ph_mem s) x) ∧
  (∀ g, (∀ x, lo ≤ x < hi → frame_of x ≠ g) → page_at (ph_mem s') g = page_at (ph_mem s) g).

Lemma only_bytes_refl s lo hi : only_bytes s s lo hi.
Proof. done. Qed.

Lemma only_bytes_trans s1 s2 s3 lo hi lo' hi' lo2 hi2 :
  only_bytes s1 s2 lo hi → only_bytes s2 s3 lo' hi' →
  lo2 ≤ lo → lo2 ≤ lo' → hi ≤ hi2 → hi' ≤ hi2 → only_bytes s1 s3 lo2 hi2.
Proof.
  intros (H1&H2&H2p) (H3&H4&H4p) ????. split_and!; [congruence| |].
  - intros x Hx. rewrite H4 by lia. apply H2. lia.
  - intros g Hg. rewrite H4p; [apply H2p|]; intros x Hx; apply Hg; lia.
Qed.

Lemma write_only s a bs :
  Forall byte_ok bs →
  only_bytes s (Phys (write_bytes (ph_mem s) a bs) (ph_fa s)) a (a + Z.of_nat (length bs)).
Proof.
  intros Hbs. split_and!; [done| |].
  - intros x Hx. simpl. rewrite pbyte_write_bytes by done. by rewrite decide_False by lia.
  - intros g Hg. by apply page_at_write_bytes.
Qed.

Lemma cstring_ok s : cstring s → Forall byte_ok s.
Proof. intros. eapply Forall_impl; [done|]. unfold byte_ok. simpl. lia. Qed.

(** String [s] lies at physical address [a]. *)
Definition string_at (m : pmem) (a : Z) (s : bytes) : Prop :=
  (∀ i b, s !! i = Some b → pbyte m (a + Z.of_nat i) = b) ∧ pbyte m (a + str_len s) = 0.

Lemma write_string s a str :
  cstring str →
  let m1 := write_bytes (ph_mem s) a str in
  let s' := Phys (write_bytes m1 (a + str_len str) [0]) (ph_fa s) in
  only_bytes s s' a (a + str_len str + 1) ∧ string_at (ph_mem s') a str.
Proof.
  intros Hs m1 s'. assert (Forall byte_ok [0]) as H0 by (repeat constructor; lia).
  split; [|split].
  - eapply only_bytes_trans; [apply (write_only s a str); by apply cstring_ok|
      exact (write_only (Phys m1 (ph_fa s)) (a + str_len str) [0] H0)|..];
      unfold str_len; simpl; lia.
  - intros i b Hi. pose proof (lookup_lt_Some _ _ _ Hi). unfold s'. cbn [ph_mem].
    rewrite pbyte_write_bytes by done. rewrite decide_False by (unfold str_len; simpl; lia).
    unfold m1. rewrite pbyte_write_bytes by by apply cstring_ok. rewrite decide_True by lia.
    replace (Z.to_nat (a + Z.of_nat i - a)) with i by lia. by apply list_lookup_total_correct.
  - unfold s'. cbn [ph_mem]. rewrite pbyte_write_bytes by done. rewrite decide_True by (simpl; lia).
    by replace (Z.to_nat (a + str_len str - (a + str_len str))) with 0%nat by lia.
Qed.

Definition need (s : bytes) : Z := str_len s + 1.
Definition needs (strs : list bytes) : Z := foldr (λ s acc, need s + acc) 0 strs.

Lemma needs_nonneg strs : 0 ≤ needs strs.
Proof. induction strs as [|s strs IH]; simpl; [lia|]. unfold need, str_len. lia. Qed.
Lemma needs_length strs : Z.of_nat (length strs) ≤ needs strs.
Proof. induction strs as [|s strs IH]; simpl; [lia|]. unfold need, str_len. lia. Qed.

(** Addresses [ub + o] stand for physical addresses [f + o]. *)
Lemma place_strings_spec f ub strs off addrs s r s' :
  Forall cstring strs →
  place_strings f ub strs off addrs s = (r, s') →
  match r with
  | Ok (off', addrs') =>
      off' = off - needs strs ∧ (strs = [] ∨ 256 ≤ off') ∧ only_bytes s s' (f + off') (f + off) ∧
      ∃ new, addrs' = addrs ++ new ∧
        Forall2 (λ str a, off' ≤ a - ub ∧ a - ub + need str ≤ off ∧
                          string_at (ph_mem s') (f + (a - ub)) str) strs new
  | Err _ => off < needs strs + 256 ∧ only_bytes s s' f (f + off)
  | _ => False
  end.
Proof.
  revert off addrs s. induction strs as [|str strs IH]; intros off addrs s Hc Hrun; simpl in Hrun.
  - injection Hrun as <- <-. split_and!; [simpl; lia|by left|by apply only_bytes_refl|].
    exists []. by rewrite app_nil_r.
  - apply Forall_cons in Hc as [Hc Hcs]. fold (need str) in Hrun.
    pose proof (needs_nonneg strs) as Hnn.
    destruct (Z.ltb_spec off (need str + 256)) as [Hlt|Hge].
    { injection Hrun as <- <-. split; [simpl; lia|apply only_bytes_refl]. }
    destruct (write_string s (f + (off - need str)) str Hc) as [Ho Hstr].
    set (s2 := Phys _ _) in Ho, Hstr.
    change (place_strings f ub strs (off - need str) (addrs ++ [ub + (off - need str)]) s2 = (r, s')) in Hrun.
    specialize (IH _ _ _ Hcs Hrun). destruct r as [[off' addrs']|e| |]; [|destruct IH as [IH1 IH2]|done..].
    2:{ split; [simpl; lia|]. eapply only_bytes_trans; [exact Ho|exact IH2|..];
          unfold need in *; unfold str_len in *; lia. }
    destruct IH as (Hoff&Hlo&Hob&new&->&Hnew). cbn [needs foldr]. fold (needs strs).
    split_and!; [lia|right; destruct Hlo as [->|]; simpl in *; lia| |].
    + eapply only_bytes_trans; [exact Ho|exact Hob|..]; unfold need in *; unfold str_len in *; lia.
    + exists ((ub + (off - need str)) :: new). split; [by rewrite <-app_assoc|]. constructor.
      * split_and!; [unfold need in *; unfold str_len in *; lia|unfold need in *; lia|]. destruct Hstr as [H1 H2], Hob as (_&Hb&_).
        replace (f + (ub + (off - need str) - ub)) with (f + (off - need str)) by lia.
        split; [intros i b Hi|]; rewrite Hb; [by apply H1|right; lia|done|].
        right. unfold str_len. unfold need in *. unfold str_len in *. lia.
      * eapply Forall2_impl; [exact Hnew|]. simpl. intros x a (?&?&?). split_and!; try done. unfold need in *. unfold str_len in *. lia.
Qed.

Definition word_ok (w : Z) : Prop := 0 ≤ w < 2 ^ 64.

Lemma write_words_spec a ws s r s' :
  Forall word_ok ws → write_words a ws s = (r, s') →
  r = Ok tt ∧ only_bytes s s' a (a + 8 * Z.of_nat (length ws)) ∧
  ∀ k w, ws !! k = Some w → read_u64 (pbyte (ph_mem s')) (a + 8 * Z.of_nat k) = w.
Proof.
  revert a s. induction ws as [|w ws IH]; intros a s Hws Hrun; simpl in Hrun.
  - injection Hrun as <- <-. split_and!; [done|apply only_bytes_refl|done].
  - apply Forall_cons in Hws as [Hw Hws].
    set (s2 := Phys (write_u64 (ph_mem s) a w) (ph_fa s)).
    change (write_words (a + 8) ws s2 = (r, s')) in Hrun.
    destruct (IH _ _ Hws Hrun) as (->&Hob&Hk).
    pose proof (write_only s a (le_enc 8 w) (le_enc_ok 8 w)) as Ho. rewrite length_le_enc in Ho.
    split_and!; [done| |].
    + eapply only_bytes_trans; [exact Ho|exact Hob|..]; cbn [length]; lia.
    + intros [|k] w' Hl; simpl in Hl.
      * injection Hl as <-. apply read_u64_bytes; [done|]. intros i Hi.
        destruct Hob as (_&Hb&_). rewrite Hb by lia. unfold s2. simpl. unfold write_u64.
        rewrite pbyte_write_bytes by apply le_enc_ok. rewrite length_le_enc, decide_True by lia.
        f_equal. lia.
      * rewrite <-(Hk k w' Hl). f_equal. lia.
Qed.

(** ** The table *)

Definition table (args envs : list bytes) (addrs : list Z) : list Z :=
  [Z.of_nat (length args)] ++ take (length args) addrs ++ [0] ++ drop (length args) addrs ++ [0] ++ [0; 0].

(** Where the table starts, and whether everything fits in the page. *)
Definition table_words (args envs : list bytes) : Z :=
  Z.of_nat (length args) + Z.of_nat (length envs) + 5.
Definition string_base (args envs : list bytes) : Z :=
  let off := Z.ldiff (4096 - needs (args ++ envs)) 0xF in
  if table_words args envs mod 2 =? 0 then off else off - 8.
Definition stack_fits (args envs : list bytes) : bool :=
  (bool_decide (args ++ envs = []) || (needs (args ++ envs) + 256 <=? 4096)) &&
  (table_words args envs * 8 <=? string_base args envs).

Lemma ldiff_15 x : Z.ldiff x 0xF = x / 16 * 16.
Proof.
  change 0xF with (Z.ones 4). rewrite Z.ldiff_ones_r by lia.
  rewrite Z.shiftl_mul_pow2, Z.shiftr_div_pow2 by lia. done.
Qed.

Lemma string_base_bounds args envs :
  string_base args envs ≤ 4096 - needs (args ++ envs) ∧
  (string_base args envs - 8 * table_words args envs) mod 16 = 0.
Proof.
  unfold string_base. rewrite ldiff_15.
  destruct (Z.eqb_spec (table_words args envs mod 2) 0); split; lia.
Qed.

(** A table and strings in place are what the reader finds. *)
Lemma read_start_layout rd ub sp args envs na ne (P : bytes → Z → Prop) :
  0 < ub → ub ≤ sp → table_words args envs ≤ 512 → Forall cstring args → Forall cstring envs →
  (∀ str a, P str a → 0 < a ∧ str_len str < 4096 ∧
    (∀ i b, str !! i = Some b → rd (a + Z.of_nat i) = b) ∧ rd (a + str_len str) = 0) →
  Forall2 P args na → Forall2 P envs ne →
  (∀ k w, ([Z.of_nat (length args)] ++ na ++ [0] ++ ne ++ [0; 0; 0]) !! k = Some w →
    read_u64 rd (sp + 8 * Z.of_nat k) = w) →
  read_start rd sp = Some (StartInfo (Z.of_nat (length args)) args envs (0, 0)).
Proof.
  intros Hub Hsp Hwords Ha He HP Hna Hne Hw. unfold table_words in Hwords.
  pose proof (Forall2_length _ _ _ Hna) as Hla. pose proof (Forall2_length _ _ _ Hne) as Hle.
  assert (∀ strs ps, Forall cstring strs → Forall2 P strs ps →
    mapM (cstr 4096 rd) ps = Some strs ∧ Forall (λ p, p ≠ 0) ps) as Hstr.
  { intros strs ps Hc Hps. split.
    - apply mapM_Some. induction Hps as [|str a strs ps Hp _ IH]; [constructor|].
      apply Forall_cons in Hc as [Hc Hcs]. constructor; [|by apply IH].
      apply HP in Hp as (_&G2&G3&G4). unfold str_len in *. by apply cstr_read; [lia|..].
    - clear Hc. induction Hps as [|str a strs ps Hp _ IH]; constructor; [|done].
      apply HP in Hp as (G1&_). lia. }
  destruct (Hstr args na Ha Hna) as [Hma Hnza]. destruct (Hstr envs ne He Hne) as [Hme Hnze].
  clear Hstr HP Hna Hne Ha He.
  assert (∀ i w, (na ++ 0 :: ne ++ [0; 0; 0]) !! i = Some w →
    read_u64 rd (sp + 8 + 8 * Z.of_nat i) = w) as Hw1.
  { intros i w Hi. rewrite <-(Hw (S i) w Hi). f_equal. lia. }
  set (env_at := sp + 8 * (Z.of_nat (length na) + 2)).
  assert (∀ i w, (ne ++ [0; 0; 0]) !! i = Some w → read_u64 rd (env_at + 8 * Z.of_nat i) = w) as Hw2.
  { intros i w Hi. rewrite <-(Hw1 (length na + S i)%nat w); [unfold env_at; f_equal; lia|].
    rewrite lookup_app_r by lia. by replace (length na + S i - length na)%nat with (S i) by lia. }
  assert (∀ j, (j < 3)%nat → read_u64 rd (env_at + 8 * Z.of_nat (length ne + j)) = 0) as Hz.
  { intros j Hj. apply Hw2. rewrite lookup_app_r by lia.
    replace (length ne + j - length ne)%nat with j by lia. by destruct j as [|[|[|?]]]; [..|lia]. }
  unfold read_start. assert (ptr_array 512 rd (sp + 8) = Some na) as ->.
  { apply ptr_array_read; [lia|done| |].
    - intros i p Hi. apply Hw1. by rewrite lookup_app, Hi.
    - apply Hw1. rewrite lookup_app_r by lia. by rewrite Nat.sub_diag. }
  cbn [mbind option_bind]. rewrite Hma. cbn [mbind option_bind]. fold env_at.
  assert (ptr_array 512 rd env_at = Some ne) as ->.
  { apply ptr_array_read; [lia|done| |].
    - intros i p Hi. apply Hw2. by rewrite lookup_app, Hi.
    - rewrite <-(Hz 0%nat) by lia. do 3 f_equal. lia. }
  cbn [mbind option_bind]. rewrite Hme. cbn [mbind option_bind].
  do 2 f_equal.
  - rewrite <-(Hw 0%nat (Z.of_nat (length args))); [f_equal; lia|done].
  - f_equal; [rewrite <-(Hz 1%nat) by lia|rewrite <-(Hz 2%nat) by lia]; f_equal; lia.
Qed.

(** The frame, the strings, the table: what a successful layout leaves. *)
Lemma setup_user_stack_layout f ub args envs s r s' :
  Forall cstring args → Forall cstring envs → 0 ≤ ub → ub + 4096 ≤ 2 ^ 64 →
  setup_user_stack (Some f) ub 4096 args envs s = (r, s') →
  match r with
  | Ok sp => stack_fits args envs = true ∧
      sp = ub + (string_base args envs - 8 * table_words args envs) ∧
      only_bytes s s' f (f + 4096) ∧
      ∃ na ne,
        Forall2 (λ str a, ub ≤ a ∧ a - ub + need str ≤ 4096 ∧ string_at (ph_mem s') (f + (a - ub)) str) args na ∧
        Forall2 (λ str a, ub ≤ a ∧ a - ub + need str ≤ 4096 ∧ string_at (ph_mem s') (f + (a - ub)) str) envs ne ∧
        ∀ k w, ([Z.of_nat (length args)] ++ na ++ [0] ++ ne ++ [0; 0; 0]) !! k = Some w →
          read_u64 (pbyte (ph_mem s')) (f + (sp - ub) + 8 * Z.of_nat k) = w
  | Err _ => stack_fits args envs = false ∧ only_bytes s s' f (f + 4096)
  | _ => False
  end.
Proof.
  intros Ha He Hub Hub2 Hrun. unfold setup_user_stack, sbind in Hrun.
  destruct (place_strings f ub (args ++ envs) 4096 [] s) as [rp s1] eqn:Hp.
  apply place_strings_spec in Hp; [|by apply Forall_app].
  pose proof (needs_nonneg (args ++ envs)) as Hnn.
  pose proof (string_base_bounds args envs) as [Hsb _].
  assert (∀ off, off = 4096 - needs (args ++ envs) →
    (if (1 + Z.of_nat (length args) + 1 + Z.of_nat (length envs) + 1 + 2) mod 2 =? 0
     then Z.ldiff off 0xF else Z.ldiff off 0xF - 8) = string_base args envs) as Hbase.
  { intros off ->. unfold string_base, table_words.
    by replace (1 + Z.of_nat (length args) + 1 + Z.of_nat (length envs) + 1 + 2)
      with (Z.of_nat (length args) + Z.of_nat (length envs) + 5) by lia. }
  destruct rp as [[off addrs]|e| |]; [|injection Hrun as <- <-|done..].
  2:{ destruct Hp as [Hp Hob]. split; [|done]. unfold stack_fits. rewrite andb_false_iff. left. rewrite orb_false_iff. split.
      - apply bool_decide_eq_false. intros Hnil. rewrite Hnil in Hp. simpl in Hp. lia.
      - apply Z.leb_gt. lia. }
  destruct Hp as (Hoff&Hlo&Hob&new&Hnew&Hall). simpl in Hnew. subst addrs. cbn [fst snd] in Hrun.
  rewrite (Hbase off Hoff) in Hrun.
  replace ((1 + Z.of_nat (length args) + 1 + Z.of_nat (length envs) + 1 + 2) * 8)
    with (table_words args envs * 8) in Hrun by (unfold table_words; lia).
  destruct (Z.ltb_spec (string_base args envs) (table_words args envs * 8)) as [Hlt|Hge].
  { injection Hrun as <- <-. split; [unfold stack_fits; rewrite andb_false_iff; right; by apply Z.leb_gt|].
    eapply only_bytes_trans; [exact Hob|apply (only_bytes_refl s1 f f)|..]; try lia.
    destruct Hlo as [Hz|]; [rewrite Hoff, Hz; simpl; lia|lia]. }
  apply Forall2_app_inv_l in Hall as (na&ne&Hna&Hne&->).
  pose proof (Forall2_length _ _ _ Hna) as Hla. pose proof (Forall2_length _ _ _ Hne) as Hle.
  rewrite Hla, take_app_length, drop_app_length in Hrun.
  assert (∀ strs ps, Forall2 (λ str a, off ≤ a - ub ∧ a - ub + need str ≤ 4096 ∧
    string_at (ph_mem s1) (f + (a - ub)) str) strs ps → Forall word_ok ps) as Hw.
  { intros strs ps Hf. induction Hf as [|x y xs ys (?&?&_) _ IH]; constructor; [|done].
    assert (0 ≤ off) by (destruct Hlo as [Hz|]; [rewrite Hoff, Hz; simpl; lia|lia]).
    unfold word_ok, need, str_len in *. lia. }
  match type of Hrun with context [write_words ?a ?ws s1] =>
    destruct (write_words a ws s1) as [rw s2] eqn:Hwr;
    assert (Forall word_ok ws) as Hws end.
  { assert (word_ok 0) by (unfold word_ok; lia).
    repeat (apply Forall_app; split); try (by repeat constructor); [|by eapply Hw..].
    repeat constructor; [lia|]. rewrite <-Hla. pose proof (needs_length (args ++ envs)) as Hnl.
    rewrite length_app in Hnl. unfold table_words in *. lia. }
  apply write_words_spec in Hwr as (->&Hob2&Hk); [|exact Hws].
  injection Hrun as <- <-.
  assert (8 * Z.of_nat (length ([Z.of_nat (length na)] ++ na ++ [0] ++ ne ++ [0] ++ [0; 0])) =
    8 * table_words args envs) as Hlen.
  { repeat rewrite length_app. simpl. unfold table_words. lia. }
  rewrite Hlen in Hob2. set (rsp := string_base args envs - table_words args envs * 8) in *.
  assert (∀ strs ps, Forall2 (λ str a, off ≤ a - ub ∧ a - ub + need str ≤ 4096 ∧
    string_at (ph_mem s1) (f + (a - ub)) str) strs ps →
    Forall2 (λ str a, ub ≤ a ∧ a - ub + need str ≤ 4096 ∧ string_at (ph_mem s2) (f + (a - ub)) str) strs ps) as Hstr.
  { intros strs ps Hf. eapply Forall2_impl; [exact Hf|]. intros x y (?&?&[Hb Hz]).
    assert (0 ≤ off) by (destruct Hlo as [Hz'|]; [rewrite Hoff, Hz'; simpl; lia|lia]).
    destruct Hob2 as (_&Hb2&_). unfold need, str_len in *. split_and!; [lia|lia|].
    split; [intros i b Hi|]; rewrite Hb2; auto; right; unfold str_len; lia. }
  split_and!.
  - unfold stack_fits. rewrite andb_true_iff. split; [|by apply Z.leb_le].
    rewrite orb_true_iff. destruct Hlo as [Hn|]; [left; by apply bool_decide_eq_true|right].
    apply Z.leb_le. lia.
  - unfold rsp. lia.
  - eapply only_bytes_trans; [exact Hob|exact Hob2|..]; unfold rsp; lia.
  - exists na, ne. split_and!; [by apply Hstr|by apply Hstr|]. intros k w Hkw.
    replace (ub + rsp - ub) with rsp by lia. apply Hk. rewrite <-Hla. exact Hkw.
Qed.

(** C18: The first stack holds the arguments and the environment.  When the
    layout succeeds, the stack pointer is 16-byte aligned and lies in the page,
    a program that reads its start-up information from there finds exactly the
    argument count, the arguments, the environment and an empty auxiliary
    vector, and no byte outside the page has changed. *)
Theorem setup_user_stack_roundtrip f ub args envs s sp s' :
  f mod 4096 = 0 → ub mod 4096 = 0 → 0 < ub → ub + 4096 ≤ 2 ^ 64 →
  Forall cstring args → Forall cstring envs →
  setup_user_stack (Some f) ub 4096 args envs s = (Ok sp, s') →
  ub ≤ sp < ub + 4096 ∧ sp mod 16 = 0 ∧
  read_start (λ va, page_byte (page_at (ph_mem s') f) (va - ub)) sp =
    Some (StartInfo (Z.of_nat (length args)) args envs (0, 0)) ∧
  ph_fa s' = ph_fa s ∧ ∀ g, g ≠ f → page_at (ph_mem s') g = page_at (ph_mem s) g.
Proof.
  intros Hf Hub Hpos Hmax Ha He Hrun.
  apply setup_user_stack_layout in Hrun as (Hfit&->&(Hfa&_&Hpg)&na&ne&Hna&Hne&Hk); [|done|done|lia|done].
  apply andb_true_iff in Hfit as [_ Hfit]. apply Z.leb_le in Hfit.
  pose proof (string_base_bounds args envs) as [Hsb Hal]. pose proof (needs_nonneg (args ++ envs)).
  set (rsp := string_base args envs - 8 * table_words args envs) in *.
  pose proof (Forall2_length _ _ _ Hna) as Hla. pose proof (Forall2_length _ _ _ Hne) as Hle.
  assert (0 ≤ rsp ∧ rsp + 8 * table_words args envs ≤ 4096) as [Hr1 Hr2] by lia.
  split_and!; [unfold table_words in *; lia|unfold table_words in *; lia|unfold table_words in *; lia| |done|].
  2:{ intros g Hg. apply Hpg. intros x Hx <-. apply Hg. unfold frame_of. lia. }
  set (rd := λ va, page_byte (page_at (ph_mem s') f) (va - ub)).
  assert (∀ va, ub ≤ va < ub + 4096 → rd va = pbyte (ph_mem s') (f + (va - ub))) as Hrd.
  { intros va Hva. unfold rd. by rewrite pbyte_frame by lia. }
  assert (∀ k w, ([Z.of_nat (length args)] ++ na ++ [0] ++ ne ++ [0; 0; 0]) !! k = Some w →
    read_u64 rd (ub + rsp + 8 * Z.of_nat k) = w) as Hw.
  { intros k w Hl. rewrite <-(Hk k w Hl). pose proof (lookup_lt_Some _ _ _ Hl) as Hlt.
    repeat rewrite length_app in Hlt. simpl in Hlt. unfold table_words in *.
    unfold read_u64. f_equal. apply list_fmap_ext. intros i j Hj.
    apply lookup_seq in Hj as [-> Hj]. rewrite Hrd by lia. f_equal. lia. }
  apply (read_start_layout rd ub (ub + rsp) args envs na ne
    (λ str a, ub ≤ a ∧ a - ub + need str ≤ 4096 ∧ string_at (ph_mem s') (f + (a - ub)) str));
    [lia|lia|unfold table_words in *; lia|done|done| |done|done|done].
  clear Hal Hf Hub. intros str a (G1&G2&[G3 G4]). unfold need, str_len in *. split_and!; [lia|lia| |].
  - intros i b Hi. pose proof (lookup_lt_Some _ _ _ Hi). rewrite Hrd by lia.
    rewrite <-(G3 i b Hi). f_equal. lia.
  - rewrite Hrd by lia. rewrite <-G4. f_equal. lia.
Qed.

(** The initial page is enough exactly for vectors that fit: the layout
    succeeds if and only if the strings leave 256 bytes of headroom and the
    pointer table fits below them, and it never panics or diverges. *)
Theorem setup_user_stack_bounds f ub args envs s :
  Forall cstring args → Forall cstring envs → 0 ≤ ub → ub + 4096 ≤ 2 ^ 64 →
  is_ok (setup_user_stack (Some f) ub 4096 args envs s).1 = stack_fits args envs ∧
  ∀ r, r = (setup_user_stack (Some f) ub 4096 args envs s).1 → r ≠ Panic ∧ r ≠ Diverge.
Proof.
  intros Ha He Hub Hmax. destruct (setup_user_stack _ _ _ _ _ _) as [r s'] eqn:Hrun.
  apply setup_user_stack_layout in Hrun; [|done..]. destruct r as [sp|e| |]; simpl; [| |done..].
  - destruct Hrun as (->&_). split; [done|]. by intros ? ->.
  - destruct Hrun as [-> _]. split; [done|]. by intros ? ->.
Qed.

(** ** Witnesses *)

Definition demo_args : list bytes := [str "/bin/ls"; str "-l"].
Definition demo_envs : list bytes := [str "PATH=/bin"].
Definition demo_stack_run :=
  setup_user_stack (Some 0x100000) 0x7FFFFFFFE000 4096 demo_args demo_envs
    (Phys ∅ (FrameAllocator [] 0)).

Lemma demo_cstrings : Forall cstring demo_args ∧ Forall cstring demo_envs.
Proof. split; repeat constructor. Qed.

Lemma setup_user_stack_roundtrip_witness :
  demo_stack_run.1 = Ok 0x7FFFFFFFEFA0 ∧
  read_start (λ va, page_byte (page_at (ph_mem demo_stack_run.2) 0x100000) (va - 0x7FFFFFFFE000))
    0x7FFFFFFFEFA0 = Some (StartInfo 2 demo_args demo_envs (0, 0)).
Proof.
  split; [vm_compute; reflexivity|]. destruct demo_cstrings as [Ha He].
  destruct (setup_user_stack_roundtrip 0x100000 0x7FFFFFFFE000 demo_args demo_envs
    (Phys ∅ (FrameAllocator [] 0)) 0x7FFFFFFFEFA0 demo_stack_run.2) as (_&_&Hr&_);
    [done|done|done|done|done|done| |exact Hr].
  apply run_eq; [vm_compute; reflexivity|reflexivity].
Defined.

(** A vector of 3840 bytes fits, one more byte does not. *)
Lemma setup_user_stack_bounds_witness :
  let run n := is_ok (setup_user_stack (Some 0x100000) 0x7FFFFFFFE000 4096 [replicate n 65] []
    (Phys ∅ (FrameAllocator [] 0))).1 in
  run 3839%nat = true ∧ run 3840%nat = false.
Proof.
  intros run. assert (∀ n, Forall cstring [replicate n 65]) as Hc.
  { intros n. repeat constructor. by apply Forall_replicate. }
  assert (∀ n, run n = stack_fits [replicate n 65] []) as Hb.
  { intros n. apply (setup_user_stack_bounds 0x100000 0x7FFFFFFFE000); [apply Hc|constructor|done|done]. }
  rewrite !Hb. split; vm_compute; reflexivity.
Defined.
