(* ===== verification/ElfLoad.v ===== *)
(** * Loading an executable into a new address space

    What [load] maps is what the file says: every byte of a segment reads as in
    the file, the rest of its memory as zero, with the permissions of the
    segment, and the processes that exist already notice nothing. *)

From S2P Require Import Prelude Frames Paging Memory MemorySpec MemoryCopy MemoryFork MemoryProps MemorySteps Bytes Elf ElfStack.

#[local] Ltac Zify.zify_post_hook ::= Z.to_euclidean_division_equations.

(** ** Pages by address *)

Definition page_view (m : pmem) (a va : Z) : option page := user_page m a (va_path va) (va_index 0 va).
Definition byte_view (m : pmem) (a va : Z) : option Z :=
  (λ pg, page_byte pg (va mod 4096)) <$> page_view m a va.
Definition write_view (m : pmem) (a va : Z) : bool := can_write m a (va_path va) (va_index 0 va).

Definition page_of (va : Z) : Z := va / 4096 * 4096.

Lemma va_index_div k va : 0 ≤ k → 0 ≤ va → va_index k va = va / 4096 / 2 ^ (9 * k) mod 512.
Proof.
  intros Hk Hva. unfold va_index. change 0x1FF with (Z.ones 9). rewrite Z.land_ones by lia.
  rewrite Z.shiftr_div_pow2 by lia. rewrite Z.pow_add_r by lia.
  rewrite <-Z.div_div by (try apply Z.pow_pos_nonneg; try apply Z.pow_nonzero; lia). done.
Qed.

Lemma page_of_key va va' :
  0 ≤ va → 0 ≤ va' → page_of va = page_of va' →
  va_path va = va_path va' ∧ va_index 0 va = va_index 0 va'.
Proof.
  intros H1 H2 Heq. assert (va / 4096 = va' / 4096) as Hd by (unfold page_of in Heq; lia).
  unfold va_path. rewrite !va_index_div by lia. by rewrite Hd.
Qed.

Lemma digit_step x y : x / 512 = y / 512 → x mod 512 = y mod 512 → x = y.
Proof. intros Hd Hm. rewrite (Z.div_mod x 512), (Z.div_mod y 512) by lia. by rewrite Hd, Hm. Qed.

Lemma digits_inj x y :
  0 ≤ x < 2 ^ 36 → 0 ≤ y < 2 ^ 36 →
  (x / 512 / 512 / 512) mod 512 = (y / 512 / 512 / 512) mod 512 →
  (x / 512 / 512) mod 512 = (y / 512 / 512) mod 512 →
  (x / 512) mod 512 = (y / 512) mod 512 → x mod 512 = y mod 512 → x = y.
Proof.
  intros Hx Hy H3 H2 H1 H0. do 3 (apply digit_step; [|done]).
  assert (∀ z, 0 ≤ z < 2 ^ 36 → z / 512 / 512 / 512 mod 512 = z / 512 / 512 / 512) as Hz.
  { intros z Hz. rewrite !Z.div_div by lia. apply Z.mod_small. change (512 * 512 * 512) with 134217728. lia. }
  by rewrite !Hz in H3.
Qed.

Lemma user_page_of_inj va va' :
  0 ≤ va < 2 ^ 48 → 0 ≤ va' < 2 ^ 48 →
  va_path va = va_path va' → va_index 0 va = va_index 0 va' → page_of va = page_of va'.
Proof.
  intros H1 H2 Hp Hi. unfold va_path in Hp. injection Hp as H3 H4 H5.
  rewrite !va_index_div in Hi, H3, H4, H5 by (clear -H1 H2; lia). unfold page_of. f_equal.
  change (2 ^ (9 * 0)) with 1 in Hi. change (2 ^ (9 * 1)) with 512 in H5.
  change (2 ^ (9 * 2)) with (512 * 512) in H4. change (2 ^ (9 * 3)) with (512 * 512 * 512) in H3.
  rewrite !Z.div_1_r in Hi. rewrite <-!Z.div_div in H4 by done. rewrite <-!Z.div_div in H3 by done.
  apply digits_inj; [clear -H1; lia|clear -H2; lia|done..].
Qed.

Lemma page_of_low va : 0 ≤ va < 2 ^ 47 → 0 ≤ page_of va < 2 ^ 47 ∧ page_of va mod 4096 = 0.
Proof. unfold page_of. lia. Qed.

Section load.
Context `{Pg : Paging} `{PgL : !PagingLaws} `{Ad : Addresses} `{AdL : !AddressesLaws}.
Context (K : Z).
Implicit Types (A : gset Z) (s : phys).

(** The kernel leaves a page to the processes. *)
Definition user_ok (m : pmem) (page : Z) : Prop :=
  own_path K m (va_path page) ∧ kfree K m (va_path page) (va_index 0 page).

(** ** Steps that keep the other processes *)

(** Space [n] may change, the others may not. *)
Record kept A (n : Z) s s' : Prop := {
  kp_ok : vm_ok K A s';
  kp_extends : extends s s';
  kp_user page : user_ok (ph_mem s') page ↔ user_ok (ph_mem s) page;
  kp_others b q j : b ∈ A → pos q j → b ≠ n →
    user_page (ph_mem s') b q j = user_page (ph_mem s) b q j ∧
    can_write (ph_mem s') b q j = can_write (ph_mem s) b q j;
}.

Lemma kept_refl A n s : vm_ok K A s → kept A n s s.
Proof. by split. Qed.

Lemma user_kept_trans A n s1 s2 s3 : kept A n s1 s2 → kept A n s2 s3 → kept A n s1 s3.
Proof.
  intros [H1 H2 H3 H4] [G1 G2 G3 G4]. split; [done|by trans s2| |].
  - intros page. by rewrite G3.
  - intros b q j Hb Hp Hn. destruct (G4 b q j Hb Hp Hn) as [-> ->]. auto.
Qed.

(** Every page of [n] but the one at [page] stays as it is. *)
Definition rest_same (n page : Z) s s' : Prop :=
  ∀ va, 0 ≤ va < 2 ^ 47 → page_of va ≠ page →
    page_view (ph_mem s') n va = page_view (ph_mem s) n va ∧
    write_view (ph_mem s') n va = write_view (ph_mem s) n va.

(** A page of [n] with its frame to itself. *)
Definition private_page A (n page f : Z) s : Prop :=
  (∃ e, user_leaf (ph_mem s) n (va_path page) (va_index 0 page) e ∧ pte_addr e = f) ∧
  ∀ b q j e, b ∈ A → pos q j → user_leaf (ph_mem s) b q j e → pte_addr e = f →
    (b, q, j) = (n, va_path page, va_index 0 page).

Lemma page_pos va : pos (va_path va) (va_index 0 va).
Proof. apply va_pos_pos. Qed.

Lemma page_ne (n page va : Z) :
  0 ≤ page < 2 ^ 47 → page mod 4096 = 0 → 0 ≤ va < 2 ^ 47 → page_of va ≠ page →
  (n, va_path va, va_index 0 va) ≠ (n, va_path page, va_index 0 page).
Proof.
  intros Hp Hm Hva Hne [= H3 H4 H5 H6]. apply Hne.
  rewrite (user_page_of_inj va page); [unfold page_of; lia|lia|lia| |done].
  unfold va_path. congruence.
Qed.

Lemma user_ok_quiet A s s' page : quiet K A s s' → vm_ok K A s →
  user_ok (ph_mem s') page ↔ user_ok (ph_mem s) page.
Proof.
  intros Hq Hok. unfold user_ok. rewrite (quiet_own K A s s') by done.
  split; intros [Ho Hk]; (split; [done|]); apply (quiet_kfree K A s s' Hq); try done; apply Ho.
Qed.

(** Writing into a private frame. *)
Lemma private_fill A n page f s s' :
  vm_ok K A s → n ∈ A → 0 ≤ page < 2 ^ 47 → page mod 4096 = 0 →
  private_page A n page f s →
  ph_fa s' = ph_fa s → (∀ g, g ≠ f → page_at (ph_mem s') g = page_at (ph_mem s) g) →
  kept A n s s' ∧ rest_same n page s s' ∧ private_page A n page f s' ∧
  page_view (ph_mem s') n page = Some (page_at (ph_mem s') f) ∧
  write_view (ph_mem s') n page = write_view (ph_mem s) n page.
Proof.
  intros Hok Hn Hpage Hal [(e&Hul&<-) Hpriv] Hfa Hm.
  destruct (private_write K A s s' n (va_path page) (va_index 0 page) e)
    as (Hq&Hok'&Hpg&Hpg'&Hw&Hoth); [done|done|apply page_pos|done|done|done|done|].
  split_and!.
  - split; [done|by split; rewrite Hfa| |].
    + intros page'. by apply user_ok_quiet with A.
    + intros b q j Hb Hp Hne. split; [|by apply Hw]. apply Hoth; [done..|congruence].
  - intros va Hva Hne. split; [|by apply Hw, page_pos].
    apply Hoth; [done|apply page_pos|]. by apply page_ne.
  - assert (space K A n) as Hns by (by left). pose proof (page_pos page) as (Hp&_&Hi). split.
    + exists e. split; [|done]. by apply (quiet_user K A s s').
    + intros b q j e' Hb Hp' Hu Heq. pose proof Hp' as (Hpq&_&Hj). apply (Hpriv b q j e'); try done.
      apply (quiet_user K A s s'); try done. by left.
  - done.
  - by apply Hw, page_pos.
Qed.

(** ** One new page *)

Lemma map_new_page_spec A n page fl m1 m2 s r s' :
  vm_ok K A s → n ∈ A → 0 ≤ page < 2 ^ 47 → page mod 4096 = 0 → user_ok (ph_mem s) page →
  flags_ok fl → contains fl USER_ACCESSIBLE = true →
  map_new_page n page fl m1 m2 s = (r, s') →
  match r with
  | Ok f =>
      kept A n s s' ∧ rest_same n page s s' ∧ private_page A n page f s' ∧
      page_view (ph_mem s) n page = None ∧ page_view (ph_mem s') n page = Some ∅ ∧
      page_at (ph_mem s') f = ∅ ∧
      write_view (ph_mem s') n page = contains fl WRITABLE ∧ f mod 4096 = 0
  | Err _ => kept A n s s'
  | _ => False
  end.
Proof.
  intros Hok Hn Hpage Hal [Hown Hkf] Hfl Hus Hrun. unfold map_new_page, frame_or_err, sbind in Hrun.
  destruct (alloc_frame s) as [[f|] s1] eqn:Hf.
  2:{ injection Hrun as <- <-. apply alloc_frame_None in Hf as [Hx Hm].
      destruct (quiet_views_refl K A s s1 Hok Hx Hm) as [Hok1 Hv]. split; [done|done| |].
      - intros page'. by rewrite Hm.
      - intros b q j Hb Hp _. by apply Hv. }
  unfold catch in Hrun. destruct (map_to n page f fl s1) as [rm s2] eqn:Hmap.
  destruct (map_fresh_page K A s s1 s1 s2 n page f fl rm) as ([F1 F2 F3 F4 F5 F6 F7]&Hnp&Hnd); [done..|].
  apply alloc_frame_Some in Hf as (_&_&[Hfut _]&_); [|apply Hok].
  assert (kept A n s s2) as Hkept.
  { split; [done|done| |].
    - intros page'. unfold user_ok. rewrite F3. split; intros [Ho Hk]; (split; [done|]);
        apply F4; try done; apply Ho.
    - intros b q j Hb Hp Hne. apply F5; [done..|congruence]. }
  destruct rm as [[]|em| |]; [|injection Hrun as <- <-; done|done..].
  injection Hrun as <- <-. destruct F6 as (F8&F9&F10). destruct (F7 eq_refl) as [Fl Fu].
  set (s3 := Phys (zero_page (ph_mem s2) f) (ph_fa s2)).
  destruct (private_fill A n page f s2 s3) as (Hk3&Hr3&Hp3&Hv3&Hw3); [done|done|done|done|by split|done| |].
  { intros g Hg. unfold s3, zero_page. cbn [ph_mem]. by rewrite page_at_insert, decide_False. }
  assert (page_at (ph_mem s3) f = ∅) as Hz.
  { unfold s3, zero_page. cbn [ph_mem]. by rewrite page_at_insert, decide_True. }
  split_and!; [by apply (user_kept_trans A n s s2)| |done|done|by rewrite <-Hz|done| |].
  - intros va Hva Hne. destruct (Hr3 va Hva Hne) as [-> ->].
    apply F5; [done|apply page_pos|]. by apply page_ne.
  - by rewrite Hw3.
  - destruct (future_frame_ok s f) as [Hfo _]; [apply Hok|done|].
    unfold frame_ok in Hfo. rewrite <-Hfo.
    assert (Z.land f ADDR_MASK mod 4096 = Z.land (Z.land f ADDR_MASK) (Z.ones 12)) as ->
      by (rewrite Z.land_ones by lia; done).
    rewrite <-Z.land_assoc. change (Z.land ADDR_MASK (Z.ones 12)) with 0. by rewrite Z.land_0_r.
Qed.
(** ** The pages loaded so far *)

(** A page, its bytes by address, whether it is writable. *)
Record loaded_page := Loaded { lp_addr : Z; lp_byte : Z → Z; lp_write : bool }.

Record loading A (n : Z) s0 (lps : list loaded_page) s : Prop := {
  ld_kept : kept A n s0 s;
  ld_pages lp : lp ∈ lps → 0 ≤ lp_addr lp < 2 ^ 47 ∧ lp_addr lp mod 4096 = 0 ∧
    write_view (ph_mem s) n (lp_addr lp) = lp_write lp ∧
    ∃ pg, page_view (ph_mem s) n (lp_addr lp) = Some pg ∧
      ∀ k, 0 ≤ k < 4096 → page_byte pg k = lp_byte lp (lp_addr lp + k);
  ld_rest va : 0 ≤ va < 2 ^ 47 → page_of va ∉ lp_addr <$> lps → page_view (ph_mem s) n va = None;
}.

Lemma page_of_page page : page mod 4096 = 0 → page_of page = page.
Proof. unfold page_of. lia. Qed.

Lemma loading_step A n s0 lps s s' page c w pg :
  n ∈ A → loading A n s0 lps s → 0 ≤ page < 2 ^ 47 → page mod 4096 = 0 →
  kept A n s s' → rest_same n page s s' →
  page_view (ph_mem s) n page = None → page_view (ph_mem s') n page = Some pg →
  (∀ k, 0 ≤ k < 4096 → page_byte pg k = c (page + k)) →
  write_view (ph_mem s') n page = w →
  loading A n s0 (lps ++ [Loaded page c w]) s'.
Proof.
  intros Hn [Hk Hp Hr] Hpage Hal Hk' Hrest Hnone Hpg Hc Hw. split.
  - by apply (user_kept_trans A n s0 s).
  - intros lp [Hin|Hin]%elem_of_app.
    + destruct (Hp lp Hin) as (H1&H2&H3&pg'&H4&H5).
      destruct (Hrest (lp_addr lp) H1) as [Hv1 Hv2].
      { rewrite page_of_page by done. intros Heq. rewrite Heq in H4. congruence. }
      split_and!; [lia|lia|done|by rewrite Hv2|]. exists pg'. by rewrite Hv1.
    + apply list_elem_of_singleton in Hin as ->. simpl. split_and!; [lia|lia|done|done|]. eauto.
  - intros va Hva Hnin. rewrite fmap_app in Hnin. cbn in Hnin.
    assert (page_of va ∉ lp_addr <$> lps ∧ page_of va ≠ page) as [G1 G2].
    { split; intros Hin; apply Hnin, elem_of_app; [by left|right]. rewrite Hin. by apply list_elem_of_singleton. }
    destruct (Hrest va Hva G2) as [-> _]. auto.
Qed.

(** The bytes of a segment in memory. *)
Definition segment_byte (data : bytes) (seg : Segment) (lv va : Z) : Z :=
  if decide (lv ≤ va < lv + seg_filesz seg)
  then data !!! Z.to_nat (seg_offset seg + (va - lv)) else 0.
Definition seg_writable (seg : Segment) : bool := negb (Z.land (seg_flags seg) PF_W =? 0).

Lemma segment_flags_props fl :
  flags_ok (segment_flags fl) ∧ contains (segment_flags fl) USER_ACCESSIBLE = true ∧
  contains (segment_flags fl) WRITABLE = negb (Z.land fl PF_W =? 0).
Proof. unfold segment_flags. destruct (Z.land fl PF_W =? 0), (Z.land fl PF_X =? 0); by vm_compute. Qed.

(** The file's header describes memory in the lower half. *)
Record segment_wf (data : bytes) (lv : Z) (seg : Segment) : Prop := {
  sw_low : 0 ≤ lv;
  sw_high : lv + seg_memsz seg < 2 ^ 47;
  sw_memsz : 0 < seg_memsz seg;
  sw_filesz : 0 ≤ seg_filesz seg ≤ seg_memsz seg;
  sw_offset : 0 ≤ seg_offset seg < 2 ^ 63;
}.

Lemma copy_segment_page_spec data seg lv page f s r s' :
  Forall byte_ok data → len data < 2 ^ 63 → segment_wf data lv seg →
  0 ≤ page < 2 ^ 47 → page mod 4096 = 0 → f mod 4096 = 0 → page_at (ph_mem s) f = ∅ →
  copy_segment_page data seg lv page f s = (r, s') →
  match r with
  | Ok _ => ph_fa s' = ph_fa s ∧ (∀ g, g ≠ f → page_at (ph_mem s') g = page_at (ph_mem s) g) ∧
      ∀ k, 0 ≤ k < 4096 → page_byte (page_at (ph_mem s') f) k = segment_byte data seg lv (page + k)
  | Err _ => s' = s
  | _ => False
  end.
Proof.
  intros Hdata Hlen [W1 W2 W3 W4 W5] Hpage Hal Hf Hz Hrun. unfold copy_segment_page in Hrun.
  assert (∀ k, (∀ va, ¬ (lv ≤ va < lv + seg_filesz seg ∧ page ≤ va < page + 4096)) → 0 ≤ k < 4096 →
    page_byte (page_at (ph_mem s) f) k = segment_byte data seg lv (page + k)) as Hnone.
  { intros k Hn Hk. rewrite Hz, page_byte_zero. unfold segment_byte.
    rewrite decide_False; [done|]. intros Hin. apply (Hn (page + k)). lia. }
  destruct (Z.eqb_spec (seg_filesz seg) 0) as [H0|H0].
  { injection Hrun as <- <-. split_and!; [done|done|]. intros k Hk. apply Hnone; [|done]. intros va. lia. }
  rewrite (wrap_small 64 (lv + seg_filesz seg)) in Hrun by lia.
  destruct (Z.ltb_spec (Z.max page lv) (Z.min (page + 4096) (lv + seg_filesz seg))) as [Hlt|Hge].
  2:{ injection Hrun as <- <-. split_and!; [done|done|]. intros k Hk. apply Hnone; [|done]. intros va. lia. }
  set (cs := Z.max page lv) in *. set (ce := Z.min (page + 4096) (lv + seg_filesz seg)) in *.
  assert (page ≤ cs ∧ lv ≤ cs ∧ ce ≤ page + 4096 ∧ ce ≤ lv + seg_filesz seg) as (B1&B2&B3&B4) by lia.
  assert (cs = page ∨ cs = lv) as B5 by lia.
  assert (ce = page + 4096 ∨ ce = lv + seg_filesz seg) as B6 by lia. clearbody cs ce.
  rewrite (wrap_small 64 (seg_offset seg + (cs - lv))) in Hrun by lia.
  rewrite (wrap_small 64 (seg_offset seg + (cs - lv) + (ce - cs))) in Hrun by lia.
  destruct (Z.ltb_spec (len data) (seg_offset seg + (cs - lv) + (ce - cs))) as [Hb|Hb].
  { by injection Hrun as <- <-. }
  destruct (Z.ltb_spec (seg_offset seg + (cs - lv) + (ce - cs)) (seg_offset seg + (cs - lv))); [lia|].
  injection Hrun as <- <-. set (bs := slice _ _ data). unfold len in *.
  assert (length bs = Z.to_nat (ce - cs)) as Hbl.
  { unfold bs. rewrite length_slice; lia. }
  assert (Forall byte_ok bs) as Hbok by (by apply Forall_take, Forall_drop).
  cbn [ph_mem ph_fa]. split_and!; [done| |].
  - intros g Hg. apply page_at_write_bytes. intros x Hx. unfold frame_of. lia.
  - intros k Hk. rewrite <-(pbyte_frame _ f k) by done. rewrite pbyte_write_bytes by done.
    rewrite pbyte_frame by done. rewrite Hbl. unfold segment_byte.
    destruct (decide (lv ≤ page + k < lv + seg_filesz seg)) as [Hin|Hout].
    + rewrite decide_True by lia. apply list_lookup_total_correct. unfold bs.
      rewrite lookup_slice. rewrite decide_True by lia.
      rewrite list_lookup_lookup_total_lt by lia. do 2 f_equal. lia.
    + rewrite decide_False by lia. by rewrite Hz, page_byte_zero.
Qed.

Lemma load_page_spec A n data seg lv page lps s0 s r s' :
  n ∈ A → Forall byte_ok data → len data < 2 ^ 63 → segment_wf data lv seg →
  0 ≤ page < 2 ^ 47 → page mod 4096 = 0 → user_ok (ph_mem s0) page →
  loading A n s0 lps s → load_page data n seg lv page s = (r, s') →
  match r with
  | Ok _ => loading A n s0 (lps ++ [Loaded page (segment_byte data seg lv) (seg_writable seg)]) s'
  | Err _ => kept A n s0 s'
  | _ => False
  end.
Proof.
  intros Hn Hdata Hlen Hwf Hpage Hal Hus Hld Hrun. pose proof Hld as [Hk _ _].
  unfold load_page in Hrun. rewrite virt_addr_low in Hrun by done.
  change (slift (or_panic (Some page)) s) with (Ok (E:=string) page, s) in Hrun.
  destruct (segment_flags_props (seg_flags seg)) as (Hf1&Hf2&Hf3).
  unfold sbind, slift, or_panic in Hrun.
  destruct (map_new_page n page _ _ _ s) as [rm s1] eqn:Hm.
  apply (map_new_page_spec A) in Hm; [|apply Hk|done|done|done|by apply (kp_user _ _ _ _ Hk)|done|done].
  destruct rm as [f|em| |]; [|injection Hrun as <- <-; by apply (user_kept_trans A n s0 s)|done..].
  destruct Hm as (Hk1&Hr1&Hp1&Hnone&Hv1&Hz1&Hw1&Hfal).
  apply copy_segment_page_spec in Hrun; [|done..].
  destruct r as [[]|e| |]; [|subst s'; by apply (user_kept_trans A n s0 s)|done..].
  destruct Hrun as (Hfa&Hg&Hbytes).
  destruct (private_fill A n page f s1 s') as (Hk2&Hr2&_&Hv2&Hw2); [apply Hk1|done..|].
  apply (loading_step A n s0 lps s s' page _ _ (page_at (ph_mem s') f)); try done.
  - by apply (user_kept_trans A n s s1).
  - intros va Hva Hne. destruct (Hr2 va Hva Hne) as [-> ->]. by apply Hr1.
  - by rewrite Hw2, Hw1, Hf3.
Qed.
(** ** A segment, all segments *)

Definition segment_pages (lv : Z) (seg : Segment) : list Z :=
  range_inclusive (page_of lv) (page_of (lv + seg_memsz seg - 1)).
Definition segment_loaded (data : bytes) (base : Z) (seg : Segment) : list loaded_page :=
  let lv := base + seg_vaddr seg in
  (λ page, Loaded page (segment_byte data seg lv) (seg_writable seg)) <$> segment_pages lv seg.

Lemma elem_of_range_inclusive start last page :
  start mod 4096 = 0 → last mod 4096 = 0 →
  page ∈ range_inclusive start last ↔ start ≤ page ≤ last ∧ page mod 4096 = 0.
Proof.
  intros Hs Hl. unfold range_inclusive. rewrite list_elem_of_fmap. setoid_rewrite elem_of_seqZ. split.
  - intros (t&->&Ht). lia.
  - intros [Hp Hm]. exists ((page - start) / 4096). lia.
Qed.

Lemma elem_of_segment_pages lv seg page :
  page ∈ segment_pages lv seg ↔ page_of lv ≤ page ≤ page_of (lv + seg_memsz seg - 1) ∧ page mod 4096 = 0.
Proof. apply elem_of_range_inclusive; unfold page_of; lia. Qed.

Lemma load_pages_spec A n data seg lv pages lps s0 s r s' :
  n ∈ A → Forall byte_ok data → len data < 2 ^ 63 → segment_wf data lv seg →
  Forall (λ page, 0 ≤ page < 2 ^ 47 ∧ page mod 4096 = 0 ∧ user_ok (ph_mem s0) page) pages →
  loading A n s0 lps s → sfor pages (load_page data n seg lv) s = (r, s') →
  match r with
  | Ok _ => loading A n s0
      (lps ++ ((λ page, Loaded page (segment_byte data seg lv) (seg_writable seg)) <$> pages)) s'
  | Err _ => kept A n s0 s'
  | _ => False
  end.
Proof.
  intros Hn Hd Hl Hw Hp. revert lps s. induction Hp as [|page pages (H1&H2&H3) Hp IH]; intros lps s Hld Hrun.
  - injection Hrun as <- <-. by rewrite app_nil_r.
  - cbn [sfor] in Hrun. unfold sbind in Hrun.
    destruct (load_page data n seg lv page s) as [r1 s1] eqn:H4.
    apply (load_page_spec A n data seg lv page lps s0) in H4; [|done..].
    destruct r1 as [[]|e| |]; [|injection Hrun as <- <-; done|done..].
    specialize (IH _ _ H4 Hrun). destruct r as [[]|e| |]; try done.
    rewrite fmap_cons, cons_middle, app_assoc. done.
Qed.

Definition segment_ok (data : bytes) (base : Z) (m : pmem) (seg : Segment) : Prop :=
  let lv := base + seg_vaddr seg in
  segment_wf data lv seg ∧ 0 ≤ seg_vaddr seg ∧ ∀ page, page ∈ segment_pages lv seg → user_ok m page.

Lemma load_segment_spec A n data base seg lps s0 s r s' :
  n ∈ A → Forall byte_ok data → len data < 2 ^ 63 → segment_ok data base (ph_mem s0) seg →
  loading A n s0 lps s → load_segment data n base seg s = (r, s') →
  match r with
  | Ok _ => loading A n s0 (lps ++ segment_loaded data base seg) s'
  | Err _ => kept A n s0 s'
  | _ => False
  end.
Proof.
  intros Hn Hd Hl (Hwf&Hv&Hus) Hld Hrun. pose proof Hwf as [W1 W2 W3 W4 W5].
  unfold load_segment in Hrun. rewrite (wrap_small 64 (base + seg_vaddr seg)) in Hrun by lia.
  rewrite (wrap_small 64 (base + seg_vaddr seg + seg_memsz seg)) in Hrun by lia.
  rewrite (wrap_small 64) in Hrun by lia. rewrite !virt_addr_low in Hrun by lia.
  unfold sbind, slift, or_panic in Hrun. unfold frame_containing in Hrun.
  fold (page_of (base + seg_vaddr seg)) in Hrun.
  fold (page_of (base + seg_vaddr seg + seg_memsz seg - 1)) in Hrun.
  fold (segment_pages (base + seg_vaddr seg) seg) in Hrun.
  apply (load_pages_spec A n data seg (base + seg_vaddr seg) _ lps s0) in Hrun; try done.
  apply Forall_forall. intros page Hin. split; [|split; [|by apply Hus]];
    apply elem_of_segment_pages in Hin; unfold page_of in Hin; lia.
Qed.

Lemma load_segments_spec A n data base segs lps s0 s r s' :
  n ∈ A → Forall byte_ok data → len data < 2 ^ 63 → Forall (segment_ok data base (ph_mem s0)) segs →
  loading A n s0 lps s → sfor segs (load_segment data n base) s = (r, s') →
  match r with
  | Ok _ => loading A n s0 (lps ++ (segs ≫= segment_loaded data base)) s'
  | Err _ => kept A n s0 s'
  | _ => False
  end.
Proof.
  intros Hn Hd Hl Hs. revert lps s. induction Hs as [|seg segs Hok Hs IH]; intros lps s Hld Hrun.
  - injection Hrun as <- <-. by rewrite app_nil_r.
  - cbn [sfor] in Hrun. unfold sbind in Hrun.
    destruct (load_segment data n base seg s) as [r1 s1] eqn:H4.
    apply (load_segment_spec A n data base seg lps s0) in H4; [|done..].
    destruct r1 as [[]|e| |]; [|injection Hrun as <- <-; done|done..].
    specialize (IH _ _ H4 Hrun). destruct r as [[]|e| |]; try done.
    rewrite bind_cons, app_assoc. done.
Qed.

(** ** The stack *)

Definition stack_flags : Z := Z.lor (Z.lor (Z.lor PRESENT WRITABLE) USER_ACCESSIBLE) NO_EXECUTE.
Definition zero_loaded (page : Z) : loaded_page := Loaded page (λ _, 0) true.
Definition stack_page (i : Z) : Z := USER_STACK_TOP - STACK_PAGES * 4096 + i * 4096.
Definition stack_top : Z := USER_STACK_TOP - 4096.

Lemma new_stack_page A n page lps s0 s r s' :
  n ∈ A → 0 ≤ page < 2 ^ 47 → page mod 4096 = 0 → user_ok (ph_mem s0) page → loading A n s0 lps s →
  map_new_page n page stack_flags "out of memory for stack" "failed to map stack page" s = (r, s') →
  match r with
  | Ok f => loading A n s0 (lps ++ [zero_loaded page]) s' ∧ private_page A n page f s' ∧
      f mod 4096 = 0 ∧ page_view (ph_mem s) n page = None
  | Err _ => kept A n s0 s'
  | _ => False
  end.
Proof.
  intros Hn Hpage Hal Hus Hld Hm. pose proof Hld as [Hk _ _].
  apply (map_new_page_spec A) in Hm; [|apply Hk|done|done|done|by apply (kp_user _ _ _ _ Hk)|done|done].
  destruct r as [f|e| |]; [|by apply (user_kept_trans A n s0 s)|done..].
  destruct Hm as (Hk1&Hr1&Hp1&Hnone&Hv1&Hz1&Hw1&Hfal). split_and!; [|done..].
  apply (loading_step A n s0 lps s s' page _ _ ∅); try done. intros k _. apply page_byte_zero.
Qed.

Lemma map_stack_app n ps qs top s :
  map_stack n (ps ++ qs) top s = (let! t := map_stack n ps top in map_stack n qs t) s.
Proof.
  revert top s. induction ps as [|p ps IH]; intros top s; [done|]. cbn [app map_stack]. unfold sbind, slift in *.
  destruct (or_panic (virt_addr p)) as [page|e| |]; try done.
  destruct (map_new_page _ _ _ _ _ s) as [[f|e| |] s1]; try done; apply IH.
Qed.

Lemma map_stack_spec A n pages top lps s0 s r s' :
  n ∈ A → Forall (λ page, 0 ≤ page < 2 ^ 47 ∧ page mod 4096 = 0 ∧ user_ok (ph_mem s0) page) pages →
  loading A n s0 lps s → map_stack n pages top s = (r, s') →
  match r with
  | Ok _ => loading A n s0 (lps ++ (zero_loaded <$> pages)) s'
  | Err _ => kept A n s0 s'
  | _ => False
  end.
Proof.
  intros Hn Hp. revert top lps s. induction Hp as [|page pages (H1&H2&H3) Hp IH]; intros top lps s Hld Hrun.
  - injection Hrun as <- <-. by rewrite app_nil_r.
  - cbn [map_stack] in Hrun. rewrite virt_addr_low in Hrun by done.
    unfold sbind at 1 in Hrun. unfold slift, or_panic in Hrun. unfold sbind in Hrun. fold stack_flags in Hrun.
    destruct (map_new_page n page stack_flags _ _ s) as [r1 s1] eqn:H4.
    apply (new_stack_page A n page lps s0) in H4; [|done..].
    destruct r1 as [f|e| |]; [|injection Hrun as <- <-; done|done..].
    destruct H4 as [H4 _]. specialize (IH _ _ _ H4 Hrun). destruct r as [[]|e| |]; try done;
      rewrite fmap_cons, cons_middle, app_assoc; done.
Qed.
(** ** The whole image *)

Lemma page_of_views m a va : 0 ≤ va →
  page_view m a (page_of va) = page_view m a va ∧ write_view m a (page_of va) = write_view m a va.
Proof.
  intros Hva. destruct (page_of_key (page_of va) va) as [H1 H2]; [unfold page_of; lia|done|unfold page_of; lia|].
  unfold page_view, write_view. by rewrite H1, H2.
Qed.

Lemma loaded_bytes A n s0 lps s lp va :
  loading A n s0 lps s → lp ∈ lps → 0 ≤ va < 2 ^ 47 → lp_addr lp = page_of va →
  byte_view (ph_mem s) n va = Some (lp_byte lp va) ∧ write_view (ph_mem s) n va = lp_write lp.
Proof.
  intros Hld Hin Hva Hlp. destruct (ld_pages _ _ _ _ _ Hld lp Hin) as (_&_&Hw&pg&Hpg&Hb).
  rewrite Hlp in *. destruct (page_of_views (ph_mem s) n va) as [Hv Hwv]; [lia|].
  rewrite Hv in Hpg. rewrite Hwv in Hw. split; [|done]. unfold byte_view. rewrite Hpg. simpl. f_equal.
  rewrite Hb by lia. f_equal. unfold page_of. lia.
Qed.

(** The pages but the top of the stack keep their bytes when it is filled. *)
Lemma filled_bytes A n s0 lps s3 s4 s5 lp va :
  loading A n s0 lps s3 → page_view (ph_mem s3) n stack_top = None →
  loading A n s0 (lps ++ [zero_loaded stack_top]) s4 → rest_same n stack_top s4 s5 →
  lp ∈ lps → 0 ≤ va < 2 ^ 47 → lp_addr lp = page_of va →
  byte_view (ph_mem s5) n va = Some (lp_byte lp va) ∧ write_view (ph_mem s5) n va = lp_write lp.
Proof.
  intros H3 Hnone H4 Hr Hin Hva Hlp.
  assert (page_of va ≠ stack_top) as Hne.
  { intros Heq. destruct (ld_pages _ _ _ _ _ H3 lp Hin) as (_&_&_&pg&Hpg&_).
    rewrite Hlp, Heq in Hpg. congruence. }
  destruct (Hr va Hva Hne) as [Hv Hw].
  destruct (loaded_bytes A n s0 _ s4 lp va H4) as [Hb Hw4]; [by apply elem_of_app; left|done|done|].
  unfold byte_view in *. by rewrite Hv, Hw.
Qed.

Lemma on_phys_run {E R} (f : stm phys E R) mm r mm' :
  on_phys f mm = (r, mm') →
  f (mm_phys mm) = (r, mm_phys mm') ∧ user_page_tables mm' = user_page_tables mm.
Proof. unfold on_phys. intros [= H1 <-]. simpl. split; [by rewrite <-H1, <-surjective_pairing|done]. Qed.

(** No step of [create_user_mapper] can run forever. *)
Lemma sfor_not_diverge {St E X} (l : list X) (f : X → stm St E unit) :
  (∀ x st, (f x st).1 ≠ Diverge) → ∀ st, (sfor l f st).1 ≠ Diverge.
Proof. intros Hf. induction l as [|x l IH]; intros st; [done|]. by apply sbind_not_diverge; [|intros]. Qed.

Lemma deep_copy_not_diverge k src s : (deep_copy_table k src s).1 ≠ Diverge.
Proof.
  revert src s. induction k as [|k IH]; intros src s; cbn [deep_copy_table];
    (apply sbind_not_diverge; [unfold alloc_expect; by destruct (alloc_frame s) as [[]]|]); intros dst s1;
    (apply sbind_not_diverge; [done|]); intros ? s2;
    (apply sbind_not_diverge; [|done]); apply sfor_not_diverge; intros i s3;
    (apply sbind_not_diverge; [done|]); intros e s4; destruct (is_unused e); try done.
  destruct (contains _ _); [done|]. apply sbind_not_diverge; [apply IH|done].
Qed.

Lemma create_not_diverge cr3 s : (create_user_mapper cr3 s).1 ≠ Diverge.
Proof.
  unfold create_user_mapper.
  apply sbind_not_diverge; [unfold alloc_expect; by destruct (alloc_frame s) as [[]]|]. intros l4 s1.
  apply sbind_not_diverge; [done|]. intros ? s2.
  apply sbind_not_diverge; [by destruct cr3|]. intros k s3.
  apply sbind_not_diverge; [by apply sfor_not_diverge|]. intros ? s4.
  apply sbind_not_diverge; [done|]. intros k0 s5. destruct (_ || _); [done|].
  apply sbind_not_diverge; [apply deep_copy_not_diverge|done].
Qed.

Lemma created_loading A s s1 n :
  vm_ok K A s → created K A s s1 n →
  loading (A ∪ {[n]}) n s1 [] s1 ∧ (∀ page, user_ok (ph_mem s1) page ↔ user_ok (ph_mem s) page) ∧ n ∉ A ∧
  ∀ b q j, b ∈ A → pos q j → user_page (ph_mem s1) b q j = user_page (ph_mem s) b q j ∧
    can_write (ph_mem s1) b q j = can_write (ph_mem s) b q j.
Proof.
  intros Hok Hc. split_and!.
  - split; [by apply kept_refl, Hc|by intros lp Hlp%elem_of_nil|]. intros va Hva _.
    unfold page_view, user_page. pose proof (page_pos va) as (Hp&_&Hi).
    destruct (leaf (ph_mem s1) n (va_path va) (va_index 0 va)) as [e|] eqn:He; [|done].
    destruct (user e) eqn:Hu; [|done].
    by destruct (cr_empty _ _ _ _ _ Hc (va_path va) (va_index 0 va) e Hp Hi).
  - intros page. apply user_ok_quiet with A; [apply Hc|done].
  - intros Hin. destruct (cr_taken _ _ _ _ _ Hc) as [Hf _].
    by apply (vo_used _ _ _ Hok n [] n (or_introl Hin) tpath_nil).
  - intros b q j Hb (Hq&Hl&Hj). assert (space K A b) as Hbs by (by left).
    assert (∀ e, user_leaf (ph_mem s1) b q j e ↔ user_leaf (ph_mem s) b q j e) as Hul
      by (intros e; by apply (quiet_user K A _ _ (cr_quiet _ _ _ _ _ Hc))). split.
    + apply user_page_eq; [done| |intros e He; exists e; by apply Hul].
      intros e He. exists e. split; [by apply Hul|]. apply (cr_pages _ _ _ _ _ Hc).
      intros [Hfut _]. by apply (vo_live _ _ _ Hok b q j e).
    + apply eq_true_iff_eq. rewrite !can_write_leaf by done. by setoid_rewrite Hul.
Qed.
End load.
