(* ===== verification/ElfProps.v ===== *)
(** * The loader: properties

    Loading as a whole, relocations, symbol lookup and the parser's limits. *)

From S2P Require Import Prelude Frames Paging PagingRef Memory MemorySpec MemoryCopy MemoryFork MemoryProps MemorySteps MemoryRefine Bytes Elf ElfStack ElfLoad.

#[local] Ltac Zify.zify_post_hook ::= Z.to_euclidean_division_equations.

Section props.
Context `{Pg : Paging} `{PgL : !PagingLaws} `{Ad : Addresses} `{AdL : !AddressesLaws}.
Context (K : Z).
Implicit Types (A : gset Z) (s : phys).

(** ** The steps of [load] after the address space exists *)

Definition load_base (b : ElfBinary) : Z := if elf_is_dynamic b then DYNAMIC_LOAD_BASE else 0.

(** Segments, relocations, stack and start-up data, in space [n]. *)
Definition fill_space (b : ElfBinary) (data : bytes) (args envs : list bytes) (n : Z)
  : stm phys string Z :=
  let! _ := sfor (elf_segments b) (load_segment data n (load_base b)) in
  let! _ := (if elf_is_dynamic b then apply_relocations b data (load_base b) n else sret tt) in
  let! top := map_stack n (stack_page <$> seqZ 0 STACK_PAGES) None in
  setup_user_stack top stack_top 4096 args envs.

Record filled n (b : ElfBinary) (data : bytes) (args envs : list bytes) s (sp : Z) : Prop := {
  fl_segments seg va : seg ∈ elf_segments b →
    let lv := load_base b + seg_vaddr seg in lv ≤ va < lv + seg_memsz seg →
    byte_view (ph_mem s) n va = Some (segment_byte data seg lv va) ∧
    write_view (ph_mem s) n va = seg_writable seg;
  fl_stack va : USER_STACK_TOP - STACK_PAGES * 4096 ≤ va < USER_STACK_TOP →
    write_view (ph_mem s) n va = true;
  fl_sp : stack_top ≤ sp < USER_STACK_TOP ∧ sp mod 16 = 0;
  fl_start : ∃ pg, page_view (ph_mem s) n stack_top = Some pg ∧
    read_start (λ va, page_byte pg (va - stack_top)) sp =
      Some (StartInfo (Z.of_nat (length args)) args envs (0, 0));
}.

(** What the file and the kernel have to fulfil. *)
Record loadable (b : ElfBinary) (data : bytes) (m : pmem) : Prop := {
  lo_bytes : Forall byte_ok data;
  lo_len : len data < 2 ^ 63;
  lo_segments : Forall (segment_ok K data (load_base b) m) (elf_segments b);
  lo_stack page : page ∈ stack_page <$> seqZ 0 STACK_PAGES → user_ok K m page;
}.

Lemma stack_pages_eq : stack_page <$> seqZ 0 STACK_PAGES = (stack_page <$> seqZ 0 7) ++ [stack_top].
Proof. reflexivity. Qed.

Lemma stack_page_low page : page ∈ stack_page <$> seqZ 0 STACK_PAGES → 0 ≤ page < 2 ^ 47 ∧ page mod 4096 = 0.
Proof.
  intros (i&->&Hi%elem_of_seqZ)%list_elem_of_fmap.
  unfold stack_page, STACK_PAGES, USER_STACK_TOP in *. lia.
Qed.

Lemma top_page A n lps s0 s r s' :
  n ∈ A → user_ok K (ph_mem s0) stack_top → loading K A n s0 lps s →
  map_stack n [stack_top] None s = (r, s') →
  match r with
  | Ok top => ∃ f, top = Some f ∧ loading K A n s0 (lps ++ [zero_loaded stack_top]) s' ∧
      private_page A n stack_top f s' ∧ f mod 4096 = 0 ∧ page_view (ph_mem s) n stack_top = None
  | Err _ => kept K A n s0 s'
  | _ => False
  end.
Proof.
  intros Hn Hus Hld Hrun. cbn [map_stack] in Hrun. rewrite virt_addr_low in Hrun by done.
  unfold sbind, slift, or_panic in Hrun. fold stack_flags in Hrun.
  destruct (map_new_page n stack_top stack_flags _ _ s) as [r1 s1] eqn:Hm.
  apply (new_stack_page K A n stack_top lps s0) in Hm; [|done..].
  destruct r1 as [f|e| |]; [|by injection Hrun as <- <-|done..].
  change (stack_top =? USER_STACK_TOP - 4096) with true in Hrun. injection Hrun as <- <-.
  destruct Hm as (?&?&?&?). by exists f.
Qed.

Lemma fill_space_spec A b data args envs n s1 r s' :
  n ∈ A → loading K A n s1 [] s1 → loadable b data (ph_mem s1) →
  (elf_is_dynamic b = true → rela_addr (elf_dynamic b) = None) →
  Forall cstring args → Forall cstring envs →
  fill_space b data args envs n s1 = (r, s') →
  match r with
  | Ok sp => kept K A n s1 s' ∧ filled n b data args envs s' sp
  | Err _ => kept K A n s1 s'
  | _ => False
  end.
Proof.
  intros Hn Hld [Hbytes Hlen Hsegs Hst] Hnr Ha He Hrun. unfold fill_space in Hrun.
  unfold sbind at 1 in Hrun.
  destruct (sfor (elf_segments b) (load_segment data n (load_base b)) s1) as [r2 s2] eqn:H2.
  apply (load_segments_spec K A n data (load_base b) _ [] s1) in H2; [|done..]. simpl in H2.
  destruct r2 as [[]|e| |]; [|by injection Hrun as <- <-|done..].
  unfold sbind at 1 in Hrun.
  assert ((if elf_is_dynamic b then apply_relocations b data (load_base b) n else sret tt) s2 = (Ok tt, s2)) as Hrel.
  { destruct (elf_is_dynamic b) eqn:Hdyn; [|done]. unfold apply_relocations. by rewrite Hdyn, Hnr. }
  rewrite Hrel in Hrun. clear Hrel.
  rewrite stack_pages_eq in *. unfold sbind at 1 in Hrun. rewrite map_stack_app in Hrun.
  unfold sbind at 1 in Hrun.
  destruct (map_stack n (stack_page <$> seqZ 0 7) None s2) as [r3 s3] eqn:H3.
  apply (map_stack_spec K A n _ None (elf_segments b ≫= segment_loaded data (load_base b)) s1) in H3; [|done| |exact H2].
  2:{ apply Forall_forall. intros page Hin.
      assert (page ∈ stack_page <$> seqZ 0 STACK_PAGES) as Hin' by (rewrite stack_pages_eq; apply elem_of_app; by left).
      destruct (stack_page_low page Hin'). split_and!; try lia. apply Hst, elem_of_app. by left. }
  destruct r3 as [top3|e| |]; [|by injection Hrun as <- <-|done..].
  set (lps := _ ++ _) in H3.
  assert (map_stack n [stack_top] top3 s3 = map_stack n [stack_top] None s3) as Htop3.
  { cbn [map_stack]. rewrite virt_addr_low by done. done. }
  rewrite Htop3 in Hrun. clear Htop3.
  destruct (map_stack n [stack_top] None s3) as [r4 s4] eqn:H4.
  apply (top_page A n lps s1) in H4; [|done| |done].
  2:{ apply Hst, elem_of_app. right. by apply list_elem_of_singleton. }
  destruct r4 as [top|e| |]; [|by injection Hrun as <- <-|done..].
  destruct H4 as (f&->&H4&Hpriv&Hf&Hnone).
  pose proof (ld_kept _ _ _ _ _ _ H4) as Hk4.
  assert (∀ s5, only_bytes s4 s5 f (f + 4096) →
    kept K A n s4 s5 ∧ rest_same n stack_top s4 s5 ∧
    page_view (ph_mem s5) n stack_top = Some (page_at (ph_mem s5) f) ∧
    write_view (ph_mem s5) n stack_top = write_view (ph_mem s4) n stack_top) as Hfill.
  { intros s5 (Hfa&_&Hpg). destruct (private_fill K A n stack_top f s4 s5) as (?&?&_&?&?); try done.
    - apply Hk4.
    - intros g Hg. apply Hpg. intros x Hx. unfold frame_of. lia. }
  destruct r as [sp|e| |].
  2:{ apply setup_user_stack_layout in Hrun as [_ Hob]; [|done..].
      destruct (Hfill s' Hob) as [Hk5 _]. by apply (user_kept_trans K A n s1 s4). }
  2,3: by apply setup_user_stack_layout in Hrun.
  pose proof Hrun as Hrun2. apply setup_user_stack_layout in Hrun2 as (_&_&Hob&_); [|done..].
  destruct (Hfill s' Hob) as (Hk5&Hr5&Hv5&Hw5).
  apply setup_user_stack_roundtrip in Hrun as (Hsp&Hal&Hread&_&_); [|done..].
  split; [by apply (user_kept_trans K A n s1 s4)|]. split.
  - intros seg va Hseg lv Hva. rewrite Forall_forall in Hsegs.
    destruct (Hsegs seg Hseg) as ([W1 W2 W3 W4 W5]&_&_).
    apply (filled_bytes K A n s1 lps s3 s4 s' (Loaded (page_of va) (segment_byte data seg lv) (seg_writable seg)));
      try done; [|lia].
    apply elem_of_app. left. apply list_elem_of_bind. exists seg. split; [|done].
    apply list_elem_of_fmap. exists (page_of va). split; [done|]. apply elem_of_segment_pages.
    unfold lv in Hva. unfold page_of. lia.
  - intros va Hva. assert (0 ≤ va < 2 ^ 47) as Hlow by (unfold USER_STACK_TOP, STACK_PAGES in Hva; lia).
    destruct (decide (page_of va = stack_top)) as [Heq|Hne].
    + destruct (page_of_views (ph_mem s') n va) as [_ <-]; [lia|]. rewrite Heq, Hw5.
      apply (loaded_bytes K A n s1 _ s4 (zero_loaded stack_top) stack_top H4); [|done|done].
      apply elem_of_app. right. by apply list_elem_of_singleton.
    + apply (filled_bytes K A n s1 lps s3 s4 s' (zero_loaded (page_of va))); try done.
      apply elem_of_app. right. apply list_elem_of_fmap. exists (page_of va). split; [done|].
      apply list_elem_of_fmap. exists (page_of va / 4096 - 0x7FFFFFFF7). rewrite elem_of_seqZ.
      unfold stack_page, stack_top, page_of, USER_STACK_TOP, STACK_PAGES in *. lia.
  - unfold stack_top, USER_STACK_TOP in *. lia.
  - by exists (page_at (ph_mem s') f).
Qed.
(** [load] in three parts. *)
Lemma load_steps b data args envs cr3 mm :
  load b data args envs cr3 mm =
    (let! n := on_phys (expect_ok (create_user_mapper cr3)) in
     let! sp := on_phys (fill_space b data args envs n) in
     let! _ := expect_ok (store_user_mapper n) in
     let! entry := slift (or_panic (virt_addr (wrap64 (load_base b + elf_entry b)))) in
     let! sp := slift (or_panic (virt_addr sp)) in
     sret (entry, sp)) mm.
Proof.
  unfold load, fill_space. fold (load_base b). unfold sbind.
  destruct (on_phys (expect_ok (create_user_mapper cr3)) mm) as [[n|e| |] mm1]; try done.
  unfold on_phys.
  destruct (sfor (elf_segments b) (load_segment data n (load_base b)) (mm_phys mm1)) as [[[]|e| |] s2]; try done.
  cbn [fst snd mm_phys user_page_tables].
  destruct ((if elf_is_dynamic b then apply_relocations b data (load_base b) n else sret tt) s2) as [[[]|e| |] s3]; try done.
  cbn [fst snd mm_phys user_page_tables]. fold stack_top.
  change ((λ i, USER_STACK_TOP - STACK_PAGES * 4096 + i * 4096) <$> seqZ 0 STACK_PAGES)
    with (stack_page <$> seqZ 0 STACK_PAGES).
  destruct (map_stack n (stack_page <$> seqZ 0 STACK_PAGES) None s3) as [[top|e| |] s4]; try done.
Qed.

(** C6: A loaded program is what its file says.  If [load] succeeds, there is a
    new address space in which every byte of every segment is the byte of the
    file, or zero behind the file's part, writable exactly if the segment is,
    the stack is writable and holds the arguments and the environment where the
    program looks for them; every address space that existed keeps its contents
    and permissions, and the separation of the page tables holds.  If it fails
    with an error, the processes that exist notice nothing and no page table is
    registered; it never runs forever.

    The conditions: the file has no relocation table (relocations change the
    bytes of the segments, and their targets are not checked: ElfReloc); its segments
    are [loadable], that is not empty, with a file part no longer than the memory
    part, and they and the stack lie in pages of the lower half which the kernel does
    not use itself; arguments and environment hold no zero byte.  A panic is
    possible: when there is no frame for the page table, or when the
    entry point is no canonical address. *)
Theorem load_maps_file A b data args envs mm r mm' :
  vm_ok K A (mm_phys mm) → loadable b data (ph_mem (mm_phys mm)) →
  (elf_is_dynamic b = true → rela_addr (elf_dynamic b) = None) →
  Forall cstring args → Forall cstring envs →
  load b data args envs (Some K) mm = (r, mm') →
  let m := ph_mem (mm_phys mm) in let m' := ph_mem (mm_phys mm') in
  let others_same := ∀ p q j, p ∈ A → pos q j →
    user_page m' p q j = user_page m p q j ∧ can_write m' p q j = can_write m p q j in
  match r with
  | Ok (entry, sp) =>
      virt_addr (wrap64 (load_base b + elf_entry b)) = Some entry ∧
      ∃ n, n ∉ A ∧ vm_ok K (A ∪ {[n]}) (mm_phys mm') ∧
        user_page_tables mm' = user_page_tables mm ++ [n] ∧ others_same ∧
        filled n b data args envs (mm_phys mm') sp
  | Err _ => user_page_tables mm' = user_page_tables mm ∧ others_same ∧
      ∃ A', A ⊆ A' ∧ vm_ok K A' (mm_phys mm')
  | Panic => True
  | Diverge => False
  end.
Proof.
  intros Hok Hlo Hnr Ha He Hrun m m' others_same. rewrite load_steps in Hrun. unfold sbind at 1 in Hrun.
  destruct (on_phys (expect_ok (create_user_mapper (Some K))) mm) as [rc mm1] eqn:Hcr.
  apply on_phys_run in Hcr as [Hcr Ht1]. unfold expect_ok in Hcr.
  pose proof (create_not_diverge (Some K) (mm_phys mm)) as Hnd.
  destruct (create_user_mapper (Some K) (mm_phys mm)) as [rc' s1] eqn:Hc.
  destruct rc' as [n|e| |]; [|by injection Hcr as <- _; injection Hrun as <- _..|done].
  injection Hcr as <- Hs1. apply (create_user_mapper_spec K A _ _ _ Hok) in Hc.
  destruct (created_loading K A _ _ _ Hok Hc) as (Hld&Hus&Hn&Hold). clear Hnd.
  assert (loadable b data (ph_mem s1)) as Hlo1.
  { destruct Hlo as [L1 L2 L3 L4]. split; [done|done| |].
    - eapply Forall_impl; [exact L3|]. intros seg (G1&G2&G3). split_and!; [done|done|].
      intros page Hp. by apply Hus, G3.
    - intros page Hp. by apply Hus, L4. }
  unfold sbind at 1 in Hrun.
  destruct (on_phys (fill_space b data args envs n) mm1) as [r2 mm2] eqn:Hf.
  apply on_phys_run in Hf as [Hf Ht2]. rewrite <-Hs1 in Hf.
  apply (fill_space_spec (A ∪ {[n]})) in Hf; [|set_solver|done..].
  assert (∀ s2, kept K (A ∪ {[n]}) n s1 s2 → ∀ p q j, p ∈ A → pos q j →
    user_page (ph_mem s2) p q j = user_page m p q j ∧ can_write (ph_mem s2) p q j = can_write m p q j) as Hsame.
  { intros s2 Hk p q j Hp Hq. unfold m. destruct (Hold p q j Hp Hq) as [<- <-].
    apply (kp_others _ _ _ _ _ Hk); [set_solver|done|]. by intros ->. }
  destruct r2 as [sp|e| |]; [| |done..].
  - destruct Hf as [Hk Hf]. pose proof (fl_sp _ _ _ _ _ _ _ Hf) as [Hsp _].
    assert (virt_addr sp = Some sp) as Hvsp.
    { apply virt_addr_low. unfold stack_top, USER_STACK_TOP in Hsp. lia. }
    unfold sbind, slift, expect_ok, store_user_mapper, or_panic in Hrun. rewrite Hvsp in Hrun.
    destruct (virt_addr (wrap64 (load_base b + elf_entry b))) as [entry|]; [|by injection Hrun as <- <-].
    injection Hrun as <- <-. split; [done|]. exists n. cbn [mm_phys user_page_tables].
    split_and!; [done|apply Hk|by rewrite Ht2, Ht1|exact (Hsame _ Hk)|done].
  - injection Hrun as <- <-. split_and!; [by rewrite Ht2, Ht1|exact (Hsame _ Hf)|].
    exists (A ∪ {[n]}). split; [set_solver|apply Hf].
Qed.
End props.

(** ** Concrete addresses *)

(** [VirtAddr::new] with its sign extension, and the walk of [translate]. *)
Definition ref_virt_addr (a : Z) : option Z :=
  if decide (0 ≤ a < 2 ^ 47) then Some a
  else if decide (2 ^ 47 ≤ a < 2 ^ 48) then Some (a + (2 ^ 64 - 2 ^ 48))
  else if decide (2 ^ 64 - 2 ^ 47 ≤ a < 2 ^ 64) then Some a else None.

Definition present_table (m : pmem) (t i : Z) : option Z :=
  if contains (pte_flags (entry m t i)) PRESENT then next_table m t i else None.
(** A huge page at level [k], a small page at level 0. *)
Fixpoint ref_walk (m : pmem) (t : Z) (k : nat) (va : Z) : option Z :=
  let e := entry m t (va_index (Z.of_nat k) va) in
  if negb (contains (pte_flags e) PRESENT) then None else
  match k with
  | O => Some (pte_addr e + va mod 4096)
  | S k' =>
      if contains (pte_flags e) HUGE_PAGE
      then Some (pte_addr e + va mod 2 ^ (12 + 9 * Z.of_nat k))
      else ref_walk m (pte_addr e) k' va
  end.

#[export] Instance ref_addresses : Addresses := {
  virt_addr := ref_virt_addr;
  translate m l4 va := ref_walk m l4 3 va;
}.

#[export] Instance ref_addresses_laws : AddressesLaws.
Proof.
  split.
  - intros a Ha. unfold virt_addr. simpl. unfold ref_virt_addr. by rewrite decide_True.
  - intros m l4 a e Ha Hw Hl He. apply leaf_node in Hl as (l1&Hn&<-).
    unfold walk_present in Hw. unfold va_path in Hw, Hn. cbn [seq forallb take lookup list_lookup] in Hw.
    cbn [node] in Hw. apply andb_true_iff in Hw as [P3 Hw].
    cbn [node] in Hn. apply bind_Some in Hn as (l3&H3&Hn). rewrite H3 in Hw. cbn [mbind option_bind] in Hw.
    apply andb_true_iff in Hw as [P2 Hw].
    apply bind_Some in Hn as (l2&H2&Hn). rewrite H2 in Hw. cbn [mbind option_bind] in Hw.
    apply andb_true_iff in Hw as [P1 _].
    apply bind_Some in Hn as (l1'&H1&Hn). injection Hn as ->.
    apply next_table_Some in H3 as (<-&_&G3), H2 as (<-&_&G2), H1 as (<-&_&G1).
    unfold translate. simpl. unfold ref_walk.
    change (Z.of_nat 3) with 3. change (Z.of_nat 2) with 2. change (Z.of_nat 1) with 1. change (Z.of_nat 0) with 0.
    rewrite P3, G3, P2, G2, P1, G1. cbn [negb]. by rewrite He.
Qed.

(** ** A program on the demonstration machine *)

Definition user_okb (K : Z) (m : pmem) (page : Z) : bool :=
  let p := va_path page in
  match p with
  | i :: _ => (i <? 256) && ((i =? 0) || (entry m K i =? 0))
  | [] => false
  end &&
  negb (blockedb m K p) &&
  match leaf m K p (va_index 0 page) with Some e => e =? 0 | None => true end.

Lemma user_okb_ok K m page : user_okb K m page = true → user_ok K m page.
Proof.
  unfold user_okb. rewrite !andb_true_iff. intros [[Hi Hb] Hl].
  pose proof (va_pos_pos page) as (Hp&Hlen&_). split.
  - split_and!; [done|done| |].
    + intros (i&r&Heq&Hi0&He). rewrite Heq in Hi. apply andb_true_iff in Hi as [_ Hi].
      apply orb_true_iff in Hi as [Hi|Hi]; apply Z.eqb_eq in Hi; done.
    + intros i Hh. destruct (va_path page) as [|j r]; [done|]. injection Hh as ->.
      apply andb_true_iff in Hi as [Hi _]. by apply Z.ltb_lt.
  - split; [by apply blocked_check, negb_true_iff|]. intros e He. rewrite He in Hl. by apply Z.eqb_eq.
Qed.

Lemma user_okb_list K m pages :
  forallb (user_okb K m) pages = true → ∀ page, page ∈ pages → user_ok K m page.
Proof. intros Hf page Hin. apply user_okb_ok. by apply (proj1 (forallb_elem _ _) Hf). Qed.

(** Five bytes of code in a segment that spans two pages. *)
Definition demo_file : bytes := [72; 49; 192; 15; 5].
Definition demo_segment : Segment := Seg 0x40001010 0x1800 5 0 5.
Definition demo_elf : ElfBinary := Elf 0x40001010 [demo_segment] dyn_default false.
Definition demo_load := load demo_elf demo_file demo_args demo_envs (Some demo_kernel) (Mm demo_phys []).

Lemma demo_loadable : loadable demo_kernel demo_elf demo_file demo_mem.
Proof.
  split.
  - repeat constructor; done.
  - done.
  - apply Forall_singleton. split_and!; [by split|done|].
    apply user_okb_list. vm_compute. reflexivity.
  - apply user_okb_list. vm_compute. reflexivity.
Qed.

Lemma demo_load_run :
  load demo_elf demo_file demo_args demo_envs (Some demo_kernel) (Mm demo_phys []) =
    (Ok (0x40001010, 0x7FFFFFFFEFA0), demo_load.2).
Proof. compute_run demo_load. Qed.
#[local] Opaque demo_load.

Lemma load_maps_file_witness :
  user_page_tables demo_load.2 ≠ [] ∧
  ∃ n, byte_view (ph_mem (mm_phys demo_load.2)) n 0x40001013 = Some 15 ∧
    byte_view (ph_mem (mm_phys demo_load.2)) n 0x40002000 = Some 0 ∧
    write_view (ph_mem (mm_phys demo_load.2)) n 0x40001013 = false.
Proof.
  destruct demo_cstrings as [Ha He].
  assert (demo_segment ∈ elf_segments demo_elf) as Hin by (by apply list_elem_of_singleton).
  assert (load_base demo_elf + seg_vaddr demo_segment ≤ 0x40001013 <
    load_base demo_elf + seg_vaddr demo_segment + seg_memsz demo_segment) as R1 by done.
  assert (load_base demo_elf + seg_vaddr demo_segment ≤ 0x40002000 <
    load_base demo_elf + seg_vaddr demo_segment + seg_memsz demo_segment) as R2 by done.
  destruct (load_maps_file demo_kernel ∅ demo_elf demo_file demo_args demo_envs (Mm demo_phys [])
    _ _ demo_ok demo_loadable ltac:(done) Ha He demo_load_run) as (_&n&_&_&Ht&_&[Hseg _ _ _]).
  destruct (Hseg demo_segment 0x40001013 Hin R1) as [G1 G2].
  destruct (Hseg demo_segment 0x40002000 Hin R2) as [G3 _]. clear Hseg.
  split; [rewrite Ht; discriminate|]. exists n. split_and!; [exact G1|exact G3|exact G2].
Defined.
