(* ===== verification/ElfReloc.v ===== *)
(** * Relocations

    Relocating a loaded program stores, in the order of the table, each value at
    its target and changes nothing else; a table made for it reaches beyond the
    program, into the kernel. *)

From S2P Require Import Prelude Frames Paging PagingRef Memory MemorySpec MemoryCopy MemoryFork MemoryProps MemorySteps MemoryRefine Bytes Elf ElfStack ElfLoad ElfProps.

#[local] Ltac Zify.zify_post_hook ::= Z.to_euclidean_division_equations.

(** ** The stores a file asks for *)

(** The target and the value of an entry of the table, if it has any. *)
Definition reloc_store (b : ElfBinary) (data : bytes) (base entry_offset : Z)
  : outcome string (option (Z * Z)) :=
  let? r_offset := le_at data entry_offset 8 in
  let? r_info := le_at data (entry_offset + 8) 8 in
  let? r_addend := le_at data (entry_offset + 16) 8 in
  let? v := reloc_value b data base (Z.land r_info 0xffffffff) (Z.shiftr r_info 32) r_addend in
  Ok ((λ v, (wrap64 (base + r_offset), v)) <$> v).

(** The entries of the table that lie in the file. *)
Fixpoint reloc_stores (fuel : nat) (b : ElfBinary) (data : bytes) (base rela_start i num : Z)
  : outcome string (list (Z * Z)) :=
  match fuel with
  | O => Diverge
  | S fuel =>
      if num <=? i then Ok [] else
      let entry_offset := wrap64 (rela_start + i * 24) in
      if len data <? wrap64 (entry_offset + 24) then Ok [] else
      let? st := reloc_store b data base entry_offset in
      let? rest := reloc_stores fuel b data base rela_start (i + 1) num in
      Ok (option_list st ++ rest)
  end.

(** [v] stored at [va]. *)
Definition store_image (img : Z → option Z) (st : Z * Z) : Z → option Z := λ x,
  if decide (st.1 ≤ x < st.1 + 8) then Some (le_enc 8 st.2 !!! Z.to_nat (x - st.1)) else img x.

Section reloc.
Context `{Pg : Paging} `{Ad : Addresses} `{AdL : !AddressesLaws}.
Context (K : Z).
Implicit Types (A : gset Z) (s : phys).

(** A target that the program may write itself, inside one page. *)
Record target_ok s (n va : Z) : Prop := {
  to_low : 0 ≤ va < 2 ^ 47;
  to_page : va mod 4096 ≤ 4088;
  to_walk : walk_present (ph_mem s) n (va_path va) = true;
  to_leaf : ∃ e, leaf (ph_mem s) n (va_path va) (va_index 0 va) = Some e ∧
    contains (pte_flags e) PRESENT = true ∧ user e = true ∧ writable e = true;
}.

Lemma walk_present_quiet A s s' n p :
  quiet K A s s' → n ∈ A → tpath p → walk_present (ph_mem s') n p = walk_present (ph_mem s) n p.
Proof.
  intros Hq Hn Hp. assert (space K A n) as Hns by (by left). unfold walk_present.
  assert (∀ l, forallb (λ k, match node (ph_mem s') n (take k p), p !! k with
      | Some t, Some j => contains (pte_flags (entry (ph_mem s') t j)) PRESENT | _, _ => false end) l =
    forallb (λ k, match node (ph_mem s) n (take k p), p !! k with
      | Some t, Some j => contains (pte_flags (entry (ph_mem s) t j)) PRESENT | _, _ => false end) l) as Hl.
  { induction l as [|k l IH]; [done|]. cbn [forallb]. rewrite IH. f_equal.
    assert (tpath (take k p)) as Ht by (eapply tpath_prefix; [by apply prefix_take|done]).
    rewrite (quiet_node K A s s' Hq) by done.
    destruct (node (ph_mem s) n (take k p)) as [t|] eqn:Hk; [|done].
    destruct (p !! k) as [j|]; [|done]. by rewrite (quiet_entry K A s s' Hq n (take k p) t j). }
  apply Hl.
Qed.

Lemma target_ok_quiet A s s' n va : quiet K A s s' → n ∈ A → target_ok s n va → target_ok s' n va.
Proof.
  intros Hq Hn [T1 T2 T3 T4]. assert (space K A n) as Hns by (by left).
  pose proof (va_pos_pos va) as (Hp&_&_). split; [done|done| |].
  - by rewrite (walk_present_quiet A s s').
  - by rewrite (quiet_leaf K A s s' Hq).
Qed.

(** One store. *)
Lemma reloc_write A s n va v :
  vm_ok K A s → n ∈ A → target_ok s n va →
  ∃ pa, translate (ph_mem s) n va = Some pa ∧
    let s' := Phys (write_u64 (ph_mem s) pa v) (ph_fa s) in
    quiet K A s s' ∧ vm_ok K A s' ∧
    (∀ b q j, b ∈ A → pos q j → b ≠ n → user_page (ph_mem s') b q j = user_page (ph_mem s) b q j) ∧
    (∀ x, 0 ≤ x < 2 ^ 47 → byte_view (ph_mem s') n x = store_image (byte_view (ph_mem s) n) (va, v) x).
Proof.
  intros Hok Hn [T1 T2 T3 (e&Hl&Hpr&Hu&Hw)]. pose proof (va_pos_pos va) as Hpos.
  pose proof Hpos as (Hp&Hlen&Hi). assert (space K A n) as Hns by (by left).
  exists (pte_addr e + va mod 4096). split; [by apply translate_page|].
  set (f := pte_addr e). set (s' := Phys _ _). cbv zeta.
  assert (f mod 4096 = 0) as Hf.
  { pose proof (pte_addr_ok e) as Ho. unfold frame_ok in Ho. fold f in Ho. rewrite <-Ho.
    assert (Z.land f ADDR_MASK mod 4096 = Z.land (Z.land f ADDR_MASK) (Z.ones 12)) as ->
      by (rewrite Z.land_ones by lia; done).
    rewrite <-Z.land_assoc. change (Z.land ADDR_MASK (Z.ones 12)) with 0. by rewrite Z.land_0_r. }
  assert (user_leaf (ph_mem s) n (va_path va) (va_index 0 va) e) as Hul by done.
  assert (∀ g, g ≠ f → page_at (ph_mem s') g = page_at (ph_mem s) g) as Hg.
  { intros g Hg. apply page_at_write_bytes. rewrite length_le_enc. intros x Hx. unfold frame_of.
    clear -Hx Hf Hg T2. lia. }
  destruct (private_write K A s s' n (va_path va) (va_index 0 va) e) as (Hq&Hok'&Hpg&Hpg'&_&Hoth); try done.
  { intros b q j e' Hb (Hq&_&Hj) Hul' Heq.
    destruct (vo_cow _ _ _ Hok n (va_path va) (va_index 0 va) e b q j e') as (->&->&->); try done. by left. }
  split_and!; [done|done|intros b q j Hb Hpq Hne; apply Hoth; [done|done|congruence]|].
  intros x Hx. unfold byte_view, page_view, store_image. cbn [fst snd].
  destruct (decide (page_of x = page_of va)) as [Heq|Hne].
  - destruct (page_of_key x va) as [-> ->]; [lia|lia|done|]. rewrite Hpg, Hpg'. cbn [fmap option_fmap option_map].
    fold f. rewrite <-!(pbyte_frame _ f) by (clear -Hf; lia). unfold s'. cbn [ph_mem]. unfold write_u64.
    rewrite pbyte_write_bytes by apply le_enc_ok. rewrite length_le_enc.
    unfold page_of in Heq.
    destruct (decide (va ≤ x < va + 8)).
    + rewrite decide_True by (clear -Hf Heq T2 a; lia). do 2 f_equal. clear -Heq. lia.
    + rewrite decide_False by (clear -Hf Heq T2 n0; lia). done.
  - rewrite Hoth; [|done|apply va_pos_pos|].
    + rewrite decide_False; [done|]. unfold page_of in Hne. clear -Hne T2 T1. lia.
    + intros [= G1 G2 G3 G4]. apply Hne, user_page_of_inj; [lia|lia| |done]. unfold va_path. congruence.
Qed.
(** What a run of stores leaves. *)
Record stored A (n : Z) s s' (stores : list (Z * Z)) : Prop := {
  sd_quiet : quiet K A s s';
  sd_ok : vm_ok K A s';
  sd_others b q j : b ∈ A → pos q j → b ≠ n → user_page (ph_mem s') b q j = user_page (ph_mem s) b q j;
  sd_bytes x : 0 ≤ x < 2 ^ 47 →
    byte_view (ph_mem s') n x = foldl store_image (byte_view (ph_mem s) n) stores x;
}.

Lemma quiet_refl A s : quiet K A s s.
Proof. by split. Qed.

Lemma foldl_store_eq img img' stores x :
  img x = img' x → foldl store_image img stores x = foldl store_image img' stores x.
Proof.
  revert img img'. induction stores as [|st stores IH]; intros img img' Hx; [done|].
  cbn [foldl]. apply IH. unfold store_image. by destruct (decide _).
Qed.

Lemma stored_nil A n s : vm_ok K A s → stored A n s s [].
Proof. intros Hok. split; [by apply quiet_refl|done|done|done]. Qed.

Lemma stored_app A n s1 s2 s3 l1 l2 :
  stored A n s1 s2 l1 → stored A n s2 s3 l2 → stored A n s1 s3 (l1 ++ l2).
Proof.
  intros [Q1 O1 B1 I1] [Q2 O2 B2 I2]. split; [by apply (quiet_trans K A s1 s2)|done| |].
  - intros b q j Hb Hp Hne. by rewrite B2, B1.
  - intros x Hx. rewrite I2 by done. rewrite foldl_app. apply foldl_store_eq. by apply I1.
Qed.

Definition targets_ok s (n : Z) (stores : list (Z * Z)) : Prop := Forall (λ st, target_ok s n st.1) stores.

Lemma targets_ok_quiet A s s' n stores : quiet K A s s' → n ∈ A → targets_ok s n stores → targets_ok s' n stores.
Proof. intros Hq Hn Ht. eapply Forall_impl; [exact Ht|]. intros st. by apply (target_ok_quiet A). Qed.

Lemma apply_reloc_spec A b data base n off s st :
  vm_ok K A s → n ∈ A → reloc_store b data base off = Ok st → targets_ok s n (option_list st) →
  ∃ s', apply_reloc b data base n off s = (Ok tt, s') ∧ stored A n s s' (option_list st).
Proof.
  intros Hok Hn Hst Ht. unfold reloc_store in Hst. unfold apply_reloc.
  apply obind_Ok_inv in Hst as (ro&H1&Hst). apply obind_Ok_inv in Hst as (ri&H2&Hst).
  apply obind_Ok_inv in Hst as (ra&H3&Hst). apply obind_Ok_inv in Hst as (v&H4&Hst). injection Hst as <-.
  unfold sbind, slift. rewrite H1, H2, H3, H4. destruct v as [v|]; cbn [fmap option_fmap option_map option_list] in *.
  - apply Forall_cons in Ht as [Ht _]. cbn [fst] in Ht. rewrite virt_addr_low by apply Ht.
    cbn [or_panic]. unfold sget. destruct (reloc_write A s n _ v Hok Hn Ht) as (pa&Hpa&Hq&Hok'&Ho&Hb).
    rewrite Hpa. eexists. split; [done|]. split; try done.
  - exists s. split; [done|by apply stored_nil].
Qed.

Lemma reloc_loop_spec A b data base n rs num fuel i s stores :
  vm_ok K A s → n ∈ A → reloc_stores fuel b data base rs i num = Ok stores → targets_ok s n stores →
  ∃ s', reloc_loop fuel b data base n rs i num s = (Ok tt, s') ∧ stored A n s s' stores.
Proof.
  intros Hok Hn. revert i s stores Hok. induction fuel as [|fuel IH]; intros i s stores Hok Hst Ht; [done|].
  cbn [reloc_stores reloc_loop] in *.
  destruct (num <=? i). { injection Hst as <-. exists s. split; [done|by apply stored_nil]. }
  destruct (len data <? _). { injection Hst as <-. exists s. split; [done|by apply stored_nil]. }
  apply obind_Ok_inv in Hst as (st&H1&Hst). apply obind_Ok_inv in Hst as (rest&H2&Hst). injection Hst as <-.
  apply Forall_app in Ht as [Ht1 Ht2].
  destruct (apply_reloc_spec A b data base n _ s st Hok Hn H1 Ht1) as (s1&Hr1&Hs1).
  unfold sbind. rewrite Hr1.
  destruct (IH (i + 1) s1 rest) as (s2&Hr2&Hs2); [apply Hs1|done| |].
  { apply (targets_ok_quiet A s s1); [apply Hs1|done|done]. }
  exists s2. split; [done|]. by apply (stored_app A n s s1).
Qed.

(** The stores of the whole table. *)
Definition reloc_plan (b : ElfBinary) (data : bytes) (base : Z) : outcome string (list (Z * Z)) :=
  if negb (elf_is_dynamic b) then Ok [] else
  match rela_addr (elf_dynamic b) with
  | None => Ok []
  | Some ra =>
      match List.find (holds ra) (elf_segments b) with
      | None => Ok []
      | Some seg => reloc_stores (S (S (length data))) b data base
                      (wrap64 (seg_offset seg + (ra - seg_vaddr seg))) 0 (rela_size (elf_dynamic b) / 24)
      end
  end.

(** Relocating does what the table says.  When the targets of a file's
    relocations are words of pages that the program may write, applying them
    succeeds; afterwards the program's memory is its old memory with the values
    stored at the targets in the order of the table - nothing else of it has
    changed -, and no other address space has. *)
Theorem relocations_applied A b data base n s stores :
  vm_ok K A s → n ∈ A → reloc_plan b data base = Ok stores → targets_ok s n stores →
  ∃ s', apply_relocations b data base n s = (Ok tt, s') ∧ vm_ok K A s' ∧
    (∀ a q j, a ∈ A → pos q j → a ≠ n → user_page (ph_mem s') a q j = user_page (ph_mem s) a q j) ∧
    ∀ x, 0 ≤ x < 2 ^ 47 →
      byte_view (ph_mem s') n x = foldl store_image (byte_view (ph_mem s) n) stores x.
Proof.
  intros Hok Hn Hplan Ht.
  assert (∃ s', apply_relocations b data base n s = (Ok tt, s') ∧ stored A n s s' stores) as (s'&Hr&[_ H1 H2 H3]).
  { unfold reloc_plan in Hplan. unfold apply_relocations.
    destruct (elf_is_dynamic b); cbn [negb] in *;
      [|injection Hplan as <-; exists s; split; [done|by apply stored_nil]].
    destruct (rela_addr (elf_dynamic b)) as [ra|];
      [|injection Hplan as <-; exists s; split; [done|by apply stored_nil]].
    destruct (List.find _ _) as [seg|];
      [|injection Hplan as <-; exists s; split; [done|by apply stored_nil]].
    by apply reloc_loop_spec. }
  exists s'. by split_and!.
Qed.
End reloc.

(** ** Termination *)

Lemma le_at_not_diverge {E} data off n : le_at (E:=E) data off n ≠ Diverge.
Proof. unfold le_at. by destruct (decide _). Qed.

Lemma obind_not_diverge {E A B} (m : outcome E A) (f : A → outcome E B) :
  m ≠ Diverge → (∀ a, m = Ok a → f a ≠ Diverge) → obind m f ≠ Diverge.
Proof. destruct m; naive_solver. Qed.

(** An access that succeeds lies in the file. *)
Lemma le_at_Ok {E} data off n v : le_at (E:=E) data off n = Ok v → 0 ≤ off ∧ off + Z.of_nat n ≤ len data.
Proof. unfold le_at, len. destruct (decide _); [done|]. done. Qed.

Lemma parse_phdrs_not_diverge data phoff n i st : parse_phdrs data phoff n i st ≠ Diverge.
Proof.
  revert i st. induction n as [|n IH]; intros i st; [done|]. cbn [parse_phdrs].
  apply obind_not_diverge; [|intros; apply IH]. unfold parse_phdr. destruct (_ <? _); [done|].
  apply obind_not_diverge; [apply le_at_not_diverge|]. intros ty _. destruct (ty =? PT_DYNAMIC).
  - do 2 (apply obind_not_diverge; [apply le_at_not_diverge|]; intros ? _). done.
  - destruct (negb _); [done|]. do 5 (apply obind_not_diverge; [apply le_at_not_diverge|]; intros ? _). done.
Qed.

Lemma parse_dynamic_not_diverge fuel data i dyn_end info :
  (0 < fuel)%nat → len data < 2 ^ 63 → (0 ≤ i ≤ len data → len data - i < Z.of_nat fuel) →
  parse_dynamic fuel data i dyn_end info ≠ Diverge.
Proof.
  revert i info. induction fuel as [|fuel IH]; intros i info H0 Hlen Hf; [lia|]. cbn [parse_dynamic].
  destruct (dyn_end <? _); [done|].
  apply obind_not_diverge; [apply le_at_not_diverge|]. intros tag Ht.
  apply obind_not_diverge; [apply le_at_not_diverge|]. intros val Hv.
  destruct (tag =? DT_NULL); [done|].
  apply le_at_Ok in Ht as [H1 H2], Hv as [H3 H4]. rewrite wrap_small by lia. apply IH; lia.
Qed.

Lemma lookup_symbol_not_diverge {E} b data i base : lookup_symbol (E:=E) b data i base ≠ Diverge.
Proof.
  unfold lookup_symbol. destruct (i =? 0); [done|]. destruct (symtab_addr _); [|done].
  destruct (List.find _ _); [|done]. destruct (_ <? _); [done|].
  apply obind_not_diverge; [apply le_at_not_diverge|]. intros v _. by destruct (v =? 0).
Qed.

Section termination.
Context `{Pg : Paging} `{Ad : Addresses}.

Lemma apply_reloc_not_diverge b data base n off s : (apply_reloc b data base n off s).1 ≠ Diverge.
Proof.
  unfold apply_reloc. do 3 (apply sbind_not_diverge; [apply le_at_not_diverge|]; intros ? ?).
  apply sbind_not_diverge.
  - unfold slift, reloc_value. cbn [fst]. destruct (_ =? R_X86_64_RELATIVE); [done|].
    destruct (_ || _); [apply obind_not_diverge; [apply lookup_symbol_not_diverge|done]|].
    destruct (_ =? R_X86_64_64); [apply obind_not_diverge; [apply lookup_symbol_not_diverge|done]|done].
  - intros [v|] ?; [|done]. apply sbind_not_diverge.
    + unfold slift. cbn [fst]. by destruct (virt_addr _).
    + intros ta ?. apply sbind_not_diverge; [done|]. by intros [pa|] ?.
Qed.

Lemma wrap64_add x y : 0 ≤ y → wrap64 x + y < 2 ^ 64 → wrap64 (x + y) = wrap64 x + y.
Proof.
  intros Hy Hs. pose proof (wrap_bounds 64 x ltac:(done)) as [Hb _]. unfold wrap in *.
  rewrite <-Z.add_mod_idemp_l by done. apply Z.mod_small. split; [by apply Z.add_nonneg_nonneg|done].
Qed.

Lemma reloc_loop_not_diverge b data base n rs num fuel i s :
  0 ≤ i → (0 < fuel)%nat → len data < 2 ^ 63 →
  (wrap64 (rs + i * 24) ≤ len data → len data - wrap64 (rs + i * 24) < Z.of_nat fuel) →
  (reloc_loop fuel b data base n rs i num s).1 ≠ Diverge.
Proof.
  revert i s. induction fuel as [|fuel IH]; intros i s Hi H0 Hlen Hf; [lia|]. cbn [reloc_loop].
  destruct (num <=? i); [done|]. set (eo := wrap64 (rs + i * 24)) in *.
  destruct (Z.ltb_spec (len data) (wrap64 (eo + 24))) as [|Hle]; [done|].
  unfold sbind. destruct (apply_reloc b data base n eo s) as [r s1] eqn:Hr.
  assert (r ≠ Diverge) as Hnd by (change r with (r, s1).1; rewrite <-Hr; apply apply_reloc_not_diverge).
  destruct r as [[]|e| |]; [|done..].
  unfold apply_reloc in Hr. apply sbind_Ok_inv in Hr as (ro&s2&Hro&_).
  injection Hro as Hro _. apply le_at_Ok in Hro as [H1 H2].
  change (Z.of_nat 8) with 8 in H2.
  destruct (decide (eo + 24 < 2 ^ 64)) as [Hsmall|Hbig]; [|lia].
  assert (wrap64 (rs + (i + 1) * 24) = eo + 24) as Hnext.
  { replace (rs + (i + 1) * 24) with (rs + i * 24 + 24) by lia. by apply wrap64_add. }
  clearbody eo. apply IH; rewrite ?Hnext; clear -Hi H0 Hlen Hf H2 Hsmall H1; lia.
Qed.

(** The loader's loops end.  Parsing a file and applying its relocations
    finish within the fuel, a round per header and per table entry in the file,
    whatever the file says about their number. *)
Theorem loader_terminates data :
  len data < 2 ^ 63 →
  parse data ≠ Diverge ∧
  ∀ b base n s, (apply_relocations b data base n s).1 ≠ Diverge.
Proof.
  intros Hlen. split.
  - unfold parse. destruct (_ <? _); [done|]. destruct (negb _); [done|].
    apply obind_not_diverge; [apply le_at_not_diverge|]; intros ? _. destruct (negb _); [done|].
    apply obind_not_diverge; [apply le_at_not_diverge|]; intros ? _. destruct (negb _); [done|].
    do 2 (apply obind_not_diverge; [apply le_at_not_diverge|]; intros ? _).
    destruct (_ && _); [done|]. destruct (negb _); [done|].
    do 3 (apply obind_not_diverge; [apply le_at_not_diverge|]; intros ? _).
    apply obind_not_diverge; [apply parse_phdrs_not_diverge|]. intros [segs [[ds dz]|]] _; [|done].
    cbn [fst snd]. apply obind_not_diverge; [|done]. destruct (_ <=? _); [|done].
    apply parse_dynamic_not_diverge; [lia|done|]. unfold len. lia.
  - intros b base n s. unfold apply_relocations. destruct (negb _); [done|].
    destruct (rela_addr _) as [ra|]; [|done]. destruct (List.find _ _) as [seg|]; [|done].
    apply reloc_loop_not_diverge; [done|lia|done|]. unfold len.
    pose proof (wrap_bounds 64 (wrap64 (seg_offset seg + (ra - seg_vaddr seg)) + 0 * 24)). lia.
Qed.
End termination.

(** ** Witnesses and crafted files *)

(** A position-independent file whose table has one relative relocation. *)
Definition reloc_entry (r_offset r_info r_addend : Z) : bytes :=
  le_enc 8 r_offset ++ le_enc 8 r_info ++ le_enc 8 r_addend.
Definition pie_with (size : Z) : ElfBinary :=
  Elf 0 [Seg 0x7000 size size 0 4] (DynInfo (Some 0x7000) size None None 0 []) true.

Lemma demo3_target : target_ok demo3 demo_parent 0x40000008.
Proof.
  split; [done|done|vm_compute; reflexivity|].
  exists (default 0 (leaf (ph_mem demo3) demo_parent (va_path 0x40000008) (va_index 0 0x40000008))).
  split_and!; vm_compute; reflexivity.
Qed.

Lemma relocations_applied_witness :
  ∃ s', apply_relocations (pie_with 24) (reloc_entry 8 8 0x1234) DYNAMIC_LOAD_BASE demo_parent demo3 = (Ok tt, s') ∧
    byte_view (ph_mem s') demo_parent 0x40000009 = Some 0x12.
Proof.
  assert (0 ≤ 0x40000009 < 2 ^ 47) as Hx by done.
  destruct (relocations_applied demo_kernel {[demo_parent]} (pie_with 24) (reloc_entry 8 8 0x1234)
    DYNAMIC_LOAD_BASE demo_parent demo3 [(0x40000008, 0x40001234)]) as (s'&Hr&_&_&Hb).
  - exact demo3_ok.
  - by apply elem_of_singleton.
  - vm_compute. reflexivity.
  - apply Forall_singleton. exact demo3_target.
  - exists s'. split; [exact Hr|]. rewrite (Hb _ Hx). clear. vm_compute. reflexivity.
Defined.

Lemma loader_terminates_witness : parse (replicate 100 0) = Err "Invalid ELF magic"%string ∧ parse (replicate 100 0) ≠ Diverge.
Proof. split; [vm_compute; reflexivity|]. apply (loader_terminates (Ad := ref_addresses)). vm_compute. reflexivity. Defined.

(** A header of 64 bytes whose program headers start 8 bytes before 2^64: the
    bounds check wraps and the kernel panics on the index. *)
Definition crafted_header : bytes :=
  ELF_MAGIC ++ [2; 1] ++ replicate 10 0 ++ le_enc 2 ET_EXEC ++ le_enc 2 EM_X86_64 ++ replicate 4 0 ++
  le_enc 8 0 ++ le_enc 8 (2 ^ 64 - 8) ++ replicate 16 0 ++ le_enc 2 1 ++ replicate 6 0.
Example parse_crafted_panics : len crafted_header = 64 ∧ parse crafted_header = Panic.
Proof. split; vm_compute; reflexivity. Qed.

(** A relocation whose target is an address of the kernel: the new space shares
    the kernel's mappings, and the store goes to the kernel's page table. *)
Definition kernel_va : Z := 0xFFFF800000000000 + 5 * 2 ^ 30 + 0x3000 + 56.
Example reloc_writes_kernel :
  let r := apply_relocations (pie_with 24)
             (reloc_entry (wrap64 (kernel_va - DYNAMIC_LOAD_BASE)) 8 (wrap64 (0xBAD - DYNAMIC_LOAD_BASE)))
             DYNAMIC_LOAD_BASE demo_parent demo1 in
  r.1 = Ok tt ∧ entry (ph_mem demo1) 0x3000 7 = 0 ∧ entry (ph_mem r.2) 0x3000 7 = 0xBAD.
Proof. cbv zeta. split_and!; vm_compute; reflexivity. Qed.

(** A target at the end of a page: the rest of the word goes to the next frame
    of physical memory, whoever owns it. *)
Example reloc_crosses_frame :
  let r := apply_relocations (pie_with 24) (reloc_entry 4092 8 (2 ^ 32 * 9))
             DYNAMIC_LOAD_BASE demo_parent demo3 in
  r.1 = Ok tt ∧ page_at (ph_mem r.2) 0x103000 ≠ page_at (ph_mem demo3) 0x103000.
Proof.
  cbv zeta. split; [vm_compute; reflexivity|]. intros H. apply (f_equal (λ pg, page_byte pg 0)) in H.
  vm_compute in H. done.
Qed.

(** ** Programs from the file system

    [load_from_file] loads the bytes of the file that the path names: the file
    system calls below the loader, composed with it. *)

From S2P Require Import Block NextfsLayout NextfsAlloc NextfsFile NextfsDir NextfsSpec NextfsIO NextfsProps VfsTable Vfs VfsPipes VfsProps.

Section file.
Context {W D : Type} `{KE : KernelEnv W} `{BD : BlockDev D} `{BL : !BlockLaws D} `{Pg : Paging} `{Ad : Addresses}.
Implicit Types (st : @loader_state W D).

Lemma on_vfs_Ok {E R} (msg : E) (f : stm (vfs W D) vfs_error R) st a st' :
  on_vfs msg f st = (Ok a, st') → f (ls_vfs st) = (Ok a, ls_vfs st') ∧ ls_mm st' = ls_mm st.
Proof.
  unfold on_vfs. intros [= Hm <-]. simpl. apply map_err_Ok in Hm. split; [|done].
  by rewrite <-Hm, <-surjective_pairing.
Qed.

(** Opening a file to read it. *)
Lemma open_to_read ticks task path (s : vfs W D) fd s' :
  open ticks task path (OpenFlags true false false false false) s = (Ok fd, s') →
  ∃ inode, resolve_path path s = Ok inode ∧
    with_fs (check_permission inode (c_uid (creds_of task s)) (c_gid (creds_of task s)) MAY_READ) s = Ok tt ∧
    get_file task fd s' = Ok (OpenFile (Regular inode) (OpenFlags true false false false false) 0) ∧
    v_fs s' = v_fs s.
Proof.
  unfold open. intros (inode&s1&Hi&Hrest)%sbind_Ok_inv.
  unfold open_inode in Hi. cbn [of_create] in Hi. injection Hi as Hi <-.
  apply sbind_Ok_inv in Hrest as (c&?&Hc&Hrest). injection Hc as <- <-.
  apply sbind_Ok_inv in Hrest as ([]&s2&Hperm&Hrest). cbn [of_read of_write of_append] in *.
  change (Z.lor MAY_READ 0) with MAY_READ in Hperm. rewrite decide_True in Hperm by done.
  injection Hperm as Hperm <-.
  apply sbind_Ok_inv in Hrest as (pos&s3&Hpos&Hrest). injection Hpos as <- <-.
  exists inode. split_and!; [done|done| |by apply with_table_frame in Hrest as (?&_)].
  apply with_table_inv in Hrest as [(t&t'&a&Ht&Ha&[= <-]&->)|[_ Hno]]; [|naive_solver].
  unfold get_file. simpl. rewrite lookup_insert_eq. simpl. unfold table_get.
  apply alloc_fd_Ok in Ha as (_&->&_). by rewrite lookup_insert_eq.
Qed.

(** Seeking to the end yields the size. *)
Lemma seek_end_regular task fd (s : vfs W D) f inode p s' :
  get_file task fd s = Ok f → f_type f = Regular inode →
  seek task fd 0 SeekEnd s = (Ok p, s') →
  ∃ fs i, v_fs s = Some fs ∧ read_inode inode fs = Ok i ∧ p = signed 64 (i_size i) ∧ 0 ≤ p ∧ v_fs s' = v_fs s ∧
    get_file task fd s' = Ok (OpenFile (Regular inode) (f_flags f) p).
Proof.
  intros Hf Ht. unfold seek. rewrite (sbind_Ok _ _ _ f s) by (unfold sread; by rewrite Hf).
  rewrite Ht. intros (sz&?&Hsz&Hrest)%sbind_Ok_inv. injection Hsz as Hsz <-.
  unfold with_fs in Hsz. destruct (v_fs s) as [fs|] eqn:Hfs; [|done]. apply map_err_Ok in Hsz.
  apply obind_Ok_inv in Hsz as (i&Hi&[= <-]).
  assert (signed 64 (signed 64 (i_size i) + 0) = signed 64 (i_size i)) as He.
  { rewrite Z.add_0_r. unfold signed. set (x := i_size i mod 2 ^ 64).
    assert (0 ≤ x < 2 ^ 64) by (apply Z.mod_pos_bound; lia). change (64 - 1) with 63.
    destruct (decide (x < 2 ^ 63)).
    - rewrite Z.mod_small by lia. by rewrite decide_True.
    - assert ((x - 2 ^ 64) mod 2 ^ 64 = x) as ->; [|by rewrite decide_False].
      rewrite <-(Z.mod_small x (2 ^ 64)) at 2 by lia.
      replace (x - 2 ^ 64) with (x + -1 * 2 ^ 64) by lia. by rewrite Z.mod_add by lia. }
  rewrite He in Hrest. destruct (decide (signed 64 (i_size i) < 0)); [done|].
  apply sbind_Ok_inv in Hrest as ([]&s2&Hp&[= <- <-]).
  destruct (set_pos_Ok _ _ _ _ _ _ Hf Hp) as [Hg Hv]. rewrite Ht in Hg.
  exists fs, i. split_and!; [done|done|done|lia|by rewrite Hv|done].
Qed.

(** [data] is the file [inode]. *)
Definition file_bytes (fs : nextfs D) (inode : Z) (data : bytes) : Prop :=
  Z.of_nat (length data) = file_size fs inode ∧
  ∀ x : nat, (x < length data)%nat → data !! x = Some (file_data fs inode (Z.of_nat x)).

(** A program is loaded from the file its path names.  When
    [load_from_file] succeeds, the path names a regular file that the kernel's
    credentials may read, and the result - entry point, stack and new address
    space - is that of loading the file's bytes, all of them; the file system
    is as before. *)
Theorem load_from_file_loads ticks path args envs cr3 fs st entry sp st' :
  v_fs (ls_vfs st) = Some fs → vol_ok fs →
  (∀ inode, resolve_path path (ls_vfs st) = Ok inode → 0 ≤ inode ∧ 0 ≤ file_size fs inode ≤ MAX_OFFSET) →
  load_from_file [] ticks path args envs cr3 st = (Ok (entry, sp), st') →
  ∃ inode data elf,
    resolve_path path (ls_vfs st) = Ok inode ∧ file_type fs inode = 1 ∧
    with_fs (check_permission inode (c_uid (creds_of 0 (ls_vfs st))) (c_gid (creds_of 0 (ls_vfs st)))
      MAY_READ) (ls_vfs st) = Ok tt ∧
    file_bytes fs inode data ∧ parse data = Ok elf ∧
    load elf data args envs cr3 (ls_mm st) = (Ok (entry, sp), ls_mm st') ∧
    v_fs (ls_vfs st') = Some fs.
Proof.
  intros Hfs Hv Hino Hrun. unfold load_from_file in Hrun.
  apply sbind_Ok_inv in Hrun as (fd&st1&R1&Hrun). apply on_vfs_Ok in R1 as [Q1 M1].
  apply open_to_read in Q1 as (inode&Hres&Hperm&Hg1&Hf1). destruct (Hino inode Hres) as (Hi&Hmin&Hmax).
  apply sbind_Ok_inv in Hrun as (size&st2&R2&Hrun). apply on_vfs_Ok in R2 as [Q2 M2].
  destruct (seek_end_regular _ _ _ _ inode _ _ Hg1 eq_refl Q2) as (fs2&i&Hfs2&Hri&Hp&Hp0&Hf2&Hg2).
  rewrite Hf1, Hfs in Hfs2. injection Hfs2 as <-.
  apply sbind_Ok_inv in Hrun as (z&st3&R3&Hrun). apply on_vfs_Ok in R3 as [Q3 M3].
  destruct (seek_set_regular _ _ 0 _ _ inode _ _ Hg2 eq_refl ltac:(done) Q3) as (_&Hf3&Hg3).
  apply sbind_Ok_inv in Hrun as ([k data]&st4&R4&Hrun). apply on_vfs_Ok in R4 as [Q4 M4].
  destruct (read_regular _ _ _ _ _ _ inode _ _ _ Hg3 eq_refl Q4) as (fs4&Hfs4&Hfs4'&_&Hrd&_).
  rewrite Hf3, Hf2, Hf1, Hfs in Hfs4. injection Hfs4 as <-. cbn [f_pos] in Hrd.
  apply sbind_Ok_inv in Hrun as (u&st5&R5&Hrun). apply on_vfs_Ok in R5 as [Q5 M5].
  cbn [fst snd] in Hrun. destruct (Z.eqb_spec k size) as [->|]; [|done]. cbn [negb] in Hrun.
  apply sbind_Ok_inv in Hrun as (elf&st6&R6&Hrun). injection R6 as Hparse <-.
  unfold on_mm in Hrun. injection Hrun as Hload Hst'.
  assert (v_fs (ls_vfs st5) = Some fs) as Hfs5.
  { unfold close in Q5. apply sbind_Ok_inv in Q5 as (f&sx&Hf&Q5). injection Hf as _ <-.
    apply sbind_Ok_inv in Q5 as ([]&sy&Hy&Q5). apply with_table_frame in Hy as (Hy&_).
    injection Q5 as _ <-. rewrite <-Hfs4', <-Hy. unfold release_file. destruct (f_type f); try done. }
  pose proof (vol_geom _ Hv) as Hgeo. apply read_inode_Ok in Hri as [-> _]; [|done..].
  assert (size = file_size fs inode) as Hsz.
  { rewrite Hp. fold (file_size fs inode). unfold signed, MAX_OFFSET in *. change BLOCK_SIZE with 512 in *.
    change (64 - 1) with 63. rewrite Z.mod_small by lia. by rewrite decide_True by lia. }
  apply read_inode_data_Ok in Hrd as (_&Hty&Hk&Hl&Hd); [|done|done|done|rewrite length_replicate; lia].
  rewrite length_replicate in *. exists inode, data, elf.
  split_and!; [done|done|done| |done| |by rewrite <-Hst'].
  - split; [lia|]. intros x Hx. rewrite Hd. rewrite decide_True by lia. by rewrite Z.add_0_l.
  - rewrite <-M1, <-M2, <-M3, <-M4, <-M5. rewrite <-Hst'. simpl. rewrite <-Hload. apply surjective_pairing.
Qed.
End file.

(** ** A program on the small volume *)

Definition elf_file : bytes :=
  ELF_MAGIC ++ [2; 1] ++ replicate 10 0 ++ le_enc 2 ET_EXEC ++ le_enc 2 EM_X86_64 ++ replicate 4 0 ++
  le_enc 8 0x40001010 ++ le_enc 8 64 ++ replicate 16 0 ++ le_enc 2 1 ++ replicate 6 0 ++
  le_enc 4 PT_LOAD ++ le_enc 4 5 ++ le_enc 8 120 ++ le_enc 8 0x40001010 ++ replicate 8 0 ++
  le_enc 8 5 ++ le_enc 8 0x1800 ++ replicate 8 0 ++ demo_file.

Example parse_elf_file :
  parse elf_file = Ok (Elf 0x40001010 [Seg 0x40001010 0x1800 5 120 5] dyn_default false).
Proof. vm_compute. reflexivity. Qed.

(** The file is written through a descriptor of task 1, then loaded. *)
Definition exec_vfs : test_vfs := init_task_fds 0 (write [] 9 1 3 elf_file opened).2.
Definition exec_fs : nextfs (registry ram) := default small_fs (v_fs exec_vfs).
Definition exec_state : loader_state := LoaderState exec_vfs (Mm demo_phys []).
Definition exec_result :=
  (load_from_file [] 9 (str "/a.txt") demo_args demo_envs (Some demo_kernel) exec_state).2.

Lemma exec_run :
  load_from_file [] 9 (str "/a.txt") demo_args demo_envs (Some demo_kernel) exec_state =
    (Ok (0x40001010, 0x7FFFFFFFEFA0), exec_result).
Proof. compute_run exec_result. Qed.

Lemma exec_fs_ok : vol_ok exec_fs.
Proof. apply fsck_sound. vm_compute. reflexivity. Qed.
Lemma exec_fs_mounted : v_fs exec_vfs = Some exec_fs.
Proof.
  unfold exec_fs. assert (is_Some (v_fs exec_vfs)) as [fs Hfs]; [|by rewrite Hfs].
  apply (bool_decide_unpack _). vm_compute. done.
Qed.
Lemma exec_inode : resolve_path (str "/a.txt") exec_vfs = Ok 2.
Proof. vm_compute. reflexivity. Qed.
Lemma exec_size : file_size exec_fs 2 = 125.
Proof. vm_compute. reflexivity. Qed.
#[local] Opaque exec_vfs exec_fs exec_state exec_result.

Lemma load_from_file_loads_witness :
  ∃ inode data elf, resolve_path (str "/a.txt") exec_vfs = Ok inode ∧ file_bytes exec_fs inode data ∧
    parse data = Ok elf.
Proof.
  assert (∀ inode, resolve_path (str "/a.txt") exec_vfs = Ok inode →
    0 ≤ inode ∧ 0 ≤ file_size exec_fs inode ≤ MAX_OFFSET) as Hino.
  { rewrite exec_inode. intros inode [= <-]. rewrite exec_size. split; [lia|]. split; [lia|].
    vm_compute. discriminate. }
  destruct (load_from_file_loads 9 (str "/a.txt") demo_args demo_envs (Some demo_kernel) exec_fs
    exec_state 0x40001010 0x7FFFFFFFEFA0 exec_result exec_fs_mounted exec_fs_ok Hino exec_run)
    as (inode&data&elf&G1&_&_&G2&G3&_&_).
  exists inode, data, elf. exact (conj G1 (conj G2 G3)).
Defined.
