(* ===== verification/UserMem.v ===== *)
(** * The kernel's accesses to user memory

    System calls read and write the caller's buffers through the pointers they
    are given, in ring 0 and under the caller's page table.  This file has the
    processor's walk for such accesses - with huge pages, and with the
    write-protect bit of CR0 as the boot loader leaves it - and what they mean
    for the memories of the processes. *)

From S2P Require Import Prelude Frames Paging Memory MemorySpec MemoryProps MemorySteps Bytes ElfLoad.

#[local] Ltac Zify.zify_post_hook ::= Z.to_euclidean_division_equations.

(** Whether CR0.WP is set: then ring 0 cannot write through read-only entries. *)
Class Processor := cr0_wp : bool.

Section access.
Context `{Processor}.

Definition allowed (write : bool) (e : Z) : bool :=
  contains (pte_flags e) PRESENT && (negb (write && cr0_wp) || contains (pte_flags e) WRITABLE).

(** The walk from level [n] on: an entry for a page of [2 ^ (12 + 9 * n)] bytes
    ends it. *)
Fixpoint cpu_walk (m : pmem) (write : bool) (n : nat) (t va : Z) : option Z :=
  let k := Z.of_nat n in
  let e := entry m t (va_index k va) in
  if negb (allowed write e) then None else
  match n with
  | O => Some (pte_addr e + va mod 4096)
  | S n' =>
      if contains (pte_flags e) HUGE_PAGE then
        let sz := 2 ^ (12 + 9 * k) in Some (pte_addr e / sz * sz + va mod sz)
      else cpu_walk m write n' (pte_addr e) va
  end.

(** An address that is not canonical faults as well. *)
Definition canonical (va : Z) : bool := (va <? 2 ^ 47) || (2 ^ 64 - 2 ^ 47 <=? va).
Definition kernel_addr (m : pmem) (cr3 : Z) (write : bool) (va : Z) : option Z :=
  if canonical va then cpu_walk m write 3 cr3 va else None.

(** Loads and stores of ring 0, byte by byte; [None]: the access faults, and
    [page_fault_handler] panics because the fault is not one of user mode. *)
Definition peek (m : pmem) (cr3 va : Z) : option Z := pbyte m <$> kernel_addr m cr3 false va.
Definition peek_bytes (m : pmem) (cr3 va : Z) (n : nat) : option bytes :=
  mapM (λ i, peek m cr3 (wrap64 (va + i))) (seqZ 0 (Z.of_nat n)).
Fixpoint poke_bytes (m : pmem) (cr3 va : Z) (bs : bytes) : option pmem :=
  match bs with
  | [] => Some m
  | b :: bs =>
      kernel_addr m cr3 true va ≫= λ a, poke_bytes (set_pbyte m a b) cr3 (wrap64 (va + 1)) bs
  end.

(** The fault of a kernel access never resolves a copy-on-write page. *)
Lemma kernel_fault_panics err cr3 va s :
  pf_user err = false → (page_fault_handler 8 err cr3 va s) = (KernelPanic, s).
Proof. intros Hu. unfold page_fault_handler. rewrite Hu. reflexivity. Qed.
End access.

(** ** On user pages *)

Lemma next_table_step m t i c :
  next_table m t i = Some c → contains (pte_flags (entry m t i)) HUGE_PAGE = false ∧ c = pte_addr (entry m t i).
Proof.
  unfold next_table. destruct (is_unused _); [done|]. destruct (contains _ HUGE_PAGE); [done|].
  by intros [= <-].
Qed.

Section views.
Context `{Cp : Processor} (K : Z).

(** On a user page the walk ends at its frame. *)
Lemma kernel_addr_user m a w va e pa :
  user_leaf m a (va_path va) (va_index 0 va) e → kernel_addr m a w va = Some pa →
  pa = pte_addr e + va mod 4096 ∧ (w && cr0_wp = true → writable e = true).
Proof.
  intros (_&Hl&_) Hw. unfold kernel_addr in Hw. destruct (canonical va); [|done].
  unfold leaf, va_path in Hl. cbn [node] in Hl.
  destruct (next_table m a (va_index 3 va)) as [t2|] eqn:H3; [|done].
  cbn [mbind option_bind] in Hl.
  destruct (next_table m t2 (va_index 2 va)) as [t1|] eqn:H2; [|done].
  cbn [mbind option_bind] in Hl.
  destruct (next_table m t1 (va_index 1 va)) as [t0|] eqn:H1; [|done].
  cbn [mbind option_bind fmap option_fmap option_map] in Hl. injection Hl as Hl.
  apply next_table_step in H3 as [H3 ->], H2 as [H2 ->], H1 as [H1 ->].
  cbn [cpu_walk] in Hw. change (Z.of_nat 3) with 3 in Hw. change (Z.of_nat 2) with 2 in Hw.
  change (Z.of_nat 1) with 1 in Hw. change (Z.of_nat 0) with 0 in Hw.
  rewrite H3 in Hw. destruct (negb (allowed w _)); [done|].
  rewrite H2 in Hw. destruct (negb (allowed w _)); [done|].
  rewrite H1 in Hw. destruct (negb (allowed w _)); [done|].
  rewrite Hl in Hw. unfold allowed in Hw. destruct (contains (pte_flags e) PRESENT); [|done].
  destruct (negb (w && cr0_wp) || contains (pte_flags e) WRITABLE) eqn:Hc; [|done].
  injection Hw as <-. split; [done|]. intros Hb. rewrite Hb in Hc. exact Hc.
Qed.

Lemma byte_view_leaf m a va b :
  byte_view m a va = Some b → ∃ e, user_leaf m a (va_path va) (va_index 0 va) e ∧
    b = page_byte (page_at m (pte_addr e)) (va mod 4096).
Proof.
  unfold byte_view, page_view. destruct (user_page m a _ _) as [pg|] eqn:Hp; [|done].
  intros [= <-]. apply user_page_leaf in Hp as (e&He&->); [|done]. by exists e.
Qed.

Lemma pte_addr_page e : pte_addr e mod 4096 = 0.
Proof.
  pose proof (pte_addr_ok e) as Ho. unfold frame_ok in Ho. rewrite <-Ho.
  assert (Z.land (pte_addr e) ADDR_MASK mod 4096 = Z.land (Z.land (pte_addr e) ADDR_MASK) (Z.ones 12)) as ->
    by (rewrite Z.land_ones by lia; done).
  rewrite <-Z.land_assoc. change (Z.land ADDR_MASK (Z.ones 12)) with 0. by rewrite Z.land_0_r.
Qed.

(** A load of the kernel on a user page yields the byte the process sees. *)
Lemma peek_user m a va b v :
  byte_view m a va = Some b → peek m a va = Some v → v = b.
Proof.
  intros (e&He&->)%byte_view_leaf. unfold peek. destruct (kernel_addr m a false va) as [pa|] eqn:Hpa; [|done].
  intros [= <-]. apply kernel_addr_user with (e := e) in Hpa as [-> _]; [|done].
  rewrite pbyte_frame; [done|apply pte_addr_page|]. clear. lia.
Qed.

Lemma peek_bytes_lookup m a va n bs i :
  peek_bytes m a va n = Some bs → (i < n)%nat →
  ∃ v, bs !! i = Some v ∧ peek m a (wrap64 (va + Z.of_nat i)) = Some v.
Proof.
  intros Hp Hi. unfold peek_bytes in Hp. apply mapM_Some in Hp.
  destruct (Forall2_lookup_l _ _ _ i (Z.of_nat i) Hp) as (v&Hv&Hpk); [|by exists v].
  apply lookup_seqZ. lia.
Qed.
Lemma peek_bytes_length m a va n bs : peek_bytes m a va n = Some bs → length bs = n.
Proof.
  intros Hp%mapM_Some%Forall2_length. rewrite <-Hp, length_seqZ. lia.
Qed.

(** Reading a buffer of the process yields its bytes. *)
Lemma peek_bytes_user m a va n bs :
  0 ≤ va → va + Z.of_nat n ≤ 2 ^ 47 → (∀ x, va ≤ x < va + Z.of_nat n → is_Some (byte_view m a x)) →
  peek_bytes m a va n = Some bs →
  length bs = n ∧ ∀ i, (i < n)%nat → bs !! i = byte_view m a (va + Z.of_nat i).
Proof.
  intros Hva Hend Hall Hp. split; [by eapply peek_bytes_length|]. intros i Hi.
  destruct (peek_bytes_lookup _ _ _ _ _ i Hp Hi) as (v&Hv&Hpk).
  rewrite wrap_small in Hpk by (clear -Hva Hend Hi; lia).
  destruct (Hall (va + Z.of_nat i)) as [b Hb]; [clear -Hi; lia|].
  rewrite Hv, Hb. f_equal. by eapply peek_user.
Qed.

(** ** Stores *)

(** A store of the kernel to a page the process may write shows to that process
    and to nobody else. *)
Lemma poke_byte A s a va pa b :
  vm_ok K A s → a ∈ A → 0 ≤ va < 2 ^ 47 → byte_ok b → write_view (ph_mem s) a va = true →
  kernel_addr (ph_mem s) a true va = Some pa →
  let s' := Phys (set_pbyte (ph_mem s) pa b) (ph_fa s) in
  kept K A a s s' ∧
  (∀ x, 0 ≤ x < 2 ^ 47 → byte_view (ph_mem s') a x = if decide (x = va) then Some b else byte_view (ph_mem s) a x) ∧
  (∀ x, 0 ≤ x < 2 ^ 47 → write_view (ph_mem s') a x = write_view (ph_mem s) a x).
Proof.
  intros Hok Ha Hva Hb Hw Hpa s'. apply can_write_leaf in Hw as (e&Hul&Hwe); [|done].
  apply kernel_addr_user with (e := e) in Hpa as [-> _]; [|done].
  set (f := pte_addr e) in *. assert (f mod 4096 = 0) as Hf by apply pte_addr_page.
  pose proof (va_pos_pos va) as (Hp&_&Hi). assert (space K A a) as Has by (by left).
  assert (frame_of (f + va mod 4096) = f) as Hff by (apply frame_of_add; [done|clear; lia]).
  assert (∀ g, g ≠ f → page_at (ph_mem s') g = page_at (ph_mem s) g) as Hg.
  { intros g Hg. unfold s'. cbn [ph_mem]. unfold set_pbyte. by rewrite Hff, page_at_insert, decide_False. }
  destruct (private_write K A s s' a (va_path va) (va_index 0 va) e) as (Hq&Hok'&Hpg&Hpg'&Hwv&Hoth); try done.
  { intros b' q j e' Hb' (Hq&_&Hj) Hul' Heq.
    destruct (vo_cow _ _ _ Hok a (va_path va) (va_index 0 va) e b' q j e') as (->&->&->); try done. by left. }
  split_and!.
  - split; [done|by split| |].
    + intros page'. by apply user_ok_quiet with A.
    + intros b' q j Hb' Hpq Hne. split; [|by apply Hwv]. apply Hoth; [done..|congruence].
  - intros x Hx. unfold byte_view, page_view. destruct (decide (page_of x = page_of va)) as [Heq|Hne].
    + destruct (page_of_key x va) as [-> ->]; [lia|lia|done|]. rewrite Hpg, Hpg'.
      cbn [fmap option_fmap option_map]. fold f. rewrite <-!(pbyte_frame _ f) by (clear -Hf; lia).
      unfold s'. cbn [ph_mem]. rewrite pbyte_set_pbyte by done. unfold page_of in Heq.
      destruct (decide (x = va)) as [->|Hxv]; [by rewrite decide_True|].
      rewrite decide_False; [done|]. clear -Heq Hxv. lia.
    + rewrite Hoth; [|done|apply va_pos_pos|].
      * rewrite decide_False; [done|]. intros ->. done.
      * intros [= G1 G2 G3 G4]. apply Hne, user_page_of_inj; [lia|lia| |done]. unfold va_path. congruence.
  - intros x Hx. apply Hwv; [done|apply va_pos_pos].
Qed.

(** The views of [a] after a buffer has been filled. *)
Record filled (A : gset Z) (a va : Z) (bs : bytes) (s s' : phys) : Prop := {
  fl_kept : kept K A a s s';
  fl_bytes x : 0 ≤ x < 2 ^ 47 → byte_view (ph_mem s') a x =
    if decide (va ≤ x < va + Z.of_nat (length bs)) then bs !! Z.to_nat (x - va) else byte_view (ph_mem s) a x;
  fl_write x : 0 ≤ x < 2 ^ 47 → write_view (ph_mem s') a x = write_view (ph_mem s) a x;
}.

Lemma poke_bytes_user A s a va bs m' :
  vm_ok K A s → a ∈ A → 0 ≤ va → va + Z.of_nat (length bs) ≤ 2 ^ 47 → Forall byte_ok bs →
  (∀ x, va ≤ x < va + Z.of_nat (length bs) → write_view (ph_mem s) a x = true) →
  poke_bytes (ph_mem s) a va bs = Some m' →
  filled A a va bs s (Phys m' (ph_fa s)).
Proof.
  revert va s. induction bs as [|b bs IH]; intros va s Hok Ha Hva Hend Hbs Hw Hp.
  { injection Hp as <-. destruct s as [m fa]. split; [by apply kept_refl| |done]. intros x Hx.
    rewrite decide_False; [done|]. cbn. clear. lia. }
  cbn [length] in *. apply Forall_cons in Hbs as [Hb Hbs]. cbn [poke_bytes] in Hp.
  destruct (kernel_addr (ph_mem s) a true va) as [pa|] eqn:Hpa; [|done]. cbn in Hp.
  destruct (poke_byte A s a va pa b) as (Hk&Hby&Hwr); [done|done|lia|done|apply Hw; lia|done|].
  set (s1 := Phys _ _) in *. rewrite wrap_small in Hp by lia.
  destruct (IH (va + 1) s1) as [Hk2 Hby2 Hwr2]; [apply Hk|done|lia|lia|done| |done|].
  { intros x Hx. rewrite Hwr by lia. apply Hw. lia. }
  split.
  - exact (user_kept_trans K A a s s1 _ Hk Hk2).
  - intros x Hx. rewrite Hby2, Hby by done. cbn [length].
    destruct (decide (x = va)) as [->|Hne].
    + rewrite decide_False by lia. rewrite decide_True by lia. by rewrite Z.sub_diag.
    + destruct (decide (va + 1 ≤ x < va + 1 + Z.of_nat (length bs))).
      * rewrite decide_True by lia. by replace (Z.to_nat (x - va)) with (S (Z.to_nat (x - (va + 1)))) by lia.
      * by rewrite decide_False by lia.
  - intros x Hx. by rewrite Hwr2, Hwr.
Qed.
End views.
