(* ===== verification/Irq.v ===== *)
(** * Interrupts for driver tasks (driver/irq.rs)

    The bridge from the interrupt handlers to the driver tasks: a line counts
    what has been delivered, and a driver sleeps until the count is positive.
    The machine of this file interleaves handlers, drivers and the rest of the
    kernel; nothing delivered is lost, and no driver sleeps while its line has
    interrupts pending. *)

From S2P Require Import Prelude Signal Task TaskSpec TaskTree TaskSteps TaskRun TaskProps.

Module Irq.

(** [driver/irq.rs:27-27, !NUM_IRQS] *)
Definition NUM_IRQS : nat := 16.

(** [driver/irq.rs:30-41, IrqLine] *)
Record IrqLine := Line { pending : Z; waiter : Z; owner : Z; count : Z }.

(** [driver/irq.rs:44-51, IrqLine::new] *)
Definition line_new : IrqLine := Line 0 0 0 0.
(** [driver/irq.rs:56-57, !LINES] *)
Definition LINES : list IrqLine := replicate NUM_IRQS line_new.

Definition set_pending (x : Z) (l : IrqLine) : IrqLine := Line x (waiter l) (owner l) (count l).
Definition set_waiter (x : Z) (l : IrqLine) : IrqLine := Line (pending l) x (owner l) (count l).
Definition set_owner (x : Z) (l : IrqLine) : IrqLine := Line (pending l) (waiter l) x (count l).

(** [driver/irq.rs:61-75, register] *)
Definition register (irq : nat) (task : Z) (ls : list IrqLine) : bool * list IrqLine :=
  match ls !! irq with
  | None => (false, ls)
  | Some l =>
      if owner l =? 0 then (true, <[irq := set_owner task l]> ls) else (owner l =? task, ls)
  end.

(** [driver/irq.rs:124-131, stats] *)
Definition stats (irq : nat) (ls : list IrqLine) : option (Z * Z) :=
  (λ l, (owner l, count l)) <$> ls !! irq.

Section irq.
Context {W : Type} `{TE : TaskEnv W}.
Implicit Types k : kernel W.
Abbreviation state := (list IrqLine * kernel W)%type.

(** [LINES[irq]], changed. *)
Definition on_line (irq : nat) (f : IrqLine → IrqLine) (ls : list IrqLine) : list IrqLine :=
  match ls !! irq with Some l => <[irq := f l]> ls | None => ls end.

(** One look of [wait], with interrupts disabled: what is pending is taken, or
    the task registers as the waiter and sleeps.  The index panics for a line
    that does not exist. *)
(** [driver/irq.rs:82-103, wait] *)
Definition wait_round (irq : nat) (me : Z) : stm state Empty_set (option Z) := λ '(ls, k),
  match ls !! irq with
  | None => (Panic, (ls, k))
  | Some l =>
      if 0 <? pending l then (Ok (Some (pending l)), (<[irq := set_pending 0 l]> ls, k))
      else (Ok None, (<[irq := set_waiter me l]> ls, block_current_and_schedule k))
  end.
(** Back from the switch: the waiter is cleared, and the loop looks again. *)
Definition wait_resume (irq : nat) (me : Z) : stm state Empty_set (option Z) := λ '(ls, k),
  wait_round irq me (on_line irq (set_waiter 0) ls, k).

(** [driver/irq.rs:108-121, notify_from_isr] *)
Definition notify_from_isr (irq : nat) '((ls, k) : state) : state :=
  match ls !! irq with
  | None => (ls, k)
  | Some l =>
      let l' := Line (wrap64 (pending l + 1)) (waiter l) (owner l) (wrap64 (count l + 1)) in
      (<[irq := l']> ls, if waiter l =? 0 then k else unblock (waiter l) k)
  end.

(** ** The machine: which driver is inside [wait], and on which line *)

Record machine := Machine { m_lines : list IrqLine; m_k : kernel W; m_in : gmap Z nat }.

Inductive event := EServed (irq : nat) (n : Z) | EInterrupt (irq : nat) | EOther.

(** A task that sleeps, and one that sleeps on a line. *)
Definition asleep (w : Z) (k : kernel W) : Prop := ∃ t, find_task w k = Some t ∧ t_state t = Blocked.

Inductive irq_step : machine → event → machine → Prop :=
(* a handler runs between any two steps *)
| is_isr ls k inn irq : (irq < length ls)%nat →
    let s := notify_from_isr irq (ls, k) in
    irq_step (Machine ls k inn) (EInterrupt irq) (Machine s.1 s.2 inn)
(* the owner of a line calls [wait] *)
| is_wait ls k inn irq t l r ls' k' :
    runs k t → t_id t ≠ 0 → inn !! t_id t = None → ls !! irq = Some l → owner l = t_id t →
    wait_round irq (t_id t) (ls, k) = (Ok r, (ls', k')) →
    irq_step (Machine ls k inn) (match r with Some n => EServed irq n | None => EOther end)
      (Machine ls' k' (match r with Some _ => inn | None => <[t_id t := irq]> inn end))
(* and goes on when it is scheduled again *)
| is_resume ls k inn irq t r ls' k' :
    runs k t → inn !! t_id t = Some irq →
    wait_resume irq (t_id t) (ls, k) = (Ok r, (ls', k')) →
    irq_step (Machine ls k inn) (match r with Some n => EServed irq n | None => EOther end)
      (Machine ls' k' (match r with Some _ => delete (t_id t) inn | None => inn end))
| is_register ls k inn irq t : runs k t → inn !! t_id t = None →
    irq_step (Machine ls k inn) EOther (Machine (register irq (t_id t) ls).2 k inn)
(* the rest of the kernel puts nobody to sleep who is inside [wait] *)
| is_other ls k inn k' :
    cpu_ok k' → (∀ w irq, inn !! w = Some irq → asleep w k' → asleep w k) →
    irq_step (Machine ls k inn) EOther (Machine ls k' inn).

Inductive irq_run : machine → list event → machine → Prop :=
| ir_nil m : irq_run m [] m
| ir_cons m e m1 tr m2 : irq_step m e m1 → irq_run m1 tr m2 → irq_run m (e :: tr) m2.

(** Interrupts handed to drivers, and interrupts raised, on a line. *)
Definition served (irq : nat) (tr : list event) : Z :=
  foldr (λ e n, match e with EServed i x => if decide (i = irq) then x + n else n | _ => n end) 0 tr.
Definition raised (irq : nat) (tr : list event) : Z :=
  foldr (λ e n, match e with EInterrupt i => if decide (i = irq) then 1 + n else n | _ => n end) 0 tr.

(** ** Who sleeps *)

Lemma asleep_schedule w k : cpu_ok k → asleep w (schedule k) → asleep w k.
Proof.
  intros Hok (t'&Ht'&Hb). pose proof (same_but_marks_find _ _ w (schedule_marks k Hok)) as Hf.
  rewrite Ht' in Hf. inversion Hf as [t ? Hr Heq|]; subst. exists t. split; [done|].
  destruct Hr as [->|[_ (x&Hx&->)]]; [done|]. rewrite with_state_state in Hb. subst. by destruct Hx.
Qed.
Lemma asleep_unblock w id k : cpu_ok k → asleep w (unblock id k) → asleep w k ∧ w ≠ id.
Proof.
  intros Hok (t'&Ht'&Hb). unfold unblock in Ht'.
  rewrite find_task_upd_id in Ht' by (apply keeps_woken || apply Hok). case_decide as Hd.
  - destruct (find_task w k) as [t|]; [|done]. injection Ht' as <-. unfold woken in Hb.
    case_bool_decide; [|done]. rewrite with_state_state in Hb. done.
  - split; [by exists t'|done].
Qed.
Lemma cpu_ok_unblock id k : cpu_ok k → cpu_ok (unblock id k).
Proof.
  apply cpu_ok_upd_id; [apply keeps_woken|]. intros t _. unfold woken.
  case_bool_decide; [by rewrite with_state_state|done].
Qed.
Lemma cpu_ok_blocked k t : cpu_ok k → runs k t → cpu_ok (upd_cur (with_state Blocked) k).
Proof.
  intros Hok [Ht _]. rewrite (upd_cur_id _ t) by (done || apply Hok).
  apply cpu_ok_upd_id; [apply keeps_with_state| |done]. intros u _. by rewrite with_state_state.
Qed.
Lemma asleep_block w k t :
  cpu_ok k → runs k t → asleep w (block_current_and_schedule k) → w = t_id t ∨ asleep w k.
Proof.
  intros Hok Hr Ha. pose proof (cpu_ok_blocked k t Hok Hr) as Hok'.
  apply asleep_schedule in Ha as (t'&Ht'&Hb); [|done]. destruct Hr as [Ht _].
  rewrite (upd_cur_id _ t) in Ht' by (done || apply Hok).
  rewrite find_task_upd_id in Ht' by (apply keeps_with_state || apply Hok).
  case_decide; [by left|]. right. by exists t'.
Qed.

(** ** The invariant *)

Record machine_ok (m : machine) : Prop := {
  mo_cpu : cpu_ok (m_k m);
  (* who is inside [wait] owns the line and is its waiter *)
  mo_in w irq : m_in m !! w = Some irq → w ≠ 0 ∧
    ∃ l, m_lines m !! irq = Some l ∧ owner l = w ∧ waiter l = w;
  mo_waiter irq l : m_lines m !! irq = Some l → waiter l ≠ 0 → m_in m !! waiter l = Some irq;
  (* and does not sleep over a pending interrupt *)
  mo_awake irq l : m_lines m !! irq = Some l → waiter l ≠ 0 → 0 < pending l → ¬ asleep (waiter l) (m_k m);
  mo_pending irq l : m_lines m !! irq = Some l → 0 ≤ pending l }.

Lemma machine_ok_put ls k inn irq l l' k' inn' :
  machine_ok (Machine ls k inn) → ls !! irq = Some l → cpu_ok k' → 0 ≤ pending l' →
  (waiter l' ≠ 0 → owner l' = waiter l') →
  (∀ w j, j ≠ irq → inn' !! w = Some j ↔ inn !! w = Some j) →
  (∀ w, inn' !! w = Some irq ↔ w ≠ 0 ∧ w = waiter l') →
  (∀ w, asleep w k' → asleep w k ∨ w = waiter l' ∧ pending l' = 0) →
  (waiter l' ≠ 0 → 0 < pending l' → ¬ asleep (waiter l') k') →
  machine_ok (Machine (<[irq := l']> ls) k' inn').
Proof.
  intros [H1 H2 H3 H4 H5] Hl Hc Hp Ho Hin Hirq Hsl Haw.
  assert (∀ j x, <[irq := l']> ls !! j = Some x → j = irq ∧ x = l' ∨ j ≠ irq ∧ ls !! j = Some x) as Hlk.
  { intros j x Hx. apply list_lookup_insert_Some in Hx as [(->&->&_)|[??]]; [by left|by right]. }
  assert (<[irq := l']> ls !! irq = Some l') as Hself.
  { apply list_lookup_insert_eq. by eapply lookup_lt_Some. }
  split; cbn [m_lines m_k m_in] in *; [done|..].
  - intros w j Hw. destruct (decide (j = irq)) as [->|Hne].
    + apply Hirq in Hw as [Hw ->]. split; [done|]. exists l'. split_and!; [done|by apply Ho|done].
    + apply Hin in Hw; [|done]. destruct (H2 w j Hw) as (Hw0&x&Hx&?). split; [done|]. exists x.
      by rewrite list_lookup_insert_ne.
  - intros j x [[-> ->]|[Hne Hx]]%Hlk Hx0; [by apply Hirq|]. apply Hin; [done|]. by apply (H3 j x).
  - intros j x [[-> ->]|[Hne Hx]]%Hlk Hx0 Hp0; [by apply Haw|]. intros Ha.
    apply Hsl in Ha as [Ha|[Hw _]]; [by eapply H4|].
    assert (inn' !! waiter l' = Some irq) as Hi by (apply Hirq; split; [congruence|done]).
    assert (inn' !! waiter x = Some j) as Hj by (apply Hin; [done|by apply (H3 j x)]). congruence.
  - intros j x [[-> ->]|[_ Hx]]%Hlk; [done|]. by eapply H5.
Qed.

(** The invariant without a change of the lines. *)
Lemma machine_ok_other ls k inn k' :
  machine_ok (Machine ls k inn) → cpu_ok k' → (∀ w irq, inn !! w = Some irq → asleep w k' → asleep w k) →
  machine_ok (Machine ls k' inn).
Proof.
  intros [H1 H2 H3 H4 H5] Hc Hs. split; cbn [m_lines m_k m_in] in *; try done.
  intros irq l Hl Hw Hp Ha. eapply (H4 irq l); [done..|]. eapply Hs; [|done]. by apply (H3 irq l).
Qed.

Lemma isr_ok ls k inn irq : machine_ok (Machine ls k inn) →
  let s := notify_from_isr irq (ls, k) in machine_ok (Machine s.1 s.2 inn).
Proof.
  intros Hok. cbn [notify_from_isr]. destruct (ls !! irq) as [l|] eqn:Hl; [|done]. cbn [fst snd].
  pose proof Hok as [H1 H2 H3 H4 H5]. cbn [m_lines m_k m_in] in *.
  apply (machine_ok_put ls k inn irq l); cbn [pending waiter owner]; try done.
  - destruct (_ =? 0); [done|by apply cpu_ok_unblock].
  - apply Z.mod_pos_bound. lia.
  - intros Hw. destruct (H2 _ _ (H3 irq l Hl Hw)) as (_&x&Hx&Hox&_). congruence.
  - intros w. split.
    + intros Hw. destruct (H2 w irq Hw) as (?&x&Hx&_&?). split; [done|]. congruence.
    + intros [Hw ->]. by apply H3.
  - intros w. destruct (Z.eqb_spec (waiter l) 0); [by left|]. intros Ha.
    apply asleep_unblock in Ha as [Ha _]; [by left|done].
  - intros Hw _. destruct (Z.eqb_spec (waiter l) 0); [done|]. intros Ha.
    by apply asleep_unblock in Ha as [_ ?].
Qed.

(** A look of [wait] by the owner, once the line has no other waiter. *)
Lemma round_ok ls k inn irq t l r ls' k' :
  machine_ok (Machine ls k inn) → runs k t → t_id t ≠ 0 → inn !! t_id t = None →
  ls !! irq = Some l → owner l = t_id t →
  wait_round irq (t_id t) (ls, k) = (Ok r, (ls', k')) →
  machine_ok (Machine ls' k' (match r with Some _ => inn | None => <[t_id t := irq]> inn end)).
Proof.
  intros Hok Hr Hid Hno Hl Ho. cbn [wait_round]. rewrite Hl.
  pose proof Hok as [H1 H2 H3 H4 H5]. cbn [m_lines m_k m_in] in *.
  assert (waiter l = 0) as Hw0.
  { destruct (decide (waiter l = 0)) as [|Hw]; [done|]. pose proof (H3 irq l Hl Hw) as Hi.
    destruct (H2 _ _ Hi) as (_&x&Hx&Hox&_). assert (waiter l = t_id t) as He by congruence.
    rewrite He in Hi. congruence. }
  destruct (Z.ltb_spec 0 (pending l)) as [Hp|Hp]; intros [= <- <- <-].
  - apply (machine_ok_put ls k inn irq l); cbn [pending waiter owner set_pending]; try done.
    + intros w. rewrite Hw0. split; [|by intros [? ->]]. intros Hw.
      destruct (H2 w irq Hw) as (?&x&Hx&_&?). congruence.
    + intros w Ha. by left.
  - pose proof (H5 irq l Hl) as Hp0.
    apply (machine_ok_put ls k inn irq l); cbn [pending waiter owner set_waiter]; try done.
    + apply schedule_cpu. by eapply cpu_ok_blocked.
    + intros w j Hne. rewrite lookup_insert_Some. split; [|intros Hw; right; split; congruence].
      intros [[_ ?]|[_ ?]]; [congruence|done].
    + intros w. rewrite lookup_insert_Some. split.
      * intros [[<- _]|[Hne Hw]]; [done|]. destruct (H2 w irq Hw) as (?&x&Hx&_&?). congruence.
      * intros [_ ->]. by left.
    + intros w Ha. destruct (asleep_block w k t H1 Hr Ha) as [->|]; [right|by left]. split; [done|lia].
    + lia.
Qed.

Lemma irq_step_ok m e m' : machine_ok m → irq_step m e m' → machine_ok m'.
Proof.
  intros Hok Hst. destruct Hst as [ls k inn irq Hi s|ls k inn irq t l r ls' k' Hr Hid Hno Hl Ho Hrd
    |ls k inn irq t r ls' k' Hr Hin Hrs|ls k inn irq t Hr Hno|ls k inn k' Hc Hs].
  - by apply isr_ok.
  - by eapply round_ok.
  - (* the line without its waiter is the state of a first look *)
    pose proof Hok as [H1 H2 H3 H4 H5]. cbn [m_lines m_k m_in] in *.
    destruct (H2 _ _ Hin) as (Hid&l&Hl&Ho&Hw).
    cbn [wait_resume] in Hrs. unfold on_line in Hrs. rewrite Hl in Hrs.
    set (ls1 := <[irq := set_waiter 0 l]> ls) in *.
    assert (ls1 !! irq = Some (set_waiter 0 l)) as Hl1.
    { apply list_lookup_insert_eq. by eapply lookup_lt_Some. }
    assert (machine_ok (Machine ls1 k (delete (t_id t) inn))) as Hok'.
    { apply (machine_ok_put ls k inn irq l); cbn [pending waiter owner set_waiter]; try done.
      - by apply (H5 irq).
      - intros w j Hne. rewrite lookup_delete_Some. split; [by intros [_ ?]|]. intros Hj.
        split; [|done]. intros <-. congruence.
      - intros w. rewrite lookup_delete_Some. split; [|by intros [? ->]]. intros [Hne Hw'].
        destruct (H2 w irq Hw') as (?&x&Hx&?&?). congruence.
      - intros w Ha. by left. }
    assert (delete (t_id t) inn !! t_id t = None) as Hd by apply lookup_delete_eq.
    pose proof (round_ok ls1 k _ irq t _ r ls' k' Hok' Hr Hid Hd Hl1 Ho Hrs) as Hok2.
    destruct r as [n|]; [done|]. by rewrite insert_delete_id in Hok2.
  - unfold register. destruct (ls !! irq) as [l|] eqn:Hl; [|done].
    destruct (Z.eqb_spec (owner l) 0) as [Ho|]; [|done]. cbn [snd].
    pose proof Hok as [H1 H2 H3 H4 H5]. cbn [m_lines m_k m_in] in *.
    assert (∀ w, inn !! w ≠ Some irq) as Hnone.
    { intros w Hw. destruct (H2 w irq Hw) as (?&x&Hx&?&_). congruence. }
    assert (waiter l = 0) as Hw0.
    { destruct (decide (waiter l = 0)) as [|Hw]; [done|]. by destruct (Hnone (waiter l) (H3 irq l Hl Hw)). }
    apply (machine_ok_put ls k inn irq l); cbn [pending waiter owner set_owner]; try done.
    + by apply (H5 irq).
    + intros w. split; [intros Hw; by destruct (Hnone w)|]. rewrite Hw0. by intros [? ->].
    + intros w Ha. by left.
  - by eapply machine_ok_other.
Qed.

(** ** Accounting *)

Lemma round_counts ls k irq me r ls' k' j l :
  wait_round irq me (ls, k) = (Ok r, (ls', k')) → ls !! j = Some l → 0 ≤ pending l →
  ∃ l', ls' !! j = Some l' ∧
    (match r with Some n => if decide (j = irq) then n else 0 | None => 0 end) + pending l' = pending l.
Proof.
  cbn [wait_round]. destruct (ls !! irq) as [x|] eqn:Hx; [|done]. intros Hrd Hl Hp.
  pose proof (lookup_lt_Some _ _ _ Hx) as Hlt.
  destruct (Z.ltb_spec 0 (pending x)); injection Hrd as <- <- <-.
  - destruct (decide (j = irq)) as [->|Hne].
    + exists (set_pending 0 x). rewrite list_lookup_insert_eq by done. simplify_eq. split; [done|]. simpl. lia.
    + exists l. by rewrite list_lookup_insert_ne.
  - destruct (decide (j = irq)) as [->|Hne].
    + exists (set_waiter me x). rewrite list_lookup_insert_eq by done. by simplify_eq.
    + exists l. by rewrite list_lookup_insert_ne.
Qed.

Lemma step_counts m e m' irq l :
  irq_step m e m' → m_lines m !! irq = Some l → 0 ≤ pending l < 2 ^ 64 - 1 →
  ∃ l', m_lines m' !! irq = Some l' ∧ served irq [e] + pending l' = pending l + raised irq [e] ∧
    0 ≤ served irq [e].
Proof.
  intros Hst Hl Hp. destruct Hst as [ls k inn i Hi s|ls k inn i t x r ls' k' Hr Hid Hno Hx Ho Hrd
    |ls k inn i t r ls' k' Hr Hin Hrs|ls k inn i t Hr Hno|ls k inn k' Hc Hs]; cbn [m_lines] in *.
  - unfold s. cbn [notify_from_isr]. destruct (ls !! i) as [x|] eqn:Hx; [|by apply lookup_ge_None in Hx; lia].
    cbn [fst m_lines]. unfold raised, served. cbn [foldr]. destruct (decide (i = irq)) as [->|Hne].
    + simplify_eq. rewrite list_lookup_insert_eq by done. eexists. split; [done|]. cbn [pending].
      rewrite wrap_small by lia. lia.
    + rewrite list_lookup_insert_ne by done. exists l. split; [done|]. lia.
  - destruct (round_counts ls k i _ r ls' k' irq l Hrd Hl) as (l'&Hl'&Hc); [lia|]. exists l'. split; [done|].
    assert (match r with Some n => 0 < n | None => True end) as Hpos.
    { cbn [wait_round] in Hrd. rewrite Hx in Hrd. destruct (Z.ltb_spec 0 (pending x)); injection Hrd as <- <- <-; cbn; [lia|done]. }
    destruct r; unfold served, raised; cbn [foldr]; repeat case_decide; subst; try lia; done.
  - cbn [wait_resume] in Hrs. unfold on_line in Hrs.
    assert (∃ l1, match ls !! i with Some l => <[i := set_waiter 0 l]> ls | None => ls end !! irq = Some l1 ∧
      pending l1 = pending l) as (l1&Hl1&Hp1).
    { destruct (ls !! i) as [x|] eqn:Hx; [|by exists l]. pose proof (lookup_lt_Some _ _ _ Hx).
      destruct (decide (i = irq)) as [->|].
      - simplify_eq. rewrite list_lookup_insert_eq by done. by eexists.
      - rewrite list_lookup_insert_ne by done. by exists l. }
    destruct (round_counts _ k i _ r ls' k' irq l1 Hrs Hl1) as (l'&Hl'&Hc); [lia|]. exists l'. split; [done|].
    assert (match r with Some n => 0 < n | None => True end) as Hpos.
    { cbn [wait_round] in Hrs. destruct (_ !! i) as [x|]; [|done].
      destruct (Z.ltb_spec 0 (pending x)); injection Hrs as <- <- <-; cbn; [lia|done]. }
    rewrite Hp1 in Hc. destruct r; unfold served, raised; cbn [foldr]; repeat case_decide; subst; try lia; done.
  - assert (∃ l', (register i (t_id t) ls).2 !! irq = Some l' ∧ pending l' = pending l) as (l'&Hl'&Hp').
    { unfold register. destruct (ls !! i) as [x|] eqn:Hx; cbn [snd]; [|by exists l].
      destruct (owner x =? 0); cbn [snd]; [|by exists l].
      destruct (decide (i = irq)) as [->|].
      - simplify_eq. rewrite list_lookup_insert_eq by (by eapply lookup_lt_Some). by eexists.
      - rewrite list_lookup_insert_ne by done. by exists l. }
    exists l'. unfold served, raised. cbn [foldr]. split_and!; [done|lia|lia].
  - exists l. unfold served, raised. cbn [foldr]. split_and!; [done|lia|lia].
Qed.

Lemma served_cons irq e tr : served irq (e :: tr) = served irq [e] + served irq tr.
Proof. unfold served. cbn [foldr]. destruct e; try lia. case_decide; lia. Qed.
Lemma raised_cons irq e tr : raised irq (e :: tr) = raised irq [e] + raised irq tr.
Proof. unfold raised. cbn [foldr]. destruct e; try lia. case_decide; lia. Qed.
Lemma raised_nonneg irq tr : 0 ≤ raised irq tr.
Proof. induction tr as [|e tr IH]; [done|]. unfold raised in *. cbn [foldr]. destruct e; try lia. case_decide; lia. Qed.

Lemma run_counts m tr m' irq l :
  irq_run m tr m' → machine_ok m → m_lines m !! irq = Some l → pending l + raised irq tr < 2 ^ 64 - 1 →
  ∃ l', m_lines m' !! irq = Some l' ∧ served irq tr + pending l' = pending l + raised irq tr.
Proof.
  intros Hrun. revert l. induction Hrun as [m|m e m1 tr m2 Hst Hrun IH]; intros l Hok Hl Hb.
  { exists l. split; [done|]. unfold served, raised. simpl. lia. }
  pose proof (mo_pending _ Hok irq l Hl) as Hp. pose proof (raised_nonneg irq tr) as Hn.
  pose proof (raised_nonneg irq [e]) as Hn1. rewrite raised_cons in Hb.
  destruct (step_counts m e m1 irq l Hst Hl) as (l1&Hl1&Hc&Hs); [lia|].
  destruct (IH l1) as (l2&Hl2&Hc2); [by eapply irq_step_ok|done|lia|].
  exists l2. split; [done|]. rewrite served_cons, raised_cons. lia.
Qed.

Lemma irq_run_ok m tr m' : machine_ok m → irq_run m tr m' → machine_ok m'.
Proof. intros Hok Hrun. induction Hrun; [done|]. apply IHHrun. by eapply irq_step_ok. Qed.

(** C32: No interrupt is lost.  Along any interleaving of interrupt handlers,
    drivers in [wait] and the rest of the kernel, what the drivers of a line have
    been told of and what is pending add up to what was pending before and what
    has been raised since; and a driver inside [wait] does not sleep while its
    line has an interrupt pending, so the scheduler brings it back. *)
Theorem interrupts_not_lost m tr m' irq l :
  machine_ok m → irq_run m tr m' → m_lines m !! irq = Some l → pending l + raised irq tr < 2 ^ 64 - 1 →
  ∃ l', m_lines m' !! irq = Some l' ∧ served irq tr + pending l' = pending l + raised irq tr ∧
    ∀ w, m_in m' !! w = Some irq → 0 < pending l' → ¬ asleep w (m_k m').
Proof.
  intros Hok Hrun Hl Hb. destruct (run_counts m tr m' irq l Hrun Hok Hl Hb) as (l'&Hl'&Hc).
  exists l'. split_and!; [done..|]. intros w Hw Hp. pose proof (irq_run_ok m tr m' Hok Hrun) as Hok'.
  destruct (mo_in _ Hok' w irq Hw) as (Hw0&x&Hx&_&Hwx). rewrite Hl' in Hx. injection Hx as <-.
  rewrite <-Hwx in Hw0. rewrite <-Hwx. by apply (mo_awake _ Hok' irq l').
Qed.
End irq.

(** ** Witness: the user process as the driver of line 1

    It takes one interrupt, goes to sleep, and the next one wakes it. *)

Definition lines0 : list IrqLine := (register 1 2 LINES).2.
Definition s1 : list IrqLine * test_kernel := notify_from_isr 1 (lines0, k_sh).
Definition s2 : list IrqLine * test_kernel := (wait_round 1 2 s1).2.
Definition s3 : list IrqLine * test_kernel := (wait_round 1 2 s2).2.
Definition s4 : list IrqLine * test_kernel := notify_from_isr 1 s3.
Lemma s2_run : wait_round 1 2 (s1.1, s1.2) = (Ok (Some 1), (s2.1, s2.2)).
Proof. vm_compute. reflexivity. Qed.
Lemma s3_run : wait_round 1 2 (s2.1, s2.2) = (Ok None, (s3.1, s3.2)).
Proof. vm_compute. reflexivity. Qed.

Lemma lines0_length : (1 < length lines0)%nat.
Proof. vm_compute. lia. Qed.
Lemma s3_length : (1 < length s3.1)%nat.
Proof. vm_compute. lia. Qed.
Definition line_of (s : list IrqLine * test_kernel) : IrqLine := default line_new (s.1 !! 1%nat).
Lemma s1_line : s1.1 !! 1%nat = Some (line_of s1) ∧ owner (line_of s1) = t_id (cur_of s1.2) ∧ t_id (cur_of s1.2) = 2.
Proof. split_and!; vm_compute; reflexivity. Qed.
Lemma s2_line : s2.1 !! 1%nat = Some (line_of s2) ∧ owner (line_of s2) = t_id (cur_of s2.2) ∧ t_id (cur_of s2.2) = 2.
Proof. split_and!; vm_compute; reflexivity. Qed.
Lemma s1_runs : runs s1.2 (cur_of s1.2).
Proof. running. Qed.
Lemma s2_runs : runs s2.2 (cur_of s2.2).
Proof. running. Qed.
Lemma s3_asleep : asleep 2 s3.2.
Proof. eexists. split; vm_compute; reflexivity. Qed.
#[local] Opaque lines0 k_sh s1 s2 s3.

Lemma machine0_ok : machine_ok (Machine lines0 k_sh ∅).
Proof.
  assert (Forall (λ l, pending l = 0 ∧ waiter l = 0) lines0) as Hz by (by apply (bool_decide_unpack _)).
  rewrite Forall_lookup in Hz. split; cbn [m_lines m_k m_in].
  - apply sh_ok.
  - intros w irq Hw. by rewrite lookup_empty in Hw.
  - intros irq l Hl Hw. by destruct (Hz irq l Hl).
  - intros irq l Hl Hw. by destruct (Hz irq l Hl).
  - intros irq l Hl. destruct (Hz irq l Hl) as [-> _]. done.
Qed.

Lemma demo_run : irq_run (Machine lines0 k_sh ∅)
  [EInterrupt 1; EServed 1 1; EOther; EInterrupt 1] (Machine s4.1 s4.2 (<[2 := 1%nat]> ∅)).
Proof.
  apply (ir_cons _ _ (Machine s1.1 s1.2 ∅)).
  { pose proof (is_isr lines0 k_sh ∅ 1 lines0_length) as Hs. exact Hs. }
  apply (ir_cons _ _ (Machine s2.1 s2.2 ∅)).
  { destruct s1_line as (Hl&Ho&Hid).
    pose proof (is_wait s1.1 s1.2 ∅ 1 _ (line_of s1) (Some 1) s2.1 s2.2 s1_runs) as Hs. rewrite Hid in *.
    exact (Hs ltac:(done) ltac:(done) Hl Ho s2_run). }
  apply (ir_cons _ _ (Machine s3.1 s3.2 (<[2 := 1%nat]> ∅))).
  { destruct s2_line as (Hl&Ho&Hid).
    pose proof (is_wait s2.1 s2.2 ∅ 1 _ (line_of s2) None s3.1 s3.2 s2_runs) as Hs. rewrite Hid in *.
    exact (Hs ltac:(done) ltac:(done) Hl Ho s3_run). }
  apply (ir_cons _ _ (Machine s4.1 s4.2 (<[2 := 1%nat]> ∅))); [|apply ir_nil].
  unfold s4. rewrite (surjective_pairing s3). exact (is_isr s3.1 s3.2 _ 1 s3_length).
Qed.

Example interrupts_not_lost_witness :
  asleep 2 s3.2 ∧ ∃ l', s4.1 !! 1%nat = Some l' ∧ 1 + pending l' = 0 + 2 ∧ ¬ asleep 2 s4.2.
Proof.
  split; [apply s3_asleep|].
  destruct (interrupts_not_lost _ _ _ 1 (Line 0 0 2 0) machine0_ok demo_run) as (l'&Hl'&Hc&Ha).
  - reflexivity.
  - reflexivity.
  - change (1 + pending l' = 0 + 2) in Hc. exists l'. split_and!; [done|exact Hc|].
    apply Ha; [apply lookup_insert_eq|]. lia.
Defined.
End Irq.
