(* ===== verification/ConsoleIn.v ===== *)
(** * The console's input (driver/console.rs)

    One decoder turns scancodes into characters, a ring buffer of 256 slots
    holds them, and tasks that found it empty sleep until the next character.
    The decoder is the [pc_keyboard] crate's, a class here. *)

From Stdlib Require Import ZifyNat.
From S2P Require Import Prelude Signal Task TaskSpec TaskTree TaskSteps TaskRun TaskProps Irq.

#[local] Ltac Zify.zify_post_hook ::= Z.to_euclidean_division_equations.

(** ** Keys *)

(** The sentinels of [keys]. *)
Module keys.
(** [driver/console.rs:30-30, !ARROW_UP] *)
Definition ARROW_UP : Z := 0x11.
(** [driver/console.rs:31-31, !ARROW_DOWN] *)
Definition ARROW_DOWN : Z := 0x12.
(** [driver/console.rs:32-32, !ARROW_LEFT] *)
Definition ARROW_LEFT : Z := 0x13.
(** [driver/console.rs:33-33, !ARROW_RIGHT] *)
Definition ARROW_RIGHT : Z := 0x14.
(** [driver/console.rs:34-34, !HOME] *)
Definition HOME : Z := 0x15.
(** [driver/console.rs:35-35, !END] *)
Definition END : Z := 0x16.
(** [driver/console.rs:36-36, !PAGE_UP] *)
Definition PAGE_UP : Z := 0x17.
(** [driver/console.rs:37-37, !PAGE_DOWN] *)
Definition PAGE_DOWN : Z := 0x18.
(** [driver/console.rs:38-38, !DELETE] *)
Definition DELETE : Z := 0x7f.
End keys.

Inductive KeyCode : Type :=
| ArrowUp | ArrowDown | ArrowLeft | ArrowRight | Home | End_ | PageUp | PageDown | Delete | OtherKey (code : Z).
Inductive DecodedKey : Type := Unicode (c : Z) | RawKey (code : KeyCode).

(** The crate: a byte may complete a key event, an event may yield a key. *)
Class KeyDecoder := {
  decoder : Type;
  key_event : Type;
  decoder_new : decoder;
  add_byte : Z → decoder → option key_event * decoder;
  process_keyevent : key_event → decoder → option DecodedKey * decoder;
}.

(** [driver/console.rs:92-105, raw_key_to_sentinel] *)
Definition raw_key_to_sentinel (code : KeyCode) : option Z :=
  match code with
  | ArrowUp => Some keys.ARROW_UP
  | ArrowDown => Some keys.ARROW_DOWN
  | ArrowLeft => Some keys.ARROW_LEFT
  | ArrowRight => Some keys.ARROW_RIGHT
  | Home => Some keys.HOME
  | End_ => Some keys.END
  | PageUp => Some keys.PAGE_UP
  | PageDown => Some keys.PAGE_DOWN
  | Delete => Some keys.DELETE
  | OtherKey _ => None
  end.

(** ** The ring buffer *)

(** [driver/console.rs:42-42, !CAP] *)
Definition CAP : nat := 256.

Section console.
Context `{KD : KeyDecoder}.

(** [driver/console.rs:45-52, ConsoleInput]; [DROPPED] is next to it. *)
Record ConsoleInput := Input {
  c_decoder : decoder; c_buf : list Z; c_head : nat; c_tail : nat; c_waiters : list Z; c_dropped : Z }.

(** [driver/console.rs:54-60, !INPUT] *)
Definition input_new : ConsoleInput := Input decoder_new (replicate CAP 0) 0 0 [] 0.

(** [driver/console.rs:108-117, push_char] *)
Definition push_char (c : Z) (s : ConsoleInput) : ConsoleInput :=
  let next := ((c_head s + 1) mod CAP)%nat in
  if decide (next = c_tail s) then
    Input (c_decoder s) (c_buf s) (c_head s) (c_tail s) (c_waiters s) (wrap64 (c_dropped s + 1))
  else Input (c_decoder s) (<[c_head s := c]> (c_buf s)) next (c_tail s) (c_waiters s) (c_dropped s).

(** [driver/console.rs:120-129, read_char] *)
Definition read_char (s : ConsoleInput) : option Z * ConsoleInput :=
  if decide (c_head s = c_tail s) then (None, s) else
  (c_buf s !! c_tail s,
   Input (c_decoder s) (c_buf s) (c_head s) ((c_tail s + 1) mod CAP)%nat (c_waiters s) (c_dropped s)).

(** [driver/console.rs:132-135, has_input] *)
Definition has_input (s : ConsoleInput) : bool := negb (bool_decide (c_head s = c_tail s)).

(** [driver/console.rs:140-143, flush] *)
Definition flush (s : ConsoleInput) : ConsoleInput :=
  Input (c_decoder s) (c_buf s) (c_head s) (c_head s) (c_waiters s) (c_dropped s).

Definition set_decoder (d : decoder) (s : ConsoleInput) : ConsoleInput :=
  Input d (c_buf s) (c_head s) (c_tail s) (c_waiters s) (c_dropped s).
Definition set_waiters (l : list Z) (s : ConsoleInput) : ConsoleInput :=
  Input (c_decoder s) (c_buf s) (c_head s) (c_tail s) l (c_dropped s).

(** ** With the tasks *)

Section tasks.
Context {W : Type} `{TE : TaskEnv W}.
Abbreviation state := (ConsoleInput * kernel W)%type.

(** [driver/console.rs:155-160, wake_waiters] *)
Definition wake_waiters '((s, k) : state) : state :=
  (set_waiters [] s, fold_left (λ k id, unblock id k) (c_waiters s) k).

(** A key for the readers. *)
Definition deliver (c : Z) '((s, k) : state) : state := wake_waiters (push_char c s, k).

(** [driver/console.rs:67-88, feed_scancode] *)
Definition feed_scancode (code : Z) '((s, k) : state) : state :=
  match add_byte code (c_decoder s) with
  | (None, d) => (set_decoder d s, k)
  | (Some event, d) =>
      match process_keyevent event d with
      | (None, d) => (set_decoder d s, k)
      | (Some (Unicode c), d) => deliver c (set_decoder d s, k)
      | (Some (RawKey code), d) =>
          match raw_key_to_sentinel code with
          | Some c => deliver c (set_decoder d s, k)
          | None => (set_decoder d s, k)
          end
      end
  end.

(** [driver/console.rs:148-152, inject_char] *)
Definition inject_char (c : Z) (s : state) : state := deliver c s.

(** One look of [read_char_blocking] under the lock: a character, or the caller
    is registered.  The lock is gone when it then goes to sleep with
    [block_current_and_schedule], as a step of its own. *)
(** [driver/console.rs:164-182, read_char_blocking] *)
Definition blocking_look (me : Z) (s : ConsoleInput) : option Z * ConsoleInput :=
  match read_char s with
  | (Some c, s) => (Some c, s)
  | (None, s) =>
      (None, if decide (wrap32 me ∈ c_waiters s) then s else set_waiters (c_waiters s ++ [wrap32 me]) s)
  end.
End tasks.

(** ** The buffer is a queue of 255 characters *)

Record input_ok (s : ConsoleInput) : Prop := {
  io_buf : length (c_buf s) = CAP;
  io_head : (c_head s < CAP)%nat;
  io_tail : (c_tail s < CAP)%nat }.

Definition used (s : ConsoleInput) : nat := ((c_head s + CAP - c_tail s) mod CAP)%nat.
(** The characters, oldest first. *)
Definition contents (s : ConsoleInput) : list Z :=
  (λ i, nth ((c_tail s + i) mod CAP)%nat (c_buf s) 0) <$> seq 0 (used s).

Lemma mod_CAP n : (n mod CAP < CAP)%nat.
Proof. by apply Nat.mod_upper_bound. Qed.
Lemma used_empty s : input_ok s → used s = 0%nat ↔ c_head s = c_tail s.
Proof. intros [_ Hh Ht]. unfold used, CAP in *. split; [|intros ->]; lia. Qed.
Lemma used_full s : input_ok s → used s = 255%nat ↔ ((c_head s + 1) mod CAP)%nat = c_tail s.
Proof. intros [_ Hh Ht]. unfold used, CAP in *. split; [|intros <-]; lia. Qed.
Lemma length_contents s : length (contents s) = used s.
Proof. unfold contents. by rewrite length_fmap, length_seq. Qed.

Lemma push_char_spec c s : input_ok s →
  input_ok (push_char c s) ∧
  contents (push_char c s) = if decide (used s < 255)%nat then contents s ++ [c] else contents s.
Proof.
  intros Hok. pose proof Hok as [Hb Hh Ht]. unfold push_char.
  destruct (decide (((c_head s + 1) mod CAP)%nat = c_tail s)) as [Hf|Hf].
  - split; [done|]. apply (used_full s Hok) in Hf. rewrite decide_False by lia. done.
  - assert (used s < 255)%nat as Hlt.
    { assert (used s ≠ 255)%nat by (by rewrite used_full). assert (used s < CAP)%nat by apply mod_CAP. unfold CAP in *. lia. }
    rewrite decide_True by done. split.
    { split; cbn [c_buf c_head c_tail]; [by rewrite length_insert|apply mod_CAP|done]. }
    set (s' := Input _ _ _ _ _ _). assert (used s' = S (used s)) as Hu.
    { unfold used, s', CAP in *. cbn [c_head c_tail]. lia. }
    unfold contents. rewrite Hu, seq_S, fmap_app. f_equal.
    + apply list_fmap_ext. intros i x Hi%lookup_seq. cbn [c_tail c_buf s'].
      rewrite !nth_lookup, list_lookup_insert_ne; [done|]. unfold used, CAP in *. lia.
    + cbn [fmap list_fmap c_tail c_buf s']. f_equal. rewrite nth_lookup.
      replace ((c_tail s + (0 + used s)) mod CAP)%nat with (c_head s) by (unfold used, CAP in *; lia).
      by rewrite list_lookup_insert_eq by (rewrite Hb; done).
Qed.

Lemma read_char_spec s : input_ok s →
  input_ok (read_char s).2 ∧ (read_char s).1 = head (contents s) ∧ contents (read_char s).2 = tail (contents s).
Proof.
  intros Hok. pose proof Hok as [Hb Hh Ht]. unfold read_char.
  destruct (decide (c_head s = c_tail s)) as [He|He].
  - apply (used_empty s Hok) in He. cbn [fst snd]. assert (contents s = []) as -> by (unfold contents; by rewrite He).
    done.
  - assert (used s ≠ 0)%nat as Hne by (by rewrite used_empty). destruct (used s) as [|n] eqn:Hu; [done|].
    cbn [fst snd]. set (s' := Input _ _ _ _ _ _).
    assert (used s' = n) as Hu' by (unfold used, s', CAP in *; cbn [c_head c_tail]; lia).
    split; [split; cbn [c_buf c_head c_tail s']; [done|done|apply mod_CAP]|].
    unfold contents at 1 3. rewrite Hu. cbn [seq fmap list_fmap head tail]. split.
    + rewrite nth_lookup. replace ((c_tail s + 0) mod CAP)%nat with (c_tail s) by (unfold CAP in *; lia).
      destruct (lookup_lt_is_Some_2 (c_buf s) (c_tail s)) as [x Hx]; [by rewrite Hb|]. by rewrite Hx.
    + unfold contents. rewrite Hu', <-fmap_S_seq, <-list_fmap_compose. apply list_fmap_ext.
      intros i x _. unfold compose. cbn [c_tail c_buf s']. f_equal. unfold CAP. lia.
Qed.

Lemma flush_spec s : input_ok s → input_ok (flush s) ∧ contents (flush s) = [].
Proof.
  intros [Hb Hh Ht]. assert (input_ok (flush s)) as Hok by done. split; [done|].
  assert (used (flush s) = 0%nat) as Hu by (by apply used_empty). unfold contents. by rewrite Hu.
Qed.

(** The queue of the specification. *)
Inductive key_op := KPush (c : Z) | KRead | KFlush.
Definition key_step (o : key_op) (s : ConsoleInput) : option Z * ConsoleInput :=
  match o with
  | KPush c => (None, push_char c s)
  | KRead => read_char s
  | KFlush => (None, flush s)
  end.
Definition queue_step (o : key_op) (q : list Z) : option Z * list Z :=
  match o with
  | KPush c => (None, if decide (length q < 255)%nat then q ++ [c] else q)
  | KRead => (head q, tail q)
  | KFlush => (None, [])
  end.
Fixpoint key_run {S} (step : key_op → S → option Z * S) (ops : list key_op) (s : S) : list (option Z) * S :=
  match ops with
  | [] => ([], s)
  | o :: ops => let p := step o s in let q := key_run step ops p.2 in (p.1 :: q.1, q.2)
  end.

(** The input buffer is a queue of 255 characters.  Whatever is pushed, read
    and flushed, every read returns what a queue would return that keeps the
    first 255 characters and drops those that come while it is full. *)
Theorem console_queue ops s : input_ok s →
  (key_run key_step ops s).1 = (key_run queue_step ops (contents s)).1 ∧
  contents (key_run key_step ops s).2 = (key_run queue_step ops (contents s)).2 ∧
  input_ok (key_run key_step ops s).2.
Proof.
  revert s. induction ops as [|o ops IH]; intros s Hok; [done|]. cbn [key_run fst snd].
  assert ((key_step o s).1 = (queue_step o (contents s)).1 ∧
    contents (key_step o s).2 = (queue_step o (contents s)).2 ∧ input_ok (key_step o s).2) as (H1&H2&H3).
  { destruct o as [c| |]; cbn [key_step queue_step fst snd].
    - destruct (push_char_spec c s Hok) as [? ->]. by rewrite length_contents.
    - by destruct (read_char_spec s Hok) as (?&->&->).
    - by destruct (flush_spec s Hok) as [? ->]. }
  rewrite <-H2. destruct (IH _ H3) as (->&->&?). by rewrite H1.
Qed.
End console.

(** ** A concrete decoder, and the lost wake-up *)

(** Every byte below 128 is a key of its own; the others are releases. *)
#[export] Instance test_decoder : KeyDecoder := {
  decoder := unit;
  key_event := Z;
  decoder_new := tt;
  add_byte b d := (if b <? 128 then Some b else None, d);
  process_keyevent e d := (Some (Unicode e), d);
}.

(** The buffer wraps around: 254 characters are typed and read, then three more. *)
Definition wrapped_ops : list key_op :=
  ((KPush <$> seqZ 0 254) ++ replicate 254 KRead) ++ (KPush <$> [7; 8; 9]) ++ [KRead].
Example console_queue_witness :
  contents (key_run key_step wrapped_ops input_new).2 = [8; 9].
Proof.
  destruct (console_queue wrapped_ops input_new) as (_&->&_); [|vm_compute; reflexivity].
  split; vm_compute; [reflexivity|lia|lia].
Defined.

(** A reader that finds the buffer empty registers and drops the lock; the key
    that comes before it sleeps finds nobody asleep, and clears the list.  The
    reader then sleeps with a character in the buffer, and no later key wakes
    it. *)
Example stdin_wakeup_lost :
  let '(none, s1) := blocking_look 2 input_new in
  let '(s2, k2) := feed_scancode 65 (s1, k_sh) in
  let k3 := block_current_and_schedule k2 in
  let '(s4, k4) := feed_scancode 66 (s2, k3) in
  none = None ∧ contents s4 = [65; 66] ∧ c_waiters s4 = [] ∧
  t_state <$> find_task 2 k3 = Some Blocked ∧ t_state <$> find_task 2 k4 = Some Blocked.
Proof. vm_compute. split_and!; reflexivity. Qed.
