(* ===== verification/Ps2.v ===== *)
(** * Port I/O and the PS/2 drivers (driver/portio.rs, driver/keyboard.rs, driver/mouse.rs)

    Drivers are tasks: a port is touched only with a capability that covers it.
    The keyboard driver hands scancodes on; the mouse driver assembles packets of
    three bytes into the position of the pointer. *)

From S2P Require Import Prelude Capability Signal Task TaskSpec Irq.

#[local] Ltac Zify.zify_post_hook ::= Z.to_euclidean_division_equations.

(** The processor's port instructions, on bytes. *)
Class Ports (P : Type) := {
  port_in : Z → P → Z * P;
  port_out : Z → Z → P → P;
}.

Section portio.
Context {P : Type} `{PP : Ports P}.
(** The capability tables and the devices behind the ports. *)
Record io := Io { io_caps : tables; io_ports : P }.
Implicit Types s : io.

(** [driver/portio.rs:19-28, task_owns_port] *)
Definition task_owns_port (task port width : Z) (t : tables) : bool :=
  bool_decide (is_Some (find_object task (Rights.union Rights.READ Rights.WRITE) (λ obj,
    match obj with
    | Port base count => (base <=? port) && (port + width <=? base + count)
    | _ => false
    end) t)).

(** [driver/portio.rs:31-38, inb] *)
Definition inb (me port : Z) : stm io string Z := λ s,
  if negb (task_owns_port me port 1 (io_caps s)) then (Err "port-io: missing Port capability"%string, s)
  else let p := port_in port (io_ports s) in (Ok p.1, Io (io_caps s) p.2).
(** [driver/portio.rs:41-49, outb] *)
Definition outb (me port value : Z) : stm io string unit := λ s,
  if negb (task_owns_port me port 1 (io_caps s)) then (Err "port-io: missing Port capability"%string, s)
  else (Ok tt, Io (io_caps s) (port_out port value (io_ports s))).

(** [unwrap_or], and a result that is ignored. *)
Definition inb_or (me port d : Z) (s : io) : Z * io :=
  let p := inb me port s in (match p.1 with Ok b => b | _ => d end, p.2).
Definition outb_ (me port value : Z) (s : io) : io := (outb me port value s).2.

(** ** The 8042 controller *)

(** [driver/keyboard.rs:28-28, !PS2_DATA_PORT] *)
Definition PS2_DATA_PORT : Z := 0x60.
(** [driver/keyboard.rs:29-29, !PS2_CMD_PORT] *)
Definition PS2_CMD_PORT : Z := 0x64.
Definition POLLS : nat := Z.to_nat 100000.

Fixpoint wait_write_loop (n : nat) (me : Z) (s : io) : io :=
  match n with
  | O => s
  | S n => let p := inb_or me PS2_CMD_PORT 0xFF s in
           if Z.land p.1 2 =? 0 then p.2 else wait_write_loop n me p.2
  end.
Fixpoint wait_read_loop (n : nat) (me : Z) (s : io) : io :=
  match n with
  | O => s
  | S n => let p := inb_or me PS2_CMD_PORT 0 s in
           if negb (Z.land p.1 1 =? 0) then p.2 else wait_read_loop n me p.2
  end.
(** [driver/keyboard.rs:33-39, wait_write] *)
Definition wait_write (me : Z) : io → io := wait_write_loop POLLS me.
(** [driver/keyboard.rs:42-48, wait_read] *)
Definition wait_read (me : Z) : io → io := wait_read_loop POLLS me.

(** Stale bytes are drained, sixteen at most. *)
Fixpoint drain_stale (n : nat) (me : Z) (s : io) : io :=
  match n with
  | O => s
  | S n => let p := inb_or me PS2_CMD_PORT 0 s in
           if Z.land p.1 1 =? 0 then p.2 else drain_stale n me (inb_or me PS2_DATA_PORT 0 p.2).2
  end.

Definition byte_not (x : Z) : Z := 255 - x.

(** The configuration byte is read, changed and written back. *)
Definition change_config (me set clear : Z) (s : io) : io :=
  let s := outb_ me PS2_CMD_PORT 0x20 (wait_write me s) in
  let p := inb_or me PS2_DATA_PORT 0 (wait_read me s) in
  let config := Z.land (Z.lor p.1 set) (byte_not clear) in
  let s := outb_ me PS2_CMD_PORT 0x60 (wait_write me p.2) in
  outb_ me PS2_DATA_PORT config (wait_write me s).

(** [driver/keyboard.rs:56-85, init_controller] *)
Definition init_controller (me : Z) (s : io) : io :=
  let s := drain_stale 16 me s in
  let s := change_config me 0x01 0x10 s in
  let s := outb_ me PS2_DATA_PORT 0xF4 (wait_write me s) in
  (inb_or me PS2_DATA_PORT 0 (wait_read me s)).2.

(** [driver/keyboard.rs:27-27, !KEYBOARD_IRQ] *)
Definition KEYBOARD_IRQ : nat := 1.

(** What a PS/2 driver grants itself: its interrupt line and the five ports. *)
Definition grant_ps2 (me : Z) (irq : Z) (t : tables) : tables :=
  let t := (mint me (Capability.Irq irq) Rights.ALL t).1 in
  (mint me (Port PS2_DATA_PORT 5) (Rights.union Rights.READ Rights.WRITE) t).1.

(** The keyboard driver until its loop. *)
(** [driver/keyboard.rs:88-113, !keyboard_driver_task] *)
Definition keyboard_start (me : Z) '((s, ls) : io * list Irq.IrqLine) : io * list Irq.IrqLine :=
  let s := init_controller me (Io (grant_ps2 me 1 (io_caps s)) (io_ports s)) in
  (s, (Irq.register KEYBOARD_IRQ me ls).2).

(** Its loop after an interrupt: one byte, for [feed_scancode]. *)
(** [driver/keyboard.rs:115-129, !keyboard_driver_task, the loop] *)
Definition keyboard_round (me : Z) (s : io) : option Z * io :=
  let p := inb me PS2_DATA_PORT s in (match p.1 with Ok b => Some b | _ => None end, p.2).
End portio.
Arguments Io {P}.
Arguments io_caps {P}.
Arguments io_ports {P}.

(** ** The mouse *)

Module Mouse.

(** [driver/mouse.rs:34-44, MouseState] *)
Record MouseState := Ms { x : Z; y : Z; left : bool; right : bool; middle : bool; seq : Z }.
(** [driver/mouse.rs:47-56, MouseState::new] *)
Definition state_new : MouseState := Ms 0 0 false false false 0.

(** The statics [STATE] and [BOUNDS]. *)
Record pointer := Pointer { p_state : MouseState; p_bounds : Z * Z }.

(** [driver/mouse.rs:65-67, state] *)
Definition state (p : pointer) : MouseState := p_state p.
(** [driver/mouse.rs:70-75, set_bounds_and_center]: the division is Rust's. *)
Definition set_bounds_and_center (width height : Z) (p : pointer) : pointer :=
  let s := p_state p in
  Pointer (Ms (Z.quot width 2) (Z.quot height 2) (left s) (right s) (middle s) (seq s)) (width, height).

(** [i32::clamp], which panics when the bounds are crossed. *)
Definition clamp {E} (v lo hi : Z) : outcome E Z :=
  if hi <? lo then Panic else Ok (Z.min hi (Z.max lo v)).

(** A delta of nine bits, its sign in the flags. *)
Definition delta (b flags bit : Z) : Z := if negb (Z.land flags bit =? 0) then b - 0x100 else b.

(** [driver/mouse.rs:137-162, apply_packet] *)
Definition apply_packet (packet : Z * Z * Z) : stm pointer string unit := λ p,
  let '(flags, b1, b2) := packet in
  if negb (Z.land flags 0xC0 =? 0) then (Ok tt, p) else
  let '(w, h) := p_bounds p in
  let s := p_state p in
  match clamp (signed 32 (x s + delta b1 flags 0x10)) 0 (signed 32 (w - 1)) with
  | Ok x' =>
      match clamp (signed 32 (y s - delta b2 flags 0x20)) 0 (signed 32 (h - 1)) with
      | Ok y' => (Ok tt, Pointer (Ms x' y' (negb (Z.land flags 1 =? 0)) (negb (Z.land flags 2 =? 0))
                    (negb (Z.land flags 4 =? 0)) (wrap64 (seq s + 1))) (p_bounds p))
      | Err e => (Err e, p)
      | Panic => (Panic, Pointer (Ms x' (y s) (left s) (right s) (middle s) (seq s)) (p_bounds p))
      | Diverge => (Diverge, p)
      end
  | Err e => (Err e, p)
  | Panic => (Panic, p)
  | Diverge => (Diverge, p)
  end.

(** Packet assembly: [packet] as far as it has come. *)
Definition feed_byte (byte : Z) (packet : list Z) : stm pointer string (list Z) :=
  if (length packet =? 0)%nat && (Z.land byte 8 =? 0) then sret packet else
  match packet ++ [byte] with
  | [f; b1; b2] => let! _ := apply_packet (f, b1, b2) in sret []
  | packet => sret packet
  end.
Fixpoint feed_bytes (bs : list Z) (packet : list Z) : stm pointer string (list Z) :=
  match bs with
  | [] => sret packet
  | b :: bs => let! packet := feed_byte b packet in feed_bytes bs packet
  end.

Section driver.
Context {P : Type} `{PP : Ports P}.

(** [driver/mouse.rs:29-29, !PS2_DATA] *)
Definition PS2_DATA : Z := 0x60.
(** [driver/mouse.rs:30-30, !PS2_CMD] *)
Definition PS2_CMD : Z := 0x64.

(** The polls differ from the keyboard's: a port that may not be read is polled
    to the end. *)
Fixpoint wait_loop (bit : Z) (full : bool) (n : nat) (me : Z) (s : io) : io :=
  match n with
  | O => s
  | S n => let p := inb me PS2_CMD s in
           match p.1 with
           | Ok st => if Bool.eqb (negb (Z.land st bit =? 0)) full then p.2 else wait_loop bit full n me p.2
           | _ => wait_loop bit full n me p.2
           end
  end.
(** [driver/mouse.rs:80-87, wait_write] *)
Definition mouse_wait_write (me : Z) : @io P → io := wait_loop 2 false POLLS me.
(** [driver/mouse.rs:90-97, wait_read] *)
Definition mouse_wait_read (me : Z) : @io P → io := wait_loop 1 true POLLS me.

(** [driver/mouse.rs:100-108, mouse_command] *)
Definition mouse_command (me cmd : Z) (s : @io P) : io :=
  let s := outb_ me PS2_CMD 0xD4 (mouse_wait_write me s) in
  let s := outb_ me PS2_DATA cmd (mouse_wait_write me s) in
  (inb_or me PS2_DATA 0 (mouse_wait_read me s)).2.

(** [driver/mouse.rs:112-134, init_controller] *)
Definition mouse_init_controller (me : Z) (s : @io P) : io :=
  let s := outb_ me PS2_CMD 0xA8 (mouse_wait_write me s) in
  let s := outb_ me PS2_CMD 0x20 (mouse_wait_write me s) in
  let p := inb_or me PS2_DATA 0 (mouse_wait_read me s) in
  let config := Z.land (Z.lor p.1 0x02) (byte_not 0x20) in
  let s := outb_ me PS2_CMD 0x60 (mouse_wait_write me p.2) in
  let s := outb_ me PS2_DATA config (mouse_wait_write me s) in
  mouse_command me 0xF4 (mouse_command me 0xF6 s).

(** [driver/mouse.rs:165-185, !mouse_driver_task] *)
Definition mouse_start (me : Z) '((s, ls) : @io P * list Irq.IrqLine) : io * list Irq.IrqLine :=
  let caps := grant_ps2 me 12 (io_caps s) in
  let ls := (Irq.register 12 me ls).2 in
  (mouse_init_controller me (Io caps (io_ports s)), ls).

(** The bytes of one interrupt: as long as the controller has some - the fuel
    bounds how many it may have -, those of the mouse are assembled. *)
(** [driver/mouse.rs:202-230, !mouse_driver_task, the inner loop] *)
Fixpoint mouse_drain (fuel : nat) (me : Z) (packet : list Z) (s : @io P) (p : pointer)
  : outcome string (list Z) * io * pointer :=
  match fuel with
  | O => (Diverge, s, p)
  | S fuel =>
      match inb me PS2_CMD s with
      | (Ok status, s) =>
          if Z.land status 1 =? 0 then (Ok packet, s, p) else
          match inb me PS2_DATA s with
          | (Ok byte, s) =>
              if Z.land status 0x20 =? 0 then mouse_drain fuel me packet s p else
              match feed_byte byte packet p with
              | (Ok packet, p) => mouse_drain fuel me packet s p
              | (Err e, p) => (Err e, s, p)
              | (Panic, p) => (Panic, s, p)
              | (Diverge, p) => (Diverge, s, p)
              end
          | (_, s) => (Ok packet, s, p)
          end
      | (_, s) => (Ok packet, s, p)
      end
  end.
End driver.

(** ** The pointer stays on the screen, and packets are decoded as they come *)

Definition on_screen (p : pointer) : Prop :=
  let '(w, h) := p_bounds p in
  0 < w < 2 ^ 30 ∧ 0 < h < 2 ^ 30 ∧ 0 ≤ x (p_state p) < w ∧ 0 ≤ y (p_state p) < h.

(** A packet in the stream: the first byte has bit 3 set. *)
Definition packet_ok '((f, b1, b2) : Z * Z * Z) : Prop :=
  byte_ok f ∧ byte_ok b1 ∧ byte_ok b2 ∧ Z.land f 8 ≠ 0.
Definition wire '((f, b1, b2) : Z * Z * Z) : list Z := [f; b1; b2].

(** What a packet means. *)
Definition moved (packet : Z * Z * Z) (p : pointer) : pointer :=
  let '(flags, b1, b2) := packet in
  if negb (Z.land flags 0xC0 =? 0) then p else
  let s := p_state p in
  let '(w, h) := p_bounds p in
  Pointer (Ms (Z.min (w - 1) (Z.max 0 (x s + delta b1 flags 0x10)))
    (Z.min (h - 1) (Z.max 0 (y s - delta b2 flags 0x20)))
    (Z.testbit flags 0) (Z.testbit flags 1) (Z.testbit flags 2) (wrap64 (seq s + 1))) (w, h).

Lemma land_pow2 f k : 0 ≤ k → negb (Z.land f (2 ^ k) =? 0) = Z.testbit f k.
Proof.
  intros Hk. apply eq_true_iff_eq. rewrite negb_true_iff, Z.eqb_neq. split.
  - intros Hne. destruct (Z.testbit f k) eqn:Ht; [done|]. destruct Hne. apply Z.bits_inj'.
    intros j Hj. rewrite Z.land_spec, Z.pow2_bits_eqb, Z.bits_0 by done.
    destruct (Z.eqb_spec k j) as [<-|]; [by rewrite Ht|by rewrite andb_false_r].
  - intros Ht Hz. assert (Z.testbit (Z.land f (2 ^ k)) k = true) as Hb
      by (rewrite Z.land_spec, Z.pow2_bits_true, Ht by done; done).
    by rewrite Hz, Z.bits_0 in Hb.
Qed.

Lemma delta_bounds b flags bit : byte_ok b → -256 ≤ delta b flags bit ≤ 255.
Proof. unfold byte_ok, delta. intros Hb. destruct (negb _); lia. Qed.

Lemma signed_small v : - 2 ^ 31 ≤ v < 2 ^ 31 → signed 32 v = v.
Proof. intros Hv. unfold signed. change (2 ^ (32 - 1)) with (2 ^ 31). case_decide; lia. Qed.

Lemma apply_packet_spec pk p : packet_ok pk → on_screen p →
  apply_packet pk p = (Ok tt, moved pk p) ∧ on_screen (moved pk p).
Proof.
  destruct pk as [[f b1] b2]. intros (Hf&H1&H2&_) Hs. unfold apply_packet, moved.
  destruct (negb (Z.land f 192 =? 0)); [done|].
  destruct p as [[px py pl pr pm ps] [w h]]. unfold on_screen in *. cbn [p_bounds p_state x y seq] in *.
  destruct Hs as (Hw&Hh&Hx&Hy). pose proof (delta_bounds b1 f 0x10 H1). pose proof (delta_bounds b2 f 0x20 H2).
  rewrite !signed_small by lia. unfold clamp. rewrite !(proj2 (Z.ltb_ge _ _)) by lia.
  split.
  - rewrite <-(land_pow2 f 0), <-(land_pow2 f 1), <-(land_pow2 f 2) by lia. done.
  - cbn [p_bounds p_state x y]. lia.
Qed.

(** The mouse driver decodes the stream of packets.  From any state on the
    screen, the bytes of a sequence of packets move the pointer as the packets
    say, one after the other, clamped to the screen; bytes before the first packet
    that cannot start one are skipped; the driver never panics, and the pointer is
    on the screen all along. *)
Theorem mouse_decodes junk pks p :
  on_screen p → Forall (λ b, Z.land b 8 = 0) junk → Forall packet_ok pks →
  feed_bytes (junk ++ mjoin (wire <$> pks)) [] p =
    (Ok [], fold_left (λ p pk, moved pk p) pks p) ∧
  on_screen (fold_left (λ p pk, moved pk p) pks p).
Proof.
  intros Hs Hj Hp. assert (feed_bytes (junk ++ mjoin (wire <$> pks)) [] p = feed_bytes (mjoin (wire <$> pks)) [] p) as ->.
  { induction junk as [|b junk IH]; [done|]. apply Forall_cons in Hj as [Hb Hj]. cbn [app feed_bytes].
    unfold sbind, feed_byte. cbn [length Nat.eqb andb]. rewrite (proj2 (Z.eqb_eq _ _) Hb). by apply IH. }
  clear junk Hj. revert p Hs. induction Hp as [|[[f b1] b2] pks Hpk Hp IH]; intros p Hs; [done|].
  destruct (apply_packet_spec (f, b1, b2) p Hpk Hs) as [Ha Hs']. cbn [fmap list_fmap mjoin list_join wire app].
  cbn [feed_bytes]. unfold sbind at 1, feed_byte at 1. cbn [length Nat.eqb andb].
  destruct Hpk as (_&_&_&Hf). rewrite (proj2 (Z.eqb_neq _ _) Hf). cbn [app].
  unfold sret at 1. unfold sbind at 1, feed_byte at 1. cbn [length Nat.eqb andb app].
  unfold sret at 1. unfold sbind at 1, feed_byte at 1. cbn [length Nat.eqb andb app].
  unfold sbind at 1. rewrite Ha. unfold sret at 1. cbn [fold_left]. by apply IH.
Qed.
End Mouse.

(** ** Only granted ports are touched *)

Section confined.
Context {P : Type} `{PP : Ports P}.

(** Port accesses, all of them to ports that satisfy [ok]. *)
Inductive accesses (ok : Z → Prop) : P → P → Prop :=
| ac_none p : accesses ok p p
| ac_in port p q : ok port → accesses ok (port_in port p).2 q → accesses ok p q
| ac_out port v p q : ok port → accesses ok (port_out port v p) q → accesses ok p q.

Lemma accesses_trans ok p q r : accesses ok p q → accesses ok q r → accesses ok p r.
Proof. intros H1 H2. induction H1; [done|by eapply ac_in; eauto|by eapply ac_out; eauto]. Qed.

Definition held (me : Z) (t : tables) (port : Z) : Prop := task_owns_port me port 1 t = true.
(** The step goes through ports the task holds, and leaves the capabilities. *)
Definition confined_to (me : Z) (s s' : @io P) : Prop :=
  io_caps s' = io_caps s ∧ accesses (held me (io_caps s)) (io_ports s) (io_ports s').

Lemma confined_refl me s : confined_to me s s.
Proof. split; [done|apply ac_none]. Qed.
Lemma confined_trans me s1 s2 s3 : confined_to me s1 s2 → confined_to me s2 s3 → confined_to me s1 s3.
Proof. intros [H1 H2] [H3 H4]. split; [congruence|]. rewrite H1 in H4. by eapply accesses_trans. Qed.
Lemma confined_inb me port s : confined_to me s (inb me port s).2.
Proof.
  unfold inb. destruct (task_owns_port me port 1 (io_caps s)) eqn:Ho; [|apply confined_refl].
  split; [done|]. cbn. by apply (ac_in _ port), ac_none.
Qed.
Lemma confined_outb me port v s : confined_to me s (outb_ me port v s).
Proof.
  unfold outb_, outb. destruct (task_owns_port me port 1 (io_caps s)) eqn:Ho; [|apply confined_refl].
  split; [done|]. cbn. by apply (ac_out _ port v), ac_none.
Qed.
Lemma confined_inb_or me port d s : confined_to me s (inb_or me port d s).2.
Proof. apply confined_inb. Qed.
#[local] Hint Resolve confined_refl confined_inb confined_outb confined_inb_or : confined.

Lemma confined_wait_write n me s : confined_to me s (wait_write_loop n me s).
Proof.
  revert s. induction n as [|n IH]; intros s; cbn [wait_write_loop]; [apply confined_refl|].
  case_match; [apply confined_inb_or|]. eapply confined_trans; [apply confined_inb_or|apply IH].
Qed.
Lemma confined_wait_read n me s : confined_to me s (wait_read_loop n me s).
Proof.
  revert s. induction n as [|n IH]; intros s; cbn [wait_read_loop]; [apply confined_refl|].
  case_match; [apply confined_inb_or|]. eapply confined_trans; [apply confined_inb_or|apply IH].
Qed.
Lemma confined_drain_stale n me s : confined_to me s (drain_stale n me s).
Proof.
  revert s. induction n as [|n IH]; intros s; cbn [drain_stale]; [apply confined_refl|].
  case_match; [apply confined_inb_or|].
  eapply confined_trans; [apply confined_inb_or|]. eapply confined_trans; [apply confined_inb_or|apply IH].
Qed.
Lemma confined_wait_loop bit full n me s : confined_to me s (Mouse.wait_loop bit full n me s).
Proof.
  revert s. induction n as [|n IH]; intros s; cbn [Mouse.wait_loop]; [apply confined_refl|].
  repeat case_match; try apply confined_inb; (eapply confined_trans; [apply confined_inb|apply IH]).
Qed.
#[local] Hint Resolve confined_wait_write confined_wait_read confined_drain_stale confined_wait_loop : confined.

(** Step by step, from the last one back. *)
#[local] Ltac confined :=
  repeat first [ apply confined_refl
    | eapply confined_trans; [|first [apply confined_inb_or | apply confined_outb | apply confined_inb]]
    | eapply confined_trans; [|first [apply confined_wait_write | apply confined_wait_read
                                     | apply confined_drain_stale | apply confined_wait_loop]] ].

Lemma confined_keyboard_init me s : confined_to me s (init_controller me s).
Proof. unfold init_controller, change_config, wait_write, wait_read. confined. Qed.
Lemma confined_command me cmd s : confined_to me s (Mouse.mouse_command me cmd s).
Proof. unfold Mouse.mouse_command, Mouse.mouse_wait_write, Mouse.mouse_wait_read. confined. Qed.
Lemma confined_mouse_init me s : confined_to me s (Mouse.mouse_init_controller me s).
Proof.
  unfold Mouse.mouse_init_controller, Mouse.mouse_wait_write, Mouse.mouse_wait_read.
  do 2 (eapply confined_trans; [|apply confined_command]). confined.
Qed.
Lemma confined_mouse_drain fuel me packet s p : confined_to me s (Mouse.mouse_drain fuel me packet s p).1.2.
Proof.
  revert packet s p. induction fuel as [|fuel IH]; intros packet s p; cbn [Mouse.mouse_drain]; [apply confined_refl|].
  pose proof (confined_inb me Mouse.PS2_CMD s) as H1.
  destruct (inb me Mouse.PS2_CMD s) as [[st|e| |] s1]; cbn [snd] in H1; try done.
  destruct (Z.land st 1 =? 0); [done|]. pose proof (confined_inb me Mouse.PS2_DATA s1) as H2.
  destruct (inb me Mouse.PS2_DATA s1) as [[b|e| |] s2]; cbn [snd] in H2;
    try (by eapply confined_trans; [exact H1|]).
  pose proof (confined_trans me s s1 s2 H1 H2) as H3.
  destruct (Z.land st 32 =? 0); [by eapply confined_trans; [exact H3|apply IH]|].
  destruct (Mouse.feed_byte b packet p) as [[pk|e| |] p']; try done.
  by eapply confined_trans; [exact H3|apply IH].
Qed.

(** Drivers touch the ports they were granted and no others.  Whatever the
    devices answer, every port instruction of the keyboard and the mouse driver -
    starting up, handling an interrupt, draining the controller - goes to a port
    covered by a capability the driver's task holds at that time. *)
Theorem drivers_confined me s ls fuel packet p :
  let kbd := Io (grant_ps2 me 1 (io_caps s)) (io_ports s) in
  let mouse := Io (grant_ps2 me 12 (io_caps s)) (io_ports s) in
  confined_to me kbd (keyboard_start me (s, ls)).1 ∧
  confined_to me s (keyboard_round me s).2 ∧
  confined_to me mouse (Mouse.mouse_start me (s, ls)).1 ∧
  confined_to me s (Mouse.mouse_drain fuel me packet s p).1.2.
Proof.
  split_and!; [apply confined_keyboard_init|apply confined_inb|apply confined_mouse_init|apply confined_mouse_drain].
Qed.
End confined.

(** ** Witness: a screen of 640 by 480 *)

Definition demo_pointer : Mouse.pointer :=
  Mouse.set_bounds_and_center 640 480 (Mouse.Pointer Mouse.state_new (1024, 768)).
(** Junk, a move to the right with the button down, and one far to the left. *)
Example mouse_decodes_witness :
  let p := (Mouse.feed_bytes ([0x01; 0x37] ++ mjoin (Mouse.wire <$> [(0x09, 100, 0); (0x18, 0, 0); (0x18, 0, 0)])) []
    demo_pointer).2 in
  Mouse.x (Mouse.p_state p) = 0 ∧ Mouse.y (Mouse.p_state p) = 240.
Proof.
  destruct (Mouse.mouse_decodes [0x01; 0x37] [(0x09, 100, 0); (0x18, 0, 0); (0x18, 0, 0)] demo_pointer) as [-> _].
  - vm_compute. repeat split; intros Hc; discriminate Hc.
  - repeat constructor.
  - repeat constructor; unfold byte_ok; lia || done.
  - vm_compute. auto.
Defined.

(** A pointer whose bounds were set before a screen is known panics the driver on
    the first packet: the range of the clamp is empty. *)
Example no_screen_panics :
  (Mouse.feed_bytes [8; 1; 1] [] (Mouse.set_bounds_and_center 0 0 demo_pointer)).1 = Panic.
Proof. vm_compute. reflexivity. Qed.
