(* ===== verification/Mmio.v ===== *)
(** * Memory-mapped device registers (driver/mmio.rs)

    A register is touched by a task that holds a capability covering it, or on the
    kernel's own authority while a guard is held. *)

From S2P Require Import Prelude Capability Frames Paging PagingRef.

(** Volatile accesses of [w] bytes at a physical address. *)
Class Registers (D : Type) := {
  reg_read : Z → Z → D → Z * D;
  reg_write : Z → Z → Z → D → D;
}.
(** What is used of the [x86_64] crate: the checked constructors [VirtAddr::new]
    and [PhysAddr::new] ([None]: they panic) and [translate_page(..).is_ok()] of
    the kernel's mapper. *)
Class KernelPages := {
  virt_new : Z → option Z;
  phys_new : Z → option Z;
  page_mapped : pmem → Z → Z → bool;
}.

Section mmio.
Context {D : Type} `{RD : Registers D} `{Pg : Paging} `{PT : KernelPages}.

(** [driver/mmio.rs:30-30, !MMIO_VIRT_BASE] *)
Definition MMIO_VIRT_BASE : Z := 0xFFFFFF8000000000.

(** [KERNEL_IO_DEPTH], the capabilities, the kernel's page table and the devices. *)
Record mmio := Mmio {
  io_depth : Z; mm_caps : tables; mm_kernel : Z; mm_mem : phys; mm_dev : D }.
Implicit Types s : mmio.

Definition set_depth (d : Z) s : mmio := Mmio d (mm_caps s) (mm_kernel s) (mm_mem s) (mm_dev s).
(** [driver/mmio.rs:51-54, KernelIoGuard::enter] *)
Definition enter s : mmio := set_depth (wrap64 (io_depth s + 1)) s.
(** [driver/mmio.rs:57-61, !KernelIoGuard::drop] *)
Definition leave s : mmio := set_depth (wrap64 (io_depth s - 1)) s.
(** [driver/mmio.rs:64-66, in_kernel_io] *)
Definition in_kernel_io s : bool := 0 <? io_depth s.

Definition covers (phys_addr size : Z) (obj : object) : bool :=
  match obj with
  | Memory _ _ | Endpoint _ | Capability.Irq _ | Port _ _ | Role _ => false
  | Capability.Mmio base l =>
      (base <=? phys_addr) && (phys_addr + size <? 2 ^ 64) && (phys_addr + size <=? wrap64 (base + l))
  end.

(** [driver/mmio.rs:70-88, check_mmio_cap] *)
Definition check_mmio_cap (me phys_addr size needed : Z) s : bool :=
  if in_kernel_io s then true else
  bool_decide (is_Some (find_object me needed (covers phys_addr size) (mm_caps s))).

(** The flags PRESENT, WRITABLE, NO_CACHE and WRITE_THROUGH. *)
Definition MMIO_FLAGS : Z := Z.lor (Z.lor PRESENT WRITABLE) (Z.lor 0x10 0x08).

(** The pages of the region from number [i] on, mapped where they are not ([false]:
    one could not be); the tables that a failed call has added stay. *)
Fixpoint map_pages (n : nat) (i virt_base phys_base k : Z) (m : phys) : outcome string bool * phys :=
  match n with
  | O => (Ok true, m)
  | S n =>
      match virt_new (wrap64 (virt_base + i * 4096)), phys_new (wrap64 (phys_base + i * 4096)) with
      | Some va, Some pa =>
          let page := frame_containing va in
          if page_mapped (ph_mem m) k page then map_pages n (i + 1) virt_base phys_base k m else
          match map_to k page (frame_containing pa) MMIO_FLAGS m with
          | (Ok _, m) => map_pages n (i + 1) virt_base phys_base k m
          | (_, m) => (Ok false, m)
          end
      | _, _ => (Panic, m)
      end
  end.

(** [driver/mmio.rs:99-136, ensure_mmio_mapped]
    The virtual address of the region; it panics when the region's address in the
    window is not canonical, or its physical address has more than 52 bits. *)
Definition ensure_mmio_mapped (pa size : Z) : stm mmio string (option Z) := λ s,
  let phys_base := frame_containing pa in
  let offset := pa - phys_base in
  let pages := (size + offset + 4095) / 4096 in
  match virt_new (wrap64 (MMIO_VIRT_BASE + phys_base)) with
  | None => (Panic, s)
  | Some virt_base =>
      let p := map_pages (Z.to_nat pages) 0 virt_base phys_base (mm_kernel s) (mm_mem s) in
      let s := Mmio (io_depth s) (mm_caps s) (mm_kernel s) p.2 (mm_dev s) in
      match p.1 with
      | Ok true => match virt_new (wrap64 (virt_base + offset)) with
                   | Some v => (Ok (Some v), s)
                   | None => (Panic, s)
                   end
      | Ok false => (Ok None, s)
      | _ => (Panic, s)
      end
  end.

(** The accessors of all widths. *)
Definition read_reg (w : Z) (me pa : Z) : stm mmio string Z := λ s,
  if negb (check_mmio_cap me pa w Rights.READ s) then (Err "no MMIO read capability"%string, s) else
  match ensure_mmio_mapped pa w s with
  | (Ok None, s) => (Err "failed to map MMIO"%string, s)
  | (Ok (Some _), s) =>
      let p := reg_read pa w (mm_dev s) in
      (Ok p.1, Mmio (io_depth s) (mm_caps s) (mm_kernel s) (mm_mem s) p.2)
  | (_, s) => (Panic, s)
  end.
Definition write_reg (w : Z) (me pa v : Z) : stm mmio string unit := λ s,
  if negb (check_mmio_cap me pa w Rights.WRITE s) then (Err "no MMIO write capability"%string, s) else
  match ensure_mmio_mapped pa w s with
  | (Ok None, s) => (Err "failed to map MMIO"%string, s)
  | (Ok (Some _), s) =>
      (Ok tt, Mmio (io_depth s) (mm_caps s) (mm_kernel s) (mm_mem s) (reg_write pa w v (mm_dev s)))
  | (_, s) => (Panic, s)
  end.

(** [driver/mmio.rs:139-145, read_u8] *)
Definition read_u8 : Z → Z → stm mmio string Z := read_reg 1.
(** [driver/mmio.rs:148-154, read_u16] *)
Definition read_u16 : Z → Z → stm mmio string Z := read_reg 2.
(** [driver/mmio.rs:157-163, read_u32] *)
Definition read_u32 : Z → Z → stm mmio string Z := read_reg 4.
(** [driver/mmio.rs:166-172, read_u64] *)
Definition read_u64 : Z → Z → stm mmio string Z := read_reg 8.
(** [driver/mmio.rs:175-182, write_u8] *)
Definition write_u8 (me pa v : Z) : stm mmio string unit := write_reg 1 me pa (wrap8 v).
(** [driver/mmio.rs:185-192, write_u16] *)
Definition write_u16 (me pa v : Z) : stm mmio string unit := write_reg 2 me pa (wrap16 v).
(** [driver/mmio.rs:195-202, write_u32] *)
Definition write_u32 (me pa v : Z) : stm mmio string unit := write_reg 4 me pa (wrap32 v).
(** [driver/mmio.rs:205-212, write_u64] *)
Definition write_u64 (me pa v : Z) : stm mmio string unit := write_reg 8 me pa (wrap64 v).

(** ** Confinement *)

(** A capability of the task for every byte of the access. *)
Definition permitted (me pa w needed : Z) (t : tables) : Prop :=
  ∃ i cap base l, lookup_cap me i t = Some cap ∧ Rights.contains (cap_rights cap) needed = true ∧
    cap_object cap = Capability.Mmio base l ∧ ∀ x, pa ≤ x < pa + w → base ≤ x < wrap64 (base + l).

Lemma find_object_Some me needed f t cap :
  find_object me needed f t = Some cap →
  ∃ i, lookup_cap me i t = Some cap ∧ Rights.contains (cap_rights cap) needed = true ∧ f (cap_object cap) = true.
Proof.
  unfold find_object, lookup_cap. destruct (t !! me) as [slots|]; [|done]. cbn [mbind option_bind].
  intros ([j c]&Hf&Hc)%fmap_Some. cbn in Hc. subst c. apply list_find_Some in Hf as (Hj&Hp&_).
  apply list_elem_of_lookup_2, list_elem_of_omap in Hj as (o&Ho&Hid). cbn in Hid. subst o.
  apply list_elem_of_lookup in Ho as [i Hi]. exists i. rewrite Hi.
  apply andb_true_iff in Hp as [? ?]. done.
Qed.

Lemma check_permitted me pa w needed s :
  0 ≤ pa → in_kernel_io s = false → check_mmio_cap me pa w needed s = true →
  permitted me pa w needed (mm_caps s).
Proof.
  intros Hpa Hk. unfold check_mmio_cap. rewrite Hk. intros [cap Hc]%bool_decide_eq_true.
  apply find_object_Some in Hc as (i&Hi&Hr&Hcov).
  destruct (cap_object cap) as [| | | |base l|] eqn:Ho; try done. cbn in Hcov.
  exists i, cap, base, l. split_and!; try done. intros x Hx.
  rewrite !andb_true_iff, !Z.leb_le, Z.ltb_lt in Hcov. lia.
Qed.

(** What an access may have done. *)
Definition gated {A} (me pa w needed : Z) s (r : outcome string A) s' : Prop :=
  mm_caps s' = mm_caps s ∧ io_depth s' = io_depth s ∧
  (in_kernel_io s = true ∨ permitted me pa w needed (mm_caps s) ∨
   (∃ e, r = Err e) ∧ s' = s).

(** Making room for an access touches the page tables only. *)
Lemma ensure_mapped_keeps pa w s r s' : ensure_mmio_mapped pa w s = (r, s') →
  mm_caps s' = mm_caps s ∧ io_depth s' = io_depth s ∧ mm_dev s' = mm_dev s.
Proof.
  unfold ensure_mmio_mapped. destruct (virt_new _) as [vb|]; [|by intros [= <- <-]].
  destruct (map_pages _ _ _ _ _ _) as [[[]|e| |] m]; cbn;
    try destruct (virt_new _); by intros [= <- <-].
Qed.

Lemma read_reg_gated w me pa s : 0 ≤ pa →
  gated me pa w Rights.READ s (read_reg w me pa s).1 (read_reg w me pa s).2.
Proof.
  intros Hpa. unfold read_reg. destruct (check_mmio_cap me pa w Rights.READ s) eqn:Hc; cbn [negb].
  - assert (in_kernel_io s = true ∨ permitted me pa w Rights.READ (mm_caps s)) as Hp.
    { destruct (in_kernel_io s) eqn:Hk; [by left|right]. by apply check_permitted. }
    destruct (ensure_mmio_mapped pa w s) as [[[x|]|e| |] s'] eqn:He;
      apply ensure_mapped_keeps in He as (?&?&?); cbn; split_and!; tauto || done.
  - split_and!; [done|done|]. right. right. split; [by eexists|done].
Qed.
Lemma write_reg_gated w me pa v s : 0 ≤ pa →
  gated me pa w Rights.WRITE s (write_reg w me pa v s).1 (write_reg w me pa v s).2.
Proof.
  intros Hpa. unfold write_reg. destruct (check_mmio_cap me pa w Rights.WRITE s) eqn:Hc; cbn [negb].
  - assert (in_kernel_io s = true ∨ permitted me pa w Rights.WRITE (mm_caps s)) as Hp.
    { destruct (in_kernel_io s) eqn:Hk; [by left|right]. by apply check_permitted. }
    destruct (ensure_mmio_mapped pa w s) as [[[x|]|e| |] s'] eqn:He;
      apply ensure_mapped_keeps in He as (?&?&?); cbn; split_and!; tauto || done.
  - split_and!; [done|done|]. right. right. split; [by eexists|done].
Qed.

(** C33: Device registers are touched with a capability only.  A task that reads
    or writes a register, of any width, either holds a capability with the right
    in question that covers every byte of the access, or the kernel's own
    authority is raised, or the access is refused and nothing at all - devices,
    page tables, capabilities - has changed. *)
Theorem mmio_confined me pa v s : 0 ≤ pa →
  gated me pa 1 Rights.READ s (read_u8 me pa s).1 (read_u8 me pa s).2 ∧
  gated me pa 2 Rights.READ s (read_u16 me pa s).1 (read_u16 me pa s).2 ∧
  gated me pa 4 Rights.READ s (read_u32 me pa s).1 (read_u32 me pa s).2 ∧
  gated me pa 8 Rights.READ s (read_u64 me pa s).1 (read_u64 me pa s).2 ∧
  gated me pa 1 Rights.WRITE s (write_u8 me pa v s).1 (write_u8 me pa v s).2 ∧
  gated me pa 2 Rights.WRITE s (write_u16 me pa v s).1 (write_u16 me pa v s).2 ∧
  gated me pa 4 Rights.WRITE s (write_u32 me pa v s).1 (write_u32 me pa v s).2 ∧
  gated me pa 8 Rights.WRITE s (write_u64 me pa v s).1 (write_u64 me pa v s).2.
Proof. intros Hpa. split_and!; first [by apply read_reg_gated | by apply write_reg_gated]. Qed.
End mmio.

(** ** Witness: registers as bytes, all pages mapped *)

#[export] Instance test_registers : Registers (gmap Z Z) := {
  reg_read a w d := (default 0 (d !! a), d);
  reg_write a w v d := <[a := v]> d;
}.
(** The crate's rules: bits 47 to 63 of a virtual address are equal, or are filled
    from bit 47; a physical address has 52 bits. *)
#[local] Instance test_pages : KernelPages := {
  virt_new a := if Z.shiftr a 47 =? 0 then Some a else
                if Z.shiftr a 47 =? 1 then Some (a + 0xFFFF000000000000) else
                if Z.shiftr a 47 =? 0x1FFFF then Some a else None;
  phys_new a := if a <? 2 ^ 52 then Some a else None;
  page_mapped _ _ _ := true;
}.
(** Task 7 may read the 16 bytes at 0xFEB00000. *)
Definition demo_mmio : @mmio (gmap Z Z) :=
  Mmio 0 (mint 7 (Capability.Mmio 0xFEB00000 16) Rights.READ ∅).1 0x1000 (Phys ∅ (FrameAllocator [] 0)) ({[0xFEB00004 := 42]} : gmap Z Z).

Example mmio_confined_witness :
  (read_u32 7 0xFEB00004 demo_mmio).1 = Ok 42 ∧
  permitted 7 0xFEB00004 4 Rights.READ (mm_caps demo_mmio) ∧
  (write_u32 7 0xFEB00004 1 demo_mmio).2 = demo_mmio.
Proof.
  destruct (mmio_confined 7 0xFEB00004 1 demo_mmio) as (_&_&(_&_&H)&_&_&_&(_&_&G)&_); [done|].
  split; [vm_compute; reflexivity|]. split.
  - destruct H as [H|[H|[[e H] _]]]; [discriminate H|exact H|discriminate H].
  - destruct G as [G|[(i&cap&base&l&Hc&Hr&_)|[_ G]]]; [discriminate G| |exact G].
    exfalso. destruct i as [|[|i]]; [|discriminate Hc|discriminate Hc].
    injection Hc as <-. discriminate Hr.
Defined.

(** The guard is not tied to the task that entered it: while one task's file is
    being loaded on the kernel's authority, any other task - it may run at every
    timer tick - passes the check without a capability. *)
Example guard_opens_for_everybody :
  (read_u32 8 0xFEB00004 demo_mmio).1 = Err "no MMIO read capability"%string ∧
  (read_u32 8 0xFEB00004 (enter demo_mmio)).1 = Ok 42.
Proof. vm_compute. auto. Qed.

(** The window has no room for every physical address: an access on the kernel's
    authority to a register above it stops the machine. *)
Example window_panics :
  (read_u32 7 0xFEB00004 (enter demo_mmio)).1 = Ok 42 ∧
  (read_u32 7 0x1010000000000 (enter demo_mmio)).1 = Panic.
Proof. vm_compute. auto. Qed.
