(* ===== verification/MemFs.v ===== *)
(** * The in-memory file system (services/memfs.rs)

    A flat map from absolute paths to files and directories, the backend of the
    VFS service.  Directories exist by their own entries; a listing looks for the
    paths one name longer. *)

From stdpp Require Import sorting.
From S2P Require Import Prelude.

Module MemFs.

(** [services/memfs.rs:18-23, Node] *)
Inductive Node : Type := File (data : bytes) | Dir.
(** [services/memfs.rs:27-33, FsError] *)
Inductive FsError : Type := NotFound | AlreadyExists | NotADirectory | IsADirectory | InvalidPath.
#[export] Instance fs_error_eq_dec : EqDecision FsError.
Proof. solve_decision. Defined.
(** [services/memfs.rs:37-40, StatInfo] *)
Record StatInfo := Stat { size : Z; is_dir : bool }.

Abbreviation fs := (gmap bytes Node).
Definition slash : Z := 47.
Definition root : bytes := [slash].

(** [str::trim_end_matches('/')] and [str::rfind('/')] *)
Fixpoint drop_slashes (l : bytes) : bytes :=
  match l with c :: l' => if c =? slash then drop_slashes l' else l | [] => [] end.
Definition trim_end (path : bytes) : bytes := rev (drop_slashes (rev path)).
Fixpoint rfind (path : bytes) : option nat :=
  match path with
  | [] => None
  | c :: p => match rfind p with
              | Some i => Some (S i)
              | None => if c =? slash then Some O else None
              end
  end.

(** [services/memfs.rs:46-55, normalize] *)
Definition normalize (path : bytes) : outcome FsError bytes :=
  match path with
  | c :: _ => if negb (c =? slash) then Err InvalidPath
              else if bool_decide (path = root) then Ok root else Ok (trim_end path)
  | [] => Err InvalidPath
  end.

(** [services/memfs.rs:58-64, parent_of] *)
Definition parent_of (path : bytes) : bytes :=
  match rfind path with Some O => root | Some i => take i path | None => root end.

(** [services/memfs.rs:68-82, init] *)
Definition init : fs :=
  <[root := Dir]> (<[str "/etc" := Dir]>
  (<[str "/welcome.txt" := File (str "Welcome to PICKLE OS Phase 2!" ++ [10] ++
       str "Files are served over IPC by the VFS server." ++ [10])]>
  (<[str "/etc/motd" := File (str "PICKLE OS :: capability-secured microkernel" ++ [10])]> ∅))).

(** The static [FS]: [None] until [init]. *)
Definition op (A : Type) : Type := stm (option fs) FsError A.

(** The guard: an error when the map is not there. *)
Definition with_map {A} (f : stm fs FsError A) : op A := λ s,
  match s with
  | None => (Err InvalidPath, None)
  | Some m => let p := f m in (p.1, Some p.2)
  end.

(** The parent must be a directory. *)
Definition need_parent (path : bytes) (m : fs) : outcome FsError unit :=
  match m !! parent_of path with
  | Some Dir => Ok tt
  | Some _ => Err NotADirectory
  | None => Err NotFound
  end.
Definition add_new (n : Node) (path : bytes) : op unit :=
  let! path := slift (normalize path) in
  with_map (λ m,
    if bool_decide (is_Some (m !! path)) then (Err AlreadyExists, m) else
    match need_parent path m with
    | Ok _ => (Ok tt, <[path := n]> m)
    | Err e => (Err e, m)
    | Panic => (Panic, m)
    | Diverge => (Diverge, m)
    end).

(** [services/memfs.rs:86-101, create] *)
Definition create (path : bytes) : op unit := add_new (File []) path.
(** [services/memfs.rs:104-119, mkdir] *)
Definition mkdir (path : bytes) : op unit := add_new Dir path.

(** [services/memfs.rs:123-142, write] *)
Definition write (path data : bytes) : op Z :=
  let! path := slift (normalize path) in
  with_map (λ m,
    match m !! path with
    | Some Dir => (Err IsADirectory, m)
    | Some (File _) => (Ok (Z.of_nat (length data)), <[path := File data]> m)
    | None =>
        match need_parent path m with
        | Ok _ => (Ok (Z.of_nat (length data)), <[path := File data]> m)
        | Err e => (Err e, m)
        | Panic => (Panic, m)
        | Diverge => (Diverge, m)
        end
    end).

(** [services/memfs.rs:145-154, read] *)
Definition read (path : bytes) : op bytes :=
  let! path := slift (normalize path) in
  with_map (λ m,
    (match m !! path with
     | Some (File data) => Ok data
     | Some Dir => Err IsADirectory
     | None => Err NotFound
     end, m)).

(** The order of strings: byte by byte. *)
Fixpoint string_le (a b : bytes) : bool :=
  match a, b with
  | [], _ => true
  | _, [] => false
  | x :: a, y :: b => (x <? y) || ((x =? y) && string_le a b)
  end.
#[export] Instance string_le_dec : RelDecision (λ a b, string_le a b = true).
Proof. intros a b. apply _. Defined.

Definition strip_prefix (p k : bytes) : option bytes :=
  if decide (take (length p) k = p) then Some (drop (length p) k) else None.
Definition dir_prefix (path : bytes) : bytes := if bool_decide (path = root) then root else path ++ [slash].
(** A name directly below the directory. *)
Definition child_name (path key : bytes) : option bytes :=
  if bool_decide (key = path) then None else
  match strip_prefix (dir_prefix path) key with
  | Some rest => if bool_decide (rest = []) || bool_decide (slash ∈ rest) then None else Some rest
  | None => None
  end.
Definition entries (path : bytes) (m : fs) : list bytes :=
  merge_sort (λ a b, string_le a b = true) (omap (child_name path) (map_to_list m).*1).

(** [services/memfs.rs:157-184, readdir] *)
Definition readdir (path : bytes) : op (list bytes) :=
  let! path := slift (normalize path) in
  with_map (λ m,
    (match m !! path with
     | Some Dir => Ok (entries path m)
     | Some _ => Err NotADirectory
     | None => Err NotFound
     end, m)).

(** [services/memfs.rs:187-202, stat] *)
Definition stat (path : bytes) : op StatInfo :=
  let! path := slift (normalize path) in
  with_map (λ m,
    (match m !! path with
     | Some (File data) => Ok (Stat (Z.of_nat (length data)) false)
     | Some Dir => Ok (Stat 0 true)
     | None => Err NotFound
     end, m)).

Definition has_below (path : bytes) (m : fs) : bool :=
  existsb (λ k, bool_decide (is_Some (strip_prefix (path ++ [slash]) k))) (map_to_list m).*1.

(** [services/memfs.rs:205-224, remove] *)
Definition remove (path : bytes) : op unit :=
  let! path := slift (normalize path) in
  if bool_decide (path = root) then sthrow InvalidPath else
  with_map (λ m,
    match m !! path with
    | None => (Err NotFound, m)
    | Some Dir => if has_below path m then (Err NotADirectory, m) else (Ok tt, delete path m)
    | Some (File _) => (Ok tt, delete path m)
    end).

(** ** Paths *)

Lemma rfind_Some p i : rfind p = Some i →
  p = take i p ++ slash :: drop (S i) p ∧ slash ∉ drop (S i) p ∧ (i < length p)%nat.
Proof.
  revert i. induction p as [|c p IH]; intros i; cbn [rfind]; [done|].
  destruct (rfind p) as [j|] eqn:Hj.
  - intros [= <-]. destruct (IH j eq_refl) as (Hp&Hn&Hl). cbn [take drop app length]. split_and!; [by f_equal|done|lia].
  - destruct (Z.eqb_spec c slash) as [->|]; [|done]. intros [= <-]. cbn [take drop app length]. split_and!; [done| |lia].
    clear IH. induction p as [|d p IH]; [by intros ?%not_elem_of_nil|]. cbn [rfind] in Hj.
    destruct (rfind p); [done|]. destruct (Z.eqb_spec d slash); [done|]. intros [?|?]%elem_of_cons; [congruence|]. by apply IH.
Qed.

(** The keys of the map: absolute, without a slash at the end. *)
Definition key_ok (k : bytes) : Prop := k = root ∨ k = [] ∨ head k = Some slash ∧ last k ≠ Some slash.

Lemma drop_slashes_head l : head (drop_slashes l) ≠ Some slash.
Proof. induction l as [|c l IH]; cbn [drop_slashes]; [done|]. destruct (Z.eqb_spec c slash); [done|]. simpl. congruence. Qed.
Lemma drop_slashes_suffix l : ∃ n, l = replicate n slash ++ drop_slashes l.
Proof.
  induction l as [|c l [n IH]]; cbn [drop_slashes]; [by exists O|].
  destruct (Z.eqb_spec c slash) as [->|]; [|by exists O]. exists (S n). cbn [replicate app]. by f_equal.
Qed.

Lemma rev_reverse (l : bytes) : rev l = reverse l.
Proof. unfold reverse. by rewrite rev_append_rev, app_nil_r. Qed.

Lemma normalize_ok path k : normalize path = Ok k → key_ok k.
Proof.
  unfold normalize. destruct path as [|c path]; [done|]. destruct (Z.eqb_spec c slash) as [->|]; [|done]. cbn [negb].
  case_bool_decide; intros [= <-]; [by left|]. right. unfold trim_end. rewrite !rev_reverse.
  set (l := reverse (slash :: path)). destruct (drop_slashes l) as [|d r] eqn:Hd; [by left|right].
  pose proof (drop_slashes_head l) as Hh. rewrite Hd in Hh. split.
  - destruct (drop_slashes_suffix l) as [n Hn]. rewrite Hd in Hn.
    assert (slash :: path = reverse (d :: r) ++ replicate n slash) as Heq.
    { rewrite <-(reverse_involutive (slash :: path)). fold l. rewrite Hn, reverse_app, reverse_replicate. done. }
    destruct (reverse (d :: r)) as [|e t] eqn:Hr; [|by injection Heq as <- _].
    apply (f_equal length) in Hr. by rewrite length_reverse in Hr.
  - rewrite reverse_cons, last_snoc. exact Hh.
Qed.

Lemma normalize_key k : key_ok k → k ≠ [] → normalize k = Ok k.
Proof.
  intros [->|[->|[Hh Hl]]] Hne; [done|done|]. unfold normalize. destruct k as [|c k]; [done|].
  injection Hh as ->. cbn [negb]. change (slash =? slash) with true. cbn [negb].
  case_bool_decide as Hr; [by rewrite Hr|]. f_equal. unfold trim_end. rewrite !rev_reverse.
  destruct (reverse (slash :: k)) as [|d r] eqn:Hd.
  { apply (f_equal length) in Hd. by rewrite length_reverse in Hd. }
  assert (d ≠ slash) as Hds.
  { intros ->. apply Hl. rewrite <-(reverse_involutive (slash :: k)), Hd, reverse_cons. apply last_snoc. }
  cbn [drop_slashes]. rewrite (proj2 (Z.eqb_neq d slash) Hds), <-Hd. apply reverse_involutive.
Qed.

(** The two shapes of a key no listing shows: the empty path, that any path of
    slashes but [/] itself normalises to, and two slashes before a name. *)
Definition hidden (k : bytes) : Prop := k = [] ∨ ∃ nm, k = slash :: slash :: nm ∧ slash ∉ nm.

Lemma rfind_head k : head k = Some slash → is_Some (rfind k).
Proof. destruct k as [|c k]; [done|]. intros [= ->]. cbn [rfind]. destruct (rfind k); [by eexists|]. by eexists. Qed.

(** Any other key is a name in its directory. *)
Lemma parent_split k : key_ok k → k ≠ root → ¬ hidden k →
  ∃ nm, k = dir_prefix (parent_of k) ++ nm ∧ nm ≠ [] ∧ slash ∉ nm.
Proof.
  intros [->|[->|[Hh Hl]]] Hr Hn; [done|by destruct Hn; left|]. unfold parent_of.
  destruct (rfind_head k Hh) as [i Hi]. rewrite Hi.
  pose proof (rfind_Some k i Hi) as (Hk&Hns&Hlen). exists (drop (S i) k).
  assert (drop (S i) k ≠ []) as Hne.
  { intros Hd. apply Hl. rewrite Hk, Hd. apply last_snoc. }
  split_and!; [|done|done]. destruct i as [|i]; [exact Hk|]. unfold dir_prefix. rewrite bool_decide_eq_false_2.
  { rewrite <-app_assoc. exact Hk. }
  intros Ht. apply Hn. right. exists (drop (S (S i)) k). split; [|done]. rewrite Hk at 1. by rewrite Ht.
Qed.

(** ** The tree *)

Definition dir_at (m : fs) (k : bytes) : Prop := m !! k = Some Dir.
Record tree_ok (m : fs) : Prop := {
  root_dir : dir_at m root;
  keys_ok : ∀ k n, m !! k = Some n → key_ok k;
  parents : ∀ k n, m !! k = Some n → dir_at m (parent_of k) }.

Lemma need_parent_Ok path m : need_parent path m = Ok tt ↔ dir_at m (parent_of path).
Proof. unfold need_parent, dir_at. destruct (m !! parent_of path) as [[]|]; naive_solver. Qed.

(** A new entry below a directory, and new contents for a file. *)
Lemma insert_tree m k n : tree_ok m → key_ok k → dir_at m (parent_of k) → (dir_at m k → n = Dir) →
  tree_ok (<[k := n]> m).
Proof.
  intros [Hr Hk Hp] Ho Hpar Hdir. unfold dir_at in *.
  assert (∀ j, m !! j = Some Dir → <[k := n]> m !! j = Some Dir) as Hkeep.
  { intros j Hj. destruct (decide (j = k)) as [->|]; [|by rewrite lookup_insert_ne]. rewrite lookup_insert_eq. by rewrite Hdir. }
  split; unfold dir_at; [by apply Hkeep| |]; intros j x; destruct (decide (j = k)) as [->|];
    rewrite ?lookup_insert_eq, ?lookup_insert_ne by done; try done; intros; try (by eapply Hk);
    try (by apply Hkeep; eapply Hp); by apply Hkeep.
Qed.

Lemma strip_prefix_Some p k r : strip_prefix p k = Some r ↔ k = p ++ r.
Proof.
  unfold strip_prefix. case_decide as Hd; split.
  - intros [= <-]. rewrite <-Hd at 1. by rewrite take_drop.
  - intros ->. by rewrite drop_app_length.
  - done.
  - intros ->. by rewrite take_app_length in Hd.
Qed.

(** Nothing lives below a directory that [remove] takes away. *)
Lemma delete_tree m k : tree_ok m → k ≠ root → m !! k ≠ Some Dir ∨ has_below k m = false → tree_ok (delete k m).
Proof.
  intros [Hr Hk Hp] Hne Hempty. unfold dir_at in *. split; unfold dir_at.
  - by rewrite lookup_delete_ne.
  - intros j n [_ Hj]%lookup_delete_Some. by eapply Hk.
  - intros j n [Hjk Hj]%lookup_delete_Some. pose proof (Hp j n Hj) as Hpar.
    destruct (decide (k = parent_of j)) as [->|]; [exfalso|by rewrite lookup_delete_ne].
    destruct Hempty as [Hnd|Hb]; [done|]. unfold parent_of in *.
    destruct (rfind j) as [i|] eqn:Hi; [|done]. destruct i as [|i]; [done|].
    pose proof (rfind_Some j (S i) Hi) as (Hjs&_&_).
    apply not_true_iff_false in Hb. apply Hb. unfold has_below. apply existsb_exists. exists j. split.
    { apply list_elem_of_In. apply list_elem_of_fmap. exists (j, n). split; [done|]. by apply elem_of_map_to_list. }
    apply bool_decide_eq_true_2. exists (drop (S (S i)) j). apply strip_prefix_Some. rewrite <-app_assoc. exact Hjs.
Qed.

Lemma elem_of_entries path m nm : nm ∈ entries path m ↔
  is_Some (m !! (dir_prefix path ++ nm)) ∧ dir_prefix path ++ nm ≠ path ∧ nm ≠ [] ∧ slash ∉ nm.
Proof.
  unfold entries. rewrite merge_sort_Permutation, list_elem_of_omap. unfold child_name. split.
  - intros (k&Hk&Hc). apply list_elem_of_fmap in Hk as ([k' n]&->&Hk%elem_of_map_to_list). cbn [fst] in *.
    case_bool_decide as Hkp; [done|]. destruct (strip_prefix _ _) as [r|] eqn:Hs; [|done]. apply strip_prefix_Some in Hs.
    repeat case_bool_decide; try done. injection Hc as <-. subst k'. split_and!; [by eexists|done..].
  - intros ([n Hn]&Hne&Hnm&Hns). exists (dir_prefix path ++ nm). split.
    { apply list_elem_of_fmap. exists (dir_prefix path ++ nm, n). split; [done|]. by apply elem_of_map_to_list. }
    rewrite bool_decide_eq_false_2 by done. rewrite (proj2 (strip_prefix_Some _ _ _) eq_refl).
    by rewrite !bool_decide_eq_false_2.
Qed.

Lemma parent_key m k n : tree_ok m → m !! k = Some n → normalize (parent_of k) = Ok (parent_of k).
Proof.
  intros Ht Hk. apply normalize_key.
  - eapply (keys_ok m Ht). apply (parents m Ht k n Hk).
  - unfold parent_of. destruct (rfind k) as [i|] eqn:Hi; [|done]. destruct i; [done|].
    pose proof (rfind_Some k _ Hi) as (_&_&Hl). destruct k; [simpl in Hl; lia|done].
Qed.

(** ** Sequences of calls *)

Inductive call : Type :=
| CreateC (path : bytes) | MkdirC (path : bytes) | WriteC (path data : bytes) | ReadC (path : bytes)
| ReaddirC (path : bytes) | StatC (path : bytes) | RemoveC (path : bytes).
Definition call_state (c : call) (s : option fs) : option fs :=
  match c with
  | CreateC p => (create p s).2 | MkdirC p => (mkdir p s).2 | WriteC p d => (write p d s).2 | ReadC p => (read p s).2
  | ReaddirC p => (readdir p s).2 | StatC p => (stat p s).2 | RemoveC p => (remove p s).2
  end.
Definition calls_state (cs : list call) (s : option fs) : option fs := foldl (λ s c, call_state c s) s cs.

Lemma add_new_tree n path m : tree_ok m → from_option tree_ok False (add_new n path (Some m)).2.
Proof.
  intros Ht. unfold add_new, sbind, slift, with_map. destruct (normalize path) as [k| | |] eqn:Hn; try exact Ht.
  case_bool_decide as Hd; [exact Ht|]. destruct (need_parent k m) as [[]| | |] eqn:Hp; try exact Ht. cbn.
  apply insert_tree; [done|by eapply normalize_ok|by apply need_parent_Ok|].
  intros Hk. destruct Hd. by eexists.
Qed.
Lemma write_tree path d m : tree_ok m → from_option tree_ok False (write path d (Some m)).2.
Proof.
  intros Ht. unfold write, sbind, slift, with_map. destruct (normalize path) as [k| | |] eqn:Hn; try exact Ht.
  destruct (m !! k) as [[x|]|] eqn:Hk; try exact Ht.
  - cbn. apply insert_tree; [done|by eapply normalize_ok|by eapply (parents m Ht)|]. unfold dir_at. by rewrite Hk.
  - destruct (need_parent k m) as [[]| | |] eqn:Hp; try exact Ht. cbn.
    apply insert_tree; [done|by eapply normalize_ok|by apply need_parent_Ok|]. unfold dir_at. by rewrite Hk.
Qed.
Lemma remove_tree path m : tree_ok m → from_option tree_ok False (remove path (Some m)).2.
Proof.
  intros Ht. unfold remove, sbind, slift, with_map. destruct (normalize path) as [k| | |] eqn:Hn; try exact Ht.
  case_bool_decide as Hr; [exact Ht|]. destruct (m !! k) as [[x|]|] eqn:Hk; try exact Ht.
  - cbn. apply delete_tree; [done|done|left; by rewrite Hk].
  - destruct (has_below k m) eqn:Hb; [exact Ht|]. cbn. apply delete_tree; [done|done|by right].
Qed.
Lemma call_tree c m : tree_ok m → from_option tree_ok False (call_state c (Some m)).
Proof.
  intros Ht. destruct c; cbn [call_state].
  1-2: by apply add_new_tree.
  1: by apply write_tree.
  4: by apply remove_tree.
  all: unfold read, readdir, stat, sbind, slift, with_map; destruct (normalize path); exact Ht.
Qed.
Lemma calls_tree cs m : tree_ok m → from_option tree_ok False (calls_state cs (Some m)).
Proof.
  revert m. induction cs as [|c cs IH]; intros m Ht; [done|]. unfold calls_state in *. cbn [foldl].
  pose proof (call_tree c m Ht) as Hc. destruct (call_state c (Some m)) as [m'|]; [by apply IH|done].
Qed.
Lemma init_tree : tree_ok init.
Proof.
  split; [done|..]; intros k n Hk; unfold init in Hk;
    repeat (apply lookup_insert_Some in Hk as [[<- <-]|[_ Hk]];
      [first [left; reflexivity | right; right; split; vm_compute; congruence | vm_compute; reflexivity]|]); done.
Qed.

(** C34: After any sequence of file-system calls on the map that [init] builds,
    the root is a directory and every entry's parent is one.  Listing the
    parent of an entry succeeds and contains the entry's name (the entry is not
    the root, the empty path or two slashes and a name), and every listing names entries only. *)
Theorem memfs_tree cs : ∃ m,
  calls_state cs (Some init) = Some m ∧ tree_ok m ∧
  (∀ k n, m !! k = Some n → k ≠ root → ¬ hidden k → ∃ l nm,
     readdir (parent_of k) (Some m) = (Ok l, Some m) ∧ nm ∈ l ∧ k = dir_prefix (parent_of k) ++ nm) ∧
  (∀ path l nm, readdir path (Some m) = (Ok l, Some m) → nm ∈ l → ∃ k n,
     normalize path = Ok k ∧ m !! k = Some Dir ∧ m !! (dir_prefix k ++ nm) = Some n).
Proof.
  pose proof (calls_tree cs init init_tree) as Ht. destruct (calls_state cs (Some init)) as [m|]; [|done].
  cbn in Ht. exists m. split_and!; [done|done|..].
  - intros k n Hk Hr Hh. pose proof (parent_key m k n Ht Hk) as Hn.
    destruct (parent_split k (keys_ok m Ht k n Hk) Hr Hh) as (nm&Hs&Hne&Hns).
    exists (entries (parent_of k) m), nm. split_and!; [|apply elem_of_entries|done].
    + unfold readdir, sbind, slift, with_map. rewrite Hn. by rewrite (parents m Ht k n Hk).
    + rewrite <-Hs. split_and!; [by eexists| |done|done]. intros Heq. rewrite Heq in Hs at 1.
      revert Hs. unfold dir_prefix. case_bool_decide as Hd; [rewrite Hd; unfold root; intros [= ?]; congruence|].
      rewrite <-app_assoc. intros Hs%(f_equal length). rewrite length_app in Hs. cbn in Hs. lia.
  - intros path l nm. unfold readdir, sbind, slift, with_map. destruct (normalize path) as [k| | |]; try done.
    destruct (m !! k) as [[]|] eqn:Hk; try done. intros [= <-] [[n Hn] _]%elem_of_entries. eauto.
Qed.

(** Two entries that no listing shows. *)
Example hidden_entries : ∃ m,
  calls_state [CreateC (str "//"); WriteC (str "//x") [1]] (Some init) = Some m ∧
  m !! [] = Some (File []) ∧ m !! str "//x" = Some (File [1]) ∧
  readdir root (Some m) = (Ok [str "etc"; str "welcome.txt"], Some m).
Proof. eexists. split_and!; [reflexivity|vm_compute; reflexivity..]. Qed.
End MemFs.
