(* ===== verification/Services.v ===== *)
(** * Services over message passing (services/vfs.rs, services/registry.rs)

    A service is a task that serves boxed requests posted to its named endpoint:
    the client boxes the request on the heap and sends its address, the server
    takes the box, handles the request, boxes the response and replies with its
    address, and the client takes that.  The generic part is proved once, over an
    interface to the heap; the file system service and the registry instantiate
    it. *)

From stdpp Require Import sorting.
From S2P Require Import Prelude Signal Task TaskSpec TaskTree TaskSteps TaskRun TaskProps Ipc IpcProps MemFs.

(** The kernel heap as far as the boxes of a service go, and the service's own
    data.  [Box::new] takes the address the allocator gives, or panics. *)
Class ServiceEnv (W Q R B : Type) := {
  boxes : W → gmap Z (Q + R);
  put_boxes : gmap Z (Q + R) → W → W;
  backend : W → B;
  put_backend : B → W → W;
  box_addr : W → option Z;
  heap_cap : nat }.
(** The parts of the environment do not overlap; addresses are fresh, words and
    not null; a heap that is not full has one. *)
Class ServiceLaws (W Q R B : Type) `{!IpcEnv W} `{!ServiceEnv W Q R B} : Prop := {
  boxes_put b w : boxes (put_boxes b w) = b;
  boxes_put_backend (x : B) w : boxes (put_backend x w) = boxes (Q:=Q) (R:=R) w;
  boxes_put_ipc s w : boxes (put_ipc s w) = boxes (Q:=Q) (R:=R) w;
  backend_put (x : B) w : backend (put_backend x w) = x;
  backend_put_boxes (b : gmap Z (Q + R)) w : backend (put_boxes b w) = backend (B:=B) w;
  backend_put_ipc s w : backend (put_ipc s w) = backend (B:=B) w;
  ipc_put_boxes (b : gmap Z (Q + R)) w : ipc_of (put_boxes b w) = ipc_of w;
  ipc_put_backend (x : B) w : ipc_of (put_backend x w) = ipc_of w;
  box_addr_fresh w a : box_addr w = Some a → 0 < a < 2 ^ 64 ∧ boxes (Q:=Q) (R:=R) w !! a = None;
  box_addr_room w : (size (boxes (Q:=Q) (R:=R) w) < heap_cap)%nat → is_Some (box_addr w) }.

Section service.
Context {W Q R B : Type} `{TaskEnv W} `{!IpcEnv W} `{SE : !ServiceEnv W Q R B}.
Implicit Types k : kernel W.
Abbreviation lop A := (locks → stm (kernel W) Empty_set A).

(** [Box::into_raw(Box::new(b))] *)
Definition into_raw (b : Q + R) : lop Z := λ _ k,
  match box_addr (k_env k) with
  | Some a => (Ok a, map_env (put_boxes (<[a := b]> (boxes (k_env k)))) k)
  | None => (Panic, k)
  end.
(** [*Box::from_raw(p)]: undefined, here a panic, where no such box lives. *)
Definition take_request (a : Z) : lop Q := λ _ k,
  match boxes (k_env k) !! a with
  | Some (inl q) => (Ok q, map_env (put_boxes (delete a (boxes (k_env k)))) k)
  | Some (inr _) | None => (Panic, k)
  end.
Definition take_response (a : Z) : lop R := λ _ k,
  match boxes (k_env k) !! a with
  | Some (inr r) => (Ok r, map_env (put_boxes (delete a (boxes (k_env k)))) k)
  | Some (inl _) | None => (Panic, k)
  end.

(** A message that carries an address in its first word. *)
Definition addressed (tag a : Z) : message := msg_with_words tag [a; 0; 0; 0; 0; 0].
Definition address (m : message) : Z := default 0 (m_words m !! O).

Section rpc.
Variables (name : bytes) (tag : Z) (handle : Q → B → outcome Empty_set R * B).

(** The client until it waits, and from the reply on; a call that has timed out
    counts as an empty reply. *)
Definition request_post (q : Q) : lop (option Z) := λ l,
  let! ep := section (λ s, (lookup_name name s, s)) l in
  match ep with
  | None => sret None
  | Some ep => let! p := into_raw (inl q) l in
               let! id := call_post ep (addressed tag p) l in sret (Some id)
  end.
Definition request_take (reply : option message) : lop (option R) := λ l,
  let p := address (default (msg_new 0) reply) in
  if p =? 0 then sret None else let! r := take_response p l in sret (Some r).

(** The body of the server's loop: whether a request was answered. *)
Definition handled (q : Q) : lop R := λ _ k,
  let p := handle q (backend (k_env k)) in (p.1, map_env (put_backend p.2) k).
Definition server_round (fuel : nat) (ep : Z) : lop bool := λ l,
  let! msg := receive fuel ep l in
  if negb (m_tag msg =? tag) then sret false else
  let p := address msg in
  if p =? 0 then sret false else
  let! q := take_request p l in
  let! r := handled q l in
  let! a := into_raw (inr r) l in
  let! _ := reply msg (addressed tag a) l in
  sret true.
End rpc.
End service.

(** ** A call of the service *)

Section laws.
Context {W Q R B : Type} `{TE : TaskEnv W} `{IE : !IpcEnv W} `{SE : !ServiceEnv W Q R B} `{SL : !ServiceLaws W Q R B}.
Implicit Types k : kernel W.

Abbreviation boxes_of k := (boxes (Q:=Q) (R:=R) (k_env k)).
Abbreviation data_of k := (backend (B:=B) (k_env k)).
(** What the tasks that run in between leave alone. *)
Definition untouched k k' : Prop :=
  ipc_of (k_env k') = ipc_of (k_env k) ∧ boxes_of k' = boxes_of k ∧ data_of k' = data_of k.

Lemma env_unblock w k : k_env (unblock w k) = k_env k.
Proof. unfold unblock, upd_id. by case_match. Qed.
Lemma env_wake w k r k' : wake w no_locks k = (r, k') → k_env k' = k_env k.
Proof.
  unfold wake. destruct w as [w|]; [|by intros [= _ <-]].
  unfold lunblock, scheduler_with. simpl. intros [= _ <-]. apply env_unblock.
Qed.
Lemma runs_map_env f k t : runs k t → runs (map_env f k) t.
Proof. done. Qed.

(** Only the endpoints, the slots and the sleeping states change in the sections
    of a call. *)
Lemma call_post_env ep m k t : runs k t → ∃ k' s,
  call_post ep m no_locks k = (Ok (t_id t), k') ∧ k_env k' = put_ipc s (k_env k).
Proof.
  intros [Ht _]. unfold call_post. rewrite (sbind_Ok _ _ _ _ _ (lcurrent_id_run k t Ht)).
  rewrite (sbind_Ok _ _ _ _ _ (section_run _ k)). set (p := enqueue _ _ _).
  destruct (wake p.1 no_locks (map_env (put_ipc p.2) k)) as [r k'] eqn:Hw.
  pose proof (env_wake _ _ _ _ Hw) as He. exists k', p.2. split; [|exact He].
  unfold wake in Hw. unfold sbind. destruct p.1; injection Hw as <- <-; done.
Qed.
Lemma reply_env m r k o k' : reply m r no_locks k = (o, k') →
  boxes_of k' = boxes_of k ∧ data_of k' = data_of k.
Proof.
  unfold reply, sbind, lcurrent_id, scheduler_with. simpl.
  destruct (current_id k); simpl; [|by intros [= _ <-]].
  case_match; simpl; (intros [= _ <-]; rewrite ?env_unblock; simpl; by rewrite boxes_put_ipc, backend_put_ipc).
Qed.

Lemma into_raw_run (b : Q + R) k l : (size (boxes_of k) < heap_cap)%nat → ∃ a,
  into_raw b l k = (Ok a, map_env (put_boxes (<[a := b]> (boxes_of k))) k) ∧
  0 < a < 2 ^ 64 ∧ boxes_of k !! a = None.
Proof.
  intros Hs. destruct (box_addr_room (k_env k) Hs) as [a Ha]. exists a.
  unfold into_raw. rewrite Ha. split; [done|]. by apply box_addr_fresh.
Qed.

Lemma ipc_map_put s k : ipc_of (k_env (map_env (put_ipc s) k)) = s.
Proof. apply ipc_of_put. Qed.

Section calls.
Variables (name : bytes) (tag : Z) (handle : Q → B → outcome Empty_set R * B).

(** The request is boxed and queued, and the client's slot is open. *)
Lemma request_post_spec q ep k c :
  runs k c → lookup_name name (ipc_of (k_env k)) = Some ep → is_Some (eps_of k !! ep) → queue_of ep k = [] →
  (size (boxes_of k) < heap_cap)%nat → ∃ a k1,
    request_post (R:=R) (B:=B) name tag q no_locks k = (Ok (Some (t_id c)), k1) ∧
    0 < a < 2 ^ 64 ∧ boxes_of k !! a = None ∧ boxes_of k1 = <[a := inl q]> (boxes_of k) ∧ data_of k1 = data_of k ∧
    queue_of ep k1 = [from_sender (t_id c) (addressed tag a)] ∧ replies_of k1 !! t_id c = Some None.
Proof.
  intros Hc Hn He Hq Hs. unfold request_post. rewrite (sbind_Ok _ _ _ _ _ (section_run _ k)).
  cbn [fst snd]. rewrite Hn. set (k0 := map_env _ k).
  assert (boxes_of k0 = boxes_of k ∧ data_of k0 = data_of k ∧ ipc_of (k_env k0) = ipc_of (k_env k)) as (Hb0&Hd0&Hi0).
  { subst k0. cbn. by rewrite boxes_put_ipc, backend_put_ipc, ipc_of_put. }
  destruct (into_raw_run (inl q) k0 no_locks) as (a&Ha&Hr&Hf); [by rewrite Hb0|].
  rewrite (sbind_Ok _ _ _ _ _ Ha). set (k0' := map_env (put_boxes _) k0) in *.
  assert (ipc_of (k_env k0') = ipc_of (k_env k)) as Hi1 by (subst k0'; cbn; rewrite ipc_put_boxes; exact Hi0).
  destruct (call_post_env ep (addressed tag a) k0' c) as (k1&si&Hp&Hk1); [done|].
  rewrite (sbind_Ok _ _ _ _ _ Hp). exists a, k1. rewrite Hb0 in Hf.
  destruct (call_post_run ep (addressed tag a) k0' c (t_id c) k1) as (_&Hrep&Hqk); [done| |done|].
  { unfold eps_of in *. by rewrite Hi1. }
  assert (queue_of ep k0' = []) as Hq0 by (unfold queue_of, eps_of in *; by rewrite Hi1).
  split; [done|]. split; [done|]. split; [done|]. split; [|split; [|split]].
  - rewrite Hk1, boxes_put_ipc. subst k0'. cbn. rewrite boxes_put. f_equal. exact Hb0.
  - rewrite Hk1, backend_put_ipc. subst k0'. cbn. by rewrite backend_put_boxes.
  - by rewrite Hqk, Hq0.
  - rewrite Hrep. apply lookup_insert_eq.
Qed.

(** The server takes the request's box and leaves the response's. *)
Lemma server_round_spec q ep k s id a r d :
  runs k s → queue_of ep k = [from_sender id (addressed tag a)] → replies_of k !! id = Some None →
  boxes_of k !! a = Some (inl q) → a ≠ 0 → (size (boxes_of k) ≤ heap_cap)%nat →
  handle q (data_of k) = (Ok r, d) → ∃ b k3,
    server_round tag handle 1 ep no_locks k = (Ok true, k3) ∧ b ≠ 0 ∧
    delete a (boxes_of k) !! b = None ∧ boxes_of k3 = <[b := inr r]> (delete a (boxes_of k)) ∧ data_of k3 = d ∧
    replies_of k3 !! id = Some (Some (from_sender (t_id s) (addressed tag b))).
Proof.
  intros Hs Hq Hrep Hbox Ha Hsz Hh. destruct (receive_some 0 ep k _ [] Hq) as (e&He&Hrec).
  unfold server_round. rewrite (sbind_Ok _ _ _ _ _ Hrec). set (k1 := map_env _ k).
  change (m_tag (from_sender id (addressed tag a))) with tag. rewrite Z.eqb_refl. cbn [negb].
  change (address (from_sender id (addressed tag a))) with a. rewrite (proj2 (Z.eqb_neq a 0) Ha).
  assert (boxes_of k1 = boxes_of k ∧ data_of k1 = data_of k ∧ replies_of k1 = replies_of k) as (Hb1&Hd1&Hr1).
  { subst k1. unfold replies_of. cbn. by rewrite boxes_put_ipc, backend_put_ipc, ipc_of_put. }
  set (k2 := map_env (put_boxes (delete a (boxes_of k))) k1).
  assert (take_request (Q:=Q) (R:=R) (B:=B) a no_locks k1 = (Ok q, k2)) as Ht by (unfold take_request; by rewrite Hb1, Hbox).
  rewrite (sbind_Ok _ _ _ _ _ Ht). set (k3 := map_env (put_backend d) k2).
  assert (handled handle q no_locks k2 = (Ok r, k3)) as Hhd.
  { unfold handled. change (backend (k_env k2)) with (backend (B:=B) (put_boxes (delete a (boxes_of k)) (k_env k1))).
    rewrite backend_put_boxes. fold (data_of k1). by rewrite Hd1, Hh. }
  rewrite (sbind_Ok _ _ _ _ _ Hhd).
  assert (boxes_of k3 = delete a (boxes_of k) ∧ data_of k3 = d ∧ replies_of k3 = replies_of k) as (Hb3&Hd3&Hr3).
  { subst k3 k2. unfold replies_of in *. cbn in *.
    rewrite boxes_put_backend, boxes_put, backend_put, ipc_put_backend, ipc_put_boxes. auto. }
  destruct (into_raw_run (inr r) k3 no_locks) as (b&Hb&Hbr&Hbf).
  { rewrite Hb3, map_size_delete, Hbox. assert (size (boxes_of k) ≠ 0%nat); [|lia].
    intros H0%map_size_empty_iff. rewrite H0 in Hbox. by rewrite lookup_empty in Hbox. }
  rewrite (sbind_Ok _ _ _ _ _ Hb). set (k4 := map_env (put_boxes _) k3) in *.
  assert (replies_of k4 = replies_of k) as Hr4 by (rewrite <-Hr3; unfold replies_of; subst k4; cbn; by rewrite ipc_put_boxes).
  set (original := from_sender id (addressed tag a)).
  destruct (reply original (addressed tag b) no_locks k4) as [o k5] eqn:Hre.
  destruct (reply_run original (addressed tag b) k4 s o k5) as (->&_&Hr5); [done| |done|].
  { rewrite Hr4. by eexists. }
  destruct (reply_env _ _ _ _ _ Hre) as [Hb5 Hd5]. rewrite (sbind_Ok _ _ _ _ _ Hre). exists b, k5.
  rewrite Hb3 in Hbf. split_and!; [done|lia|done|..].
  - rewrite Hb5. subst k4. cbn. rewrite boxes_put. f_equal. exact Hb3.
  - rewrite Hd5. subst k4. cbn. by rewrite backend_put_boxes.
  - rewrite Hr5. apply lookup_insert_eq.
Qed.

(** The client takes the response's box. *)
Lemma request_take_spec k id m b r deadline :
  replies_of k !! id = Some (Some m) → address m = b → b ≠ 0 → boxes_of k !! b = Some (inr r) → ∃ k5 k6,
    call_poll id deadline no_locks k = (Ok (Some (Some m)), k5) ∧
    request_take (Q:=Q) (B:=B) (Some m) no_locks k5 = (Ok (Some r), k6) ∧
    boxes_of k6 = delete b (boxes_of k) ∧ data_of k6 = data_of k.
Proof.
  intros Hm Ha Hb Hbox. unfold call_poll. rewrite (sbind_Ok _ _ _ _ _ (section_run _ k)).
  unfold replies_of in Hm. rewrite Hm. cbn [fst snd]. eexists _, _. split; [done|].
  unfold request_take. change (default (msg_new 0) (Some m)) with m. rewrite Ha, (proj2 (Z.eqb_neq b 0) Hb).
  unfold take_response, sbind. cbn. rewrite boxes_put_ipc, Hbox. cbn.
  split_and!; [done| |]; cbn; by rewrite ?boxes_put, ?backend_put_boxes, ?backend_put_ipc.
Qed.

(** A service call is a function call.  A client posts a request to a service
    whose queue is empty; the server's next round answers it; and the client's
    next look takes the answer: the value and the service's new data are what the
    service's function gives, and every box made on the way has been freed.
    In between other tasks may run that leave the endpoints, the boxes and the
    service's data alone. *)
Lemma service_call q r d ep k c deadline :
  runs k c → lookup_name name (ipc_of (k_env k)) = Some ep → is_Some (eps_of k !! ep) → queue_of ep k = [] →
  (size (boxes_of k) < heap_cap)%nat → handle q (data_of k) = (Ok r, d) →
  ∃ k1, request_post (R:=R) (B:=B) name tag q no_locks k = (Ok (Some (t_id c)), k1) ∧
  ∀ k2 s, untouched k1 k2 → runs k2 s →
  ∃ k3, server_round tag handle 1 ep no_locks k2 = (Ok true, k3) ∧
  ∀ k4, untouched k3 k4 →
  ∃ m k5 k6, call_poll (t_id c) deadline no_locks k4 = (Ok (Some (Some m)), k5) ∧
    request_take (Q:=Q) (B:=B) (Some m) no_locks k5 = (Ok (Some r), k6) ∧
    boxes_of k6 = boxes_of k ∧ data_of k6 = d.
Proof.
  intros Hc Hn He Hq Hs Hh.
  destruct (request_post_spec q ep k c Hc Hn He Hq Hs) as (a&k1&Hp&Ha&Hf&Hb1&Hd1&Hq1&Hr1).
  exists k1. split; [exact Hp|]. intros k2 s (Hi2&Hb2&Hd2) Hs2.
  destruct (server_round_spec q ep k2 s (t_id c) a r d) as (b&k3&Hsr&Hb0&Hbf&Hb3&Hd3&Hr3).
  - done.
  - unfold queue_of, eps_of in *. by rewrite Hi2.
  - unfold replies_of in *. by rewrite Hi2.
  - rewrite Hb2, Hb1. apply lookup_insert_eq.
  - lia.
  - rewrite Hb2, Hb1, map_size_insert_None by done. lia.
  - by rewrite Hd2, Hd1.
  - exists k3. split; [exact Hsr|]. intros k4 (Hi4&Hb4&Hd4).
    destruct (request_take_spec k4 (t_id c) (from_sender (t_id s) (addressed tag b)) b r deadline)
      as (k5&k6&Hpoll&Htake&Hb6&Hd6).
    + unfold replies_of in *. by rewrite Hi4.
    + done.
    + done.
    + rewrite Hb4, Hb3. apply lookup_insert_eq.
    + eexists _, k5, k6. split_and!; [exact Hpoll|exact Htake| |by rewrite Hd6, Hd4].
      rewrite Hb6, Hb4, Hb3, delete_insert_id by done. rewrite Hb2, Hb1. by rewrite delete_insert_id.
Qed.
End calls.
End laws.

(** ** The file system service *)

Module VfsService.
Import MemFs.

(** [services/vfs.rs:24-24, !VFS_ENDPOINT] *)
Definition VFS_ENDPOINT : bytes := str "vfs".
(** [services/vfs.rs:27-27, !TAG_VFS] *)
Definition TAG_VFS : Z := 0x56465300.

(** [services/vfs.rs:30-38, VfsRequest] *)
Inductive VfsRequest : Type :=
| Create (path : bytes) | Mkdir (path : bytes) | Write (path data : bytes) | Read (path : bytes)
| ReadDir (path : bytes) | StatOf (path : bytes) | Remove (path : bytes).
(** [services/vfs.rs:41-48, VfsResponse] *)
Inductive VfsResponse : Type :=
| Done | Data (data : bytes) | Entries (names : list bytes) | StatR (size : Z) (is_dir : bool) | Written (n : Z)
| Error (e : FsError).

Definition respond {A} (f : A → VfsResponse) (p : outcome FsError A * option fs)
  : outcome Empty_set VfsResponse * option fs :=
  (match p.1 with Ok a => Ok (f a) | Err e => Ok (Error e) | Panic => Panic | Diverge => Diverge end, p.2).

(** [services/vfs.rs:51-85, handle] *)
Definition vfs_handle (req : VfsRequest) (s : option fs) : outcome Empty_set VfsResponse * option fs :=
  match req with
  | Create path => respond (λ _, Done) (create path s)
  | Mkdir path => respond (λ _, Done) (mkdir path s)
  | Write path data => respond Written (write path data s)
  | Read path => respond Data (read path s)
  | ReadDir path => respond Entries (readdir path s)
  | StatOf path => respond (λ i, StatR (size i) (is_dir i)) (stat path s)
  | Remove path => respond (λ _, Done) (remove path s)
  end.

Section service.
Context {W : Type} `{TaskEnv W} `{!IpcEnv W} `{SE : !ServiceEnv W VfsRequest VfsResponse (option fs)}.

(** [services/vfs.rs:89-110, vfs_server_task]: its start and the body of its loop. *)
Definition vfs_server_round (fuel : nat) (ep : Z) : locks → stm (kernel W) Empty_set bool :=
  server_round TAG_VFS vfs_handle fuel ep.
Definition vfs_server_start : locks → stm (kernel W) Empty_set Z := λ l,
  let! _ := smodify (map_env (put_backend (Some init))) in
  section (create_named_endpoint VFS_ENDPOINT) l.
(** [services/vfs.rs:114-124, request]: until the call waits, and after it. *)
Definition vfs_request_post (req : VfsRequest) : locks → stm (kernel W) Empty_set (option Z) :=
  request_post (Q:=VfsRequest) (R:=VfsResponse) VFS_ENDPOINT TAG_VFS req.
Definition vfs_request_take (reply : option message) : locks → stm (kernel W) Empty_set (option VfsResponse) :=
  request_take (Q:=VfsRequest) reply.
End service.

(** The wrappers' reading of a response. *)
Definition expect {A} (f : VfsResponse → option A) (r : option VfsResponse) : outcome FsError A :=
  match r with
  | Some (Error e) => Err e
  | Some r => match f r with Some a => Ok a | None => Err InvalidPath end
  | None => Err InvalidPath
  end.
(** [services/vfs.rs:129-137, read] *)
Definition vfs_read (path : bytes) : VfsRequest * (option VfsResponse → outcome FsError bytes) :=
  (Read path, expect (λ r, match r with Data d => Some d | _ => None end)).
(** [services/vfs.rs:140-149, write] *)
Definition vfs_write (path data : bytes) : VfsRequest * (option VfsResponse → outcome FsError Z) :=
  (Write path data, expect (λ r, match r with Written n => Some n | _ => None end)).
(** [services/vfs.rs:152-160, readdir] *)
Definition vfs_readdir (path : bytes) : VfsRequest * (option VfsResponse → outcome FsError (list bytes)) :=
  (ReadDir path, expect (λ r, match r with Entries e => Some e | _ => None end)).
(** [services/vfs.rs:163-171, stat] *)
Definition vfs_stat (path : bytes) : VfsRequest * (option VfsResponse → outcome FsError StatInfo) :=
  (StatOf path, expect (λ r, match r with StatR n d => Some (Stat n d) | _ => None end)).
Definition is_done (r : VfsResponse) : option unit := match r with Done => Some tt | _ => None end.
(** [services/vfs.rs:174-182, create] *)
Definition vfs_create (path : bytes) : VfsRequest * (option VfsResponse → outcome FsError unit) :=
  (Create path, expect is_done).
(** [services/vfs.rs:185-193, mkdir] *)
Definition vfs_mkdir (path : bytes) : VfsRequest * (option VfsResponse → outcome FsError unit) :=
  (Mkdir path, expect is_done).
(** [services/vfs.rs:196-204, remove] *)
Definition vfs_remove (path : bytes) : VfsRequest * (option VfsResponse → outcome FsError unit) :=
  (Remove path, expect is_done).

(** ** The wrappers are the local functions *)

(** A wrapper and the function of the in-memory file system it stands for. *)
Inductive wraps : ∀ {A}, VfsRequest * (option VfsResponse → outcome FsError A) → op A → Prop :=
| WrapsRead path : wraps (vfs_read path) (read path)
| WrapsWrite path data : wraps (vfs_write path data) (write path data)
| WrapsReaddir path : wraps (vfs_readdir path) (readdir path)
| WrapsStat path : wraps (vfs_stat path) (stat path)
| WrapsCreate path : wraps (vfs_create path) (create path)
| WrapsMkdir path : wraps (vfs_mkdir path) (mkdir path)
| WrapsRemove path : wraps (vfs_remove path) (remove path).

Lemma op_answers {A} (w : VfsRequest * (option VfsResponse → outcome FsError A)) f s :
  wraps w f → ∃ x, ((∃ a, x = Ok a) ∨ ∃ e, x = Err e) ∧ (f s).1 = x.
Proof.
  assert (∀ path, (∃ k, normalize path = Ok k) ∨ ∃ e, normalize path = Err e) as Hn.
  { intros path. unfold normalize. repeat case_match; eauto. }
  assert (∀ path m, (∃ u, need_parent path m = Ok u) ∨ ∃ e, need_parent path m = Err e) as Hp.
  { intros path m. unfold need_parent. repeat case_match; eauto. }
  destruct 1;
    unfold read, write, readdir, stat, create, mkdir, add_new, remove, sbind, slift, sthrow, with_map;
    (destruct (Hn path) as [[k ->]|[e ->]]; [|eauto]); destruct s as [m|]; repeat case_match; simplify_eq; cbn; eauto;
    try match goal with H : need_parent ?a ?b = _ |- _ => destruct (Hp a b) as [[? Hq]|[? Hq]]; congruence end.
Qed.

Lemma wrapper_local {A} (w : VfsRequest * (option VfsResponse → outcome FsError A)) f s :
  wraps w f → ∃ r, vfs_handle w.1 s = (Ok r, (f s).2) ∧ w.2 (Some r) = (f s).1.
Proof.
  intros Hw. destruct (op_answers w f s Hw) as (x&Hx&Hf).
  destruct Hw; cbn [fst snd vfs_read vfs_write vfs_readdir vfs_stat vfs_create vfs_mkdir vfs_remove vfs_handle];
    unfold respond; rewrite Hf; (destruct Hx as [[a ->]|[e ->]];
      [eexists; split; [done|]|exists (Error e); done]); cbn; try done; [by destruct a..].
Qed.

Section refinement.
Context {W : Type} `{TE : TaskEnv W} `{IE : !IpcEnv W} `{SE : !ServiceEnv W VfsRequest VfsResponse (option fs)}
  `{SL : !ServiceLaws W VfsRequest VfsResponse (option fs)}.
Implicit Types k : kernel W.
Abbreviation boxes_of k := (boxes (Q:=VfsRequest) (R:=VfsResponse) (k_env k)).
Abbreviation data_of k := (backend (B:=option fs) (k_env k)).

(** C9: The file system service is the in-memory file system.  A client that calls
    one of the seven wrappers - its request is posted to the service with an empty
    queue, the server's next round answers it, the client takes the answer -
    gets the value, and leaves the file system in the state, that the function of
    the in-memory file system gives; no box is left on the heap.  In between other
    tasks may run that leave the endpoints, the boxes and the files alone. *)
Theorem vfs_service_refines {A} (w : VfsRequest * (option VfsResponse → outcome FsError A)) (f : op A) ep k c deadline :
  wraps w f → runs k c → lookup_name VFS_ENDPOINT (ipc_of (k_env k)) = Some ep →
  is_Some (eps_of k !! ep) → queue_of ep k = [] → (base.size (boxes_of k) < heap_cap)%nat →
  ∃ k1, vfs_request_post w.1 no_locks k = (Ok (Some (t_id c)), k1) ∧
  ∀ k2 s, untouched k1 k2 → runs k2 s →
  ∃ k3, vfs_server_round 1 ep no_locks k2 = (Ok true, k3) ∧
  ∀ k4, untouched k3 k4 →
  ∃ m k5 r k6, call_poll (t_id c) deadline no_locks k4 = (Ok (Some (Some m)), k5) ∧
    vfs_request_take (Some m) no_locks k5 = (Ok r, k6) ∧
    (w.2 r, data_of k6) = f (data_of k) ∧ boxes_of k6 = boxes_of k.
Proof.
  intros Hw Hc Hn He Hq Hs. destruct (wrapper_local w f (data_of k) Hw) as (r&Hh&Hr).
  destruct (service_call VFS_ENDPOINT TAG_VFS vfs_handle w.1 r _ ep k c deadline Hc Hn He Hq Hs Hh) as (k1&Hp&H1).
  exists k1. split; [exact Hp|]. intros k2 s Hu2 Hs2. destruct (H1 k2 s Hu2 Hs2) as (k3&Hsr&H3).
  exists k3. split; [exact Hsr|]. intros k4 Hu4. destruct (H3 k4 Hu4) as (m&k5&k6&Hpoll&Htake&Hb&Hd).
  exists m, k5, (Some r), k6. split_and!; [done|exact Htake| |done].
  rewrite Hd, Hr. by destruct (f (data_of k)).
Qed.
End refinement.
End VfsService.

(** ** The registry *)

Module Registry.
(** [services/registry.rs:22-22, !REGISTRY_ENDPOINT] *)
Definition REGISTRY_ENDPOINT : bytes := str "registry".
(** [services/registry.rs:25-25, !TAG_REG] *)
Definition TAG_REG : Z := 0x52454700.
(** [services/registry.rs:32-36, RegRequest] *)
Inductive RegRequest : Type := Register (name : bytes) (endpoint : Z) | Lookup (name : bytes) | ListAll.
(** [services/registry.rs:39-44, RegResponse] *)
Inductive RegResponse : Type := Done | EndpointIs (ep : Z) | NotFound | Names (l : list bytes).

#[local] Existing Instance MemFs.string_le_dec.
(** [NAMES], made by the first request; its keys come in order. *)
Definition sorted_keys (m : gmap bytes Z) : list bytes :=
  merge_sort (λ a b, MemFs.string_le a b = true) (map_to_list m).*1.
(** [services/registry.rs:46-60, handle] *)
Definition handle (req : RegRequest) (names : option (gmap bytes Z)) : outcome Empty_set RegResponse * option (gmap bytes Z) :=
  let m := default ∅ names in
  match req with
  | Register name endpoint => (Ok Done, Some (<[name := endpoint]> m))
  | Lookup name => (Ok (match m !! name with Some ep => EndpointIs ep | None => NotFound end), Some m)
  | ListAll => (Ok (Names (sorted_keys m)), Some m)
  end.

Section service.
Context {W : Type} `{TaskEnv W} `{!IpcEnv W} `{SE : !ServiceEnv W RegRequest RegResponse (option (gmap bytes Z))}.
(** [services/registry.rs:63-82, registry_server_task]: the body of its loop. *)
Definition registry_server_round (fuel : nat) (ep : Z) : locks → stm (kernel W) Empty_set bool :=
  server_round TAG_REG handle fuel ep.
(** [services/registry.rs:85-94, request]: until the call waits, and after it. *)
Definition registry_request_post (req : RegRequest) : locks → stm (kernel W) Empty_set (option Z) :=
  request_post (Q:=RegRequest) (R:=RegResponse) REGISTRY_ENDPOINT TAG_REG req.
Definition registry_request_take (reply : option message) : locks → stm (kernel W) Empty_set (option RegResponse) :=
  request_take (Q:=RegRequest) reply.
End service.

(** [services/registry.rs:97-102, register] *)
Definition register (name : bytes) (endpoint : Z) : RegRequest * (option RegResponse → bool) :=
  (Register name endpoint, λ r, match r with Some Done => true | _ => false end).
(** [services/registry.rs:105-112, lookup] *)
Definition lookup (name : bytes) : RegRequest * (option RegResponse → option Z) :=
  (Lookup name, λ r, match r with Some (EndpointIs ep) => Some ep | _ => None end).
(** [services/registry.rs:115-120, list] *)
Definition list_names : RegRequest * (option RegResponse → list bytes) :=
  (ListAll, λ r, match r with Some (Names v) => v | _ => [] end).
End Registry.

(** ** Registry *)

Lemma registry_remembers name ep names :
  let s := (Registry.handle (Registry.register name ep).1 names).2 in
  (Registry.register name ep).2 (Some Registry.Done) = true ∧
  (∃ r, (Registry.handle (Registry.lookup name).1 s).1 = Ok r ∧ (Registry.lookup name).2 (Some r) = Some ep) ∧
  ∃ l, (Registry.handle Registry.list_names.1 s).1 = Ok (Registry.Names l) ∧ name ∈ l.
Proof.
  cbn. split; [done|]. rewrite lookup_insert_eq. split; [by eexists|]. eexists. split; [done|].
  unfold Registry.sorted_keys. rewrite merge_sort_Permutation. apply list_elem_of_fmap.
  exists (name, ep). split; [done|]. apply elem_of_map_to_list, lookup_insert_eq.
Qed.

(** ** A concrete heap *)

Section beside.
Context {W B : Type}.
(** More state next to an environment. *)
#[export] Instance beside_task_env `{TaskEnv W} : TaskEnv (W * B) := {
  init_fds id w := (init_fds id w.1, w.2);
  clone_fds p c w := (clone_fds p c w.1, w.2);
  cleanup_fds id w := (cleanup_fds id w.1, w.2);
  drop_reply_slot id w := (drop_reply_slot id w.1, w.2);
  drop_windows id w := (drop_windows id w.1, w.2);
  cow_fork c t w := let p := cow_fork c t w.1 in (p.1, (p.2, w.2));
  last_page_table w := last_page_table w.1;
  load_program c p a e w := let r := load_program c p a e w.1 in (r.1, (r.2, w.2));
  load_image c d a e w := let r := load_image c d a e w.1 in (r.1, (r.2, w.2));
  take_frames n w := (λ w1, (w1, w.2)) <$> take_frames n w.1;
  poke64 c a x w := (λ w1, (w1, w.2)) <$> poke64 c a x w.1;
  poke32 c a x w := (λ w1, (w1, w.2)) <$> poke32 c a x w.1;
  user_cs := user_cs; user_ss := user_ss;
  task_trampoline := task_trampoline; fork_child_trampoline := fork_child_trampoline;
  user_task_trampoline := user_task_trampoline;
}.
#[export, refine] Instance beside_ipc_env `{IpcEnv W} : IpcEnv (W * B) := {
  ipc_of w := ipc_of w.1; put_ipc s w := (put_ipc s w.1, w.2) }.
Proof. intros s w. apply ipc_of_put. Defined.
End beside.

Import VfsService.
Abbreviation demo_env := (world * Ipc.ipc * (gmap Z (VfsRequest + VfsResponse) * option MemFs.fs))%type.

(** Four addresses for boxes. *)
Definition box_slots : list Z := [0x4000; 0x4040; 0x4080; 0x40C0].
#[local] Instance demo_service : ServiceEnv demo_env VfsRequest VfsResponse (option MemFs.fs) := {
  boxes w := w.2.1;
  put_boxes b w := (w.1, (b, w.2.2));
  backend w := w.2.2;
  put_backend x w := (w.1, (w.2.1, x));
  box_addr w := head (filter (λ a, w.2.1 !! a = None) box_slots);
  heap_cap := 4 }.
#[local] Instance demo_service_laws : ServiceLaws demo_env VfsRequest VfsResponse (option MemFs.fs).
Proof.
  split; try done.
  - intros w a Ha. assert (a ∈ filter (λ a, w.2.1 !! a = None) box_slots) as [Hn Hin]%list_elem_of_filter.
    { change (head (filter (λ a, w.2.1 !! a = None) box_slots) = Some a) in Ha. destruct (filter _ _) as [|b l]; [done|]. injection Ha as ->. apply elem_of_cons. by left. }
    split; [|done]. revert Hin. unfold box_slots. rewrite !elem_of_cons, elem_of_nil. lia.
  - intros w Hs. change (is_Some (head (filter (λ a, w.2.1 !! a = None) box_slots))). cbn in Hs.
    destruct (filter (λ a, w.2.1 !! a = None) box_slots) as [|b l] eqn:Hf; [exfalso|by eexists].
    assert (list_to_set box_slots ⊆ dom w.2.1) as Hsub.
    { intros a Ha%elem_of_list_to_set. apply elem_of_dom. destruct (w.2.1 !! a) eqn:Hl; [by eexists|].
      assert (a ∈ filter (λ a, w.2.1 !! a = None) box_slots) as Hin by by apply list_elem_of_filter.
      rewrite Hf in Hin. by apply elem_of_nil in Hin. }
    apply subseteq_size in Hsub. rewrite size_dom in Hsub. change (size (list_to_set box_slots : gset Z)) with 4%nat in Hsub. lia.
Defined.

Definition sk0 : kernel demo_env :=
  Kernel [idle; server] 0 2 GUARDED_STACK_VIRT_BASE u64_max 0 0 (Some 100) 100 0 ∅
    (World ∅ 200 [], (create_named_endpoint (str "vfs") ipc_init).2, (∅, Some MemFs.init)).

(** A client writes a file through the service. *)
Example vfs_service_refines_witness :
  ∃ k1, vfs_request_post (vfs_write (str "/a") [1; 2]).1 no_locks sk0 = (Ok (Some 0), k1) ∧
  ∃ k3, vfs_server_round 1 1 no_locks (yield_now k1) = (Ok true, k3) ∧
  ∃ m k5 r k6, call_poll 0 500 no_locks k3 = (Ok (Some (Some m)), k5) ∧
    vfs_request_take (Some m) no_locks k5 = (Ok r, k6) ∧ (vfs_write (str "/a") [1; 2]).2 r = Ok 2.
Proof.
  destruct (vfs_service_refines (vfs_write (str "/a") [1; 2]) (MemFs.write (str "/a") [1; 2]) 1 sk0 idle 500)
    as (k1&Hp&H1).
  - constructor.
  - split; reflexivity.
  - vm_compute. reflexivity.
  - eexists. vm_compute. reflexivity.
  - vm_compute. reflexivity.
  - vm_compute. lia.
  - exists k1. split; [exact Hp|].
    assert (k1 = (vfs_request_post (vfs_write (str "/a") [1; 2]).1 no_locks sk0).2) as -> by (by rewrite Hp).
    set (k1 := (vfs_request_post _ _ _).2) in *.
    destruct (H1 (yield_now k1) (default idle (k_tasks (yield_now k1) !! k_current (yield_now k1)))) as (k3&Hs&H3).
    { split_and!; vm_compute; reflexivity. }
    { split; vm_compute; reflexivity. }
    exists k3. split; [exact Hs|]. destruct (H3 k3) as (m&k5&r&k6&Hc&Ht&He&_); [by split_and!|].
    exists m, k5, r, k6. split_and!; [exact Hc|exact Ht|].
    etransitivity; [exact (f_equal fst He)|vm_compute; reflexivity].
Defined.

(** After a call has given up, the server answers into the void: the response's
    box is never freed. *)
Example late_answer_leaks :
  let k1 := (vfs_request_post (vfs_read (str "/etc/motd")).1 no_locks sk0).2 in
  let given_up := (call_poll 0 0 no_locks k1) in
  let k3 := (vfs_server_round 1 1 no_locks (yield_now given_up.2)).2 in
  given_up.1 = Ok (Some None) ∧ (vfs_request_take None no_locks given_up.2).1 = Ok None ∧
  base.size (boxes (k_env k3)) = 1%nat ∧ replies_of k3 !! 0 = None.
Proof. vm_compute. auto. Qed.
