(* ===== verification/Terminal.v ===== *)
(** * Terminals (terminal.rs)

    The pool of character grids behind the shell windows: control characters,
    the ANSI escape parser, scrolling with a bounded scrollback, and the routing of
    output to the terminal of the running task.  No input makes a terminal panic
    or leave its well-formed states, and plain text ends up on the screen and in
    the scrollback the way a reference layout says. *)

From S2P Require Import Prelude.

Module Terminal.

(** [terminal.rs:43-43, !COLS] *)
Definition COLS : nat := 64.
(** [terminal.rs:44-44, !ROWS] *)
Definition ROWS : nat := 28.
(** [terminal.rs:47-47, !MAX_TERMS] *)
Definition MAX_TERMS : nat := 4.
(** [terminal.rs:50-50, !NO_TERM] *)
Definition NO_TERM : Z := u64_max.
(** [terminal.rs:54-54, !PRIMARY] *)
Definition PRIMARY : nat := 0.
(** [terminal.rs:57-57, !TAB] *)
Definition TAB : nat := 4.
(** [terminal.rs:60-60, !SCROLLBACK_MAX] *)
Definition SCROLLBACK_MAX : nat := 200.
(** [terminal.rs:65-65, !DEFAULT_FG] *)
Definition DEFAULT_FG : Z := 0.

(** [terminal.rs:69-72, Cell] *)
Record Cell := MkCell { ch : Z; fg : Z }.
(** [terminal.rs:76-76, !Cell::BLANK] *)
Definition BLANK : Cell := MkCell 32 DEFAULT_FG.
(** [terminal.rs:81-90, !ANSI] *)
Definition ANSI : list Z := [0x1A1A1A; 0xE05561; 0x8CC265; 0xE0C060; 0x5C9CE6; 0xC162DE; 0x4CC9C0; 0xD7DAE0].
(** [terminal.rs:93-102, !ANSI_BRIGHT] *)
Definition ANSI_BRIGHT : list Z :=
  [0x6B7280; 0xFF7A85; 0xB4F08C; 0xFFE08A; 0x8AB8FF; 0xE08CFF; 0x80F0E8; 0xFFFFFF].

(** [terminal.rs:105-107, !ESC_NONE] *)
Inductive esc_state : Type := EscNone | EscSeen | EscCsi.

(** [terminal.rs:109-135, Terminal] *)
Record Terminal := MkTerm {
  cells : list (list Cell); cx : nat; cy : nat; in_use : bool; owner : Z; cur_fg : Z;
  esc : esc_state; params : list Z; nparam : nat; have_digit : bool;
  scroll : list (list Cell); view : nat }.

Definition blank_row : list Cell := replicate COLS BLANK.
Definition blank_grid : list (list Cell) := replicate ROWS blank_row.
Definition no_params : list Z := replicate 8 0.
(** [terminal.rs:137-150, !EMPTY_TERM] *)
Definition EMPTY_TERM : Terminal := MkTerm blank_grid 0 0 false 0 DEFAULT_FG EscNone no_params 0 false [] 0.

Definition set_cells (c : list (list Cell)) (t : Terminal) : Terminal :=
  MkTerm c (cx t) (cy t) (in_use t) (owner t) (cur_fg t) (esc t) (params t) (nparam t) (have_digit t) (scroll t) (view t).
Definition set_cursor (x y : nat) (t : Terminal) : Terminal :=
  MkTerm (cells t) x y (in_use t) (owner t) (cur_fg t) (esc t) (params t) (nparam t) (have_digit t) (scroll t) (view t).
Definition set_slot (u : bool) (o : Z) (t : Terminal) : Terminal :=
  MkTerm (cells t) (cx t) (cy t) u o (cur_fg t) (esc t) (params t) (nparam t) (have_digit t) (scroll t) (view t).
Definition set_fg (f : Z) (t : Terminal) : Terminal :=
  MkTerm (cells t) (cx t) (cy t) (in_use t) (owner t) f (esc t) (params t) (nparam t) (have_digit t) (scroll t) (view t).
Definition set_parser (e : esc_state) (p : list Z) (n : nat) (h : bool) (t : Terminal) : Terminal :=
  MkTerm (cells t) (cx t) (cy t) (in_use t) (owner t) (cur_fg t) e p n h (scroll t) (view t).
Definition set_esc (e : esc_state) (t : Terminal) : Terminal := set_parser e (params t) (nparam t) (have_digit t) t.
Definition set_scroll (s : list (list Cell)) (t : Terminal) : Terminal :=
  MkTerm (cells t) (cx t) (cy t) (in_use t) (owner t) (cur_fg t) (esc t) (params t) (nparam t) (have_digit t) s (view t).
Definition set_view (v : nat) (t : Terminal) : Terminal :=
  MkTerm (cells t) (cx t) (cy t) (in_use t) (owner t) (cur_fg t) (esc t) (params t) (nparam t) (have_digit t) (scroll t) v.

(** ** One terminal *)

Abbreviation act := (stm Terminal Empty_set unit).

(** [terminal.rs:288-300, Terminal::scroll_up] *)
Definition scroll_up (t : Terminal) : Terminal :=
  let kept := if decide (SCROLLBACK_MAX ≤ length (scroll t))%nat then tail (scroll t) else scroll t in
  set_cursor (cx t) (pred (cy t))
    (set_cells (drop 1 (cells t) ++ [blank_row]) (set_scroll (kept ++ take 1 (cells t)) t)).

(** [terminal.rs:302-308, Terminal::newline] *)
Definition newline (t : Terminal) : Terminal :=
  let t := set_cursor 0 (S (cy t)) t in
  if decide (ROWS ≤ cy t)%nat then scroll_up t else t.

(** [self.cells[self.cy][self.cx] = c], with the bounds checks. *)
Definition set_cell (c : Cell) : act := λ t,
  match cells t !! cy t with
  | Some row => if decide (cx t < length row)%nat then (Ok tt, set_cells (<[cy t := <[cx t := c]> row]> (cells t)) t)
                else (Panic, t)
  | None => (Panic, t)
  end.

(** [terminal.rs:311-338, Terminal::put] *)
Definition put (c : Z) : act := λ t,
  if c =? 10 then (Ok tt, newline t) else
  if c =? 13 then (Ok tt, set_cursor 0 (cy t) t) else
  if c =? 9 then (Ok tt, set_cursor (Nat.min ((cx t / TAB + 1) * TAB) (COLS - 1))%nat (cy t) t) else
  if c =? 8 then
    (Ok tt, match cx t with
            | S x => set_cursor x (cy t) t
            | O => match cy t with S y => set_cursor (COLS - 1) y t | O => t end
            end)
  else if 0x20 <=? c then
    let t := if decide (COLS ≤ cx t)%nat then newline t else t in
    (let! _ := set_cell (MkCell c (cur_fg t)) in smodify (λ t, set_cursor (S (cx t)) (cy t) t)) t
  else (Ok tt, t).

(** [terminal.rs:423-430, Terminal::sgr] *)
Definition sgr (code : Z) : act := λ t,
  if (code =? 0) || (code =? 39) then (Ok tt, set_fg DEFAULT_FG t) else
  if (30 <=? code) && (code <=? 37) then
    match ANSI !! Z.to_nat (code - 30) with Some f => (Ok tt, set_fg f t) | None => (Panic, t) end
  else if (90 <=? code) && (code <=? 97) then
    match ANSI_BRIGHT !! Z.to_nat (code - 90) with Some f => (Ok tt, set_fg f t) | None => (Panic, t) end
  else (Ok tt, t).

(** [terminal.rs:432-436, Terminal::erase_to_eol] *)
Definition erase_to_eol : act := λ t,
  if decide (cx t < COLS)%nat then
    match cells t !! cy t with
    | Some row => (Ok tt, set_cells (<[cy t := take (cx t) row ++ replicate (COLS - cx t) BLANK]> (cells t)) t)
    | None => (Panic, t)
    end
  else (Ok tt, t).

(** [terminal.rs:439-444, Terminal::clear_grid] *)
Definition clear_grid (t : Terminal) : Terminal := set_view 0 (set_cursor 0 0 (set_cells blank_grid t)).

(** [terminal.rs:447-458, Terminal::reset_full] *)
Definition reset_full (t : Terminal) : Terminal :=
  MkTerm blank_grid 0 0 (in_use t) (owner t) DEFAULT_FG EscNone no_params 0 false [] 0.

(** [self.params[i]] where there are [count] of them: the value, or a default. *)
Definition param (i count : nat) (t : Terminal) : Z := if decide (i < count)%nat then nth i (params t) 0 else 0.

(** [terminal.rs:385-420, Terminal::csi_dispatch] *)
Definition csi_dispatch (final : Z) (count : nat) : act := λ t,
  if final =? 109 (* m *) then
    match count with
    | O => (Ok tt, set_fg DEFAULT_FG t)
    | _ => sfor (seq 0 count)
             (λ i, λ t, match params t !! i with Some p => sgr p t | None => (Panic, t) end) t
    end
  else if (final =? 72 (* H *)) || (final =? 102 (* f *)) then
    let row := if 0 <? param 0 count t then param 0 count t else 1 in
    let col := if 0 <? param 1 count t then param 1 count t else 1 in
    (Ok tt, set_cursor (Nat.min (Z.to_nat (col - 1)) (COLS - 1)) (Nat.min (Z.to_nat (row - 1)) (ROWS - 1)) t)
  else if final =? 74 (* J *) then
    let mode := param 0 count t in
    if (mode =? 2) || (mode =? 3) then (Ok tt, clear_grid t) else
    (let! _ := erase_to_eol in
     smodify (λ t, set_cells (take (S (cy t)) (cells t) ++ replicate (ROWS - S (cy t)) blank_row) t)) t
  else if final =? 75 (* K *) then erase_to_eol t
  else (Ok tt, t).

(** [terminal.rs:341-382, Terminal::feed] *)
Definition feed (c : Z) : act := λ t,
  match esc t with
  | EscSeen => (Ok tt, if c =? 91 (* [ *) then set_parser EscCsi no_params 0 false t else set_esc EscNone t)
  | EscCsi =>
      if (48 <=? c) && (c <=? 57) then
        match params t !! nparam t with
        | Some p => (Ok tt, set_parser EscCsi
            (<[nparam t := Z.min 65535 (Z.min 65535 (p * 10) + (c - 48))]> (params t)) (nparam t) true t)
        | None => (Panic, t)
        end
      else if c =? 59 (* ; *) then
        (Ok tt, if decide (nparam t + 1 < length (params t))%nat
                then set_parser EscCsi (params t) (S (nparam t)) (have_digit t) t else t)
      else
        let count := if have_digit t || (0 <? Z.of_nat (nparam t)) then S (nparam t) else O in
        (let! _ := csi_dispatch c count in smodify (set_esc EscNone)) t
  | EscNone => if c =? 27 then (Ok tt, set_esc EscSeen t) else put c t
  end.

(** ** The pool *)

(** The statics [TERMS], [SEQ], [ACTIVE], [FOCUS] and [PENDING_SHELLS]. *)
Record pool := Pool {
  terms : list Terminal; seqs : list Z; active : bool; focused : Z; pending : list Z }.
(** [terminal.rs:152-171, !TERMS] *)
Definition pool_new : pool :=
  Pool (replicate MAX_TERMS EMPTY_TERM) (replicate MAX_TERMS 0) false (Z.of_nat PRIMARY) [].

Definition set_terms (ts : list Terminal) (p : pool) : pool := Pool ts (seqs p) (active p) (focused p) (pending p).
(** [SEQ[id].fetch_add(1)] *)
Definition bump (id : nat) (p : pool) : pool :=
  Pool (terms p) (alter (λ n, wrap64 (n + 1)) id (seqs p)) (active p) (focused p) (pending p).
(** [TERMS[id]], changed. *)
Definition on_term (id : nat) (f : Terminal → Terminal) (p : pool) : pool := set_terms (alter f id (terms p)) p.
Definition term_at (id : Z) (p : pool) : option Terminal := if 0 <=? id then terms p !! Z.to_nat id else None.

(** [terminal.rs:176-178, set_active] *)
Definition set_active (on : bool) (p : pool) : pool := Pool (terms p) (seqs p) on (focused p) (pending p).
(** [terminal.rs:181-183, is_active] *)
Definition is_active (p : pool) : bool := active p.

(** [terminal.rs:189-200, alloc_terminal] *)
Definition alloc_terminal (p : pool) : option nat * pool :=
  match position (λ t, negb (in_use t)) (terms p) with
  | Some id => (Some id, bump id (on_term id (λ t, set_slot true (owner t) (reset_full t)) p))
  | None => (None, p)
  end.

(** [terminal.rs:204-214, free_terminal] *)
Definition free_terminal (id : Z) (p : pool) : pool :=
  if Z.of_nat MAX_TERMS <=? id then p else
  bump (Z.to_nat id) (on_term (Z.to_nat id) (λ t, set_slot false 0 (reset_full t)) p).

(** [terminal.rs:217-219, is_alive] *)
Definition is_alive (id : Z) (p : pool) : bool := from_option in_use false (term_at id p).

(** [terminal.rs:222-227, bind] *)
Definition bind (id task : Z) (p : pool) : pool :=
  if Z.of_nat MAX_TERMS <=? id then p else on_term (Z.to_nat id) (λ t, set_slot (in_use t) task t) p.

(** [terminal.rs:231-237, owns] *)
Definition owns (id task : Z) (p : pool) : bool :=
  from_option (λ t, in_use t && (owner t =? task)) false (term_at id p).

(** [terminal.rs:242-244, set_focus] *)
Definition set_focus (id : Z) (p : pool) : pool := Pool (terms p) (seqs p) (active p) id (pending p).
(** [terminal.rs:247-249, focus] *)
Definition focus (p : pool) : Z := focused p.
(** [terminal.rs:252-254, is_focused] *)
Definition is_focused (id : Z) (p : pool) : bool := focused p =? id.

(** [terminal.rs:259-261, request_shell] *)
Definition request_shell (id : Z) (p : pool) : pool :=
  Pool (terms p) (seqs p) (active p) (focused p) (pending p ++ [id]).
(** [terminal.rs:264-271, take_pending_shell] *)
Definition take_pending_shell (p : pool) : option Z * pool :=
  match pending p with
  | [] => (None, p)
  | id :: l => (Some id, Pool (terms p) (seqs p) (active p) (focused p) l)
  end.

(** [terminal.rs:276-281, seq] *)
Definition seq_of (id : Z) (p : pool) : Z := if 0 <=? id then nth (Z.to_nat id) (seqs p) 0 else 0.

(** The characters of a string, fed to one terminal; the view snaps back. *)
Definition feed_all (s : list Z) : act := λ t, sfor s feed (set_view 0 t).
Definition write_to (id : nat) (s : list Z) : stm pool Empty_set unit := λ p,
  match terms p !! id with
  | Some t => let r := feed_all s t in
      match r.1 with
      | Ok _ => (Ok tt, bump id (set_terms (<[id := r.2]> (terms p)) p))
      | Err e => (Err e, p)
      | Panic => (Panic, set_terms (<[id := r.2]> (terms p)) p)
      | Diverge => (Diverge, p)
      end
  | None => (Panic, p)
  end.
(** The terminal of a task: its own, or the primary one. *)
Definition target (task : Z) (p : pool) : nat :=
  default PRIMARY (position (λ t, in_use t && (owner t =? task)) (terms p)).

(** [terminal.rs:463-474, write] *)
Definition write (id : Z) (s : list Z) : stm pool Empty_set unit :=
  if Z.of_nat MAX_TERMS <=? id then sret tt else write_to (Z.to_nat id) s.
(** [terminal.rs:479-492, write_for_current] *)
Definition write_for_current (task : Z) (s : list Z) : stm pool Empty_set unit := λ p, write_to (target task p) s p.
(** [terminal.rs:495-501, clear] *)
Definition clear (id : Z) (p : pool) : pool :=
  if Z.of_nat MAX_TERMS <=? id then p else bump (Z.to_nat id) (on_term (Z.to_nat id) clear_grid p).
(** [terminal.rs:504-514, clear_for_current] *)
Definition clear_for_current (task : Z) (p : pool) : pool :=
  bump (target task p) (on_term (target task p) clear_grid p).

(** [v.clamp(0, max)] on the [i32] sum. *)
Definition scrolled (delta : Z) (t : Terminal) : nat :=
  Z.to_nat (Z.min (Z.of_nat (length (scroll t))) (Z.max 0 (signed 32 (Z.of_nat (view t) + delta)))).
(** [terminal.rs:521-534, scroll_view] *)
Definition scroll_view (id delta : Z) (p : pool) : pool :=
  if Z.of_nat MAX_TERMS <=? id then p else
  match terms p !! Z.to_nat id with
  | Some t =>
      let p' := on_term (Z.to_nat id) (set_view (scrolled delta t)) p in
      if decide (scrolled delta t = view t) then p' else bump (Z.to_nat id) p'
  | None => p
  end.
(** [terminal.rs:537-547, scroll_to_bottom] *)
Definition scroll_to_bottom (id : Z) (p : pool) : pool :=
  if Z.of_nat MAX_TERMS <=? id then p else
  match terms p !! Z.to_nat id with
  | Some t => if decide (view t = 0%nat) then p else bump (Z.to_nat id) (on_term (Z.to_nat id) (set_view 0) p)
  | None => p
  end.

(** The rows the window shows, and the cursor when it is on them. *)
Definition shown (t : Terminal) : list (list Cell) * option (nat * nat) :=
  if decide (view t = 0%nat) then (cells t, Some (cx t, cy t)) else
  let s := length (scroll t) in
  let start := (s - Nat.min (view t) s)%nat in
  ((λ r, let v := (start + r)%nat in
         if decide (v < s)%nat then nth v (scroll t) [] else nth (v - s) (cells t) []) <$> seq 0 ROWS, None).
(** [terminal.rs:554-577, copy_grid]: the cursor out of sight is [usize::MAX] twice. *)
Definition copy_grid (id : Z) (p : pool) : list (list Cell) * option (nat * nat) :=
  match term_at id p with Some t => shown t | None => (blank_grid, Some (O, O)) end.

(** ** Well-formed terminals *)

Record term_ok (t : Terminal) : Prop := {
  to_rows : length (cells t) = ROWS;
  to_cols : Forall (λ r, length r = COLS) (cells t);
  to_cx : (cx t ≤ COLS)%nat;
  to_cy : (cy t < ROWS)%nat;
  to_params : length (params t) = 8%nat;
  to_nparam : (nparam t < 8)%nat;
  to_scroll : (length (scroll t) ≤ SCROLLBACK_MAX)%nat;
  to_scroll_cols : Forall (λ r, length r = COLS) (scroll t);
  to_view : (view t ≤ length (scroll t))%nat }.

Lemma blank_row_cols : length blank_row = COLS.
Proof. apply length_replicate. Qed.
Lemma blank_grid_ok : length blank_grid = ROWS ∧ Forall (λ r, length r = COLS) blank_grid.
Proof. split; [apply length_replicate|]. apply Forall_replicate, blank_row_cols. Qed.
Lemma no_params_length : length no_params = 8%nat.
Proof. done. Qed.

(** A successful step that keeps terminals well-formed and the view alone. *)
Definition keeps (f : act) : Prop := ∀ t, term_ok t → view t = 0%nat →
  ∃ t', f t = (Ok tt, t') ∧ term_ok t' ∧ view t' = 0%nat.

Lemma keeps_bind f g : keeps f → keeps g → keeps (sbind f (λ _, g)).
Proof.
  intros Hf Hg t Ht Hv. destruct (Hf t Ht Hv) as (t1&H1&Ht1&Hv1). unfold sbind. rewrite H1. by apply Hg.
Qed.
Lemma keeps_for {A} (l : list A) f : (∀ x, x ∈ l → keeps (f x)) → keeps (sfor l f).
Proof.
  induction l as [|x l IH]; intros Hf; [by intros t; exists t|]. cbn [sfor]. apply keeps_bind.
  - apply Hf. apply elem_of_cons. by left.
  - apply IH. intros y Hy. apply Hf. apply elem_of_cons. by right.
Qed.
Lemma keeps_pure (f : Terminal → Terminal) :
  (∀ t, term_ok t → view t = 0%nat → term_ok (f t) ∧ view (f t) = 0%nat) → keeps (λ t, (Ok tt, f t)).
Proof. intros Hf t Ht Hv. exists (f t). split; [done|]. by apply Hf. Qed.

Lemma cursor_ok x y t : term_ok t → (x ≤ COLS)%nat → (y < ROWS)%nat → term_ok (set_cursor x y t).
Proof. intros [] ??. by split. Qed.
Lemma cells_ok c t : term_ok t → length c = ROWS → Forall (λ r, length r = COLS) c → term_ok (set_cells c t).
Proof. intros [] ??. by split. Qed.
Lemma row_at t : term_ok t → ∃ row, cells t !! cy t = Some row ∧ length row = COLS.
Proof.
  intros Ht. destruct (lookup_lt_is_Some_2 (cells t) (cy t)) as [row Hr]; [rewrite (to_rows t Ht); apply Ht|].
  exists row. split; [done|]. by apply (Forall_lookup_1 _ _ _ _ (to_cols t Ht) Hr).
Qed.

Lemma newline_ok t : term_ok t → view t = 0%nat → term_ok (newline t) ∧ view (newline t) = 0%nat.
Proof.
  intros Ht Hv. pose proof Ht as [Hr Hc Hx Hy Hp Hn Hs Hsc Hvw]. unfold newline. cbn [cy set_cursor].
  case_decide as Hd; [|split; [|done]; apply cursor_ok; [done|lia|cbn in *; lia]].
  unfold scroll_up. cbn [cy cells scroll cx set_cursor set_cells set_scroll].
  split; [|done]. split; cbn [cy cells scroll cx set_cursor set_cells set_scroll params nparam view]; try done.
  - rewrite length_app, length_drop, Hr. done.
  - apply Forall_app. split; [by apply Forall_drop|]. apply Forall_singleton. apply blank_row_cols.
  - unfold COLS. lia.
  - rewrite length_app, length_take, Hr. change (Nat.min 1 ROWS) with 1%nat.
    assert (length (tail (scroll t)) = pred (length (scroll t))) as Hl by by destruct (scroll t).
    unfold SCROLLBACK_MAX in *. case_decide; lia.
  - apply Forall_app. split; [|by apply Forall_take]. case_decide; [|done]. by apply Forall_tail.
  - rewrite Hv. lia.
Qed.

Lemma set_cell_run c t row : cells t !! cy t = Some row → (cx t < length row)%nat →
  set_cell c t = (Ok tt, set_cells (<[cy t := <[cx t := c]> row]> (cells t)) t).
Proof. intros Hr Hx. unfold set_cell. rewrite Hr. by rewrite decide_True. Qed.

Lemma set_cell_ok c t : term_ok t → (cx t < COLS)%nat → ∃ t', set_cell c t = (Ok tt, t') ∧ term_ok t' ∧
  view t' = view t ∧ cx t' = cx t ∧ cy t' = cy t.
Proof.
  intros Ht Hx. destruct (row_at t Ht) as (row&Hr&Hl). eexists. split; [apply (set_cell_run c t row Hr); lia|].
  split; [|done]. apply cells_ok; [done|rewrite length_insert; apply Ht|].
  apply Forall_insert; [apply Ht|]. by rewrite length_insert.
Qed.

Lemma put_keeps c : keeps (put c).
Proof.
  intros t Ht Hv. unfold put. pose proof (newline_ok t Ht Hv) as [Hn1 Hn2].
  destruct (c =? 10); [by eexists|].
  destruct (c =? 13); [eexists; split; [done|]; split; [|done]; apply cursor_ok; [done|lia|apply Ht]|].
  destruct (c =? 9); [eexists; split; [done|]; split; [|done]; apply cursor_ok; [done|lia|apply Ht]|].
  destruct (c =? 8).
  { eexists. split; [done|]. pose proof (to_cx t Ht). pose proof (to_cy t Ht).
    destruct (cx t); [destruct (cy t) eqn:?; [done|]|]; (split; [|done]); apply cursor_ok; try done; unfold COLS in *; lia. }
  destruct (0x20 <=? c); [|by eexists]. set (t0 := if decide _ then _ else _).
  assert (term_ok t0 ∧ view t0 = 0%nat ∧ (cx t0 < COLS)%nat) as (H0&Hv0&Hx0).
  { subst t0. case_decide; [|split_and!; [done|done|lia]]. split_and!; [done|done|].
    unfold newline. case_decide; cbn; unfold COLS; lia. }
  destruct (set_cell_ok (MkCell c (cur_fg t0)) t0 H0 Hx0) as (t1&H1&Ht1&Hv1&Hx1&Hy1).
  unfold sbind. rewrite H1. eexists. split; [done|]. split; [|cbn; congruence].
  apply cursor_ok; [done|lia|]. rewrite Hy1. apply H0.
Qed.

Lemma erase_keeps : keeps erase_to_eol.
Proof.
  intros t Ht Hv. unfold erase_to_eol. case_decide as Hx; [|by eexists]. destruct (row_at t Ht) as (row&Hr&Hl).
  rewrite Hr. eexists. split; [done|]. split; [|done]. apply cells_ok; [done|rewrite length_insert; apply Ht|].
  apply Forall_insert; [apply Ht|]. rewrite length_app, length_take, length_replicate. lia.
Qed.

Lemma fg_keeps f : keeps (λ t, (Ok tt, set_fg f t)).
Proof. apply keeps_pure. intros t [] Hv. split; [by split|done]. Qed.
Lemma sgr_keeps code : keeps (sgr code).
Proof.
  intros t. unfold sgr. destruct (_ || _); [apply fg_keeps|].
  destruct ((30 <=? code) && (code <=? 37)) eqn:H1; [|destruct ((90 <=? code) && (code <=? 97)) eqn:H2; [|by eexists]].
  - destruct (lookup_lt_is_Some_2 ANSI (Z.to_nat (code - 30))) as [f ->]; [cbn; lia|apply fg_keeps].
  - destruct (lookup_lt_is_Some_2 ANSI_BRIGHT (Z.to_nat (code - 90))) as [f ->]; [cbn; lia|apply fg_keeps].
Qed.

Lemma clear_ok t : term_ok t → term_ok (clear_grid t).
Proof. intros []. destruct blank_grid_ok. split; cbn; try done; unfold COLS, ROWS; lia. Qed.
Lemma reset_ok t u o : term_ok (set_slot u o (reset_full t)).
Proof. destruct blank_grid_ok. split; cbn; try done; try (unfold COLS, ROWS; lia). Qed.

Lemma csi_keeps final count t : (count ≤ 8)%nat → term_ok t → view t = 0%nat →
  ∃ t', csi_dispatch final count t = (Ok tt, t') ∧ term_ok t' ∧ view t' = 0%nat.
Proof.
  intros Hc Ht Hv. unfold csi_dispatch. destruct (final =? 109).
  { destruct count as [|n]; [by apply fg_keeps|]. revert Ht Hv. apply keeps_for. intros i Hi t1 Ht1 Hv1.
    apply elem_of_seq in Hi. destruct (lookup_lt_is_Some_2 (params t1) i) as [p ->]; [rewrite (to_params t1 Ht1); lia|].
    by apply sgr_keeps. }
  destruct (_ || _).
  { eexists. split; [done|]. split; [|done]. apply cursor_ok; [done|lia|unfold ROWS; lia]. }
  destruct (final =? 74); [|destruct (final =? 75); [by apply erase_keeps|by eexists]].
  destruct (_ || _); [eexists; split; [done|]; split; [by apply clear_ok|done]|].
  revert Ht Hv. apply keeps_bind; [apply erase_keeps|]. unfold smodify. apply keeps_pure. intros t1 Ht1 Hv1. split; [|done].
  apply cells_ok; [done| |].
  - rewrite length_app, length_take, length_replicate, (to_rows t1 Ht1). pose proof (to_cy t1 Ht1). lia.
  - apply Forall_app. split; [apply Forall_take, Ht1|]. apply Forall_replicate, blank_row_cols.
Qed.

Lemma parser_ok e p n h t : term_ok t → length p = 8%nat → (n < 8)%nat → term_ok (set_parser e p n h t).
Proof. intros [] ??. by split. Qed.

Lemma feed_keeps c : keeps (feed c).
Proof.
  intros t Ht Hv. pose proof (to_params t Ht) as Hp. pose proof (to_nparam t Ht) as Hn. unfold feed. destruct (esc t) eqn:He.
  - destruct (c =? 27); [|by apply put_keeps]. eexists. split; [done|]. split; [by apply parser_ok|done].
  - eexists. split; [done|]. destruct (c =? 91); (split; [apply parser_ok; try done; lia|done]).
  - destruct (_ && _).
    { destruct (lookup_lt_is_Some_2 (params t) (nparam t)) as [p ->]; [lia|]. eexists. split; [done|]. split; [|done].
      apply parser_ok; [done|by rewrite length_insert|done]. }
    destruct (c =? 59).
    { eexists. split; [done|]. case_decide; (split; [|done]); [apply parser_ok; [done|done|lia]|done]. }
    set (count := if have_digit t || _ then _ else _).
    destruct (csi_keeps c count t) as (t1&H1&Ht1&Hv1); [subst count; destruct (_ || _); lia|done|done|].
    unfold sbind. rewrite H1. eexists. split; [done|]. split; [|done]. apply parser_ok; [done|apply Ht1|apply Ht1].
Qed.

Lemma feed_all_ok s t : term_ok t → ∃ t', feed_all s t = (Ok tt, t') ∧ term_ok t' ∧ view t' = 0%nat.
Proof.
  intros Ht. unfold feed_all. apply (keeps_for s feed); [intros x _; apply feed_keeps| |done].
  destruct Ht. split; try done. cbn. lia.
Qed.

(** ** The window and the scrollback *)

Lemma nth_some {A} (l : list A) i x : (i < length l)%nat → Some (nth i l x) = l !! i.
Proof. intros [y Hy]%lookup_lt_is_Some_2. by rewrite nth_lookup, Hy. Qed.
Lemma shown_window t : term_ok t →
  (shown t).1 = take ROWS (drop (length (scroll t) - view t) (scroll t ++ cells t)).
Proof.
  intros Ht. pose proof (to_view t Ht) as Hv. pose proof (to_rows t Ht) as Hr. unfold shown. case_decide as H0; cbn [fst].
  { rewrite H0, Nat.sub_0_r, drop_app_length, <-Hr. symmetry. apply firstn_all. }
  rewrite Nat.min_l by done. apply list_eq. intros i. rewrite list_lookup_fmap.
  destruct (decide (i < ROWS)%nat) as [Hi|Hi].
  - rewrite lookup_seq_lt by done. cbn. rewrite lookup_take_lt, lookup_drop by done.
    case_decide as Hs.
    + rewrite lookup_app_l by lia. apply nth_some. lia.
    + rewrite lookup_app_r by lia. apply nth_some. lia.
  - rewrite lookup_take_ge by lia. by rewrite lookup_seq_ge by lia.
Qed.

(** ** Plain text *)

(** The reference: a line is broken at 64 characters and at line feeds. *)
Definition pad (r : list Cell) : list Cell := r ++ replicate (COLS - length r) BLANK.
Definition lines : Type := list (list Cell) * list Cell.
Definition lay_char (pen : Z) (l : lines) (c : Z) : lines :=
  if c =? 10 then (l.1 ++ [pad l.2], []) else
  if decide (COLS ≤ length l.2)%nat then (l.1 ++ [pad l.2], [MkCell c pen]) else (l.1, l.2 ++ [MkCell c pen]).
Definition layout (pen : Z) (text : list Z) (l : lines) : lines := fold_left (lay_char pen) text l.
Definition plain (c : Z) : Prop := c = 10 ∨ 32 ≤ c.

(** The screen has the last 27 finished lines and the current one, the scrollback
    the 200 before them. *)
Record shows (t : Terminal) (l : lines) : Prop := {
  sh_cells : cells t = drop (length l.1 - 27) l.1 ++ pad l.2 :: replicate (27 - length l.1) blank_row;
  sh_scroll : scroll t = drop (length l.1 - 27 - SCROLLBACK_MAX) (take (length l.1 - 27) l.1);
  sh_cx : cx t = length l.2;
  sh_cy : cy t = Nat.min (length l.1) 27;
  sh_esc : esc t = EscNone;
  sh_cur : (length l.2 ≤ COLS)%nat }.

Lemma pad_nil : pad [] = blank_row.
Proof. done. Qed.
Lemma pad_insert r c : (length r < COLS)%nat → <[length r := c]> (pad r) = pad (r ++ [c]).
Proof.
  intros Hr. unfold pad. rewrite insert_app_r_alt, Nat.sub_diag by done. rewrite <-app_assoc. f_equal.
  rewrite length_app. cbn [length]. replace (COLS - length r)%nat with (S (COLS - (length r + 1))) by lia. done.
Qed.

(** The row of the cursor. *)
Lemma shows_row t l : shows t l → cells t !! cy t = Some (pad l.2).
Proof.
  intros [Hc _ _ Hy _ _]. rewrite Hc, Hy. apply list_lookup_middle. rewrite length_drop. lia.
Qed.
Lemma shows_set_row t l r : shows t l → <[cy t := r]> (cells t) =
  drop (length l.1 - 27) l.1 ++ r :: replicate (27 - length l.1) blank_row.
Proof.
  intros [Hc _ _ Hy _ _]. rewrite Hc, Hy.
  replace (Nat.min (length l.1) 27) with (length (drop (length l.1 - 27) l.1) + 0)%nat by (rewrite length_drop; lia).
  by rewrite insert_app_r.
Qed.

Lemma shows_newline t l : shows t l → shows (newline t) (l.1 ++ [pad l.2], []).
Proof.
  intros [Hc Hs Hx Hy He Hl]. destruct l as [d c]. cbn [fst snd] in *. unfold newline. cbn [cy set_cursor].
  case_decide as Hd; unfold ROWS in Hd.
  - (* the screen is full *)
    set (m := (length d - 27)%nat) in *. assert (27 ≤ length d)%nat as Hn by lia.
    replace (27 - length d)%nat with 0%nat in Hc by lia. cbn [replicate] in Hc.
    assert (cells t = drop m (d ++ [pad c])) as Hc2 by (rewrite drop_app_le by lia; exact Hc).
    assert (take m (d ++ [pad c]) = take m d) as Ht by (apply take_app_le; lia).
    assert (length (scroll t) = Nat.min m SCROLLBACK_MAX) as Hls.
    { rewrite Hs, length_drop, length_take. unfold SCROLLBACK_MAX. lia. }
    unfold scroll_up. split; cbn [cells scroll cx cy esc fst snd set_cursor set_cells set_scroll];
      rewrite ?length_app; cbn [length]; replace (length d + 1 - 27)%nat with (S m) by lia; try done.
    + rewrite Hc2, drop_drop. replace (m + 1)%nat with (S m) by lia.
      replace (27 - (length d + 1))%nat with 0%nat by lia. done.
    + rewrite Hc2. replace (S m) with (m + 1)%nat by lia. rewrite <-(take_take_drop (d ++ [pad c]) m 1), Ht.
      set (top := take 1 (drop m (d ++ [pad c]))).
      unfold SCROLLBACK_MAX in *. rewrite drop_app_le by (rewrite length_take; lia). f_equal.
      case_decide as Hf; rewrite Hls in Hf; rewrite Hs.
      * replace (m + 1 - 200)%nat with (m - 200 + 1)%nat by lia. rewrite <-drop_drop. by destruct (drop _ _).
      * f_equal. lia.
    + rewrite Hy. lia.
    + lia.
  - split; cbn [cells scroll cx cy esc fst snd set_cursor]; rewrite ?length_app; cbn [length]; try done; try lia.
    + rewrite Hc. replace (length d - 27)%nat with 0%nat by lia. replace (length d + 1 - 27)%nat with 0%nat by lia.
      rewrite !drop_0, <-app_assoc. cbn [app]. do 2 f_equal.
      replace (27 - length d)%nat with (S (27 - (length d + 1))) by lia. done.
    + rewrite Hs. replace (length d - 27)%nat with 0%nat by lia. replace (length d + 1 - 27)%nat with 0%nat by lia. done.
Qed.

Lemma shows_put t l c : shows t l → plain c →
  ∃ t', put c t = (Ok tt, t') ∧ shows t' (lay_char (cur_fg t) l c) ∧ cur_fg t' = cur_fg t.
Proof.
  intros Hs Hc. unfold put, lay_char. destruct (Z.eqb_spec c 10) as [->|Hn].
  { eexists. split; [done|]. split; [by apply shows_newline|]. unfold newline, scroll_up. by case_decide. }
  destruct Hc as [?|Hc]; [done|]. rewrite !(proj2 (Z.eqb_neq _ _)) by lia. rewrite (proj2 (Z.leb_le _ _)) by lia.
  set (t0 := if decide _ then _ else _). set (l0 := (if decide (COLS ≤ length l.2)%nat then (l.1 ++ [pad l.2], []) else l)).
  assert (shows t0 l0 ∧ cur_fg t0 = cur_fg t ∧ (length l0.2 < COLS)%nat) as (H0&Hf&Hl0).
  { subst t0 l0. rewrite (sh_cx t l Hs). case_decide; [|split_and!; [done|done|lia]].
    split_and!; [by apply shows_newline| |cbn; unfold COLS; lia].
    unfold newline, scroll_up. by case_decide. }
  replace (if decide (COLS ≤ length l.2)%nat then (l.1 ++ [pad l.2], [MkCell c (cur_fg t)]) else (l.1, l.2 ++ [MkCell c (cur_fg t)]))
    with (l0.1, l0.2 ++ [MkCell c (cur_fg t)]) by (subst l0; by case_decide).
  unfold sbind. rewrite (set_cell_run _ t0 (pad l0.2)).
  2: by apply shows_row.
  2: { rewrite (sh_cx t0 l0 H0). unfold pad. rewrite length_app, length_replicate. lia. }
  eexists. split; [done|]. split; [|exact Hf]. cbn [set_cells set_cursor cur_fg cx].
  rewrite (sh_cx t0 l0 H0), pad_insert, Hf by done.
  pose proof (shows_set_row t0 l0 (pad (l0.2 ++ [MkCell c (cur_fg t)])) H0) as Hrow.
  destruct H0 as [_ H2 H3 H4 H5 H6]. split; cbn [cells scroll cx cy esc set_cells set_cursor fst snd]; try done.
  - rewrite length_app. cbn. lia.
  - rewrite length_app. cbn. lia.
Qed.

Lemma shows_feed text t l : shows t l → Forall plain text →
  ∃ t', sfor text feed t = (Ok tt, t') ∧ shows t' (layout (cur_fg t) text l).
Proof.
  intros Hs Hp. revert t l Hs. induction Hp as [|c text Hc Hp IH]; intros t l Hs; [by exists t|].
  destruct (shows_put t l c Hs Hc) as (t1&H1&Hs1&Hf1). destruct (IH t1 _ Hs1) as (t'&H2&Hs').
  exists t'. split; [|by rewrite Hf1 in Hs'].
  cbn [sfor]. unfold sbind. assert (feed c t = (Ok tt, t1)) as ->; [|done].
  unfold feed. rewrite (sh_esc t l Hs). destruct (Z.eqb_spec c 27); [|done]. destruct Hc; lia.
Qed.

(** ** The pool *)

Record pool_ok (p : pool) : Prop := { po_terms : length (terms p) = MAX_TERMS; po_ok : Forall term_ok (terms p) }.

Lemma term_ok_new : term_ok EMPTY_TERM.
Proof. exact (reset_ok EMPTY_TERM false 0). Qed.
Lemma pool_new_ok : pool_ok pool_new.
Proof. split; [done|]. apply Forall_replicate, term_ok_new. Qed.
Lemma on_term_ok id f p : pool_ok p → (∀ t, term_ok t → term_ok (f t)) → pool_ok (on_term id f p).
Proof. intros [Hl Ho] Hf. split; cbn; [by rewrite length_alter|]. apply Forall_alter; [done|]. intros t ? ?. by apply Hf. Qed.
Lemma bump_ok id p : pool_ok p → pool_ok (bump id p).
Proof. by intros [??]. Qed.
Lemma view_ok v t : term_ok t → (v ≤ length (scroll t))%nat → term_ok (set_view v t).
Proof. intros [] ?. by split. Qed.

Lemma position_lt (f : Terminal → bool) ts i : position f ts = Some i → (i < length ts)%nat.
Proof.
  revert i. induction ts as [|t ts IH]; intros i; cbn [position length]; [done|].
  destruct (f t); [intros [= <-]; lia|]. destruct (position f ts); [|done]. intros [= <-]. specialize (IH _ eq_refl). lia.
Qed.
Lemma target_lt task p : pool_ok p → (target task p < MAX_TERMS)%nat.
Proof.
  intros [Hl _]. unfold target. destruct (position _ (terms p)) eqn:Hp; [|cbn; unfold PRIMARY, MAX_TERMS; lia].
  apply position_lt in Hp. cbn. lia.
Qed.

Lemma write_to_ok id s p : pool_ok p → (id < MAX_TERMS)%nat → ∃ t t' p',
  terms p !! id = Some t ∧ feed_all s t = (Ok tt, t') ∧ write_to id s p = (Ok tt, p') ∧
  terms p' = <[id := t']> (terms p) ∧ pool_ok p'.
Proof.
  intros [Hl Ho] Hid. destruct (lookup_lt_is_Some_2 (terms p) id) as [t Ht]; [lia|].
  destruct (feed_all_ok s t) as (t'&Hf&Ht'&_); [by eapply Forall_lookup_1|].
  exists t, t'. eexists. unfold write_to. rewrite Ht, Hf. split_and!; [done..|].
  apply bump_ok. split; cbn; [by rewrite length_insert|]. by apply Forall_insert.
Qed.

(** The calls of shells, compositor and kernel. *)
Inductive call : Type :=
| CAlloc | CFree (id : Z) | CBind (id task : Z) | CFocus (id : Z) | CActive (on : bool) | CRequest (id : Z) | CTake
| CWrite (id : Z) (s : list Z) | CPrint (task : Z) (s : list Z) | CClear (id : Z) | CClearMine (task : Z)
| CScroll (id delta : Z) | CBottom (id : Z).
Definition call_step (c : call) : stm pool Empty_set unit := λ p,
  match c with
  | CAlloc => (Ok tt, (alloc_terminal p).2) | CFree id => (Ok tt, free_terminal id p)
  | CBind id task => (Ok tt, bind id task p) | CFocus id => (Ok tt, set_focus id p)
  | CActive on => (Ok tt, set_active on p) | CRequest id => (Ok tt, request_shell id p)
  | CTake => (Ok tt, (take_pending_shell p).2)
  | CWrite id s => write id s p | CPrint task s => write_for_current task s p
  | CClear id => (Ok tt, clear id p) | CClearMine task => (Ok tt, clear_for_current task p)
  | CScroll id delta => (Ok tt, scroll_view id delta p) | CBottom id => (Ok tt, scroll_to_bottom id p)
  end.

Lemma scrolled_le delta t : (scrolled delta t ≤ length (scroll t))%nat.
Proof. unfold scrolled. lia. Qed.
Lemma call_ok c p : pool_ok p → ∃ p', call_step c p = (Ok tt, p') ∧ pool_ok p'.
Proof.
  intros Hp. pose proof Hp as [Hl Ho].
  assert (∀ id s, pool_ok p → (id < MAX_TERMS)%nat → ∃ p', write_to id s p = (Ok tt, p') ∧ pool_ok p') as Hw.
  { intros id s _ Hid. destruct (write_to_ok id s p Hp Hid) as (t&t'&p'&_&_&H&_&H'). eauto. }
  destruct c; cbn [call_step]; unfold alloc_terminal, free_terminal, bind, set_focus, set_active, request_shell,
    take_pending_shell, write, write_for_current, clear, clear_for_current, scroll_view, scroll_to_bottom;
    try (apply Hw; [done|by apply target_lt]); try (by eexists);
    try (destruct (Z.leb_spec (Z.of_nat MAX_TERMS) id); [by eexists|]).
  - destruct (position _ _); eexists; (split; [done|]); [|done]. apply bump_ok, on_term_ok; [done|]. intros. apply reset_ok.
  - eexists. split; [done|]. apply bump_ok, on_term_ok; [done|]. intros. apply reset_ok.
  - eexists. split; [done|]. apply on_term_ok; [done|]. intros t []. by split.
  - destruct (pending p); by eexists.
  - apply Hw; [done|]. unfold MAX_TERMS in *. lia.
  - eexists. split; [done|]. apply bump_ok, on_term_ok; [done|]. apply clear_ok.
  - eexists. split; [done|]. apply bump_ok, on_term_ok; [done|]. apply clear_ok.
  - destruct (terms p !! Z.to_nat id) as [t|] eqn:Ht; [|by eexists]. eexists. split; [done|].
    assert (pool_ok (on_term (Z.to_nat id) (set_view (scrolled delta t)) p)) as Hok; [|case_decide; [done|by apply bump_ok]].
    split; cbn; [by rewrite length_alter|]. apply Forall_alter; [done|]. intros t' Ht' Hok'. rewrite Ht in Ht'. injection Ht' as <-.
    apply view_ok; [done|apply scrolled_le].
  - destruct (terms p !! Z.to_nat id) as [t|] eqn:Ht; [|by eexists]. case_decide; [by eexists|]. eexists. split; [done|].
    apply bump_ok, on_term_ok; [done|]. intros t' Hok'. apply view_ok; [done|lia].
Qed.

(** No sequence of characters and calls breaks a terminal.  Whatever is
    printed - any control characters, any escape sequences, complete, broken or
    split between writes - and whatever else the shells and the compositor do,
    no call panics, every grid keeps its 28 rows of 64 cells with the cursor on
    it and at most 200 lines of scrollback, and what the compositor copies out is
    always 28 rows of 64 cells. *)
Theorem terminals_robust cs : ∃ p,
  sfor cs call_step pool_new = (Ok tt, p) ∧ pool_ok p ∧
  ∀ id, length (copy_grid id p).1 = ROWS ∧ Forall (λ r, length r = COLS) (copy_grid id p).1.
Proof.
  assert (∀ p, pool_ok p → ∃ p', sfor cs call_step p = (Ok tt, p') ∧ pool_ok p') as Hrun.
  { induction cs as [|c cs IH]; intros p Hp; [by exists p|]. destruct (call_ok c p Hp) as (p1&H1&Hp1).
    destruct (IH p1 Hp1) as (p'&H'&Hp'). exists p'. split; [|done]. cbn [sfor]. unfold sbind. by rewrite H1. }
  destruct (Hrun pool_new pool_new_ok) as (p&Hp&Hok). exists p. split_and!; [done..|]. intros id.
  unfold copy_grid, term_at. destruct (0 <=? id); [|apply blank_grid_ok].
  destruct (terms p !! Z.to_nat id) as [t|] eqn:Ht; [|apply blank_grid_ok].
  assert (term_ok t) as Hto by (eapply Forall_lookup_1; [apply Hok|done]).
  rewrite shown_window by done. pose proof (to_view t Hto). pose proof (to_rows t Hto). split.
  - rewrite length_take, length_drop, length_app. lia.
  - apply Forall_take, Forall_drop, Forall_app. split; apply Hto.
Qed.

(** C35: Plain text is laid out.  What a task prints - line feeds and printable
    characters - appears on its terminal the way the reference breaks it into
    lines: the screen shows the last 28, the scrollback keeps the 200 before them,
    and a view scrolled back by [v] lines shows the 28 lines that end [v] lines
    above the bottom of the screen; no other terminal changes. *)
Theorem text_is_laid_out id t l text p :
  pool_ok p → 0 ≤ id < Z.of_nat MAX_TERMS → terms p !! Z.to_nat id = Some t → shows t l → Forall plain text →
  ∃ t' p', write id text p = (Ok tt, p') ∧ terms p' = <[Z.to_nat id := t']> (terms p) ∧
    shows t' (layout (cur_fg t) text l) ∧
    (∀ v, (v ≤ length (scroll t'))%nat → (copy_grid id (scroll_view id (Z.of_nat v) p')).1 =
       take ROWS (drop (length (scroll t') - v) (scroll t' ++ cells t'))).
Proof.
  intros Hp Hid Ht Hs Hpl. destruct (write_to_ok (Z.to_nat id) text p Hp) as (t0&t'&p'&Ht0&Hf&Hw&Hts&Hp'); [unfold MAX_TERMS in *; lia|].
  rewrite Ht in Ht0. injection Ht0 as <-. assert (length (terms p) = 4%nat) as Hl by apply Hp.
  assert (term_ok t) as Hto by (eapply Forall_lookup_1; [apply Hp|done]).
  destruct (feed_all_ok text t Hto) as (t1&Hf1&Ht1&Hv1). rewrite Hf in Hf1. injection Hf1 as <-.
  destruct (shows_feed text (set_view 0 t) l) as (t2&Hf2&Hs2); [by destruct Hs; split|done|].
  unfold feed_all in Hf. rewrite Hf in Hf2. injection Hf2 as <-. exists t', p'. split_and!.
  - unfold write. by rewrite (proj2 (Z.leb_gt _ _)) by lia.
  - done.
  - exact Hs2.
  - intros v Hv. unfold copy_grid, scroll_view, term_at. rewrite (proj2 (Z.leb_gt (Z.of_nat MAX_TERMS) id)) by lia. rewrite (proj2 (Z.leb_le 0 id)) by lia.
    assert (terms p' !! Z.to_nat id = Some t') as Hl' by (rewrite Hts; apply list_lookup_insert_eq; unfold MAX_TERMS in *; lia).
    rewrite Hl'. pose proof (to_scroll t' Ht1) as Hsc. unfold SCROLLBACK_MAX in Hsc.
    assert (scrolled (Z.of_nat v) t' = v) as Hsv.
    { unfold scrolled. rewrite Hv1. unfold signed. rewrite Z.mod_small by lia. rewrite decide_True by lia. lia. }
    assert ((if decide (scrolled (Z.of_nat v) t' = view t') then on_term (Z.to_nat id) (set_view (scrolled (Z.of_nat v) t')) p'
             else bump (Z.to_nat id) (on_term (Z.to_nat id) (set_view (scrolled (Z.of_nat v) t')) p')).(terms)
            = alter (set_view v) (Z.to_nat id) (terms p')) as -> by (rewrite Hsv; by case_decide).
    rewrite list_lookup_alter_eq, Hl'. cbn [fmap option_fmap option_map].
    rewrite shown_window by (apply view_ok; [done|lia]). done.
Qed.

Example text_is_laid_out_witness : ∃ t' p',
  write 1 (str "hello" ++ [10] ++ str "world") pool_new = (Ok tt, p') ∧ terms p' = <[1%nat := t']> (terms pool_new) ∧
  shows t' (layout DEFAULT_FG (str "hello" ++ [10] ++ str "world") ([], [])).
Proof.
  destruct (text_is_laid_out 1 EMPTY_TERM ([], []) (str "hello" ++ [10] ++ str "world") pool_new) as (t'&p'&Hw&Ht&Hs&_).
  - apply pool_new_ok.
  - vm_compute. split; congruence.
  - reflexivity.
  - split; vm_compute; try reflexivity. lia.
  - apply (proj1 (bool_decide_eq_true (Forall (λ c, c = 10 ∨ 32 ≤ c) _))). vm_compute. reflexivity.
  - exact (ex_intro _ t' (ex_intro _ p' (conj Hw (conj Ht Hs)))).
Defined.

(** Scrolling up by a huge amount wraps in the 32-bit sum and shows the bottom. *)
Example huge_scroll_goes_down :
  let t := set_view 1 (set_scroll [blank_row; blank_row] EMPTY_TERM) in scrolled (2 ^ 31 - 1) t = 0%nat.
Proof. reflexivity. Qed.

(** Colours and addressing. *)
Example escapes_work :
  let t := (feed_all ([27] ++ str "[31mred" ++ [27] ++ str "[3;5Hx") EMPTY_TERM).2 in
  (cells t !! 0%nat ≫= (λ r, r !! 0%nat)) = Some (MkCell 114 0xE05561) ∧ (cx t, cy t) = (5, 2)%nat.
Proof. vm_compute. auto. Qed.
End Terminal.
