(* ===== verification/Canvas.v ===== *)
(** * Pictures

    A state with pixels, and the calls that paint on it: [paints f a] says that [f]
    succeeds and leaves on every pixel in range the color [a] gives, or what was there.
    Calls compose as their pictures do; the framebuffer and the windows of programs
    are instances. *)

From S2P Require Import Prelude.

(** A loop leaves what its last round to touch the pixel leaves. *)
Fixpoint layers {A Co} (l : list A) (a : A → Z → Z → option Co) (x y : Z) : option Co :=
  match l with [] => None | k :: l => layers l a x y ∪ a k x y end.
(** A picture of one pixel, and of a block of them. *)
Definition dot {Co} (x y : Z) (c : Co) (x' y' : Z) : option Co := if decide (x' = x ∧ y' = y) then Some c else None.
Definition block {Co} (x xe y ye : Z) (c : Co) (x' y' : Z) : option Co :=
  if decide (x ≤ x' < xe ∧ y ≤ y' < ye) then Some c else None.

Section layers.
Context {A Co : Type}.
Implicit Types (l : list A) (a : A → Z → Z → option Co).

Lemma layers_at `{EqDecision A} l a x y (key : A) v :
  (∀ k, k ∈ l → a k x y = if decide (k = key) then v else None) → layers l a x y = if decide (key ∈ l) then v else None.
Proof.
  induction l as [|k l IH]; intros Ha; cbn [layers]; [by rewrite decide_False by apply not_elem_of_nil|].
  rewrite IH by (intros j Hj; apply Ha; by right). rewrite Ha by left. destruct (decide (k = key)) as [->|Hne].
  - rewrite (decide_True (P := key ∈ key :: l)) by left. case_decide; by destruct v.
  - destruct (decide (key ∈ l)); [rewrite decide_True by (by right); by destruct v|].
    rewrite decide_False; [done|]. intros [|]%elem_of_cons; congruence.
Qed.
End layers.

Section canvas.
Context {S B Co : Type} (ok : S → Prop) (on : Z → Z → Prop) (pix : S → Z → Z → B) (enc : Co → B).

Definition paints (f : stm S Empty_set unit) (a : Z → Z → option Co) : Prop := ∀ s, ok s →
  ∃ s', f s = (Ok tt, s') ∧ ok s' ∧ ∀ x y, on x y → pix s' x y = from_option enc (pix s x y) (a x y).

Lemma paints_ext f a b : paints f a → (∀ x y, on x y → a x y = b x y) → paints f b.
Proof. intros H Hab s Hs. destruct (H s Hs) as (s'&Hr&Hok&Hp). exists s'. split_and!; [done..|]. intros x y Hxy. by rewrite Hp, Hab. Qed.
Lemma paints_nothing : paints (sret tt) (λ _ _, None).
Proof. intros s Hs. by exists s. Qed.
Lemma paints_then f g a b : paints f a → paints g b → paints (let! _ := f in g) (λ x y, b x y ∪ a x y).
Proof.
  intros Hf Hg s Hs. destruct (Hf s Hs) as (s1&Hr1&Hok1&Hp1). destruct (Hg s1 Hok1) as (s2&Hr2&Hok2&Hp2).
  exists s2. rewrite (sbind_Ok _ _ _ _ _ Hr1). split_and!; [done..|]. intros x y Hxy. rewrite Hp2, Hp1 by done.
  by destruct (b x y), (a x y).
Qed.
Lemma paints_for {A} (l : list A) f a : (∀ k, k ∈ l → paints (f k) (a k)) → paints (sfor l f) (layers l a).
Proof.
  induction l as [|k l IH]; intros H; [apply paints_nothing|]. cbn [sfor].
  apply (paints_then (f k) (sfor l f) (a k) (layers l a)); [apply H; left|]. apply IH. intros j Hj. apply H. by right.
Qed.
(** Two nested loops over pixels. *)
Lemma paints_block f x xe y ye c : (∀ xx yy, x ≤ xx < xe → y ≤ yy < ye → paints (f xx yy) (dot xx yy c)) →
  paints (sfor (seqZ y (ye - y)) (λ yy, sfor (seqZ x (xe - x)) (λ xx, f xx yy))) (block x xe y ye c).
Proof.
  intros Hf.
  assert (paints (sfor (seqZ y (ye - y)) (λ yy, sfor (seqZ x (xe - x)) (λ xx, f xx yy)))
    (layers (seqZ y (ye - y)) (λ yy, layers (seqZ x (xe - x)) (λ xx, dot xx yy c)))) as Hp.
  { apply paints_for. intros yy Hyy%elem_of_seqZ. apply paints_for. intros xx Hxx%elem_of_seqZ. apply Hf; lia. }
  refine (paints_ext _ _ _ Hp _). intros x' y' _.
  rewrite (layers_at _ _ _ _ y' (if decide (x' ∈ seqZ x (xe - x)) then Some c else None)).
  - unfold block. rewrite !(decide_ext _ _ _ _ (elem_of_seqZ _ _ _)). repeat case_decide; try done; exfalso; lia.
  - intros k _. rewrite (layers_at _ _ _ _ x' (if decide (k = y') then Some c else None)); [by repeat case_decide|].
    intros j _. unfold dot. repeat case_decide; try done; naive_solver.
Qed.
End canvas.
