(* ===== verification/Framebuffer.v ===== *)
(** * The framebuffer (framebuffer.rs)

    Pixels in the bootloader's linear framebuffer, rectangles, glyphs and strings,
    and the text console drawn with them.  The memory behind the pointer is the list
    [fb_mem]; an access outside of it, which the code would make without a check, is
    [Panic].  Arithmetic on [usize] wraps, as in a release build. *)

From S2P Require Import Prelude.

(** The [font8x8] crate: eight rows of a character, the lowest bit leftmost.  Every
    glyph has eight rows, and the space is blank. *)
Class Font := font_glyph : Z → list Z.
Class FontLaws `{Font} := {
  font_rows c : length (font_glyph c) = 8%nat;
  font_space : font_glyph 32 = replicate 8 0;
}.

Module Framebuffer.

(** A color is [0x00RRGGBB]. *)
Abbreviation Color := Z.
(** [framebuffer.rs:27-27, !Color::BLACK] *)
Definition BLACK : Color := 0x000000.
(** [framebuffer.rs:28-28, !Color::WHITE] *)
Definition WHITE : Color := 0xFFFFFF.
(** [framebuffer.rs:29-29, !Color::RED] *)
Definition RED : Color := 0xFF0000.
(** [framebuffer.rs:30-30, !Color::GREEN] *)
Definition GREEN : Color := 0x00FF00.
(** [framebuffer.rs:31-31, !Color::BLUE] *)
Definition BLUE : Color := 0x0000FF.
(** [framebuffer.rs:32-32, !Color::CYAN] *)
Definition CYAN : Color := 0x00FFFF.
(** [framebuffer.rs:33-33, !Color::MAGENTA] *)
Definition MAGENTA : Color := 0xFF00FF.
(** [framebuffer.rs:34-34, !Color::YELLOW] *)
Definition YELLOW : Color := 0xFFFF00.
(** [framebuffer.rs:38-38, !Color::DESKTOP] *)
Definition DESKTOP : Color := 0x0A3D4A.
(** [framebuffer.rs:41-43, Color::rgb] *)
Definition rgb (r g b : Z) : Color := Z.lor (Z.lor (Z.shiftl r 16) (Z.shiftl g 8)) b.
(** [framebuffer.rs:46-48, Color::r] *)
Definition red (c : Color) : Z := wrap8 (Z.shiftr c 16).
(** [framebuffer.rs:50-52, Color::g] *)
Definition green (c : Color) : Z := wrap8 (Z.shiftr c 8).
(** [framebuffer.rs:54-56, Color::b] *)
Definition blue (c : Color) : Z := wrap8 c.

Inductive pixel_format : Type := Rgb | Bgr | U8 | OtherFormat.
(** The bootloader's description of the framebuffer. *)
Record info := Info {
  byte_len : Z; width : Z; height : Z; format : pixel_format; bytes_per_pixel : Z; stride : Z }.
(** [framebuffer.rs:60-63, FrameBuffer] *)
Record framebuffer := FB { fb_mem : bytes; fb_info : info }.
(** [framebuffer.rs:73-81, Console] *)
Record console := Console { col : Z; row : Z; cols : Z; rows : Z; con_fg : Color; con_bg : Color; active : bool }.
(** The statics [FB], [CONSOLE] and [CONSOLE_SUSPENDED]. *)
Record gfx := Gfx { g_fb : option framebuffer; g_con : console; g_suspended : bool }.
(** [framebuffer.rs:83-91, !CONSOLE] *)
Definition gfx_new : gfx := Gfx None (Console 0 0 0 0 0x00FF66 DESKTOP false) false.

(** [framebuffer.rs:94-94, !GLYPH_W] *)
Definition GLYPH_W : Z := 8.
(** [framebuffer.rs:95-95, !GLYPH_H] *)
Definition GLYPH_H : Z := 8.

Abbreviation on_fb := (stm framebuffer Empty_set unit).
Abbreviation drawing := (stm gfx Empty_set unit).
(** [if let Some(fb) = FB.lock().as_ref() { .. }] *)
Definition with_fb (f : on_fb) : drawing := λ g,
  match g_fb g with
  | None => (Ok tt, g)
  | Some fb => let p := f fb in (p.1, Gfx (Some p.2) (g_con g) (g_suspended g))
  end.
Definition set_con (c : console) (g : gfx) : gfx := Gfx (g_fb g) c (g_suspended g).
Definition set_mem (m : bytes) (fb : framebuffer) : framebuffer := FB m (fb_info fb).
Definition fb_has (off len : Z) (fb : framebuffer) : bool := (0 <=? off) && (off + len <=? Z.of_nat (length (fb_mem fb))).

(** [framebuffer.rs:120-122, is_active] *)
Definition is_active (g : gfx) : bool := active (g_con g).
(** [framebuffer.rs:125-127, width] *)
Definition screen_width (g : gfx) : Z := match g_fb g with Some fb => width (fb_info fb) | None => 0 end.
(** [framebuffer.rs:130-132, height] *)
Definition screen_height (g : gfx) : Z := match g_fb g with Some fb => height (fb_info fb) | None => 0 end.

(** ** Pixels *)

(** [framebuffer.rs:157-180, !put_pixel_raw]: the bytes of a color in each format. *)
Definition encode (f : pixel_format) (c : Color) : bytes :=
  match f with
  | Rgb => [red c; green c; blue c]
  | Bgr => [blue c; green c; red c]
  | U8 => [wrap8 (Z.shiftr (red c * 54 + green c * 183 + blue c * 19) 8)]
  | OtherFormat => [blue c]
  end.
Definition offset (i : info) (x y : Z) : Z := wrap64 (wrap64 (wrap64 (y * stride i) + x) * bytes_per_pixel i).
(** The pixel is on the screen and its bytes are in the buffer. *)
Definition visible (i : info) (x y : Z) : bool :=
  (x <? width i) && (y <? height i) && (wrap64 (offset i x y + bytes_per_pixel i) <=? byte_len i).
(** [framebuffer.rs:144-182, put_pixel_raw] *)
Definition put_pixel_raw (x y : Z) (c : Color) : on_fb := λ fb,
  let i := fb_info fb in
  if negb (visible i x y) then (Ok tt, fb) else
  let b := encode (format i) c in
  if fb_has (offset i x y) (Z.of_nat (length b)) fb
  then (Ok tt, set_mem (splice (Z.to_nat (offset i x y)) b (fb_mem fb)) fb) else (Panic, fb).
(** [framebuffer.rs:135-140, put_pixel] *)
Definition put_pixel (x y : Z) (c : Color) : drawing := with_fb (put_pixel_raw x y c).

(** [framebuffer.rs:246-272, read_pixel]: three bytes are read in every format. *)
Definition read_pixel (x y : Z) : stm gfx Empty_set Color := sread (λ g,
  match g_fb g with
  | None => Ok BLACK
  | Some fb =>
      let i := fb_info fb in
      if negb (visible i x y) then Ok BLACK else
      if negb (fb_has (offset i x y) 3 fb) then Panic else
      let at_ k := nth (Z.to_nat (offset i x y) + k) (fb_mem fb) 0 in
      Ok match format i with
         | Rgb => rgb (at_ 0%nat) (at_ 1%nat) (at_ 2%nat)
         | Bgr => rgb (at_ 2%nat) (at_ 1%nat) (at_ 0%nat)
         | U8 => rgb (at_ 0%nat) (at_ 0%nat) (at_ 0%nat)
         | OtherFormat => rgb (at_ 0%nat) (at_ 1%nat) (at_ 2%nat)
         end
  end).

(** [for v in a..b] *)
Definition range (a b : Z) : list Z := seqZ a (b - a).
(** [usize::saturating_add] *)
Definition sat_add (x y : Z) : Z := Z.min (x + y) u64_max.
(** [framebuffer.rs:188-195, !fill_rect]: under the lock. *)
Definition fill_rect_raw (x y w h : Z) (c : Color) : on_fb := λ fb,
  let i := fb_info fb in
  sfor (range y (Z.min (sat_add y h) (height i))) (λ yy,
    sfor (range x (Z.min (sat_add x w) (width i))) (λ xx, put_pixel_raw xx yy c)) fb.
(** [framebuffer.rs:185-197, fill_rect] *)
Definition fill_rect (x y w h : Z) (c : Color) : drawing := with_fb (fill_rect_raw x y w h c).
(** [framebuffer.rs:200-208, draw_rect_outline] *)
Definition draw_rect_outline (x y w h : Z) (c : Color) : drawing :=
  if (w =? 0) || (h =? 0) then sret tt else
  let! _ := fill_rect x y w 1 c in
  let! _ := fill_rect x (wrap64 (wrap64 (y + h) - 1)) w 1 c in
  let! _ := fill_rect x y 1 h c in
  fill_rect (wrap64 (wrap64 (x + w) - 1)) y 1 h c.
(** [framebuffer.rs:211-220, clear] *)
Definition clear (c : Color) : drawing := λ g,
  match g_fb g with
  | None => (Ok tt, g)
  | Some fb => fill_rect 0 0 (width (fb_info fb)) (height (fb_info fb)) c g
  end.
(** [framebuffer.rs:102-117, init] *)
Definition init (mem : bytes) (i : info) : drawing := λ g,
  clear DESKTOP (Gfx (Some (FB mem i)) (Console 0 0 (width i / GLYPH_W) (height i / GLYPH_H) (con_fg (g_con g)) (con_bg (g_con g)) true)
    (g_suspended g)).

(** ** Text *)

Section font.
Context `{Fnt : Font}.

Definition glyph (ch : Z) : list Z := if ch <? 128 then font_glyph ch else font_glyph 63.
Definition bit (bits c : Z) : bool := negb (Z.land (Z.shiftr bits c) 1 =? 0).
(** The rows of a glyph with their numbers. *)
Definition glyph_rows (ch : Z) : list (nat * Z) := imap (λ r bits, (r, bits)) (glyph ch).
(** [framebuffer.rs:223-241, draw_glyph] *)
Definition draw_glyph (ch px py : Z) (fg bg : Color) : drawing := with_fb (
  sfor (glyph_rows ch) (λ r, sfor (range 0 GLYPH_W) (λ c,
    put_pixel_raw (wrap64 (px + c)) (wrap64 (py + Z.of_nat r.1)) (if bit r.2 c then fg else bg)))).
(** [framebuffer.rs:276-293, draw_glyph_fg] *)
Definition draw_glyph_fg (ch px py : Z) (fg : Color) : drawing := with_fb (
  sfor (glyph_rows ch) (λ r, sfor (range 0 GLYPH_W) (λ c,
    if bit r.2 c then put_pixel_raw (wrap64 (px + c)) (wrap64 (py + Z.of_nat r.1)) fg else sret tt))).
(** [framebuffer.rs:297-303, draw_string] *)
Fixpoint draw_string (s : list Z) (px py : Z) (fg bg : Color) : drawing :=
  match s with
  | [] => sret tt
  | ch :: s => let! _ := draw_glyph ch px py fg bg in draw_string s (wrap64 (px + GLYPH_W)) py fg bg
  end.
(** [framebuffer.rs:306-312, draw_string_fg] *)
Fixpoint draw_string_fg (s : list Z) (px py : Z) (fg : Color) : drawing :=
  match s with
  | [] => sret tt
  | ch :: s => let! _ := draw_glyph_fg ch px py fg in draw_string_fg s (wrap64 (px + GLYPH_W)) py fg
  end.
(** [framebuffer.rs:317-338, draw_string_scaled] *)
Fixpoint draw_string_scaled (s : list Z) (px py : Z) (fg : Color) (scale : Z) : drawing :=
  if scale =? 0 then sret tt else
  match s with
  | [] => sret tt
  | ch :: s =>
      let! _ := sfor (glyph_rows ch) (λ r, sfor (range 0 GLYPH_W) (λ c,
        if bit r.2 c
        then fill_rect (wrap64 (px + wrap64 (c * scale))) (wrap64 (py + wrap64 (Z.of_nat r.1 * scale))) scale scale fg
        else sret tt)) in
      draw_string_scaled s (wrap64 (px + wrap64 (GLYPH_W * scale))) py fg scale
  end.

(** ** The console *)

(** [framebuffer.rs:345-347, console_active] *)
Definition console_active (g : gfx) : bool := active (g_con g).
(** [framebuffer.rs:357-359, suspend_console] *)
Definition suspend_console (b : bool) (g : gfx) : gfx := Gfx (g_fb g) (g_con g) b.
(** [framebuffer.rs:362-364, console_suspended] *)
Definition console_suspended (g : gfx) : bool := g_suspended g.
(** [framebuffer.rs:368-372, set_console_colors] *)
Definition set_console_colors (fg bg : Color) (g : gfx) : gfx :=
  let c := g_con g in set_con (Console (col c) (row c) (cols c) (rows c) fg bg (active c)) g.

(** [framebuffer.rs:422-443, scroll_up] *)
Definition scroll_up (bg : Color) : drawing := with_fb (λ fb,
  let i := fb_info fb in
  let row_bytes := wrap64 (stride i * bytes_per_pixel i) in
  let shift := wrap64 (GLYPH_H * row_bytes) in
  let total := wrap64 (height i * row_bytes) in
  let len := wrap64 (total - shift) in
  if negb (fb_has shift len fb) then (Panic, fb) else
  let fb := set_mem (slice (Z.to_nat shift) (Z.to_nat len) (fb_mem fb) ++ drop (Z.to_nat len) (fb_mem fb)) fb in
  let last_y := wrap64 (wrap64 (height i / GLYPH_H - 1) * GLYPH_H) in
  sfor (range last_y (height i)) (λ yy, sfor (range 0 (width i)) (λ xx, put_pixel_raw xx yy bg)) fb).

(** [framebuffer.rs:384-406, !console_write_str]: what a character does at column and row [p]. *)
Definition console_key (fg bg : Color) (ch : Z) (p : Z * Z) : stm gfx Empty_set (Z * Z) :=
  let (col, row) := p in
  if ch =? 10 then sret (0, row + 1) else
  if ch =? 13 then sret (0, row) else
  if ch =? 9 then sret (Z.land (col + 4) (Z.lnot 3), row) else
  if ch =? 8 then
    if 0 <? col then let! _ := draw_glyph 32 ((col - 1) * GLYPH_W) (row * GLYPH_H) fg bg in sret (col - 1, row) else sret (col, row)
  else let! _ := draw_glyph ch (col * GLYPH_W) (row * GLYPH_H) fg bg in sret (col + 1, row).
(** [framebuffer.rs:407-414, !console_write_str]: the same with wrapping and scrolling. *)
Definition console_char (fg bg : Color) (cols rows : Z) (ch : Z) (p : Z * Z) : stm gfx Empty_set (Z * Z) :=
  let! p := console_key fg bg ch p in
  let p := if cols <=? p.1 then (0, p.2 + 1) else p in
  if rows <=? p.2 then let! _ := scroll_up bg in sret (p.1, rows - 1) else sret p.
Fixpoint console_chars (fg bg : Color) (cols rows : Z) (s : list Z) (p : Z * Z) : stm gfx Empty_set (Z * Z) :=
  match s with
  | [] => sret p
  | ch :: s => let! p := console_char fg bg cols rows ch p in console_chars fg bg cols rows s p
  end.
(** [framebuffer.rs:375-419, console_write_str]; [console_print] does the same to formatted
    text. *)
Definition console_write_str (s : list Z) : drawing := λ g,
  let c := g_con g in
  if (cols c =? 0) || (rows c =? 0) then (Ok tt, g) else
  (let! p := console_chars (con_fg c) (con_bg c) (cols c) (rows c) s (col c, row c) in
   smodify (λ g, let c := g_con g in set_con (Console p.1 p.2 (cols c) (rows c) (con_fg c) (con_bg c) (active c)) g)) g.

(** ** The boot picture *)

(** [framebuffer.rs:506-515, !draw_boot_test_pattern]: the color of the gradient at [x]. *)
Definition gradient (x w : Z) : Color :=
  let t := wrap64 (x * 255) / Z.max w 1 in
  if t <? 128 then let k := wrap8 (t * 2) in rgb (Z.max 0 (255 - k)) k 0
  else let k := wrap8 ((t - 128) * 2) in rgb 0 (Z.max 0 (255 - k)) k.
(** The swatches, until one does not fit. *)
Fixpoint swatches (l : list Color) (x w : Z) : drawing :=
  match l with
  | [] => sret tt
  | c :: l =>
      if w <? x + 60 then sret tt else
      let! _ := fill_rect x 60 60 60 c in
      let! _ := draw_rect_outline x 60 60 60 WHITE in
      swatches l (x + 72) w
  end.
(** [framebuffer.rs:464-519, draw_boot_test_pattern] *)
Definition draw_boot_test_pattern : drawing := λ g,
  let w := screen_width g in
  let h := screen_height g in
  if (w =? 0) || (h =? 0) then (Ok tt, g) else
  (let! _ := clear DESKTOP in
   let! _ := fill_rect 0 0 w 24 0x123A52 in
   let! _ := fill_rect 0 24 w 2 0x2BD6C4 in
   let! _ := swatches [RED; 0xFF8800; YELLOW; GREEN; CYAN; BLUE; MAGENTA; WHITE] 40 w in
   let grad_y := 60 + 60 + 40 in
   if grad_y + 50 <? h then sfor (range 0 w) (λ x, fill_rect x grad_y 1 50 (gradient x w)) else sret tt) g.
End font.
End Framebuffer.
