(* ===== verification/FramebufferProps.v ===== *)
(** * What is on the screen

    Every drawing call is described by the colors it leaves on the pixels of the
    screen ([paints]); calls compose as their colors do.  From this come the safety
    of all drawing, the clipping of rectangles and glyphs, and that the text console
    keeps on the screen what a grid of characters says. *)

From S2P Require Import Prelude Canvas Framebuffer.
Import Framebuffer.

(** ** Pixels of a well-formed framebuffer *)

Record info_ok (i : info) : Prop := {
  io_width : 0 < width i ≤ stride i;
  io_height : 0 < height i;
  io_bpp : Z.of_nat (length (encode (format i) 0)) ≤ bytes_per_pixel i;
  io_len : height i * (stride i * bytes_per_pixel i) ≤ byte_len i;
  io_word : byte_len i < 2 ^ 63;
}.
Record fb_ok (i : info) (fb : framebuffer) : Prop := {
  fo_info : fb_info fb = i;
  fo_len : Z.of_nat (length (fb_mem fb)) = byte_len i;
}.
Definition on_screen (i : info) (x y : Z) : Prop := 0 ≤ x < width i ∧ 0 ≤ y < height i.
(** The bytes of a pixel. *)
Definition pixel_at (fb : framebuffer) (x y : Z) : bytes :=
  slice (Z.to_nat (offset (fb_info fb) x y)) (length (encode (format (fb_info fb)) 0)) (fb_mem fb).

Lemma length_encode f c d : length (encode f c) = length (encode f d).
Proof. by destruct f. Qed.
Lemma encode_pos f c : (0 < length (encode f c))%nat.
Proof. destruct f; simpl; lia. Qed.

Section pixels.
Context (i : info) (Hi : info_ok i).

Lemma bpp_pos : 0 < bytes_per_pixel i.
Proof using Hi. destruct Hi. pose proof (encode_pos (format i) 0). lia. Qed.
Lemma row_bytes_bound : 0 < stride i * bytes_per_pixel i ≤ byte_len i.
Proof using Hi.
  pose proof bpp_pos as Hb. destruct Hi as [Hw Hh _ Hl _].
  assert (0 < stride i * bytes_per_pixel i) by (apply Z.mul_pos_pos; lia). nia.
Qed.
Lemma screen_bounds : width i < 2 ^ 63 ∧ height i < 2 ^ 63.
Proof using Hi.
  pose proof bpp_pos as Hb. pose proof row_bytes_bound. destruct Hi as [Hw Hh _ Hl Hword]. split.
  - assert (stride i * 1 ≤ stride i * bytes_per_pixel i) by (apply Z.mul_le_mono_nonneg_l; lia). lia.
  - assert (height i * 1 ≤ height i * (stride i * bytes_per_pixel i)) by (apply Z.mul_le_mono_nonneg_l; lia). lia.
Qed.
Lemma offset_eq x y : on_screen i x y →
  offset i x y = (y * stride i + x) * bytes_per_pixel i ∧ 0 ≤ offset i x y ∧ offset i x y + bytes_per_pixel i ≤ byte_len i.
Proof using Hi.
  intros [Hx Hy]. pose proof bpp_pos as Hb. destruct Hi as [Hw Hh _ Hl Hword]. unfold offset.
  assert (0 ≤ y * stride i) by (apply Z.mul_nonneg_nonneg; lia).
  assert ((y + 1) * stride i ≤ height i * stride i) by (apply Z.mul_le_mono_nonneg_r; lia).
  assert ((y * stride i + x + 1) * bytes_per_pixel i ≤ height i * stride i * bytes_per_pixel i) as Hend
    by (apply Z.mul_le_mono_nonneg_r; lia).
  rewrite <-Z.mul_assoc in Hend. rewrite Z.mul_add_distr_r, Z.mul_1_l in Hend.
  assert (0 ≤ (y * stride i + x) * bytes_per_pixel i) by (apply Z.mul_nonneg_nonneg; lia).
  assert (y * stride i + x ≤ (y * stride i + x) * bytes_per_pixel i) by nia.
  rewrite (wrap_small 64 (y * stride i)) by lia. rewrite (wrap_small 64 (_ + x)) by lia.
  rewrite wrap_small by lia. lia.
Qed.
Lemma visible_iff x y : 0 ≤ x → 0 ≤ y → visible i x y = true ↔ on_screen i x y.
Proof using Hi.
  intros Hx Hy. unfold visible, on_screen. rewrite !andb_true_iff, !Z.ltb_lt. split; [lia|]. intros [Hx' Hy'].
  destruct (offset_eq x y ltac:(split; lia)) as (_&Ho&Hb). pose proof bpp_pos. destruct Hi.
  split; [lia|]. apply Z.leb_le. rewrite wrap_small; lia.
Qed.
Lemma offset_apart x y x' y' : on_screen i x y → on_screen i x' y' → (x, y) ≠ (x', y') →
  offset i x y + bytes_per_pixel i ≤ offset i x' y' ∨ offset i x' y' + bytes_per_pixel i ≤ offset i x y.
Proof using Hi.
  intros H H' Hne. destruct (offset_eq _ _ H) as [-> _]. destruct (offset_eq _ _ H') as [-> _]. pose proof bpp_pos. destruct Hi.
  destruct H as [? _], H' as [? _].
  assert (y * stride i + x ≠ y' * stride i + x').
  { intros Heq. apply Hne. assert (y = y') as -> by nia. f_equal. lia. }
  destruct (Z.lt_total (y * stride i + x) (y' * stride i + x')) as [|[|]]; [left|lia|right]; nia.
Qed.

(** ** Colors that a call leaves behind *)

Abbreviation paints := (Canvas.paints (fb_ok i) (on_screen i) pixel_at (encode (format i))).

Lemma paints_pixel x y c : 0 ≤ x → 0 ≤ y →
  paints (put_pixel_raw x y c) (dot x y c).
Proof using Hi.
  unfold dot. intros Hx Hy fb Hfb. pose proof (fo_info _ _ Hfb) as Hinfo. pose proof (fo_len _ _ Hfb) as Hlen. unfold put_pixel_raw. rewrite Hinfo.
  destruct (visible i x y) eqn:Hv; cbn [negb].
  2: { exists fb. split_and!; [done..|]. intros x' y' Hxy. case_decide as Hd; [|done]. destruct Hd as [-> ->].
       apply visible_iff in Hxy; [congruence|done..]. }
  apply visible_iff in Hv; [|done..]. destruct (offset_eq x y Hv) as (_&Ho&Hb). pose proof (io_bpp _ Hi) as Hbpp.
  rewrite (length_encode _ 0 c) in Hbpp. unfold fb_has. rewrite Hlen, (proj2 (Z.leb_le 0 _) Ho), (proj2 (Z.leb_le _ _)) by lia. cbn [andb].
  assert (Z.to_nat (offset i x y) + length (encode (format i) c) ≤ length (fb_mem fb))%nat as Hin by lia.
  eexists. split; [done|]. split; [by split; simpl; [|rewrite length_splice]|]. intros x' y' Hxy.
  unfold pixel_at, set_mem. cbn [fb_info fb_mem]. rewrite Hinfo, (length_encode _ 0 c). destruct (offset_eq x' y' Hxy) as (_&Ho'&Hb').
  case_decide as Hd; cbn [from_option]; [destruct Hd as [-> ->]; by apply slice_splice_same|].
  apply slice_splice_other; [done|]. assert ((x', y') ≠ (x, y)) as Hne by (intros [= -> ->]; by destruct Hd).
  destruct (offset_apart x' y' x y Hxy Hv Hne); lia.
Qed.

(** A rectangle, cut at the edges of the screen. *)
Definition rectangle (x y w h : Z) (c : Color) (x' y' : Z) : option Color :=
  if decide ((x ≤ x' < x + w) ∧ (y ≤ y' < y + h)) then Some c else None.
Lemma paints_area x xe y ye c : 0 ≤ x → 0 ≤ y →
  paints (sfor (range y ye) (λ yy, sfor (range x xe) (λ xx, put_pixel_raw xx yy c))) (block x xe y ye c).
Proof using Hi. intros Hx Hy. apply (paints_block _ _ _ _ (λ xx yy, put_pixel_raw xx yy c)). intros. apply paints_pixel; lia. Qed.
Lemma paints_rect x y w h c : 0 ≤ x → 0 ≤ y → paints (fill_rect_raw x y w h c) (rectangle x y w h c).
Proof using Hi.
  intros Hx Hy fb Hfb. unfold fill_rect_raw. rewrite (fo_info _ _ Hfb).
  apply (paints_ext _ _ _ _ _ _ (rectangle x y w h c) (paints_area x (Z.min (sat_add x w) (width i)) y (Z.min (sat_add y h) (height i)) c Hx Hy)); [|done].
  intros x' y' [Hx' Hy']. destruct screen_bounds as [Hw Hh]. unfold rectangle, block, sat_add, u64_max. repeat case_decide; try done; exfalso; lia.
Qed.

(** ** Drawing calls *)

(** A call draws what some work on the framebuffer paints. *)
Definition draws (f : stm gfx Empty_set unit) (a : Z → Z → option Color) : Prop :=
  ∃ f', paints f' a ∧ ∀ g fb, g_fb g = Some fb → fb_ok i fb → f g = with_fb f' g.

Lemma draws_with f a : paints f a → draws (with_fb f) a.
Proof. by exists f. Qed.
Lemma draws_ext f a b : draws f a → (∀ x y, on_screen i x y → a x y = b x y) → draws f b.
Proof. intros (f'&Hp&Hf) Hab. exists f'. split; [by eapply paints_ext|done]. Qed.
Lemma draws_nothing : draws (sret tt) (λ _ _, None).
Proof. exists (sret tt). split; [apply paints_nothing|]. intros [] fb Hg _. simpl in Hg. by subst. Qed.
Lemma draws_then f g a b : draws f a → draws g b → draws (let! _ := f in g) (λ x y, b x y ∪ a x y).
Proof.
  intros (f'&Hpf&Hf) (g'&Hpg&Hg). exists (let! _ := f' in g'). split; [by apply paints_then|]. intros s fb Hs Hfb.
  destruct (Hpf fb Hfb) as (fb1&Hr&Hok&_). unfold sbind. rewrite (Hf s fb Hs Hfb). unfold with_fb at 1. rewrite Hs, Hr. cbn [fst snd].
  rewrite (Hg (Gfx (Some fb1) (g_con s) (g_suspended s)) fb1 eq_refl Hok). unfold with_fb. cbn [g_fb g_con g_suspended]. by rewrite Hs, Hr.
Qed.
Lemma draws_for {A} (l : list A) f a : (∀ k, k ∈ l → draws (f k) (a k)) → draws (sfor l f) (layers l a).
Proof.
  induction l as [|k l IH]; intros H; [apply draws_nothing|]. cbn [sfor].
  apply (draws_then (f k) (sfor l f) (a k) (layers l a)); [apply H; left|]. apply IH. intros j Hj. apply H. by right.
Qed.
(** What a call leaves in the state. *)
Lemma draws_run f a g fb : draws f a → g_fb g = Some fb → fb_ok i fb →
  ∃ fb', f g = (Ok tt, Gfx (Some fb') (g_con g) (g_suspended g)) ∧ fb_ok i fb' ∧
    ∀ x y, on_screen i x y → pixel_at fb' x y = from_option (encode (format i)) (pixel_at fb x y) (a x y).
Proof.
  intros (f'&Hp&Hf) Hg Hfb. destruct (Hp fb Hfb) as (fb'&Hr&Hok&Hpx). exists fb'. split; [|done].
  rewrite (Hf g fb Hg Hfb). unfold with_fb. by rewrite Hg, Hr.
Qed.

Lemma draws_pixel x y c : 0 ≤ x → 0 ≤ y → draws (put_pixel x y c) (rectangle x y 1 1 c).
Proof using Hi.
  intros Hx Hy. apply draws_with. refine (paints_ext _ _ _ _ _ _ _ (paints_pixel x y c Hx Hy) _). intros x' y' _. unfold rectangle, dot.
  repeat case_decide; try done; exfalso; lia.
Qed.
Lemma draws_rect x y w h c : 0 ≤ x → 0 ≤ y → draws (fill_rect x y w h c) (rectangle x y w h c).
Proof using Hi. intros Hx Hy. by apply draws_with, paints_rect. Qed.
Lemma draws_clear c : draws (clear c) (λ _ _, Some c).
Proof using Hi.
  destruct (draws_rect 0 0 (width i) (height i) c ltac:(lia) ltac:(lia)) as (f'&Hp&Hf). exists f'. split.
  - refine (paints_ext _ _ _ _ _ _ _ Hp _). intros x y [Hx Hy]. unfold rectangle. by rewrite decide_True by lia.
  - intros g fb Hg Hfb. unfold clear. rewrite Hg, (fo_info _ _ Hfb). by apply (Hf g fb).
Qed.
(** The four lines of an outline; coordinates may wrap. *)
Lemma draws_outline x y w h c : 0 ≤ x → 0 ≤ y → ∃ a, draws (draw_rect_outline x y w h c) a.
Proof using Hi.
  intros Hx Hy. unfold draw_rect_outline. destruct (_ || _); [by eexists; apply draws_nothing|].
  pose proof (wrap_bounds 64 (wrap64 (y + h) - 1)). pose proof (wrap_bounds 64 (wrap64 (x + w) - 1)).
  eexists. apply draws_then; [apply draws_rect; lia|]. apply draws_then; [apply draws_rect; lia|]. apply draws_then; apply draws_rect; lia.
Qed.

(** ** Glyphs *)

Section font.
Context `{FontLaws}.

Lemma glyph_length ch : length (glyph ch) = 8%nat.
Proof using All. unfold glyph. destruct (_ <? _); apply font_rows. Qed.

(** What a glyph whose corner is at [px], [py] puts on a pixel, if anything; [paint] says
    what a bit becomes. *)
Definition glyph_pixel (ch px py : Z) (paint : bool → option Color) (x y : Z) : option Color :=
  let dx := wrap64 (x - px) in
  let dy := wrap64 (y - py) in
  if decide (dx < 8 ∧ dy < 8) then paint (bit (nth (Z.to_nat dy) (glyph ch) 0) dx) else None.

(** A coordinate of the screen, told by its distance. *)
Lemma wrap_offset x px k : 0 ≤ x < 2 ^ 64 → 0 ≤ k < 2 ^ 64 → x = wrap64 (px + k) ↔ k = wrap64 (x - px).
Proof. unfold wrap. intros. split; intros ->; Z.to_euclidean_division_equations; lia. Qed.

Lemma glyph_rows_elem ch (r : nat * Z) : r ∈ glyph_rows ch ↔ (r.1 < 8)%nat ∧ r.2 = nth r.1 (glyph ch) 0.
Proof using All.
  unfold glyph_rows. rewrite list_elem_of_lookup. setoid_rewrite list_lookup_imap. split.
  - intros (k&(b&Hb&->)%fmap_Some). cbn. pose proof (lookup_lt_Some _ _ _ Hb) as Hk. rewrite glyph_length in Hk.
    split; [done|]. symmetry. by apply nth_lookup_Some.
  - intros [Hk Hr]. exists r.1. destruct (lookup_lt_is_Some_2 (glyph ch) r.1) as [b Hb]; [by rewrite glyph_length|].
    rewrite Hb. cbn. apply (nth_lookup_Some _ _ 0) in Hb. destruct r. simpl in *. by subst.
Qed.

Lemma paints_glyph f paint ch px py :
  (∀ r c, r ∈ glyph_rows ch → 0 ≤ c < 8 → paints (f r c)
     (λ x y, if decide (x = wrap64 (px + c) ∧ y = wrap64 (py + Z.of_nat r.1)) then paint (bit r.2 c) else None)) →
  paints (sfor (glyph_rows ch) (λ r, sfor (range 0 GLYPH_W) (f r))) (glyph_pixel ch px py paint).
Proof using All.
  intros Hf. pose proof (paints_for _ _ _ _ (glyph_rows ch) (λ r, sfor (range 0 GLYPH_W) (f r)) _
    (λ r Hr, paints_for _ _ _ _ (range 0 GLYPH_W) (f r) _ (λ c Hc, Hf r c Hr (proj1 (elem_of_seqZ _ _ _) Hc)))) as Hp.
  refine (paints_ext _ _ _ _ _ _ _ Hp _). clear Hp. intros x y [Hx Hy]. destruct screen_bounds as [Hw Hh]. unfold glyph_pixel.
  pose proof (wrap_bounds 64 (x - px) ltac:(lia)) as Hdx. pose proof (wrap_bounds 64 (y - py) ltac:(lia)) as Hdy.
  set (dx := wrap64 (x - px)) in *. set (dy := wrap64 (y - py)) in *.
  rewrite (layers_at _ _ _ _ (Z.to_nat dy, nth (Z.to_nat dy) (glyph ch) 0)
    (if decide (dx < 8) then paint (bit (nth (Z.to_nat dy) (glyph ch) 0) dx) else None)).
  { rewrite (decide_ext _ _ _ _ (glyph_rows_elem _ _)). cbn [fst snd]. repeat case_decide; try done; exfalso; lia. }
  intros r Hr. pose proof (proj1 (glyph_rows_elem _ _) Hr) as [Hr1 Hr2].
  rewrite (layers_at _ _ _ _ dx (if decide (y = wrap64 (py + Z.of_nat r.1)) then paint (bit r.2 dx) else None)).
  - unfold range. rewrite (decide_ext _ _ _ _ (elem_of_seqZ _ _ _)). unfold GLYPH_W.
    rewrite (decide_ext _ _ _ _ (wrap_offset y py (Z.of_nat r.1) ltac:(lia) ltac:(lia))). fold dy.
    destruct (decide (r = _)) as [->|Hne]; cbn [fst snd]; repeat case_decide; try done; try lia.
    destruct Hne. destruct r as [r b]. cbn in *. subst b. f_equal; [lia|]. f_equal. lia.
  - intros k Hk%elem_of_seqZ. rewrite (decide_ext (x = _ ∧ _) (k = dx ∧ y = wrap64 (py + Z.of_nat r.1))).
    + repeat case_decide; naive_solver.
    + rewrite (wrap_offset x px k) by (unfold GLYPH_W in Hk; lia). done.
Qed.

Lemma draws_glyph ch px py fg bg : draws (draw_glyph ch px py fg bg) (glyph_pixel ch px py (λ b, Some (if b then fg else bg))).
Proof using All.
  apply draws_with. apply (paints_glyph (λ r c, put_pixel_raw (wrap64 (px + c)) (wrap64 (py + Z.of_nat r.1)) (if bit r.2 c then fg else bg))).
  intros r c _ _. apply paints_pixel; apply wrap_bounds; lia.
Qed.
Lemma draws_glyph_fg ch px py fg : draws (draw_glyph_fg ch px py fg) (glyph_pixel ch px py (λ b, if b then Some fg else None)).
Proof using All.
  apply draws_with. apply (paints_glyph (λ r c, if bit r.2 c then put_pixel_raw (wrap64 (px + c)) (wrap64 (py + Z.of_nat r.1)) fg else sret tt)).
  intros r c _ _. destruct (bit _ _); [apply paints_pixel; apply wrap_bounds; lia|].
  refine (paints_ext _ _ _ _ _ _ _ (paints_nothing _ _ _ _) _). intros. by case_decide.
Qed.
Lemma draws_string s px py fg bg : ∃ a, draws (draw_string s px py fg bg) a.
Proof using All.
  revert px. induction s as [|c s IH]; intros px; [by eexists; apply draws_nothing|].
  destruct (IH (wrap64 (px + GLYPH_W))) as [a Ha]. eexists. cbn [draw_string]. apply draws_then; [apply draws_glyph|done].
Qed.
Lemma draws_string_fg s px py fg : ∃ a, draws (draw_string_fg s px py fg) a.
Proof using All.
  revert px. induction s as [|c s IH]; intros px; [by eexists; apply draws_nothing|].
  destruct (IH (wrap64 (px + GLYPH_W))) as [a Ha]. eexists. cbn [draw_string_fg]. apply draws_then; [apply draws_glyph_fg|done].
Qed.
Lemma draws_string_scaled s px py fg k : ∃ a, draws (draw_string_scaled s px py fg k) a.
Proof using All.
  revert px. induction s as [|c s IH]; intros px; cbn [draw_string_scaled]; (destruct (k =? 0); [by eexists; apply draws_nothing|]);
    [by eexists; apply draws_nothing|].
  destruct (IH (wrap64 (px + wrap64 (GLYPH_W * k)))) as [a Ha]. eexists. apply draws_then; [|done].
  apply draws_for. intros r _. apply draws_for with (a := λ c, if bit r.2 c then rectangle (wrap64 (px + wrap64 (c * k))) (wrap64 (py + wrap64 (Z.of_nat r.1 * k))) k k fg else (λ _ _, None)).
  intros b _. destruct (bit _ _); [|apply draws_nothing]. apply draws_rect; apply wrap_bounds; lia.
Qed.
End font.
End pixels.
