(* ===== verification/FramebufferText.v ===== *)
(** * The text console on the screen

    A grid of characters with a cursor ([text]) is what the console of
    [Framebuffer] means to show; [shows] says that the pixels show it. *)

From S2P Require Import Prelude Canvas Framebuffer FramebufferProps.
Import Framebuffer.

Section console.
Context (i : info) (Hi : info_ok i) `{FontLaws}.

(** ** Scrolling *)

Definition last_row : Z := (height i / 8 - 1) * 8.

Lemma slice_moved {A} (l : list A) shift len o n :
  (o + n ≤ len)%nat → (shift + len ≤ length l)%nat → slice o n (slice shift len l ++ drop len l) = slice (shift + o) n l.
Proof.
  intros Ho Hl. apply list_eq. intros k. rewrite !lookup_slice. case_decide; [|done].
  rewrite lookup_app_l by (rewrite length_slice; lia). rewrite lookup_slice, decide_True by lia. f_equal. lia.
Qed.

Lemma scroll_run bg g fb : g_fb g = Some fb → fb_ok i fb → 8 ≤ height i →
  ∃ fb', scroll_up bg g = (Ok tt, Gfx (Some fb') (g_con g) (g_suspended g)) ∧ fb_ok i fb' ∧
    ∀ x y, on_screen i x y → pixel_at fb' x y = if decide (y < last_row) then pixel_at fb x (y + 8) else encode (format i) bg.
Proof using Hi.
  intros Hg Hfb Hh. pose proof (fo_info _ _ Hfb) as Hinfo. pose proof (fo_len _ _ Hfb) as Hlen. unfold scroll_up, with_fb. rewrite Hg, Hinfo.
  pose proof (row_bytes_bound i Hi) as Hrb. pose proof (io_len _ Hi) as Htot. pose proof (io_word _ Hi) as Hword.
  destruct (screen_bounds i Hi) as [_ Hhb]. unfold GLYPH_H.
  set (rb := stride i * bytes_per_pixel i) in *. rewrite (wrap_small 64 rb) by lia.
  assert (8 * rb ≤ height i * rb) by (apply Z.mul_le_mono_nonneg_r; lia).
  rewrite (wrap_small 64 (8 * rb)), (wrap_small 64 (height i * rb)), (wrap_small 64 (height i * rb - _)) by lia.
  unfold fb_has. rewrite Hlen, (proj2 (Z.leb_le 0 _)), (proj2 (Z.leb_le _ _)) by lia. cbn [andb negb].
  set (fb1 := set_mem _ fb). assert (fb_ok i fb1) as Hfb1.
  { split; [done|]. simpl. rewrite length_app, length_slice, length_drop by lia. lia. }
  assert (∀ x y, on_screen i x y → y + 8 < height i → pixel_at fb1 x y = pixel_at fb x (y + 8)) as Hmove.
  { intros x y Hxy Hy8. assert (on_screen i x (y + 8)) as Hxy' by (destruct Hxy; split; lia).
    destruct (offset_eq i Hi _ _ Hxy) as (Ho&Ho0&_). destruct (offset_eq i Hi _ _ Hxy') as (Ho'&_).
    unfold pixel_at, fb1, set_mem. cbn [fb_info fb_mem]. rewrite Hinfo. pose proof (io_bpp _ Hi) as Hb.
    assert (offset i x (y + 8) = offset i x y + 8 * rb) as Hshift by (unfold rb; lia).
    assert (offset i x y + bytes_per_pixel i ≤ height i * rb - 8 * rb).
    { assert ((y * stride i + x + 1) * bytes_per_pixel i ≤ ((height i - 8) * stride i) * bytes_per_pixel i).
      { apply Z.mul_le_mono_nonneg_r; [lia|]. assert ((y + 1) * stride i ≤ (height i - 8) * stride i) by (apply Z.mul_le_mono_nonneg_r; [destruct Hi|]; lia).
        destruct Hi, Hxy. lia. }
      unfold rb. lia. }
    rewrite slice_moved by lia. f_equal. lia. }
  assert (wrap64 (wrap64 (height i / 8 - 1) * 8) = last_row) as Hlast.
  { unfold last_row. assert (1 ≤ height i / 8 ∧ height i / 8 * 8 ≤ height i) by (Z.to_euclidean_division_equations; lia).
    rewrite (wrap_small 64 (_ - 1)), wrap_small by lia. done. }
  rewrite Hlast. destruct (paints_area i Hi 0 (width i) last_row (height i) bg ltac:(lia)
    ltac:(unfold last_row; Z.to_euclidean_division_equations; lia) fb1 Hfb1) as (fb2&Hr&Hok&Hp).
  exists fb2. rewrite Hr. split; [done|]. split; [done|]. intros x y Hxy. rewrite Hp by done.
  destruct Hxy as [Hx Hy]. unfold block, last_row in *. case_decide; case_decide; try (exfalso; lia); cbn [from_option]; [done|].
  apply Hmove; [done|]. Z.to_euclidean_division_equations; lia.
Qed.

(** ** The grid of characters *)

Record text := Text { t_rows : list (list Z); t_col : Z; t_row : Z }.
Definition n_cols : Z := width i / 8.
Definition n_rows : Z := height i / 8.
Definition blank_line : list Z := replicate (Z.to_nat n_cols) 32.
Definition set_char (r c ch : Z) (l : list (list Z)) : list (list Z) := alter (λ line, <[Z.to_nat c := ch]> line) (Z.to_nat r) l.
(** A character: newline, return and tab (to the next multiple of four) move the cursor, backspace
    blanks the cell before it, everything else is put under it. *)
Definition type_key (t : text) (ch : Z) : text :=
  if ch =? 10 then Text (t_rows t) 0 (t_row t + 1) else
  if ch =? 13 then Text (t_rows t) 0 (t_row t) else
  if ch =? 9 then Text (t_rows t) ((t_col t / 4 + 1) * 4) (t_row t) else
  if ch =? 8 then
    if 0 <? t_col t then Text (set_char (t_row t) (t_col t - 1) 32 (t_rows t)) (t_col t - 1) (t_row t) else t
  else Text (set_char (t_row t) (t_col t) ch (t_rows t)) (t_col t + 1) (t_row t).
(** Lines wrap, and the grid scrolls. *)
Definition type_char (t : text) (ch : Z) : text :=
  let t := type_key t ch in
  let t := if n_cols <=? t_col t then Text (t_rows t) 0 (t_row t + 1) else t in
  if n_rows <=? t_row t then Text (drop 1 (t_rows t) ++ [blank_line]) (t_col t) (n_rows - 1) else t.
Definition type_text (t : text) (s : list Z) : text := foldl type_char t s.

Record text_ok (t : text) : Prop := {
  to_rows : Z.of_nat (length (t_rows t)) = n_rows;
  to_cols : Forall (λ l, Z.of_nat (length l) = n_cols) (t_rows t);
  to_col : 0 ≤ t_col t < n_cols;
  to_row : 0 ≤ t_row t < n_rows;
}.
(** The cell at [r], [c] of the screen shows [ch]. *)
Definition cell_shows (fb : framebuffer) (fg bg : Color) (r c ch : Z) : Prop := ∀ dx dy, 0 ≤ dx < 8 → 0 ≤ dy < 8 →
  pixel_at fb (c * 8 + dx) (r * 8 + dy) = encode (format i) (if bit (nth (Z.to_nat dy) (glyph ch) 0) dx then fg else bg).
Definition char_at (l : list (list Z)) (r c : Z) : option Z := l !! Z.to_nat r ≫= (.!! Z.to_nat c).
Definition shows (fb : framebuffer) (fg bg : Color) (l : list (list Z)) : Prop :=
  ∀ r c ch, 0 ≤ r < n_rows → 0 ≤ c < n_cols → char_at l r c = Some ch → cell_shows fb fg bg r c ch.

Lemma cell_on_screen r c dx dy : 0 ≤ r < n_rows → 0 ≤ c < n_cols → 0 ≤ dx < 8 → 0 ≤ dy < 8 → on_screen i (c * 8 + dx) (r * 8 + dy).
Proof. unfold on_screen, n_rows, n_cols. intros. split; Z.to_euclidean_division_equations; lia. Qed.

Lemma char_at_set r c ch l r' c' : 0 ≤ r → 0 ≤ c → 0 ≤ r' → 0 ≤ c' →
  char_at (set_char r c ch l) r' c' =
    if decide (r' = r ∧ c' = c) then (λ _, ch) <$> char_at l r' c' else char_at l r' c'.
Proof.
  intros. unfold char_at, set_char. destruct (decide (r' = r)) as [->|Hr].
  - rewrite list_lookup_alter_eq. destruct (l !! Z.to_nat r) as [line|]; cbn; [|by case_decide].
    destruct (decide (c' = c)) as [->|Hc].
    + rewrite decide_True by done. destruct (line !! Z.to_nat c) as [x|] eqn:Hx; cbn.
      * apply list_lookup_insert_eq. by eapply lookup_lt_Some.
      * rewrite list_insert_ge; [done|]. by apply lookup_ge_None.
    + rewrite decide_False by naive_solver. apply list_lookup_insert_ne. lia.
  - rewrite decide_False by naive_solver. by rewrite list_lookup_alter_ne by lia.
Qed.

(** Drawing a character into its cell. *)
Lemma glyph_shows fg bg g fb l r c ch : g_fb g = Some fb → fb_ok i fb → shows fb fg bg l → 0 ≤ r < n_rows → 0 ≤ c < n_cols →
  ∃ fb', draw_glyph ch (c * GLYPH_W) (r * GLYPH_H) fg bg g = (Ok tt, Gfx (Some fb') (g_con g) (g_suspended g)) ∧ fb_ok i fb' ∧
    shows fb' fg bg (set_char r c ch l).
Proof using All.
  intros Hg Hfb Hs Hr Hc. destruct (draws_run i _ _ g fb (draws_glyph i Hi ch (c * GLYPH_W) (r * GLYPH_H) fg bg) Hg Hfb) as (fb'&Hrun&Hok&Hp).
  exists fb'. split; [done|]. split; [done|]. intros r' c' ch' Hr' Hc' Hch dx dy Hdx Hdy.
  rewrite Hp by (by apply cell_on_screen). rewrite char_at_set in Hch by lia. unfold glyph_pixel, GLYPH_W, GLYPH_H.
  assert (0 ≤ n_rows < 2 ^ 60 ∧ 0 ≤ n_cols < 2 ^ 60) as [Hnr Hnc].
  { destruct (screen_bounds i Hi). pose proof (io_width _ Hi). pose proof (io_height _ Hi). unfold n_rows, n_cols. Z.to_euclidean_division_equations; lia. }
  destruct (decide (r' = r ∧ c' = c)) as [[-> ->]|Hne].
  - apply fmap_Some in Hch as (?&_&->). rewrite !wrap_small by lia. rewrite decide_True by lia. cbn [from_option].
    by replace (c * 8 + dx - c * 8) with dx by lia; replace (r * 8 + dy - r * 8) with dy by lia.
  - rewrite decide_False; [by apply Hs|]. intros [H1 H2]. apply Hne. unfold wrap in *. Z.to_euclidean_division_equations. lia.
Qed.

Lemma bit_of_blank k dx : bit (nth k (replicate 8 0) 0) dx = false.
Proof. assert (nth k (replicate 8 0) 0 = 0) as -> by (do 8 (destruct k as [|k]; [done|]); by destruct k). unfold bit. by rewrite Z.shiftr_0_l. Qed.

(** Scrolling moves every line up. *)
Lemma scroll_shows fg bg g fb l : g_fb g = Some fb → fb_ok i fb → shows fb fg bg l → 0 < n_rows → Z.of_nat (length l) = n_rows →
  ∃ fb', scroll_up bg g = (Ok tt, Gfx (Some fb') (g_con g) (g_suspended g)) ∧ fb_ok i fb' ∧
    shows fb' fg bg (drop 1 l ++ [blank_line]).
Proof using All.
  intros Hg Hfb Hs Hn Hl. assert (8 ≤ height i) by (unfold n_rows in Hn; Z.to_euclidean_division_equations; lia).
  destruct (scroll_run bg g fb Hg Hfb) as (fb'&Hrun&Hok&Hp); [done|]. exists fb'. split; [done|]. split; [done|].
  intros r c ch Hr Hc Hch dx dy Hdx Hdy. rewrite Hp by (by apply cell_on_screen).
  assert (last_row = (n_rows - 1) * 8) as Hlast by done. unfold char_at in Hch. destruct (decide (r < n_rows - 1)) as [Hlt|Hge].
  - rewrite decide_True by lia. replace (r * 8 + dy + 8) with ((r + 1) * 8 + dy) by lia. apply (Hs (r + 1) c ch); [lia|lia| |lia|lia].
    unfold char_at. rewrite lookup_app_l in Hch by (rewrite length_drop; lia). rewrite lookup_drop in Hch.
    rewrite <-Hch. do 2 f_equal. lia.
  - assert (r = n_rows - 1) as -> by lia. rewrite decide_False by lia.
    rewrite lookup_app_r in Hch by (rewrite length_drop; lia). rewrite length_drop in Hch.
    replace (Z.to_nat (n_rows - 1) - (length l - 1))%nat with 0%nat in Hch by lia. cbn in Hch.
    apply lookup_replicate in Hch as [-> _]. unfold glyph. cbn [Z.ltb Z.compare Pos.compare Pos.compare_cont]. rewrite font_space.
    by rewrite bit_of_blank.
Qed.

(** One character, and a string. *)
Lemma set_char_ok r c ch l : Z.of_nat (length l) = n_rows → Forall (λ l, Z.of_nat (length l) = n_cols) l →
  Z.of_nat (length (set_char r c ch l)) = n_rows ∧ Forall (λ l, Z.of_nat (length l) = n_cols) (set_char r c ch l).
Proof.
  intros Hr Hc. unfold set_char. rewrite length_alter. split; [done|]. apply Forall_alter; [done|].
  intros line _ Hline. by rewrite length_insert.
Qed.
Lemma tab_stop c : 0 ≤ c → Z.land (c + 4) (Z.lnot 3) = (c / 4 + 1) * 4.
Proof.
  intros Hc. change 3 with (Z.ones 2). rewrite <-Z.ldiff_land, Z.ldiff_ones_r, Z.shiftr_div_pow2, Z.shiftl_mul_pow2 by lia.
  change (2 ^ 2) with 4. Z.to_euclidean_division_equations; lia.
Qed.

(** After the key the cursor may stand at the end of the line, or below the last one. *)
Definition text_between (t : text) : Prop :=
  Z.of_nat (length (t_rows t)) = n_rows ∧ Forall (λ l, Z.of_nat (length l) = n_cols) (t_rows t) ∧
  0 ≤ t_col t ∧ 0 ≤ t_row t ≤ n_rows ∧ (t_row t = n_rows → t_col t = 0).
Lemma key_shows fg bg gc gs fb t ch : fb_ok i fb → text_ok t → shows fb fg bg (t_rows t) →
  ∃ fb', console_key fg bg ch (t_col t, t_row t) (Gfx (Some fb) gc gs) =
      (Ok (t_col (type_key t ch), t_row (type_key t ch)), Gfx (Some fb') gc gs) ∧
    fb_ok i fb' ∧ shows fb' fg bg (t_rows (type_key t ch)) ∧ text_between (type_key t ch).
Proof using All.
  intros Hfb [Hrows Hcols Hc Hr] Hs. pose proof (Z.div_pos (t_col t) 4). unfold console_key, type_key, text_between.
  destruct (ch =? 10); [exists fb; split_and!; simpl; try done; lia|].
  destruct (ch =? 13); [exists fb; split_and!; simpl; try done; lia|].
  destruct (ch =? 9); [rewrite tab_stop by lia; exists fb; split_and!; simpl; try done; lia|].
  destruct (ch =? 8); [destruct (Z.ltb_spec 0 (t_col t)); [|exists fb; split_and!; simpl; try done; lia]|].
  - destruct (glyph_shows fg bg (Gfx (Some fb) gc gs) fb _ (t_row t) (t_col t - 1) 32 eq_refl Hfb Hs) as (fb1&Hrun&Hok&Hs1); [lia..|].
    destruct (set_char_ok (t_row t) (t_col t - 1) 32 _ Hrows Hcols). exists fb1. rewrite (sbind_Ok _ _ _ _ _ Hrun). split_and!; simpl; try done; lia.
  - destruct (glyph_shows fg bg (Gfx (Some fb) gc gs) fb _ (t_row t) (t_col t) ch eq_refl Hfb Hs) as (fb1&Hrun&Hok&Hs1); [lia..|].
    destruct (set_char_ok (t_row t) (t_col t) ch _ Hrows Hcols). exists fb1. rewrite (sbind_Ok _ _ _ _ _ Hrun). split_and!; simpl; try done; lia.
Qed.

Lemma char_shows fg bg gc gs fb t ch : fb_ok i fb → text_ok t → shows fb fg bg (t_rows t) →
  ∃ fb', console_char fg bg n_cols n_rows ch (t_col t, t_row t) (Gfx (Some fb) gc gs) =
      (Ok (t_col (type_char t ch), t_row (type_char t ch)), Gfx (Some fb') gc gs) ∧
    fb_ok i fb' ∧ text_ok (type_char t ch) ∧ shows fb' fg bg (t_rows (type_char t ch)).
Proof using All.
  intros Hfb Ht Hs. destruct (key_shows fg bg gc gs fb t ch Hfb Ht Hs) as (fb1&Hrun&Hok1&Hs1&Hl1&Hc1&Hcol&Hrow&Hend).
  unfold console_char, type_char. rewrite (sbind_Ok _ _ _ _ _ Hrun). destruct Ht as [Hrows Hcols Hc Hr]. cbn [fst snd].
  set (t1 := type_key t ch) in *. clearbody t1.
  set (t2 := if n_cols <=? t_col t1 then Text (t_rows t1) 0 (t_row t1 + 1) else t1).
  replace (if n_cols <=? t_col t1 then (0, t_row t1 + 1) else (t_col t1, t_row t1)) with (t_col t2, t_row t2) by (unfold t2; by destruct (_ <=? _)).
  assert (t_rows t2 = t_rows t1 ∧ 0 ≤ t_col t2 < n_cols ∧ 0 ≤ t_row t2 ≤ n_rows) as (Hr2&Hcol2&Hrow2).
  { unfold t2. destruct (Z.leb_spec n_cols (t_col t1)); simpl; split_and!; try done; try lia. }
  clearbody t2. rewrite <-Hr2 in *. cbn [fst snd]. destruct (Z.leb_spec n_rows (t_row t2)); [|exists fb1; split_and!; try done; by split; try lia].
  destruct (scroll_shows fg bg (Gfx (Some fb1) gc gs) fb1 _ eq_refl Hok1 Hs1 ltac:(lia) Hl1) as (fb2&Hrun2&Hok2&Hs2).
  exists fb2. rewrite (sbind_Ok _ _ _ _ _ Hrun2). cbn. split_and!; try done. split; cbn; [|..|lia]; [|apply Forall_app; split; [by apply Forall_drop|]|done].
  - rewrite length_app, length_drop. simpl. lia.
  - constructor; [|done]. unfold blank_line. rewrite length_replicate. lia.
Qed.

Lemma chars_show fg bg gc gs s fb t : fb_ok i fb → text_ok t → shows fb fg bg (t_rows t) →
  ∃ fb', console_chars fg bg n_cols n_rows s (t_col t, t_row t) (Gfx (Some fb) gc gs) =
      (Ok (t_col (type_text t s), t_row (type_text t s)), Gfx (Some fb') gc gs) ∧
    fb_ok i fb' ∧ text_ok (type_text t s) ∧ shows fb' fg bg (t_rows (type_text t s)).
Proof using All.
  revert fb t. induction s as [|ch s IH]; intros fb t Hfb Ht Hs; cbn [console_chars type_text foldl]; [by exists fb|].
  destruct (char_shows fg bg gc gs fb t ch Hfb Ht Hs) as (fb1&Hr&Hok&Ht1&Hs1). rewrite (sbind_Ok _ _ _ _ _ Hr).
  by apply (IH fb1 (type_char t ch)).
Qed.

(** ** The console from the start *)

Definition blank_text : text := Text (replicate (Z.to_nat n_rows) blank_line) 0 0.
Definition con_at (fg bg : Color) (t : text) (c : console) : Prop :=
  c = Console (t_col t) (t_row t) n_cols n_rows fg bg true.

Lemma blank_text_ok : 8 ≤ width i → 8 ≤ height i → text_ok blank_text.
Proof.
  intros Hw Hh. assert (0 < n_cols ∧ 0 < n_rows) as [Hc Hr] by (unfold n_cols, n_rows; Z.to_euclidean_division_equations; lia).
  split; cbn; [rewrite length_replicate; lia|apply Forall_replicate; unfold blank_line; rewrite length_replicate; lia|lia|lia].
Qed.

Lemma init_shows mem gs : Z.of_nat (length mem) = byte_len i →
  ∃ fb, init mem i gs = (Ok tt, Gfx (Some fb) (Console 0 0 n_cols n_rows (con_fg (g_con gs)) (con_bg (g_con gs)) true) (g_suspended gs)) ∧
    fb_ok i fb ∧ shows fb (con_fg (g_con gs)) DESKTOP (t_rows blank_text).
Proof using All.
  intros Hl. unfold init, GLYPH_W, GLYPH_H. fold n_cols n_rows. destruct (draws_run i (clear DESKTOP) _
    (Gfx (Some (FB mem i)) (Console 0 0 n_cols n_rows (con_fg (g_con gs)) (con_bg (g_con gs)) true) (g_suspended gs))
    (FB mem i) (draws_clear i Hi DESKTOP) eq_refl ltac:(by split)) as (fb&Hrun&Hok&Hp).
  exists fb. split; [done|]. split; [done|]. intros r c ch Hr Hc Hch dx dy Hdx Hdy. rewrite Hp by (by apply cell_on_screen). cbn [from_option].
  unfold char_at, blank_text, blank_line in Hch. cbn in Hch. apply bind_Some in Hch as (line&Hline&Hch).
  apply lookup_replicate in Hline as [-> _]. apply lookup_replicate in Hch as [-> _].
  unfold glyph. cbn [Z.ltb Z.compare Pos.compare Pos.compare_cont]. rewrite font_space, bit_of_blank. done.
Qed.

Lemma write_shows s fg bg gs fb t : fb_ok i fb → text_ok t → shows fb fg bg (t_rows t) →
  ∃ fb', console_write_str s (Gfx (Some fb) (Console (t_col t) (t_row t) n_cols n_rows fg bg true) gs) =
      (Ok tt, Gfx (Some fb') (Console (t_col (type_text t s)) (t_row (type_text t s)) n_cols n_rows fg bg true) gs) ∧
    fb_ok i fb' ∧ text_ok (type_text t s) ∧ shows fb' fg bg (t_rows (type_text t s)).
Proof using All.
  intros Hfb Ht Hs. unfold console_write_str. cbn [g_con cols rows con_fg con_bg col row]. pose proof (to_col _ Ht). pose proof (to_row _ Ht).
  destruct (Z.eqb_spec n_cols 0), (Z.eqb_spec n_rows 0); try lia. cbn [orb].
  destruct (chars_show fg bg (Console (t_col t) (t_row t) n_cols n_rows fg bg true) gs s fb t Hfb Ht Hs) as (fb'&Hr&Hrest).
  exists fb'. by rewrite (sbind_Ok _ _ _ _ _ Hr).
Qed.

Lemma writes_show ss fg bg gs fb t : fb_ok i fb → text_ok t → shows fb fg bg (t_rows t) →
  ∃ fb', sfor ss console_write_str (Gfx (Some fb) (Console (t_col t) (t_row t) n_cols n_rows fg bg true) gs) =
      (Ok tt, Gfx (Some fb') (Console (t_col (foldl type_text t ss)) (t_row (foldl type_text t ss)) n_cols n_rows fg bg true) gs) ∧
    fb_ok i fb' ∧ text_ok (foldl type_text t ss) ∧ shows fb' fg bg (t_rows (foldl type_text t ss)).
Proof using All.
  revert fb t. induction ss as [|s ss IH]; intros fb t Hfb Ht Hs; cbn [sfor foldl]; [by exists fb|].
  destruct (write_shows s fg bg gs fb t Hfb Ht Hs) as (fb1&Hr&Hok&Ht1&Hs1). rewrite (sbind_Ok _ _ _ _ _ Hr). by apply IH.
Qed.

(** ** Totality *)

Record gfx_ok (g : gfx) : Prop := {
  go_fb : ∃ fb, g_fb g = Some fb ∧ fb_ok i fb;
  go_grid : cols (g_con g) = n_cols ∧ rows (g_con g) = n_rows;
  go_col : 0 ≤ col (g_con g) < n_cols ∨ n_cols = 0;
  go_row : 0 ≤ row (g_con g) < n_rows ∨ n_rows = 0;
}.
Lemma draws_ok f a g : draws i f a → gfx_ok g → ∃ g', f g = (Ok tt, g') ∧ gfx_ok g'.
Proof.
  intros Hd [(fb&Hg&Hfb) H1 H2 H3]. destruct (draws_run i f a g fb Hd Hg Hfb) as (fb'&Hr&Hok&_). eexists. split; [done|]. split; try done. by exists fb'.
Qed.
Lemma char_runs fg bg p ch gc gs fb : fb_ok i fb → 0 < n_rows → 0 < n_cols → 0 ≤ p.1 < n_cols → 0 ≤ p.2 < n_rows →
  ∃ p' fb', console_char fg bg n_cols n_rows ch p (Gfx (Some fb) gc gs) = (Ok p', Gfx (Some fb') gc gs) ∧ fb_ok i fb' ∧
    0 ≤ p'.1 < n_cols ∧ 0 ≤ p'.2 < n_rows.
Proof using All.
  intros Hfb Hn Hm Hc Hr. destruct p as [c r]. cbn in Hc, Hr. unfold console_char.
  assert (∃ p1 fb1, console_key fg bg ch (c, r) (Gfx (Some fb) gc gs) = (Ok p1, Gfx (Some fb1) gc gs) ∧ fb_ok i fb1 ∧
    0 ≤ p1.1 ∧ 0 ≤ p1.2 ≤ n_rows ∧ (p1.2 = n_rows → p1.1 = 0)) as (p1&fb1&Hrun&Hok1&Hc1&Hr1&He1).
  { unfold console_key. pose proof (Z.div_pos c 4).
    destruct (ch =? 10); [exists (0, r + 1), fb; split_and!; simpl; try done; lia|].
    destruct (ch =? 13); [exists (0, r), fb; split_and!; simpl; try done; lia|].
    destruct (ch =? 9); [rewrite tab_stop by lia; exists ((c / 4 + 1) * 4, r), fb; split_and!; simpl; try done; lia|].
    destruct (ch =? 8); [destruct (Z.ltb_spec 0 c); [|exists (c, r), fb; split_and!; simpl; try done; lia]|].
    - destruct (draws_run i _ _ (Gfx (Some fb) gc gs) fb (draws_glyph i Hi 32 ((c - 1) * GLYPH_W) (r * GLYPH_H) fg bg) eq_refl Hfb) as (fb1&Hrun&Hok&_).
      exists (c - 1, r), fb1. rewrite (sbind_Ok _ _ _ _ _ Hrun). split_and!; simpl; try done; lia.
    - destruct (draws_run i _ _ (Gfx (Some fb) gc gs) fb (draws_glyph i Hi ch (c * GLYPH_W) (r * GLYPH_H) fg bg) eq_refl Hfb) as (fb1&Hrun&Hok&_).
      exists (c + 1, r), fb1. rewrite (sbind_Ok _ _ _ _ _ Hrun). split_and!; simpl; try done; lia. }
  rewrite (sbind_Ok _ _ _ _ _ Hrun). set (p2 := if n_cols <=? p1.1 then (0, p1.2 + 1) else p1).
  assert (0 ≤ p2.1 < n_cols ∧ 0 ≤ p2.2 ≤ n_rows) as [Hc2 Hr2].
  { unfold p2. destruct (Z.leb_spec n_cols p1.1); simpl; lia. }
  clearbody p2. destruct (Z.leb_spec n_rows p2.2); [|exists p2, fb1; split_and!; try done; lia].
  destruct (scroll_run bg (Gfx (Some fb1) gc gs) fb1 eq_refl Hok1) as (fb2&Hrun2&Hok2&_); [unfold n_rows in Hn; Z.to_euclidean_division_equations; lia|].
  exists (p2.1, n_rows - 1), fb2. rewrite (sbind_Ok _ _ _ _ _ Hrun2). split_and!; simpl; try done; lia.
Qed.
Lemma write_ok s g : gfx_ok g → ∃ g', console_write_str s g = (Ok tt, g') ∧ gfx_ok g'.
Proof using All.
  intros Hgo. pose proof Hgo as [(fb&Hg&Hfb) [Hcols Hrows] Hc Hr]. destruct g as [gf gc gs]. cbn in *. subst gf. unfold console_write_str. cbn [g_con].
  rewrite Hcols, Hrows. destruct (Z.eqb_spec n_cols 0); [by eexists|]. destruct (Z.eqb_spec n_rows 0); [by eexists|]. cbn [orb].
  destruct Hc as [Hc|]; [|done]. destruct Hr as [Hr|]; [|done].
  assert (∀ p fb, fb_ok i fb → 0 ≤ p.1 < n_cols → 0 ≤ p.2 < n_rows → ∃ p' fb',
    console_chars (con_fg gc) (con_bg gc) n_cols n_rows s p (Gfx (Some fb) gc gs) = (Ok p', Gfx (Some fb') gc gs) ∧ fb_ok i fb' ∧
    0 ≤ p'.1 < n_cols ∧ 0 ≤ p'.2 < n_rows) as Hrun.
  { clear -Hi H0. induction s as [|ch s IH]; intros p fb Hfb Hc Hr; cbn [console_chars]; [by exists p, fb|].
    destruct (char_runs (con_fg gc) (con_bg gc) p ch gc gs fb Hfb ltac:(lia) ltac:(lia) Hc Hr) as (p1&fb1&Hrun&Hok&Hc1&Hr1).
    rewrite (sbind_Ok _ _ _ _ _ Hrun). by apply IH. }
  destruct (Hrun (col gc, row gc) fb Hfb Hc Hr) as (p'&fb'&Hr'&Hok'&Hc'&Hrr). rewrite (sbind_Ok _ _ _ _ _ Hr'). eexists. split; [done|].
  split; cbn; [by exists fb'|done|by left|by left].
Qed.
Lemma pattern_draws g : gfx_ok g → ∃ g', draw_boot_test_pattern g = (Ok tt, g') ∧ gfx_ok g'.
Proof using Hi.
  intros Hgo. unfold draw_boot_test_pattern. set (w := screen_width g). set (h := screen_height g). destruct (_ || _); [by eexists|].
  assert (∀ l x, 0 ≤ x → ∃ a, draws i (swatches l x w) a) as Hsw.
  { induction l as [|c l IH]; intros x Hx; cbn [swatches]; [by eexists; apply draws_nothing|].
    destruct (w <? x + 60); [by eexists; apply draws_nothing|]. destruct (IH (x + 72) ltac:(lia)) as [a Ha].
    destruct (draws_outline i Hi x 60 60 60 WHITE Hx ltac:(lia)) as [b Hb]. eexists.
    apply draws_then; [apply draws_rect; [done|lia..]|]. by apply draws_then. }
  destruct (Hsw [RED; 0xFF8800; YELLOW; GREEN; CYAN; BLUE; MAGENTA; WHITE] 40 ltac:(lia)) as [a Ha].
  assert (∃ b, draws i (if 60 + 60 + 40 + 50 <? h then sfor (range 0 w) (λ x, fill_rect x (60 + 60 + 40) 1 50 (gradient x w)) else sret tt) b) as [b Hb].
  { destruct (_ <? h); eexists; [|apply draws_nothing]. apply draws_for. intros x Hx%elem_of_seqZ. apply draws_rect; [done|lia..]. }
  eapply draws_ok; [|done]. apply draws_then; [by apply draws_clear|]. apply draws_then; [apply draws_rect; [done|lia..]|].
  apply draws_then; [apply draws_rect; [done|lia..]|]. by apply draws_then.
Qed.
End console.

(** ** Theorems *)

Inductive call : Type :=
| PutPixel (x y : Z) (c : Color) | ReadPixel (x y : Z) | FillRect (x y w h : Z) (c : Color) | Outline (x y w h : Z) (c : Color)
| Clear (c : Color) | Glyph (ch x y : Z) (fg bg : Color) | GlyphFg (ch x y : Z) (fg : Color)
| Str (s : list Z) (x y : Z) (fg bg : Color) | StrFg (s : list Z) (x y : Z) (fg : Color) | StrScaled (s : list Z) (x y : Z) (fg : Color) (k : Z)
| Write (s : list Z) | Colors (fg bg : Color) | Suspend (b : bool) | Pattern.
Definition run_call `{Font} (c : call) : stm gfx Empty_set unit :=
  match c with
  | PutPixel x y c => put_pixel x y c
  | ReadPixel x y => let! _ := read_pixel x y in sret tt
  | FillRect x y w h c => fill_rect x y w h c
  | Outline x y w h c => draw_rect_outline x y w h c
  | Clear c => clear c
  | Glyph ch x y fg bg => draw_glyph ch x y fg bg
  | GlyphFg ch x y fg => draw_glyph_fg ch x y fg
  | Str s x y fg bg => draw_string s x y fg bg
  | StrFg s x y fg => draw_string_fg s x y fg
  | StrScaled s x y fg k => draw_string_scaled s x y fg k
  | Write s => console_write_str s
  | Colors fg bg => smodify (set_console_colors fg bg)
  | Suspend b => smodify (suspend_console b)
  | Pattern => draw_boot_test_pattern
  end.
(** Coordinates are [usize]. *)
Definition call_ok (c : call) : Prop :=
  match c with
  | PutPixel x y _ | FillRect x y _ _ _ | Outline x y _ _ _ | ReadPixel x y => 0 ≤ x ∧ 0 ≤ y
  | _ => True
  end.
(** A pixel of the screen behind whose first byte there are not three. *)
Definition reads_past (i : info) (x y : Z) : Prop :=
  x < width i ∧ y < height i ∧ byte_len i < (y * stride i + x) * bytes_per_pixel i + 3.
Definition reads_inside (i : info) (c : call) : Prop :=
  match c with ReadPixel x y => ¬ reads_past i x y | _ => True end.

(** Reading a pixel back looks at three bytes, whatever the format. *)
Lemma read_cases i (Hi : info_ok i) x y g : gfx_ok i g → 0 ≤ x → 0 ≤ y →
  (¬ reads_past i x y ∧ ∃ c, read_pixel x y g = (Ok c, g)) ∨ (reads_past i x y ∧ (read_pixel x y g).1 = Panic).
Proof.
  intros [(fb&Hg&Hfb) _ _ _] Hx Hy. unfold read_pixel, sread. rewrite Hg, (fo_info _ _ Hfb).
  pose proof (visible_iff i Hi x y Hx Hy) as Hiff. destruct (visible i x y); cbn [negb].
  - assert (x < width i ∧ y < height i) as [Hxw Hyh] by (destruct Hiff as [Hiff _]; specialize (Hiff eq_refl); unfold on_screen in Hiff; lia).
    destruct (offset_eq i Hi x y (proj1 Hiff eq_refl)) as (Heq&Ho&Hb). pose proof (fo_len _ _ Hfb) as Hlen.
    unfold fb_has. rewrite Hlen, (proj2 (Z.leb_le 0 _) Ho). cbn [andb].
    destruct (Z.leb_spec (offset i x y + 3) (byte_len i)) as [Hle|Hlt]; cbn [negb].
    + left. split; [|by eexists]. intros (_&_&Hp). lia.
    + right. split; [|done]. split_and!; [done..|]. lia.
  - left. split; [|by eexists]. intros (H1&H2&_). assert (false = true); [|done]. apply Hiff. unfold on_screen. lia.
Qed.
Lemma read_ok i (Hi : info_ok i) x y g : gfx_ok i g → 0 ≤ x → 0 ≤ y → length (encode (format i) 0) = 3%nat →
  ∃ c, read_pixel x y g = (Ok c, g).
Proof.
  intros Hg Hx Hy Hl. destruct (read_cases i Hi x y g Hg Hx Hy) as [[_ Hr]|[(H1&H2&Hp) _]]; [done|exfalso].
  pose proof (visible_iff i Hi x y Hx Hy) as Hiff. assert (visible i x y = true) as Hv by (apply Hiff; unfold on_screen; lia).
  destruct (offset_eq i Hi x y (proj1 Hiff Hv)) as (Heq&_&Hb). pose proof (io_bpp _ Hi) as Hbpp. rewrite Hl in Hbpp. lia.
Qed.

Lemma call_runs i (Hi : info_ok i) `{FontLaws} c g : gfx_ok i g → call_ok c → reads_inside i c → ∃ g', run_call c g = (Ok tt, g') ∧ gfx_ok i g'.
Proof.
  intros Hg Hc Hin. destruct c; simpl in *.
  - eapply draws_ok; [|done]. apply draws_pixel; tauto.
  - destruct (read_cases i Hi x y g) as [[_ [c Hr]]|[? _]]; [tauto..| |done]. rewrite (sbind_Ok _ _ _ _ _ Hr). by exists g.
  - eapply draws_ok; [|done]. apply draws_rect; tauto.
  - destruct (draws_outline i Hi x y w h c) as [a Ha]; [tauto..|]. by eapply draws_ok.
  - eapply draws_ok; [|done]. by apply (draws_clear i Hi).
  - eapply draws_ok; [|done]. apply (draws_glyph i Hi).
  - eapply draws_ok; [|done]. apply (draws_glyph_fg i Hi).
  - destruct (draws_string i Hi s x y fg bg) as [a Ha]. by eapply draws_ok.
  - destruct (draws_string_fg i Hi s x y fg) as [a Ha]. by eapply draws_ok.
  - destruct (draws_string_scaled i Hi s x y fg k) as [a Ha]. by eapply draws_ok.
  - by apply (write_ok i Hi).
  - eexists. split; [done|]. by destruct Hg.
  - eexists. split; [done|]. by destruct Hg.
  - by apply (pattern_draws i Hi).
Qed.

(** C37: Drawing stays inside the framebuffer.  With the geometry the
    bootloader promises, no sequence of calls - any coordinates, sizes and text -
    accesses memory outside of the buffer, changes the buffer's size, or leaves the
    console's cursor outside of the grid, if none of them reads back a pixel near
    the end of the buffer; that one call reads three bytes in every format, so on a
    screen of one or two bytes to the pixel it goes past the end there - and only
    there. *)
Theorem drawing_stays_inside i `{FontLaws} mem cs : info_ok i → Z.of_nat (length mem) = byte_len i → Forall call_ok cs →
  (Forall (reads_inside i) cs → ∃ g, (let! _ := init mem i in sfor cs run_call) gfx_new = (Ok tt, g) ∧ gfx_ok i g) ∧
  (∀ x y g, 0 ≤ x → 0 ≤ y → gfx_ok i g →
     ((read_pixel x y g).1 = Panic ↔ reads_past i x y) ∧ (reads_past i x y → bytes_per_pixel i < 3)).
Proof.
  intros Hi Hl Hcs. split; [intros Hins|intros x y g Hx Hy Hg; split].
  2:{ destruct (read_cases i Hi x y g Hg Hx Hy) as [[Hn [c ->]]|[Hp ->]]; done. }
  2:{ intros (H1&H2&Hp). pose proof (visible_iff i Hi x y Hx Hy) as Hiff.
      assert (visible i x y = true) as Hv by (apply Hiff; unfold on_screen; lia).
      destruct (offset_eq i Hi x y (proj1 Hiff Hv)) as (Heq&_&Hb). lia. }
  destruct (init_shows i Hi mem gfx_new Hl) as (fb&Hrun&Hok&_). rewrite (sbind_Ok _ _ _ _ _ Hrun).
  assert (gfx_ok i (Gfx (Some fb) (Console 0 0 (n_cols i) (n_rows i) (con_fg (g_con gfx_new)) (con_bg (g_con gfx_new)) true) (g_suspended gfx_new))) as Hg.
  { pose proof (io_width _ Hi). pose proof (io_height _ Hi). assert (0 ≤ n_cols i ∧ 0 ≤ n_rows i) by (split; apply Z.div_pos; lia).
    split; simpl; [by exists fb|done|lia..]. }
  revert Hg. generalize (Gfx (Some fb) (Console 0 0 (n_cols i) (n_rows i) (con_fg (g_con gfx_new)) (con_bg (g_con gfx_new)) true) (g_suspended gfx_new)).
  clear Hrun. induction Hcs as [|c cs Hc _ IH]; intros g Hg; [by exists g|]. cbn [sfor]. apply Forall_cons in Hins as [Hin Hins].
  destruct (call_runs i Hi c g Hg Hc Hin) as (g1&Hr&Hg1). rewrite (sbind_Ok _ _ _ _ _ Hr). by apply IH.
Qed.

(** C36: The console shows its text.  Whatever is printed after [init], newlines, tabs, backspaces,
    wrapping and scrolling included, every character cell of the screen shows, pixel by
    pixel, the glyph of the character that a grid of characters has there. *)
Theorem console_shows_text i `{FontLaws} mem ss : info_ok i → Z.of_nat (length mem) = byte_len i → 8 ≤ width i → 8 ≤ height i →
  let t := type_text i (blank_text i) (concat ss) in
  ∃ g fb, (let! _ := init mem i in sfor ss console_write_str) gfx_new = (Ok tt, g) ∧ g_fb g = Some fb ∧
    col (g_con g) = t_col t ∧ row (g_con g) = t_row t ∧ text_ok i t ∧ shows i fb 0x00FF66 DESKTOP (t_rows t).
Proof.
  intros Hi Hl Hw Hh. destruct (init_shows i Hi mem gfx_new Hl) as (fb&Hrun&Hok&Hs). rewrite (sbind_Ok _ _ _ _ _ Hrun).
  destruct (writes_show i Hi ss 0x00FF66 DESKTOP false fb (blank_text i) Hok (blank_text_ok i Hw Hh) Hs) as (fb'&Hr&Hok'&Ht&Hs').
  assert (foldl (type_text i) (blank_text i) ss = type_text i (blank_text i) (concat ss)) as Heq.
  { unfold type_text. generalize (blank_text i). clear. induction ss as [|s ss IH]; intros t; [done|]. cbn [foldl concat]. by rewrite foldl_app, IH. }
  rewrite Heq in *. eexists. exists fb'. split; [exact Hr|]. done.
Qed.

(** ** On a small screen *)

(** A font whose space is blank and whose other characters are their code in every row. *)
#[export] Instance demo_font : Font := λ c, replicate 8 (if c =? 32 then 0 else c).
#[export] Instance demo_font_laws : FontLaws.
Proof. split; [intros; apply length_replicate|done]. Qed.
(** Twenty pixels by seventeen, in rows of 24: two columns and two rows. *)
Definition demo_info : info := Info (17 * 24 * 3) 20 17 Bgr 3 24.
Lemma demo_info_ok : info_ok demo_info.
Proof. split; cbn; lia. Qed.

Example drawing_stays_inside_witness :
  ∃ g, (let! _ := init (replicate 1224 0) demo_info in
        sfor [FillRect 10 10 (2 ^ 64 - 1) 5 RED; Glyph 65 (2 ^ 64 - 4) 12 WHITE BLACK; ReadPixel 19 16; Write [10; 10; 65; 9; 8; 8]; Pattern] run_call) gfx_new =
    (Ok tt, g) ∧ gfx_ok demo_info g.
Proof.
  apply (drawing_stays_inside demo_info); [apply demo_info_ok|by rewrite length_replicate|by repeat constructor|].
  repeat constructor. intros (_&_&Hp). cbn in Hp. lia.
Defined.

Example console_shows_text_witness : ∃ g fb,
  (let! _ := init (replicate 1224 0) demo_info in sfor [[65]; [66; 67; 68]; [13; 69]] console_write_str) gfx_new = (Ok tt, g) ∧ g_fb g = Some fb ∧
    shows demo_info fb 0x00FF66 DESKTOP [[67; 68]; [69; 32]].
Proof.
  destruct (console_shows_text demo_info (replicate 1224 0) [[65]; [66; 67; 68]; [13; 69]]) as (g&fb&Hr&Hg&_&_&_&Hs);
    [apply demo_info_ok|by rewrite length_replicate|done..|]. exists g, fb. split_and!; [done|done|exact Hs].
Defined.

(** On a grayscale screen of one byte to the pixel, [read_pixel] reads two bytes past the
    buffer at the last pixel. *)
Example read_pixel_past_end :
  let i := Info 4 2 2 U8 1 2 in
  info_ok i ∧ (read_pixel 1 1 (Gfx (Some (FB [1; 2; 3; 4] i)) (g_con gfx_new) false)).1 = Panic.
Proof. split; [split; cbn; lia|reflexivity]. Qed.
