(* ===== verification/VgaText.v ===== *)
(** * Console output (vga_buffer.rs)

    The text-mode screen, the capture buffers of redirected commands, and where
    [print!] sends its text: a capture buffer, a terminal window, the framebuffer's console, the
    serial port or the text-mode screen. *)

From S2P Require Import Prelude Vfs Framebuffer FramebufferProps FramebufferText Terminal.

(** ** The text-mode screen *)

(** [vga_buffer.rs:19-19, !BUFFER_HEIGHT] *)
Definition BUFFER_HEIGHT : nat := 25.
(** [vga_buffer.rs:20-20, !BUFFER_WIDTH] *)
Definition BUFFER_WIDTH : nat := 80.
(** [vga_buffer.rs:52-54, !ColorCode::new]: the colors are their numbers. *)
Definition color_code_new (fg bg : Z) : Z := Z.lor (wrap8 (Z.shiftl bg 4)) fg.
(** [vga_buffer.rs:60-63, ScreenChar] *)
Record ScreenChar := SC { ascii_character : Z; color_code : Z }.
(** [vga_buffer.rs:74-78, Writer] *)
Record Writer := MkWriter { column_position : nat; w_color : Z; chars : list (list ScreenChar) }.
Definition set_chars (c : list (list ScreenChar)) (w : Writer) : Writer := MkWriter (column_position w) (w_color w) c.
Definition set_column (n : nat) (w : Writer) : Writer := MkWriter n (w_color w) (chars w).
Definition blank (w : Writer) : ScreenChar := SC 32 (w_color w).

(** [vga_buffer.rs:113-115, set_color] *)
Definition set_color (fg bg : Z) (w : Writer) : Writer := MkWriter (column_position w) (color_code_new fg bg) (chars w).
(** [vga_buffer.rs:131-139, clear_row] *)
Definition clear_row (row : nat) (w : Writer) : Writer := set_chars (<[row := replicate BUFFER_WIDTH (blank w)]> (chars w)) w.
(** [vga_buffer.rs:119-128, new_line] *)
Definition new_line (w : Writer) : Writer :=
  let up := foldl (λ rs row, <[(row - 1)%nat := nth row rs []]> rs) (chars w) (seq 1 (BUFFER_HEIGHT - 1)) in
  set_column 0 (clear_row (BUFFER_HEIGHT - 1) (set_chars up w)).
(** [vga_buffer.rs:142-147, clear_screen] *)
Definition clear_screen (w : Writer) : Writer := set_column 0 (foldl (λ w row, clear_row row w) w (seq 0 BUFFER_HEIGHT)).
(** [self.buffer.chars[row][col].write(c)] *)
Definition write_cell (row col : nat) (c : ScreenChar) : stm Writer Empty_set unit := λ w,
  match chars w !! row with
  | Some r => if decide (col < length r)%nat then (Ok tt, set_chars (<[row := <[col := c]> r]> (chars w)) w) else (Panic, w)
  | None => (Panic, w)
  end.
(** [vga_buffer.rs:82-99, write_byte] *)
Definition write_byte (b : Z) : stm Writer Empty_set unit := λ w,
  if b =? 10 then (Ok tt, new_line w) else
  let w := if decide (BUFFER_WIDTH ≤ column_position w)%nat then new_line w else w in
  (let! _ := write_cell (BUFFER_HEIGHT - 1) (column_position w) (SC b (w_color w)) in
   smodify (λ w, set_column (S (column_position w)) w)) w.
Definition printable (b : Z) : Z := if ((0x20 <=? b) && (b <=? 0x7e)) || (b =? 10) then b else 0xfe.
(** [vga_buffer.rs:103-110, write_string]: the bytes of the string. *)
Definition write_string (s : bytes) : stm Writer Empty_set unit := sfor s (λ b, write_byte (printable b)).

(** ** Where output goes *)

(** The statics [WRITER] and [CAPTURE], the framebuffer and its console, the terminals, and what
    has gone out of the serial port. *)
Record output := Out {
  o_vga : Writer; o_capture : gmap Z (list Z); o_gfx : Framebuffer.gfx; o_terms : Terminal.pool; o_serial : list Z }.
Definition set_capture (m : gmap Z (list Z)) (o : output) : output := Out (o_vga o) m (o_gfx o) (o_terms o) (o_serial o).

(** [vga_buffer.rs:181-186, capture_begin]: by the current task. *)
Definition capture_begin (tid : Z) (o : output) : output := set_capture (<[tid := []]> (o_capture o)) o.
(** [vga_buffer.rs:189-192, capture_end] *)
Definition capture_end (tid : Z) (o : output) : option (list Z) * output :=
  (o_capture o !! tid, set_capture (delete tid (o_capture o)) o).
(** [serial.rs:26-36, !_print] *)
Definition serial_print (s : list Z) (o : output) : output :=
  Out (o_vga o) (o_capture o) (o_gfx o) (o_terms o) (o_serial o ++ s).

Section font.
Context `{Font}.
Definition on_vga (f : stm Writer Empty_set unit) : stm output Empty_set unit := λ o,
  let p := f (o_vga o) in (p.1, Out p.2 (o_capture o) (o_gfx o) (o_terms o) (o_serial o)).
Definition on_gfx (f : stm Framebuffer.gfx Empty_set unit) : stm output Empty_set unit := λ o,
  let p := f (o_gfx o) in (p.1, Out (o_vga o) (o_capture o) p.2 (o_terms o) (o_serial o)).
Definition on_terms (f : stm Terminal.pool Empty_set unit) : stm output Empty_set unit := λ o,
  let p := f (o_terms o) in (p.1, Out (o_vga o) (o_capture o) (o_gfx o) p.2 (o_serial o)).
(** [vga_buffer.rs:195-234, _print] *)
Definition print (tid : Z) (s : list Z) : stm output Empty_set unit := λ o,
  match o_capture o !! tid with
  | Some buf => (Ok tt, set_capture (<[tid := buf ++ s]> (o_capture o)) o)
  | None =>
      if Framebuffer.console_active (o_gfx o) then
        if Framebuffer.console_suspended (o_gfx o) then
          if Terminal.is_active (o_terms o) then
            (let! _ := on_terms (Terminal.write_for_current tid s) in smodify (serial_print s)) o
          else (Ok tt, serial_print s o)
        else on_gfx (Framebuffer.console_write_str s) o
      else on_vga (write_string (mjoin (encode_utf8 <$> s))) o
  end.
End font.

(** ** The screen shows the end of what was written *)

Definition screen_ok (w : Writer) : Prop :=
  length (chars w) = BUFFER_HEIGHT ∧ Forall (λ r, length r = BUFFER_WIDTH) (chars w) ∧ (column_position w ≤ BUFFER_WIDTH)%nat.
(** Lines that are full or ended, and the one being written. *)
Definition typed : Type := list (list ScreenChar) * list ScreenChar.
Definition fill_row (c : Z) (r : list ScreenChar) : list ScreenChar := r ++ replicate (BUFFER_WIDTH - length r) (SC 32 c).
Definition type_byte (c : Z) (t : typed) (b : Z) : typed :=
  if b =? 10 then (t.1 ++ [fill_row c t.2], []) else
  if decide (BUFFER_WIDTH ≤ length t.2)%nat then (t.1 ++ [t.2], [SC b c]) else (t.1, t.2 ++ [SC b c]).
(** The last 24 lines and the current one. *)
Definition shows_typed (w : Writer) (c : Z) (t : typed) : Prop :=
  w_color w = c ∧ column_position w = length t.2 ∧ (length t.2 ≤ BUFFER_WIDTH)%nat ∧ (24 ≤ length t.1)%nat ∧
  chars w = drop (length t.1 - 24) t.1 ++ [fill_row c t.2].

Lemma rows_up {A} (rs : list (list A)) : length rs = 25%nat →
  foldl (λ rs row, <[(row - 1)%nat := nth row rs []]> rs) rs (seq 1 24) = drop 1 rs ++ drop 24 rs.
Proof. intros Hl. do 26 (destruct rs as [|? rs]; try done). Qed.

Lemma shows_rows w c t : shows_typed w c t → length (chars w) = 25%nat.
Proof. intros (_&_&_&Hl&->). rewrite length_app, length_drop. simpl. lia. Qed.
Lemma new_line_shows w c t : shows_typed w c t → shows_typed (new_line w) c (t.1 ++ [fill_row c t.2], []).
Proof.
  intros Hs. pose proof (shows_rows _ _ _ Hs) as Hlen. destruct Hs as (Hc&Hcol&Hw&Hl&Hch). unfold new_line, BUFFER_HEIGHT. cbn [Nat.sub].
  rewrite rows_up by done. unfold shows_typed. cbn [fst snd]. split_and!; [done|done|simpl; lia|rewrite length_app; simpl; lia|].
  unfold clear_row, set_column, set_chars, blank. cbn [chars w_color fst snd]. rewrite Hc, length_app. cbn [length].
  rewrite insert_app_r_alt by (rewrite length_drop, Hlen; lia). rewrite length_drop, Hlen. cbn [Nat.sub].
  assert (length (drop 24 (chars w)) = 1%nat) as H1 by (rewrite length_drop; lia). destruct (drop 24 (chars w)) as [|r []] eqn:Hd; [done| |done].
  cbn [insert list_insert]. f_equal. rewrite Hch, skipn_app, drop_drop, length_drop.
  replace (1 - (length t.1 - (length t.1 - 24)))%nat with 0%nat by lia. rewrite drop_0, skipn_app.
  replace (length t.1 + 1 - 24 - length t.1)%nat with 0%nat by lia. rewrite drop_0. do 2 f_equal. lia.
Qed.
Lemma put_shows w c t b : shows_typed w c t → (length t.2 < BUFFER_WIDTH)%nat → ∃ w',
  (let! _ := write_cell (BUFFER_HEIGHT - 1) (column_position w) (SC b (w_color w)) in smodify (λ w, set_column (S (column_position w)) w)) w = (Ok tt, w') ∧
  shows_typed w' c (t.1, t.2 ++ [SC b c]).
Proof.
  intros (Hc&Hcol&Hw&Hl&Hch) Hlt. unfold write_cell, BUFFER_HEIGHT, sbind. cbn [Nat.sub].
  assert (length (drop (length t.1 - 24) t.1) = 24%nat) as H24 by (rewrite length_drop; lia).
  rewrite Hch, list_lookup_middle by done. rewrite decide_True by (unfold fill_row; rewrite length_app, length_replicate; unfold BUFFER_WIDTH in *; lia).
  eexists. split; [done|]. unfold shows_typed. cbn [fst snd]. split_and!; [done|cbn [column_position set_column set_chars]; rewrite length_app, Hcol; simpl; lia|rewrite length_app; simpl; lia|done|].
  cbn [chars set_column set_chars fst snd]. rewrite insert_app_r_alt by lia. rewrite H24. cbn [Nat.sub insert list_insert]. do 2 f_equal.
  unfold fill_row. rewrite Hcol, Hc, insert_app_r_alt, Nat.sub_diag by lia. rewrite length_app. cbn [length].
  replace (BUFFER_WIDTH - length t.2)%nat with (S (BUFFER_WIDTH - (length t.2 + 1))) by lia. cbn. by rewrite <-app_assoc.
Qed.
Lemma byte_shows w c t b : shows_typed w c t → ∃ w', write_byte b w = (Ok tt, w') ∧ shows_typed w' c (type_byte c t b).
Proof.
  intros Hs. pose proof Hs as (Hc&Hcol&Hw&_). unfold write_byte, type_byte. destruct (b =? 10); [eexists; split; [done|by apply new_line_shows]|].
  rewrite Hcol. destruct (decide (BUFFER_WIDTH ≤ length t.2)%nat) as [Hge|Hlt]; [|apply put_shows; [done|lia]].
  assert (fill_row c t.2 = t.2) as Hfull by (unfold fill_row; replace (BUFFER_WIDTH - length t.2)%nat with 0%nat by lia; apply app_nil_r).
  pose proof (new_line_shows w c t Hs) as Hn. rewrite Hfull in Hn. by apply (put_shows _ _ _ b) in Hn; [|simpl; unfold BUFFER_WIDTH; lia].
Qed.

(** The text-mode screen shows the last lines of what was written to it: wrapped
    at eighty columns and at newlines, whatever cannot be printed as a block. *)
Theorem vga_shows_last_lines w s : screen_ok w → ∃ w',
  write_string s (clear_screen w) = (Ok tt, w') ∧
  shows_typed w' (w_color w) (foldl (type_byte (w_color w)) (replicate 24 (fill_row (w_color w) []), []) (printable <$> s)).
Proof.
  intros (Hl&_&_). assert (shows_typed (clear_screen w) (w_color w) (replicate 24 (fill_row (w_color w) []), [])) as Hs.
  { destruct w as [c col rs]. cbn in Hl. do 26 (destruct rs as [|? rs]; try done). unfold shows_typed; split_and!; [done|done|simpl; lia|simpl; lia|reflexivity]. }
  revert Hs. generalize (clear_screen w), (replicate 24 (fill_row (w_color w) []), @nil ScreenChar). unfold write_string.
  induction s as [|b s IH]; intros v t Ht; [by exists v|]. cbn [sfor fmap list_fmap foldl].
  destruct (byte_shows v _ t (printable b) Ht) as (v1&Hr&Hv1). rewrite (sbind_Ok _ _ _ _ _ Hr). by apply IH.
Qed.

(** ** Redirected output *)

Section capture.
Context `{Font}.

(** What tasks do: print, and begin or end a redirection. *)
Inductive event : Type := EPrint (t : Z) (s : list Z) | EBegin (t : Z) | EEnd (t : Z).
Definition by_task (ev : event) : Z := match ev with EPrint t _ | EBegin t | EEnd t => t end.
Definition happen (ev : event) : stm output Empty_set unit :=
  match ev with
  | EPrint t s => print t s
  | EBegin t => smodify (capture_begin t)
  | EEnd t => smodify (λ o, (capture_end t o).2)
  end.
Definition printed (tid : Z) (evs : list event) : list Z :=
  concat ((λ ev, match ev with EPrint t s => if t =? tid then s else [] | _ => [] end) <$> evs).

(** The output without the buffer of [tid]. *)
Definition without (tid : Z) (o : output) : output := set_capture (delete tid (o_capture o)) o.
Definition tagged (tid : Z) (buf : list Z) (o : output) : output := set_capture (<[tid := buf]> (o_capture o)) o.

Lemma tagged_without tid buf o : tagged tid buf (without tid o) = tagged tid buf o.
Proof. unfold tagged, without, set_capture. cbn. by rewrite insert_delete_eq. Qed.
Lemma without_tagged tid buf o : o_capture o !! tid = None → without tid (tagged tid buf o) = o.
Proof. intros Hn. destruct o. unfold tagged, without, set_capture. cbn in *. by rewrite delete_insert_id. Qed.

(** Another task's doings and a buffer do not meet. *)
Lemma happen_other tid buf ev o : by_task ev ≠ tid → o_capture o !! tid = None →
  happen ev (tagged tid buf o) = ((happen ev o).1, tagged tid buf (happen ev o).2) ∧ o_capture (happen ev o).2 !! tid = None.
Proof.
  intros Hne Hn. destruct o as [v c g t sr]. unfold tagged, set_capture in *. destruct ev as [k s|k|k]; cbn in *.
  - unfold print. cbn [o_capture o_gfx o_terms o_vga o_serial]. rewrite lookup_insert_ne by done. destruct (c !! k) as [b|] eqn:Hk.
    { cbn. rewrite insert_insert_ne by done. split; [done|]. by rewrite lookup_insert_ne. }
    destruct (Framebuffer.console_active g); [destruct (Framebuffer.console_suspended g); [destruct (Terminal.is_active t)|]|]; try done.
    unfold on_terms, sbind, smodify. cbn [o_terms o_vga o_capture o_gfx o_serial].
    by destruct (Terminal.write_for_current k s t) as [[[]| | |] p].
  - unfold smodify, capture_begin, set_capture. cbn. rewrite insert_insert_ne by done. split; [done|]. by rewrite lookup_insert_ne.
  - unfold smodify, capture_end, set_capture. cbn. rewrite delete_insert_ne by done. split; [done|]. by rewrite lookup_delete_ne.
Qed.

(** C40: Redirected output is the task's own.  While a task captures its output,
    whatever other tasks print, capture or release in between, it gets exactly what it has
    printed itself, and everything else - screen, terminals, serial port, the others' buffers -
    becomes what it would have become without the task's printing. *)
Theorem capture_isolated tid evs o o1 : Forall (λ ev, by_task ev = tid → ∃ s, ev = EPrint tid s) evs →
  sfor evs happen (capture_begin tid o) = (Ok tt, o1) →
  (capture_end tid o1).1 = Some (printed tid evs) ∧
  sfor (filter (λ ev, by_task ev ≠ tid) evs) happen (without tid o) = (Ok tt, (capture_end tid o1).2).
Proof.
  intros Hevs Hrun. change (capture_begin tid o) with (tagged tid [] o) in Hrun. rewrite <-tagged_without in Hrun.
  assert (o_capture (without tid o) !! tid = None) as Hn by apply lookup_delete_eq. revert Hn Hrun.
  generalize (without tid o). clear o. change (printed tid evs) with ([] ++ printed tid evs). generalize (@nil Z).
  induction Hevs as [|ev evs Hev _ IH]; intros buf o Hn Hrun.
  { injection Hrun as <-. unfold capture_end, tagged. cbn. rewrite lookup_insert_eq, app_nil_r. split; [done|].
    unfold sret. f_equal. symmetry. by apply without_tagged. }
  cbn [sfor] in Hrun. apply sbind_Ok_inv in Hrun as ([]&o2&Hs&Hrun). destruct (decide (by_task ev = tid)) as [Ht|Ht].
  - destruct (Hev Ht) as [s ->]. rewrite filter_cons_False by (intros Hf; by destruct Hf).
    cbn [happen] in Hs. unfold print, tagged in Hs. cbn [set_capture o_capture] in Hs. rewrite lookup_insert_eq in Hs. injection Hs as <-.
    unfold set_capture in Hrun. cbn in Hrun. rewrite insert_insert_eq in Hrun. destruct (IH (buf ++ s) o Hn Hrun) as [Hc Hf].
    split; [|done]. rewrite Hc. unfold printed. cbn. by rewrite Z.eqb_refl, app_assoc.
  - rewrite filter_cons_True by done. destruct (happen_other tid buf ev o Ht Hn) as [He Hn2]. rewrite He in Hs. injection Hs as Hok <-.
    destruct (IH buf _ Hn2 Hrun) as [Hc Hf]. split.
    + rewrite Hc. unfold printed. cbn. do 2 f_equal. destruct ev as [k s|k|k]; [|done|done]. cbn in Ht. by rewrite (proj2 (Z.eqb_neq k tid)).
    + cbn [sfor]. unfold sbind. destruct (happen ev o) as [r o'] eqn:Hh. cbn [fst snd] in *. by subst r.
Qed.
End capture.

(** Two tasks print while the first is captured; the screen belongs to the desktop, so the
    second's text goes to the serial port. *)
Definition demo_events : list event := [EPrint 2 [97]; EPrint 1 [98]; EBegin 3; EPrint 3 [99]; EPrint 2 [100]; EPrint 1 [101]].
Definition demo_output : output :=
  Out (MkWriter 0 10 []) ∅ (Framebuffer.Gfx None (Framebuffer.Console 0 0 0 0 0 0 true) true) Terminal.pool_new [].
Definition demo_after : output := (sfor demo_events happen (capture_begin 1 demo_output)).2.
Example capture_isolated_witness :
  (capture_end 1 demo_after).1 = Some [98; 101] ∧ o_serial demo_after = [97; 100] ∧ o_capture demo_after !! 3 = Some [99].
Proof.
  destruct (capture_isolated 1 demo_events demo_output demo_after) as [Hc _].
  - repeat first [apply Forall_nil_2|apply Forall_cons_2]; intros Ht; try discriminate Ht; by eexists.
  - reflexivity.
  - split; [exact Hc|split; reflexivity].
Defined.
