(* ===== verification/Pci.v ===== *)
(** * The PCI bus (driver/pci.rs)

    Configuration reads through the two ports of mechanism #1, the probing of
    functions and the enumeration of bus 0.  The list of devices is what the
    configuration space says, for every configuration space. *)

From S2P Require Import Prelude.
#[local] Ltac Zify.zify_post_hook ::= Z.to_euclidean_division_equations.

Module Pci.

(** [driver/pci.rs:43-43, !CONFIG_ADDRESS] *)
Definition CONFIG_ADDRESS : Z := 0xCF8.
(** [driver/pci.rs:44-44, !CONFIG_DATA] *)
Definition CONFIG_DATA : Z := 0xCFC.

(** [driver/pci.rs:49-60, PciDevice] *)
Record PciDevice := Device {
  bus : Z; device : Z; function : Z; vendor_id : Z; device_id : Z;
  class_code : Z; subclass : Z; prog_if : Z; revision : Z; bars : list Z }.

(** [driver/pci.rs:64-76, PciDevice::class_name] *)
Definition class_name (d : PciDevice) : string :=
  if (class_code d =? 0x01) && (subclass d =? 0x06) && (prog_if d =? 0x01) then "AHCI SATA controller" else
  if (class_code d =? 0x01) && (subclass d =? 0x08) && (prog_if d =? 0x02) then "NVMe controller" else
  if (class_code d =? 0x02) && (subclass d =? 0x00) then "Ethernet controller" else
  if (class_code d =? 0x03) && (subclass d =? 0x00) then "VGA-compatible controller" else
  if (class_code d =? 0x0C) && (subclass d =? 0x03) then "USB controller" else
  if (class_code d =? 0x06) && (subclass d =? 0x00) then "Host bridge" else
  if (class_code d =? 0x06) && (subclass d =? 0x01) then "ISA bridge" else
  if (class_code d =? 0x06) && (subclass d =? 0x04) then "PCI-to-PCI bridge" else "Unknown".

(** The 32-bit ports. *)
Class Ports32 (P : Type) := { out32 : Z → Z → P → P; in32 : Z → P → Z * P }.

Section pci.
Context {P : Type} `{PP : Ports32 P}.

(** [driver/pci.rs:84-96, pci_config_read] *)
Definition pci_config_read (bus device function offset : Z) (p : P) : Z * P :=
  let address := Z.lor (Z.lor (Z.lor (Z.lor 0x80000000 (Z.shiftl bus 16)) (Z.shiftl device 11)) (Z.shiftl function 8))
                   (Z.land offset 0xFC) in
  in32 CONFIG_DATA (out32 CONFIG_ADDRESS address p).

(** [driver/pci.rs:100-104, device_exists] *)
Definition device_exists (bus device function : Z) (p : P) : bool * P :=
  let r := pci_config_read bus device function 0 p in (negb (Z.land r.1 0xFFFF =? 0xFFFF), r.2).

Fixpoint read_bars (n : nat) (bus device function offset : Z) (p : P) : list Z * P :=
  match n with
  | O => ([], p)
  | S n => let r := pci_config_read bus device function offset p in
           let l := read_bars n bus device function (offset + 4) r.2 in (r.1 :: l.1, l.2)
  end.

(** [driver/pci.rs:107-143, probe_function] *)
Definition probe_function (bus device function : Z) (p : P) : option PciDevice * P :=
  let e := device_exists bus device function p in
  if negb e.1 then (None, e.2) else
  let v0 := pci_config_read bus device function 0x00 e.2 in
  let v8 := pci_config_read bus device function 0x08 v0.2 in
  let b := read_bars 6 bus device function 0x10 v8.2 in
  (Some (Device bus device function (Z.land v0.1 0xFFFF) (Z.land (Z.shiftr v0.1 16) 0xFFFF)
     (Z.land (Z.shiftr v8.1 24) 0xFF) (Z.land (Z.shiftr v8.1 16) 0xFF) (Z.land (Z.shiftr v8.1 8) 0xFF)
     (Z.land v8.1 0xFF) b.1), b.2).

(** The functions of a device; a device with one function only is left after it. *)
Fixpoint scan_functions (fs : list Z) (device : Z) (p : P) : list PciDevice * P :=
  match fs with
  | [] => ([], p)
  | f :: fs =>
      match probe_function 0 device f p with
      | (None, p) => scan_functions fs device p
      | (Some d, p) =>
          if f =? 0 then
            let h := pci_config_read 0 device 0 0x0C p in
            if Z.land (Z.shiftr h.1 16) 0x80 =? 0 then ([d], h.2) else
            let r := scan_functions fs device h.2 in (d :: r.1, r.2)
          else let r := scan_functions fs device p in (d :: r.1, r.2)
      end
  end.
Fixpoint scan_devices (ds : list Z) (p : P) : list PciDevice * P :=
  match ds with
  | [] => ([], p)
  | d :: ds => let r := scan_functions (seqZ 0 8) d p in let s := scan_devices ds r.2 in (r.1 ++ s.1, s.2)
  end.
(** [driver/pci.rs:148-182, init]: the new [DEVICES]. *)
Definition init (p : P) : list PciDevice * P := scan_devices (seqZ 0 32) p.

(** [driver/pci.rs:199-202, read_interrupt_line] *)
Definition read_interrupt_line (dev : PciDevice) (p : P) : Z * P :=
  let r := pci_config_read (bus dev) (device dev) (function dev) 0x3C p in (Z.land r.1 0xFF, r.2).
End pci.

(** [driver/pci.rs:186-188, find_device] *)
Definition find_device (pred : PciDevice → bool) (devices : list PciDevice) : option PciDevice := List.find pred devices.
(** [driver/pci.rs:191-193, list_devices] *)
Definition list_devices (devices : list PciDevice) : list PciDevice := devices.

(** ** The configuration space *)

(** Mechanism #1: a read of the data port yields the dword that the address
    names, when its enable bit is set; nothing changes. *)
Class ConfigLaws (P : Type) `{Ports32 P} := {
  cfg : P → Z → Z → Z → Z → Z;
  cfg_read p a : 0 ≤ a < 2 ^ 32 → Z.testbit a 31 = true → ∃ p',
    in32 CONFIG_DATA (out32 CONFIG_ADDRESS a p) =
      (cfg p (a / 2 ^ 16 mod 2 ^ 8) (a / 2 ^ 11 mod 2 ^ 5) (a / 2 ^ 8 mod 2 ^ 3) (a mod 2 ^ 8 / 4 * 4), p') ∧
    cfg p' = cfg p }.

Section laws.
Context {P : Type} `{CL : ConfigLaws P}.

(** A read of a function's register is the register. *)
Lemma config_read b d f o p : 0 ≤ b < 256 → 0 ≤ d < 32 → 0 ≤ f < 8 → 0 ≤ o < 256 → o mod 4 = 0 →
  ∃ p', pci_config_read b d f o p = (cfg p b d f o, p') ∧ cfg p' = cfg p.
Proof.
  intros Hb Hd Hf Ho Hm. unfold pci_config_read.
  assert (Z.land o 0xFC = o) as ->.
  { change 0xFC with (Z.ldiff (Z.ones 8) (Z.ones 2)). rewrite Z.ldiff_land, Z.land_assoc, Z.land_ones, Z.mod_small by lia.
    rewrite <-Z.ldiff_land, Z.ldiff_ones_r, Z.shiftr_div_pow2, Z.shiftl_mul_pow2 by lia. lia. }
  rewrite !Z.shiftl_mul_pow2 by lia.
  rewrite (lor_add_low 0x80000000 (b * 2 ^ 16) 24) by lia. rewrite (lor_add_low _ (d * 2 ^ 11) 16) by lia.
  rewrite (lor_add_low _ (f * 2 ^ 8) 11) by lia. rewrite (lor_add_low _ o 8) by lia.
  set (a := _ + o). destruct (cfg_read p a) as (p'&Hr&Hp).
  - lia.
  - apply Z.testbit_true; [lia|]. subst a. lia.
  - exists p'. split; [|done]. rewrite Hr. f_equal. subst a. f_equal; lia.
Qed.

(** ** What the space says *)

Definition present (c : Z → Z → Z → Z) (d f : Z) : bool := negb (Z.land (c d f 0) 0xFFFF =? 0xFFFF).
Definition described (c : Z → Z → Z → Z) (d f : Z) : PciDevice :=
  Device 0 d f (c d f 0 mod 2 ^ 16) (c d f 0 / 2 ^ 16 mod 2 ^ 16) (c d f 8 / 2 ^ 24 mod 2 ^ 8) (c d f 8 / 2 ^ 16 mod 2 ^ 8)
    (c d f 8 / 2 ^ 8 mod 2 ^ 8) (c d f 8 mod 2 ^ 8) ((λ i, c d f (0x10 + 4 * i)) <$> seqZ 0 6).
(** The multi-function bit of the header type. *)
Definition multi (c : Z → Z → Z → Z) (d : Z) : bool := negb (Z.land (Z.shiftr (c d 0 0x0C) 16) 0x80 =? 0).
Definition functions_of (c : Z → Z → Z → Z) (d : Z) : list Z :=
  if present c d 0 && negb (multi c d) then [0] else filter (λ f, present c d f = true) (seqZ 0 8).

Lemma low_bits x k m : 0 ≤ k → 0 ≤ m → Z.land (Z.shiftr x k) (Z.ones m) = x / 2 ^ k mod 2 ^ m.
Proof. intros. by rewrite Z.land_ones, Z.shiftr_div_pow2. Qed.

Lemma probe_spec d f p : 0 ≤ d < 32 → 0 ≤ f < 8 → ∃ p', cfg p' = cfg p ∧
  probe_function 0 d f p = (if present (cfg p 0) d f then Some (described (cfg p 0) d f) else None, p').
Proof.
  intros Hd Hf. unfold probe_function, device_exists, present.
  destruct (config_read 0 d f 0 p) as (p1&H1&E1); [lia..|]. rewrite H1. cbn [fst snd].
  destruct (Z.land (cfg p 0 d f 0) 0xFFFF =? 0xFFFF); [exists p1; split; [done|reflexivity]|]. cbn [negb].
  destruct (config_read 0 d f 0 p1) as (p2&H2&E2); [lia..|]. rewrite H2. cbn [fst snd].
  destruct (config_read 0 d f 8 p2) as (p3&H3&E3); [lia..|]. rewrite H3. cbn [fst snd].
  assert (∀ n o q, 0 ≤ o → o + 4 * Z.of_nat n ≤ 256 → o mod 4 = 0 → ∃ q', cfg q' = cfg q ∧
    read_bars n 0 d f o q = ((λ i, cfg q 0 d f (o + 4 * i)) <$> seqZ 0 (Z.of_nat n), q')) as Hbars.
  { induction n as [|n IH]; intros o q Ho Hn Hm; cbn [read_bars]; [by exists q|].
    destruct (config_read 0 d f o q) as (q1&Hq1&Eq1); [lia..|]. rewrite Hq1. cbn [fst snd].
    destruct (IH (o + 4) q1) as (q2&Eq2&Hq2); [lia..|]. rewrite Hq2. cbn [fst snd]. exists q2. split; [congruence|].
    rewrite (seqZ_cons 0 (Z.of_nat (S n))) by lia. cbn [fmap list_fmap]. rewrite Z.mul_0_r, Z.add_0_r. f_equal. f_equal.
    replace (Z.pred (Z.of_nat (S n))) with (Z.of_nat n) by lia. 
    change (Z.succ 0) with 1. replace (seqZ 1 (Z.of_nat n)) with (Z.add 1 <$> seqZ 0 (Z.of_nat n)) by (by rewrite fmap_add_seqZ).
    rewrite <-list_fmap_compose.
    apply list_fmap_ext. intros i x Hx. cbn. rewrite Eq1. f_equal. lia. }
  destruct (Hbars 6%nat 0x10 p3) as (p4&E4&H4); [lia..|]. rewrite H4. exists p4. split; [congruence|].
  cbn [fst snd]. unfold described. rewrite E2, E1. do 2 f_equal.
  change 0xFFFF with (Z.ones 16). change 0xFF with (Z.ones 8). rewrite !low_bits, !Z.land_ones by lia.
  f_equal. apply list_fmap_ext. intros. by rewrite E3, E2, E1.
Qed.

Lemma scan_functions_spec d p n f : 0 ≤ d < 32 → 0 < f → f + Z.of_nat n ≤ 8 → ∃ p', cfg p' = cfg p ∧
  scan_functions (seqZ f (Z.of_nat n)) d p =
    (described (cfg p 0) d <$> filter (λ f, present (cfg p 0) d f = true) (seqZ f (Z.of_nat n)), p').
Proof.
  intros Hd. revert f p. induction n as [|n IH]; intros f p Hf Hn; [by exists p|].
  rewrite seqZ_cons by lia. replace (Z.pred (Z.of_nat (S n))) with (Z.of_nat n) by lia. cbn [scan_functions].
  destruct (probe_spec d f p) as (p1&E1&H1); [lia..|]. rewrite H1. destruct (IH (Z.succ f) p1) as (p2&E2&H2); [lia..|].
  rewrite filter_cons. destruct (present (cfg p 0) d f).
  - rewrite decide_True by done. rewrite (proj2 (Z.eqb_neq f 0)) by lia. rewrite H2. exists p2. split; [congruence|].
    cbn. by rewrite E1.
  - rewrite decide_False by done. rewrite H2. exists p2. split; [congruence|]. by rewrite E1.
Qed.

Lemma scan_device_spec d p : 0 ≤ d < 32 → ∃ p', cfg p' = cfg p ∧
  scan_functions (seqZ 0 8) d p = (described (cfg p 0) d <$> functions_of (cfg p 0) d, p').
Proof.
  intros Hd. rewrite (seqZ_cons 0 8) by lia. change (Z.pred 8) with (Z.of_nat 7). change (Z.succ 0) with 1.
  cbn [scan_functions]. destruct (probe_spec d 0 p) as (p1&E1&H1); [lia..|]. rewrite H1. unfold functions_of.
  rewrite (seqZ_cons 0 8) by lia. change (Z.pred 8) with (Z.of_nat 7). change (Z.succ 0) with 1. rewrite filter_cons.
  destruct (present (cfg p 0) d 0) eqn:Hp.
  - rewrite decide_True by done. cbn [Z.eqb andb].
    destruct (config_read 0 d 0 0x0C p1) as (p2&H2&E2); [lia..|]. rewrite H2. cbn [fst snd]. rewrite E1. unfold multi.
    destruct (_ =? 0); cbn [negb]; [exists p2; split; [congruence|done]|].
    destruct (scan_functions_spec d p2 7 1) as (p3&E3&H3); [lia..|]. rewrite H3. exists p3. split; [congruence|].
    cbn. by rewrite E2, E1.
  - rewrite decide_False by done. cbn [andb]. destruct (scan_functions_spec d p1 7 1) as (p3&E3&H3); [lia..|].
    rewrite H3. exists p3. split; [congruence|]. by rewrite E1.
Qed.

(** The bus is enumerated completely.  Whatever the configuration space of bus
    0 holds, the list of devices is exactly the functions that are there - of a
    device whose function 0 says it is a single-function device that function
    only -, in order, each with the identification, class and base addresses
    that its registers hold; and the space is left as it was. *)
Theorem enumeration p : ∃ p', cfg p' = cfg p ∧
  init p = (mjoin ((λ d, described (cfg p 0) d <$> functions_of (cfg p 0) d) <$> seqZ 0 32), p').
Proof.
  assert (∀ ds p, Forall (λ d, 0 ≤ d < 32) ds → ∃ p', cfg p' = cfg p ∧
    scan_devices ds p = (mjoin ((λ d, described (cfg p 0) d <$> functions_of (cfg p 0) d) <$> ds), p')) as Hscan.
  { clear p. induction ds as [|d ds IH]; intros p Hds; [by exists p|]. apply Forall_cons in Hds as [Hd Hds].
    destruct (scan_device_spec d p Hd) as (p1&E1&H1). destruct (IH p1 Hds) as (p2&E2&H2).
    exists p2. split; [congruence|]. cbn [scan_devices]. rewrite H1. cbn [fst snd]. rewrite H2. cbn. by rewrite E1. }
  apply Hscan. apply Forall_forall. intros d Hd%elem_of_seqZ. lia.
Qed.
End laws.

(** A machine with a host bridge, a disk controller as the third function of a
    multi-function device, and the last address written. *)
Definition demo_space (b d f o : Z) : Z :=
  if (b =? 0) && (d =? 0) && (f =? 0) then (if o =? 0 then 0x12378086 else if o =? 8 then 0x06000002 else 0) else
  if (b =? 0) && (d =? 31) && (f =? 0) then (if o =? 0 then 0x29188086 else if o =? 8 then 0x06010002 else
    if o =? 0x0C then 0x800000 else 0) else
  if (b =? 0) && (d =? 31) && (f =? 2) then (if o =? 0 then 0x29228086 else if o =? 8 then 0x01060102 else
    if o =? 0x24 then 0xFEBF1000 else 0) else 0xFFFFFFFF.
#[local] Instance demo_ports : Ports32 Z := {
  out32 _ a _ := a;
  in32 _ a := (demo_space (a / 2 ^ 16 mod 2 ^ 8) (a / 2 ^ 11 mod 2 ^ 5) (a / 2 ^ 8 mod 2 ^ 3) (a mod 2 ^ 8 / 4 * 4), a) }.
#[local] Instance demo_config : ConfigLaws Z.
Proof. refine {| cfg := λ _, demo_space |}. intros p a _ _. by eexists. Defined.

Example ahci_found :
  (λ d, (device d, function d, class_name d, nth 5 (bars d) 0)) <$>
    find_device (λ d, (class_code d =? 1) && (subclass d =? 6)) (init 0).1 = Some (31, 2, "AHCI SATA controller"%string, 0xFEBF1000) ∧
  length (init 0).1 = 3%nat.
Proof. vm_compute. auto. Qed.
Example enumeration_witness : ∃ p', init 0 =
  (mjoin ((λ d, described (demo_space 0) d <$> functions_of (demo_space 0) d) <$> seqZ 0 32), p').
Proof. destruct (enumeration 0) as (p'&_&H). exact (ex_intro _ p' H). Defined.
End Pci.
