(* ===== verification/E1000.v ===== *)
(** * The network card driver (driver/e1000.rs)

    An Intel 82540EM with its two descriptor rings in DMA memory.  The card is a
    class: registers and what it does in memory on its own, with the one law that
    it behaves as the ring machine of its manual ([hw_step]); the driver is the
    code.  What is sent is what was handed to the driver, in order, and what the
    driver hands out is what the card received - but the first packet is left
    behind, and sixteen packets handed over at once are never sent. *)

From S2P Require Import Prelude Frames Pci.

Module E1000.

(** [driver/e1000.rs:27-28, !E1000_VENDOR] *)
Definition E1000_VENDOR : Z := 0x8086.
Definition E1000_DEVICE_82540EM : Z := 0x100E.
(** [driver/e1000.rs:31-51, !REG_CTRL] *)
Definition REG_CTRL : Z := 0x0000.
Definition REG_STATUS : Z := 0x0008.
Definition REG_EEPROM : Z := 0x0014.
Definition REG_ICR : Z := 0x00C0.
Definition REG_IMC : Z := 0x00D8.
Definition REG_RCTL : Z := 0x0100.
Definition REG_TCTL : Z := 0x0400.
Definition REG_TIPG : Z := 0x0410.
Definition REG_RDBAL : Z := 0x2800.
Definition REG_RDBAH : Z := 0x2804.
Definition REG_RDLEN : Z := 0x2808.
Definition REG_RDH : Z := 0x2810.
Definition REG_RDT : Z := 0x2818.
Definition REG_TDBAL : Z := 0x3800.
Definition REG_TDBAH : Z := 0x3804.
Definition REG_TDLEN : Z := 0x3808.
Definition REG_TDH : Z := 0x3810.
Definition REG_TDT : Z := 0x3818.
Definition REG_MTA : Z := 0x5200.
(** [driver/e1000.rs:54-55, !CTRL_RST] *)
Definition CTRL_RST : Z := 2 ^ 26.
Definition CTRL_SLU : Z := 2 ^ 6.
(** [driver/e1000.rs:58-64, !RCTL_EN] *)
Definition RCTL_EN : Z := 2 ^ 1.
Definition RCTL_SBP : Z := 2 ^ 2.
Definition RCTL_UPE : Z := 2 ^ 3.
Definition RCTL_MPE : Z := 2 ^ 4.
Definition RCTL_BAM : Z := 2 ^ 15.
Definition RCTL_BSIZE_2048 : Z := 0.
Definition RCTL_SECRC : Z := 2 ^ 26.
(** [driver/e1000.rs:67-70, !TCTL_EN] *)
Definition TCTL_EN : Z := 2 ^ 1.
Definition TCTL_PSP : Z := 2 ^ 3.
Definition TCTL_CT_SHIFT : Z := 4.
Definition TCTL_COLD_SHIFT : Z := 12.
(** [driver/e1000.rs:73-81, !RX_DESC_DD] *)
Definition RX_DESC_DD : Z := 2 ^ 0.
Definition RX_DESC_EOP : Z := 2 ^ 1.
Definition TX_DESC_CMD_EOP : Z := 2 ^ 0.
Definition TX_DESC_CMD_RS : Z := 2 ^ 3.
Definition TX_DESC_STA_DD : Z := 2 ^ 0.
(** [driver/e1000.rs:84-91, !NUM_RX_DESC] *)
Definition NUM_RX_DESC : Z := 32.
Definition NUM_TX_DESC : Z := 16.
Definition RX_BUFFER_SIZE : Z := 2048.
Definition TX_BUFFER_SIZE : Z := 2048.

(** [driver/e1000.rs:96-103, RxDesc]: the address of the [i]-th descriptor of a ring
    and its fields there; the transmit descriptors have theirs at the same places,
    with the command for the upper half of the checksum. *)
Definition desc (ring i : Z) : Z := ring + 16 * i.
(** [driver/e1000.rs:108-116, TxDesc] *)
Definition F_ADDR : Z := 0.
Definition F_LENGTH : Z := 8.
Definition F_CMD : Z := 11.
Definition F_STATUS : Z := 12.

(** [driver/e1000.rs:119-128, E1000] *)
Record E1000 := Nic {
  bar0 : Z; mac : list Z; rx_descs : Z; rx_buffers : list Z; rx_tail : Z;
  tx_descs : Z; tx_buffers : list Z; tx_tail : Z }.
Definition set_rx_tail (n : Z) (e : E1000) : E1000 :=
  Nic (bar0 e) (mac e) (rx_descs e) (rx_buffers e) n (tx_descs e) (tx_buffers e) (tx_tail e).
Definition set_tx_tail (n : Z) (e : E1000) : E1000 :=
  Nic (bar0 e) (mac e) (rx_descs e) (rx_buffers e) (rx_tail e) (tx_descs e) (tx_buffers e) n.

(** What [mmio::read_u32(...).unwrap_or(0)] and [mmio::write_u32] do under the
    kernel's guard: the card may go on with its work, in memory as well. *)
Class NicHw (D : Type) := {
  nic_read : Z → D → mem → Z * (D * mem);
  nic_write : Z → Z → D → mem → D * mem }.

(** [driver/e1000.rs:405-405, !DEVICE]: the card as the driver knows it, the DMA pool
    with its memory, and the card. *)
Record nic (D : Type) := State { device : option E1000; n_dma : dma_state; n_dev : D }.
Arguments State {D}.
Arguments device {D}.
Arguments n_dma {D}.
Arguments n_dev {D}.

Section driver.
Context {D : Type} `{HB : NicHw D}.
Abbreviation drv := (stm (nic D) string).
Implicit Types s : nic D.

Definition set_hw (r : D * mem) s : nic D := State (device s) (DmaState (dma_pool (n_dma s)) r.2) r.1.
Definition set_dma (d : dma_state) s : nic D := State (device s) d (n_dev s).
Definition set_device (e : E1000) s : nic D := State (Some e) (n_dma s) (n_dev s).
Definition on_mem (f : mem → mem) : drv unit :=
  smodify (λ s, set_dma (DmaState (dma_pool (n_dma s)) (f (dma_mem (n_dma s)))) s).
Definition poke (n : nat) (a v : Z) : drv unit := on_mem (store n a v).
Definition peek (n : nat) (a : Z) : drv Z := λ s, (Ok (load n a (dma_mem (n_dma s))), s).

(** [driver/e1000.rs:379-381, mmio_read32] *)
Definition mmio_read32 (bar0 offset : Z) : drv Z := λ s,
  let r := nic_read (bar0 + offset) (n_dev s) (dma_mem (n_dma s)) in (Ok r.1, set_hw r.2 s).
(** [driver/e1000.rs:384-386, mmio_write32] *)
Definition mmio_write32 (bar0 offset value : Z) : drv unit :=
  smodify (λ s, set_hw (nic_write (bar0 + offset) value (n_dev s) (dma_mem (n_dma s))) s).

(** [dma::alloc_dma(size).ok_or(e)?] *)
Definition alloc_or (size : Z) (e : string) : drv (Z * Z) := λ s,
  match alloc_dma size (n_dma s) with
  | (Ok (Some (virt, phys, _)), d) => (Ok (virt, phys), set_dma d s)
  | (Ok None, d) => (Err e, set_dma d s)
  | (_, d) => (Panic, set_dma d s)
  end.

(** ** Bring-up *)

(** The wait for the EEPROM. *)
Fixpoint eeprom_wait (n : nat) (bar0 : Z) : drv Z :=
  match n with
  | O => sret 0
  | S n => let! val := mmio_read32 bar0 REG_EEPROM in
           if Z.testbit val 4 then sret (Z.land (Z.shiftr val 16) 0xFFFF) else eeprom_wait n bar0
  end.
(** [driver/e1000.rs:227-241, read_eeprom_word] *)
Definition read_eeprom_word (bar0 offset : Z) : drv Z :=
  let! _ := mmio_write32 bar0 REG_EEPROM (Z.lor (Z.shiftl offset 8) 1) in eeprom_wait 1000 bar0.
(** [driver/e1000.rs:210-224, read_mac_address] *)
Definition read_mac_address (bar0 : Z) : drv (list Z) :=
  let! mac_low := read_eeprom_word bar0 0 in
  let! mac_mid := read_eeprom_word bar0 1 in
  let! mac_high := read_eeprom_word bar0 2 in
  sret [Z.land mac_low 0xFF; Z.land (Z.shiftr mac_low 8) 0xFF; Z.land mac_mid 0xFF; Z.land (Z.shiftr mac_mid 8) 0xFF;
        Z.land mac_high 0xFF; Z.land (Z.shiftr mac_high 8) 0xFF].

Fixpoint alloc_buffers (n : nat) (e : string) : drv (list Z) :=
  match n with
  | O => sret []
  | S n => let! b := alloc_or RX_BUFFER_SIZE e in let! bs := alloc_buffers n e in sret (b.2 :: bs)
  end.
(** The descriptors of a ring, one per buffer. *)
Fixpoint init_descs (ring i : Z) (bufs : list Z) (status : Z) : drv unit :=
  match bufs with
  | [] => sret tt
  | b :: bufs => let! _ := poke 8 (desc ring i + F_ADDR) b in
                 let! _ := poke 1 (desc ring i + F_STATUS) status in init_descs ring (i + 1) bufs status
  end.

(** [driver/e1000.rs:244-300, hw_init]: the busy wait takes no part in the state. *)
Definition hw_init (e : E1000) : drv unit :=
  let write := mmio_write32 (bar0 e) in
  let! _ := write REG_CTRL CTRL_RST in
  let! _ := write REG_IMC 0xFFFFFFFF in
  let! _ := mmio_read32 (bar0 e) REG_ICR in
  let! ctrl := mmio_read32 (bar0 e) REG_CTRL in
  let! _ := write REG_CTRL (Z.lor ctrl CTRL_SLU) in
  let! _ := sfor (seqZ 0 128) (λ i, write (REG_MTA + i * 4) 0) in
  let! _ := write REG_RDBAH (wrap32 (Z.shiftr (rx_descs e) 32)) in
  let! _ := write REG_RDBAL (wrap32 (rx_descs e)) in
  let! _ := write REG_RDLEN (NUM_RX_DESC * 16) in
  let! _ := write REG_RDH 0 in
  let! _ := write REG_RDT (NUM_RX_DESC - 1) in
  let! _ := write REG_RCTL (Z.lor RCTL_EN (Z.lor RCTL_SBP (Z.lor RCTL_UPE (Z.lor RCTL_MPE
              (Z.lor RCTL_BAM (Z.lor RCTL_BSIZE_2048 RCTL_SECRC)))))) in
  let! _ := write REG_TDBAH (wrap32 (Z.shiftr (tx_descs e) 32)) in
  let! _ := write REG_TDBAL (wrap32 (tx_descs e)) in
  let! _ := write REG_TDLEN (NUM_TX_DESC * 16) in
  let! _ := write REG_TDH 0 in
  let! _ := write REG_TDT 0 in
  let! _ := write REG_TIPG 0x00702008 in
  let! _ := write REG_TCTL (Z.lor TCTL_EN (Z.lor TCTL_PSP (Z.lor (Z.shiftl 0x0F TCTL_CT_SHIFT) (Z.shiftl 0x40 TCTL_COLD_SHIFT)))) in
  let! _ := mmio_read32 (bar0 e) REG_STATUS in
  sret tt.

(** [driver/e1000.rs:132-207, E1000::new] *)
Definition new (pci_dev : Pci.PciDevice) : drv E1000 :=
  let bar0 := Z.land (nth 0 (Pci.bars pci_dev) 0) (2 ^ 64 - 1 - 0xF) in
  if bar0 =? 0 then sthrow "E1000 BAR0 not configured"%string else
  let! mac := read_mac_address bar0 in
  let! rx := alloc_or (NUM_RX_DESC * 16) "Failed to allocate RX descriptor ring"%string in
  let! rx_buffers := alloc_buffers (Z.to_nat NUM_RX_DESC) "Failed to allocate RX buffer"%string in
  let! _ := init_descs rx.1 0 rx_buffers 0 in
  let! tx := alloc_or (NUM_TX_DESC * 16) "Failed to allocate TX descriptor ring"%string in
  let! tx_buffers := alloc_buffers (Z.to_nat NUM_TX_DESC) "Failed to allocate TX buffer"%string in
  let! _ := init_descs tx.1 0 tx_buffers TX_DESC_STA_DD in
  let dev := Nic bar0 mac rx.2 rx_buffers 0 tx.2 tx_buffers 0 in
  let! _ := hw_init dev in
  sret dev.

(** ** Packets *)

(** [driver/e1000.rs:303-339, E1000::transmit] *)
Definition nic_transmit (e : E1000) (data : bytes) : drv E1000 :=
  if TX_BUFFER_SIZE <? Z.of_nat (length data) then sthrow "Packet too large"%string else
  let tail := tx_tail e in
  let d := desc (dma_phys_to_virt (tx_descs e)) tail in
  let! status := peek 1 (d + F_STATUS) in
  if Z.land status TX_DESC_STA_DD =? 0 then sthrow "TX ring full"%string else
  let! _ := on_mem (store_bytes (dma_phys_to_virt (nth (Z.to_nat tail) (tx_buffers e) 0)) data) in
  let! _ := poke 2 (d + F_LENGTH) (wrap16 (Z.of_nat (length data))) in
  let! _ := poke 1 (d + F_CMD) (Z.lor TX_DESC_CMD_EOP TX_DESC_CMD_RS) in
  let! _ := poke 1 (d + F_STATUS) 0 in
  let next_tail := (tail + 1) mod NUM_TX_DESC in
  let! _ := mmio_write32 (bar0 e) REG_TDT next_tail in
  sret (set_tx_tail next_tail e).

(** [driver/e1000.rs:342-376, E1000::receive] *)
Definition nic_receive (e : E1000) : drv (option (bytes * E1000)) :=
  let next_rx := (rx_tail e + 1) mod NUM_RX_DESC in
  let d := desc (dma_phys_to_virt (rx_descs e)) next_rx in
  let! status := peek 1 (d + F_STATUS) in
  if Z.land status RX_DESC_DD =? 0 then sret None else
  let! raw_len := peek 2 (d + F_LENGTH) in
  let len := Z.min raw_len RX_BUFFER_SIZE in
  let! packet := λ s, (Ok (load_bytes (Z.to_nat len) (dma_phys_to_virt (nth (Z.to_nat next_rx) (rx_buffers e) 0)) (dma_mem (n_dma s))), s) in
  let! _ := poke 1 (d + F_STATUS) 0 in
  let! _ := mmio_write32 (bar0 e) REG_RDT next_rx in
  sret (Some (packet, set_rx_tail next_rx e)).

(** ** The device behind its lock *)

(** [driver/e1000.rs:408-427, init]: [devices] is the bus. *)
Definition init (devices : list Pci.PciDevice) : drv unit :=
  match Pci.find_device (λ d, (Pci.vendor_id d =? E1000_VENDOR) && (Pci.device_id d =? E1000_DEVICE_82540EM)) devices with
  | None => sthrow "E1000 device not found"%string
  | Some pci_dev => let! dev := new pci_dev in smodify (set_device dev)
  end.
(** [driver/e1000.rs:430-438, transmit] *)
Definition transmit (data : bytes) : drv unit := λ s,
  match device s with
  | Some e => (let! e := nic_transmit e data in smodify (set_device e)) s
  | None => (Err "E1000 not initialized"%string, s)
  end.
(** [driver/e1000.rs:441-449, receive] *)
Definition receive : drv (option bytes) := λ s,
  match device s with
  | Some e => (let! r := nic_receive e in
               match r with
               | Some (packet, e) => let! _ := smodify (set_device e) in sret (Some packet)
               | None => sret None
               end) s
  | None => (Ok None, s)
  end.
(** [driver/e1000.rs:452-455, mac_address] *)
Definition mac_address s : option (list Z) := mac <$> device s.
End driver.
End E1000.
