(* ===== verification/E1000Props.v ===== *)
(** * Theorems about the network card driver

    The card as the ring machine of its manual, the laws that tie a card to it, and
    the invariant of the driver and the machine together. *)

From S2P Require Import Prelude Frames Pci E1000.
Import E1000.
#[local] Ltac Zify.zify_post_hook ::= idtac.

(** ** The ring machine *)

(** The registers of the two rings, and what went over the wire. *)
Record ring := Ring {
  tdbal : Z; tdbah : Z; tdlen : Z; tdh : Z; tdt : Z; tx_on : bool;
  rdbal : Z; rdbah : Z; rdlen : Z; rdh : Z; rdt : Z; rx_on : bool;
  sent : list bytes; received : list bytes }.
Definition tdba (r : ring) : Z := tdbal r + 2 ^ 32 * tdbah r.
Definition rdba (r : ring) : Z := rdbal r + 2 ^ 32 * rdbah r.

(** A write to a register. *)
Definition set_reg (off v : Z) (r : ring) : ring :=
  let 'Ring tbl tbh tl th tail ton rbl rbh rl rh rt ron sn rc := r in
  if off =? REG_CTRL then if Z.testbit v 26 then Ring 0 0 0 0 0 false 0 0 0 0 0 false sn rc else r else
  if off =? REG_TDBAL then Ring v tbh tl th tail ton rbl rbh rl rh rt ron sn rc else
  if off =? REG_TDBAH then Ring tbl v tl th tail ton rbl rbh rl rh rt ron sn rc else
  if off =? REG_TDLEN then Ring tbl tbh v th tail ton rbl rbh rl rh rt ron sn rc else
  if off =? REG_TDH then Ring tbl tbh tl v tail ton rbl rbh rl rh rt ron sn rc else
  if off =? REG_TDT then Ring tbl tbh tl th v ton rbl rbh rl rh rt ron sn rc else
  if off =? REG_TCTL then Ring tbl tbh tl th tail (Z.testbit v 1) rbl rbh rl rh rt ron sn rc else
  if off =? REG_RDBAL then Ring tbl tbh tl th tail ton v rbh rl rh rt ron sn rc else
  if off =? REG_RDBAH then Ring tbl tbh tl th tail ton rbl v rl rh rt ron sn rc else
  if off =? REG_RDLEN then Ring tbl tbh tl th tail ton rbl rbh v rh rt ron sn rc else
  if off =? REG_RDH then Ring tbl tbh tl th tail ton rbl rbh rl v rt ron sn rc else
  if off =? REG_RDT then Ring tbl tbh tl th tail ton rbl rbh rl rh v ron sn rc else
  if off =? REG_RCTL then Ring tbl tbh tl th tail ton rbl rbh rl rh rt (Z.testbit v 1) sn rc else r.

(** The descriptor at the head of a ring. *)
Definition tx_head (r : ring) : Z := desc (dma_phys_to_virt (tdba r)) (tdh r).
Definition rx_head (r : ring) : Z := desc (dma_phys_to_virt (rdba r)) (rdh r).
Definition sent_one (b : bytes) (r : ring) : ring :=
  Ring (tdbal r) (tdbah r) (tdlen r) ((tdh r + 1) mod (tdlen r / 16)) (tdt r) (tx_on r)
       (rdbal r) (rdbah r) (rdlen r) (rdh r) (rdt r) (rx_on r) (sent r ++ [b]) (received r).
Definition received_one (b : bytes) (r : ring) : ring :=
  Ring (tdbal r) (tdbah r) (tdlen r) (tdh r) (tdt r) (tx_on r)
       (rdbal r) (rdbah r) (rdlen r) ((rdh r + 1) mod (rdlen r / 16)) (rdt r) (rx_on r) (sent r) (received r ++ [b]).

(** The card owns the descriptors from the head up to the tail: it sends the packet
    of the first, or fills the first with a packet, marks it done and moves the
    head.  What it does with a transmit command other than the driver's is open. *)
Inductive hw_step : ring * mem → ring * mem → Prop :=
| hw_send r m st :
    tx_on r = true → tdh r ≠ tdt r → 0 ≤ st < 256 → Z.land st TX_DESC_STA_DD ≠ 0 → load 1 (tx_head r + F_CMD) m = Z.lor TX_DESC_CMD_EOP TX_DESC_CMD_RS →
    hw_step (r, m)
      (sent_one (load_bytes (Z.to_nat (load 2 (tx_head r + F_LENGTH) m)) (dma_phys_to_virt (load 8 (tx_head r) m)) m) r,
       store 1 (tx_head r + F_STATUS) st m)
| hw_other r m x :
    tx_on r = true → tdh r ≠ tdt r → load 1 (tx_head r + F_CMD) m ≠ Z.lor TX_DESC_CMD_EOP TX_DESC_CMD_RS →
    hw_step (r, m) x
| hw_recv r m b st :
    rx_on r = true → rdh r ≠ rdt r → 0 ≤ st < 256 → Z.land st RX_DESC_DD ≠ 0 → Z.of_nat (length b) ≤ RX_BUFFER_SIZE →
    hw_step (r, m)
      (received_one b r,
       store 1 (rx_head r + F_STATUS) st
         (store 2 (rx_head r + F_LENGTH) (Z.of_nat (length b)) (store_bytes (dma_phys_to_virt (load 8 (rx_head r) m)) b m))).
Abbreviation hw_steps := (rtc hw_step).

(** A card: its registers' base and its rings, and that it is the machine above. *)
Class NicView (D : Type) := { nic_bar : D → Z; nic_ring : D → ring }.
Class NicLaws (D : Type) `{NicHw D} `{!NicView D} : Prop := {
  nic_read_law a (d : D) m v d' m' : nic_read a d m = (v, (d', m')) →
    nic_bar d' = nic_bar d ∧ hw_steps (nic_ring d, m) (nic_ring d', m');
  nic_write_law off v (d : D) m d' m' : nic_write (nic_bar d + off) v d m = (d', m') →
    nic_bar d' = nic_bar d ∧ hw_steps (set_reg off v (nic_ring d), m) (nic_ring d', m') }.

(** ** The layout of the DMA memory *)

Definition rxd (o i : Z) : Z := DMA_POOL_VIRT_BASE + o + 16 * i.
Definition rxb (o i : Z) : Z := DMA_POOL_VIRT_BASE + o + 4096 * (i + 1).
Definition txd (o i : Z) : Z := DMA_POOL_VIRT_BASE + o + 4096 * 33 + 16 * i.
Definition txb (o i : Z) : Z := DMA_POOL_VIRT_BASE + o + 4096 * (i + 34).
Definition rx_phys (o : Z) : list Z := (λ i, DMA_POOL_PHYS_BASE + o + 4096 * (i + 1)) <$> seqZ 0 32.
Definition tx_phys (o : Z) : list Z := (λ i, DMA_POOL_PHYS_BASE + o + 4096 * (i + 34)) <$> seqZ 0 16.
Record laid_out (o : Z) (e : E1000) : Prop := {
  lo_room : 0 ≤ o ∧ o + 4096 * 50 ≤ DMA_POOL_SIZE;
  lo_rxd : rx_descs e = DMA_POOL_PHYS_BASE + o;
  lo_rxb : rx_buffers e = rx_phys o;
  lo_txd : tx_descs e = DMA_POOL_PHYS_BASE + (o + 4096 * 33);
  lo_txb : tx_buffers e = tx_phys o }.

(** The packets waiting in the ring, from the head on, and that they are there. *)
Definition slot (h j : Z) : Z := (h + j) mod 16.
Record tx_slot (o i : Z) (b : bytes) (m : mem) : Prop := {
  ts_status : load 1 (txd o i + F_STATUS) m = 0;
  ts_cmd : load 1 (txd o i + F_CMD) m = Z.lor TX_DESC_CMD_EOP TX_DESC_CMD_RS;
  ts_length : load 2 (txd o i + F_LENGTH) m = Z.of_nat (length b);
  ts_small : Z.of_nat (length b) ≤ TX_BUFFER_SIZE;
  ts_bytes : load_bytes (length b) (txb o i) m = b }.
Record tx_window (o h : Z) (pending : list bytes) (m : mem) : Prop := {
  tw_count : (length pending ≤ 16)%nat;
  tw_addr i : 0 ≤ i < 16 → load 8 (txd o i) m = DMA_POOL_PHYS_BASE + o + 4096 * (i + 34);
  tw_slot j b : pending !! j = Some b → tx_slot o (slot h (Z.of_nat j)) b m;
  tw_free j : Z.of_nat (length pending) ≤ j < 16 → Z.land (load 1 (txd o (slot h j) + F_STATUS) m) TX_DESC_STA_DD ≠ 0 }.
(** A receive descriptor marked done holds a packet that came in. *)
Record rx_window (o : Z) (got : list bytes) (m : mem) : Prop := {
  rw_addr i : 0 ≤ i < 32 → load 8 (rxd o i) m = DMA_POOL_PHYS_BASE + o + 4096 * (i + 1);
  rw_done i : 0 ≤ i < 32 → Z.land (load 1 (rxd o i + F_STATUS) m) RX_DESC_DD = 0 ∨
    ∃ b, b ∈ got ∧ Z.of_nat (length b) ≤ RX_BUFFER_SIZE ∧ load 2 (rxd o i + F_LENGTH) m = Z.of_nat (length b) ∧
      load_bytes (length b) (rxb o i) m = b }.

Record tx_regs (o : Z) (r : ring) : Prop := {
  tr_base : tdba r = DMA_POOL_PHYS_BASE + (o + 4096 * 33);
  tr_len : tdlen r = 256; tr_head : 0 ≤ tdh r < 16 }.
Record rx_regs (o : Z) (r : ring) : Prop := {
  rr_base : rdba r = DMA_POOL_PHYS_BASE + o;
  rr_len : rdlen r = 512; rr_head : 0 ≤ rdh r < 32 }.

(** The card's side of the invariant: the packets handed over are those sent and
    those waiting. *)
Record ring_ok (o : Z) (accepted : list bytes) (x : ring * mem) : Prop := {
  ro_tx : tx_regs o x.1; ro_rx : rx_regs o x.1;
  ro_window : ∃ pending, accepted = sent x.1 ++ pending ∧ tx_window o (tdh x.1) pending x.2 ∧
                tdt x.1 = slot (tdh x.1) (Z.of_nat (length pending));
  ro_received : rx_window o (received x.1) x.2 }.

Definition room (o : Z) : Prop := 0 ≤ o ∧ o + 4096 * 50 ≤ DMA_POOL_SIZE.
Ltac places := unfold txd, txb, rxd, rxb, F_ADDR, F_CMD, F_STATUS, F_LENGTH, TX_BUFFER_SIZE, RX_BUFFER_SIZE in *.

Lemma slot_bounds h j : 0 ≤ slot h j < 16.
Proof. apply Z.mod_pos_bound. lia. Qed.
Lemma slot_inj h i j : 0 ≤ i < 16 → 0 ≤ j < 16 → slot h i = slot h j → i = j.
Proof. unfold slot. Z.to_euclidean_division_equations. lia. Qed.
Lemma slot_succ h j : slot ((h + 1) mod 16) j = slot h (j + 1).
Proof. unfold slot. rewrite Zplus_mod_idemp_l. f_equal. lia. Qed.
Lemma slot_zero h : 0 ≤ h < 16 → slot h 0 = h.
Proof. intros. unfold slot. rewrite Z.add_0_r. by apply Z.mod_small. Qed.

(** ** What the stores leave alone *)

(** Memory that agrees on the transmit part, or on the receive part. *)
Definition same_tx (o : Z) (m m' : mem) : Prop :=
  ∀ x, DMA_POOL_VIRT_BASE + o + 4096 * 33 ≤ x < DMA_POOL_VIRT_BASE + o + 4096 * 50 → m' x = m x.
Definition same_rx (o : Z) (m m' : mem) : Prop :=
  ∀ x, DMA_POOL_VIRT_BASE + o ≤ x < DMA_POOL_VIRT_BASE + o + 4096 * 33 → m' x = m x.

Lemma load_ext n a m m' : (∀ x, a ≤ x < a + Z.of_nat n → m' x = m x) → load n a m' = load n a m.
Proof. intros. unfold load. f_equal. by apply load_bytes_ext. Qed.

Lemma tx_slot_frame o i b m m' :
  (∀ x, txd o i ≤ x < txd o i + 16 ∨ txb o i ≤ x < txb o i + 2048 → m' x = m x) → tx_slot o i b m → tx_slot o i b m'.
Proof.
  intros Hs [H1 H2 H3 H4 H5]. split; [|..|done|]; [rewrite <-H1|rewrite <-H2|rewrite <-H3|rewrite <-H5 at 2];
    (apply load_ext || apply load_bytes_ext); intros; apply Hs; places; lia.
Qed.
Lemma tx_slot_same o i b m m' : 0 ≤ i < 16 → same_tx o m m' → tx_slot o i b m → tx_slot o i b m'.
Proof. intros Hi Hs. apply tx_slot_frame. intros. apply Hs. places. lia. Qed.
Lemma store_ne n a v m x : ¬ a ≤ x < a + Z.of_nat n → store n a v m x = m x.
Proof. intros. unfold store. apply store_bytes_ne. by rewrite length_le_enc. Qed.
Ltac outside := repeat first [rewrite store_ne by lia | rewrite store_bytes_ne by lia]; done.
Lemma tx_window_same o h pending m m' : same_tx o m m' → tx_window o h pending m → tx_window o h pending m'.
Proof.
  intros Hs [H1 H2 H3 H4]. split; [done|..].
  - intros i Hi. rewrite <-H2 by done. apply load_ext. intros. apply Hs. places. lia.
  - intros j b Hj. eapply tx_slot_same; [apply slot_bounds|done|by apply H3].
  - intros j Hj. rewrite (load_ext 1 _ m m'); [by apply H4|]. intros. apply Hs. pose proof (slot_bounds h j). places. lia.
Qed.
Lemma rx_window_same o got m m' : same_rx o m m' → rx_window o got m → rx_window o got m'.
Proof.
  intros Hs [H1 H2]. split.
  - intros i Hi. rewrite <-H1 by done. apply load_ext. intros. apply Hs. places. lia.
  - intros i Hi. assert (∀ x, rxd o i ≤ x < rxd o i + 16 → m' x = m x) as Hd by (intros; apply Hs; places; lia).
    destruct (H2 i Hi) as [Hz|(b&Hb&Hn&Hl&Hc)]; [left|right; exists b].
    + rewrite <-Hz. f_equal. apply load_ext. intros. apply Hd. places. lia.
    + split; [done|]. split; [done|]. split; [rewrite <-Hl; apply load_ext; intros; apply Hd; places; lia|].
      rewrite <-Hc at 2. apply load_bytes_ext. intros. apply Hs. places. lia.
Qed.

(** The packet at the head goes out. *)
Lemma tx_window_sent o h b pending st m :
  0 ≤ h < 16 → 0 ≤ st < 256 → Z.land st TX_DESC_STA_DD ≠ 0 → tx_window o h (b :: pending) m →
  tx_window o ((h + 1) mod 16) pending (store 1 (txd o h + F_STATUS) st m).
Proof.
  intros Hh Hst Hdd [H1 H2 H3 H4]. cbn in H1. split; [lia|..].
  - intros i Hi. rewrite load_store_ne by (places; lia). by apply H2.
  - intros j c Hj. rewrite slot_succ. replace (Z.of_nat j + 1) with (Z.of_nat (S j)) by lia.
    assert (slot h (Z.of_nat (S j)) ≠ h) as Hne.
    { rewrite <-(slot_zero h Hh) at 2. intros E. apply lookup_lt_Some in Hj. apply slot_inj in E; lia. }
    pose proof (slot_bounds h (Z.of_nat (S j))). apply (tx_slot_frame _ _ _ m); [|by apply H3].
    intros x Hx. apply store_ne. places. lia.
  - intros j Hj. rewrite slot_succ. destruct (decide (j = 15)) as [->|Hne].
    + replace (slot h (15 + 1)) with h by (unfold slot; rewrite <-(Z.mod_add (h + _) (-1)) by lia; rewrite Z.mod_small by lia; lia).
      by rewrite load_store_eq by lia.
    + assert (slot h (j + 1) ≠ h). { rewrite <-(slot_zero h Hh) at 2. intros E. apply slot_inj in E; lia. }
      pose proof (slot_bounds h (j + 1)). rewrite load_store_ne by (places; lia). apply H4. cbn. lia.
Qed.

(** A packet is handed over in the first free slot. *)
Definition put_packet (o i : Z) (b : bytes) (m : mem) : mem :=
  store 1 (txd o i + F_STATUS) 0 (store 1 (txd o i + F_CMD) (Z.lor TX_DESC_CMD_EOP TX_DESC_CMD_RS)
    (store 2 (txd o i + F_LENGTH) (wrap16 (Z.of_nat (length b))) (store_bytes (txb o i) b m))).
Lemma put_packet_ne o i b m x : Z.of_nat (length b) ≤ TX_BUFFER_SIZE →
  ¬ txd o i + 8 ≤ x < txd o i + 16 → ¬ txb o i ≤ x < txb o i + 2048 → put_packet o i b m x = m x.
Proof. intros Hb H1 H2. unfold put_packet. places. outside. Qed.
Lemma tx_slot_put o i b m : 0 ≤ i < 16 → Z.of_nat (length b) ≤ TX_BUFFER_SIZE → tx_slot o i b (put_packet o i b m).
Proof.
  intros Hi Hb. unfold put_packet. pose proof Hb as Hb'. unfold TX_BUFFER_SIZE in Hb'. rewrite (wrap_small 16) by lia.
  change (Z.lor TX_DESC_CMD_EOP TX_DESC_CMD_RS) with 9.
  split; [by rewrite load_store_eq by lia|..]; [rewrite load_store_ne by (places; lia); by rewrite load_store_eq by lia| |done|].
  - rewrite !load_store_ne by (places; lia). by rewrite load_store_eq by lia.
  - rewrite (load_bytes_ext _ _ (store_bytes (txb o i) b m)); [apply load_store_bytes|]. intros x Hx. places. outside.
Qed.
Lemma tx_window_put o h b pending m :
  0 ≤ h < 16 → (length pending < 16)%nat → Z.of_nat (length b) ≤ TX_BUFFER_SIZE → tx_window o h pending m →
  tx_window o h (pending ++ [b]) (put_packet o (slot h (Z.of_nat (length pending))) b m).
Proof.
  intros Hh Hlen Hb [H1 H2 H3 H4]. set (i := slot h (Z.of_nat (length pending))). pose proof (slot_bounds h (Z.of_nat (length pending))) as Hi. fold i in Hi.
  split; [rewrite length_app; cbn; lia|..].
  - intros k Hk. rewrite <-H2 by done. apply load_ext. intros x Hx. apply put_packet_ne; [done|places; lia..].
  - intros j c. rewrite lookup_app_Some, list_lookup_singleton_Some. intros [Hj|(Hge&Hz&<-)].
    + assert (slot h (Z.of_nat j) ≠ i) as Hne. { intros E. apply lookup_lt_Some in Hj. apply slot_inj in E; lia. }
      pose proof (slot_bounds h (Z.of_nat j)). apply (tx_slot_frame _ _ _ m); [|by apply H3]. intros x Hx. apply put_packet_ne; [done|places; lia..].
    + replace j with (length pending) by lia. by apply tx_slot_put.
  - intros j Hj. rewrite length_app in Hj. cbn in Hj. assert (slot h j ≠ i). { intros E. apply slot_inj in E; lia. }
    pose proof (slot_bounds h j). rewrite (load_ext 1 _ m); [apply H4; lia|]. intros x Hx. apply put_packet_ne; [done|places; lia..].
Qed.

(** A packet comes in, and one is taken. *)
Lemma rx_window_filled o got b i st m :
  0 ≤ i < 32 → Z.of_nat (length b) ≤ RX_BUFFER_SIZE → rx_window o got m →
  rx_window o (got ++ [b]) (store 1 (rxd o i + F_STATUS) st (store 2 (rxd o i + F_LENGTH) (Z.of_nat (length b)) (store_bytes (rxb o i) b m))).
Proof.
  intros Hi Hb [H1 H2]. pose proof Hb as Hb'. unfold RX_BUFFER_SIZE in Hb'. set (m' := store _ _ _ _).
  assert (∀ x, ¬ rxd o i + 8 ≤ x < rxd o i + 16 → ¬ rxb o i ≤ x < rxb o i + 2048 → m' x = m x) as Hne by (intros; subst m'; places; outside).
  split.
  - intros k Hk. rewrite <-H1 by done. apply load_ext. intros x Hx. apply Hne; places; lia.
  - intros k Hk. destruct (decide (k = i)) as [->|Hki].
    + right. exists b. split; [apply elem_of_app; right; by apply list_elem_of_singleton|]. split; [done|]. subst m'. split.
      * rewrite load_store_ne by (places; lia). by rewrite load_store_eq by lia.
      * rewrite (load_bytes_ext _ _ (store_bytes (rxb o i) b m)); [apply load_store_bytes|]. intros x Hx. places. outside.
    + assert (∀ x, rxd o k ≤ x < rxd o k + 16 ∨ rxb o k ≤ x < rxb o k + 2048 → m' x = m x) as Hk' by (intros; apply Hne; places; lia).
      destruct (H2 k Hk) as [Hz|(c&Hc&Hn&Hl&Hby)]; [left|right; exists c].
      * rewrite (load_ext 1 _ m); [done|]. intros. apply Hk'. places. lia.
      * split; [apply elem_of_app; by left|]. split; [done|]. split; [rewrite <-Hl; apply load_ext|rewrite <-Hby at 2; apply load_bytes_ext];
          intros; apply Hk'; places; lia.
Qed.
Lemma rx_window_taken o got i m : 0 ≤ i < 32 → rx_window o got m → rx_window o got (store 1 (rxd o i + F_STATUS) 0 m).
Proof.
  intros Hi [H1 H2]. split.
  - intros k Hk. rewrite load_store_ne by (places; lia). by apply H1.
  - intros k Hk. destruct (decide (k = i)) as [->|Hki]; [left; by rewrite load_store_eq by lia|].
    destruct (H2 k Hk) as [Hz|(c&Hc&Hn&Hl&Hby)]; [left; by rewrite load_store_ne by (places; lia)|right; exists c].
    split; [done|]. split; [done|]. split; [by rewrite load_store_ne by (places; lia)|]. rewrite <-Hby at 2. apply load_bytes_ext.
    intros. apply store_ne. places. lia.
Qed.

(** ** The card keeps the invariant *)

Lemma tx_head_at o r : room o → tx_regs o r → tx_head r = txd o (tdh r).
Proof.
  intros Ho [Hb _ _]. unfold tx_head, desc, txd. rewrite Hb, pool_virt by (unfold room, DMA_POOL_SIZE in *; lia). lia.
Qed.
Lemma rx_head_at o r : room o → rx_regs o r → rx_head r = rxd o (rdh r).
Proof.
  intros Ho [Hb _ _]. unfold rx_head, desc, rxd. rewrite Hb, pool_virt by (unfold room, DMA_POOL_SIZE in *; lia). lia.
Qed.
Lemma tx_buf_virt o i : room o → 0 ≤ i < 16 → dma_phys_to_virt (DMA_POOL_PHYS_BASE + o + 4096 * (i + 34)) = txb o i.
Proof.
  intros Ho Hi. rewrite <-Z.add_assoc, pool_virt by (unfold room, DMA_POOL_SIZE in *; lia). unfold txb. lia.
Qed.
Lemma rx_buf_virt o i : room o → 0 ≤ i < 32 → dma_phys_to_virt (DMA_POOL_PHYS_BASE + o + 4096 * (i + 1)) = rxb o i.
Proof.
  intros Ho Hi. rewrite <-Z.add_assoc, pool_virt by (unfold room, DMA_POOL_SIZE in *; lia). unfold rxb. lia.
Qed.

Lemma hw_step_ok o accepted x y : room o → ring_ok o accepted x → hw_step x y →
  ring_ok o accepted y ∧ tdt y.1 = tdt x.1 ∧ received x.1 `prefix_of` received y.1.
Proof.
  intros Ho [Ht Hr (pending&Hacc&Hw&Htail) Hg] Hs. inversion Hs as [r m st Hon Hne Hst Hdd Hcmd|r m x' Hon Hne Hcmd|r m b st Hon Hne Hst Hdd Hb]; subst; cbn [fst snd] in *.
  all: pose proof Ht as [_ Htl Hth]; pose proof Hr as [_ Hrl Hrh].
  - split; [|by split]. rewrite (tx_head_at o) in * by done. destruct pending as [|b pending]; [cbn in Htail; by rewrite slot_zero in Htail|].
    pose proof (tw_slot _ _ _ _ Hw 0 b eq_refl) as [_ _ Hlen Hsmall Hby]. rewrite slot_zero in * by done.
    rewrite (tw_addr _ _ _ _ Hw), tx_buf_virt, Hlen, Nat2Z.id, Hby by done. split; cbn [fst snd].
    + split; cbn; [apply Ht|done|]. rewrite Htl. change (256 / 16) with 16. apply Z.mod_pos_bound. lia.
    + split; cbn; apply Hr.
    + exists pending. cbn. rewrite Htl. change (256 / 16) with 16. rewrite <-app_assoc, slot_succ. split; [done|].
      split; [by eapply tx_window_sent|]. rewrite Htail. cbn. f_equal. lia.
    + cbn. eapply rx_window_same; [|done]. intros a Ha. apply store_ne. places. lia.
  - destruct pending as [|b pending]; [cbn in Htail; by rewrite slot_zero in Htail|].
    pose proof (tw_slot _ _ _ _ Hw 0 b eq_refl) as [_ Hc _ _ _]. rewrite slot_zero, <-tx_head_at in Hc by done. done.
  - split; [|split; [done|by apply prefix_app_r]]. rewrite (rx_head_at o) in * by done. rewrite (rw_addr _ _ _ Hg), rx_buf_virt by done. split; cbn [fst snd].
    + split; cbn; apply Ht.
    + split; cbn; [apply Hr|done|]. rewrite Hrl. change (512 / 16) with 32. apply Z.mod_pos_bound. lia.
    + exists pending. cbn. split; [done|]. split; [|done]. eapply tx_window_same; [|done]. intros a Ha. places. outside.
    + cbn. by apply rx_window_filled.
Qed.
Lemma hw_steps_ok o accepted x y : room o → hw_steps x y → ring_ok o accepted x →
  ring_ok o accepted y ∧ tdt y.1 = tdt x.1 ∧ received x.1 `prefix_of` received y.1.
Proof.
  intros Ho. induction 1 as [x|x y z Hxy _ IH]; intros Hx; [done|]. destruct (hw_step_ok _ _ _ _ Ho Hx Hxy) as (Hy&Heq&Hp).
  destruct (IH Hy) as (Hz&->&Hp2). split; [done|]. split; [done|]. by etrans.
Qed.

(** ** The driver keeps it *)

Section driver.
Context {D : Type} `{HB : NicHw D} `{HV : !NicView D} `{HL : !NicLaws D}.
Implicit Types s : nic D.
Abbreviation view s := (nic_ring (n_dev s), dma_mem (n_dma s)).

(** The driver and its card between calls. *)
Definition nic_ok (accepted : list bytes) s : Prop :=
  ∃ e o, device s = Some e ∧ laid_out o e ∧ bar0 e = nic_bar (n_dev s) ∧
    ring_ok o accepted (view s) ∧ tx_tail e = tdt (view s).1 ∧ 0 ≤ rx_tail e < 32.

Lemma set_tdt v r : set_reg REG_TDT v r = Ring (tdbal r) (tdbah r) (tdlen r) (tdh r) v (tx_on r)
  (rdbal r) (rdbah r) (rdlen r) (rdh r) (rdt r) (rx_on r) (sent r) (received r).
Proof. by destruct r. Qed.
Lemma set_rdt v r : set_reg REG_RDT v r = Ring (tdbal r) (tdbah r) (tdlen r) (tdh r) (tdt r) (tx_on r)
  (rdbal r) (rdbah r) (rdlen r) (rdh r) v (rx_on r) (sent r) (received r).
Proof. by destruct r. Qed.

Lemma tx_desc_at o e i : laid_out o e → desc (dma_phys_to_virt (tx_descs e)) i = txd o i.
Proof. intros [Ho _ _ -> _]. rewrite pool_virt by (unfold DMA_POOL_SIZE in *; lia). unfold desc, txd. lia. Qed.
Lemma rx_desc_at o e i : laid_out o e → desc (dma_phys_to_virt (rx_descs e)) i = rxd o i.
Proof. intros [Ho -> _ _ _]. rewrite pool_virt by (unfold DMA_POOL_SIZE in *; lia). unfold desc, rxd. lia. Qed.
Lemma tx_buffer_at o e i : laid_out o e → 0 ≤ i < 16 → dma_phys_to_virt (nth (Z.to_nat i) (tx_buffers e) 0) = txb o i.
Proof.
  intros Hl Hi. rewrite (lo_txb _ _ Hl). unfold tx_phys. erewrite nth_lookup_Some.
  2: { rewrite list_lookup_fmap, lookup_seqZ_lt by lia. cbn. reflexivity. }
  replace (0 + Z.of_nat (Z.to_nat i)) with i by lia. apply tx_buf_virt; [apply Hl|done].
Qed.
Lemma rx_buffer_at o e i : laid_out o e → 0 ≤ i < 32 → dma_phys_to_virt (nth (Z.to_nat i) (rx_buffers e) 0) = rxb o i.
Proof.
  intros Hl Hi. rewrite (lo_rxb _ _ Hl). unfold rx_phys. erewrite nth_lookup_Some.
  2: { rewrite list_lookup_fmap, lookup_seqZ_lt by lia. cbn. reflexivity. }
  replace (0 + Z.of_nat (Z.to_nat i)) with i by lia. apply rx_buf_virt; [apply Hl|done].
Qed.

Lemma transmit_ok accepted data s : nic_ok accepted s → ∃ r s', transmit data s = (r, s') ∧
  match r with
  | Ok _ => Z.of_nat (length data) ≤ TX_BUFFER_SIZE ∧ nic_ok (accepted ++ [data]) s' ∧ (length accepted - length (sent (view s).1) < 16)%nat ∧
      received (view s).1 `prefix_of` received (view s').1
  | Err _ => s' = s ∧ (TX_BUFFER_SIZE < Z.of_nat (length data) ∨ (length accepted = length (sent (view s).1) + 16)%nat)
  | _ => False
  end.
Proof.
  intros (e&o&Hdev&Hl&Hbar&[Ht Hr (pending&Hacc&Hw&Htail) Hg]&Htt&Hrt). cbn [fst snd] in *. pose proof (lo_room _ _ Hl) as Ho.
  unfold transmit. rewrite Hdev. unfold nic_transmit. destruct (Z.ltb_spec TX_BUFFER_SIZE (Z.of_nat (length data))) as [|Hsmall].
  { eexists _, _. split; [done|]. cbn. auto. }
  rewrite (tx_desc_at o), Htt, Htail by done. set (i := slot _ _). pose proof (slot_bounds (tdh (nic_ring (n_dev s))) (Z.of_nat (length pending))) as Hi. fold i in Hi.
  rewrite (tx_buffer_at o) by done. unfold sbind at 1 2. cbn [peek].
  pose proof (tw_count _ _ _ _ Hw) as Hcount. assert (length accepted = length (sent (nic_ring (n_dev s))) + length pending)%nat as Hn by (by rewrite Hacc, length_app).
  destruct (decide (length pending = 16)%nat) as [Hfull|Hroom].
  { assert (load 1 (txd o i + F_STATUS) (dma_mem (n_dma s)) = 0) as Hz.
    { destruct (lookup_lt_is_Some_2 pending 0 ltac:(lia)) as [b Hb]. replace i with (slot (tdh (nic_ring (n_dev s))) (Z.of_nat 0)).
      - apply (tw_slot _ _ _ _ Hw 0 b Hb).
      - subst i. rewrite Hfull. unfold slot. rewrite <-(Z.mod_add (_ + Z.of_nat 0) 1 16) by lia. f_equal. lia. }
    rewrite Hz. cbn [Z.land Z.eqb]. eexists _, _. split; [done|]. split; [done|]. right. lia. }
  pose proof (tw_free _ _ _ _ Hw (Z.of_nat (length pending)) ltac:(lia)) as Hfree. fold i in Hfree.
  apply Z.eqb_neq in Hfree. rewrite Hfree.
  change (∃ r s', (let! e := let! _ := mmio_write32 (bar0 e) REG_TDT ((i + 1) mod NUM_TX_DESC) in sret (set_tx_tail ((i + 1) mod NUM_TX_DESC) e) in
     smodify (set_device e)) (set_dma (DmaState (dma_pool (n_dma s)) (put_packet o i data (dma_mem (n_dma s)))) s) = (r, s') ∧
    match r with Ok _ => Z.of_nat (length data) ≤ TX_BUFFER_SIZE ∧ nic_ok (accepted ++ [data]) s' ∧ (length accepted - length (sent (view s).1) < 16)%nat ∧
      received (view s).1 `prefix_of` received (view s').1
    | Err _ => s' = s ∧ (TX_BUFFER_SIZE < Z.of_nat (length data) ∨ (length accepted = length (sent (view s).1) + 16)%nat)
    | _ => False end).
  unfold mmio_write32, sbind, smodify, sret. cbn [set_dma n_dev n_dma dma_mem dma_pool device]. rewrite Hbar.
  destruct (nic_write _ _ _ _) as [d m'] eqn:Hwr. eexists _, _. split; [done|]. split; [done|]. cbn [fst snd]. cut (nic_ok (accepted ++ [data]) (set_device (set_tx_tail ((i + 1) mod NUM_TX_DESC) e) (set_hw (d, m') s)) ∧ received (nic_ring (n_dev s)) `prefix_of` received (nic_ring d)).
  { intros [H1 H2]. split; [exact H1|]. split; [lia|done]. }
  destruct (nic_write_law _ _ _ _ _ _ Hwr) as [Hb' Hst]. rewrite set_tdt in Hst.
  destruct (hw_steps_ok o (accepted ++ [data]) _ _ Ho Hst) as (Hok&Htt'&Hpre).
  { split; [by split; apply Ht|by split; apply Hr| |].
    - exists (pending ++ [data]). cbn [fst snd]. rewrite Hacc, app_assoc. split; [done|]. split; [apply tx_window_put; [apply Ht|lia|done|done]|].
      rewrite length_app. cbn. change NUM_TX_DESC with 16. subst i. unfold slot. rewrite Zplus_mod_idemp_l. f_equal. lia.
    - cbn. eapply rx_window_same; [|done]. intros x Hx. apply put_packet_ne; [done|places; lia..]. }
  split; [|done]. exists (set_tx_tail ((i + 1) mod NUM_TX_DESC) e), o. split; [done|]. split; [by destruct Hl|]. split; [cbn; congruence|].
  split; [done|]. split; [done|]. done.
Qed.

Lemma receive_ok accepted s : nic_ok accepted s → ∃ p s', receive s = (Ok p, s') ∧ nic_ok accepted s' ∧
  received (view s).1 `prefix_of` received (view s').1 ∧ ∀ b, p = Some b → b ∈ received (view s).1.
Proof.
  intros (e&o&Hdev&Hl&Hbar&[Ht Hr (pending&Hacc&Hw&Htail) Hg]&Htt&Hrt). cbn [fst snd] in *. pose proof (lo_room _ _ Hl) as Ho.
  unfold receive. rewrite Hdev. unfold nic_receive. change NUM_RX_DESC with 32. set (i := (rx_tail e + 1) mod 32).
  assert (0 ≤ i < 32) as Hi by (apply Z.mod_pos_bound; lia). rewrite (rx_desc_at o), (rx_buffer_at o) by done.
  unfold sbind at 1 2. cbn [peek]. destruct (Z.eqb_spec (Z.land (load 1 (rxd o i + F_STATUS) (dma_mem (n_dma s))) RX_DESC_DD) 0) as [Hz|Hz].
  { eexists _, _. split; [done|]. split; [|done]. exists e, o. split; [done|]. split; [done|]. split; [done|]. split; [|done]. by split; [..|exists pending|]. }
  destruct (rw_done _ _ _ Hg i Hi) as [?|(b&Hb&Hn&Hlen&Hby)]; [done|]. unfold sbind at 1 2. cbn [peek].
  rewrite Hlen, Z.min_l, Nat2Z.id, Hby by done.
  change (∃ p s', (let! r := let! _ := mmio_write32 (bar0 e) REG_RDT i in sret (Some (b, set_rx_tail i e)) in
     match r with Some (packet, e) => let! _ := smodify (set_device e) in sret (Some packet) | None => sret None end)
     (set_dma (DmaState (dma_pool (n_dma s)) (store 1 (rxd o i + F_STATUS) 0 (dma_mem (n_dma s)))) s) = (Ok p, s') ∧
    nic_ok accepted s' ∧ received (view s).1 `prefix_of` received (view s').1 ∧ ∀ b, p = Some b → b ∈ received (view s).1).
  unfold mmio_write32, sbind, smodify, sret. cbn [set_dma n_dev n_dma dma_mem dma_pool device]. rewrite Hbar.
  destruct (nic_write _ _ _ _) as [d m'] eqn:Hwr. eexists _, _. split; [done|]. cut (nic_ok accepted (set_device (set_rx_tail i e) (set_hw (d, m') s)) ∧ received (nic_ring (n_dev s)) `prefix_of` received (nic_ring d)).
  { intros [H1 H2]. split; [exact H1|]. split; [done|]. by intros ? [= <-]. }
  destruct (nic_write_law _ _ _ _ _ _ Hwr) as [Hb' Hst]. rewrite set_rdt in Hst.
  destruct (hw_steps_ok o accepted _ _ Ho Hst) as (Hok&Htt'&Hpre).
  { split; [by split; apply Ht|by split; apply Hr| |].
    - exists pending. cbn [fst snd]. split; [done|]. split; [|done]. eapply tx_window_same; [|done]. intros x Hx. apply store_ne. places. lia.
    - cbn. by apply rx_window_taken. }
  split; [|done]. exists (set_rx_tail i e), o. split; [done|]. split; [by destruct Hl|]. split; [cbn; congruence|].
  split; [done|]. cbn in Htt'. cbn. split; [congruence|done].
Qed.

(** ** Bring-up *)

Definition off (r : ring) : Prop := tx_on r = false ∧ rx_on r = false.
Lemma off_steps r m y : off r → hw_steps (r, m) y → y = (r, m).
Proof. intros [Ht Hr] Hs. inversion Hs as [|x z w Hstep]; subst; [done|]. inversion Hstep; congruence. Qed.

(** The card off: its rings, the memory, the use of the pool and the base address. *)
Record at_rest (r : ring) (m : mem) (o bar : Z) s : Prop := {
  ar_ring : nic_ring (n_dev s) = r; ar_mem : dma_mem (n_dma s) = m; ar_pool : pool_top o (n_dma s); ar_bar : nic_bar (n_dev s) = bar }.

Lemma read_rest r m o bar a off' s : off r → at_rest r m o bar s → ∃ v s', mmio_read32 a off' s = (Ok v, s') ∧ at_rest r m o bar s'.
Proof.
  intros Hoff [Hr Hm Hp Hb]. unfold mmio_read32. destruct (nic_read _ _ _) as [v [d m']] eqn:He. eexists _, _. split; [done|].
  apply nic_read_law in He as [Hbar Hs]. rewrite Hr, Hm in Hs. apply off_steps in Hs; [|done]. by simplify_eq.
Qed.
Lemma write_rest r m o bar off' v s : off (set_reg off' v r) → at_rest r m o bar s →
  ∃ s', mmio_write32 bar off' v s = (Ok tt, s') ∧ at_rest (set_reg off' v r) m o bar s'.
Proof.
  intros Hoff [Hr Hm Hp Hb]. unfold mmio_write32, smodify. subst bar. destruct (nic_write _ _ _ _) as [d m'] eqn:He. eexists. split; [done|].
  apply nic_write_law in He as [Hbar Hs]. rewrite Hr, Hm in Hs. apply off_steps in Hs; [|done]. by simplify_eq.
Qed.
(** The next operation of a sequence. *)
Lemma run_next {A B} (f : stm (nic D) string A) (g : A → stm (nic D) string B) s a s1 (P : outcome string B * nic D → Prop) :
  f s = (Ok a, s1) → P (g a s1) → P (sbind f g s).
Proof. intros H. by rewrite (sbind_Ok _ _ _ _ _ H). Qed.

Lemma eeprom_word_rest r m o bar k s : off r → at_rest r m o bar s →
  ∃ v s', read_eeprom_word bar k s = (Ok v, s') ∧ at_rest r m o bar s'.
Proof.
  intros Hoff Hs. unfold read_eeprom_word.
  assert (set_reg REG_EEPROM (Z.lor (Z.shiftl k 8) 1) r = r) as Hid by (by destruct r).
  destruct (write_rest r m o bar REG_EEPROM (Z.lor (Z.shiftl k 8) 1) s) as (s1&E1&H1); [by rewrite Hid|done|].
  rewrite Hid in H1. rewrite (sbind_Ok _ _ _ _ _ E1). clear -Hoff H1 HL. revert s1 H1. generalize 1000%nat. intros n. induction n as [|n IH]; intros s H; cbn [eeprom_wait]; [by eexists _, _|].
  destruct (read_rest r m o bar bar REG_EEPROM s Hoff H) as (v&s2&E2&H2). rewrite (sbind_Ok _ _ _ _ _ E2).
  destruct (Z.testbit v 4); [by eexists _, _|by apply IH].
Qed.
Lemma mac_rest r m o bar s : off r → at_rest r m o bar s → ∃ v s', read_mac_address bar s = (Ok v, s') ∧ at_rest r m o bar s'.
Proof.
  intros Hoff Hs. unfold read_mac_address. destruct (eeprom_word_rest r m o bar 0 s Hoff Hs) as (v0&s0&E0&H0). rewrite (sbind_Ok _ _ _ _ _ E0).
  destruct (eeprom_word_rest r m o bar 1 s0 Hoff H0) as (v1&s1&E1&H1). rewrite (sbind_Ok _ _ _ _ _ E1).
  destruct (eeprom_word_rest r m o bar 2 s1 Hoff H1) as (v2&s2&E2&H2). rewrite (sbind_Ok _ _ _ _ _ E2). by eexists _, _.
Qed.

(** Memory that agrees below [a]. *)
Definition below (a : Z) (m m' : mem) : Prop := ∀ x, x < a → m' x = m x.
Lemma alloc_rest r m o bar size e s : at_rest r m o bar s → page_round size = 4096 → 0 ≤ size < 2 ^ 63 → o + 4096 ≤ DMA_POOL_SIZE →
  ∃ m' s', alloc_or size e s = (Ok (DMA_POOL_VIRT_BASE + o, DMA_POOL_PHYS_BASE + o), s') ∧ at_rest r m' (o + 4096) bar s' ∧
    below (DMA_POOL_VIRT_BASE + o) m m'.
Proof.
  intros [Hr Hm Hp Hb] Hsize Hpos Hfit. unfold alloc_or. pose proof (alloc_top o size (n_dma s) Hp Hpos) as H. rewrite Hsize, decide_True in H by done.
  destruct H as (d&->&Hd&_&_&Hsame). eexists (dma_mem d), _. split; [done|]. split; [done|]. intros x Hx. rewrite <-Hm. apply Hsame. lia.
Qed.
Lemma buffers_rest n : ∀ r m o bar e s, at_rest r m o bar s → o + 4096 * Z.of_nat n ≤ DMA_POOL_SIZE →
  ∃ m' s', alloc_buffers n e s = (Ok ((λ i, DMA_POOL_PHYS_BASE + o + 4096 * i) <$> seqZ 0 (Z.of_nat n)), s') ∧
    at_rest r m' (o + 4096 * Z.of_nat n) bar s' ∧ below (DMA_POOL_VIRT_BASE + o) m m'.
Proof.
  induction n as [|n IH]; intros r m o bar e s Hs Hfit; cbn [alloc_buffers].
  - exists m, s. replace (o + 4096 * Z.of_nat 0) with o by lia. by rewrite seqZ_nil.
  - destruct (alloc_rest r m o bar RX_BUFFER_SIZE e s Hs) as (m1&s1&E1&H1&B1); [done|done|lia|]. rewrite (sbind_Ok _ _ _ _ _ E1).
    destruct (IH r m1 (o + 4096) bar e s1 H1) as (m2&s2&E2&H2&B2); [lia|]. rewrite (sbind_Ok _ _ _ _ _ E2). exists m2, s2.
    replace (o + 4096 * Z.of_nat (S n)) with (o + 4096 + 4096 * Z.of_nat n) by lia. split; [|split; [done|intros x Hx; rewrite B2 by lia; by apply B1]].
    cbn [snd]. unfold sret. rewrite (seqZ_cons 0 (Z.of_nat (S n))) by lia. replace (Z.pred (Z.of_nat (S n))) with (Z.of_nat n) by lia.
    change (Z.succ 0) with (1 + 0). rewrite <-(fmap_add_seqZ 1 0), fmap_cons, <-list_fmap_compose. f_equal. f_equal. f_equal; [lia|].
    apply list_fmap_ext. intros i x _. cbn. lia.
Qed.
Lemma descs_rest bufs : ∀ r m o bar a i st s, at_rest r m o bar s → 0 ≤ st < 256 → Forall (λ b, 0 ≤ b < 2 ^ 64) bufs →
  ∃ m' s', init_descs a i bufs st s = (Ok tt, s') ∧ at_rest r m' o bar s' ∧
    (∀ x, ¬ desc a i ≤ x < desc a (i + Z.of_nat (length bufs)) → m' x = m x) ∧
    (∀ k b, bufs !! k = Some b → load 8 (desc a (i + Z.of_nat k)) m' = b ∧ load 1 (desc a (i + Z.of_nat k) + F_STATUS) m' = st).
Proof.
  induction bufs as [|b bufs IH]; intros r m o bar a i st s Hs Hst Hb; cbn [init_descs]; [exists m, s; by split_and!|].
  apply Forall_cons in Hb as [Hb Hbs]. set (m1 := store 1 (desc a i + F_STATUS) st (store 8 (desc a i + F_ADDR) b m)).
  set (s1 := set_dma (DmaState (dma_pool (n_dma s)) m1) s).
  assert (at_rest r m1 o bar s1) as H1.
  { destruct Hs as [Hr Hm Hp Hbar]. split; cbn; try done. }
  destruct (IH r m1 o bar a (i + 1) st s1 H1 Hst Hbs) as (m2&s2&E2&H2&N2&L2). exists m2, s2. unfold desc, F_ADDR, F_STATUS in *.
  split; [rewrite <-E2; subst s1 m1; by destruct Hs as [_ <- _ _]|]. split; [done|]. cbn [length]. split.
  - intros x Hx. rewrite N2 by lia. subst m1. outside.
  - intros [|k] c Hk; cbn in Hk; [injection Hk as ->|].
    + rewrite Z.add_0_r, (load_ext 8 _ m1), (load_ext 1 _ m1) by (intros; apply N2; lia). subst m1. rewrite Z.add_0_r.
      split; [rewrite load_store_ne by lia|]; by rewrite load_store_eq by lia.
    + replace (i + Z.of_nat (S k)) with (i + 1 + Z.of_nat k) by lia. by apply L2.
Qed.

(** The receiver on, the transmitter not yet. *)
Record starting (o : Z) (x : ring * mem) : Prop := {
  st_off : tx_on x.1 = false; st_sent : sent x.1 = []; st_rx : rx_regs o x.1;
  st_received : rx_window o (received x.1) x.2; st_tx : tx_window o 0 [] x.2 }.
Definition tx_part (r : ring) : Z * Z * Z * Z * Z := (tdbal r, tdbah r, tdlen r, tdh r, tdt r).
Lemma starting_steps o x y : room o → hw_steps x y → starting o x → starting o y ∧ tx_part y.1 = tx_part x.1.
Proof.
  intros Ho. induction 1 as [x|x y z Hxy _ IH]; intros Hx; [done|].
  assert (starting o y ∧ tx_part y.1 = tx_part x.1) as [Hy <-]; [|by apply IH]. clear IH z. destruct Hx as [Hoff Hsent Hr Hrw Htw].
  inversion Hxy as [r m st Hon|r m x' Hon|r m b st Hon Hne Hst Hdd Hb]; subst; cbn [fst snd] in *; [congruence..|].
  pose proof Hr as [_ Hrl Hrh]. split; [|done]. rewrite (rx_head_at o) by done. rewrite (rw_addr _ _ _ Hrw), rx_buf_virt by done. split; cbn; try done.
  - split; cbn; [apply Hr|done|]. rewrite Hrl. change (512 / 16) with 32. apply Z.mod_pos_bound. lia.
  - by apply rx_window_filled.
  - eapply tx_window_same; [|done]. intros a Ha. places. outside.
Qed.

Definition begun (o bar : Z) (t : Z * Z * Z * Z * Z) s : Prop :=
  nic_bar (n_dev s) = bar ∧ starting o (view s) ∧ tx_part (view s).1 = t.
Lemma begin_write o bar off' v t t' s : room o → begun o bar t s →
  (∀ r, tx_part r = t → tx_on r = false → set_reg off' v r = r ∨ ∃ l h n a b, set_reg off' v r =
     Ring l h n a b false (rdbal r) (rdbah r) (rdlen r) (rdh r) (rdt r) (rx_on r) (sent r) (received r)) →
  (∀ r, tx_part r = t → tx_part (set_reg off' v r) = t') →
  ∃ s', mmio_write32 bar off' v s = (Ok tt, s') ∧ begun o bar t' s'.
Proof.
  intros Ho (Hbar&Hst&Ht) Hset Hset'. unfold mmio_write32, smodify. subst bar. destruct (nic_write _ _ _ _) as [d m'] eqn:He. eexists. split; [done|].
  apply nic_write_law in He as [Hb Hs]. destruct (starting_steps o _ _ Ho Hs) as [Hst' Htp];
    [|split; [done|]; split; [done|]; cbn [fst] in Htp; cbn; rewrite Htp; by apply Hset'].
  pose proof Hst as [Hoff Hsent Hr Hrw Htw]. cbn [fst snd] in *.
  destruct (Hset _ Ht Hoff) as [->|(l&h&n&a&b&->)]; [by split|split; cbn; try done]. split; cbn; apply Hr.
Qed.
Lemma begin_tx o bar off' v t t' s : room o → begun o bar t s →
  off' ∈ [REG_TDBAL; REG_TDBAH; REG_TDLEN; REG_TDH; REG_TDT; REG_TIPG] →
  (∀ r, tx_part r = t → tx_part (set_reg off' v r) = t') →
  ∃ s', mmio_write32 bar off' v s = (Ok tt, s') ∧ begun o bar t' s'.
Proof.
  intros Ho Hb Hin. apply begin_write; [done..|]. intros r _ Hoff. destruct r; cbn in Hoff; subst.
  repeat (apply elem_of_cons in Hin as [->|Hin]; [try (by left); right; by eexists _, _, _, _, _|]). by apply elem_of_nil in Hin.
Qed.

Lemma mta_rest r m o bar l s : off r → Forall (λ i, 0 ≤ i) l → at_rest r m o bar s →
  ∃ s', sfor l (λ i, mmio_write32 bar (REG_MTA + i * 4) 0) s = (Ok tt, s') ∧ at_rest r m o bar s'.
Proof.
  intros Hoff. revert s. induction l as [|i l IH]; intros s Hl Hs; cbn [sfor]; [by exists s|]. apply Forall_cons in Hl as [Hi Hl].
  assert (set_reg (REG_MTA + i * 4) 0 r = r) as Hid.
  { destruct r. unfold set_reg, REG_MTA, REG_CTRL, REG_TDBAL, REG_TDBAH, REG_TDLEN, REG_TDH, REG_TDT, REG_TCTL, REG_RDBAL, REG_RDBAH, REG_RDLEN, REG_RDH, REG_RDT, REG_RCTL.
    by rewrite !(proj2 (Z.eqb_neq _ _)) by lia. }
  destruct (write_rest r m o bar (REG_MTA + i * 4) 0 s) as (s1&E1&H1); [by rewrite Hid|done|]. rewrite Hid in H1. rewrite (sbind_Ok _ _ _ _ _ E1). by apply IH.
Qed.
Lemma ring_base x : 0 ≤ x < 2 ^ 64 → wrap32 x + 2 ^ 32 * wrap32 (Z.shiftr x 32) = x.
Proof. intros. rewrite Z.shiftr_div_pow2 by lia. unfold wrap. Z.to_euclidean_division_equations. lia. Qed.

(** Everything up to the receiver's start. *)
Definition rings_at (e : E1000) : ring :=
  Ring 0 0 0 0 0 false (wrap32 (rx_descs e)) (wrap32 (Z.shiftr (rx_descs e) 32)) (NUM_RX_DESC * 16) 0 (NUM_RX_DESC - 1) false [] [].
Definition resting : ring := Ring 0 0 0 0 0 false 0 0 0 0 0 false [] [].

(** One more register written while the card is off. *)
Ltac at_rest_write H :=
  let E := fresh "E" in let s := fresh "s" in let H' := fresh "H" in let H'' := fresh "H" in
  match goal with
  | |- context [sbind (mmio_write32 _ ?o ?v) _ _] =>
      pose proof (λ h, write_rest _ _ _ _ o v _ h H) as H'; destruct (H' ltac:(split; reflexivity)) as (s&E&H''); clear H'; rename H'' into H';
      rewrite (sbind_Ok _ _ _ _ _ E); clear E H; rename H' into H; cbn in H
  end.
(** The rest of [hw_init]. *)
Definition hw_init_tx (e : E1000) : stm (nic D) string unit :=
  let write := mmio_write32 (bar0 e) in
  let! _ := write REG_TDBAH (wrap32 (Z.shiftr (tx_descs e) 32)) in
  let! _ := write REG_TDBAL (wrap32 (tx_descs e)) in
  let! _ := write REG_TDLEN (NUM_TX_DESC * 16) in
  let! _ := write REG_TDH 0 in
  let! _ := write REG_TDT 0 in
  let! _ := write REG_TIPG 0x00702008 in
  let! _ := write REG_TCTL (Z.lor TCTL_EN (Z.lor TCTL_PSP (Z.lor (Z.shiftl 0x0F TCTL_CT_SHIFT) (Z.shiftl 0x40 TCTL_COLD_SHIFT)))) in
  let! _ := mmio_read32 (bar0 e) REG_STATUS in sret tt.
Lemma hw_init_rx r m o o' e s : sent r = [] → received r = [] → laid_out o e → at_rest r m o' (bar0 e) s →
  rx_window o [] m → tx_window o 0 [] m → ∃ s1, hw_init e s = hw_init_tx e s1 ∧ begun o (bar0 e) (0, 0, 0, 0, 0) s1.
Proof.
  intros Hsn Hrc Hl H Hrw Htw. pose proof (lo_room _ _ Hl) as Ho. unfold hw_init. cbv zeta.
  assert (set_reg REG_CTRL CTRL_RST r = resting) as Hreset by (destruct r; cbn in *; subst; reflexivity).
  destruct (write_rest _ _ _ _ REG_CTRL CTRL_RST s ltac:(rewrite Hreset; split; reflexivity) H) as (s1&E1&H1).
  rewrite (sbind_Ok _ _ _ _ _ E1). rewrite Hreset in H1. clear E1 H Hreset Hsn Hrc r. at_rest_write H1.
  assert (off resting) as Hoff by done. fold resting in H1.
  destruct (read_rest _ _ _ _ (bar0 e) REG_ICR _ Hoff H1) as (v2&s2&E2&H2). rewrite (sbind_Ok _ _ _ _ _ E2).
  destruct (read_rest _ _ _ _ (bar0 e) REG_CTRL _ Hoff H2) as (ctrl&s3&E3&H3). rewrite (sbind_Ok _ _ _ _ _ E3).
  assert (set_reg REG_CTRL (Z.lor ctrl CTRL_SLU) resting = resting) as Hslu by
    (unfold set_reg, resting; change (REG_CTRL =? REG_CTRL) with true; cbv iota; by destruct (Z.testbit (Z.lor ctrl CTRL_SLU) 26)).
  destruct (write_rest resting m o' (bar0 e) REG_CTRL (Z.lor ctrl CTRL_SLU) s3 ltac:(by rewrite Hslu) H3) as (s4&E4&H4). rewrite (sbind_Ok _ _ _ _ _ E4).
  rewrite Hslu in H4. clear E2 H1 H2 E3 H3 E4 Hslu.
  destruct (mta_rest _ _ _ _ (seqZ 0 128) _ Hoff ltac:(apply Forall_seqZ; lia) H4) as (s5&E5&H5). rewrite (sbind_Ok _ _ _ _ _ E5). clear E5 H4.
  unfold resting in H5. do 5 at_rest_write H5.
  match goal with |- context [sbind (mmio_write32 _ REG_RCTL ?v) _ ?s] => set (w := v) end.
  destruct H5 as [Hr Hm Hp Hbar]. unfold sbind at 1, mmio_write32 at 1, smodify. destruct (nic_write _ _ _ _) as [d m'] eqn:He.
  rewrite <-Hbar in He. apply nic_write_law in He as [Hb Hs]. eexists. split; [reflexivity|]. rewrite Hr, Hm in Hs.
  assert (set_reg REG_RCTL w (Ring 0 0 0 0 0 false (wrap32 (rx_descs e)) (wrap32 (Z.shiftr (rx_descs e) 32)) 512 0 31 false [] []) =
    Ring 0 0 0 0 0 false (wrap32 (rx_descs e)) (wrap32 (Z.shiftr (rx_descs e) 32)) 512 0 31 true [] []) as Hset by reflexivity.
  change (NUM_RX_DESC * 16) with 512 in Hs. change (NUM_RX_DESC - 1) with 31 in Hs. rewrite Hset in Hs.
  destruct (starting_steps o _ _ Ho Hs) as [Hst Htp]; [|split; [cbn; congruence|]; split; [done|exact Htp]].
  split; cbn; try done. split; cbn; [|done|lia]. unfold rdba. cbn. rewrite ring_base by (rewrite (lo_rxd _ _ Hl); unfold DMA_POOL_PHYS_BASE, DMA_POOL_SIZE in *; lia).
  by rewrite (lo_rxd _ _ Hl).
Qed.

Lemma begin_read o bar a off' t s : room o → begun o bar t s → ∃ v s', mmio_read32 a off' s = (Ok v, s') ∧ begun o bar t s'.
Proof.
  intros Ho (Hbar&Hst&Ht). unfold mmio_read32. destruct (nic_read _ _ _) as [v [d m']] eqn:He. eexists _, _. split; [done|].
  apply nic_read_law in He as [Hb Hs]. destruct (starting_steps o _ _ Ho Hs Hst) as [Hst' Htp]. split; [cbn; congruence|]. split; [done|]. cbn in *. congruence.
Qed.

(** The transmitter's start. *)
Lemma hw_init_tx_ok o e s : laid_out o e → begun o (bar0 e) (0, 0, 0, 0, 0) s →
  ∃ s', hw_init_tx e s = (Ok tt, s') ∧ nic_bar (n_dev s') = bar0 e ∧ ring_ok o [] (view s') ∧ tdt (view s').1 = 0.
Proof.
  intros Hl H. pose proof (lo_room _ _ Hl) as Ho. unfold hw_init_tx. cbv zeta. set (lo := wrap32 (tx_descs e)). set (hi := wrap32 (Z.shiftr (tx_descs e) 32)).
  destruct (begin_tx o (bar0 e) REG_TDBAH hi _ (0, hi, 0, 0, 0) s Ho H) as (s1&E1&H1); [set_solver|by intros [] [= -> -> -> -> ->]|]. rewrite (sbind_Ok _ _ _ _ _ E1).
  destruct (begin_tx o (bar0 e) REG_TDBAL lo _ (lo, hi, 0, 0, 0) s1 Ho H1) as (s2&E2&H2); [set_solver|by intros [] [= -> -> -> -> ->]|]. rewrite (sbind_Ok _ _ _ _ _ E2).
  destruct (begin_tx o (bar0 e) REG_TDLEN (NUM_TX_DESC * 16) _ (lo, hi, 256, 0, 0) s2 Ho H2) as (s3&E3&H3); [set_solver|by intros [] [= -> -> -> -> ->]|]. rewrite (sbind_Ok _ _ _ _ _ E3).
  destruct (begin_tx o (bar0 e) REG_TDH 0 _ (lo, hi, 256, 0, 0) s3 Ho H3) as (s4&E4&H4); [set_solver|by intros [] [= -> -> -> -> ->]|]. rewrite (sbind_Ok _ _ _ _ _ E4).
  destruct (begin_tx o (bar0 e) REG_TDT 0 _ (lo, hi, 256, 0, 0) s4 Ho H4) as (s5&E5&H5); [set_solver|by intros [] [= -> -> -> -> ->]|]. rewrite (sbind_Ok _ _ _ _ _ E5).
  destruct (begin_tx o (bar0 e) REG_TIPG 0x00702008 _ (lo, hi, 256, 0, 0) s5 Ho H5) as (s6&E6&(Hbar&[Hoff Hsent Hr Hrw Htw]&Htp)); [set_solver|by intros [] [= -> -> -> -> ->]|]. rewrite (sbind_Ok _ _ _ _ _ E6).
  clear E1 E2 E3 E4 E5 E6 H H1 H2 H3 H4 H5. set (w := Z.lor TCTL_EN _). cbn [fst snd] in *.
  unfold sbind at 1, mmio_write32 at 1, smodify. destruct (nic_write _ _ _ _) as [d m'] eqn:He. rewrite <-Hbar in He. apply nic_write_law in He as [Hb Hs].
  destruct (hw_steps_ok o [] _ _ Ho Hs) as (Hok&Htdt&_).
  { unfold tx_part in Htp. destruct (nic_ring (n_dev s6)). cbn in *. simplify_eq. split; cbn.
    - split; cbn; [|done|lia]. unfold tdba. cbn. subst lo hi. rewrite ring_base; [apply Hl|]. rewrite (lo_txd _ _ Hl). unfold room, DMA_POOL_PHYS_BASE, DMA_POOL_SIZE in *. lia.
    - split; cbn; apply Hr.
    - exists []. done.
    - done. }
  set (s7 := set_hw _ s6). unfold sbind, mmio_read32. destruct (nic_read _ _ _) as [v [d2 m2]] eqn:He2.
  apply nic_read_law in He2 as [Hb2 Hs2]. eexists. split; [done|]. split; [cbn in *; congruence|].
  destruct (hw_steps_ok o [] _ _ Ho Hs2 Hok) as (Hok2&Htdt2&_). split; [done|]. cbn in *. rewrite Htdt2, Htdt. unfold tx_part in Htp. destruct (nic_ring (n_dev s6)). cbn in *. by simplify_eq.
Qed.

(** The rings as [new] lays them out in the pool. *)
Lemma new_ok r m o bar dev s :
  off r → sent r = [] → received r = [] → room o → bar ≠ 0 → bar = Z.land (nth 0 (Pci.bars dev) 0) (2 ^ 64 - 1 - 0xF) →
  at_rest r m o bar s →
  ∃ e s', new dev s = (Ok e, s') ∧ laid_out o e ∧ bar0 e = nic_bar (n_dev s') ∧ ring_ok o [] (view s') ∧ tdt (view s').1 = 0 ∧
    tx_tail e = 0 ∧ rx_tail e = 0.
Proof.
  intros Hoff Hsn Hrc Ho Hbar0 Hbar Hs. pose proof Ho as [Ho1 Ho2]. unfold new. rewrite <-Hbar, (proj2 (Z.eqb_neq _ _) Hbar0).
  destruct (mac_rest _ _ _ _ _ Hoff Hs) as (mac&s0&E0&H0). rewrite (sbind_Ok _ _ _ _ _ E0).
  destruct (alloc_rest r m o bar (NUM_RX_DESC * 16) "Failed to allocate RX descriptor ring" _ H0) as (m1&s1&E1&H1&B1); [done|done|lia|]. rewrite (sbind_Ok _ _ _ _ _ E1).
  destruct (buffers_rest (Z.to_nat NUM_RX_DESC) r m1 (o + 4096) bar "Failed to allocate RX buffer" _ H1) as (m2&s2&E2&H2&B2); [change (Z.of_nat (Z.to_nat NUM_RX_DESC)) with 32; lia|]. rewrite (sbind_Ok _ _ _ _ _ E2).
  assert ((λ i, DMA_POOL_PHYS_BASE + (o + 4096) + 4096 * i) <$> seqZ 0 (Z.of_nat (Z.to_nat NUM_RX_DESC)) = rx_phys o) as -> by (apply list_fmap_ext; intros; cbn; lia).
  destruct (descs_rest (rx_phys o) r m2 _ bar (DMA_POOL_VIRT_BASE + o) 0 0 _ H2) as (m3&s3&E3&H3&B3&L3); [lia| |].
  { apply Forall_fmap, Forall_seqZ. intros i Hi. cbn. unfold DMA_POOL_PHYS_BASE, DMA_POOL_SIZE in *. lia. }
  cbn [fst snd]. rewrite (sbind_Ok _ _ _ _ _ E3). change (4096 * Z.of_nat (Z.to_nat NUM_RX_DESC)) with (4096 * 32) in *.
  destruct (alloc_rest r m3 _ bar (NUM_TX_DESC * 16) "Failed to allocate TX descriptor ring" _ H3) as (m4&s4&E4&H4&B4); [done|done|lia|]. rewrite (sbind_Ok _ _ _ _ _ E4).
  destruct (buffers_rest (Z.to_nat NUM_TX_DESC) r m4 _ bar "Failed to allocate TX buffer" _ H4) as (m5&s5&E5&H5&B5); [change (Z.of_nat (Z.to_nat NUM_TX_DESC)) with 16; lia|]. rewrite (sbind_Ok _ _ _ _ _ E5).
  assert ((λ i, DMA_POOL_PHYS_BASE + (o + 4096 + 4096 * 32 + 4096) + 4096 * i) <$> seqZ 0 (Z.of_nat (Z.to_nat NUM_TX_DESC)) = tx_phys o) as -> by (apply list_fmap_ext; intros; cbn; lia).
  destruct (descs_rest (tx_phys o) r m5 _ bar (DMA_POOL_VIRT_BASE + (o + 4096 + 4096 * 32)) 0 TX_DESC_STA_DD _ H5) as (m6&s6&E6&H6&B6&L6); [vm_compute; by split| |].
  { apply Forall_fmap, Forall_seqZ. intros i Hi. cbn. unfold DMA_POOL_PHYS_BASE, DMA_POOL_SIZE in *. lia. }
  cbn [fst snd]. rewrite (sbind_Ok _ _ _ _ _ E6). set (e := Nic bar _ _ _ _ _ _ _).
  assert (laid_out o e) as Hl by (split; cbn; [lia|done|done|f_equal; lia|done]).
  assert (length (tx_phys o) = 16%nat) as Hn16 by (unfold tx_phys; by rewrite length_fmap, length_seqZ).
  assert (length (rx_phys o) = 32%nat) as Hn32 by (unfold rx_phys; by rewrite length_fmap, length_seqZ).
  rewrite Hn16 in B6. rewrite Hn32 in B3. unfold desc in B3, B6, L3, L6. clear E0 E1 E2 E3 E4 E5 E6 H0 H1 H2 H3 H4 H5.
  assert (rx_window o [] m6) as Hrw.
  { assert (∀ x, x < DMA_POOL_VIRT_BASE + o + 4096 * 33 → m6 x = m3 x) as H63 by (intros; rewrite B6, B5, B4 by lia; done).
    assert (∀ i, 0 ≤ i < 32 → rx_phys o !! Z.to_nat i = Some (DMA_POOL_PHYS_BASE + o + 4096 * (i + 1))) as Hphys.
    { intros i Hi. unfold rx_phys. rewrite list_lookup_fmap, lookup_seqZ_lt by lia. cbn. f_equal. lia. }
    split; intros i Hi; destruct (L3 _ _ (Hphys i Hi)) as [La Ls]; rewrite Z.add_0_l, Z2Nat.id in La, Ls by lia.
    - rewrite <-La. apply load_ext. intros. apply H63. places. lia.
    - left. unfold rxd. rewrite (load_ext 1 _ m3), Ls by (intros; apply H63; places; lia). done. }
  assert (tx_window o 0 [] m6) as Htw.
  { assert (∀ i, 0 ≤ i < 16 → tx_phys o !! Z.to_nat i = Some (DMA_POOL_PHYS_BASE + o + 4096 * (i + 34))) as Hphys.
    { intros i Hi. unfold tx_phys. rewrite list_lookup_fmap, lookup_seqZ_lt by lia. cbn. f_equal. lia. }
    split; [cbn; lia|..].
    - intros i Hi. destruct (L6 _ _ (Hphys i Hi)) as [La _]. rewrite Z.add_0_l, Z2Nat.id in La by lia. rewrite <-La. f_equal. unfold txd. lia.
    - done.
    - intros j Hj. pose proof (slot_bounds 0 j) as Hb. destruct (L6 _ _ (Hphys _ Hb)) as [_ Ls]. rewrite Z.add_0_l, Z2Nat.id in Ls by lia.
      replace (txd o (slot 0 j)) with (DMA_POOL_VIRT_BASE + (o + 4096 + 4096 * 32) + 16 * slot 0 j) by (unfold txd; lia). by rewrite Ls. }
  destruct (hw_init_rx r m6 o _ e _ Hsn Hrc Hl H6 Hrw Htw) as (s7&E7&H7).
  destruct (hw_init_tx_ok o e s7 Hl H7) as (s8&E8&Hb8&Hok8&Ht8). rewrite <-E7 in E8. rewrite (sbind_Ok _ _ _ _ _ E8). by eexists _, _.
Qed.

(** ** Runs *)

(** The driver's calls and the card's own steps, with the packets accepted for
    sending and those handed out so far. *)
Record traffic := Traffic { t_state : nic D; t_accepted : list bytes; t_delivered : list bytes }.
Inductive nic_step : traffic → traffic → Prop :=
| step_transmit data s acc del r s' :
    transmit data s = (r, s') →
    nic_step (Traffic s acc del) (Traffic s' (match r with Ok _ => acc ++ [data] | _ => acc end) del)
| step_receive s acc del r s' :
    receive s = (r, s') →
    nic_step (Traffic s acc del) (Traffic s' acc (match r with Ok (Some b) => del ++ [b] | _ => del end))
| step_card s acc del d m :
    nic_bar d = nic_bar (n_dev s) → hw_steps (view s) (nic_ring d, m) →
    nic_step (Traffic s acc del) (Traffic (set_hw (d, m) s) acc del).

Definition traffic_ok (t : traffic) : Prop :=
  nic_ok (t_accepted t) (t_state t) ∧ Forall (λ b, b ∈ received (view (t_state t)).1) (t_delivered t).

Lemma elem_of_prefix (b : bytes) l l' : l `prefix_of` l' → b ∈ l → b ∈ l'.
Proof. intros [k ->] Hb. apply elem_of_app. by left. Qed.
Lemma delivered_mono (l l' del : list bytes) : l `prefix_of` l' → Forall (λ b, b ∈ l) del → Forall (λ b, b ∈ l') del.
Proof. intros Hp Hd. eapply Forall_impl; [exact Hd|]. intros b. by apply elem_of_prefix. Qed.

Lemma card_ok acc s d m : nic_ok acc s → nic_bar d = nic_bar (n_dev s) → hw_steps (view s) (nic_ring d, m) →
  nic_ok acc (set_hw (d, m) s) ∧ received (view s).1 `prefix_of` received (nic_ring d).
Proof.
  intros (e&o&Hdev&Hl&Hbar&Hok&Htt&Hrt) Hb Hs. destruct (hw_steps_ok o acc _ _ (lo_room _ _ Hl) Hs Hok) as (Hok'&Ht&Hp).
  split; [|done]. exists e, o. cbn in *. split; [done|]. split; [done|]. split; [congruence|]. split; [done|]. split; [congruence|done].
Qed.
Lemma nic_step_ok t t' : nic_step t t' → traffic_ok t → traffic_ok t'.
Proof.
  intros Hs [Hn Hd]. destruct Hs as [data s acc del r s' He|s acc del r s' He|s acc del d m Hb Hs]; cbn [t_state t_accepted t_delivered] in *.
  - destruct (transmit_ok acc data s Hn) as (r1&s1&E&H). rewrite He in E. injection E as <- <-. destruct r as [u|e| |]; [|destruct H as [-> _]; by split|done..].
    destruct H as (_&Hn'&_&Hp). split; [done|]. by eapply delivered_mono.
  - destruct (receive_ok acc s Hn) as (p&s1&E&Hn'&Hp&Hb). rewrite He in E. injection E as -> ->. split; [by destruct p|].
    destruct p as [b|]; [|by eapply delivered_mono]. apply Forall_app. split; [by eapply delivered_mono|]. apply Forall_singleton. eapply elem_of_prefix; [done|by apply Hb].
  - destruct (card_ok _ _ _ _ Hn Hb Hs) as [Hn' Hp]. split; [done|]. by eapply delivered_mono.
Qed.

Lemma nic_steps_ok t t' : rtc nic_step t t' → traffic_ok t → traffic_ok t'.
Proof. induction 1 as [|x y z Hxy _ IH]; [done|]. intros Hx. apply IH. by eapply nic_step_ok. Qed.

(** A machine before [init]: the card powered up and idle, and room in the pool. *)
Record powered_up (o : Z) (dev : Pci.PciDevice) s : Prop := {
  pu_off : off (nic_ring (n_dev s));
  pu_fresh : sent (nic_ring (n_dev s)) = [] ∧ received (nic_ring (n_dev s)) = [];
  pu_pool : pool_top o (n_dma s) ∧ room o;
  pu_bar : nic_bar (n_dev s) ≠ 0 ∧ nic_bar (n_dev s) = Z.land (nth 0 (Pci.bars dev) 0) (2 ^ 64 - 1 - 0xF);
  pu_ids : Pci.vendor_id dev = E1000_VENDOR ∧ Pci.device_id dev = E1000_DEVICE_82540EM }.

(** C10: After bring-up, along any interleaving of packets handed over, packets taken
    and the card's own work, no call panics; the packets that went out are the first
    ones handed over, each once, in order and unaltered, with at most sixteen still
    waiting; a packet is refused only when it is too large or sixteen wait; and every
    packet handed out is one that came in. *)
Theorem nic_carries_packets o dev devices s t :
  powered_up o dev s → Pci.find_device (λ d, (Pci.vendor_id d =? E1000_VENDOR) && (Pci.device_id d =? E1000_DEVICE_82540EM)) devices = Some dev →
  (init devices s).1 = Ok tt ∧
  (rtc nic_step (Traffic (init devices s).2 [] []) t →
    (∃ waiting, t_accepted t = sent (view (t_state t)).1 ++ waiting ∧ (length waiting ≤ 16)%nat) ∧
    Forall (λ b, b ∈ received (view (t_state t)).1) (t_delivered t) ∧
    (∃ p, (receive (t_state t)).1 = Ok p) ∧
    ∀ data, (transmit data (t_state t)).1 = Ok tt ∨
      (∃ e, (transmit data (t_state t)).1 = Err e) ∧
      (TX_BUFFER_SIZE < Z.of_nat (length data) ∨ length (t_accepted t) = (length (sent (view (t_state t)).1) + 16)%nat)).
Proof.
  intros [Hoff [Hsn Hrc] [Hpool Hroom] [Hb0 Hb] Hids] Hfind. unfold init. rewrite Hfind.
  destruct (new_ok _ (dma_mem (n_dma s)) o _ dev s Hoff Hsn Hrc Hroom Hb0 Hb) as (e&s1&E1&Hl&Hbar&Hok&Ht&Htt&Hrt); [by split|].
  rewrite (sbind_Ok _ _ _ _ _ E1). split; [done|]. intros Hrun.
  assert (traffic_ok t) as [Hn Hd].
  { cut (traffic_ok (Traffic (set_device e s1) [] [])); [|split; [|done]].
    - by apply nic_steps_ok.
    - exists e, o. cbn in *. split; [done|]. split; [done|]. split; [done|]. split; [done|]. split; [congruence|lia]. }
  destruct (receive_ok _ _ Hn) as (p&s2&E2&_). split; [|split; [done|split]].
  - destruct Hn as (_&_&_&_&_&[_ _ (pending&Hacc&[Hc _ _ _]&_) _]&_). by exists pending.
  - exists p. by rewrite E2.
  - intros data. destruct (transmit_ok _ data _ Hn) as (r&s3&E3&H). rewrite E3. destruct r as [[]|err| |]; [by left|right|done..].
    destruct H as [_ H]. split; [by exists err|done].
Qed.
End driver.

(** ** A card *)

(** A card that works when told to: [c_work] is how many packets it sends at each
    register access, [c_wire] what arrives. *)
Record card := Card { c_bar : Z; c_ring : ring }.
#[export] Instance card_hw : NicHw card := {
  nic_read a d m := (0, (d, m));
  nic_write a v d m := (Card (c_bar d) (set_reg (a - c_bar d) v (c_ring d)), m) }.
#[export] Instance card_view : NicView card := { nic_bar := c_bar; nic_ring := c_ring }.
#[export] Instance card_laws : NicLaws card.
Proof.
  split.
  - intros a d m v d' m' [= <- <- <-]. done.
  - intros off' v d m d' m'. cbn. replace (c_bar d + off' - c_bar d) with off' by lia. by intros [= <- <-].
Qed.

(** What it does with a packet of its own accord. *)
Definition send_one (s : nic card) : nic card :=
  let r := c_ring (n_dev s) in let m := dma_mem (n_dma s) in
  set_hw (Card (c_bar (n_dev s)) (sent_one (load_bytes (Z.to_nat (load 2 (tx_head r + F_LENGTH) m)) (dma_phys_to_virt (load 8 (tx_head r) m)) m) r),
          store 1 (tx_head r + F_STATUS) TX_DESC_STA_DD m) s.
Lemma send_one_step s acc del :
  tx_on (c_ring (n_dev s)) = true → tdh (c_ring (n_dev s)) ≠ tdt (c_ring (n_dev s)) →
  load 1 (tx_head (c_ring (n_dev s)) + F_CMD) (dma_mem (n_dma s)) = Z.lor TX_DESC_CMD_EOP TX_DESC_CMD_RS →
  nic_step (Traffic s acc del) (Traffic (send_one s) acc del).
Proof. intros H1 H2 H3. unfold send_one. apply step_card; [done|]. apply rtc_once. by apply (hw_send _ _ TX_DESC_STA_DD). Qed.
Definition recv_one (b : bytes) (s : nic card) : nic card :=
  let r := c_ring (n_dev s) in let m := dma_mem (n_dma s) in
  set_hw (Card (c_bar (n_dev s)) (received_one b r),
          store 1 (rx_head r + F_STATUS) (Z.lor RX_DESC_DD RX_DESC_EOP)
            (store 2 (rx_head r + F_LENGTH) (Z.of_nat (length b)) (store_bytes (dma_phys_to_virt (load 8 (rx_head r) m)) b m))) s.

Definition demo_dev : Pci.PciDevice := Pci.Device 0 3 0 0x8086 0x100E 2 0 0 3 [0xFEBC0000].
Definition demo_card : nic card :=
  State None (DmaState (Some (dma_new DMA_POOL_SIZE)) (λ _, 0)) (Card 0xFEBC0000 (Ring 0 0 0 0 0 false 0 0 0 0 0 false [] [])).
Lemma demo_powered_up : powered_up 0 demo_dev demo_card.
Proof.
  split; [done|done| |by vm_compute|done]. split; [|by vm_compute]. exists (dma_new DMA_POOL_SIZE). split; [done|]. split; [|done]. by split; vm_compute.
Qed.
Abbreviation demo_up := ((init [demo_dev] demo_card).2).
Definition call {A} (f : stm (nic card) string A) (s : nic card) : nic card := (f s).2.

Lemma call_step data s acc del : (transmit data s).1 = Ok tt →
  nic_step (Traffic s acc del) (Traffic (call (transmit data) s) (acc ++ [data]) del).
Proof.
  intros H. unfold call. pose proof (step_transmit data s acc del (transmit data s).1 (transmit data s).2 (surjective_pairing _)) as Hs.
  by rewrite H in Hs.
Qed.

Lemma nic_carries_packets_witness :
  let s := send_one (call (transmit [1; 2; 3]) demo_up) in
  sent (c_ring (n_dev s)) = [[1; 2; 3]] ∧
  ∃ waiting, [[1; 2; 3]] = sent (c_ring (n_dev s)) ++ waiting ∧ (length waiting ≤ 16)%nat.
Proof.
  intros s. split; [by vm_compute|].
  destruct (nic_carries_packets 0 demo_dev [demo_dev] demo_card (Traffic s [[1; 2; 3]] []) demo_powered_up eq_refl) as [_ H].
  apply H. apply (rtc_l _ _ (Traffic (call (transmit [1; 2; 3]) demo_up) [[1; 2; 3]] [])); [|apply rtc_once].
  - apply (call_step [1; 2; 3] demo_up [] []). by vm_compute.
  - apply send_one_step; by vm_compute.
Defined.

(** The first packet stays behind: the driver looks at the second descriptor, the
    card fills the first. *)
Example first_packet_stays_behind :
  let s := recv_one [42] demo_up in
  (receive s).1 = Ok None ∧ (receive (recv_one [43] s)).1 = Ok (Some [43]).
Proof. by vm_compute. Qed.

(** Sixteen packets handed over before the card has sent one: head and tail meet, to
    the card the ring is empty, to the driver it is full, and nothing moves again. *)
Example full_ring_is_stuck :
  let s := Nat.iter 16 (call (transmit [7])) demo_up in
  tdh (c_ring (n_dev s)) = tdt (c_ring (n_dev s)) ∧ (transmit [8] s).1 = Err "TX ring full"%string.
Proof. by vm_compute. Qed.
