(* ===== verification/Ahci.v ===== *)
(** * The SATA driver (driver/ahci.rs)

    Bringing up the controller and its ports, building and issuing commands in DMA
    memory, and the transfers the block layer uses.  The controller and the disks
    are a class: registers, memory they share with the driver, and time; its laws
    are the AHCI and ATA specifications' reading of the structures in memory
    ([decode]).  [Ahci.v] is the code, [AhciProps.v] the theorems. *)

From S2P Require Import Prelude Capability Frames Pci.

(** ** The controller *)

(** The registers behind [mmio::read_u32] and [mmio::write_u32], and
    [task::sleep_yield]: in each of them the controller may go on with its work,
    in memory as well. *)
Class Hba (D : Type) := {
  hba_read : Z → D → mem → outcome string Z * (D * mem);
  hba_write : Z → Z → D → mem → outcome string unit * (D * mem);
  hba_wait : D → mem → D * mem }.

Module Ahci.

(** [driver/ahci.rs:31-33, !AHCI_CLASS] *)
Definition is_ahci (d : Pci.PciDevice) : bool :=
  (Pci.class_code d =? 0x01) && (Pci.subclass d =? 0x06) && (Pci.prog_if d =? 0x01).
(** [driver/ahci.rs:37-41, !HBA_CAP] *)
Definition HBA_GHC : Z := 0x04.
Definition HBA_PI : Z := 0x0C.
Definition HBA_VS : Z := 0x10.
(** [driver/ahci.rs:44-57, !PORT_CLB] *)
Definition PORT_CLB : Z := 0x00.
Definition PORT_CLBU : Z := 0x04.
Definition PORT_FB : Z := 0x08.
Definition PORT_FBU : Z := 0x0C.
Definition PORT_IS : Z := 0x10.
Definition PORT_CMD : Z := 0x18.
Definition PORT_TFD : Z := 0x20.
Definition PORT_SIG : Z := 0x24.
Definition PORT_SSTS : Z := 0x28.
Definition PORT_SCTL : Z := 0x2C.
Definition PORT_SERR : Z := 0x30.
Definition PORT_CI : Z := 0x38.
(** [driver/ahci.rs:66-68, !GHC_AHCI_ENABLE] *)
Definition GHC_AHCI_ENABLE : Z := 2 ^ 31.
Definition GHC_HBA_RESET : Z := 1.
(** [driver/ahci.rs:71-74, !PORT_CMD_ST] *)
Definition PORT_CMD_ST : Z := 2 ^ 0.
Definition PORT_CMD_FRE : Z := 2 ^ 4.
Definition PORT_CMD_FR : Z := 2 ^ 14.
Definition PORT_CMD_CR : Z := 2 ^ 15.

(** [driver/ahci.rs:104-110, DeviceType] *)
Inductive DeviceType : Type := NoDevice | Sata | Atapi | Semb | PortMultiplier.
#[export] Instance device_type_eq_dec : EqDecision DeviceType.
Proof. solve_decision. Defined.
(** [driver/ahci.rs:113-122, DeviceType::from_signature] *)
Definition from_signature (sig : Z) : DeviceType :=
  if sig =? 0x00000101 then Sata else if sig =? 0xEB140101 then Atapi else
  if sig =? 0xC33C0101 then Semb else if sig =? 0x96690101 then PortMultiplier else NoDevice.
(** [driver/ahci.rs:124-132, DeviceType::name] *)
Definition device_type_name (t : DeviceType) : string :=
  match t with
  | NoDevice => "None/Unknown" | Sata => "SATA" | Atapi => "ATAPI" | Semb => "SEMB" | PortMultiplier => "Port Multiplier"
  end.

(** [driver/ahci.rs:83-89, AhciController] *)
Record AhciController := Controller {
  pci_dev : Pci.PciDevice; abar_phys : Z; abar_virt : Z; ports_implemented : Z; num_ports : Z }.
(** [driver/ahci.rs:93-101, AhciPort] *)
Record AhciPort := Port { index : Z; signature : Z; device_type : DeviceType; clb_phys : Z; fb_phys : Z }.

(** [driver/ahci.rs:446-449, !ATA_CMD_IDENTIFY] *)
Definition ATA_CMD_IDENTIFY : Z := 0xEC.
Definition ATA_CMD_READ_DMA_EXT : Z := 0x25.
Definition ATA_CMD_WRITE_DMA_EXT : Z := 0x35.
Definition ATA_CMD_FLUSH_CACHE_EXT : Z := 0xEA.
(** [driver/ahci.rs:454-454, !SECTOR_SIZE] *)
Definition SECTOR_SIZE : Z := 512.
(** [driver/ahci.rs:457-459, !TFD_BSY] *)
Definition TFD_BSY : Z := 2 ^ 7.
Definition TFD_DRQ : Z := 2 ^ 3.
Definition TFD_ERR : Z := 2 ^ 0.
(** [driver/ahci.rs:463-470, Direction] *)
Inductive Direction : Type := NoData | DirRead | DirWrite.

(** [driver/ahci.rs:135-136, !CONTROLLER]: the statics, the capabilities, the DMA
    pool with its memory, and the device. *)
Record ahci (D : Type) := State {
  controller : option AhciController; ports : list AhciPort; a_caps : tables; a_dma : dma_state; a_dev : D }.
Arguments State {D}.
Arguments controller {D}.
Arguments ports {D}.
Arguments a_caps {D}.
Arguments a_dma {D}.
Arguments a_dev {D}.

Section driver.
Context {D : Type} `{HB : Hba D}.
Abbreviation state := (ahci D).
Abbreviation drv := (stm state string).
Implicit Types s : state.

Definition set_hw (r : D * mem) s : state :=
  State (controller s) (ports s) (a_caps s) (DmaState (dma_pool (a_dma s)) r.2) r.1.
Definition set_dma (d : dma_state) s : state := State (controller s) (ports s) (a_caps s) d (a_dev s).
Definition reg_read (addr : Z) : drv Z := λ s,
  let r := hba_read addr (a_dev s) (dma_mem (a_dma s)) in (r.1, set_hw r.2 s).
Definition reg_write (addr v : Z) : drv unit := λ s,
  let r := hba_write addr v (a_dev s) (dma_mem (a_dma s)) in (r.1, set_hw r.2 s).
Definition sleep_yield : drv unit := smodify (λ s, set_hw (hba_wait (a_dev s) (dma_mem (a_dma s))) s).

(** [Result::expect] *)
Definition expect {A} (f : drv A) : drv A := λ s, match f s with (Err _, s) => (Panic, s) | p => p end.
(** [.ok()] *)
Definition to_option {A} (f : drv A) : drv (option A) := λ s,
  match f s with
  | (Ok a, s) => (Ok (Some a), s)
  | (Err _, s) => (Ok None, s)
  | (Panic, s) => (Panic, s)
  | (Diverge, s) => (Diverge, s)
  end.

(** A bounded loop: [step] says when to leave it and with what. *)
Fixpoint poll {A} (n : nat) (step : drv (option A)) : drv (option A) :=
  match n with
  | O => sret None
  | S n => let! r := step in match r with Some a => sret (Some a) | None => poll n step end
  end.
(** [for _ in 0..n { r = read; if done(r) { break } sleep_yield() }]: the last value read. *)
Fixpoint poll_reg (n : nat) (addr v : Z) (ready : Z → bool) : drv Z :=
  match n with
  | O => sret v
  | S n => let! v := reg_read addr in
           if ready v then sret v else let! _ := sleep_yield in poll_reg n addr v ready
  end.
Fixpoint sleeps (n : nat) : drv unit :=
  match n with O => sret tt | S n => let! _ := sleep_yield in sleeps n end.

(** [dma::alloc_dma(n)] and an error where there is none. *)
Definition alloc_or (size : Z) (e : string) : drv (Z * Z) := λ s,
  match alloc_dma size (a_dma s) with
  | (Ok (Some (virt, phys, _)), d) => (Ok (virt, phys), set_dma d s)
  | (Ok None, d) => (Err e, set_dma d s)
  | (_, d) => (Panic, set_dma d s)
  end.
Definition on_mem (f : mem → mem) : drv unit :=
  smodify (λ s, set_dma (DmaState (dma_pool (a_dma s)) (f (dma_mem (a_dma s)))) s).
(** [write_unaligned] of an [n]-byte field. *)
Definition poke (n : nat) (a v : Z) : drv unit := on_mem (store n a v).

(** ** Bring-up *)

Definition clear_bits (v m : Z) : Z := Z.land v (2 ^ 32 - 1 - m).
Definition any_bits (v m : Z) : bool := negb (Z.land v m =? 0).
Definition set_bits_of (addr m : Z) : drv unit := let! v := reg_read addr in reg_write addr (Z.lor v m).

(** [driver/ahci.rs:263-386, probe_port] *)
Definition probe_port (abar index : Z) : drv (option AhciPort) := to_option (
  let port_base := abar + 0x100 + index * 0x80 in
  let! ssts := reg_read (port_base + PORT_SSTS) in
  if Z.land ssts 0xF =? 0 then sthrow "no device"%string else
  let cmd_addr := port_base + PORT_CMD in
  let! cmd := reg_read cmd_addr in
  let! _ := reg_write cmd_addr (clear_bits cmd (Z.lor PORT_CMD_ST PORT_CMD_FRE)) in
  let! _ := poll_reg 100 cmd_addr cmd (λ c, negb (any_bits c (Z.lor PORT_CMD_CR PORT_CMD_FR))) in
  let! clb := alloc_or 1024 "no command list"%string in
  let! fb := alloc_or 256 "no FIS area"%string in
  let! _ := reg_write (port_base + PORT_CLB) (Z.land clb.2 0xFFFFFFFF) in
  let! _ := reg_write (port_base + PORT_CLBU) (wrap32 (Z.shiftr clb.2 32)) in
  let! _ := reg_write (port_base + PORT_FB) (Z.land fb.2 0xFFFFFFFF) in
  let! _ := reg_write (port_base + PORT_FBU) (wrap32 (Z.shiftr fb.2 32)) in
  let! serr := reg_read (port_base + PORT_SERR) in
  let! _ := reg_write (port_base + PORT_SERR) serr in
  let! intr := reg_read (port_base + PORT_IS) in
  let! _ := reg_write (port_base + PORT_IS) intr in
  let sctl_addr := port_base + PORT_SCTL in
  let! sctl := reg_read sctl_addr in
  let sctl := Z.lor (clear_bits sctl 0xF) 1 in
  let! _ := reg_write sctl_addr sctl in
  let! _ := sleeps 10 in
  let! _ := reg_write sctl_addr (clear_bits sctl 0xF) in
  let! ready := poll 200 (let! v := reg_read (port_base + PORT_SSTS) in
                          if Z.land v 0xF =? 3 then sret (Some tt) else let! _ := sleep_yield in sret None) in
  match ready with
  | None => sthrow "did not come ready"%string
  | Some _ =>
      let! _ := set_bits_of cmd_addr PORT_CMD_FRE in
      let! _ := poll_reg 100 cmd_addr 0 (λ c, any_bits c PORT_CMD_FR) in
      let! _ := set_bits_of cmd_addr PORT_CMD_ST in
      let! sig := reg_read (port_base + PORT_SIG) in
      sret (Port index sig (from_signature sig) clb.2 fb.2)
  end).

Fixpoint probe_ports (idxs : list Z) (abar pi : Z) : drv (list AhciPort) :=
  match idxs with
  | [] => sret []
  | i :: idxs =>
      if Z.land pi (wrap32 (Z.shiftl 1 i)) =? 0 then probe_ports idxs abar pi else
      let! p := probe_port abar i in
      let! ps := probe_ports idxs abar pi in
      sret (match p with Some p => p :: ps | None => ps end)
  end.

(** [driver/ahci.rs:139-259, init]: [task] is the caller, [devices] the bus. *)
Definition init (task : Z) (devices : list Pci.PciDevice) : drv unit :=
  match Pci.find_device is_ahci devices with
  | None => sret tt
  | Some dev =>
      let bar5 := nth 5 (Pci.bars dev) 0 in
      if bar5 =? 0 then sret tt else
      let abar := clear_bits bar5 0xF in
      let! _ := smodify (λ s, State (controller s) (ports s)
        (mint task (Capability.Mmio abar (8 * 1024)) (Rights.union Rights.READ Rights.WRITE) (a_caps s)).1 (a_dma s) (a_dev s)) in
      let! cap_reg := expect (reg_read abar) in
      let num_ports := Z.land cap_reg 0x1F + 1 in
      let! _ := expect (reg_read (abar + HBA_VS)) in
      let! ghc := expect (reg_read (abar + HBA_GHC)) in
      let! _ := expect (reg_write (abar + HBA_GHC) (Z.lor ghc GHC_HBA_RESET)) in
      let! _ := expect (poll_reg 100 (abar + HBA_GHC) ghc (λ g, negb (any_bits g GHC_HBA_RESET))) in
      let! ghc := expect (reg_read (abar + HBA_GHC)) in
      let! _ := expect (reg_write (abar + HBA_GHC) (Z.lor ghc GHC_AHCI_ENABLE)) in
      let! pi := expect (reg_read (abar + HBA_PI)) in
      let! _ := smodify (λ s, State (Some (Controller dev abar (wrap64 (0xFFFFFF8000000000 + abar)) pi num_ports))
                                (ports s) (a_caps s) (a_dma s) (a_dev s)) in
      let! ps := probe_ports (seqZ 0 num_ports) abar pi in
      smodify (λ s, State (controller s) ps (a_caps s) (a_dma s) (a_dev s))
  end.

(** [driver/ahci.rs:389-391, list_devices] *)
Definition list_devices s : list AhciPort := ports s.

(** ** Commands *)

(** [driver/ahci.rs:598-607, wait_not_busy] *)
Definition wait_not_busy (port_base : Z) (tries : nat) : drv bool :=
  let! r := poll tries (λ s,
    match reg_read (port_base + PORT_TFD) s with
    | (Ok tfd, s) => if any_bits tfd (Z.lor TFD_BSY TFD_DRQ) then (let! _ := sleep_yield in sret None) s
                     else (Ok (Some true), s)
    | (Err _, s) => (Ok (Some false), s)
    | (Panic, s) => (Panic, s)
    | (Diverge, s) => (Diverge, s)
    end) in
  sret (default false r).

(** [driver/ahci.rs:399-418, CommandHeader]: the fields the driver fills in, by their
    offsets. *)
Definition write_header (hd flags prdtl ct : Z) : drv unit :=
  let! _ := poke 2 hd flags in
  let! _ := poke 2 (hd + 2) prdtl in
  let! _ := poke 4 (hd + 4) 0 in
  let! _ := poke 4 (hd + 8) (Z.land ct 0xFFFFFFFF) in
  poke 4 (hd + 12) (wrap32 (Z.shiftr ct 32)).
Definition byte_of (v k : Z) : Z := Z.land (Z.shiftr v k) 0xFF.
(** [driver/ahci.rs:425-443, FisRegH2D]: the same for the command FIS. *)
Definition write_fis (t command lba sector_count : Z) : drv unit :=
  let! _ := poke 1 t 0x27 in
  let! _ := poke 1 (t + 1) 0x80 in
  let! _ := poke 1 (t + 2) command in
  let! _ := poke 1 (t + 4) (byte_of lba 0) in
  let! _ := poke 1 (t + 5) (byte_of lba 8) in
  let! _ := poke 1 (t + 6) (byte_of lba 16) in
  let! _ := poke 1 (t + 8) (byte_of lba 24) in
  let! _ := poke 1 (t + 9) (byte_of lba 32) in
  let! _ := poke 1 (t + 10) (byte_of lba 40) in
  let! _ := poke 1 (t + 7) (if command =? ATA_CMD_IDENTIFY then 0 else 2 ^ 6) in
  let! _ := poke 1 (t + 12) (byte_of sector_count 0) in
  poke 1 (t + 13) (byte_of sector_count 8).
Definition write_prd (t data_phys byte_count : Z) : drv unit :=
  let! _ := poke 4 (t + 128) (Z.land data_phys 0xFFFFFFFF) in
  let! _ := poke 4 (t + 132) (wrap32 (Z.shiftr data_phys 32)) in
  let! _ := poke 4 (t + 136) 0 in
  poke 4 (t + 140) (Z.lor (byte_count - 1) 1).

(** The wait for the command to retire: whether it did. *)
Definition await (port_base : Z) (tries : nat) : drv bool :=
  let! r := poll tries (
    let! ci := reg_read (port_base + PORT_CI) in
    if Z.land ci 1 =? 0 then sret (Some true) else
    let! tfd := reg_read (port_base + PORT_TFD) in
    if any_bits tfd TFD_ERR then sret (Some false) else
    let! _ := sleep_yield in sret None) in
  sret (default false r).

(** The command in memory, and its execution. *)
Definition build_command (clb command lba sector_count data_phys byte_count : Z) (dir : Direction) : drv unit :=
  let! ct := alloc_or 256 "dma alloc (command table) failed"%string in
  let prdtl := if 0 <? byte_count then 1 else 0 in
  let flags := match dir with DirWrite => Z.lor 5 (2 ^ 6) | _ => 5 end in
  let! _ := write_header (dma_phys_to_virt clb) flags prdtl ct.2 in
  let t := dma_phys_to_virt ct.2 in
  let! _ := on_mem (zero_bytes t 256) in
  let! _ := write_fis t command lba sector_count in
  if 0 <? byte_count then write_prd t data_phys byte_count else sret tt.
Definition run_command (port_base : Z) : drv unit :=
  let! intr := reg_read (port_base + PORT_IS) in
  let! _ := reg_write (port_base + PORT_IS) intr in
  let! _ := reg_write (port_base + PORT_CI) 1 in
  let! completed := await port_base 2000 in
  if negb completed then sthrow "command timeout"%string else
  let! tfd := reg_read (port_base + PORT_TFD) in
  if any_bits tfd TFD_ERR then sthrow "command failed (TFD error bit set)"%string else sret tt.

(** [driver/ahci.rs:482-594, issue_command] *)
Definition issue_command (abar clb port_index command lba sector_count data_phys byte_count : Z) (dir : Direction) : drv unit :=
  let port_base := abar + 0x100 + port_index * 0x80 in
  let! ready := wait_not_busy port_base 1000 in
  if negb ready then sthrow "port busy before command"%string else
  let! _ := build_command clb command lba sector_count data_phys byte_count dir in
  run_command port_base.

(** [driver/ahci.rs:611-615, port_context] *)
Definition port_context (port_index : Z) s : option (Z * Z) :=
  match controller s, List.find (λ p, index p =? port_index) (ports s) with
  | Some c, Some p => Some (abar_phys c, clb_phys p)
  | _, _ => None
  end.

(** [dma::mark], the operation, [dma::reset_to]. *)
Definition scoped {A} (f : drv A) : drv A := λ s,
  let m := dma_mark (a_dma s) in
  match f (set_dma m.2 s) with
  | (Panic, s) => (Panic, s)
  | (Diverge, s) => (Diverge, s)
  | (r, s) => (r, set_dma (dma_reset_to m.1 (a_dma s)) s)
  end.

(** [driver/ahci.rs:619-651, identify_device] *)
Definition identify_device (port_index : Z) : drv (option bytes) := λ s,
  match port_context port_index s with
  | None => (Ok None, s)
  | Some (abar, clb) =>
      scoped (to_option (
        let! data := alloc_or SECTOR_SIZE "dma alloc failed"%string in
        let! _ := issue_command abar clb port_index ATA_CMD_IDENTIFY 0 1 data.2 SECTOR_SIZE DirRead in
        λ s, (Ok (load_bytes 512 data.1 (dma_mem (a_dma s))), s))) s
  end.

(** [driver/ahci.rs:657-694, read_sectors]: the count of bytes and the new buffer. *)
Definition read_sectors (port_index lba count : Z) (buf : bytes) : drv (Z * bytes) := λ s,
  if count =? 0 then (Ok (0, buf), s) else
  let n := count * SECTOR_SIZE in
  if Z.of_nat (length buf) <? n then (Err "buffer too small for requested sector count"%string, s) else
  match port_context port_index s with
  | None => (Err "unknown AHCI port"%string, s)
  | Some (abar, clb) =>
      scoped (
        let! data := alloc_or n "dma alloc (read buffer) failed"%string in
        let! _ := issue_command abar clb port_index ATA_CMD_READ_DMA_EXT lba count data.2 (wrap32 n) DirRead in
        λ s, (Ok (n, splice 0 (load_bytes (Z.to_nat n) data.1 (dma_mem (a_dma s))) buf), s)) s
  end.

(** [driver/ahci.rs:701-751, write_sectors] *)
Definition write_sectors (port_index lba count : Z) (buf : bytes) : drv Z := λ s,
  if count =? 0 then (Ok 0, s) else
  let n := count * SECTOR_SIZE in
  if Z.of_nat (length buf) <? n then (Err "buffer too small for requested sector count"%string, s) else
  match port_context port_index s with
  | None => (Err "unknown AHCI port"%string, s)
  | Some (abar, clb) =>
      scoped (
        let! data := alloc_or n "dma alloc (write buffer) failed"%string in
        let! _ := on_mem (store_bytes data.1 (take (Z.to_nat n) buf)) in
        let! _ := issue_command abar clb port_index ATA_CMD_WRITE_DMA_EXT lba count data.2 (wrap32 n) DirWrite in
        let! _ := issue_command abar clb port_index ATA_CMD_FLUSH_CACHE_EXT 0 0 0 0 NoData in
        sret n) s
  end.
End driver.

(** ** IDENTIFY data *)

(** [driver/ahci.rs:755-760, DriveInfo]: the strings as their raw bytes. *)
Record DriveInfo := Drive { model : bytes; serial : bytes; sectors : Z; sector_size : Z }.

Definition id_word (id : bytes) (i : nat) : Z := Z.lor (nth (2 * i) id 0) (Z.shiftl (nth (2 * i + 1) id 0) 8).
(** Byte-swapped pairs. *)
Definition id_string (id : bytes) (first n : nat) : bytes :=
  mjoin ((λ i, [Z.shiftr (id_word id i) 8; Z.land (id_word id i) 0xFF]) <$> seq first n).
Definition power_of_two (x : Z) : bool := negb (x =? 0) && (Z.land x (x - 1) =? 0).

(** [driver/ahci.rs:762-816, parse_identify]: [from_utf8_lossy] and [trim] of the
    strings are left to [text]. *)
Definition parse_identify (text : bytes → bytes) (id : bytes) : DriveInfo :=
  let sz := wrap32 (Z.lor (id_word id 117) (Z.shiftl (id_word id 118) 16) * 2) in
  Drive (text (id_string id 27 20)) (text (id_string id 10 10))
    (Z.lor (Z.lor (Z.lor (id_word id 100) (Z.shiftl (id_word id 101) 16)) (Z.shiftl (id_word id 102) 32))
       (Z.shiftl (id_word id 103) 48))
    (if Z.land (id_word id 106) (2 ^ 14) =? 0 then 512 else if power_of_two sz then sz else 512).
End Ahci.
