(* ===== verification/AhciProps.v ===== *)
(** * Theorems about the SATA driver

    What the driver puts in memory is, to the controller, the command it means;
    a transfer that succeeds has moved exactly the sectors it names between the
    disk and the caller's buffer, touches no other sector whatever happens, and
    gives its DMA memory back. *)

From S2P Require Import Prelude Capability Frames Pci Ahci.
#[local] Ltac Zify.zify_post_hook ::= Z.to_euclidean_division_equations.

(** ** The specification of the controller *)

Import Ahci.

(** A command as the controller finds it in the first slot of a port's list: the
    ATA operation with its 48-bit address and count, the direction of the header,
    and the one region of data with its length. *)
Record command := Cmd { k_op : Z; k_lba : Z; k_count : Z; k_write : bool; k_prd : option (Z * Z) }.
Definition decode (m : mem) (clb : Z) : option command :=
  let hd := dma_phys_to_virt clb in
  let flags := load 2 hd m in
  let t := dma_phys_to_virt (load 4 (hd + 8) m + 2 ^ 32 * load 4 (hd + 12) m) in
  if (Z.land flags 0x1F =? 5) && (load 1 t m =? 0x27) && Z.testbit (load 1 (t + 1) m) 7 then
    Some (Cmd (load 1 (t + 2) m)
      (if Z.testbit (load 1 (t + 7) m) 6
       then le_dec [load 1 (t + 4) m; load 1 (t + 5) m; load 1 (t + 6) m; load 1 (t + 8) m; load 1 (t + 9) m; load 1 (t + 10) m]
       else 0)
      (load 1 (t + 12) m + 256 * load 1 (t + 13) m) (Z.testbit flags 6)
      (if load 2 (hd + 2) m =? 0 then None
       else Some (load 4 (t + 128) m + 2 ^ 32 * load 4 (t + 132) m, load 4 (t + 140) m mod 2 ^ 22 + 1)))
  else None.

Definition in_buffer (c : command) (x : Z) : Prop :=
  match k_prd c with Some (a, n) => dma_phys_to_virt a ≤ x < dma_phys_to_virt a + n | None => False end.

(** Registers of a port. *)
Definition port_reg (abar p r : Z) : Z := abar + 0x100 + p * 0x80 + r.

(** What can be observed of a controller: the sectors of the disks, the command a
    port is executing, whether its last one failed, and its command list. *)
Class HbaView (D : Type) := {
  hba_sector : D → Z → Z → bytes;
  hba_pending : D → Z → option command;
  hba_failed : D → Z → bool;
  hba_clb : D → Z → Z;
  hba_abar : D → Z }.

Section view.
Context {D : Type} `{HV : HbaView D}.
Definition quiet (d : D) : Prop := ∀ p, hba_pending d p = None.
Definition only (p : Z) (d : D) : Prop := ∀ q, q ≠ p → hba_pending d q = None.
Definition same (d : D) (m : mem) (d' : D) (m' : mem) : Prop :=
  (∀ x, m' x = m x) ∧ (∀ q l, hba_sector d' q l = hba_sector d q l) ∧ quiet d' ∧
  (∀ p, hba_clb d' p = hba_clb d p) ∧ (∀ p, hba_failed d' p = hba_failed d p) ∧ hba_abar d' = hba_abar d.
(** The work on a command so far: its buffer, if it reads, and its sectors, if it
    writes, may have changed. *)
Definition works (p : Z) (c : command) (d : D) (m : mem) (d' : D) (m' : mem) : Prop :=
  (∀ x, m' x = m x ∨ k_write c = false ∧ in_buffer c x) ∧
  (∀ q l, hba_sector d' q l = hba_sector d q l ∨
     k_op c = ATA_CMD_WRITE_DMA_EXT ∧ q = p ∧ k_lba c ≤ l < k_lba c + k_count c).
(** A command is done without an error: a region that is large enough holds the
    sectors read, and the sectors written are its bytes. *)
Definition finished (p : Z) (c : command) (d : D) (m : mem) : Prop :=
  ∀ a n, k_prd c = Some (a, n) → 512 * k_count c ≤ n →
    let data := load_bytes (Z.to_nat (512 * k_count c)) (dma_phys_to_virt a) m in
    (k_op c = ATA_CMD_READ_DMA_EXT → k_write c = false →
       data = mjoin (hba_sector d p <$> seqZ (k_lba c) (k_count c))) ∧
    (k_op c = ATA_CMD_WRITE_DMA_EXT → k_write c = true → ∀ l, k_lba c ≤ l < k_lba c + k_count c →
       hba_sector d p l = slice (Z.to_nat (512 * (l - k_lba c))) 512 data).
Definition step (p : Z) (c : command) (d : D) (m : mem) (d' : D) (m' : mem) : Prop :=
  works p c d m d' m' ∧ only p d' ∧ (∀ q, hba_clb d' q = hba_clb d q) ∧ hba_abar d' = hba_abar d ∧
  (hba_pending d' p = Some c ∨ hba_pending d' p = None ∧ (hba_failed d' p = true ∨ finished p c d' m')).
Definition no_crash {A} (r : outcome string A) : Prop := r ≠ Panic ∧ r ≠ Diverge.
End view.

(** The AHCI specification, as far as the driver relies on it. *)
Class HbaLaws (D : Type) `{Hba D} `{!HbaView D} : Prop := {
  sector_size_law (d : D) p l : length (hba_sector d p l) = 512%nat;
  read_total a (d : D) m : no_crash (hba_read a d m).1;
  write_total a v (d : D) m : no_crash (hba_write a v d m).1;
  (* at rest nothing changes *)
  quiet_read a (d : D) m r d' m' : quiet d → hba_read a d m = (r, (d', m')) → same d m d' m';
  quiet_wait (d : D) m d' m' : quiet d → hba_wait d m = (d', m') → same d m d' m';
  quiet_clear p v (d : D) m r d' m' :
    quiet d → hba_write (port_reg (hba_abar d) p PORT_IS) v d m = (r, (d', m')) → same d m d' m';
  refused_issue p v (d : D) m e d' m' :
    quiet d → hba_write (port_reg (hba_abar d) p PORT_CI) v d m = (Err e, (d', m')) → same d m d' m';
  (* the doorbell starts what the port's first slot holds *)
  issue p (d : D) m d' m' c :
    quiet d → decode m (hba_clb d p) = Some c →
    hba_write (port_reg (hba_abar d) p PORT_CI) 1 d m = (Ok tt, (d', m')) → step p c d m d' m';
  (* and the port works on it while the driver looks and waits *)
  run_read a p c (d : D) m r d' m' :
    only p d → hba_pending d p = Some c → hba_read a d m = (r, (d', m')) → step p c d m d' m';
  run_wait p c (d : D) m d' m' :
    only p d → hba_pending d p = Some c → hba_wait d m = (d', m') → step p c d m d' m';
  (* the issue bit is clear only when it has retired, and then the error bit is the truth *)
  ci_clear p (d : D) m v d' m' :
    only p d → hba_read (port_reg (hba_abar d) p PORT_CI) d m = (Ok v, (d', m')) → Z.land v 1 = 0 → quiet d';
  tfd_error p (d : D) m v d' m' :
    quiet d → hba_read (port_reg (hba_abar d) p PORT_TFD) d m = (Ok v, (d', m')) →
    any_bits v TFD_ERR = hba_failed d p }.

(** ** Building a command *)

Definition header_mem (hd flags prdtl ct : Z) (m : mem) : mem :=
  store 4 (hd + 12) (wrap32 (Z.shiftr ct 32)) (store 4 (hd + 8) (Z.land ct 0xFFFFFFFF) (store 4 (hd + 4) 0
    (store 2 (hd + 2) prdtl (store 2 hd flags m)))).
Definition fis_mem (t command lba count : Z) (m : mem) : mem :=
  store 1 (t + 13) (byte_of count 8) (store 1 (t + 12) (byte_of count 0)
  (store 1 (t + 7) (if command =? ATA_CMD_IDENTIFY then 0 else 2 ^ 6)
  (store 1 (t + 10) (byte_of lba 40) (store 1 (t + 9) (byte_of lba 32) (store 1 (t + 8) (byte_of lba 24)
  (store 1 (t + 6) (byte_of lba 16) (store 1 (t + 5) (byte_of lba 8) (store 1 (t + 4) (byte_of lba 0)
  (store 1 (t + 2) command (store 1 (t + 1) 0x80 (store 1 t 0x27 m))))))))))).
Definition prd_mem (t data n : Z) (m : mem) : mem :=
  store 4 (t + 140) (Z.lor (n - 1) 1) (store 4 (t + 136) 0 (store 4 (t + 132) (wrap32 (Z.shiftr data 32))
    (store 4 (t + 128) (Z.land data 0xFFFFFFFF) m))).
Definition built (hd t flags command lba count data n ct : Z) (m : mem) : mem :=
  let m := fis_mem t command lba count (zero_bytes t 256 (header_mem hd flags (if 0 <? n then 1 else 0) ct m)) in
  if 0 <? n then prd_mem t data n m else m.

Lemma byte_of_div v k : 0 ≤ k → byte_of v k = v / 2 ^ k mod 256.
Proof. intros. unfold byte_of. change 0xFF with (Z.ones 8). by rewrite Z.land_ones, Z.shiftr_div_pow2. Qed.
Lemma split_word x : 0 ≤ x < 2 ^ 64 → Z.land x 0xFFFFFFFF + 2 ^ 32 * wrap32 (Z.shiftr x 32) = x.
Proof.
  intros. change 0xFFFFFFFF with (Z.ones 32). rewrite Z.land_ones, Z.shiftr_div_pow2 by lia. unfold wrap. lia.
Qed.
Lemma low_word x : 0 ≤ Z.land x 0xFFFFFFFF < 2 ^ 32.
Proof. change 0xFFFFFFFF with (Z.ones 32). rewrite Z.land_ones by lia. lia. Qed.

Lemma byte_of_bounds v k : 0 ≤ byte_of v k < 256.
Proof. unfold byte_of. change 0xFF with (Z.ones 8). rewrite Z.land_ones by lia. lia. Qed.
Lemma bytes_of_lba lba : 0 ≤ lba < 2 ^ 48 →
  le_dec [byte_of lba 0; byte_of lba 8; byte_of lba 16; byte_of lba 24; byte_of lba 32; byte_of lba 40] = lba.
Proof. intros. cbn [le_dec]. rewrite !byte_of_div by lia. lia. Qed.
Lemma bytes_of_count count : 0 ≤ count < 2 ^ 16 → byte_of count 0 + 256 * byte_of count 8 = count.
Proof. intros. rewrite !byte_of_div by lia. lia. Qed.
(** The byte count of a region is stored as one less, and odd. *)
Lemma count_field n : 0 < n ≤ 2 ^ 22 → n mod 2 = 0 → Z.lor (n - 1) 1 = n - 1 ∧ (n - 1) mod 2 ^ 22 + 1 = n.
Proof.
  intros Hn He. split; [|lia]. replace (n - 1) with (2 * ((n - 2) / 2) + 1) by lia. apply Z.bits_inj'. intros i Hi. rewrite Z.lor_spec.
  destruct (decide (i = 0)) as [->|]; [by rewrite Z.testbit_odd_0, orb_true_r|].
  rewrite (Z.bits_above_log2 1 i), orb_false_r; [done|lia|cbn; lia].
Qed.
#[local] Ltac Zify.zify_post_hook ::= idtac.

Definition flags_of (dir : Direction) : Z := match dir with DirWrite => Z.lor 5 (2 ^ 6) | _ => 5 end.

(** The controller reads back what the driver built. *)
Lemma decode_built hd clb t ct op lba count data n dir m :
  hd = dma_phys_to_virt clb → t = dma_phys_to_virt ct → 0 ≤ ct < 2 ^ 64 → 0 ≤ data < 2 ^ 64 →
  0 ≤ op < 256 → op ≠ ATA_CMD_IDENTIFY → 0 ≤ lba < 2 ^ 48 → 0 ≤ count < 2 ^ 16 → 0 ≤ n ≤ 2 ^ 22 → n mod 2 = 0 →
  hd + 32 ≤ t ∨ t + 256 ≤ hd →
  decode (built hd t (flags_of dir) op lba count data n ct m) clb =
    Some (Cmd op lba count (match dir with DirWrite => true | _ => false end)
            (if 0 <? n then Some (data, n) else None)).
Proof.
  intros Hhd Ht Hct Hdata Hop Hid Hlba Hcount Hn Heven Hd. unfold decode. rewrite <-Hhd.
  pose proof (low_word ct) as Hlow. pose proof (wrap_bounds 32 (Z.shiftr ct 32) ltac:(lia)) as Hhigh.
  pose proof (low_word data) as Hlow'. pose proof (wrap_bounds 32 (Z.shiftr data 32) ltac:(lia)) as Hhigh'.
  set (m' := built _ _ _ _ _ _ _ _ _ _).
  assert (∀ v k, 0 ≤ byte_of v k < 256) as Hb by apply byte_of_bounds.
  assert (load 4 (hd + 8) m' = Z.land ct 0xFFFFFFFF ∧ load 4 (hd + 12) m' = wrap32 (Z.shiftr ct 32) ∧
    load 2 hd m' = flags_of dir ∧ load 2 (hd + 2) m' = if 0 <? n then 1 else 0) as (H1&H2&H3&H4).
  { subst m'. unfold built, header_mem, fis_mem, prd_mem. assert (0 ≤ flags_of dir < 256) by (destruct dir; vm_compute; split; congruence).
    destruct (0 <? n); split_and!; by loads. }
  rewrite H1, H2, H3, H4, split_word, <-Ht by done.
  assert (load 1 t m' = 0x27 ∧ load 1 (t + 1) m' = 0x80 ∧ load 1 (t + 2) m' = op ∧ load 1 (t + 7) m' = 2 ^ 6 ∧
    load 1 (t + 12) m' = byte_of count 0 ∧ load 1 (t + 13) m' = byte_of count 8) as (F1&F2&F3&F4&F5&F6).
  { pose proof (Hb count 0). pose proof (Hb count 8). subst m'. unfold built, fis_mem, prd_mem.
    rewrite (proj2 (Z.eqb_neq _ _) Hid). destruct (0 <? n); split_and!; by loads. }
  assert (load 1 (t + 4) m' = byte_of lba 0 ∧ load 1 (t + 5) m' = byte_of lba 8 ∧ load 1 (t + 6) m' = byte_of lba 16 ∧
    load 1 (t + 8) m' = byte_of lba 24 ∧ load 1 (t + 9) m' = byte_of lba 32 ∧ load 1 (t + 10) m' = byte_of lba 40) as (L1&L2&L3&L4&L5&L6).
  { pose proof (Hb lba 0). pose proof (Hb lba 8). pose proof (Hb lba 16). pose proof (Hb lba 24). pose proof (Hb lba 32). pose proof (Hb lba 40).
    subst m'. unfold built, fis_mem, prd_mem. destruct (0 <? n); split_and!; by loads. }
  rewrite F1, F2, F3, F4, F5, F6, L1, L2, L3, L4, L5, L6.
  replace (Z.land (flags_of dir) 0x1F =? 5) with true by (by destruct dir). cbn [andb Z.eqb Pos.eqb].
  change (Z.testbit 128 7) with true. change (Z.testbit (2 ^ 6) 6) with true. cbn iota. f_equal. f_equal.
  - by apply bytes_of_lba.
  - by apply bytes_of_count.
  - by destruct dir.
  - destruct (Z.ltb_spec 0 n); [|done]. cbn [Z.eqb]. f_equal. destruct (count_field n) as [Hlor Hc]; [lia|done|].
    subst m'. unfold built. rewrite (proj2 (Z.ltb_lt 0 n)) by done. unfold prd_mem. rewrite Hlor. loads.
    rewrite split_word by done. by rewrite Hc.
Qed.

(** Beyond 8192 sectors the byte count has more than its 22 bits: the region the
    controller finds is shorter than the transfer. *)
Example long_transfer_region :
  let t := DMA_POOL_VIRT_BASE + 8192 in
  k_prd <$> decode (built DMA_POOL_VIRT_BASE t 5 ATA_CMD_READ_DMA_EXT 0 9000 DMA_POOL_PHYS_BASE (9000 * 512)
                      (DMA_POOL_PHYS_BASE + 8192) (λ _, 0)) DMA_POOL_PHYS_BASE =
  Some (Some (DMA_POOL_PHYS_BASE, 808 * 512)).
Proof. by vm_compute. Qed.

(** ** The driver and the controller *)

Section driver.
Context {D : Type} `{HB : Hba D} `{HV : !HbaView D} `{HL : !HbaLaws D}.
Abbreviation state := (ahci D).
Implicit Types s : state.
Abbreviation mm s := (dma_mem (a_dma s)).

Lemma same_refl (d : D) m : quiet d → same d m d m.
Proof. intros. by split_and!. Qed.
Lemma same_trans (d d1 d2 : D) m m1 m2 : same d m d1 m1 → same d1 m1 d2 m2 → same d m d2 m2.
Proof.
  intros (A1&A2&A3&A4&A5&A6) (B1&B2&B3&B4&B5&B6). split_and!; [|..|congruence]; try done; intros; congruence.
Qed.
Lemma only_quiet p (d : D) : only p d → hba_pending d p = None → quiet d.
Proof. intros Ho Hp q. destruct (decide (q = p)) as [->|]; auto. Qed.

Lemma finished_same p c (d d' : D) m m' : same d m d' m' → finished p c d m → finished p c d' m'.
Proof.
  intros (A1&A2&_) Hf a n Hprd Hn. destruct (Hf a n Hprd Hn) as [H1 H2]. cbn zeta in *.
  rewrite (load_bytes_ext _ _ m m') by (intros; apply A1). split.
  - intros Hop Hw. rewrite (H1 Hop Hw). f_equal. apply list_fmap_ext. intros. by rewrite A2.
  - intros Hop Hw l Hl. rewrite A2. by apply H2.
Qed.

Lemma works_trans p c (d d1 d2 : D) m m1 m2 : works p c d m d1 m1 → works p c d1 m1 d2 m2 → works p c d m d2 m2.
Proof.
  intros [A1 A2] [B1 B2]. split.
  - intros x. destruct (B1 x) as [->|]; [apply A1|by right].
  - intros q l. destruct (B2 q l) as [->|]; [apply A2|by right].
Qed.
Lemma same_works p c (d d' : D) m m' : same d m d' m' → works p c d m d' m'.
Proof. intros (A1&A2&_). split; intros; left; auto. Qed.

(** A further look, or wait, while a command is under way or after it. *)
Lemma step_on p c (d d1 d2 : D) m m1 m2 : step p c d m d1 m1 →
  (hba_pending d1 p = Some c → step p c d1 m1 d2 m2) → (quiet d1 → same d1 m1 d2 m2) → step p c d m d2 m2.
Proof.
  intros (Hw&Ho&Hclb&Ha&Hp) Hrun Hrest. destruct (hba_pending d1 p) as [c'|] eqn:Hpe.
  - destruct Hp as [[= ->]|[? _]]; [|done]. destruct (Hrun eq_refl) as (Hw2&Ho2&Hclb2&Ha2&Hp2).
    split_and!; [by eapply works_trans|done|intros; congruence|congruence|done].
  - destruct Hp as [?|[_ Hp]]; [done|]. pose proof (only_quiet p d1 Ho Hpe) as Hq. pose proof (Hrest Hq) as Hs.
    pose proof Hs as (A1&A2&A3&A4&A5&A6). split_and!.
    + eapply works_trans; [done|by apply same_works].
    + intros q _. apply A3.
    + intros; congruence.
    + congruence.
    + right. split; [apply A3|]. destruct Hp as [Hf|Hf]; [left; by rewrite A5|right]. by eapply finished_same.
Qed.

(** What surrounds the hardware. *)
Definition stat s s' : Prop :=
  controller s' = controller s ∧ ports s' = ports s ∧ dma_pool (a_dma s') = dma_pool (a_dma s).
Lemma stat_trans s s1 s2 : stat s s1 → stat s1 s2 → stat s s2.
Proof. intros (?&?&?) (?&?&?). split_and!; congruence. Qed.
Definition rest s s' : Prop := stat s s' ∧ same (a_dev s) (mm s) (a_dev s') (mm s').
Lemma rest_trans s s1 s2 : rest s s1 → rest s1 s2 → rest s s2.
Proof. intros [] []. split; [by eapply stat_trans|by eapply same_trans]. Qed.
Lemma rest_quiet s s' : rest s s' → quiet (a_dev s').
Proof. by intros (_&_&_&?&_). Qed.
Lemma rest_refl s : quiet (a_dev s) → rest s s.
Proof. intros. split; [done|by apply same_refl]. Qed.

Lemma reg_read_rest addr s r s' : quiet (a_dev s) → reg_read addr s = (r, s') → rest s s' ∧ no_crash r.
Proof.
  intros Hq. unfold reg_read. pose proof (read_total addr (a_dev s) (mm s)) as Ht.
  destruct (hba_read addr (a_dev s) (mm s)) as [o [d m]] eqn:He. intros [= <- <-].
  split; [|exact Ht]. split; [done|]. by eapply quiet_read.
Qed.
Lemma sleep_rest s r s' : quiet (a_dev s) → sleep_yield s = (r, s') → rest s s' ∧ r = Ok tt.
Proof.
  intros Hq. unfold sleep_yield, smodify. destruct (hba_wait (a_dev s) (mm s)) as [d m] eqn:He. intros [= <- <-].
  split; [|done]. split; [done|]. by eapply quiet_wait.
Qed.

(** A bounded loop by its invariant. *)
Lemma poll_inv {A} (I E : state → Prop) (Q : A → state → Prop) n f :
  (∀ s r s', I s → f s = (r, s') → no_crash r ∧ match r with Ok (Some a) => Q a s' | Ok None => I s' | _ => E s' end) →
  ∀ s r s', I s → poll n f s = (r, s') → no_crash r ∧ match r with Ok (Some a) => Q a s' | Ok None => I s' | _ => E s' end.
Proof.
  intros Hf. induction n as [|n IH]; intros s r s' Hs; cbn [poll]; [intros [= <- <-]; by split|].
  unfold sbind. destruct (f s) as [o s1] eqn:He. destruct (Hf s o s1 Hs He) as [Hc Ho].
  destruct o as [[a|]|e| |]; [intros [= <- <-]; by split|by apply IH|intros [= <- <-]; by split|by destruct Hc|by destruct Hc].
Qed.

Lemma not_busy_rest base n s r s' : quiet (a_dev s) → wait_not_busy base n s = (r, s') → rest s s' ∧ ∃ b, r = Ok b.
Proof.
  intros Hq. unfold wait_not_busy, sbind. destruct (poll _ _ _) as [o s1] eqn:He.
  eapply (poll_inv (rest s) (λ _, False) (λ _ s1, rest s s1)) in He as [Hc Ho]; [..|by apply rest_refl].
  { destruct o as [[a|]|e| |]; try done; (intros [= <- <-]; split; [done|by eexists]). }
  clear He. intros s2 r2 s3 H2. destruct (reg_read _ s2) as [o2 s4] eqn:Hr.
  destruct (reg_read_rest _ _ _ _ (rest_quiet _ _ H2) Hr) as [Hr4 Hc4]. pose proof (rest_trans _ _ _ H2 Hr4) as H4.
  destruct o2 as [tfd|e| |]; [|intros [= <- <-]; by split|by destruct Hc4|by destruct Hc4].
  destruct (any_bits _ _); [|intros [= <- <-]; by split]. unfold sbind. destruct (sleep_yield s4) as [o5 s5] eqn:Hs.
  destruct (sleep_rest _ _ _ (rest_quiet _ _ H4) Hs) as [Hr5 ->]. intros [= <- <-]. split; [done|]. by eapply rest_trans.
Qed.

(** ** Execution *)

(** A command under way, or done, since the state [s]. *)
Definition since p c s s' : Prop := stat s s' ∧ step p c (a_dev s) (mm s) (a_dev s') (mm s').
Lemma since_read p c s s1 addr r s2 : since p c s s1 → reg_read addr s1 = (r, s2) → since p c s s2 ∧ no_crash r.
Proof.
  intros [Hst Hs]. unfold reg_read. pose proof (read_total addr (a_dev s1) (mm s1)) as Ht.
  destruct (hba_read addr (a_dev s1) (mm s1)) as [o [d m]] eqn:He. intros [= <- <-]. split; [|exact Ht].
  split; [by destruct Hst|]. cbn. eapply step_on; [exact Hs| |]; intros; [|by eapply quiet_read].
  eapply run_read; [|done|done]. by destruct Hs as (_&?&_).
Qed.
Lemma since_sleep p c s s1 r s2 : since p c s s1 → sleep_yield s1 = (r, s2) → since p c s s2 ∧ r = Ok tt.
Proof.
  intros [Hst Hs]. unfold sleep_yield, smodify. destruct (hba_wait (a_dev s1) (mm s1)) as [d m] eqn:He. intros [= <- <-].
  split; [|done]. split; [by destruct Hst|]. cbn. eapply step_on; [exact Hs| |]; intros; [|by eapply quiet_wait].
  eapply run_wait; [|done|done]. by destruct Hs as (_&?&_).
Qed.

Lemma await_since p c s s1 n r s2 :
  since p c s s1 → await (hba_abar (a_dev s) + 0x100 + p * 0x80) n s1 = (r, s2) →
  since p c s s2 ∧ no_crash r ∧ (r = Ok true → quiet (a_dev s2)).
Proof.
  intros Hs. unfold await, sbind at 1. destruct (poll n _ s1) as [o s3] eqn:He.
  eapply (poll_inv (since p c s) (since p c s) (λ b s2, since p c s s2 ∧ (b = true → quiet (a_dev s2)))) in He as [Hc Ho]; [..|done].
  { destruct o as [[a|]|e| |]; try (by destruct Hc); intros [= <- <-].
    - destruct Ho as [Ho1 Ho2]. split; [done|]. split; [done|]. intros [= ->]. by apply Ho2.
    - by split_and!.
    - by split_and!. }
  clear He. intros s4 r4 s5 H4. unfold sbind. destruct (reg_read _ s4) as [o4 s6] eqn:Hr.
  destruct (since_read _ _ _ _ _ _ _ H4 Hr) as [H6 Hc4].
  destruct o4 as [ci|e| |]; [|intros [= <- <-]; by split|by destruct Hc4|by destruct Hc4].
  destruct (Z.eqb_spec (Z.land ci 1) 0) as [Hci|Hci].
  { intros [= <- <-]. split; [done|]. split; [done|]. intros _. revert Hr. unfold reg_read.
    destruct (hba_read _ _ _) as [oo [d m]] eqn:Hh. intros [= -> <-]. cbn. destruct H4 as [_ (_&Ho&_&Ha&_)].
    eapply (ci_clear p (a_dev s4)); [exact Ho| |exact Hci]. rewrite Ha. exact Hh. }
  destruct (reg_read _ s6) as [o6 s7] eqn:Hr6. destruct (since_read _ _ _ _ _ _ _ H6 Hr6) as [H7 Hc6].
  destruct o6 as [tfd|e| |]; [|intros [= <- <-]; by split|by destruct Hc6|by destruct Hc6].
  destruct (any_bits _ _); [intros [= <- <-]; by split|].
  destruct (sleep_yield s7) as [o8 s8] eqn:Hs8. destruct (since_sleep _ _ _ _ _ _ H7 Hs8) as [H8 ->].
  intros [= <- <-]. by split.
Qed.

Lemma decode_ext m m' clb : (∀ x, m' x = m x) → decode m' clb = decode m clb.
Proof.
  intros Hm. assert (∀ n a, load n a m' = load n a m) as Hl by (intros; unfold load; f_equal; by apply load_bytes_ext).
  unfold decode. by rewrite !Hl.
Qed.

(** What is left of a command's work when the driver goes on. *)
Definition worked p c s s' : Prop :=
  stat s s' ∧ works p c (a_dev s) (mm s) (a_dev s') (mm s') ∧
  (∀ q, hba_clb (a_dev s') q = hba_clb (a_dev s) q) ∧ hba_abar (a_dev s') = hba_abar (a_dev s).
Lemma rest_worked p c s s' : rest s s' → worked p c s s'.
Proof.
  intros [Hst Hs]. pose proof Hs as (_&_&_&Hc&_&Ha). split; [done|]. split; [by apply same_works|]. by split.
Qed.
Lemma rest_since p c s s1 s2 : rest s s1 → since p c s1 s2 → worked p c s s2.
Proof.
  intros [Hst Hs] [Hst2 (Hw&_&Hc&Ha&_)]. pose proof Hs as (_&_&_&Hc1&_&Ha1). split; [by eapply stat_trans|].
  split; [by eapply works_trans, Hw; apply same_works|]. split; [intros; congruence|congruence].
Qed.

(** How a command ends. *)
Definition ran p c s (r : outcome string unit) s' : Prop :=
  worked p c s s' ∧ no_crash r ∧ (r = Ok tt → quiet (a_dev s') ∧ finished p c (a_dev s') (mm s')).
Lemma ran_rest p c s e s' : rest s s' → ran p c s (Err e) s'.
Proof. intros. split; [by apply rest_worked|]. by split. Qed.
Lemma ran_since p c s s1 e s2 : rest s s1 → since p c s1 s2 → ran p c s (Err e) s2.
Proof. intros. split; [by eapply rest_since|]. by split. Qed.

Lemma run_command_ok p c s r s' :
  quiet (a_dev s) → decode (mm s) (hba_clb (a_dev s) p) = Some c →
  run_command (hba_abar (a_dev s) + 0x100 + p * 0x80) s = (r, s') → ran p c s r s'.
Proof.
  intros Hq Hdec. unfold run_command. unfold sbind at 1. destruct (reg_read _ s) as [o1 s1] eqn:H1.
  destruct (reg_read_rest _ _ _ _ Hq H1) as [R1 C1].
  destruct o1 as [v1|e| |]; [|intros [= <- <-]; by apply ran_rest|by destruct C1|by destruct C1].
  unfold sbind at 1. destruct (reg_write _ v1 s1) as [o2 s2] eqn:H2.
  assert (rest s s2 ∧ no_crash o2) as [R2 C2].
  { revert H2. unfold reg_write. pose proof (write_total (hba_abar (a_dev s) + 0x100 + p * 0x80 + PORT_IS) v1 (a_dev s1) (mm s1)) as Ht.
    destruct (hba_write _ _ _ _) as [o [d m]] eqn:Hh. intros [= <- <-]. split; [|exact Ht]. eapply rest_trans; [done|]. split; [done|].
    destruct R1 as [_ (_&_&Hq1&_&_&Ha1)]. cbn. eapply (quiet_clear p v1); [exact Hq1|]. unfold port_reg. rewrite Ha1. exact Hh. }
  destruct o2 as [[]|e| |]; [|intros [= <- <-]; by apply ran_rest|by destruct C2|by destruct C2].
  unfold sbind at 1. destruct (reg_write _ 1 s2) as [o3 s3] eqn:H3.
  assert (no_crash o3 ∧ match o3 with Ok _ => since p c s2 s3 | _ => rest s2 s3 end) as [C3 R3].
  { revert H3. unfold reg_write. pose proof (write_total (hba_abar (a_dev s) + 0x100 + p * 0x80 + PORT_CI) 1 (a_dev s2) (mm s2)) as Ht.
    destruct R2 as [_ (Hm2&_&Hq2&Hc2&_&Ha2)]. rewrite <-Ha2 in *.
    destruct (hba_write _ _ _ _) as [o [d m]] eqn:Hh. intros [= <- <-]. split; [exact Ht|].
    destruct o as [[]|e| |]; [..|by destruct Ht|by destruct Ht].
    - split; [done|]. cbn. eapply (issue p); [done| |exact Hh]. by rewrite Hc2, (decode_ext _ _ _ Hm2).
    - split; [done|]. cbn. eapply (refused_issue p); [done|exact Hh]. }
  destruct o3 as [[]|e| |]; [|intros [= <- <-]; apply ran_rest; by eapply rest_trans|by destruct C3|by destruct C3].
  unfold sbind at 1. destruct (await _ _ s3) as [o4 s4] eqn:H4.
  assert (hba_abar (a_dev s) = hba_abar (a_dev s2)) as Ha by (by destruct R2 as [_ (_&_&_&_&_&?)]).
  rewrite Ha in H4. destruct (await_since _ _ _ _ _ _ _ R3 H4) as (R4&C4&Q4).
  destruct o4 as [b|e| |]; [|intros [= <- <-]; by eapply ran_since|by destruct C4|by destruct C4].
  destruct b; cbn [negb]; [|intros [= <- <-]; by eapply ran_since].
  specialize (Q4 eq_refl). unfold sbind. destruct (reg_read _ s4) as [o5 s5] eqn:H5.
  destruct (since_read _ _ _ _ _ _ _ R4 H5) as [R5 C5]. pose proof (rest_since _ _ _ _ _ R2 R5) as W5.
  destruct o5 as [tfd|e| |]; [|intros [= <- <-]; by eapply ran_since|by destruct C5|by destruct C5].
  destruct (any_bits tfd TFD_ERR) eqn:Herr; intros [= <- <-]; [by eapply ran_since|].
  split; [done|]. split; [done|]. intros _. split.
  - by eapply rest_quiet, (reg_read_rest _ _ _ _ Q4 H5).
  - pose proof (proj1 (reg_read_rest _ _ _ _ Q4 H5)) as [_ Hs]. eapply finished_same; [exact Hs|].
    destruct R4 as [_ (_&_&_&Ha4&[Hp|[_ [Hf|Hf]]])]; [by rewrite (Q4 p) in Hp| |done].
    revert H5. unfold reg_read. destruct (hba_read _ _ _) as [o [d m]] eqn:Hh. intros [= -> <-].
    assert (any_bits tfd TFD_ERR = hba_failed (a_dev s4) p) as Hx; [|congruence].
    eapply tfd_error; [exact Q4|]. unfold port_reg. rewrite Ha4, <-Ha. exact Hh.
Qed.

(** ** The DMA buffers *)

(** The pool with everything below [hi] in use. *)
Definition pool_at (o : Z) s : Prop := pool_top o (a_dma s).
(** All but the DMA state is the same. *)
Definition kept s s' : Prop := controller s' = controller s ∧ ports s' = ports s ∧ a_dev s' = a_dev s.

Lemma alloc_or_ok o size e s r s' :
  pool_at o s → 0 ≤ size < 2 ^ 63 → alloc_or size e s = (r, s') →
  kept s s' ∧
  match r with
  | Ok (virt, phys) => phys = DMA_POOL_PHYS_BASE + o ∧ virt = DMA_POOL_VIRT_BASE + o ∧
      pool_at (o + page_round size) s' ∧ size ≤ page_round size ∧ 0 ≤ o ∧ o + page_round size ≤ DMA_POOL_SIZE ∧
      (∀ x, ¬ virt ≤ x < virt + page_round size → mm s' x = mm s x)
  | Err _ => s' = s
  | _ => False
  end.
Proof.
  intros Hp Hsize. unfold alloc_or. pose proof (alloc_top o size (a_dma s) Hp Hsize) as H. case_decide.
  - destruct H as (d&->&Hd&Hr&Ho&Hm). intros [= <- <-]. by split_and!.
  - rewrite H. intros [= <- <-]. split; [done|]. by destruct s.
Qed.

(** A command: what the driver asks for, and with it the region of its data. *)
Record asked := Ask { q_op : Z; q_lba : Z; q_count : Z; q_data : Z; q_bytes : Z; q_dir : Direction }.
Definition asked_ok (q : asked) : Prop :=
  0 ≤ q_data q < 2 ^ 64 ∧ 0 ≤ q_op q < 256 ∧ q_op q ≠ ATA_CMD_IDENTIFY ∧ 0 ≤ q_lba q < 2 ^ 48 ∧
  0 ≤ q_count q < 2 ^ 16 ∧ 0 ≤ q_bytes q ≤ 2 ^ 22 ∧ q_bytes q mod 2 = 0.
Definition cmd_of (q : asked) : command :=
  Cmd (q_op q) (q_lba q) (q_count q) (match q_dir q with DirWrite => true | _ => false end)
    (if 0 <? q_bytes q then Some (q_data q, q_bytes q) else None).

Lemma built_ne hd t flags op lba count data n ct m x :
  ¬ hd ≤ x < hd + 32 → ¬ t ≤ x < t + 256 → built hd t flags op lba count data n ct m x = m x.
Proof.
  intros Hh Ht. unfold built, prd_mem, fis_mem, header_mem, store.
  destruct (0 <? n); repeat (rewrite store_bytes_ne by (rewrite length_le_enc; lia)); unfold zero_bytes;
    rewrite decide_False by lia; by repeat (rewrite store_bytes_ne by (rewrite length_le_enc; lia)).
Qed.

(** A change of the DMA memory, and the stores of the driver as such changes. *)
Definition set_mem (f : mem → mem) s : state := set_dma (DmaState (dma_pool (a_dma s)) (f (mm s))) s.
Lemma set_mem_comp f g s : set_mem f (set_mem g s) = set_mem (λ m, f (g m)) s.
Proof. done. Qed.
Lemma on_mem_then {A} f (k : unit → stm state string A) s : sbind (on_mem f) k s = k tt (set_mem f s).
Proof. done. Qed.
Lemma poke_then {A} n a v (k : unit → stm state string A) s : sbind (poke n a v) k s = k tt (set_mem (store n a v) s).
Proof. done. Qed.
Lemma poke_last n a v s : poke n a v s = (Ok tt, set_mem (store n a v) s).
Proof. done. Qed.
Lemma write_header_ok hd flags prdtl ct s : write_header hd flags prdtl ct s = (Ok tt, set_mem (header_mem hd flags prdtl ct) s).
Proof. unfold write_header. rewrite !poke_then, poke_last, !set_mem_comp. reflexivity. Qed.
Lemma write_fis_ok t op lba n s : write_fis t op lba n s = (Ok tt, set_mem (fis_mem t op lba n) s).
Proof. unfold write_fis. rewrite !poke_then, poke_last, !set_mem_comp. reflexivity. Qed.
Lemma write_prd_ok t data n s : write_prd t data n s = (Ok tt, set_mem (prd_mem t data n) s).
Proof. unfold write_prd. rewrite !poke_then, poke_last, !set_mem_comp. reflexivity. Qed.

(** Building a command takes a page of the pool and leaves the controller the
    command; other memory in use stays as it is. *)
Lemma build_command_ok o k q s r s' :
  pool_at o s → asked_ok q → 0 ≤ k → k + 32 ≤ o →
  build_command (DMA_POOL_PHYS_BASE + k) (q_op q) (q_lba q) (q_count q) (q_data q) (q_bytes q) (q_dir q) s = (r, s') →
  kept s s' ∧
  match r with
  | Ok _ => pool_at (o + 4096) s' ∧ decode (mm s') (DMA_POOL_PHYS_BASE + k) = Some (cmd_of q) ∧
      (∀ x, x < DMA_POOL_VIRT_BASE + o → ¬ DMA_POOL_VIRT_BASE + k ≤ x < DMA_POOL_VIRT_BASE + k + 32 → mm s' x = mm s x)
  | Err _ => s' = s
  | _ => False
  end.
Proof.
  intros Hp (Hd&Hop&Hid&Hlba&Hcount&Hn&He) Hk Hko. unfold build_command. unfold sbind at 1. destruct (alloc_or _ _ s) as [o1 s1] eqn:H1.
  destruct (alloc_or_ok _ 256 _ _ _ _ Hp ltac:(lia) H1) as [Hkept H]. destruct o1 as [[virt ct]|e| |]; [|intros [= <- <-]; by split|done..].
  destruct H as (Hct&Hvirt&Hp1&_&Ho&Hsize&Hm). change (page_round 256) with 4096 in *. cbn [snd].
  assert (dma_phys_to_virt ct = virt) as Ht by (subst; apply pool_virt; lia).
  fold (flags_of (q_dir q)). unfold sbind at 1. rewrite write_header_ok, on_mem_then, Ht. unfold sbind at 1. rewrite write_fis_ok, !set_mem_comp.
  set (f := λ m, _). intros Hrun.
  assert (r = Ok tt ∧ s' = set_mem (built (dma_phys_to_virt (DMA_POOL_PHYS_BASE + k)) virt (flags_of (q_dir q))
    (q_op q) (q_lba q) (q_count q) (q_data q) (q_bytes q) ct) s1) as [-> ->].
  { revert Hrun. unfold built. destruct (0 <? q_bytes q); [rewrite write_prd_ok, set_mem_comp|]; by intros [= <- <-]. }
  rewrite pool_virt by lia. split; [done|]. split; [done|]. cbn [set_mem a_dma set_dma dma_mem]. split.
  - eapply (decode_built _ _ virt); try done; [by rewrite pool_virt by lia|subst; unfold DMA_POOL_PHYS_BASE, DMA_POOL_SIZE in *; lia|lia].
  - intros x Hx Hhd. rewrite built_ne by lia. apply Hm. lia.
Qed.

(** ** One command, and the transfers *)

(** The port [p] is up: its command list is the pool's [k]-th byte onwards, and
    nothing is under way. *)
Definition attached (p k o : Z) s : Prop :=
  pool_at o s ∧ 0 ≤ k ∧ k + 1024 ≤ o ∧ quiet (a_dev s) ∧ hba_clb (a_dev s) p = DMA_POOL_PHYS_BASE + k.

(** What a command may have done to the state: more of the pool is taken, the
    sectors are those before unless it writes them, and so are the buffers of the
    driver unless it reads into them. *)
Definition effect (p k o : Z) (c : command) s s' : Prop :=
  controller s' = controller s ∧ ports s' = ports s ∧ (∃ o', pool_at o' s' ∧ o ≤ o') ∧
  (∀ q, hba_clb (a_dev s') q = hba_clb (a_dev s) q) ∧ hba_abar (a_dev s') = hba_abar (a_dev s) ∧
  (∀ q l, hba_sector (a_dev s') q l = hba_sector (a_dev s) q l ∨
     k_op c = ATA_CMD_WRITE_DMA_EXT ∧ q = p ∧ k_lba c ≤ l < k_lba c + k_count c) ∧
  (∀ x, DMA_POOL_VIRT_BASE + k + 1024 ≤ x < DMA_POOL_VIRT_BASE + o →
     mm s' x = mm s x ∨ k_write c = false ∧ in_buffer c x).

Lemma rest_effect p k o c s s' : pool_at o s → rest s s' → effect p k o c s s'.
Proof.
  intros (a&Ha&?&?) [(?&?&Hp) (Hm&Hs&_&?&_&?)]. split_and!; auto. exists o. split; [|lia]. exists a. by rewrite Hp.
Qed.

Lemma issue_command_ok p k o q s r s' :
  attached p k o s → asked_ok q →
  issue_command (hba_abar (a_dev s)) (DMA_POOL_PHYS_BASE + k) p (q_op q) (q_lba q) (q_count q) (q_data q) (q_bytes q) (q_dir q) s = (r, s') →
  no_crash r ∧ effect p k o (cmd_of q) s s' ∧
  (r = Ok tt → quiet (a_dev s') ∧ finished p (cmd_of q) (a_dev s') (mm s')).
Proof.
  intros (Hp&Hk&Hko&Hq&Hclb) Hok. unfold issue_command, sbind at 1. destruct (wait_not_busy _ _ s) as [o1 s1] eqn:H1.
  destruct (not_busy_rest _ _ _ _ _ Hq H1) as [R1 [b ->]]. pose proof (rest_effect p k o (cmd_of q) _ _ Hp R1) as E1.
  destruct b; cbn [negb]; [|intros [= <- <-]; by split_and!].
  pose proof E1 as (Ec&Ep&_&Eclb&Eabar&_&Em). assert (pool_at o s1) as Hp1 by (destruct Hp as (a&?&?&?), R1 as [(_&_&Hx) _]; exists a; by rewrite Hx).
  unfold sbind. destruct (build_command _ _ _ _ _ _ _ s1) as [o2 s2] eqn:H2.
  destruct (build_command_ok o k _ _ _ _ Hp1 Hok Hk ltac:(lia) H2) as [(Kc&Kp&Kd) B].
  destruct o2 as [[]|e| |]; [|intros [= <- <-]; subst; by split_and!|done..].
  destruct B as (Hp2&Hdec&Hm2). intros Hrun. rewrite <-Eabar, <-Kd in Hrun.
  assert (quiet (a_dev s2)) as Hq2 by (rewrite Kd; by eapply rest_quiet).
  destruct (run_command_ok p (cmd_of q) s2 r s' Hq2) as (W&C&F); [by rewrite Kd, Eclb, Hclb|exact Hrun|].
  split; [done|]. split; [|done]. destruct W as ((Wc&Wp&Wpool)&[Wm Ws]&Wclb&Wabar). split_and!; try congruence.
  - exists (o + 4096). split; [|lia]. destruct Hp2 as (a&?&?&?). exists a. by rewrite Wpool.
  - intros q' l. destruct (Ws q' l) as [->|]; [left|by right]. rewrite Kd. by destruct R1 as [_ (_&->&_)].
  - intros x Hx. destruct (Wm x) as [->|]; [|by right]. left. rewrite Hm2 by lia. by destruct R1 as [_ (->&_)].
Qed.

Lemma scoped_inv {A} (f : stm state string A) o s r s' : pool_at o s → scoped f s = (r, s') →
  ∃ s1 s2, pool_at o s1 ∧ kept s s1 ∧ mm s1 = mm s ∧ f s1 = (r, s2) ∧
    (no_crash r → (∃ o', pool_at o' s2 ∧ o ≤ o') → pool_at o s' ∧ kept s2 s' ∧ mm s' = mm s2).
Proof.
  intros (a&Ha&[Hs Hn Hal]&<-). unfold scoped, dma_mark. rewrite Ha. cbn [fst snd].
  set (s1 := set_dma _ s). destruct (f s1) as [r1 s2] eqn:Hf. intros H. exists s1, s2.
  split; [exists (DmaAllocator (next_offset a) (dma_size a) true); by split_and!|]. split; [done|]. split; [done|].
  assert (no_crash r1 → r1 = r ∧ s' = set_dma (dma_reset_to (next_offset a) (a_dma s2)) s2) as Hfin.
  { intros [? ?]. destruct r1; simplify_eq; done. }
  split; [by destruct r1; simplify_eq|]. intros Hc (o'&(a2&Ha2&[]&<-)&Ho).
  assert (r1 = r) as -> by (by destruct r1; simplify_eq). destruct (Hfin Hc) as [_ ->]. unfold dma_reset_to. rewrite Ha2, decide_True by done.
  split; [|done]. exists (DmaAllocator (next_offset a) (dma_size a2) false). by split_and!.
Qed.

Lemma kept_attached p k o o' s s' : kept s s' → attached p k o s → pool_at o' s' → o ≤ o' → attached p k o' s'.
Proof. intros (_&_&Hd) (_&?&?&?&?) ? ?. split_and!; try (by rewrite Hd); try done. lia. Qed.
(** After a command the port is up again, unless it is still busy. *)
Lemma effect_attached p k o c s s' : effect p k o c s s' → attached p k o s → quiet (a_dev s') →
  ∃ o', o ≤ o' ∧ attached p k o' s'.
Proof.
  intros (_&_&(o'&?&?)&Hclb&_) (_&?&?&?&?) ?. exists o'. split; [done|]. split_and!; try done; [lia|by rewrite Hclb].
Qed.

(** The driver knows the port as the controller has it. *)
Definition known (p k : Z) s : Prop := port_context p s = Some (hba_abar (a_dev s), DMA_POOL_PHYS_BASE + k).

Definition transfer_of (op lba count o : Z) (dir : Direction) : asked :=
  Ask op lba count (DMA_POOL_PHYS_BASE + o) (512 * count) dir.
Lemma transfer_ok op lba count o dir :
  op = ATA_CMD_READ_DMA_EXT ∨ op = ATA_CMD_WRITE_DMA_EXT → 0 ≤ lba < 2 ^ 48 → 0 < count ≤ 8192 → 0 ≤ o ≤ DMA_POOL_SIZE →
  asked_ok (transfer_of op lba count o dir).
Proof.
  intros Hop Hl Hc Ho. unfold asked_ok, transfer_of. cbn [q_op q_lba q_count q_data q_bytes].
  unfold DMA_POOL_PHYS_BASE, DMA_POOL_SIZE in *. split_and!; try lia.
  1-3: by destruct Hop as [-> | ->]. replace (512 * count) with (count * 256 * 2) by lia. by apply Z.mod_mul.
Qed.

(** The data moved, as the theorems put it. *)
Definition sectors_at (d : D) (p lba count : Z) : bytes := mjoin (hba_sector d p <$> seqZ lba count).

(** A transfer up to its command: the state it is issued in. *)
Lemma transfer_start p k o n e s r s' :
  attached p k o s → 0 ≤ n < 2 ^ 63 → alloc_or n e s = (r, s') →
  no_crash r ∧ (∀ e, r = Err e → s' = s) ∧
  (∀ v, r = Ok v → v.2 = DMA_POOL_PHYS_BASE + o ∧ v.1 = DMA_POOL_VIRT_BASE + o ∧ kept s s' ∧ 0 ≤ o ∧
     n ≤ page_round n ∧ o + page_round n ≤ DMA_POOL_SIZE ∧ attached p k (o + page_round n) s').
Proof.
  intros Hat Hn Ha. pose proof (proj1 Hat) as Hp. destruct (alloc_or_ok _ _ _ _ _ _ Hp Hn Ha) as [Hk H].
  destruct r as [[virt phys]|e'| |]; try done.
  - destruct H as (->&->&Hp'&?&?&?&_). split; [done|]. split; [done|]. intros v [= <-]. split_and!; try done.
    all: try (apply Hk). eapply kept_attached; [done..|]. pose proof (page_round_pos n). lia.
Qed.

(** C8: A read ends without a panic, whatever the controller answers; it changes no
    sector and gives its DMA memory back.  When it succeeds the buffer begins with
    exactly the sectors named, in order, and its rest is as it was. *)
Theorem read_sectors_correct p k o s lba count buf r s' :
  attached p k o s → known p k s → 0 ≤ lba < 2 ^ 48 → 0 < count ≤ 8192 →
  read_sectors p lba count buf s = (r, s') →
  no_crash r ∧ pool_at o s' ∧ (∀ q l, hba_sector (a_dev s') q l = hba_sector (a_dev s) q l) ∧
  (∀ n buf', r = Ok (n, buf') →
     n = 512 * count ∧ n ≤ Z.of_nat (length buf) ∧ attached p k o s' ∧
     buf' = sectors_at (a_dev s) p lba count ++ drop (Z.to_nat n) buf).
Proof.
  intros Hat Hk Hlba Hcount. unfold read_sectors. rewrite (proj2 (Z.eqb_neq count 0)) by lia. pose proof (proj1 Hat) as Hp.
  replace (count * SECTOR_SIZE) with (512 * count) by (unfold SECTOR_SIZE; lia).
  destruct (Z.ltb_spec (Z.of_nat (length buf)) (512 * count)) as [|Hbuf]; [intros [= <- <-]; by split_and!|].
  rewrite Hk. intros H. apply scoped_inv with (o := o) in H as (s1&s2&Hp1&(K1&K2&K3)&_&Hf&Hend); [|done].
  assert (attached p k o s1) as Hat1 by (by eapply kept_attached).
  revert Hf. unfold sbind at 1. destruct (alloc_or _ _ s1) as [ra sa] eqn:Ha.
  destruct (transfer_start _ _ _ (512 * count) _ _ _ _ Hat1 ltac:(lia) Ha) as (Hca&Hea&Hoka).
  destruct ra as [v|e| |]; [|intros [= <- <-]; rewrite (Hea e eq_refl) in *..|by destruct Hca|by destruct Hca].
  2: { destruct (Hend ltac:(done)) as (?&(_&_&Hd)&_); [by exists o|]. split; [done|]. split; [done|]. split; [by intros; rewrite Hd, K3|done]. }
  destruct (Hoka v eq_refl) as (Hv2&Hv1&(_&_&Hdev)&Ho&Hround&Hfit&Hata). unfold sbind. destruct (issue_command _ _ _ _ _ _ _ _ _ sa) as [ri si] eqn:Hi.
  rewrite Hv2, (wrap_small 32) in Hi by lia. rewrite <-K3, <-Hdev in Hi.
  pose proof (transfer_ok ATA_CMD_READ_DMA_EXT lba count o DirRead ltac:(by left) Hlba Hcount ltac:(lia)) as Hq.
  destruct (issue_command_ok p k _ (transfer_of ATA_CMD_READ_DMA_EXT lba count o DirRead) _ ri si Hata Hq Hi) as (Hci&He&Hfi).
  pose proof He as (_&_&(o'&Hpi&Hoi)&_&_&Hsect&_).
  assert (∀ q l, hba_sector (a_dev si) q l = hba_sector (a_dev s) q l) as Hsame.
  { intros q l. destruct (Hsect q l) as [->|[? _]]; [by rewrite Hdev, K3|done]. }
  assert (∃ o', pool_at o' si ∧ o ≤ o') as Hpool by (exists o'; split; [done|lia]).
  destruct ri as [[]|e| |]; [..|by destruct Hci|by destruct Hci]; intros [= <- <-]; specialize (Hend ltac:(done) Hpool) as (Hps&(_&_&Hks)&_);
    (split; [done|]); (split; [done|]); (split; [by intros; rewrite Hks|]); [|done].
  intros n buf' [= <- <-]. destruct (Hfi eq_refl) as [Hqi Hfin]. split; [done|]. split; [done|].
  destruct (Hfin (DMA_POOL_PHYS_BASE + o) (512 * count)) as [Hdata _]; [cbn; by rewrite (proj2 (Z.ltb_lt _ _)) by lia|cbn; lia|].
  cbn zeta in Hdata. rewrite pool_virt in Hdata by lia. specialize (Hdata eq_refl eq_refl). cbn in Hdata. split.
  - destruct Hat as (_&?&?&_&?). destruct He as (_&_&_&Hclb&_). unfold attached. rewrite Hks, Hclb, Hdev, K3. done.
  - unfold splice. rewrite take_0, length_load_bytes, Hv1, Hdata. cbn [app Nat.add]. f_equal. unfold sectors_at. f_equal.
    apply list_fmap_ext. intros. apply Hsame.
Qed.

(** Writing and flushing, once the data is in its buffer. *)
Lemma write_flush_ok p k o o1 (n : Z) s lba count r s' :
  attached p k o1 s → k + 1024 ≤ o → 0 ≤ o → o + 512 * count ≤ o1 → o ≤ DMA_POOL_SIZE → 0 ≤ lba < 2 ^ 48 → 0 < count ≤ 8192 →
  (let! _ := issue_command (hba_abar (a_dev s)) (DMA_POOL_PHYS_BASE + k) p ATA_CMD_WRITE_DMA_EXT lba count
               (DMA_POOL_PHYS_BASE + o) (512 * count) DirWrite in
   let! _ := issue_command (hba_abar (a_dev s)) (DMA_POOL_PHYS_BASE + k) p ATA_CMD_FLUSH_CACHE_EXT 0 0 0 0 NoData in
   sret n) s = (r, s') →
  no_crash r ∧ (∃ o', pool_at o' s' ∧ o1 ≤ o') ∧ (∀ q, hba_clb (a_dev s') q = hba_clb (a_dev s) q) ∧
  (∀ q l, hba_sector (a_dev s') q l = hba_sector (a_dev s) q l ∨ q = p ∧ lba ≤ l < lba + count) ∧
  (∀ z, r = Ok z → z = n ∧ quiet (a_dev s') ∧ ∀ l, lba ≤ l < lba + count →
     hba_sector (a_dev s') p l = slice (Z.to_nat (512 * (l - lba))) 512 (load_bytes (Z.to_nat (512 * count)) (DMA_POOL_VIRT_BASE + o) (mm s))).
Proof.
  intros Hat Hko Ho Hend Hfit Hlba Hcount. unfold sbind at 1. destruct (issue_command _ _ _ _ _ _ _ _ _ s) as [ri si] eqn:Hi.
  pose proof (transfer_ok ATA_CMD_WRITE_DMA_EXT lba count o DirWrite ltac:(by right) Hlba Hcount ltac:(lia)) as Hq.
  destruct (issue_command_ok p k _ (transfer_of ATA_CMD_WRITE_DMA_EXT lba count o DirWrite) _ ri si Hat Hq Hi) as (Hci&He&Hfi).
  pose proof He as (_&_&(o2&Hp2&Ho2)&Hclb&Habar&Hsect&Hmem). cbn in Hsect.
  destruct ri as [[]|e| |]; [|intros [= <- <-]|by destruct Hci|by destruct Hci].
  2: { split; [done|]. split; [by exists o2|]. split; [done|]. split; [|done]. intros q l. destruct (Hsect q l) as [|(_&?)]; auto. }
  destruct (Hfi eq_refl) as [Hqi Hfin]. destruct (effect_attached _ _ _ _ _ _ He Hat Hqi) as (o3&Ho3&Hat3).
  unfold sbind. destruct (issue_command _ _ _ _ _ _ _ _ _ si) as [rf sf] eqn:Hf. rewrite <-Habar in Hf.
  assert (asked_ok (Ask ATA_CMD_FLUSH_CACHE_EXT 0 0 0 0 NoData)) as Hq2 by (by split_and!).
  destruct (issue_command_ok p k _ (Ask ATA_CMD_FLUSH_CACHE_EXT 0 0 0 0 NoData) _ rf sf Hat3 Hq2 Hf) as (Hcf&He2&Hff).
  pose proof He2 as (_&_&(o4&Hp4&Ho4)&Hclb2&_&Hsect2&_).
  assert (∀ q l, hba_sector (a_dev sf) q l = hba_sector (a_dev si) q l) as Hsame by (intros q l; by destruct (Hsect2 q l) as [|[? _]]).
  assert (∃ o', pool_at o' sf ∧ o1 ≤ o') as Hpool by (exists o4; split; [done|lia]).
  intros Hr. assert (no_crash r ∧ s' = sf ∧ ∀ z, r = Ok z → z = n ∧ rf = Ok tt) as (Hc&->&Hok).
  { destruct rf as [[]|e| |]; [|..|by destruct Hcf|by destruct Hcf]; unfold sret in Hr; simplify_eq; split_and!; try done. by intros z [= <-]. }
  split; [done|]. split; [done|]. split; [intros; by rewrite Hclb2, Hclb|].
  split; [intros q l; rewrite Hsame; destruct (Hsect q l) as [|(_&?)]; auto|].
  intros z Hz. destruct (Hok z Hz) as [-> ->]. split; [done|]. split; [by apply Hff|]. intros l Hl. rewrite Hsame.
  destruct (Hfin (DMA_POOL_PHYS_BASE + o) (512 * count)) as [_ Hdata]; [cbn; by rewrite (proj2 (Z.ltb_lt _ _)) by lia|cbn; lia|].
  cbn zeta in Hdata. rewrite pool_virt in Hdata by lia. specialize (Hdata eq_refl eq_refl l Hl). cbn [k_lba k_count cmd_of transfer_of q_lba q_count] in Hdata.
  rewrite Hdata. f_equal. apply load_bytes_ext. intros x Hx. destruct (Hmem x) as [|[? _]]; [|done..]. lia.
Qed.

(** C7: A write ends without a panic, whatever the controller answers; it changes no
    sector outside its range on its port and gives its DMA memory back.  When it
    succeeds the sectors hold exactly the bytes of the buffer. *)
Theorem write_sectors_correct p k o s lba count buf r s' :
  attached p k o s → known p k s → 0 ≤ lba < 2 ^ 48 → 0 < count ≤ 8192 →
  write_sectors p lba count buf s = (r, s') →
  no_crash r ∧ pool_at o s' ∧
  (∀ q l, hba_sector (a_dev s') q l = hba_sector (a_dev s) q l ∨ q = p ∧ lba ≤ l < lba + count) ∧
  (∀ n, r = Ok n →
     n = 512 * count ∧ n ≤ Z.of_nat (length buf) ∧ attached p k o s' ∧
     ∀ l, lba ≤ l < lba + count → hba_sector (a_dev s') p l = slice (Z.to_nat (512 * (l - lba))) 512 buf).
Proof.
  intros Hat Hk Hlba Hcount. unfold write_sectors. rewrite (proj2 (Z.eqb_neq count 0)) by lia. pose proof (proj1 Hat) as Hp.
  replace (count * SECTOR_SIZE) with (512 * count) by (unfold SECTOR_SIZE; lia).
  destruct (Z.ltb_spec (Z.of_nat (length buf)) (512 * count)) as [|Hbuf].
  { intros [= <- <-]. split; [done|]. split; [done|]. split; [by left|done]. }
  rewrite Hk. intros H. apply scoped_inv with (o := o) in H as (s1&s2&Hp1&(K1&K2&K3)&_&Hf&Hend); [|done].
  assert (attached p k o s1) as Hat1 by (by eapply kept_attached).
  revert Hf. unfold sbind at 1. destruct (alloc_or _ _ s1) as [ra sa] eqn:Ha.
  destruct (transfer_start _ _ _ (512 * count) _ _ _ _ Hat1 ltac:(lia) Ha) as (Hca&Hea&Hoka).
  destruct ra as [v|e| |]; [|intros [= <- <-]; rewrite (Hea e eq_refl) in *..|by destruct Hca|by destruct Hca].
  2: { destruct (Hend ltac:(done)) as (?&(_&_&Hd)&_); [by exists o|]. split; [done|]. split; [done|]. split; [intros; left; by rewrite Hd, K3|done]. }
  destruct (Hoka v eq_refl) as (Hv2&Hv1&(_&_&Hdev)&Ho&Hround&Hfit&Hata). rewrite on_mem_then.
  set (sb := set_mem _ sa). rewrite Hv2, (wrap_small 32) by lia.
  assert (a_dev sb = a_dev s) as Hsb by (cbn; congruence). rewrite <-Hsb. intros Hrun.
  destruct Hat as (Hpo&Hk0&Hko&Hq&Hclb).
  destruct (write_flush_ok p k o _ _ sb lba count _ _ Hata Hko Ho ltac:(lia) ltac:(lia) Hlba Hcount Hrun) as (Hc&(o'&Hpo'&Ho')&Hclb'&Hsect&Hok).
  destruct (Hend Hc) as (Hps&(_&_&Hdev')&_); [exists o'; split; [done|lia]|]. rewrite !Hdev'.
  split; [done|]. split; [done|]. split; [done|].
  intros n Hn. destruct (Hok n Hn) as (->&Hq'&Hdata). split; [done|]. split; [done|].
  split; [unfold attached; by rewrite Hdev', Hclb', Hsb|]. intros l Hl. rewrite Hdata by done.
  cbn [sb set_mem set_dma a_dma dma_mem]. rewrite Hv1.
  assert (Z.to_nat (512 * count) = length (take (Z.to_nat (512 * count)) buf)) as Hlen by (rewrite length_take; lia).
  rewrite Hlen at 1. rewrite load_store_bytes. unfold slice. rewrite skipn_firstn_comm, take_take. f_equal. lia.
Qed.
End driver.

(** ** A controller for the SATA driver

    A concrete host bus adapter that meets the laws of [AhciProps]: it decodes the
    first slot of a port when the doorbell rings, executes the command while the
    driver waits, and reports an error for what it cannot do.  The theorems of the
    driver are instantiated with it. *)


(** The disks' contents, the base of the registers, the command list of each port,
    the command under way, and the error bits. *)
Record hba := HbaState {
  h_disk : Z → Z → bytes; h_abar : Z; h_clb : Z → Z; h_pending : option (Z * command); h_failed : Z → bool }.

Definition pad (n : nat) (b : bytes) : bytes := take n (b ++ replicate n 0).
Lemma length_pad n b : length (pad n b) = n.
Proof. unfold pad. rewrite length_take, length_app, length_replicate. lia. Qed.
Lemma pad_id n b : length b = n → pad n b = b.
Proof. intros <-. unfold pad. apply take_app_length. Qed.
Definition h_sector (d : hba) (p l : Z) : bytes := pad 512 (h_disk d p l).

(** The effect of a command: the new disks and memory, unless it fails. *)
Definition execute (p : Z) (c : command) (d : hba) (m : mem) : option ((Z → Z → bytes) * mem) :=
  if k_op c =? ATA_CMD_READ_DMA_EXT then
    match k_prd c with
    | Some (a, n) =>
        if (512 * k_count c <=? n) && negb (k_write c)
        then Some (h_disk d, store_bytes (dma_phys_to_virt a) (mjoin (h_sector d p <$> seqZ (k_lba c) (k_count c))) m)
        else None
    | None => None
    end
  else if k_op c =? ATA_CMD_WRITE_DMA_EXT then
    match k_prd c with
    | Some (a, n) =>
        if (512 * k_count c <=? n) && k_write c then
          let data := load_bytes (Z.to_nat (512 * k_count c)) (dma_phys_to_virt a) m in
          Some (λ q l, if decide (q = p ∧ k_lba c ≤ l < k_lba c + k_count c)
                       then slice (Z.to_nat (512 * (l - k_lba c))) 512 data else h_disk d q l, m)
        else None
    | None => None
    end
  else Some (h_disk d, m).

Definition h_wait (d : hba) (m : mem) : hba * mem :=
  match h_pending d with
  | None => (d, m)
  | Some (p, c) =>
      match execute p c d m with
      | Some (disk, m') => (HbaState disk (h_abar d) (h_clb d) None (λ q, if q =? p then false else h_failed d q), m')
      | None => (HbaState (h_disk d) (h_abar d) (h_clb d) None (λ q, if q =? p then true else h_failed d q), m)
      end
  end.

(** A register as its port and offset in it. *)
Definition port_of (d : hba) (a : Z) : Z := (a - h_abar d - 0x100) / 0x80.
Definition reg_of (d : hba) (a : Z) : Z := (a - h_abar d - 0x100) mod 0x80.
Definition busy (d : hba) (p : Z) : bool := match h_pending d with Some (q, _) => q =? p | None => false end.

Definition h_read (a : Z) (d : hba) (m : mem) : outcome string Z * (hba * mem) :=
  let p := port_of d a in
  (Ok (if reg_of d a =? PORT_CI then (if busy d p then 1 else 0)
       else if reg_of d a =? PORT_TFD then (if busy d p then TFD_BSY else if h_failed d p then TFD_ERR else 0)
       else 0), (d, m)).
Definition h_write (a v : Z) (d : hba) (m : mem) : outcome string unit * (hba * mem) :=
  let p := port_of d a in
  (Ok tt, (match h_pending d, decode m (h_clb d p) with
           | None, Some c => if (reg_of d a =? PORT_CI) && (v =? 1)
                             then HbaState (h_disk d) (h_abar d) (h_clb d) (Some (p, c)) (h_failed d) else d
           | _, _ => d
           end, m)).

#[export] Instance hba_hba : Hba hba := { hba_read := h_read; hba_write := h_write; hba_wait := h_wait }.
#[export] Instance hba_view : HbaView hba := {
  hba_sector := h_sector;
  hba_pending d p := match h_pending d with Some (q, c) => if p =? q then Some c else None | None => None end;
  hba_failed := h_failed; hba_clb := h_clb; hba_abar := h_abar }.

Lemma port_of_reg d p r : 0 ≤ r < 0x80 → port_of d (port_reg (h_abar d) p r) = p.
Proof.
  intros. unfold port_of, port_reg. replace (_ - _ - _) with (r + p * 0x80) by lia.
  rewrite Z.div_add by lia. by rewrite Z.div_small.
Qed.
Lemma reg_of_reg d p r : 0 ≤ r < 0x80 → reg_of d (port_reg (h_abar d) p r) = r.
Proof.
  intros. unfold reg_of, port_reg. replace (_ - _ - _) with (r + p * 0x80) by lia.
  rewrite Z.mod_add by lia. by rewrite Z.mod_small.
Qed.
Lemma quiet_none d : quiet d → h_pending d = None.
Proof.
  intros Hq. destruct (h_pending d) as [[p c]|] eqn:He; [|done]. specialize (Hq p). cbn in Hq. by rewrite He, Z.eqb_refl in Hq.
Qed.
Lemma none_quiet d : h_pending d = None → quiet d.
Proof. intros H p. cbn. by rewrite H. Qed.
Lemma pending_only p c d : hba_pending d p = Some c → h_pending d = Some (p, c).
Proof. cbn. destruct (h_pending d) as [[q c']|]; [|done]. destruct (Z.eqb_spec p q); by intros; simplify_eq. Qed.
Lemma step_self p c (d : hba) m : only p d → hba_pending d p = Some c → step p c d m d m.
Proof. intros. split; [by split; left|]. split; [done|]. split; [done|]. split; [done|]. by left. Qed.

Lemma length_disk_sectors (d : hba) p l n : length (mjoin (h_sector d p <$> seqZ l n)) = Z.to_nat (512 * n).
Proof.
  rewrite (length_mjoin_uniform 512); [rewrite length_fmap, length_seqZ; lia|].
  apply Forall_fmap, Forall_true. intros. apply length_pad.
Qed.

(** Executing a command does its work. *)
Lemma execute_ok p c d m disk m' : execute p c d m = Some (disk, m') →
  let d' := HbaState disk (h_abar d) (h_clb d) None (λ q, if q =? p then false else h_failed d q) in
  works p c d m d' m' ∧ finished p c d' m'.
Proof.
  unfold execute. destruct (Z.eqb_spec (k_op c) ATA_CMD_READ_DMA_EXT) as [Hr|Hr].
  - destruct (k_prd c) as [[a n]|] eqn:Hprd; [|done]. destruct (_ && _) eqn:Hc; [|done].
    apply andb_prop in Hc as [Hn%Z.leb_le Hw%negb_true_iff]. intros [= <- <-]. split.
    + split; [|by left]. intros x. destruct (decide (dma_phys_to_virt a ≤ x < dma_phys_to_virt a + Z.of_nat (Z.to_nat (512 * k_count c)))).
      * right. split; [done|]. unfold in_buffer. rewrite Hprd. lia.
      * left. apply store_bytes_ne. by rewrite length_disk_sectors.
    + intros a' n'. rewrite Hprd. intros [= <- <-] _. cbn zeta. rewrite Hr. split; [|done]. intros _ _.
      rewrite <-(length_disk_sectors d p (k_lba c)). by rewrite load_store_bytes.
  - destruct (Z.eqb_spec (k_op c) ATA_CMD_WRITE_DMA_EXT) as [Hw|Hw]; [|intros [= <- <-]; split; [by split; left|by split]].
    destruct (k_prd c) as [[a n]|] eqn:Hprd; [|done]. destruct (_ && _) eqn:Hc; [|done].
    apply andb_prop in Hc as [Hn%Z.leb_le Hwr]. intros [= <- <-]. split.
    + split; [by left|]. intros q l. cbn [hba_sector hba_view]. unfold h_sector. cbn [h_disk].
      case_decide; [right; tauto|by left].
    + intros a' n'. rewrite Hprd. intros [= <- <-] _. cbn zeta. split; [done|]. intros _ _ l Hl.
      change (pad 512 (if decide (p = p ∧ k_lba c ≤ l < k_lba c + k_count c) then slice (Z.to_nat (512 * (l - k_lba c))) 512
        (load_bytes (Z.to_nat (512 * k_count c)) (dma_phys_to_virt a) m) else h_disk d p l) = slice (Z.to_nat (512 * (l - k_lba c))) 512
        (load_bytes (Z.to_nat (512 * k_count c)) (dma_phys_to_virt a) m)).
      rewrite decide_True by done. apply pad_id. apply length_slice. rewrite length_load_bytes. lia.
Qed.

#[export] Instance hba_laws : HbaLaws hba.
Proof.
  split; cbn [hba_read hba_write hba_wait hba_hba].
  - intros. apply length_pad.
  - done.
  - done.
  - intros a d m r d' m' Hq [= <- <- <-]. by apply same_refl.
  - intros d m d' m' Hq. unfold h_wait. rewrite (quiet_none d Hq). intros [= <- <-]. by apply same_refl.
  - intros p v d m r d' m' Hq. unfold h_write. rewrite reg_of_reg by (vm_compute; split; congruence). cbn [Z.eqb andb].
    intros [= <- <- <-]. rewrite (quiet_none d Hq). by destruct (decode _ _); apply same_refl.
  - done.
  - intros p d m d' m' c Hq Hdec. unfold h_write. rewrite reg_of_reg, port_of_reg by (vm_compute; split; congruence).
    change (h_clb d p) with (hba_clb d p). rewrite (quiet_none d Hq), Hdec. intros [= <- <-].
    split; [by split; left|]. split; [intros q Hne; cbn; by rewrite (proj2 (Z.eqb_neq q p))|]. split; [done|]. split; [done|].
    left. cbn. by rewrite Z.eqb_refl.
  - intros a p c d m r d' m' Ho Hp [= <- <- <-]. by apply step_self.
  - intros p c d m d' m' Ho Hp. unfold h_wait. rewrite (pending_only _ _ _ Hp). destruct (execute p c d m) as [[disk m1]|] eqn:He; intros [= <- <-].
    + destruct (execute_ok _ _ _ _ _ _ He). split; [done|]. do 3 (split; [done|]). right. split; [done|]. by right.
    + split; [by split; left|]. do 3 (split; [done|]). right. split; [done|]. left. cbn. by rewrite Z.eqb_refl.
  - intros p d m v d' m' Ho. unfold h_read. rewrite reg_of_reg, port_of_reg by (vm_compute; split; congruence). intros [= <- <- <-] Hv.
    apply none_quiet. unfold busy in Hv. cbn in Hv. destruct (h_pending d) as [[q c]|] eqn:He; [|done]. destruct (Z.eqb_spec q p) as [->|Hne]; [done|].
    specialize (Ho q Hne). cbn in Ho. by rewrite He, Z.eqb_refl in Ho.
  - intros p d m v d' m' Hq. unfold h_read. rewrite reg_of_reg, port_of_reg by (vm_compute; split; congruence). intros [= <- <- <-].
    unfold busy. rewrite (quiet_none d Hq). cbn. by destruct (h_failed d p).
Qed.

(** A disk on port 0 whose sector [l] is all [l mod 256], and its driver. *)
Definition demo_port : AhciPort := Port 0 0x101 Sata DMA_POOL_PHYS_BASE (DMA_POOL_PHYS_BASE + 4096).
Definition demo : ahci hba :=
  State (Some (Controller (Pci.Device 0 31 2 0x8086 0x2922 1 6 1 2 [0; 0; 0; 0; 0; 0xFEB00000]) 0xFEB00000 (0xFFFFFF8000000000 + 0xFEB00000) 1 1)) [demo_port] ∅
    (DmaState (Some (DmaAllocator 8192 DMA_POOL_SIZE false)) (λ _, 0))
    (HbaState (λ _ l, replicate 512 (l mod 256)) 0xFEB00000 (λ _, DMA_POOL_PHYS_BASE) None (λ _, false)).

Lemma demo_attached : attached 0 0 8192 demo.
Proof.
  split; [by exists (DmaAllocator 8192 DMA_POOL_SIZE false)|]. split; [lia|]. split; [lia|]. split; [by apply none_quiet|done].
Qed.

(** Sectors 5 and 6, with a byte left over in the buffer. *)
Lemma read_sectors_correct_witness :
  (read_sectors 0 5 2 (replicate 1025 9) demo).1 = Ok (1024, replicate 512 5 ++ replicate 512 6 ++ [9]) ∧
  attached 0 0 8192 (read_sectors 0 5 2 (replicate 1025 9) demo).2.
Proof.
  split; [by vm_compute|].
  destruct (read_sectors 0 5 2 (replicate 1025 9) demo) as [r s'] eqn:He.
  destruct (read_sectors_correct 0 0 8192 demo 5 2 _ r s' demo_attached eq_refl ltac:(lia) ltac:(lia) He) as (_&_&_&H).
  assert (r = Ok (1024, replicate 512 5 ++ replicate 512 6 ++ [9])) as Hr by (change r with (r, s').1; rewrite <-He; by vm_compute).
  by apply (H _ _ Hr).
Defined.

Lemma write_sectors_correct_witness :
  (write_sectors 0 5 1 (replicate 512 7) demo).1 = Ok 512 ∧
  hba_sector (a_dev (write_sectors 0 5 1 (replicate 512 7) demo).2) 0 5 = replicate 512 7.
Proof.
  destruct (write_sectors 0 5 1 (replicate 512 7) demo) as [r s'] eqn:He.
  destruct (write_sectors_correct 0 0 8192 demo 5 1 _ r s' demo_attached eq_refl ltac:(lia) ltac:(lia) He) as (_&_&_&H).
  assert (r = Ok 512) as Hr by (change r with (r, s').1; rewrite <-He; by vm_compute).
  split; [done|]. cbn [snd]. destruct (H _ Hr) as (_&_&_&Hs). rewrite Hs by lia. by vm_compute.
Defined.
