(* ===== verification/Wm.v ===== *)
(** * The window registry (kernel/src/wm.rs)

    Windows with their owner, position, pixels and queue of input events, and
    the two queues that tell the compositor what came and went.  [STATE] is
    [None] until [init]; its lock is the passing of the state. *)

From stdpp Require Import sorting.
From S2P Require Import Prelude.

Module Wm.

(** [wm.rs:50-50, !op::EV_MOUSE_MOVE] *)
Definition EV_MOUSE_MOVE : Z := 0x10.
(** [wm.rs:51-51, !op::EV_MOUSE_DOWN] *)
Definition EV_MOUSE_DOWN : Z := 0x11.
(** [wm.rs:52-52, !op::EV_MOUSE_UP] *)
Definition EV_MOUSE_UP : Z := 0x12.
(** [wm.rs:53-53, !op::EV_KEY] *)
Definition EV_KEY : Z := 0x13.
(** [wm.rs:54-54, !op::EV_CLOSE] *)
Definition EV_CLOSE : Z := 0x14.
(** [wm.rs:55-55, !op::EV_FOCUS] *)
Definition EV_FOCUS : Z := 0x15.
(** [wm.rs:56-56, !op::EV_BLUR] *)
Definition EV_BLUR : Z := 0x16.
(** [wm.rs:61-61, !MAX_W] *)
Definition MAX_W : Z := 320.
(** [wm.rs:62-62, !MAX_H] *)
Definition MAX_H : Z := 240.
(** [wm.rs:65-65, !MAX_WINDOWS] *)
Definition MAX_WINDOWS : nat := 16.
(** [wm.rs:68-68, !EVENT_QUEUE_CAP] *)
Definition EVENT_QUEUE_CAP : nat := 64.

(** [wm.rs:74-80, WmEvent]: coordinates are two's complement in 32 bits. *)
Record event := WmEvent { ev_kind : Z; ev_x : Z; ev_y : Z; ev_arg : Z }.

(** [wm.rs:88-95, WmEvent::to_bytes] *)
Definition event_to_bytes (ev : event) : bytes :=
  le_enc 4 (ev_kind ev) ++ le_enc 4 (wrap32 (ev_x ev)) ++ le_enc 4 (wrap32 (ev_y ev)) ++
  le_enc 4 (ev_arg ev).

(** [wm.rs:99-117, ServerWindow] *)
Record window := Win {
  w_id : Z; w_owner : Z; w_x : Z; w_y : Z; w_w : Z; w_h : Z; w_title : bytes;
  w_pixels : list Z; w_seq : Z; w_events : list event }.

(** [wm.rs:120-126, WmState] *)
Record registry := Reg { r_windows : gmap Z window; r_new : list Z; r_destroy : list Z }.

(** The statics of the file: [STATE], [NEXT_ID] and [DIRTY]. *)
Record wm := WmS { m_state : option registry; m_next : Z; m_dirty : Z }.

Definition bump_dirty (s : wm) : wm := WmS (m_state s) (m_next s) (wrap64 (m_dirty s + 1)).
Definition set_reg (r : registry) (s : wm) : wm := WmS (Some r) (m_next s) (m_dirty s).
Definition windows (s : wm) : gmap Z window :=
  match m_state s with Some r => r_windows r | None => ∅ end.

(** [wm.rs:141-148, init] *)
Definition init (s : wm) : wm := set_reg (Reg ∅ [] []) s.

(** A change of one window, if it exists. *)
Definition change (id : Z) (f : window → window) (s : wm) : bool * wm :=
  match m_state s with
  | None => (false, s)
  | Some r =>
      match r_windows r !! id with
      | None => (false, s)
      | Some w => (true, set_reg (Reg (<[id := f w]> (r_windows r)) (r_new r) (r_destroy r)) s)
      end
  end.
Definition then_dirty (p : bool * wm) : bool * wm :=
  if p.1 then (true, bump_dirty p.2) else p.

(** [wm.rs:165-197, create_window] *)
Definition create_window (owner w h : Z) (title : bytes) (s : wm) : option Z * wm :=
  if (w =? 0) || (h =? 0) then (None, s) else
  let w := Z.min w MAX_W in
  let h := Z.min h MAX_H in
  match m_state s with
  | None => (None, s)
  | Some r =>
      if decide (MAX_WINDOWS ≤ size (r_windows r))%nat then (None, s) else
      let id := m_next s in
      let win := Win id owner 0 0 w h title (replicate (Z.to_nat (w * h)) 0) 0 [] in
      (Some id, bump_dirty (WmS (Some (Reg (<[id := win]> (r_windows r)) (r_new r ++ [id]) (r_destroy r)))
                              (wrap64 (id + 1)) (m_dirty s)))
  end.

(** [wm.rs:201-204, is_owner] *)
Definition is_owner (id task : Z) (s : wm) : bool :=
  match windows s !! id with Some w => w_owner w =? task | None => false end.

(** [win.pixels[..n].copy_from_slice(&src[..n])] *)
Definition present (src : list Z) (w : window) : window :=
  let n := Nat.min (length src) (length (w_pixels w)) in
  Win (w_id w) (w_owner w) (w_x w) (w_y w) (w_w w) (w_h w) (w_title w)
    (take n src ++ drop n (w_pixels w)) (wrap64 (w_seq w + 1)) (w_events w).

(** [wm.rs:210-226, commit] *)
Definition commit (id : Z) (src : list Z) (s : wm) : bool * wm :=
  then_dirty (change id (present src) s).

(** [wm.rs:230-244, destroy_window] *)
Definition destroy_window (id : Z) (s : wm) : bool * wm :=
  match m_state s with
  | None => (false, s)
  | Some r =>
      match r_windows r !! id with
      | None => (false, s)
      | Some _ => (true, bump_dirty (set_reg
          (Reg (delete id (r_windows r)) (r_new r) (r_destroy r ++ [id])) s))
      end
  end.

(** The ids of a task's windows, in the order of the map. *)
Definition owned (owner : Z) (ws : gmap Z window) : list Z :=
  merge_sort Z.le (fst <$> filter (λ p, w_owner p.2 = owner) (map_to_list ws)).

(** [wm.rs:250-269, destroy_windows_owned_by] *)
Definition destroy_windows_owned_by (owner : Z) (s : wm) : Z * wm :=
  match m_state s with
  | None => (0, s)
  | Some r =>
      let ids := owned owner (r_windows r) in
      let s' := set_reg (Reg (foldl (λ ws id, delete id ws) (r_windows r) ids) (r_new r)
                           (r_destroy r ++ ids)) s in
      (Z.of_nat (length ids), match ids with [] => s' | _ => bump_dirty s' end)
  end.

(** [wm.rs:272-286, set_title] *)
Definition set_title (id : Z) (title : bytes) (s : wm) : bool * wm :=
  then_dirty (change id (λ w, Win (w_id w) (w_owner w) (w_x w) (w_y w) (w_w w) (w_h w) title
    (w_pixels w) (w_seq w) (w_events w)) s).

Definition with_events (l : list event) (w : window) : window :=
  Win (w_id w) (w_owner w) (w_x w) (w_y w) (w_w w) (w_h w) (w_title w) (w_pixels w) (w_seq w) l.

(** [wm.rs:289-291, poll_event] *)
Definition poll_event (id : Z) (s : wm) : option event * wm :=
  match windows s !! id with
  | None => (None, s)
  | Some w => (head (w_events w), (change id (λ w, with_events (tail (w_events w)) w) s).2)
  end.

(** [wm.rs:294-296, window_info]: x, y, w, h. *)
Definition window_info (id : Z) (s : wm) : option (Z * Z * Z * Z) :=
  (λ w, (w_x w, w_y w, w_w w, w_h w)) <$> windows s !! id.

(** [wm.rs:302-304, take_pending_new] *)
Definition take_pending_new (s : wm) : option Z * wm :=
  match m_state s with
  | None => (None, s)
  | Some r => (head (r_new r), set_reg (Reg (r_windows r) (tail (r_new r)) (r_destroy r)) s)
  end.
(** [wm.rs:307-309, take_pending_destroy] *)
Definition take_pending_destroy (s : wm) : option Z * wm :=
  match m_state s with
  | None => (None, s)
  | Some r => (head (r_destroy r), set_reg (Reg (r_windows r) (r_new r) (tail (r_destroy r))) s)
  end.

(** [wm.rs:313-315, window_size_title] *)
Definition window_size_title (id : Z) (s : wm) : option (Z * Z * bytes) :=
  (λ w, (w_w w, w_h w, w_title w)) <$> windows s !! id.
(** [wm.rs:318-320, exists] *)
Definition exists_window (id : Z) (s : wm) : bool := bool_decide (is_Some (windows s !! id)).

(** [wm.rs:324-331, set_position] *)
Definition set_position (id x y : Z) (s : wm) : wm :=
  (change id (λ w, Win (w_id w) (w_owner w) x y (w_w w) (w_h w) (w_title w) (w_pixels w) (w_seq w)
    (w_events w)) s).2.

(** The oldest event goes when the queue is full. *)
Definition enqueue (ev : event) (l : list event) : list event :=
  (if decide (EVENT_QUEUE_CAP ≤ length l)%nat then tail l else l) ++ [ev].

(** [wm.rs:335-344, push_event] *)
Definition push_event (id : Z) (ev : event) (s : wm) : wm :=
  (change id (λ w, with_events (enqueue ev (w_events w)) w) s).2.

(** [wm.rs:349-351, with_pixels] *)
Definition with_pixels {R} (id : Z) (f : Z → Z → list Z → R) (s : wm) : option R :=
  (λ w, f (w_w w) (w_h w) (w_pixels w)) <$> windows s !! id.
(** [wm.rs:354-356, buf_seq] *)
Definition buf_seq (id : Z) (s : wm) : Z := default 0 (w_seq <$> windows s !! id).
(** [wm.rs:359-361, window_count] *)
Definition window_count (s : wm) : Z := Z.of_nat (size (windows s)).

(** [while let Some(n) = take_pending_new()]: the queue is emptied. *)
Definition drain_new (s : wm) : wm :=
  match m_state s with
  | None => s
  | Some r => set_reg (Reg (r_windows r) [] (r_destroy r)) s
  end.
Definition drain_destroy (s : wm) : list Z * wm :=
  match m_state s with
  | None => ([], s)
  | Some r => (r_destroy r, set_reg (Reg (r_windows r) (r_new r) []) s)
  end.

(** [wm.rs:368-427, wm_selftest]: whether it reports PASS. *)
Definition wm_selftest (owner : Z) (s : wm) : bool * wm :=
  let '(id, s) := create_window owner 64 32 (str "selftest") s in
  match id with
  | None => (false, s)
  | Some id =>
      let s := drain_new s in
      let owner_ok := is_owner id owner s in
      let geom_ok := match window_info id s with
                     | Some (_, _, w, h) => (w =? 64) && (h =? 32)
                     | None => false
                     end in
      let before := m_dirty s in
      let '(commit_ok, s) := commit id (replicate (64 * 32) 0x00FF00FF) s in
      let dirty_ok := before <? m_dirty s in
      let s := push_event id (WmEvent EV_KEY 0 0 65) s in
      let s := push_event id (WmEvent 0x11 3 4 0) s in
      let '(e1, s) := poll_event id s in
      let '(e2, s) := poll_event id s in
      let '(e3, s) := poll_event id s in
      let events_ok :=
        match e1, e2, e3 with
        | Some a, Some b, None =>
            (ev_kind a =? EV_KEY) && (ev_arg a =? 65) &&
            (ev_kind b =? 0x11) && (ev_x b =? 3) && (ev_y b =? 4)
        | _, _, _ => false
        end in
      let '(destroy_ok, s) := destroy_window id s in
      let '(gone, s) := drain_destroy s in
      let notified := existsb (Z.eqb id) gone in
      let gone_ok := negb (exists_window id s) in
      (owner_ok && geom_ok && commit_ok && dirty_ok && events_ok && destroy_ok && notified && gone_ok, s)
  end.

(** ** Sequences of calls *)

(** What clients and the compositor ask for. *)
Inductive op : Type :=
| OCreate (owner w h : Z) (title : bytes)
| OCommit (id : Z) (src : list Z)
| ODestroy (id : Z)
| ODestroyOwned (owner : Z)
| OTitle (id : Z) (title : bytes)
| OPoll (id : Z)
| OPush (id : Z) (ev : event)
| OPosition (id x y : Z)
| OTakeNew
| OTakeDestroy.

(** The ids the compositor learns from a call: new windows, gone windows. *)
Definition reports : Type := list Z * list Z.
Definition step (o : op) (s : wm) : reports * wm :=
  match o with
  | OCreate ow w h t => (([], []), (create_window ow w h t s).2)
  | OCommit id src => (([], []), (commit id src s).2)
  | ODestroy id => (([], []), (destroy_window id s).2)
  | ODestroyOwned ow => (([], []), (destroy_windows_owned_by ow s).2)
  | OTitle id t => (([], []), (set_title id t s).2)
  | OPoll id => (([], []), (poll_event id s).2)
  | OPush id ev => (([], []), push_event id ev s)
  | OPosition id x y => (([], []), set_position id x y s)
  | OTakeNew => let p := take_pending_new s in ((option_list p.1, []), p.2)
  | OTakeDestroy => let p := take_pending_destroy s in (([], option_list p.1), p.2)
  end.
Fixpoint run (ops : list op) (s : wm) : reports * wm :=
  match ops with
  | [] => (([], []), s)
  | o :: ops =>
      let p := step o s in
      let q := run ops p.2 in
      ((p.1.1 ++ q.1.1, p.1.2 ++ q.1.2), q.2)
  end.

(** ** The registry is well formed *)

Record window_ok (s : wm) (id : Z) (w : window) : Prop := {
  wo_id : w_id w = id;
  wo_old : 0 ≤ id < m_next s;
  wo_size : 0 < w_w w ≤ MAX_W ∧ 0 < w_h w ≤ MAX_H;
  wo_pixels : Z.of_nat (length (w_pixels w)) = w_w w * w_h w;
  wo_events : (length (w_events w) ≤ EVENT_QUEUE_CAP)%nat;
}.
Record wm_ok (s : wm) : Prop := {
  mo_next : 0 ≤ m_next s;
  mo_windows id w : windows s !! id = Some w → window_ok s id w;
  mo_count : (size (windows s) ≤ MAX_WINDOWS)%nat;
}.
(** Sizes are [usize] values. *)
Definition op_ok (o : op) : Prop :=
  match o with OCreate _ w h _ => 0 ≤ w ∧ 0 ≤ h | _ => True end.

Lemma change_cases id f s :
  (windows s !! id = None ∧ change id f s = (false, s)) ∨
  ∃ w r, m_state s = Some r ∧ windows s !! id = Some w ∧
    change id f s = (true, set_reg (Reg (<[id := f w]> (windows s)) (r_new r) (r_destroy r)) s).
Proof.
  unfold change, windows. destruct (m_state s) as [r|] eqn:Hr; [|left; by rewrite lookup_empty].
  destruct (r_windows r !! id) as [w|] eqn:Hw; [right; by exists w, r|by left].
Qed.

(** A change that keeps the form of the window keeps that of the registry. *)
Lemma change_ok id f s :
  wm_ok s → (∀ w, window_ok s id w → window_ok s id (f w)) → wm_ok (change id f s).2.
Proof.
  intros [Hn Hw Hc] Hf. destruct (change_cases id f s) as [[_ ->]|(w&r&Hr&Hid&->)]; [done|].
  split; cbn.
  - done.
  - intros j v. rewrite lookup_insert_Some. intros [[<- <-]|[_ Hv]].
    + destruct (Hf w (Hw _ _ Hid)). by split.
    + destruct (Hw _ _ Hv). by split.
  - rewrite map_size_insert_Some; [done|by eexists].
Qed.

Lemma wm_ok_same s s' :
  windows s' = windows s → m_next s' = m_next s → wm_ok s → wm_ok s'.
Proof.
  intros Hw Hn [H1 H2 H3]. split; rewrite ?Hw, ?Hn; [done| |done].
  intros id w Hid. destruct (H2 id w Hid). split; by rewrite ?Hn.
Qed.

Lemma then_dirty_ok p : wm_ok p.2 → wm_ok (then_dirty p).2.
Proof. unfold then_dirty. destruct p as [[] s]; [|done]. by apply wm_ok_same. Qed.

Lemma enqueue_length ev l :
  (length l ≤ EVENT_QUEUE_CAP)%nat → (length (enqueue ev l) ≤ EVENT_QUEUE_CAP)%nat.
Proof.
  unfold enqueue, EVENT_QUEUE_CAP. intros. rewrite length_app. destruct (decide _); simpl; [|lia].
  destruct l; simpl in *; lia.
Qed.

(** The windows left after some ids are gone. *)
Lemma foldl_delete_lookup (ids : list Z) (ws : gmap Z window) j :
  foldl (λ ws id, delete id ws) ws ids !! j = if decide (j ∈ ids) then None else ws !! j.
Proof.
  revert ws. induction ids as [|i ids IH]; intros ws; cbn [foldl].
  - rewrite decide_False; [done|]. apply not_elem_of_nil.
  - rewrite IH. destruct (decide (j ∈ ids)) as [Hin|Hin].
    + rewrite decide_True; [done|]. by right.
    + destruct (decide (j = i)) as [->|Hne].
      * rewrite lookup_delete_eq, decide_True; [done|]. by left.
      * rewrite lookup_delete_ne by done. rewrite decide_False; [done|].
        by intros [?|?]%elem_of_cons.
Qed.

Lemma elem_of_owned owner ws id :
  id ∈ owned owner ws ↔ ∃ w, ws !! id = Some w ∧ w_owner w = owner.
Proof.
  unfold owned. rewrite (merge_sort_Permutation Z.le). rewrite list_elem_of_fmap. split.
  - intros ([j w]&->&Hin). apply list_elem_of_filter in Hin as [Ho Hin].
    exists w. split; [by apply elem_of_map_to_list|done].
  - intros (w&Hid&Ho). exists (id, w). split; [done|]. apply list_elem_of_filter.
    split; [done|]. by apply elem_of_map_to_list.
Qed.

Lemma NoDup_owned owner ws : NoDup (owned owner ws).
Proof.
  unfold owned. rewrite (merge_sort_Permutation Z.le).
  assert (NoDup ((map_to_list ws).*1)) as Hn by apply NoDup_fst_map_to_list.
  revert Hn. generalize (map_to_list ws). intros l. induction l as [|[j w] l IH]; intros Hn; [constructor|].
  cbn in Hn. apply NoDup_cons in Hn as [Hj Hn]. rewrite filter_cons.
  destruct (decide _); [|by apply IH]. cbn. constructor; [|by apply IH].
  rewrite list_elem_of_fmap. intros ([j' w']&->&[_ Hin]%list_elem_of_filter). apply Hj.
  apply list_elem_of_fmap. by exists (j', w').
Qed.


(** ** What the compositor is told *)

Definition news (s : wm) : list Z := default [] (r_new <$> m_state s).
Definition gones (s : wm) : list Z := default [] (r_destroy <$> m_state s).

(** From [s] to [s'] the [n] windows after [m_next s] were made and the windows
    [d] destroyed; the compositor took [rep] from its queues. *)
Record notified (s : wm) (rep : reports) (s' : wm) (n : Z) (d : list Z) : Prop := {
  no_next : m_next s' = m_next s + n;
  no_count : 0 ≤ n;
  no_new : rep.1 ++ news s' = news s ++ seqZ (m_next s) n;
  no_gone : rep.2 ++ gones s' = gones s ++ d;
  no_once : NoDup d;
  no_from id : id ∈ d → is_Some (windows s !! id) ∨ m_next s ≤ id < m_next s';
  no_live id : is_Some (windows s' !! id) ↔
    (is_Some (windows s !! id) ∨ m_next s ≤ id < m_next s') ∧ id ∉ d;
}.

Lemma notified_none s s' rep :
  m_next s' = m_next s → rep.1 ++ news s' = news s → rep.2 ++ gones s' = gones s →
  (∀ id, is_Some (windows s' !! id) ↔ is_Some (windows s !! id)) → notified s rep s' 0 [].
Proof.
  intros Hn Hnew Hg Hw. split; rewrite ?Hn, ?app_nil_r; [lia|lia|done|done|constructor| |].
  - by intros id Hid%elem_of_nil.
  - intros id. rewrite Hw. split; [intros ?; split; [by left|by apply not_elem_of_nil]|].
    intros [[?|?] _]; [done|lia].
Qed.

Lemma change_notified id f s p :
  p = change id f s ∨ p = then_dirty (change id f s) → notified s ([], []) p.2 0 [].
Proof.
  intros Hp. assert (m_next p.2 = m_next s ∧ news p.2 = news s ∧ gones p.2 = gones s ∧
    ∀ j, is_Some (windows p.2 !! j) ↔ is_Some (windows s !! j)) as (?&?&?&?);
    [|by apply notified_none].
  destruct (change_cases id f s) as [[_ Hc]|(w&r&Hr&Hid&Hc)]; rewrite Hc in Hp.
  { by destruct Hp as [-> | ->]. }
  assert (∀ j, is_Some (<[id := f w]> (windows s) !! j) ↔ is_Some (windows s !! j)) as Hdom.
  { intros j. destruct (decide (j = id)) as [->|]; [|by rewrite lookup_insert_ne].
    rewrite lookup_insert_eq, Hid. by split; eexists. }
  assert (news s = r_new r ∧ gones s = r_destroy r) as [Hnw Hgo] by (unfold news, gones; by rewrite Hr).
  rewrite Hnw, Hgo. by destruct Hp as [-> | ->]; split_and!.
Qed.

Lemma create_notified ow w h t s :
  wm_ok s → m_next s + 1 < 2 ^ 64 → ∃ n, n ≤ 1 ∧ notified s ([], []) (create_window ow w h t s).2 n [].
Proof.
  intros [Hn Hold _] Hmax. unfold create_window.
  destruct (_ || _); [exists 0; split; [lia|by apply notified_none]|].
  destruct (m_state s) as [r|] eqn:Hr; [|exists 0; split; [lia|by apply notified_none]].
  destruct (decide _); [exists 0; split; [lia|by apply notified_none]|].
  assert (windows s = r_windows r ∧ news s = r_new r ∧ gones s = r_destroy r) as (Hw&Hnw&Hgo)
    by (unfold windows, news, gones; by rewrite Hr).
  rewrite <-Hw. exists 1. split; [lia|]. split; cbn.
  - rewrite wrap_small; lia.
  - lia.
  - by rewrite Hnw, (seqZ_cons (m_next s) 1).
  - by rewrite Hgo, app_nil_r.
  - constructor.
  - by intros id Hid%elem_of_nil.
  - intros id. rewrite wrap_small by lia. destruct (decide (id = m_next s)) as [->|Hne].
    + rewrite lookup_insert_eq. split; [|by eexists].
      intros _. split; [right; lia|apply not_elem_of_nil].
    + rewrite lookup_insert_ne by done. split; [intros ?; split; [by left|apply not_elem_of_nil]|].
      intros [[?|?] _]; [done|lia].
Qed.

Lemma destroy_notified id s :
  ∃ d, notified s ([], []) (destroy_window id s).2 0 d.
Proof.
  unfold destroy_window. destruct (m_state s) as [r|] eqn:Hr; [|exists []; by apply notified_none].
  destruct (r_windows r !! id) as [w|] eqn:Hid; [|exists []; by apply notified_none].
  assert (windows s = r_windows r ∧ news s = r_new r ∧ gones s = r_destroy r) as (Hw&Hnw&Hgo)
    by (unfold windows, news, gones; by rewrite Hr).
  exists [id]. split; cbn.
  - lia.
  - lia.
  - by rewrite Hnw, app_nil_r.
  - by rewrite Hgo.
  - apply NoDup_singleton.
  - intros j ->%list_elem_of_singleton. left. rewrite Hw. by eexists.
  - intros j. rewrite list_elem_of_singleton, <-Hw. destruct (decide (j = id)) as [->|Hne].
    + rewrite lookup_delete_eq. split; [by intros []|by intros [_ []]].
    + rewrite lookup_delete_ne by done. split; [naive_solver|]. intros [[?|?] _]; [done|lia].
Qed.

Lemma destroy_owned_notified ow s :
  ∃ d, notified s ([], []) (destroy_windows_owned_by ow s).2 0 d.
Proof.
  unfold destroy_windows_owned_by.
  destruct (m_state s) as [r|] eqn:Hr; [|exists []; by apply notified_none].
  assert (windows s = r_windows r ∧ news s = r_new r ∧ gones s = r_destroy r) as (Hw&Hnw&Hgo)
    by (unfold windows, news, gones; by rewrite Hr).
  pose proof (elem_of_owned ow (r_windows r)) as Hin. pose proof (NoDup_owned ow (r_windows r)) as Hnd.
  exists (owned ow (r_windows r)). revert Hin Hnd. generalize (owned ow (r_windows r)). intros ids Hin Hnd.
  cbn. set (s1 := set_reg _ s).
  assert (notified s ([], []) s1 0 ids) as Hs1.
  { split; cbn; [lia|lia|by rewrite Hnw, app_nil_r|by rewrite Hgo|done| |].
    - intros id (w&Hid&_)%Hin. left. rewrite Hw. by eexists.
    - intros id. rewrite foldl_delete_lookup, Hw. destruct (decide (id ∈ ids)).
      + split; [by intros []|by intros [_ []]].
      + split; [naive_solver|]. intros [[?|?] _]; [done|lia]. }
  destruct ids; [done|]. by destruct Hs1; split.
Qed.

Lemma take_notified s :
  notified s (option_list (take_pending_new s).1, []) (take_pending_new s).2 0 [] ∧
  notified s ([], option_list (take_pending_destroy s).1) (take_pending_destroy s).2 0 [].
Proof.
  unfold take_pending_new, take_pending_destroy.
  destruct (m_state s) as [r|] eqn:Hr; [|by split; apply notified_none].
  assert (windows s = r_windows r ∧ news s = r_new r ∧ gones s = r_destroy r) as (Hw&Hnw&Hgo)
    by (unfold windows, news, gones; by rewrite Hr).
  split; apply notified_none; cbn; rewrite ?Hw, ?Hnw, ?Hgo; try done.
  - by destruct (r_new r).
  - by destruct (r_destroy r).
Qed.

Lemma step_notified o s :
  wm_ok s → m_next s + 1 < 2 ^ 64 → ∃ n d, n ≤ 1 ∧ notified s (step o s).1 (step o s).2 n d.
Proof.
  intros Hok Hmax.
  assert (∀ id f p, p = change id f s ∨ p = then_dirty (change id f s) →
    ∃ n d, n ≤ 1 ∧ notified s ([], []) p.2 n d) as Hch.
  { intros id f p Hp. exists 0, []. split; [lia|by eapply change_notified]. }
  destruct o; cbn.
  - destruct (create_notified owner w h title s) as (n&?&?); [done..|]. by exists n, [].
  - apply (Hch id (present src)). by right.
  - destruct (destroy_notified id s) as [d ?]. exists 0, d. split; [lia|done].
  - destruct (destroy_owned_notified owner s) as [d ?]. exists 0, d. split; [lia|done].
  - eapply Hch. by right.
  - unfold poll_event. destruct (windows s !! id).
    + eapply (Hch id). by left.
    + exists 0, []. split; [lia|]. by apply notified_none.
  - eapply (Hch id). by left.
  - eapply (Hch id). by left.
  - exists 0, []. split; [lia|]. apply take_notified.
  - exists 0, []. split; [lia|]. apply take_notified.
Qed.

Lemma notified_trans s1 r1 s2 r2 s3 n1 d1 n2 d2 :
  notified s1 r1 s2 n1 d1 → notified s2 r2 s3 n2 d2 → wm_ok s1 →
  notified s1 (r1.1 ++ r2.1, r1.2 ++ r2.2) s3 (n1 + n2) (d1 ++ d2).
Proof.
  intros [A1 A2 A3 A4 A5 A6 A7] [B1 B2 B3 B4 B5 B6 B7] [_ Hold _].
  assert (∀ id, id ∈ d1 → id < m_next s2) as Hlt.
  { intros id [[w Hw]|?]%A6; [|lia]. destruct (wo_old _ _ _ (Hold id w Hw)). lia. }
  split; cbn.
  - lia.
  - lia.
  - rewrite <-app_assoc, B3, app_assoc, A3, <-app_assoc, A1, seqZ_app; [done|lia..].
  - by rewrite <-app_assoc, B4, app_assoc, A4, <-app_assoc.
  - apply NoDup_app. split; [done|]. split; [|done]. intros id Hd1 Hd2.
    destruct (B6 id Hd2) as [Hs|?]; [|specialize (Hlt id Hd1); lia]. by apply A7 in Hs as [_ []].
  - intros id [Hd|Hd]%elem_of_app.
    + destruct (A6 id Hd); [by left|right; lia].
    + destruct (B6 id Hd) as [Hs|?]; [|right; lia]. apply A7 in Hs as [[?|?] _]; [by left|right; lia].
  - intros id. rewrite B7, A7, elem_of_app. split.
    + intros [[[[?|?] Hn1]|?] Hn2].
      * split; [by left|]. by intros [?|?].
      * split; [right; lia|]. by intros [?|?].
      * split; [right; lia|]. intros [Hd|?]; [|done]. specialize (Hlt id Hd). lia.
    + intros [Hs Hnd]. assert (id ∉ d1 ∧ id ∉ d2) as [Hn1 Hn2] by (split; intros ?; apply Hnd; auto).
      split; [|done]. destruct Hs as [?|?]; [by left; split; [left|]|].
      destruct (decide (id < m_next s2)); [left; split; [right; lia|done]|right; lia].
Qed.


(** ** The theorems *)

Lemma wm_ok_step o s :
  wm_ok s → op_ok o → m_next s + 1 < 2 ^ 64 → wm_ok (step o s).2.
Proof.
  intros Hok Ho Hmax. pose proof Hok as [Hn Hw Hc].
  destruct o; cbn.
  - unfold create_window. cbn in Ho.
    destruct (Z.eqb_spec w 0); [done|]. destruct (Z.eqb_spec h 0); [done|]. cbn.
    destruct (m_state s) as [r|] eqn:Hr; [|done]. destruct (decide _); [done|].
    assert (windows s = r_windows r) as Hwr by (unfold windows; by rewrite Hr). rewrite <-Hwr.
    assert (windows s !! m_next s = None) as Hfresh.
    { destruct (windows s !! m_next s) as [v|] eqn:Hv; [|done].
      destruct (wo_old _ _ _ (Hw _ _ Hv)). lia. }
    split; cbn; rewrite ?wrap_small by lia.
    + lia.
    + intros id v. rewrite lookup_insert_Some. intros [[<- <-]|[_ Hv]].
      * split; cbn; unfold MAX_W, MAX_H; rewrite ?length_replicate, ?wrap_small by lia; lia.
      * destruct (Hw _ _ Hv). split; cbn; rewrite ?wrap_small by lia; try done. lia.
    + rewrite map_size_insert_None by done. unfold MAX_WINDOWS in *. rewrite <-Hwr in *. lia.
  - apply then_dirty_ok, change_ok; [done|]. intros v []. split; try done. cbn.
    rewrite length_app, length_take, length_drop. lia.
  - unfold destroy_window. destruct (m_state s) as [r|] eqn:Hr; [|done].
    destruct (r_windows r !! id) as [v|] eqn:Hv; [|done].
    assert (windows s = r_windows r) as Hwr by (unfold windows; by rewrite Hr).
    split; cbn.
    + done.
    + intros j u. rewrite lookup_delete_Some, <-Hwr. intros [_ Hu]. destruct (Hw _ _ Hu). by split.
    + etrans; [|exact Hc]. rewrite <-Hwr. apply map_subseteq_size, delete_subseteq.
  - unfold destroy_windows_owned_by. destruct (m_state s) as [r|] eqn:Hr; [|done].
    assert (windows s = r_windows r) as Hwr by (unfold windows; by rewrite Hr).
    generalize (owned owner (r_windows r)) as ids. intros ids. cbn.
    match goal with |- wm_ok (match _ with [] => ?x | _ => _ end) => assert (wm_ok x) as Hx end.
    { split; cbn; [done| |].
      - intros j u. rewrite foldl_delete_lookup, <-Hwr. destruct (decide _); [done|].
        intros Hu. destruct (Hw _ _ Hu). by split.
      - etrans; [|exact Hc]. rewrite <-Hwr. apply map_subseteq_size. apply map_subseteq_spec.
        intros j u. rewrite foldl_delete_lookup. by destruct (decide _). }
    destruct ids; [done|]. by eapply wm_ok_same in Hx.
  - apply then_dirty_ok, change_ok; [done|]. intros v []. by split.
  - unfold poll_event. destruct (windows s !! id); [|done]. apply change_ok; [done|].
    intros v []. split; try done. cbn. destruct (w_events v); simpl in *; lia.
  - apply change_ok; [done|]. intros v []. split; try done. by apply enqueue_length.
  - apply change_ok; [done|]. intros v []. by split.
  - unfold take_pending_new. destruct (m_state s) as [r|] eqn:Hr; [|done].
    eapply wm_ok_same; [| |exact Hok]; [|done]. unfold windows. by rewrite Hr.
  - unfold take_pending_destroy. destruct (m_state s) as [r|] eqn:Hr; [|done].
    eapply wm_ok_same; [| |exact Hok]; [|done]. unfold windows. by rewrite Hr.
Qed.

Lemma run_ok ops s :
  wm_ok s → Forall op_ok ops → m_next s + Z.of_nat (length ops) < 2 ^ 64 →
  wm_ok (run ops s).2 ∧ ∃ n d, notified s (run ops s).1 (run ops s).2 n d.
Proof.
  revert s. induction ops as [|o ops IH]; intros s Hok Hops Hmax.
  { split; [done|]. exists 0, []. by apply notified_none. }
  apply Forall_cons in Hops as [Ho Hops]. simpl in Hmax.
  destruct (step_notified o s Hok) as (n1&d1&Hn1&H1); [lia|].
  pose proof (wm_ok_step o s Hok Ho ltac:(lia)) as Hok1.
  destruct (IH (step o s).2 Hok1 Hops) as (Hok2&n2&d2&H2).
  { rewrite (no_next _ _ _ _ _ H1). lia. }
  split; [done|]. exists (n1 + n2), (d1 ++ d2). exact (notified_trans _ _ _ _ _ _ _ _ _ H1 H2 Hok).
Qed.

(** C30: Whatever clients and compositor do, the registry stays well formed: at
    most 16 windows, filed under their own id, an id handed out before, of a
    size between one pixel and 320 by 240, with exactly width times height
    pixels in the backing store and at most 64 events in the queue. *)
Theorem registry_well_formed ops s :
  wm_ok s → Forall op_ok ops → m_next s + Z.of_nat (length ops) < 2 ^ 64 →
  wm_ok (run ops s).2.
Proof. intros. by apply run_ok. Qed.

(** The compositor learns of every window exactly once.  Along any sequence
    of calls the windows made get consecutive new ids; what the compositor takes
    from the first queue, followed by what is left in it, is what was left
    before followed by these ids in order; the second queue likewise has exactly
    the ids destroyed, each once; and the windows that exist at the end are
    those before and those made, without those destroyed. *)
Theorem compositor_notified ops s :
  wm_ok s → Forall op_ok ops → m_next s + Z.of_nat (length ops) < 2 ^ 64 →
  let rep := (run ops s).1 in
  let s' := (run ops s).2 in
  m_next s ≤ m_next s' ∧
  rep.1 ++ news s' = news s ++ seqZ (m_next s) (m_next s' - m_next s) ∧
  ∃ d, rep.2 ++ gones s' = gones s ++ d ∧ NoDup d ∧
    (∀ id, id ∈ d → is_Some (windows s !! id) ∨ m_next s ≤ id < m_next s') ∧
    (∀ id, is_Some (windows s' !! id) ↔
       (is_Some (windows s !! id) ∨ m_next s ≤ id < m_next s') ∧ id ∉ d).
Proof.
  intros Hok Hops Hmax. destruct (run_ok ops s Hok Hops Hmax) as (_&n&d&[H1 H2 H3 H4 H5 H6 H7]).
  split; [lia|]. split; [|by exists d]. rewrite H3. do 2 f_equal. lia.
Qed.

Definition empty_wm : wm := init (WmS None 1 0).
Lemma empty_wm_ok : wm_ok empty_wm.
Proof. split; [done|intros id w Hw; unfold windows in Hw; simpl in Hw; by rewrite lookup_empty in Hw|]. apply Nat.le_0_l. Qed.

Definition demo_ops : list op :=
  [OCreate 7 64 32 (str "a"); OCreate 8 1000 1000 (str "b"); OPush 1 (WmEvent EV_KEY 0 0 65);
   OTakeNew; OPoll 1; OCommit 1 [1; 2; 3]; ODestroyOwned 7; OTakeDestroy].

Lemma demo_ops_ok : Forall op_ok demo_ops.
Proof. repeat (apply Forall_cons; split; [cbn; lia|]). by apply Forall_nil. Qed.

Lemma registry_well_formed_witness : wm_ok (run demo_ops empty_wm).2.
Proof.
  apply (registry_well_formed demo_ops empty_wm); [apply empty_wm_ok|apply demo_ops_ok|reflexivity].
Defined.

Lemma compositor_notified_witness :
  (run demo_ops empty_wm).1 = ([1], [1]) ∧ news (run demo_ops empty_wm).2 = [2] ∧
  (run demo_ops empty_wm).1.1 ++ news (run demo_ops empty_wm).2 = news empty_wm ++ seqZ 1 2.
Proof.
  split; [vm_compute; reflexivity|]. split; [vm_compute; reflexivity|].
  destruct (compositor_notified demo_ops empty_wm empty_wm_ok demo_ops_ok) as (_&H&_);
    [reflexivity|]. exact H.
Defined.

(** The self test passes when there is room for a window. *)
Example selftest_passes : (wm_selftest 7 (run demo_ops empty_wm).2).1 = true.
Proof. vm_compute. reflexivity. Qed.

End Wm.
