(* ===== verification/Net.v ===== *)
(** * The socket layer (kernel/src/net/stack.rs, net/demo.rs)

    The table from socket ids to the sockets of the [smoltcp] crate, the ports
    recorded by bind, and the echo server.  [smoltcp] itself, its sockets and its
    socket set, are the class [Smoltcp] with the documented behaviour
    [SmoltcpLaws]. *)

From S2P Require Import Prelude.

Module Net.

(** ** The crate *)

Inductive kind : Type := KTcp | KUdp.
#[export] Instance kind_eq_dec : EqDecision kind.
Proof. solve_decision. Defined.

(** [SocketSet] with its interface; the handle of [add], the kind of the socket
    behind a handle, and the operations of [tcp::Socket] on it. *)
Class Smoltcp := {
  sset : Type;
  ss_empty : sset;
  ss_add : kind → sset → Z * sset;
  ss_kind : sset → Z → option kind;
  ss_remove : Z → sset → sset;
  sk_listen : Z → Z → sset → bool * sset;                  (* handle, port *)
  sk_connect : Z → bytes → Z → Z → sset → bool * sset;     (* handle, address, port, local port *)
  sk_active : sset → Z → bool;
  sk_may_recv : sset → Z → bool;
  sk_may_send : sset → Z → bool;
  sk_recv : Z → bytes → sset → option (Z * bytes) * sset;  (* handle, buffer; filled part *)
  sk_send : Z → bytes → sset → option Z * sset;
  sk_close : Z → sset → sset;
  sk_remote : sset → Z → option (bytes * Z);               (* IPv4 peers *)
  if_poll : Z → sset → sset;
}.

(** Handles in use: added ones until they are removed. *)
Class SmoltcpLaws `{Smoltcp} := {
  ss_empty_kind h : ss_kind ss_empty h = None;
  ss_add_fresh k s : ss_kind s (ss_add k s).1 = None;
  ss_add_kind k s h : ss_kind (ss_add k s).2 h = if decide (h = (ss_add k s).1) then Some k else ss_kind s h;
  ss_remove_kind h s j : ss_kind (ss_remove h s) j = if decide (j = h) then None else ss_kind s j;
  sk_listen_kind h p s j : ss_kind (sk_listen h p s).2 j = ss_kind s j;
  sk_connect_kind h a p l s j : ss_kind (sk_connect h a p l s).2 j = ss_kind s j;
  sk_recv_kind h b s j : ss_kind (sk_recv h b s).2 j = ss_kind s j;
  sk_send_kind h b s j : ss_kind (sk_send h b s).2 j = ss_kind s j;
  sk_close_kind h s j : ss_kind (sk_close h s) j = ss_kind s j;
  if_poll_kind t s j : ss_kind (if_poll t s) j = ss_kind s j;
  sk_recv_len h b s n b' : (sk_recv h b s).1 = Some (n, b') → 0 ≤ n ≤ Z.of_nat (length b) ∧ length b' = length b;
  sk_send_len h b s n : (sk_send h b s).1 = Some n → 0 ≤ n ≤ Z.of_nat (length b);
}.

(** [net/stack.rs:31-31, !MAX_SOCKETS] *)
Definition MAX_SOCKETS : nat := 64.

Section net.
Context `{Smoltcp}.

(** [net/stack.rs:21-28, NetworkStack] *)
Record stack := Stack {
  n_sockets : sset; n_map : gmap Z Z; n_ports : gmap Z Z; n_next : Z }.

(** [net/stack.rs:93-126, NetworkStack::new]: the addresses it configures belong
    to the interface of the crate. *)
Definition stack_new : stack := Stack ss_empty ∅ ∅ 1.

Abbreviation net A := (stm (option stack) string A).

(** The static [STACK]: [None] until [init]. *)
Definition with_stack {A} (f : stm stack string A) : net A := λ s,
  match s with
  | None => (Err "network stack not initialized"%string, None)
  | Some st => let p := f st in (p.1, Some p.2)
  end.

Definition set_sockets (ss : sset) (s : stack) : stack := Stack ss (n_map s) (n_ports s) (n_next s).

(** [self.socket_map.get(&id)], and [self.sockets.get_mut::<tcp::Socket>(handle)],
    which panics when the socket is not a TCP socket. *)
Definition get_tcp (id : Z) : stm stack string Z := λ s,
  match n_map s !! id with
  | None => (Err "invalid socket ID"%string, s)
  | Some h => match ss_kind (n_sockets s) h with Some KTcp => (Ok h, s) | _ => (Panic, s) end
  end.

Definition create (k : kind) : stm stack string Z := λ s,
  if decide (MAX_SOCKETS ≤ size (n_map s))%nat then (Err "max sockets limit reached"%string, s) else
  let p := ss_add k (n_sockets s) in
  (Ok (n_next s), Stack p.2 (<[n_next s := p.1]> (n_map s)) (n_ports s) (wrap32 (n_next s + 1))).

(** [net/stack.rs:129-143, NetworkStack::create_tcp_socket] *)
Definition stack_create_tcp : stm stack string Z := create KTcp.
(** [net/stack.rs:146-166, NetworkStack::create_udp_socket] *)
Definition stack_create_udp : stm stack string Z := create KUdp.

(** [net/stack.rs:169-178, NetworkStack::tcp_bind] *)
Definition stack_bind (id port : Z) : stm stack string unit := λ s,
  match n_map s !! id with
  | None => (Err "invalid socket ID"%string, s)
  | Some _ => (Ok tt, Stack (n_sockets s) (n_map s) (<[id := port]> (n_ports s)) (n_next s))
  end.
(** [net/stack.rs:181-183, NetworkStack::bound_port] *)
Definition stack_bound_port (id : Z) (s : stack) : option Z := n_ports s !! id.

(** A call on the sockets that may fail. *)
Definition on_sockets {A} (err : string) (f : sset → option A * sset) : stm stack string A := λ s,
  let p := f (n_sockets s) in (ok_or p.1 err, set_sockets p.2 s).
Definition as_option (p : bool * sset) : option unit * sset :=
  (if p.1 then Some tt else None, p.2).

(** [net/stack.rs:186-192, NetworkStack::tcp_listen] *)
Definition stack_listen (id port : Z) : stm stack string unit :=
  let! h := get_tcp id in on_sockets "failed to listen" (λ ss, as_option (sk_listen h port ss)).
(** [net/stack.rs:195-206, NetworkStack::tcp_connect] *)
Definition stack_connect (id : Z) (addr : bytes) (port local_port : Z) : stm stack string unit :=
  let! h := get_tcp id in on_sockets "connect failed" (λ ss, as_option (sk_connect h addr port local_port ss)).

(** A question about a socket; an unknown id is answered by [false]. *)
Definition ask (id : Z) (f : sset → Z → bool) : stm stack string bool := λ s,
  match n_map s !! id with
  | None => (Ok false, s)
  | Some _ => (let! h := get_tcp id in sget (λ s, f (n_sockets s) h)) s
  end.
(** [net/stack.rs:209-216, NetworkStack::tcp_can_accept] *)
Definition stack_can_accept (id : Z) : stm stack string bool := ask id sk_active.
(** [net/stack.rs:243-250, NetworkStack::tcp_is_connected] *)
Definition stack_is_connected (id : Z) : stm stack string bool := ask id sk_active.
(** [net/stack.rs:257-267, NetworkStack::tcp_accept_ready] *)
Definition stack_accept_ready (id : Z) : stm stack string bool :=
  ask id (λ ss h, sk_active ss h && (sk_may_recv ss h || sk_may_send ss h)).

(** [net/stack.rs:219-228, NetworkStack::tcp_recv]: the count and the buffer. *)
Definition stack_recv (id : Z) (buf : bytes) : stm stack string (Z * bytes) :=
  let! h := get_tcp id in
  let! may := sget (λ s, sk_may_recv (n_sockets s) h) in
  if negb may then sret (0, buf) else on_sockets "recv error" (sk_recv h buf).
(** [net/stack.rs:231-240, NetworkStack::tcp_send] *)
Definition stack_send (id : Z) (data : bytes) : stm stack string Z :=
  let! h := get_tcp id in
  let! may := sget (λ s, sk_may_send (n_sockets s) h) in
  if negb may then sret 0 else on_sockets "send error" (sk_send h data).

(** [net/stack.rs:271-280, NetworkStack::tcp_remote_endpoint] *)
Definition stack_remote (id : Z) : stm stack string (option (bytes * Z)) := λ s,
  match n_map s !! id with
  | None => (Ok None, s)
  | Some _ => (let! h := get_tcp id in sget (λ s, sk_remote (n_sockets s) h)) s
  end.

(** [net/stack.rs:283-288, NetworkStack::tcp_close] *)
Definition stack_close (id : Z) : stm stack string unit := λ s,
  match n_map s !! id with
  | None => (Ok tt, s)
  | Some _ => (let! h := get_tcp id in smodify (λ s, set_sockets (sk_close h (n_sockets s)) s)) s
  end.

(** [net/stack.rs:292-303, NetworkStack::tcp_destroy]: the id goes first. *)
Definition stack_destroy (id : Z) : stm stack string unit := λ s,
  let s1 := Stack (n_sockets s) (delete id (n_map s)) (delete id (n_ports s)) (n_next s) in
  match n_map s !! id with
  | None => (Ok tt, s1)
  | Some h =>
      match ss_kind (n_sockets s) h with
      | Some KTcp => (Ok tt, set_sockets (ss_remove h (sk_close h (n_sockets s))) s1)
      | _ => (Panic, Stack (n_sockets s) (delete id (n_map s)) (n_ports s) (n_next s))
      end
  end.

(** [net/stack.rs:310-314, NetworkStack::poll] *)
Definition stack_poll (ticks : Z) : stm stack string unit :=
  smodify (λ s, set_sockets (if_poll ticks (n_sockets s)) s).

(** ** The functions of the module *)

(** [net/stack.rs:318-322, init] *)
Definition init (s : option stack) : option stack := Some stack_new.
(** [net/stack.rs:325-332, create_tcp_socket] *)
Definition create_tcp_socket : net Z := with_stack stack_create_tcp.
(** [net/stack.rs:335-342, create_udp_socket] *)
Definition create_udp_socket : net Z := with_stack stack_create_udp.
(** [net/stack.rs:345-352, tcp_bind] *)
Definition tcp_bind (id port : Z) : net unit := with_stack (stack_bind id port).
(** [net/stack.rs:355-362, tcp_connect] *)
Definition tcp_connect (id : Z) (addr : bytes) (port local_port : Z) : net unit :=
  with_stack (stack_connect id addr port local_port).
(** [net/stack.rs:365-372, tcp_listen] *)
Definition tcp_listen (id port : Z) : net unit := with_stack (stack_listen id port).

(** An answer when the stack is not there. *)
Definition or_else {A} (d : A) (f : net A) : net A := λ s,
  match s with None => (Ok d, s) | Some _ => f s end.

(** [net/stack.rs:375-382, tcp_can_accept] *)
Definition tcp_can_accept (id : Z) : net bool := or_else false (with_stack (stack_can_accept id)).
(** [net/stack.rs:385-392, tcp_recv] *)
Definition tcp_recv (id : Z) (buf : bytes) : net (Z * bytes) := with_stack (stack_recv id buf).
(** [net/stack.rs:395-402, tcp_send] *)
Definition tcp_send (id : Z) (data : bytes) : net Z := with_stack (stack_send id data).
(** [net/stack.rs:405-412, tcp_is_connected] *)
Definition tcp_is_connected (id : Z) : net bool := or_else false (with_stack (stack_is_connected id)).
(** [net/stack.rs:415-420, tcp_close] *)
Definition tcp_close (id : Z) : net unit := or_else tt (with_stack (stack_close id)).
(** [net/stack.rs:423-428, tcp_destroy] *)
Definition tcp_destroy (id : Z) : net unit := or_else tt (with_stack (stack_destroy id)).
(** [net/stack.rs:431-434, bound_port] *)
Definition bound_port (id : Z) (s : option stack) : option Z := s ≫= stack_bound_port id.
(** [net/stack.rs:437-444, tcp_accept_ready] *)
Definition tcp_accept_ready (id : Z) : net bool := or_else false (with_stack (stack_accept_ready id)).
(** [net/stack.rs:447-450, tcp_remote_endpoint] *)
Definition tcp_remote_endpoint (id : Z) : net (option (bytes * Z)) := or_else None (with_stack (stack_remote id)).
(** [net/stack.rs:453-458, poll] *)
Definition poll (ticks : Z) : net unit := or_else tt (with_stack (stack_poll ticks)).

(** ** The echo server *)

(** The inner loop: [buffer[sent..n]] until all is sent or an error; [polls] is
    the ticks at each retry, and the loop is not finished when they run out. *)
Fixpoint echo_loop (polls : list Z) (id : Z) (data : bytes) (sent : Z) : net Z :=
  if Z.of_nat (length data) <=? sent then sret sent else λ s,
  match tcp_send id (drop (Z.to_nat sent) data) s with
  | (Ok m, s1) =>
      match polls with
      | [] => (Diverge, s1)
      | t :: polls =>
          if m =? 0 then (let! _ := poll t in echo_loop polls id data sent) s1
          else echo_loop polls id data (sent + m) s1
      end
  | (Err _, s1) => (Ok sent, s1)
  | (Panic, s1) => (Panic, s1)
  | (Diverge, s1) => (Diverge, s1)
  end.

Record echo_state := Echo { was_connected : bool; connection_count : Z }.

(** [net/demo.rs:37-105, !network_demo_task, one round of its loop] *)
Definition echo_round (ticks : Z) (polls : list Z) (id : Z) (e : echo_state) : net echo_state :=
  let! _ := poll ticks in
  let! is_connected := tcp_is_connected id in
  let! e :=
    if is_connected && negb (was_connected e)
    then sret (Echo true (wrap32 (connection_count e + 1)))
    else if negb is_connected && was_connected e then
      let! _ := tcp_close id in
      λ s, match tcp_listen id 7 s with
           | (Panic, s1) => (Panic, s1)
           | (_, s1) => (Ok (Echo false (connection_count e)), s1)
           end
    else sret e in
  let! _ :=
    if is_connected then λ s,
      match tcp_recv id (replicate 1024 0) s with
      | (Ok (n, buf), s1) =>
          if n =? 0 then (Ok 0, s1) else echo_loop polls id (take (Z.to_nat n) buf) 0 s1
      | (Err _, s1) => (Ok 0, s1)
      | (r, s1) => (Panic, s1)
      end
    else sret 0 in
  sret e.

(** ** The table and the sockets agree *)

(** Ids name different live sockets, no socket is without an id, and ports are
    recorded for existing sockets only. *)
Record net_ok (s : stack) : Prop := {
  ok_inj i j h : n_map s !! i = Some h → n_map s !! j = Some h → i = j;
  ok_live i h : n_map s !! i = Some h → is_Some (ss_kind (n_sockets s) h);
  ok_owned h : is_Some (ss_kind (n_sockets s) h) → ∃ i, n_map s !! i = Some h;
  ok_ports i : is_Some (n_ports s !! i) → is_Some (n_map s !! i);
  ok_next i : is_Some (n_map s !! i) → 0 ≤ i < n_next s;
  ok_pos : 0 ≤ n_next s;
  ok_size : (size (n_map s) ≤ MAX_SOCKETS)%nat;
}.

(** The calls of [NetworkStack]. *)
Inductive net_op : Type :=
| NCreate
| NCreateUdp
| NBind (id port : Z)
| NConnect (id : Z) (addr : bytes) (port local_port : Z)
| NListen (id port : Z)
| NCanAccept (id : Z)
| NAcceptReady (id : Z)
| NConnected (id : Z)
| NRecv (id : Z) (buf : bytes)
| NSend (id : Z) (data : bytes)
| NRemote (id : Z)
| NClose (id : Z)
| NDestroy (id : Z)
| NPoll (ticks : Z).

Definition sunit {S E A} (m : stm S E A) : stm S E unit := let! _ := m in sret tt.
Definition net_step (o : net_op) : stm stack string unit :=
  match o with
  | NCreate => sunit stack_create_tcp
  | NCreateUdp => sunit stack_create_udp
  | NBind id p => stack_bind id p
  | NConnect id a p l => stack_connect id a p l
  | NListen id p => stack_listen id p
  | NCanAccept id => sunit (stack_can_accept id)
  | NAcceptReady id => sunit (stack_accept_ready id)
  | NConnected id => sunit (stack_is_connected id)
  | NRecv id b => sunit (stack_recv id b)
  | NSend id d => sunit (stack_send id d)
  | NRemote id => sunit (stack_remote id)
  | NClose id => stack_close id
  | NDestroy id => stack_destroy id
  | NPoll t => stack_poll t
  end.
(** One call after the other; [None]: one of them has panicked. *)
Fixpoint net_run (ops : list net_op) (s : stack) : option stack :=
  match ops with
  | [] => Some s
  | o :: ops => match net_step o s with (Panic, _) | (Diverge, _) => None | (_, s1) => net_run ops s1 end
  end.

(** The id names a UDP socket. *)
Definition is_udp (id : Z) (s : stack) : Prop := ∃ h, n_map s !! id = Some h ∧ ss_kind (n_sockets s) h = Some KUdp.
(** The socket that a call takes for a TCP socket. *)
Definition wants_tcp (o : net_op) : option Z :=
  match o with
  | NConnect id _ _ _ | NListen id _ | NCanAccept id | NAcceptReady id | NConnected id | NRecv id _ | NSend id _
  | NRemote id | NClose id | NDestroy id => Some id
  | NCreate | NCreateUdp | NBind _ _ | NPoll _ => None
  end.

Context `{!SmoltcpLaws}.

(** ** Calls that keep the table *)

(** The sockets stay in step, and none of them becomes a UDP socket. *)
Record kept (s s' : stack) : Prop := {
  kt_ok : net_ok s';
  kt_next : n_next s' = n_next s;
  kt_udp i : is_udp i s' → is_udp i s;
}.
(** Such a call, which always comes back. *)
Definition calm {A} (f : stm stack string A) : Prop := ∀ s, net_ok s →
  (f s).1 ≠ Panic ∧ (f s).1 ≠ Diverge ∧ kept s (f s).2.
(** One that panics exactly when [id] names a UDP socket. *)
Definition tame {A} (id : Z) (f : stm stack string A) : Prop := ∀ s, net_ok s →
  (is_udp id s ∧ (f s).1 = Panic) ∨ (¬ is_udp id s ∧ (f s).1 ≠ Panic ∧ (f s).1 ≠ Diverge ∧ kept s (f s).2).

Lemma kept_kinds s ss :
  (∀ h, ss_kind ss h = ss_kind (n_sockets s) h) → net_ok s → kept s (set_sockets ss s).
Proof.
  intros Hk Hok. split; [|done|].
  - destruct Hok. split; cbn; try done; intros; rewrite ?Hk in *; eauto.
  - intros i (h&Hi&Hh). exists h. cbn in *. by rewrite Hk in Hh.
Qed.
Lemma kept_socks_refl s : net_ok s → kept s s.
Proof. by split. Qed.
Lemma kept_socks_trans s1 s2 s3 : kept s1 s2 → kept s2 s3 → kept s1 s3.
Proof. intros [_ H2 H3] [G1 G2 G3]. split; [done|congruence|auto]. Qed.

Lemma calm_ret {A} (a : A) : calm (sret a).
Proof. intros s Hok. split_and!; [done..|by apply kept_socks_refl]. Qed.
Lemma calm_get {A} (f : stack → A) : calm (sget f).
Proof. intros s Hok. split_and!; [done..|by apply kept_socks_refl]. Qed.
Lemma calm_bind {A B} (m : stm stack string A) (f : A → stm stack string B) :
  calm m → (∀ a, calm (f a)) → calm (sbind m f).
Proof.
  intros Hm Hf s Hok. unfold sbind. destruct (Hm s Hok) as (H1&H2&H3).
  destruct (m s) as [[a|e| |] s1]; cbn in *; [|by split_and!|done|done].
  destruct (Hf a s1) as (F1&F2&F3); [apply H3|]. split_and!; [done..|by apply (kept_socks_trans s s1)].
Qed.
Lemma calm_on_sockets {A} err (f : sset → option A * sset) :
  (∀ ss h, ss_kind (f ss).2 h = ss_kind ss h) → calm (on_sockets err f).
Proof.
  intros Hk s Hok. unfold on_sockets. split_and!; [by destruct (f (n_sockets s)).1..|]. by apply kept_kinds.
Qed.

Lemma get_tcp_cases id s :
  net_ok s →
  (n_map s !! id = None ∧ get_tcp id s = (Err "invalid socket ID"%string, s)) ∨
  (∃ h, n_map s !! id = Some h ∧ ss_kind (n_sockets s) h = Some KTcp ∧ get_tcp id s = (Ok h, s)) ∨
  (is_udp id s ∧ get_tcp id s = (Panic, s)).
Proof.
  intros Hok. unfold get_tcp. destruct (n_map s !! id) as [h|] eqn:Hid; [|by left]. right.
  destruct (ok_live _ Hok _ _ Hid) as [[] Hk]; rewrite Hk; [left|right; split; [by exists h|done]]. by exists h.
Qed.
Lemma not_udp id s h : n_map s !! id = Some h → ss_kind (n_sockets s) h = Some KTcp → ¬ is_udp id s.
Proof. intros Hi Hk (g&Hg&Hu). congruence. Qed.
Lemma not_udp_none id s : n_map s !! id = None → ¬ is_udp id s.
Proof. intros Hi (g&Hg&_). congruence. Qed.

Lemma tame_bind {B} id (f : Z → stm stack string B) : (∀ h, calm (f h)) → tame id (sbind (get_tcp id) f).
Proof.
  intros Hf s Hok. unfold sbind.
  destruct (get_tcp_cases id s Hok) as [[Hn ->]|[(h&Hi&Hk&->)|[Hu ->]]]; [right|right|by left].
  - split_and!; [by apply not_udp_none|done|done|by apply kept_socks_refl].
  - destruct (Hf h s Hok) as (F1&F2&F3). split_and!; [by eapply not_udp|done..].
Qed.
(** The same when an unknown id is answered at once. *)
Lemma tame_known {B} id (f : Z → stm stack string B) (d : B) : (∀ h, calm (f h)) →
  tame id (λ s, match n_map s !! id with None => (Ok d, s) | Some _ => sbind (get_tcp id) f s end).
Proof.
  intros Hf s Hok. destruct (n_map s !! id) eqn:Hi; [by apply tame_bind|right].
  split_and!; [by apply not_udp_none|done|done|by apply kept_socks_refl].
Qed.
Lemma tame_unit {A} id (m : stm stack string A) : tame id m → tame id (sunit m).
Proof.
  intros Hm s Hok. unfold sunit, sbind. destruct (Hm s Hok) as [[Hu Hp]|(Hu&Hp&Hd&Hk)];
    destruct (m s) as [[a|e| |] s1]; cbn in *; try done; [by left|by right..].
Qed.

(** ** Creation and destruction *)

Lemma create_ok k s :
  net_ok s → n_next s + 1 < 2 ^ 32 → let p := create k s in
  p.1 ≠ Panic ∧ p.1 ≠ Diverge ∧ net_ok p.2 ∧ n_next s ≤ n_next p.2 ≤ n_next s + 1 ∧
  (k = KTcp → ∀ i, is_udp i p.2 → is_udp i s).
Proof.
  intros Hok Hmax. pose proof Hok as [H1 H2 H3 H4 H5 Hpos H6]. unfold create.
  destruct (decide _) as [|Hsz]; [cbn; split_and!; try done; lia|]. cbn.
  pose proof (ss_add_fresh k (n_sockets s)) as Hf. pose proof (ss_add_kind k (n_sockets s)) as Hk.
  revert Hf Hk. generalize (ss_add k (n_sockets s)). intros [h ss] Hf Hk. cbn in *.
  assert (n_map s !! n_next s = None) as Hnew.
  { destruct (n_map s !! n_next s) eqn:Hm; [|done]. destruct (H5 (n_next s)); [by eexists|lia]. }
  assert (∀ i, n_map s !! i ≠ Some h) as Hnh.
  { intros i Hi. destruct (H2 i h Hi) as [? Hx]. congruence. }
  rewrite wrap_small by lia. split; [done|]. split; [done|]. split; [|split; [lia|]].
  2:{ intros -> i (g&Hi&Hg). cbn in *. rewrite Hk in Hg. rewrite lookup_insert_Some in Hi.
      destruct Hi as [[<- <-]|[? Hi]]; [by rewrite decide_True in Hg|]. exists g. split; [done|].
      rewrite decide_False in Hg; [done|]. intros ->. by apply (Hnh i). }
  split; cbn.
  - intros i j g. rewrite !lookup_insert_Some.
    intros [[<- <-]|[? Hi]] [[<- Hg]|[? Hj]]; [done| | |by eapply H1]; exfalso; [by apply (Hnh j)|apply (Hnh i); congruence].
  - intros i g. rewrite lookup_insert_Some. rewrite Hk. intros [[<- <-]|[? Hi]].
    + rewrite decide_True by done. by eexists.
    + rewrite decide_False; [by eapply H2|]. intros ->. by apply (Hnh i).
  - intros g. rewrite Hk. destruct (decide (g = h)) as [->|]; [|intros Hg].
    + intros _. exists (n_next s). apply lookup_insert_eq.
    + destruct (H3 g Hg) as [i Hi]. exists i. rewrite lookup_insert_ne; [done|]. intros <-. congruence.
  - intros i Hi. apply H4 in Hi. rewrite lookup_insert_is_Some. destruct (decide (n_next s = i)); auto.
  - intros i. rewrite lookup_insert_is_Some. intros [<-|[? Hi]]; [lia|]. specialize (H5 i Hi). lia.
  - lia.
  - rewrite map_size_insert_None by done. unfold MAX_SOCKETS in *. lia.
Qed.

Lemma destroy_ok id : tame id (stack_destroy id).
Proof.
  intros s Hok. pose proof Hok as [H1 H2 H3 H4 H5 Hpos H6]. unfold stack_destroy.
  assert (size (delete id (n_map s)) ≤ MAX_SOCKETS)%nat as Hsz
    by (etrans; [|exact H6]; apply map_subseteq_size, delete_subseteq).
  assert (∀ i, is_Some (delete id (n_ports s) !! i) → is_Some (delete id (n_map s) !! i)) as Hp.
  { intros i. rewrite !lookup_delete_is_Some. intros [??]. auto. }
  assert (∀ i, is_Some (delete id (n_map s) !! i) → 0 ≤ i < n_next s) as Hnx.
  { intros i. rewrite lookup_delete_is_Some. intros [_ ?]. auto. }
  destruct (n_map s !! id) as [h|] eqn:Hid.
  - assert (∀ i g, delete id (n_map s) !! i = Some g → n_map s !! i = Some g ∧ g ≠ h) as Hdel.
    { intros i g. rewrite lookup_delete_Some. intros [Hne Hi]. split; [done|]. intros ->. by apply Hne, (H1 id i h). }
    destruct (H2 _ _ Hid) as [[] Hk]; rewrite Hk; [right|left; split; [by exists h|done]].
    split_and!; [by eapply not_udp|done|done|]. split; [|done|].
    + split; cbn; try done.
      * intros i j g [Hi _]%Hdel [Hj _]%Hdel. by eapply H1.
      * intros i g [Hi Hg]%Hdel. rewrite ss_remove_kind, decide_False by done. rewrite sk_close_kind. by eapply H2.
      * intros g. rewrite ss_remove_kind. destruct (decide (g = h)) as [->|]; [by intros []|].
        rewrite sk_close_kind. intros [i Hi]%H3. exists i. rewrite lookup_delete_ne; [done|]. intros <-. congruence.
    + intros i (g&[Hi Hg]%Hdel&Hu). cbn in *. rewrite ss_remove_kind, decide_False, sk_close_kind in Hu by done. by exists g.
  - right. split_and!; [by apply not_udp_none|done|done|]. assert (delete id (n_map s) = n_map s) as Heq by by apply delete_id.
    rewrite Heq in *. split; [split; cbn; rewrite ?Heq; done|done|]. intros i (g&Hi&Hu). by exists g.
Qed.

(** ** Every call *)

Lemma step_tame o id : wants_tcp o = Some id → tame id (net_step o).
Proof.
  destruct o; intros [= <-]; cbn [net_step].
  - apply tame_bind. intros h. apply calm_on_sockets. intros. apply sk_connect_kind.
  - apply tame_bind. intros h. apply calm_on_sockets. intros. apply sk_listen_kind.
  - apply tame_unit, tame_known. intros. apply calm_get.
  - apply tame_unit, tame_known. intros. apply calm_get.
  - apply tame_unit, tame_known. intros. apply calm_get.
  - apply tame_unit, tame_bind. intros h. apply calm_bind; [apply calm_get|].
    intros []; [|apply calm_ret]. apply calm_on_sockets. intros. apply sk_recv_kind.
  - apply tame_unit, tame_bind. intros h. apply calm_bind; [apply calm_get|].
    intros []; [|apply calm_ret]. apply calm_on_sockets. intros. apply sk_send_kind.
  - apply tame_unit, tame_known. intros. apply calm_get.
  - apply tame_known. intros h s Hok. split; [done|]. split; [done|]. apply kept_kinds; [|done]. intros. apply sk_close_kind.
  - apply destroy_ok.
Qed.

Lemma step_safe o s : wants_tcp o = None → net_ok s → n_next s + 1 < 2 ^ 32 →
  let p := net_step o s in
  p.1 ≠ Panic ∧ p.1 ≠ Diverge ∧ net_ok p.2 ∧ n_next s ≤ n_next p.2 ≤ n_next s + 1 ∧
  (o ≠ NCreateUdp → ∀ i, is_udp i p.2 → is_udp i s).
Proof.
  intros Hw Hok Hmax.
  assert (∀ m : stm stack string unit, calm m → (m s).1 ≠ Panic ∧ (m s).1 ≠ Diverge ∧ net_ok (m s).2 ∧
    n_next s ≤ n_next (m s).2 ≤ n_next s + 1 ∧ (o ≠ NCreateUdp → ∀ i, is_udp i (m s).2 → is_udp i s)) as Hcalm.
  { intros m Hm. destruct (Hm s Hok) as (?&?&[? ? ?]). split; [done|split; [done|split; [done|split; [lia|done]]]]. }
  destruct o; try done; cbn [net_step].
  - destruct (create_ok KTcp s Hok Hmax) as (C1&C2&C3&C4&C5). unfold stack_create_tcp, sunit, sbind.
    destruct (create KTcp s) as [[] ?]; cbn in *; try done; (split; [done|split; [done|split; [done|split; [lia|intros _; by apply C5]]]]).
  - destruct (create_ok KUdp s Hok Hmax) as (C1&C2&C3&C4&_). unfold stack_create_udp, sunit, sbind.
    destruct (create KUdp s) as [[] ?]; cbn in *; try done; (split; [done|split; [done|split; [done|split; [lia|done]]]]).
  - apply Hcalm. clear Hcalm Hok Hmax s. intros s Hok. unfold stack_bind. destruct (n_map s !! id) eqn:Hid; [|split_and!; [done..|by apply kept_socks_refl]].
    split; [done|]. split; [done|]. split; [|done|by intros i]. destruct Hok. split; cbn; try done.
    intros i. rewrite lookup_insert_is_Some. intros [<-|[_ ?]]; [by eexists|auto].
  - apply Hcalm. clear Hcalm Hok Hmax s. intros s Hok. split; [done|]. split; [done|]. apply kept_kinds; [|done]. intros. apply if_poll_kind.
Qed.

Lemma step_ok o s :
  net_ok s → n_next s + 1 < 2 ^ 32 → let p := net_step o s in
  p.1 ≠ Diverge ∧ (p.1 = Panic ↔ ∃ id, wants_tcp o = Some id ∧ is_udp id s) ∧
  (p.1 ≠ Panic → net_ok p.2 ∧ n_next s ≤ n_next p.2 ≤ n_next s + 1 ∧ (o ≠ NCreateUdp → ∀ i, is_udp i p.2 → is_udp i s)).
Proof.
  intros Hok Hmax. cbv zeta. destruct (wants_tcp o) as [id|] eqn:Hw.
  - destruct (step_tame o id Hw s Hok) as [[Hu Hp]|(Hu&Hp&Hd&[K1 K2 K3])].
    + rewrite Hp. split; [done|]. split; [|done]. split; [eauto|done].
    + split; [done|]. split; [split; [done|intros (?&[= <-]&?); done]|]. intros _. split; [done|]. split; [lia|auto].
  - destruct (step_safe o s Hw Hok Hmax) as (H1&H2&H3&H4&H5).
    split; [done|]. split; [split; [done|by intros (?&?&?)]|done].
Qed.

(** C31: The socket table and the sockets stay in step, and only a UDP socket can
    bring the layer down.  As long as ids do not wrap around (fewer than [2 ^ 32]
    sockets have been created since boot), after any calls of [NetworkStack] that
    have not panicked every id in the table names a live socket of its own, no
    socket lives without an id - nothing leaks and nothing is freed twice -, ports
    are recorded for existing sockets only and there are at most 64 sockets; and
    the next call panics exactly when it is a TCP call on the id of a UDP socket.
    So, from a stack without UDP sockets - the system calls create none -, calls
    that create none never panic. *)
Theorem sockets_in_step ops s :
  net_ok s → n_next s + Z.of_nat (length ops) + 1 < 2 ^ 32 →
  (∀ s1, net_run ops s = Some s1 → net_ok s1 ∧
     ∀ o, (net_step o s1).1 = Panic ↔ ∃ id, wants_tcp o = Some id ∧ is_udp id s1) ∧
  ((∀ i, ¬ is_udp i s) → NCreateUdp ∉ ops → is_Some (net_run ops s)).
Proof.
  revert s. induction ops as [|o ops IH]; intros s Hok Hmax.
  { split; [|by eexists]. intros s1 [= <-]. split; [done|]. intros o. apply step_ok; [done|lia]. }
  cbn [length] in Hmax. cbn [net_run]. destruct (step_ok o s Hok) as (H1&H2&H3); [lia|].
  destruct (net_step o s) as [r s']; cbn [fst snd] in *.
  destruct (decide (r = Panic)) as [->|Hr].
  { split; [done|]. intros Hno _. destruct (proj1 H2 eq_refl) as (i&_&Hu). by apply Hno in Hu. }
  destruct (H3 Hr) as (Hok'&Hn&Hudp). destruct (IH s' Hok') as [IH1 IH2]; [lia|].
  assert (((∀ i, ¬ is_udp i s) → NCreateUdp ∉ o :: ops → is_Some (net_run ops s'))) as IH3.
  { intros Hno Hin. rewrite not_elem_of_cons in Hin. destruct Hin as [Ho Hin]. apply IH2; [|done].
    intros i Hu. apply (Hno i), Hudp; [congruence|done]. }
  by destruct r.
Qed.

Lemma stack_new_ok : net_ok stack_new.
Proof.
  split; cbn.
  - intros i j h Hi. by rewrite lookup_empty in Hi.
  - intros i h Hi. by rewrite lookup_empty in Hi.
  - intros h. rewrite ss_empty_kind. by intros [].
  - intros i. rewrite lookup_empty. by intros [].
  - intros i. rewrite lookup_empty. by intros [].
  - done.
  - rewrite map_size_empty. apply Nat.le_0_l.
Qed.

End net.

(** ** A concrete socket set: handles are numbers, data is accepted at once *)

#[export] Instance test_smoltcp : Smoltcp := {
  sset := list (option kind);
  ss_empty := [];
  ss_add k s := (Z.of_nat (length s), s ++ [Some k]);
  ss_kind s h := if decide (0 ≤ h) then mjoin (s !! Z.to_nat h) else None;
  ss_remove h s := if decide (0 ≤ h) then <[Z.to_nat h := None]> s else s;
  sk_listen _ _ s := (true, s);
  sk_connect _ _ _ _ s := (true, s);
  sk_active _ _ := true;
  sk_may_recv _ _ := true;
  sk_may_send _ _ := true;
  sk_recv _ b s := (Some (0, b), s);
  sk_send _ b s := (Some (Z.of_nat (length b)), s);
  sk_close _ s := s;
  sk_remote _ _ := Some ([10; 0; 2; 2], 4242);
  if_poll _ s := s;
}.

#[export] Instance test_smoltcp_laws : SmoltcpLaws.
Proof.
  split; try done; simpl.
  - intros h. by destruct (decide _).
  - intros k s. destruct (decide _); [|done]. rewrite Nat2Z.id, lookup_ge_None_2; done.
  - intros k s h. destruct (decide (0 ≤ h)) as [Hh|Hh]; [|rewrite decide_False; [done|lia]].
    destruct (decide (h = Z.of_nat (length s))) as [->|Hne].
    + by rewrite Nat2Z.id, lookup_app_r, Nat.sub_diag.
    + destruct (decide (Z.to_nat h < length s)%nat).
      * by rewrite lookup_app_l.
      * rewrite !lookup_ge_None_2; [done|lia|]. rewrite length_app. simpl. lia.
  - intros h s j. destruct (decide (0 ≤ h)) as [Hh|Hh]; destruct (decide (0 ≤ j)) as [Hj|Hj].
    + destruct (decide (j = h)) as [->|Hne].
      * destruct (decide (Z.to_nat h < length s)%nat).
        -- by rewrite list_lookup_insert_eq.
        -- by rewrite lookup_ge_None_2 by (rewrite length_insert; lia).
      * rewrite list_lookup_insert_ne; [done|lia].
    + by destruct (decide (j = h)).
    + rewrite decide_False; [done|lia].
    + by destruct (decide (j = h)).
  - intros h b s n b' [= <- <-]. split; [lia|done].
  - intros h b s n [= <-]. lia.
Qed.

Definition demo_calls : list net_op :=
  [NCreate; NBind 1 80; NListen 1 80; NCreate; NDestroy 1; NSend 2 [1; 2]; NClose 1; NSend 1 [3]; NCreateUdp; NCanAccept 2].

Lemma sockets_in_step_witness :
  ∃ s1, net_run demo_calls stack_new = Some s1 ∧ net_ok s1 ∧ (net_step (NSend 2 [4]) s1).1 ≠ Panic ∧
    (net_step (NDestroy 3) s1).1 = Panic ∧ is_Some (net_run (take 8 demo_calls) stack_new).
Proof.
  destruct (sockets_in_step demo_calls stack_new stack_new_ok) as [H1 _]; [vm_compute; reflexivity|].
  destruct (sockets_in_step (take 8 demo_calls) stack_new stack_new_ok) as [_ H2]; [vm_compute; reflexivity|].
  exists (default stack_new (net_run demo_calls stack_new)). split; [vm_compute; reflexivity|].
  destruct (H1 (default stack_new (net_run demo_calls stack_new))) as [Hok Hp]; [vm_compute; reflexivity|]. split; [exact Hok|]. split; [|split].
  - intros (i&[= <-]&h&Hm&Hu)%Hp. vm_compute in Hm. injection Hm as <-. vm_compute in Hu. discriminate Hu.
  - apply Hp. exists 3. split; [reflexivity|]. exists 2. split; vm_compute; reflexivity.
  - apply H2.
    + intros i (h&Hm&_). cbn in Hm. by rewrite lookup_empty in Hm.
    + cbn. rewrite !not_elem_of_cons. split_and!; try discriminate. apply not_elem_of_nil.
Defined.

(** A UDP socket behind the id brings the kernel down; no system call makes one. *)
Example udp_socket_panics :
  let s := (stack_create_udp stack_new).2 in
  (stack_send 1 [1] s).1 = Panic ∧ (stack_destroy 1 s).1 = Panic.
Proof. split; vm_compute; reflexivity. Qed.

End Net.
