(* ===== verification/World.v ===== *)
(** * The kernel as a whole

    The components put together: what the task table calls "the rest of the
    kernel" is the record [world] of the capability tables, the message queues,
    the VFS with the volume, the console and the network below it, the memory
    manager and the windows.  The interfaces the components were proved against
    - [KernelEnv] of the VFS, [TaskEnv] of the tasks, [IpcEnv] of the messages -
    are discharged here by the components themselves. *)

From S2P Require Import Prelude Capability Block VfsTable Vfs Signal Task Ipc Frames Paging Memory Bytes Elf ElfLoad UserMem Wm Net.

(** What the VFS uses of the console. *)
Class Console (C : Type) := {
  console_read_char : C → option Z * C;
  console_write : Z → C → C;
}.

(** GDT selectors and the addresses of the assembly entry points. *)
Class Selectors := {
  sel_user_cs : Z; sel_user_ss : Z;
  at_task_trampoline : Z; at_fork_child_trampoline : Z; at_user_task_trampoline : Z;
}.

Section world.
Context {C D : Type} `{Con : Console C} `{Nt : Net.Smoltcp} `{BD : BlockDev D}
  `{Pg : Paging} `{Ad : Addresses} `{Cp : Processor} `{Sel : Selectors}.

(** ** Console and network, below the VFS *)

Record devices := Devices { d_console : C; d_net : option Net.stack }.

Definition on_net {A} (f : stm (option Net.stack) string A) (e : devices) : option A * devices :=
  let p := f (d_net e) in
  (match p.1 with Ok a => Some a | _ => None end, Devices (d_console e) p.2).

(** A panic of the socket layer counts as an error here; [Net.sockets_in_step]
    shows that there is none as long as the sockets are TCP sockets, which those of
    the system calls are. *)
#[export] Instance devices_env : KernelEnv devices := {
  con_read_char e := let p := console_read_char (d_console e) in (p.1, Devices p.2 (d_net e));
  con_write b e := Devices (console_write b (d_console e)) (d_net e);
  net_recv id buf e := on_net (Net.tcp_recv id buf) e;
  net_send id data e := on_net (Net.tcp_send id data) e;
  net_destroy id e := (on_net (Net.tcp_destroy id) e).2;
}.

(** ** The rest of the kernel *)

Record world := World {
  w_caps : tables; w_ipc : ipc; w_vfs : vfs devices D; w_mm : MemoryManager; w_wm : Wm.wm }.

Definition set_caps (c : tables) (w : world) : world := World c (w_ipc w) (w_vfs w) (w_mm w) (w_wm w).
Definition set_ipc (i : ipc) (w : world) : world := World (w_caps w) i (w_vfs w) (w_mm w) (w_wm w).
Definition set_vfs (v : vfs devices D) (w : world) : world := World (w_caps w) (w_ipc w) v (w_mm w) (w_wm w).
Definition set_mm (m : MemoryManager) (w : world) : world := World (w_caps w) (w_ipc w) (w_vfs w) m (w_wm w).
Definition set_wm (m : Wm.wm) (w : world) : world := World (w_caps w) (w_ipc w) (w_vfs w) (w_mm w) m.
Definition w_phys (w : world) : phys := mm_phys (w_mm w).
Definition w_mem (w : world) : pmem := ph_mem (w_phys w).
Definition set_mem (m : pmem) (w : world) : world :=
  set_mm (Mm (Phys m (ph_fa (w_phys w))) (user_page_tables (w_mm w))) w.

(** The loader takes the VFS and the memory manager; its errors are strings. *)
Definition run_loader {A} (f : stm (@loader_state devices D) string A) (w : world) : outcome bytes A * world :=
  let p := f (LoaderState (w_vfs w) (w_mm w)) in
  (map_err str p.1, set_mm (ls_mm p.2) (set_vfs (ls_vfs p.2) w)).

(** [n] calls of [allocate_frame]. *)
Fixpoint take_n (n : nat) (s : phys) : option phys :=
  match n with
  | O => Some s
  | S n => match alloc_frame s with (Some _, s') => take_n n s' | (None, _) => None end
  end.

#[export] Instance world_task_env : TaskEnv world := {
  init_fds id w := set_vfs (init_task_fds id (w_vfs w)) w;
  clone_fds p c w := set_vfs (clone_task_fds p c (w_vfs w)) w;
  cleanup_fds id w := set_vfs (cleanup_task_fds id (w_vfs w)) w;
  drop_reply_slot id w := set_ipc (cleanup_reply_slot id (w_ipc w)) w;
  drop_windows id w := set_wm (Wm.destroy_windows_owned_by id (w_wm w)).2 w;
  cow_fork c parent w :=
    let p := cow_fork_address_space (cpu_kernel_cr3 c) parent (w_mm w) in
    (map_err (λ _, []) p.1, set_mm p.2 w);
  last_page_table w := last (user_page_tables (w_mm w));
  load_program c path args envs w :=
    run_loader (load_from_file [] (cpu_ticks c) path args envs (cpu_kernel_cr3 c)) w;
  load_image c data args envs w :=
    run_loader (let! elf := slift (parse data) in
                on_mm (load elf data args envs (cpu_kernel_cr3 c))) w;
  take_frames n w :=
    (λ s, set_mm (Mm s (user_page_tables (w_mm w))) w) <$> take_n n (w_phys w);
  poke64 c a x w := (λ m, set_mem m w) <$> poke_bytes (w_mem w) (cpu_cr3 c) a (le_enc 8 x);
  poke32 c a x w := (λ m, set_mem m w) <$> poke_bytes (w_mem w) (cpu_cr3 c) a (le_enc 4 (wrap32 x));
  user_cs := sel_user_cs; user_ss := sel_user_ss;
  task_trampoline := at_task_trampoline; fork_child_trampoline := at_fork_child_trampoline;
  user_task_trampoline := at_user_task_trampoline;
}.

#[export] Instance world_ipc_env : IpcEnv world := {
  ipc_of := w_ipc; put_ipc := set_ipc; ipc_of_put _ _ := eq_refl }.
End world.
