(* ===== verification/Utf8.v ===== *)
(** * UTF-8 (core::str::from_utf8)

    The check that the kernel runs on the strings it is handed, and that it
    accepts what the keyboard path encodes; and lossy decoding. *)

From S2P Require Import Prelude Vfs.

#[local] Ltac Zify.zify_post_hook ::= Z.to_euclidean_division_equations.

Definition within (lo hi b : Z) : bool := (lo <=? b) && (b <=? hi).
Definition continuation : Z → bool := within 0x80 0xBF.

(** Well-formed byte sequences, by their first byte. *)
Fixpoint utf8_valid (s : bytes) : bool :=
  match s with
  | [] => true
  | b :: s =>
      if within 0 0x7F b then utf8_valid s
      else if within 0xC2 0xDF b then
        match s with c :: s => continuation c && utf8_valid s | _ => false end
      else if within 0xE0 0xEF b then
        match s with
        | c :: d :: s =>
            within (if b =? 0xE0 then 0xA0 else 0x80) (if b =? 0xED then 0x9F else 0xBF) c &&
            continuation d && utf8_valid s
        | _ => false
        end
      else if within 0xF0 0xF4 b then
        match s with
        | c :: d :: e :: s =>
            within (if b =? 0xF0 then 0x90 else 0x80) (if b =? 0xF4 then 0x8F else 0xBF) c &&
            continuation d && continuation e && utf8_valid s
        | _ => false
        end
      else false
  end.

(** A [char]: a code point that is no surrogate. *)
Definition scalar (c : Z) : Prop := 0 ≤ c < 0xD800 ∨ 0xE000 ≤ c ≤ 0x10FFFF.

Lemma within_true lo hi b : lo ≤ b ≤ hi → within lo hi b = true.
Proof. unfold within. lia. Qed.
Lemma within_false lo hi b : b < lo ∨ hi < b → within lo hi b = false.
Proof. unfold within. lia. Qed.

(** What [encode_utf8] makes is accepted. *)
Lemma utf8_encode c s : scalar c → utf8_valid (encode_utf8 c ++ s) = utf8_valid s.
Proof.
  intros Hc. unfold encode_utf8, scalar in *.
  repeat case_decide; cbn [app utf8_valid]; unfold continuation.
  - by rewrite within_true by lia.
  - rewrite (within_false 0 127), (within_true 194 223), within_true by lia. done.
  - rewrite (within_false 0 127), (within_false 194 223), (within_true 224 239) by lia.
    rewrite (within_true 128 191 (128 + c mod 64)) by lia. rewrite within_true; [done|].
    destruct (Z.eqb_spec (224 + c / 4096) 224), (Z.eqb_spec (224 + c / 4096) 237); lia.
  - rewrite (within_false 0 127), (within_false 194 223), (within_false 224 239), (within_true 240 244) by lia.
    rewrite (within_true 128 191 (128 + c mod 64)), (within_true 128 191 (128 + c / 64 mod 64)) by lia.
    rewrite within_true; [done|].
    destruct (Z.eqb_spec (240 + c / 262144) 240), (Z.eqb_spec (240 + c / 262144) 244); lia.
Qed.

Lemma utf8_app_valid s t : utf8_valid s = true → utf8_valid (s ++ t) = utf8_valid t.
Proof.
  revert s. fix IH 1. intros [|b s]; [done|]. cbn [utf8_valid app].
  destruct (within 0 127 b); [apply IH|]. destruct (within 194 223 b).
  { destruct s as [|c s]; [done|]. cbn [app]. destruct (continuation c); [apply IH|done]. }
  destruct (within 224 239 b).
  { destruct s as [|c [|d s]]; [done..|]. cbn [app].
    destruct (within _ _ c && continuation d); [apply IH|done]. }
  destruct (within 240 244 b); [|done].
  destruct s as [|c [|d [|e s]]]; [done..|]. cbn [app].
  destruct (within _ _ c && continuation d && continuation e); [apply IH|done].
Qed.

(** ** Lossy decoding

    [String::from_utf8_lossy]: what is not UTF-8 becomes U+FFFD, one for every
    maximal prefix of a sequence. *)
Fixpoint decode_lossy (s : bytes) : list Z :=
  match s with
  | [] => []
  | b :: s1 =>
      if within 0 0x7F b then b :: decode_lossy s1 else
      match s1 with
      | [] => [0xFFFD]
      | c :: s2 =>
          if within 0xC2 0xDF b then
            if continuation c then ((b - 0xC0) * 64 + (c - 0x80)) :: decode_lossy s2 else 0xFFFD :: decode_lossy s1
          else if within 0xE0 0xEF b then
            if within (if b =? 0xE0 then 0xA0 else 0x80) (if b =? 0xED then 0x9F else 0xBF) c then
              match s2 with
              | d :: s3 =>
                  if continuation d then ((b - 0xE0) * 4096 + (c - 0x80) * 64 + (d - 0x80)) :: decode_lossy s3
                  else 0xFFFD :: decode_lossy s2
              | [] => [0xFFFD]
              end
            else 0xFFFD :: decode_lossy s1
          else if within 0xF0 0xF4 b then
            if within (if b =? 0xF0 then 0x90 else 0x80) (if b =? 0xF4 then 0x8F else 0xBF) c then
              match s2 with
              | d :: s3 =>
                  if continuation d then
                    match s3 with
                    | e :: s4 =>
                        if continuation e
                        then ((b - 0xF0) * 262144 + (c - 0x80) * 4096 + (d - 0x80) * 64 + (e - 0x80)) :: decode_lossy s4
                        else 0xFFFD :: decode_lossy s3
                    | [] => [0xFFFD]
                    end
                  else 0xFFFD :: decode_lossy s2
              | [] => [0xFFFD]
              end
            else 0xFFFD :: decode_lossy s1
          else 0xFFFD :: decode_lossy s1
      end
  end.

Lemma decode_encode c s : scalar c → decode_lossy (encode_utf8 c ++ s) = c :: decode_lossy s.
Proof.
  intros Hc. unfold encode_utf8, scalar in *.
  repeat case_decide; cbn [app decode_lossy]; unfold continuation.
  - by rewrite within_true by lia.
  - rewrite (within_false 0 127), (within_true 194 223), within_true by lia. f_equal. lia.
  - rewrite (within_false 0 127), (within_false 194 223), (within_true 224 239) by lia.
    rewrite (within_true (if _ =? 0xE0 then _ else _)) by (destruct (Z.eqb_spec (224 + c / 4096) 224), (Z.eqb_spec (224 + c / 4096) 237); lia).
    rewrite within_true by lia. f_equal. lia.
  - rewrite (within_false 0 127), (within_false 194 223), (within_false 224 239), (within_true 240 244) by lia.
    rewrite (within_true (if _ =? 0xF0 then _ else _)) by (destruct (Z.eqb_spec (240 + c / 262144) 240), (Z.eqb_spec (240 + c / 262144) 244); lia).
    rewrite !within_true by lia. f_equal. lia.
Qed.
Lemma decode_text s : Forall scalar s → decode_lossy (mjoin (encode_utf8 <$> s)) = s.
Proof.
  induction 1 as [|c s Hc _ IH]; [done|].
  change (mjoin (encode_utf8 <$> c :: s)) with (encode_utf8 c ++ mjoin (encode_utf8 <$> s)). by rewrite decode_encode, IH.
Qed.
