(* ===== verification/Compositor.v ===== *)
(** * The compositor (gui.rs)

    The desktop: frames around the windows of the window server, terminals and two
    notes, stacked in a list whose last is on top; the mouse that drags, raises and closes them;
    keys and clicks handed to the program on top; and the painting of it all on the framebuffer.
    The task is a loop of rounds.  A round is cut into its sections, between which the other tasks
    run: [others] says what they do there.  The logs of the demo client are left out. *)

From S2P Require Import Prelude Vfs Utf8 Signal Task ConsoleIn Ps2 Framebuffer Terminal Wm.

Module Compositor.

Abbreviation i32 := (signed 32).
(** [n as usize] of an [i32]. *)
Abbreviation usize := wrap64.
Abbreviation Color := Framebuffer.Color.
Abbreviation drawing := Framebuffer.drawing.

(** [gui.rs:33-33, !C_DESKTOP] *)
Definition C_DESKTOP : Color := 0x0A3D4A.
(** [gui.rs:34-34, !C_TASKBAR] *)
Definition C_TASKBAR : Color := 0x101A24.
(** [gui.rs:35-35, !C_TASKBAR_HI] *)
Definition C_TASKBAR_HI : Color := 0x1E2E3E.
(** [gui.rs:36-36, !C_TITLE_ACTIVE] *)
Definition C_TITLE_ACTIVE : Color := 0x2A6CB0.
(** [gui.rs:37-37, !C_TITLE_INACTIVE] *)
Definition C_TITLE_INACTIVE : Color := 0x3A4654.
(** [gui.rs:38-38, !C_TITLE_TEXT] *)
Definition C_TITLE_TEXT : Color := 0xFFFFFF.
(** [gui.rs:39-39, !C_BODY] *)
Definition C_BODY : Color := 0xEDF1F5.
(** [gui.rs:40-40, !C_BODY_TEXT] *)
Definition C_BODY_TEXT : Color := 0x10202C.
(** [gui.rs:41-41, !C_BORDER] *)
Definition C_BORDER : Color := 0x05121C.
(** [gui.rs:42-42, !C_CLOSE] *)
Definition C_CLOSE : Color := 0xD24B4B.
(** [gui.rs:43-43, !C_ACCENT] *)
Definition C_ACCENT : Color := 0x36C39B.
(** [gui.rs:45-45, !TITLE_H] *)
Definition TITLE_H : Z := 20.
(** [gui.rs:46-46, !TASKBAR_H] *)
Definition TASKBAR_H : Z := 28.
(** [gui.rs:47-47, !CLOSE_SZ] *)
Definition CLOSE_SZ : Z := 14.
(** [gui.rs:50-50, !NEWTERM_X] *)
Definition NEWTERM_X : Z := 96.
(** [gui.rs:51-51, !NEWTERM_W] *)
Definition NEWTERM_W : Z := 104.
(** [gui.rs:54-54, !TERM_CHAR_W] *)
Definition TERM_CHAR_W : Z := 8.
(** [gui.rs:55-55, !TERM_LINE_H] *)
Definition TERM_LINE_H : Z := 10.
(** [gui.rs:56-56, !TERM_PAD_X] *)
Definition TERM_PAD_X : Z := 8.
(** [gui.rs:57-57, !TERM_PAD_Y] *)
Definition TERM_PAD_Y : Z := 4.
(** [gui.rs:60-60, !C_TERM_BG] *)
Definition C_TERM_BG : Color := 0x0B1A12.
(** [gui.rs:61-61, !C_TERM_FG] *)
Definition C_TERM_FG : Color := 0x9CF0B0.
(** [gui.rs:62-62, !C_TERM_CURSOR] *)
Definition C_TERM_CURSOR : Color := 0x36C39B.

(** ** Frames *)

(** [gui.rs:68-77, WindowKind] *)
Inductive WindowKind : Type := Info | TerminalKind | Client.
#[export] Instance WindowKind_eq_dec : EqDecision WindowKind.
Proof. solve_decision. Defined.

(** [gui.rs:79-94, Window] *)
Record Window := MkWin {
  x : Z; y : Z; w : Z; h : Z; title : list Z; body : list (list Z); accent : Color; kind : WindowKind;
  term_id : Z; client_id : Z }.

(** [gui.rs:97-110, !Window::new] *)
Definition new (x y w h : Z) (title : list Z) (body : list (list Z)) (accent : Color) : Window :=
  MkWin x y w h title body accent Info Terminal.NO_TERM 0.
(** [gui.rs:114-129, Window::new_terminal] *)
Definition new_terminal (x y : Z) (title : list Z) (accent : Color) (term_id : Z) : Window :=
  let w := Z.of_nat Terminal.COLS * TERM_CHAR_W + TERM_PAD_X * 2 in
  let h := TITLE_H + TERM_PAD_Y + Z.of_nat Terminal.ROWS * TERM_LINE_H + TERM_PAD_Y in
  MkWin x y w h title [] accent TerminalKind term_id 0.
(** [gui.rs:134-147, Window::new_client] *)
Definition new_client (x y cw ch : Z) (title : list Z) (accent : Color) (client_id : Z) : Window :=
  MkWin x y cw (i32 (TITLE_H + ch)) title [] accent Client Terminal.NO_TERM client_id.

Definition set_x (v : Z) (u : Window) : Window :=
  MkWin v (y u) (w u) (h u) (title u) (body u) (accent u) (kind u) (term_id u) (client_id u).
Definition set_y (v : Z) (u : Window) : Window :=
  MkWin (x u) v (w u) (h u) (title u) (body u) (accent u) (kind u) (term_id u) (client_id u).

(** [gui.rs:150-152, Window::client_area] *)
Definition client_area (u : Window) : Z * Z * Z * Z := (x u, i32 (y u + TITLE_H), w u, i32 (h u - TITLE_H)).
(** [gui.rs:155-157, Window::close_rect] *)
Definition close_rect (u : Window) : Z * Z * Z * Z :=
  (i32 (i32 (i32 (x u + w u) - CLOSE_SZ) - 4), i32 (y u + 3), CLOSE_SZ, CLOSE_SZ).
(** [gui.rs:159-161, Window::point_in_title] *)
Definition point_in_title (px py : Z) (u : Window) : bool :=
  (x u <=? px) && (px <? i32 (x u + w u)) && (y u <=? py) && (py <? i32 (y u + TITLE_H)).
(** [gui.rs:163-165, Window::point_in_window] *)
Definition point_in_window (px py : Z) (u : Window) : bool :=
  (x u <=? px) && (px <? i32 (x u + w u)) && (y u <=? py) && (py <? i32 (y u + h u)).
(** [gui.rs:167-170, Window::point_in_close] *)
Definition point_in_close (px py : Z) (u : Window) : bool :=
  let '(cx, cy, cw, ch) := close_rect u in
  (cx <=? px) && (px <? i32 (cx + cw)) && (cy <=? py) && (py <? i32 (cy + ch)).

(** ** Drawing *)

Section font.
Context `{Fnt : Font}.

(** [gui.rs:211-227, Window::draw_client]: the pixels of the program's window, as far as the
    frame goes. *)
Definition draw_client (s : Wm.wm) (u : Window) : drawing :=
  let '(ox, oy, cw, ch) := client_area u in
  match Wm.with_pixels (client_id u) (λ bw bh px, (bw, bh, px)) s with
  | None => sret tt
  | Some (bw, bh, px) =>
      let draw_w := Z.min (usize cw) bw in
      let draw_h := Z.min (usize ch) bh in
      sfor (seqZ 0 draw_h) (λ row,
        let py := i32 (oy + row) in
        if py <? 0 then sret tt else
        sfor (seqZ 0 draw_w) (λ col,
          let! pxl := slift (or_panic (px !! Z.to_nat (row * bw + col))) in
          Framebuffer.put_pixel (usize (i32 (ox + col))) (usize py) pxl))
  end.

Definition visible_char (c : Z) : bool := negb (c =? 32) && negb (c =? 0).
(** The cells of a grid with their places. *)
Definition indexed {A} (l : list A) : list (nat * A) := imap pair l.
(** [gui.rs:230-264, Window::draw_terminal] *)
Definition draw_terminal (p : Terminal.pool) (u : Window) (active blink_on : bool) : drawing :=
  let '(grid, cur) := Terminal.copy_grid (term_id u) p in
  let ox := i32 (x u + TERM_PAD_X) in
  let oy := i32 (i32 (y u + TITLE_H) + TERM_PAD_Y) in
  let! _ := sfor (indexed grid) (λ r,
    let py := i32 (oy + Z.of_nat r.1 * TERM_LINE_H) in
    sfor (indexed r.2) (λ c,
      if visible_char (Terminal.ch c.2) then
        let px := i32 (ox + Z.of_nat c.1 * TERM_CHAR_W) in
        let fg := if Terminal.fg c.2 =? Terminal.DEFAULT_FG then C_TERM_FG else Terminal.fg c.2 in
        Framebuffer.draw_glyph_fg (Terminal.ch c.2) (usize px) (usize py) fg
      else sret tt)) in
  match cur with
  | Some (cur_c, cur_r) =>
      if active && blink_on && bool_decide (cur_r < Terminal.ROWS)%nat && bool_decide (cur_c < Terminal.COLS)%nat then
        let px := usize (i32 (ox + Z.of_nat cur_c * TERM_CHAR_W)) in
        let py := usize (i32 (oy + Z.of_nat cur_r * TERM_LINE_H)) in
        let! _ := Framebuffer.fill_rect px py TERM_CHAR_W TERM_CHAR_W C_TERM_CURSOR in
        let! c := slift (or_panic (grid !! cur_r ≫= (.!! cur_c))) in
        if visible_char (Terminal.ch c) then Framebuffer.draw_glyph_fg (Terminal.ch c) px py C_TERM_BG else sret tt
      else sret tt
  | None => sret tt
  end.

(** The lines of a note, 11 pixels apart. *)
Fixpoint draw_lines (ls : list (list Z)) (px ty : Z) : drawing :=
  match ls with
  | [] => sret tt
  | l :: ls =>
      let! _ := Framebuffer.draw_string_fg l px ty C_BODY_TEXT in draw_lines ls px (usize (ty + 11))
  end.
(** [gui.rs:174-206, Window::draw] *)
Definition draw (p : Terminal.pool) (s : Wm.wm) (active blink_on : bool) (u : Window) : drawing :=
  let '(x', y', w', h') := (usize (x u), usize (y u), usize (w u), usize (h u)) in
  let! _ := Framebuffer.fill_rect (usize (x' + 4)) (usize (y' + 4)) w' h' 0x04141E in
  let body_bg := if decide (kind u = TerminalKind) then C_TERM_BG else C_BODY in
  let! _ := Framebuffer.fill_rect x' y' w' h' body_bg in
  let title_col := if active then C_TITLE_ACTIVE else C_TITLE_INACTIVE in
  let! _ := Framebuffer.fill_rect x' y' w' TITLE_H title_col in
  let! _ := Framebuffer.fill_rect x' (usize (y' + TITLE_H)) w' 2 (accent u) in
  let! _ := Framebuffer.draw_string_fg (title u) (usize (x' + 6)) (usize (y' + 6)) C_TITLE_TEXT in
  let '(cx, cy, cw, ch) := close_rect u in
  let! _ := Framebuffer.fill_rect (usize cx) (usize cy) (usize cw) (usize ch) C_CLOSE in
  let! _ := Framebuffer.draw_string_fg (str "x") (usize (usize cx + 3)) (usize (usize cy + 3)) C_TITLE_TEXT in
  let! _ := match kind u with
            | Info => draw_lines (body u) (usize (x' + 8)) (usize (usize (y' + TITLE_H) + 8))
            | TerminalKind => draw_terminal p u active blink_on
            | Client => draw_client s u
            end in
  Framebuffer.draw_rect_outline x' y' w' h' C_BORDER.

(** [gui.rs:369-371, terminal_window_count] *)
Definition terminal_window_count (ws : list Window) : nat := length (filter (λ u, kind u = TerminalKind) ws).
(** [gui.rs:374-376, client_window_count] *)
Definition client_window_count (ws : list Window) : nat := length (filter (λ u, kind u = Client) ws).
(** [gui.rs:379-381, free_terminal_slots] *)
Definition free_terminal_slots (ws : list Window) : nat := (Terminal.MAX_TERMS - terminal_window_count ws)%nat.
(** [gui.rs:384-387, new_term_button_rect] *)
Definition new_term_button_rect (screen_h : Z) : Z * Z * Z * Z :=
  (NEWTERM_X, i32 (i32 (screen_h - TASKBAR_H) + 4), NEWTERM_W, TASKBAR_H - 8).
(** [gui.rs:390-393, point_in_new_term] *)
Definition point_in_new_term (px py screen_h : Z) : bool :=
  let '(bx, by_, bw, bh) := new_term_button_rect screen_h in
  (bx <=? px) && (px <? i32 (bx + bw)) && (by_ <=? py) && (py <? i32 (by_ + bh)).

(** [gui.rs:428-442, !draw_desktop]: the buttons of the windows in the taskbar, from [bx] on. *)
Fixpoint draw_buttons (tb_y : Z) (focus : nat) (ws : list (nat * Window)) (bx : Z) : drawing :=
  match ws with
  | [] => sret tt
  | (i, win) :: ws =>
      let bw := 150 in
      let col := if decide (i = focus) then C_TASKBAR_HI else C_TASKBAR in
      let! _ := Framebuffer.fill_rect bx (usize (tb_y + 4)) bw (TASKBAR_H - 8) col in
      let! _ := Framebuffer.draw_rect_outline bx (usize (tb_y + 4)) bw (TASKBAR_H - 8) C_BORDER in
      let accent := if decide (i = focus) then accent win else C_TITLE_INACTIVE in
      let! _ := Framebuffer.fill_rect (usize (bx + 4)) (usize (tb_y + 8)) 6 6 accent in
      let! _ := Framebuffer.draw_string_fg (take 16 (title win)) (usize (bx + 16)) (usize (tb_y + 10)) C_TITLE_TEXT in
      draw_buttons tb_y focus ws (usize (bx + (bw + 6)))
  end.
(** [gui.rs:396-443, draw_desktop] *)
Definition draw_desktop (p : Terminal.pool) (s : Wm.wm) (screen_w screen_h : Z) (ws : list Window) (focus : nat)
    (blink_on : bool) : drawing :=
  let! _ := Framebuffer.clear C_DESKTOP in
  let! _ := Framebuffer.draw_string_scaled (str "PICKLE OS") 24 24 C_ACCENT 3 in
  let! _ := Framebuffer.draw_string_fg (str "a memory-safe microkernel desktop, drawn pixel by pixel") 24 56 0xBfeAdF in
  let tb_y := usize (i32 (screen_h - TASKBAR_H)) in
  let! _ := Framebuffer.fill_rect 0 tb_y (usize screen_w) TASKBAR_H C_TASKBAR in
  let! _ := Framebuffer.fill_rect 0 tb_y (usize screen_w) 2 C_ACCENT in
  let! _ := Framebuffer.draw_string_fg (str "PICKLE") 10 (usize (tb_y + 10)) C_ACCENT in
  let! _ := Framebuffer.draw_string_fg (str "OS") (10 + 7 * 8) (usize (tb_y + 10)) C_TITLE_TEXT in
  let nt_col := if decide (0 < free_terminal_slots ws)%nat then C_ACCENT else C_TITLE_INACTIVE in
  let! _ := Framebuffer.fill_rect NEWTERM_X (usize (tb_y + 4)) NEWTERM_W (TASKBAR_H - 8) C_TASKBAR_HI in
  let! _ := Framebuffer.draw_rect_outline NEWTERM_X (usize (tb_y + 4)) NEWTERM_W (TASKBAR_H - 8) nt_col in
  let! _ := Framebuffer.draw_string_fg (str "+ Terminal") (NEWTERM_X + 8) (usize (tb_y + 10)) nt_col in
  let! _ := draw_buttons tb_y focus (indexed ws) (NEWTERM_X + NEWTERM_W + 10) in
  sfor (indexed ws) (λ iw, draw p s (bool_decide (iw.1 = focus)) blink_on iw.2).

(** ** The mouse cursor *)

(** [gui.rs:269-269, !CURSOR_W] *)
Definition CURSOR_W : nat := 12.
(** [gui.rs:270-270, !CURSOR_H] *)
Definition CURSOR_H : nat := 19.
(** [gui.rs:273-293, !CURSOR] *)
Definition CURSOR : list (list Z) := str <$> [
  "#           ";
  "##          ";
  "#.#         ";
  "#..#        ";
  "#...#       ";
  "#....#      ";
  "#.....#     ";
  "#......#    ";
  "#.......#   ";
  "#........#  ";
  "#.....####  ";
  "#..#..#     ";
  "#.# #..#    ";
  "##  #..#    ";
  "#    #..#   ";
  "     #..#   ";
  "      #..#  ";
  "      #..#  ";
  "       ##   "]%string.

(** [gui.rs:296-301, CursorSaver] *)
Record CursorSaver := Saver { v_valid : bool; v_x : Z; v_y : Z; v_pixels : list Color }.
(** [gui.rs:304-311, !CursorSaver::new] *)
Definition saver_new : CursorSaver := Saver false 0 0 (replicate (CURSOR_W * CURSOR_H) Framebuffer.BLACK).

(** The pixels under a cursor at [px], [py], row by row. *)
Definition cursor_spots (px py : Z) : list (Z * Z) :=
  row ← seq 0 CURSOR_H; col ← seq 0 CURSOR_W; [(i32 (px + Z.of_nat col), i32 (py + Z.of_nat row))].
Fixpoint collect {A} (l : list (Z * Z)) (f : Z * Z → stm Framebuffer.gfx Empty_set A) : stm Framebuffer.gfx Empty_set (list A) :=
  match l with
  | [] => sret []
  | p :: l => let! a := f p in let! r := collect l f in sret (a :: r)
  end.
Definition at_spot (p : Z * Z) : bool := (0 <=? p.1) && (0 <=? p.2).
(** [gui.rs:314-329, CursorSaver::save] *)
Definition save (px py : Z) : stm Framebuffer.gfx Empty_set CursorSaver :=
  let! ps := collect (cursor_spots px py) (λ p,
    if at_spot p then Framebuffer.read_pixel (usize p.1) (usize p.2) else sret Framebuffer.BLACK) in
  sret (Saver true px py ps).
(** [gui.rs:332-345, CursorSaver::restore] *)
Definition restore (v : CursorSaver) : drawing :=
  if negb (v_valid v) then sret tt else
  sfor (zip (cursor_spots (v_x v) (v_y v)) (v_pixels v)) (λ pc,
    if at_spot pc.1 then Framebuffer.put_pixel (usize pc.1.1) (usize pc.1.2) pc.2 else sret tt).
(** [gui.rs:349-364, draw_cursor] *)
Definition draw_cursor (px py : Z) : drawing :=
  sfor (zip (cursor_spots px py) (mjoin CURSOR)) (λ pc,
    let put c := if at_spot pc.1 then Framebuffer.put_pixel (usize pc.1.1) (usize pc.1.2) c else sret tt in
    if pc.2 =? 35 then put Framebuffer.BLACK else if pc.2 =? 46 then put Framebuffer.WHITE else sret tt).
End font.

(** ** The compositor's state *)

(** The windows from bottom to top, the one with the keyboard, the grip of a drag, the left
    button as last seen, the program that was told that it has the focus, and the
    button as last told to a program; and whether the scene is to be painted anew. *)
Record scene := Scene {
  s_windows : list Window; s_focus : nat; s_dragging : option (Z * Z); s_prev_left : bool;
  s_focused_client : option Z; s_prev_left_client : bool; s_dirty : bool }.
(** What the last round has seen of the counters, and the blinking. *)
Record seen := Seen {
  n_mouse_seq : Z; n_seqs : list Z; n_wm_dirty : Z; n_saver : CursorSaver; n_frame : Z; n_blink : bool }.

Section compositor.
Context `{KD : KeyDecoder} {W : Type} `{TE : TaskEnv W} `{Fnt : Font}.

(** The rest of the kernel: the screen, the terminals, the window server, the keyboard's
    buffer, the mouse, and the tasks. *)
Record outside := Out {
  o_gfx : Framebuffer.gfx; o_terms : Terminal.pool; o_wm : Wm.wm; o_keys : ConsoleInput; o_mouse : Mouse.pointer;
  o_tasks : kernel W }.
Record compositor := Comp { c_scene : scene; c_seen : seen; c_out : outside }.
Abbreviation comp A := (stm compositor bytes A).

Definition on_scene (f : scene → scene) : comp unit := smodify (λ c, Comp (f (c_scene c)) (c_seen c) (c_out c)).
Definition on_seen (f : seen → seen) : comp unit := smodify (λ c, Comp (c_scene c) (f (c_seen c)) (c_out c)).
Definition set_out (o : outside) (c : compositor) : compositor := Comp (c_scene c) (c_seen c) o.
Definition on_gfx {A} (f : stm Framebuffer.gfx Empty_set A) : comp A := λ c,
  let o := c_out c in
  let p := f (o_gfx o) in
  (map_err (λ e : Empty_set, match e with end) p.1,
   set_out (Out p.2 (o_terms o) (o_wm o) (o_keys o) (o_mouse o) (o_tasks o)) c).
Definition on_terms {A} (f : Terminal.pool → A * Terminal.pool) : comp A := λ c,
  let o := c_out c in
  let p := f (o_terms o) in
  (Ok p.1, set_out (Out (o_gfx o) p.2 (o_wm o) (o_keys o) (o_mouse o) (o_tasks o)) c).
Definition on_wm {A} (f : Wm.wm → A * Wm.wm) : comp A := λ c,
  let o := c_out c in
  let p := f (o_wm o) in
  (Ok p.1, set_out (Out (o_gfx o) (o_terms o) p.2 (o_keys o) (o_mouse o) (o_tasks o)) c).
Definition on_keys {A} (f : ConsoleInput → A * ConsoleInput) : comp A := λ c,
  let o := c_out c in
  let p := f (o_keys o) in
  (Ok p.1, set_out (Out (o_gfx o) (o_terms o) (o_wm o) p.2 (o_mouse o) (o_tasks o)) c).
Definition on_tasks {A} (f : stm (kernel W) bytes A) : comp A := λ c,
  let o := c_out c in
  let p := f (o_tasks o) in
  (p.1, set_out (Out (o_gfx o) (o_terms o) (o_wm o) (o_keys o) (o_mouse o) p.2) c).
(** A call without a result. *)
Definition just {S} (f : S → S) (s : S) : unit * S := (tt, f s).
Definition pushes (id : Z) (ev : Wm.event) : comp unit := on_wm (just (Wm.push_event id ev)).

Definition set_windows (ws : list Window) (s : scene) : scene :=
  Scene ws (s_focus s) (s_dragging s) (s_prev_left s) (s_focused_client s) (s_prev_left_client s) (s_dirty s).
Definition set_focus (f : nat) (s : scene) : scene :=
  Scene (s_windows s) f (s_dragging s) (s_prev_left s) (s_focused_client s) (s_prev_left_client s) (s_dirty s).
Definition set_dragging (d : option (Z * Z)) (s : scene) : scene :=
  Scene (s_windows s) (s_focus s) d (s_prev_left s) (s_focused_client s) (s_prev_left_client s) (s_dirty s).
Definition set_prev_left (b : bool) (s : scene) : scene :=
  Scene (s_windows s) (s_focus s) (s_dragging s) b (s_focused_client s) (s_prev_left_client s) (s_dirty s).
Definition set_focused_client (c : option Z) (s : scene) : scene :=
  Scene (s_windows s) (s_focus s) (s_dragging s) (s_prev_left s) c (s_prev_left_client s) (s_dirty s).
Definition set_prev_left_client (b : bool) (s : scene) : scene :=
  Scene (s_windows s) (s_focus s) (s_dragging s) (s_prev_left s) (s_focused_client s) b (s_dirty s).
Definition set_dirty (b : bool) (s : scene) : scene :=
  Scene (s_windows s) (s_focus s) (s_dragging s) (s_prev_left s) (s_focused_client s) (s_prev_left_client s) b.
(** [windows.push(win); focus = windows.len() - 1; scene_dirty = true] *)
Definition on_top (u : Window) (s : scene) : scene :=
  set_dirty true (set_focus (length (s_windows s)) (set_windows (s_windows s ++ [u]) s)).
(** [if focused_client == Some(id) { focused_client = None; }] *)
Definition forget_client (id : Z) (s : scene) : scene :=
  if decide (s_focused_client s = Some id) then set_focused_client None s else s.

(** ** The sections of a round *)

(** A client's window gets a frame. *)
(** [gui.rs:565-581, !compositor_task: the window that was taken] *)
Definition frame_new (screen_w screen_h id : Z) : comp unit :=
  let! info := on_wm (λ s, (Wm.window_size_title id s, s)) in
  match info with
  | None => sret tt
  | Some (cw, ch, title) =>
      let cw := i32 cw in
      let ch := i32 ch in
      let! n := sget (λ c, Z.of_nat (client_window_count (s_windows (c_scene c)))) in
      let! wx := slift (Mouse.clamp (i32 (360 + i32 (26 * n))) 0 (i32 (screen_w - Z.max cw 1))) in
      let total_h := i32 (TITLE_H + ch) in
      let! wy := slift (Mouse.clamp (i32 (180 + i32 (26 * n))) 0 (i32 (Z.max (i32 (screen_h - TASKBAR_H)) 0 - total_h))) in
      let! _ := on_scene (on_top (new_client wx wy cw ch (decode_lossy title) 0x2A7AB0 id)) in
      let! _ := on_wm (just (Wm.set_position id wx (i32 (wy + TITLE_H)))) in
      pushes id (Wm.WmEvent Wm.EV_FOCUS 0 0 0)
  end.
(** [gui.rs:564-582, !compositor_task: the loop over new windows] *)
Fixpoint take_new (fuel : nat) (screen_w screen_h : Z) : comp unit :=
  match fuel with
  | O => slift Diverge
  | S fuel =>
      let! id := on_wm Wm.take_pending_new in
      match id with
      | None => sret tt
      | Some id => let! _ := frame_new screen_w screen_h id in take_new fuel screen_w screen_h
      end
  end.

(** The frame of a client. *)
Definition frame_of (id : Z) (ws : list Window) : option nat :=
  position (λ u, bool_decide (kind u = Client) && (client_id u =? id)) ws.
(** [gui.rs:584-594, !compositor_task: the window that is gone] *)
Definition unframe (id : Z) (s : scene) : scene :=
  match frame_of id (s_windows s) with
  | None => s
  | Some i =>
      let ws := delete i (s_windows s) in
      set_dirty true (forget_client id (set_focus (pred (length ws)) (set_windows ws s)))
  end.
(** [gui.rs:583-595, !compositor_task: the loop over gone windows] *)
Fixpoint take_destroyed (fuel : nat) : comp unit :=
  match fuel with
  | O => slift Diverge
  | S fuel =>
      let! id := on_wm Wm.take_pending_destroy in
      match id with
      | None => sret tt
      | Some id => let! _ := on_scene (unframe id) in take_destroyed fuel
      end
  end.

(** [gui.rs:597-601, !compositor_task: commits] *)
Definition note_commits : comp unit :=
  let! cur := sget (λ c, Wm.m_dirty (o_wm (c_out c))) in
  let! last := sget (λ c, n_wm_dirty (c_seen c)) in
  if cur =? last then sret tt else
  let! _ := on_seen (λ n, Seen (n_mouse_seq n) (n_seqs n) cur (n_saver n) (n_frame n) (n_blink n)) in
  on_scene (set_dirty true).

(** [windows.last_mut().unwrap()], changed. *)
Definition on_last (f : Window → comp Window) : comp Window := λ c,
  match last (s_windows (c_scene c)) with
  | None => (Panic, c)
  | Some u => (let! u' := f u in
               let! _ := on_scene (λ s, set_windows (<[pred (length (s_windows s)) := u']> (s_windows s)) s) in
               sret u') c
  end.
(** [gui.rs:606-624, !compositor_task: the drag goes on] *)
Definition drag (screen_w screen_h cx cy ox oy : Z) : comp unit :=
  let! win := on_last (λ u, let! x' := slift (Mouse.clamp (i32 (cx - ox)) 0 (i32 (screen_w - w u))) in sret (set_x x' u)) in
  let max_y := i32 (Z.max (i32 (screen_h - TASKBAR_H)) 0 - h win) in
  let! win := on_last (λ u, let! y' := slift (Mouse.clamp (i32 (cy - oy)) 0 max_y) in sret (set_y y' u)) in
  let! _ := if decide (kind win = Client)
            then on_wm (just (Wm.set_position (client_id win) (x win) (i32 (y win + TITLE_H)))) else sret tt in
  on_scene (set_dirty true).

(** The entry point of the shell's task. *)
Variable shell_task : Z.
(** [gui.rs:625-638, !compositor_task: a new terminal] *)
Definition open_terminal (screen_w screen_h : Z) : comp unit :=
  let! slot := on_terms Terminal.alloc_terminal in
  match slot with
  | None => sret tt
  | Some id =>
      let id := Z.of_nat id in
      let! n := sget (λ c, Z.of_nat (terminal_window_count (s_windows (c_scene c)))) in
      let! wx := slift (Mouse.clamp (i32 (300 + i32 (28 * n))) 0 (i32 (screen_w - 200))) in
      let! wy := slift (Mouse.clamp (i32 (150 + i32 (28 * n))) 0 (i32 (screen_h - 120))) in
      let! _ := on_scene (on_top (new_terminal wx wy (str "Terminal - pickleos shell") 0xB0742A id)) in
      let! _ := on_terms (just (Terminal.request_shell id)) in
      let! _ := on_tasks (spawn_kernel_task (str "shell") shell_task) in
      sret tt
  end.

(** The topmost of the lowest [n] windows at a point. *)
Fixpoint hit_test (px py : Z) (n : nat) (ws : list Window) : option nat :=
  match n with
  | O => None
  | S i =>
      match ws !! i with
      | Some u => if point_in_window px py u then Some i else hit_test px py i ws
      | None => hit_test px py i ws
      end
  end.
(** [gui.rs:649-678, !compositor_task: the close button] *)
Definition close (i : nat) (u : Window) : comp unit :=
  let! _ := match kind u with
            | TerminalKind => on_terms (just (Terminal.free_terminal (term_id u)))
            | Client =>
                let! _ := pushes (client_id u) (Wm.WmEvent Wm.EV_CLOSE 0 0 0) in
                let! _ := on_wm (Wm.destroy_window (client_id u)) in
                on_scene (forget_client (client_id u))
            | Info => sret tt
            end in
  on_scene (λ s,
    let ws := delete i (s_windows s) in
    let focus := if decide (i = s_focus s) then pred (length ws)
                 else if decide (i ≤ s_focus s)%nat then pred (s_focus s) else s_focus s in
    set_dirty true (set_focus focus (set_windows ws s))).
(** [gui.rs:679-689, !compositor_task: raising] *)
Definition raise (cx cy : Z) (i : nat) (u : Window) : comp unit :=
  on_scene (λ s,
    let ws := delete i (s_windows s) in
    let s1 := set_focus (length ws) (set_windows (ws ++ [u]) s) in
    set_dirty true (if point_in_title cx cy u then set_dragging (Some (i32 (cx - x u), i32 (cy - y u))) s1 else s1)).
(** [gui.rs:639-691, !compositor_task: a click] *)
Definition click (cx cy : Z) : comp unit :=
  let! ws := sget (λ c, s_windows (c_scene c)) in
  match hit_test cx cy (length ws) ws with
  | None => sret tt
  | Some i =>
      let! u := slift (or_panic (ws !! i)) in
      if point_in_close cx cy u then close i u else raise cx cy i u
  end.

(** [gui.rs:603-693, !compositor_task: the mouse] *)
Definition handle_mouse (screen_w screen_h : Z) (m : Mouse.MouseState) : comp unit :=
  let (cx, cy) := (Mouse.x m, Mouse.y m) in
  let! prev_left := sget (λ c, s_prev_left (c_scene c)) in
  let left_pressed := Mouse.left m && negb prev_left in
  let! dragging := sget (λ c, s_dragging (c_scene c)) in
  let! _ := match dragging with
            | Some (ox, oy) =>
                if Mouse.left m then drag screen_w screen_h cx cy ox oy else on_scene (set_dragging None)
            | None =>
                if left_pressed && point_in_new_term cx cy screen_h then open_terminal screen_w screen_h
                else if left_pressed then click cx cy else sret tt
            end in
  on_scene (set_prev_left (Mouse.left m)).

(** [gui.rs:536-540, !compositor_task: term_on_top]; the window on top, if it is of kind [k]. *)
Definition top_of_kind (k : WindowKind) (s : scene) : option Window :=
  match s_windows s !! s_focus s with
  | Some u => if decide (s_focus s = pred (length (s_windows s)) ∧ kind u = k) then Some u else None
  | None => None
  end.
Definition foc_term (s : scene) : Z := from_option term_id Terminal.NO_TERM (top_of_kind TerminalKind s).
(** [gui.rs:698-706, !compositor_task: the terminal's focus] *)
Definition sync_terminal : comp unit :=
  let! f := sget (λ c, foc_term (c_scene c)) in
  let! cur := sget (λ c, Terminal.focus (o_terms (c_out c))) in
  if f =? cur then sret tt else
  let! _ := on_terms (just (Terminal.set_focus f)) in
  on_keys (just flush).

(** [gui.rs:714-721, !compositor_task: top_client] *)
Definition top_client (s : scene) : option Z := client_id <$> top_of_kind Client s.
(** [gui.rs:722-732, !compositor_task: focus and blur] *)
Definition sync_client : comp unit :=
  let! top := sget (λ c, top_client (c_scene c)) in
  let! old := sget (λ c, s_focused_client (c_scene c)) in
  if decide (top = old) then sret tt else
  let! _ := match old with Some id => pushes id (Wm.WmEvent Wm.EV_BLUR 0 0 0) | None => sret tt end in
  let! _ := match top with
            | Some id => let! _ := pushes id (Wm.WmEvent Wm.EV_FOCUS 0 0 0) in on_keys (just flush)
            | None => sret tt
            end in
  on_scene (set_focused_client top).
(** [gui.rs:736-738, !compositor_task: the keys] *)
Fixpoint send_keys (fuel : nat) (id : Z) : comp unit :=
  match fuel with
  | O => slift Diverge
  | S fuel =>
      let! ch := on_keys read_char in
      match ch with
      | None => sret tt
      | Some ch => let! _ := pushes id (Wm.WmEvent Wm.EV_KEY 0 0 ch) in send_keys fuel id
      end
  end.
(** [gui.rs:733-754, !compositor_task: a client's input] *)
Definition route_input (fuel : nat) (m : Mouse.MouseState) (mouse_changed : bool) : comp unit :=
  let! top := sget (λ c, top_of_kind Client (c_scene c)) in
  match top with
  | None => sret tt
  | Some win =>
      let cid := client_id win in
      let! _ := send_keys fuel cid in
      let lx := i32 (Mouse.x m - x win) in
      let ly := i32 (Mouse.y m - i32 (y win + TITLE_H)) in
      let in_client := (0 <=? lx) && (0 <=? ly) && (lx <? w win) && (ly <? i32 (h win - TITLE_H)) in
      let! prev := sget (λ c, s_prev_left_client (c_scene c)) in
      let! _ :=
        if mouse_changed && in_client then
          let! _ := pushes cid (Wm.WmEvent Wm.EV_MOUSE_MOVE lx ly 0) in
          if Mouse.left m && negb prev then pushes cid (Wm.WmEvent Wm.EV_MOUSE_DOWN lx ly 0)
          else if negb (Mouse.left m) && prev then pushes cid (Wm.WmEvent Wm.EV_MOUSE_UP lx ly 0)
          else sret tt
        else sret tt in
      on_scene (set_prev_left_client (Mouse.left m))
  end.

(** [gui.rs:757-770, !compositor_task: the terminals that have changed]: their number, and
    whether [foc] is one of them. *)
Definition note_terminals (foc : Z) : comp (nat * bool) := λ c,
  let cur := (λ id, Terminal.seq_of (Z.of_nat id) (o_terms (c_out c))) <$> seq 0 Terminal.MAX_TERMS in
  let n := c_seen c in
  let changed := filter (λ id, nth id cur 0 ≠ nth id (n_seqs n) 0) (seq 0 Terminal.MAX_TERMS) in
  (Ok (length changed, bool_decide (foc ∈ Z.of_nat <$> changed)),
   Comp (c_scene c) (Seen (n_mouse_seq n) cur (n_wm_dirty n) (n_saver n) (n_frame n) (n_blink n)) (c_out c)).
(** [gui.rs:772-775, !compositor_task: the blinking]: whether the phase has changed. *)
Definition note_blink : comp bool := λ c,
  let n := c_seen c in
  let frame := wrap64 (n_frame n + 1) in
  let blink := (frame / 9) mod 2 =? 0 in
  (Ok (negb (Bool.eqb blink (n_blink n))),
   Comp (c_scene c) (Seen (n_mouse_seq n) (n_seqs n) (n_wm_dirty n) (n_saver n) frame blink) (c_out c)).

Definition save_under (cx cy : Z) : comp unit :=
  let! v := on_gfx (save cx cy) in
  on_seen (λ n, Seen (n_mouse_seq n) (n_seqs n) (n_wm_dirty n) v (n_frame n) (n_blink n)).
(** The cursor on a scene just drawn. *)
Definition show_cursor (cx cy : Z) : comp unit :=
  let! _ := save_under cx cy in on_gfx (draw_cursor cx cy).
Definition paint_all (screen_w screen_h cx cy : Z) : comp unit := λ c,
  let o := c_out c in
  let s := c_scene c in
  (let! _ := on_gfx (draw_desktop (o_terms o) (o_wm o) screen_w screen_h (s_windows s) (s_focus s) (n_blink (c_seen c))) in
   show_cursor cx cy) c.
Definition paint_top (cx cy : Z) : comp unit := λ c,
  let o := c_out c in
  let s := c_scene c in
  (let! _ := on_gfx (restore (n_saver (c_seen c))) in
   let! u := slift (or_panic (s_windows s !! s_focus s)) in
   let! _ := on_gfx (draw (o_terms o) (o_wm o) true (n_blink (c_seen c)) u) in
   show_cursor cx cy) c.
(** [gui.rs:777-807, !compositor_task: the repaint] *)
Definition repaint (screen_w screen_h cx cy : Z) (mouse_changed blink_changed : bool) (changed : nat * bool) : comp unit := λ c,
  let s := c_scene c in
  let term_on_top := bool_decide (is_Some (top_of_kind TerminalKind s)) in
  (if s_dirty s then paint_all screen_w screen_h cx cy
   else if bool_decide (changed.1 = 1%nat) && changed.2 && term_on_top then paint_top cx cy
   else if decide (0 < changed.1)%nat then paint_all screen_w screen_h cx cy
   else if blink_changed && term_on_top then paint_top cx cy
   else if mouse_changed then
     let! _ := on_gfx (restore (n_saver (c_seen c))) in show_cursor cx cy
   else sret tt) c.

(** ** Rounds *)

(** Where in a round the other tasks run. *)
Inductive place : Type := BeforeNew | BeforeDestroyed | BeforeMouse | BeforeFocus | BeforeInput | BeforePaint | Asleep.
Definition pause (others : place → outside → outside) (p : place) : comp unit := smodify (λ c, set_out (others p (c_out c)) c).

Definition queue_fuel (q : Wm.wm → list Z) : comp nat := sget (λ c, S (length (q (o_wm (c_out c))))).
(** [gui.rs:562-811, !compositor_task: the loop, once the mouse has been read]; the fuel of the two loops over queues is their
    length, that of the keys the size of the buffer. *)
Definition sections (others : place → outside → outside) (m : Mouse.MouseState) (mouse_changed : bool) (screen_w screen_h : Z) : comp unit :=
  let! _ := pause others BeforeNew in
  let! fuel := queue_fuel Wm.news in
  let! _ := take_new fuel screen_w screen_h in
  let! _ := pause others BeforeDestroyed in
  let! fuel := queue_fuel Wm.gones in
  let! _ := take_destroyed fuel in
  let! _ := note_commits in
  let! _ := pause others BeforeMouse in
  let! _ := if mouse_changed then handle_mouse screen_w screen_h m else sret tt in
  let! _ := pause others BeforeFocus in
  let! _ := sync_terminal in
  let! foc := sget (λ c, foc_term (c_scene c)) in
  let! _ := sync_client in
  let! _ := pause others BeforeInput in
  let! _ := route_input (S CAP) m mouse_changed in
  let! _ := pause others BeforePaint in
  let! changed := note_terminals foc in
  let! blink_changed := note_blink in
  let! _ := repaint screen_w screen_h (Mouse.x m) (Mouse.y m) mouse_changed blink_changed changed in
  pause others Asleep.
(** [gui.rs:550-812, !compositor_task: the loop] *)
Definition round (others : place → outside → outside) (screen_w screen_h : Z) : comp unit :=
  let! m := sget (λ c, Mouse.state (o_mouse (c_out c))) in
  let! last := sget (λ c, n_mouse_seq (c_seen c)) in
  let! _ := on_seen (λ n, Seen (Mouse.seq m) (n_seqs n) (n_wm_dirty n) (n_saver n) (n_frame n) (n_blink n)) in
  let! _ := on_scene (set_dirty false) in
  sections others m (negb (Mouse.seq m =? last)) screen_w screen_h.

(** [gui.rs:446-460, !compositor_task]: the screen is taken over, once there is one. *)
Definition take_screen : comp (Z * Z) :=
  let! up := sget (λ c, Framebuffer.is_active (o_gfx (c_out c))) in
  if negb up then slift Diverge else
  let! _ := on_gfx (smodify (Framebuffer.suspend_console true)) in
  let! screen_w := sget (λ c, i32 (Framebuffer.screen_width (o_gfx (c_out c)))) in
  let! screen_h := sget (λ c, i32 (Framebuffer.screen_height (o_gfx (c_out c)))) in
  let! _ := smodify (λ c, let o := c_out c in
    set_out (Out (o_gfx o) (o_terms o) (o_wm o) (o_keys o) (Mouse.set_bounds_and_center screen_w screen_h (o_mouse o)) (o_tasks o)) c) in
  sret (screen_w, screen_h).
(** [gui.rs:464-482, !compositor_task: the first windows] *)
Definition welcome : Window := new 40 120 330 180 (str "Welcome") [
  str "Welcome to the PICKLE OS desktop!"; []; str "This window manager runs as a kernel"; str "task and composites directly to the";
  str "linear framebuffer."; []; str "Drag a title bar to move a window."; str "Click a window to focus it; [x] closes.";
  str "Hit [+ Terminal] for another shell."] C_ACCENT.
(** [gui.rs:483-498, !compositor_task] *)
Definition system : Window := new 880 130 320 160 (str "System") (str <$> [
  "kernel   : PICKLE OS v0.1.0"; "arch     : x86_64 (long mode)"; "bootinfo : bootloader 0.11"; "display  : linear framebuffer";
  "input    : PS/2 mouse (IRQ12)"; "          + PS/2 keyboard (IRQ1)"]%string) 0x6CB02A.
(** [gui.rs:503-503, !compositor_task] *)
Definition terminal_window (id : Z) : Window := new_terminal 300 150 (str "Terminal - pickleos shell") 0xB0742A id.
(** [gui.rs:510-528, !compositor_task: what the loop starts from] *)
Definition start_scene (primary : Z) : scene :=
  Scene [welcome; system; terminal_window primary] 2 None false None false false.
(** [gui.rs:514-533, !compositor_task] *)
Definition start_seen (o : outside) : seen :=
  Seen u64_max ((λ id, Terminal.seq_of (Z.of_nat id) (o_terms o)) <$> seq 0 Terminal.MAX_TERMS) (Wm.m_dirty (o_wm o)) saver_new 0 true.
(** [gui.rs:446-548, !compositor_task: up to the loop] *)
Definition start : comp (Z * Z) :=
  let! screen := take_screen in
  let! slot := on_terms Terminal.alloc_terminal in
  let primary := Z.of_nat (default 0%nat slot) in
  let! _ := on_scene (λ _, start_scene primary) in
  let! _ := on_terms (just (Terminal.request_shell primary)) in
  let! _ := on_terms (just (Terminal.set_active true)) in
  let! _ := on_terms (just (Terminal.set_focus primary)) in
  let! _ := smodify (λ c, Comp (c_scene c) (start_seen (c_out c)) (c_out c)) in
  let! m := sget (λ c, Mouse.state (o_mouse (c_out c))) in
  let! _ := paint_all screen.1 screen.2 (Mouse.x m) (Mouse.y m) in
  sret screen.
(** [l] is what the others do in one round after the other. *)
Fixpoint rounds (l : list (place → outside → outside)) (screen_w screen_h : Z) : comp unit :=
  match l with
  | [] => sret tt
  | others :: l => let! _ := round others screen_w screen_h in rounds l screen_w screen_h
  end.
(** [gui.rs:446-813, compositor_task], as far as [l] goes. *)
Definition compositor_task (l : list (place → outside → outside)) : comp unit :=
  let! screen := start in rounds l screen.1 screen.2.
End compositor.

(** ** The demo client *)

(** [gui.rs:821-824, !wm_selftest_task] *)
Definition wm_selftest_task (me : Z) (s : Wm.wm) : Wm.wm := (Wm.wm_selftest me s).2.
Definition CW : Z := 160.
Definition CH : Z := 120.
(** [gui.rs:832-839, !client_demo_task: the window] *)
Definition demo_create (me : Z) (s : Wm.wm) : option Z * Wm.wm := Wm.create_window me CW CH (str "demo client") s.
(** [gui.rs:857-865, !client_demo_task: the gradient] *)
Definition demo_pixels (t : Z) : list Z :=
  y ← seqZ 0 CH; x ← seqZ 0 CW;
  let r := Z.land (x + t) 0xFF in
  let g := Z.land (y + t / 2) 0xFF in
  let b := Z.land (x + y) 0xFF in
  [Z.lor (Z.lor (Z.shiftl r 16) (Z.shiftl g 8)) b].
(** [gui.rs:868-889, !client_demo_task: the events]: whether the client goes on. *)
Fixpoint demo_drain (fuel : nat) (id : Z) (s : Wm.wm) : outcome Empty_set bool * Wm.wm :=
  match fuel with
  | O => (Diverge, s)
  | S fuel =>
      let '(ev, s) := Wm.poll_event id s in
      match ev with
      | None => (Ok true, s)
      | Some ev => if Wm.ev_kind ev =? Wm.EV_CLOSE then (Ok false, (Wm.destroy_window id s).2) else demo_drain fuel id s
      end
  end.
(** [gui.rs:850-866, !client_demo_task: one round]: whether the client goes on; it ends with status 0. *)
Definition demo_round (id t : Z) (s : Wm.wm) : outcome Empty_set bool * Wm.wm :=
  if negb (Wm.exists_window id s) then (Ok false, s) else
  demo_drain (S Wm.EVENT_QUEUE_CAP) id (Wm.commit id (demo_pixels t) s).2.
End Compositor.
