(* ===== verification/CompositorProps.v ===== *)
(** * The compositor's desktop

    The screen agrees with the window server, the frames are where they can be seen and
    drawn, the topmost window has the focus and gets the keys - whatever clients, keyboard and mouse
    do between the sections of a round. *)

From S2P Require Import Prelude Canvas Vfs Utf8 Signal Task ConsoleIn Ps2 Framebuffer FramebufferProps FramebufferText Terminal Wm Compositor.
Import Compositor.

(** ** Painting never fails *)

Section painting.
Context (i : Framebuffer.info) (Hi : info_ok i) `{FontLaws}.

Abbreviation draws f := (∃ a, FramebufferProps.draws i f a).

Lemma paint_nothing : draws (sret tt).
Proof. eexists. apply draws_nothing. Qed.
Lemma paint_then f g : draws f → draws g → draws (let! _ := f in g).
Proof. intros [a Ha] [b Hb]. eexists. by apply draws_then. Qed.
Lemma paint_for {A} (l : list A) f : (∀ k, k ∈ l → draws (f k)) → draws (sfor l f).
Proof.
  induction l as [|k l IH]; intros Hf; [apply paint_nothing|]. cbn [sfor]. apply paint_then; [apply Hf; left|]. apply IH. intros j Hj. apply Hf. by right.
Qed.
Lemma paint_if (b : bool) f g : (b = true → draws f) → (b = false → draws g) → draws (if b then f else g).
Proof. destruct b; auto. Qed.
Lemma usize_pos v : 0 ≤ usize v.
Proof. apply wrap_bounds. lia. Qed.
Lemma paint_rect px py rw rh c : 0 ≤ px → 0 ≤ py → draws (Framebuffer.fill_rect px py rw rh c).
Proof using Hi. intros. eexists. by apply draws_rect. Qed.
Lemma paint_outline px py rw rh c : 0 ≤ px → 0 ≤ py → draws (Framebuffer.draw_rect_outline px py rw rh c).
Proof using Hi. intros. by apply draws_outline. Qed.
Lemma paint_text s px py c : draws (Framebuffer.draw_string_fg s px py c).
Proof using All. by apply draws_string_fg. Qed.
Lemma paint_glyph ch px py c : draws (Framebuffer.draw_glyph_fg ch px py c).
Proof using All. eexists. by apply draws_glyph_fg. Qed.
Lemma paint_pixel px py c : draws (Framebuffer.put_pixel (usize px) (usize py) c).
Proof using Hi. eexists. apply draws_pixel; [done|apply usize_pos..]. Qed.

Ltac paint := repeat first [apply paint_then | apply paint_nothing | apply paint_text | apply paint_glyph | apply paint_pixel
  | apply paint_rect; [apply usize_pos || lia|apply usize_pos || lia] | apply paint_outline; [apply usize_pos || lia|apply usize_pos || lia]].

(** The pixels of a program's window are all there. *)
Lemma paint_client s u : Wm.wm_ok s → draws (draw_client s u).
Proof using Hi.
  intros Hs. unfold draw_client, client_area, Wm.with_pixels.
  destruct (Wm.windows s !! client_id u) as [win|] eqn:Hw; cbn [fmap option_fmap option_map]; [|apply paint_nothing].
  destruct (Wm.mo_windows _ Hs _ _ Hw) as [_ _ [Hww Hwh] Hp _].
  apply paint_for. intros row Hrow%elem_of_seqZ. destruct (_ <? 0); [apply paint_nothing|].
  apply paint_for. intros c Hc%elem_of_seqZ.
  destruct (lookup_lt_is_Some_2 (Wm.w_pixels win) (Z.to_nat (row * Wm.w_w win + c))) as [px Hpx]; [nia|].
  rewrite Hpx. apply (paint_pixel _ _ px).
Qed.

Lemma copied_grid id p : Terminal.pool_ok p → length (Terminal.copy_grid id p).1 = Terminal.ROWS ∧
  Forall (λ r, length r = Terminal.COLS) (Terminal.copy_grid id p).1.
Proof.
  intros [_ Hp]. unfold Terminal.copy_grid. destruct (Terminal.term_at id p) as [t|] eqn:Ht; [|apply Terminal.blank_grid_ok].
  assert (Terminal.term_ok t) as Hok.
  { unfold Terminal.term_at in Ht. destruct (0 <=? id); [|done]. by eapply Forall_lookup_1 in Hp. }
  rewrite Terminal.shown_window by done. destruct Hok. split.
  - rewrite length_take, length_drop, length_app. lia.
  - apply Forall_take, Forall_drop, Forall_app. done.
Qed.
Lemma paint_terminal p u active blink : Terminal.pool_ok p → draws (draw_terminal p u active blink).
Proof using All.
  intros Hp. unfold draw_terminal. destruct (copied_grid (term_id u) p Hp) as [Hr Hc].
  destruct (Terminal.copy_grid (term_id u) p) as [grid cur]. cbn [fst] in Hr, Hc. apply paint_then.
  - apply paint_for. intros r _. apply paint_for. intros c _. destruct (visible_char _); [apply paint_glyph|apply paint_nothing].
  - destruct cur as [[cc cr]|]; [|apply paint_nothing].
    destruct (_ && _ && bool_decide (cr < Terminal.ROWS)%nat && bool_decide (cc < Terminal.COLS)%nat) eqn:Hb; [|apply paint_nothing].
    rewrite !andb_true_iff, !bool_decide_eq_true in Hb. destruct Hb as [[_ Hcr] Hcc].
    apply paint_then; [paint|]. destruct (lookup_lt_is_Some_2 grid cr) as [row Hrow]; [lia|].
    destruct (lookup_lt_is_Some_2 row cc) as [c Hcell]; [by rewrite (Forall_lookup_1 _ _ _ _ Hc Hrow)|].
    rewrite Hrow. cbn [mbind option_bind]. rewrite Hcell. apply (paint_if (visible_char (Terminal.ch c))); intros _; paint.
Qed.
Lemma paint_lines ls px ty : draws (draw_lines ls px ty).
Proof using All. revert ty. induction ls as [|l ls IH]; intros ty; cbn [draw_lines]; paint. apply IH. Qed.
Lemma paint_window p s active blink u : Terminal.pool_ok p → Wm.wm_ok s → draws (draw p s active blink u).
Proof using All.
  intros Hp Hs. unfold draw, close_rect. paint. destruct (kind u); [apply paint_lines|by apply paint_terminal|by apply paint_client].
Qed.
Lemma paint_buttons tb f ws bx : 0 ≤ bx → draws (draw_buttons tb f ws bx).
Proof using All. revert bx. induction ws as [|[k u] ws IH]; intros bx Hbx; cbn [draw_buttons]; paint. apply IH, usize_pos. Qed.
Lemma paint_desktop p s sw sh ws f blink : Terminal.pool_ok p → Wm.wm_ok s → draws (draw_desktop p s sw sh ws f blink).
Proof using All.
  intros Hp Hs. unfold draw_desktop. apply paint_then; [eexists; by apply draws_clear|].
  apply paint_then; [by apply draws_string_scaled|]. unfold NEWTERM_X, NEWTERM_W. paint; [by apply paint_buttons|].
  apply paint_for. intros [k u] _. by apply paint_window.
Qed.
Lemma paint_restore v : draws (restore v).
Proof using Hi.
  unfold restore. destruct (negb _); [apply paint_nothing|]. apply paint_for. intros [[px py] c] _. destruct (at_spot _); paint.
Qed.
Lemma paint_cursor px py : draws (draw_cursor px py).
Proof using Hi.
  apply paint_for. intros [[qx qy] c] _. repeat case_match; paint.
Qed.
Lemma saves px py g : length (Framebuffer.encode (Framebuffer.format i) 0) = 3%nat → gfx_ok i g → ∃ v, save px py g = (Ok v, g).
Proof using Hi.
  intros Hl Hg. assert (∀ l, ∃ ps, collect l (λ p,
    if at_spot p then Framebuffer.read_pixel (usize p.1) (usize p.2) else sret Framebuffer.BLACK) g = (Ok ps, g)) as Hc.
  { induction l as [|p l [ps IH]]; [by eexists|]. cbn [collect]. destruct (at_spot p).
    - destruct (read_ok i Hi (usize p.1) (usize p.2) g Hg) as [c Hr]; [apply usize_pos..|done|]. rewrite (sbind_Ok _ _ _ _ _ Hr), (sbind_Ok _ _ _ _ _ IH). by eexists.
    - unfold sbind, sret in *. rewrite IH. by eexists. }
  destruct (Hc (cursor_spots px py)) as [ps Hps]. unfold save. rewrite (sbind_Ok _ _ _ _ _ Hps). by eexists.
Qed.
End painting.

(** ** The frames and the window server *)

(** The programs' windows among the frames. *)
Definition client_ids (ws : list Window) : list Z := client_id <$> filter (λ u, kind u = Client) ws.
Definition live (s : Wm.wm) (id : Z) : Prop := is_Some (Wm.windows s !! id).
(** Every window has one frame or is announced, every frame has its window or the end of
    it is announced; [nw] and [gn] have been taken from the announcements. *)
Record agree (nw gn : list Z) (s : Wm.wm) (ids : list Z) : Prop := {
  ag_once : NoDup (nw ++ Wm.news s ++ ids);
  ag_old id : id ∈ nw ++ Wm.news s ++ ids → id < Wm.m_next s;
  ag_live id : live s id → id ∈ nw ++ Wm.news s ++ ids;
  ag_gone id : id ∈ ids → live s id ∨ id ∈ gn ++ Wm.gones s;
  ag_dead id : id ∈ gn ++ Wm.gones s → ¬ live s id ∧ id < Wm.m_next s;
}.

Lemma agree_perm nw gn s ids ids' : ids ≡ₚ ids' → agree nw gn s ids → agree nw gn s ids'.
Proof.
  intros Hp [H1 H2 H3 H4 H5]. split; [by rewrite <-Hp|intros id; rewrite <-Hp; apply H2|intros id Hid; rewrite <-Hp; by apply H3| |done].
  intros id. rewrite <-Hp. apply H4.
Qed.
(** Calls of the window server, and what is taken from its queues. *)
Lemma agree_notified nw gn s ids nw' gn' s' n d : Wm.notified s (nw', gn') s' n d → agree nw gn s ids → agree (nw ++ nw') (gn ++ gn') s' ids.
Proof.
  intros [N1 N2 N3 N4 N5 N6 N7] [H1 H2 H3 H4 H5]. cbn [fst snd] in N3, N4.
  assert (∀ id, id ∈ (nw ++ nw') ++ Wm.news s' ++ ids ↔ id ∈ nw ++ Wm.news s ++ ids ∨ Wm.m_next s ≤ id < Wm.m_next s') as Hin.
  { intros id. rewrite <-app_assoc, (app_assoc nw'), N3, !elem_of_app, elem_of_seqZ, N1. tauto. }
  split.
  - rewrite <-app_assoc, (app_assoc nw'), N3, <-app_assoc.
    assert (nw ++ Wm.news s ++ seqZ (Wm.m_next s) n ++ ids ≡ₚ (nw ++ Wm.news s ++ ids) ++ seqZ (Wm.m_next s) n) as -> by solve_Permutation.
    apply NoDup_app. split; [done|]. split; [|apply NoDup_seqZ]. intros id Hid%H2 Hs%elem_of_seqZ. lia.
  - intros id [Hid%H2|]%Hin; lia.
  - intros id [[Hl|Hl] _]%N7; apply Hin; [left; by apply H3|by right].
  - intros id Hid. rewrite <-app_assoc, N4, !elem_of_app. destruct (decide (id ∈ d)) as [|Hd]; [tauto|].
    destruct (H4 id Hid) as [Hl|[|]%elem_of_app]; [|tauto..]. left. apply N7. split; [by left|done].
  - intros id. rewrite <-app_assoc, N4, app_assoc, elem_of_app. intros [Hid|Hid].
    + destruct (H5 id Hid) as [Hl Ho]. split; [|lia]. intros [[?|?] _]%N7; [done|lia].
    + split; [by intros [_ ?]%N7|]. destruct (N6 id Hid) as [Hl|]; [|lia]. specialize (H2 id (H3 id Hl)). lia.
Qed.
Lemma agree_frame id s ids : live s id → agree [id] [] s ids → agree [] [] s (ids ++ [id]).
Proof.
  intros Hl [H1 H2 H3 H4 H5]. assert (Wm.news s ++ ids ++ [id] ≡ₚ [id] ++ Wm.news s ++ ids) as Hp by solve_Permutation.
  split; cbn [app]; [by rewrite Hp|intros j; rewrite Hp; apply H2|intros j; rewrite Hp; apply H3| |done].
  intros j [Hj|Hj%list_elem_of_singleton]%elem_of_app; [by apply H4|left; by subst].
Qed.
Lemma agree_skip id s ids : ¬ live s id → agree [id] [] s ids → agree [] [] s ids.
Proof.
  intros Hl [H1 H2 H3 H4 H5]. split; [by apply NoDup_cons in H1 as [_ ?]|intros j Hj; apply H2; by right| |done|done].
  intros j Hj. pose proof (H3 j Hj) as [->|]%elem_of_cons; done.
Qed.
Lemma agree_drop gn id s ids ids' : ¬ live s id → ids ≡ₚ id :: ids' → agree [] gn s ids → agree [] gn s ids'.
Proof.
  intros Hl Hp Ha%(agree_perm _ _ _ _ _ Hp). destruct Ha as [H1 H2 H3 H4 H5]. cbn [app] in *.
  assert (Wm.news s ++ id :: ids' ≡ₚ id :: Wm.news s ++ ids') as Hq by solve_Permutation. split; cbn [app].
  - rewrite Hq in H1. by apply NoDup_cons in H1 as [_ ?].
  - intros j Hj. apply H2. rewrite Hq. by right.
  - intros j Hj. specialize (H3 j Hj). rewrite Hq in H3. by apply elem_of_cons in H3 as [->|].
  - intros j Hj. apply H4. by right.
  - done.
Qed.
Lemma agree_forget id s ids : id ∉ ids → agree [] [id] s ids → agree [] [] s ids.
Proof.
  intros Hid [H1 H2 H3 H4 H5]. split; [done|done|done| |].
  - intros j Hj. destruct (H4 j Hj) as [|[->|]%elem_of_cons]; auto. done.
  - intros j Hj. apply H5. by right.
Qed.

Lemma client_ids_perm ws ws' : ws ≡ₚ ws' → client_ids ws ≡ₚ client_ids ws'.
Proof. intros Hp. unfold client_ids. by rewrite Hp. Qed.
Lemma client_ids_cons u ws : client_ids (u :: ws) = if decide (kind u = Client) then client_id u :: client_ids ws else client_ids ws.
Proof. unfold client_ids. rewrite filter_cons. by case_decide. Qed.
Lemma client_ids_app ws ws' : client_ids (ws ++ ws') = client_ids ws ++ client_ids ws'.
Proof. unfold client_ids. by rewrite filter_app, fmap_app. Qed.
Lemma frame_of_spec id ws : match frame_of id ws with
  | Some k => ∃ u, ws !! k = Some u ∧ kind u = Client ∧ client_id u = id
  | None => id ∉ client_ids ws
  end.
Proof.
  unfold frame_of. destruct (position _ ws) as [k|] eqn:Hp.
  - apply position_Some in Hp as [(u&Hu&Hb) _]. exists u. rewrite andb_true_iff, bool_decide_eq_true, Z.eqb_eq in Hb. tauto.
  - rewrite position_None in Hp. unfold client_ids. intros (u&->&[Hk Hu]%list_elem_of_filter)%list_elem_of_fmap.
    specialize (Hp u Hu). cbn in Hp. by rewrite bool_decide_true, Z.eqb_refl in Hp.
Qed.

(** ** The desktop between the sections of a round *)

Section desktop.
Context `{KD : KeyDecoder} {W : Type} `{TE : TaskEnv W} `{FontLaws}.
(** The screen: colors of three bytes, and room for a terminal above the taskbar. *)
Context (i : Framebuffer.info) (Hi : info_ok i) (Hrgb : length (Framebuffer.encode (Framebuffer.format i) 0) = 3%nat).
Abbreviation sw := (Framebuffer.width i).
Abbreviation sh := (Framebuffer.height i).
Context (Hsw : 528 ≤ sw < 2 ^ 31) (Hsh : 336 ≤ sh < 2 ^ 31).
Variable shell_task : Z.
Abbreviation comp A := (stm (@compositor KD W) bytes A).
Abbreviation state := (@compositor KD W).

(** A frame that can be dragged on this screen, and is not beyond its upper or left edge. *)
Definition frame_ok (u : Window) : Prop := 0 ≤ x u ∧ 0 ≤ y u ∧ 0 ≤ w u ≤ sw ∧ 0 ≤ h u ≤ sh - TASKBAR_H.
(** The topmost window has the focus. *)
Record scene_ok (s : scene) : Prop := {
  so_focus : s_focus s = pred (length (s_windows s));
  so_frames : Forall frame_ok (s_windows s);
}.
(** The other components are in order; a client's id is left. *)
Record out_ok (o : @outside KD W) : Prop := {
  oo_gfx : gfx_ok i (o_gfx o);
  oo_terms : Terminal.pool_ok (o_terms o);
  oo_wm : Wm.wm_ok (o_wm o);
  oo_ids : Wm.m_next (o_wm o) + 1 < 2 ^ 64;
  oo_keys : input_ok (o_keys o);
}.
Definition desktop_with (nw gn : list Z) (c : state) : Prop :=
  scene_ok (c_scene c) ∧ out_ok (c_out c) ∧ agree nw gn (o_wm (c_out c)) (client_ids (s_windows (c_scene c))).
Definition desktop_ok : state → Prop := desktop_with [] [].
(** How the compositor can end. *)
Definition held (c : state) : Prop := s_dragging (c_scene c) ≠ None ∧ s_windows (c_scene c) = [].
Definition no_shell (c : state) : Prop :=
  ∃ k, is_ok (spawn_kernel_task (str "shell") shell_task k).1 = false ∧ o_tasks (c_out c) = (spawn_kernel_task (str "shell") shell_task k).2.
Variable crashed : state → Prop.

Definition ensures {A} (P : state → Prop) (f : comp A) (Q : A → state → Prop) : Prop := ∀ c, P c →
  match f c with (Ok a, c') => Q a c' | (_, c') => crashed c' end.
Definition good {A} (f : comp A) : Prop := ensures desktop_ok f (λ _, desktop_ok).

Lemma ensures_then {A B} P Q R (f : comp A) (g : A → comp B) :
  ensures P f Q → (∀ a, ensures (Q a) (g a) R) → ensures P (let! a := f in g a) R.
Proof.
  intros Hf Hg c Hc. specialize (Hf c Hc). unfold sbind. destruct (f c) as [[a|e| |] c']; [by apply Hg|done..].
Qed.
Lemma good_then {A B} (f : comp A) (g : A → comp B) : good f → (∀ a, good (g a)) → good (let! a := f in g a).
Proof. intros Hf Hg. by apply (ensures_then _ (λ _, desktop_ok)). Qed.
Lemma ensures_ret {A} (a : A) (P : A → state → Prop) : ensures (P a) (sret a) P.
Proof. by intros c Hc. Qed.
Lemma good_ret {A} (a : A) : good (sret a).
Proof. by intros c Hc. Qed.
Lemma ensures_get {A} P (f : state → A) : ensures P (sget f) (λ a c, P c ∧ a = f c).
Proof. by intros c Hc. Qed.
Lemma good_get {A} (f : state → A) : good (sget f).
Proof. by intros c Hc. Qed.
Lemma ensures_pure {A} P (φ : Prop) (f : comp A) Q : (φ → ensures P f Q) → ensures (λ c, P c ∧ φ) f Q.
Proof. intros Hf c [Hc Hp]. by apply Hf. Qed.
Lemma good_if {A} (b : bool) (f g : comp A) : good f → good g → good (if b then f else g).
Proof. by destruct b. Qed.
Lemma good_decide {A} P `{Decision P} (f g : comp A) : good f → good g → good (if decide P then f else g).
Proof. by case_decide. Qed.

Lemma good_terms {A} (f : Terminal.pool → A * Terminal.pool) : (∀ p, Terminal.pool_ok p → Terminal.pool_ok (f p).2) → good (on_terms f).
Proof. intros Hf c (Hs&[H1 H2 H3 H4 H5]&Ha). split; [done|]. split; [|done]. split; try done. by apply Hf. Qed.
Lemma good_keys {A} (f : ConsoleInput → A * ConsoleInput) : (∀ s, input_ok s → input_ok (f s).2) → good (on_keys f).
Proof. intros Hf c (Hs&[H1 H2 H3 H4 H5]&Ha). split; [done|]. split; [|done]. split; try done. by apply Hf. Qed.
Lemma good_seen (f : seen → seen) : good (on_seen f).
Proof. by intros c Hc. Qed.
Lemma ensures_scene nw gn nw' gn' (f : scene → scene) :
  (∀ s wm, scene_ok s → agree nw gn wm (client_ids (s_windows s)) → scene_ok (f s) ∧ agree nw' gn' wm (client_ids (s_windows (f s)))) →
  ensures (desktop_with nw gn) (on_scene f) (λ _, desktop_with nw' gn').
Proof. intros Hf c (Hs&Ho&Ha). destruct (Hf _ _ Hs Ha) as [Hs' Ha']. split; [done|]. by split. Qed.
Lemma good_scene (f : scene → scene) : (∀ s, s_windows (f s) = s_windows s ∧ s_focus (f s) = s_focus s) → good (on_scene f).
Proof. intros Hf. apply ensures_scene. intros s wm [H1 H2] Ha. destruct (Hf s) as [Hw Hfo]. split; [split; by rewrite ?Hfo, Hw|by rewrite Hw]. Qed.
Lemma draws_good (f : drawing) : (∃ a, FramebufferProps.draws i f a) → good (on_gfx f).
Proof using All.
  intros [a Ha] c (Hs&[H1 H2 H3 H4 H5]&Hag). unfold on_gfx.
  destruct (draws_ok i f a (o_gfx (c_out c)) Ha H1) as (g'&->&Hg'). split; [done|]. split; [|done]. by split.
Qed.

(** ** Calls of the window server *)

Lemma ensures_wm {A} nw gn (f : Wm.wm → A * Wm.wm) rep :
  (∀ s, Wm.wm_ok s → Wm.m_next s + 1 < 2 ^ 64 → Wm.wm_ok (f s).2 ∧ ∃ d, Wm.notified s (rep (f s).1) (f s).2 0 d) →
  ensures (desktop_with nw gn) (on_wm f) (λ a, desktop_with (nw ++ (rep a).1) (gn ++ (rep a).2)).
Proof.
  intros Hf c (Hs&[H1 H2 H3 H4 H5]&Ha). destruct (Hf _ H3 H4) as [Hok [d Hd]]. split; [done|].
  split; [split; try done; cbn; by rewrite (Wm.no_next _ _ _ _ _ Hd), Z.add_0_r|]. cbn.
  destruct (rep _) as [nw' gn'] eqn:Hr. eapply agree_notified; [|done]. done.
Qed.
Lemma good_wm {A} nw gn (f : Wm.wm → A * Wm.wm) :
  (∀ s, Wm.wm_ok s → Wm.m_next s + 1 < 2 ^ 64 → Wm.wm_ok (f s).2 ∧ ∃ d, Wm.notified s ([], []) (f s).2 0 d) →
  ensures (desktop_with nw gn) (on_wm f) (λ _, desktop_with nw gn).
Proof.
  intros Hf. pose proof (ensures_wm nw gn f (λ _, ([], [])) Hf) as He. cbn [fst snd] in He. by rewrite !app_nil_r in He.
Qed.
Lemma ensures_push nw gn id ev : ensures (desktop_with nw gn) (pushes id ev) (λ _, desktop_with nw gn).
Proof.
  apply good_wm. intros s Hs Hn. split; [by apply (Wm.wm_ok_step (Wm.OPush id ev))|]. exists [].
  eapply (Wm.change_notified id _ s (Wm.change id _ s)). by left.
Qed.
Lemma ensures_position nw gn id px py : ensures (desktop_with nw gn) (on_wm (just (Wm.set_position id px py))) (λ _, desktop_with nw gn).
Proof.
  apply good_wm. intros s Hs Hn. split; [by apply (Wm.wm_ok_step (Wm.OPosition id px py))|]. exists [].
  eapply (Wm.change_notified id _ s (Wm.change id _ s)). by left.
Qed.
Lemma clamp_ok {E} v lo hi : lo ≤ hi → ∃ r, Mouse.clamp (E := E) v lo hi = Ok r ∧ lo ≤ r ≤ hi.
Proof. intros Hl. unfold Mouse.clamp. rewrite (proj2 (Z.ltb_ge _ _)) by lia. eexists. split; [done|]. lia. Qed.
Lemma small v : - 2 ^ 31 ≤ v < 2 ^ 31 → i32 v = v.
Proof. apply Mouse.signed_small. Qed.
Lemma get_then {A B} P (f : state → A) (g : A → comp B) Q : (∀ a, ensures P (g a) Q) → ensures P (let! a := sget f in g a) Q.
Proof. intros Hg c Hc. by apply Hg. Qed.
Lemma clamp_then {B} P v hi (g : Z → comp B) Q :
  0 ≤ hi → (∀ r, 0 ≤ r ≤ hi → ensures P (g r) Q) → ensures P (let! r := slift (Mouse.clamp v 0 hi) in g r) Q.
Proof.
  intros Hh Hg c Hc. destruct (clamp_ok (E := bytes) v 0 hi Hh) as (r&He&Hr). unfold sbind, slift. rewrite He. by apply Hg.
Qed.
Lemma ensures_peek {A} nw gn (f : Wm.wm → A) :
  ensures (desktop_with nw gn) (on_wm (λ s, (f s, s))) (λ a c, desktop_with nw gn c ∧ a = f (o_wm (c_out c))).
Proof. intros [sc n []] Hc. by split. Qed.

(** ** Frames come and go with their windows *)

Lemma on_top_ok u s : scene_ok s → frame_ok u → scene_ok (on_top u s).
Proof.
  intros [Hf Hw] Hu. split; cbn.
  - rewrite length_app. cbn. lia.
  - apply Forall_app. split; [done|]. by apply Forall_singleton.
Qed.
Lemma frame_new_ok id : ensures (desktop_with [id] []) (frame_new sw sh id) (λ _, desktop_ok).
Proof using All.
  unfold frame_new. eapply ensures_then; [apply ensures_peek|]. intros [[[cw ch] t]|].
  2: { intros c [(Hs&Ho&Ha) Hn]. split; [done|]. split; [done|]. eapply agree_skip; [|done].
       unfold live. unfold Wm.window_size_title in Hn. by destruct (Wm.windows _ !! id). }
  intros c [Hc Hn]. assert (live (o_wm (c_out c)) id ∧ 0 < cw ≤ Wm.MAX_W ∧ 0 < ch ≤ Wm.MAX_H) as (Hl&Hcw&Hch).
  { unfold live. unfold Wm.window_size_title in Hn. destruct (Wm.windows _ !! id) as [win|] eqn:Hw; [|done]. injection Hn as -> -> ->.
    destruct Hc as (_&[_ _ Hwm _ _]&_). by destruct (Wm.mo_windows _ Hwm _ _ Hw). }
  clear Hn. unfold Wm.MAX_W, Wm.MAX_H in *. revert c Hc Hl.
  enough (ensures (λ c, desktop_with [id] [] c ∧ live (o_wm (c_out c)) id)
    (let! n := sget (λ c, Z.of_nat (client_window_count (s_windows (c_scene c)))) in
     let! wx := slift (Mouse.clamp (i32 (360 + i32 (26 * n))) 0 (i32 (sw - Z.max (i32 cw) 1))) in
     let! wy := slift (Mouse.clamp (i32 (180 + i32 (26 * n))) 0 (i32 (Z.max (i32 (sh - TASKBAR_H)) 0 - i32 (TITLE_H + i32 ch)))) in
     let! _ := on_scene (on_top (new_client wx wy (i32 cw) (i32 ch) (decode_lossy t) 0x2A7AB0 id)) in
     let! _ := on_wm (just (Wm.set_position id wx (i32 (wy + TITLE_H)))) in
     pushes id (Wm.WmEvent Wm.EV_FOCUS 0 0 0)) (λ _, desktop_ok)) as He by (intros c Hc Hl; by apply (He c)).
  unfold TASKBAR_H, TITLE_H in *. rewrite (small cw), (small ch), (small (20 + ch)), (small (sh - 28)), (small (sw - Z.max cw 1)), (small (Z.max _ _ - _)) by lia.
  apply get_then. intros n. apply clamp_then; [lia|]. intros wx Hwx. apply clamp_then; [lia|]. intros wy Hwy.
  apply (ensures_then _ (λ _, desktop_ok)); [|intros _; eapply ensures_then; [apply ensures_position|]; intros ?; apply ensures_push].
  intros c [(Hs&Ho&Ha) Hl]. split; [|split; [done|]].
  - apply on_top_ok; [done|]. unfold frame_ok, TASKBAR_H, new_client. cbn [x y w h]. unfold TITLE_H. rewrite small by lia. lia.
  - cbn -[client_ids]. rewrite client_ids_app. by apply agree_frame.
Qed.

Lemma take_new_rep s : (Wm.news s = [] ∧ Wm.take_pending_new s = (None, (Wm.take_pending_new s).2)) ∨
  ∃ id, Wm.take_pending_new s = (Some id, (Wm.take_pending_new s).2) ∧ Wm.news s = id :: Wm.news (Wm.take_pending_new s).2.
Proof.
  unfold Wm.take_pending_new, Wm.news. destruct (Wm.m_state s) as [r|]; [|by left].
  destruct (Wm.r_new r) as [|id l] eqn:Hr; [left|right; exists id]; by cbn; rewrite Hr.
Qed.
Lemma news_change id f s : Wm.news (Wm.change id f s).2 = Wm.news s.
Proof.
  pose proof (Wm.change_notified id f s (Wm.change id f s) (or_introl eq_refl)) as Hn.
  pose proof (Wm.no_new _ _ _ _ _ Hn) as Hx. cbn [fst app] in Hx. by rewrite app_nil_r in Hx.
Qed.
Lemma frame_new_news id (c : state) : Wm.news (o_wm (c_out (frame_new sw sh id c).2)) = Wm.news (o_wm (c_out c)).
Proof.
  unfold frame_new, sbind, on_wm at 1. cbn [fst snd set_out c_out o_wm]. destruct (Wm.window_size_title id _) as [[[cw ch] t]|]; [|done].
  unfold sget, slift. destruct (Mouse.clamp _ 0 (i32 (sw - _))) as [wx| | |]; [|done..].
  destruct (Mouse.clamp _ 0 (i32 (Z.max _ _ - _))) as [wy| | |]; [|done..].
  unfold on_scene, smodify, pushes, on_wm, just, Wm.push_event, Wm.set_position. cbn [fst snd set_out c_out o_wm]. by rewrite !news_change.
Qed.
Lemma ensures_take_new nw gn : ensures (desktop_with nw gn) (on_wm Wm.take_pending_new) (λ a, desktop_with (nw ++ option_list a) (gn ++ [])).
Proof.
  apply (ensures_wm nw gn Wm.take_pending_new (λ a, (option_list a, []))). intros s Hs Hn. split; [by apply (Wm.wm_ok_step Wm.OTakeNew)|].
  exists []. apply Wm.take_notified.
Qed.
Lemma ensures_take_gone nw gn : ensures (desktop_with nw gn) (on_wm Wm.take_pending_destroy) (λ a, desktop_with (nw ++ []) (gn ++ option_list a)).
Proof.
  apply (ensures_wm nw gn Wm.take_pending_destroy (λ a, ([], option_list a))). intros s Hs Hn. split; [by apply (Wm.wm_ok_step Wm.OTakeDestroy)|].
  exists []. apply Wm.take_notified.
Qed.
Lemma take_new_ok fuel (c : state) : desktop_ok c → (length (Wm.news (o_wm (c_out c))) < fuel)%nat →
  match take_new fuel sw sh c with (Ok _, c') => desktop_ok c' | (_, c') => crashed c' end.
Proof using All.
  revert c. induction fuel as [|fuel IH]; intros c Hc Hf; [lia|]. cbn [take_new]. unfold sbind at 1.
  pose proof (ensures_take_new [] [] c Hc) as Ht. unfold on_wm in *. cbn [app] in Ht.
  destruct (take_new_rep (o_wm (c_out c))) as [[Hn Hr]|(id&Hr&Hn)]; rewrite Hr in *; cbn [fst snd option_list app] in Ht |- *; [done|].
  unfold sbind. pose proof (frame_new_ok id _ Ht) as Hok. pose proof (frame_new_news id (set_out (Out (o_gfx (c_out c)) (o_terms (c_out c)) (Wm.take_pending_new (o_wm (c_out c))).2 (o_keys (c_out c)) (o_mouse (c_out c)) (o_tasks (c_out c))) c)) as Hnew.
  destruct (frame_new sw sh id _) as [[[]| | |] c1]; try done. apply IH; [done|]. cbn in Hnew. rewrite Hnew. rewrite Hn in Hf. cbn in Hf. lia.
Qed.

Lemma unframe_ok id s wm : scene_ok s → agree [] [id] wm (client_ids (s_windows s)) →
  scene_ok (unframe id s) ∧ agree [] [] wm (client_ids (s_windows (unframe id s))).
Proof.
  intros [Hf Hw] Ha. unfold unframe. pose proof (frame_of_spec id (s_windows s)) as Hs. destruct (frame_of id (s_windows s)) as [k|].
  2: { split; [done|]. by eapply agree_forget. }
  destruct Hs as (u&Hu&Hk&Hid). pose proof (delete_Permutation _ _ _ Hu) as Hp. set (ws := delete k (s_windows s)) in *.
  assert (s_windows (forget_client id (set_focus (pred (length ws)) (set_windows ws s))) = ws) as Hws by (unfold forget_client; by case_decide).
  split; [split|].
  - unfold forget_client. by case_decide.
  - cbn [set_dirty s_windows]. rewrite Hws. rewrite Hp in Hw. by apply Forall_cons in Hw as [_ ?].
  - cbn [set_dirty s_windows]. rewrite Hws. apply client_ids_perm in Hp. rewrite client_ids_cons, decide_True, Hid in Hp by done.
    apply (agree_forget id).
    + destruct Ha as [Hnd _ _ _ _]. cbn [app] in Hnd. apply NoDup_app in Hnd as (_&_&Hnd). rewrite Hp in Hnd. by apply NoDup_cons in Hnd as [? _].
    + eapply agree_drop; [|done|done]. apply Ha. by left.
Qed.
Lemma take_destroyed_ok fuel (c : state) : desktop_ok c → (length (Wm.gones (o_wm (c_out c))) < fuel)%nat →
  match take_destroyed fuel c with (Ok _, c') => desktop_ok c' | (_, c') => crashed c' end.
Proof.
  revert c. induction fuel as [|fuel IH]; intros c Hc Hf; [lia|]. cbn [take_destroyed]. unfold sbind at 1.
  pose proof (ensures_take_gone [] [] c Hc) as Ht. unfold on_wm in *. cbn [app] in Ht.
  unfold Wm.take_pending_destroy, Wm.gones in *. destruct (Wm.m_state (o_wm (c_out c))) as [r|] eqn:Hm; [|done].
  cbn [fst snd default fmap option_fmap option_map] in Hf, Ht |- *. destruct (Wm.r_destroy r) as [|id l] eqn:Hr; cbn [head tail option_list app] in Ht |- *; [done|].
  apply IH.
  - destruct Ht as (Hs&Ho&Ha). destruct (unframe_ok id _ _ Hs Ha). split; [done|]. by split.
  - cbn in *. lia.
Qed.

(** ** The mouse *)

Lemma good_note_commits : good note_commits.
Proof.
  apply get_then. intros cur. apply get_then. intros old. apply good_if; [apply good_ret|].
  apply good_then; [apply good_seen|]. intros _. by apply good_scene.
Qed.

Lemma client_ids_insert ws k u u' : ws !! k = Some u → kind u' = kind u → client_id u' = client_id u → client_ids (<[k := u']> ws) = client_ids ws.
Proof.
  revert k. induction ws as [|v ws IH]; intros [|k]; cbn [lookup list_lookup insert list_insert]; try done.
  - intros [= ->] Hk Hid. rewrite !client_ids_cons, Hk, Hid. done.
  - intros Hu Hk Hid. by rewrite !client_ids_cons, IH.
Qed.
Definition dragged (c : state) : Prop := desktop_ok c ∧ s_dragging (c_scene c) ≠ None.
Definition on_top_is (φ : Window → Prop) (c : state) : Prop := ∀ u, last (s_windows (c_scene c)) = Some u → φ u.
(** One coordinate of the dragged window. *)
Lemma ensures_last (φ : Window → Prop) v (hi : Window → Z) (g : Z → Window → Window) :
  (∀ c, held c → crashed c) → (∀ u, frame_ok u → φ u → 0 ≤ hi u ∧ ∀ r, 0 ≤ r ≤ hi u → frame_ok (g r u) ∧ kind (g r u) = kind u ∧ client_id (g r u) = client_id u) →
  ensures (λ c, dragged c ∧ on_top_is φ c) (on_last (λ u, let! r := slift (Mouse.clamp (v u) 0 (hi u)) in sret (g r u)))
    (λ u c, dragged c ∧ on_top_is (eq u) c ∧ frame_ok u).
Proof.
  intros Hcr Hg c [[((Hf&Hw)&Ho&Ha) Hd] Hφ]. unfold on_last. destruct (last (s_windows (c_scene c))) as [u|] eqn:Hl.
  2: { apply Hcr. split; [done|]. by apply last_None. }
  rewrite last_lookup in Hl. pose proof (Forall_lookup_1 _ _ _ _ Hw Hl) as Hu.
  destruct (Hg u Hu (Hφ u ltac:(by rewrite last_lookup))) as [Hhi Hr]. destruct (clamp_ok (E := bytes) (v u) 0 (hi u) Hhi) as (r&Hc&Hb).
  destruct (Hr r Hb) as (Hok&Hk&Hid). unfold sbind at 1, sbind at 1, slift. rewrite Hc.
  set (k := pred (length (s_windows (c_scene c)))) in *. pose proof (lookup_lt_Some _ _ _ Hl) as Hlt.
  split; [split|split]; [|done| |done].
  - split; [|split; [done|]].
    + split; cbn; [by rewrite length_insert|]. by apply Forall_insert.
    + cbn -[client_ids]. by erewrite client_ids_insert.
  - intros u'. cbn. rewrite last_lookup, length_insert. fold k. rewrite list_lookup_insert_eq by done. by intros [= ->].
Qed.
Lemma drag_ok cx cy ox oy : (∀ c, held c → crashed c) → ensures dragged (drag sw sh cx cy ox oy) (λ _, desktop_ok).
Proof.
  intros Hcr. unfold drag. eapply (ensures_then _ (λ u c, dragged c ∧ on_top_is (eq u) c ∧ frame_ok u)).
  { intros c Hc. apply (ensures_last (λ _, True) (λ _, i32 (cx - ox)) (λ u, i32 (sw - w u)) set_x); [done| |by split].
    intros u (Hx&Hy&Hw&Hh) _. unfold TASKBAR_H in *. rewrite small by lia. split; [lia|]. intros r Hr. split; [|done]. unfold frame_ok, TASKBAR_H. cbn. lia. }
  intros win. intros c (Hd&Ht&(Hx&Hy&Hw&Hh)). revert c Hd Ht. unfold TASKBAR_H in *.
  rewrite (small (sh - 28)), (small (Z.max _ _ - _)) by lia.
  match goal with |- ∀ c, dragged c → _ → match ?f c with _ => _ end =>
    enough (ensures (λ c, dragged c ∧ on_top_is (eq win) c) f (λ _, desktop_ok)) as He by (intros c Hd Ht; by apply (He c)) end.
  eapply (ensures_then _ (λ u c, dragged c ∧ on_top_is (eq u) c ∧ frame_ok u)).
  { apply (ensures_last (eq win) (λ _, i32 (cy - oy)) (λ _, Z.max (sh - 28) 0 - h win) set_y); [done|].
    intros u (Hx'&Hy'&Hw'&Hh') <-. unfold TASKBAR_H in *. split; [lia|]. intros r Hr. split; [|done]. unfold frame_ok, TASKBAR_H. cbn. lia. }
  intros u. intros c ([Hd _]&_). revert c Hd. apply good_then; [|intros _; by apply good_scene].
  case_decide; [apply ensures_position|apply good_ret].
Qed.

Lemma alloc_ok p : Terminal.pool_ok p → Terminal.pool_ok (Terminal.alloc_terminal p).2.
Proof.
  intros Hp. unfold Terminal.alloc_terminal. destruct (position _ _); [|done]. cbn. apply Terminal.bump_ok, Terminal.on_term_ok; [done|].
  intros t Ht. apply Terminal.reset_ok.
Qed.
Lemma free_ok id p : Terminal.pool_ok p → Terminal.pool_ok (Terminal.free_terminal id p).
Proof.
  intros Hp. unfold Terminal.free_terminal. destruct (_ <=? _); [done|]. apply Terminal.bump_ok, Terminal.on_term_ok; [done|].
  intros t Ht. apply Terminal.reset_ok.
Qed.
Lemma terminal_frame_ok px py t a id : 0 ≤ px → 0 ≤ py → frame_ok (new_terminal px py t a id).
Proof. intros Hx Hy. unfold frame_ok, new_terminal, TERM_CHAR_W, TERM_PAD_X, TITLE_H, TERM_PAD_Y, TERM_LINE_H, TASKBAR_H, Terminal.COLS, Terminal.ROWS. cbn [x y w h]. lia. Qed.
Lemma spawn_ok : (∀ c, no_shell c → crashed c) → good (on_tasks (spawn_kernel_task (str "shell") shell_task)).
Proof.
  intros Hcr c (Hs&[H1 H2 H3 H4 H5]&Ha). unfold on_tasks.
  destruct (spawn_kernel_task (str "shell") shell_task (o_tasks (c_out c))) as [r k'] eqn:Hr. cbn [fst snd].
  destruct r as [id|e| |]; [split; [done|]; by split|apply Hcr; exists (o_tasks (c_out c)); rewrite Hr; by split..].
Qed.
Lemma open_terminal_ok : (∀ c, no_shell c → crashed c) → good (open_terminal shell_task sw sh).
Proof.
  intros Hcr. apply good_then; [apply good_terms, alloc_ok|]. intros [id|]; [|apply good_ret]. apply get_then. intros n.
  rewrite (small (sw - 200)), (small (sh - 120)) by lia.
  apply clamp_then; [lia|]. intros wx Hx. apply clamp_then; [lia|]. intros wy Hy.
  apply good_then; [|intros _; apply good_then; [apply good_terms; intros p []; by split|intros _]; apply good_then; [by apply spawn_ok|intros ?; apply good_ret]].
  apply ensures_scene. intros s wm Hs Ha. split; [apply on_top_ok; [done|apply terminal_frame_ok; lia]|].
  cbn -[client_ids]. by rewrite client_ids_app, app_nil_r.
Qed.

Lemma hit_test_lt px py n ws k : hit_test px py n ws = Some k → (k < n)%nat ∧ is_Some (ws !! k).
Proof.
  induction n as [|n IH]; [done|]. cbn [hit_test]. destruct (ws !! n) as [u|] eqn:Hu; [destruct (point_in_window px py u)|].
  - intros [= <-]. split; [lia|by eexists].
  - intros Hk. destruct (IH Hk). split; [lia|done].
  - intros Hk. destruct (IH Hk). split; [lia|done].
Qed.
(** A call elsewhere leaves the scene alone. *)
Definition in_scene (sc : scene) (c : state) : Prop := c_scene c = sc.
Lemma destroy_dead id s : ¬ live (Wm.destroy_window id s).2 id.
Proof.
  unfold live, Wm.destroy_window, Wm.windows. destruct (Wm.m_state s) as [r|] eqn:Hm; cbn; [|rewrite Hm; intros [? Hx]; by rewrite lookup_empty in Hx].
  destruct (Wm.r_windows r !! id) eqn:Hw; cbn; [rewrite lookup_delete_eq|rewrite Hm, Hw]; by intros [].
Qed.
Lemma close_scene_ok k u s wm : s_windows s !! k = Some u → scene_ok s → agree [] [] wm (client_ids (s_windows s)) →
  (kind u = Client → ¬ live wm (client_id u)) →
  let ws := delete k (s_windows s) in
  scene_ok (set_dirty true (set_focus (if decide (k = s_focus s) then pred (length ws)
                 else if decide (k ≤ s_focus s)%nat then pred (s_focus s) else s_focus s) (set_windows ws s))) ∧
  agree [] [] wm (client_ids ws).
Proof.
  intros Hu [Hf Hw] Ha Hl ws. pose proof (delete_Permutation _ _ _ Hu) as Hp. fold ws in Hp.
  pose proof (lookup_lt_Some _ _ _ Hu) as Hlt. pose proof (Permutation_length Hp) as Hlen. cbn in Hlen. split; [split; cbn|].
  - rewrite Hf in *. repeat case_decide; lia.
  - rewrite Hp in Hw. by apply Forall_cons in Hw as [_ ?].
  - apply client_ids_perm in Hp. rewrite client_ids_cons in Hp. case_decide as Hk.
    + eapply agree_drop; [by apply Hl|done|done].
    + by eapply agree_perm.
Qed.
Lemma close_ok k u : ensures (λ c, desktop_ok c ∧ s_windows (c_scene c) !! k = Some u) (close k u) (λ _, desktop_ok).
Proof.
  unfold close. apply (ensures_then _ (λ _ c, (desktop_ok c ∧ s_windows (c_scene c) !! k = Some u) ∧ (kind u = Client → ¬ live (o_wm (c_out c)) (client_id u)))).
  2: { intros _ c [[(Hs&Ho&Ha) Hu] Hl]. unfold on_scene, smodify. destruct (close_scene_ok k u _ _ Hu Hs Ha Hl). by split. }
  intros c [Hc Hu]. destruct (kind u) eqn:Hk.
  - by split.
  - split; [split|done]; [|done]. destruct Hc as (Hs&[H1 H2 H3 H4 H5]&Ha). split; [done|]. split; [|done]. split; try done. by apply free_ok.
  - pose proof (ensures_push [] [] (client_id u) (Wm.WmEvent Wm.EV_CLOSE 0 0 0) c Hc) as H1. unfold sbind at 1.
    destruct (pushes (client_id u) _ c) as [r c1] eqn:Hr. assert (r = Ok tt ∧ c_scene c1 = c_scene c) as [-> Hsc] by (by injection Hr as <- <-).
    assert (desktop_ok (on_wm (Wm.destroy_window (client_id u)) c1).2) as H2.
    { refine (good_wm [] [] (Wm.destroy_window (client_id u)) _ c1 H1). intros s Hs Hn.
      split; [by apply (Wm.wm_ok_step (Wm.ODestroy (client_id u)))|apply Wm.destroy_notified]. }
    destruct H2 as (Hs&Ho&Ha). unfold on_wm in *. cbn -[client_ids] in *.
    assert (∀ s, s_windows (forget_client (client_id u) s) = s_windows s ∧ s_focus (forget_client (client_id u) s) = s_focus s) as Hfg
      by (intros s; unfold forget_client; by case_decide).
    destruct (Hfg (c_scene c1)) as [Hw Hfo]. split; [split|].
    + split; [split; cbn; [by rewrite Hfo, Hw; apply Hs|rewrite Hw; apply Hs]|]. split; [done|]. cbn -[client_ids]. by rewrite Hw.
    + cbn. by rewrite Hw, Hsc.
    + intros _. apply destroy_dead.
Qed.
Lemma raise_ok cx cy k u : ensures (λ c, desktop_ok c ∧ s_windows (c_scene c) !! k = Some u) (raise cx cy k u) (λ _, desktop_ok).
Proof.
  intros c [(Hs&Ho&Ha) Hu]. unfold raise, on_scene, smodify. pose proof (delete_Permutation _ _ _ Hu) as Hp.
  set (ws := delete k (s_windows (c_scene c))) in *. assert (ws ++ [u] ≡ₚ s_windows (c_scene c)) as Hq by (rewrite Hp; solve_Permutation).
  set (s1 := set_focus _ _). assert (∀ s2, s_windows s2 = s_windows s1 → s_focus s2 = s_focus s1 → desktop_ok (Comp s2 (c_seen c) (c_out c))) as He.
  { intros s2 Hw Hf. split; [split; cbn; rewrite ?Hf, Hw; cbn|split; [done|]].
    - rewrite length_app. cbn. lia.
    - rewrite Hq. apply Hs.
    - cbn -[client_ids]. rewrite Hw. cbn -[client_ids]. by apply (agree_perm _ _ _ _ _ (client_ids_perm _ _ (symmetry Hq))). }
  by destruct (point_in_title cx cy u); apply He.
Qed.
Lemma click_ok cx cy : good (click cx cy).
Proof.
  intros c Hc. unfold click, sbind at 1, sget. cbn [fst snd]. destruct (hit_test cx cy _ _) as [k|] eqn:Hh; [|done].
  apply hit_test_lt in Hh as [_ [u Hu]]. unfold sbind, slift. rewrite Hu. cbn [or_panic].
  destruct (point_in_close cx cy u); [by apply close_ok|by apply raise_ok].
Qed.
Lemma handle_mouse_ok m : (∀ c, held c ∨ no_shell c → crashed c) → good (handle_mouse shell_task sw sh m).
Proof.
  intros Hcr. unfold handle_mouse. apply get_then. intros prev c Hc. unfold sbind at 1, sget. cbn [fst snd].
  refine (ensures_then (eq c) (λ _, desktop_ok) _ _ _ _ _ c eq_refl); [|intros ?; by apply good_scene]. intros c' <-.
  destruct (s_dragging (c_scene c)) as [[ox oy]|] eqn:Hd.
  - destruct (Mouse.left m); [apply drag_ok; [auto|]; split; [done|by rewrite Hd]|by apply (good_scene (set_dragging None))].
  - destruct (_ && point_in_new_term _ _ _); [apply open_terminal_ok; auto|]. destruct (_ && _); [by apply click_ok|done].
Qed.

(** ** Focus and keys *)

Lemma good_sync_terminal : good sync_terminal.
Proof.
  apply get_then. intros f. apply get_then. intros cur. apply good_if; [apply good_ret|].
  apply good_then; [apply good_terms; intros p []; by split|]. intros _. apply good_keys. intros s Hs. by apply flush_spec.
Qed.
Lemma good_push id ev : good (pushes id ev).
Proof. apply ensures_push. Qed.
Lemma good_flush : good (on_keys (just flush)).
Proof. apply good_keys. intros s Hs. by apply flush_spec. Qed.
Lemma good_sync_client : good sync_client.
Proof.
  apply get_then. intros top. apply get_then. intros old. apply good_decide; [apply good_ret|].
  apply good_then; [destruct old; [apply good_push|apply good_ret]|]. intros _. apply good_then; [|intros _; by apply good_scene].
  destruct top; [|apply good_ret]. apply good_then; [apply good_push|]. intros _. apply good_flush.
Qed.
Lemma send_keys_ok fuel id (c : state) : desktop_ok c → (length (contents (o_keys (c_out c))) < fuel)%nat →
  match send_keys fuel id c with (Ok _, c') => desktop_ok c' | (_, c') => crashed c' end.
Proof.
  revert c. induction fuel as [|fuel IH]; intros c Hc Hf; [lia|]. cbn [send_keys]. unfold sbind at 1, on_keys.
  pose proof Hc as (_&[_ _ _ _ Hk]&_). destruct (read_char_spec _ Hk) as (Hk'&Hh&Ht).
  destruct (read_char (o_keys (c_out c))) as [[ch|] ks] eqn:Hr; cbn [fst snd] in *.
  - unfold sbind. set (c1 := set_out _ c). assert (desktop_ok c1) as Hc1.
    { destruct Hc as (Hs&[H1 H2 H3 H4 H5]&Ha). split; [done|]. split; [|done]. by split. }
    pose proof (good_push id (Wm.WmEvent Wm.EV_KEY 0 0 ch) c1 Hc1) as Hp.
    assert (contents (o_keys (c_out (pushes id (Wm.WmEvent Wm.EV_KEY 0 0 ch) c1).2)) = tail (contents (o_keys (c_out c)))) as Hx by done.
    destruct (pushes id _ c1) as [[[]| | |] c2]; try done. apply IH; [done|]. cbn [snd] in Hx. rewrite Hx.
    destruct (contents (o_keys (c_out c))); [done|]. cbn in *. lia.
  - destruct Hc as (Hs&[H1 H2 H3 H4 H5]&Ha). split; [done|]. split; [|done]. by split.
Qed.
Lemma contents_short s : (length (contents s) < S CAP)%nat.
Proof. rewrite length_contents. unfold used. pose proof (mod_CAP (c_head s + CAP - c_tail s)). lia. Qed.
Lemma good_route m changed : good (route_input (S CAP) m changed).
Proof.
  apply get_then. intros [win|]; [|apply good_ret]. apply good_then; [intros c Hc; apply send_keys_ok; [done|apply contents_short]|]. intros _.
  apply get_then. intros prev. apply good_then; [|intros _; by apply good_scene].
  apply good_if; [|apply good_ret]. apply good_then; [apply good_push|]. intros _. repeat apply good_if; try apply good_push. apply good_ret.
Qed.

(** ** Painting, and a whole round *)

Lemma good_show cx cy : good (show_cursor cx cy).
Proof.
  apply good_then; [|intros _; apply draws_good; by apply paint_cursor].
  apply good_then; [|intros v; apply good_seen]. intros c Hc. pose proof Hc as (Hs&[H1 H2 H3 H4 H5]&Ha).
  destruct (saves i Hi cx cy (o_gfx (c_out c)) Hrgb H1) as [v Hv]. unfold on_gfx. rewrite Hv. split; [done|]. split; [|done]. by split.
Qed.
Lemma good_paint_all cx cy : good (paint_all sw sh cx cy).
Proof.
  intros c Hc. pose proof Hc as (_&Ho&_). revert c Hc Ho. intros c0 Hc0 [_ Hp Hw _ _]. apply good_then; [|intros ?; apply good_show|done].
  apply draws_good. by apply paint_desktop.
Qed.
Lemma good_paint_top cx cy (c : state) : desktop_ok c → is_Some (s_windows (c_scene c) !! s_focus (c_scene c)) →
  match paint_top cx cy c with (Ok _, c') => desktop_ok c' | (_, c') => crashed c' end.
Proof.
  intros Hc [u Hu]. unfold paint_top. rewrite Hu. pose proof Hc as (_&[_ Hp Hw _ _]&_). revert c Hc Hp Hw Hu. intros c0 Hc0 Hp Hw Hu.
  apply good_then; [|intros ?|done]; [apply draws_good; by apply paint_restore|].
  apply good_then; [apply good_ret|intros ?]. apply good_then; [|intros ?; apply good_show]. apply draws_good. by apply paint_window.
Qed.
Lemma good_repaint cx cy mc bc ch : good (repaint sw sh cx cy mc bc ch).
Proof.
  intros c Hc. unfold repaint.
  assert (bool_decide (is_Some (top_of_kind TerminalKind (c_scene c))) = true → is_Some (s_windows (c_scene c) !! s_focus (c_scene c))) as Ht.
  { rewrite bool_decide_eq_true. unfold top_of_kind. destruct (_ !! _); [by eexists|]. by intros []. }
  destruct (s_dirty _); [by apply good_paint_all|]. destruct (_ && _ && bool_decide _) eqn:H1.
  { apply good_paint_top; [done|]. apply Ht. by apply andb_true_iff in H1 as [_ ?]. }
  destruct (decide (0 < ch.1)%nat); [by apply good_paint_all|]. destruct (bc && _) eqn:H2.
  { apply good_paint_top; [done|]. apply Ht. by apply andb_true_iff in H2 as [_ ?]. }
  destruct mc; [|done]. apply good_then; [|intros ?; apply good_show|done]. apply draws_good. by apply paint_restore.
Qed.

(** What the other tasks may do: windows of programs come and go, output and keys arrive, the
    screen is left alone. *)
Record rely (o o' : @outside KD W) : Prop := {
  re_gfx : o_gfx o' = o_gfx o;
  re_terms : Terminal.pool_ok (o_terms o');
  re_wm : Wm.wm_ok (o_wm o');
  re_ids : Wm.m_next (o_wm o') + 1 < 2 ^ 64;
  re_keys : input_ok (o_keys o');
  re_notified : ∃ n d, Wm.notified (o_wm o) ([], []) (o_wm o') n d;
}.
Definition others_ok (others : place → @outside KD W → @outside KD W) : Prop := ∀ p o, out_ok o → rely o (others p o).
Lemma good_pause others p : others_ok others → good (pause others p).
Proof.
  intros Hr c (Hs&Ho&Ha). destruct (Hr p _ Ho) as [R1 R2 R3 R4 R5 (n&d&R6)]. split; [done|]. split.
  - destruct Ho. cbn. split; try done. by rewrite R1.
  - exact (agree_notified [] [] _ _ [] [] _ n d R6 Ha).
Qed.
Lemma good_sections others m changed : others_ok others → (changed = true → good (handle_mouse shell_task sw sh m)) →
  good (sections shell_task others m changed sw sh).
Proof.
  intros Hr Hm. unfold sections. pose proof (λ p, good_pause others p Hr) as Hp. apply good_then; [apply Hp|]. intros _.
  refine (ensures_then _ (λ n c, desktop_ok c ∧ n = S (length (Wm.news (o_wm (c_out c))))) _ _ _ _ _); [by intros c Hc|]. intros fuel.
  apply (ensures_then _ (λ _, desktop_ok)); [intros c [Hc ->]; apply take_new_ok; [done|lia]|]. intros _.
  apply good_then; [apply Hp|]. intros _.
  refine (ensures_then _ (λ n c, desktop_ok c ∧ n = S (length (Wm.gones (o_wm (c_out c))))) _ _ _ _ _); [by intros c Hc|]. intros fuel'.
  apply (ensures_then _ (λ _, desktop_ok)); [intros c [Hc ->]; apply take_destroyed_ok; [done|lia]|]. intros _.
  apply good_then; [apply good_note_commits|]. intros _. apply good_then; [apply Hp|]. intros _.
  apply good_then; [destruct changed; [by apply Hm|apply good_ret]|]. intros _. apply good_then; [apply Hp|]. intros _.
  apply good_then; [apply good_sync_terminal|]. intros _. apply get_then. intros foc. apply good_then; [apply good_sync_client|]. intros _.
  apply good_then; [apply Hp|]. intros _. apply good_then; [apply good_route|]. intros _. apply good_then; [apply Hp|]. intros _.
  apply good_then; [by intros c Hc|]. intros ch. apply good_then; [by intros c Hc|]. intros bl.
  apply good_then; [apply good_repaint|]. intros _. apply Hp.
Qed.
Lemma good_round others : (∀ c, held c ∨ no_shell c → crashed c) → others_ok others → good (round shell_task others sw sh).
Proof.
  intros Hcr Hr. apply get_then. intros m. apply get_then. intros old. apply good_then; [apply good_seen|]. intros _.
  apply good_then; [by apply good_scene|]. intros _. apply good_sections; [done|]. intros _. by apply handle_mouse_ok.
Qed.

(** ** From the boot on *)

(** The screen is up and no window of the registry has a frame: all of them are announced. *)
Definition unframed (c : state) : Prop := out_ok (c_out c) ∧ agree [] [] (o_wm (c_out c)) [].
Record booted (c : state) : Prop := {
  bo_ok : unframed c;
  bo_up : Framebuffer.is_active (o_gfx (c_out c)) = true;
}.
Lemma take_screen_ok : ensures booted take_screen (λ screen c, unframed c ∧ screen = (sw, sh)).
Proof.
  intros [sc n [[fb con susp] te wm ks mo ta]] [[[[(fb'&Hfb&[Hinf Hlen]) G2 G3 G4] H2 H3 H4 H5] Ha] Hup]. cbn in Hfb, Hup. subst fb.
  unfold take_screen, sbind, sget. cbn -[signed Framebuffer.is_active]. unfold Framebuffer.is_active in *. cbn in Hup |- *. rewrite Hup. cbn -[signed].
  rewrite Hinf, !small by lia. split; [|done]. split; [|done]. split; try done. cbn. split; [by exists fb'|done..].
Qed.
Lemma start_frames primary : scene_ok (start_scene primary) ∧ client_ids (s_windows (start_scene primary)) = [].
Proof.
  split; [|done]. split; [done|]. cbn [start_scene s_windows]. repeat constructor.
  1-12: unfold welcome, system, new, TASKBAR_H; cbn [x y w h]; lia.
  all: apply terminal_frame_ok; lia.
Qed.
Lemma start_ok : ensures booted start (λ screen c, desktop_ok c ∧ screen = (sw, sh)).
Proof.
  unfold start. eapply ensures_then; [apply take_screen_ok|]. intros screen. intros c [Hc ->]. revert c Hc.
  match goal with |- ∀ c, unframed c → match ?f c with _ => _ end => enough (ensures unframed f (λ screen c, desktop_ok c ∧ screen = (sw, sh))) as He
    by (intros c Hc; by apply He) end.
  apply (ensures_then _ (λ _, unframed)).
  { intros c [[H1 H2 H3 H4 H5] Ha]. split; [|done]. split; try done. by apply alloc_ok. }
  intros slot. apply (ensures_then _ (λ _, desktop_ok)).
  { intros c [Ho Ha]. destruct (start_frames (Z.of_nat (default 0%nat slot))) as [Hs Hi']. split; [done|]. split; [done|].
    change (agree [] [] (o_wm (c_out c)) (client_ids (s_windows (start_scene (Z.of_nat (default 0%nat slot)))))). by rewrite Hi'. }
  intros _. do 3 (apply (ensures_then _ (λ _, desktop_ok)); [apply good_terms; intros p []; by split|intros _]).
  apply (ensures_then _ (λ _, desktop_ok)); [by intros c Hc|]. intros _. apply get_then. intros m.
  apply (ensures_then _ (λ _, desktop_ok)); [apply good_paint_all|]. intros _ c Hc. by split.
Qed.
Lemma rounds_ok l : (∀ c, held c ∨ no_shell c → crashed c) → Forall others_ok l → good (rounds shell_task l sw sh).
Proof. intros Hcr. induction 1 as [|others l Ho _ IH]; [apply good_ret|]. apply good_then; [by apply good_round|]. by intros _. Qed.

End desktop.

(** ** A round in which nothing happens *)

Section still.
Context `{KD : KeyDecoder} {W : Type} `{TE : TaskEnv W} `{Fnt : Font}.
Abbreviation comp A := (stm (@compositor KD W) bytes A).
Abbreviation state := (@compositor KD W).

(** What the keys depend on: the stack of windows, who knows of the focus, the windows of the
    registry with its announcements, the keys typed, and who reads them. *)
Record keyboard := Keyboard {
  kb_stack : list Window * nat; kb_client : option Z; kb_windows : gmap Z Wm.window; kb_queues : list Z * list Z;
  kb_keys : list Z; kb_term : Z }.
Definition keyboard_of (c : state) : keyboard :=
  Keyboard (s_windows (c_scene c), s_focus (c_scene c)) (s_focused_client (c_scene c)) (Wm.windows (o_wm (c_out c)))
    (Wm.news (o_wm (c_out c)), Wm.gones (o_wm (c_out c))) (contents (o_keys (c_out c))) (Terminal.focus (o_terms (c_out c))).
(** A call that succeeds on this keyboard makes it [k']. *)
Definition leads {A} (k : keyboard) (f : comp A) (k' : keyboard) : Prop :=
  ∀ c a c', input_ok (o_keys (c_out c)) → keyboard_of c = k → f c = (Ok a, c') → keyboard_of c' = k' ∧ input_ok (o_keys (c_out c')).
Lemma leads_then {A B} k k1 k2 (f : comp A) (g : A → comp B) : leads k f k1 → (∀ a, leads k1 (g a) k2) → leads k (let! a := f in g a) k2.
Proof. intros Hf Hg c b c' Hi Hk (a&c1&H1&H2)%sbind_Ok_inv. destruct (Hf c a c1 Hi Hk H1) as [Hk1 Hi1]. by apply (Hg a c1 b). Qed.
Lemma leads_ret {A} k (a : A) : leads k (sret a) k.
Proof. intros c b c' Hi Hk [= <- <-]. done. Qed.
Lemma leads_get {A B} k k' (f : state → A) (g : A → comp B) : (∀ c, keyboard_of c = k → leads k (g (f c)) k') → leads k (let! a := sget f in g a) k'.
Proof. intros Hg c b c' Hi Hk Hr. by apply (Hg c Hk c b). Qed.
Lemma leads_slift {A} k (r : outcome bytes A) : leads k (slift r) k.
Proof. intros c b c' Hi Hk [= _ <-]. done. Qed.
Lemma leads_seen k f : leads k (on_seen f) k.
Proof. intros c b c' Hi Hk [= _ <-]. done. Qed.
Lemma leads_gfx {A} k (f : stm Framebuffer.gfx Empty_set A) : leads k (on_gfx f) k.
Proof. intros c b c' Hi Hk [= _ <-]. done. Qed.
Lemma leads_scene k f :
  (∀ s, s_windows (f s) = s_windows s ∧ s_focus (f s) = s_focus s ∧ s_focused_client (f s) = s_focused_client s) → leads k (on_scene f) k.
Proof.
  intros Hf c b c' Hi <- [= _ <-]. split; [|done]. unfold keyboard_of. cbn. by destruct (Hf (c_scene c)) as (->&->&->).
Qed.
Lemma leads_pause k p : leads k (pause (λ _ o, o) p) k.
Proof. intros c b c' Hi Hk [= _ <-]. by destruct c. Qed.
Lemma leads_if {A} k k' (b : bool) (f g : comp A) : leads k f k' → leads k g k' → leads k (if b then f else g) k'.
Proof. by destruct b. Qed.

(** Nothing announced, nothing taken. *)
Lemma leads_no_new k fuel sw sh : kb_queues k = ([], []) → leads k (take_new fuel sw sh) k.
Proof.
  intros Hq c b c' Hi <- Hr. destruct fuel; [done|]. cbn [take_new] in Hr. unfold sbind at 1, on_wm at 1 in Hr. cbn in Hq.
  destruct (take_new_rep (o_wm (c_out c))) as [[Hn He]|(id&_&Hn)]; [|congruence]. rewrite He in Hr. cbn in Hr. injection Hr as _ <-.
  split; [|done]. unfold keyboard_of. cbn. unfold Wm.take_pending_new, Wm.windows, Wm.news, Wm.gones in *.
  destruct (Wm.m_state (o_wm (c_out c))) as [r|] eqn:Hm; [|by cbn; rewrite ?Hm]. cbn in *. injection Hq as Hnew Hgo. by rewrite Hnew.
Qed.
Lemma leads_no_gone k fuel : kb_queues k = ([], []) → leads k (take_destroyed fuel) k.
Proof.
  intros Hq c b c' Hi <- Hr. destruct fuel; [done|]. cbn [take_destroyed] in Hr. unfold sbind at 1, on_wm at 1 in Hr. cbn in Hq.
  unfold Wm.take_pending_destroy, Wm.gones, Wm.news in *. destruct (Wm.m_state (o_wm (c_out c))) as [r|] eqn:Hm.
  2: { cbn in Hr. injection Hr as _ <-. split; [|done]. unfold keyboard_of, Wm.gones, Wm.news, Wm.windows. cbn. by rewrite Hm. }
  cbn in Hq, Hr. injection Hq as Hnew Hgo. rewrite Hgo in Hr. cbn in Hr. injection Hr as _ <-. split; [|done].
  unfold keyboard_of, Wm.gones, Wm.news, Wm.windows. cbn. rewrite Hm. cbn. by rewrite Hgo.
Qed.

(** The keys typed, in the queue of a window. *)
Definition typed (ks : list Z) (win : Wm.window) : Wm.window :=
  Wm.with_events (foldl (λ l ch, Wm.enqueue (Wm.WmEvent Wm.EV_KEY 0 0 ch) l) (Wm.w_events win) ks) win.
Definition keys_sent (id : Z) (k : keyboard) : keyboard :=
  Keyboard (kb_stack k) (kb_client k) (alter (typed (kb_keys k)) id (kb_windows k)) (kb_queues k) [] (kb_term k).
Lemma windows_push id ev s : Wm.windows (Wm.push_event id ev s) = alter (λ win, Wm.with_events (Wm.enqueue ev (Wm.w_events win)) win) id (Wm.windows s).
Proof.
  unfold Wm.push_event, Wm.change, Wm.windows. destruct (Wm.m_state s) as [r|] eqn:Hm; cbn; [|by rewrite Hm, alter_empty].
  destruct (Wm.r_windows r !! id) as [win|] eqn:Hw; cbn.
  - apply map_eq. intros j. destruct (decide (j = id)) as [->|]; [by rewrite lookup_insert_eq, lookup_alter_eq, Hw|].
    by rewrite lookup_insert_ne, lookup_alter_ne.
  - rewrite Hm. apply map_eq. intros j. destruct (decide (j = id)) as [->|]; [by rewrite lookup_alter_eq, Hw|by rewrite lookup_alter_ne].
Qed.
Lemma queues_change id f s : Wm.news (Wm.change id f s).2 = Wm.news s ∧ Wm.gones (Wm.change id f s).2 = Wm.gones s.
Proof.
  destruct (Wm.change_cases id f s) as [[_ ->]|(win&r&Hr&_&->)]; [done|]. unfold Wm.news, Wm.gones. by rewrite Hr.
Qed.
Lemma leads_send fuel id k : leads k (send_keys fuel id) (keys_sent id k).
Proof.
  revert k. induction fuel as [|fuel IH]; intros k c b c' Hi <- Hr; [done|]. cbn [send_keys] in Hr. unfold sbind at 1, on_keys at 1 in Hr.
  destruct (read_char_spec _ Hi) as (Hi'&Hh&Ht). destruct (read_char (o_keys (c_out c))) as [[ch|] ks]; cbn [fst snd] in *.
  - unfold sbind at 1, pushes, on_wm, just in Hr. cbn in Hr.
    match type of Hr with send_keys _ _ ?c1 = _ => destruct (IH (keyboard_of c1) c1 b c') as [Hk Hok]; [done..|] end.
    split; [|done]. rewrite Hk. unfold keys_sent, keyboard_of. cbn -[contents]. rewrite windows_push, Ht.
    unfold Wm.push_event. destruct (queues_change id (λ win, Wm.with_events (Wm.enqueue (Wm.WmEvent Wm.EV_KEY 0 0 ch) (Wm.w_events win)) win) (o_wm (c_out c))) as [-> ->].
    destruct (contents (o_keys (c_out c))) as [|ch' l]; [done|]. injection Hh as ->. f_equal.
    apply map_eq. intros j. destruct (decide (j = id)) as [->|]; [|by rewrite !lookup_alter_ne].
    rewrite !lookup_alter_eq. by destruct (Wm.windows _ !! id).
  - injection Hr as _ <-. split; [|done]. unfold keyboard_of, keys_sent. cbn -[contents]. rewrite Ht.
    destruct (contents (o_keys (c_out c))); [|done]. cbn -[alter]. f_equal. apply map_eq. intros j. destruct (decide (j = id)) as [->|]; [|by rewrite lookup_alter_ne].
    rewrite lookup_alter_eq. destruct (Wm.windows _ !! id) as [[]|]; done.
Qed.

Definition kb_top (k : WindowKind) (kb : keyboard) : option Window :=
  top_of_kind k (Scene (kb_stack kb).1 (kb_stack kb).2 None false None false false).
Lemma kb_top_eq c k : top_of_kind k (c_scene c) = kb_top k (keyboard_of c).
Proof. done. Qed.

(** The client on top gets the keys, if there is one. *)
Definition after_keys (k : keyboard) : keyboard := match kb_top Client k with Some u => keys_sent (client_id u) k | None => k end.
(** What has the focus knows of it, and nothing is announced. *)
Definition in_focus (k : keyboard) : Prop :=
  kb_client k = client_id <$> kb_top Client k ∧ kb_term k = from_option term_id Terminal.NO_TERM (kb_top TerminalKind k) ∧ kb_queues k = ([], []).
Lemma leads_sync_terminal k : in_focus k → leads k sync_terminal k.
Proof.
  intros (_&Ht&_). apply leads_get. intros c Hc. apply leads_get. intros c' Hc'.
  assert (foc_term (c_scene c) = Terminal.focus (o_terms (c_out c'))) as ->; [|rewrite Z.eqb_refl; apply leads_ret].
  unfold foc_term. rewrite kb_top_eq, Hc, <-Ht, <-Hc'. done.
Qed.
Lemma leads_sync_client k : in_focus k → leads k sync_client k.
Proof.
  intros (Hcl&_&_). apply leads_get. intros c Hc. apply leads_get. intros c' Hc'. rewrite decide_True; [apply leads_ret|].
  unfold top_client. rewrite kb_top_eq, Hc, <-Hcl, <-Hc'. done.
Qed.
Lemma leads_route k fuel m : leads k (route_input fuel m false) (after_keys k).
Proof.
  apply leads_get. intros c Hc. rewrite kb_top_eq, Hc. unfold after_keys. destruct (kb_top Client k) as [u|]; [|apply leads_ret].
  eapply leads_then; [apply leads_send|]. intros _. apply leads_get. intros c' _. cbn [andb].
  eapply leads_then; [apply leads_ret|]. intros _. by apply leads_scene.
Qed.
Lemma leads_show k cx cy : leads k (show_cursor cx cy) k.
Proof.
  eapply leads_then; [eapply leads_then; [apply leads_gfx|intros v; apply leads_seen]|]. intros _. apply leads_gfx.
Qed.
Lemma leads_repaint k sw sh cx cy mc bc ch : leads k (repaint sw sh cx cy mc bc ch) k.
Proof.
  assert (leads k (paint_all sw sh cx cy) k) as Hall.
  { intros c. revert c. intros c0 b c' Hi Hk. refine (leads_then k k k (on_gfx _) (λ _, show_cursor cx cy) (leads_gfx k _) (λ _, leads_show k cx cy) c0 b c' Hi Hk). }
  assert (leads k (paint_top cx cy) k) as Htop.
  { intros c b c' Hi Hk. refine (leads_then k k k (on_gfx _) (λ _, _) (leads_gfx k _) (λ _, _) c b c' Hi Hk).
    eapply leads_then; [apply leads_slift|]. intros u. eapply leads_then; [apply leads_gfx|]. intros _. apply leads_show. }
  intros c b c' Hi Hk Hr. unfold repaint in Hr.
  destruct (s_dirty _); [by eapply Hall|]. destruct (_ && _ && _); [by eapply Htop|]. destruct (decide (0 < ch.1)%nat); [by eapply Hall|].
  destruct (_ && _); [by eapply Htop|]. destruct mc; [|by eapply leads_ret].
  refine (leads_then k k k (on_gfx _) (λ _, show_cursor cx cy) (leads_gfx k _) (λ _, leads_show k cx cy) c b c' Hi Hk Hr).
Qed.
(** A round with the mouse at rest and the others asleep. *)
Lemma leads_sections shell k m sw sh : in_focus k → leads k (sections shell (λ _ o, o) m false sw sh) (after_keys k).
Proof.
  intros Hf. pose proof Hf as (_&_&Hq). unfold sections, queue_fuel. eapply leads_then; [apply leads_pause|]. intros _.
  apply leads_get. intros c1 _. eapply leads_then; [by apply leads_no_new|]. intros _. eapply leads_then; [apply leads_pause|]. intros _.
  apply leads_get. intros c2 _. eapply leads_then; [by apply leads_no_gone|]. intros _.
  eapply leads_then.
  { apply leads_get. intros c3 _. apply leads_get. intros c4 _. apply leads_if; [apply leads_ret|].
    eapply leads_then; [apply leads_seen|]. intros _. by apply leads_scene. }
  intros _. eapply leads_then; [apply leads_pause|]. intros _. eapply leads_then; [apply leads_ret|]. intros _.
  eapply leads_then; [apply leads_pause|]. intros _. eapply leads_then; [by apply leads_sync_terminal|]. intros _.
  apply leads_get. intros c5 _. eapply leads_then; [by apply leads_sync_client|]. intros _. eapply leads_then; [apply leads_pause|]. intros _.
  eapply leads_then; [apply leads_route|]. intros _. eapply leads_then; [apply leads_pause|]. intros _.
  eapply leads_then; [by intros c b c' Hi Hk [= _ <-]|]. intros ch. eapply leads_then; [by intros c b c' Hi Hk [= _ <-]|]. intros bl.
  eapply leads_then; [apply leads_repaint|]. intros _. apply leads_pause.
Qed.

(** What is announced. *)
Definition queues (c : state) : list Z * list Z := (Wm.news (o_wm (c_out c)), Wm.gones (o_wm (c_out c))).
Definition quiet {A} (f : comp A) : Prop := ∀ c a c', f c = (Ok a, c') → queues c' = queues c.
Lemma quiet_then {A B} (f : comp A) (g : A → comp B) : quiet f → (∀ a, quiet (g a)) → quiet (let! a := f in g a).
Proof. intros Hf Hg c b c' (a&c1&H1&H2)%sbind_Ok_inv. by rewrite (Hg a c1 b c' H2), (Hf c a c1 H1). Qed.
Lemma quiet_sget {A B} (f : state → A) (g : A → comp B) : (∀ a, quiet (g a)) → quiet (let! a := sget f in g a).
Proof. intros Hg c b c' Hr. by apply (Hg (f c) c b). Qed.
Lemma quiet_sret {A} (a : A) : quiet (sret a).
Proof. by intros c b c' [= _ <-]. Qed.
Lemma quiet_slift {A} (r : outcome bytes A) : quiet (slift r).
Proof. by intros c b c' [= _ <-]. Qed.
Lemma quiet_scene f : quiet (on_scene f).
Proof. by intros c b c' [= _ <-]. Qed.
Lemma quiet_seen f : quiet (on_seen f).
Proof. by intros c b c' [= _ <-]. Qed.
Lemma quiet_terms {A} (f : Terminal.pool → A * Terminal.pool) : quiet (on_terms f).
Proof. by intros c b c' [= _ <-]. Qed.
Lemma quiet_keys {A} (f : ConsoleInput → A * ConsoleInput) : quiet (on_keys f).
Proof. by intros c b c' [= _ <-]. Qed.
Lemma quiet_gfx {A} (f : stm Framebuffer.gfx Empty_set A) : quiet (on_gfx f).
Proof. by intros c b c' [= _ <-]. Qed.
Lemma quiet_pause p : quiet (pause (λ _ o, o) p).
Proof. by intros c b c' [= _ <-]. Qed.
Lemma quiet_change {A} id f (g : Wm.wm → A) : quiet (on_wm (λ s, (g s, (Wm.change id f s).2))).
Proof. intros c b c' [= _ <-]. unfold queues. cbn. by destruct (queues_change id f (o_wm (c_out c))) as [-> ->]. Qed.
Lemma quiet_push id ev : quiet (pushes id ev).
Proof. apply (quiet_change id _ (λ _, tt)). Qed.
Lemma quiet_if {A} (b : bool) (f g : comp A) : quiet f → quiet g → quiet (if b then f else g).
Proof. by destruct b. Qed.
Lemma quiet_at {A} (f : state → comp A) : (∀ s, quiet (f s)) → quiet (λ c, f c c).
Proof. intros Hf c b c' Hr. by apply (Hf c c b). Qed.

Ltac quiet := repeat match goal with
  | |- quiet (sbind (sget _) _) => apply quiet_sget; intros ?
  | |- quiet (sbind _ _) => apply quiet_then; [|intros ?]
  | |- quiet (sret _) => apply quiet_sret
  | |- quiet (slift _) => apply quiet_slift
  | |- quiet (on_scene _) => apply quiet_scene
  | |- quiet (on_seen _) => apply quiet_seen
  | |- quiet (on_terms _) => apply quiet_terms
  | |- quiet (on_keys _) => apply quiet_keys
  | |- quiet (on_gfx _) => apply quiet_gfx
  | |- quiet (pause _ _) => apply quiet_pause
  | |- quiet (pushes _ _) => apply quiet_push
  | |- quiet (show_cursor _ _) => apply quiet_then; [apply quiet_then; [apply quiet_gfx|intros ?; apply quiet_seen]|intros ?; apply quiet_gfx]
  | |- quiet (match ?x with _ => _ end) => destruct x
  end.

Lemma quiet_commits : quiet note_commits.
Proof. unfold note_commits. quiet. Qed.
Lemma quiet_sync_terminal : quiet sync_terminal.
Proof. unfold sync_terminal. quiet. Qed.
Lemma quiet_sync_client : quiet sync_client.
Proof. unfold sync_client. quiet. Qed.
Lemma quiet_send fuel id : quiet (send_keys fuel id).
Proof. induction fuel as [|fuel IH]; cbn [send_keys]; quiet. done. Qed.
Lemma quiet_route fuel m mc : quiet (route_input fuel m mc).
Proof. unfold route_input. quiet. apply quiet_send. Qed.
Lemma quiet_repaint sw sh cx cy mc bc ch : quiet (repaint sw sh cx cy mc bc ch).
Proof.
  assert (quiet (paint_all sw sh cx cy)) as Hall.
  { intros c b c' Hr. unfold paint_all in Hr. revert c b c' Hr.
    enough (∀ c0 : state, quiet (let! _ := on_gfx (draw_desktop (o_terms (c_out c0)) (o_wm (c_out c0)) sw sh (s_windows (c_scene c0)) (s_focus (c_scene c0)) (n_blink (c_seen c0))) in
      show_cursor cx cy)) as He by (intros c b c' Hr; by apply (He c c b)). intros c0. quiet. }
  assert (quiet (paint_top cx cy)) as Htop.
  { intros c b c' Hr. unfold paint_top in Hr. match type of Hr with ?f c = _ => enough (quiet f) as He by (by apply (He c b)) end. quiet. }
  intros c b c' Hr. unfold repaint in Hr. match type of Hr with ?f c = _ => enough (quiet f) as He by (by apply (He c b)) end. quiet; done.
Qed.
Lemma quiet_frame id sw sh : quiet (frame_new sw sh id).
Proof.
  unfold frame_new. apply quiet_then; [by intros c b c' [= _ <-]|]. intros [[[cw ch] t]|]; [|apply quiet_sret]. quiet. apply (quiet_change id _ (λ _, tt)).
Qed.
(** The loops over the queues empty them. *)
Lemma take_new_gones s : Wm.gones (Wm.take_pending_new s).2 = Wm.gones s.
Proof. unfold Wm.take_pending_new, Wm.gones. destruct (Wm.m_state s) as [r|] eqn:Hm; cbn; [done|by rewrite Hm]. Qed.
Lemma takes_all fuel sw sh c a c' : take_new fuel sw sh c = (Ok a, c') → queues c' = ([], (queues c).2).
Proof.
  revert c. induction fuel as [|fuel IH]; intros c Hr; [done|]. cbn [take_new] in Hr. unfold sbind at 1, on_wm at 1 in Hr.
  destruct (take_new_rep (o_wm (c_out c))) as [[Hn He]|(id&He&Hn)]; rewrite He in Hr; cbn in Hr.
  - injection Hr as _ <-. unfold queues. cbn -[Wm.take_pending_new]. rewrite take_new_gones. f_equal.
    unfold Wm.take_pending_new, Wm.news in *. destruct (Wm.m_state (o_wm (c_out c))) as [r|] eqn:Hm; cbn in *; [by rewrite Hn|by rewrite Hm].
  - apply sbind_Ok_inv in Hr as (u&c1&Hf&Hr). rewrite (IH _ Hr). f_equal. rewrite (quiet_frame _ _ _ _ _ _ Hf). apply take_new_gones.
Qed.
Lemma takes_gone fuel c a c' : take_destroyed fuel c = (Ok a, c') → queues c' = ((queues c).1, []).
Proof.
  revert c. induction fuel as [|fuel IH]; intros c Hr; [done|]. cbn [take_destroyed] in Hr. unfold sbind at 1, on_wm at 1 in Hr.
  unfold queues, Wm.take_pending_destroy, Wm.gones, Wm.news in *. destruct (Wm.m_state (o_wm (c_out c))) as [r|] eqn:Hm; cbn in Hr.
  2: { injection Hr as _ <-. cbn. by rewrite Hm. }
  destruct (Wm.r_destroy r) as [|id l] eqn:Hd; cbn in Hr.
  - by injection Hr as _ <-.
  - rewrite (IH _ Hr). done.
Qed.
Lemma sections_settle shell m sw sh c a c' : sections shell (λ _ o, o) m false sw sh c = (Ok a, c') → queues c' = ([], []).
Proof.
  unfold sections, queue_fuel. intros (u1&c1&H1&Hr)%sbind_Ok_inv. apply sbind_Ok_inv in Hr as (f1&c2&[= _ <-]&Hr).
  apply sbind_Ok_inv in Hr as (u3&c3&H3%takes_all&Hr). apply sbind_Ok_inv in Hr as (u4&c4&H4%quiet_pause&Hr).
  apply sbind_Ok_inv in Hr as (f2&c5&[= _ <-]&Hr). apply sbind_Ok_inv in Hr as (u6&c6&H6%takes_gone&Hr).
  rewrite H4, H3 in H6. cbn in H6. rewrite <-H6. revert Hr. apply quiet_then; [apply quiet_commits|]. intros _.
  quiet; first [apply quiet_sync_terminal|apply quiet_sync_client|apply quiet_route|apply quiet_repaint|by intros ? ? ? [= _ <-]].
Qed.
End still.

(** ** The theorems *)

Section theorems.
Context `{KD : KeyDecoder} {W : Type} `{TE : TaskEnv W} `{FontLaws}.
Context (i : Framebuffer.info) (Hi : info_ok i) (Hrgb : length (Framebuffer.encode (Framebuffer.format i) 0) = 3%nat).
Abbreviation sw := (Framebuffer.width i).
Abbreviation sh := (Framebuffer.height i).
Context (Hsw : 528 ≤ sw < 2 ^ 31) (Hsh : 336 ≤ sh < 2 ^ 31).
Variable shell_task : Z.
Abbreviation state := (@compositor KD W).

(** The mouse has not moved since the last round. *)
Definition mouse_still (c : state) : Prop := Mouse.seq (Mouse.state (o_mouse (c_out c))) = n_mouse_seq (c_seen c).
Lemma still_sections (c : state) : mouse_still c → ∃ c1, round shell_task (λ _ o, o) sw sh c = sections shell_task (λ _ o, o) (Mouse.state (o_mouse (c_out c))) false sw sh c1 ∧
  keyboard_of c1 = keyboard_of c ∧ o_keys (c_out c1) = o_keys (c_out c) ∧ (desktop_ok i c → desktop_ok i c1).
Proof using All.
  intros Hm. unfold mouse_still in Hm. unfold round, sbind, sget. cbn [fst snd on_seen on_scene smodify]. rewrite Hm, Z.eqb_refl. cbn [negb].
  eexists. split; [done|]. split; [done|]. split; [done|]. intros ([]&Ho&Ha). by split; [split|].
Qed.
Lemma still_ok (c : state) : desktop_ok i c → mouse_still c → ∃ c', round shell_task (λ _ o, o) sw sh c = (Ok tt, c') ∧ desktop_ok i c'.
Proof using All.
  intros Hc Hm. destruct (still_sections c Hm) as (c1&->&_&_&Hc1).
  pose proof (good_sections i Hi Hrgb Hsw Hsh shell_task (λ _, False) (λ _ o, o) (Mouse.state (o_mouse (c_out c))) false) as Hg.
  assert (others_ok i (λ _ (o : @outside KD W), o)) as Hoth.
  { intros p o []. split; try done. exists 0, []. by apply Wm.notified_none. }
  specialize (Hg Hoth ltac:(done) c1 (Hc1 Hc)). destruct (sections _ _ _ _ _ _ c1) as [[[]| | |] c']; [|done..]. by exists c'.
Qed.
(** C13: The desktop agrees with the window server.  From the boot on, whatever
    programs, terminals, keyboard and mouse do between the sections of any number of rounds: every window of
    the registry has exactly one frame or is still announced, every frame of a program has its window or
    the end of it is announced; the topmost window has the focus; no frame is beyond the left or
    upper edge of the screen or too large to be dragged on it; and no drawing fails.  The compositor dies only
    if a window is being dragged when the last one disappears, or if a new shell's task cannot be made. *)
Theorem desktop_invariant l (c : state) : booted i c → Forall (others_ok i) l →
  match compositor_task shell_task l c with (Ok _, c') => desktop_ok i c' | (_, c') => held c' ∨ no_shell shell_task c' end.
Proof using All.
  intros Hc Hl. set (crashed := λ c' : state, held c' ∨ no_shell shell_task c').
  refine (ensures_then crashed _ _ _ _ _ (start_ok i Hi Hrgb Hsw Hsh shell_task crashed) _ c Hc).
  intros screen c1 [Hc1 ->]. by apply (rounds_ok i Hi Hrgb Hsw Hsh shell_task crashed).
Qed.

(** C14: What is on the screen is what there is.  Once a round goes by in which the
    mouse rests and the others sleep, each window of the registry has one frame, each frame of a program
    has its window, no announcement is left, and the topmost window has the focus. *)
Theorem screen_settles (c : state) : desktop_ok i c → mouse_still c →
  ∃ c', round shell_task (λ _ o, o) sw sh c = (Ok tt, c') ∧ desktop_ok i c' ∧ queues c' = ([], []) ∧
    NoDup (client_ids (s_windows (c_scene c'))) ∧
    ∀ id, is_Some (Wm.windows (o_wm (c_out c')) !! id) ↔ id ∈ client_ids (s_windows (c_scene c')).
Proof using All.
  intros Hc Hm. destruct (still_ok c Hc Hm) as (c'&Hr&Hok). exists c'. split; [done|]. split; [done|].
  destruct (still_sections c Hm) as (c1&He&_). rewrite He in Hr. pose proof (sections_settle _ _ _ _ _ _ _ Hr) as Hq. split; [done|].
  destruct Hok as (_&_&[H1 _ H3 H4 _]). injection Hq as Hn Hg. rewrite Hn in H1, H3. rewrite Hg in H4. split; [done|]. intros id. split; [apply H3|].
  intros Hid. destruct (H4 id Hid) as [|Hx]; [done|by apply elem_of_nil in Hx].
Qed.

(** C15: Keys go to the window on top.  When the focus is known to the window on top, the mouse
    rests and no other task runs during the round, the round puts all keys typed, in order, into the
    event queue of the program on top and into no other, its oldest events making room; with a
    terminal or a note on top the keys stay for the shell.  (A round in which the focus goes to another
    window drops the keys typed before it: see [focus_drops_keys].) *)
Theorem keys_go_to_top (c : state) : desktop_ok i c → mouse_still c → in_focus (keyboard_of c) →
  ∃ c', round shell_task (λ _ o, o) sw sh c = (Ok tt, c') ∧
    match top_client (c_scene c) with
    | Some id => contents (o_keys (c_out c')) = [] ∧
        Wm.windows (o_wm (c_out c')) = alter (typed (contents (o_keys (c_out c)))) id (Wm.windows (o_wm (c_out c)))
    | None => contents (o_keys (c_out c')) = contents (o_keys (c_out c)) ∧ Wm.windows (o_wm (c_out c')) = Wm.windows (o_wm (c_out c))
    end.
Proof using All.
  intros Hc Hm Hf. destruct (still_ok c Hc Hm) as (c'&Hr&_). exists c'. split; [done|].
  destruct (still_sections c Hm) as (c1&He&Hk&Hks&_). rewrite He in Hr. rewrite <-Hk in Hf.
  destruct (leads_sections shell_task (keyboard_of c1) (Mouse.state (o_mouse (c_out c))) sw sh Hf c1 tt c') as [Hl _]; [rewrite Hks; apply Hc|done..|].
  unfold after_keys in Hl. rewrite Hk in Hl. unfold top_client. rewrite kb_top_eq.
  destruct (kb_top Client (keyboard_of c)) as [u|]; cbn [fmap option_fmap option_map]; injection Hl; done.
Qed.
End theorems.

(** ** A desktop *)

From S2P Require Import TaskSpec TaskTree TaskSteps TaskRun TaskProps.

(** A screen of 640 by 480 with an idle kernel; one program has opened a window. *)
Definition demo_screen : Framebuffer.info := Framebuffer.Info (640 * 480 * 3) 640 480 Framebuffer.Bgr 3 640.
Definition demo_mem : bytes := replicate (Z.to_nat (640 * 480 * 3)) 0.
Lemma demo_mem_length : Z.of_nat (length demo_mem) = 640 * 480 * 3.
Proof. unfold demo_mem. by rewrite length_replicate, Z2Nat.id. Qed.
#[local] Opaque demo_mem.
Lemma demo_screen_ok : info_ok demo_screen.
Proof. split; simpl; lia. Qed.
Definition demo_gfx : Framebuffer.gfx :=
  Framebuffer.Gfx (Some (Framebuffer.FB demo_mem demo_screen)) (Framebuffer.Console 0 0 80 60 0 0 true) false.
Definition one_window : Wm.wm := (Wm.create_window 7 64 32 (str "a") Wm.empty_wm).2.
Definition pointer_at (px py seq : Z) (left : bool) : Mouse.pointer := Mouse.Pointer (Mouse.Ms px py left false false seq) (640, 480).
Definition demo_out (g : Framebuffer.gfx) (s : Wm.wm) (p : Mouse.pointer) : @outside test_decoder world :=
  Out g (Terminal.set_focus Terminal.NO_TERM Terminal.pool_new) s (push_char 65 input_new) p k_idle.
Definition demo_boot : @compositor test_decoder world :=
  Comp (Scene [] 0 None false None false false) (Seen 0 [] 0 saver_new 0 true) (demo_out demo_gfx one_window (pointer_at 0 0 0 false)).

Lemma input_new_ok : input_ok input_new.
Proof. split; [apply length_replicate|cbn; unfold CAP; lia..]. Qed.
Lemma demo_out_ok s p : Wm.wm_ok s → Wm.m_next s + 1 < 2 ^ 64 → out_ok demo_screen (demo_out demo_gfx s p).
Proof.
  intros Hs Hn. split; [|split; [done|by apply Terminal.pool_new_ok]|done|done|apply push_char_spec, input_new_ok].
  split; [exists (Framebuffer.FB demo_mem demo_screen); split; [done|split; [done|apply demo_mem_length]]|done|left; unfold n_cols; simpl; lia|left; unfold n_rows; simpl; lia].
Qed.
Lemma one_window_ok : Wm.wm_ok one_window.
Proof. apply (Wm.wm_ok_step (Wm.OCreate 7 64 32 (str "a"))); [apply Wm.empty_wm_ok|cbn; lia|vm_compute; done]. Qed.
Lemma one_window_live id : is_Some (Wm.windows one_window !! id) → id = 1.
Proof.
  intros [win Hw]. change (Wm.windows one_window) with (<[1 := Wm.Win 1 7 0 0 64 32 (str "a") (replicate (Z.to_nat (64 * 32)) 0) 0 []]> (∅ : gmap Z Wm.window)) in Hw.
  apply lookup_insert_Some in Hw as [[-> _]|[_ Hw]]; [done|]. by rewrite lookup_empty in Hw.
Qed.
Lemma demo_booted : booted demo_screen demo_boot.
Proof.
  split; [split|done]; [apply demo_out_ok; [apply one_window_ok|vm_compute; done]|]. split.
  - apply NoDup_singleton.
  - intros id ->%list_elem_of_singleton. by vm_compute.
  - intros id ->%one_window_live. by left.
  - by intros id Hid%elem_of_nil.
  - by intros id Hid%elem_of_nil.
Qed.

(** The program closes its window and opens another, keys are typed and the mouse is pressed. *)
Definition demo_others (p : place) (o : @outside test_decoder world) : @outside test_decoder world :=
  match p with
  | BeforeMouse =>
      let s := (Wm.destroy_window 1 (o_wm o)).2 in
      let s := if decide (Wm.m_next s + 2 < 2 ^ 64) then (Wm.create_window 7 100 50 (str "b") s).2 else s in
      Out (o_gfx o) (o_terms o) s (push_char 66 (o_keys o)) (o_mouse o) (o_tasks o)
  | Asleep => Out (o_gfx o) (o_terms o) (o_wm o) (o_keys o) (pointer_at 45 125 1 true) (o_tasks o)
  | _ => o
  end.
Lemma demo_others_ok : others_ok demo_screen demo_others.
Proof.
  intros p o [H1 H2 H3 H4 H5]. assert (rely o o) as Hid by (split; try done; exists 0, []; by apply Wm.notified_none).
  destruct p; try done.
  - pose proof (Wm.wm_ok_step (Wm.ODestroy 1) _ H3 ltac:(done) H4) as Hd. destruct (Wm.destroy_notified 1 (o_wm o)) as [d Hn].
    cbn [Wm.step snd] in Hd. pose proof (Wm.no_next _ _ _ _ _ Hn) as Hnx. unfold demo_others. set (s := (Wm.destroy_window 1 (o_wm o)).2) in *.
    case_decide as Hlt.
    + pose proof (Wm.wm_ok_step (Wm.OCreate 7 100 50 (str "b")) s Hd ltac:(by split) ltac:(lia)) as Hc.
      destruct (Wm.create_notified 7 100 50 (str "b") s Hd ltac:(lia)) as (n&Hle&Hn'). cbn [Wm.step snd] in Hc.
      pose proof (Wm.no_next _ _ _ _ _ Hn') as Hnx'.
      split; try done; [cbn [o_wm]; lia|by apply push_char_spec|]. exists (0 + n), (d ++ []). exact (Wm.notified_trans _ _ _ _ _ _ _ _ _ Hn Hn' H3).
    + split; try done; [cbn [o_wm]; lia|by apply push_char_spec|]. by exists 0, d.
  - destruct Hid. by split.
Qed.
Example desktop_invariant_witness :
  match compositor_task 5 [demo_others; demo_others] demo_boot with
  | (Ok _, c') => desktop_ok demo_screen c'
  | (_, c') => held c' ∨ no_shell 5 c'
  end.
Proof.
  apply (desktop_invariant demo_screen demo_screen_ok eq_refl); [by vm_compute..|apply demo_booted|].
  do 2 (apply Forall_cons; split; [apply demo_others_ok|]). by apply Forall_nil.
Defined.

(** The program's window has its frame on top of a note, and a key has been typed. *)
Definition framed : Wm.wm := (Wm.take_pending_new one_window).2.
Definition demo_scene : scene := Scene [welcome; new_client 10 10 64 32 (str "a") 0 1] 1 None false (Some 1) false false.
Definition demo_desk : @compositor test_decoder world :=
  Comp demo_scene (Seen 4 [0; 0; 0; 0] 0 saver_new 0 true) (demo_out demo_gfx framed (pointer_at 300 200 4 false)).
Lemma demo_desk_ok : desktop_ok demo_screen demo_desk.
Proof.
  split; [|split].
  - split; [done|]. repeat constructor; vm_compute; congruence.
  - apply demo_out_ok; [apply (Wm.wm_ok_step Wm.OTakeNew); [apply one_window_ok|done|by vm_compute]|by vm_compute].
  - split.
    + apply NoDup_singleton.
    + intros id ->%list_elem_of_singleton. by vm_compute.
    + intros id ->%one_window_live. by left.
    + intros id ->%list_elem_of_singleton. left. by vm_compute; eexists.
    + by intros id Hid%elem_of_nil.
Qed.
Example screen_settles_witness : ∃ c', round 5 (λ _ o, o) 640 480 demo_desk = (Ok tt, c') ∧ queues c' = ([], []).
Proof.
  destruct (screen_settles demo_screen demo_screen_ok eq_refl ltac:(by vm_compute) ltac:(by vm_compute) 5 demo_desk demo_desk_ok eq_refl) as (c'&Hr&_&Hq&_).
  exists c'. by split.
Defined.
Example keys_go_to_top_witness : ∃ c', round 5 (λ _ o, o) 640 480 demo_desk = (Ok tt, c') ∧ contents (o_keys (c_out c')) = [] ∧
  Wm.w_events <$> Wm.windows (o_wm (c_out c')) !! 1 = Some [Wm.WmEvent Wm.EV_KEY 0 0 65].
Proof.
  destruct (keys_go_to_top demo_screen demo_screen_ok eq_refl ltac:(by vm_compute) ltac:(by vm_compute) 5 demo_desk demo_desk_ok eq_refl) as (c'&Hr&Hk&Hw);
    [by vm_compute|]. exists c'. split; [done|]. split; [done|]. rewrite Hw. by vm_compute.
Defined.

(** ** Where the desktop goes wrong *)

(** The same desk without a screen, for evaluation. *)
Definition desk_of (sc : scene) (s : Wm.wm) (p : Mouse.pointer) : @compositor test_decoder world :=
  Comp sc (Seen 4 [0; 0; 0; 0] 0 saver_new 0 true) (demo_out Framebuffer.gfx_new s p).
Definition meanwhile (q : place) (f : Wm.wm → Wm.wm) (p : place) (o : @outside test_decoder world) : @outside test_decoder world :=
  match q, p with
  | BeforeNew, BeforeNew | BeforeDestroyed, BeforeDestroyed => Out (o_gfx o) (o_terms o) (f (o_wm o)) (o_keys o) (o_mouse o) (o_tasks o)
  | _, _ => o
  end.
Definition dragging_one (ws : list Window) : scene := Scene ws (pred (length ws)) (Some (5, 5)) true (Some 1) true false.

(** The only window is dragged while its program exits: the compositor panics. *)
Example dragged_window_gone :
  (round 5 (meanwhile BeforeDestroyed (λ s, (Wm.destroy_window 1 s).2)) 640 480
     (desk_of (dragging_one [new_client 10 10 64 32 (str "a") 0 1]) framed (pointer_at 50 50 5 true))).1 = Panic.
Proof. vm_compute. reflexivity. Qed.

(** A window that opens during a drag is dragged in place of the one that was held. *)
Example new_window_takes_drag :
  (λ u, (x u, y u, client_id u)) <$> s_windows (c_scene (round 5 (meanwhile BeforeNew (λ s, (Wm.create_window 7 100 50 (str "b") s).2)) 640 480
     (desk_of (dragging_one [new_client 10 10 64 32 (str "a") 0 1]) framed (pointer_at 50 50 5 true))).2) = [(10, 10, 1); (45, 45, 2)].
Proof. vm_compute. reflexivity. Qed.

(** A new window is told twice that it has the focus. *)
Example focus_told_twice :
  Wm.w_events <$> Wm.windows (o_wm (c_out (round 5 (λ _ o, o) 640 480 (desk_of (Scene [welcome] 0 None false None false false) one_window (pointer_at 300 200 4 false))).2)) !! 1
  = Some [Wm.WmEvent Wm.EV_FOCUS 0 0 0; Wm.WmEvent Wm.EV_FOCUS 0 0 0].
Proof. vm_compute. reflexivity. Qed.

(** A key typed before the focus goes to a new window reaches nobody. *)
Example focus_drops_keys :
  let c := desk_of (Scene [welcome] 0 None false None false false) one_window (pointer_at 300 200 4 false) in
  let c' := (round 5 (λ _ o, o) 640 480 c).2 in
  contents (o_keys (c_out c)) = [65] ∧ contents (o_keys (c_out c')) = [] ∧
  Wm.w_events <$> Wm.windows (o_wm (c_out c')) !! 1 = Some [Wm.WmEvent Wm.EV_FOCUS 0 0 0; Wm.WmEvent Wm.EV_FOCUS 0 0 0].
Proof. split_and!; vm_compute; reflexivity. Qed.

(** On a screen of 320 by 200 the frame of a window of full height does not fit: its place is clamped between
    crossed bounds, a panic. *)
Example small_screen_panics :
  (round 5 (λ _ o, o) 320 200 (desk_of (Scene [welcome] 0 None false None false false)
     (Wm.create_window 7 320 240 (str "a") Wm.empty_wm).2 (pointer_at 300 190 4 false))).1 = Panic.
Proof. vm_compute. reflexivity. Qed.
