(* ===== verification/Syscall.v ===== *)
(** * System calls (kernel/src/syscall.rs)

    The dispatcher behind [int 0x80]: the trap frame is decoded, the caller's
    capabilities and pointers are checked and the service is asked for, over the
    composed kernel of [World].  Every arm of the source's [match] is a definition
    of its own.

    A call that gives up the CPU - yield, sleep, wait, accept - goes on when its
    task is scheduled again: [others] lists what the rest of the system does in
    between, one entry per interruption, and a call for which the list is too
    short has not finished ([Diverge]).  What other tasks do to the VFS while a
    read or write sleeps on a pipe or the keyboard is the list [vothers].  A
    buffer of the caller is read, or written, as a whole, when the service gets
    to it; a fault there panics the kernel ([UserMem]). *)

From S2P Require Import Prelude Capability Block NextfsLayout VfsTable Vfs Signal Task Ipc Frames Paging Memory Bytes Elf UserMem Wm Net World Utf8.

(** ** Numbers *)

(** [syscall.rs:30-30, !SYS_PRINT] *)
Definition SYS_PRINT : Z := 1.
(** [syscall.rs:31-31, !SYS_GETPID] *)
Definition SYS_GETPID : Z := 2.
(** [syscall.rs:32-32, !SYS_EXIT] *)
Definition SYS_EXIT : Z := 3.
(** [syscall.rs:33-33, !SYS_YIELD] *)
Definition SYS_YIELD : Z := 4.
(** [syscall.rs:34-34, !SYS_TICKS] *)
Definition SYS_TICKS : Z := 5.
(** [syscall.rs:35-35, !SYS_IPC_SEND] *)
Definition SYS_IPC_SEND : Z := 6.
(** [syscall.rs:36-36, !SYS_IPC_RECV] *)
Definition SYS_IPC_RECV : Z := 7.
(** [syscall.rs:37-37, !SYS_CAP_CHECK] *)
Definition SYS_CAP_CHECK : Z := 8.
(** [syscall.rs:38-38, !SYS_SLEEP] *)
Definition SYS_SLEEP : Z := 9.
(** [syscall.rs:39-39, !SYS_SPAWN] *)
Definition SYS_SPAWN : Z := 10.
(** [syscall.rs:40-40, !SYS_MMAP] *)
Definition SYS_MMAP : Z := 11.
(** [syscall.rs:41-41, !SYS_MUNMAP] *)
Definition SYS_MUNMAP : Z := 12.
(** [syscall.rs:42-42, !SYS_OPEN] *)
Definition SYS_OPEN : Z := 13.
(** [syscall.rs:43-43, !SYS_READ] *)
Definition SYS_READ : Z := 14.
(** [syscall.rs:44-44, !SYS_WRITE] *)
Definition SYS_WRITE : Z := 15.
(** [syscall.rs:45-45, !SYS_CLOSE] *)
Definition SYS_CLOSE : Z := 16.
(** [syscall.rs:46-46, !SYS_LSEEK] *)
Definition SYS_LSEEK : Z := 17.
(** [syscall.rs:47-47, !SYS_UNLINK] *)
Definition SYS_UNLINK : Z := 18.
(** [syscall.rs:48-48, !SYS_RMDIR] *)
Definition SYS_RMDIR : Z := 19.
(** [syscall.rs:49-49, !SYS_MKDIR] *)
Definition SYS_MKDIR : Z := 20.
(** [syscall.rs:50-50, !SYS_TRUNCATE] *)
Definition SYS_TRUNCATE : Z := 21.
(** [syscall.rs:51-51, !SYS_CHMOD] *)
Definition SYS_CHMOD : Z := 22.
(** [syscall.rs:52-52, !SYS_CHOWN] *)
Definition SYS_CHOWN : Z := 23.
(** [syscall.rs:53-53, !SYS_STAT] *)
Definition SYS_STAT : Z := 24.
(** [syscall.rs:55-55, !SYS_EXIT2] *)
Definition SYS_EXIT2 : Z := 25.
(** [syscall.rs:56-56, !SYS_WAIT] *)
Definition SYS_WAIT : Z := 26.
(** [syscall.rs:57-57, !SYS_EXEC] *)
Definition SYS_EXEC : Z := 27.
(** [syscall.rs:58-58, !SYS_FORK] *)
Definition SYS_FORK : Z := 28.
(** [syscall.rs:59-59, !SYS_PIPE] *)
Definition SYS_PIPE : Z := 29.
(** [syscall.rs:61-61, !SYS_GETPPID] *)
Definition SYS_GETPPID : Z := 30.
(** [syscall.rs:62-62, !SYS_KILL] *)
Definition SYS_KILL : Z := 31.
(** [syscall.rs:63-63, !SYS_SIGNAL] *)
Definition SYS_SIGNAL : Z := 32.
(** [syscall.rs:64-64, !SYS_SIGRETURN] *)
Definition SYS_SIGRETURN : Z := 33.
(** [syscall.rs:66-66, !SYS_WIN_CREATE] *)
Definition SYS_WIN_CREATE : Z := 34.
(** [syscall.rs:67-67, !SYS_WIN_COMMIT] *)
Definition SYS_WIN_COMMIT : Z := 35.
(** [syscall.rs:68-68, !SYS_WIN_POLL] *)
Definition SYS_WIN_POLL : Z := 36.
(** [syscall.rs:69-69, !SYS_WIN_DESTROY] *)
Definition SYS_WIN_DESTROY : Z := 37.
(** [syscall.rs:70-70, !SYS_WIN_INFO] *)
Definition SYS_WIN_INFO : Z := 38.
(** [syscall.rs:72-72, !SYS_SOCKET] *)
Definition SYS_SOCKET : Z := 39.
(** [syscall.rs:73-73, !SYS_BIND] *)
Definition SYS_BIND : Z := 40.
(** [syscall.rs:74-74, !SYS_CONNECT] *)
Definition SYS_CONNECT : Z := 41.
(** [syscall.rs:75-75, !SYS_LISTEN] *)
Definition SYS_LISTEN : Z := 42.
(** [syscall.rs:76-76, !SYS_ACCEPT] *)
Definition SYS_ACCEPT : Z := 43.
(** [syscall.rs:77-77, !SYS_SEND] *)
Definition SYS_SEND : Z := 44.
(** [syscall.rs:78-78, !SYS_RECV] *)
Definition SYS_RECV : Z := 45.
(** [syscall.rs:79-79, !SYS_SHUTDOWN] *)
Definition SYS_SHUTDOWN : Z := 46.
(** [syscall.rs:80-80, !SYS_CAP_GRANT] *)
Definition SYS_CAP_GRANT : Z := 47.

(** ** Pointers and flags *)

(** [syscall.rs:154-166, is_user_pointer] *)
Definition is_user_pointer (ptr len : Z) : bool :=
  if USER_SPACE_MAX <=? ptr then false else
  if ptr + len <? 2 ^ 64 then ptr + len <=? USER_SPACE_MAX else false.

(** [syscall.rs:1226-1248, sys_open_flags_from_raw] *)
Definition sys_open_flags_from_raw (raw : Z) : open_flags :=
  let access_mode := Z.land raw 3 in
  OpenFlags ((access_mode =? 0) || (access_mode =? 2)) ((access_mode =? 1) || (access_mode =? 2))
    (negb (Z.land raw 0x40 =? 0)) (negb (Z.land raw 0x200 =? 0)) (negb (Z.land raw 0x400 =? 0)).

(** The operations of the [x86_64] crate that [munmap] uses on the table at
    [l4]: the flags an address is mapped with, and the removal of a page. *)
Class Unmapper := {
  translate_flags : pmem → Z → Z → option Z;
  unmap : Z → Z → pmem → option pmem;
}.

(** Their behaviour where no huge page is in the way. *)
Class UnmapperLaws `{Unmapper} := {
  translate_flags_mapped m l4 va e :
    0 ≤ va < 2 ^ 47 → walk_present m l4 (va_path va) = true →
    leaf m l4 (va_path va) (va_index 0 va) = Some e → contains (pte_flags e) PRESENT = true →
    translate_flags m l4 va = Some (pte_flags e);
  translate_flags_unmapped m l4 va :
    0 ≤ va < 2 ^ 47 → ¬ blocked m l4 (va_path va) →
    (∀ e, leaf m l4 (va_path va) (va_index 0 va) = Some e → e = 0) →
    translate_flags m l4 va = None;
  unmap_mapped m l4 va e l1 :
    0 ≤ va < 2 ^ 47 → walk_present m l4 (va_path va) = true → node m l4 (va_path va) = Some l1 →
    entry m l1 (va_index 0 va) = e → contains (pte_flags e) PRESENT = true →
    contains (pte_flags e) HUGE_PAGE = false →
    unmap l4 (frame_containing va) m = Some (set_entry m l1 (va_index 0 va) 0);
}.

(** The [print!] and [serial_print!] macros. *)
Class Printer (C : Type) := print_str : bytes → C → C.

Section syscalls.
Context {C D : Type} `{Con : Console C} `{Prn : Printer C} `{Nt : Net.Smoltcp} `{BD : BlockDev D}
  `{Pg : Paging} `{Ad : Addresses} `{Cp : Processor} `{Sel : Selectors} `{Um : Unmapper}.
Abbreviation sworld := (@world C D Nt).
Abbreviation skernel := (kernel sworld).
Abbreviation svfs := (vfs (@devices C Nt) D).
Abbreviation sys A := (stm skernel bytes A).
Implicit Types k : skernel.

(** ** What the arms share *)

Definition current : sys task := with_cur sret.
Definition s_current_id : sys Z := let! t := current in sret (t_id t).
Definition user_ring : sys bool := let! t := current in sret (bool_decide (t_ring t = RUser)).
(** [current_ring == Ring::User && !is_user_pointer(ptr, len)] *)
Definition bad_pointer (ptr len : Z) : sys bool :=
  let! u := user_ring in sret (u && negb (is_user_pointer ptr len)).

Definition mem_of k : pmem := w_mem (k_env k).
Definition user_load (ptr : Z) (len : nat) : sys bytes :=
  sread (λ k, or_panic (peek_bytes (mem_of k) (k_cr3 k) ptr len)).
Definition user_store (ptr : Z) (bs : bytes) : sys unit :=
  poked (λ c w, (λ m, set_mem m w) <$> poke_bytes (w_mem w) (cpu_cr3 c) ptr bs).

(** The services: [None] is their error. *)
Definition on_caps {A} (f : tables → tables * A) : sys A := λ k,
  let p := f (w_caps (k_env k)) in (Ok p.2, map_env (set_caps p.1) k).
Definition on_wm {A} (f : Wm.wm → A * Wm.wm) : sys A := λ k,
  let p := f (w_wm (k_env k)) in (Ok p.1, map_env (set_wm p.2) k).
Definition on_fs {A} (f : stm svfs vfs_error A) : sys (option A) := λ k,
  let p := f (w_vfs (k_env k)) in
  (match p.1 with Ok a => Ok (Some a) | Err _ => Ok None | Panic => Panic | Diverge => Diverge end,
   map_env (set_vfs p.2) k).
Definition on_sockets {A} (f : stm (option Net.stack) string A) : sys (option A) := λ k,
  let v := w_vfs (k_env k) in
  let p := f (d_net (v_env v)) in
  (match p.1 with Ok a => Ok (Some a) | Err _ => Ok None | Panic => Panic | Diverge => Diverge end,
   map_env (set_vfs (VfsTable.set_env (Devices (d_console (v_env v)) p.2) v)) k).
Definition on_ipc {A} (f : Ipc.locks → stm skernel Empty_set A) : sys A := λ k,
  let p := f Ipc.no_locks k in (map_err (λ e : Empty_set, match e with end) p.1, p.2).

(** [match r { Ok(x) => g(x), Err(_) => u64::MAX }] *)
Definition or_max {A} (g : A → Z) (r : option A) : Z := match r with Some a => g a | None => u64_max end.
Definition zero_or_max {A} : option A → Z := or_max (λ _, 0).
Definition bool_or_max (b : bool) : Z := if b then 0 else u64_max.

(** [caller] holds a role with SEND. *)
Definition has_role (role : Z) : sys bool :=
  let! caller := s_current_id in
  sget (λ k, check_role caller role Rights.SEND (w_caps (k_env k))).
(** [caller] holds [rights] on the endpoint. *)
Definition has_endpoint (rights ep : Z) : sys bool :=
  let! caller := s_current_id in
  sget (λ k, bool_decide (is_Some (find_object caller rights
    (λ obj, match obj with Capability.Endpoint e => e =? ep | _ => false end) (w_caps (k_env k))))).

(** A path argument, checked and decoded; [None]: the call fails. *)
Definition user_path (ptr len : Z) : sys (option bytes) :=
  let! bad := bad_pointer ptr len in
  if bad : bool then sret None else
  let! s := user_load ptr (Z.to_nat len) in
  sret (if utf8_valid s then Some s else None).
(** A call on a path by the current task. *)
Definition path_call {A} (ptr len : Z) (f : Z → Z → bytes → stm svfs vfs_error A) : sys (option A) :=
  let! path := user_path ptr len in
  match path with
  | None => sret None
  | Some path =>
      let! task := s_current_id in
      let! now := sget k_ticks in
      on_fs (f now (wrap32 task) path)
  end.

(** [syscall.rs:169-181, get_socket_id] *)
Definition get_socket_id (task fd : Z) : sys (option Z) := sget (λ k,
  match v_tables (w_vfs (k_env k)) !! task with
  | None => None
  | Some table =>
      match t_files table !! fd with
      | Some file => match f_type file with Socket id => Some id | _ => None end
      | None => None
      end
  end).

(** The string at [ptr]: [n] more bytes at most, up to the NUL. *)
Fixpoint user_cstr (n : nat) (ptr : Z) (validate : bool) (acc : bytes) : sys bytes :=
  match n with
  | O => sret acc
  | S n =>
      let a := wrap64 (ptr + Z.of_nat (length acc)) in
      if validate && negb (is_user_pointer a 1) then sret acc else
      let! b := user_load a 1 in
      if nth 0 b 0 =? 0 then sret acc else user_cstr n ptr validate (acc ++ b)
  end.
Fixpoint user_cstrs (n : nat) (base : Z) (validate : bool) (i : Z) (out : list bytes) : sys (list bytes) :=
  match n with
  | O => sret out
  | S n =>
      let slot := wrap64 (base + i * 8) in
      if validate && negb (is_user_pointer slot 8) then sret out else
      let! w := user_load slot 8 in
      let str_ptr := le_dec w in
      if str_ptr =? 0 then sret out else
      if validate && negb (is_user_pointer str_ptr 1) then sret out else
      let! s := user_cstr 256 str_ptr validate [] in
      user_cstrs n base validate (i + 1) (out ++ [if utf8_valid s then s else []])
  end.

(** [syscall.rs:191-233, copy_user_cstr_array] *)
Definition copy_user_cstr_array (base : Z) (validate : bool) : sys (list bytes) :=
  if base =? 0 then sret [] else
  if validate && negb (is_user_pointer base 8) then sret [] else
  user_cstrs 64 base validate 0 [].

(** ** Memory *)

Definition on_phys_mm {A} (f : stm phys unit A) : sys (option A) := λ k,
  let w := k_env k in
  let p := f (w_phys w) in
  (match p.1 with Ok a => Ok (Some a) | Err _ => Ok None | Panic => Panic | Diverge => Diverge end,
   map_env (set_mm (Mm p.2 (user_page_tables (w_mm w)))) k).

(** [syscall.rs:237-271, sys_mmap_impl] *)
Definition sys_mmap_impl (len : Z) : sys (option Z) :=
  if len =? 0 then sret None else
  let page_count := wrap64 (len + 4095) / 4096 in
  let! t := current in
  let start := t_mmap_next t in
  match t_user_cr3 t with
  | None => sret None
  | Some user_cr3 =>
      let! _ := smodify (upd_cur (with_mmap_next (wrap64 (start + page_count * 4096)))) in
      let! r := on_phys_mm (map_user_region user_cr3 start (Z.to_nat page_count) true) in
      sret ((λ _, start) <$> r)
  end.

(** The first loop of [munmap]: every page is mapped for the user. *)
Definition check_user_pages (user_cr3 addr page_count : Z) : stm phys unit unit :=
  sfor (seqZ 0 page_count) (λ i,
    let! page := slift (or_panic (virt_addr (wrap64 (frame_containing addr + i * 4096)))) in
    let! flags := sget (λ s, translate_flags (ph_mem s) user_cr3 page) in
    match flags with
    | None => sthrow tt
    | Some fl => if contains fl USER_ACCESSIBLE then sret tt else sthrow tt
    end).
(** The second loop: they are taken out of the table. *)
Definition unmap_pages (user_cr3 addr page_count : Z) : stm phys unit unit :=
  sfor (seqZ 0 page_count) (λ i,
    let! page := slift (or_panic (virt_addr (wrap64 (frame_containing addr + i * 4096)))) in
    λ s, match unmap user_cr3 page (ph_mem s) with
         | Some m => (Ok tt, Phys m (ph_fa s))
         | None => (Err tt, s)
         end).

(** [syscall.rs:274-334, sys_munmap_impl] *)
Definition sys_munmap_impl (addr len : Z) : sys (option unit) :=
  if len =? 0 then sret (Some tt) else
  if (addr <? USER_HEAP_START) || (USER_SPACE_MAX <=? addr) then sret None else
  let page_count := wrap64 (len + 4095) / 4096 in
  let! t := current in
  match t_user_cr3 t with
  | None => sret None
  | Some user_cr3 =>
      on_phys_mm
        (let! _ := check_user_pages user_cr3 addr page_count in
         unmap_pages user_cr3 addr page_count)
  end.

(** ** The arms of the dispatcher *)

(** [syscall.rs:361-379, !SYS_PRINT] *)
Definition sys_print (a0 a1 : Z) : sys Z :=
  let! bad := bad_pointer a0 a1 in
  if bad : bool then sret u64_max else
  let! s := user_load a0 (Z.to_nat a1) in
  let! _ := smodify (λ k,
    if utf8_valid s then
      let v := w_vfs (k_env k) in
      map_env (set_vfs (VfsTable.set_env (Devices (print_str s (d_console (v_env v))) (d_net (v_env v))) v)) k
    else k) in
  sret a1.

(** [syscall.rs:380-380, !SYS_GETPID] *)
Definition sys_getpid : sys Z := s_current_id.

(** [syscall.rs:381-387, !SYS_EXIT]: the call does not return. *)
Definition sys_exit (a0 : Z) : sys (option Z) :=
  let! _ := smodify (do_exit (signed 32 a0)) in sret None.

(** Back from a switch, when [others] has run. *)
Definition resume (others : list (skernel → skernel)) : sys unit := λ k,
  match others with [] => (Diverge, k) | o :: _ => (Ok tt, o k) end.

(** [syscall.rs:388-391, !SYS_YIELD] *)
Definition sys_yield (others : list (skernel → skernel)) : sys Z :=
  let! _ := smodify yield_now in
  let! _ := resume others in
  sret 0.

(** [syscall.rs:392-392, !SYS_TICKS] *)
Definition sys_ticks : sys Z := sget k_ticks.

(** [syscall.rs:393-406, !SYS_IPC_SEND] *)
Definition sys_ipc_send (a0 a1 : Z) : sys Z :=
  let! ok := has_endpoint Rights.SEND a0 in
  if negb ok then sret u64_max else
  let! _ := on_ipc (Ipc.send a0 (msg_new a1)) in
  sret 0.

(** [syscall.rs:407-420, !SYS_IPC_RECV]: one round of [receive] is enough, see
    [IpcProps.receive_spec]. *)
Definition sys_ipc_recv (a0 : Z) : sys Z :=
  let! ok := has_endpoint Rights.RECV a0 in
  if negb ok then sret u64_max else
  let! msg := on_ipc (Ipc.receive 1 a0) in
  sret (m_tag msg).

(** [syscall.rs:421-425, !SYS_CAP_CHECK] *)
Definition sys_cap_check (a0 a1 : Z) : sys Z :=
  let! id := s_current_id in
  sget (λ k, if check id (Z.to_nat a0) (wrap32 a1) (w_caps (k_env k)) then 1 else 0).

(** [syscall.rs:426-430, !SYS_SLEEP] *)
Definition sys_sleep (others : list (skernel → skernel)) (a0 : Z) : sys Z :=
  let! _ := sleep_ticks others a0 in sret 0.

(** [syscall.rs:431-456, !SYS_SPAWN]: not implemented; every path fails. *)
Definition sys_spawn (a0 a1 a2 : Z) : sys Z :=
  let! ok := has_role ROLE_SPAWN in
  if negb ok then sret u64_max else
  let! bad := bad_pointer a0 a1 in
  if bad : bool then sret u64_max else
  let! bad := bad_pointer a2 256 in
  if negb (a2 =? 0) && bad then sret u64_max else
  sret u64_max.

(** [syscall.rs:457-471, !SYS_MMAP] *)
Definition sys_mmap (a0 a1 a2 : Z) : sys Z :=
  let! u := user_ring in
  if negb u then sret u64_max else
  let! r := sys_mmap_impl a1 in sret (or_max id r).

(** [syscall.rs:472-483, !SYS_MUNMAP] *)
Definition sys_munmap (a0 a1 : Z) : sys Z :=
  let! u := user_ring in
  if negb u then sret u64_max else
  let! r := sys_munmap_impl a0 a1 in sret (zero_or_max r).

(** [syscall.rs:484-511, !SYS_OPEN] *)
Definition sys_open (a0 a1 a2 : Z) : sys Z :=
  let! ok := has_role ROLE_FILE_SYSTEM in
  if negb ok then sret u64_max else
  let! r := path_call a0 a1 (λ now task path, open now task path (sys_open_flags_from_raw a2)) in
  sret (or_max id r).

(** [syscall.rs:512-527, !SYS_READ] *)
Definition sys_read (vothers : list (svfs → svfs)) (a0 a1 a2 : Z) : sys Z :=
  let! bad := bad_pointer a1 a2 in
  if bad : bool then sret u64_max else
  let! task := s_current_id in
  let! r := on_fs (read vothers (wrap32 task) (wrap32 a0) (replicate (Z.to_nat a2) 0)) in
  match r with
  | None => sret u64_max
  | Some (n, buf) => let! _ := user_store a1 (take (Z.to_nat n) buf) in sret n
  end.

(** Whether a write to the descriptor looks at the data. *)
Definition takes_data (task fd : Z) (v : svfs) : bool :=
  match get_file task fd v with
  | Ok f => of_write (f_flags f) &&
            match f_type f with Keyboard => false | PipeEnd _ w => w | _ => true end
  | _ => false
  end.

(** [syscall.rs:528-543, !SYS_WRITE] *)
Definition sys_write (vothers : list (svfs → svfs)) (a0 a1 a2 : Z) : sys Z :=
  let! bad := bad_pointer a1 a2 in
  if bad : bool then sret u64_max else
  let! task := s_current_id in
  let! now := sget k_ticks in
  let! looks := sget (λ k, takes_data (wrap32 task) (wrap32 a0) (w_vfs (k_env k))) in
  let! buf := if looks : bool then user_load a1 (Z.to_nat a2) else sret [] in
  let! r := on_fs (write vothers now (wrap32 task) (wrap32 a0) buf) in
  sret (or_max id r).

(** [syscall.rs:544-552, !SYS_CLOSE] *)
Definition sys_close (a0 : Z) : sys Z :=
  let! task := s_current_id in
  let! r := on_fs (close (wrap32 task) (wrap32 a0)) in
  sret (zero_or_max r).

(** [syscall.rs:553-568, !SYS_LSEEK] *)
Definition sys_lseek (a0 a1 a2 : Z) : sys Z :=
  let! task := s_current_id in
  let whence := if a2 =? 0 then Some SeekSet else if a2 =? 1 then Some SeekCurrent
                else if a2 =? 2 then Some SeekEnd else None in
  match whence with
  | None => sret u64_max
  | Some whence =>
      let! r := on_fs (seek (wrap32 task) (wrap32 a0) (signed 64 a1) whence) in
      sret (or_max id r)
  end.

(** [syscall.rs:569-589, !SYS_UNLINK] *)
Definition sys_unlink (a0 a1 : Z) : sys Z :=
  let! r := path_call a0 a1 (λ now task path, unlink_path now task path) in sret (zero_or_max r).
(** [syscall.rs:590-610, !SYS_RMDIR] *)
Definition sys_rmdir (a0 a1 : Z) : sys Z :=
  let! r := path_call a0 a1 (λ _ task path, rmdir_path task path) in sret (zero_or_max r).
(** [syscall.rs:611-631, !SYS_MKDIR] *)
Definition sys_mkdir (a0 a1 : Z) : sys Z :=
  let! r := path_call a0 a1 (λ now task path, mkdir now task path) in sret (zero_or_max r).
(** [syscall.rs:632-652, !SYS_TRUNCATE] *)
Definition sys_truncate (a0 a1 a2 : Z) : sys Z :=
  let! r := path_call a0 a1 (λ _ task path, truncate_path task path a2) in sret (zero_or_max r).
(** [syscall.rs:653-670, !SYS_CHMOD] *)
Definition sys_chmod (a0 a1 a2 : Z) : sys Z :=
  let! r := path_call a0 a1 (λ now task path, chmod_path now task path (wrap 16 a2)) in sret (zero_or_max r).
(** [syscall.rs:671-690, !SYS_CHOWN] *)
Definition sys_chown (a0 a1 a2 : Z) : sys Z :=
  let uid := Z.land (Z.shiftr a2 16) 0xFFFF in
  let gid := Z.land a2 0xFFFF in
  let! r := path_call a0 a1 (λ now task path, chown_path now task path uid gid) in sret (zero_or_max r).

(** What [stat] writes: 20 of the 24 bytes that were checked. *)
Definition stat_bytes (st : file_stat) : bytes :=
  [st_type st; 0] ++ le_enc 2 (st_mode st) ++ le_enc 2 (st_uid st) ++ le_enc 2 (st_gid st) ++
  le_enc 8 (st_size st) ++ le_enc 4 (st_mtime st).

(** [syscall.rs:691-722, !SYS_STAT] *)
Definition sys_stat (a0 a1 a2 : Z) : sys Z :=
  let! bad := bad_pointer a2 24 in
  if bad : bool then sret u64_max else
  let! r := path_call a0 a1 (λ _ _ path, sread (stat_path path)) in
  match r with
  | None => sret u64_max
  | Some st => let! _ := user_store a2 (stat_bytes st) in sret 0
  end.

(** [do_wait]: its rounds, with what happens while the task sleeps. *)
Fixpoint wait_loop (others : list (skernel → skernel)) (ptr : Z) (round : sys (option Z)) : sys Z :=
  let! r := round in
  match r with
  | Some v => sret v
  | None =>
      match others with
      | [] => λ k, (Diverge, k)
      | o :: others => let! _ := smodify o in wait_loop others ptr (wait_resume ptr)
      end
  end.

(** [syscall.rs:723-736, !SYS_WAIT] *)
Definition sys_wait (others : list (skernel → skernel)) (a0 : Z) : sys Z :=
  let! bad := bad_pointer a0 4 in
  if negb (a0 =? 0) && bad then sret u64_max else
  wait_loop others a0 (wait_round a0).

(** [syscall.rs:737-770, !SYS_EXEC]: the result and the trap frame. *)
Definition sys_exec (f : frame) (a0 a1 a2 : Z) : sys (Z * frame) :=
  let! ok := has_role ROLE_FILE_SYSTEM in
  if negb ok then sret (u64_max, f) else
  let a3 := reg R_R10 f in
  let! is_user := user_ring in
  let! path := user_path a0 a1 in
  match path with
  | None => sret (u64_max, f)
  | Some path =>
      let! argv := copy_user_cstr_array a2 is_user in
      let! envp := copy_user_cstr_array a3 is_user in
      do_exec f path argv envp
  end.

(** [syscall.rs:771-784, !SYS_FORK] *)
Definition sys_fork (f : frame) : sys Z :=
  let! ok := has_role ROLE_SPAWN in
  if negb ok then sret u64_max else do_fork f.

(** [syscall.rs:785-806, !SYS_PIPE] *)
Definition sys_pipe (a0 : Z) : sys Z :=
  let! bad := bad_pointer a0 8 in
  if bad : bool then sret u64_max else
  if a0 =? 0 then sret u64_max else
  let! task := s_current_id in
  let! r := on_fs (pipe (wrap32 task)) in
  match r with
  | None => sret u64_max
  | Some (read_fd, write_fd) =>
      let! _ := user_store a0 (le_enc 4 read_fd ++ le_enc 4 write_fd) in sret 0
  end.

(** [syscall.rs:807-807, !SYS_GETPPID] *)
Definition sys_getppid : sys Z := sget current_ppid.

(** [syscall.rs:808-819, !SYS_KILL]: [None]: the caller killed itself. *)
Definition sys_kill (a0 a1 : Z) : sys (option Z) :=
  let! ok := has_role ROLE_KILL in
  if negb ok then sret (Some u64_max) else
  λ k, let p := do_kill a0 (wrap32 a1) k in (Ok p.1, p.2).

(** [syscall.rs:820-832, !SYS_SIGNAL] *)
Definition sys_signal (a0 a1 a2 : Z) : sys Z :=
  let! ok := has_role ROLE_KILL in
  if negb ok then sret u64_max else
  λ k, let p := do_signal (wrap32 a0) a1 a2 k in (Ok p.1, p.2).

(** [syscall.rs:833-838, !SYS_SIGRETURN] *)
Definition sys_sigreturn (f : frame) : sys (Z * frame) := λ k,
  let p := do_sigreturn f k in (Ok p.1, p.2).

(** ** Windows *)

(** [syscall.rs:839-859, !SYS_WIN_CREATE] *)
Definition sys_win_create (f : frame) (a0 a1 a2 : Z) : sys Z :=
  let title_len := reg R_R10 f in
  let! bad := bad_pointer a2 title_len in
  if negb (a2 =? 0) && bad then sret u64_max else
  let! title :=
    if negb (a2 =? 0) && (0 <? title_len) then
      let! s := user_load a2 (Z.to_nat title_len) in
      sret (if utf8_valid s then s else str "window")
    else sret (str "window") in
  let! owner := s_current_id in
  let! r := on_wm (Wm.create_window owner a0 a1 title) in
  sret (or_max id r).

(** Ring 3 may use its own windows only, and its own buffers. *)
Definition may_use_window (win ptr len : Z) : sys bool :=
  let! u := user_ring in
  let! id := s_current_id in
  let! own := sget (λ k, Wm.is_owner win id (w_wm (k_env k))) in
  sret (negb u || (own && is_user_pointer ptr len)).

(** Four bytes each. *)
Definition pixels_of (bs : bytes) : list Z :=
  (λ i, le_dec (slice (Z.to_nat (4 * i)) 4 bs)) <$> seqZ 0 (Z.of_nat (length bs) / 4).

(** [syscall.rs:860-883, !SYS_WIN_COMMIT]: as many pixels are read as fit. *)
Definition sys_win_commit (a0 a1 a2 : Z) : sys Z :=
  let! ok := may_use_window a0 a1 a2 in
  if negb ok then sret u64_max else
  let px_count := a2 / 4 in
  let! room := sget (λ k, match Wm.windows (w_wm (k_env k)) !! a0 with
                          | Some w => Z.of_nat (length (Wm.w_pixels w)) | None => 0 end) in
  let! bs := user_load a1 (Z.to_nat (4 * Z.min px_count room)) in
  let! r := on_wm (Wm.commit a0 (pixels_of bs)) in
  sret (bool_or_max r).

(** [syscall.rs:884-905, !SYS_WIN_POLL] *)
Definition sys_win_poll (a0 a1 : Z) : sys Z :=
  let! ok := may_use_window a0 a1 16 in
  if negb ok then sret u64_max else
  let! r := on_wm (Wm.poll_event a0) in
  match r with
  | Some ev => let! _ := user_store a1 (Wm.event_to_bytes ev) in sret 1
  | None => sret 0
  end.

(** [syscall.rs:906-918, !SYS_WIN_DESTROY] *)
Definition sys_win_destroy (a0 : Z) : sys Z :=
  let! u := user_ring in
  let! id := s_current_id in
  let! own := sget (λ k, Wm.is_owner a0 id (w_wm (k_env k))) in
  if u && negb own then sret u64_max else
  let! r := on_wm (Wm.destroy_window a0) in
  sret (bool_or_max r).

(** [syscall.rs:919-942, !SYS_WIN_INFO] *)
Definition sys_win_info (a0 a1 : Z) : sys Z :=
  let! ok := may_use_window a0 a1 16 in
  if negb ok then sret u64_max else
  let! r := sget (λ k, Wm.window_info a0 (w_wm (k_env k))) in
  match r with
  | None => sret u64_max
  | Some (x, y, w, h) =>
      let! _ := user_store a1 (le_enc 4 w ++ le_enc 4 h ++ le_enc 4 (wrap32 x) ++ le_enc 4 (wrap32 y)) in
      sret 0
  end.

(** ** Sockets *)

(** [syscall.rs:943-976, !SYS_SOCKET] *)
Definition sys_socket (a0 a1 : Z) : sys Z :=
  let! ok := has_role ROLE_NETWORK in
  if negb ok then sret u64_max else
  if negb (a0 =? 2) || negb (a1 =? 1) then sret u64_max else
  let! r := on_sockets Net.create_tcp_socket in
  match r with
  | None => sret u64_max
  | Some socket_id =>
      let! task := s_current_id in
      let! fd := on_fs (socket (wrap32 task) socket_id) in
      match fd with
      | Some fd => sret fd
      | None => let! _ := on_sockets (Net.tcp_close socket_id) in sret u64_max
      end
  end.

(** The port of a [sockaddr_in], in network order. *)
Definition port_of (bs : bytes) : Z := nth 0 bs 0 * 256 + nth 1 bs 0.

(** The socket behind a descriptor of the caller, and a call on it. *)
Definition with_socket (sockfd : Z) (f : Z → sys Z) : sys Z :=
  let! task := s_current_id in
  let! s := get_socket_id (wrap32 task) (wrap32 sockfd) in
  match s with None => sret u64_max | Some id => f id end.

(** [syscall.rs:977-1010, !SYS_BIND] *)
Definition sys_bind (a0 a1 a2 : Z) : sys Z :=
  let! bad := bad_pointer a1 a2 in
  if bad : bool then sret u64_max else
  if a2 <? 8 then sret u64_max else
  let! bs := user_load (wrap64 (a1 + 2)) 2 in
  with_socket a0 (λ id,
    let! r := on_sockets (Net.tcp_bind id (port_of bs)) in sret (zero_or_max r)).

(** [syscall.rs:1011-1032, !SYS_LISTEN]: an unbound socket listens on port 7. *)
Definition sys_listen (a0 : Z) : sys Z :=
  with_socket a0 (λ id,
    let! port := sget (λ k, default 7 (Net.bound_port id (d_net (v_env (w_vfs (k_env k)))))) in
    let! r := on_sockets (Net.tcp_listen id port) in sret (zero_or_max r)).

Definition MAX_SPINS : Z := 50000000.
(** The wait for a peer: whether it came. *)
Fixpoint accept_loop (others : list (skernel → skernel)) (id spins : Z) : sys bool :=
  let! ready := on_sockets (Net.tcp_accept_ready id) in
  if default false ready then sret true else
  let! _ := smodify yield_now in
  match others with
  | [] => λ k, (Diverge, k)
  | o :: others =>
      let! _ := smodify o in
      if MAX_SPINS <=? spins + 1 then sret false else accept_loop others id (spins + 1)
  end.

(** The peer's address: family, port and address are cleared first. *)
Definition store_peer (id ptr : Z) : sys unit :=
  let! _ := user_store ptr (replicate 8 0) in
  let! _ := user_store ptr [2] in
  let! r := on_sockets (Net.tcp_remote_endpoint id) in
  match mjoin r with
  | None => sret tt
  | Some (ip, port) => user_store (wrap64 (ptr + 2)) ([Z.shiftr port 8; Z.land port 0xFF] ++ ip)
  end.

(** [syscall.rs:1033-1089, !SYS_ACCEPT] *)
Definition sys_accept (others : list (skernel → skernel)) (a0 a1 a2 : Z) : sys Z :=
  let want_addr := negb (a1 =? 0) in
  let! bad := bad_pointer a1 a2 in
  if want_addr && ((a2 <? 8) || bad) then sret u64_max else
  with_socket a0 (λ id,
    let! ready := accept_loop others id 0 in
    if negb ready then sret u64_max else
    let! _ := if want_addr then store_peer id a1 else sret tt in
    sret (wrap32 a0)).

(** [syscall.rs:1090-1101, !SYS_SHUTDOWN] *)
Definition sys_shutdown (a0 : Z) : sys Z :=
  with_socket a0 (λ id, let! _ := on_sockets (Net.tcp_close id) in sret 0).

(** [syscall.rs:1102-1138, !SYS_CONNECT] *)
Definition sys_connect (a0 a1 a2 : Z) : sys Z :=
  let! bad := bad_pointer a1 a2 in
  if bad : bool then sret u64_max else
  if a2 <? 8 then sret u64_max else
  let! bs := user_load (wrap64 (a1 + 2)) 6 in
  with_socket a0 (λ id,
    let local_port := 49152 + wrap 16 id mod 10000 in
    let! r := on_sockets (Net.tcp_connect id (drop 2 bs) (port_of bs) local_port) in
    sret (zero_or_max r)).

(** Whether [tcp_send] gets to the data. *)
Definition net_takes (id : Z) (n : option Net.stack) : bool :=
  match n with
  | Some s => match Net.n_map s !! id with
              | Some h => Net.sk_may_send (Net.n_sockets s) h
              | None => false
              end
  | None => false
  end.

(** [syscall.rs:1139-1166, !SYS_SEND] *)
Definition sys_send (a0 a1 a2 : Z) : sys Z :=
  let! bad := bad_pointer a1 a2 in
  if bad : bool then sret u64_max else
  with_socket a0 (λ id,
    let! looks := sget (λ k, net_takes id (d_net (v_env (w_vfs (k_env k))))) in
    let! data := if looks : bool then user_load a1 (Z.to_nat a2) else sret [] in
    let! r := on_sockets (Net.tcp_send id data) in sret (or_max (λ n, n) r)).

(** [syscall.rs:1167-1194, !SYS_RECV] *)
Definition sys_recv (a0 a1 a2 : Z) : sys Z :=
  let! bad := bad_pointer a1 a2 in
  if bad : bool then sret u64_max else
  with_socket a0 (λ id,
    let! r := on_sockets (Net.tcp_recv id (replicate (Z.to_nat a2) 0)) in
    match r with
    | None => sret u64_max
    | Some (n, buf) => let! _ := user_store a1 (take (Z.to_nat n) buf) in sret n
    end).

(** [syscall.rs:1195-1217, !SYS_CAP_GRANT] *)
Definition sys_cap_grant (a0 a1 a2 : Z) : sys Z :=
  let! caller := s_current_id in
  let slot := Z.to_nat a1 in
  let! ok := sget (λ k, check caller slot Rights.GRANT (w_caps (k_env k))) in
  if negb ok then sret u64_max else
  let! r := on_caps (grant caller slot a0 (wrap32 a2)) in
  sret (or_max Z.of_nat r).

(** ** The dispatcher *)

(** Calls that return a value and leave the trap frame alone. *)
Definition plain_call (others : list (skernel → skernel)) (vothers : list (svfs → svfs))
    (f : frame) (num a0 a1 a2 : Z) : sys Z :=
  if num =? SYS_PRINT then sys_print a0 a1
  else if num =? SYS_GETPID then sys_getpid
  else if num =? SYS_YIELD then sys_yield others
  else if num =? SYS_TICKS then sys_ticks
  else if num =? SYS_IPC_SEND then sys_ipc_send a0 a1
  else if num =? SYS_IPC_RECV then sys_ipc_recv a0
  else if num =? SYS_CAP_CHECK then sys_cap_check a0 a1
  else if num =? SYS_SLEEP then sys_sleep others a0
  else if num =? SYS_SPAWN then sys_spawn a0 a1 a2
  else if num =? SYS_MMAP then sys_mmap a0 a1 a2
  else if num =? SYS_MUNMAP then sys_munmap a0 a1
  else if num =? SYS_OPEN then sys_open a0 a1 a2
  else if num =? SYS_READ then sys_read vothers a0 a1 a2
  else if num =? SYS_WRITE then sys_write vothers a0 a1 a2
  else if num =? SYS_CLOSE then sys_close a0
  else if num =? SYS_LSEEK then sys_lseek a0 a1 a2
  else if num =? SYS_UNLINK then sys_unlink a0 a1
  else if num =? SYS_RMDIR then sys_rmdir a0 a1
  else if num =? SYS_MKDIR then sys_mkdir a0 a1
  else if num =? SYS_TRUNCATE then sys_truncate a0 a1 a2
  else if num =? SYS_CHMOD then sys_chmod a0 a1 a2
  else if num =? SYS_CHOWN then sys_chown a0 a1 a2
  else if num =? SYS_STAT then sys_stat a0 a1 a2
  else if num =? SYS_WAIT then sys_wait others a0
  else if num =? SYS_FORK then sys_fork f
  else if num =? SYS_PIPE then sys_pipe a0
  else if num =? SYS_GETPPID then sys_getppid
  else if num =? SYS_SIGNAL then sys_signal a0 a1 a2
  else if num =? SYS_WIN_CREATE then sys_win_create f a0 a1 a2
  else if num =? SYS_WIN_COMMIT then sys_win_commit a0 a1 a2
  else if num =? SYS_WIN_POLL then sys_win_poll a0 a1
  else if num =? SYS_WIN_DESTROY then sys_win_destroy a0
  else if num =? SYS_WIN_INFO then sys_win_info a0 a1
  else if num =? SYS_SOCKET then sys_socket a0 a1
  else if num =? SYS_BIND then sys_bind a0 a1 a2
  else if num =? SYS_CONNECT then sys_connect a0 a1 a2
  else if num =? SYS_LISTEN then sys_listen a0
  else if num =? SYS_ACCEPT then sys_accept others a0 a1 a2
  else if num =? SYS_SEND then sys_send a0 a1 a2
  else if num =? SYS_RECV then sys_recv a0 a1 a2
  else if num =? SYS_SHUTDOWN then sys_shutdown a0
  else if num =? SYS_CAP_GRANT then sys_cap_grant a0 a1 a2
  else sret u64_max.

(** [syscall.rs:354-360, !syscall_dispatch_inner]: [None] when the caller is no
    more, else the value for [rax] and the trap frame. *)
Definition syscall_dispatch_inner (others : list (skernel → skernel))
    (vothers : list (svfs → svfs)) (f : frame) : sys (option (Z * frame)) :=
  let num := reg R_RAX f in
  let a0 := reg R_RDI f in
  let a1 := reg R_RSI f in
  let a2 := reg R_RDX f in
  if (num =? SYS_EXIT) || (num =? SYS_EXIT2) then
    let! r := sys_exit a0 in sret ((λ v, (v, f)) <$> r)
  else if num =? SYS_KILL then
    let! r := sys_kill a0 a1 in sret ((λ v, (v, f)) <$> r)
  else if num =? SYS_EXEC then
    let! p := sys_exec f a0 a1 a2 in sret (Some p)
  else if num =? SYS_SIGRETURN then
    let! p := sys_sigreturn f in sret (Some p)
  else
    let! v := plain_call others vothers f num a0 a1 a2 in sret (Some (v, f)).

(** [syscall.rs:341-352, syscall_dispatch]: a pending signal is delivered on the
    way out, except after [sigreturn]; [syscall_stub] stores the result into the
    frame's [rax]. *)
Definition syscall_dispatch (others : list (skernel → skernel))
    (vothers : list (svfs → svfs)) (f : frame) : sys (option frame) :=
  let num := reg R_RAX f in
  let! r := syscall_dispatch_inner others vothers f in
  match r with
  | None => sret None
  | Some (ret, f) =>
      let! f := if num =? SYS_SIGRETURN then sret f else deliver_pending_signals f ret in
      sret (Some (<[R_RAX := ret]> f))
  end.
End syscalls.
