(* ===== verification/SyscallGate.v ===== *)
(** * The boundary checks of the system calls

    What a call needs - a capability, ownership of a window, buffers in the
    user half - is written down per call number, and a call that lacks any of it
    is refused before anything has changed. *)

From S2P Require Import Prelude Capability Block VfsTable Vfs Signal Task TaskSpec TaskTree TaskSteps TaskRun Ipc Frames Paging Memory Elf UserMem Wm Net World Utf8 Syscall.

(** ** Pointers *)

(** The check is exact: it accepts the buffers that lie below 2^47, and no sum
    wraps. *)
Lemma is_user_pointer_spec ptr len :
  0 ≤ ptr → 0 ≤ len → is_user_pointer ptr len = true ↔ ptr < 2 ^ 47 ∧ ptr + len ≤ 2 ^ 47.
Proof.
  intros Hp Hl. unfold is_user_pointer, USER_SPACE_MAX. change 0x800000000000 with (2 ^ 47).
  destruct (Z.leb_spec (2 ^ 47) ptr); [split; [done|lia]|].
  destruct (Z.ltb_spec (ptr + len) (2 ^ 64)); [rewrite Z.leb_le; lia|]. split; [done|lia].
Qed.

Lemma is_user_pointer_byte ptr len x :
  0 ≤ ptr → 0 ≤ len → is_user_pointer ptr len = true → ptr ≤ x < ptr + len → x < 2 ^ 47.
Proof. intros ?? [??]%is_user_pointer_spec ?; lia. Qed.

Section gate.
Context {C D : Type} `{Con : Console C} `{Prn : Printer C} `{Nt : Net.Smoltcp} `{BD : BlockDev D}
  `{Pg : Paging} `{Ad : Addresses} `{Cp : Processor} `{Sel : Selectors} `{Um : Unmapper}.
Implicit Types k : (kernel (@world C D Nt)).

(** ** What the shared steps compute *)

Lemma current_run k t : runs k t → current k = (Ok t, k).
Proof. intros [Ht _]. unfold current, with_cur. by rewrite Ht. Qed.
Lemma s_current_id_run k t : runs k t → s_current_id k = (Ok (t_id t), k).
Proof. intros Hr. unfold s_current_id, sbind. by rewrite (current_run k t Hr). Qed.
Lemma user_ring_run k t : runs k t → user_ring k = (Ok (bool_decide (t_ring t = RUser)), k).
Proof. intros Hr. unfold user_ring, sbind. by rewrite (current_run k t Hr). Qed.

Definition is_bad (t : task) (p : Z * Z) : bool :=
  bool_decide (t_ring t = RUser) && negb (is_user_pointer p.1 p.2).
Lemma bad_pointer_run k t ptr len : runs k t → bad_pointer ptr len k = (Ok (is_bad t (ptr, len)), k).
Proof. intros Hr. unfold bad_pointer, sbind. by rewrite (user_ring_run k t Hr). Qed.

Definition caps_of k : tables := w_caps (k_env k).
Definition holds_role (t : task) (role : Z) k : bool := check_role (t_id t) role Rights.SEND (caps_of k).
Definition holds_endpoint (t : task) (rights ep : Z) k : bool :=
  bool_decide (is_Some (find_object (t_id t) rights
    (λ obj, match obj with Capability.Endpoint e => e =? ep | _ => false end) (caps_of k))).
Lemma has_role_run k t role : runs k t → has_role role k = (Ok (holds_role t role k), k).
Proof. intros Hr. unfold has_role, sbind. by rewrite (s_current_id_run k t Hr). Qed.
Lemma has_endpoint_run k t rights ep :
  runs k t → has_endpoint rights ep k = (Ok (holds_endpoint t rights ep k), k).
Proof. intros Hr. unfold has_endpoint, sbind. by rewrite (s_current_id_run k t Hr). Qed.

Definition owns (t : task) (win : Z) k : bool :=
  negb (bool_decide (t_ring t = RUser)) || Wm.is_owner win (t_id t) (w_wm (k_env k)).
Lemma may_use_window_run k t win ptr len :
  runs k t → may_use_window win ptr len k = (Ok (owns t win k && negb (is_bad t (ptr, len))), k).
Proof.
  intros Hr. unfold may_use_window, sbind. rewrite (user_ring_run k t Hr), (s_current_id_run k t Hr).
  unfold sget, sret, owns, is_bad. cbn. destruct (bool_decide _), (Wm.is_owner _ _ _), (is_user_pointer _ _); done.
Qed.

(** ** What each call needs *)

(** The role a call needs. *)
Definition role_for (num : Z) : option Z :=
  if (num =? SYS_SPAWN) || (num =? SYS_FORK) then Some ROLE_SPAWN
  else if (num =? SYS_OPEN) || (num =? SYS_EXEC) then Some ROLE_FILE_SYSTEM
  else if (num =? SYS_KILL) || (num =? SYS_SIGNAL) then Some ROLE_KILL
  else if num =? SYS_SOCKET then Some ROLE_NETWORK
  else None.

(** Its other rights: an endpoint, a slot with the grant right, a window of its
    own, an address space of its own. *)
Definition rights_for (t : task) (num a0 a1 : Z) k : bool :=
  if num =? SYS_IPC_SEND then holds_endpoint t Rights.SEND a0 k
  else if num =? SYS_IPC_RECV then holds_endpoint t Rights.RECV a0 k
  else if num =? SYS_CAP_GRANT then check (t_id t) (Z.to_nat a1) Rights.GRANT (caps_of k)
  else if (num =? SYS_WIN_COMMIT) || (num =? SYS_WIN_POLL) || (num =? SYS_WIN_DESTROY) || (num =? SYS_WIN_INFO)
  then owns t a0 k
  else if (num =? SYS_MMAP) || (num =? SYS_MUNMAP) then bool_decide (t_ring t = RUser)
  else true.

(** The buffers it names: pointer and length; a null pointer may stand for
    "none". *)
Definition unless_null (ptr len : Z) : list (Z * Z) := if ptr =? 0 then [] else [(ptr, len)].
Definition buffers (num a0 a1 a2 r10 : Z) : list (Z * Z) :=
  if (num =? SYS_PRINT) || (num =? SYS_OPEN) || (num =? SYS_EXEC) || (num =? SYS_UNLINK) || (num =? SYS_RMDIR)
     || (num =? SYS_MKDIR) || (num =? SYS_TRUNCATE) || (num =? SYS_CHMOD) || (num =? SYS_CHOWN)
  then [(a0, a1)]
  else if num =? SYS_STAT then [(a0, a1); (a2, 24)]
  else if (num =? SYS_READ) || (num =? SYS_WRITE) || (num =? SYS_SEND) || (num =? SYS_RECV)
          || (num =? SYS_BIND) || (num =? SYS_CONNECT) || (num =? SYS_WIN_COMMIT)
  then [(a1, a2)]
  else if (num =? SYS_WIN_POLL) || (num =? SYS_WIN_INFO) then [(a1, 16)]
  else if num =? SYS_SPAWN then (a0, a1) :: unless_null a2 256
  else if num =? SYS_WAIT then unless_null a0 4
  else if num =? SYS_PIPE then [(a0, 8)]
  else if num =? SYS_WIN_CREATE then unless_null a2 r10
  else if num =? SYS_ACCEPT then unless_null a1 a2
  else [].

(** Whether the call gets past the checks. *)
Definition admitted (t : task) (f : frame) k : bool :=
  let num := reg R_RAX f in
  let a0 := reg R_RDI f in
  match role_for num with Some r => holds_role t r k | None => true end &&
  rights_for t num a0 (reg R_RSI f) k &&
  forallb (λ b, negb (is_bad t b)) (buffers num a0 (reg R_RSI f) (reg R_RDX f) (reg R_R10 f)).

(** ** Refusal *)

Lemma path_call_bad {A} k t ptr len (g : Z → Z → bytes → stm _ _ A) :
  runs k t → is_bad t (ptr, len) = true → path_call ptr len g k = (Ok None, k).
Proof.
  intros Hr Hb. unfold path_call, user_path, sbind. by rewrite (bad_pointer_run k t ptr len Hr), Hb.
Qed.

(** A check that fails, whatever comes after it. *)
#[local] Ltac checks Hr Hc :=
  unfold sbind;
  repeat first [ rewrite (has_role_run _ _ _ Hr) | rewrite (has_endpoint_run _ _ _ _ Hr)
               | rewrite (bad_pointer_run _ _ _ _ Hr) | rewrite (may_use_window_run _ _ _ _ _ Hr)
               | rewrite (user_ring_run _ _ Hr) | rewrite (s_current_id_run _ _ Hr) ];
  unfold sget, sret in *; cbn [fst snd] in *;
  repeat match goal with |- context [is_bad ?t ?p] => destruct (is_bad t p) eqn:? end;
  repeat match goal with |- context [holds_role ?t ?r ?k] => destruct (holds_role t r k) eqn:? end;
  cbn in *; try done.

Section refuse.
Context (others : list ((kernel (@world C D Nt)) → (kernel (@world C D Nt))))
  (vothers : list (vfs (@devices C Nt) D → vfs (@devices C Nt) D)).
Context (f : frame) (k : (kernel (@world C D Nt))) (t : task) (Hr : runs k t).

(** The calls on a path all refuse a bad one. *)
Lemma path_call_refused {A} (g : Z → Z → bytes → stm _ _ A) (h : option A → Z) ptr len :
  h None = u64_max → is_bad t (ptr, len) = true →
  (let! r := path_call ptr len g in sret (h r)) k = (Ok u64_max, k).
Proof. intros Hh Hb. unfold sbind. rewrite (path_call_bad k t) by done. by rewrite <-Hh. Qed.

Lemma open_refused a0 a1 a2 :
  holds_role t ROLE_FILE_SYSTEM k && negb (is_bad t (a0, a1)) = false →
  sys_open a0 a1 a2 k = (Ok u64_max, k).
Proof.
  intros Hc. unfold sys_open. unfold sbind at 1. rewrite (has_role_run _ _ _ Hr).
  destruct (holds_role _ _ _); [|done]. cbn [negb andb] in *. apply negb_false_iff in Hc.
  by apply path_call_refused.
Qed.
Lemma exec_refused a0 a1 a2 :
  holds_role t ROLE_FILE_SYSTEM k && negb (is_bad t (a0, a1)) = false →
  sys_exec f a0 a1 a2 k = (Ok (u64_max, f), k).
Proof.
  intros Hc. unfold sys_exec, sbind. rewrite (has_role_run _ _ _ Hr).
  destruct (holds_role _ _ _); [|done]. cbn [negb andb] in *. apply negb_false_iff in Hc.
  rewrite (user_ring_run _ _ Hr). unfold user_path, sbind. by rewrite (bad_pointer_run _ _ _ _ Hr), Hc.
Qed.
Lemma stat_refused a0 a1 a2 :
  negb (is_bad t (a0, a1)) && negb (is_bad t (a2, 24)) = false → sys_stat a0 a1 a2 k = (Ok u64_max, k).
Proof.
  intros Hc. unfold sys_stat, sbind. rewrite (bad_pointer_run _ _ _ _ Hr).
  destruct (is_bad t (a2, 24)); [done|]. rewrite (path_call_bad k t); [done..|].
  destruct (is_bad t (a0, a1)); done.
Qed.
Lemma spawn_refused a0 a1 a2 : sys_spawn a0 a1 a2 k = (Ok u64_max, k).
Proof.
  unfold sys_spawn, sbind. rewrite (has_role_run _ _ _ Hr).
  destruct (holds_role _ _ _); [|done]. cbn [negb]. rewrite (bad_pointer_run _ _ _ _ Hr).
  destruct (is_bad _ (a0, a1)); [done|]. rewrite (bad_pointer_run _ _ _ _ Hr). by destruct (_ && _).
Qed.
Lemma unless_null_bad ptr len :
  forallb (λ b, negb (is_bad t b)) (unless_null ptr len) = false → (ptr =? 0) = false ∧ is_bad t (ptr, len) = true.
Proof. unfold unless_null. destruct (ptr =? 0); [done|]. cbn. destruct (is_bad t (ptr, len)); done. Qed.
Lemma bind_refused a0 a1 a2 : is_bad t (a1, a2) = true → sys_bind a0 a1 a2 k = (Ok u64_max, k).
Proof. intros Hc. unfold sys_bind. checks Hr Hc. Qed.
Lemma connect_refused a0 a1 a2 : is_bad t (a1, a2) = true → sys_connect a0 a1 a2 k = (Ok u64_max, k).
Proof. intros Hc. unfold sys_connect. checks Hr Hc. Qed.
Lemma send_refused a0 a1 a2 : is_bad t (a1, a2) = true → sys_send a0 a1 a2 k = (Ok u64_max, k).
Proof. intros Hc. unfold sys_send. checks Hr Hc. Qed.
Lemma recv_refused a0 a1 a2 : is_bad t (a1, a2) = true → sys_recv a0 a1 a2 k = (Ok u64_max, k).
Proof. intros Hc. unfold sys_recv. checks Hr Hc. Qed.
Lemma read_refused a0 a1 a2 : is_bad t (a1, a2) = true → sys_read vothers a0 a1 a2 k = (Ok u64_max, k).
Proof. intros Hc. unfold sys_read. checks Hr Hc. Qed.
Lemma write_refused a0 a1 a2 : is_bad t (a1, a2) = true → sys_write vothers a0 a1 a2 k = (Ok u64_max, k).
Proof. intros Hc. unfold sys_write. checks Hr Hc. Qed.
Lemma print_refused a0 a1 : is_bad t (a0, a1) = true → sys_print a0 a1 k = (Ok u64_max, k).
Proof. intros Hc. unfold sys_print. checks Hr Hc. Qed.
Lemma pipe_refused a0 : is_bad t (a0, 8) = true → sys_pipe a0 k = (Ok u64_max, k).
Proof. intros Hc. unfold sys_pipe. checks Hr Hc. Qed.
Lemma wait_refused a0 : (a0 =? 0) = false → is_bad t (a0, 4) = true → sys_wait others a0 k = (Ok u64_max, k).
Proof. intros H0 Hc. unfold sys_wait. rewrite H0. checks Hr Hc. Qed.
Lemma accept_refused a0 a1 a2 :
  (a1 =? 0) = false → is_bad t (a1, a2) = true → sys_accept others a0 a1 a2 k = (Ok u64_max, k).
Proof. intros H0 Hc. unfold sys_accept. rewrite H0. checks Hr Hc. by rewrite orb_true_r. Qed.
Lemma win_create_refused a0 a1 a2 :
  (a2 =? 0) = false → is_bad t (a2, reg R_R10 f) = true → sys_win_create f a0 a1 a2 k = (Ok u64_max, k).
Proof. intros H0 Hc. unfold sys_win_create. rewrite H0. checks Hr Hc. Qed.
Lemma win_commit_refused a0 a1 a2 :
  owns t a0 k && negb (is_bad t (a1, a2)) = false → sys_win_commit a0 a1 a2 k = (Ok u64_max, k).
Proof.
  intros Hc. unfold sys_win_commit, sbind. by rewrite (may_use_window_run _ _ _ _ _ Hr), Hc.
Qed.
Lemma win_poll_refused a0 a1 :
  owns t a0 k && negb (is_bad t (a1, 16)) = false → sys_win_poll a0 a1 k = (Ok u64_max, k).
Proof.
  intros Hc. unfold sys_win_poll, sbind. by rewrite (may_use_window_run _ _ _ _ _ Hr), Hc.
Qed.
Lemma win_info_refused a0 a1 :
  owns t a0 k && negb (is_bad t (a1, 16)) = false → sys_win_info a0 a1 k = (Ok u64_max, k).
Proof.
  intros Hc. unfold sys_win_info, sbind. by rewrite (may_use_window_run _ _ _ _ _ Hr), Hc.
Qed.
Lemma win_destroy_refused a0 : owns t a0 k = false → sys_win_destroy a0 k = (Ok u64_max, k).
Proof.
  intros Hc. unfold sys_win_destroy, sbind. rewrite (user_ring_run _ _ Hr), (s_current_id_run _ _ Hr).
  unfold owns, sget in *. apply orb_false_iff in Hc as [->%negb_false_iff ->]. done.
Qed.
Lemma role_refused {A} role (m : stm _ _ A) (v : A) :
  holds_role t role k = false → (let! ok := has_role role in if negb ok then sret v else m) k = (Ok v, k).
Proof. intros Hc. unfold sbind. by rewrite (has_role_run _ _ _ Hr), Hc. Qed.
Lemma endpoint_refused rights ep (m : stm _ _ Z) :
  holds_endpoint t rights ep k = false →
  (let! ok := has_endpoint rights ep in if negb ok then sret u64_max else m) k = (Ok u64_max, k).
Proof. intros Hc. unfold sbind. by rewrite (has_endpoint_run _ _ _ _ Hr), Hc. Qed.
Lemma cap_grant_refused a0 a1 a2 :
  check (t_id t) (Z.to_nat a1) Rights.GRANT (caps_of k) = false → sys_cap_grant a0 a1 a2 k = (Ok u64_max, k).
Proof.
  intros Hc. unfold sys_cap_grant, sbind. rewrite (s_current_id_run _ _ Hr). unfold sget.
  unfold caps_of in Hc. by rewrite Hc.
Qed.
Lemma ring_refused (m : stm _ _ Z) :
  bool_decide (t_ring t = RUser) = false → (let! u := user_ring in if negb u then sret u64_max else m) k = (Ok u64_max, k).
Proof. intros Hc. unfold sbind. by rewrite (user_ring_run _ _ Hr), Hc. Qed.

(** What the checks say, as one condition on number and arguments. *)
Definition admits (num a0 a1 a2 : Z) : bool :=
  match role_for num with Some r => holds_role t r k | None => true end &&
  rights_for t num a0 a1 k && forallb (λ b, negb (is_bad t b)) (buffers num a0 a1 a2 (reg R_R10 f)).

#[local] Ltac eval_eqb :=
  repeat match goal with |- context [?a =? ?b] =>
    let v := eval vm_compute in (a =? b) in
    lazymatch v with true => idtac | false => idtac end; change (a =? b) with v end.
#[local] Ltac call_case num X := destruct (Z.eqb_spec num X) as [->|?]; [eval_eqb; cbn [orb andb forallb] |].

Lemma plain_refused num a0 a1 a2 :
  num ≠ SYS_KILL → num ≠ SYS_EXEC → admits num a0 a1 a2 = false →
  plain_call others vothers f num a0 a1 a2 k = (Ok u64_max, k).
Proof.
  intros Hk He. unfold admits, role_for, rights_for, buffers, plain_call.
  destruct (Z.eqb_spec num SYS_KILL); [done|]. destruct (Z.eqb_spec num SYS_EXEC); [done|].
  call_case num SYS_PRINT. { rewrite andb_true_r, negb_false_iff. apply print_refused. }
  call_case num SYS_GETPID. { done. }
  call_case num SYS_YIELD. { done. }
  call_case num SYS_TICKS. { done. }
  call_case num SYS_IPC_SEND. { rewrite andb_true_r. apply endpoint_refused. }
  call_case num SYS_IPC_RECV. { rewrite andb_true_r. apply endpoint_refused. }
  call_case num SYS_CAP_CHECK. { done. }
  call_case num SYS_SLEEP. { done. }
  call_case num SYS_SPAWN. { intros _. apply spawn_refused. }
  call_case num SYS_MMAP. { rewrite andb_true_r. apply ring_refused. }
  call_case num SYS_MUNMAP. { rewrite andb_true_r. apply ring_refused. }
  call_case num SYS_OPEN. { rewrite !andb_true_r. apply open_refused. }
  call_case num SYS_READ. { rewrite andb_true_r, negb_false_iff. apply read_refused. }
  call_case num SYS_WRITE. { rewrite andb_true_r, negb_false_iff. apply write_refused. }
  call_case num SYS_CLOSE. { done. }
  call_case num SYS_LSEEK. { done. }
  call_case num SYS_UNLINK. { rewrite andb_true_r, negb_false_iff. by apply path_call_refused. }
  call_case num SYS_RMDIR. { rewrite andb_true_r, negb_false_iff. by apply path_call_refused. }
  call_case num SYS_MKDIR. { rewrite andb_true_r, negb_false_iff. by apply path_call_refused. }
  call_case num SYS_TRUNCATE. { rewrite andb_true_r, negb_false_iff. by apply path_call_refused. }
  call_case num SYS_CHMOD. { rewrite andb_true_r, negb_false_iff. by apply path_call_refused. }
  call_case num SYS_CHOWN. { rewrite andb_true_r, negb_false_iff. by apply path_call_refused. }
  call_case num SYS_STAT. { rewrite andb_true_r. apply stat_refused. }
  call_case num SYS_WAIT. { intros [??]%unless_null_bad. by apply wait_refused. }
  call_case num SYS_FORK. { rewrite !andb_true_r. apply role_refused. }
  call_case num SYS_PIPE. { rewrite andb_true_r, negb_false_iff. apply pipe_refused. }
  call_case num SYS_GETPPID. { done. }
  call_case num SYS_SIGNAL. { rewrite !andb_true_r. apply role_refused. }
  call_case num SYS_WIN_CREATE. { intros [??]%unless_null_bad. by apply win_create_refused. }
  call_case num SYS_WIN_COMMIT. { rewrite andb_true_r. apply win_commit_refused. }
  call_case num SYS_WIN_POLL. { rewrite andb_true_r. apply win_poll_refused. }
  call_case num SYS_WIN_DESTROY. { rewrite andb_true_r. apply win_destroy_refused. }
  call_case num SYS_WIN_INFO. { rewrite andb_true_r. apply win_info_refused. }
  call_case num SYS_SOCKET. { rewrite !andb_true_r. apply role_refused. }
  call_case num SYS_BIND. { rewrite andb_true_r, negb_false_iff. apply bind_refused. }
  call_case num SYS_CONNECT. { rewrite andb_true_r, negb_false_iff. apply connect_refused. }
  call_case num SYS_LISTEN. { done. }
  call_case num SYS_ACCEPT. { intros [??]%unless_null_bad. by apply accept_refused. }
  call_case num SYS_SEND. { rewrite andb_true_r, negb_false_iff. apply send_refused. }
  call_case num SYS_RECV. { rewrite andb_true_r, negb_false_iff. apply recv_refused. }
  call_case num SYS_SHUTDOWN. { done. }
  call_case num SYS_CAP_GRANT. { rewrite andb_true_r. apply cap_grant_refused. }
  done.
Qed.

Lemma dispatch_refused :
  admitted t f k = false →
  syscall_dispatch_inner others vothers f k = (Ok (Some (u64_max, f)), k).
Proof.
  change (admitted t f k) with (admits (reg R_RAX f) (reg R_RDI f) (reg R_RSI f) (reg R_RDX f)).
  unfold syscall_dispatch_inner. generalize (reg R_RDI f), (reg R_RSI f), (reg R_RDX f). intros a0 a1 a2.
  generalize (reg R_RAX f). intros num.
  destruct (Z.eqb_spec num SYS_EXIT) as [->|]; [done|]. destruct (Z.eqb_spec num SYS_EXIT2) as [->|]; [done|].
  cbn [orb]. destruct (Z.eqb_spec num SYS_KILL) as [->|].
  { unfold admits, role_for, rights_for, buffers. eval_eqb. cbn [orb andb forallb]. rewrite !andb_true_r.
    intros Hc. unfold sys_kill. unfold sbind at 1. by rewrite (role_refused ROLE_KILL _ (Some u64_max) Hc). }
  destruct (Z.eqb_spec num SYS_EXEC) as [->|].
  { unfold admits, role_for, rights_for, buffers. eval_eqb. cbn [orb andb forallb]. rewrite !andb_true_r.
    intros Hc. unfold sbind. by rewrite (exec_refused a0 a1 a2 Hc). }
  destruct (Z.eqb_spec num SYS_SIGRETURN) as [->|]; [done|].
  intros Hc. unfold sbind. by rewrite plain_refused.
Qed.
End refuse.

(** C3: The boundary checks come first.  A system call of the current task that
    lacks the role, endpoint, grant right or window its number requires, or that
    names a buffer in ring 3 that does not lie in the user half, returns [-1] with
    the trap frame and the whole state of the kernel as they were - whatever the
    arguments, and whatever the rest of the system would do. *)
Theorem refused_calls_change_nothing others vothers f k t :
  runs k t → admitted t f k = false →
  syscall_dispatch_inner others vothers f k = (Ok (Some (u64_max, f)), k).
Proof. apply dispatch_refused. Qed.
End gate.
