(* ===== verification/SyscallTree.v ===== *)
(** * System calls and the process tree

    Whatever a program asks for, and whatever the rest of the system does while
    the call waits, the invariant of the task table holds when the call is
    over. *)

From S2P Require Import Prelude Capability Block VfsTable Vfs Signal Task TaskSpec TaskTree TaskSteps TaskRun TaskProps Ipc IpcProps Frames Paging Memory Elf UserMem Wm Net World Utf8 Syscall SyscallGate.

Section tree.
Context {C D : Type} `{Con : Console C} `{Prn : Printer C} `{Nt : Net.Smoltcp} `{BD : BlockDev D}
  `{Pg : Paging} `{Ad : Addresses} `{Cp : Processor} `{Sel : Selectors} `{Um : Unmapper}.
Abbreviation skernel := (kernel (@world C D Nt)).
Abbreviation sys A := (stm skernel bytes A).
Implicit Types k : skernel.

(** ** Calls that touch the rest of the kernel only *)

Definition env_only {A} (m : sys A) : Prop := ∀ k r k', m k = (r, k') → same_table k k'.

Lemma env_ret {A} (a : A) : env_only (sret a).
Proof. intros k r k' [= <- <-]. apply same_table_refl. Qed.
Lemma env_get {A} (f : skernel → A) : env_only (sget f).
Proof. intros k r k' [= <- <-]. apply same_table_refl. Qed.
Lemma env_read {A} (f : skernel → outcome bytes A) : env_only (sread f).
Proof. intros k r k' [= <- <-]. apply same_table_refl. Qed.
Lemma env_bind {A B} (m : sys A) (f : A → sys B) : env_only m → (∀ a, env_only (f a)) → env_only (sbind m f).
Proof.
  intros Hm Hf k r k'. unfold sbind. destruct (m k) as [[a|e| |] k1] eqn:Hk; pose proof (Hm _ _ _ Hk) as H1;
    [|by intros [= <- <-]..].
  intros H2. eapply same_table_trans; [exact H1|]. by apply (Hf a _ _ _ H2).
Qed.
Lemma env_if {A} (b : bool) (m n : sys A) : env_only m → env_only n → env_only (if b then m else n).
Proof. by destruct b. Qed.
Lemma env_map f : env_only (smodify (map_env f)).
Proof. intros k r k' [= <- <-]. by split. Qed.
Lemma env_current : env_only current.
Proof. intros k r k'. unfold current, with_cur. destruct (k_tasks k !! k_current k); intros [= <- <-]; apply same_table_refl. Qed.
Lemma env_caps {A} (f : tables → tables * A) : env_only (on_caps f).
Proof. intros k r k' [= <- <-]. by split. Qed.
Lemma env_wm {A} (f : Wm.wm → A * Wm.wm) : env_only (on_wm f).
Proof. intros k r k' [= <- <-]. by split. Qed.
Lemma env_fs {A} (f : stm (vfs devices D) vfs_error A) : env_only (on_fs f).
Proof. intros k r k' [= <- <-]. by split. Qed.
Lemma env_sockets {A} (f : stm (option Net.stack) string A) : env_only (on_sockets f).
Proof. intros k r k' [= <- <-]. by split. Qed.
Lemma env_phys {A} (f : stm phys unit A) : env_only (on_phys_mm f).
Proof. intros k r k' [= <- <-]. by split. Qed.
Lemma env_store ptr bs : env_only (user_store ptr bs).
Proof.
  intros k r k'. unfold user_store, poked. destruct (_ <$> _); intros [= <- <-]; by split.
Qed.
#[local] Hint Resolve env_ret env_get env_read env_bind env_if env_map env_current env_caps env_wm env_fs
  env_sockets env_phys env_store : env.
#[local] Ltac env := repeat (first [assumption | eapply env_bind; [|intros] | case_match | progress eauto with env]).

Lemma env_id : env_only s_current_id.
Proof. unfold s_current_id. env. Qed.
Lemma env_ring : env_only user_ring.
Proof. unfold user_ring. env. Qed.
#[local] Hint Resolve env_id env_ring : env.
Lemma env_bad p l : env_only (bad_pointer p l).
Proof. unfold bad_pointer. env. Qed.
Lemma env_role r : env_only (has_role r).
Proof. unfold has_role. env. Qed.
Lemma env_endpoint r e : env_only (has_endpoint r e).
Proof. unfold has_endpoint. env. Qed.
Lemma env_load p n : env_only (user_load p n).
Proof. unfold user_load. env. Qed.
Lemma env_window w p l : env_only (may_use_window w p l).
Proof. unfold may_use_window. env. Qed.
Lemma env_socket_id t fd : env_only (get_socket_id t fd).
Proof. unfold get_socket_id. env. Qed.
#[local] Hint Resolve env_bad env_role env_endpoint env_load env_window env_socket_id : env.
Lemma env_path p l : env_only (user_path p l).
Proof. unfold user_path. env. Qed.
#[local] Hint Resolve env_path : env.
Lemma env_path_call {A} p l (f : Z → Z → bytes → stm _ _ A) : env_only (path_call p l f).
Proof. unfold path_call. env. Qed.
Lemma env_with_socket fd f : (∀ id, env_only (f id)) → env_only (with_socket fd f).
Proof. intros Hf. unfold with_socket. env. Qed.
#[local] Hint Resolve env_path_call : env.
Lemma env_cstr n p v acc : env_only (user_cstr n p v acc).
Proof. revert acc. induction n as [|n IH]; intros acc; cbn [user_cstr]; env. Qed.
#[local] Hint Resolve env_cstr : env.
Lemma env_cstrs n b v i out : env_only (user_cstrs n b v i out).
Proof. revert i out. induction n as [|n IH]; intros i out; cbn [user_cstrs]; env. Qed.
#[local] Hint Resolve env_cstrs : env.
Lemma env_cstr_array b v : env_only (copy_user_cstr_array b v).
Proof. unfold copy_user_cstr_array. env. Qed.
#[local] Hint Resolve env_cstr_array : env.

(** ** Calls that change the table *)

(** A call of the running task that keeps the invariant when it returns. *)
Definition fits {A} (m : sys A) : Prop := ∀ k t a k',
  kernel_ok k → runs k t → 0 ≤ k_next_id k < 2 ^ 64 - 1 → m k = (Ok a, k') → kernel_ok k'.

Lemma fits_env {A} (m : sys A) : env_only m → fits m.
Proof. intros Hm k t a k' Hok _ _ Hk. by apply (same_table_ok k), Hok; eapply Hm. Qed.
Lemma fits_after {A B} (m : sys A) (f : A → sys B) : env_only m → (∀ a, fits (f a)) → fits (sbind m f).
Proof.
  intros Hm Hf k t b k' Hok Hr Hn (a&k1&H1&H2)%sbind_Ok_inv. pose proof (Hm _ _ _ H1) as Hs.
  apply (Hf a k1 t b k'); [by apply (same_table_ok k)|by apply (same_table_runs k)| |done].
  by rewrite (st_next _ _ Hs).
Qed.
Lemma fits_then {A B} (m : sys A) (f : A → sys B) : fits m → (∀ a, env_only (f a)) → fits (sbind m f).
Proof.
  intros Hm Hf k t b k' Hok Hr Hn (a&k1&H1&H2)%sbind_Ok_inv.
  apply (same_table_ok k1); [by eapply Hf|by eapply Hm].
Qed.
Lemma fits_if {A} (b : bool) (m n : sys A) : fits m → fits n → fits (if b then m else n).
Proof. by destruct b. Qed.

(** The rest of the system, when the caller is back: the invariant holds and some
    task runs. *)
Definition comes_back (o : skernel → skernel) : Prop :=
  ∀ k, kernel_ok k → kernel_ok (o k) ∧ (∃ t, runs (o k) t) ∧ 0 ≤ k_next_id (o k) < 2 ^ 64 - 1.
Context (others : list (skernel → skernel)) (Hothers : Forall comes_back others).
Context (vothers : list (vfs (@devices C Nt) D → vfs (@devices C Nt) D)).

Lemma fits_yield : fits (sys_yield others).
Proof.
  intros k t a k' Hok Hr _. unfold sys_yield, resume, sbind, smodify, sret.
  destruct others as [|o os]; [done|]. intros [= <- <-].
  apply Forall_cons in Hothers as [Ho _]. by apply Ho, kernel_ok_schedule.
Qed.

Lemma fits_sleep_loop os d : Forall comes_back os → fits (sleep_loop os d).
Proof.
  induction os as [|o os IH]; intros Hos k t a k' Hok Hr Hn; cbn [sleep_loop];
    destruct (_ <=? _); [by intros [= _ <-]|done|by intros [= _ <-]|].
  apply Forall_cons in Hos as [Ho Hos]. destruct (Ho (yield_now k)) as (H1&[t' H2]&H3); [by apply kernel_ok_schedule|].
  by apply (IH Hos _ t' a k').
Qed.
Lemma fits_sleep a0 : fits (sys_sleep others a0).
Proof.
  unfold sys_sleep. apply fits_then; [|intros; env]. intros k t a k' Hok Hr Hn. unfold sleep_ticks.
  destruct (a0 =? 0); [by intros [= _ <-]|]. by apply (fits_sleep_loop others _ Hothers _ t).
Qed.

Lemma fits_wait_round ptr : fits (wait_round ptr : sys _).
Proof. intros k t a k' Hok Hr _ Hk. by apply (kernel_ok_wait_round ptr k t (Ok a)). Qed.
Lemma fits_wait_resume ptr : fits (wait_resume ptr : sys _).
Proof. intros k t a k' Hok Hr _ Hk. by apply (kernel_ok_wait_resume ptr k t (Ok a)). Qed.
Lemma fits_wait_loop os ptr round : Forall comes_back os → fits round → fits (wait_loop os ptr round).
Proof.
  revert round. induction os as [|o os IH]; intros round Hos Hrd k t a k' Hok Hr Hn; cbn [wait_loop];
    intros ([v|]&k1&H1&H2)%sbind_Ok_inv; try done.
  - injection H2 as _ <-. by apply (Hrd k t (Some v)).
  - injection H2 as _ <-. by apply (Hrd k t (Some v)).
  - apply Forall_cons in Hos as [Ho Hos]. pose proof (Hrd k t None k1 Hok Hr Hn H1) as Hok1.
    destruct (Ho k1 Hok1) as (G1&[t' G2]&G3). unfold sbind, smodify in H2.
    by apply (IH _ Hos (fits_wait_resume ptr) (o k1) t' a k').
Qed.

Lemma fits_accept_loop os id n : Forall comes_back os → fits (accept_loop os id n).
Proof.
  revert n. induction os as [|o os IH]; intros n Hos; cbn [accept_loop]; apply fits_after; try apply env_sockets;
    intros ready; apply fits_if; try (apply fits_env, env_ret).
  - by intros k t a k' _ _ _ [=].
  - apply Forall_cons in Hos as [Ho Hos]. intros k t a k' Hok Hr Hn.
    unfold sbind, smodify. destruct (Ho (yield_now k)) as (G1&[t' G2]&G3); [by apply kernel_ok_schedule|].
    destruct (_ <=? _); [by intros [= _ <-]|]. by apply (IH _ Hos _ t').
Qed.

Lemma wake_ok w k r k' : kernel_ok k → wake w no_locks k = (r, k') → kernel_ok k'.
Proof.
  intros Hok. unfold wake. destruct w as [w|]; [|by intros [= _ <-]].
  unfold lunblock, scheduler_with. simpl. intros [= _ <-]. by apply kernel_ok_unblock.
Qed.
Lemma fits_ipc_send a0 a1 : fits (sys_ipc_send a0 a1).
Proof.
  unfold sys_ipc_send. apply fits_after; [env|]. intros ok. apply fits_if; [apply fits_env; env|].
  apply fits_then; [|intros; env]. intros k t [] k' Hok Hr _. unfold on_ipc, Ipc.send.
  intros [= Hres <-]. destruct Hr as [Ht Hr].
  unfold sbind at 1. rewrite (lcurrent_id_run k t) by done. rewrite (sbind_Ok _ _ _ _ _ (section_run _ k)).
  match goal with |- kernel_ok (?m ?k0).2 => destruct (m k0) as [r k1] eqn:Hw end.
  eapply wake_ok; [|exact Hw]. by apply (same_table_ok k); [by split|].
Qed.
Lemma fits_ipc_recv a0 : fits (sys_ipc_recv a0).
Proof.
  unfold sys_ipc_recv. apply fits_after; [env|]. intros ok. apply fits_if; [apply fits_env; env|].
  apply fits_then; [|intros; env]. intros k t m k' Hok [Ht Hr] _. unfold on_ipc.
  destruct (queue_of a0 k) as [|m' q] eqn:Hq.
  - by rewrite (receive_empty 0 a0 k t Ht Hq).
  - destruct (receive_some 0 a0 k m' q Hq) as (e&He&->). intros [= _ <-]. by apply (same_table_ok k); [by split|].
Qed.

Lemma fits_fork f : fits (sys_fork f).
Proof.
  unfold sys_fork. apply fits_after; [env|]. intros ok. apply fits_if; [apply fits_env; env|].
  intros k t a k' Hok Hr Hn Hk. by apply (kernel_ok_fork f k t a).
Qed.
Lemma fits_signal a0 a1 a2 : fits (sys_signal a0 a1 a2).
Proof.
  unfold sys_signal. apply fits_after; [env|]. intros ok. apply fits_if; [apply fits_env; env|].
  intros k t a k' Hok Hr Hn [= <- <-].
  apply (kernel_ok_signal (wrap32 a0) a1 a2 k t (do_signal (wrap32 a0) a1 a2 k).1); [|done|done|apply surjective_pairing].
  apply wrap_bounds. lia.
Qed.
Lemma fits_kill a0 a1 : fits (sys_kill a0 a1).
Proof.
  unfold sys_kill. apply fits_after; [env|]. intros ok. apply fits_if; [apply fits_env; env|].
  intros k t a k' Hok Hr Hn [= <- <-].
  apply (kernel_ok_kill a0 (wrap32 a1) k t (do_kill a0 (wrap32 a1) k).1); [|done|done|apply surjective_pairing].
  apply wrap_bounds. lia.
Qed.
Lemma fits_exec f a0 a1 a2 : fits (sys_exec f a0 a1 a2).
Proof.
  unfold sys_exec. apply fits_after; [env|]. intros ok. apply fits_if; [apply fits_env; env|].
  apply fits_after; [env|]. intros u. apply fits_after; [env|]. intros [path|]; [|apply fits_env; env].
  apply fits_after; [env|]. intros argv. apply fits_after; [env|]. intros envp k t a k' Hok Hr Hn Hk.
  by apply (kernel_ok_exec f path argv envp k t (Ok a)).
Qed.
Lemma fits_exit a0 : fits (sys_exit a0).
Proof.
  intros k t a k' Hok Hr Hn. unfold sys_exit, sbind, smodify. intros [= <- <-].
  by apply (kernel_ok_exit _ k t).
Qed.
Lemma fits_mmap a0 a1 a2 : fits (sys_mmap a0 a1 a2).
Proof.
  unfold sys_mmap. apply fits_after; [env|]. intros u. apply fits_if; [apply fits_env; env|].
  apply fits_then; [|intros; env]. unfold sys_mmap_impl. apply fits_if; [apply fits_env; env|].
  apply fits_after; [env|]. intros t0. destruct (t_user_cr3 t0) as [cr3|]; [|apply fits_env; env].
  apply fits_then; [|intros; env]. intros k t [] k' Hok Hr Hn [= <-].
  apply (kernel_ok_upd_cur _ k t); [done|done|by intros []|]. intros Hs. by destruct t; split_and!; try left.
Qed.

Lemma fits_munmap a0 a1 : fits (sys_munmap a0 a1).
Proof. apply fits_env. unfold sys_munmap, sys_munmap_impl. env. Qed.
Lemma fits_accept a0 a1 a2 : fits (sys_accept others a0 a1 a2).
Proof.
  unfold sys_accept. apply fits_after; [env|]. intros bad. apply fits_if; [apply fits_env; env|].
  unfold with_socket. do 2 (apply fits_after; [env|]; intros ?). case_match; [|apply fits_env; env].
  apply fits_then; [by apply fits_accept_loop|]. intros []; [|env]. unfold store_peer. env.
Qed.

Lemma env_print a0 a1 : env_only (sys_print a0 a1).
Proof.
  unfold sys_print. eapply env_bind; [env|]. intros bad. apply env_if; [env|]. eapply env_bind; [env|].
  intros s. eapply env_bind; [|intros; env]. intros k r k' [= <- <-].
  destruct (utf8_valid s); [by split|apply same_table_refl].
Qed.
Lemma fits_wait a0 : fits (sys_wait others a0).
Proof.
  unfold sys_wait. apply fits_after; [env|]. intros bad. apply fits_if; [apply fits_env; env|].
  apply fits_wait_loop; [done|apply fits_wait_round].
Qed.

#[local] Ltac head_of m := lazymatch m with ?h _ => head_of h | _ => m end.
#[local] Ltac unfold_call := lazymatch goal with |- env_only ?m => let h := head_of m in unfold h end.
#[local] Ltac fits_case :=
  first [ apply fits_yield | apply fits_sleep | apply fits_ipc_send | apply fits_ipc_recv | apply fits_fork
        | apply fits_signal | apply fits_mmap | apply fits_munmap | apply fits_accept
        | apply fits_wait | apply fits_env, env_print
        | solve [apply fits_env; unfold_call; first [apply env_with_socket; intros; env | env]] ].
#[local] Ltac fits_cases :=
  lazymatch goal with
  | |- fits (if _ then _ else _) => apply fits_if; [fits_case | fits_cases]
  | |- _ => apply fits_env, env_ret
  end.

Lemma fits_plain f num a0 a1 a2 : fits (plain_call others vothers f num a0 a1 a2).
Proof. unfold plain_call. fits_cases. Qed.

Lemma fits_inner f : fits (syscall_dispatch_inner others vothers f).
Proof.
  unfold syscall_dispatch_inner. apply fits_if.
  { apply fits_then; [apply fits_exit|intros; env]. }
  apply fits_if. { apply fits_then; [apply fits_kill|intros; env]. }
  apply fits_if. { apply fits_then; [apply fits_exec|intros; env]. }
  apply fits_if.
  { apply fits_then; [|intros; env]. intros k t a k' Hok Hr Hn [= <- <-].
    apply (kernel_ok_sigreturn f k t (do_sigreturn f k).1); [done..|apply surjective_pairing]. }
  apply fits_then; [apply fits_plain|intros; env].
Qed.

(** Delivery, whatever task is current. *)
Lemma deliver_ok f ret k r k' :
  kernel_ok k → deliver_pending_signals f ret k = (r, k') → kernel_ok k'.
Proof.
  intros Hok. unfold deliver_pending_signals. cbv zeta. unfold sbind, poked, smodify, sret.
  destruct (k_tasks k !! k_current k) as [t|] eqn:Ht; [|by intros [= _ <-]].
  destruct (bool_decide _); [by intros [= _ <-]|].
  destruct (next_deliverable _) as [[sig h]|]; [|by intros [= _ <-]].
  destruct (_ =? 0); [by intros [= _ <-]|]. destruct (poke64 _ _ _ _) as [w|]; [|by intros [= _ <-]].
  intros [= _ <-]. pose proof (kernel_ok_map_env (λ _, w) k Hok) as Hok1. fold (map_env (λ _, w) k).
  rewrite (upd_cur_id _ t) by (done || by apply kernel_ok_ids).
  apply kernel_ok_upd_id; [apply keeps_with_signals| |done]. intros u _ Hs. split; [|by destruct u].
  apply eased_signals; [done|]. intros. by apply clear_pending_ok, set_saved_ok.
Qed.

(** C4: System calls keep the process tree consistent.  Take any system call of
    the running task, with any number and arguments.  If it returns - or ends its
    task - then the invariant of the task table holds afterwards: unique ids, one
    running task at most, parents and children that name each other, no waiter
    left asleep over an ended child, and SIGKILL never caught.  It holds whatever
    the rest of the system does while the call sleeps, as long as that keeps the
    invariant itself and brings a task back. *)
Theorem system_calls_keep_tree f k t r k' :
  kernel_ok k → runs k t → 0 ≤ k_next_id k < 2 ^ 64 - 1 →
  syscall_dispatch others vothers f k = (Ok r, k') → kernel_ok k'.
Proof.
  intros Hok Hr Hn (p&k1&H1&H2)%sbind_Ok_inv. pose proof (fits_inner f k t p k1 Hok Hr Hn H1) as Hok1.
  destruct p as [[ret f']|]; [|by injection H2 as _ <-].
  apply sbind_Ok_inv in H2 as (f2&k2&H2&H3). injection H3 as _ <-.
  destruct (_ =? SYS_SIGRETURN); [by injection H2 as _ <-|]. by eapply deliver_ok.
Qed.
End tree.
