(* ===== verification/SyscallFiles.v ===== *)
(** * Files through system calls

    What [write], [lseek] and [read] on a regular file are, between the memory of
    the calling process and the blocks of the volume. *)

From S2P Require Import Prelude Capability Block NextfsLayout NextfsAlloc NextfsFile NextfsDir NextfsSpec NextfsIO NextfsProps VfsTable Vfs VfsPipes VfsProps Signal Task TaskSpec TaskTree TaskSteps Ipc Frames Paging Memory MemorySpec MemoryProps MemorySteps Bytes Elf ElfLoad UserMem Wm Net World Utf8 Syscall SyscallGate.

Section files.
Context {C D : Type} `{Con : Console C} `{Prn : Printer C} `{Nt : Net.Smoltcp} `{BD : BlockDev D}
  `{BL : !BlockLaws D} `{Pg : Paging} `{Ad : Addresses} `{Cp : Processor} `{Sel : Selectors} `{Um : Unmapper}.
Abbreviation skernel := (kernel (@world C D Nt)).
Implicit Types k : skernel.

Definition vfs_of k : vfs (@devices C Nt) D := w_vfs (k_env k).
Definition phys_of k : phys := w_phys (k_env k).
Definition put_vfs (v : vfs (@devices C Nt) D) k : skernel := map_env (set_vfs v) k.

Lemma on_fs_not_max (f : stm (vfs (@devices C Nt) D) vfs_error Z) k r k' :
  (let! r := on_fs f in sret (or_max id r)) k = (Ok r, k') → r ≠ u64_max →
  ∃ v, f (vfs_of k) = (Ok r, v) ∧ k' = put_vfs v k.
Proof.
  unfold sbind, on_fs, vfs_of, put_vfs. destruct (f _) as [[a|e| |] v]; cbn; intros [= <- <-] Hr; try done.
  by exists v.
Qed.

(** A write that is not refused has read the buffer as a whole. *)
Lemma write_call vo t fd src n k r k' file inode :
  runs k t → get_file (wrap32 (t_id t)) (wrap32 fd) (vfs_of k) = Ok file → f_type file = Regular inode →
  sys_write vo fd src n k = (Ok r, k') → r ≠ u64_max →
  ∃ data v, peek_bytes (mem_of k) (k_cr3 k) src (Z.to_nat n) = Some data ∧
    write vo (k_ticks k) (wrap32 (t_id t)) (wrap32 fd) data (vfs_of k) = (Ok r, v) ∧ k' = put_vfs v k ∧
    is_bad t (src, n) = false.
Proof.
  intros Hr Hf Ht. unfold sys_write. unfold sbind at 1. rewrite (bad_pointer_run k t) by done.
  destruct (is_bad t (src, n)); [by intros [= <- _]|].
  unfold sbind at 1. rewrite (s_current_id_run k t) by done. unfold sbind at 1, sget at 1.
  unfold sbind at 1, sget at 1. change (w_vfs (k_env k)) with (vfs_of k).
  destruct (takes_data _ _ (vfs_of k)) eqn:Hl.
  - unfold sbind at 1, user_load at 1, sread at 1.
    destruct (peek_bytes _ _ _ _) as [data|] eqn:Hp; [|done]. cbn [or_panic].
    intros He Hne. apply on_fs_not_max in He as (v&Hw&->); [|done]. exists data, v. by split_and!.
  - unfold sbind at 1, sret at 1. intros He Hne. apply on_fs_not_max in He as (v&Hw&->); [|done].
    destruct (write_regular _ _ _ _ _ _ _ _ _ _ Hf Ht Hw) as (_&_&_&_&Hof&_).
    unfold takes_data in Hl. by rewrite Hf, Hof, Ht in Hl.
Qed.

Lemma lseek_call t fd off k r k' :
  runs k t → 0 ≤ off < 2 ^ 63 → sys_lseek fd off 0 k = (Ok r, k') → r ≠ u64_max →
  ∃ v, seek (wrap32 (t_id t)) (wrap32 fd) off SeekSet (vfs_of k) = (Ok r, v) ∧ k' = put_vfs v k.
Proof.
  intros Hr Ho. unfold sys_lseek. unfold sbind at 1. rewrite (s_current_id_run k t) by done.
  change (0 =? 0) with true. cbv iota. replace (signed 64 off) with off; [apply on_fs_not_max|].
  unfold signed. rewrite Z.mod_small by lia. by rewrite decide_True by (change (64 - 1) with 63; lia).
Qed.

(** A read that is not refused stores what it got as a whole. *)
Lemma read_call vo t fd dst n k r k' :
  runs k t → sys_read vo fd dst n k = (Ok r, k') → r ≠ u64_max →
  ∃ buf v m, read vo (wrap32 (t_id t)) (wrap32 fd) (replicate (Z.to_nat n) 0) (vfs_of k) = (Ok (r, buf), v) ∧
    poke_bytes (mem_of k) (k_cr3 k) dst (take (Z.to_nat r) buf) = Some m ∧
    k' = map_env (set_mem m) (put_vfs v k) ∧ is_bad t (dst, n) = false.
Proof.
  intros Hr. unfold sys_read. unfold sbind at 1. rewrite (bad_pointer_run k t) by done.
  destruct (is_bad t (dst, n)); [by intros [= <- _]|].
  unfold sbind at 1. rewrite (s_current_id_run k t) by done. unfold sbind at 1, on_fs.
  change (w_vfs (k_env k)) with (vfs_of k).
  destruct (read _ _ _ _ _) as [[[r0 buf]|e| |] v] eqn:Hrd; cbn; try done; [|by intros [= <- _]].
  unfold sbind, user_store, poked. cbn.
  destruct (poke_bytes _ _ _ _) as [m|] eqn:Hp; cbn; [|done]. intros [= <- <-] _.
  by exists buf, v, m.
Qed.

Lemma peek_bytes_ok (m : pmem) a va n bs : peek_bytes m a va n = Some bs → Forall byte_ok bs.
Proof.
  intros Hp%mapM_Some. apply Forall_forall. intros b Hb. apply list_elem_of_lookup in Hb as [i Hi].
  destruct (Forall2_lookup_r _ _ _ _ _ Hp Hi) as (j&_&Hj). unfold peek in Hj.
  destruct (kernel_addr _ _ _ _); [|done]. injection Hj as <-. apply page_byte_ok.
Qed.

(** The buffer of a user process that passed the check. *)
Lemma user_buffer t ptr n :
  t_ring t = RUser → is_bad t (ptr, n) = false → 0 ≤ ptr → 0 ≤ n → ptr + n ≤ 2 ^ 47.
Proof.
  intros Hu Hb Hp Hn. unfold is_bad in Hb. rewrite Hu in Hb. cbn in Hb. apply negb_false_iff in Hb.
  by apply is_user_pointer_spec in Hb as [_ ?].
Qed.

(** ** The dispatcher *)

Record calls (f : frame) (num a0 a1 a2 : Z) : Prop := {
  ca_num : reg R_RAX f = num; ca_a0 : reg R_RDI f = a0; ca_a1 : reg R_RSI f = a1; ca_a2 : reg R_RDX f = a2 }.

Lemma dispatch_plain others vothers f num a0 a1 a2 k p k' :
  calls f num a0 a1 a2 → num ∉ [SYS_EXIT; SYS_EXIT2; SYS_KILL; SYS_EXEC; SYS_SIGRETURN] →
  syscall_dispatch_inner others vothers f k = (Ok (Some p), k') →
  plain_call others vothers f num a0 a1 a2 k = (Ok p.1, k') ∧ p.2 = f.
Proof.
  intros [Hn H0 H1 H2] Hnum. unfold syscall_dispatch_inner. rewrite Hn, H0, H1, H2.
  rewrite !not_elem_of_cons in Hnum. destruct Hnum as (N1&N2&N3&N4&N5&_).
  rewrite (proj2 (Z.eqb_neq _ _) N1), (proj2 (Z.eqb_neq _ _) N2), (proj2 (Z.eqb_neq _ _) N3),
    (proj2 (Z.eqb_neq _ _) N4), (proj2 (Z.eqb_neq _ _) N5). cbn [orb].
  intros (v&k1&Hv&[= <- ->])%sbind_Ok_inv. done.
Qed.

(** C2: A file keeps what a process writes, from buffer to buffer.  A process
    writes [n] bytes of its memory to a regular file with [SYS_WRITE], seeks back
    with [SYS_LSEEK] and reads [n] bytes with [SYS_READ]; none of the calls returns
    [-1].  Then every call did all of its work, and afterwards the second buffer
    holds what the first one held, every other byte of the process is as before,
    and the memory of every other process is as before - through the dispatcher,
    the descriptor table, the file system, the blocks of the device and the page
    tables. *)
Theorem write_read_calls o1 o2 o3 v1 v2 v3 K A f1 f2 f3 k t fs file inode fd src dst n r1 r2 r3 k1 k2 k3 :
  runs k t → t_ring t = RUser →
  v_fs (vfs_of k) = Some fs → vol_ok fs →
  get_file (wrap32 (t_id t)) (wrap32 fd) (vfs_of k) = Ok file → f_type file = Regular inode → 0 ≤ inode →
  0 ≤ f_pos file → f_pos file + n ≤ MAX_OFFSET →
  vm_ok K A (phys_of k) → k_cr3 k ∈ A → 0 ≤ src → 0 ≤ dst → 0 ≤ n →
  (∀ x, src ≤ x < src + n → is_Some (byte_view (mem_of k) (k_cr3 k) x)) →
  (∀ x, dst ≤ x < dst + n → write_view (mem_of k) (k_cr3 k) x = true) →
  calls f1 SYS_WRITE fd src n →
  syscall_dispatch_inner o1 v1 f1 k = (Ok (Some (r1, f1)), k1) → r1 ≠ u64_max →
  calls f2 SYS_LSEEK fd (f_pos file) 0 →
  syscall_dispatch_inner o2 v2 f2 k1 = (Ok (Some (r2, f2)), k2) → r2 ≠ u64_max →
  calls f3 SYS_READ fd dst n →
  syscall_dispatch_inner o3 v3 f3 k2 = (Ok (Some (r3, f3)), k3) → r3 ≠ u64_max →
  r1 = n ∧ r2 = f_pos file ∧ r3 = n ∧ k_tasks k3 = k_tasks k ∧ vm_ok K A (phys_of k3) ∧
  (∀ x, 0 ≤ x < 2 ^ 47 → byte_view (mem_of k3) (k_cr3 k) x =
     byte_view (mem_of k) (k_cr3 k) (if decide (dst ≤ x < dst + n) then src + (x - dst) else x)) ∧
  (∀ b x, b ∈ A → b ≠ k_cr3 k → 0 ≤ x < 2 ^ 47 → byte_view (mem_of k3) b x = byte_view (mem_of k) b x).
Proof.
  intros Hr Hu Hfs Hv Hf Ht Hi Hp0 Hmax Hvm HA Hs Hd Hn Hsrc Hdst C1 D1 N1 C2 D2 N2 C3 D3 N3.
  apply dispatch_plain with (num := SYS_WRITE) (a0 := fd) (a1 := src) (a2 := n) in D1 as [D1 _];
    [|done|by apply (bool_decide_unpack _)].
  apply (write_call _ t _ _ _ _ _ _ file inode) in D1 as (data&w1&Hpk&Hw&->&B1); [|done..].
  apply dispatch_plain with (num := SYS_LSEEK) (a0 := fd) (a1 := f_pos file) (a2 := 0) in D2 as [D2 _];
    [|done|by apply (bool_decide_unpack _)].
  assert (f_pos file < 2 ^ 63) as Hpos by (unfold MAX_OFFSET in Hmax; change BLOCK_SIZE with 512 in Hmax; lia).
  apply (lseek_call t) in D2 as (w2&Hsk&->); [|done..].
  apply dispatch_plain with (num := SYS_READ) (a0 := fd) (a1 := dst) (a2 := n) in D3 as [D3 _];
    [|done|by apply (bool_decide_unpack _)].
  apply (read_call _ t) in D3 as (buf&w3&m&Hrd&Hpo&->&B3); [|done..].
  pose proof (peek_bytes_length _ _ _ _ _ Hpk) as Hlen. cbn [fst] in *.
  change (vfs_of (put_vfs w1 k)) with w1 in Hsk. change (vfs_of (put_vfs w2 _)) with w2 in Hrd.
  change (mem_of (put_vfs _ _)) with (mem_of k) in Hpo. change (k_cr3 (put_vfs _ _)) with (k_cr3 k) in Hpo.
  rewrite <-Hlen in Hrd.
  assert (f_pos file + Z.of_nat (length data) ≤ MAX_OFFSET) as Hm by (rewrite Hlen, Z2Nat.id; done).
  assert (length (replicate (length data) 0) = length data) as Hlr by apply length_replicate.
  destruct (write_seek_read _ _ _ _ _ _ _ _ _ _ _ _ _ _ _ _ _ fs Hfs Hv Hf Ht Hi Hp0
    Hm Hlr Hw Hsk Hrd)
    as (->&Hr3&->&_). rewrite Hlen, Z2Nat.id in Hr3 by done. subst r3.
  destruct (write_regular _ _ _ _ _ _ _ _ _ _ Hf Ht Hw) as (_&_&_&_&_&_&Hf1).
  destruct (seek_set_regular _ _ _ _ _ inode _ _ Hf1 eq_refl (conj Hp0 Hpos) Hsk) as (->&_).
  pose proof (user_buffer t src n Hu B1 Hs Hn) as E1. pose proof (user_buffer t dst n Hu B3 Hd Hn) as E3.
  destruct (peek_bytes_user (mem_of k) (k_cr3 k) src (Z.to_nat n) data) as [_ Hbv]; try done; [lia| |].
  { intros x Hx. apply Hsrc. lia. }
  rewrite take_ge in Hpo by lia.
  destruct (poke_bytes_user K A (phys_of k) (k_cr3 k) dst data m) as [[Q1 Q2 Q3 Q4] Q5 _];
    [done|done|done|lia|by eapply peek_bytes_ok|intros x Hx; apply Hdst; lia|exact Hpo|].
  split_and!; try done.
  - intros x Hx. change (mem_of (map_env _ _)) with (ph_mem (Phys m (ph_fa (phys_of k)))). rewrite Q5 by done.
    rewrite Hlen, Z2Nat.id by done. case_decide; [|done]. rewrite Hbv by lia. f_equal. lia.
  - intros b x Hb Hne Hx. unfold byte_view, page_view. change (mem_of (map_env _ _)) with (ph_mem (Phys m (ph_fa (phys_of k)))).
    destruct (Q4 b (va_path x) (va_index 0 x)) as [-> _]; [done|apply va_pos_pos|done|done].
Qed.
End files.
