(* ===== verification/SyscallMem.v ===== *)
(** * Memory through system calls

    What [mmap] and [munmap] do to the address spaces. *)

From S2P Require Import Prelude Capability Block VfsTable Vfs Signal Task TaskSpec TaskTree TaskSteps Ipc Frames Paging Memory MemorySpec MemoryProps MemorySteps Bytes Elf ElfLoad UserMem Wm Net World Utf8 Syscall SyscallGate SyscallFiles.

#[local] Ltac Zify.zify_post_hook ::= Z.to_euclidean_division_equations.

(** ** Taking a page away *)

Section unmap.
Context `{Um : Unmapper} `{UL : !UnmapperLaws} (K : Z).

(** The page at [va] is a 4K page of the process, or nothing is there. *)
Record mapped_user (m : pmem) (a va l1 : Z) : Prop := {
  mu_walk : walk_present m a (va_path va) = true;
  mu_node : node m a (va_path va) = Some l1;
  mu_present : contains (pte_flags (entry m l1 (va_index 0 va))) PRESENT = true;
  mu_user : contains (pte_flags (entry m l1 (va_index 0 va))) USER_ACCESSIBLE = true;
  mu_small : contains (pte_flags (entry m l1 (va_index 0 va))) HUGE_PAGE = false }.
Definition mapped (m : pmem) (a va : Z) : Prop := ∃ l1, mapped_user m a va l1.
Definition unmapped (m : pmem) (a va : Z) : Prop :=
  ¬ blocked m a (va_path va) ∧ ∀ e, leaf m a (va_path va) (va_index 0 va) = Some e → e = 0.

Lemma mapped_leaf m a va l1 : mapped_user m a va l1 →
  user_leaf m a (va_path va) (va_index 0 va) (entry m l1 (va_index 0 va)).
Proof.
  intros [_ Hn Hp Hu _]. split_and!; [done|apply leaf_node; by exists l1|].
  unfold user. rewrite Hu, andb_true_r. unfold is_unused. apply negb_true_iff, Z.eqb_neq.
  intros Hz. by rewrite Hz in Hp.
Qed.

Lemma mapped_flags m a va : 0 ≤ va < 2 ^ 47 → mapped m a va →
  ∃ fl, translate_flags m a va = Some fl ∧ contains fl USER_ACCESSIBLE = true.
Proof.
  intros Hva [l1 [Hw Hn Hp Hu _]]. exists (pte_flags (entry m l1 (va_index 0 va))). split; [|done].
  apply translate_flags_mapped; try done. apply leaf_node. by exists l1.
Qed.

(** The upper levels of every walk stay. *)
Lemma unmap_walk A s a va l1 vb :
  vm_ok K A s → a ∈ A → mapped_user (ph_mem s) a va l1 →
  let m' := set_entry (ph_mem s) l1 (va_index 0 va) 0 in
  walk_present m' a (va_path vb) = walk_present (ph_mem s) a (va_path vb) ∧
  node m' a (va_path vb) = node (ph_mem s) a (va_path vb).
Proof.
  intros Hok Ha [_ Hn _ _ _] m'. assert (space K A a) as Has by (by left).
  pose proof (va_pos_pos va) as (Hp&Hl&_). pose proof (va_pos_pos vb) as (Hq&Hlq&_).
  assert (∀ q c j, tpath q → (length q < 3)%nat → node (ph_mem s) a q = Some c →
    entry m' c j = entry (ph_mem s) c j) as He.
  { intros q c j Hq' Hl' Hc. unfold m'. rewrite entry_set_entry, decide_False; [done|]. intros [<- _].
    destruct (vo_sep _ _ _ Hok a a q (va_path va) l1) as [-> _]; try done. lia. }
  assert (∀ q, tpath q → node m' a q = node (ph_mem s) a q) as Hnode.
  { intros q Hq'. apply node_same. intros q1 j r c -> Hc. apply (He q1); [by eapply tpath_app_l| |done].
    destruct Hq' as [Hq' _]. rewrite length_app in Hq'. simpl in Hq'. lia. }
  split; [|by apply Hnode]. unfold walk_present. apply eq_true_iff_eq. rewrite !forallb_forall.
  assert (∀ x, In x (seq 0 3) → node m' a (take x (va_path vb)) = node (ph_mem s) a (take x (va_path vb)) ∧
    ∀ c j, node (ph_mem s) a (take x (va_path vb)) = Some c → entry m' c j = entry (ph_mem s) c j) as Hx.
  { intros x Hx%in_seq. assert (tpath (take x (va_path vb))) as Ht.
    { eapply tpath_prefix; [|exact Hq]. apply prefix_take. }
    split; [by apply Hnode|]. intros c j Hc. eapply He; [exact Ht| |exact Hc].
    rewrite length_take, Hlq. clear -Hx. lia. }
  split; intros Hall x Hin; specialize (Hall x Hin); destruct (Hx x Hin) as [Hx1 Hx2];
    rewrite Hx1 in *; destruct (node (ph_mem s) a (take x (va_path vb))) as [c|]; try done;
    destruct (va_path vb !! x) as [j|]; try done; by rewrite (Hx2 c j) in *.
Qed.

(** One page of [munmap]. *)
Record removed A (a va : Z) s s' : Prop := {
  rv_ok : vm_ok K A s';
  rv_fa : ph_fa s' = ph_fa s;
  rv_gone : user_page (ph_mem s') a (va_path va) (va_index 0 va) = None;
  rv_others b q j : b ∈ A → pos q j → (b, q, j) ≠ (a, va_path va, va_index 0 va) →
    user_page (ph_mem s') b q j = user_page (ph_mem s) b q j ∧
    can_write (ph_mem s') b q j = can_write (ph_mem s) b q j;
  rv_mapped vb : (va_path vb, va_index 0 vb) ≠ (va_path va, va_index 0 va) →
    mapped (ph_mem s) a vb → mapped (ph_mem s') a vb }.

Lemma unmap_one A s a va l1 :
  vm_ok K A s → a ∈ A → mapped_user (ph_mem s) a va l1 →
  removed A a va s (Phys (set_entry (ph_mem s) l1 (va_index 0 va) 0) (ph_fa s)).
Proof.
  intros Hok Ha Hm. set (s' := Phys _ _). assert (space K A a) as Has by (by left).
  pose proof (mapped_leaf _ _ _ _ Hm) as Hul. pose proof (va_pos_pos va) as (Hp&Hl&Hi).
  destruct (vo_user _ _ _ Hok a _ _ _ Has Hp Hi Hul) as (_&Hown&Hkf).
  destruct (set_leaf_remaps K A s a (va_path va) (va_index 0 va) l1 0) as [Hr Hlf];
    [done|done|done|done|apply Hm|]. change (remaps K A s s' a (va_path va) (va_index 0 va)) in Hr.
  assert (∀ e, ¬ user_leaf (ph_mem s') a (va_path va) (va_index 0 va) e) as Hno.
  { intros e (_&Hle&Hu). change (ph_mem s') with (set_entry (ph_mem s) l1 (va_index 0 va) 0) in Hle.
    rewrite Hlf in Hle. by injection Hle as <-. }
  split.
  - apply (remaps_ok K A s s' a (va_path va) (va_index 0 va)); try done. intros e He. by destruct (Hno e).
  - done.
  - unfold user_page. change (ph_mem s') with (set_entry (ph_mem s) l1 (va_index 0 va) 0). by rewrite Hlf.
  - intros b q j Hb Hq Hne. by apply (remaps_views K A s s' a (va_path va) (va_index 0 va)).
  - intros vb Hne [l2 [H1 H2 H3 H4 H5]]. destruct (unmap_walk A s a va l1 vb Hok Ha Hm) as [W1 W2].
    exists l2. assert (entry (ph_mem s') l2 (va_index 0 vb) = entry (ph_mem s) l2 (va_index 0 vb)) as He.
    { unfold s'. cbn [ph_mem]. rewrite entry_set_entry, decide_False; [done|]. intros [<- Hj].
      pose proof (va_pos_pos vb) as (Hq&_).
      destruct (vo_sep _ _ _ Hok a a (va_path va) (va_path vb) l1) as [He _]; try done; [apply Hm|].
      apply Hne. by rewrite He, Hj. }
    unfold s' in *. cbn [ph_mem] in *. split; rewrite ?W1, ?W2, ?He; done.
Qed.
End unmap.

(** ** The pages of a range *)

Section range.
Context `{Pg : Paging} `{Ad : Addresses} `{AL : !AddressesLaws} `{Um : Unmapper} `{UL : !UnmapperLaws} (K : Z).

Lemma region_va_low addr n i :
  0 ≤ addr → region_va addr n ≤ 2 ^ 47 → 0 ≤ i < n →
  0 ≤ region_va addr i < 2 ^ 47 ∧ virt_addr (wrap64 (frame_containing addr + i * 4096)) = Some (region_va addr i) ∧
  frame_containing (region_va addr i) = region_va addr i.
Proof.
  intros Ha Hn Hi. unfold region_va in *. unfold frame_containing in *.
  assert (0 ≤ addr / 4096 * 4096 + i * 4096 < 2 ^ 47) as Hr by lia.
  rewrite wrap_small by lia. split_and!; [lia|lia|by apply virt_addr_low|lia].
Qed.

Lemma region_va_inj addr n i j :
  0 ≤ addr → region_va addr n ≤ 2 ^ 47 → 0 ≤ i < n → 0 ≤ j < n →
  (va_path (region_va addr i), va_index 0 (region_va addr i)) =
    (va_path (region_va addr j), va_index 0 (region_va addr j)) → i = j.
Proof.
  intros Ha Hn Hi Hj [= H3 H2 H1 H0].
  destruct (region_va_low addr n i) as (Hr&_&_); [done..|].
  destruct (region_va_low addr n j) as (Hr'&_&_); [done..|].
  assert (page_of (region_va addr i) = page_of (region_va addr j)) as Hp.
  { apply user_page_of_inj; [lia|lia| |done]. unfold va_path. congruence. }
  unfold page_of, region_va, frame_containing in Hp. lia.
Qed.

(** The checks pass exactly when every page is mapped; they change nothing. *)
Lemma check_user_pages_spec a addr n s r s' :
  0 ≤ addr → 0 ≤ n → region_va addr n ≤ 2 ^ 47 →
  (∀ i, 0 ≤ i < n → mapped (ph_mem s) a (region_va addr i) ∨ unmapped (ph_mem s) a (region_va addr i)) →
  check_user_pages a addr n s = (r, s') →
  s' = s ∧ ((r = Ok tt ∧ ∀ i, 0 ≤ i < n → mapped (ph_mem s) a (region_va addr i)) ∨
            (r = Err tt ∧ ∃ i, 0 ≤ i < n ∧ unmapped (ph_mem s) a (region_va addr i))).
Proof.
  intros Ha Hn Hend Hdec. unfold check_user_pages.
  rewrite <-(Z2Nat.id n) by done. intros Hrun.
  apply (sfor_seqZ_result (λ k s1, s1 = s ∧ ∀ i, 0 ≤ i < k → mapped (ph_mem s) a (region_va addr i))
    (λ k r1 s1, s1 = s ∧ r1 = Err tt ∧ unmapped (ph_mem s) a (region_va addr k))) in Hrun.
  - rewrite Z2Nat.id in * by done. destruct r as [[]|[]| |].
    + destruct Hrun as [-> Hall]. split; [done|by left].
    + destruct Hrun as (i&Hi&->&_&Hu). split; [done|]. right. split; [done|]. by exists i.
    + by destruct Hrun as (i&_&_&?&_).
    + by destruct Hrun as (i&_&_&?&_).
  - split; [done|]. intros; lia.
  - rewrite Z2Nat.id by done. intros i s1 r1 s2 Hi [-> Hall] Hstep.
    destruct (region_va_low addr n i) as (Hlow&Hva&_); [done|done|lia|].
    rewrite Hva in Hstep. unfold sbind, slift, sget, or_panic in Hstep.
    destruct (Hdec i) as [Hm|Hu]; [lia| |].
    + destruct (mapped_flags _ _ _ Hlow Hm) as (fl&Hfl&Hus). rewrite Hfl, Hus in Hstep.
      injection Hstep as <- <-. split; [done|]. intros j Hj.
      destruct (decide (j = i)) as [->|]; [done|]. apply Hall. lia.
    + rewrite translate_flags_unmapped in Hstep by apply Hu || done. by injection Hstep as <- <-.
Qed.

(** After [k] pages. *)
Record removing A (a addr k n : Z) s s' : Prop := {
  rg_ok : vm_ok K A s';
  rg_fa : ph_fa s' = ph_fa s;
  rg_gone q j : region_page addr k q j → user_page (ph_mem s') a q j = None;
  rg_others b q j : b ∈ A → pos q j → b ≠ a ∨ ¬ region_page addr k q j →
    user_page (ph_mem s') b q j = user_page (ph_mem s) b q j ∧
    can_write (ph_mem s') b q j = can_write (ph_mem s) b q j;
  rg_left i : k ≤ i < n → mapped (ph_mem s') a (region_va addr i) }.

Lemma unmap_pages_spec A a addr n s r s' :
  vm_ok K A s → a ∈ A → 0 ≤ addr → 0 ≤ n → region_va addr n ≤ 2 ^ 47 →
  (∀ i, 0 ≤ i < n → mapped (ph_mem s) a (region_va addr i)) →
  unmap_pages a addr n s = (r, s') → r = Ok tt ∧ removing A a addr n n s s'.
Proof.
  intros Hok Ha Had Hn Hend Hall. unfold unmap_pages. rewrite <-(Z2Nat.id n) by done. intros Hrun.
  apply (sfor_seqZ_result (λ k s1, removing A a addr k n s s1) (λ _ _ _, False)) in Hrun.
  - rewrite Z2Nat.id in * by done. destruct r as [[]|[]| |]; [by split|by destruct Hrun as (?&_&?)..].
  - split; try done. intros q j (t&?&_). lia.
  - rewrite Z2Nat.id by done. intros i s1 r1 s2 Hi [R1 R2 R3 R4 R5] Hstep.
    destruct (region_va_low addr n i) as (Hlow&Hva&Hfr); [done|done|lia|].
    rewrite Hva in Hstep. unfold sbind, slift, or_panic in Hstep.
    destruct (R5 i) as [l1 Hm]; [lia|]. pose proof Hm as [M1 M2 M3 M4 M5].
    pose proof (unmap_mapped (ph_mem s1) a (region_va addr i) _ l1 Hlow M1 M2 eq_refl M3 M5) as Hun.
    rewrite Hfr in Hun. rewrite Hun in Hstep. injection Hstep as <- <-.
    destruct (unmap_one K A s1 a (region_va addr i) l1 R1 Ha Hm) as [V1 V2 V3 V4 V5].
    assert (∀ t, 0 ≤ t < n → t ≠ i →
      (va_path (region_va addr t), va_index 0 (region_va addr t)) ≠
      (va_path (region_va addr i), va_index 0 (region_va addr i))) as Hdist.
    { intros t Ht Hne Heq. apply Hne. eapply region_va_inj; [exact Had|exact Hend|done|lia|done]. }
    split; [done|by rewrite V2| | |].
    + intros q j Hin. apply region_page_S in Hin; [|lia]. destruct Hin as [Hin|[<- <-]]; [|done].
      destruct Hin as (t&Ht&<-&<-). destruct (V4 a (va_path (region_va addr t)) (va_index 0 (region_va addr t)))
        as [-> _]; [done|apply va_pos_pos| |apply R3; by exists t].
      intros [= E3 E2 E1 E0]. apply (Hdist t); [lia|lia|]. unfold va_path. congruence.
    + intros b q j Hb Hq Hor. destruct (V4 b q j) as [-> ->]; [done|done| |].
      * intros [= -> -> ->]. destruct Hor as [?|Hnr]; [done|]. apply Hnr, region_page_S; [lia|by right].
      * apply R4; [done|done|]. destruct Hor as [?|Hnr]; [by left|right]. intros Hin.
        apply Hnr, region_page_S; [lia|by left].
    + intros t Ht. apply V5; [apply Hdist; lia|]. apply R5. lia.
Qed.

Lemma unmap_range_spec A a addr n s r s' :
  vm_ok K A s → a ∈ A → 0 ≤ addr → 0 ≤ n → region_va addr n ≤ 2 ^ 47 →
  (∀ i, 0 ≤ i < n → mapped (ph_mem s) a (region_va addr i) ∨ unmapped (ph_mem s) a (region_va addr i)) →
  (let! _ := check_user_pages a addr n in unmap_pages a addr n) s = (r, s') →
  ((∀ i, 0 ≤ i < n → mapped (ph_mem s) a (region_va addr i)) ∧ r = Ok tt ∧ removing A a addr n n s s') ∨
  ((∃ i, 0 ≤ i < n ∧ unmapped (ph_mem s) a (region_va addr i)) ∧ r = Err tt ∧ s' = s).
Proof.
  intros Hok Ha Had Hn Hend Hdec. unfold sbind.
  destruct (check_user_pages a addr n s) as [rc s1] eqn:Hc.
  destruct (check_user_pages_spec a addr n s rc s1) as [-> [[-> Hall]|[-> Hno]]]; [done..| |].
  - intros Hun. left. split; [done|]. by eapply unmap_pages_spec.
  - intros [= <- <-]. by right.
Qed.
End range.

(** ** The calls *)

Section calls.
Context {C D : Type} `{Con : Console C} `{Prn : Printer C} `{Nt : Net.Smoltcp} `{BD : BlockDev D}
  `{Pg : Paging} `{PL : !PagingLaws} `{Ad : Addresses} `{AL : !AddressesLaws} `{Cp : Processor} `{Sel : Selectors}
  `{Um : Unmapper} `{UL : !UnmapperLaws} (K : Z).
Implicit Types k : (kernel (@world C D Nt)).

(** The page of an address lies in the range of pages. *)
Definition in_range (addr n x : Z) : Prop := region_va addr 0 ≤ x < region_va addr n.
#[export] Instance in_range_dec addr n x : Decision (in_range addr n x).
Proof. unfold in_range. apply _. Defined.

Lemma in_range_page addr n x :
  0 ≤ addr → region_va addr n ≤ 2 ^ 47 → 0 ≤ x < 2 ^ 47 →
  in_range addr n x ↔ region_page addr n (va_path x) (va_index 0 x).
Proof.
  intros Ha Hend Hx. unfold in_range. split.
  - intros Hr. exists (x / 4096 - addr / 4096).
    split; [unfold region_va, frame_containing in *; lia|].
    apply page_of_key; [unfold region_va, frame_containing in *; lia|lia|].
    unfold page_of, region_va, frame_containing. lia.
  - intros (t&Ht&Hp&Hi). assert (page_of (region_va addr t) = page_of x) as Hpg.
    { apply user_page_of_inj; [|lia|done|done]. unfold region_va, frame_containing in *. lia. }
    unfold page_of, region_va, frame_containing in *. lia.
Qed.

Lemma map_env_phys_id k :
  map_env (set_mm (Mm (w_phys (k_env k)) (user_page_tables (w_mm (k_env k))))) k = k.
Proof. by destruct k as [? ? ? ? ? ? ? ? ? ? ? [? ? ? [? ?] ?]]. Qed.

(** C17: munmap removes all or nothing.  A length of 0 succeeds without effect; an
    address below the heap's start or above the user half is refused, whatever is
    mapped there.  Otherwise the range is [n] pages, [n] as the code computes it,
    with the rounding that wraps around for the last 4095 lengths; it must end in
    the user half, and each of its pages must be one of the process or not mapped
    at all (a page that only the kernel may use is left out).  If all of them are
    mapped, the call returns 0, the pages of the range are no longer accessible,
    and every other byte - of this process and of all others - is as before; the
    frames are not given back.  If one of them is not mapped, the call returns
    [-1] and nothing has changed. *)
Theorem munmap_all_or_nothing A k t a addr len o k' :
  runs k t → t_ring t = RUser → t_user_cr3 t = Some a → a ∈ A → vm_ok K A (phys_of k) →
  let n := wrap64 (len + 4095) / 4096 in
  let in_heap := USER_HEAP_START ≤ addr < USER_SPACE_MAX in
  (in_heap → region_va addr n ≤ 2 ^ 47 ∧
     ∀ i, 0 ≤ i < n → mapped (mem_of k) a (region_va addr i) ∨ unmapped (mem_of k) a (region_va addr i)) →
  sys_munmap addr len k = (o, k') →
  (len = 0 ∧ o = Ok 0 ∧ k' = k) ∨
  (len ≠ 0 ∧ ¬ in_heap ∧ o = Ok u64_max ∧ k' = k) ∨
  (len ≠ 0 ∧ in_heap ∧ (∀ i, 0 ≤ i < n → mapped (mem_of k) a (region_va addr i)) ∧ o = Ok 0 ∧ k_tasks k' = k_tasks k ∧
     vm_ok K A (phys_of k') ∧ ph_fa (phys_of k') = ph_fa (phys_of k) ∧
     ∀ b x, b ∈ A → 0 ≤ x < 2 ^ 47 → byte_view (mem_of k') b x =
       if decide (b = a ∧ in_range addr n x) then None else byte_view (mem_of k) b x) ∨
  (len ≠ 0 ∧ in_heap ∧ (∃ i, 0 ≤ i < n ∧ unmapped (mem_of k) a (region_va addr i)) ∧ o = Ok u64_max ∧ k' = k).
Proof.
  intros Hr Hu Ht Ha Hok n in_heap Hpages.
  assert (0 ≤ n) as Hn by (unfold n, wrap; lia).
  unfold sys_munmap. unfold sbind at 1. rewrite (user_ring_run k t) by done. rewrite Hu. cbn [negb bool_decide].
  change (bool_decide (RUser = RUser)) with true. cbn [negb]. unfold sys_munmap_impl.
  intros Hcall. destruct (Z.eqb_spec len 0) as [->|Hlen]; [injection Hcall as <- <-; by left|]. right.
  destruct (Z.ltb_spec addr USER_HEAP_START) as [Hlo|Hlo];
    [injection Hcall as <- <-; left; split_and!; [done|unfold in_heap; lia|done..]|].
  destruct (Z.leb_spec USER_SPACE_MAX addr) as [Hhi|Hhi];
    [injection Hcall as <- <-; left; split_and!; [done|unfold in_heap; lia|done..]|].
  assert in_heap as Hin by done. destruct (Hpages Hin) as [Hend Hdec]. right.
  assert (0 ≤ addr) as Had by (unfold USER_HEAP_START in Hlo; lia).
  revert Hcall. cbn [orb]. fold n. clearbody n.
  unfold sbind at 1. unfold sbind at 1. rewrite (current_run k t) by done. rewrite Ht.
  unfold on_phys_mm. change (w_phys (k_env k)) with (phys_of k).
  destruct (sbind _ _ (phys_of k)) as [r s2] eqn:Hrun.
  apply (unmap_range_spec K A) in Hrun as [(Hall&->&[R1 R2 R3 R4 _])|(Hno&->&->)]; [| |done..]; cbn [fst snd].
  - intros [= <- <-]. left. split_and!; try done. intros b x Hb Hx.
    change (mem_of (map_env _ _)) with (ph_mem s2). unfold byte_view, page_view.
    case_decide as Hd.
    + destruct Hd as [-> Hir%in_range_page]; [|done..]. by rewrite R3.
    + destruct (R4 b (va_path x) (va_index 0 x)) as [-> _]; [done|apply va_pos_pos| |done].
      destruct (decide (b = a)) as [->|]; [right|by left]. intros Hir%in_range_page; [|done..]. by apply Hd.
  - intros [= <- <-]. right. split_and!; [done..|]. apply map_env_phys_id.
Qed.

(** Pages that [map_user_region] has added, as bytes. *)
Lemma mapping_bytes A s a start j n s1 b x :
  mapping K A s a start j true n s1 → a ∈ A → b ∈ A → 0 ≤ start → region_va start j ≤ 2 ^ 47 → 0 ≤ x < 2 ^ 47 →
  byte_view (ph_mem s1) b x =
    (if decide (b = a ∧ in_range start j x) then Some 0 else byte_view (ph_mem s) b x) ∧
  write_view (ph_mem s1) b x =
    (if decide (b = a ∧ in_range start j x) then true else write_view (ph_mem s) b x).
Proof.
  intros Hm Ha Hb Hs Hend Hx. unfold byte_view, page_view, write_view.
  destruct (decide (b = a ∧ in_range start j x)) as [[-> Hin%in_range_page]|Hd]; [|done..|].
  - destruct (mg_pages _ _ _ _ _ _ _ _ _ Hm _ _ (va_pos_pos x) Hin) as (_&->&->). split; [|done].
    cbn [fmap option_fmap option_map]. f_equal. unfold page_byte. by rewrite lookup_empty, Z.shiftr_0_l.
  - destruct (mg_others _ _ _ _ _ _ _ _ _ Hm b _ _ Hb (va_pos_pos x)) as [-> ->]; [|done].
    destruct (decide (b = a)) as [->|]; [right|by left]. intros Hin%in_range_page; [|done..]. by apply Hd.
Qed.

(** mmap hands out zeroed memory of the process's own.  A process asks for
    [len] bytes, with the pages behind its allocation pointer free of kernel
    mappings.  The pointer moves behind the range in any case.  If the call
    succeeds, it returns where the pointer was; every byte of the range is then
    accessible, writable and zero, and every other byte - of this process and all
    others - is as before.  If the frames run out, it returns [-1], and the pages
    mapped so far stay mapped, zeroed, at the start of the range. *)
Theorem mmap_zeroed A k t a a0 len a2 o k' :
  runs k t → t_ring t = RUser → t_user_cr3 t = Some a → a ∈ A → vm_ok K A (phys_of k) →
  0 < len → len + 4095 < 2 ^ 64 → 0 ≤ t_mmap_next t →
  let n := (len + 4095) / 4096 in
  t_mmap_next t mod 4096 = 0 → t_mmap_next t + n * 4096 ≤ 2 ^ 47 →
  region_free K (mem_of k) (t_mmap_next t) n →
  sys_mmap a0 len a2 k = (o, k') →
  ∃ r j, o = Ok r ∧ vm_ok K A (phys_of k') ∧
    k_tasks k' !! k_current k = Some (with_mmap_next (t_mmap_next t + n * 4096) t) ∧
    (r = t_mmap_next t ∧ j = n ∨ r = u64_max ∧ 0 ≤ j < n) ∧
    ∀ b x, b ∈ A → 0 ≤ x < 2 ^ 47 →
      byte_view (mem_of k') b x =
        (if decide (b = a ∧ in_range (t_mmap_next t) j x) then Some 0 else byte_view (mem_of k) b x) ∧
      write_view (mem_of k') b x =
        (if decide (b = a ∧ in_range (t_mmap_next t) j x) then true else write_view (mem_of k) b x).
Proof.
  intros Hr Hu Ht Ha Hok Hlen Hw Hst n Hal Hend Hfree. set (start := t_mmap_next t) in *.
  assert (0 < n) as Hn by (unfold n; lia).
  assert (∀ j, region_va start j = start + j * 4096) as Hva
    by (intros j; unfold region_va, frame_containing; clear -Hal; lia).
  unfold sys_mmap. unfold sbind at 1. rewrite (user_ring_run k t) by done. rewrite Hu.
  change (bool_decide (RUser = RUser)) with true. cbn [negb]. unfold sys_mmap_impl.
  rewrite (proj2 (Z.eqb_neq len 0)) by lia. rewrite (wrap_small 64 (len + 4095)) by lia. fold n. clearbody n.
  unfold sbind at 1. unfold sbind at 1. rewrite (current_run k t) by done. rewrite Ht. fold start.
  rewrite wrap_small by lia. unfold sbind at 1, smodify at 1.
  set (k1 := upd_cur _ k). unfold sbind at 1, on_phys_mm.
  change (w_phys (k_env k1)) with (phys_of k).
  destruct (map_user_region a start (Z.to_nat n) true (phys_of k)) as [rm s2] eqn:Hrun.
  apply (map_user_region_spec K A) in Hrun; [|done|done|by rewrite Z2Nat.id by lia].
  rewrite Z2Nat.id in Hrun by lia.
  assert (k_tasks k1 !! k_current k = Some (with_mmap_next (start + n * 4096) t)) as Hcur.
  { unfold k1, upd_cur, upd. cbn. rewrite list_lookup_alter_eq. by rewrite (proj1 Hr). }
  assert (∀ j s', 0 ≤ j ≤ n → mapping K A (phys_of k) a start j true n s' → ∀ b x, b ∈ A → 0 ≤ x < 2 ^ 47 →
    byte_view (ph_mem s') b x =
      (if decide (b = a ∧ in_range start j x) then Some 0 else byte_view (mem_of k) b x) ∧
    write_view (ph_mem s') b x =
      (if decide (b = a ∧ in_range start j x) then true else write_view (mem_of k) b x)) as Hby.
  { intros j s' Hj Hm b x Hb Hx.
    apply (mapping_bytes A (phys_of k) a start j n s' b x Hm); try done. rewrite Hva. lia. }
  destruct rm as [[]|[]| |]; cbn [fst snd]; [| |done..].
  - intros [= <- <-]. exists start, n. split_and!; [done|apply Hrun|exact Hcur|by left|].
    apply (Hby n s2); [lia|done].
  - destruct Hrun as (j&Hj&Hm). intros [= <- <-]. exists u64_max, j.
    split_and!; [done|apply Hm|exact Hcur|by right|]. apply (Hby j s2); [lia|done].
Qed.
End calls.
