(* ===== verification/SyscallDemo.v ===== *)
(** * A concrete kernel

    All components on test devices: the small volume on a RAM disk, a console
    that keeps what is typed and printed, the socket set of [Net], and one user
    process whose address space is the one of [MemoryRefine].  The theorems
    about system calls are run on it. *)

From S2P Require Import Prelude Capability Block NextfsLayout NextfsAlloc NextfsFile NextfsDir NextfsSpec NextfsIO NextfsProps VfsTable Vfs VfsPipes VfsProps Signal Task TaskSpec TaskTree TaskSteps Ipc Frames Paging PagingRef Memory MemorySpec MemoryProps MemorySteps MemoryRefine Bytes Elf ElfLoad ElfProps UserMem Wm Net World Utf8 Syscall SyscallGate SyscallTree SyscallFiles SyscallMem.

#[local] Ltac Zify.zify_post_hook ::= Z.to_euclidean_division_equations.

#[local] Existing Instance Net.test_smoltcp.

(** Keys typed and bytes printed. *)
Record tty := Tty { tty_in : list Z; tty_out : bytes }.
#[export] Instance tty_console : Console tty := {
  console_read_char c := match tty_in c with x :: l => (Some x, Tty l (tty_out c)) | [] => (None, c) end;
  console_write b c := Tty (tty_in c) (tty_out c ++ [b]);
}.
#[export] Instance tty_printer : Printer tty := λ s c, Tty (tty_in c) (tty_out c ++ s).
#[export] Instance demo_processor : Processor := true.
#[export] Instance demo_selectors : Selectors := {
  sel_user_cs := 35; sel_user_ss := 27;
  at_task_trampoline := 1; at_fork_child_trampoline := 2; at_user_task_trampoline := 3 }.

(** A walk that stops at an entry that is not present. *)
Fixpoint ref_flags (m : pmem) (t : Z) (k : nat) (va : Z) : option Z :=
  let e := entry m t (va_index (Z.of_nat k) va) in
  if negb (contains (pte_flags e) PRESENT) then None else
  match k with
  | O => Some (pte_flags e)
  | S k' => if contains (pte_flags e) HUGE_PAGE then Some (pte_flags e) else ref_flags m (pte_addr e) k' va
  end.
#[export] Instance ref_unmapper : Unmapper := {
  translate_flags m l4 va := ref_flags m l4 3 va;
  unmap l4 page m :=
    match node m l4 (va_path page) with
    | None => None
    | Some l1 =>
        let e := entry m l1 (va_index 0 page) in
        if negb (contains (pte_flags e) PRESENT) || contains (pte_flags e) HUGE_PAGE then None
        else Some (set_entry m l1 (va_index 0 page) 0)
    end;
}.

Lemma present_next m t i :
  contains (pte_flags (entry m t i)) PRESENT = true → contains (pte_flags (entry m t i)) HUGE_PAGE = false →
  next_table m t i = Some (pte_addr (entry m t i)).
Proof.
  intros Hp Hh. unfold next_table. rewrite Hh, orb_false_r. destruct (is_unused _) eqn:Hu; [|done].
  apply Z.eqb_eq in Hu. by rewrite Hu in Hp.
Qed.

(** An entry that ends a walk early blocks it. *)
Lemma huge_blocked m t p q j r c :
  p = q ++ j :: r → node m t q = Some c → contains (pte_flags (entry m c j)) PRESENT = true →
  contains (pte_flags (entry m c j)) HUGE_PAGE = true → blocked m t p.
Proof.
  intros -> Hc Hp Hh. exists q, j, r, c. split_and!; [done|done| |].
  - intros Hz. by rewrite Hz in Hp.
  - unfold next_table. by rewrite Hh, orb_true_r.
Qed.

#[export] Instance ref_unmapper_laws : UnmapperLaws.
Proof.
  split.
  - intros m l4 va e Hva Hw Hl He. apply leaf_node in Hl as (l1&Hn&<-).
    unfold walk_present in Hw. unfold va_path in Hw, Hn. cbn [seq forallb take lookup list_lookup] in Hw.
    cbn [node] in Hw. apply andb_true_iff in Hw as [P3 Hw].
    cbn [node] in Hn. apply bind_Some in Hn as (l3&H3&Hn). rewrite H3 in Hw. cbn [mbind option_bind] in Hw.
    apply andb_true_iff in Hw as [P2 Hw].
    apply bind_Some in Hn as (l2&H2&Hn). rewrite H2 in Hw. cbn [mbind option_bind] in Hw.
    apply andb_true_iff in Hw as [P1 _].
    apply bind_Some in Hn as (l1'&H1&Hn). injection Hn as ->.
    apply next_table_step in H3 as [G3 ->], H2 as [G2 ->], H1 as [G1 ->].
    unfold translate_flags. simpl. unfold ref_flags.
    change (Z.of_nat 3) with 3. change (Z.of_nat 2) with 2. change (Z.of_nat 1) with 1. change (Z.of_nat 0) with 0.
    rewrite P3, G3, P2, G2, P1, G1. cbn [negb]. by rewrite He.
  - intros m l4 va Hva Hnb Hz. unfold translate_flags. simpl. unfold ref_flags.
    change (Z.of_nat 3) with 3. change (Z.of_nat 2) with 2. change (Z.of_nat 1) with 1. change (Z.of_nat 0) with 0.
    destruct (contains (pte_flags (entry m l4 (va_index 3 va))) PRESENT) eqn:P3; [|done]. cbn [negb].
    destruct (contains (pte_flags (entry m l4 (va_index 3 va))) HUGE_PAGE) eqn:G3.
    { destruct Hnb. by apply (huge_blocked m l4 _ [] (va_index 3 va) [va_index 2 va; va_index 1 va] l4). }
    pose proof (present_next _ _ _ P3 G3) as N3. set (t2 := pte_addr (entry m l4 (va_index 3 va))) in *.
    destruct (contains (pte_flags (entry m t2 (va_index 2 va))) PRESENT) eqn:P2; [|done]. cbn [negb].
    destruct (contains (pte_flags (entry m t2 (va_index 2 va))) HUGE_PAGE) eqn:G2.
    { destruct Hnb. apply (huge_blocked m l4 _ [va_index 3 va] (va_index 2 va) [va_index 1 va] t2); try done.
      cbn [node]. by rewrite N3. }
    pose proof (present_next _ _ _ P2 G2) as N2. set (t1 := pte_addr (entry m t2 (va_index 2 va))) in *.
    destruct (contains (pte_flags (entry m t1 (va_index 1 va))) PRESENT) eqn:P1; [|done]. cbn [negb].
    destruct (contains (pte_flags (entry m t1 (va_index 1 va))) HUGE_PAGE) eqn:G1.
    { destruct Hnb. apply (huge_blocked m l4 _ [va_index 3 va; va_index 2 va] (va_index 1 va) [] t1); try done.
      cbn [node]. rewrite N3. cbn [mbind option_bind node]. by rewrite N2. }
    pose proof (present_next _ _ _ P1 G1) as N1. set (t0 := pte_addr (entry m t1 (va_index 1 va))) in *.
    rewrite (Hz (entry m t0 (va_index 0 va))); [done|]. unfold leaf, va_path. cbn [node].
    rewrite N3. cbn [mbind option_bind node]. rewrite N2. cbn [mbind option_bind node]. by rewrite N1.
  - intros m l4 va e l1 Hva Hw Hn <- Hp Hh. unfold unmap, ref_unmapper.
    destruct (page_of_key (frame_containing va) va) as [-> ->];
      [unfold frame_containing; lia|lia|unfold page_of, frame_containing; lia|].
    by rewrite Hn, Hp, Hh.
Qed.

(** ** The state *)

Abbreviation demo_world := (@world tty (registry ram) Net.test_smoltcp).
Definition demo_vfs : vfs (@devices tty Net.test_smoltcp) (registry ram) :=
  init_task_fds 1 (Vfs (Some small_fs) ∅ ∅ 1 ∅ (Devices (Tty [] []) None)).
Definition demo_idle : task :=
  Task 0 (str "idle") 0 0 Runnable 0 [] RKernel None 0 None [] 0 false signals_new 0.
Definition demo_user : task :=
  Task 1 (str "sh") 0 0 Running 0 [] RUser (Some demo_parent) 0 None [] 0 false signals_new USER_HEAP_START.
(** The process may open files; the file is descriptor 3. *)
Definition demo_caps : tables := (mint 1 (Role ROLE_FILE_SYSTEM) Rights.SEND ∅).1.
Definition demo_opened : vfs (@devices tty Net.test_smoltcp) (registry ram) :=
  (open 9 1 (str "/a.txt") rdwr demo_vfs).2.
Definition demo_state : kernel demo_world :=
  Kernel [demo_idle; demo_user] 1 2 GUARDED_STACK_VIRT_BASE u64_max 0 0 (Some demo_kernel) demo_parent 0 ∅
    (World demo_caps ipc_init demo_opened (Mm demo3 [demo_parent]) (Wm.WmS None 1 0)).

(** The frame of a system call. *)
Definition call_frame (num a0 a1 a2 : Z) : frame :=
  <[R_RAX := num]> (<[R_RDI := a0]> (<[R_RSI := a1]> (<[R_RDX := a2]> (replicate 20 0)))).

Lemma demo_state_runs : runs demo_state demo_user.
Proof. by split. Qed.

Lemma demo_state_ok : kernel_ok demo_state.
Proof.
  assert (∀ x t, table_of demo_state x = Some t → x = 0 ∧ t = demo_idle ∨ x = 1 ∧ t = demo_user) as Ht.
  { intros x t. unfold table_of, find_task, index_of. simpl.
    destruct x as [|[p|p|]|p]; simpl; [intros [= <-]; by left|done|done|intros [= <-]; by right|done]. }
  assert (∀ x t, table_of demo_state x = Some t →
    t_children t = [] ∧ t_parent t = None ∧ t_state t ≠ Blocked ∧ signals_ok (t_signals t)) as Hp.
  { intros x t [[_ ->]|[_ ->]]%Ht; split_and!; done || apply signals_new_ok. }
  split; [split| |].
  - by apply (bool_decide_unpack _).
  - by apply (bool_decide_unpack _).
  - simpl. lia.
  - intros [|[|[|]]] t; simpl; intros [= <-] H; done.
  - split.
    + intros p t c (Hc&_)%Hp _. rewrite Hc. by intros ?%not_elem_of_nil.
    + intros p t c u _ (_&Hn&_)%Hp _ _. by rewrite Hn.
    + intros p t c u (_&_&Hb&_)%Hp _ Hb'. done.
    + intros p t (_&_&_&Hs)%Hp. done.
  - split; [|done]. intros x t p (_&Hn&_)%Hp. by rewrite Hn.
Qed.

(** A fresh page of the heap, and the page given back. *)
Definition demo_mapped : kernel demo_world := (sys_mmap 0 4096 3 demo_state).2.
Definition demo_unmapped : kernel demo_world := (sys_munmap USER_HEAP_START 4096 demo_mapped).2.
(** A file written, the position moved back, the file read. *)
Definition frame_write : frame := call_frame SYS_WRITE 3 (demo_va + 24) 3.
Definition frame_lseek : frame := call_frame SYS_LSEEK 3 0 0.
Definition frame_read : frame := call_frame SYS_READ 3 (demo_va + 100) 3.
Definition demo_written : kernel demo_world := (syscall_dispatch_inner [] [] frame_write demo_state).2.
Definition demo_rewound : kernel demo_world := (syscall_dispatch_inner [] [] frame_lseek demo_written).2.
Definition demo_reread : kernel demo_world := (syscall_dispatch_inner [] [] frame_read demo_rewound).2.

Lemma demo_mapped_run : sys_mmap 0 4096 3 demo_state = (Ok USER_HEAP_START, demo_mapped).
Proof. compute_run demo_mapped. Qed.
Lemma demo_unmapped_run : sys_munmap USER_HEAP_START 4096 demo_mapped = (Ok 0, demo_unmapped).
Proof. compute_run demo_unmapped. Qed.
Lemma demo_write_run :
  syscall_dispatch_inner [] [] frame_write demo_state = (Ok (Some (3, frame_write)), demo_written).
Proof. compute_run demo_written. Qed.
Lemma demo_lseek_run :
  syscall_dispatch_inner [] [] frame_lseek demo_written = (Ok (Some (0, frame_lseek)), demo_rewound).
Proof. compute_run demo_rewound. Qed.
Lemma demo_read_run :
  syscall_dispatch_inner [] [] frame_read demo_rewound = (Ok (Some (3, frame_read)), demo_reread).
Proof. compute_run demo_reread. Qed.
#[local] Opaque demo3 demo_mapped demo_unmapped demo_written demo_rewound demo_reread.

(** ** Witnesses *)

(** The process has no right to send signals, and the kernel's memory is no
    buffer. *)
Example refused_calls_change_nothing_witness :
  syscall_dispatch_inner [] [] (call_frame SYS_KILL 0 9 0) demo_state =
    (Ok (Some (u64_max, call_frame SYS_KILL 0 9 0)), demo_state) ∧
  syscall_dispatch_inner [] [] (call_frame SYS_WRITE 3 (2 ^ 47) 5) demo_state =
    (Ok (Some (u64_max, call_frame SYS_WRITE 3 (2 ^ 47) 5)), demo_state).
Proof.
  split; apply (refused_calls_change_nothing [] [] _ demo_state demo_user demo_state_runs); vm_compute; reflexivity.
Defined.

Definition demo_dispatched : kernel demo_world := (syscall_dispatch [] [] frame_write demo_state).2.
Lemma demo_dispatched_run :
  syscall_dispatch [] [] frame_write demo_state = (Ok (Some (<[R_RAX := 3]> frame_write)), demo_dispatched).
Proof. compute_run demo_dispatched. Qed.
#[local] Opaque demo_dispatched.

Example system_calls_keep_tree_witness : kernel_ok demo_dispatched.
Proof.
  apply (system_calls_keep_tree [] (Forall_nil_2 _) [] frame_write demo_state demo_user
    (Some (<[R_RAX := 3]> frame_write)) demo_dispatched);
    [apply demo_state_ok|apply demo_state_runs|by split|apply demo_dispatched_run].
Defined.

Lemma demo_state_phys : phys_of demo_state = demo3.
Proof. reflexivity. Qed.
Lemma demo_state_vm : vm_ok demo_kernel {[demo_parent]} (phys_of demo_state).
Proof. exact demo3_ok. Qed.
Lemma demo_parent_in : demo_parent ∈ ({[demo_parent]} : gset Z).
Proof. by apply elem_of_singleton. Qed.

(** A property of a few addresses, one by one. *)
Lemma check_range (P : Z → Prop) `{∀ x, Decision (P x)} a n :
  bool_decide (Forall P (seqZ a n)) = true → ∀ x, a ≤ x < a + n → P x.
Proof.
  intros Hf%bool_decide_eq_true x Hx. rewrite Forall_forall in Hf. apply Hf, elem_of_seqZ. lia.
Qed.

Example write_read_calls_witness :
  byte_view (mem_of demo_reread) demo_parent (demo_va + 100) = Some 42 ∧
  byte_view (mem_of demo_reread) demo_parent (demo_va + 24) = Some 42.
Proof.
  destruct (write_read_calls [] [] [] [] [] [] demo_kernel {[demo_parent]} frame_write frame_lseek frame_read
    demo_state demo_user small_fs (OpenFile (Regular 2) rdwr 0) 2 3 (demo_va + 24) (demo_va + 100) 3 3 0 3
    demo_written demo_rewound demo_reread) as (_&_&_&_&_&Hb&_).
  - apply demo_state_runs.
  - reflexivity.
  - vm_compute. reflexivity.
  - apply small_fs_ok.
  - vm_compute. reflexivity.
  - reflexivity.
  - lia.
  - reflexivity.
  - vm_compute. intros Hc; discriminate Hc.
  - apply demo_state_vm.
  - apply demo_parent_in.
  - done.
  - done.
  - lia.
  - apply check_range with (P := λ x, is_Some (byte_view (mem_of demo_state) (k_cr3 demo_state) x)) (H := _).
    vm_compute. reflexivity.
  - apply check_range with (P := λ x, write_view (mem_of demo_state) (k_cr3 demo_state) x = true) (H := _).
    vm_compute. reflexivity.
  - by split.
  - apply demo_write_run.
  - done.
  - by split.
  - apply demo_lseek_run.
  - done.
  - by split.
  - apply demo_read_run.
  - done.
  - change (k_cr3 demo_state) with demo_parent in Hb.
    split; rewrite Hb by (unfold demo_va; lia); vm_compute; reflexivity.
Defined.

Lemma demo_heap_free : region_free demo_kernel (mem_of demo_state) USER_HEAP_START 1.
Proof.
  intros t Ht. assert (t = 0) as -> by lia. apply user_okb_ok. vm_compute. reflexivity.
Qed.

Example mmap_zeroed_witness :
  byte_view (mem_of demo_mapped) demo_parent (USER_HEAP_START + 8) = Some 0 ∧
  byte_view (mem_of demo_mapped) demo_parent (demo_va + 24) = Some 42.
Proof.
  destruct (mmap_zeroed demo_kernel {[demo_parent]} demo_state demo_user demo_parent 0 4096 3
    (Ok USER_HEAP_START) demo_mapped) as (r&j&[= <-]&_&_&[[_ ->]|[Hr _]]&Hb).
  - apply demo_state_runs.
  - reflexivity.
  - reflexivity.
  - apply demo_parent_in.
  - apply demo_state_vm.
  - done.
  - done.
  - done.
  - done.
  - done.
  - apply demo_heap_free.
  - apply demo_mapped_run.
  - split.
    + destruct (Hb demo_parent (USER_HEAP_START + 8) demo_parent_in) as [-> _]; [done|]. vm_compute. reflexivity.
    + destruct (Hb demo_parent (demo_va + 24) demo_parent_in) as [-> _]; [done|]. vm_compute. reflexivity.
  - done.
Defined.

Lemma demo_mapped_runs : runs demo_mapped (with_mmap_next 0x100001000 demo_user).
Proof. split; [|reflexivity]. vm_compute. reflexivity. Qed.

Definition demo7 : phys := (map_user_region demo_parent USER_HEAP_START 1 true demo3).2.
Lemma demo7_run : map_user_region demo_parent USER_HEAP_START 1 true demo3 = (Ok tt, demo7).
Proof. compute_run demo7. Qed.
Lemma demo_mapped_phys : phys_of demo_mapped = demo7.
Proof. vm_compute. reflexivity. Qed.
#[local] Opaque demo7 demo3 demo_opened.
Lemma demo7_vm : vm_ok demo_kernel {[demo_parent]} demo7.
Proof.
  pose proof demo_heap_free as Hf. change (mem_of demo_state) with (ph_mem demo3) in Hf.
  pose proof (map_user_region_spec demo_kernel {[demo_parent]} demo3 demo_parent USER_HEAP_START 1 true (Ok tt) demo7
    demo3_ok demo_parent_in Hf demo7_run) as Hm.
  exact (mg_ok _ _ _ _ _ _ _ _ _ Hm).
Qed.
Lemma demo_mapped_vm : vm_ok demo_kernel {[demo_parent]} (phys_of demo_mapped).
Proof. rewrite demo_mapped_phys. exact demo7_vm. Qed.
Lemma demo_heap_mapped : mapped (mem_of demo_mapped) demo_parent USER_HEAP_START.
Proof.
  exists (default 0 (node (mem_of demo_mapped) demo_parent (va_path USER_HEAP_START))).
  split; vm_compute; reflexivity.
Qed.

Example munmap_all_or_nothing_witness :
  byte_view (mem_of demo_unmapped) demo_parent (USER_HEAP_START + 8) = None ∧
  byte_view (mem_of demo_unmapped) demo_parent (demo_va + 24) = Some 42.
Proof.
  destruct (munmap_all_or_nothing demo_kernel {[demo_parent]} demo_mapped
    (with_mmap_next 0x100001000 demo_user) demo_parent USER_HEAP_START 4096 (Ok 0) demo_unmapped)
    as [([=]&_)|[(_&_&[=]&_)|[(_&_&_&_&_&_&_&Hb)|(_&_&_&[=]&_)]]].
  - apply demo_mapped_runs.
  - reflexivity.
  - reflexivity.
  - apply demo_parent_in.
  - apply demo_mapped_vm.
  - intros _. split; [done|]. intros i Hi. assert (i = 0) as -> by (change (wrap64 (4096 + 4095) / 4096) with 1 in Hi; lia).
    left. apply demo_heap_mapped.
  - apply demo_unmapped_run.
  - split; rewrite Hb by (apply demo_parent_in || done); vm_compute; reflexivity.
Defined.

(** ** What the calls do at the edges *)

(** The child of a fork and its parent share their pages read-only; a call that
    stores a result there - here the 8 bytes of [pipe] - panics the kernel, as
    CR0.WP is set and only faults of user mode are resolved. *)
Definition demo_shared : kernel demo_world :=
  map_env (set_mm (cow_fork_address_space (Some demo_kernel) demo_parent (Mm demo3 [demo_parent])).2) demo_state.
Example store_to_shared_page_panics :
  (sys_pipe demo_va demo_state).1 = Ok 0 ∧ (sys_pipe demo_va demo_shared).1 = Panic.
Proof. split; vm_compute; reflexivity. Qed.

(** The page count of [mmap] wraps: the largest length maps no page at all and
    is reported as a success; [munmap] of it succeeds as well. *)
Example mmap_wraps :
  (sys_mmap 0 u64_max 3 demo_state).1 = Ok USER_HEAP_START ∧
  phys_of (sys_mmap 0 u64_max 3 demo_state).2 = phys_of demo_state ∧
  (sys_munmap USER_HEAP_START u64_max demo_state).1 = Ok 0.
Proof. split_and!; vm_compute; reflexivity. Qed.

(** A failed [mmap] has moved the allocation pointer all the same: the first
    request takes more pages than there are frames. *)
Example failed_mmap_moves_pointer :
  (sys_mmap 0 (4096 * 64) 3 demo_state).1 = Ok u64_max ∧
  (sys_mmap 0 4096 3 (sys_mmap 0 (4096 * 64) 3 demo_state).2).1 = Ok u64_max ∧
  (t_mmap_next <$> k_tasks (sys_mmap 0 (4096 * 64) 3 demo_state).2) = [0; USER_HEAP_START + 4096 * 64].
Proof. split_and!; vm_compute; reflexivity. Qed.

(** Only opening a file needs the capability of the file system: removing it
    does not. *)
Example unlink_needs_no_capability :
  let k := map_env (set_caps ∅) demo_state in
  (sys_open demo_va 1 0 k).1 = Ok u64_max ∧
  is_ok (on_fs (unlink_path 9 1 (str "/a.txt")) k).1 = true ∧
  admitted demo_user (call_frame SYS_UNLINK demo_va 6 0) k = true.
Proof. split_and!; vm_compute; reflexivity. Qed.
