(* ===== verification/UserLib.v ===== *)
(** * The user library's system calls (userspace/libpickleos)

    The wrappers that programs are linked with, from the registers they load to
    the values they make of the result, over the kernel's dispatcher: what
    [syscall3] does is [invoke].  The theorems put the two sides of the boundary
    together: every wrapper reaches the arm of the dispatcher it is meant for with
    the arguments in their places, an address comes out of the kernel as the
    program put it in, and [send_all] hands over all of its data. *)

From S2P Require Import Prelude Capability Block VfsTable Vfs Signal Task Ipc Frames Paging Memory Bytes Elf UserMem Wm Net World Utf8 Syscall SyscallGate.

(** The library's own numbers: of the calls, and of the signals. *)
Module Num.
(** [userspace/libpickleos/src/syscall.rs:8-8, !SYS_PRINT] *)
Definition SYS_PRINT : Z := 1.
(** [userspace/libpickleos/src/syscall.rs:9-9, !SYS_GETPID] *)
Definition SYS_GETPID : Z := 2.
(** [userspace/libpickleos/src/syscall.rs:10-10, !SYS_EXIT] *)
Definition SYS_EXIT : Z := 3.
(** [userspace/libpickleos/src/syscall.rs:11-11, !SYS_YIELD] *)
Definition SYS_YIELD : Z := 4.
(** [userspace/libpickleos/src/syscall.rs:12-12, !SYS_TICKS] *)
Definition SYS_TICKS : Z := 5.
(** [userspace/libpickleos/src/syscall.rs:13-13, !SYS_IPC_SEND] *)
Definition SYS_IPC_SEND : Z := 6.
(** [userspace/libpickleos/src/syscall.rs:14-14, !SYS_IPC_RECV] *)
Definition SYS_IPC_RECV : Z := 7.
(** [userspace/libpickleos/src/syscall.rs:15-15, !SYS_CAP_CHECK] *)
Definition SYS_CAP_CHECK : Z := 8.
(** [userspace/libpickleos/src/syscall.rs:16-16, !SYS_SLEEP] *)
Definition SYS_SLEEP : Z := 9.
(** [userspace/libpickleos/src/syscall.rs:17-17, !SYS_SPAWN] *)
Definition SYS_SPAWN : Z := 10.
(** [userspace/libpickleos/src/syscall.rs:18-18, !SYS_MMAP] *)
Definition SYS_MMAP : Z := 11.
(** [userspace/libpickleos/src/syscall.rs:19-19, !SYS_MUNMAP] *)
Definition SYS_MUNMAP : Z := 12.
(** [userspace/libpickleos/src/syscall.rs:20-20, !SYS_GETPPID] *)
Definition SYS_GETPPID : Z := 30.
(** [userspace/libpickleos/src/syscall.rs:21-21, !SYS_KILL] *)
Definition SYS_KILL : Z := 31.
(** [userspace/libpickleos/src/syscall.rs:22-22, !SYS_SIGNAL] *)
Definition SYS_SIGNAL : Z := 32.
(** [userspace/libpickleos/src/syscall.rs:23-23, !SYS_SIGRETURN] *)
Definition SYS_SIGRETURN : Z := 33.
(** [userspace/libpickleos/src/syscall.rs:25-25, !SYS_WIN_CREATE] *)
Definition SYS_WIN_CREATE : Z := 34.
(** [userspace/libpickleos/src/syscall.rs:26-26, !SYS_WIN_COMMIT] *)
Definition SYS_WIN_COMMIT : Z := 35.
(** [userspace/libpickleos/src/syscall.rs:27-27, !SYS_WIN_POLL] *)
Definition SYS_WIN_POLL : Z := 36.
(** [userspace/libpickleos/src/syscall.rs:28-28, !SYS_WIN_DESTROY] *)
Definition SYS_WIN_DESTROY : Z := 37.
(** [userspace/libpickleos/src/syscall.rs:29-29, !SYS_WIN_INFO] *)
Definition SYS_WIN_INFO : Z := 38.
(** [userspace/libpickleos/src/syscall.rs:31-31, !SYS_SOCKET] *)
Definition SYS_SOCKET : Z := 39.
(** [userspace/libpickleos/src/syscall.rs:32-32, !SYS_BIND] *)
Definition SYS_BIND : Z := 40.
(** [userspace/libpickleos/src/syscall.rs:33-33, !SYS_CONNECT] *)
Definition SYS_CONNECT : Z := 41.
(** [userspace/libpickleos/src/syscall.rs:34-34, !SYS_LISTEN] *)
Definition SYS_LISTEN : Z := 42.
(** [userspace/libpickleos/src/syscall.rs:35-35, !SYS_ACCEPT] *)
Definition SYS_ACCEPT : Z := 43.
(** [userspace/libpickleos/src/syscall.rs:36-36, !SYS_SEND] *)
Definition SYS_SEND : Z := 44.
(** [userspace/libpickleos/src/syscall.rs:37-37, !SYS_RECV] *)
Definition SYS_RECV : Z := 45.
(** [userspace/libpickleos/src/syscall.rs:38-38, !SYS_SHUTDOWN] *)
Definition SYS_SHUTDOWN : Z := 46.
(** [userspace/libpickleos/src/syscall.rs:382-382, !SYS_OPEN] *)
Definition SYS_OPEN : Z := 13.
(** [userspace/libpickleos/src/syscall.rs:383-383, !SYS_READ] *)
Definition SYS_READ : Z := 14.
(** [userspace/libpickleos/src/syscall.rs:384-384, !SYS_WRITE] *)
Definition SYS_WRITE : Z := 15.
(** [userspace/libpickleos/src/syscall.rs:385-385, !SYS_CLOSE] *)
Definition SYS_CLOSE : Z := 16.
(** [userspace/libpickleos/src/syscall.rs:386-386, !SYS_LSEEK] *)
Definition SYS_LSEEK : Z := 17.
(** [userspace/libpickleos/src/syscall.rs:387-387, !SYS_UNLINK] *)
Definition SYS_UNLINK : Z := 18.
(** [userspace/libpickleos/src/syscall.rs:388-388, !SYS_RMDIR] *)
Definition SYS_RMDIR : Z := 19.
(** [userspace/libpickleos/src/syscall.rs:389-389, !SYS_MKDIR] *)
Definition SYS_MKDIR : Z := 20.
(** [userspace/libpickleos/src/syscall.rs:390-390, !SYS_STAT] *)
Definition SYS_STAT : Z := 24.
(** [userspace/libpickleos/src/syscall.rs:486-486, !SYS_EXIT2] *)
Definition SYS_EXIT2 : Z := 25.
(** [userspace/libpickleos/src/syscall.rs:487-487, !SYS_WAIT] *)
Definition SYS_WAIT : Z := 26.
(** [userspace/libpickleos/src/syscall.rs:488-488, !SYS_EXEC] *)
Definition SYS_EXEC : Z := 27.
(** [userspace/libpickleos/src/syscall.rs:489-489, !SYS_FORK] *)
Definition SYS_FORK : Z := 28.
(** [userspace/libpickleos/src/syscall.rs:48-48, !SIGHUP] *)
Definition SIGHUP : Z := 1.
(** [userspace/libpickleos/src/syscall.rs:49-49, !SIGINT] *)
Definition SIGINT : Z := 2.
(** [userspace/libpickleos/src/syscall.rs:50-50, !SIGKILL] *)
Definition SIGKILL : Z := 9.
(** [userspace/libpickleos/src/syscall.rs:51-51, !SIGUSR1] *)
Definition SIGUSR1 : Z := 10.
(** [userspace/libpickleos/src/syscall.rs:52-52, !SIGUSR2] *)
Definition SIGUSR2 : Z := 12.
(** [userspace/libpickleos/src/syscall.rs:53-53, !SIGTERM] *)
Definition SIGTERM : Z := 15.
(** [userspace/libpickleos/src/syscall.rs:54-54, !SIGCHLD] *)
Definition SIGCHLD : Z := 17.
(** [userspace/libpickleos/src/syscall.rs:56-56, !SIG_DFL] *)
Definition SIG_DFL : Z := 0.
(** [userspace/libpickleos/src/syscall.rs:58-58, !SIG_IGN] *)
Definition SIG_IGN : Z := 1.
End Num.
(** [userspace/libpickleos/src/syscall.rs:41-45, !O_RDONLY] *)
Definition O_RDONLY : Z := 0.
Definition O_WRONLY : Z := 1.
Definition O_RDWR : Z := 2.
Definition O_CREAT : Z := 0x40.
Definition O_TRUNC : Z := 0x200.

(** A slice or [&str] of the program: where it is. *)
Record slice_ref := Slice { as_ptr : Z; s_len : Z }.
(** What a wrapper loads: [rax], [rdi], [rsi], [rdx], and [r10] with [syscall4]. *)
Record request := Req { q_num : Z; q_a0 : Z; q_a1 : Z; q_a2 : Z; q_a3 : option Z }.

(** The call does not come back to where it was made: the process is gone, or it
    goes on elsewhere - in a signal handler or another program. *)
Inductive astray : Type := Gone | Elsewhere.

Section lib.
Context {C D : Type} `{Con : Console C} `{Prn : Printer C} `{Nt : Net.Smoltcp} `{BD : BlockDev D}
  `{Pg : Paging} `{Ad : Addresses} `{Cp : Processor} `{Sel : Selectors} `{Um : Unmapper}.
Abbreviation skernel := (kernel (@world C D Nt)).
Abbreviation svfs := (vfs (@devices C Nt) D).

(** The processor in the program: its registers, and the kernel behind it. *)
Record machine := Machine { m_regs : frame; m_kernel : skernel }.
Abbreviation user A := (stm machine astray A).

Section calls.
Variables (others : list (skernel → skernel)) (vothers : list (svfs → svfs)).

Definition load_regs (q : request) (f : frame) : frame :=
  let f := <[R_RAX := q_num q]> (<[R_RDI := q_a0 q]> (<[R_RSI := q_a1 q]> (<[R_RDX := q_a2 q]> f))) in
  match q_a3 q with Some v => <[R_R10 := v]> f | None => f end.

Definition invoke (q : request) : user Z := λ s,
  let f := load_regs q (m_regs s) in
  match syscall_dispatch others vothers f (m_kernel s) with
  | (Ok (Some f'), k) =>
      if (reg R_RIP f' =? reg R_RIP f) && (reg R_RSP f' =? reg R_RSP f)
      then (Ok (reg R_RAX f'), Machine f' k) else (Err Elsewhere, Machine f' k)
  | (Ok None, k) => (Err Gone, Machine f k)
  | (Err _, k) => (Panic, Machine f k)
  | (Panic, k) => (Panic, Machine f k)
  | (Diverge, k) => (Diverge, Machine f k)
  end.
(** [userspace/libpickleos/src/syscall.rs:62-75, syscall3] *)
Definition syscall3 (num a0 a1 a2 : Z) : user Z := invoke (Req num a0 a1 a2 None).
(** [userspace/libpickleos/src/syscall.rs:80-94, syscall4] *)
Definition syscall4 (num a0 a1 a2 a3 : Z) : user Z := invoke (Req num a0 a1 a2 (Some a3)).

Abbreviation result A := (string + A)%type.
(** [if r == u64::MAX { Err(msg) } else { Ok(r) }] *)
Definition checked {A} (msg : string) (f : Z → A) (r : Z) : result A := if r =? u64_max then inl msg else inr (f r).
Definition smap {A B} (f : A → B) (m : user A) : user B := let! a := m in sret (f a).

(** [userspace/libpickleos/src/syscall.rs:98-108, sys_win_create] *)
Definition sys_win_create (w h : Z) (title : slice_ref) : user Z := syscall4 Num.SYS_WIN_CREATE w h (as_ptr title) (s_len title).
(** [userspace/libpickleos/src/syscall.rs:112-121, sys_win_commit]: [len] pixels. *)
Definition sys_win_commit (win_id : Z) (pixels : slice_ref) : user Z :=
  syscall3 Num.SYS_WIN_COMMIT win_id (as_ptr pixels) (wrap64 (s_len pixels * 4)).
(** [userspace/libpickleos/src/syscall.rs:126-128, sys_win_poll] *)
Definition sys_win_poll (win_id out : Z) : user Z := syscall3 Num.SYS_WIN_POLL win_id out 0.
(** [userspace/libpickleos/src/syscall.rs:131-133, sys_win_destroy] *)
Definition sys_win_destroy (win_id : Z) : user Z := syscall3 Num.SYS_WIN_DESTROY win_id 0 0.
(** [userspace/libpickleos/src/syscall.rs:138-140, sys_win_info] *)
Definition sys_win_info (win_id out : Z) : user Z := syscall3 Num.SYS_WIN_INFO win_id out 0.
(** [userspace/libpickleos/src/syscall.rs:143-147, sys_print] *)
Definition sys_print (s : slice_ref) : user unit := smap (λ _, tt) (syscall3 Num.SYS_PRINT (as_ptr s) (s_len s) 0).
(** [userspace/libpickleos/src/syscall.rs:150-152, sys_getpid] *)
Definition sys_getpid : user Z := syscall3 Num.SYS_GETPID 0 0 0.
(** [userspace/libpickleos/src/syscall.rs:155-157, sys_getppid] *)
Definition sys_getppid : user Z := syscall3 Num.SYS_GETPPID 0 0 0.
(** [userspace/libpickleos/src/syscall.rs:160-162, sys_kill] *)
Definition sys_kill (pid sig : Z) : user bool := smap (λ r, negb (r =? u64_max)) (syscall3 Num.SYS_KILL pid sig 0).
(** [userspace/libpickleos/src/syscall.rs:168-170, sys_signal] *)
Definition sys_signal (sig handler restorer : Z) : user Z := syscall3 Num.SYS_SIGNAL sig handler restorer.
(** [userspace/libpickleos/src/syscall.rs:173-178, sys_exit]: an [i32], widened with
    its sign; should the call come back, the program spins. *)
Definition sys_exit {A} (code : Z) : user A := λ s,
  match syscall3 Num.SYS_EXIT (wrap64 code) 0 0 s with
  | (Ok _, s) => (Diverge, s)
  | (Err e, s) => (Err e, s)
  | (Panic, s) => (Panic, s)
  | (Diverge, s) => (Diverge, s)
  end.
(** [userspace/libpickleos/src/syscall.rs:181-185, sys_yield] *)
Definition sys_yield : user unit := smap (λ _, tt) (syscall3 Num.SYS_YIELD 0 0 0).
(** [userspace/libpickleos/src/syscall.rs:188-190, sys_ticks] *)
Definition sys_ticks : user Z := syscall3 Num.SYS_TICKS 0 0 0.
(** [userspace/libpickleos/src/syscall.rs:193-197, sys_ipc_send] *)
Definition sys_ipc_send (endpoint tag : Z) : user unit := smap (λ _, tt) (syscall3 Num.SYS_IPC_SEND endpoint tag 0).
(** [userspace/libpickleos/src/syscall.rs:200-202, sys_ipc_recv] *)
Definition sys_ipc_recv (endpoint : Z) : user Z := syscall3 Num.SYS_IPC_RECV endpoint 0 0.
(** [userspace/libpickleos/src/syscall.rs:205-207, sys_cap_check] *)
Definition sys_cap_check (slot rights : Z) : user bool := smap (λ r, negb (r =? 0)) (syscall3 Num.SYS_CAP_CHECK slot rights 0).
(** [userspace/libpickleos/src/syscall.rs:210-214, sys_sleep] *)
Definition sys_sleep (ticks : Z) : user unit := smap (λ _, tt) (syscall3 Num.SYS_SLEEP ticks 0 0).
(** [userspace/libpickleos/src/syscall.rs:218-234, sys_spawn] *)
Definition sys_spawn (binary name : slice_ref) : user (result Z) :=
  smap (checked "spawn failed" id) (syscall3 Num.SYS_SPAWN (as_ptr binary) (s_len binary) (as_ptr name)).
(** [userspace/libpickleos/src/syscall.rs:238-246, sys_mmap] *)
Definition sys_mmap (addr len prot : Z) : user (result Z) := smap (checked "mmap failed" id) (syscall3 Num.SYS_MMAP addr len prot).
(** [userspace/libpickleos/src/syscall.rs:249-257, sys_munmap] *)
Definition sys_munmap (addr len : Z) : user (result unit) := smap (checked "munmap failed" (λ _, tt)) (syscall3 Num.SYS_MUNMAP addr len 0).

(** ** Sockets *)

(** [userspace/libpickleos/src/syscall.rs:264-271, sys_socket] *)
Definition sys_socket (domain ty protocol : Z) : user (result Z) :=
  smap (checked "socket creation failed" (wrap 32)) (syscall3 Num.SYS_SOCKET domain ty protocol).
(** [userspace/libpickleos/src/syscall.rs:274-288, sys_bind] *)
Definition sys_bind (sockfd : Z) (addr : slice_ref) : user (result unit) :=
  smap (checked "bind failed" (λ _, tt)) (syscall3 Num.SYS_BIND sockfd (as_ptr addr) (s_len addr)).
(** [userspace/libpickleos/src/syscall.rs:291-305, sys_connect] *)
Definition sys_connect (sockfd : Z) (addr : slice_ref) : user (result unit) :=
  smap (checked "connect failed" (λ _, tt)) (syscall3 Num.SYS_CONNECT sockfd (as_ptr addr) (s_len addr)).
(** [userspace/libpickleos/src/syscall.rs:308-315, sys_listen] *)
Definition sys_listen (sockfd backlog : Z) : user (result unit) :=
  smap (checked "listen failed" (λ _, tt)) (syscall3 Num.SYS_LISTEN sockfd backlog 0).
(** [userspace/libpickleos/src/syscall.rs:318-332, sys_send] *)
Definition sys_send (sockfd : Z) (data : slice_ref) (flags : Z) : user (result Z) :=
  smap (checked "send failed" id) (syscall3 Num.SYS_SEND sockfd (as_ptr data) (s_len data)).
(** [userspace/libpickleos/src/syscall.rs:335-350, sys_recv] *)
Definition sys_recv (sockfd : Z) (buffer : slice_ref) (flags : Z) : user (result Z) :=
  smap (checked "recv failed" id) (syscall3 Num.SYS_RECV sockfd (as_ptr buffer) (s_len buffer)).
(** [userspace/libpickleos/src/syscall.rs:357-368, sys_accept] *)
Definition sys_accept (sockfd : Z) (addr : option slice_ref) : user (result Z) :=
  let p := match addr with Some b => (as_ptr b, s_len b) | None => (0, 0) end in
  smap (checked "accept failed" (wrap 32)) (syscall3 Num.SYS_ACCEPT sockfd p.1 p.2).
(** [userspace/libpickleos/src/syscall.rs:371-378, sys_shutdown] *)
Definition sys_shutdown (sockfd how : Z) : user (result unit) :=
  smap (checked "shutdown failed" (λ _, tt)) (syscall3 Num.SYS_SHUTDOWN sockfd how 0).

(** ** Files *)

(** [userspace/libpickleos/src/syscall.rs:393-402, sys_open] *)
Definition sys_open (path : slice_ref) (flags : Z) : user Z := syscall3 Num.SYS_OPEN (as_ptr path) (s_len path) flags.
(** [userspace/libpickleos/src/syscall.rs:405-414, sys_read] *)
Definition sys_read (fd : Z) (buf : slice_ref) : user Z := syscall3 Num.SYS_READ fd (as_ptr buf) (s_len buf).
(** [userspace/libpickleos/src/syscall.rs:417-426, sys_write] *)
Definition sys_write (fd : Z) (buf : slice_ref) : user Z := syscall3 Num.SYS_WRITE fd (as_ptr buf) (s_len buf).
(** [userspace/libpickleos/src/syscall.rs:429-433, sys_close] *)
Definition sys_close (fd : Z) : user Z := syscall3 Num.SYS_CLOSE fd 0 0.
(** [userspace/libpickleos/src/syscall.rs:436-445, sys_mkdir] *)
Definition sys_mkdir (path : slice_ref) : user Z := syscall3 Num.SYS_MKDIR (as_ptr path) (s_len path) 0.
(** [userspace/libpickleos/src/syscall.rs:448-457, sys_unlink] *)
Definition sys_unlink (path : slice_ref) : user Z := syscall3 Num.SYS_UNLINK (as_ptr path) (s_len path) 0.
(** [userspace/libpickleos/src/syscall.rs:460-469, sys_rmdir] *)
Definition sys_rmdir (path : slice_ref) : user Z := syscall3 Num.SYS_RMDIR (as_ptr path) (s_len path) 0.
(** [userspace/libpickleos/src/syscall.rs:473-482, sys_stat] *)
Definition sys_stat (path : slice_ref) (statbuf : Z) : user Z := syscall3 Num.SYS_STAT (as_ptr path) (s_len path) statbuf.

(** ** Processes *)

(** [userspace/libpickleos/src/syscall.rs:493-495, sys_fork] *)
Definition sys_fork : user Z := syscall3 Num.SYS_FORK 0 0 0.
(** [userspace/libpickleos/src/syscall.rs:500-510, sys_exec] *)
Definition sys_exec (path : slice_ref) : user Z := syscall4 Num.SYS_EXEC (as_ptr path) (s_len path) 0 0.
(** [userspace/libpickleos/src/syscall.rs:514-516, sys_wait] *)
Definition sys_wait : user Z := syscall3 Num.SYS_WAIT 0 0 0.
(** [userspace/libpickleos/src/syscall.rs:521-530, sys_spawn_path] *)
Definition sys_spawn_path (path : slice_ref) : user Z :=
  let! pid := sys_fork in
  if pid =? 0 then let! _ := sys_exec path in sys_exit 1 else sret pid.

(** [if r == u64::MAX { None } else { Some(r) }] *)
Definition some_unless_max (r : Z) : option Z := if r =? u64_max then None else Some r.
(** [userspace/libpickleos/src/process.rs:6-8, getpid] *)
Definition getpid : user Z := sys_getpid.
(** [userspace/libpickleos/src/process.rs:11-13, getppid] *)
Definition getppid : user Z := sys_getppid.
(** [userspace/libpickleos/src/process.rs:16-18, kill] *)
Definition kill (pid sig : Z) : user bool := sys_kill pid sig.
(** [userspace/libpickleos/src/process.rs:21-23, signal] *)
Definition signal (sig handler restorer : Z) : user Z := sys_signal sig handler restorer.
(** [userspace/libpickleos/src/process.rs:26-28, exit] *)
Definition exit {A} (code : Z) : user A := sys_exit code.
(** [userspace/libpickleos/src/process.rs:31-33, yield_now] *)
Definition yield_now : user unit := sys_yield.
(** [userspace/libpickleos/src/process.rs:36-38, sleep] *)
Definition sleep (ticks : Z) : user unit := sys_sleep ticks.
(** [userspace/libpickleos/src/process.rs:41-43, spawn] *)
Definition spawn (binary name : slice_ref) : user (result Z) := sys_spawn binary name.
(** [userspace/libpickleos/src/process.rs:47-50, fork] *)
Definition fork : user (option Z) := smap some_unless_max sys_fork.
(** [userspace/libpickleos/src/process.rs:54-56, exec] *)
Definition exec (path : slice_ref) : user bool := smap (λ r, negb (r =? u64_max)) (sys_exec path).
(** [userspace/libpickleos/src/process.rs:60-63, wait] *)
Definition wait : user (option Z) := smap some_unless_max sys_wait.
(** [userspace/libpickleos/src/process.rs:67-70, spawn_path] *)
Definition spawn_path (path : slice_ref) : user (option Z) := smap some_unless_max (sys_spawn_path path).

(** [userspace/libpickleos/src/ipc.rs:11-13, send] *)
Definition ipc_send (endpoint tag : Z) : user unit := sys_ipc_send endpoint tag.
(** [userspace/libpickleos/src/ipc.rs:16-18, receive] *)
Definition ipc_receive (endpoint : Z) : user Z := sys_ipc_recv endpoint.
(** [userspace/libpickleos/src/ipc.rs:22-25, call] *)
Definition ipc_call (endpoint request_tag : Z) : user Z := let! _ := ipc_send endpoint request_tag in ipc_receive endpoint.
(** [userspace/libpickleos/src/ipc.rs:28-30, reply] *)
Definition ipc_reply (endpoint response_tag : Z) : user unit := ipc_send endpoint response_tag.

(** [userspace/libpickleos/src/capability.rs:12-12, Rights] *)
Definition lib_READ : Z := 2 ^ 0.
Definition lib_WRITE : Z := 2 ^ 1.
Definition lib_EXECUTE : Z := 2 ^ 2.
Definition lib_ALL : Z := 0xFFFFFFFF.
(** [userspace/libpickleos/src/capability.rs:23-25, has_capability] *)
Definition has_capability (slot rights : Z) : user bool := sys_cap_check slot rights.

(** [userspace/libpickleos/src/memory.rs:12-12, !HEAP_START] *)
Definition HEAP_START : Z := 0x500000000000.
(** [userspace/libpickleos/src/memory.rs:15-17, mmap] *)
Definition mmap (addr len prot : Z) : user (result Z) := sys_mmap addr len prot.
(** [userspace/libpickleos/src/memory.rs:20-22, munmap] *)
Definition munmap (addr len : Z) : user (result unit) := sys_munmap addr len.
(** [userspace/libpickleos/src/lib.rs:54-66, init_heap]: where the heap begins. *)
Definition init_heap : user (result Z) := sys_mmap HEAP_START (1024 * 1024) 0x3.

(** ** TCP sockets *)

(** [userspace/libpickleos/src/socket.rs:18-20, Ipv4Addr]: four octets. *)
Definition ipv4_new (a b c d : Z) : bytes := [a; b; c; d].
(** [userspace/libpickleos/src/socket.rs:38-41, SocketAddr] *)
Record SocketAddr := SockAddr { sa_ip : bytes; sa_port : Z }.
(** [userspace/libpickleos/src/socket.rs:49-60, SocketAddr::to_bytes] *)
Definition to_bytes (a : SocketAddr) : bytes :=
  [2; 0; Z.shiftr (sa_port a) 8; Z.land (sa_port a) 0xFF] ++ sa_ip a ++ replicate 8 0.

(** A local of the program at [ptr]: its bytes are stored there. *)
Definition store_local (ptr : Z) (b : bytes) : user unit := λ s,
  match user_store ptr b (m_kernel s) with
  | (Ok _, k) => (Ok tt, Machine (m_regs s) k)
  | (_, k) => (Panic, Machine (m_regs s) k)
  end.
Definition load_local (ptr : Z) (n : nat) : user bytes := λ s,
  match user_load ptr n (m_kernel s) with
  | (Ok b, k) => (Ok b, Machine (m_regs s) k)
  | (_, k) => (Panic, Machine (m_regs s) k)
  end.

(** [userspace/libpickleos/src/socket.rs:70-73, TcpSocket::new] *)
Definition tcp_new : user (result Z) := sys_socket 2 1 0.
(** [userspace/libpickleos/src/socket.rs:76-79, TcpSocket::bind]: the address is a
    local at [ptr]. *)
Definition tcp_bind (fd ptr : Z) (a : SocketAddr) : user (result unit) :=
  let! _ := store_local ptr (to_bytes a) in sys_bind fd (Slice ptr 16).
(** [userspace/libpickleos/src/socket.rs:82-85, TcpSocket::connect] *)
Definition tcp_connect (fd ptr : Z) (a : SocketAddr) : user (result unit) :=
  let! _ := store_local ptr (to_bytes a) in sys_connect fd (Slice ptr 16).
(** [userspace/libpickleos/src/socket.rs:88-90, TcpSocket::listen] *)
Definition tcp_listen (fd backlog : Z) : user (result unit) := sys_listen fd backlog.
(** [userspace/libpickleos/src/socket.rs:96-99, TcpSocket::accept] *)
Definition tcp_accept (fd : Z) : user (result Z) := sys_accept fd None.
(** [userspace/libpickleos/src/socket.rs:105-107, !accept_from]: the peer's address. *)
Definition from_bytes (b : bytes) : SocketAddr :=
  SockAddr (ipv4_new (nth 4 b 0) (nth 5 b 0) (nth 6 b 0) (nth 7 b 0)) (Z.lor (Z.shiftl (nth 2 b 0) 8) (nth 3 b 0)).
(** [userspace/libpickleos/src/socket.rs:102-108, TcpSocket::accept_from] *)
Definition tcp_accept_from (fd ptr : Z) : user (result (Z * SocketAddr)) :=
  let! _ := store_local ptr (replicate 16 0) in
  let! r := sys_accept fd (Some (Slice ptr 16)) in
  match r with
  | inl e => sret (inl e)
  | inr fd => let! b := load_local ptr 16 in sret (inr (fd, from_bytes b))
  end.
(** [userspace/libpickleos/src/socket.rs:111-113, TcpSocket::shutdown] *)
Definition tcp_shutdown (fd : Z) : user (result unit) := sys_shutdown fd 0.
(** [userspace/libpickleos/src/socket.rs:128-130, TcpSocket::send] *)
Definition tcp_send (fd : Z) (data : slice_ref) : user (result Z) := sys_send fd data 0.
(** [userspace/libpickleos/src/socket.rs:133-135, TcpSocket::recv] *)
Definition tcp_recv (fd : Z) (buffer : slice_ref) : user (result Z) := sys_recv fd buffer 0.
(** [userspace/libpickleos/src/socket.rs:118-125, TcpSocket::recv_blocking]: with fuel. *)
Fixpoint tcp_recv_blocking (fuel : nat) (fd : Z) (buffer : slice_ref) : user (result Z) :=
  match fuel with
  | O => λ s, (Diverge, s)
  | S fuel =>
      let! r := tcp_recv fd buffer in
      match r with
      | inr n => if n =? 0 then let! _ := sys_yield in tcp_recv_blocking fuel fd buffer else sret (inr n)
      | inl e => sret (inl e)
      end
  end.
(** [userspace/libpickleos/src/socket.rs:138-147, TcpSocket::send_all]: with fuel; the
    rest of the slice panics when the kernel claims more than it was given. *)
Fixpoint tcp_send_all (fuel : nat) (fd : Z) (data : slice_ref) : user (result unit) :=
  match fuel with
  | O => λ s, (Diverge, s)
  | S fuel =>
      if s_len data =? 0 then sret (inr tt) else
      let! r := tcp_send fd data in
      match r with
      | inl e => sret (inl e)
      | inr n =>
          if n =? 0 then sret (inl "connection closed"%string) else
          if s_len data <? n then λ s, (Panic, s) else
          tcp_send_all fuel fd (Slice (as_ptr data + n) (s_len data - n))
      end
  end.
End calls.
End lib.
