(* ===== verification/UserLibProps.v ===== *)
(** * From the user library into the kernel

    Theorems about the wrappers of [UserLib] over the dispatcher of [Syscall]. *)

From S2P Require Import Prelude Capability Block VfsTable Vfs Signal Task TaskSteps TaskProps Ipc Frames Paging Memory Bytes Elf UserMem Wm Net World Utf8 Syscall SyscallGate UserLib.

Section lib.
Context {C D : Type} `{Con : Console C} `{Prn : Printer C} `{Nt : Net.Smoltcp} `{BD : BlockDev D}
  `{Pg : Paging} `{Ad : Addresses} `{Cp : Processor} `{Sel : Selectors} `{Um : Unmapper}.
Abbreviation skernel := (kernel (@world C D Nt)).
Abbreviation svfs := (vfs (@devices C Nt) D).
Abbreviation machine := (@machine C D Nt).
Abbreviation sys A := (stm skernel bytes A).
Abbreviation arm_of := (frame → sys (option (Z * frame))).
Variables (others : list (skernel → skernel)) (vothers : list (svfs → svfs)).

(** ** The boundary *)

(** What the kernel makes of the trap frame [f] when the arm [m] has its say, as the
    program sees it. *)
Definition finish (f : frame) (m : sys (option (Z * frame))) k : outcome astray Z * machine :=
  match (let! r := m in
         match r with
         | None => sret None
         | Some (v, f) => let! f := deliver_pending_signals f v in sret (Some (<[R_RAX := v]> f))
         end) k with
  | (Ok (Some f'), k) =>
      if (reg R_RIP f' =? reg R_RIP f) && (reg R_RSP f' =? reg R_RSP f)
      then (Ok (reg R_RAX f'), Machine f' k) else (Err Elsewhere, Machine f' k)
  | (Ok None, k) => (Err Gone, Machine f k)
  | (Err _, k) => (Panic, Machine f k)
  | (Panic, k) => (Panic, Machine f k)
  | (Diverge, k) => (Diverge, Machine f k)
  end.

(** The wrapper [w] enters the kernel at [arm], with [r10] as given, and touches no
    register but those of the calling convention. *)
Definition asks (w : stm machine astray Z) (r10 : option Z) (arm : arm_of) : Prop :=
  ∀ s : machine, length (m_regs s) = 20%nat → ∃ f, length f = 20%nat ∧
    (∀ i, i ∉ [R_RAX; R_RDI; R_RSI; R_RDX; R_R10] → reg i f = reg i (m_regs s)) ∧
    reg R_R10 f = from_option id (reg R_R10 (m_regs s)) r10 ∧
    w s = finish f (arm f) (m_kernel s).
(** An arm that yields a value and leaves the frame alone, and one that may end the
    process. *)
Definition plain (m : sys Z) : arm_of := λ f, let! v := m in sret (Some (v, f)).

(** The dispatcher by number and arguments. *)
Definition dispatch_on (num a0 a1 a2 : Z) : arm_of := λ f,
  if (num =? SYS_EXIT) || (num =? SYS_EXIT2) then let! r := Syscall.sys_exit a0 in sret ((λ v, (v, f)) <$> r)
  else if num =? SYS_KILL then let! r := Syscall.sys_kill a0 a1 in sret ((λ v, (v, f)) <$> r)
  else if num =? SYS_EXEC then let! p := Syscall.sys_exec f a0 a1 a2 in sret (Some p)
  else if num =? SYS_SIGRETURN then let! p := Syscall.sys_sigreturn f in sret (Some p)
  else let! v := plain_call others vothers f num a0 a1 a2 in sret (Some (v, f)).

Lemma load_regs_values q f : length f = 20%nat →
  reg R_RAX (load_regs q f) = q_num q ∧ reg R_RDI (load_regs q f) = q_a0 q ∧ reg R_RSI (load_regs q f) = q_a1 q ∧
  reg R_RDX (load_regs q f) = q_a2 q ∧ reg R_R10 (load_regs q f) = from_option id (reg R_R10 f) (q_a3 q) ∧
  ∀ i, i ∉ [R_RAX; R_RDI; R_RSI; R_RDX; R_R10] → reg i (load_regs q f) = reg i f.
Proof.
  intros Hf. do 20 (destruct f as [|? f]; [done|]). destruct f; [|done]. clear Hf.
  destruct q as [n b0 b1 b2 [v|]]; (split_and!; try reflexivity); intros i Hi; rewrite !not_elem_of_cons in Hi;
    destruct Hi as (H1&H2&H3&H4&H5&_); unfold R_RAX, R_RDI, R_RSI, R_RDX, R_R10 in *;
    do 20 (destruct i as [|i]; [reflexivity || congruence|]); reflexivity.
Qed.
Lemma invoke_asks num a0 a1 a2 a3 : (num =? SYS_SIGRETURN) = false →
  asks (invoke others vothers (Req num a0 a1 a2 a3)) a3 (dispatch_on num a0 a1 a2).
Proof.
  intros Hn s Hs. destruct (load_regs_values (Req num a0 a1 a2 a3) (m_regs s) Hs) as (H0&H1&H2&H3&H4&H5).
  exists (load_regs (Req num a0 a1 a2 a3) (m_regs s)).
  split; [unfold load_regs; cbn; destruct a3; by rewrite !length_insert|]. split; [done|]. split; [done|].
  cbn [q_num q_a0 q_a1 q_a2 q_a3] in *. unfold invoke, syscall_dispatch, syscall_dispatch_inner, finish, dispatch_on.
  rewrite H0, H1, H2, H3, Hn. reflexivity.
Qed.
Lemma wrapper_asks w num a0 a1 a2 a3 arm : (num =? SYS_SIGRETURN) = false →
  w = invoke others vothers (Req num a0 a1 a2 a3) → dispatch_on num a0 a1 a2 = arm → asks w a3 arm.
Proof. intros Hn -> <-. by apply invoke_asks. Qed.
Ltac by_number := eapply wrapper_asks; [|reflexivity|reflexivity]; reflexivity.






(** The status of [exit] arrives with its sign. *)
Lemma exit_code_arrives code : - 2 ^ 31 ≤ code < 2 ^ 31 → signed 32 (wrap64 code) = code.
Proof.
  intros Hc. unfold signed, wrap. change (32 - 1) with 31. case_decide; Z.to_euclidean_division_equations; lia.
Qed.

(** ** Addresses *)

Lemma peek_bytes_sub m cr3 va n bs o l :
  peek_bytes m cr3 va n = Some bs → (o + l ≤ n)%nat → peek_bytes m cr3 (wrap64 (va + Z.of_nat o)) l = Some (slice o l bs).
Proof.
  intros Hp Hol. pose proof (peek_bytes_length _ _ _ _ _ Hp) as Hlen. apply mapM_Some, Forall2_same_length_lookup. split.
  - rewrite length_seqZ, length_slice by lia. lia.
  - intros i x y Hx Hy. apply lookup_seqZ in Hx as [-> Hi]. rewrite lookup_slice, decide_True in Hy by lia.
    destruct (peek_bytes_lookup _ _ _ _ _ (o + i) Hp ltac:(lia)) as (v&Hv&Hpk). rewrite Hv in Hy. injection Hy as <-.
    rewrite <-Hpk. f_equal. unfold wrap. rewrite Zplus_mod_idemp_l. f_equal. lia.
Qed.
(** A port in network order. *)
Lemma port_bytes p : 0 ≤ p < 2 ^ 16 →
  Z.shiftr p 8 * 256 + Z.land p 0xFF = p ∧ Z.lor (Z.shiftl (Z.shiftr p 8) 8) (Z.land p 0xFF) = p.
Proof.
  intros Hp. change 0xFF with (Z.ones 8).
  assert (Z.shiftr p 8 * 256 + Z.land p (Z.ones 8) = p) as Hsum.
  { rewrite Z.land_ones, Z.shiftr_div_pow2 by lia. Z.to_euclidean_division_equations. lia. }
  split; [done|]. rewrite <-Hsum at 3. rewrite Z.shiftl_mul_pow2 by lia. change 256 with (2 ^ 8).
  rewrite Z.land_ones by lia. apply (lor_add_low _ _ 8); [lia|apply Z.mod_pos_bound; lia..|]. apply Z.mod_mul. lia.
Qed.

(** An address arrives: where the program has stored [to_bytes a], [connect]
    asks the network stack for [a]'s octets and port and [bind] records its port; and
    the bytes the kernel writes for a peer are those the program reads back as that
    peer. *)
Theorem address_arrives (k : skernel) t fd ptr a ip port :
  runs k t → is_bad t (ptr, 16) = false → length (sa_ip a) = 4%nat → 0 ≤ sa_port a < 2 ^ 16 →
  peek_bytes (mem_of k) (k_cr3 k) ptr 16 = Some (to_bytes a) → length ip = 4%nat → 0 ≤ port < 2 ^ 16 →
  Syscall.sys_connect fd ptr 16 k =
    with_socket fd (λ id, let! r := on_sockets (Net.tcp_connect id (sa_ip a) (sa_port a) (49152 + wrap 16 id mod 10000)) in
                          sret (zero_or_max r)) k ∧
  Syscall.sys_bind fd ptr 16 k =
    with_socket fd (λ id, let! r := on_sockets (Net.tcp_bind id (sa_port a)) in sret (zero_or_max r)) k ∧
  from_bytes (to_bytes a) = a ∧
  from_bytes ([2; 0] ++ [Z.shiftr port 8; Z.land port 0xFF] ++ ip ++ replicate 8 0) = SockAddr ip port.
Proof.
  intros Hr Hb Hip Hport Hpk Hip' Hport'. destruct (port_bytes _ Hport) as [Hp1 Hp2]. destruct (port_bytes _ Hport') as [_ Hq].
  destruct a as [[|x0 [|x1 [|x2 [|x3 [|]]]]] p]; try done. destruct ip as [|y0 [|y1 [|y2 [|y3 [|]]]]]; try done. cbn [sa_ip sa_port] in *.
  pose proof (peek_bytes_sub _ _ _ _ _ 2 6 Hpk ltac:(lia)) as H6. pose proof (peek_bytes_sub _ _ _ _ _ 2 2 Hpk ltac:(lia)) as H2.
  change (Z.of_nat 2) with 2 in H2, H6. split_and!.
  - unfold Syscall.sys_connect, sbind at 1. rewrite (bad_pointer_run k t) by done. rewrite Hb. cbn [Z.ltb Z.compare Pos.compare Pos.compare_cont].
    unfold sbind at 1, user_load at 1, sread at 1. rewrite H6. cbn [or_panic]. unfold slice, port_of. cbn. by rewrite Hp1.
  - unfold Syscall.sys_bind, sbind at 1. rewrite (bad_pointer_run k t) by done. rewrite Hb. cbn [Z.ltb Z.compare Pos.compare Pos.compare_cont].
    unfold sbind at 1, user_load at 1, sread at 1. rewrite H2. cbn [or_panic]. unfold slice, port_of. cbn. by rewrite Hp1.
  - unfold from_bytes, to_bytes. cbn [app nth sa_ip sa_port]. by rewrite Hp2.
  - unfold from_bytes. cbn [app nth]. by rewrite Hq.
Qed.

(** ** Sending all of a buffer *)

Context `{!Net.SmoltcpLaws}.

(** The kernel never claims more than it was given. *)
Lemma send_call_bound fd ptr n (k : skernel) r k' : 0 ≤ n → Syscall.sys_send fd ptr n k = (Ok r, k') → r = u64_max ∨ 0 ≤ r ≤ n.
Proof.
  intros Hn. unfold Syscall.sys_send, sbind at 1. destruct (bad_pointer ptr n k) as [[[]|e| |] k1]; try done; [intros [= <- _]; by left|].
  unfold with_socket, sbind at 1. destruct (s_current_id k1) as [[t|e| |] k2]; try done. unfold sbind at 1.
  destruct (get_socket_id _ _ k2) as [[[id|]|e| |] k3]; try done; [|intros [= <- _]; by left].
  unfold sbind at 1, sget at 1. unfold sbind at 1.
  set (looks := net_takes id _). destruct ((if looks then user_load ptr (Z.to_nat n) else sret []) k3) as [[data|e| |] k4] eqn:Hd; try done.
  assert (Z.of_nat (length data) ≤ n) as Hlen.
  { destruct looks; [|injection Hd as <- _; cbn; lia]. unfold user_load, sread in Hd.
    destruct (peek_bytes _ _ _ _) as [b|] eqn:Hp; [|done]. injection Hd as <- _. apply peek_bytes_length in Hp. lia. }
  unfold sbind, on_sockets. destruct (Net.tcp_send id data _) as [o ns] eqn:Hs. cbn [fst snd].
  destruct o as [v|e| |]; intros Heq; try discriminate; injection Heq as Heq _; subst r; [right; cbn|left; reflexivity].
  revert Hs. unfold Net.tcp_send, Net.with_stack. clear Hd looks. destruct (d_net _) as [st|]; [|done]. unfold Net.stack_send, sbind.
  destruct (Net.get_tcp id st) as [[h|e| |] st1]; try done. unfold sget. destruct (negb _); [intros [= <- _]; lia|].
  unfold Net.on_sockets. destruct (Net.sk_send h data _) as [m ss] eqn:Hm. cbn. intros [= Hv _]. destruct m as [m|]; [|done].
  injection Hv as ->. pose proof (Net.sk_send_len h data (Net.n_sockets st1) v) as Hb. rewrite Hm in Hb. specialize (Hb eq_refl). lia.
Qed.

Lemma finish_plain f (m : sys Z) (k : skernel) v s : length f = 20%nat →
  finish f (plain m f) k = (Ok v, s) → ∃ k1, m k = (Ok v, k1) ∧ length (m_regs s) = 20%nat.
Proof.
  intros Hf. unfold finish, plain. destruct (sbind _ _ k) as [[[f'|]|e| |] k'] eqn:Hrun; try done.
  destruct (_ && _); [|done]. intros [= <- <-].
  apply sbind_Ok_inv in Hrun as (r&k1&Hr&Hrun). apply sbind_Ok_inv in Hr as (w&k2&Hm&[= <- <-]).
  apply sbind_Ok_inv in Hrun as (f2&k3&Hd&[= <- <-]).
  assert (length f2 = 20%nat) as Hf2.
  { revert Hd. unfold deliver_pending_signals. destruct (k_tasks k2 !! k_current k2) as [t|]; [|by intros [= <- _]].
    destruct (bool_decide _); [by intros [= <- _]|]. destruct (next_deliverable _) as [[sig h]|]; [|by intros [= <- _]].
    destruct (restorer _ =? 0); [by intros [= <- _]|]. intros (?&?&?&(?&?&?&[= <- _])%sbind_Ok_inv)%sbind_Ok_inv. by rewrite !length_insert. }
  exists k2. rewrite reg_insert, decide_True by (done || (rewrite Hf2; unfold R_RAX; lia)). cbn. by rewrite length_insert.
Qed.

Lemma tcp_send_bound fd data s n s' : length (m_regs s) = 20%nat → 0 ≤ s_len data →
  tcp_send others vothers fd data s = (Ok (inr n), s') → 0 ≤ n ≤ s_len data ∧ length (m_regs s') = 20%nat.
Proof.
  intros Hs Hlen Hr. unfold tcp_send, sys_send, smap in Hr. apply sbind_Ok_inv in Hr as (v&s1&Hv&[= Hc <-]).
  unfold checked in Hc. destruct (Z.eqb_spec v u64_max) as [|Hne]; [done|]. injection Hc as <-.
  assert (asks (syscall3 others vothers Num.SYS_SEND fd (as_ptr data) (s_len data)) None
    (plain (Syscall.sys_send fd (as_ptr data) (s_len data)))) as Hask by by_number.
  destruct (Hask s Hs) as (f&Hf&_&_&Hw). rewrite Hw in Hv. apply finish_plain in Hv as (k1&Hm&Hl); [|done].
  apply send_call_bound in Hm as [|]; [done| |done]. done.
Qed.

(** The pieces one [send_all] hands over, one [send] each, and what is left. *)
Inductive sends (fd : Z) : slice_ref → machine → list Z → slice_ref → machine → Prop :=
  | sends_none d s : sends fd d s [] d s
  | sends_piece d s n s1 l rest s2 :
      tcp_send others vothers fd d s = (Ok (inr n), s1) → 0 < n ≤ s_len d →
      sends fd (Slice (as_ptr d + n) (s_len d - n)) s1 l rest s2 → sends fd d s (n :: l) rest s2.

(** [send_all] comes to an end, and its slice never panics: the pieces sent lie
    one after the other; success means they make up the whole buffer, an error is
    the error of the [send] of what is left, or says that this [send] took nothing; and it is
    stopped otherwise only where a [send] is. *)
Theorem send_all_ends fd data s fuel : length (m_regs s) = 20%nat → 0 ≤ s_len data < Z.of_nat fuel →
  ∃ l rest s1, sends fd data s l rest s1 ∧ s_len rest = s_len data - foldr Z.add 0 l ∧ as_ptr rest = as_ptr data + foldr Z.add 0 l ∧
    match tcp_send_all others vothers fuel fd data s with
    | (Ok (inr _), s') => s_len rest = 0 ∧ s' = s1
    | (Ok (inl e), s') => 0 < s_len rest ∧
        (tcp_send others vothers fd rest s1 = (Ok (inl e), s') ∨
         e = "connection closed"%string ∧ tcp_send others vothers fd rest s1 = (Ok (inr 0), s'))
    | (Err a, s') => tcp_send others vothers fd rest s1 = (Err a, s')
    | (Panic, s') => tcp_send others vothers fd rest s1 = (Panic, s')
    | (Diverge, s') => tcp_send others vothers fd rest s1 = (Diverge, s')
    end.
Proof.
  revert data s. induction fuel as [|fuel IH]; intros data s Hs Hlen; [lia|]. cbn [tcp_send_all].
  destruct (Z.eqb_spec (s_len data) 0) as [H0|Hn0].
  { exists [], data, s. split; [constructor|]. cbn. split_and!; lia || done. }
  unfold sbind. destruct (tcp_send others vothers fd data s) as [[[e|n]|a| |] s1] eqn:Hr.
  2: destruct (tcp_send_bound _ _ _ _ _ Hs (proj1 Hlen) Hr) as [Hn Hs1]; destruct (Z.eqb_spec n 0) as [->|Hnz];
     [|destruct (Z.ltb_spec (s_len data) n); [lia|]].
  3: { destruct (IH (Slice (as_ptr data + n) (s_len data - n)) s1 Hs1 ltac:(cbn; lia)) as (l&rest&s2&Hl&Hr1&Hr2&Hres).
       cbn in Hr1, Hr2. exists (n :: l), rest, s2. split; [by eapply sends_piece; [done|lia|]|].
       change (foldr Z.add 0 (n :: l)) with (n + foldr Z.add 0 l). split; [lia|]. split; [lia|]. exact Hres. }
  all: exists [], data, s; split; [constructor|]; unfold sret; cbn [foldr]; split_and!; try lia; auto.
Qed.
End lib.

(** ** On a concrete machine *)

From S2P Require Import PagingRef MemoryRefine NextfsProps ElfProps SyscallDemo UserLib.
#[local] Existing Instance Net.test_smoltcp.
#[local] Existing Instance Net.test_smoltcp_laws.

Definition demo_addr : SocketAddr := SockAddr [10; 0; 2; 15] 8080.
Definition demo_addressed : kernel demo_world := (user_store (demo_va + 100) (to_bytes demo_addr) demo_state).2.

Example address_arrives_witness :
  Syscall.sys_bind 5 (demo_va + 100) 16 demo_addressed =
    with_socket 5 (λ id, let! r := Syscall.on_sockets (Net.tcp_bind id 8080) in sret (zero_or_max r)) demo_addressed ∧
  from_bytes (to_bytes demo_addr) = demo_addr.
Proof.
  destruct (address_arrives demo_addressed demo_user 5 (demo_va + 100) demo_addr [192; 168; 1; 7] 80) as (_&Hb&Hf&_).
  - split; vm_compute; reflexivity.
  - vm_compute. reflexivity.
  - reflexivity.
  - by split.
  - vm_compute. reflexivity.
  - reflexivity.
  - by split.
  - by split.
Defined.

(** Of a descriptor that is no socket nothing is sent. *)
Example send_all_ends_witness :
  ∃ l rest s1, sends [] [] 3 (Slice demo_va 5) (Machine (replicate 20 0) demo_state) l rest s1 ∧ s_len rest = 5 - foldr Z.add 0 l ∧
    0 < s_len rest.
Proof.
  destruct (send_all_ends [] [] 3 (Slice demo_va 5) (Machine (replicate 20 0) demo_state) 6) as (l&rest&s1&Hl&Hr&_&Hres);
    [reflexivity|by split|].
  exists l, rest, s1. split; [exact Hl|]. split; [exact Hr|].
  assert (match (tcp_send_all [] [] 6 3 (Slice demo_va 5) (Machine (replicate 20 0) demo_state)).1 with Ok (inl _) => true | _ => false end = true)
    as Hf by (vm_compute; reflexivity).
  destruct (tcp_send_all _ _ _ _ _ _) as [[[e|]|a| |] s']; try discriminate Hf. exact (proj1 Hres).
Defined.
