(* ===== verification/UserGui.v ===== *)
(** * Windows of a program (userspace/libpickleos: gui.rs, font.rs)

    The client's side of a window: the events it is sent, the pixels it draws and
    commits, and the 8x8 font.  Drawing is a function of the window, with slice
    indexing that panics out of range; the calls to the window server are those of
    [UserLib].  Arithmetic on [i32] wraps, as in a release build. *)

From S2P Require Import Prelude Capability Block VfsTable Vfs Signal Task Ipc Frames Paging Memory Bytes Elf UserMem Wm Net World Utf8 Syscall SyscallGate UserLib.

(** A value in [i32], after wrapping. *)
Abbreviation i32 := (signed 32).

(** ** Events *)

(** [userspace/libpickleos/src/gui.rs:60-75, Event] *)
Inductive Event : Type :=
| MouseMove (x y : Z) | MouseDown (x y : Z) | MouseUp (x y : Z) | Key (k : Z) | Focus | Blur | Close.
#[export] Instance Event_eq_dec : EqDecision Event.
Proof. solve_decision. Defined.

(** [userspace/libpickleos/src/gui.rs:46-46, !ev::EV_MOUSE_MOVE] *)
Definition EV_MOUSE_MOVE : Z := 0x10.
(** [userspace/libpickleos/src/gui.rs:47-47, !ev::EV_MOUSE_DOWN] *)
Definition EV_MOUSE_DOWN : Z := 0x11.
(** [userspace/libpickleos/src/gui.rs:48-48, !ev::EV_MOUSE_UP] *)
Definition EV_MOUSE_UP : Z := 0x12.
(** [userspace/libpickleos/src/gui.rs:49-49, !ev::EV_KEY] *)
Definition EV_KEY : Z := 0x13.
(** [userspace/libpickleos/src/gui.rs:50-50, !ev::EV_CLOSE] *)
Definition EV_CLOSE : Z := 0x14.
(** [userspace/libpickleos/src/gui.rs:51-51, !ev::EV_FOCUS] *)
Definition EV_FOCUS : Z := 0x15.
(** [userspace/libpickleos/src/gui.rs:52-52, !ev::EV_BLUR] *)
Definition EV_BLUR : Z := 0x16.
(** [userspace/libpickleos/src/gui.rs:80-96, Event::from_bytes] *)
Definition event_from_bytes (b : bytes) : option Event :=
  let kind := le_dec (slice 0 4 b) in
  let x := i32 (le_dec (slice 4 4 b)) in
  let y := i32 (le_dec (slice 8 4 b)) in
  let arg := le_dec (slice 12 4 b) in
  if kind =? EV_MOUSE_MOVE then Some (MouseMove x y) else
  if kind =? EV_MOUSE_DOWN then Some (MouseDown x y) else
  if kind =? EV_MOUSE_UP then Some (MouseUp x y) else
  if kind =? EV_KEY then Some (Key (wrap8 arg)) else
  if kind =? EV_FOCUS then Some Focus else
  if kind =? EV_BLUR then Some Blur else
  if kind =? EV_CLOSE then Some Close else
  None.

(** [userspace/libpickleos/src/gui.rs:208-212, !Window::info]: x, y, w, h. *)
Definition info_from_bytes (b : bytes) : Z * Z * Z * Z :=
  (i32 (le_dec (slice 8 4 b)), i32 (le_dec (slice 12 4 b)), le_dec (slice 0 4 b), le_dec (slice 4 4 b)).

(** ** The window's pixels *)

(** [userspace/libpickleos/src/gui.rs:104-109, Window] *)
Record Window := MkWindow { win_id : Z; win_width : Z; win_height : Z; pixels : list Z }.
Definition set_pixels (l : list Z) (w : Window) : Window := MkWindow (win_id w) (win_width w) (win_height w) l.
Abbreviation painting := (stm Window Empty_set unit).

(** [userspace/libpickleos/src/gui.rs:129-131, Window::id] *)
Definition window_id (w : Window) : Z := win_id w.
(** [userspace/libpickleos/src/gui.rs:134-136, Window::size] *)
Definition window_size (w : Window) : Z * Z := (win_width w, win_height w).
(** [userspace/libpickleos/src/gui.rs:149-153, Window::clear] *)
Definition clear (color : Z) : painting := smodify (λ w, set_pixels ((λ _, color) <$> pixels w) w).
(** [self.pixels[idx] = color] *)
Definition store_pixel (idx color : Z) : painting := λ w,
  if (0 <=? idx) && (idx <? Z.of_nat (length (pixels w)))
  then (Ok tt, set_pixels (<[Z.to_nat idx := color]> (pixels w)) w) else (Panic, w).
(** [userspace/libpickleos/src/gui.rs:156-162, Window::put_pixel] *)
Definition put_pixel (x y color : Z) : painting := λ w,
  if (x <? 0) || (y <? 0) || (i32 (win_width w) <=? x) || (i32 (win_height w) <=? y) then (Ok tt, w) else
  store_pixel (wrap64 (wrap64 (y * win_width w) + x)) color w.
(** [for v in a..b], or the [while] loop that counts [v] up from [a] to [b]. *)
Definition range (a b : Z) : list Z := seqZ a (b - a).
(** [userspace/libpickleos/src/gui.rs:165-181, Window::fill_rect] *)
Definition fill_rect (x y w h color : Z) : painting := λ win,
  let x0 := Z.max x 0 in
  let y0 := Z.max y 0 in
  let x1 := Z.min (i32 (x + w)) (i32 (win_width win)) in
  let y1 := Z.min (i32 (y + h)) (i32 (win_height win)) in
  sfor (range y0 y1) (λ py, sfor (range x0 x1) (λ px, store_pixel (wrap64 (wrap64 (py * win_width win) + px)) color)) win.

(** ** Text *)

(** [userspace/libpickleos/src/font.rs:54-150, !FONT8X8_BASIC] *)
Definition FONT8X8_BASIC : list (list Z) := [
  [0; 0; 0; 0; 0; 0; 0; 0];
  [24; 60; 60; 24; 24; 0; 24; 0];
  [54; 54; 0; 0; 0; 0; 0; 0];
  [54; 54; 127; 54; 127; 54; 54; 0];
  [12; 62; 3; 30; 48; 31; 12; 0];
  [0; 99; 51; 24; 12; 102; 99; 0];
  [28; 54; 28; 110; 59; 51; 110; 0];
  [6; 6; 3; 0; 0; 0; 0; 0];
  [24; 12; 6; 6; 6; 12; 24; 0];
  [6; 12; 24; 24; 24; 12; 6; 0];
  [0; 102; 60; 255; 60; 102; 0; 0];
  [0; 12; 12; 63; 12; 12; 0; 0];
  [0; 0; 0; 0; 0; 12; 12; 6];
  [0; 0; 0; 63; 0; 0; 0; 0];
  [0; 0; 0; 0; 0; 12; 12; 0];
  [96; 48; 24; 12; 6; 3; 1; 0];
  [62; 99; 115; 123; 111; 103; 62; 0];
  [12; 14; 12; 12; 12; 12; 63; 0];
  [30; 51; 48; 28; 6; 51; 63; 0];
  [30; 51; 48; 28; 48; 51; 30; 0];
  [56; 60; 54; 51; 127; 48; 120; 0];
  [63; 3; 31; 48; 48; 51; 30; 0];
  [28; 6; 3; 31; 51; 51; 30; 0];
  [63; 51; 48; 24; 12; 12; 12; 0];
  [30; 51; 51; 30; 51; 51; 30; 0];
  [30; 51; 51; 62; 48; 24; 14; 0];
  [0; 12; 12; 0; 0; 12; 12; 0];
  [0; 12; 12; 0; 0; 12; 12; 6];
  [24; 12; 6; 3; 6; 12; 24; 0];
  [0; 0; 63; 0; 0; 63; 0; 0];
  [6; 12; 24; 48; 24; 12; 6; 0];
  [30; 51; 48; 24; 12; 0; 12; 0];
  [62; 99; 123; 123; 123; 3; 30; 0];
  [12; 30; 51; 51; 63; 51; 51; 0];
  [63; 102; 102; 62; 102; 102; 63; 0];
  [60; 102; 3; 3; 3; 102; 60; 0];
  [31; 54; 102; 102; 102; 54; 31; 0];
  [127; 70; 22; 30; 22; 70; 127; 0];
  [127; 70; 22; 30; 22; 6; 15; 0];
  [60; 102; 3; 3; 115; 102; 124; 0];
  [51; 51; 51; 63; 51; 51; 51; 0];
  [30; 12; 12; 12; 12; 12; 30; 0];
  [120; 48; 48; 48; 51; 51; 30; 0];
  [103; 102; 54; 30; 54; 102; 103; 0];
  [15; 6; 6; 6; 70; 102; 127; 0];
  [99; 119; 127; 127; 107; 99; 99; 0];
  [99; 103; 111; 123; 115; 99; 99; 0];
  [28; 54; 99; 99; 99; 54; 28; 0];
  [63; 102; 102; 62; 6; 6; 15; 0];
  [30; 51; 51; 51; 59; 30; 56; 0];
  [63; 102; 102; 62; 54; 102; 103; 0];
  [30; 51; 7; 14; 56; 51; 30; 0];
  [63; 45; 12; 12; 12; 12; 30; 0];
  [51; 51; 51; 51; 51; 51; 63; 0];
  [51; 51; 51; 51; 51; 30; 12; 0];
  [99; 99; 99; 107; 127; 119; 99; 0];
  [99; 99; 54; 28; 28; 54; 99; 0];
  [51; 51; 51; 30; 12; 12; 30; 0];
  [127; 99; 49; 24; 76; 102; 127; 0];
  [30; 6; 6; 6; 6; 6; 30; 0];
  [3; 6; 12; 24; 48; 96; 64; 0];
  [30; 24; 24; 24; 24; 24; 30; 0];
  [8; 28; 54; 99; 0; 0; 0; 0];
  [0; 0; 0; 0; 0; 0; 0; 255];
  [12; 12; 24; 0; 0; 0; 0; 0];
  [0; 0; 30; 48; 62; 51; 110; 0];
  [7; 6; 6; 62; 102; 102; 59; 0];
  [0; 0; 30; 51; 3; 51; 30; 0];
  [56; 48; 48; 62; 51; 51; 110; 0];
  [0; 0; 30; 51; 63; 3; 30; 0];
  [28; 54; 6; 15; 6; 6; 15; 0];
  [0; 0; 110; 51; 51; 62; 48; 31];
  [7; 6; 54; 110; 102; 102; 103; 0];
  [12; 0; 14; 12; 12; 12; 30; 0];
  [48; 0; 48; 48; 48; 51; 51; 30];
  [7; 6; 102; 54; 30; 54; 103; 0];
  [14; 12; 12; 12; 12; 12; 30; 0];
  [0; 0; 51; 127; 127; 107; 99; 0];
  [0; 0; 31; 51; 51; 51; 51; 0];
  [0; 0; 30; 51; 51; 51; 30; 0];
  [0; 0; 59; 102; 102; 62; 6; 15];
  [0; 0; 110; 51; 51; 62; 48; 120];
  [0; 0; 59; 110; 102; 6; 15; 0];
  [0; 0; 62; 3; 30; 48; 31; 0];
  [8; 12; 62; 12; 12; 44; 24; 0];
  [0; 0; 51; 51; 51; 51; 110; 0];
  [0; 0; 51; 51; 51; 30; 12; 0];
  [0; 0; 99; 107; 127; 127; 54; 0];
  [0; 0; 99; 54; 28; 54; 99; 0];
  [0; 0; 51; 51; 51; 62; 48; 31];
  [0; 0; 63; 25; 12; 38; 63; 0];
  [56; 12; 12; 7; 12; 12; 56; 0];
  [24; 24; 24; 0; 24; 24; 24; 0];
  [7; 12; 12; 56; 12; 12; 7; 0];
  [110; 59; 0; 0; 0; 0; 0; 0]].
(** [userspace/libpickleos/src/font.rs:10-10, !GLYPH_W] *)
Definition GLYPH_W : Z := 8.
(** [userspace/libpickleos/src/font.rs:11-11, !GLYPH_H] *)
Definition GLYPH_H : Z := 8.
(** [userspace/libpickleos/src/font.rs:43-49, glyph_for] *)
Definition glyph_for (ch : Z) : list Z :=
  if (ch <? 0x20) || (0x7E <? ch) then replicate 8 0 else nth (Z.to_nat (ch - 0x20)) FONT8X8_BASIC [].
(** [userspace/libpickleos/src/font.rs:15-24, draw_char] *)
Definition draw_char (ch x y color : Z) : painting :=
  sfor (imap (λ row bits, (Z.of_nat row, bits)) (glyph_for ch)) (λ r,
    sfor (range 0 8) (λ col,
      if negb (Z.land (Z.shiftr r.2 col) 1 =? 0) then put_pixel (i32 (x + col)) (i32 (y + r.1)) color else sret tt)).
Fixpoint draw_string_from (x0 : Z) (text : list Z) (cx cy color : Z) : painting :=
  match text with
  | [] => sret tt
  | ch :: text =>
      if ch =? 10 then draw_string_from x0 text x0 (i32 (cy + GLYPH_H)) color else
      let! _ := draw_char ch cx cy color in
      draw_string_from x0 text (i32 (cx + GLYPH_W)) cy color
  end.
(** [userspace/libpickleos/src/font.rs:28-40, draw_string] *)
Definition draw_string (text : list Z) (x y color : Z) : painting := draw_string_from x text x y color.

(** ** The window server *)

Section server.
Context {C D : Type} `{Con : Console C} `{Prn : Printer C} `{Nt : Net.Smoltcp} `{BD : BlockDev D}
  `{Pg : Paging} `{Ad : Addresses} `{Cp : Processor} `{Sel : Selectors} `{Um : Unmapper}.
Abbreviation skernel := (kernel (@world C D Nt)).
Abbreviation svfs := (vfs (@devices C Nt) D).
Abbreviation user A := (stm (@machine C D Nt) astray A).
Variables (others : list (skernel → skernel)) (vothers : list (svfs → svfs)).

(** [userspace/libpickleos/src/gui.rs:115-126, Window::create] *)
Definition create (width height : Z) (title : slice_ref) : user (option Window) :=
  let! id := sys_win_create others vothers width height title in
  sret (if id =? u64_max then None else Some (MkWindow id width height (replicate (Z.to_nat (width * height)) 0))).
(** [userspace/libpickleos/src/gui.rs:185-187, Window::commit]: the pixels lie at [ptr]. *)
Definition commit (ptr : Z) (w : Window) : user bool :=
  let! _ := store_local ptr (concat (le_enc 4 <$> pixels w)) in
  let! r := sys_win_commit others vothers (win_id w) (Slice ptr (Z.of_nat (length (pixels w)))) in
  sret (r =? 0).
(** [userspace/libpickleos/src/gui.rs:191-199, Window::poll_event]: the buffer is a local at
    [ptr]. *)
Definition poll_event (ptr : Z) (w : Window) : user (option Event) :=
  let! _ := store_local ptr (replicate 16 0) in
  let! r := sys_win_poll others vothers (win_id w) ptr in
  if r =? 1 then let! b := load_local ptr 16 in sret (event_from_bytes b) else sret None.
(** [userspace/libpickleos/src/gui.rs:203-213, Window::info]: x, y, w, h. *)
Definition info (ptr : Z) (w : Window) : user (option (Z * Z * Z * Z)) :=
  let! _ := store_local ptr (replicate 16 0) in
  let! r := sys_win_info others vothers (win_id w) ptr in
  if negb (r =? 0) then sret None else
  let! b := load_local ptr 16 in sret (Some (info_from_bytes b)).
(** [userspace/libpickleos/src/gui.rs:216-221, Window::destroy], and [drop], which calls it. *)
Definition destroy (w : Window) : user Window :=
  if negb (win_id w =? u64_max) then
    let! _ := sys_win_destroy others vothers (win_id w) in
    sret (MkWindow u64_max (win_width w) (win_height w) (pixels w))
  else sret w.
End server.
