(* ===== verification/Widgets.v ===== *)
(** * The widget toolkit (userspace/libpickleos: widgets.rs)

    Buttons, labels, text boxes and panels of them.  A boxed [dyn Widget] is one of the
    four; the closure of a button changes the world [W] of the program.  A [String] is
    the list of its characters, and an offset into it counts bytes. *)

From S2P Require Import Prelude Vfs UserGui.

(** [userspace/libpickleos/src/widgets.rs:14-18, Color] *)
Record Color := RGB { c_r : Z; c_g : Z; c_b : Z }.
(** [userspace/libpickleos/src/widgets.rs:25-27, Color::to_u32] *)
Definition to_u32 (c : Color) : Z := Z.lor (Z.lor (Z.shiftl (c_r c) 16) (Z.shiftl (c_g c) 8)) (c_b c).
(** [userspace/libpickleos/src/widgets.rs:30-30, !Color::BLACK] *)
Definition BLACK : Color := RGB 0 0 0.
(** [userspace/libpickleos/src/widgets.rs:31-31, !Color::WHITE] *)
Definition WHITE : Color := RGB 255 255 255.
(** [userspace/libpickleos/src/widgets.rs:32-32, !Color::GRAY] *)
Definition GRAY : Color := RGB 128 128 128.
(** [userspace/libpickleos/src/widgets.rs:33-33, !Color::LIGHT_GRAY] *)
Definition LIGHT_GRAY : Color := RGB 200 200 200.
(** [userspace/libpickleos/src/widgets.rs:34-34, !Color::DARK_GRAY] *)
Definition DARK_GRAY : Color := RGB 64 64 64.
(** [userspace/libpickleos/src/widgets.rs:37-37, !Color::BLUE] *)
Definition BLUE : Color := RGB 0 128 255.
(** [userspace/libpickleos/src/widgets.rs:38-38, !Color::CYAN] *)
Definition CYAN : Color := RGB 0 200 200.
(** [userspace/libpickleos/src/widgets.rs:39-39, !Color::YELLOW] *)
Definition YELLOW : Color := RGB 255 255 0.

(** [userspace/libpickleos/src/widgets.rs:44-49, Rect] *)
Record Rect := MkRect { r_x : Z; r_y : Z; r_w : Z; r_h : Z }.
(** [userspace/libpickleos/src/widgets.rs:56-59, Rect::contains] *)
Definition contains (r : Rect) (px py : Z) : bool :=
  (r_x r <=? px) && (px <? i32 (r_x r + i32 (r_w r))) && (r_y r <=? py) && (py <? i32 (r_y r + i32 (r_h r))).
Definition move_to (r : Rect) (x y : Z) : Rect := MkRect x y (r_w r) (r_h r).

(** ** Strings *)

(** [str::len] and [String::remove], [String::insert] at a byte offset: inside of a
    character they panic. *)
Definition str_len (s : list Z) : Z := Z.of_nat (length (mjoin (encode_utf8 <$> s))).
Fixpoint char_index (s : list Z) (off : Z) : option nat :=
  if off =? 0 then Some O else
  match s with
  | [] => None
  | c :: s => if off <? 0 then None else S <$> char_index s (off - Z.of_nat (length (encode_utf8 c)))
  end.
Definition string_remove (s : list Z) (off : Z) : option (list Z) :=
  match char_index s off with
  | Some i => if decide (i < length s)%nat then Some (take i s ++ drop (S i) s) else None
  | None => None
  end.
Definition string_insert (s : list Z) (off c : Z) : option (list Z) :=
  (λ i, take i s ++ c :: drop i s) <$> char_index s off.
(** [is_ascii_graphic] *)
Definition graphic (c : Z) : bool := (33 <=? c) && (c <=? 126).

Section widgets.
Context {W : Type}.

(** [userspace/libpickleos/src/widgets.rs:78-84, Button] *)
Record Button := MkButton { b_rect : Rect; b_label : list Z; b_pressed : bool; b_hovered : bool; b_click : option (W → W) }.
(** [userspace/libpickleos/src/widgets.rs:218-223, Label] *)
Record Label := MkLabel { l_rect : Rect; l_text : list Z; l_fg : Color; l_bg : option Color }.
(** [userspace/libpickleos/src/widgets.rs:292-298, TextBox] *)
Record TextBox := MkTextBox { x_rect : Rect; x_text : list Z; x_cursor : Z; x_focused : bool; x_max : Z }.
(** [userspace/libpickleos/src/widgets.rs:448-452, Panel] *)
Inductive widget : Type :=
| WButton (b : Button)
| WLabel (l : Label)
| WTextBox (x : TextBox)
| WPanel (r : Rect) (ws : list widget) (bg : Color).

(** [userspace/libpickleos/src/widgets.rs:87-95, !Button::new] *)
Definition button_new (x y w h : Z) (label : list Z) : Button := MkButton (MkRect x y w h) label false false None.
(** [userspace/libpickleos/src/widgets.rs:97-103, on_click] *)
Definition on_click (f : W → W) (b : Button) : Button := MkButton (b_rect b) (b_label b) (b_pressed b) (b_hovered b) (Some f).
(** [userspace/libpickleos/src/widgets.rs:226-234, !Label::new] *)
Definition label_new (x y : Z) (text : list Z) : Label := MkLabel (MkRect x y (wrap32 (str_len text * 8)) 16) text BLACK None.
(** [userspace/libpickleos/src/widgets.rs:236-240, with_colors] *)
Definition with_colors (fg : Color) (bg : option Color) (l : Label) : Label := MkLabel (l_rect l) (l_text l) fg bg.
(** [userspace/libpickleos/src/widgets.rs:242-245, !Label::set_text] *)
Definition label_set_text (text : list Z) (l : Label) : Label :=
  MkLabel (MkRect (r_x (l_rect l)) (r_y (l_rect l)) (wrap32 (str_len text * 8)) (r_h (l_rect l))) text (l_fg l) (l_bg l).
(** [userspace/libpickleos/src/widgets.rs:301-309, !TextBox::new] *)
Definition textbox_new (x y w : Z) : TextBox := MkTextBox (MkRect x y w 24) [] 0 false 64.
(** [userspace/libpickleos/src/widgets.rs:315-318, !TextBox::set_text] *)
Definition textbox_set_text (text : list Z) (x : TextBox) : TextBox := MkTextBox (x_rect x) text (str_len text) (x_focused x) (x_max x).
(** [userspace/libpickleos/src/widgets.rs:320-323, !TextBox::clear] *)
Definition textbox_clear (x : TextBox) : TextBox := MkTextBox (x_rect x) [] 0 (x_focused x) (x_max x).
(** [userspace/libpickleos/src/widgets.rs:455-461, !Panel::new] *)
Definition panel_new (x y w h : Z) : widget := WPanel (MkRect x y w h) [] LIGHT_GRAY.
(** [userspace/libpickleos/src/widgets.rs:463-465, add_widget] *)
Definition add_widget (w p : widget) : widget := match p with WPanel r ws bg => WPanel r (ws ++ [w]) bg | _ => p end.
(** [userspace/libpickleos/src/widgets.rs:467-469, set_bg_color] *)
Definition set_bg_color (c : Color) (p : widget) : widget := match p with WPanel r ws _ => WPanel r ws c | _ => p end.

(** ** Drawing *)

(** The placeholder of a character: a block of 6 by 8 pixels, nothing for a space. *)
Definition draw_block (ch x y color : Z) : painting :=
  if graphic ch
  then sfor (range 0 8) (λ dy, sfor (range 0 6) (λ dx, put_pixel (i32 (x + dx)) (i32 (y + dy)) color))
  else sret tt.
(** [userspace/libpickleos/src/widgets.rs:105-122, !Button::draw_text]; the other widgets draw their text with
    the same loop. *)
Definition draw_text (text : list Z) (x y color : Z) : painting :=
  sfor (imap (λ k c, (Z.of_nat k, c)) text) (λ p, draw_block p.2 (i32 (x + i32 (p.1 * 8))) y color).
(** [for i in 0..n { win.put_pixel(x + i, y, c) }], and downwards. *)
Definition hline (x y n color : Z) : painting := sfor (range 0 n) (λ k, put_pixel (i32 (x + k)) y color).
Definition vline (x y n color : Z) : painting := sfor (range 0 n) (λ k, put_pixel x (i32 (y + k)) color).
Definition right_edge (r : Rect) : Z := i32 (i32 (r_x r + i32 (r_w r)) - 1).
Definition bottom_edge (r : Rect) : Z := i32 (i32 (r_y r + i32 (r_h r)) - 1).
Definition fill (r : Rect) (c : Color) : painting := fill_rect (r_x r) (r_y r) (i32 (r_w r)) (i32 (r_h r)) (to_u32 c).

(** [userspace/libpickleos/src/widgets.rs:126-174, !Button::draw] *)
Definition draw_button (b : Button) : painting :=
  let r := b_rect b in
  let! _ := fill r (if b_pressed b then DARK_GRAY else if b_hovered b then LIGHT_GRAY else GRAY) in
  let border := to_u32 (if b_pressed b then BLACK else WHITE) in
  let! _ := hline (r_x r) (r_y r) (r_w r) border in
  let! _ := vline (r_x r) (r_y r) (r_h r) border in
  let shadow := to_u32 (if b_pressed b then LIGHT_GRAY else BLACK) in
  let! _ := hline (r_x r) (bottom_edge r) (r_w r) shadow in
  let! _ := vline (right_edge r) (r_y r) (r_h r) shadow in
  let text_x := i32 (i32 (r_x r + Z.quot (i32 (r_w r)) 2) - i32 (str_len (b_label b) * 4)) in
  let text_y := i32 (i32 (r_y r + Z.quot (i32 (r_h r)) 2) - 4) in
  draw_text (b_label b) text_x text_y (to_u32 BLACK).
(** [userspace/libpickleos/src/widgets.rs:249-275, !Label::draw] *)
Definition draw_label (l : Label) : painting :=
  let r := l_rect l in
  let! _ := match l_bg l with Some bg => fill r bg | None => sret tt end in
  draw_text (l_text l) (r_x r) (i32 (r_y r + 4)) (to_u32 (l_fg l)).
(** [userspace/libpickleos/src/widgets.rs:327-389, !TextBox::draw] *)
Definition draw_textbox (x : TextBox) : painting :=
  let r := x_rect x in
  let! _ := fill r (if x_focused x then WHITE else LIGHT_GRAY) in
  let border := to_u32 (if x_focused x then BLUE else DARK_GRAY) in
  let! _ := hline (r_x r) (r_y r) (r_w r) border in
  let! _ := hline (r_x r) (bottom_edge r) (r_w r) border in
  let! _ := vline (r_x r) (r_y r) (r_h r) border in
  let! _ := vline (right_edge r) (r_y r) (r_h r) border in
  let! _ := draw_text (x_text x) (i32 (r_x r + 4)) (i32 (r_y r + 8)) (to_u32 BLACK) in
  if x_focused x
  then vline (i32 (i32 (r_x r + 4) + i32 (i32 (x_cursor x) * 8))) (i32 (r_y r + 6)) 12 (to_u32 BLACK)
  else sret tt.
(** [userspace/libpickleos/src/widgets.rs:471-481, !draw_all] *)
Fixpoint draw (w : widget) : painting :=
  match w with
  | WButton b => draw_button b
  | WLabel l => draw_label l
  | WTextBox x => draw_textbox x
  | WPanel r ws bg =>
      let! _ := fill r bg in
      (fix all (ws : list widget) : painting := match ws with [] => sret tt | w :: ws => let! _ := draw w in all ws end) ws
  end.

(** ** Events *)

Abbreviation handling A := (stm W Empty_set A).
(** [userspace/libpickleos/src/widgets.rs:176-205, !Button::handle_event] *)
Definition button_event (ev : Event) (b : Button) : handling (bool * Button) :=
  let inside x y := contains (b_rect b) x y in
  match ev with
  | MouseMove x y => sret (negb (eqb (b_hovered b) (inside x y)), MkButton (b_rect b) (b_label b) (b_pressed b) (inside x y) (b_click b))
  | MouseDown x y => sret (if inside x y then (true, MkButton (b_rect b) (b_label b) true (b_hovered b) (b_click b)) else (false, b))
  | MouseUp x y =>
      let up := MkButton (b_rect b) (b_label b) false (b_hovered b) (b_click b) in
      if b_pressed b && inside x y
      then let! _ := match b_click b with Some f => smodify f | None => sret tt end in sret (true, up)
      else sret (false, up)
  | _ => sret (false, b)
  end.
Definition set_text_at (x : TextBox) (t : list Z) (cursor : Z) : TextBox := MkTextBox (x_rect x) t cursor (x_focused x) (x_max x).
(** [userspace/libpickleos/src/widgets.rs:403-431, !TextBox::handle_event]: a key. *)
Definition textbox_key (k : Z) (x : TextBox) : outcome Empty_set (bool * TextBox) :=
  if k =? 0x08 then
    if 0 <? x_cursor x
    then let? t := or_panic (string_remove (x_text x) (x_cursor x - 1)) in Ok (true, set_text_at x t (x_cursor x - 1))
    else Ok (true, x)
  else if k =? 0x7F then
    if x_cursor x <? str_len (x_text x)
    then let? t := or_panic (string_remove (x_text x) (x_cursor x)) in Ok (true, set_text_at x t (x_cursor x))
    else Ok (true, x)
  else if (k =? 10) || (k =? 13) then Ok (true, x)
  else if graphic k || (k =? 32) then
    if str_len (x_text x) <? x_max x
    then let? t := or_panic (string_insert (x_text x) (x_cursor x) k) in Ok (true, set_text_at x t (x_cursor x + 1))
    else Ok (true, x)
  else Ok (false, x).
(** [userspace/libpickleos/src/widgets.rs:391-435, !TextBox::handle_event] *)
Definition textbox_event (ev : Event) (x : TextBox) : handling (bool * TextBox) :=
  match ev with
  | MouseDown mx my =>
      let now := contains (x_rect x) mx my in
      sret (negb (eqb (x_focused x) now), MkTextBox (x_rect x) (x_text x) (x_cursor x) now (x_max x))
  | Key k => if negb (x_focused x) then sret (false, x) else slift (textbox_key k x)
  | _ => sret (false, x)
  end.
(** [userspace/libpickleos/src/widgets.rs:483-491, !Panel::handle_event]: the children from the last
    to the first, until one has handled it. *)
Fixpoint handle_event (ev : Event) (w : widget) : handling (bool * widget) :=
  match w with
  | WButton b => let! p := button_event ev b in sret (p.1, WButton p.2)
  | WLabel l => sret (false, WLabel l)
  | WTextBox x => let! p := textbox_event ev x in sret (p.1, WTextBox p.2)
  | WPanel r ws bg =>
      let! p := (fix rev_iter (ws : list widget) : handling (bool * list widget) :=
        match ws with
        | [] => sret (false, [])
        | w :: ws =>
            let! p := rev_iter ws in
            if p.1 : bool then sret (true, w :: p.2) else
            let! q := handle_event ev w in
            sret (q.1, q.2 :: p.2)
        end) ws in
      sret (p.1, WPanel r p.2 bg)
  end.

(** ** Places *)

(** [userspace/libpickleos/src/widgets.rs:207-209, !bounds]; the other widgets do the same. *)
Definition bounds (w : widget) : Rect :=
  match w with WButton b => b_rect b | WLabel l => l_rect l | WTextBox x => x_rect x | WPanel r _ _ => r end.
(** [userspace/libpickleos/src/widgets.rs:507-518, !Panel::set_position]; the other widgets only set
    their rectangle. *)
Fixpoint set_position (x y : Z) (w : widget) : widget :=
  match w with
  | WButton b => WButton (MkButton (move_to (b_rect b) x y) (b_label b) (b_pressed b) (b_hovered b) (b_click b))
  | WLabel l => WLabel (MkLabel (move_to (l_rect l) x y) (l_text l) (l_fg l) (l_bg l))
  | WTextBox t => WTextBox (MkTextBox (move_to (x_rect t) x y) (x_text t) (x_cursor t) (x_focused t) (x_max t))
  | WPanel r ws bg =>
      let dx := i32 (x - r_x r) in
      let dy := i32 (y - r_y r) in
      WPanel (move_to r x y) ((λ w, set_position (i32 (r_x (bounds w) + dx)) (i32 (r_y (bounds w) + dy)) w) <$> ws) bg
  end.
End widgets.
