(* ===== verification/WidgetsProps.v ===== *)
(** * What programs draw, and their widgets

    Drawing into a window of [UserGui] as painting on a canvas, the widgets of
    [Widgets] on top of it, and their state: text boxes as line editors, panels that
    move as one, events that arrive as they were sent. *)

From S2P Require Import Prelude Canvas Vfs Wm UserGui Widgets.

#[local] Ltac Zify.zify_post_hook ::= Z.to_euclidean_division_equations.

(** ** Wrapped integers *)

Lemma i32_small z : - 2 ^ 31 ≤ z < 2 ^ 31 → i32 z = z.
Proof. unfold signed. change (32 - 1) with 31. intros. case_decide; lia. Qed.
Lemma i32_bounds z : - 2 ^ 31 ≤ i32 z < 2 ^ 31.
Proof. unfold signed. change (32 - 1) with 31. case_decide; lia. Qed.
Lemma i32_mod z : i32 z mod 2 ^ 32 = z mod 2 ^ 32.
Proof. unfold signed. change (32 - 1) with 31. case_decide; lia. Qed.
Lemma i32_eq a b : a mod 2 ^ 32 = b mod 2 ^ 32 → i32 a = i32 b.
Proof. intros H. unfold signed. by rewrite H. Qed.
Lemma i32_wrap32 z : - 2 ^ 31 ≤ z < 2 ^ 31 → i32 (wrap32 z) = z.
Proof. intros H. rewrite <-(i32_small z) at 2 by done. apply i32_eq. unfold wrap. lia. Qed.

Create HintDb drawing.

(** ** The window as a canvas *)

Record win_ok (id w h : Z) (win : Window) : Prop := {
  wo_id : win_id win = id;
  wo_width : win_width win = w;
  wo_height : win_height win = h;
  wo_pixels : Z.of_nat (length (pixels win)) = w * h;
}.
(** The color of a pixel. *)
Definition pixel (win : Window) (x y : Z) : option Z := pixels win !! Z.to_nat (y * win_width win + x).

Section window.
Context (id w h : Z) (Hw : 0 ≤ w < 2 ^ 31) (Hh : 0 ≤ h < 2 ^ 31).
Definition in_window (x y : Z) : Prop := 0 ≤ x < w ∧ 0 ≤ y < h.
Abbreviation paints := (Canvas.paints (win_ok id w h) in_window pixel (@Some Z)).

Lemma index_bound x y : in_window x y → 0 ≤ y * w + x < w * h.
Proof using Hw Hh. intros [Hx Hy]. split; [apply Z.add_nonneg_nonneg; [apply Z.mul_nonneg_nonneg|]; lia|]. assert ((y + 1) * w ≤ h * w) by (apply Z.mul_le_mono_nonneg_r; lia). lia. Qed.
Lemma index_apart x y x' y' : in_window x y → in_window x' y' → y * w + x = y' * w + x' → x = x' ∧ y = y'.
Proof using Hw Hh. intros [Hx _] [Hx' _] He. assert (y = y') as -> by nia. lia. Qed.
Lemma area_bound : w * h < 2 ^ 62.
Proof using Hw Hh. assert (w * h ≤ (2 ^ 31 - 1) * (2 ^ 31 - 1)) by (apply Z.mul_le_mono_nonneg; lia). lia. Qed.

Lemma window_store x y c : in_window x y → paints (store_pixel (y * w + x) c) (dot x y c).
Proof using Hw Hh.
  intros Hxy win Hwin. pose proof (index_bound _ _ Hxy) as Hi. destruct Hwin as [Hid Hww Hwh Hl]. unfold store_pixel.
  rewrite Hl, (proj2 (Z.leb_le 0 _)), (proj2 (Z.ltb_lt _ _)) by lia. cbn [andb]. eexists. split; [done|].
  split; [split; try done; cbn; by rewrite length_insert|]. intros x' y' Hxy'. unfold pixel, dot, set_pixels. cbn [pixels win_width]. rewrite Hww.
  pose proof (index_bound _ _ Hxy'). case_decide as Hd.
  - destruct Hd as [-> ->]. cbn. apply list_lookup_insert_eq. lia.
  - cbn. apply list_lookup_insert_ne. intros He. apply Hd. destruct (index_apart x' y' x y Hxy' Hxy); lia.
Qed.
Lemma index_word x y : in_window x y → wrap64 (wrap64 (y * w) + x) = y * w + x.
Proof using Hw Hh.
  intros Hxy. pose proof (index_bound _ _ Hxy). pose proof area_bound. destruct Hxy.
  assert (0 ≤ y * w) by (apply Z.mul_nonneg_nonneg; lia). rewrite (wrap_small 64 (y * w)), wrap_small by lia. done.
Qed.

Lemma window_put x y c : paints (put_pixel x y c) (dot x y c).
Proof using Hw Hh.
  intros win Hwin. unfold put_pixel. rewrite (wo_width _ _ _ _ Hwin), (wo_height _ _ _ _ Hwin), !i32_small by lia.
  destruct (decide (0 ≤ x < w ∧ 0 ≤ y < h)) as [Hxy|Hxy].
  - destruct (Z.ltb_spec x 0), (Z.ltb_spec y 0), (Z.leb_spec w x), (Z.leb_spec h y); try lia. cbn [orb].
    rewrite index_word by done. by apply window_store.
  - replace ((x <? 0) || (y <? 0) || (w <=? x) || (h <=? y)) with true by (symmetry; lia).
    exists win. split_and!; [done..|]. intros x' y' Hxy'. unfold dot. rewrite decide_False; [done|]. intros [-> ->]. done.
Qed.

(** A rectangle, cut at the edges; its far corner may have wrapped. *)
Lemma window_rect x y rw rh c : paints (fill_rect x y rw rh c) (block x (i32 (x + rw)) y (i32 (y + rh)) c).
Proof using Hw Hh.
  intros win Hwin. unfold fill_rect. rewrite (wo_width _ _ _ _ Hwin), (wo_height _ _ _ _ Hwin), !(i32_small w), !(i32_small h) by lia.
  set (x0 := Z.max x 0). set (y0 := Z.max y 0). set (x1 := Z.min _ w). set (y1 := Z.min _ h).
  assert (paints (sfor (range y0 y1) (λ py, sfor (range x0 x1) (λ px, store_pixel (wrap64 (wrap64 (py * w) + px)) c))) (block x0 x1 y0 y1 c)) as Hp.
  { apply (paints_block _ _ _ _ (λ px py, store_pixel (wrap64 (wrap64 (py * w) + px)) c)). intros px py Hpx Hpy.
    assert (in_window px py) as Hin by (unfold x0, x1, y0, y1 in *; split; lia). rewrite index_word by done. by apply window_store. }
  revert win Hwin. change (paints (sfor (range y0 y1) (λ py, sfor (range x0 x1) (λ px, store_pixel (wrap64 (wrap64 (py * w) + px)) c))) (block x (i32 (x + rw)) y (i32 (y + rh)) c)).
  refine (paints_ext _ _ _ _ _ _ _ Hp _). intros x' y' [Hx' Hy']. unfold block, x0, x1, y0, y1. repeat case_decide; try done; exfalso; lia.
Qed.

(** ** Everything drawn stays in the window *)

Definition draws (f : stm Window Empty_set unit) : Prop := ∃ a, paints f a.
Lemma drawn_then f g : draws f → draws g → draws (let! _ := f in g).
Proof. intros [a Ha] [b Hb]. eexists. by apply paints_then. Qed.
Lemma drawn_for {A} (l : list A) f : (∀ k, draws (f k)) → draws (sfor l f).
Proof.
  intros H. induction l as [|k l IH]; [eexists; apply paints_nothing|]. by apply drawn_then.
Qed.
Lemma drawn_nothing : draws (sret tt).
Proof. eexists. apply paints_nothing. Qed.
Lemma drawn_put x y c : draws (put_pixel x y c).
Proof using Hw Hh. eexists. apply window_put. Qed.
Lemma drawn_rect x y rw rh c : draws (fill_rect x y rw rh c).
Proof using Hw Hh. eexists. apply window_rect. Qed.
Lemma drawn_clear c : draws (clear c).
Proof.
  exists (λ _ _, Some c). intros win [Hid Hww Hwh Hl]. eexists. split; [done|]. split; [split; try done; cbn; by rewrite length_fmap|].
  intros x y Hxy. unfold pixel, set_pixels. cbn [pixels win_width]. rewrite list_lookup_fmap.
  pose proof (index_bound _ _ Hxy). destruct (lookup_lt_is_Some_2 (pixels win) (Z.to_nat (y * win_width win + x))) as [v ->]; [lia|done].
Qed.
Hint Resolve drawn_then drawn_for drawn_nothing drawn_put drawn_rect drawn_clear : drawing.

Lemma drawn_text text x y c : draws (draw_text text x y c).
Proof using Hw Hh. apply drawn_for. intros k. unfold draw_block. destruct (graphic k.2); auto 10 with drawing. Qed.
Lemma drawn_hline x y n c : draws (hline x y n c).
Proof using Hw Hh. unfold hline. auto with drawing. Qed.
Lemma drawn_vline x y n c : draws (vline x y n c).
Proof using Hw Hh. unfold vline. auto with drawing. Qed.
Lemma drawn_fill r c : draws (fill r c).
Proof using Hw Hh. unfold fill. auto with drawing. Qed.
Lemma drawn_string text x y c : draws (draw_string text x y c).
Proof using Hw Hh.
  unfold draw_string. generalize y. generalize x at 2. induction text as [|ch text IH]; intros cx cy; cbn [draw_string_from]; [apply drawn_nothing|].
  destruct (ch =? 10); [done|]. apply drawn_then; [|done]. apply drawn_for. intros r. apply drawn_for. intros k. destruct (negb _); auto with drawing.
Qed.
End window.
#[export] Hint Resolve drawn_then drawn_for drawn_nothing drawn_put drawn_rect drawn_clear
  drawn_text drawn_hline drawn_vline drawn_fill : drawing.

(** ** Trees of widgets *)

Section widgets.
Context {W : Type}.
Implicit Types (x : @Widgets.TextBox) (v : @widget W).

Lemma widget_tree_ind (P : @widget W → Prop) :
  (∀ b, P (WButton b)) → (∀ l, P (WLabel l)) → (∀ x, P (WTextBox x)) →
  (∀ r ws bg, Forall P ws → P (WPanel r ws bg)) → ∀ v, P v.
Proof.
  intros Hb Hl Hx Hp. fix IH 1. intros [b|l|x|r ws bg]; [apply Hb|apply Hl|apply Hx|].
  apply Hp. induction ws as [|v ws IHws]; constructor; [apply IH|apply IHws].
Qed.

Lemma drawn_widget id w h v : 0 ≤ w < 2 ^ 31 → 0 ≤ h < 2 ^ 31 → draws id w h (draw v).
Proof.
  intros Hw Hh. induction v as [b|l|x|r ws bg IH] using widget_tree_ind; cbn [draw].
  - unfold draw_button. auto 20 with drawing.
  - unfold draw_label. destruct (l_bg l); auto 10 with drawing.
  - unfold draw_textbox. destruct (x_focused x); auto 20 with drawing.
  - apply drawn_then; [by apply drawn_fill|]. induction IH as [|v ws Hv _ IHws]; [apply drawn_nothing|]. by apply drawn_then.
Qed.

(** Programs draw inside their windows.  A rectangle colors exactly the
    pixels of the window between its corners, however it lies; and text and whole trees of widgets,
    wherever they are placed, are drawn without an index out of bounds, leaving the
    window's identity and size as they were. *)
Theorem drawing_in_window (win : Window) v left top rw rh c text :
  win_ok (win_id win) (win_width win) (win_height win) win → 0 ≤ win_width win < 2 ^ 31 → 0 ≤ win_height win < 2 ^ 31 →
  (∃ win', fill_rect left top rw rh c win = (Ok tt, win') ∧ win_ok (win_id win) (win_width win) (win_height win) win' ∧
     ∀ px py, 0 ≤ px < win_width win → 0 ≤ py < win_height win →
       pixel win' px py = if decide (left ≤ px < i32 (left + rw) ∧ top ≤ py < i32 (top + rh)) then Some c else pixel win px py) ∧
  (∃ win', draw_string text left top c win = (Ok tt, win') ∧ win_ok (win_id win) (win_width win) (win_height win) win') ∧
  (∃ win', draw v win = (Ok tt, win') ∧ win_ok (win_id win) (win_width win) (win_height win) win').
Proof.
  intros Hok Hw Hh. split_and!.
  - destruct (window_rect (win_id win) _ _ Hw Hh left top rw rh c win Hok) as (win'&Hr&Hok'&Hp). exists win'. split_and!; [done..|].
    intros px py Hpx Hpy. rewrite Hp by done. unfold block. by case_decide.
  - destruct (drawn_string (win_id win) _ _ Hw Hh text left top c) as [a Ha]. destruct (Ha win Hok) as (win'&Hr&Hok'&_). by exists win'.
  - destruct (drawn_widget (win_id win) _ _ v Hw Hh) as [a Ha]. destruct (Ha win Hok) as (win'&Hr&Hok'&_). by exists win'.
Qed.

(** ** Text boxes *)

(** A line with a cursor in it: what is before it, and what is after. *)
Definition line_editor : Type := list Z * list Z.
Definition type_into (max : Z) (e : line_editor) (k : Z) : line_editor :=
  if k =? 0x08 then (take (length e.1 - 1) e.1, e.2) else
  if k =? 0x7F then (e.1, drop 1 e.2) else
  if graphic k || (k =? 32) then
    if Z.of_nat (length e.1 + length e.2) <? max then (e.1 ++ [k], e.2) else e
  else e.
Definition ascii (c : Z) : Prop := 0 ≤ c < 128.
Definition holds (x : @Widgets.TextBox) (e : line_editor) : Prop :=
  x_text x = e.1 ++ e.2 ∧ Forall ascii (e.1 ++ e.2) ∧ x_cursor x = Z.of_nat (length e.1).

Lemma encode_ascii c : ascii c → length (encode_utf8 c) = 1%nat.
Proof. unfold ascii, encode_utf8. intros. by rewrite decide_True by lia. Qed.
Lemma str_len_ascii s : Forall ascii s → str_len s = Z.of_nat (length s).
Proof.
  unfold str_len. induction 1 as [|c s Hc _ IH]; [done|].
  change (mjoin (encode_utf8 <$> c :: s)) with (encode_utf8 c ++ mjoin (encode_utf8 <$> s)).
  rewrite length_app, encode_ascii by done. cbn [length]. lia.
Qed.
Lemma char_index_ascii s i : Forall ascii s → (i ≤ length s)%nat → char_index s (Z.of_nat i) = Some i.
Proof.
  intros Hs. revert i. induction Hs as [|c s Hc _ IH]; intros i Hi; cbn in Hi; [by replace i with 0%nat by lia|].
  cbn [char_index]. destruct (Z.eqb_spec (Z.of_nat i) 0); [by replace i with 0%nat by lia|].
  destruct (Z.ltb_spec (Z.of_nat i) 0); [lia|]. rewrite encode_ascii by done. destruct i as [|i]; [lia|].
  replace (Z.of_nat (S i) - Z.of_nat 1) with (Z.of_nat i) by lia. by rewrite IH by lia.
Qed.

Lemma key_types x e k : holds x e → ∃ b x', textbox_key k x = Ok (b, x') ∧ holds x' (type_into (x_max x) e k) ∧
  x_max x' = x_max x ∧ x_focused x' = x_focused x.
Proof.
  destruct e as [bef aft]. unfold holds. cbn [fst snd]. intros (Ht&Ha&Hc). apply Forall_app in Ha as [Hab Haa].
  unfold textbox_key, type_into. cbn [fst snd]. pose proof (str_len_ascii (x_text x)) as Hlen. rewrite Ht, length_app in Hlen.
  specialize (Hlen (Forall_app_2 _ _ _ Hab Haa)). rewrite Ht.
  destruct (k =? 8); [|destruct (k =? 127); [|destruct (Z.eqb_spec k 10) as [->|]; [|destruct (Z.eqb_spec k 13) as [->|]]]].
  - rewrite Hc. destruct (Z.ltb_spec 0 (Z.of_nat (length bef))).
    + unfold string_remove. replace (Z.of_nat (length bef) - 1) with (Z.of_nat (length bef - 1)) by lia.
      rewrite char_index_ascii; [|by apply Forall_app|rewrite length_app; lia]. rewrite decide_True by (rewrite length_app; lia).
      do 2 eexists. split; [done|]. cbn. rewrite take_app_le, drop_app_ge by lia. replace (S (length bef - 1) - length bef)%nat with 0%nat by lia.
      rewrite drop_0. split_and!; try done; [|rewrite length_take; lia]. apply Forall_app. split; [by apply Forall_take|done].
    + do 2 eexists. split; [done|]. cbn. destruct bef; [|simpl in *; lia]. cbn in *. by rewrite Ht.
  - rewrite Hlen, Hc. destruct (Z.ltb_spec (Z.of_nat (length bef)) (Z.of_nat (length bef + length aft))).
    + unfold string_remove. rewrite char_index_ascii; [|by apply Forall_app|rewrite length_app; lia]. rewrite decide_True by (rewrite length_app; lia).
      do 2 eexists. split; [done|]. cbn. rewrite take_app_length, drop_app_ge by lia. replace (S (length bef) - length bef)%nat with 1%nat by lia.
      split_and!; try done. apply Forall_app. split; [done|by apply Forall_drop].
    + do 2 eexists. split; [done|]. cbn. destruct aft; [|simpl in *; lia]. cbn. split_and!; try done. by apply Forall_app.
  - do 2 eexists. split; [done|]. cbn. by rewrite Ht, Forall_app.
  - do 2 eexists. split; [done|]. cbn. by rewrite Ht, Forall_app.
  - cbn [orb]. destruct (graphic k || (k =? 32)) eqn:Hk; [|do 2 eexists; split; [done|]; cbn; by rewrite Ht, Forall_app].
    rewrite Hlen. destruct (_ <? x_max x); [|do 2 eexists; split; [done|]; cbn; by rewrite Ht, Forall_app].
    unfold string_insert. rewrite Hc, char_index_ascii; [|by apply Forall_app|rewrite length_app; lia]. cbn [fmap option_fmap option_map or_panic obind].
    do 2 eexists. split; [done|]. cbn. rewrite take_app_length, drop_app_length, <-app_assoc.
    split_and!; try done; [|rewrite length_app; simpl; lia]. rewrite !Forall_app. split_and!; [done|constructor; [|done]|done].
    unfold graphic, ascii in *. lia.
Qed.

(** Keys one after the other. *)
Fixpoint press (x : @Widgets.TextBox) (ks : list Z) : outcome Empty_set (@Widgets.TextBox) :=
  match ks with
  | [] => Ok x
  | k :: ks => let? p := textbox_key k x in press p.2 ks
  end.
Definition room (x : @Widgets.TextBox) (e : line_editor) : Prop := Z.of_nat (length e.1 + length e.2) ≤ x_max x.
Lemma type_room max e k : Z.of_nat (length e.1 + length e.2) ≤ max →
  Z.of_nat (length (type_into max e k).1 + length (type_into max e k).2) ≤ max.
Proof.
  destruct e as [b a]. unfold type_into. cbn [fst snd]. intros Hm.
  destruct (k =? 8); [cbn [fst snd]; rewrite length_take; lia|]. destruct (k =? 127); [cbn [fst snd]; rewrite length_drop; lia|].
  destruct (graphic k || (k =? 32)); [|done]. destruct (Z.ltb_spec (Z.of_nat (length b + length a)) max); [|done].
  cbn [fst snd]. rewrite length_app. cbn [length]. lia.
Qed.

(** C38: A text box is a line editor.  Any keys typed into a box that holds plain
    text insert before the cursor, delete on either side of it, or do nothing, as the line with a
    cursor says; the box never panics and never holds more than its limit. *)
Theorem textbox_edits_line x e ks : holds x e → room x e → ∃ x',
  press x ks = Ok x' ∧ holds x' (foldl (type_into (x_max x)) e ks) ∧ room x' (foldl (type_into (x_max x)) e ks).
Proof.
  revert x e. induction ks as [|k ks IH]; intros x e Hx Hr; cbn [press foldl]; [by exists x|].
  destruct (key_types x e k Hx) as (b&x1&Hk&Hx1&Hm&_). rewrite Hk. cbn [obind snd]. rewrite <-Hm in Hx1 |- *.
  apply IH; [done|]. unfold room in *. rewrite Hm. by apply type_room.
Qed.

(** ** Panels *)

(** Where a widget and all inside of it lie. *)
Fixpoint places (v : @widget W) : list (Z * Z) :=
  (r_x (bounds v), r_y (bounds v)) :: match v with WPanel _ ws _ => concat (places <$> ws) | _ => [] end.
Fixpoint placed (v : @widget W) : Prop :=
  - 2 ^ 31 ≤ r_x (bounds v) < 2 ^ 31 ∧ - 2 ^ 31 ≤ r_y (bounds v) < 2 ^ 31 ∧
  match v with WPanel _ ws _ => (fix all ws := match ws with [] => True | v :: ws => placed v ∧ all ws end) ws | _ => True end.
Definition shift (dx dy : Z) (p : Z * Z) : Z * Z := (i32 (p.1 + dx), i32 (p.2 + dy)).

Lemma shift_places dx dy dx' dy' v : dx mod 2 ^ 32 = dx' mod 2 ^ 32 → dy mod 2 ^ 32 = dy' mod 2 ^ 32 →
  shift dx dy <$> places v = shift dx' dy' <$> places v.
Proof. intros Hx Hy. apply list_fmap_ext. intros _ p _. unfold shift. f_equal; apply i32_eq; rewrite <-Zplus_mod_idemp_r; [rewrite Hx|rewrite Hy]; apply Zplus_mod_idemp_r. Qed.

(** A panel moves as one.  Setting its position moves everything inside of it,
    however deeply nested, by the same distance. *)
Theorem panel_moves_rigidly left top v : - 2 ^ 31 ≤ left < 2 ^ 31 → - 2 ^ 31 ≤ top < 2 ^ 31 → placed v →
  places (set_position left top v) = shift (left - r_x (bounds v)) (top - r_y (bounds v)) <$> places v ∧
  r_w (bounds (set_position left top v)) = r_w (bounds v) ∧ r_h (bounds (set_position left top v)) = r_h (bounds v).
Proof.
  intros Hl Ht Hv. split; [|by destruct v].
  revert left top Hl Ht Hv. induction v as [b|l|x|r ws bg IH] using widget_tree_ind; intros left top Hl Ht (Hx&Hy&Hws);
    cbn [places set_position bounds fmap list_fmap] in *; unfold shift at 1; cbn [fst snd move_to r_x r_y b_rect l_rect x_rect] in *;
    (apply (f_equal2 cons); [f_equal; symmetry; rewrite i32_small; lia|]); [done..|].
  induction IH as [|v ws Hv _ IHws]; [done|]. destruct Hws as [Hpv Hws]. cbn [fmap list_fmap concat]. rewrite fmap_app. f_equal; [|by apply IHws].
  rewrite Hv; [|apply i32_bounds|apply i32_bounds|done]. apply shift_places.
  - rewrite Zminus_mod, i32_mod, <-Zminus_mod. replace (_ + _ - _) with (i32 (left - r_x r)) by lia. apply i32_mod.
  - rewrite Zminus_mod, i32_mod, <-Zminus_mod. replace (_ + _ - _) with (i32 (top - r_y r)) by lia. apply i32_mod.
Qed.
End widgets.

(** ** Events *)

(** The window server's event as the program is to see it. *)
Definition seen (ev : Wm.Wm.event) : option Event :=
  let (k, x, y, arg) := ev in
  if k =? Wm.Wm.EV_MOUSE_MOVE then Some (MouseMove x y) else
  if k =? Wm.Wm.EV_MOUSE_DOWN then Some (MouseDown x y) else
  if k =? Wm.Wm.EV_MOUSE_UP then Some (MouseUp x y) else
  if k =? Wm.Wm.EV_KEY then Some (Key (wrap8 arg)) else
  if k =? Wm.Wm.EV_FOCUS then Some Focus else
  if k =? Wm.Wm.EV_BLUR then Some Blur else
  if k =? Wm.Wm.EV_CLOSE then Some Close else None.

Lemma dec_field n z rest : 0 ≤ z < 256 ^ Z.of_nat n → le_dec (take n (le_enc n z ++ rest)) = z.
Proof. intros Hz. rewrite take_app_length' by (by rewrite length_le_enc). by apply le_dec_enc_small. Qed.

(** Events and geometry arrive.  The sixteen bytes the kernel writes for an
    event are decoded by the library as that event - the kind, signed coordinates, the low byte of a
    key - and those of a window's geometry as that geometry. *)
Theorem events_arrive ev x y w h :
  0 ≤ Wm.Wm.ev_kind ev < 2 ^ 32 → - 2 ^ 31 ≤ Wm.Wm.ev_x ev < 2 ^ 31 → - 2 ^ 31 ≤ Wm.Wm.ev_y ev < 2 ^ 31 → 0 ≤ Wm.Wm.ev_arg ev < 2 ^ 32 →
  - 2 ^ 31 ≤ x < 2 ^ 31 → - 2 ^ 31 ≤ y < 2 ^ 31 → 0 ≤ w < 2 ^ 32 → 0 ≤ h < 2 ^ 32 →
  event_from_bytes (Wm.Wm.event_to_bytes ev) = seen ev ∧
  info_from_bytes (le_enc 4 w ++ le_enc 4 h ++ le_enc 4 (wrap32 x) ++ le_enc 4 (wrap32 y)) = (x, y, w, h).
Proof.
  destruct ev as [k ex ey arg]. cbn [Wm.Wm.ev_kind Wm.Wm.ev_x Wm.Wm.ev_y Wm.Wm.ev_arg]. intros Hk Hex Hey Ha Hx Hy Hw Hh.
  pose proof (wrap_bounds 32 ex). pose proof (wrap_bounds 32 ey). pose proof (wrap_bounds 32 x). pose proof (wrap_bounds 32 y). split.
  - unfold event_from_bytes, Wm.Wm.event_to_bytes, seen, slice. cbn [Wm.Wm.ev_kind Wm.Wm.ev_x Wm.Wm.ev_y Wm.Wm.ev_arg].
    change 12%nat with (4 + (4 + 4))%nat. change 8%nat with (4 + 4)%nat. rewrite drop_0, !drop_app_add' by (by rewrite length_le_enc).
    rewrite (drop_app_length' (le_enc 4 k)), (drop_app_length' (le_enc 4 (wrap32 ex))), (drop_app_length' (le_enc 4 (wrap32 ey))) by (by rewrite length_le_enc).
    rewrite !dec_field by lia. rewrite <-(app_nil_r (le_enc 4 arg)), dec_field by lia. by rewrite !i32_wrap32.
  - unfold info_from_bytes, slice. change 12%nat with (4 + (4 + 4))%nat. change 8%nat with (4 + 4)%nat. rewrite drop_0, !drop_app_add' by (by rewrite length_le_enc).
    rewrite (drop_app_length' (le_enc 4 w)), (drop_app_length' (le_enc 4 h)), (drop_app_length' (le_enc 4 (wrap32 x))) by (by rewrite length_le_enc).
    rewrite !dec_field by lia. rewrite <-(app_nil_r (le_enc 4 (wrap32 y))), dec_field by lia. by rewrite !i32_wrap32.
Qed.

(** ** Concrete widgets *)

Definition demo_window : Window := MkWindow 7 4 3 (replicate 12 0).
Definition demo_button : @widget Z := WButton (on_click (Z.add 1) (button_new 1 1 3 2 [79; 75])).
Definition demo_panel : @widget Z := WPanel (MkRect (-2) 1 6 5) [demo_button; WTextBox (textbox_new 2 2 40); WPanel (MkRect 0 0 2 2) [WLabel (label_new 1 1 [72; 105])] WHITE] BLUE.

Example drawing_in_window_witness :
  ∃ win', draw demo_panel demo_window = (Ok tt, win') ∧ win_ok 7 4 3 win'.
Proof. apply (drawing_in_window demo_window demo_panel (-1) 1 3 (2 ^ 31 - 1) 5 [65; 10; 66]); [by split|by split|by split]. Defined.

Example textbox_edits_line_witness :
  ∃ x', press (MkTextBox (MkRect 0 0 40 24) [65; 66; 67] 2 true 4) [0x08; 90; 32; 90; 0x7F; 13] = Ok x' ∧ x_text x' = [65; 90; 32].
Proof.
  destruct (textbox_edits_line (MkTextBox (MkRect 0 0 40 24) [65; 66; 67] 2 true 4) ([65; 66], [67]) [0x08; 90; 32; 90; 0x7F; 13])
    as (x'&Hp&(Ht&_)&_); [split_and!; [done|repeat (constructor; [unfold ascii; lia|]); constructor|done]|done|].
  exists x'. split; [done|]. rewrite Ht. reflexivity.
Defined.

Example panel_moves_rigidly_witness : places (set_position 10 20 demo_panel) = [(10, 20); (13, 20); (14, 21); (12, 19); (13, 20)].
Proof.
  destruct (panel_moves_rigidly 10 20 demo_panel) as [-> _]; [done|done| |reflexivity].
  vm_compute. repeat split; done.
Defined.

Example events_arrive_witness :
  event_from_bytes (Wm.Wm.event_to_bytes (Wm.Wm.WmEvent Wm.Wm.EV_MOUSE_UP (-3) 70000 0)) = Some (MouseUp (-3) 70000).
Proof.
  destruct (events_arrive (Wm.Wm.WmEvent Wm.Wm.EV_MOUSE_UP (-3) 70000 0) (-1) 2 320 240) as [-> _]; done.
Defined.

(** A click is a press and a release inside; a release elsewhere forgets the press. *)
Definition run_events (evs : list Event) (v : @widget Z) (n : Z) : outcome Empty_set (@widget Z) * Z :=
  foldl (λ p ev, match p with (Ok v, n) => let (r, n) := handle_event ev v n in ((let? q := r in Ok q.2), n) | _ => p end) (Ok v, n) evs.
Example clicks_counted :
  (run_events [MouseDown 1 1; MouseUp 2 2; MouseUp 2 2; MouseDown 3 1; MouseUp 5 5; MouseUp 2 2] demo_button 0).2 = 1.
Proof. reflexivity. Qed.

(** Clicking from one text box into another that was added later leaves both with
    the focus: the panel stops at the first child that has handled the click. *)
Definition two_boxes : @widget Z := WPanel (MkRect 0 0 100 100) [WTextBox (textbox_new 0 0 40); WTextBox (textbox_new 0 50 40)] WHITE.
Definition focused_boxes (v : @widget Z) : list bool :=
  match v with WPanel _ ws _ => (λ w, match w with WTextBox x => x_focused x | _ => false end) <$> ws | _ => [] end.
Example two_boxes_focused :
  (focused_boxes <$> match (run_events [MouseDown 5 5; MouseDown 5 55] two_boxes 0).1 with Ok v => Some v | _ => None end) = Some [true; true].
Proof. reflexivity. Qed.

(** The cursor is counted in bytes: deleting a character that has two panics. *)
Example backspace_panics : textbox_key 0x08 (textbox_set_text [233] (textbox_new 0 0 40)) = Panic.
Proof. reflexivity. Qed.
