(* ===== verification/TextEdit.v ===== *)
(** * The text editor (userspace/texteditor)

    The document as lines of characters with a cursor, its keys, loading and saving
    through the system calls of [UserLib], and drawing into a window of [UserGui].
    The program's buffers and strings lie at [scratch]. *)

From stdpp Require Import pretty.
From S2P Require Import Prelude Capability Block VfsTable Vfs Signal Task Ipc Frames Paging Memory Bytes Elf UserMem Wm Net World Utf8 Syscall SyscallGate UserLib UserGui Widgets.

(** A number in [format!]. *)
Definition decimal (n : Z) : list Z := str (pretty n).

(** ** Pieces of text *)

(** [str::split(c)] into all pieces, and [join]. *)
Fixpoint split_on (c : Z) (s : list Z) : list (list Z) :=
  match s with
  | [] => [[]]
  | x :: s => if x =? c then [] :: split_on c s else
      match split_on c s with [] => [[x]] | l :: ls => (x :: l) :: ls end
  end.
Fixpoint join_with (c : Z) (ls : list (list Z)) : list Z :=
  match ls with
  | [] => []
  | [l] => l
  | l :: ls => l ++ c :: join_with c ls
  end.

(** ** The document *)

(** [userspace/texteditor/src/main.rs:12-12, !EDIT_PATH] *)
Definition EDIT_PATH : list Z := str "/tmp/scratch.txt".
(** [userspace/texteditor/src/main.rs:15-15, !WIN_W] *)
Definition WIN_W : Z := 320.
(** [userspace/texteditor/src/main.rs:16-16, !WIN_H] *)
Definition WIN_H : Z := 240.
(** [userspace/texteditor/src/main.rs:17-17, !MARGIN] *)
Definition MARGIN : Z := 8.
(** [userspace/texteditor/src/main.rs:18-18, !LINE_H] *)
Definition LINE_H : Z := 10.
(** [userspace/texteditor/src/main.rs:19-19, !TOP_BAR] *)
Definition TOP_BAR : Z := 24.
(** [userspace/texteditor/src/main.rs:20-20, !BOTTOM_BAR] *)
Definition BOTTOM_BAR : Z := 22.

(** [userspace/texteditor/src/main.rs:42-51, Editor] *)
Record Editor := MkEditor {
  e_window : Window; lines : list (list Z); cursor_row : nat; cursor_col : nat; scroll_row : nat;
  status : list Z; dirty : bool }.
Definition set_doc (ls : list (list Z)) (r c : nat) (d : bool) (e : Editor) : Editor :=
  MkEditor (e_window e) ls r c (scroll_row e) (status e) d.
Definition set_status (s : list Z) (e : Editor) : Editor :=
  MkEditor (e_window e) (lines e) (cursor_row e) (cursor_col e) (scroll_row e) s (dirty e).
Definition set_scroll (r : nat) (e : Editor) : Editor :=
  MkEditor (e_window e) (lines e) (cursor_row e) (cursor_col e) r (status e) (dirty e).
Abbreviation editing := (stm Editor Empty_set unit).

(** [userspace/texteditor/src/main.rs:262-267, char_to_byte]: the byte offset of a character is that many
    characters; beyond the end it is the end. *)
Definition char_to_byte (s : list Z) (k : nat) : nat := Nat.min k (length s).
(** [self.lines[row]] *)
Definition line_at (r : nat) : stm Editor Empty_set (list Z) := sread (λ e, or_panic (lines e !! r)).
(** [userspace/texteditor/src/main.rs:175-181, insert_char] *)
Definition insert_char (ch : Z) : editing :=
  let! r := sget cursor_row in
  let! line := line_at r in
  smodify (λ e, let i := char_to_byte line (cursor_col e) in
    set_doc (<[r := take i line ++ ch :: drop i line]> (lines e)) r (S (cursor_col e)) true e).
(** [userspace/texteditor/src/main.rs:183-192, newline] *)
Definition newline : editing :=
  let! r := sget cursor_row in
  let! line := line_at r in
  smodify (λ e, let i := char_to_byte line (cursor_col e) in
    set_doc (take r (lines e) ++ [take i line; drop i line] ++ drop (S r) (lines e)) (S r) 0 true e).
(** [userspace/texteditor/src/main.rs:194-209, backspace]; removing at the end of a line would panic. *)
Definition backspace : editing :=
  let! r := sget cursor_row in
  let! c := sget cursor_col in
  match c with
  | S c =>
      let! line := line_at r in
      let i := char_to_byte line c in
      if decide (i < length line)%nat
      then smodify (λ e, set_doc (<[r := take i line ++ drop (S i) line]> (lines e)) r c true e)
      else slift Panic
  | O =>
      match r with
      | S r' =>
          let! cur := line_at r in
          let! prev := line_at r' in
          smodify (λ e, set_doc (take r' (lines e) ++ [prev ++ cur] ++ drop (S r) (lines e)) r' (length prev) true e)
      | O => sret tt
      end
  end.
(** [userspace/texteditor/src/main.rs:122-124, visible_rows] *)
Definition visible_rows : nat := Z.to_nat (Z.quot (WIN_H - TOP_BAR - BOTTOM_BAR) LINE_H).
(** [userspace/texteditor/src/main.rs:126-133, ensure_cursor_visible] *)
Definition ensure_cursor_visible (e : Editor) : Editor :=
  if decide (cursor_row e < scroll_row e)%nat then set_scroll (cursor_row e) e else
  if decide (scroll_row e + visible_rows ≤ cursor_row e)%nat then set_scroll (cursor_row e - visible_rows + 1) e else e.
(** [userspace/texteditor/src/main.rs:242-252, !run]: a click puts the cursor there. *)
Definition click (x y : Z) : editing := λ e,
  if (TOP_BAR <=? y) && (y <? WIN_H - BOTTOM_BAR) then
    let r := (scroll_row e + Z.to_nat (Z.max (Z.quot (i32 (y - TOP_BAR - 4)) LINE_H) 0))%nat in
    match lines e !! r with
    | Some line => (Ok tt, set_doc (lines e) r (Nat.min (Z.to_nat (Z.max (Z.quot (i32 (x - MARGIN)) GLYPH_W) 0)) (length line)) (dirty e) e)
    | None => (Ok tt, e)
    end
  else (Ok tt, e).
(** The keys that only change the document. *)
Definition edit_key (k : Z) : editing :=
  if (k =? 10) || (k =? 13) then newline else
  if (k =? 0x08) || (k =? 0x7F) then backspace else
  if (0x20 <=? k) && (k <? 0x7F) then insert_char k else sret tt.

(** ** Drawing *)

(** A drawing call on the editor's window. *)
Definition paint (f : stm Window Empty_set unit) : editing := λ e,
  let p := f (e_window e) in
  (p.1, MkEditor p.2 (lines e) (cursor_row e) (cursor_col e) (scroll_row e) (status e) (dirty e)).
(** The line at [row], and the cursor if it is there. *)
Definition draw_line (start : nat) (e : Editor) (row : nat) : editing :=
  let y := TOP_BAR + 4 + i32 (Z.of_nat (row - start) * LINE_H) in
  let! line := line_at row in
  let! _ := paint (draw_string line MARGIN y (to_u32 Widgets.WHITE)) in
  if decide (row = cursor_row e)
  then paint (fill_rect (i32 (MARGIN + i32 (i32 (Z.of_nat (cursor_col e)) * GLYPH_W))) y 1 GLYPH_H (to_u32 YELLOW))
  else sret tt.
Definition draw_parts (e : Editor) : editing :=
  let white := to_u32 Widgets.WHITE in
  let start := scroll_row e in
  let stop := Nat.min (start + visible_rows) (length (lines e)) in
  let! _ := paint (clear (to_u32 (RGB 30 30 40))) in
  let! _ := paint (fill_rect 0 0 WIN_W TOP_BAR (to_u32 BLUE)) in
  let! _ := paint (draw_string (str (if dirty e then "Text Editor *" else "Text Editor")) MARGIN 8 white) in
  let! _ := sfor (seq start (stop - start)) (draw_line start e) in
  let by_ := WIN_H - BOTTOM_BAR in
  let! _ := paint (fill_rect 0 by_ WIN_W BOTTOM_BAR (to_u32 DARK_GRAY)) in
  paint (draw_string (str "L" ++ decimal (Z.of_nat (cursor_row e) + 1) ++ str ":C" ++ decimal (Z.of_nat (cursor_col e) + 1) ++ str "  " ++ status e)
    MARGIN (by_ + 6) white).
(** [userspace/texteditor/src/main.rs:135-170, !draw]: everything before the commit. *)
Definition draw_all : editing := λ e, draw_parts e e.

(** ** Files and the window *)

Section program.
Context {C D : Type} `{Con : Console C} `{Prn : Printer C} `{Nt : Net.Smoltcp} `{BD : BlockDev D}
  `{Pg : Paging} `{Ad : Addresses} `{Cp : Processor} `{Sel : Selectors} `{Um : Unmapper}.
Abbreviation skernel := (kernel (@world C D Nt)).
Abbreviation svfs := (vfs (@devices C Nt) D).
Abbreviation user A := (stm (@machine C D Nt) astray A).
Variables (others : list (skernel → skernel)) (vothers : list (svfs → svfs)) (scratch : Z).

(** A string of the program, passed by reference. *)
Definition with_text {A} (s : list Z) (f : slice_ref → user A) : user A :=
  let b := mjoin (encode_utf8 <$> s) in
  let! _ := store_local scratch b in f (Slice scratch (Z.of_nat (length b))).
(** [userspace/libpickleos/src/lib.rs:79-87, !println] *)
Definition println (s : list Z) : user unit :=
  let! _ := with_text s (sys_print others vothers) in with_text [10] (sys_print others vothers).
(** A method of the program that makes no call. *)
Definition pure_step {S A} (f : stm S Empty_set A) (s : S) : user (A * S) := λ m,
  let p := f s in
  (match p.1 with Ok a => Ok (a, p.2) | Err e => match e with end | Panic => Panic | Diverge => Diverge end, m).
Definition step (f : editing) (e : Editor) : user Editor := smap snd (pure_step f e).

(** The read loop of [load], with fuel. *)
Fixpoint read_all (fuel : nat) (fd : Z) (data : bytes) : user bytes :=
  match fuel with
  | O => slift Diverge
  | S fuel =>
      let! _ := store_local scratch (replicate 256 0) in
      let! n := sys_read others vothers fd (Slice scratch 256) in
      if (n =? u64_max) || (n =? 0) then sret data else
      if 256 <? n then slift Panic else
      let! b := load_local scratch (Z.to_nat n) in
      read_all fuel fd (data ++ b)
  end.
(** [userspace/texteditor/src/main.rs:72-96, load] *)
Definition load (fuel : nat) (e : Editor) : user Editor :=
  let! fd := with_text EDIT_PATH (λ p, sys_open others vothers p O_RDONLY) in
  if fd =? u64_max then sret (set_status (str "New file: " ++ EDIT_PATH) e) else
  let! data := read_all fuel (wrap32 fd) [] in
  let! _ := sys_close others vothers (wrap32 fd) in
  sret (set_status (str "Loaded " ++ decimal (Z.of_nat (length data)) ++ str " bytes")
    (set_doc (split_on 10 (decode_lossy data)) (cursor_row e) (cursor_col e) (dirty e) e)).
(** The write loop of [save]: how much was written. *)
Fixpoint write_all (fuel : nat) (fd : Z) (rest : bytes) (written : Z) : user Z :=
  match fuel with
  | O => slift Diverge
  | S fuel =>
      match rest with
      | [] => sret written
      | _ =>
          let! _ := store_local scratch rest in
          let! n := sys_write others vothers fd (Slice scratch (Z.of_nat (length rest))) in
          if (n =? u64_max) || (n =? 0) then sret written else
          if Z.of_nat (length rest) <? n then slift Panic else
          write_all fuel fd (drop (Z.to_nat n) rest) (written + n)
      end
  end.
(** What [save] writes. *)
Definition content (ls : list (list Z)) : bytes := mjoin (encode_utf8 <$> (join_with 10 ls ++ [10])).
(** [userspace/texteditor/src/main.rs:98-120, save] *)
Definition save (e : Editor) : user Editor :=
  let! fd := with_text EDIT_PATH (λ p, sys_open others vothers p (Z.lor O_WRONLY (Z.lor O_CREAT O_TRUNC))) in
  if fd =? u64_max then sret (set_status (str "Save failed: open error") e) else
  let b := content (lines e) in
  let! written := write_all (S (length b)) (wrap32 fd) b 0 in
  let! _ := sys_close others vothers (wrap32 fd) in
  sret (set_status (str "Saved " ++ decimal written ++ str " bytes to " ++ EDIT_PATH)
    (set_doc (lines e) (cursor_row e) (cursor_col e) false e)).

(** [userspace/texteditor/src/main.rs:54-70, !Editor::new] *)
Definition editor_new (fuel : nat) : user (string + Editor) :=
  let! w := with_text (str "Text Editor") (create others vothers WIN_W WIN_H) in
  match w with
  | None => sret (inl "window create failed"%string)
  | Some w =>
      let! e := load fuel (MkEditor w [] 0 0 0 (str "Ctrl-S=Save  ESC=Quit") false) in
      sret (inr (match lines e with [] => set_doc [[]] (cursor_row e) (cursor_col e) (dirty e) e | _ => e end))
  end.
(** [userspace/texteditor/src/main.rs:135-173, draw] *)
Definition draw (e : Editor) : user Editor :=
  let! e := step draw_all e in
  let! _ := commit others vothers scratch (e_window e) in sret e.
(** [userspace/texteditor/src/main.rs:215-228, handle_key]: whether to quit. *)
Definition handle_key (k : Z) (e : Editor) : user (bool * Editor) :=
  if k =? 0x1B then sret (true, e) else
  let! e := (if k =? 0x13 then save e else step (edit_key k) e) in
  sret (false, ensure_cursor_visible e).
(** The events that are waiting, with fuel. *)
Fixpoint drain (fuel : nat) (e : Editor) : user (bool * Editor) :=
  match fuel with
  | O => slift Diverge
  | S fuel =>
      let! ev := poll_event others vothers scratch (e_window e) in
      match ev with
      | None => sret (false, e)
      | Some (Key k) => let! p := handle_key k e in if p.1 : bool then sret p else drain fuel p.2
      | Some Close => sret (true, e)
      | Some (MouseDown x y) => let! e := step (click x y) e in drain fuel e
      | Some _ => drain fuel e
      end
  end.
(** [userspace/texteditor/src/main.rs:230-258, !run] *)
Fixpoint run (fuel : nat) (e : Editor) : user Editor :=
  match fuel with
  | O => slift Diverge
  | S fuel =>
      let! e := draw e in
      let! p := drain fuel e in
      if p.1 : bool then sret p.2 else
      let! _ := sys_yield others vothers in run fuel p.2
  end.
(** [userspace/texteditor/src/main.rs:23-40, _start] *)
Definition start (fuel : nat) : user unit :=
  let! h := init_heap others vothers in
  let! _ := match h with
            | inl e =>
                let! _ := with_text (str "texteditor: heap init failed: ") (sys_print others vothers) in
                let! _ := with_text (str e) (sys_print others vothers) in
                let! _ := with_text [10] (sys_print others vothers) in
                sys_exit others vothers 1
            | inr _ => sret tt
            end in
  let! _ := println (str "[texteditor] Starting Text Editor") in
  let! r := editor_new fuel in
  match r with
  | inr e => let! e := run fuel e in let! _ := destroy others vothers (e_window e) in sys_exit others vothers 0
  | inl e => let! _ := println (str "[texteditor] Error: " ++ str e) in sys_exit others vothers 1
  end.
End program.
