(* ===== verification/TextEditProps.v ===== *)
(** * The text editor edits its text *)

From S2P Require Import Prelude Canvas Capability Block VfsTable Vfs Signal Task Ipc Frames Paging Memory Bytes Elf UserMem Wm Net World Utf8 Syscall SyscallGate UserLib UserGui Widgets WidgetsProps TextEdit.

#[local] Ltac Zify.zify_post_hook ::= Z.to_euclidean_division_equations.

(** ** Lines as a text with a cursor *)

(** What is before the cursor, and what is after. *)
Definition view (e : Editor) : list Z * list Z :=
  let line := default [] (lines e !! cursor_row e) in
  (concat ((λ l, l ++ [10]) <$> take (cursor_row e) (lines e)) ++ take (cursor_col e) line,
   drop (cursor_col e) line ++ concat ((λ l, 10 :: l) <$> drop (S (cursor_row e)) (lines e))).
Definition type_into (v : list Z * list Z) (k : Z) : list Z * list Z :=
  if (k =? 10) || (k =? 13) then (v.1 ++ [10], v.2) else
  if (k =? 0x08) || (k =? 0x7F) then (take (length v.1 - 1) v.1, v.2) else
  if (0x20 <=? k) && (k <? 0x7F) then (v.1 ++ [k], v.2) else v.
Record doc_ok (e : Editor) : Prop := {
  do_line : ∃ line, lines e !! cursor_row e = Some line ∧ (cursor_col e ≤ length line)%nat;
  do_lines : Forall (λ l, 10 ∉ l) (lines e);
}.
Definition cursor_visible (e : Editor) : Prop := (scroll_row e ≤ cursor_row e < scroll_row e + visible_rows)%nat.

Lemma lines_split (ls : list (list Z)) r line : ls !! r = Some line → ls = take r ls ++ line :: drop (S r) ls.
Proof. intros H. symmetry. by apply take_drop_middle. Qed.

(** The text is the lines, joined. *)
Lemma join_cons line (as_ : list (list Z)) : line ++ concat ((λ l, 10 :: l) <$> as_) = join_with 10 (line :: as_).
Proof. revert line. induction as_ as [|a as_ IH]; intros line; [by rewrite app_nil_r|]. cbn [fmap list_fmap concat]. change (join_with 10 (line :: a :: as_)) with (line ++ 10 :: join_with 10 (a :: as_)). by rewrite <-IH. Qed.
Lemma concat_join (bs : list (list Z)) line (as_ : list (list Z)) :
  concat ((λ l, l ++ [10]) <$> bs) ++ line ++ concat ((λ l, 10 :: l) <$> as_) = join_with 10 (bs ++ line :: as_).
Proof.
  induction bs as [|b bs IH]; [apply join_cons|]. cbn [fmap list_fmap concat app].
  rewrite <-!app_assoc, IH. cbn [app join_with]. by destruct bs.
Qed.
Lemma view_text e : doc_ok e → (view e).1 ++ (view e).2 = join_with 10 (lines e).
Proof.
  intros [(line&Hl&Hc) _]. unfold view. rewrite Hl. cbn [default fst snd]. rewrite <-app_assoc, (app_assoc (take _ line)), take_drop, concat_join.
  f_equal. by apply take_drop_middle.
Qed.

(** A document of lines before, the line in two parts, and lines after. *)
Record at_cursor (e : Editor) (bs : list (list Z)) (a b : list Z) (as_ : list (list Z)) : Prop := {
  ac_lines : lines e = bs ++ (a ++ b) :: as_;
  ac_row : cursor_row e = length bs;
  ac_col : cursor_col e = length a;
}.
Lemma at_cursor_view e bs a b as_ : at_cursor e bs a b as_ →
  view e = (concat ((λ l, l ++ [10]) <$> bs) ++ a, b ++ concat ((λ l, 10 :: l) <$> as_)).
Proof.
  intros [Hl Hr Hc]. unfold view. rewrite Hl, Hr, Hc, list_lookup_middle by done. change (default [] (Some (a ++ b))) with (a ++ b). rewrite take_app_length.
  replace (S (length bs)) with (length bs + 1)%nat by lia. rewrite drop_app_add. cbn [drop]. by rewrite take_app_length, drop_app_length.
Qed.
Lemma doc_at_cursor e : doc_ok e → ∃ bs a b as_, at_cursor e bs a b as_ ∧ Forall (λ l, 10 ∉ l) (bs ++ (a ++ b) :: as_).
Proof.
  intros [(line&Hl&Hc) Hn]. exists (take (cursor_row e) (lines e)), (take (cursor_col e) line), (drop (cursor_col e) line), (drop (S (cursor_row e)) (lines e)).
  pose proof (lookup_lt_Some _ _ _ Hl). rewrite take_drop, take_drop_middle by done. split; [|done].
  split; [by rewrite take_drop, take_drop_middle|rewrite length_take; lia|rewrite length_take; lia].
Qed.
Lemma at_cursor_doc e bs a b as_ : at_cursor e bs a b as_ → Forall (λ l, 10 ∉ l) (bs ++ (a ++ b) :: as_) → doc_ok e.
Proof.
  intros [Hl Hr Hc] Hn. split; [|by rewrite Hl]. exists (a ++ b). rewrite Hl, Hr, Hc, list_lookup_middle by done. split; [done|]. rewrite length_app. lia.
Qed.

(** The call changes the view to [v], and nothing else of the editor but its lines. *)
Definition edits (f : stm Editor Empty_set unit) (e : Editor) (v : list Z * list Z) : Prop := ∃ e',
  f e = (Ok tt, e') ∧ doc_ok e' ∧ view e' = v ∧ scroll_row e' = scroll_row e ∧ e_window e' = e_window e.
Lemma edits_cut f e e' bs a b as_ v : f e = (Ok tt, e') → at_cursor e' bs a b as_ → Forall (λ l, 10 ∉ l) (bs ++ (a ++ b) :: as_) →
  v = (concat ((λ l, l ++ [10]) <$> bs) ++ a, b ++ concat ((λ l, 10 :: l) <$> as_)) →
  scroll_row e' = scroll_row e → e_window e' = e_window e → edits f e v.
Proof. intros Hr Hc Hn -> Hs Hw. exists e'. split_and!; [done|by eapply at_cursor_doc|by apply at_cursor_view|done|done]. Qed.

Section keys.
Context (e : Editor) (bs : list (list Z)) (a b : list Z) (as_ : list (list Z)).
Context (Hcut : at_cursor e bs a b as_) (Hn : Forall (λ l, 10 ∉ l) (bs ++ (a ++ b) :: as_)).

Lemma line_here : line_at (cursor_row e) e = (Ok (a ++ b), e).
Proof using Hcut. destruct Hcut as [Hl Hr Hc]. unfold line_at, sread. by rewrite Hl, Hr, list_lookup_middle. Qed.
Lemma lines_around : take (cursor_row e) (lines e) = bs ∧ drop (S (cursor_row e)) (lines e) = as_.
Proof using Hcut.
  destruct Hcut as [Hl Hr Hc]. rewrite Hl, Hr, take_app_length. replace (S (length bs)) with (length bs + 1)%nat by lia. by rewrite drop_app_add.
Qed.
Lemma no_newlines : Forall (λ l, 10 ∉ l) bs ∧ 10 ∉ a ∧ 10 ∉ b ∧ Forall (λ l, 10 ∉ l) as_.
Proof using Hn. apply Forall_app in Hn as [? [Hab ?]%Forall_cons]. apply not_elem_of_app in Hab. tauto. Qed.
Lemma lines_set l : <[cursor_row e := l]> (lines e) = bs ++ l :: as_.
Proof using Hcut. destruct Hcut as [Hl Hr Hc]. rewrite Hl, Hr. by rewrite insert_app_r_alt, Nat.sub_diag by lia. Qed.

Lemma newline_at : edits newline e (concat ((λ l, l ++ [10]) <$> bs) ++ a ++ [10], b ++ concat ((λ l, 10 :: l) <$> as_)).
Proof using All.
  destruct no_newlines as (Hbs&Ha&Hb&Has). destruct lines_around as [Ht Hd]. pose proof (ac_row _ _ _ _ _ Hcut) as Hr. pose proof (ac_col _ _ _ _ _ Hcut) as Hc.
  eapply (edits_cut _ _ (set_doc (bs ++ [a; b] ++ as_) (S (cursor_row e)) 0 true e) (bs ++ [a]) [] b as_); [|split; cbn| | |done..].
  - unfold newline, sget, sbind at 1. rewrite (sbind_Ok _ _ _ _ _ line_here). unfold smodify, char_to_byte.
    by rewrite Hc, length_app, Nat.min_l, take_app_length, drop_app_length, Ht, Hd by lia.
  - by rewrite <-app_assoc.
  - rewrite Hr, length_app. simpl. lia.
  - done.
  - rewrite !Forall_app, !Forall_cons. cbn. split_and!; done.
  - by rewrite app_nil_r, fmap_app, concat_app; cbn; rewrite app_nil_r, <-?app_assoc.
Qed.
Lemma insert_at k : k ≠ 10 → edits (insert_char k) e ((concat ((λ l, l ++ [10]) <$> bs) ++ a) ++ [k], b ++ concat ((λ l, 10 :: l) <$> as_)).
Proof using All.
  intros Hk. destruct no_newlines as (Hbs&Ha&Hb&Has). pose proof (ac_row _ _ _ _ _ Hcut) as Hr. pose proof (ac_col _ _ _ _ _ Hcut) as Hc.
  eapply (edits_cut _ _ (set_doc (bs ++ (a ++ k :: b) :: as_) (cursor_row e) (S (cursor_col e)) true e) bs (a ++ [k]) b as_); [|split; cbn| | |done..].
  - unfold insert_char, sget, sbind at 1. rewrite (sbind_Ok _ _ _ _ _ line_here). unfold smodify, char_to_byte.
    by rewrite Hc, length_app, Nat.min_l, take_app_length, drop_app_length, lines_set by lia.
  - by rewrite <-app_assoc.
  - done.
  - rewrite Hc, length_app. simpl. lia.
  - rewrite Forall_app, Forall_cons, !not_elem_of_app, list_elem_of_singleton. by split_and!.
  - by rewrite <-app_assoc.
Qed.
End keys.

Lemma drop_last {A} (l : list A) x : take (length (l ++ [x]) - 1) (l ++ [x]) = l.
Proof. rewrite length_app. replace (length l + length [x] - 1)%nat with (length l) by (simpl; lia). apply take_app_length. Qed.
Lemma backspace_at e bs a b as_ : at_cursor e bs a b as_ → Forall (λ l, 10 ∉ l) (bs ++ (a ++ b) :: as_) → edits backspace e
  (take (length (concat ((λ l, l ++ [10]) <$> bs) ++ a) - 1) (concat ((λ l, l ++ [10]) <$> bs) ++ a), b ++ concat ((λ l, 10 :: l) <$> as_)).
Proof.
  intros Hcut Hn. pose proof (line_here _ _ _ _ _ Hcut) as Hline. destruct (lines_around _ _ _ _ _ Hcut) as [Ht Hd].
  destruct (no_newlines _ _ _ _ Hn) as (Hbs&Ha&Hb&Has). pose proof Hcut as [Hl Hr Hc].
  destruct a as [|x a _] using rev_ind; [destruct bs as [|bl bs _] using rev_ind|].
  - eapply (edits_cut _ _ e [] [] b as_); [|done..]. unfold backspace, sget, sbind at 1, sbind at 1. by rewrite Hr, Hc.
  - apply Forall_app in Hbs as [Hbs [Hbl _]%Forall_cons].
    eapply (edits_cut _ _ (set_doc (bs ++ [bl ++ b] ++ as_) (length bs) (length bl) true e) bs bl b as_); [|done| | |done..].
    + unfold backspace, sget, sbind at 1, sbind at 1. rewrite Hc, Hr in *. rewrite length_app, Nat.add_1_r in *. cbn [length].
      rewrite (sbind_Ok _ _ _ _ _ Hline).
      assert (line_at (length bs) e = (Ok bl, e)) as Hprev.
      { unfold line_at, sread. rewrite Hl, <-app_assoc; cbn [app]; by rewrite list_lookup_middle. }
      rewrite (sbind_Ok _ _ _ _ _ Hprev). unfold smodify. rewrite Hd. do 3 f_equal. rewrite Hl, <-app_assoc. by rewrite take_app_length.
    + rewrite Forall_app, Forall_cons, not_elem_of_app. by split_and!.
    + rewrite !app_nil_r, fmap_app, concat_app. cbn. by rewrite app_nil_r, app_assoc, drop_last.
  - apply not_elem_of_app in Ha as [Ha _].
    eapply (edits_cut _ _ (set_doc (bs ++ (a ++ b) :: as_) (cursor_row e) (length a) true e) bs a b as_); [|done| | |done..].
    + unfold backspace, sget, sbind at 1, sbind at 1. rewrite Hc, length_app, Nat.add_1_r. cbn [length]. rewrite (sbind_Ok _ _ _ _ _ Hline).
      unfold char_to_byte. rewrite !length_app, Nat.min_l, decide_True by (simpl; lia). unfold smodify. do 3 f_equal.
      rewrite (lines_set _ _ _ _ _ Hcut). do 2 f_equal. rewrite <-!app_assoc, take_app_length. f_equal.
      replace (S (length a)) with (length a + 1)%nat by lia. by rewrite drop_app_add.
    + rewrite Forall_app, Forall_cons, not_elem_of_app. by split_and!.
    + by rewrite app_assoc, drop_last.
Qed.

Lemma edit_key_edits e k : doc_ok e → edits (edit_key k) e (type_into (view e) k).
Proof.
  intros Hd. destruct (doc_at_cursor e Hd) as (bs&a&b&as_&Hcut&Hn). rewrite (at_cursor_view _ _ _ _ _ Hcut). unfold edit_key, type_into. cbn [fst snd].
  destruct ((k =? 10) || (k =? 13)); [rewrite <-app_assoc; by eapply newline_at|].
  destruct ((k =? 8) || (k =? 127)); [by eapply backspace_at|].
  destruct ((32 <=? k) && (k <? 127)) eqn:Hk; [eapply insert_at; [done..|lia]|].
  exists e. by rewrite (at_cursor_view _ _ _ _ _ Hcut).
Qed.
Lemma ensure_visible e : cursor_visible (ensure_cursor_visible e) ∧ view (ensure_cursor_visible e) = view e ∧
  (doc_ok e → doc_ok (ensure_cursor_visible e)) ∧ e_window (ensure_cursor_visible e) = e_window e.
Proof.
  assert (visible_rows = 19%nat) as Hv by reflexivity. unfold ensure_cursor_visible, cursor_visible. rewrite Hv.
  repeat case_decide; (split_and!; [cbn; lia|cbn; lia|done|by intros []|done]).
Qed.

(** ** Decoding *)

Lemma split_line l s : 10 ∉ l → split_on 10 (l ++ 10 :: s) = l :: split_on 10 s.
Proof.
  induction l as [|x l IH]; intros Hl; cbn [app split_on]; [done|]. apply not_elem_of_cons in Hl as [Hx Hl].
  destruct (Z.eqb_spec x 10); [congruence|]. by rewrite IH.
Qed.
Lemma split_join ls : ls ≠ [] → Forall (λ l, 10 ∉ l) ls → split_on 10 (join_with 10 ls ++ [10]) = ls ++ [[]].
Proof.
  intros Hne Hls. induction Hls as [|l ls Hl Hls IH]; [done|]. destruct ls as [|l' ls]; [by apply split_line|].
  change (join_with 10 (l :: l' :: ls)) with (l ++ 10 :: join_with 10 (l' :: ls)). rewrite <-app_assoc. cbn [app].
  rewrite split_line by done. by rewrite IH.
Qed.

Lemma join_snoc c (ls : list (list Z)) : ls ≠ [] → join_with c (ls ++ [[]]) = join_with c ls ++ [c].
Proof.
  induction ls as [|l [|l' ls] IH]; intros Hne; [done|done|].
  change (l ++ c :: join_with c ((l' :: ls) ++ [[]]) = (l ++ c :: join_with c (l' :: ls)) ++ [c]).
  rewrite IH by done. by rewrite <-app_assoc.
Qed.

(** What is saved is loaded back - and one line more.  The bytes [save] writes
    for a document are split by [load] into the same lines followed by an empty one: every round of
    saving and loading adds a line to the file. *)
Theorem saved_lines_return ls : ls ≠ [] → Forall (λ l, 10 ∉ l) ls → Forall (Forall scalar) ls →
  split_on 10 (decode_lossy (content ls)) = ls ++ [[]] ∧ content (ls ++ [[]]) = content ls ++ [10].
Proof.
  intros Hne Hls Hs. split.
  - unfold content. rewrite decode_text; [by apply split_join|]. apply Forall_app. split; [|constructor; [|done]; unfold scalar; lia].
    clear Hne Hls. induction Hs as [|l ls Hl Hs IH]; [constructor|]. destruct ls; [done|].
    change (Forall scalar (l ++ 10 :: join_with 10 (l0 :: ls))). apply Forall_app. split; [done|]. constructor; [unfold scalar; lia|done].
  - unfold content. rewrite join_snoc by done. by rewrite !fmap_app, !join_app.
Qed.

(** ** The program *)

(** What the user does, and what it may do to a text with a cursor: keys edit
    at the cursor, a click puts it anywhere in the text. *)
Inductive action : Type := APress (k : Z) | AClick (x y : Z).
Definition plain_action (a : action) : Prop := match a with APress k => k ≠ 0x1B ∧ k ≠ 0x13 | AClick _ _ => True end.
Inductive follows : list Z * list Z → list action → list Z * list Z → Prop :=
| follows_nil v : follows v [] v
| follows_press v k acts v' : follows (type_into v k) acts v' → follows v (APress k :: acts) v'
| follows_click v v1 x y acts v' : v1.1 ++ v1.2 = v.1 ++ v.2 → follows v1 acts v' → follows v (AClick x y :: acts) v'.

Lemma click_keeps x y e : doc_ok e → ∃ e', click x y e = (Ok tt, e') ∧ doc_ok e' ∧ lines e' = lines e ∧ e_window e' = e_window e.
Proof.
  intros Hd. unfold click. destruct (_ && _); [|by exists e]. set (r := (scroll_row e + _)%nat). set (c := Z.to_nat (Z.max (Z.quot (i32 (x - MARGIN)) GLYPH_W) 0)).
  clearbody r c. destruct (lines e !! r) as [line|] eqn:Hl; [|by exists e].
  eexists. split; [done|]. split; [|done]. destruct Hd as [_ Hn]. split; [|done]. exists line. split; [done|]. cbn. lia.
Qed.

(** Painting keeps the document. *)
Section painting.
Context (id w h : Z) (Hw : 0 ≤ w < 2 ^ 31) (Hh : 0 ≤ h < 2 ^ 31).
Definition with_window (win : Window) (e : Editor) : Editor :=
  MkEditor win (lines e) (cursor_row e) (cursor_col e) (scroll_row e) (status e) (dirty e).
Definition paints_on (f : stm Editor Empty_set unit) (e : Editor) : Prop :=
  ∀ win, win_ok id w h win → ∃ win', f (with_window win e) = (Ok tt, with_window win' e) ∧ win_ok id w h win'.
Lemma paints_on_paint f e : draws id w h f → paints_on (paint f) e.
Proof. intros [a Ha] win Hwin. destruct (Ha win Hwin) as (win'&Hr&Hok&_). exists win'. unfold paint. cbn [e_window with_window]. by rewrite Hr. Qed.
Lemma paints_on_then f g e : paints_on f e → paints_on g e → paints_on (let! _ := f in g) e.
Proof. intros Hf Hg win Hwin. destruct (Hf win Hwin) as (w1&Hr&Hok). rewrite (sbind_Ok _ _ _ _ _ Hr). by apply Hg. Qed.
Lemma paints_on_nothing e : paints_on (sret tt) e.
Proof. intros win Hwin. by exists win. Qed.
Lemma paints_on_for {A} (l : list A) f e : (∀ k, k ∈ l → paints_on (f k) e) → paints_on (sfor l f) e.
Proof.
  induction l as [|k l IH]; intros H; [apply paints_on_nothing|]. apply paints_on_then; [apply H; left|]. apply IH. intros j Hj. apply H. by right.
Qed.
Lemma draw_all_ok e : win_ok id w h (e_window e) → ∃ win', draw_all e = (Ok tt, with_window win' e) ∧ win_ok id w h win'.
Proof using Hw Hh.
  intros Hwin. enough (paints_on (draw_parts e) e) as Hp.
  { destruct (Hp _ Hwin) as (win'&Hr&Hok). exists win'. split; [|done]. unfold draw_all. rewrite <-Hr. by destruct e. }
  unfold draw_parts. apply paints_on_then; [by apply paints_on_paint, drawn_clear|].
  apply paints_on_then; [by apply paints_on_paint, drawn_rect|]. apply paints_on_then; [by apply paints_on_paint, drawn_string|].
  apply paints_on_then; [|apply paints_on_then; [by apply paints_on_paint, drawn_rect|by apply paints_on_paint, drawn_string]].
  apply paints_on_for. intros row Hrow%elem_of_seq. unfold draw_line.
  destruct (lookup_lt_is_Some_2 (lines e) row) as [line Hl]; [lia|].
  intros win Hwin'. assert (line_at row (with_window win e) = (Ok line, with_window win e)) as Hline by (unfold line_at, sread; cbn; by rewrite Hl).
  rewrite (sbind_Ok _ _ _ _ _ Hline). revert win Hwin' Hline. intros win Hwin' _.
  match goal with |- ∃ _, ?f _ = _ ∧ _ => change (∃ win', f (with_window win e) = (Ok tt, with_window win' e) ∧ win_ok id w h win') end.
  apply (paints_on_then _ _ e); [by apply paints_on_paint, drawn_string| |done].
  case_decide; [by apply paints_on_paint, drawn_rect|apply paints_on_nothing].
Qed.
End painting.

Section program.
Context {C D : Type} `{Con : Console C} `{Prn : Printer C} `{Nt : Net.Smoltcp} `{BD : BlockDev D}
  `{Pg : Paging} `{Ad : Addresses} `{Cp : Processor} `{Sel : Selectors} `{Um : Unmapper}.
Variables (others : list (kernel (@world C D Nt) → kernel (@world C D Nt))) (vothers : list (vfs (@devices C Nt) D → vfs (@devices C Nt) D)) (scratch : Z).

(** One action of the user, as the event loop of the program answers it. *)
Definition act (a : action) (e : Editor) : stm (@machine C D Nt) astray Editor :=
  match a with
  | APress k => smap snd (handle_key others vothers scratch k e)
  | AClick x y => step (click x y) e
  end.
Fixpoint act_all (acts : list action) (e : Editor) : stm (@machine C D Nt) astray Editor :=
  match acts with [] => sret e | a :: acts => let! e := act a e in act_all acts e end.

Lemma step_run (f : stm Editor Empty_set unit) e e' (m : @machine C D Nt) : f e = (Ok tt, e') → step f e m = (Ok e', m).
Proof. intros Hf. unfold step, smap, pure_step, sbind. by rewrite Hf. Qed.
Lemma act_runs a e m : doc_ok e → plain_action a → ∃ e', act a e m = (Ok e', m) ∧ doc_ok e' ∧ e_window e' = e_window e ∧
  match a with
  | APress k => view e' = type_into (view e) k ∧ cursor_visible e'
  | AClick _ _ => lines e' = lines e
  end.
Proof.
  intros Hd Ha. destruct a as [k|x y]; cbn [act].
  - destruct Ha as [H1 H2]. destruct (edit_key_edits e k Hd) as (e1&Hr&Hd1&Hv1&_&Hw1). unfold handle_key, smap.
    destruct (Z.eqb_spec k 0x1B), (Z.eqb_spec k 0x13); try done. unfold sbind at 1, sbind at 1. rewrite (step_run _ _ _ _ Hr).
    destruct (ensure_visible e1) as (Hvis&Hv&Hdoc&Hw). exists (ensure_cursor_visible e1). split; [done|]. split; [by apply Hdoc|]. split; [congruence|]. split; [congruence|done].
  - destruct (click_keeps x y e Hd) as (e1&Hr&Hd1&Hl&Hw). exists e1. by rewrite (step_run _ _ _ _ Hr).
Qed.

(** C39: The editor edits the text.  Whatever is typed and clicked - save and
    quit aside - never panics and makes no call; the lines always spell a text that the keys
    have edited at the cursor as in a flat text, newlines and backspaces across lines
    included; after a key the cursor is on the screen, and drawing always succeeds. *)
Theorem editor_edits_text acts e m : doc_ok e → Forall plain_action acts → win_ok (win_id (e_window e)) WIN_W WIN_H (e_window e) →
  ∃ e', act_all acts e m = (Ok e', m) ∧ doc_ok e' ∧ (view e').1 ++ (view e').2 = join_with 10 (lines e') ∧
    follows (view e) acts (view e') ∧
    match last acts with Some (APress _) => cursor_visible e' | _ => True end ∧
    ∃ win', draw_all e' = (Ok tt, with_window win' e') ∧ win_ok (win_id (e_window e)) WIN_W WIN_H win'.
Proof.
  intros Hd Ha Hw.
  enough (∃ e', act_all acts e m = (Ok e', m) ∧ doc_ok e' ∧ e_window e' = e_window e ∧ follows (view e) acts (view e') ∧
    match last acts with Some (APress _) => cursor_visible e' | _ => True end) as (e'&Hr&Hd'&Hw'&Hf&Hl).
  { exists e'. split; [done|]. split; [done|]. split; [by apply view_text|]. split; [done|]. split; [done|]. rewrite <-Hw' in *.
    by apply draw_all_ok. }
  clear Hw. revert e Hd. induction Ha as [|a acts Ha _ IH]; intros e Hd; [exists e; split_and!; try done; constructor|].
  destruct (act_runs a e m Hd Ha) as (e1&Hr&Hd1&Hw1&Hact). cbn [act_all]. rewrite (sbind_Ok _ _ _ _ _ Hr).
  destruct (IH e1 Hd1) as (e'&Hr'&Hd'&Hw'&Hf&Hl). exists e'. split; [done|]. split; [done|]. split; [congruence|]. split.
  - destruct a; [constructor; by destruct Hact as [<- _]|]. eapply follows_click; [|done]. rewrite !view_text by done. by rewrite Hact.
  - destruct acts as [|a' acts]; [|done]. cbn. destruct a; [|done]. injection Hr' as <-. apply Hact.
Qed.
End program.

(** ** A session *)

From S2P Require Import NextfsProps PagingRef MemoryRefine ElfProps SyscallDemo UserLib UserGui TextEdit.
#[local] Existing Instance Net.test_smoltcp.

Definition demo_pixels : list Z := replicate (Z.to_nat (320 * 240)) 0.
Lemma demo_pixels_length : Z.of_nat (length demo_pixels) = 320 * 240.
Proof. unfold demo_pixels. by rewrite length_replicate, Z2Nat.id. Qed.
#[local] Opaque demo_pixels.
Definition demo_editor : Editor := MkEditor (MkWindow 1 320 240 demo_pixels) [str "ab"; str "c"] 1 0 0 [] false.
Definition demo_actions : list action := [APress 0x08; APress 88; AClick 20 30; APress 10; APress 10].
(** The cursor's line is joined to the one before, typed into, clicked at, and broken twice. *)
Definition edited (e : Editor) : list (list Z) * nat * nat := (lines e, cursor_row e, cursor_col e).

Example editor_edits_text_witness : ∃ e',
  act_all [] [] 0 demo_actions demo_editor (Machine (replicate 20 0) demo_state) = (Ok e', Machine (replicate 20 0) demo_state) ∧
  (view e').1 ++ (view e').2 = join_with 10 (lines e') ∧ cursor_visible e'.
Proof.
  destruct (editor_edits_text [] [] 0 demo_actions demo_editor (Machine (replicate 20 0) demo_state)) as (e'&Hr&_&Ht&_&Hv&_).
  - split; [exists (str "c"); split; [reflexivity|cbn; lia]|]. repeat first [apply Forall_nil_2|apply Forall_cons_2|(apply (bool_decide_unpack _); reflexivity)].
  - repeat first [apply Forall_nil_2|apply Forall_cons_2|by split|exact I].
  - split; [reflexivity..|apply demo_pixels_length].
  - exists e'. split; [exact Hr|]. split; [exact Ht|exact Hv].
Defined.
Example session_text : (edited <$> match (act_all [] [] 0 demo_actions demo_editor (Machine (replicate 20 0) demo_state)).1 with Ok e => Some e | _ => None end) =
  Some ([str "a"; []; str "bXc"], 2%nat, 0%nat).
Proof. vm_compute. reflexivity. Qed.

Example saved_lines_return_witness : split_on 10 (decode_lossy (content [str "ab"; []; [0x20AC]])) = [str "ab"; []; [0x20AC]; []].
Proof.
  apply (saved_lines_return [str "ab"; []; [0x20AC]]); [done| |];
    repeat first [apply Forall_nil_2|apply Forall_cons_2|(apply (bool_decide_unpack _); reflexivity)|(unfold scalar; lia)].
Defined.
